(* ===== verification/_CoqProject ===== *)
-Q . S2P
Prelude.v
CLib.v
Siphash.v
Cidr.v
DnsName.v
Acl.v
Rrl.v
NameText.v
WireName.v
Compress.v
RrlKey.v
ZoneAttr.v
Ecs.v
Question.v
TypeName.v
CanonOrder.v
Edns.v
Cookie.v
EpochRcu.v
RdataText.v
Record.v
Svcb.v
RrWrite.v
RrFrame.v
RrSame.v
RrParse.v
RrRound.v
Tsig.v
TsigSpec.v
TsigRound.v
NameWalk.v
ZoneImage.v
ZoneLookup.v
Denial.v
ZoneArena.v
ZoneTtl.v
ZoneRules.v
ZoneFreeze.v
ZoneIndex.v
FreezeNames.v
FreezeRecords.v
ZoneCheck.v
FreezeSpec.v
FreezeMarks.v
FreezeHold.v
FreezeTop.v
ImageWrite.v
ZoneSample.v
ZoneProps.v
