(* ===== verification/Prelude.v ===== *)
(** * KariDNS: a verification development

    KariDNS (src/) is an authoritative DNS server in C. A packet is received,
    its question and EDNS options are read, the client is checked against rate
    limits, address lists, cookies and transaction signatures, the answer is
    composed from the records of a zone and written with name compression, and
    the zone is protected from its writers by epochs. A zone is loaded into a
    builder, indexed, checked against the rules of its records, and frozen into
    an image on which the queries are answered. This development models the
    parts between the packet and the zone, and those between the builder and
    the image, as executable Rocq functions, translated from the C source, and
    proves what makes them correct.

    ** How the code is modelled

    A [uintN_t] is a [Z] with its wrap-around written out ([u8], [u16], [u32],
    [u64], [s32]). A buffer is the list of its octets, a C string the list of
    the octets before the NUL. Code that may fail, or read and write memory,
    is in the monad [outcome]: [Ret], [Fail] (the error return of the
    function), [Oob] (an access outside the object) and [NoFuel] (a loop that
    did not end within its bound). Memory safety of an operation is that it is
    [defined], neither [Oob] nor [NoFuel], for every input. Threads are step
    relations on a shared state.

    ** The files

    - Prelude, CLib: machine integers, buffers, the monad, lemmas and tactics;
      the functions of the C library that the code calls.
    - Siphash (dns_siphash.h), Cidr (dns_cidr.c, match_cidr), Acl
      (dns_tsig_acl.c): the keyed hash, address prefixes, and the lists that
      decide who may transfer or update a zone.
    - Rrl, RrlKey (dns_rrl.c): response rate limiting, its buckets under
      concurrent threads and the keys the responses are counted under.
    - DnsName, TypeName, CanonOrder (dns_utils.c, dns_utils.h): names in text
      form, record type names, and the canonical order of RFC 4034.
    - NameText, WireName, Compress (dns_wire.c): names between text and wire,
      reading names from packets, and writing them with compression.
    - Question, Edns, Cookie (dns_wire.c, dns_edns_ecs.c, dns_query_engine.c):
      the question section, the OPT record, and DNS cookies.
    - ZoneAttr, Ecs (dns_zone_image.c, dns_edns_ecs.c): the tables of a zone
      image and what a client sees of the zone.
    - EpochRcu (dns_epoch_rcu.c): epoch based reclamation.
    - RdataText, Record, Svcb, RrWrite, RrFrame, RrSame, RrParse, RrRound
      (dns_wire.c): resource records: the text of their fields, the writer
      [serialize_dns_record] with its pre-parsed copies, the reader
      [parse_resource_record], and the round trip. RrSame shows that the RDATA
      that is written does not depend on the room and on what was written
      before, but for the names that are compressed.
    - Tsig, TsigSpec, TsigRound (dns_wire.c, dns_tsig_acl.c): transaction
      signatures of requests and responses.
    - ZoneArena, ZoneTtl, ZoneRules, ZoneIndex, ZoneCheck (dns_zone_parser.c,
      dns_wire.c): the builder of a zone: [build_zone_index] with the TTLs of
      record sets, the NSEC and NSEC3 indexes and the choice of the NSEC3
      parameters; the rules a zone must keep; canonical RDATA. ZoneTtl,
      ZoneIndex and ZoneCheck hold the specifications and lemmas.
    - NameWalk, ZoneImage, ZoneLookup (dns_utils.c, dns_zone_image.c,
      dns_zone_image.h): the image of a zone as a record of tables, its
      lookups and accessors, and what they rely on ([image_ok]).
    - ZoneFreeze, FreezeNames, FreezeRecords, FreezeSpec, FreezeTop
      (dns_zone_image.c): [zone_image_freeze] with all its steps, the lemmas of
      each group of steps, and what the image then holds ([holds_zone]).
    - ImageWrite (dns_zone_image.c): [image_serialize_rr], which writes a
      record of an image, and its agreement with [serialize_dns_record].
    - Denial (dns_query_engine.c): existence of names for a client, the
      closest encloser and the next closer name, and the NSEC and NSEC3
      records that match or cover a name.
    - ZoneSample, ZoneProps: a signed zone on which the hypotheses are
      evaluated, and the theorems on zones.

    A definition has the name of the C function it translates; helpers that
    have a name of their own translate a part of a function.

    ** What is shown

    - Safety: readers of packets and of zone tables stay inside their buffers
      and end, for every input; writers stay inside the response; a reader
      thread never uses a freed zone; no packet is accepted as authentic
      without the keyed hash of its contents; an address, a key or a cookie
      is accepted only by the rule the configuration states.
    - Functional correctness: comparison, order and membership of names are
      those of their label lists; a compressed name is read back as the name
      that was written; an access list is decided by its first match; the
      client subnet, its scope and the locations are those of the tables;
      SipHash is the function of its reference. The index of a zone is sorted
      and complete; a lookup in the image finds a name exactly when the zone
      has it; a name exists exactly when the zone has data at it or below it;
      in a linked chain the NSEC or NSEC3 record that is found covers the name.
    - Refinement and errors: the image that is made of a zone holds exactly the
      records of the zone in file order, and a zone is refused for the listed
      reasons only.
    - Round trips: names, records, error responses, cookies, zone tables and
      signatures are read back as they were written.
    - Equivalences: the pre-parsed record is written like the text and the
      record of an image like the record of the zone, the fast question parser
      agrees with the general one, the binary list with the textual one.
    - Bounds and liveness: the rate limiter answers at most burst plus rate
      requests, independently of other clients; the writer of the epochs
      ends its wait when the readers do and is not starved by new readers.

    ** Bounds and fuel

    Loops whose end is not structural take fuel that is a bound of the number
    of rounds: the length of the text or packet for walks that advance; 127
    labels, and pointers to places not visited before, for names (the fuel is
    the number of octets plus one); 129 for the labels of a name that is
    limited to 255 octets; the number of slots for the probing of a hash
    table, which has a free slot; the number of entries for a binary search;
    64 doublings for the size of a table, which exceed every [size_t]. The
    theorems show that the fuel is never used up.

    ** Assumptions

    The platform is FreeBSD/amd64. Allocations succeed. [inet_pton],
    [inet_ntop] of IPv6, [qsort], the base64 codec, HMAC and SHA-1 of OpenSSL,
    the random secrets and the clock are parameters, most of them as the type
    classes [InetPton], [EvpBase64], [Hmac], [Sha1] and [Qsort], whose laws are
    their documentation; the classes the theorems use have a plain instance, so
    that the hypotheses are known to be satisfiable. The RDATA of LOC records, computed in floating
    point, is a parameter. In EpochRcu the fences make the accesses
    sequentially consistent, except for the relaxed load of the epoch.

    ** Not modelled

    Sockets, processes, logging, the parsers of configuration and zone files,
    the database drivers and the signer: input and output around the modelled
    core, or the glue of libraries. SIG(0) and the DNSSEC self checks are
    operations on OpenSSL keys. Of the zone image, the offsets of the tables
    inside the one block of memory (only its size is computed). Of the query
    engine, the composition of whole answers, which goes through the response
    cache, the sibling zones of a view and thread-local buffers. *)

From Stdlib Require Export ZArith Lia.
From stdpp Require Export base tactics numbers list strings option sets gmap.

Declare Scope kari_scope.
Delimit Scope kari_scope with kari.
Global Open Scope kari_scope.
Global Open Scope Z_scope.

(** ** Machine integers

    A [uintN_t] is a [Z] in [[0, 2^N)]; the conversions below are the
    modular reductions the C standard prescribes for a conversion to an
    unsigned type, and two's complement for a signed one. *)

Definition u8 (z : Z) : Z := z mod 256.
Definition u16 (z : Z) : Z := z mod 65536.
Definition u32 (z : Z) : Z := z mod 4294967296.
Definition u64 (z : Z) : Z := z mod 18446744073709551616.

Definition s32 (z : Z) : Z :=
  let r := u32 z in if r <? 2147483648 then r else r - 4294967296.

(** ** Bytes and C strings

    A buffer is a [list Z] of octets. A C string is the list of its octets
    before the terminating NUL. *)

Definition isbyte (z : Z) : Prop := 0 <= z < 256.
Abbreviation bytes := (Forall isbyte).

Definition ischar (z : Z) : Prop := 0 < z < 256.
Abbreviation cstring := (Forall ischar).

Definition str (s : string) : list Z :=
  map (fun a => Z.of_N (Ascii.N_of_ascii a)) (String.list_ascii_of_string s).

Abbreviation len l := (Z.of_nat (length l)).

(** ** The outcome of a C function

    [Ret] is a normal return, [Fail] the function's error return ([-1],
    [false], [NULL], [(size_t)-1]). [Oob] is a read or a write outside the
    object, which C leaves undefined; [NoFuel] marks a loop bound of the
    model that was too small. Neither is a behaviour of the program: the
    safety theorems show that they do not happen. *)

Inductive outcome (A : Type) : Type :=
| Ret (a : A)
| Fail
| Oob
| NoFuel.
Arguments Ret {A} a.
Arguments Fail {A}.
Arguments Oob {A}.
Arguments NoFuel {A}.

Definition obind {A B} (o : outcome A) (k : A -> outcome B) : outcome B :=
  match o with
  | Ret a => k a
  | Fail => Fail
  | Oob => Oob
  | NoFuel => NoFuel
  end.

Notation "'let!' x := e 'in' k" := (obind e (fun x => k))
  (at level 10, x name, e at level 100, k at level 200) : kari_scope.
Notation "'let!' ' p := e 'in' k" := (obind e (fun x => match x with p => k end))
  (at level 10, p pattern, e at level 100, k at level 200) : kari_scope.

(** A guard with an early error return: [if (c) return -1;]. *)
Notation "'fail_if' c ';;' k" := (if c then Fail else k)
  (at level 10, c at level 99, k at level 200) : kari_scope.

(** The error returns of a call that the caller maps to a value. *)
Definition orelse {A B} (o : outcome A) (d : B) (k : A -> outcome B) : outcome B :=
  match o with Ret a => k a | Fail => Ret d | Oob => Oob | NoFuel => NoFuel end.

Definition defined {A} (o : outcome A) : Prop := o <> Oob /\ o <> NoFuel.

(** ** Buffer accesses *)

Definition rd (buf : list Z) (i : Z) : outcome Z :=
  if i <? 0 then Oob
  else match buf !! Z.to_nat i with Some b => Ret b | None => Oob end.

Definition wr (buf : list Z) (i v : Z) : outcome (list Z) :=
  if (0 <=? i) && (i <? len buf) then Ret (<[Z.to_nat i := v]> buf) else Oob.

(** [memcpy(&buf[i], src, |src|)], octet by octet. *)
Fixpoint wr_list (buf : list Z) (i : Z) (src : list Z) : outcome (list Z) :=
  match src with
  | [] => Ret buf
  | v :: src' => let! buf' := wr buf i v in wr_list buf' (i + 1) src'
  end.

(** [buf[w++] = c] in an object of [cap] octets, of which the list holds those
    already written; and [memcpy] of several octets there. *)
Definition put (cap : Z) (buf : list Z) (c : Z) : outcome (list Z) :=
  if len buf <? cap then Ret (buf ++ [c]) else Oob.

Definition put_list (cap : Z) (buf src : list Z) : outcome (list Z) :=
  if len buf + len src <=? cap then Ret (buf ++ src) else Oob.

(** The [n] octets at [i]. *)
Definition slice (buf : list Z) (i n : Z) : outcome (list Z) :=
  if (0 <=? i) && (0 <=? n) && (i + n <=? len buf) then Ret (take (Z.to_nat n) (drop (Z.to_nat i) buf)) else Oob.

(** Big-endian 16-bit field. *)
Definition rd16 (buf : list Z) (i : Z) : outcome Z :=
  let! hi := rd buf i in
  let! lo := rd buf (i + 1) in
  Ret (Z.lor (Z.shiftl hi 8) lo).

(** ** Characters (the C locale) *)

Definition isdigit (c : Z) : bool := (48 <=? c) && (c <=? 57).
Definition isupper (c : Z) : bool := (65 <=? c) && (c <=? 90).
Definition islower (c : Z) : bool := (97 <=? c) && (c <=? 122).
Definition tolower (c : Z) : Z := if isupper c then c + 32 else c.
Definition toupper (c : Z) : Z := if islower c then c - 32 else c.

(** The inline case folding of the code: [if (c >= 'A' && c <= 'Z') c |= 0x20;]. *)
Definition lc (c : Z) : Z := if isupper c then Z.lor c 32 else c.

(** ** Lemmas on the outcome monad *)

Lemma obind_Ret {A B} (o : outcome A) (k : A -> outcome B) b :
  obind o k = Ret b <-> exists a, o = Ret a /\ k a = Ret b.
Proof. destruct o; simpl; naive_solver. Qed.

Lemma obind_defined {A B} (o : outcome A) (k : A -> outcome B) :
  defined o -> (forall a, o = Ret a -> defined (k a)) -> defined (obind o k).
Proof. unfold defined. destruct o; simpl; naive_solver. Qed.

Lemma defined_Ret {A} (a : A) : defined (Ret a).
Proof. split; discriminate. Qed.

Lemma defined_Fail {A} : defined (@Fail A).
Proof. split; discriminate. Qed.

Create HintDb kari discriminated.
#[export] Hint Resolve defined_Ret defined_Fail : kari.

(** Take apart an equation [obind e k = Ret b] in the context. *)
Ltac bind_inv H :=
  lazymatch type of H with
  | obind ?e _ = Ret _ =>
      let a := fresh "a" in let Ha := fresh "Ha" in
      apply obind_Ret in H; destruct H as (a & Ha & H)
  end.

(** Case analysis on the boolean test of an [if] in the goal or in a
    hypothesis; [lia] reads the equations it leaves. *)
Ltac case_if :=
  match goal with
  | |- context [if ?c then _ else _] => let E := fresh "E" in destruct c eqn:E
  end.
Ltac case_if_in H :=
  match type of H with
  | context [if ?c then _ else _] => let E := fresh "E" in destruct c eqn:E
  end.

(** Evaluate the lengths of literal lists; then linear arithmetic. *)
Ltac nat_lit n := lazymatch n with O => idtac | S ?m => nat_lit m end.
Ltac eval_lengths :=
  cbn [length] in *;
  repeat match goal with
  | H : context [Z.of_nat ?n] |- _ =>
      nat_lit n; let z := eval vm_compute in (Z.of_nat n) in change (Z.of_nat n) with z in H
  | |- context [Z.of_nat ?n] => nat_lit n; let z := eval vm_compute in (Z.of_nat n) in change (Z.of_nat n) with z
  end.
Ltac cmp_prop :=
  repeat match goal with
  | H : (_ <=? _) = true |- _ => apply Z.leb_le in H
  | H : (_ <=? _) = false |- _ => apply Z.leb_gt in H
  | H : (_ <? _) = true |- _ => apply Z.ltb_lt in H
  | H : (_ <? _) = false |- _ => apply Z.ltb_ge in H
  | H : (_ =? _) = true |- _ => apply Z.eqb_eq in H
  | H : (_ =? _) = false |- _ => apply Z.eqb_neq in H
  | H : _ && _ = true |- _ => apply andb_true_iff in H; destruct H
  | H : _ && _ = false |- _ => apply andb_false_iff in H; destruct H
  | H : _ || _ = true |- _ => apply orb_true_iff in H; destruct H
  | H : _ || _ = false |- _ => apply orb_false_iff in H; destruct H
  end.
Ltac len_lia := cmp_prop; eval_lengths; lia.

(** The hypotheses are arithmetically contradictory. *)
Ltac ex_lia := exfalso; len_lia.

(** Every test of the goal, the inner ones first. *)
Ltac case_ifs :=
  repeat match goal with
  | |- context [if ?c then _ else _] =>
      lazymatch c with context [if _ then _ else _] => fail | _ => idtac end;
      let E := fresh "E" in destruct c eqn:E
  end.

(** Evaluate the reads at a literal offset of a buffer whose first octets
    are known. *)
Ltac rd_eval :=
  repeat match goal with
         | |- context [rd ?l ?i] => let r := eval lazy in (rd l i) in change (rd l i) with r
         end;
  cbn [obind].

Ltac to_nat_eval :=
  repeat match goal with
         | |- context [Z.to_nat ?z] => is_ground z; let n := eval vm_compute in (Z.to_nat z) in change (Z.to_nat z) with n
         end.

(** [Forall P] of a literal list: one goal per element. *)
Ltac forall_list := repeat first [apply Forall_nil_2 | apply Forall_cons_2].

(** [bytes] of a literal list, by evaluation. *)
Lemma bytes_check l : forallb (fun b => (0 <=? b) && (b <? 256)) l = true -> bytes l.
Proof. rewrite forallb_forall. intros H. apply Forall_forall. intros b Hb%list_elem_of_In%H. cbn in Hb. unfold isbyte. lia. Qed.

Lemma chars_check l : forallb (fun b => (0 <? b) && (b <? 256)) l = true -> cstring l.
Proof. rewrite forallb_forall. intros H. apply Forall_forall. intros b Hb%list_elem_of_In%H. cbn in Hb. unfold ischar. lia. Qed.

Lemma NoDup_check (l : list Z) : bool_decide (NoDup l) = true -> NoDup l.
Proof. apply bool_decide_eq_true_1. Qed.

Ltac bytes_lit := apply bytes_check; vm_compute; reflexivity.
Ltac chars_lit := apply chars_check; vm_compute; reflexivity.

(** ** Lemmas on buffer accesses *)

Lemma rd_Ret buf i b : rd buf i = Ret b <-> 0 <= i /\ buf !! Z.to_nat i = Some b.
Proof.
  unfold rd. case_if; [split; [discriminate | lia] |].
  destruct (buf !! _); naive_solver lia.
Qed.

Lemma rd_in buf i : 0 <= i < len buf -> exists b, rd buf i = Ret b.
Proof.
  intros Hi. destruct (lookup_lt_is_Some_2 buf (Z.to_nat i)) as [b Hb]; [lia |].
  exists b. apply rd_Ret. auto with lia.
Qed.

Lemma rd_lt buf i b : rd buf i = Ret b -> 0 <= i < len buf.
Proof. intros [Hi Hb]%rd_Ret. apply lookup_lt_Some in Hb. lia. Qed.

Lemma rd_defined buf i : 0 <= i < len buf -> defined (rd buf i).
Proof. intros [b ->]%rd_in. apply defined_Ret. Qed.

Lemma rd_byte buf i b : bytes buf -> rd buf i = Ret b -> isbyte b.
Proof. intros Hb [_ Hi]%rd_Ret. by apply (Forall_lookup_1 _ _ _ _ Hb Hi). Qed.

Lemma rd_not_NoFuel buf i : rd buf i <> NoFuel.
Proof. unfold rd. case_if; [done |]. by destruct (_ !! _). Qed.

Lemma rd_not_Fail buf i : rd buf i <> Fail.
Proof. unfold rd. case_if; [done |]. by destruct (_ !! _). Qed.

Lemma rd_0 b buf : rd (b :: buf) 0 = Ret b.
Proof. done. Qed.

Lemma rd_cons b buf i : 0 < i -> rd (b :: buf) i = rd buf (i - 1).
Proof.
  intros Hi. unfold rd. rewrite !(proj2 (Z.ltb_ge _ _)) by lia.
  by replace (Z.to_nat i) with (S (Z.to_nat (i - 1))) by lia.
Qed.

Lemma rd_app_l a b i : i < len a -> rd (a ++ b) i = rd a i.
Proof.
  intros Hi. unfold rd. case_if; [done |]. by rewrite lookup_app_l by lia.
Qed.

Lemma rd_app_r a b i : len a <= i -> rd (a ++ b) i = rd b (i - len a).
Proof.
  intros Hi. unfold rd. rewrite !(proj2 (Z.ltb_ge _ _)) by lia.
  rewrite lookup_app_r by lia. by replace (Z.to_nat i - length a)%nat with (Z.to_nat (i - len a)) by lia.
Qed.

Lemma wr_Ret buf i v buf' :
  wr buf i v = Ret buf' <-> 0 <= i < len buf /\ buf' = <[Z.to_nat i := v]> buf.
Proof. unfold wr. case_if; split; naive_solver lia. Qed.

Lemma wr_in buf i v : 0 <= i < len buf -> wr buf i v = Ret (<[Z.to_nat i := v]> buf).
Proof. intros. by apply wr_Ret. Qed.

Lemma wr_length buf i v buf' : wr buf i v = Ret buf' -> length buf' = length buf.
Proof. intros [_ ->]%wr_Ret. apply length_insert. Qed.

Lemma put_in cap buf c : len buf < cap -> put cap buf c = Ret (buf ++ [c]).
Proof. intros. unfold put. by rewrite (proj2 (Z.ltb_lt _ _)). Qed.

Lemma put_list_in cap buf src : len buf + len src <= cap -> put_list cap buf src = Ret (buf ++ src).
Proof. intros. unfold put_list. by rewrite (proj2 (Z.leb_le _ _)). Qed.

Lemma slice_in buf i n : 0 <= i -> 0 <= n -> i + n <= len buf -> slice buf i n = Ret (take (Z.to_nat n) (drop (Z.to_nat i) buf)).
Proof. intros. unfold slice. case_if; [done | lia]. Qed.

(** A buffer with [src] stored at [i]. *)
Definition splice (buf : list Z) (i : Z) (src : list Z) : list Z :=
  take (Z.to_nat i) buf ++ src ++ drop (Z.to_nat i + length src) buf.

Lemma splice_nil buf i : splice buf i [] = buf.
Proof. unfold splice. cbn. rewrite Nat.add_0_r. apply take_drop. Qed.

Lemma length_splice buf i src : 0 <= i -> i + len src <= len buf -> length (splice buf i src) = length buf.
Proof. intros. unfold splice. rewrite !length_app, length_take, length_drop. lia. Qed.

Lemma splice_app buf i a b : 0 <= i -> i + len a + len b <= len buf ->
  splice (splice buf i a) (i + len a) b = splice buf i (a ++ b).
Proof.
  intros Hi Hl. unfold splice. rewrite Z2Nat.inj_add, Nat2Z.id by lia.
  set (n := Z.to_nat i). assert (length (take n buf ++ a) = (n + length a)%nat) as Ha
    by (rewrite length_app, length_take; lia).
  rewrite (app_assoc (take n buf) a). rewrite take_app_le, drop_app_ge, <- Ha, firstn_all by lia.
  rewrite drop_drop, <- !app_assoc. do 3 f_equal. f_equal. rewrite Ha, length_app. lia.
Qed.

Lemma wr_list_splice buf i src : 0 <= i -> i + len src <= len buf -> wr_list buf i src = Ret (splice buf i src).
Proof.
  revert buf i. induction src as [| c src IH]; intros buf i Hi Hl; cbn [wr_list]; [by rewrite splice_nil |].
  cbn [length] in Hl. rewrite wr_in by lia. cbn [obind].
  assert (<[Z.to_nat i := c]> buf = splice buf i [c]) as ->.
  { unfold splice. rewrite insert_take_drop by lia. by rewrite Nat.add_1_r. }
  rewrite IH by (rewrite ?length_splice by (cbn; lia); lia). change (i + 1) with (i + len [c]).
  by rewrite splice_app by (cbn; lia).
Qed.

(** ** Bit operations as arithmetic *)

Lemma testbit_above a n i : 0 <= a < 2 ^ n -> n <= i -> Z.testbit a i = false.
Proof.
  intros Ha Hi. destruct (Z.lt_ge_cases n 0).
  - rewrite Z.pow_neg_r in Ha by done. lia.
  - apply (Z.bounded_iff_bits_nonneg n a); lia.
Qed.

Lemma lor_shiftl_add a b n :
  0 <= n -> 0 <= a < 2 ^ n -> Z.lor a (Z.shiftl b n) = a + b * 2 ^ n.
Proof.
  intros Hn Ha. rewrite <- Z.shiftl_mul_pow2 by done. symmetry.
  apply Z.add_nocarry_lor, Z.bits_inj'. intros i Hi.
  rewrite Z.land_spec, Z.bits_0, Z.shiftl_spec by done.
  destruct (Z.lt_ge_cases i n).
  - rewrite (Z.testbit_neg_r b) by lia. apply andb_false_r.
  - by rewrite (testbit_above a n) by done.
Qed.

Lemma land_mod a n : 0 <= n -> Z.land a (Z.ones n) = a mod 2 ^ n.
Proof. apply Z.land_ones. Qed.

Lemma isbyte_lor a b n : 0 <= n -> 0 <= a < 2 ^ n -> 0 <= b < 2 ^ n -> 0 <= Z.lor a b < 2 ^ n.
Proof.
  intros Hn Ha Hb. assert (0 <= Z.lor a b) by (apply Z.lor_nonneg; lia).
  split; [done |]. apply Z.bounded_iff_bits_nonneg; [done.. |]. intros i Hi.
  by rewrite Z.lor_spec, !(testbit_above _ n) by done.
Qed.

(** ** Case folding *)

Lemma lc_tolower c : lc c = tolower c.
Proof.
  unfold lc, tolower. destruct (isupper c) eqn:E; [| done]. unfold isupper in E.
  assert (c = 65 \/ c = 66 \/ c = 67 \/ c = 68 \/ c = 69 \/ c = 70 \/ c = 71 \/ c = 72 \/ c = 73 \/
    c = 74 \/ c = 75 \/ c = 76 \/ c = 77 \/ c = 78 \/ c = 79 \/ c = 80 \/ c = 81 \/ c = 82 \/ c = 83 \/
    c = 84 \/ c = 85 \/ c = 86 \/ c = 87 \/ c = 88 \/ c = 89 \/ c = 90) as Hc by lia.
  by repeat (destruct Hc as [-> | Hc]; [done |]); subst.
Qed.

Lemma tolower_idem c : tolower (tolower c) = tolower c.
Proof. unfold tolower, isupper. repeat case_if; lia. Qed.

Lemma lc_idem c : lc (lc c) = lc c.
Proof. rewrite !lc_tolower. apply tolower_idem. Qed.

Lemma lc_byte c : isbyte c -> isbyte (lc c).
Proof. rewrite lc_tolower. unfold isbyte, tolower, isupper. case_if; lia. Qed.

(** ** Slices *)

Lemma rd_drop buf p i : 0 <= p -> 0 <= i -> rd buf (p + i) = rd (drop (Z.to_nat p) buf) i.
Proof.
  intros Hp Hi. unfold rd. rewrite !(proj2 (Z.ltb_ge _ _)) by lia.
  rewrite lookup_drop. by replace (Z.to_nat p + Z.to_nat i)%nat with (Z.to_nat (p + i)) by lia.
Qed.

Lemma rd_take buf n i : i < Z.of_nat n -> rd (take n buf) i = rd buf i.
Proof. intros Hi. unfold rd. case_if; [done |]. by rewrite lookup_take_lt by lia. Qed.

Lemma rd_splice_l buf i src j : 0 <= i -> i + len src <= len buf -> j < i -> rd (splice buf i src) j = rd buf j.
Proof.
  intros Hi Hl Hj. unfold splice. rewrite rd_app_l by (rewrite length_take; lia). by rewrite rd_take by lia.
Qed.

Lemma drop_splice buf i src : 0 <= i -> i + len src <= len buf ->
  drop (Z.to_nat i) (splice buf i src) = src ++ drop (Z.to_nat i + length src) buf.
Proof.
  intros Hi Hl. unfold splice. rewrite drop_app_ge by (rewrite length_take; lia).
  rewrite length_take, Nat.min_l, Nat.sub_diag by lia. done.
Qed.

Lemma u64_small z : 0 <= z < 2 ^ 64 -> u64 z = z.
Proof. apply Z.mod_small. Qed.
Lemma u32_small z : 0 <= z < 2 ^ 32 -> u32 z = z.
Proof. apply Z.mod_small. Qed.
Lemma u16_small z : 0 <= z < 2 ^ 16 -> u16 z = z.
Proof. apply Z.mod_small. Qed.
Lemma u8_small z : 0 <= z < 2 ^ 8 -> u8 z = z.
Proof. apply Z.mod_small. Qed.
Lemma u64_range z : 0 <= u64 z < 2 ^ 64.
Proof. by apply Z.mod_pos_bound. Qed.
Lemma u32_range z : 0 <= u32 z < 2 ^ 32.
Proof. by apply Z.mod_pos_bound. Qed.
Lemma u16_range z : 0 <= u16 z < 2 ^ 16.
Proof. by apply Z.mod_pos_bound. Qed.
Lemma u8_range z : isbyte (u8 z).
Proof. by apply Z.mod_pos_bound. Qed.

(** ** Little-endian words *)

Lemma little_endian_app a b :
  little_endian_to_Z 8 (a ++ b) = Z.lor (little_endian_to_Z 8 a) (Z.shiftl (little_endian_to_Z 8 b) (8 * len a)).
Proof.
  induction a as [| x a IH]; simpl; [by rewrite Z.shiftl_0_r |].
  rewrite IH, Z.shiftl_lor, Z.lor_assoc, Z.shiftl_shiftl by lia.
  do 2 f_equal. lia.
Qed.

Lemma little_endian_zeros n : little_endian_to_Z 8 (replicate n 0) = 0.
Proof. induction n as [| n IH]; simpl; [done |]. by rewrite IH. Qed.

(** ** Finite checks: a statement over a range of integers, by evaluation *)

Lemma forallb_range (f : Z -> bool) lo n :
  forallb f (seqZ lo n) = true -> forall i, lo <= i < lo + n -> f i = true.
Proof.
  intros Hf i Hi. rewrite forallb_forall in Hf. apply Hf, list_elem_of_In, elem_of_seqZ. lia.
Qed.
