(* ===== verification/CLib.v ===== *)
(** * The C library functions the code calls

    [strtol], [strtoull], [strchr], [strcasecmp] and the conversions between
    numbers and decimal text, on C strings (the octets before the NUL). The
    target is FreeBSD/amd64: [long] has 64 bits. *)

From S2P Require Import Prelude.

Module CLib.

Definition LONG_MAX : Z := 9223372036854775807.
Definition LONG_MIN : Z := -9223372036854775808.
Definition ULLONG_MAX : Z := 18446744073709551615.

Definition isspace (c : Z) : bool := (c =? 32) || ((9 <=? c) && (c <=? 13)).

Fixpoint skip_spaces (s : list Z) : list Z :=
  match s with
  | c :: s' => if isspace c then skip_spaces s' else s
  | [] => []
  end.

(** The value of a run of decimal digits and what follows it; [acc] is the
    value so far. *)
Fixpoint digits (s : list Z) (acc : Z) : Z * list Z :=
  match s with
  | c :: s' => if isdigit c then digits s' (acc * 10 + (c - 48)) else (acc, s)
  | [] => (acc, [])
  end.

Definition starts_digit (s : list Z) : bool :=
  match s with c :: _ => isdigit c | [] => false end.

(** An optional sign. *)
Definition sign (s : list Z) : bool * list Z :=
  match s with
  | c :: s' => if c =? 45 then (true, s') else if c =? 43 then (false, s') else (false, s)
  | [] => (false, [])
  end.

(** [strtol(s, &end, 10)]: the value, clamped to the range of [long], and the
    text at [end]. Without digits the value is 0 and [end] is [s]. *)
Definition strtol (s : list Z) : Z * list Z :=
  let (neg, body) := sign (skip_spaces s) in
  if starts_digit body then
    let (v, rest) := digits body 0 in
    (if neg then Z.max LONG_MIN (- v) else Z.min LONG_MAX v, rest)
  else (0, s).

(** [strtoull(s, &end, 10)]; a minus sign negates modulo 2^64. *)
Definition strtoull (s : list Z) : Z * list Z :=
  let (neg, body) := sign (skip_spaces s) in
  if starts_digit body then
    let (v, rest) := digits body 0 in
    (if ULLONG_MAX <? v then ULLONG_MAX else if neg then u64 (- v) else v, rest)
  else (0, s).

(** [strchr(s, c)]: the text before and after the first [c]. *)
Fixpoint strchr (c : Z) (s : list Z) : option (list Z * list Z) :=
  match s with
  | [] => None
  | x :: s' =>
      if x =? c then Some ([], s')
      else match strchr c s' with
           | Some (before, after) => Some (x :: before, after)
           | None => None
           end
  end.

(** [strcasecmp(a, b) == 0] *)
Definition strcaseeq (a b : list Z) : bool := bool_decide (map tolower a = map tolower b).

(** [strcmp(a, b) == 0] *)
Definition streq (a b : list Z) : bool := bool_decide (a = b).

(** ["%u"]: decimal digits without leading zeros. The fuel is the number of
    binary digits, an upper bound of the number of decimal ones. *)
Fixpoint dec_digits (fuel : nat) (v : Z) (acc : list Z) : list Z :=
  match fuel with
  | O => acc
  | S fuel =>
      let acc := (48 + v mod 10) :: acc in
      if v <? 10 then acc else dec_digits fuel (v / 10) acc
  end.

Definition fmt_u (v : Z) : list Z := dec_digits (S (Z.to_nat (Z.log2 v))) v [].

(** ** Lemmas *)

Lemma digits_app ds rest acc :
  Forall (fun c => isdigit c = true) ds -> starts_digit rest = false ->
  digits (ds ++ rest) acc = (fold_left (fun a c => a * 10 + (c - 48)) ds acc, rest).
Proof.
  intros Hds Hrest. revert acc. induction Hds as [| c ds Hc _ IH]; intros acc; simpl.
  - destruct rest as [| c rest]; [done |]. simpl in *. by rewrite Hrest.
  - by rewrite Hc, IH.
Qed.

Lemma strchr_Some c s before after :
  strchr c s = Some (before, after) <-> s = before ++ c :: after /\ c ∉ before.
Proof.
  revert before. induction s as [| x s IH]; intros before; simpl.
  - split; [done |]. intros [H _]. by destruct before.
  - destruct (Z.eqb_spec x c) as [-> | Hne].
    + split; [intros [= <- <-]; split; [done | apply not_elem_of_nil] |].
      intros [H Hn]. destruct before as [| y b]; simplify_eq/=; [done |]. set_solver.
    + destruct (strchr c s) as [[b a] |]; split.
      * intros [= <- <-]. destruct (proj1 (IH b) eq_refl) as [-> Hn]. split; [done |]. set_solver.
      * intros [H Hn]. destruct before as [| y b']; simplify_eq/=.
        assert (Some (b, a) = Some (b', after)) as [= -> ->]; [| done].
        apply IH. split; [done |]. set_solver.
      * done.
      * intros [H Hn]. destruct before as [| y b']; simplify_eq/=.
        assert (None = Some (b', after)) as [=]. apply IH. split; [done |]. set_solver.
Qed.

Lemma dec_digits_spec fuel v acc :
  0 <= v < 10 ^ Z.of_nat fuel ->
  exists ds, dec_digits fuel v acc = ds ++ acc /\ Forall (fun c => isdigit c = true) ds /\
    (ds <> [] \/ fuel = O) /\ forall a, fold_left (fun a c => a * 10 + (c - 48)) ds a = a * 10 ^ len ds + v.
Proof.
  revert v acc. induction fuel as [| fuel IH]; intros v acc Hv.
  - exists []. simpl in *. split_and!; [done | constructor | by right | intros a; simpl; lia].
  - cbn [dec_digits]. pose proof (Z.div_mod v 10 ltac:(lia)). pose proof (Z.mod_pos_bound v 10 ltac:(lia)).
    destruct (Z.ltb_spec v 10).
    + exists [48 + v mod 10]. rewrite (Z.mod_small v 10) by lia. split_and!; [done | | by left | intros a; simpl; lia].
      constructor; [unfold isdigit; lia | constructor].
    + rewrite Nat2Z.inj_succ, Z.pow_succ_r in Hv by lia.
      destruct (IH (v / 10) ((48 + v mod 10) :: acc)) as (ds & -> & Hd & _ & Hf); [split; lia |].
      exists (ds ++ [48 + v mod 10]). split_and!.
      * by rewrite <- app_assoc.
      * apply Forall_app. split; [done |]. constructor; [unfold isdigit; lia | constructor].
      * left. by destruct ds.
      * intros a. rewrite fold_left_app, Hf, length_app. simpl.
        rewrite Nat2Z.inj_add, Z.pow_add_r by lia. change (10 ^ Z.of_nat 1) with 10. lia.
Qed.

Lemma dec_fuel_enough v : 0 <= v -> 0 <= v < 10 ^ Z.of_nat (S (Z.to_nat (Z.log2 v))).
Proof.
  intros Hv. split; [done |]. destruct (Z.eq_dec v 0) as [-> | Hnz]; [done |].
  pose proof (Z.log2_nonneg v). pose proof (Z.log2_spec v ltac:(lia)) as [_ Hlt].
  eapply Z.lt_le_trans; [exact Hlt |]. rewrite Nat2Z.inj_succ, Z2Nat.id by done.
  apply Z.pow_le_mono_l. lia.
Qed.

(** Printing a number with ["%u"] and reading it back. *)
Lemma digits_fmt_u v rest :
  0 <= v -> starts_digit rest = false -> digits (fmt_u v ++ rest) 0 = (v, rest) /\ starts_digit (fmt_u v ++ rest) = true.
Proof.
  intros Hv Hrest. unfold fmt_u.
  destruct (dec_digits_spec (S (Z.to_nat (Z.log2 v))) v []) as (ds & -> & Hd & Hne & Hf).
  { by apply dec_fuel_enough. }
  rewrite app_nil_r. destruct Hne as [Hne | [=]]. split.
  - rewrite digits_app by done. by rewrite Hf.
  - destruct ds as [| c ds]; [done |]. by apply Forall_cons_1 in Hd as [Hc _].
Qed.

Lemma fmt_u_digits v : 0 <= v -> Forall (fun c => isdigit c = true) (fmt_u v) /\ fmt_u v <> [].
Proof.
  intros Hv. destruct (dec_digits_spec (S (Z.to_nat (Z.log2 v))) v []) as (ds & Hds & Hd & Hne & _).
  { by apply dec_fuel_enough. }
  unfold fmt_u. rewrite Hds, app_nil_r. destruct Hne as [Hne | [=]]. done.
Qed.

End CLib.
