(* ===== verification/Siphash.v ===== *)
(** * SipHash-2-4 (src/dns_siphash.h)

    The keyed hash behind the rate limiter's buckets and the DNS server
    cookies. The code reads the message through a pointer, eight octets at a
    time, and assembles the last word in a [switch] that falls through; the
    reference is the padding of the SipHash paper: the message, zeros up to
    seven octets modulo eight, and one octet with the length modulo 256. *)

From Stdlib Require Import Btauto.
From S2P Require Import Prelude.

Module Siphash.

(** ** The code *)

Definition shl64 (x n : Z) : Z := u64 (Z.shiftl x n).

(** [DNS_SIPHASH_ROTL] *)
Definition rotl (x b : Z) : Z := u64 (Z.lor (shl64 x b) (Z.shiftr x (64 - b))).

Record sip := Sip { v0 : Z; v1 : Z; v2 : Z; v3 : Z }.

(** [DNS_SIPROUND], statement by statement. *)
Definition sipround (s : sip) : sip :=
  let (v0, v1, v2, v3) := s in
  let v0 := u64 (v0 + v1) in let v1 := rotl v1 13 in let v1 := Z.lxor v1 v0 in let v0 := rotl v0 32 in
  let v2 := u64 (v2 + v3) in let v3 := rotl v3 16 in let v3 := Z.lxor v3 v2 in
  let v0 := u64 (v0 + v3) in let v3 := rotl v3 21 in let v3 := Z.lxor v3 v0 in
  let v2 := u64 (v2 + v1) in let v1 := rotl v1 17 in let v1 := Z.lxor v1 v2 in let v2 := rotl v2 32 in
  Sip v0 v1 v2 v3.

Definition dns_siphash_load_le64 (buf : list Z) (p : Z) : outcome Z :=
  let! b0 := rd buf p in
  let! b1 := rd buf (p + 1) in
  let! b2 := rd buf (p + 2) in
  let! b3 := rd buf (p + 3) in
  let! b4 := rd buf (p + 4) in
  let! b5 := rd buf (p + 5) in
  let! b6 := rd buf (p + 6) in
  let! b7 := rd buf (p + 7) in
  Ret (Z.lor (Z.lor (Z.lor (Z.lor (Z.lor (Z.lor (Z.lor b0 (shl64 b1 8)) (shl64 b2 16)) (shl64 b3 24))
    (shl64 b4 32)) (shl64 b5 40)) (shl64 b6 48)) (shl64 b7 56)).

Definition dns_siphash_key_from_bytes (key16 : list Z) : outcome (Z * Z) :=
  let! k0 := dns_siphash_load_le64 key16 0 in
  let! k1 := dns_siphash_load_le64 key16 8 in
  Ret (k0, k1).

(** [v3 ^= m; SIPROUND; SIPROUND; v0 ^= m;] *)
Definition compress_word (s : sip) (m : Z) : sip :=
  let s := Sip (v0 s) (v1 s) (v2 s) (Z.lxor (v3 s) m) in
  let s := sipround (sipround s) in
  Sip (Z.lxor (v0 s) m) (v1 s) (v2 s) (v3 s).

(** [for (; in != end; in += 8)], [n] being the number of words left. *)
Fixpoint absorb (n : nat) (buf : list Z) (p : Z) (s : sip) : outcome (Z * sip) :=
  match n with
  | O => Ret (p, s)
  | S n => let! m := dns_siphash_load_le64 buf p in absorb n buf (p + 8) (compress_word s m)
  end.

(** One case of the [switch (inlen & 7)]: [case k] and everything that
    falls through to it execute [t |= in[k-1] << 8(k-1)]. *)
Definition tail_case (r k : Z) (buf : list Z) (p t : Z) : outcome Z :=
  if k <=? r then let! b := rd buf (p + (k - 1)) in Ret (Z.lor t (shl64 b (8 * (k - 1)))) else Ret t.

Definition tail (r : Z) (buf : list Z) (p : Z) : outcome Z :=
  let! t := tail_case r 7 buf p 0 in
  let! t := tail_case r 6 buf p t in
  let! t := tail_case r 5 buf p t in
  let! t := tail_case r 4 buf p t in
  let! t := tail_case r 3 buf p t in
  let! t := tail_case r 2 buf p t in
  tail_case r 1 buf p t.

Definition sip_init (k0 k1 : Z) : sip :=
  Sip (Z.lxor 0x736f6d6570736575 k0) (Z.lxor 0x646f72616e646f6d k1)
      (Z.lxor 0x6c7967656e657261 k0) (Z.lxor 0x7465646279746573 k1).

(** [v2 ^= 0xff;], four rounds, and the xor of the four words. *)
Definition finish (s : sip) : Z :=
  let s := Sip (v0 s) (v1 s) (Z.lxor (v2 s) 0xff) (v3 s) in
  let s := sipround (sipround (sipround (sipround s))) in
  Z.lxor (Z.lxor (Z.lxor (v0 s) (v1 s)) (v2 s)) (v3 s).

Definition dns_siphash24 (buf : list Z) (inlen : Z) (k : Z * Z) : outcome Z :=
  let b := shl64 inlen 56 in
  let words := Z.to_nat (Z.shiftr inlen 3) in
  let! '(p, s) := absorb words buf 0 (sip_init (fst k) (snd k)) in
  let! t := tail (Z.land inlen 7) buf p in
  Ret (finish (compress_word s (Z.lor b t))).

(** ** The reference: SipHash as the paper defines it *)

Fixpoint words64 (n : nat) (m : list Z) : list Z :=
  match n with
  | O => []
  | S n => little_endian_to_Z 8 (take 8 m) :: words64 n (drop 8 m)
  end.

Definition pad (m : list Z) : list Z :=
  m ++ replicate (7 - length m mod 8)%nat 0 ++ [len m mod 256].

Definition siphash_ref (k : Z * Z) (m : list Z) : Z :=
  finish (fold_left compress_word (words64 (length m / 8 + 1) (pad m)) (sip_init (fst k) (snd k))).

(** ** Lemmas *)

Lemma shl64_byte b n : isbyte b -> 0 <= n <= 56 -> shl64 b n = Z.shiftl b n.
Proof.
  intros Hb Hn. apply u64_small. rewrite Z.shiftl_mul_pow2 by lia.
  unfold isbyte in Hb. assert (2 ^ n <= 2 ^ 56) by (apply Z.pow_le_mono_r; lia).
  assert (0 < 2 ^ n) by (apply Z.pow_pos_nonneg; lia). nia.
Qed.

(** The little-endian word of the octets [a], as the shifts the code writes. *)
Lemma little_endian_cons x a :
  little_endian_to_Z 8 (x :: a) = Z.lor x (Z.shiftl (little_endian_to_Z 8 a) 8).
Proof. done. Qed.

Ltac le_norm :=
  rewrite ?little_endian_cons; cbn [little_endian_to_Z];
  rewrite ?Z.shiftl_0_l, ?Z.lor_0_r, ?Z.lor_0_l;
  repeat (rewrite Z.shiftl_lor || rewrite Z.shiftl_shiftl by lia);
  rewrite ?Z.lor_assoc;
  repeat match goal with
         | |- context [Z.shiftl _ (?a + ?b)] => let n := eval vm_compute in (a + b) in change (a + b) with n
         end.

(** Name the first octets of a buffer known to be long enough. *)
Ltac next_byte l Hl Hb :=
  let b := fresh "b" in
  destruct l as [| b l]; [exfalso; simpl in Hl; lia |];
  let H := fresh "Hb" in apply Forall_cons_1 in Hb as [H Hb].

Lemma load_le64_spec buf p :
  bytes buf -> 0 <= p -> p + 8 <= len buf ->
  dns_siphash_load_le64 buf p = Ret (little_endian_to_Z 8 (take 8 (drop (Z.to_nat p) buf))).
Proof.
  intros Hb Hp Hl. unfold dns_siphash_load_le64.
  replace (rd buf p) with (rd buf (p + 0)) by (f_equal; lia). rewrite !rd_drop by lia.
  assert (8 <= length (drop (Z.to_nat p) buf))%nat as Hd by (rewrite length_drop; lia).
  assert (bytes (drop (Z.to_nat p) buf)) as Hbd by by apply Forall_drop.
  revert Hd Hbd. generalize (drop (Z.to_nat p) buf). intros d Hd Hbd.
  do 8 next_byte d Hd Hbd. rd_eval. cbn [take].
  rewrite !shl64_byte by (done || lia). by le_norm.
Qed.

Lemma absorb_spec n buf p s :
  bytes buf -> 0 <= p -> p + 8 * Z.of_nat n <= len buf ->
  absorb n buf p s = Ret (p + 8 * Z.of_nat n, fold_left compress_word (words64 n (drop (Z.to_nat p) buf)) s).
Proof.
  intros Hb. revert p s. induction n as [| n IH]; intros p s Hp Hl; cbn [absorb words64 fold_left].
  { do 2 f_equal. lia. }
  rewrite load_le64_spec by (done || lia). cbn [obind]. rewrite IH by lia.
  rewrite drop_drop. replace (Z.to_nat p + 8)%nat with (Z.to_nat (p + 8)) by lia.
  do 2 f_equal. lia.
Qed.

(** The fall-through [switch] reads the octets from the last one down; the
    little-endian word reads them from the first one up. *)
Lemma tail_spec r buf p :
  bytes buf -> 0 <= r <= 7 -> 0 <= p -> p + r <= len buf ->
  tail r buf p = Ret (little_endian_to_Z 8 (take (Z.to_nat r) (drop (Z.to_nat p) buf))).
Proof.
  intros Hb Hr Hp Hl. unfold tail, tail_case. rewrite !rd_drop by lia.
  assert (r <= len (drop (Z.to_nat p) buf)) as Hd by (rewrite length_drop; lia).
  assert (bytes (drop (Z.to_nat p) buf)) as Hbd by by apply Forall_drop.
  revert Hd Hbd. generalize (drop (Z.to_nat p) buf). intros d Hd Hbd.
  assert (r = 0 \/ r = 1 \/ r = 2 \/ r = 3 \/ r = 4 \/ r = 5 \/ r = 6 \/ r = 7) as Hc by lia.
  destruct_or! Hc; subst r; [done | next_byte d Hd Hbd .. ];
    [| next_byte d Hd Hbd ..]; [| | next_byte d Hd Hbd ..]; [| | | next_byte d Hd Hbd ..];
    [| | | | next_byte d Hd Hbd ..]; [| | | | | next_byte d Hd Hbd ..];
    [| | | | | | next_byte d Hd Hbd ..];
    cbn [Z.leb Z.compare Pos.compare Pos.compare_cont]; rd_eval; to_nat_eval; cbn [take];
    repeat match goal with
           | |- context [8 * (?k - 1)] => let n := eval vm_compute in (8 * (k - 1)) in change (8 * (k - 1)) with n
           end;
    rewrite !shl64_byte by (done || lia); le_norm; rewrite ?Z.shiftl_0_r; f_equal;
    apply Z.bits_inj'; intros i Hi; rewrite ?Z.lor_spec; btauto.
Qed.

Lemma length_words64 n m : length (words64 n m) = n.
Proof. revert m. induction n as [| n IH]; intros m; simpl; [done |]. by rewrite IH. Qed.

Lemma words64_app_l n a b : (8 * n <= length a)%nat -> words64 n (a ++ b) = words64 n a.
Proof.
  revert a. induction n as [| n IH]; intros a Hn; cbn [words64]; [done |].
  rewrite take_app_le, drop_app_le by lia. f_equal. apply IH. rewrite length_drop. lia.
Qed.

Lemma words64_last n m :
  words64 (n + 1) m = words64 n m ++ [little_endian_to_Z 8 (take 8 (drop (8 * n) m))].
Proof.
  revert m. induction n as [| n IH]; intros m; [done |]. cbn [words64 Nat.add app].
  rewrite IH, drop_drop. by replace (8 * S n)%nat with (8 + 8 * n)%nat by lia.
Qed.

(** The last word of the padded message is the [b |= t] of the code: the
    octets after the last full word, and the length in the top octet. *)
Lemma pad_last_word m :
  little_endian_to_Z 8 (take 8 (drop (8 * (length m / 8)) (pad m))) =
  Z.lor (shl64 (len m) 56) (little_endian_to_Z 8 (drop (8 * (length m / 8)) m)).
Proof.
  pose proof (Nat.div_mod_eq (length m) 8) as Hdm. pose proof (Nat.mod_upper_bound (length m) 8 ltac:(lia)) as Hr.
  unfold pad. rewrite drop_app_le by lia.
  set (t := drop (8 * (length m / 8)) m). assert (length t = length m mod 8)%nat as Ht by (unfold t; rewrite length_drop; lia).
  rewrite take_ge by (rewrite !length_app, length_replicate; cbn [length]; lia).
  rewrite !little_endian_app, little_endian_zeros, length_replicate, Z.lor_0_l, Z.lor_comm. f_equal.
  rewrite Z.shiftl_shiftl by lia. cbn [little_endian_to_Z]. rewrite Z.shiftl_0_l, Z.lor_0_r.
  replace (_ + _) with 56 by lia. unfold shl64, u64. rewrite !Z.shiftl_mul_pow2 by lia.
  change 18446744073709551616 with (256 * 2 ^ 56). by rewrite Z.mul_mod_distr_r by lia.
Qed.

Lemma siphash24_spec (buf : list Z) (inlen : Z) (k : Z * Z) :
  bytes buf -> 0 <= inlen <= len buf ->
  dns_siphash24 buf inlen k = Ret (siphash_ref k (take (Z.to_nat inlen) buf)).
Proof.
  intros Hb Hl. unfold dns_siphash24, siphash_ref.
  set (m := take (Z.to_nat inlen) buf).
  assert (len m = inlen) as Hm by (unfold m; rewrite length_take; lia).
  rewrite Z.shiftr_div_pow2 by lia. change (Z.land inlen 7) with (Z.land inlen (Z.ones 3)). rewrite land_mod by lia.
  change (2 ^ 3) with 8. pose proof (Z.div_mod inlen 8 ltac:(lia)). pose proof (Z.mod_pos_bound inlen 8 ltac:(lia)).
  assert (Z.to_nat (inlen / 8) = length m / 8)%nat as Hq by (rewrite <- Hm, Z2Nat.inj_div, Nat2Z.id by lia; done).
  rewrite absorb_spec by (done || lia). cbn [obind]. rewrite tail_spec by (done || lia). cbn [obind].
  rewrite words64_last, fold_left_app. cbn [fold_left]. do 3 f_equal.
  - rewrite Hq. change (drop (Z.to_nat 0) buf) with buf. f_equal. unfold pad.
    rewrite words64_app_l by (pose proof (Nat.div_mod_eq (length m) 8); lia).
    rewrite <- (words64_app_l _ m (drop (Z.to_nat inlen) buf)) by (pose proof (Nat.div_mod_eq (length m) 8); lia).
    f_equal. symmetry. apply take_drop.
  - rewrite pad_last_word, Hm. do 2 f_equal. rewrite take_drop_commute.
    assert (Z.to_nat (0 + 8 * Z.of_nat (Z.to_nat (inlen / 8))) = 8 * (length m / 8))%nat as -> by lia.
    f_equal. unfold m at 2. f_equal. lia.
Qed.

(** ** Properties *)

(** C40. For every buffer and every length within it, [dns_siphash24] reads
    only octets of the message and returns the SipHash-2-4 of the message as
    the paper defines it (whole words, then the zero-padded rest with the
    length in its top octet). *)
Theorem siphash24_refines_reference (buf : list Z) (inlen : Z) (k : Z * Z) :
  bytes buf -> 0 <= inlen <= len buf ->
  dns_siphash24 buf inlen k = Ret (siphash_ref k (take (Z.to_nat inlen) buf)).
Proof. apply siphash24_spec. Qed.


Lemma siphash24_refines_reference_witness :
  bytes [0; 1; 2; 3; 4; 5; 6; 7; 8; 9; 10; 11; 12; 13; 14; 99] /\
  dns_siphash24 [0; 1; 2; 3; 4; 5; 6; 7; 8; 9; 10; 11; 12; 13; 14; 99] 15 (0x0706050403020100, 0x0f0e0d0c0b0a0908)
  = Ret 0xa129ca6149be45e5.
Proof.
  assert (bytes [0; 1; 2; 3; 4; 5; 6; 7; 8; 9; 10; 11; 12; 13; 14; 99]) as Hb by (repeat constructor; unfold isbyte; lia).
  split; [exact Hb |].
  rewrite (siphash24_refines_reference _ 15 _ Hb) by (simpl; lia). vm_compute. reflexivity.
Defined.

End Siphash.
