(* ===== verification/Cidr.v ===== *)
(** * CIDR entries (src/dns_cidr.c, match_cidr of src/dns_config_parser.c)

    An access-list entry is parsed once into an address, a prefix length and
    a byte mask, and matched against client addresses on the query path. A
    second matcher, [match_cidr], works on the text. [inet_pton] belongs to
    the C library's network part and is the interface [InetPton]: the code
    relies on it to fill 4 or 16 octets and to accept a text for at most one
    family. *)

From Stdlib Require Import Btauto.
From S2P Require Import Prelude CLib.

Module Cidr.
Import CLib.

(** FreeBSD's address family constants. *)
Definition AF_INET : Z := 2.
Definition AF_INET6 : Z := 28.

Class InetPton := {
  inet_pton : Z -> list Z -> option (list Z);
  inet_pton_v4 : forall s a, inet_pton AF_INET s = Some a -> length a = 4%nat /\ bytes a;
  inet_pton_v6 : forall s a, inet_pton AF_INET6 s = Some a -> length a = 16%nat /\ bytes a;
  (** The empty text is no address, and no text is an address of both families. *)
  inet_pton_empty : forall fam, inet_pton fam [] = None;
  inet_pton_one_family : forall s a, inet_pton AF_INET s = Some a -> inet_pton AF_INET6 s = None
}.

(** ** Data *)

Record cidr_entry_t := CidrEntry {
  valid : bool;
  is_any : bool;
  family : Z;
  prefix : Z;
  addr : list Z;
  mask : list Z
}.

Definition zeros16 : list Z := replicate 16 0.

(** The entry cleared by [memset]. *)
Definition entry_zero : cidr_entry_t := CidrEntry false false 0 0 zeros16 zeros16.

(** ** Operations *)

Definition mask_byte (bits : Z) : Z :=
  if 8 <=? bits then 255
  else if 0 <? bits then Z.land (Z.shiftl 255 (8 - bits)) 255
  else 0.

Definition compute_mask (prefix total_bytes : Z) : list Z :=
  map (fun i => if i <? total_bytes then mask_byte (prefix - i * 8) else 0) (seqZ 0 16).

(** [strncpy(cidr_copy, cidr_str, 255)], the cut at the first ['/'] and the
    number after it; [None] is the rejection of the prefix. A text without
    ['/'] has the prefix -1. *)
Definition split_prefix (cidr_str : list Z) : option (list Z * Z) :=
  let cidr_copy := take 255 cidr_str in
  match strchr 47 cidr_copy with
  | None => Some (cidr_copy, -1)
  | Some (host, num) =>
      let (val, rest) := strtol num in
      if bool_decide (rest = num) || negb (bool_decide (rest = [])) || (val <? 0) || (128 <? val)
      then None else Some (host, val)
  end.

Section WithPton.
Context `{InetPton}.

(** The entry written and the result: on [false] the entry is not valid. *)
Definition cidr_entry_parse (cidr_str : list Z) : cidr_entry_t * bool :=
  if streq cidr_str [] then (entry_zero, false)
  else if streq cidr_str (str "any") || streq cidr_str (str "any;") then
    (CidrEntry true true 0 0 zeros16 zeros16, true)
  else match split_prefix cidr_str with
  | None => (entry_zero, false)
  | Some (cidr_copy, prefix) =>
      match inet_pton AF_INET cidr_copy with
      | Some addr4 =>
          let prefix := if prefix =? -1 then 32 else prefix in
          if (prefix <? 0) || (32 <? prefix) then (entry_zero, false)
          else (CidrEntry true false AF_INET (u8 prefix) (addr4 ++ replicate 12 0) (compute_mask prefix 4), true)
      | None =>
          match inet_pton AF_INET6 cidr_copy with
          | Some addr6 =>
              let prefix := if prefix =? -1 then 128 else prefix in
              if (prefix <? 0) || (128 <? prefix) then (entry_zero, false)
              else (CidrEntry true false AF_INET6 (u8 prefix) addr6 (compute_mask prefix 16), true)
          | None => (entry_zero, false)
          end
      end
  end.

End WithPton.

(** [memcpy(&w, p, 4)] into a [uint32_t] (little-endian). *)
Definition load32 (buf : list Z) : outcome Z :=
  let! b0 := rd buf 0 in
  let! b1 := rd buf 1 in
  let! b2 := rd buf 2 in
  let! b3 := rd buf 3 in
  Ret (little_endian_to_Z 8 [b0; b1; b2; b3]).

(** The IPv6 loop from octet [i], [n] octets being left. *)
Fixpoint match6 (n : nat) (net : cidr_entry_t) (i : Z) (addr_bytes : list Z) : outcome bool :=
  match n with
  | O => Ret true
  | S n =>
      let! m := rd (mask net) i in
      if m =? 0 then Ret true
      else
        let! x := rd addr_bytes i in
        let! y := rd (addr net) i in
        if Z.land x m =? Z.land y m then match6 n net (i + 1) addr_bytes else Ret false
  end.

Definition cidr_entry_match (net : cidr_entry_t) (fam : Z) (addr_bytes : list Z) : outcome bool :=
  if negb (valid net) then Ret false
  else if is_any net then Ret true
  else if negb (family net =? fam) then Ret false
  else if fam =? AF_INET then
    let! a := load32 addr_bytes in
    let! b := load32 (addr net) in
    let! m := load32 (mask net) in
    Ret (Z.land a m =? Z.land b m)
  else if fam =? AF_INET6 then match6 16 net 0 addr_bytes
  else Ret false.

(** A socket address: its family and the address octets of that family. *)
Record sockaddr := Sockaddr { sa_family : Z; sa_addr : list Z }.

Definition cidr_entry_match_sockaddr (net : cidr_entry_t) (sa : option sockaddr) : outcome bool :=
  match sa with
  | None => Ret false
  | Some sa =>
      if negb (valid net) then Ret false
      else if is_any net then Ret true
      else if sa_family sa =? AF_INET then cidr_entry_match net AF_INET (sa_addr sa)
      else if sa_family sa =? AF_INET6 then cidr_entry_match net AF_INET6 (sa_addr sa)
      else Ret false
  end.

Section WithPton2.
Context `{InetPton}.

Definition cidr_entry_match_str (net : cidr_entry_t) (addr_str : list Z) : outcome bool :=
  if negb (valid net) || streq addr_str [] then Ret false
  else if is_any net then Ret true
  else match inet_pton AF_INET addr_str with
  | Some a => cidr_entry_match net AF_INET a
  | None =>
      match inet_pton AF_INET6 addr_str with
      | Some a => cidr_entry_match net AF_INET6 a
      | None => Ret false
      end
  end.

(** [~0U << (32 - prefix)] and [htonl]: the mask in network byte order, read
    back as a host integer. *)
Definition bswap32 (w : Z) : Z :=
  little_endian_to_Z 8 [Z.land (Z.shiftr w 24) 255; Z.land (Z.shiftr w 16) 255; Z.land (Z.shiftr w 8) 255; Z.land w 255].

Definition mask32 (prefix : Z) : Z :=
  bswap32 (if prefix =? 0 then 0 else u32 (Z.shiftl 4294967295 (32 - prefix))).

(** The IPv6 loop of [match_cidr] from octet [i]. *)
Fixpoint match_cidr6 (n : nat) (prefix i : Z) (client net : list Z) : outcome bool :=
  match n with
  | O => Ret true
  | S n =>
      let bits := prefix - i * 8 in
      if 8 <=? bits then
        let! x := rd client i in
        let! y := rd net i in
        if x =? y then match_cidr6 n prefix (i + 1) client net else Ret false
      else if 0 <? bits then
        let m := Z.land (Z.shiftl 255 (8 - bits)) 255 in
        let! x := rd client i in
        let! y := rd net i in
        if Z.land x m =? Z.land y m then match_cidr6 n prefix (i + 1) client net else Ret false
      else Ret true
  end.

Definition match_cidr (client_ip_str cidr_str : list Z) : outcome bool :=
  if streq cidr_str (str "any") || streq cidr_str (str "any;") then Ret true
  else match split_prefix cidr_str with
  | None => Ret false
  | Some (cidr_copy, prefix) =>
      match inet_pton AF_INET client_ip_str, inet_pton AF_INET cidr_copy with
      | Some client4, Some net4 =>
          let prefix := if prefix =? -1 then 32 else prefix in
          if (prefix <? 0) || (32 <? prefix) then Ret false
          else
            let! a := load32 client4 in
            let! b := load32 net4 in
            Ret (Z.land a (mask32 prefix) =? Z.land b (mask32 prefix))
      | _, _ =>
          match inet_pton AF_INET6 client_ip_str, inet_pton AF_INET6 cidr_copy with
          | Some client6, Some net6 =>
              let prefix := if prefix =? -1 then 128 else prefix in
              if (prefix <? 0) || (128 <? prefix) then Ret false
              else match_cidr6 16 prefix 0 client6 net6
          | _, _ => Ret false
          end
      end
  end.

End WithPton2.

(** ** Specification: equality of the first bits of two addresses *)

(** Bit [i] of an address, counted from the most significant bit of its
    first octet. *)
Definition addr_bit (a : list Z) (i : Z) : bool :=
  Z.testbit (nth (Z.to_nat (i / 8)) a 0) (7 - i mod 8).

Definition same_prefix (p : Z) (a b : list Z) : Prop := forall i, 0 <= i < p -> addr_bit a i = addr_bit b i.

Definition same_prefixb (p : Z) (a b : list Z) : bool :=
  forallb (fun i => eqb (addr_bit a i) (addr_bit b i)) (seqZ 0 p).

Definition family_bytes (fam : Z) : nat := if fam =? AF_INET then 4 else 16.


(** ** Lemmas: octets and masks *)

Lemma testbit_mask_byte bits k :
  0 <= k < 8 -> Z.testbit (mask_byte bits) k = (8 - bits <=? k).
Proof.
  intros Hk. unfold mask_byte. destruct (Z.leb_spec 8 bits); [| destruct (Z.ltb_spec 0 bits)].
  - change 255 with (Z.ones 8). rewrite Z.ones_spec_low by lia. lia.
  - change 255 with (Z.ones 8). rewrite Z.land_spec, Z.shiftl_spec, (Z.ones_spec_low 8 k) by lia.
    rewrite andb_true_r. destruct (Z.leb_spec (8 - bits) k).
    + apply Z.ones_spec_low. lia.
    + apply Z.testbit_neg_r. lia.
  - rewrite Z.bits_0. lia.
Qed.

Lemma mask_byte_range bits : isbyte (mask_byte bits).
Proof.
  unfold mask_byte, isbyte. case_if; [lia |]. case_if; [| lia].
  change 255 with (Z.ones 8). rewrite Z.land_ones by lia. by apply Z.mod_pos_bound.
Qed.

Lemma mask_byte_0 bits : mask_byte bits = 0 <-> bits <= 0.
Proof.
  split; intros Hb.
  - pose proof (testbit_mask_byte bits 7 ltac:(lia)) as Ht. rewrite Hb, Z.bits_0 in Ht. lia.
  - unfold mask_byte. repeat case_if; lia.
Qed.

(** Two octets agree under a mask exactly when their first bits agree. *)
Lemma land_mask_byte x y bits :
  isbyte x -> isbyte y ->
  Z.land x (mask_byte bits) = Z.land y (mask_byte bits) <->
  forall j, 0 <= j < 8 -> j < bits -> Z.testbit x (7 - j) = Z.testbit y (7 - j).
Proof.
  intros Hx Hy. split.
  - intros He j Hj Hjb. apply (f_equal (fun z => Z.testbit z (7 - j))) in He.
    rewrite !Z.land_spec, testbit_mask_byte in He by lia.
    rewrite (proj2 (Z.leb_le _ _)), !andb_true_r in He by lia. done.
  - intros Hall. apply Z.bits_inj'. intros k Hk. rewrite !Z.land_spec.
    destruct (Z.lt_ge_cases k 8) as [Hk8 |].
    + rewrite testbit_mask_byte by lia. destruct (Z.leb_spec (8 - bits) k); [| by rewrite !andb_false_r].
      specialize (Hall (7 - k) ltac:(lia) ltac:(lia)). replace (7 - (7 - k)) with k in Hall by lia. by rewrite Hall.
    + by rewrite !(testbit_above _ 8) by (done || apply mask_byte_range || lia).
Qed.

Lemma isbyte_eq_bits x y :
  isbyte x -> isbyte y -> (forall j, 0 <= j < 8 -> Z.testbit x (7 - j) = Z.testbit y (7 - j)) -> x = y.
Proof.
  intros Hx Hy Hall. apply Z.bits_inj'. intros k Hk. destruct (Z.lt_ge_cases k 8).
  - specialize (Hall (7 - k) ltac:(lia)). by replace (7 - (7 - k)) with k in Hall by lia.
  - by rewrite !(testbit_above _ 8) by (done || lia).
Qed.

Lemma length_compute_mask p t : length (compute_mask p t) = 16%nat.
Proof. done. Qed.

Lemma compute_mask_lookup p t i :
  0 <= i < 16 -> rd (compute_mask p t) i = Ret (if i <? t then mask_byte (p - i * 8) else 0).
Proof.
  intros Hi. apply rd_Ret. split; [lia |]. unfold compute_mask.
  rewrite list_lookup_fmap, lookup_seqZ_lt by lia. cbn.
  by replace (0 + Z.of_nat (Z.to_nat i)) with i by lia.
Qed.

(** ** Lemmas: prefixes, octet by octet *)

Lemma addr_bit_octet a i j x :
  0 <= i -> 0 <= j < 8 -> rd a i = Ret x -> addr_bit a (i * 8 + j) = Z.testbit x (7 - j).
Proof.
  intros Hi Hj [_ Hx]%rd_Ret. unfold addr_bit.
  rewrite (Z.div_add_l i 8 j), (Z.div_small j 8), Z.add_0_r by lia.
  rewrite Z.add_comm, Z.mod_add, Z.mod_small by lia.
  by rewrite (nth_lookup_Some _ _ _ _ Hx).
Qed.

(** What [same_prefix] says from octet [i] on. *)
Definition prefix_from (i p : Z) (a b : list Z) : Prop :=
  forall k, i * 8 <= k < p -> addr_bit a k = addr_bit b k.

Lemma prefix_from_0 p a b : prefix_from 0 p a b <-> same_prefix p a b.
Proof. unfold prefix_from, same_prefix. by setoid_rewrite (Z.mul_0_l 8). Qed.

Lemma prefix_from_done i p a b : p <= i * 8 -> prefix_from i p a b.
Proof. intros Hp k Hk. lia. Qed.

Lemma prefix_from_step i p a b x y :
  0 <= i -> rd a i = Ret x -> rd b i = Ret y ->
  prefix_from i p a b <->
  (forall j, 0 <= j < 8 -> j < p - i * 8 -> Z.testbit x (7 - j) = Z.testbit y (7 - j)) /\ prefix_from (i + 1) p a b.
Proof.
  intros Hi Hx Hy. split.
  - intros Hp. split; [| intros k Hk; apply Hp; lia]. intros j Hj Hjp.
    rewrite <- (addr_bit_octet a i j x), <- (addr_bit_octet b i j y) by done. apply Hp. lia.
  - intros [Hj Hp] k Hk. destruct (Z.lt_ge_cases k ((i + 1) * 8)); [| apply Hp; lia].
    replace k with (i * 8 + (k - i * 8)) by lia.
    rewrite (addr_bit_octet a i _ x), (addr_bit_octet b i _ y) by (done || lia). apply Hj; lia.
Qed.

Lemma prefix_from_mask_step i p a b x y :
  bytes a -> bytes b -> 0 <= i -> rd a i = Ret x -> rd b i = Ret y ->
  prefix_from i p a b <->
  Z.land x (mask_byte (p - i * 8)) = Z.land y (mask_byte (p - i * 8)) /\ prefix_from (i + 1) p a b.
Proof.
  intros Ha Hb Hi Hx Hy. rewrite (prefix_from_step i p a b x y) by done.
  by rewrite land_mask_byte by eauto using rd_byte.
Qed.

Lemma same_prefixb_spec p a b : same_prefixb p a b = true <-> same_prefix p a b.
Proof.
  unfold same_prefixb, same_prefix. rewrite forallb_forall. split.
  - intros Hf i Hi. apply eqb_prop, Hf, list_elem_of_In, elem_of_seqZ. lia.
  - intros Hs i Hi%list_elem_of_In%elem_of_seqZ. rewrite Hs by lia. apply eqb_reflx.
Qed.

Lemma same_prefix_refl p a : same_prefix p a a.
Proof. done. Qed.
Lemma same_prefix_sym p a b : same_prefix p a b -> same_prefix p b a.
Proof. intros Hs i Hi. symmetry. auto. Qed.
Lemma same_prefix_trans p a b c : same_prefix p a b -> same_prefix p b c -> same_prefix p a c.
Proof. intros H1 H2 i Hi. rewrite H1 by done. auto. Qed.
Lemma same_prefix_mono p q a b : q <= p -> same_prefix p a b -> same_prefix q a b.
Proof. intros Hq Hs i Hi. apply Hs. lia. Qed.

Lemma bool_of_iff (b c : bool) (P : Prop) : (b = true <-> P) -> (c = true <-> P) -> b = c.
Proof. intros Hb Hc. destruct b, c; try done; naive_solver. Qed.

(** ** Lemmas: 32-bit words *)

Lemma land_lor_shiftl x m X M :
  isbyte x -> isbyte m ->
  Z.land (Z.lor x (Z.shiftl X 8)) (Z.lor m (Z.shiftl M 8)) = Z.lor (Z.land x m) (Z.shiftl (Z.land X M) 8).
Proof.
  intros Hx Hm. apply Z.bits_inj'. intros k Hk.
  rewrite !Z.land_spec, !Z.lor_spec, !Z.shiftl_spec, !Z.land_spec by done.
  destruct (Z.lt_ge_cases k 8).
  - rewrite (Z.testbit_neg_r X (k - 8)), (Z.testbit_neg_r M (k - 8)) by lia. btauto.
  - rewrite (testbit_above x 8 k), (testbit_above m 8 k) by done. btauto.
Qed.

Lemma little_endian_land a m :
  bytes a -> bytes m -> length a = length m ->
  Z.land (little_endian_to_Z 8 a) (little_endian_to_Z 8 m) = little_endian_to_Z 8 (zip_with Z.land a m).
Proof.
  intros Ha. revert m. induction Ha as [| x a Hx _ IH]; intros [| y m] Hm Hl; try done.
  apply Forall_cons_1 in Hm as [Hy Hm]. cbn [little_endian_to_Z zip_with].
  rewrite land_lor_shiftl by done. rewrite IH; [done | done | by injection Hl].
Qed.

Lemma little_endian_inj a b :
  bytes a -> bytes b -> length a = length b -> little_endian_to_Z 8 a = little_endian_to_Z 8 b -> a = b.
Proof.
  intros Ha Hb Hl He.
  rewrite <- (Z_to_little_endian_to_Z (len a) 8 a), <- (Z_to_little_endian_to_Z (len b) 8 b) by (done || lia).
  by rewrite He, Hl.
Qed.

Lemma land_byte x m : isbyte x -> isbyte m -> isbyte (Z.land x m).
Proof.
  intros Hx Hm. assert (0 <= Z.land x m) by (apply Z.land_nonneg; left; apply Hx).
  split; [done |]. apply (Z.bounded_iff_bits_nonneg 8); [lia | done |]. intros k Hk.
  by rewrite Z.land_spec, (testbit_above x 8) by (done || lia).
Qed.

Lemma load32_spec buf :
  (4 <= length buf)%nat -> load32 buf = Ret (little_endian_to_Z 8 (take 4 buf)).
Proof. intros Hl. do 4 (destruct buf as [| ? buf]; [simpl in Hl; lia |]). done. Qed.

(** The masked comparison of two 32-bit words is the comparison of the
    prefixes of the two addresses. *)
Lemma match4_spec p a b r :
  bytes a -> bytes b -> (4 <= length a)%nat -> (4 <= length b)%nat -> 0 <= p <= 32 ->
  r = (Z.land (little_endian_to_Z 8 (take 4 a)) (little_endian_to_Z 8 (map (fun i => mask_byte (p - i * 8)) [0; 1; 2; 3])) =?
       Z.land (little_endian_to_Z 8 (take 4 b)) (little_endian_to_Z 8 (map (fun i => mask_byte (p - i * 8)) [0; 1; 2; 3]))) ->
  (r = true <-> same_prefix p a b).
Proof.
  intros Ha Hb Hla Hlb Hp ->. rewrite <- prefix_from_0, Z.eqb_eq.
  destruct a as [| a0 [| a1 [| a2 [| a3 a]]]]; try (simpl in Hla; lia).
  destruct b as [| b0 [| b1 [| b2 [| b3 b]]]]; try (simpl in Hlb; lia).
  rewrite 4!(prefix_from_mask_step _ p _ _ _ _ Ha Hb) by (lia || done).
  change (0 + 1 + 1 + 1 + 1) with 4. change (0 + 1 + 1 + 1) with 3. change (0 + 1 + 1) with 2. change (0 + 1) with 1.
  do 4 apply Forall_cons_1 in Ha as [? Ha]. do 4 apply Forall_cons_1 in Hb as [? Hb].
  change (take 4 (a0 :: a1 :: a2 :: a3 :: a)) with [a0; a1; a2; a3].
  change (take 4 (b0 :: b1 :: b2 :: b3 :: b)) with [b0; b1; b2; b3].
  cbn [map]. rewrite !little_endian_land by (done || (forall_list; auto using mask_byte_range)). cbn [zip_with].
  split.
  - intros He. apply little_endian_inj in He; [| forall_list; auto using land_byte, mask_byte_range | forall_list; auto using land_byte, mask_byte_range | done].
    injection He as ? ? ? ?. split_and!; try done. apply prefix_from_done. lia.
  - intros (-> & -> & -> & -> & _). done.
Qed.

Lemma mask32_spec p :
  0 <= p <= 32 -> mask32 p = little_endian_to_Z 8 (map (fun i => mask_byte (p - i * 8)) [0; 1; 2; 3]).
Proof.
  intros Hp. apply Z.eqb_eq. revert p Hp.
  enough (forall p, 0 <= p < 0 + 33 ->
    (mask32 p =? little_endian_to_Z 8 (map (fun i => mask_byte (p - i * 8)) [0; 1; 2; 3])) = true) as Hall.
  { intros p Hp. apply Hall. lia. }
  apply (forallb_range (fun p => mask32 p =? little_endian_to_Z 8 (map (fun i => mask_byte (p - i * 8)) [0; 1; 2; 3]))).
  by vm_compute.
Qed.

(** ** Lemmas: the two matchers *)

(** What every valid entry that is not [any] satisfies. *)
Definition cidr_wf (e : cidr_entry_t) : Prop :=
  (family e = AF_INET \/ family e = AF_INET6) /\ 0 <= prefix e <= 8 * Z.of_nat (family_bytes (family e)) /\
  length (addr e) = 16%nat /\ bytes (addr e) /\
  mask e = compute_mask (prefix e) (Z.of_nat (family_bytes (family e))).

Lemma match6_spec n net p i a :
  mask net = compute_mask p 16 -> p <= 128 -> bytes a -> bytes (addr net) ->
  length a = 16%nat -> length (addr net) = 16%nat -> 0 <= i -> i + Z.of_nat n = 16 ->
  exists r, match6 n net i a = Ret r /\ (r = true <-> prefix_from i p a (addr net)).
Proof.
  intros Hm Hp Ha Hb Hla Hlb. revert i. induction n as [| n IH]; intros i Hi Hn.
  { exists true. split; [done |]. split; [| done]. intros _. apply prefix_from_done. lia. }
  cbn [match6]. rewrite Hm, compute_mask_lookup, (proj2 (Z.ltb_lt i 16)) by lia. cbn [obind].
  destruct (Z.eqb_spec (mask_byte (p - i * 8)) 0) as [H0 | H0].
  { exists true. split; [done |]. split; [| done]. intros _. apply mask_byte_0 in H0. apply prefix_from_done. lia. }
  destruct (rd_in a i) as [x Hx]; [lia |]. destruct (rd_in (addr net) i) as [y Hy]; [lia |].
  rewrite Hx, Hy. cbn [obind].
  destruct (IH (i + 1)) as (r & Hr & Hiff); [lia.. |].
  pose proof (prefix_from_mask_step i p a (addr net) x y Ha Hb Hi Hx Hy) as Hstep.
  destruct (Z.eqb_spec (Z.land x (mask_byte (p - i * 8))) (Z.land y (mask_byte (p - i * 8)))) as [He | He].
  - exists r. split; [done |]. rewrite Hstep, Hiff. naive_solver.
  - exists false. split; [done |]. rewrite Hstep. naive_solver.
Qed.

Lemma match_cidr6_spec n p i a b :
  p <= 128 -> bytes a -> bytes b -> length a = 16%nat -> length b = 16%nat -> 0 <= i -> i + Z.of_nat n = 16 ->
  exists r, match_cidr6 n p i a b = Ret r /\ (r = true <-> prefix_from i p a b).
Proof.
  intros Hp Ha Hb Hla Hlb. revert i. induction n as [| n IH]; intros i Hi Hn.
  { exists true. split; [done |]. split; [| done]. intros _. apply prefix_from_done. lia. }
  destruct (rd_in a i) as [x Hx]; [lia |]. destruct (rd_in b i) as [y Hy]; [lia |].
  destruct (IH (i + 1)) as (r & Hr & Hiff); [lia.. |].
  pose proof (prefix_from_mask_step i p a b x y Ha Hb Hi Hx Hy) as Hstep. unfold mask_byte in Hstep.
  cbn [match_cidr6]. rewrite Hx, Hy. cbn [obind]. destruct (8 <=? p - i * 8) eqn:E8.
  - destruct (Z.eqb_spec x y) as [-> | Hne].
    + exists r. split; [done |]. rewrite Hstep, Hiff. naive_solver.
    + exists false. split; [done |]. split; [done |]. intros [Hl _]%Hstep. exfalso. apply Hne.
      pose proof (rd_byte _ _ _ Ha Hx). pose proof (rd_byte _ _ _ Hb Hy). change 255 with (Z.ones 8) in Hl.
      by rewrite !Z.land_ones, !Z.mod_small in Hl by done.
  - destruct (0 <? p - i * 8) eqn:E0.
    + destruct (Z.eqb_spec (Z.land x (Z.land (255 ≪ (8 - (p - i * 8))) 255)) (Z.land y (Z.land (255 ≪ (8 - (p - i * 8))) 255))).
      * exists r. split; [done |]. rewrite Hstep, Hiff. naive_solver.
      * exists false. split; [done |]. rewrite Hstep. naive_solver.
    + exists true. split; [done |]. split; [| done]. intros _. apply prefix_from_done. lia.
Qed.

(** [cidr_entry_match] on an entry that is not [any]: a total function that
    compares prefixes. *)
Lemma entry_match_wf e a :
  cidr_wf e -> valid e = true -> is_any e = false -> bytes a -> length a = family_bytes (family e) ->
  exists r, cidr_entry_match e (family e) a = Ret r /\ (r = true <-> same_prefix (prefix e) a (addr e)).
Proof.
  intros (Hf & Hp & Hlen & Hb & Hm) Hv Hany Ha Hla. unfold cidr_entry_match.
  rewrite Hv, Hany, Z.eqb_refl. cbn [negb].
  destruct Hf as [Hf | Hf]; rewrite Hf in *; cbn in Hp, Hla, Hm |- *.
  - rewrite !load32_spec by (rewrite ?Hm, ?length_compute_mask; lia). cbn [obind]. eexists. split; [done |].
    apply match4_spec; try (done || lia). rewrite Hm. done.
  - destruct (match6_spec 16 e (prefix e) 0 a) as (r & Hr & Hiff); try (done || lia).
    exists r. split; [done |]. by rewrite Hiff, prefix_from_0.
Qed.

Section Parse.
Context `{InetPton}.

Lemma cidr_entry_parse_wf s e :
  cidr_entry_parse s = (e, true) -> valid e = true /\ (is_any e = true \/ cidr_wf e).
Proof.
  unfold cidr_entry_parse. case_if; [done |]. case_if; [intros [= <-]; auto |].
  destruct (split_prefix s) as [[host p] |]; [| done].
  destruct (inet_pton AF_INET host) as [a4 |] eqn:E4.
  - apply inet_pton_v4 in E4 as [Hl Hb]. case_if; [done |]. intros [= <-]. split; [done |]. right.
    set (q := if p =? -1 then 32 else p) in *. assert (0 <= q <= 32) by lia. split_and!; cbn; rewrite ?u8_small by lia; try lia.
    + rewrite length_app, Hl. done.
    + apply Forall_app. split; [done |]. forall_list; unfold isbyte; lia.
    + done.
  - destruct (inet_pton AF_INET6 host) as [a6 |] eqn:E6; [| done].
    apply inet_pton_v6 in E6 as [Hl Hb]. case_if; [done |]. intros [= <-]. split; [done |]. right.
    set (q := if p =? -1 then 128 else p) in *. assert (0 <= q <= 128) by lia.
    split_and!; cbn; rewrite ?u8_small by lia; try (done || lia).
Qed.

Lemma cidr_entry_parse_invalid s e : cidr_entry_parse s = (e, false) -> e = entry_zero.
Proof.
  unfold cidr_entry_parse. repeat first [case_if | case_match]; naive_solver.
Qed.

(** A client address in text form: one of the two families parses. *)
Definition client_addr (s : list Z) : option (Z * list Z) :=
  match inet_pton AF_INET s with
  | Some a => Some (AF_INET, a)
  | None => match inet_pton AF_INET6 s with Some a => Some (AF_INET6, a) | None => None end
  end.

Lemma client_addr_ok s fam a :
  client_addr s = Some (fam, a) -> bytes a /\ length a = family_bytes fam /\ (fam = AF_INET \/ fam = AF_INET6).
Proof.
  unfold client_addr. destruct (inet_pton AF_INET s) as [a4 |] eqn:E4.
  - intros [= <- <-]. apply inet_pton_v4 in E4 as [? ?]. auto.
  - destruct (inet_pton AF_INET6 s) as [a6 |] eqn:E6; [| done].
    intros [= <- <-]. apply inet_pton_v6 in E6 as [? ?]. auto.
Qed.

(** The two matchers compare the same prefix: on two IPv4 addresses... *)
Lemma match_cidr_v4 p a n :
  bytes a -> bytes n -> length a = 4%nat -> length n = 4%nat -> 0 <= p <= 32 ->
  (let! x := load32 a in let! y := load32 n in Ret (Z.land x (mask32 p) =? Z.land y (mask32 p))) =
  cidr_entry_match (CidrEntry true false AF_INET (u8 p) (n ++ replicate 12 0) (compute_mask p 4)) AF_INET a.
Proof.
  intros Ha Hn Hla Hln Hp. unfold cidr_entry_match. cbn [valid is_any family negb addr mask Z.eqb AF_INET Pos.eqb].
  rewrite !load32_spec by (rewrite ?length_app, ?length_compute_mask; lia). cbn [obind].
  rewrite mask32_spec by lia. rewrite take_app_le by lia.
  by change (take 4 (compute_mask p 4)) with (map (fun i => mask_byte (p - i * 8)) [0; 1; 2; 3]).
Qed.

(** ... and on two IPv6 addresses. *)
Lemma match_cidr_v6 p a n :
  bytes a -> bytes n -> length a = 16%nat -> length n = 16%nat -> 0 <= p <= 128 ->
  match_cidr6 16 p 0 a n = cidr_entry_match (CidrEntry true false AF_INET6 (u8 p) n (compute_mask p 16)) AF_INET6 a.
Proof.
  intros Ha Hn Hla Hln Hp.
  destruct (match_cidr6_spec 16 p 0 a n) as (r1 & Hr1 & Hiff1); try (done || lia).
  destruct (match6_spec 16 (CidrEntry true false AF_INET6 (u8 p) n (compute_mask p 16)) p 0 a) as (r2 & Hr2 & Hiff2);
    try (done || lia).
  rewrite Hr1. unfold cidr_entry_match. cbn [valid is_any family negb Z.eqb AF_INET AF_INET6 Pos.eqb]. rewrite Hr2.
  f_equal. by eapply bool_of_iff.
Qed.

Lemma client_addr_v4 s a : client_addr s = Some (AF_INET, a) -> inet_pton AF_INET s = Some a /\ inet_pton AF_INET6 s = None.
Proof.
  unfold client_addr. destruct (inet_pton AF_INET s) eqn:E4; [| by destruct (inet_pton AF_INET6 s)].
  intros [= ->]. split; [done |]. by eapply inet_pton_one_family.
Qed.

Lemma client_addr_v6 s a : client_addr s = Some (AF_INET6, a) -> inet_pton AF_INET s = None /\ inet_pton AF_INET6 s = Some a.
Proof.
  unfold client_addr. destruct (inet_pton AF_INET s) eqn:E4; [done |]. destruct (inet_pton AF_INET6 s); naive_solver.
Qed.

Lemma split_prefix_empty : split_prefix [] = Some ([], -1).
Proof. by vm_compute. Qed.

(** The textual matcher computes what the parsed entry gives. *)
Lemma match_cidr_parsed client cidr fam a :
  client_addr client = Some (fam, a) ->
  match_cidr client cidr = cidr_entry_match (fst (cidr_entry_parse cidr)) fam a.
Proof.
  intros Hc. destruct (client_addr_ok _ _ _ Hc) as (Ha & Hla & Hfam).
  unfold match_cidr, cidr_entry_parse. destruct (streq cidr []) eqn:Ee.
  { apply bool_decide_eq_true in Ee as ->. rewrite split_prefix_empty, !inet_pton_empty.
    by destruct (inet_pton _ _), (inet_pton _ _). }
  destruct (streq cidr (str "any") || streq cidr (str "any;")); [done |].
  destruct (split_prefix cidr) as [[host p] |]; [| done].
  destruct (inet_pton AF_INET host) as [n4 |] eqn:E4; [| destruct (inet_pton AF_INET6 host) as [n6 |] eqn:E6];
    (destruct Hfam as [-> | ->];
     [apply client_addr_v4 in Hc as [-> Hc] | apply client_addr_v6 in Hc as [-> Hc]]; rewrite ?Hc).
  - case_if; [done |]. apply inet_pton_v4 in E4 as [? ?]. apply match_cidr_v4; try done. destruct (p =? -1); lia.
  - rewrite (inet_pton_one_family _ _ E4). by case_if.
  - by case_if.
  - case_if; [done |]. apply inet_pton_v6 in E6 as [? ?]. apply match_cidr_v6; try done. destruct (p =? -1); lia.
  - done.
  - done.
Qed.

End Parse.

(** ** A concrete [inet_pton]

    The textual forms without abbreviation: dotted quads, and eight groups of
    hexadecimal digits.  It discharges the interface, so that the theorems
    can be applied to concrete texts. *)

(** The fields of a text in base [b], separated by the character [sep]; an
    empty field, a foreign character or a value above [top] rejects it. *)
Fixpoint fields (b sep top : Z) (digit : Z -> option Z) (s : list Z) (cur : option Z) : option (list Z) :=
  match s with
  | [] => match cur with Some v => Some [v] | None => None end
  | c :: s' =>
      if c =? sep then
        match cur, fields b sep top digit s' None with
        | Some v, Some l => Some (v :: l)
        | _, _ => None
        end
      else match digit c with
      | Some d =>
          let v := match cur with Some v => v * b + d | None => d end in
          if v <=? top then fields b sep top digit s' (Some v) else None
      | None => None
      end
  end.

Definition dec_digit (c : Z) : option Z := if isdigit c then Some (c - 48) else None.

Definition hex_digit (c : Z) : option Z :=
  if isdigit c then Some (c - 48)
  else if (97 <=? c) && (c <=? 102) then Some (c - 87)
  else if (65 <=? c) && (c <=? 70) then Some (c - 55) else None.

Definition plain_pton (fam : Z) (s : list Z) : option (list Z) :=
  let colon := existsb (Z.eqb 58) s in
  if fam =? AF_INET then
    if colon then None
    else match fields 10 46 255 dec_digit s None with
    | Some l => if Nat.eqb (length l) 4 then Some (map u8 l) else None
    | None => None
    end
  else if colon then
    match fields 16 58 65535 hex_digit s None with
    | Some l => if Nat.eqb (length l) 8 then Some (concat (map (fun v => [u8 (Z.shiftr v 8); u8 v]) l)) else None
    | None => None
    end
  else None.

Lemma bytes_u8 l : bytes (map u8 l).
Proof. apply Forall_map, Forall_true. intros x. cbn. pose proof (Z.mod_pos_bound x 256). unfold isbyte, u8. lia. Qed.

#[export, program] Instance plain_InetPton : InetPton := { inet_pton := plain_pton }.
Next Obligation.
  intros s a H. unfold plain_pton in H. rewrite Z.eqb_refl in H. case_if_in H; [done |].
  destruct (fields _ _ _ _ _ _); [| done]. case_if_in H; [| done]. injection H as <-.
  split; [by rewrite length_map; apply Nat.eqb_eq | apply bytes_u8].
Qed.
Next Obligation.
  intros s a H. unfold plain_pton in H. cbn [Z.eqb AF_INET AF_INET6 Pos.eqb] in H. case_if_in H; [| done].
  destruct (fields _ _ _ _ _ _) as [l |]; [| done]. case_if_in H; [| done]. injection H as <-.
  match goal with E : Nat.eqb _ _ = true |- _ => apply Nat.eqb_eq in E end. do 8 (destruct l as [| ? l]; [done |]). destruct l; [| done].
  split; [done |]. rewrite <- (map_id (concat _)). cbn [map concat app].
  repeat (apply Forall_cons; split; [apply Z.mod_pos_bound; lia |]). constructor.
Qed.
Next Obligation. intros fam. unfold plain_pton. by destruct (fam =? AF_INET). Qed.
Next Obligation.
  intros s a H. unfold plain_pton in *. cbn [Z.eqb AF_INET AF_INET6 Pos.eqb] in *. by destruct (existsb _ s).
Qed.

(** ** Properties *)

(** An entry that [cidr_entry_parse] accepts and that is not [any]
    matches an address of its family exactly when the first [prefix] bits of
    the two addresses are equal; the match never reads outside the address
    or the entry, and the prefix length fits the family. *)
Theorem cidr_match_is_prefix_equality `{InetPton} (text : list Z) (e : cidr_entry_t) (a : list Z) :
  cidr_entry_parse text = (e, true) -> is_any e = false -> bytes a -> length a = family_bytes (family e) ->
  0 <= prefix e <= 8 * len a /\
  exists r, cidr_entry_match e (family e) a = Ret r /\ (r = true <-> same_prefix (prefix e) a (addr e)).
Proof.
  intros Hp Hany Ha Hl. apply cidr_entry_parse_wf in Hp as [Hv [Hany' | Hwf]]; [congruence |].
  split; [destruct Hwf as (_ & Hpr & _); rewrite Hl; lia |]. by apply entry_match_wf.
Qed.

Lemma cidr_match_is_prefix_equality_witness :
  let e := fst (cidr_entry_parse (str "192.0.2.0/23")) in
  let a := [192; 0; 3; 77] in
  0 <= prefix e <= 8 * len a /\
  exists r, cidr_entry_match e (family e) a = Ret r /\ (r = true <-> same_prefix (prefix e) a (addr e)).
Proof.
  intros e a. apply (cidr_match_is_prefix_equality (str "192.0.2.0/23") e a);
    [by vm_compute | by vm_compute | bytes_lit | by vm_compute].
Defined.

End Cidr.
