(* ===== verification/DnsName.v ===== *)
(** * Names in text form (src/dns_utils.h)

    Comparison, hashing and the ancestor test on names in the canonical text
    form: labels separated by dots, where a backslash takes the special
    meaning of the next character away.  The specification is the list of
    labels; the code works on the characters, from the right. *)

From S2P Require Import Prelude.
From S2P Require Import CLib.

Module DnsName.
Import CLib.

(** ** Operations *)

Definition DOT : Z := 46.
Definition BACKSLASH : Z := 92.

(** The character at [i]; the terminator is read as 0. *)
Definition chr (s : list Z) (i : nat) : Z := nth i s 0.

(** [while (pos > bs && s[pos - bs - 1] == '\\') bs++]: the backslashes that
    directly precede [pos]. *)
Fixpoint backslashes (s : list Z) (pos : nat) : nat :=
  match pos with
  | O => O
  | S p => if chr s p =? BACKSLASH then S (backslashes s p) else O
  end.

Definition dns_char_is_escaped (s : list Z) (pos : nat) : bool :=
  Nat.eqb (backslashes s pos mod 2) 1.

Definition dns_name_len_no_root (name : list Z) (n : nat) : nat :=
  if (Nat.ltb 0 n) && (chr name (n - 1) =? DOT) && negb (dns_char_is_escaped name (n - 1))
  then (n - 1)%nat else n.

(** [strncasecmp(a, b, n) == 0] *)
Definition strncaseeq (a b : list Z) (n : nat) : bool :=
  bool_decide (map tolower (take n a) = map tolower (take n b)).

Definition domain_names_match_ci (a b : list Z) : bool :=
  if strcaseeq a b then true
  else
    let la := dns_name_len_no_root a (length a) in
    let lb := dns_name_len_no_root b (length b) in
    Nat.eqb la lb && strncaseeq a b la.

(** One step of FNV-1a. *)
Definition fnv_step (h c : Z) : Z := u32 (Z.lxor h c * 16777619).

Definition dns_name_hash_ci (name : list Z) : Z :=
  foldl (fun h c => fnv_step h (lc (u8 c))) 2166136261 (take (dns_name_len_no_root name (length name)) name).

Definition domain_name_is_at_or_below (name apex : list Z) : bool :=
  let nl := dns_name_len_no_root name (length name) in
  let al := dns_name_len_no_root apex (length apex) in
  if Nat.eqb al 0 then true
  else if Nat.ltb nl al || negb (strncaseeq (drop (nl - al) name) apex al) then false
  else if Nat.eqb nl al then true
  else
    let dot := (nl - al - 1)%nat in
    (chr name dot =? DOT) && negb (dns_char_is_escaped name dot).

(** ** Specification: the list of labels *)

(** Reading from the left, [esc] says that the next character is escaped. *)
Fixpoint labels_from (s : list Z) (esc : bool) (cur : list Z) : list (list Z) :=
  match s with
  | [] => [cur]
  | c :: s' =>
      if esc then labels_from s' false (cur ++ [c])
      else if c =? BACKSLASH then labels_from s' true (cur ++ [c])
      else if c =? DOT then cur :: labels_from s' false []
      else labels_from s' false (cur ++ [c])
  end.

(** An absolute name ends with the empty label of the root. *)
Fixpoint without_root (ls : list (list Z)) : list (list Z) :=
  match ls with
  | [] | [[]] => []
  | l :: ls' => l :: without_root ls'
  end.

(** The labels of a name, in lower case; the root, written as [.] or as
    nothing, has none. *)
Definition name_labels (s : list Z) : list (list Z) :=
  match without_root (labels_from (map tolower s) false []) with
  | [[]] => []
  | ls => ls
  end.

(** The state of the scan after a text. *)
Definition esc_step (esc : bool) (c : Z) : bool := negb esc && (c =? BACKSLASH).
Definition esc_after (s : list Z) : bool := foldl esc_step false s.

(** ** Lemmas *)

(** The text that the code compares: without the final dot. *)
Definition relative (s : list Z) : list Z := take (dns_name_len_no_root s (length s)) s.

Lemma chr_app_l s t i : (i < length s)%nat -> chr (s ++ t) i = chr s i.
Proof. intros. unfold chr. by apply app_nth1. Qed.

Lemma backslashes_app s t i : (i <= length s)%nat -> backslashes (s ++ t) i = backslashes s i.
Proof.
  induction i as [| i IH]; intros Hi; [done |]. cbn. rewrite chr_app_l by lia. by rewrite IH by lia.
Qed.

(** Counting backslashes from the right is reading escapes from the left. *)
Lemma backslashes_parity s : Nat.odd (backslashes s (length s)) = esc_after s.
Proof.
  induction s as [| c s IH] using rev_ind; [done |].
  unfold esc_after. rewrite foldl_app. cbn [foldl]. fold (esc_after s). unfold esc_step. rewrite <- IH.
  rewrite length_app, Nat.add_comm. cbn [length Nat.add backslashes].
  unfold chr. rewrite nth_middle. destruct (c =? BACKSLASH); [| by rewrite andb_false_r].
  rewrite backslashes_app, Nat.odd_succ, <- Nat.negb_odd by lia. by rewrite andb_true_r.
Qed.

Lemma odd_eqb n : Nat.eqb (n mod 2) 1 = Nat.odd n.
Proof.
  destruct (Nat.odd n) eqn:E.
  - apply Nat.odd_spec in E as [m ->]. by rewrite Nat.add_comm, Nat.mul_comm, Nat.Div0.mod_add.
  - rewrite <- Nat.negb_even, negb_false_iff in E. apply Nat.even_spec in E as [m ->].
    by rewrite Nat.mul_comm, Nat.Div0.mod_mul.
Qed.

Lemma escaped_spec s i : (i <= length s)%nat -> dns_char_is_escaped s i = esc_after (take i s).
Proof.
  intros Hi. rewrite <- backslashes_parity, length_take_le by done. unfold dns_char_is_escaped. rewrite odd_eqb.
  rewrite <- (take_drop i s) at 1. by rewrite backslashes_app by (rewrite length_take; lia).
Qed.

Lemma len_no_root_le s : (dns_name_len_no_root s (length s) <= length s)%nat.
Proof. unfold dns_name_len_no_root. case_if; lia. Qed.

Lemma length_relative s : length (relative s) = dns_name_len_no_root s (length s).
Proof. unfold relative. rewrite length_take. pose proof (len_no_root_le s). lia. Qed.

Lemma tolower_DOT c : (tolower c =? DOT) = (c =? DOT).
Proof. unfold tolower, isupper, DOT. case_if; lia. Qed.

Lemma tolower_BACKSLASH c : (tolower c =? BACKSLASH) = (c =? BACKSLASH).
Proof. unfold tolower, isupper, BACKSLASH. case_if; lia. Qed.

Lemma esc_after_lower s : esc_after (map tolower s) = esc_after s.
Proof.
  unfold esc_after. generalize false. induction s as [| c s IH]; intros e; [done |]. cbn. rewrite IH.
  unfold esc_step. by rewrite tolower_BACKSLASH.
Qed.

(** The labels, joined by dots, are the text. *)
Fixpoint join_dots (l : list (list Z)) : list Z :=
  match l with
  | [] => []
  | [x] => x
  | x :: l' => x ++ DOT :: join_dots l'
  end.

Lemma labels_from_not_nil s e cur : labels_from s e cur <> [].
Proof. revert e cur. induction s as [| c s IH]; intros e cur; cbn; repeat case_if; done. Qed.

Lemma join_labels s e cur : join_dots (labels_from s e cur) = cur ++ s.
Proof.
  revert e cur. induction s as [| c s IH]; intros e cur; cbn [labels_from]; [by rewrite app_nil_r |].
  repeat case_if; try (rewrite IH, <- app_assoc; done).
  destruct (labels_from s false []) eqn:El; [by apply labels_from_not_nil in El |].
  change (cur ++ DOT :: join_dots (l :: l0) = cur ++ c :: s). rewrite <- El, IH. do 2 f_equal. lia.
Qed.

Lemma labels_from_inj s t : labels_from s false [] = labels_from t false [] -> s = t.
Proof. intros H. pose proof (join_labels s false []) as Hs. by rewrite H, join_labels in Hs. Qed.

(** An unescaped dot ends a label. *)
Lemma labels_from_app s t e cur :
  foldl esc_step e s = false ->
  labels_from (s ++ DOT :: t) e cur = labels_from s e cur ++ labels_from t false [].
Proof.
  revert e cur. induction s as [| c s IH]; intros e cur He; cbn in *; [by subst |].
  unfold esc_step in He. destruct e; cbn in He; [by apply IH |].
  repeat case_if; try (apply IH; done). cbn. f_equal. by apply IH.
Qed.

(** Every way to split the labels is at an unescaped dot. *)
Lemma labels_from_split s e cur l1 l2 :
  labels_from s e cur = l1 ++ l2 -> l1 <> [] -> l2 <> [] ->
  exists p q, s = p ++ DOT :: q /\ foldl esc_step e p = false /\ labels_from q false [] = l2.
Proof.
  revert e cur l1. induction s as [| c s IH]; intros e cur l1 Hl H1 H2.
  { destruct l1 as [| ? [|]], l2; naive_solver. }
  assert (forall e' cur', labels_from s e' cur' = l1 ++ l2 -> esc_step e c = e' ->
    exists p q, c :: s = p ++ DOT :: q /\ foldl esc_step e p = false /\ labels_from q false [] = l2) as Hstep.
  { intros e' cur' Hl' <-. destruct (IH _ _ _ Hl' H1 H2) as (p & q & -> & ? & ?). by exists (c :: p), q. }
  cbn [labels_from] in Hl. unfold esc_step in Hstep. destruct e; [by eapply Hstep |].
  case_if_in Hl; [by eapply Hstep |]. case_if_in Hl; [| by eapply Hstep].
  destruct l1 as [| x l1]; [done |]. injection Hl as -> Hl. assert (c = DOT) as -> by lia.
  destruct l1 as [| y l1]; [by exists [], s |].
  destruct (IH _ _ _ Hl) as (p & q & -> & ? & ?); [done.. |]. by exists (DOT :: p), q.
Qed.

Lemma chr_lower s i : chr (map tolower s) i = tolower (chr s i).
Proof. apply (map_nth tolower s 0 i). Qed.

Lemma relative_lower s : relative (map tolower s) = map tolower (relative s).
Proof.
  unfold relative. rewrite length_map, <- firstn_map. f_equal. unfold dns_name_len_no_root.
  destruct (Nat.ltb 0 (length s)) eqn:E; [| done]. apply Nat.ltb_lt in E.
  rewrite chr_lower, tolower_DOT, !escaped_spec by (rewrite ?length_map; lia).
  by rewrite firstn_map, esc_after_lower.
Qed.

Lemma without_root_last ls l : without_root (ls ++ [l]) = match l with [] => ls | _ => ls ++ [l] end.
Proof.
  induction ls as [| x ls IH]; [by destruct l |]. cbn [app without_root]. rewrite IH. destruct x; [| by destruct l]. destruct ls as [| y ls]; by destruct l.
Qed.

(** The last label is empty only behind an unescaped dot. *)
Lemma labels_from_last s c e cur : exists ls l, labels_from (s ++ [c]) e cur = ls ++ [l] /\ (l = [] <-> c = DOT /\ foldl esc_step e s = false).
Proof.
  revert e cur. induction s as [| x s IH]; intros e cur; cbn [app labels_from foldl].
  - destruct e; [exists [], (cur ++ [c]); split; [done |]; split; [by intros []%app_nil | by intros [_ ?]] |].
    destruct (Z.eqb_spec c BACKSLASH) as [-> | Hb]; [exists [], (cur ++ [BACKSLASH]); split; [done |]; split; [by intros []%app_nil | by intros [? _]] |].
    destruct (Z.eqb_spec c DOT) as [-> | Hd]; [by exists [cur], [] |]. exists [], (cur ++ [c]). split; [done |]. split; [by intros []%app_nil | by intros [? _]].
  - unfold esc_step at 2. destruct e; cbn [negb andb]; [apply IH |]. destruct (x =? BACKSLASH); [apply IH |]. destruct (x =? DOT); [| apply IH].
    destruct (IH false []) as (ls & l & -> & Hl). by exists (cur :: ls), l.
Qed.

(** The specification in terms of the text that is compared. *)
Lemma name_labels_relative s : name_labels s = match relative s with [] => [] | r => labels_from (map tolower r) false [] end.
Proof.
  unfold name_labels. destruct s as [| c s _] using rev_ind; [done |]. unfold relative, dns_name_len_no_root.
  rewrite length_app. cbn [length]. rewrite Nat.add_1_r. cbn [Nat.ltb Nat.leb]. replace (S (length s) - 1)%nat with (length s) by lia.
  assert (chr (s ++ [c]) (length s) = c) as -> by (unfold chr; by rewrite nth_middle). rewrite escaped_spec by (rewrite length_app; lia). rewrite take_app_length.
  destruct (labels_from_last (map tolower s) (tolower c) false []) as (ls & l & El & Hl). change [tolower c] with (map tolower [c]) in El. rewrite <- map_app in El.
  fold (esc_after (map tolower s)) in Hl. rewrite esc_after_lower in Hl. rewrite El, without_root_last.
  assert (tolower c = DOT <-> c = DOT) as Hc by (rewrite <- !Z.eqb_eq; by rewrite tolower_DOT). destruct (Z.eqb_spec c DOT) as [-> | Hne]; [destruct (esc_after s) eqn:Ee |]; cbn [andb negb].
  - rewrite firstn_all2 by (rewrite length_app; cbn; lia). destruct l as [| x l]; [by destruct (proj1 Hl eq_refl) |]. destruct (s ++ [DOT]) as [| y r] eqn:Er; [by destruct s |]. rewrite El. destruct ls as [| z ls]; [done | by destruct z, ls].
  - rewrite take_app_length. rewrite (proj2 Hl) in * by (split; [by apply Hc | done]). rewrite map_app in El. cbn [map] in El. change (tolower DOT) with DOT in El.
    rewrite labels_from_app in El by (by fold (esc_after (map tolower s)); rewrite esc_after_lower). cbn [labels_from] in El. apply app_inj_tail in El as [<- _].
    destruct s as [| y s]; [done |].
    pose proof (join_labels (map tolower (y :: s)) false []) as Hj. destruct (labels_from (map tolower (y :: s)) false []) as [| [| z L1] [| L2]]; done.
  - rewrite firstn_all2 by (rewrite length_app; cbn; lia). destruct l as [| x l]; [by destruct (proj1 Hl eq_refl) as [?%Hc _] |]. destruct (s ++ [c]) as [| y r] eqn:Er; [by destruct s |].
    rewrite El. destruct ls as [| z ls]; [done | by destruct z, ls].
Qed.

Lemma match_ci_relative a b :
  domain_names_match_ci a b = true <-> map tolower (relative a) = map tolower (relative b).
Proof.
  unfold domain_names_match_ci, strcaseeq, strncaseeq. destruct (bool_decide_reflect (map tolower a = map tolower b)) as [E | E].
  - split; [| done]. intros _. by rewrite <- !relative_lower, E.
  - rewrite andb_true_iff, Nat.eqb_eq, bool_decide_eq_true. unfold relative. split; [by intros [<- ?] |].
    intros H. pose proof (f_equal length H) as Hl. rewrite !length_map, !length_take in Hl.
    pose proof (len_no_root_le a). pose proof (len_no_root_le b).
    replace (dns_name_len_no_root b (length b)) with (dns_name_len_no_root a (length a)) in * by lia. done.
Qed.

Lemma name_labels_lower a b :
  map tolower (relative a) = map tolower (relative b) <-> name_labels a = name_labels b.
Proof.
  rewrite !name_labels_relative. destruct (relative a) as [| x ra], (relative b) as [| y rb]; try done.
  - split; [done |]. intros H. symmetry in H. by apply labels_from_not_nil in H.
  - split; [done |]. intros H. by apply labels_from_not_nil in H.
  - split; [by intros -> |]. apply labels_from_inj.
Qed.

Lemma hash_ci_relative a : cstring a -> dns_name_hash_ci a = foldl fnv_step 2166136261 (map tolower (relative a)).
Proof.
  intros Ha. unfold dns_name_hash_ci. fold (relative a). unfold relative.
  apply (Forall_take _ (dns_name_len_no_root a (length a))) in Ha. revert Ha.
  generalize (take (dns_name_len_no_root a (length a)) a) 2166136261.
  induction l as [| c l IH]; intros h Ha; [done |]. apply Forall_cons_1 in Ha as [Hc Ha]. cbn.
  rewrite u8_small, lc_tolower by (unfold ischar in Hc; lia). by apply IH.
Qed.

(** The ancestor test on the texts without their final dots. *)
Lemma at_or_below_relative name apex :
  domain_name_is_at_or_below name apex =
  (let N := relative name in let A := relative apex in
   if Nat.eqb (length A) 0 then true
   else if Nat.ltb (length N) (length A)
        || negb (bool_decide (map tolower (drop (length N - length A) N) = map tolower A)) then false
   else if Nat.eqb (length N) (length A) then true
   else (chr N (length N - length A - 1) =? DOT) && negb (esc_after (take (length N - length A - 1) N))).
Proof.
  unfold domain_name_is_at_or_below. cbn zeta. rewrite !length_relative.
  set (nl := dns_name_len_no_root name (length name)). set (al := dns_name_len_no_root apex (length apex)).
  assert (nl <= length name)%nat by apply len_no_root_le.
  destruct (Nat.eqb al 0) eqn:E0; [done |]. destruct (Nat.ltb nl al) eqn:El; [done |].
  apply Nat.ltb_ge in El. apply Nat.eqb_neq in E0.
  assert (strncaseeq (drop (nl - al) name) apex al =
          bool_decide (map tolower (drop (nl - al) (relative name)) = map tolower (relative apex))) as ->.
  { unfold strncaseeq, relative. fold nl al. rewrite skipn_firstn_comm.
    by replace (nl - (nl - al))%nat with al by lia. }
  cbn [orb]. destruct (negb _); [done |]. destruct (Nat.eqb nl al) eqn:Ee; [done |]. apply Nat.eqb_neq in Ee.
  rewrite escaped_spec by lia. unfold relative. fold nl.
  rewrite take_take, Nat.min_l by lia.
  rewrite <- (take_drop nl name) at 1. by rewrite chr_app_l by (rewrite length_take; lia).
Qed.

Lemma chr_split s i : (i < length s)%nat -> s = take i s ++ chr s i :: drop (S i) s.
Proof.
  intros Hi. rewrite <- (take_drop i s) at 1. f_equal. unfold chr.
  destruct (lookup_lt_is_Some_2 s i Hi) as [x Hx]. rewrite (drop_S _ _ _ Hx). by rewrite (nth_lookup_Some _ _ 0 _ Hx).
Qed.

(** A suffix of the labels starts at the beginning or after an unescaped dot. *)
Lemma suffix_labels N A :
  labels_from A false [] `suffix_of` labels_from N false [] <->
  N = A \/ exists p, N = p ++ DOT :: A /\ esc_after p = false.
Proof.
  split.
  - intros [k Hk]. destruct k as [| x k]; [left; by apply labels_from_inj |].
    destruct (labels_from_split _ _ _ _ _ Hk) as (p & q & -> & Hp & Hq); [done | apply labels_from_not_nil |].
    apply labels_from_inj in Hq as ->. right. by exists p.
  - intros [-> | (p & -> & Hp)]; [done |]. exists (labels_from p false []). by apply labels_from_app.
Qed.

(** The test of the code, on texts without a final dot. *)
Lemma at_or_below_split N A :
  A <> [] ->
  (if Nat.ltb (length N) (length A)
      || negb (bool_decide (map tolower (drop (length N - length A) N) = map tolower A)) then false
   else if Nat.eqb (length N) (length A) then true
   else (chr N (length N - length A - 1) =? DOT) && negb (esc_after (take (length N - length A - 1) N))) = true <->
  map tolower N = map tolower A \/ exists p, map tolower N = p ++ DOT :: map tolower A /\ esc_after p = false.
Proof.
  intros HA. set (i := (length N - length A - 1)%nat). split.
  - case_if; [done |]. apply orb_false_iff in E as [El%Nat.ltb_ge Ed%negb_false_iff%bool_decide_eq_true].
    destruct (Nat.eqb_spec (length N) (length A)) as [En | En].
    { intros _. left. by rewrite En, Nat.sub_diag in Ed. }
    intros [Hc%Z.eqb_eq He%negb_true_iff]%andb_true_iff. right. exists (map tolower (take i N)).
    rewrite esc_after_lower. split; [| done]. rewrite (chr_split N i) at 1 by lia.
    rewrite map_app. cbn [map]. rewrite Hc. do 2 f_equal. rewrite <- Ed. do 2 f_equal. lia.
  - intros [H | (p & H & Hp)]; pose proof (f_equal length H) as Hl.
    { rewrite !length_map in Hl. rewrite Hl, Nat.ltb_irrefl, Nat.sub_diag, drop_0, bool_decide_true, Nat.eqb_refl by done. done. }
    rewrite length_app in Hl. cbn in Hl. rewrite !length_map in Hl. assert (i = length p) as Hi by lia.
    rewrite (proj2 (Nat.ltb_ge _ _)), (proj2 (Nat.eqb_neq _ _)) by lia.
    assert (map tolower (take i N) = p) as Hp' by (by rewrite <- firstn_map, H, Hi, take_app_length).
    rewrite bool_decide_true.
    + cbn. rewrite <- tolower_DOT, <- chr_lower, H, Hi. unfold chr. rewrite nth_middle.
      rewrite <- esc_after_lower, <- Hi, Hp', Hp. done.
    + rewrite <- skipn_map, H. replace (length N - length A)%nat with (length (p ++ [DOT])) by (rewrite length_app; cbn; lia).
      change (DOT :: map tolower A) with ([DOT] ++ map tolower A). by rewrite app_assoc, drop_app_length.
Qed.

Lemma at_or_below_labels name apex :
  domain_name_is_at_or_below name apex = true <-> name_labels apex `suffix_of` name_labels name.
Proof.
  rewrite at_or_below_relative. cbn zeta. rewrite !name_labels_relative.
  destruct (relative apex) as [| a0 A0] eqn:EA.
  { split; [intros _; apply suffix_nil | done]. }
  rewrite <- EA. assert (relative apex <> []) as HA by by rewrite EA.
  destruct (Nat.eqb_spec (length (relative apex)) 0) as [E0 | E0]; [by apply nil_length_inv in E0 |].
  rewrite at_or_below_split by done. destruct (relative name) as [| n0 N0].
  - split; [| intros H%suffix_nil_inv; by apply labels_from_not_nil in H].
    intros [H | (p & H & _)]; [by destruct (relative apex) | by destruct p].
  - symmetry. apply suffix_labels.
Qed.

(** ** Properties *)

(** C29. [domain_names_match_ci] decides equality of the lists of labels,
    letters compared without case and the final dot of an absolute name
    ignored; the labels are read from the left, where a backslash takes the
    special meaning of the next character away, so that an escaped dot, also at
    the end of the text, is part of its label. Names that match have the same
    [dns_name_hash_ci], so a table keyed by the hash finds them. *)
Theorem names_match_iff_same_labels (a b : list Z) :
  cstring a -> cstring b ->
  (domain_names_match_ci a b = true <-> name_labels a = name_labels b) /\
  (domain_names_match_ci a b = true -> dns_name_hash_ci a = dns_name_hash_ci b).
Proof.
  intros Ha Hb. rewrite match_ci_relative. split; [apply name_labels_lower |].
  intros H. by rewrite !hash_ci_relative, H.
Qed.

Lemma names_match_iff_same_labels_witness :
  let a := str "WWW.Example." in let b := str "www.eXample" in
  (domain_names_match_ci a b = true <-> name_labels a = name_labels b) /\
  (domain_names_match_ci a b = true -> dns_name_hash_ci a = dns_name_hash_ci b).
Proof. intros a b. apply (names_match_iff_same_labels a b); chars_lit. Defined.

(** [domain_name_is_at_or_below] decides that the labels of the zone
    apex are the last labels of the name: an escaped dot is not a label
    boundary, a longer label that ends like the apex does not match, and the
    root is above every name. *)
Theorem at_or_below_iff_label_suffix (name apex : list Z) :
  domain_name_is_at_or_below name apex = true <-> name_labels apex `suffix_of` name_labels name.
Proof. apply at_or_below_labels. Qed.

End DnsName.
