(* ===== verification/Acl.v ===== *)
(** * Access control lists (src/dns_tsig_acl.c)

    First-match address lists, in the textual form and in the form parsed
    once at configuration time, and the decisions built on them: who may
    transfer a zone and who may update it, with the ceiling that bounds the
    ACLs stored in a database. *)

From S2P Require Import Prelude.
From S2P Require Import CLib.
From S2P Require Import Cidr.
From S2P Require Import DnsName.

Module Acl.
Import CLib Cidr DnsName.

(** ** Data *)

Record acl_entry_t := AclEntry { cidr : cidr_entry_t; is_deny : bool }.

(** A [char **] list (its entries may be NULL) beside the array parsed from
    it, which is NULL when the allocation failed. *)
Record addr_list := AddrList { entries : list (option (list Z)); parsed : option (list acl_entry_t) }.

Inductive acl_match := ACL_MATCH_DEFAULT | ACL_MATCH_ANY | ACL_MATCH_ALL.

#[export] Instance acl_match_eq_dec : EqDecision acl_match.
Proof. solve_decision. Defined.

(** The fields of [zone_ext_t] the ACLs read. *)
Record zone_ext_t := ZoneExt {
  tsig_key : option (list Z);
  tsig_keys : list (option (list Z));
  db_acl_ceiling : bool;
  allow_transfer : addr_list;
  transfer_acl_match : acl_match;
  allow_update : addr_list;
  update_acl_match : acl_match
}.

(** The fields of [database_config_t] and the key names of the server. *)
Record server_config_t := ServerConfig {
  keys : list (option (list Z));
  db_enabled : bool;
  acl_ceiling : addr_list;
  acl_ceiling_keys : list (option (list Z));
  acl_ceiling_match : acl_match
}.

(** ** Operations *)

(** [rule[0] == '!'] and the text after it. *)
Definition rule_target (rule : list Z) : bool * list Z :=
  match rule with
  | c :: r => if c =? 33 then (true, r) else (false, rule)
  | [] => (false, rule)
  end.

Section Lists.
Context `{InetPton}.

Fixpoint check_acl (client_ip : list Z) (acl_list : list (option (list Z))) : outcome bool :=
  match acl_list with
  | [] => Ret false
  | None :: rest => check_acl client_ip rest
  | Some rule :: rest =>
      let '(deny, target) := rule_target rule in
      let! m := match_cidr client_ip target in
      if m then Ret (negb deny) else check_acl client_ip rest
  end.

Definition acl_rule_parse (rule : option (list Z)) : acl_entry_t :=
  match rule with
  | None => AclEntry entry_zero false
  | Some rule => let '(deny, target) := rule_target rule in AclEntry (fst (cidr_entry_parse target)) deny
  end.

Definition acl_list_parse (acl_list : list (option (list Z))) : list acl_entry_t := map acl_rule_parse acl_list.

Fixpoint acl_scan (family : Z) (addr_bytes : list Z) (parsed : list acl_entry_t) (count : nat) : outcome bool :=
  match count, parsed with
  | O, _ => Ret false
  | S _, [] => Oob
  | S n, e :: rest =>
      if negb (valid (cidr e)) then acl_scan family addr_bytes rest n
      else
        let! m := cidr_entry_match (cidr e) family addr_bytes in
        if m then Ret (negb (is_deny e)) else acl_scan family addr_bytes rest n
  end.

Definition check_acl_bin (client_ip : list Z) (parsed : list acl_entry_t) (count : nat) : outcome bool :=
  match inet_pton AF_INET client_ip with
  | Some a => acl_scan AF_INET a parsed count
  | None =>
      match inet_pton AF_INET6 client_ip with
      | Some a => acl_scan AF_INET6 a parsed count
      | None => Ret false
      end
  end.

Definition count (l : addr_list) : nat := length (entries l).

Definition addr_list_match (client_ip : list Z) (l : addr_list) : outcome bool :=
  if Nat.eqb (count l) 0 then Ret false
  else match parsed l with
  | Some p => check_acl_bin client_ip p (count l)
  | None => check_acl client_ip (entries l)
  end.

Definition tsig_key_names_equal (a b : option (list Z)) : bool :=
  match a, b with Some a, Some b => domain_names_match_ci a b | _, _ => false end.

(** [find_tsig_key_by_name(cfg, name) != NULL] *)
Definition tsig_key_defined (cfg : server_config_t) (key_name : option (list Z)) : bool :=
  match key_name with
  | None | Some [] => false
  | _ => existsb (fun k => tsig_key_names_equal k key_name) (keys cfg)
  end.

(** The loops [for (i ...; key_name && ... && !ok; i++) ok = ...]. *)
Definition key_listed (key_name : option (list Z)) (l : list (option (list Z))) : bool :=
  existsb (tsig_key_names_equal key_name) l.

Definition db_acl_ceiling_configured (cfg : server_config_t) : bool :=
  db_enabled cfg && (Nat.ltb 0 (count (acl_ceiling cfg)) || Nat.ltb 0 (length (acl_ceiling_keys cfg))).

Definition ceiling_allows (cfg : server_config_t) (client_ip : list Z) (key_name : option (list Z)) : outcome bool :=
  if negb (db_acl_ceiling_configured cfg) then Ret false
  else
    let! addr_in := addr_list_match client_ip (acl_ceiling cfg) in
    let key_in := key_listed key_name (acl_ceiling_keys cfg) in
    if bool_decide (acl_ceiling_match cfg = ACL_MATCH_ALL) && Nat.ltb 0 (count (acl_ceiling cfg))
         && Nat.ltb 0 (length (acl_ceiling_keys cfg))
    then Ret (addr_in && key_in)
    else Ret (addr_in || key_in).

Definition db_ceiling_allows_address (cfg : server_config_t) (client_ip : list Z) : outcome bool :=
  if negb (db_acl_ceiling_configured cfg) then Ret false else addr_list_match client_ip (acl_ceiling cfg).

(** [if (allowed && x->db_acl_ceiling) allowed = ceiling_allows(...)] *)
Definition under_ceiling (cfg : server_config_t) (x : zone_ext_t) (client_ip : list Z) (key_name : option (list Z))
    (allowed : bool) : outcome bool :=
  if allowed && db_acl_ceiling x then ceiling_allows cfg client_ip key_name else Ret allowed.

Definition zone_transfer_acl_allows (cfg : server_config_t) (x : zone_ext_t) (client_ip : list Z)
    (key_name : option (list Z)) : outcome bool :=
  let zone_key_counts := bool_decide (is_Some (tsig_key x)) && negb (db_acl_ceiling x) in
  if db_acl_ceiling x && negb (forallb (tsig_key_defined cfg) (tsig_keys x)) then Ret false
  else
    let has_acl := Nat.ltb 0 (count (allow_transfer x)) in
    let has_keys := Nat.ltb 0 (length (tsig_keys x)) || zone_key_counts in
    let! acl_ok := if has_acl then addr_list_match client_ip (allow_transfer x) else Ret false in
    let key_ok := key_listed key_name (tsig_keys x) in
    let key_ok :=
      if bool_decide (is_Some key_name) && negb key_ok && zone_key_counts
      then tsig_key_names_equal key_name (tsig_key x) else key_ok in
    let allowed :=
      if has_acl && has_keys then
        if bool_decide (transfer_acl_match x = ACL_MATCH_ANY) then acl_ok || key_ok else acl_ok && key_ok
      else if has_acl then acl_ok
      else if has_keys then key_ok
      else false in
    under_ceiling cfg x client_ip key_name allowed.

(** [parsed] is the array, [i] the index of the entry in it. *)
Definition update_entry_is_key (e : option (list Z)) (parsed : option (list acl_entry_t)) (i : nat) : outcome bool :=
  match e with
  | None => Ret false
  | Some t =>
      if bool_decide (head t = Some 33) || streq t [] || streq t (str "none") then Ret false
      else match parsed with
      | Some p => match p !! i with Some pe => Ret (negb (valid (cidr pe))) | None => Oob end
      | None => Ret (negb (snd (cidr_entry_parse t)))
      end
  end.

(** The kinds of the entries, in order. *)
Fixpoint entry_kinds (l : list (option (list Z))) (parsed : option (list acl_entry_t)) (i : nat) : outcome (list bool) :=
  match l with
  | [] => Ret []
  | e :: l' =>
      let! k := update_entry_is_key e parsed i in
      let! ks := entry_kinds l' parsed (S i) in
      Ret (k :: ks)
  end.

Definition zone_update_acl_allows (cfg : server_config_t) (x : zone_ext_t) (client_ip : list Z)
    (key_name : option (list Z)) : outcome bool :=
  let l := allow_update x in
  if Nat.eqb (count l) 0 then Ret false
  else
    let! kinds := entry_kinds (entries l) (parsed l) 0 in
    let items := combine (entries l) kinds in
    if db_acl_ceiling x && existsb (fun '(e, is_key) => is_key && negb (tsig_key_defined cfg e)) items then Ret false
    else
      let! addr_ok := addr_list_match client_ip l in
      let key_present := existsb (fun '(_, is_key) => is_key) items in
      let addr_present := existsb (fun '(_, is_key) => negb is_key) items in
      let any_key_ok := existsb (fun '(e, _) => tsig_key_names_equal key_name e) items in
      let key_ok := existsb (fun '(e, is_key) => is_key && tsig_key_names_equal key_name e) items in
      let allowed :=
        if bool_decide (update_acl_match x = ACL_MATCH_ALL) then
          if addr_present && key_present then addr_ok && key_ok
          else if addr_present then addr_ok else key_ok
        else addr_ok || any_key_ok in
      under_ceiling cfg x client_ip key_name allowed.

(** ** Lemmas *)

Lemma acl_scan_parse client fam a l :
  client_addr client = Some (fam, a) ->
  check_acl client l = acl_scan fam a (acl_list_parse l) (length l).
Proof.
  intros Hc. induction l as [| [rule |] l IH]; cbn; [done | | done].
  destruct (rule_target rule) as [deny target]. cbn. rewrite (match_cidr_parsed _ _ _ _ Hc), IH.
  destruct (valid _) eqn:Ev; [done |]. cbn. unfold cidr_entry_match. by rewrite Ev.
Qed.

Lemma check_acl_bin_scan client fam a p n :
  client_addr client = Some (fam, a) -> check_acl_bin client p n = acl_scan fam a p n.
Proof.
  unfold client_addr, check_acl_bin. destruct (inet_pton AF_INET client); [by intros [= <- <-] |].
  by destruct (inet_pton AF_INET6 client); [intros [= <- <-] |].
Qed.

Lemma check_acl_parsed client fam a l :
  client_addr client = Some (fam, a) -> check_acl client l = check_acl_bin client (acl_list_parse l) (length l).
Proof. intros Hc. by rewrite (acl_scan_parse _ _ _ _ Hc), (check_acl_bin_scan _ _ _ _ _ Hc). Qed.

(** ** Specification: the first rule that covers the address decides *)

Definition text_covers (fam : Z) (a t : list Z) : Prop :=
  exists e, cidr_entry_parse t = (e, true) /\ (is_any e = true \/ family e = fam /\ same_prefix (prefix e) a (addr e)).

Definition rule_covers (fam : Z) (a : list Z) (rule : option (list Z)) : Prop :=
  exists t, rule = Some t /\ text_covers fam a (snd (rule_target t)).

Definition rule_denies (rule : option (list Z)) : bool :=
  match rule with Some t => fst (rule_target t) | None => false end.

Definition first_match_allows (fam : Z) (a : list Z) (l : list (option (list Z))) : Prop :=
  exists i rule, l !! i = Some rule /\ rule_denies rule = false /\ rule_covers fam a rule /\
    forall j r, (j < i)%nat -> l !! j = Some r -> ~ rule_covers fam a r.

Lemma entry_match_covers fam a t :
  bytes a -> length a = family_bytes fam -> fam = AF_INET \/ fam = AF_INET6 ->
  exists r, cidr_entry_match (fst (cidr_entry_parse t)) fam a = Ret r /\ (r = true <-> text_covers fam a t).
Proof.
  intros Ha Hla Hfam. unfold text_covers. destruct (cidr_entry_parse t) as [e [|]] eqn:Ep; cbn [fst].
  - pose proof (cidr_entry_parse_wf _ _ Ep) as [Hv Hwf]. destruct (is_any e) eqn:Hany.
    { exists true. unfold cidr_entry_match. rewrite Hv, Hany. naive_solver. }
    destruct Hwf as [? | Hwf]; [congruence |]. destruct (decide (family e = fam)) as [<- | Hne].
    + destruct (entry_match_wf e a) as (r & Hr & Hiff); try done. exists r. split; [done |]. rewrite Hiff. split; [by eauto 6 |]. intros (e' & [= <-] & [? | [_ ?]]); [congruence | done].
    + exists false. unfold cidr_entry_match. rewrite Hv, Hany, (proj2 (Z.eqb_neq _ _) Hne).
      split; [done |]. split; [done |]. intros (e' & [= <-] & [? | [? _]]); congruence.
  - apply cidr_entry_parse_invalid in Ep as ->. exists false. split; [done |]. split; [done |]. by intros (e' & [=] & _).
Qed.

Lemma first_match_nil fam a : ~ first_match_allows fam a [].
Proof. intros (i & rule & Hi & _). by rewrite lookup_nil in Hi. Qed.

Lemma first_match_cons fam a rule l :
  first_match_allows fam a (rule :: l) <->
  (rule_covers fam a rule /\ rule_denies rule = false) \/ (~ rule_covers fam a rule /\ first_match_allows fam a l).
Proof.
  split.
  - intros ([| i] & r & Hi & Hd & Hc & Hb); cbn in Hi; [left; by simplify_eq |].
    right. split; [by apply (Hb 0%nat); [lia |] |]. exists i, r. split_and!; try done.
    intros j r' Hj Hr'. apply (Hb (S j)); [lia | done].
  - intros [[Hc Hd] | [Hn (i & r & Hi & Hd & Hc & Hb)]].
    + exists 0%nat, rule. split_and!; try done. lia.
    + exists (S i), r. split_and!; try done. intros [| j] r' Hj Hr'; cbn in Hr'; [by simplify_eq |].
      apply (Hb j); [lia | done].
Qed.

Lemma check_acl_first_match client fam a l :
  client_addr client = Some (fam, a) ->
  exists r, check_acl client l = Ret r /\ (r = true <-> first_match_allows fam a l).
Proof.
  intros Hc. destruct (client_addr_ok _ _ _ Hc) as (Ha & Hla & Hfam).
  induction l as [| rule l (r & Hr & Hiff)]; [exists false; split; [done |]; pose proof (first_match_nil fam a); naive_solver |].
  setoid_rewrite first_match_cons. destruct rule as [t |]; cbn; unfold rule_covers; [| exists r; naive_solver].
  destruct (rule_target t) as [deny target] eqn:Et.
  destruct (entry_match_covers fam a target) as (m & Hm & Hmiff); try done.
  rewrite (match_cidr_parsed _ _ _ _ Hc), Hm. cbn.
  assert ((exists t0, Some t = Some t0 /\ text_covers fam a (rule_target t0).2) <-> m = true) as Hcov.
  { rewrite Hmiff. split; [intros (? & [= <-] & ?); by rewrite Et in * | exists t; by rewrite Et]. }
  setoid_rewrite Hcov. destruct m; [exists (negb deny); destruct deny; naive_solver |]. exists r. naive_solver.
Qed.

(** ** Who may transfer, who may update *)

(** The parsed array, when there is one, was parsed from the list. *)
Definition list_wf (l : addr_list) : Prop :=
  parsed l = None \/ parsed l = Some (acl_list_parse (entries l)).

Definition config_wf (cfg : server_config_t) (x : zone_ext_t) : Prop :=
  list_wf (acl_ceiling cfg) /\ list_wf (allow_transfer x) /\ list_wf (allow_update x).

Lemma addr_list_match_spec client fam a l :
  client_addr client = Some (fam, a) -> list_wf l ->
  exists r, addr_list_match client l = Ret r /\ (r = true <-> first_match_allows fam a (entries l)).
Proof.
  intros Hc Hwf. destruct (check_acl_first_match _ _ _ (entries l) Hc) as (r & Hr & Hiff). exists r. split; [| done].
  unfold addr_list_match, count. destruct (Nat.eqb_spec (length (entries l)) 0) as [E0 | E0].
  { apply nil_length_inv in E0. by rewrite E0 in Hr. }
  destruct Hwf as [-> | ->]; [done |]. by rewrite <- (check_acl_parsed _ _ _ _ Hc).
Qed.

(** A key of the list signed the request. *)
Definition signed_by (key : option (list Z)) (l : list (option (list Z))) : Prop :=
  exists k n, key = Some k /\ In (Some n) l /\ name_labels k = name_labels n.

Lemma names_equal_labels k n : tsig_key_names_equal (Some k) (Some n) = true <-> name_labels k = name_labels n.
Proof. cbn. by rewrite match_ci_relative, name_labels_lower. Qed.

Lemma names_equal_Some a b : tsig_key_names_equal a b = true -> exists k n, a = Some k /\ b = Some n /\ name_labels k = name_labels n.
Proof. destruct a as [k |], b as [n |]; try done. rewrite names_equal_labels. eauto 6. Qed.

Lemma key_listed_spec key l : key_listed key l = true <-> signed_by key l.
Proof.
  unfold key_listed, signed_by. rewrite existsb_exists. split.
  - intros (n & Hin & (k & m & -> & -> & Hl)%names_equal_Some). by exists k, m.
  - intros (k & n & -> & Hin & Hl). exists (Some n). split; [done |]. by apply names_equal_labels.
Qed.

Lemma signed_by_app key l1 l2 : signed_by key (l1 ++ l2) <-> signed_by key l1 \/ signed_by key l2.
Proof. unfold signed_by. setoid_rewrite in_app_iff. naive_solver. Qed.

(** Inside the ceiling: by address or by key, by both where the
    configuration lists both kinds and asks for all. *)
Definition inside_ceiling (cfg : server_config_t) (fam : Z) (a : list Z) (key : option (list Z)) : Prop :=
  let addr_in := first_match_allows fam a (entries (acl_ceiling cfg)) in
  let key_in := signed_by key (acl_ceiling_keys cfg) in
  db_enabled cfg = true /\
  (addr_in /\ key_in \/
   (addr_in \/ key_in) /\
   ~ (acl_ceiling_match cfg = ACL_MATCH_ALL /\ entries (acl_ceiling cfg) <> [] /\ acl_ceiling_keys cfg <> [])).

Lemma signed_by_nil key : ~ signed_by key [].
Proof. by intros (k & n & _ & [] & _). Qed.

Lemma ltb_length {A} (l : list A) : Nat.ltb 0 (length l) = negb (bool_decide (l = [])).
Proof. by destruct l. Qed.

Lemma ceiling_allows_spec cfg client fam a key :
  client_addr client = Some (fam, a) -> list_wf (acl_ceiling cfg) ->
  exists r, ceiling_allows cfg client key = Ret r /\ (r = true <-> inside_ceiling cfg fam a key).
Proof.
  intros Hc Hwf. destruct (addr_list_match_spec _ _ _ _ Hc Hwf) as (ra & Hra & Ha).
  pose proof (key_listed_spec key (acl_ceiling_keys cfg)) as Hk.
  pose proof (first_match_nil fam a) as Hn. pose proof (signed_by_nil key) as Hn'.
  unfold ceiling_allows, db_acl_ceiling_configured, inside_ceiling, count. rewrite Hra, !ltb_length. cbn [obind].
  destruct (db_enabled cfg); [| exists false; naive_solver]. cbn [andb].
  destruct (bool_decide_reflect (entries (acl_ceiling cfg) = [])) as [Ee | Ee];
  destruct (bool_decide_reflect (acl_ceiling_keys cfg = [])) as [Ek | Ek];
  destruct (bool_decide_reflect (acl_ceiling_match cfg = ACL_MATCH_ALL)) as [Em | Em]; cbn;
    rewrite <- ?Ha, <- ?Hk; (eexists; split; [done |]);
    rewrite ?Ee, ?Ek in *; destruct ra, (key_listed key _); intuition congruence.
Qed.

(** The keys whose signature counts for a transfer. *)
Definition transfer_keys (x : zone_ext_t) : list (option (list Z)) :=
  tsig_keys x ++ (if db_acl_ceiling x then [] else match tsig_key x with Some k => [Some k] | None => [] end).

Definition may_transfer (cfg : server_config_t) (x : zone_ext_t) (fam : Z) (a : list Z) (key : option (list Z)) : Prop :=
  let has_acl := entries (allow_transfer x) <> [] in
  let has_keys := transfer_keys x <> [] in
  let addr_ok := first_match_allows fam a (entries (allow_transfer x)) in
  let key_ok := signed_by key (transfer_keys x) in
  (addr_ok /\ key_ok \/ (addr_ok \/ key_ok) /\ (transfer_acl_match x = ACL_MATCH_ANY \/ ~ (has_acl /\ has_keys))) /\
  (db_acl_ceiling x = true ->
     inside_ceiling cfg fam a key /\ Forall (fun k => tsig_key_defined cfg k = true) (tsig_keys x)).

(** The key test of the code is membership in [transfer_keys]. *)
Lemma transfer_key_ok x key :
  let zone_key_counts := bool_decide (is_Some (tsig_key x)) && negb (db_acl_ceiling x) in
  let key_ok := key_listed key (tsig_keys x) in
  (if bool_decide (is_Some key) && negb key_ok && zone_key_counts
   then tsig_key_names_equal key (tsig_key x) else key_ok) = true <-> signed_by key (transfer_keys x).
Proof.
  cbn zeta. unfold transfer_keys. rewrite signed_by_app, <- !key_listed_spec.
  destruct (key_listed key (tsig_keys x)) eqn:Ek; [by rewrite andb_false_r; naive_solver |].
  destruct key as [k |]; cbn; [| destruct (db_acl_ceiling x), (tsig_key x); cbn; naive_solver].
  destruct (db_acl_ceiling x); [rewrite andb_false_r; naive_solver |].
  destruct (tsig_key x) as [z |]; cbn; rewrite ?orb_false_r; naive_solver.
Qed.

Lemma transfer_has_keys x :
  Nat.ltb 0 (length (tsig_keys x)) || (bool_decide (is_Some (tsig_key x)) && negb (db_acl_ceiling x)) =
  negb (bool_decide (transfer_keys x = [])).
Proof.
  unfold transfer_keys. destruct (tsig_keys x); [| done]. cbn. by destruct (db_acl_ceiling x), (tsig_key x).
Qed.

Lemma under_ceiling_spec cfg x client fam a key allowed :
  client_addr client = Some (fam, a) -> list_wf (acl_ceiling cfg) ->
  exists r, under_ceiling cfg x client key allowed = Ret r /\
    (r = true <-> allowed = true /\ (db_acl_ceiling x = true -> inside_ceiling cfg fam a key)).
Proof.
  intros Hc Hwf. unfold under_ceiling. destruct allowed; [| exists false; naive_solver].
  destruct (db_acl_ceiling x); [| exists true; naive_solver].
  destruct (ceiling_allows_spec cfg client fam a key Hc Hwf) as (r & -> & Hr). exists r. naive_solver.
Qed.

Lemma zone_transfer_acl_spec cfg x client fam a key :
  client_addr client = Some (fam, a) -> config_wf cfg x ->
  exists r, zone_transfer_acl_allows cfg x client key = Ret r /\ (r = true <-> may_transfer cfg x fam a key).
Proof.
  intros Hc (Hwc & Hwt & _). unfold zone_transfer_acl_allows, may_transfer, count. cbn zeta.
  destruct (db_acl_ceiling x && negb (forallb (tsig_key_defined cfg) (tsig_keys x))) eqn:Ed.
  { exists false. split; [done |]. split; [done |]. apply andb_true_iff in Ed as [-> Ef%negb_true_iff].
    intros [_ Hk]. destruct (Hk eq_refl) as [_ Hall]. rewrite <- not_true_iff_false in Ef. destruct Ef.
    apply forallb_forall. intros k Hin. rewrite Forall_forall in Hall. by apply Hall, list_elem_of_In. }
  assert (db_acl_ceiling x = true -> Forall (fun k => tsig_key_defined cfg k = true) (tsig_keys x)) as Hdef.
  { intros Hx. rewrite Hx in Ed. apply negb_false_iff in Ed. rewrite forallb_forall in Ed.
    apply Forall_forall. intros k Hin. by apply Ed, list_elem_of_In. }
  destruct (addr_list_match_spec _ _ _ _ Hc Hwt) as (ra & Hra & Ha).
  pose proof (transfer_key_ok x key) as Hk. cbn zeta in Hk. rewrite transfer_has_keys, ltb_length, Hra.
  set (kb := if _ && _ && _ then _ else key_listed _ _) in *. clearbody kb.
  pose proof (first_match_nil fam a) as Hn. pose proof (signed_by_nil key) as Hn'.
  destruct (bool_decide_reflect (entries (allow_transfer x) = [])) as [Ee | Ee];
  destruct (bool_decide_reflect (transfer_keys x = [])) as [Ek | Ek]; cbn [negb andb orb obind];
    match goal with |- context [under_ceiling _ _ _ _ ?al] =>
      destruct (under_ceiling_spec cfg x client fam a key al Hc Hwc) as (r & Hr & Hiff) end;
    exists r; (split; [done |]); rewrite Hiff, <- Ha, <- Hk; rewrite ?Ee, ?Ek in *;
    destruct (bool_decide_reflect (transfer_acl_match x = ACL_MATCH_ANY)), ra, kb; cbn;
    intuition congruence.
Qed.

(** An entry of allow-update that names a key. *)
Definition names_key (e : option (list Z)) : bool :=
  match e with
  | None => false
  | Some t =>
      negb (bool_decide (head t = Some 33) || streq t [] || streq t (str "none")) && negb (snd (cidr_entry_parse t))
  end.

Lemma cidr_entry_parse_valid t : valid (fst (cidr_entry_parse t)) = snd (cidr_entry_parse t).
Proof.
  destruct (cidr_entry_parse t) as [e [|]] eqn:Ep; cbn.
  - by apply cidr_entry_parse_wf in Ep as [? _].
  - by apply cidr_entry_parse_invalid in Ep as ->.
Qed.

Lemma rule_target_plain t : head t <> Some 33 -> rule_target t = (false, t).
Proof. destruct t as [| c t]; [done |]. cbn. intros Hc. destruct (Z.eqb_spec c 33); [by subst | done]. Qed.

Lemma update_entry_is_key_spec pre e post p :
  p = None \/ p = Some (acl_list_parse (pre ++ e :: post)) ->
  update_entry_is_key e p (length pre) = Ret (names_key e).
Proof.
  intros Hp. unfold update_entry_is_key, names_key. destruct e as [t |]; [| done].
  destruct (bool_decide_reflect (head t = Some 33)) as [Eb | Eb]; [done |].
  destruct (streq t [] || streq t (str "none")) eqn:Es; cbn [orb]; rewrite Es; [done |].
  destruct Hp as [-> | ->]; [done |]. unfold acl_list_parse. rewrite map_app, lookup_app_r by by rewrite length_map.
  rewrite length_map, Nat.sub_diag. cbn. rewrite rule_target_plain by done. cbn. by rewrite cidr_entry_parse_valid.
Qed.

Lemma entry_kinds_spec l p pre :
  p = None \/ p = Some (acl_list_parse (pre ++ l)) -> entry_kinds l p (length pre) = Ret (map names_key l).
Proof.
  revert pre. induction l as [| e l IH]; intros pre Hp; [done |]. cbn.
  rewrite (update_entry_is_key_spec pre e l) by done. cbn.
  replace (S (length pre)) with (length (pre ++ [e])) by (rewrite length_app; cbn; lia).
  rewrite IH by (by rewrite <- app_assoc). done.
Qed.

Lemma combine_map_existsb {A B} (g : A -> B) (f : A * B -> bool) l :
  existsb f (combine l (map g l)) = existsb (fun a => f (a, g a)) l.
Proof. induction l as [| a l IH]; [done |]. cbn. by rewrite IH. Qed.

Definition may_update (cfg : server_config_t) (x : zone_ext_t) (fam : Z) (a : list Z) (key : option (list Z)) : Prop :=
  let l := entries (allow_update x) in
  let addr_ok := first_match_allows fam a l in
  (if decide (update_acl_match x = ACL_MATCH_ALL) then
     (existsb (fun e => negb (names_key e)) l = true -> addr_ok) /\
     (existsb names_key l = true -> signed_by key (List.filter names_key l)) /\ l <> []
   else addr_ok \/ signed_by key l) /\
  (db_acl_ceiling x = true ->
     inside_ceiling cfg fam a key /\ forall e, In e l -> names_key e = true -> tsig_key_defined cfg e = true).

Lemma existsb_filter {A} (f g : A -> bool) l : existsb (fun a => f a && g a) l = existsb g (List.filter f l).
Proof. induction l as [| a l IH]; [done |]. cbn. destruct (f a); cbn; by rewrite IH. Qed.

Lemma zone_update_acl_spec cfg x client fam a key :
  client_addr client = Some (fam, a) -> config_wf cfg x ->
  exists r, zone_update_acl_allows cfg x client key = Ret r /\ (r = true <-> may_update cfg x fam a key).
Proof.
  intros Hc (Hwc & _ & Hwu). unfold zone_update_acl_allows, may_update, count. cbn zeta.
  set (l := entries (allow_update x)) in *.
  pose proof (first_match_nil fam a) as Hn. pose proof (signed_by_nil key) as Hn'.
  destruct (Nat.eqb_spec (length l) 0) as [E0 | E0].
  { exists false. split; [done |]. apply nil_length_inv in E0. rewrite E0. destruct (decide _); intuition congruence. }
  rewrite (entry_kinds_spec l _ []) by apply Hwu. cbn [obind]. rewrite !combine_map_existsb.
  destruct (addr_list_match_spec _ _ _ _ Hc Hwu) as (ra & Hra & Ha). fold l in Ha. rewrite Hra. cbn [obind].
  destruct (db_acl_ceiling x && _) eqn:Ed.
  { exists false. split; [done |]. split; [done |]. apply andb_true_iff in Ed as [-> (e & Hin & He)%existsb_exists].
    intros [_ Hk]. apply andb_true_iff in He as [He1 He2%negb_true_iff]. destruct (Hk eq_refl) as [_ Hall].
    by rewrite (Hall _ Hin He1) in He2. }
  assert (db_acl_ceiling x = true -> forall e, In e l -> names_key e = true -> tsig_key_defined cfg e = true) as Hdef.
  { intros Hx e Hin He. rewrite Hx in Ed. apply not_false_iff_true. intros Hf. rewrite <- not_true_iff_false in Ed. destruct Ed.
    apply existsb_exists. exists e. by rewrite He, Hf. }
  rewrite existsb_filter. change (existsb (tsig_key_names_equal key)) with (key_listed key).
  change (existsb (fun a0 => tsig_key_names_equal key a0) l) with (key_listed key l).
  change (existsb (fun a0 => names_key a0) l) with (existsb names_key l).
  assert (existsb (fun e => negb (names_key e)) l = false -> existsb names_key l = true) as Hkinds.
  { destruct l as [| e0 l0]; [done |]. cbn. by destruct (names_key e0). }
  pose proof (key_listed_spec key l) as Hk1. pose proof (key_listed_spec key (List.filter names_key l)) as Hk2.
  match goal with |- context [under_ceiling _ _ _ _ ?al] =>
    destruct (under_ceiling_spec cfg x client fam a key al Hc Hwc) as (r & Hr & Hiff) end.
  exists r. split; [done |]. assert (l <> []) by by intros ->. rewrite Hiff. clear Hra Hr Hiff Ed.
  destruct (decide (update_acl_match x = ACL_MATCH_ALL)); rewrite ?bool_decide_true, ?bool_decide_false by done; rewrite <- Ha, <- ?Hk1, <- ?Hk2; clear Ha Hk1 Hk2;
  destruct (existsb (fun e => negb (names_key e)) l), (existsb names_key l), ra, (key_listed key l),
    (key_listed key (List.filter names_key l)); cbn; intuition congruence.
Qed.

End Lists.
(** ** Properties *)

(** C25. For every client address, an address list decides by the first rule
    that covers it: the client is accepted exactly when that rule exists and
    carries no exclamation mark.  The textual check and the check on the
    parsed array give this same answer, so a list whose parsed form could not
    be allocated decides alike, and malformed or NULL rules are skipped by
    both. *)
Theorem acl_first_match_decides `{InetPton} (client : list Z) (fam : Z) (a : list Z) (l : list (option (list Z))) :
  client_addr client = Some (fam, a) ->
  exists r, check_acl client l = Ret r /\ check_acl_bin client (acl_list_parse l) (length l) = Ret r /\
    (r = true <-> first_match_allows fam a l).
Proof.
  intros Hc. destruct (check_acl_first_match _ _ _ l Hc) as (r & Hr & Hiff). exists r.
  by rewrite <- (check_acl_parsed _ _ _ _ Hc).
Qed.

Lemma acl_first_match_decides_witness :
  let l := [Some (str "!192.0.2.7"); None; Some (str "192.0.2.0/33"); Some (str "192.0.2.0/24")] in
  exists r, check_acl (str "192.0.2.8") l = Ret r /\
    check_acl_bin (str "192.0.2.8") (acl_list_parse l) (length l) = Ret r /\
    (r = true <-> first_match_allows AF_INET [192; 0; 2; 8] l).
Proof. intros l. apply (acl_first_match_decides (str "192.0.2.8") AF_INET [192; 0; 2; 8] l). by vm_compute. Defined.

(** C18. A zone transfer is allowed exactly when the address list accepts the
    client or the request is signed with a key of the zone, both where the
    zone has both kinds and does not say "any"; a zone without any entry
    refuses everybody; and the ACLs of a database zone count only for clients
    inside the configured ceiling and while every key they name is defined.
    The decision does not depend on the parsed arrays. *)
Theorem zone_transfer_decision `{InetPton} (cfg : server_config_t) (x : zone_ext_t) (client : list Z) (fam : Z)
    (a : list Z) (key : option (list Z)) :
  client_addr client = Some (fam, a) -> config_wf cfg x ->
  exists r, zone_transfer_acl_allows cfg x client key = Ret r /\ (r = true <-> may_transfer cfg x fam a key).
Proof. apply zone_transfer_acl_spec. Qed.

(** The concrete configurations of the witnesses. *)
Definition ex_list : addr_list :=
  let l := [Some (str "192.0.2.0/24"); Some (str "ns2-key")] in AddrList l (Some (acl_list_parse l)).
Definition ex_cfg : server_config_t :=
  ServerConfig [Some (str "NS2-key.")] true (AddrList [Some (str "any")] None) [] ACL_MATCH_DEFAULT.
Definition ex_zone : zone_ext_t :=
  ZoneExt None [Some (str "ns2-key")] true ex_list ACL_MATCH_ANY ex_list ACL_MATCH_ALL.

Lemma ex_config_wf : config_wf ex_cfg ex_zone.
Proof. split_and!; [by left | by right | by right]. Qed.

Lemma zone_transfer_decision_witness :
  exists r, zone_transfer_acl_allows ex_cfg ex_zone (str "192.0.2.9") None = Ret r /\
    (r = true <-> may_transfer ex_cfg ex_zone AF_INET [192; 0; 2; 9] None).
Proof.
  apply (zone_transfer_decision ex_cfg ex_zone (str "192.0.2.9") AF_INET [192; 0; 2; 9] None);
    [by vm_compute | apply ex_config_wf].
Defined.

(** C19. A dynamic update is allowed exactly when the address list accepts
    the client or an entry names the key that signed the request; with "all",
    when every kind of entry the list has (addresses, key names) agrees; and
    in a database zone only for clients inside the ceiling and while every
    key the list names is defined. *)
Theorem zone_update_decision `{InetPton} (cfg : server_config_t) (x : zone_ext_t) (client : list Z) (fam : Z)
    (a : list Z) (key : option (list Z)) :
  client_addr client = Some (fam, a) -> config_wf cfg x ->
  exists r, zone_update_acl_allows cfg x client key = Ret r /\ (r = true <-> may_update cfg x fam a key).
Proof. apply zone_update_acl_spec. Qed.

Lemma zone_update_decision_witness :
  exists r, zone_update_acl_allows ex_cfg ex_zone (str "192.0.2.9") (Some (str "ns2-KEY")) = Ret r /\
    (r = true <-> may_update ex_cfg ex_zone AF_INET [192; 0; 2; 9] (Some (str "ns2-KEY"))).
Proof.
  apply (zone_update_decision ex_cfg ex_zone (str "192.0.2.9") AF_INET [192; 0; 2; 9] (Some (str "ns2-KEY")));
    [by vm_compute | apply ex_config_wf].
Defined.

End Acl.
