(* ===== verification/Rrl.v ===== *)
(** * Response rate limiting: the token buckets (src/dns_rrl.c)

    A fixed table of buckets, each owned by the 64-bit hash of a key; a key
    may live in any of the four slots after its home slot.  [rrl_debit] takes
    one token.  [run] serves requests one after the other; [schedule] lets
    threads interleave at the bucket locks. *)

From S2P Require Import Prelude.

Module Rrl.

Definition RRL_TABLE_SIZE : Z := 131072.
Definition RRL_PROBE_WAYS : nat := 4.

(** ** Data *)

Record rrl_bucket_t := Bucket {
  key_hash : Z;          (* uint64_t, 0 = free *)
  last_refill_ms : Z;    (* int64_t *)
  tokens : Z;            (* int32_t *)
  slip_counter : Z       (* uint32_t *)
}.

(** The zero-initialised static table; absent entries are zero buckets. *)
Definition bucket_zero : rrl_bucket_t := Bucket 0 0 0 0.
Abbreviation table := (gmap Z rrl_bucket_t).

Definition slot (t : table) (i : Z) : rrl_bucket_t := default bucket_zero (t !! i).

(** [(base_idx + probe) & (RRL_TABLE_SIZE - 1)] *)
Definition way (hash : Z) (probe : nat) : Z :=
  Z.land (Z.land hash (RRL_TABLE_SIZE - 1) + Z.of_nat probe) (RRL_TABLE_SIZE - 1).

Inductive verdict := Bypass | Limited (slip : bool) | Allowed.

(** ** Operations *)

(** The first way, from [probe] on, whose bucket satisfies the test. *)
Fixpoint probe_from (n : nat) (probe : nat) (hash : Z) (test : rrl_bucket_t -> bool) (t : table) : option Z :=
  match n with
  | O => None
  | S n' =>
      let i := way hash probe in
      if test (slot t i) then Some i else probe_from n' (S probe) hash test t
  end.

Definition owned_by (hash : Z) (b : rrl_bucket_t) : bool := key_hash b =? hash.

Definition reusable (window_sec now_ms : Z) (b : rrl_bucket_t) : bool :=
  (key_hash b =? 0) || (window_sec * 1000 <? now_ms - last_refill_ms b).

Definition max_cap (rate window_sec : Z) : Z := Z.min (u64 (rate * window_sec)) 2147483647.

(** The bucket after a change of owner or a refill. *)
Definition refill (hash rate window_sec now_ms : Z) (b : rrl_bucket_t) : rrl_bucket_t :=
  let cap := max_cap rate window_sec in
  if negb (key_hash b =? hash) then Bucket hash now_ms cap 0
  else
    let elapsed_ms := now_ms - last_refill_ms b in
    if 0 <? elapsed_ms then
      let add_t := u64 (u64 elapsed_ms * rate) / 1000 in
      if 0 <? add_t then
        let add_t := if cap <? add_t then cap else add_t in
        let t := tokens b + add_t in
        let t := if cap <? t then cap else t in
        let t := if t <? 0 then 0 else t in
        Bucket (key_hash b) now_ms t (slip_counter b)
      else b
    else b.

(** Take a token, or count the refusal. *)
Definition take_token (slip : Z) (b : rrl_bucket_t) : rrl_bucket_t * verdict :=
  if 0 <? tokens b then (Bucket (key_hash b) (last_refill_ms b) (tokens b - 1) (slip_counter b), Allowed)
  else
    let c := u32 (slip_counter b + 1) in
    (Bucket (key_hash b) (last_refill_ms b) (tokens b) c, Limited ((0 <? slip) && (c mod slip =? 0))).

Definition debit_bucket (hash rate window_sec slip now_ms : Z) (b : rrl_bucket_t) : rrl_bucket_t * verdict :=
  take_token slip (refill hash rate window_sec now_ms b).

Definition rrl_debit (t : table) (hash rate window_sec slip now_ms : Z) : table * verdict :=
  let selected :=
    match probe_from RRL_PROBE_WAYS 0 hash (owned_by hash) t with
    | Some i => Some i
    | None => probe_from RRL_PROBE_WAYS 0 hash (reusable window_sec now_ms) t
    end in
  match selected with
  | None => (t, Bypass)
  | Some i =>
      let '(b, v) := debit_bucket hash rate window_sec slip now_ms (slot t i) in
      (<[i := b]> t, v)
  end.

Definition rrl_bucket_empty (t : table) (hash : Z) : bool :=
  existsb (fun p => let b := slot t (way hash p) in owned_by hash b && (tokens b <=? 0)) (seq 0 RRL_PROBE_WAYS).

(** ** Lemmas on the table *)

Lemma slot_insert_eq t i b : slot (<[i := b]> t) i = b.
Proof. unfold slot. by rewrite lookup_insert_eq. Qed.

Lemma slot_insert_ne t i j b : i <> j -> slot (<[i := b]> t) j = slot t j.
Proof. intros. unfold slot. by rewrite lookup_insert_ne. Qed.

Lemma way_range hash p : 0 <= way hash p < RRL_TABLE_SIZE.
Proof.
  unfold way. change (RRL_TABLE_SIZE - 1) with (Z.ones 17). rewrite !Z.land_ones by lia.
  change RRL_TABLE_SIZE with (2 ^ 17). apply Z.mod_pos_bound. lia.
Qed.

(** The four ways of a key are different slots. *)
Lemma way_inj hash p q : (p < 4)%nat -> (q < 4)%nat -> way hash p = way hash q -> p = q.
Proof.
  intros Hp Hq. unfold way. change (RRL_TABLE_SIZE - 1) with (Z.ones 17). rewrite !Z.land_ones by lia.
  change (2 ^ 17) with 131072. intros H.
  assert ((hash mod 131072 + Z.of_nat p - (hash mod 131072 + Z.of_nat q)) mod 131072 = 0) as H0.
  { by rewrite Zminus_mod, H, Z.sub_diag. }
  replace (hash mod 131072 + Z.of_nat p - (hash mod 131072 + Z.of_nat q)) with (Z.of_nat p - Z.of_nat q) in H0 by lia.
  apply Z.mod_divide in H0 as [k Hk]; lia.
Qed.

Lemma probe_from_Some n p hash test t i :
  probe_from n p hash test t = Some i ->
  exists q, (p <= q < p + n)%nat /\ i = way hash q /\ test (slot t i) = true.
Proof.
  revert p. induction n as [| n IH]; intros p; cbn; [done |]. case_if.
  - intros [= <-]. exists p. split; [lia | done].
  - intros (q & Hq & ?)%IH. exists q. split; [lia | done].
Qed.

Lemma probe_from_None n p hash test t :
  probe_from n p hash test t = None <-> forall q, (p <= q < p + n)%nat -> test (slot t (way hash q)) = false.
Proof.
  revert p. induction n as [| n IH]; intros p; cbn; [split; [intros _ q; lia | done] |]. case_if.
  - split; [done |]. intros H. rewrite H in E by lia. done.
  - rewrite IH. split; intros H q Hq; [| apply H; lia].
    destruct (decide (q = p)) as [-> | ?]; [done |]. apply H. lia.
Qed.

(** ** The token bucket of one key

    [h] is a key whose requests all carry the rate [r]; the window [w] is the
    server's.  The invariant bounds the tokens [h] has taken since [t0]. *)

Section Budget.
Context (h r w : Z).
Hypothesis Hh : h <> 0.
Hypothesis Hr : 0 <= r < 2 ^ 32.
Hypothesis Hw : 0 <= w <= 3600.

Abbreviation cap := (max_cap r w).

Lemma cap_range : 0 <= cap <= r * w.
Proof. unfold max_cap. rewrite u64_small by nia. nia. Qed.

(** What a bucket owned by [h] satisfies when [h] took [A] tokens by time [T]. *)
Definition bucket_ok (t0 T A : Z) (b : rrl_bucket_t) : Prop :=
  0 <= tokens b <= cap /\ last_refill_ms b <= T /\
  1000 * A + 1000 * tokens b <= 1000 * cap + r * (last_refill_ms b - t0) /\ cap <= A + tokens b.

Record budget (t0 T A : Z) (t : table) : Prop := Budget {
  bud_time : t0 <= T;
  bud_taken : 0 <= A;
  bud_unique : forall i j, key_hash (slot t i) = h -> key_hash (slot t j) = h -> i = j;
  bud_home : forall i, key_hash (slot t i) = h -> exists p, (p < 4)%nat /\ i = way h p;
  bud_bucket : forall i, key_hash (slot t i) = h -> bucket_ok t0 T A (slot t i);
  bud_absent : (forall i, key_hash (slot t i) <> h) -> 1000 * A <= r * (T - t0)
}.

Lemma budget_init t0 : budget t0 t0 0 ∅.
Proof. split; unfold slot; try setoid_rewrite lookup_empty; cbn; try (intros; congruence); lia. Qed.

Lemma budget_mono t0 T T' A t : T <= T' -> budget t0 T A t -> budget t0 T' A t.
Proof.
  intros HT [? ? ? ? Hb Ha]. split; try done; [lia | |].
  - intros i Hi. destruct (Hb i Hi) as (? & ? & ? & ?). unfold bucket_ok. split_and!; lia.
  - intros Hn. specialize (Ha Hn). nia.
Qed.

Definition taken (v : verdict) : Z := match v with Allowed => 1 | _ => 0 end.

(** What a refill adds is at most what the rate grants for the time elapsed:
    a wrap-around of the product only makes it smaller. *)
Lemma refill_amount e : 0 < e -> 0 <= 1000 * (u64 (u64 e * r) / 1000) <= r * e.
Proof.
  intros He. pose proof (u64_range e). pose proof (u64_range (u64 e * r)).
  assert (u64 e <= e) by (apply Z.mod_le; lia). assert (u64 (u64 e * r) <= u64 e * r) by (apply Z.mod_le; nia).
  pose proof (Z.mul_div_le (u64 (u64 e * r)) 1000). pose proof (Z.div_pos (u64 (u64 e * r)) 1000). nia.
Qed.

Lemma refill_owned_ok t0 T A now b :
  key_hash b = h -> T <= now -> bucket_ok t0 T A b ->
  key_hash (refill h r w now b) = h /\ bucket_ok t0 now A (refill h r w now b).
Proof.
  intros Hk HT (Ht & Hl & Hbud & Hlow). unfold refill. rewrite Hk, Z.eqb_refl. cbn [negb]. unfold bucket_ok.
  destruct (Z.ltb_spec 0 (now - last_refill_ms b)) as [He | He]; [| split; [done |]; split_and!; lia].
  pose proof (refill_amount _ He) as Hadd. set (add := u64 _ / 1000) in *. pose proof cap_range.
  destruct (Z.ltb_spec 0 add); [| split; [done |]; split_and!; lia].
  case_ifs; cbn; (split; [done |]); split_and!; lia.
Qed.

Lemma refill_new_ok t0 T A now b :
  key_hash b <> h -> 0 <= A -> T <= now -> 1000 * A <= r * (T - t0) ->
  key_hash (refill h r w now b) = h /\ bucket_ok t0 now A (refill h r w now b).
Proof.
  intros Hk HA0 HT HA. unfold refill. rewrite (proj2 (Z.eqb_neq _ _) Hk). cbn. unfold bucket_ok. cbn.
  pose proof cap_range. split; [done |]. split_and!; nia.
Qed.

Lemma take_token_ok t0 T A slip b :
  bucket_ok t0 T A b ->
  let '(b', v) := take_token slip b in
  key_hash b' = key_hash b /\ bucket_ok t0 T (A + taken v) b' /\ (forall sl, v = Limited sl -> cap <= A).
Proof.
  intros (Ht & Hl & Hbud & Hlow). unfold take_token, bucket_ok.
  case_if; cbn; (split; [done |]); (split; [split_and!; lia |]); intros sl [=]; lia.
Qed.

(** Writing a bucket of [h] into one of its ways. *)
Lemma budget_write t0 T A t i b :
  (exists p, (p < 4)%nat /\ i = way h p) -> t0 <= T -> 0 <= A -> key_hash b = h -> bucket_ok t0 T A b ->
  (forall j, key_hash (slot t j) = h -> j = i) ->
  budget t0 T A (<[i := b]> t).
Proof.
  intros Hi HT HA Hk Hb Hu.
  assert (forall j, key_hash (slot (<[i := b]> t) j) = h -> j = i) as Hu'.
  { intros j. destruct (decide (i = j)) as [-> | ?]; [done |]. rewrite slot_insert_ne by done. apply Hu. }
  split; try done.
  - intros j k Hj%Hu' Hk'%Hu'. congruence.
  - by intros j ->%Hu'.
  - intros j ->%Hu'. by rewrite slot_insert_eq.
  - intros Hn. destruct (Hn i). by rewrite slot_insert_eq.
Qed.

(** A request for another key leaves the bucket of [h] alone, or evicts it
    when it is past its window. *)
Lemma budget_other t0 T A t i b now :
  budget t0 T A t -> T <= now -> key_hash b <> h ->
  (key_hash (slot t i) = h -> w * 1000 < now - last_refill_ms (slot t i)) ->
  budget t0 now A (<[i := b]> t).
Proof.
  intros [Ht HA Hu Hhome Hb Ha] HT Hk Hev.
  assert (forall j, key_hash (slot (<[i := b]> t) j) = h -> j <> i /\ slot (<[i := b]> t) j = slot t j) as Hs.
  { intros j. destruct (decide (i = j)) as [-> | ?]; [by rewrite slot_insert_eq |]. by rewrite slot_insert_ne. }
  split; [lia | done | | | |].
  - intros j k Hj Hk'. destruct (Hs j Hj) as [_ Ej], (Hs k Hk') as [_ Ek]. rewrite Ej in Hj. rewrite Ek in Hk'. by apply Hu.
  - intros j Hj. destruct (Hs j Hj) as [_ Ej]. rewrite Ej in Hj. by apply Hhome.
  - intros j Hj. destruct (Hs j Hj) as [_ Ej]. rewrite Ej in *. destruct (Hb j Hj) as (? & ? & ? & ?). split_and!; lia.
  - intros Hn. destruct (decide (key_hash (slot t i) = h)) as [Hi | Hi].
    + destruct (Hb i Hi) as (? & ? & ? & ?). specialize (Hev Hi). pose proof cap_range. nia.
    + assert (1000 * A <= r * (T - t0)); [| nia]. apply Ha. intros j Hj. destruct (decide (i = j)) as [-> | ?]; [done |].
      apply (Hn j). by rewrite slot_insert_ne.
Qed.

(** The tokens taken by [h] in one request. *)
Definition taken_by (hash : Z) (v : verdict) : Z := if hash =? h then taken v else 0.

Lemma debit_write t0 A t now slip i b :
  (exists p, (0 <= p < 0 + RRL_PROBE_WAYS)%nat /\ i = way h p) -> t0 <= now -> 0 <= A ->
  (forall j, key_hash (slot t j) = h -> j = i) -> key_hash b = h /\ bucket_ok t0 now A b ->
  let '(t', v) := (let '(b', v) := take_token slip b in (<[i := b']> t, v)) in
  budget t0 now (A + taken v) t' /\ (forall sl, v = Limited sl -> cap <= A).
Proof.
  intros (p & Hp & Hi) Ht HA Hu [Hk Hok]. unfold RRL_PROBE_WAYS in Hp.
  pose proof (take_token_ok t0 now A slip _ Hok) as Htk. destruct (take_token _ _) as [b' v].
  destruct Htk as (Hk2 & Hok2 & Hlim). split; [| done].
  apply budget_write; [exists p; split; [lia | done] | lia | unfold taken; case_match; lia | congruence | done | done].
Qed.

Lemma debit_own_budget t0 T A t now slip :
  budget t0 T A t -> T <= now ->
  let '(t', v) := rrl_debit t h r w slip now in
  budget t0 now (A + taken v) t' /\ (forall sl, v = Limited sl -> cap <= A).
Proof.
  intros Hbud HT. pose proof Hbud as [Ht HA Hu Hhome Hb Ha]. unfold rrl_debit, debit_bucket.
  destruct (probe_from _ _ h (owned_by h) t) as [i |] eqn:E1.
  - apply probe_from_Some in E1 as (p & Hp & Hi & Ho). apply Z.eqb_eq in Ho.
    apply debit_write; [by exists p | lia | done | by auto | by eapply refill_owned_ok; eauto].
  - assert (forall j, key_hash (slot t j) <> h) as Hn.
    { intros j Hj. destruct (Hhome j Hj) as (p & Hp & ->). rewrite probe_from_None in E1.
      assert (owned_by h (slot t (way h p)) = false) as E by (apply E1; unfold RRL_PROBE_WAYS; lia).
      apply Z.eqb_neq in E. done. }
    destruct (probe_from _ _ h (reusable w now) t) as [i |] eqn:E2.
    2: { cbn. rewrite Z.add_0_r. split; [by eapply budget_mono | done]. }
    apply probe_from_Some in E2 as (p & Hp & Hi & _).
    apply debit_write; [by exists p | lia | done | intros j Hj; by apply Hn in Hj | by eapply refill_new_ok; eauto].
Qed.

Lemma refill_key hash rate now b : key_hash (refill hash rate w now b) = hash.
Proof. unfold refill. destruct (Z.eqb_spec (key_hash b) hash); cbn [negb]; [| done]. by case_ifs. Qed.

Lemma take_token_key slip b : key_hash (fst (take_token slip b)) = key_hash b.
Proof. unfold take_token. by case_if. Qed.

Lemma debit_other_budget t0 T A t now hash rate slip :
  hash <> h -> budget t0 T A t -> T <= now ->
  budget t0 now A (fst (rrl_debit t hash rate w slip now)).
Proof.
  intros Hne Hbud HT. unfold rrl_debit, debit_bucket.
  assert (forall i, (key_hash (slot t i) = h -> w * 1000 < now - last_refill_ms (slot t i)) ->
    budget t0 now A (fst (let '(b, v) := take_token slip (refill hash rate w now (slot t i)) in (<[i := b]> t, v)))) as Hwr.
  { intros i Hi. pose proof (take_token_key slip (refill hash rate w now (slot t i))) as Hk.
    rewrite refill_key in Hk. destruct (take_token _ _) as [b v]. cbn in *. eapply budget_other; [done..| congruence | done]. }
  destruct (probe_from _ _ hash (owned_by hash) t) as [i |] eqn:E1.
  - apply probe_from_Some in E1 as (p & _ & _ & Ho%Z.eqb_eq). apply Hwr. congruence.
  - destruct (probe_from _ _ hash (reusable w now) t) as [i |] eqn:E2; [| by eapply budget_mono].
    apply probe_from_Some in E2 as (p & _ & _ & Ho). apply Hwr. intros Hk. unfold reusable in Ho.
    rewrite Hk, (proj2 (Z.eqb_neq _ _) Hh) in Ho. cbn in Ho. lia.
Qed.

End Budget.

(** ** Runs: any sequence of requests of any keys *)

Record request := Request { rq_hash : Z; rq_rate : Z; rq_slip : Z; rq_now : Z }.

Definition serve (w : Z) (t : table) (q : request) : table * verdict :=
  rrl_debit t (rq_hash q) (rq_rate q) w (rq_slip q) (rq_now q).

Fixpoint run (w : Z) (t : table) (l : list request) : table * list verdict :=
  match l with
  | [] => (t, [])
  | q :: l' => let '(t', v) := serve w t q in let '(t'', vs) := run w t' l' in (t'', v :: vs)
  end.

(** The tokens the key [h] took. *)
Definition granted (h : Z) (l : list request) (vs : list verdict) : Z :=
  foldr Z.add 0 (zip_with (fun q v => if rq_hash q =? h then taken v else 0) l vs).

Lemma run_app w t l1 l2 :
  run w t (l1 ++ l2) =
  (let '(t1, v1) := run w t l1 in let '(t2, v2) := run w t1 l2 in (t2, v1 ++ v2)).
Proof.
  revert t. induction l1 as [| q l1 IH]; intros t; cbn; [by destruct (run w t l2) |].
  destruct (serve w t q) as [t' v]. rewrite IH. destruct (run w t' l1) as [t1 v1]. by destruct (run w t1 l2).
Qed.

(** The clock is monotonic: no request is earlier than the one before it. *)
Fixpoint monotonic (T : Z) (l : list request) : Prop :=
  match l with
  | [] => True
  | q :: l' => T <= rq_now q /\ monotonic (rq_now q) l'
  end.

Fixpoint last_time (T : Z) (l : list request) : Z :=
  match l with
  | [] => T
  | q :: l' => last_time (rq_now q) l'
  end.

Lemma run_budget h r w t0 l : h <> 0 -> 0 <= r < 2 ^ 32 -> 0 <= w <= 3600 ->
  (forall q, In q l -> rq_hash q = h -> rq_rate q = r) ->
  forall T A t, budget h r w t0 T A t -> monotonic T l ->
  let '(t', vs) := run w t l in budget h r w t0 (last_time T l) (A + granted h l vs) t'.
Proof.
  intros Hh Hr Hw Hl. induction l as [| q l IH]; intros T A t Hbud Hs; cbn; [by rewrite Z.add_0_r |].
  destruct Hs as [HT Hs]. destruct (serve w t q) as [t' v] eqn:Eq.
  assert (budget h r w t0 (rq_now q) (A + (if rq_hash q =? h then taken v else 0)) t') as Hbud'.
  { unfold serve in Eq. destruct (Z.eqb_spec (rq_hash q) h) as [E | E].
    - pose proof (debit_own_budget h r w Hr Hw t0 T A t (rq_now q) (rq_slip q) Hbud HT) as Hd.
      rewrite E, (Hl q) in Eq by (done || by left). rewrite Eq in Hd. by destruct Hd.
    - rewrite Z.add_0_r. pose proof (debit_other_budget h r w Hh Hr Hw t0 T A t (rq_now q) (rq_hash q) (rq_rate q) (rq_slip q) E Hbud HT) as Hd.
      by rewrite Eq in Hd. }
  specialize (IH (fun q' Hq' => Hl q' (or_intror Hq')) _ _ _ Hbud' Hs).
  destruct (run w t' l) as [t'' vs]. unfold granted in *. cbn. by rewrite Z.add_assoc.
Qed.

(** Whether [h] has a bucket is decidable: it can only be in one of its ways. *)
Lemma budget_total h r w t0 T A t : 0 <= r < 2 ^ 32 -> 0 <= w <= 3600 ->
  budget h r w t0 T A t -> 1000 * A <= 1000 * max_cap r w + r * (T - t0).
Proof.
  intros Hr Hw [Ht _ _ Hhome Hb Ha]. pose proof (cap_range r w Hr Hw).
  destruct (probe_from RRL_PROBE_WAYS 0 h (owned_by h) t) as [i |] eqn:E.
  - apply probe_from_Some in E as (_ & _ & _ & Ho%Z.eqb_eq). destruct (Hb i Ho) as (? & ? & ? & ?). nia.
  - rewrite probe_from_None in E. enough (1000 * A <= r * (T - t0)) by nia. apply Ha. intros i Hi.
    destruct (Hhome i Hi) as (p & Hp & ->). specialize (E p). unfold RRL_PROBE_WAYS, owned_by in E.
    rewrite Hi, Z.eqb_refl in E. by discriminate E; lia.
Qed.

(** ** Threads

    [rrl_debit] holds one bucket lock at a time: everything it does between
    two lock operations is one step here, and other threads run between
    steps. *)

Inductive pc := Pass1 (probe : nat) | Pass2 (probe : nat) | Done (v : verdict).

(** The body of one iteration: lock, test, debit or give up the bucket, unlock. *)
Definition probe_step (w : Z) (q : request) (t : table) (test : rrl_bucket_t -> bool) (probe : nat) (next : pc) : table * pc :=
  let i := way (rq_hash q) probe in
  if test (slot t i) then
    let '(b, v) := debit_bucket (rq_hash q) (rq_rate q) w (rq_slip q) (rq_now q) (slot t i) in (<[i := b]> t, Done v)
  else (t, next).

Definition thread_step (w : Z) (q : request) (t : table) (c : pc) : table * pc :=
  match c with
  | Pass1 p =>
      probe_step w q t (owned_by (rq_hash q)) p (if Nat.ltb (S p) RRL_PROBE_WAYS then Pass1 (S p) else Pass2 0)
  | Pass2 p =>
      probe_step w q t (reusable w (rq_now q)) p (if Nat.ltb (S p) RRL_PROBE_WAYS then Pass2 (S p) else Done Bypass)
  | Done v => (t, Done v)
  end.

(** A schedule names the thread that moves. *)
Fixpoint schedule (w : Z) (t : table) (threads : list (request * pc)) (sched : list nat) : table * list (request * pc) :=
  match sched with
  | [] => (t, threads)
  | k :: sched' =>
      match threads !! k with
      | Some (q, c) => let '(t', c') := thread_step w q t c in schedule w t' (<[k := (q, c')]> threads) sched'
      | None => schedule w t threads sched'
      end
  end.

Lemma probe_run w q n p t test stop cont :
  (forall k, (k < n)%nat -> thread_step w q t (cont (p + k)%nat) = probe_step w q t test (p + k)
     (if Nat.ltb (S k) n then cont (S (p + k)) else stop)) ->
  (0 < n)%nat ->
  exists m, (m <= n)%nat /\
    Nat.iter m (fun s => thread_step w q (fst s) (snd s)) (t, cont p) =
    match probe_from n p (rq_hash q) test t with
    | Some i =>
        let '(b, v) := debit_bucket (rq_hash q) (rq_rate q) w (rq_slip q) (rq_now q) (slot t i) in (<[i := b]> t, Done v)
    | None => (t, stop)
    end.
Proof.
  revert p. induction n as [| n IH]; intros p Hstep Hn; [lia |].
  pose proof (Hstep 0%nat ltac:(lia)) as H0. rewrite Nat.add_0_r in H0. cbn [probe_from].
  destruct (test (slot t (way (rq_hash q) p))) eqn:Et.
  { exists 1%nat. split; [lia |]. cbn. rewrite H0. unfold probe_step. by rewrite Et. }
  destruct n as [| n].
  { exists 1%nat. split; [lia |]. cbn. rewrite H0. unfold probe_step. by rewrite Et. }
  destruct (IH (S p)) as (m & Hm & Hrun); [| lia |].
  { intros k Hk. replace (S p + k)%nat with (p + S k)%nat by lia. rewrite Hstep by lia.
    destruct (Nat.ltb_spec (S (S k)) (S (S n))), (Nat.ltb_spec (S k) (S n)); (done || lia). }
  exists (S m). split; [lia |]. rewrite Nat.iter_succ_r. cbn [fst snd]. rewrite H0. unfold probe_step. rewrite Et. done.
Qed.

(** A thread that runs alone computes [rrl_debit]. *)
Lemma thread_alone w q t :
  exists m, (m <= 8)%nat /\
    Nat.iter m (fun s => thread_step w q (fst s) (snd s)) (t, Pass1 0) =
    (let '(t', v) := serve w t q in (t', Done v)).
Proof.
  destruct (probe_run w q 4 0 t (owned_by (rq_hash q)) (Pass2 0) Pass1) as (m1 & Hm1 & H1); [| lia |].
  { intros k Hk. do 4 (destruct k as [| k]; [done |]). lia. }
  destruct (probe_run w q 4 0 t (reusable w (rq_now q)) (Done Bypass) Pass2) as (m2 & Hm2 & H2); [| lia |].
  { intros k Hk. do 4 (destruct k as [| k]; [done |]). lia. }
  unfold serve, rrl_debit, RRL_PROBE_WAYS. destruct (probe_from 4 0 (rq_hash q) (owned_by _) t) as [i |].
  - exists m1. split; [lia |]. rewrite H1. by destruct (debit_bucket _ _ _ _ _ _).
  - exists (m2 + m1)%nat. split; [lia |]. rewrite Nat.iter_add, H1, H2. destruct (probe_from 4 0 _ _ t); [| done].
    by destruct (debit_bucket _ _ _ _ _ _).
Qed.

(** A refill never sets the time back. *)
Lemma refill_time hash rate w now b : key_hash b = hash -> key_hash (refill hash rate w now b) = hash /\ last_refill_ms b <= last_refill_ms (refill hash rate w now b).
Proof. intros Hk. unfold refill. rewrite Hk, Z.eqb_refl. cbn [negb]. case_ifs; cbn [key_hash last_refill_ms]; cmp_prop; split; done || lia. Qed.

Lemma debit_time hash rate w slip now b : key_hash b = hash ->
  key_hash (fst (debit_bucket hash rate w slip now b)) = hash /\ last_refill_ms b <= last_refill_ms (fst (debit_bucket hash rate w slip now b)).
Proof. intros Hk. destruct (refill_time hash rate w now b Hk). unfold debit_bucket, take_token. by case_if. Qed.

Lemma debit_recent hash rate w slip now b : key_hash b = hash -> 0 < rate < 2 ^ 32 -> now - last_refill_ms b < 2 ^ 32 ->
  now - 1000 < last_refill_ms (fst (debit_bucket hash rate w slip now b)).
Proof.
  intros Hk Hr Hn. enough (now - 1000 < last_refill_ms (refill hash rate w now b)) by (unfold debit_bucket, take_token; by case_if).
  unfold refill. rewrite Hk, Z.eqb_refl. cbn [negb]. destruct (Z.ltb_spec 0 (now - last_refill_ms b)); [| lia].
  rewrite (u64_small (now - last_refill_ms b)) by lia. rewrite u64_small by nia. case_if; [cbn [last_refill_ms]; lia |]. cmp_prop.
  pose proof (Z.div_pos ((now - last_refill_ms b) * rate) 1000 ltac:(nia) ltac:(lia)). pose proof (Z.mod_pos_bound ((now - last_refill_ms b) * rate) 1000 ltac:(lia)).
  pose proof (Z.div_mod ((now - last_refill_ms b) * rate) 1000 ltac:(lia)). nia.
Qed.

Lemma thread_step_keeps w q t c i : key_hash (slot t i) <> 0 -> (rq_hash q <> key_hash (slot t i) -> rq_now q - last_refill_ms (slot t i) <= w * 1000) ->
  key_hash (slot (fst (thread_step w q t c)) i) = key_hash (slot t i) /\ last_refill_ms (slot t i) <= last_refill_ms (slot (fst (thread_step w q t c)) i) /\
  (rq_hash q <> key_hash (slot t i) -> slot (fst (thread_step w q t c)) i = slot t i).
Proof.
  intros H0 Hq.
  assert (forall test p next, (forall b, test b = true -> key_hash b = rq_hash q \/ reusable w (rq_now q) b = true) ->
    key_hash (slot (fst (probe_step w q t test p next)) i) = key_hash (slot t i) /\ last_refill_ms (slot t i) <= last_refill_ms (slot (fst (probe_step w q t test p next)) i) /\
    (rq_hash q <> key_hash (slot t i) -> slot (fst (probe_step w q t test p next)) i = slot t i)) as Hp.
  { intros test p next Htest. unfold probe_step. destruct (test (slot t (way (rq_hash q) p))) eqn:Et; [| by split_and!].
    destruct (debit_bucket _ _ _ _ _ _) as [b v] eqn:Ed. cbn [fst]. destruct (decide (way (rq_hash q) p = i)) as [Ei | Hne]; [rewrite Ei in * | rewrite slot_insert_ne by done; by split_and!].
    rewrite slot_insert_eq. assert (key_hash (slot t i) = rq_hash q) as Hk.
    { destruct (Htest _ Et) as [| Hre]; [done |]. destruct (decide (rq_hash q = key_hash (slot t i))) as [| Hk]; [done |]. specialize (Hq Hk). unfold reusable in Hre. lia. }
    pose proof (debit_time (rq_hash q) (rq_rate q) w (rq_slip q) (rq_now q) (slot t i) Hk) as [E1 E2]. rewrite Ed in E1, E2. cbn [fst] in *. split_and!; [congruence | done | intros []; by symmetry]. }
  destruct c as [p | p | v]; cbn [thread_step]; [apply Hp; intros b Hb; left; by apply Z.eqb_eq | apply Hp; by right | by split_and!].
Qed.

Lemma thread_elem (threads : list (request * pc)) k q c c' x : threads !! k = Some (q, c) -> x ∈ <[k := (q, c')]> threads -> exists c0, (fst x, c0) ∈ threads.
Proof.
  intros Hk [j Hj]%list_elem_of_lookup_1. destruct (decide (j = k)) as [-> | Hne].
  - rewrite list_lookup_insert_eq in Hj by (by eapply lookup_lt_Some). injection Hj as <-. exists c. by eapply list_elem_of_lookup_2.
  - rewrite list_lookup_insert_ne in Hj by done. destruct x as [q' c0]. exists c0. by eapply list_elem_of_lookup_2.
Qed.

Lemma schedule_keeps w i h sched : forall t threads, key_hash (slot t i) = h -> h <> 0 ->
  (forall q c, (q, c) ∈ threads -> rq_hash q <> h -> rq_now q - last_refill_ms (slot t i) <= w * 1000) ->
  key_hash (slot (fst (schedule w t threads sched)) i) = h /\ last_refill_ms (slot t i) <= last_refill_ms (slot (fst (schedule w t threads sched)) i) /\
  ((forall q c, (q, c) ∈ threads -> rq_hash q <> h) -> slot (fst (schedule w t threads sched)) i = slot t i).
Proof.
  induction sched as [| k sched IH]; intros t threads Hh H0 Hq; cbn [schedule]; [by split_and! |]. destruct (threads !! k) as [[q c] |] eqn:Ek; [| by apply IH].
  assert ((q, c) ∈ threads) as Hin by (by eapply list_elem_of_lookup_2).
  destruct (thread_step_keeps w q t c i) as (E1 & E2 & E3); [by rewrite Hh | rewrite Hh; by apply (Hq q c) |]. destruct (thread_step w q t c) as [t' c'] eqn:Es. cbn [fst] in *.
  destruct (IH t' (<[k := (q, c')]> threads)) as (H1 & H2 & H3); [by rewrite E1 | done | |].
  - intros q' c0 Hx Hne. destruct (thread_elem _ _ _ _ _ _ Ek Hx) as [c1 Hc1]. specialize (Hq q' c1 Hc1 Hne). lia.
  - split_and!; [done | lia |]. intros Hall. rewrite H3; [apply E3; rewrite Hh; by apply (Hall q c) |]. intros q' c0 Hx. destruct (thread_elem _ _ _ _ _ _ Ek Hx) as [c1 Hc1]. by apply (Hall q' c1).
Qed.

(** The buckets a thread still looks at before it gives up. *)
Definition pending_pass2 (c : pc) (p : nat) : Prop := match c with Pass1 _ => True | Pass2 p0 => (p0 <= p)%nat | Done _ => False end.

Lemma thread_step_pending w q t c p : (p < RRL_PROBE_WAYS)%nat -> pending_pass2 c p ->
  pending_pass2 (snd (thread_step w q t c)) p \/ reusable w (rq_now q) (slot t (way (rq_hash q) p)) = false \/ exists v, snd (thread_step w q t c) = Done v /\ v <> Bypass.
Proof.
  intros Hp Hc. assert (forall b, snd (debit_bucket (rq_hash q) (rq_rate q) w (rq_slip q) (rq_now q) b) <> Bypass) as Hd by (intros b; unfold debit_bucket, take_token; by case_if).
  destruct c as [p1 | p1 | v]; cbn [thread_step pending_pass2] in *; [| | done]; unfold probe_step; destruct (slot t _) as [] eqn:Eb; rewrite <- Eb; case_if.
  1,3: match goal with |- context [debit_bucket ?a ?b ?c ?d ?e ?f] => specialize (Hd f); destruct (debit_bucket a b c d e f) as [b' v'] end; right; right; by exists v'.
  - left. cbn [snd]. by destruct (Nat.ltb _ _); cbn; [| lia].
  - destruct (decide (p = p1)) as [-> | Hne]; [right; left; done |]. left. cbn [snd]. destruct (Nat.ltb_spec (S p1) RRL_PROBE_WAYS); cbn; lia.
Qed.

Lemma schedule_done w k q v sched : forall t threads, threads !! k = Some (q, Done v) -> snd (schedule w t threads sched) !! k = Some (q, Done v).
Proof.
  induction sched as [| j sched IH]; intros t threads Hk; cbn [schedule]; [done |]. destruct (threads !! j) as [[q' c] |] eqn:Ej; [| by apply IH].
  destruct (thread_step w q' t c) as [t' c'] eqn:Es. apply IH. destruct (decide (j = k)) as [-> | Hne]; [| by rewrite list_lookup_insert_ne].
  rewrite list_lookup_insert_eq by (by eapply lookup_lt_Some). rewrite Hk in Ej. injection Ej as <- <-. cbn in Es. by injection Es as <- <-.
Qed.

Lemma schedule_bypass w q k sched : forall t threads c p, (p < RRL_PROBE_WAYS)%nat -> pending_pass2 c p -> threads !! k = Some (q, c) ->
  snd (schedule w t threads sched) !! k = Some (q, Done Bypass) ->
  exists past future, sched = past ++ future /\ reusable w (rq_now q) (slot (fst (schedule w t threads past)) (way (rq_hash q) p)) = false.
Proof.
  induction sched as [| j sched IH]; intros t threads c p Hp Hc Hk; cbn [schedule snd]; [rewrite Hk; by intros [= ->] |].
  assert (forall t' threads', (forall s, schedule w t threads (j :: s) = schedule w t' threads' s) -> (exists past future, sched = past ++ future /\ reusable w (rq_now q) (slot (fst (schedule w t' threads' past)) (way (rq_hash q) p)) = false) ->
    exists past future, j :: sched = past ++ future /\ reusable w (rq_now q) (slot (fst (schedule w t threads past)) (way (rq_hash q) p)) = false) as Hlift.
  { intros t' threads' Hs (past & future & -> & Hr). exists (j :: past), future. split; [done |]. by rewrite Hs. }
  destruct (threads !! j) as [[q' c'] |] eqn:Ej; [| intros Hd; eapply Hlift; [intros s; cbn [schedule]; by rewrite Ej | by eapply IH]].
  destruct (thread_step w q' t c') as [t1 c1] eqn:Es. intros Hd. destruct (decide (j = k)) as [-> | Hne].
  - rewrite Hk in Ej. injection Ej as <- <-. destruct (thread_step_pending w q t c p Hp Hc) as [Hpend | [Hre | (v & Hv & Hnb)]]; [| by exists [], (k :: sched) |].
    + rewrite Es in Hpend. eapply Hlift; [intros s; cbn [schedule]; by rewrite Hk, Es |]. eapply IH; [done | exact Hpend | | exact Hd]. apply list_lookup_insert_eq. by eapply lookup_lt_Some.
    + exfalso. rewrite Es in Hv. cbn [snd] in Hv. subst c1. rewrite (schedule_done w k q v) in Hd by (apply list_lookup_insert_eq; by eapply lookup_lt_Some). congruence.
  - eapply Hlift; [intros s; cbn [schedule]; by rewrite Ej, Es |]. eapply IH; [done | exact Hc | | exact Hd]. by rewrite list_lookup_insert_ne.
Qed.

Lemma serve_bypass w t q : snd (serve w t q) = Bypass <->
  forall p, (p < RRL_PROBE_WAYS)%nat ->
    key_hash (slot t (way (rq_hash q) p)) <> 0 /\ key_hash (slot t (way (rq_hash q) p)) <> rq_hash q /\ rq_now q - last_refill_ms (slot t (way (rq_hash q) p)) <= w * 1000.
Proof.
  unfold serve, rrl_debit. pose proof (probe_from_None 4 0 (rq_hash q) (owned_by (rq_hash q)) t) as H1.
  pose proof (probe_from_None 4 0 (rq_hash q) (reusable w (rq_now q)) t) as H2. unfold RRL_PROBE_WAYS in *.
  assert (forall j, snd (let '(b, v) := debit_bucket (rq_hash q) (rq_rate q) w (rq_slip q) (rq_now q) (slot t j) in (<[j := b]> t, v)) <> Bypass) as Hd
    by (intros j; unfold debit_bucket, take_token; by case_if).
  destruct (probe_from 4 0 (rq_hash q) (owned_by (rq_hash q)) t) as [j |] eqn:E1.
  { split; [intros H; by apply Hd in H |]. intros H. apply probe_from_Some in E1 as (p & Hp & -> & Ht). unfold owned_by in Ht. destruct (H p); lia. }
  destruct (probe_from 4 0 (rq_hash q) (reusable w (rq_now q)) t) as [j |] eqn:E2.
  { split; [intros H; by apply Hd in H |]. intros H. apply probe_from_Some in E2 as (p & Hp & -> & Ht). unfold reusable in Ht. destruct (H p); lia. }
  split; [| done]. intros _ p Hp. pose proof (proj1 H1 eq_refl p). pose proof (proj1 H2 eq_refl p). unfold owned_by, reusable in *. lia.
Qed.

(** ** Properties *)

(** C27. Token bucket bound for requests that are served one after the other,
    none of them while another one looks for its bucket.  From the empty table,
    whatever the requests of other keys are and however often they evict the
    key, the tokens a key takes up to a time are at most its burst capacity
    plus the rate times the time elapsed (in milliseconds, hence the factor
    1000).  The clock is monotonic, the key has one rate, and its hash is not
    the mark of a free bucket.  Threads that serve the first requests of a key
    at the same time can exceed the bound ([rrl_threads_refine_and_race]). *)
Theorem rrl_rate_bound (h r w t0 : Z) (l : list request) :
  h <> 0 -> 0 <= r < 2 ^ 32 -> 0 <= w <= 3600 -> monotonic t0 l ->
  (forall q, In q l -> rq_hash q = h -> rq_rate q = r) ->
  1000 * granted h l (snd (run w ∅ l)) <= 1000 * max_cap r w + r * (last_time t0 l - t0).
Proof.
  intros Hh Hr Hw Hm Hl.
  pose proof (run_budget h r w t0 l Hh Hr Hw Hl t0 0 ∅ (budget_init h r w Hh t0) Hm) as Hb.
  destruct (run w ∅ l) as [t vs]. by apply (budget_total h r w) in Hb.
Qed.

Definition ex_requests : list request :=
  [Request 7 1 0 100; Request 7 1 0 150; Request 7 1 0 200; Request 9 5 2 300; Request 7 1 0 1300; Request 7 1 0 9000].

Lemma rrl_rate_bound_witness :
  1000 * granted 7 ex_requests (snd (run 2 ∅ ex_requests)) <= 1000 * max_cap 1 2 + 1 * (last_time 100 ex_requests - 100).
Proof.
  apply (rrl_rate_bound 7 1 2 100 ex_requests); [done | lia | lia | cbn; lia |].
  intros q Hq. repeat (destruct Hq as [<- | Hq]; [done |]). done.
Defined.

(** No false limiting.  Whenever a request of a key is limited, the key
    has already taken at least its whole burst capacity: the first
    rate times window responses of a key are never dropped. *)
Theorem rrl_limits_only_after_burst (h r w t0 : Z) (l : list request) (q : request) (slip : bool) :
  h <> 0 -> 0 <= r < 2 ^ 32 -> 0 <= w <= 3600 -> monotonic t0 (l ++ [q]) ->
  (forall q', In q' (l ++ [q]) -> rq_hash q' = h -> rq_rate q' = r) -> rq_hash q = h ->
  snd (serve w (fst (run w ∅ l)) q) = Limited slip ->
  max_cap r w <= granted h l (snd (run w ∅ l)).
Proof.
  intros Hh Hr Hw Hm Hl Hq Hv.
  assert (monotonic t0 l /\ last_time t0 l <= rq_now q) as [Hm1 Hm2].
  { clear -Hm. revert t0 Hm. induction l as [| q' l IH]; intros t0; cbn; [tauto |]. intros [? ?%IH]. tauto. }
  assert (forall q', In q' l -> rq_hash q' = h -> rq_rate q' = r) as Hl' by (intros q' ?; apply Hl, in_app_iff; by left).
  pose proof (run_budget h r w t0 l Hh Hr Hw Hl' t0 0 ∅ (budget_init h r w Hh t0) Hm1) as Hb.
  destruct (run w ∅ l) as [t vs]. cbn [fst snd] in *.
  pose proof (debit_own_budget h r w Hr Hw _ _ _ _ _ (rq_slip q) Hb Hm2) as Hd. unfold serve in Hv.
  rewrite Hq, (Hl q) in Hv by (done || (apply in_app_iff; right; by left)).
  destruct (rrl_debit t h r w (rq_slip q) (rq_now q)) as [t' v]. destruct Hd as [_ Hd]. cbn in Hv. by eapply Hd.
Qed.

Lemma rrl_limits_only_after_burst_witness :
  max_cap 1 2 <= granted 7 (take 2 ex_requests) (snd (run 2 ∅ (take 2 ex_requests))).
Proof.
  apply (rrl_limits_only_after_burst 7 1 2 100 (take 2 ex_requests) (Request 7 1 0 200) false);
    [done | lia | lia | cbn; lia | | done | by vm_compute].
  intros q Hq. repeat (destruct Hq as [<- | Hq]; [done |]). done.
Defined.

(** C28. Isolation under concurrency, for every interleaving of any threads.
    (1) A bucket of a key stays the key's, and its refill time does not go
    back, as long as no thread of another key runs at a time more than the
    window after the last refill of the bucket; and if no thread has the key,
    nothing in the bucket changes.  (2) A request that was served from a bucket
    of its key (at a positive rate, less than 2^32 ms after the last refill)
    leaves a refill time less than a second before it, so that a bucket in use
    is protected for the window less a second.  (3) A thread lets a request
    through unmetered only after each of the four candidate buckets was, at
    some time of its run, not free and refilled within the window.  (4) When the
    request runs alone, this is exactly when all four are such buckets of other
    keys. *)
Theorem rrl_isolation (w : Z) (t : table) (threads : list (request * pc)) (sched : list nat) :
  (forall i, key_hash (slot t i) <> 0 ->
     (forall q c, (q, c) ∈ threads -> rq_hash q <> key_hash (slot t i) -> rq_now q - last_refill_ms (slot t i) <= w * 1000) ->
     key_hash (slot (fst (schedule w t threads sched)) i) = key_hash (slot t i) /\
     last_refill_ms (slot t i) <= last_refill_ms (slot (fst (schedule w t threads sched)) i) /\
     ((forall q c, (q, c) ∈ threads -> rq_hash q <> key_hash (slot t i)) -> slot (fst (schedule w t threads sched)) i = slot t i)) /\
  (forall q b, key_hash b = rq_hash q -> 0 < rq_rate q < 2 ^ 32 -> rq_now q - last_refill_ms b < 2 ^ 32 ->
     rq_now q - 1000 < last_refill_ms (fst (debit_bucket (rq_hash q) (rq_rate q) w (rq_slip q) (rq_now q) b))) /\
  (forall k q p, threads !! k = Some (q, Pass1 0) -> snd (schedule w t threads sched) !! k = Some (q, Done Bypass) -> (p < RRL_PROBE_WAYS)%nat ->
     exists past future, sched = past ++ future /\ reusable w (rq_now q) (slot (fst (schedule w t threads past)) (way (rq_hash q) p)) = false) /\
  (forall q, snd (serve w t q) = Bypass <->
     forall p, (p < RRL_PROBE_WAYS)%nat ->
       key_hash (slot t (way (rq_hash q) p)) <> 0 /\ key_hash (slot t (way (rq_hash q) p)) <> rq_hash q /\ rq_now q - last_refill_ms (slot t (way (rq_hash q) p)) <= w * 1000).
Proof.
  split_and!.
  - intros i H0 Hq. destruct (schedule_keeps w i (key_hash (slot t i)) sched t threads) as (? & ? & ?); [done | done | done |]. done.
  - intros q b Hk Hr Hn. by apply debit_recent.
  - intros k q p Hk Hd Hp. by apply (schedule_bypass w q k sched t threads (Pass1 0)).
  - intros q. apply serve_bypass.
Qed.

(** A thread of key 7 passes over the bucket of key 9. *)
Lemma rrl_isolation_witness :
  let t : table := <[8 := Bucket 9 1000 4 0]> ∅ in let threads := [(Request 7 1 0 1500, Pass2 1); (Request 7 1 0 1600, Pass1 0)] in
  slot (fst (schedule 15 t threads [0; 1; 1; 0; 1])%nat) 8 = Bucket 9 1000 4 0.
Proof.
  intros t threads. apply (proj1 (rrl_isolation 15 t threads [0; 1; 1; 0; 1]%nat) 8); [vm_compute; congruence | |].
  - intros q c Hq _. repeat (apply elem_of_cons in Hq as [[= -> ->] | Hq]; [vm_compute; congruence |]). by apply elem_of_nil in Hq.
  - intros q c Hq. repeat (apply elem_of_cons in Hq as [[= -> ->] | Hq]; [vm_compute; congruence |]). by apply elem_of_nil in Hq.
Defined.

(** A thread that runs without interference computes [rrl_debit]; but
    two threads that serve the first two requests of one key at the same
    time can both miss in the first pass, so that the second one finds the
    new bucket neither free nor expired and opens another: both are served
    where the capacity is one token, and two buckets carry the same key. *)
Theorem rrl_threads_refine_and_race :
  (forall w q t, exists m, (m <= 8)%nat /\
     Nat.iter m (fun s => thread_step w q (fst s) (snd s)) (t, Pass1 0) = (let '(t', v) := serve w t q in (t', Done v))) /\
  exists sched,
    let q := Request 7 1 0 100 in
    let '(t, threads) := schedule 1 ∅ [(q, Pass1 0); (q, Pass1 0)] sched in
    map snd threads = [Done Allowed; Done Allowed] /\ max_cap 1 1 = 1 /\
    key_hash (slot t (way 7 0)) = 7 /\ key_hash (slot t (way 7 1)) = 7.
Proof.
  split; [apply thread_alone |]. exists [0; 0; 0; 0; 1; 1; 1; 1; 0; 1; 1]%nat. vm_compute. done.
Qed.

End Rrl.
