(* ===== verification/NameText.v ===== *)
(** * Names: text to labels and labels to text (src/dns_wire.c)

    [parse_label] reads one label of a name in presentation form,
    [dns_label_to_text] prints one in the canonical form (RFC 4343 section
    2.1), [dns_name_normalize] rewrites a name into that form, and
    [write_uncompressed_name_ext] puts a name on the wire.  The shared
    specification is the list of labels, each a list of octets. *)

From S2P Require Import Prelude.
From S2P Require Import CLib.
From S2P Require Import DnsName.

Module NameText.
Import CLib DnsName.

Definition DNS_NAME_TEXT_SIZE : Z := 1025.

(** ** Operations *)

(** The value of three decimal digits. *)
Definition ddd (d1 d2 d3 : Z) : Z := (d1 - 48) * 100 + (d2 - 48) * 10 + (d3 - 48).

(** The label read so far is [acc]; the result is the label and [*next_p],
    [None] for NULL. *)
Fixpoint parse_label_from (p acc : list Z) : outcome (list Z * option (list Z)) :=
  match p with
  | [] => Ret (acc, None)
  | c :: p1 =>
      if c =? BACKSLASH then
        match p1 with
        | [] => Fail
        | d1 :: p2 =>
            match p2 with
            | d2 :: d3 :: p4 =>
                if isdigit d1 && isdigit d2 && isdigit d3 then
                  fail_if 255 <? ddd d1 d2 d3 ;;
                  fail_if 63 <=? len acc ;;
                  parse_label_from p4 (acc ++ [ddd d1 d2 d3])
                else fail_if 63 <=? len acc ;; parse_label_from p2 (acc ++ [d1])
            | _ => fail_if 63 <=? len acc ;; parse_label_from p2 (acc ++ [d1])
            end
        end
      else if c =? DOT then Ret (acc, Some p1)
      else fail_if 63 <=? len acc ;; parse_label_from p1 (acc ++ [c])
  end.

Definition parse_label (name : list Z) : outcome (list Z * option (list Z)) := parse_label_from name [].

(** The text written so far is [w], in an object of [cap] characters. *)
Fixpoint label_to_text_from (label w : list Z) (cap : Z) : outcome (list Z) :=
  match label with
  | [] => Ret w
  | c :: label' =>
      let! w :=
        if (c =? DOT) || (c =? BACKSLASH) then
          fail_if cap <? len w + 2 ;; put_list cap w [BACKSLASH; c]
        else if (c <? 33) || (127 <=? c) then
          fail_if cap <? len w + 4 ;;
          put_list cap w [BACKSLASH; 48 + c / 100; 48 + (c / 10) mod 10; 48 + c mod 10]
        else fail_if cap <? len w + 1 ;; put_list cap w [c] in
      label_to_text_from label' w cap
  end.

Definition dns_label_to_text (label : list Z) (cap : Z) : outcome (list Z) := label_to_text_from label [] cap.

(** The loop [while (p) { len = parse_label(p, label, &next_p); ...; p = next_p; }]
    that [write_uncompressed_name_ext], [wire_name_length] and
    [write_dns_name_str] share: [step] is its body. *)
Fixpoint for_labels {A} (fuel : nat) (step : list Z -> A -> outcome A) (p : option (list Z)) (a : A) : outcome A :=
  match p with
  | None => Ret a
  | Some p =>
      match fuel with
      | O => NoFuel
      | S fuel' =>
          let! '(label, next_p) := parse_label p in
          let! a := step label a in
          for_labels fuel' step next_p a
      end
  end.

(** Every iteration but the last consumes a character. *)
Definition name_fuel (name : list Z) : nat := S (length name).

Definition write_label (offset max_len : Z) (downcase : bool) (label : list Z) (s : list Z * Z) : outcome (list Z * Z) :=
  let '(buf, w_len) := s in
  if 0 <? len label then
    fail_if max_len <? offset + w_len + len label + 1 ;;
    let! buf := wr buf (offset + w_len) (u8 (len label)) in
    let! buf := wr_list buf (offset + w_len + 1) (if downcase then map lc label else label) in
    Ret (buf, w_len + 1 + len label)
  else Ret (buf, w_len).

(** The buffer and the number of octets written. *)
Definition write_uncompressed_name_ext (buf : list Z) (offset max_len : Z) (name : list Z) (downcase : bool) :
    outcome (list Z * Z) :=
  let! '(buf, w_len) := for_labels (name_fuel name) (write_label offset max_len downcase) (Some name) (buf, 0) in
  fail_if max_len <? offset + w_len + 1 ;;
  let! buf := wr buf (offset + w_len) 0 in
  fail_if 255 <? w_len + 1 ;;
  Ret (buf, w_len + 1).

Definition write_uncompressed_name (buf : list Z) (offset max_len : Z) (name : list Z) : outcome (list Z * Z) :=
  write_uncompressed_name_ext buf offset max_len name true.

Definition wire_name_length (name : list Z) : outcome Z :=
  let! w_len := for_labels (name_fuel name) (fun label w => Ret (if 0 <? len label then w + (len label + 1) else w)) (Some name) 0 in
  Ret (w_len + 1).

(** One iteration of [dns_name_normalize]: the label [label] follows [w], and
    [next_p] is the rest of the input. *)
Definition normalize_label (label : list Z) (next_p : option (list Z)) (w : list Z) (wire_len cap : Z) : outcome (list Z * Z) :=
  fail_if Nat.eqb (length label) 0 ;;
  let wire_len := wire_len + len label + 1 in
  fail_if 255 <? wire_len ;;
  let! w := if 0 <? len w then fail_if cap <=? len w + 1 ;; put cap w DOT else Ret w in
  let! t := dns_label_to_text label (cap - len w - 1) in
  let! w := put_list cap w t in
  let! w := match next_p with
            | Some [] => fail_if cap <=? len w + 1 ;; put cap w DOT
            | _ => Ret w
            end in
  Ret (w, wire_len).

Fixpoint normalize_loop (fuel : nat) (p : option (list Z)) (w : list Z) (wire_len cap : Z) : outcome (list Z) :=
  match p with
  | None | Some [] => Ret w
  | Some p =>
      match fuel with
      | O => NoFuel
      | S fuel' =>
          let! '(label, next_p) := parse_label p in
          let! '(w, wire_len) := normalize_label label next_p w wire_len cap in
          normalize_loop fuel' next_p w wire_len cap
      end
  end.

(** The text; the terminator is one more octet. *)
Definition dns_name_normalize (inp : list Z) (cap : Z) : outcome (list Z) :=
  fail_if cap <? 2 ;;
  if streq inp [] || streq inp [DOT] then
    let! _ := put cap inp 0 in Ret inp
  else
    let! w := normalize_loop (name_fuel inp) (Some inp) [] 1 cap in
    let! _ := put cap w 0 in Ret w.

(** ** Specification *)

(** A label of a name: 1 to 63 octets. *)
Definition label_wf (l : list Z) : Prop := bytes l /\ 1 <= len l <= 63.

(** The canonical text of an octet, and of a label. *)
Definition escape (c : Z) : list Z :=
  if (c =? DOT) || (c =? BACKSLASH) then [BACKSLASH; c]
  else if (c <? 33) || (127 <=? c) then [BACKSLASH; 48 + c / 100; 48 + (c / 10) mod 10; 48 + c mod 10]
  else [c].

Definition label_text (l : list Z) : list Z := concat (map escape l).

(** A name on the wire: length-prefixed labels and the root. *)
Definition wire_labels (ls : list (list Z)) : list Z := concat (map (fun l => len l :: l) ls).
Definition wire_name (ls : list (list Z)) : list Z := wire_labels ls ++ [0].

(** The labels of a text, the empty ones included. *)
Fixpoint parse_labels (fuel : nat) (p : option (list Z)) : outcome (list (list Z)) :=
  match p with
  | None => Ret []
  | Some p =>
      match fuel with
      | O => NoFuel
      | S fuel' =>
          let! '(label, next_p) := parse_label p in
          let! ls := parse_labels fuel' next_p in
          Ret (label :: ls)
      end
  end.

Definition text_labels (name : list Z) : outcome (list (list Z)) := parse_labels (name_fuel name) (Some name).

Definition nonempty (l : list Z) : bool := 0 <? len l.

(** ** Lemmas: one label *)

(** Induction on the text as [parse_label] reads it. *)
Lemma text_ind (P : list Z -> Prop) :
  P [] -> (forall c p, P p -> (forall d1 p2, p = d1 :: p2 -> P p2) ->
    (forall d1 d2 d3 p4, p = d1 :: d2 :: d3 :: p4 -> P p4) -> P (c :: p)) -> forall p, P p.
Proof.
  intros H0 Hs p. enough (forall n p, (length p <= n)%nat -> P p) by eauto.
  clear p. induction n as [| n IH]; intros [| c p] Hl; try done; cbn in Hl; [lia |].
  apply Hs; [apply IH; lia | |]; intros; subst; apply IH; cbn in Hl; lia.
Qed.

Lemma parse_label_defined p acc : defined (parse_label_from p acc).
Proof.
  revert acc. induction p as [| c p IH1 IH2 IH4] using text_ind; intros acc; [apply defined_Ret |]. cbn [parse_label_from].
  case_if; [| case_if; [auto with kari |]; case_if; auto with kari].
  destruct p as [| d1 [| d2 [| d3 p4]]]; [auto with kari | | |];
    repeat (case_if; [auto with kari |]); try (case_if; auto with kari); eauto with kari.
Qed.

Lemma parse_label_next p acc l q : parse_label_from p acc = Ret (l, Some q) -> (length q < length p)%nat.
Proof.
  revert acc. induction p as [| c p IH1 IH2 IH4] using text_ind; intros acc; [done |]. cbn [parse_label_from length].
  case_if; [| case_if; [intros [= _ <-]; lia | case_if; [done |]; intros H%IH1; lia]].
  destruct p as [| d1 [| d2 [| d3 p4]]]; [done | | |].
  - case_if; [done |]. done.
  - case_if; [done |]. intros H%(IH2 d1 _ eq_refl). cbn [length] in *. lia.
  - case_if; [case_if; [done |]; case_if; [done |]; intros H%(IH4 d1 d2 d3 _ eq_refl); cbn [length] in *; lia |].
    case_if; [done |]. intros H%(IH2 d1 _ eq_refl). cbn [length] in *. lia.
Qed.

(** A label has at most 63 octets, and they are octets. *)
Lemma parse_label_wf p acc l q :
  bytes p -> bytes acc -> len acc <= 63 -> parse_label_from p acc = Ret (l, q) ->
  bytes l /\ len l <= 63 /\ (forall q', q = Some q' -> bytes q').
Proof.
  revert acc. induction p as [| c p IH1 IH2 IH4] using text_ind; intros acc Hp Ha Hl; cbn [parse_label_from].
  { intros [= <- <-]. done. }
  apply Forall_cons_1 in Hp as [Hc Hp].
  assert (forall b, isbyte b -> (63 <=? len acc) = false -> bytes (acc ++ [b]) /\ len (acc ++ [b]) <= 63) as Hacc.
  { intros b Hb Hf. rewrite length_app. cbn. split; [| lia]. apply Forall_app. split; [done |]. by constructor. }
  case_if.
  2: { case_if; [intros [= <- <-]; naive_solver |]. case_if; [done |]. destruct (Hacc c) as [? ?]; [done.. |]. by apply IH1. }
  assert (forall d1 d2 d3, isdigit d1 && isdigit d2 && isdigit d3 = true -> (255 <? ddd d1 d2 d3) = false -> isbyte (ddd d1 d2 d3)) as Hd.
  { intros d1 d2 d3. unfold isdigit, isbyte, ddd. lia. }
  destruct p as [| d1 [| d2 [| d3 p4]]]; [done | | |]; repeat (apply Forall_cons_1 in Hp as [? Hp]).
  - case_if; [done |]. destruct (Hacc d1) as [? ?]; [done.. |]. by apply (IH2 d1 [] eq_refl).
  - case_if; [done |]. destruct (Hacc d1) as [? ?]; [done.. |]. apply (IH2 d1 [d2] eq_refl); [by constructor | done..].
  - case_if.
    + case_if; [done |]. case_if; [done |]. destruct (Hacc (ddd d1 d2 d3)) as [? ?]; [by apply Hd | done |].
      by apply (IH4 d1 d2 d3 p4 eq_refl).
    + case_if; [done |]. destruct (Hacc d1) as [? ?]; [done.. |]. apply (IH2 d1 (d2 :: d3 :: p4) eq_refl); try done.
      by repeat (apply Forall_cons_2; [done |]).
Qed.

(** Printing: the text is the escaped label, and it fits or is refused. *)
Lemma label_to_text_spec label w cap :
  len w <= cap ->
  label_to_text_from label w cap =
  (if len w + len (label_text label) <=? cap then Ret (w ++ label_text label) else Fail).
Proof.
  revert w. induction label as [| c label IH]; intros w Hw; cbn [label_to_text_from].
  { change (label_text []) with (@nil Z). rewrite app_nil_r. case_if; [done | cbn [length] in *; ex_lia]. }
  assert ((if (c =? DOT) || (c =? BACKSLASH) then fail_if cap <? len w + 2 ;; put_list cap w [BACKSLASH; c]
           else if (c <? 33) || (127 <=? c) then
             fail_if cap <? len w + 4 ;; put_list cap w [BACKSLASH; 48 + c / 100; 48 + (c / 10) mod 10; 48 + c mod 10]
           else fail_if cap <? len w + 1 ;; put_list cap w [c]) =
          (if len w + len (escape c) <=? cap then Ret (w ++ escape c) else Fail)) as ->.
  { unfold escape, put_list. repeat case_if; cbn [length] in *; (done || ex_lia). }
  unfold label_text. cbn [map concat]. fold (label_text label). rewrite length_app.
  case_if; cbn [obind].
  - rewrite IH by (rewrite length_app; lia). rewrite length_app, <- app_assoc, ?Nat2Z.inj_add in *. by repeat case_if; (done || ex_lia).
  - case_if; [ex_lia | done].
Qed.

Lemma dns_label_to_text_spec label cap :
  0 <= cap -> dns_label_to_text label cap = (if len (label_text label) <=? cap then Ret (label_text label) else Fail).
Proof. intros. unfold dns_label_to_text. by rewrite label_to_text_spec. Qed.

(** Reading what was printed gives the label back. *)
Lemma parse_escape c rest acc :
  isbyte c -> len acc < 63 -> parse_label_from (escape c ++ rest) acc = parse_label_from rest (acc ++ [c]).
Proof.
  intros Hc Hl. unfold escape.
  destruct ((c =? DOT) || (c =? BACKSLASH)) eqn:E1; [| destruct ((c <? 33) || (127 <=? c)) eqn:E2].
  - assert (isdigit c = false) as Hd by (unfold isdigit, DOT, BACKSLASH in *; lia).
    cbn [app parse_label_from]. rewrite Z.eqb_refl, (proj2 (Z.leb_gt _ _)), Hd by done. cbn [andb].
    by destruct rest as [| d2 [| d3 rest]].
  - set (d1 := 48 + c / 100). set (d2 := 48 + (c / 10) mod 10). set (d3 := 48 + c mod 10).
    assert (ddd d1 d2 d3 = c) as Hddd.
    { unfold ddd, d1, d2, d3. pose proof (Z.div_mod c 10). pose proof (Z.div_mod (c / 10) 10).
      rewrite Z.div_div in * by lia. change (10 * 10) with 100 in *. lia. }
    assert (isdigit d1 && isdigit d2 && isdigit d3 = true) as Hd.
    { unfold isdigit, d1, d2, d3, isbyte in *. pose proof (Z.mod_pos_bound c 10). pose proof (Z.mod_pos_bound (c / 10) 10).
      pose proof (Z.div_pos c 100). assert (c / 100 < 10) by (apply Z.div_lt_upper_bound; lia). lia. }
    cbn [app parse_label_from]. rewrite Z.eqb_refl, Hd, Hddd, (proj2 (Z.leb_gt _ _)) by done.
    case_if; [unfold isbyte in Hc; ex_lia | done].
  - cbn [app parse_label_from]. destruct (c =? BACKSLASH) eqn:Eb; [by rewrite orb_true_r in E1 |].
    destruct (c =? DOT) eqn:Ed; [done |]. by rewrite (proj2 (Z.leb_gt _ _)) by done.
Qed.

Lemma parse_label_text l rest acc :
  bytes l -> len acc + len l <= 63 -> parse_label_from (label_text l ++ rest) acc = parse_label_from rest (acc ++ l).
Proof.
  revert acc. induction l as [| c l IH]; intros acc Hb Hl; [by rewrite app_nil_r |].
  apply Forall_cons_1 in Hb as [Hc Hb]. unfold label_text in *. cbn [map concat]. rewrite <- app_assoc, parse_escape by (done || len_lia).
  rewrite IH, <- app_assoc by (done || (rewrite length_app; len_lia)). done.
Qed.

(** ** Lemmas: whole names *)

Lemma parse_labels_defined fuel p :
  (match p with Some q => (length q < fuel)%nat | None => True end) -> defined (parse_labels fuel p).
Proof.
  revert p. induction fuel as [| fuel IH]; intros [p |] Hf; try apply defined_Ret.
  { lia. }
  cbn [parse_labels]. apply obind_defined; [apply parse_label_defined |]. intros [label next] Hn.
  apply obind_defined; [| intros; apply defined_Ret]. apply IH. destruct next as [q |]; [| done].
  apply parse_label_next in Hn. lia.
Qed.

Lemma text_labels_defined name : defined (text_labels name).
Proof. apply parse_labels_defined. unfold name_fuel. lia. Qed.

(** The body of a loop over labels, iterated. *)
Fixpoint ofold {A} (step : list Z -> A -> outcome A) (ls : list (list Z)) (a : A) : outcome A :=
  match ls with
  | [] => Ret a
  | l :: ls' => let! a := step l a in ofold step ls' a
  end.

Lemma for_labels_Ret {A} fuel (step : list Z -> A -> outcome A) p a ls :
  parse_labels fuel p = Ret ls -> for_labels fuel step p a = ofold step ls a.
Proof.
  revert p a ls. induction fuel as [| fuel IH]; intros [p |] a ls; cbn; try (intros [= <-]; done); try done.
  destruct (parse_label p) as [[label next] | | |]; cbn; try done.
  destruct (parse_labels fuel next) as [ls' | | |] eqn:E; cbn; try done. intros [= <-]. cbn.
  destruct (step label a); cbn; try done. by apply IH.
Qed.

(** A text that does not parse makes the loop fail, if its body is defined. *)
Lemma for_labels_Fail {A} (Inv : A -> Prop) fuel (step : list Z -> A -> outcome A) p a :
  (forall l a, Inv a -> step l a = Fail \/ exists a', step l a = Ret a' /\ Inv a') -> Inv a ->
  parse_labels fuel p = Fail -> for_labels fuel step p a = Fail.
Proof.
  intros Hstep. revert p a. induction fuel as [| fuel IH]; intros [p |] a Ha; cbn; try done.
  destruct (parse_label p) as [[label next] | | |]; cbn; try done.
  destruct (Hstep label a Ha) as [-> | (a' & -> & Ha')]; [done |]. cbn. intros E. apply IH; [done |].
  by destruct (parse_labels fuel next).
Qed.

Lemma wire_labels_app a b : wire_labels (a ++ b) = wire_labels a ++ wire_labels b.
Proof. unfold wire_labels. by rewrite map_app, concat_app. Qed.

Lemma wire_labels_cons l ls : wire_labels (l :: ls) = len l :: l ++ wire_labels ls.
Proof. done. Qed.

(** The octets of a label as they are written. *)
Definition cased (downcase : bool) (l : list Z) : list Z := if downcase then map lc l else l.

Lemma length_cased dc l : length (cased dc l) = length l.
Proof. destruct dc; cbn; by rewrite ?length_map. Qed.

Definition written_labels (downcase : bool) (ls : list (list Z)) : list (list Z) := map (cased downcase) (List.filter nonempty ls).

Lemma write_label_spec buf offset max_len dc label W :
  0 <= offset -> max_len <= len buf -> offset + len W <= max_len -> len label <= 63 ->
  write_label offset max_len dc label (splice buf offset W, len W) =
  (let W' := W ++ wire_labels (written_labels dc [label]) in
   if offset + len W' <=? max_len then Ret (splice buf offset W', len W') else Fail).
Proof.
  intros Ho Hm Hw Hl. unfold write_label, written_labels, nonempty. cbn [List.filter].
  destruct (0 <? len label) eqn:E0; cbn [map].
  2: { change (wire_labels []) with (@nil Z). rewrite app_nil_r. case_if; [done | ex_lia]. }
  rewrite wire_labels_cons, length_cased. change (wire_labels []) with (@nil Z). rewrite app_nil_r. cbn zeta.
  rewrite length_app. cbn [length]. rewrite length_cased.
  change (if dc then map lc label else label) with (cased dc label).
  case_if; case_if; try ex_lia; [done |].
  assert (len (splice buf offset W) = len buf) as Hls by (rewrite length_splice; lia).
  assert (wr (splice buf offset W) (offset + len W) (u8 (len label)) = Ret (splice buf offset (W ++ [len label]))) as ->.
  { rewrite u8_small by lia.
    transitivity (wr_list (splice buf offset W) (offset + len W) [len label]); [by cbn; destruct (wr _ _ _) |].
    rewrite wr_list_splice by len_lia. by rewrite splice_app by len_lia. }
  cbn [obind].
  replace (offset + len W + 1) with (offset + len (W ++ [len label])) by (rewrite length_app; len_lia).
  rewrite wr_list_splice.
  - cbn [obind]. rewrite splice_app by (rewrite ?length_app, ?length_cased; len_lia).
    rewrite <- app_assoc. cbn [app]. f_equal. f_equal. lia.
  - lia.
  - rewrite length_cased, length_splice; rewrite ?length_app; len_lia.
Qed.

Lemma written_labels_cons dc l ls : written_labels dc (l :: ls) = written_labels dc [l] ++ written_labels dc ls.
Proof. unfold written_labels. cbn. by destruct (nonempty l). Qed.

Lemma write_labels_spec buf offset max_len dc ls : forall W,
  0 <= offset -> max_len <= len buf -> offset + len W <= max_len -> Forall (fun l => len l <= 63) ls ->
  ofold (write_label offset max_len dc) ls (splice buf offset W, len W) =
  (let W' := W ++ wire_labels (written_labels dc ls) in
   if offset + len W' <=? max_len then Ret (splice buf offset W', len W') else Fail).
Proof.
  induction ls as [| l ls IH]; intros W Ho Hm Hw Hls; cbn zeta.
  { change (wire_labels (written_labels dc [])) with (@nil Z). rewrite app_nil_r. cbn [ofold]. case_if; [done | ex_lia]. }
  apply Forall_cons_1 in Hls as [Hl Hls]. cbn [ofold]. rewrite write_label_spec by done. cbn zeta.
  rewrite (written_labels_cons dc l ls), wire_labels_app, app_assoc.
  set (W1 := W ++ wire_labels (written_labels dc [l])). case_if.
  - cbn [obind]. by rewrite IH by (done || len_lia).
  - cbn [obind]. case_if; [| done]. rewrite length_app in *. ex_lia.
Qed.

Lemma parse_labels_wf fuel p ls :
  (match p with Some q => bytes q | None => True end) -> parse_labels fuel p = Ret ls ->
  Forall (fun l => bytes l /\ len l <= 63) ls.
Proof.
  revert p ls. induction fuel as [| fuel IH]; intros [p |] ls Hb; cbn; try (intros [= <-]; done); try done.
  destruct (parse_label p) as [[label next] | | |] eqn:El; cbn; try done.
  destruct (parse_labels fuel next) as [ls' | | |] eqn:E; cbn; try done. intros [= <-].
  apply parse_label_wf in El as (? & ? & Hn); [| done | done | len_lia]. constructor; [done |].
  apply (IH next); [| done]. destruct next as [q |]; [| done]. by apply Hn.
Qed.

Lemma text_labels_wf name ls : bytes name -> text_labels name = Ret ls -> Forall (fun l => bytes l /\ len l <= 63) ls.
Proof. intros Hb. by apply parse_labels_wf. Qed.

(** The writer puts the name on the wire when it fits, and fails otherwise. *)
Lemma write_uncompressed_spec buf offset max_len name dc :
  bytes name -> 0 <= offset <= max_len -> max_len <= len buf ->
  write_uncompressed_name_ext buf offset max_len name dc =
  match text_labels name with
  | Ret ls =>
      let W := wire_name (written_labels dc ls) in
      if (offset + len W <=? max_len) && (len W <=? 255) then Ret (splice buf offset W, len W) else Fail
  | _ => Fail
  end.
Proof.
  intros Hb Ho Hm. pose proof (text_labels_defined name) as [Hd1 Hd2]. unfold write_uncompressed_name_ext, text_labels in *.
  destruct (parse_labels (name_fuel name) (Some name)) as [ls | | |] eqn:Ep; try done.
  - rewrite (for_labels_Ret _ _ _ _ _ Ep). apply parse_labels_wf in Ep; [| done].
    change (buf, 0) with (buf, len (@nil Z)). rewrite <- (splice_nil buf offset) at 1.
    rewrite write_labels_spec by (done || len_lia || (eapply Forall_impl; [done |]; cbn; tauto)). cbn zeta. cbn [app].
    unfold wire_name. set (W := wire_labels (written_labels dc ls)). rewrite length_app. cbn [length].
    case_if; cbn [obind].
    2: { case_if; [ex_lia | done]. }
    case_if; [case_if; [ex_lia | done] |].
    transitivity (let! b := wr_list (splice buf offset W) (offset + len W) [0] in
                  fail_if 255 <? len W + 1 ;; Ret (b, len W + 1)); [by cbn; destruct (wr _ _ _) |].
    rewrite wr_list_splice by (rewrite ?length_splice; len_lia). cbn [obind]. rewrite splice_app by len_lia.
    case_if; case_if; try ex_lia; [done |]. do 2 f_equal. lia.
  - rewrite (for_labels_Fail (fun s => length (fst s) = length buf /\ 0 <= snd s /\ offset + snd s <= max_len)); try done.
    + intros l [b w] (Hlen & Hw & Hfit). cbn [fst snd] in *. unfold write_label. case_if; [| right; by eexists].
      case_if; [by left |]. right. rewrite wr_in by len_lia. cbn [obind].
      assert (length (if dc then map lc l else l) = length l) as Hl by apply (length_cased dc).
      rewrite wr_list_splice by (rewrite ?length_insert, ?Hl; len_lia). eexists. split; [done |]. cbn [fst snd].
      rewrite length_splice, length_insert by (rewrite ?length_insert, ?Hl; len_lia). split_and!; [done | lia | len_lia].
    + cbn. split_and!; [done | lia | lia].
Qed.

(** Every text is written or refused; nothing is written outside the buffer. *)
Lemma wire_name_length_spec name ls :
  text_labels name = Ret ls -> wire_name_length name = Ret (len (wire_name (List.filter nonempty ls))).
Proof.
  unfold text_labels, wire_name_length, wire_name. intros Hp. rewrite (for_labels_Ret _ _ _ _ _ Hp).
  assert (forall ls w, ofold (fun label w => Ret (if 0 <? len label then w + (len label + 1) else w)) ls w =
    Ret (w + len (wire_labels (List.filter nonempty ls)))) as ->.
  { clear. induction ls as [| l ls IH]; intros w; cbn [ofold List.filter].
    - change (wire_labels []) with (@nil Z). f_equal. len_lia.
    - cbn [obind]. rewrite IH. f_equal. unfold nonempty at 2. destruct (0 <? len l); [| done].
      rewrite wire_labels_cons. cbn [length]. rewrite length_app. lia. }
  cbn [obind]. f_equal. rewrite length_app. len_lia.
Qed.

(** ** The canonical text of a list of labels

    An absolute name has an empty last label: [join_dots] then ends in a dot. *)

Definition render (ls : list (list Z)) : list Z := join_dots (map label_text ls).

Definition octets63 (l : list Z) : Prop := bytes l /\ len l <= 63.

Lemma render_cons l l' ls : render (l :: l' :: ls) = label_text l ++ DOT :: render (l' :: ls).
Proof. done. Qed.

Lemma parse_label_last l : octets63 l -> parse_label (label_text l) = Ret (l, None).
Proof.
  intros [Hb Hl]. unfold parse_label. rewrite <- (app_nil_r (label_text l)), parse_label_text by (done || len_lia). done.
Qed.

Lemma parse_label_dot l rest : octets63 l -> parse_label (label_text l ++ DOT :: rest) = Ret (l, Some rest).
Proof. intros [Hb Hl]. unfold parse_label. rewrite parse_label_text by (done || len_lia). done. Qed.

Lemma parse_labels_render fuel ls :
  ls <> [] -> Forall octets63 ls -> (length (render ls) < fuel)%nat -> parse_labels fuel (Some (render ls)) = Ret ls.
Proof.
  revert ls. induction fuel as [| fuel IH]; intros ls Hne Hls Hf; [lia |].
  destruct ls as [| l [| l' ls]]; [done | |]; apply Forall_cons_1 in Hls as [Hl Hls].
  - cbn [parse_labels]. change (render [l]) with (label_text l). rewrite parse_label_last by done. by destruct fuel.
  - rewrite render_cons in *. cbn [parse_labels]. rewrite parse_label_dot by done. cbn [obind].
    rewrite IH; [done | done | done |]. rewrite length_app in Hf. cbn [length] in Hf. lia.
Qed.

Lemma text_labels_render ls : ls <> [] -> Forall octets63 ls -> text_labels (render ls) = Ret ls.
Proof. intros Hne Hls. apply parse_labels_render; [done.. |]. unfold name_fuel. lia. Qed.

Lemma render_inj a b : a <> [] -> b <> [] -> Forall octets63 a -> Forall octets63 b -> render a = render b -> a = b.
Proof.
  intros Ha Hb Hwa Hwb H. pose proof (text_labels_render a Ha Hwa) as Ea. rewrite H, text_labels_render in Ea by done. congruence.
Qed.

(** ** Normalization *)

(** The labels without the empty one after a final dot. *)
Fixpoint loop_labels (raw : list (list Z)) : list (list Z) :=
  match raw with
  | [] => []
  | [l; []] => [l]
  | l :: raw' => l :: loop_labels raw'
  end.

(** The names [dns_name_normalize] accepts: the empty text, the root, and
    names without empty labels of at most 255 octets on the wire. *)
Definition normal_labels (raw : list (list Z)) : bool :=
  bool_decide (raw = [[]]) || bool_decide (raw = [[]; []]) ||
  (forallb nonempty (loop_labels raw) && (len (wire_name (loop_labels raw)) <=? 255)).

(** Text is at most four times as long as the octets it stands for. *)
Lemma length_escape c : 1 <= len (escape c) <= 4.
Proof. unfold escape. repeat case_if; len_lia. Qed.

Lemma length_label_text l : len l <= len (label_text l) <= 4 * len l.
Proof.
  induction l as [| c l IH]; [done |]. unfold label_text in *. cbn [map concat length]. rewrite length_app.
  pose proof (length_escape c). lia.
Qed.

Lemma normalize_label_spec label next w wl cap :
  1025 <= cap -> nonempty label = true -> len w <= 4 * (wl - 1) -> 1 <= wl ->
  normalize_label label next w wl cap =
  (if wl + len label + 1 <=? 255 then
     Ret (w ++ (if 0 <? len w then [DOT] else []) ++ label_text label ++ (match next with Some [] => [DOT] | _ => [] end),
          wl + len label + 1)
   else Fail).
Proof.
  intros Hcap Hne Hw Hwl. unfold normalize_label, nonempty in *. pose proof (length_label_text label) as Ht.
  destruct (Nat.eqb_spec (length label) 0) as [E0 | E0]; [ex_lia |].
  destruct (255 <? wl + len label + 1) eqn:E1, (wl + len label + 1 <=? 255) eqn:E2; try ex_lia; [done |].
  set (w1 := w ++ (if 0 <? len w then [DOT] else [])).
  assert (len w <= len w1 <= len w + 1) as Hw1 by (unfold w1; rewrite length_app; case_if; len_lia).
  assert ((if 0 <? len w then fail_if cap <=? len w + 1 ;; put cap w DOT else Ret w) = Ret w1) as ->.
  { unfold w1. case_if; [| by rewrite app_nil_r]. case_if; [ex_lia |]. by rewrite put_in by len_lia. }
  cbn [obind]. rewrite dns_label_to_text_spec by len_lia. case_if; [| ex_lia]. cbn [obind].
  rewrite put_list_in by len_lia. cbn [obind].
  replace (w ++ (if 0 <? len w then [DOT] else []) ++ label_text label ++ match next with Some [] => [DOT] | _ => [] end)
    with ((w1 ++ label_text label) ++ match next with Some [] => [DOT] | _ => [] end) by (unfold w1; by rewrite <- !app_assoc).
  destruct next as [[| ? ?] |]; rewrite ?app_nil_r; try done.
  rewrite length_app. case_if; [ex_lia |]. by rewrite put_in by (rewrite length_app; len_lia).
Qed.

(** Only an empty text gives an empty label. *)
Lemma parse_label_empty q acc next :
  parse_label_from q acc = Ret ([], next) -> acc = [] /\ q = match next with None => [] | Some q' => DOT :: q' end.
Proof.
  assert (forall q acc l n, parse_label_from q acc = Ret (l, n) -> (length acc <= length l)%nat) as Hmono.
  { clear. induction q as [| c q IH1 IH2 IH4] using text_ind; intros acc l n; cbn [parse_label_from]; [by intros [= <- <-] |].
    assert (forall x, (length acc <= length (acc ++ [x]))%nat) as Hx by (intros; rewrite length_app; lia).
    case_if; [| case_if; [by intros [= <- <-] |]; case_if; [done |]; intros H%IH1; specialize (Hx c); lia].
    destruct q as [| d1 [| d2 [| d3 p4]]]; [done | | |].
    - case_if; [done |]. intros H%(IH2 d1 _ eq_refl). specialize (Hx d1). lia.
    - case_if; [done |]. intros H%(IH2 d1 _ eq_refl). specialize (Hx d1). lia.
    - case_if; [case_if; [done |]; case_if; [done |]; intros H%(IH4 d1 d2 d3 _ eq_refl); specialize (Hx (ddd d1 d2 d3)); lia |].
      case_if; [done |]. intros H%(IH2 d1 _ eq_refl). specialize (Hx d1). lia. }
  assert (forall q x, parse_label_from q (acc ++ [x]) <> Ret ([], next)) as Hno.
  { intros q' x H%Hmono. rewrite length_app in H. cbn in H. lia. }
  destruct q as [| c q]; cbn [parse_label_from]; [by intros [= -> <-] |].
  case_if; [| case_if; [intros [= -> <-]; split; [done | f_equal; lia] | case_if; [done |]; intros H; by apply Hno in H]].
  destruct q as [| d1 [| d2 [| d3 p4]]]; [done | | |]; try (case_if; [done |]; intros H; by apply Hno in H).
  case_if; [case_if; [done |] |]; case_if; try done; intros H; by apply Hno in H.
Qed.

Lemma parse_labels_single_empty fuel q : parse_labels fuel (Some q) = Ret [[]] -> q = [].
Proof.
  destruct fuel as [| fuel]; [done |]. cbn [parse_labels].
  destruct (parse_label q) as [[label next] | | |] eqn:El; cbn; try done.
  destruct (parse_labels fuel next) as [ls | | |] eqn:E; cbn; try done. intros [= -> ->].
  apply parse_label_empty in El as [_ ->]. destruct next as [q' |]; [| done].
  destruct fuel as [| fuel]; [done |]. cbn in E. destruct (parse_label q') as [[? ?] | | |]; try done. cbn in E.
  by destruct (parse_labels fuel _).
Qed.

Lemma loop_labels_cons l raw : raw <> [[]] -> loop_labels (l :: raw) = l :: loop_labels raw.
Proof. destruct raw as [| [| ? ?] [| ? ?]]; done. Qed.

Lemma parse_labels_not_nil fuel q raw : parse_labels fuel (Some q) = Ret raw -> raw <> [].
Proof.
  destruct fuel as [| fuel]; [done |]. cbn. destruct (parse_label q) as [[? ?] | | |]; try done. cbn.
  destruct (parse_labels fuel _); try done. by intros [= <-].
Qed.

(** The separator before a label that follows [w]. *)
Definition sep (w : list Z) : list Z := if 0 <? len w then [DOT] else [].

Lemma normalize_loop_spec fuel q w wl cap raw :
  1025 <= cap -> q <> [] -> len w <= 4 * (wl - 1) -> 1 <= wl -> parse_labels fuel (Some q) = Ret raw ->
  normalize_loop fuel (Some q) w wl cap =
  (if forallb nonempty (loop_labels raw) && (wl + len (wire_labels (loop_labels raw)) <=? 255)
   then Ret (w ++ sep w ++ render raw) else Fail).
Proof.
  intros Hcap. revert q w wl raw. induction fuel as [| fuel IH]; intros q w wl raw Hq Hw Hwl Hp; [done |].
  cbn [parse_labels] in Hp. destruct q as [| c q]; [done |]. cbn [normalize_loop]. set (q0 := c :: q) in *.
  destruct (parse_label q0) as [[label next] | | |] eqn:El; try done. cbn [obind] in *.
  destruct (parse_labels fuel next) as [raw' | | |] eqn:Er; try done. cbn in Hp. injection Hp as <-.
  destruct (nonempty label) eqn:Hne.
  2: { assert (loop_labels (label :: raw') = label :: tail (loop_labels (label :: raw'))) as ->
         by (destruct raw' as [| [| ? ?] [| ? ?]]; done).
       cbn [forallb]. rewrite Hne. unfold normalize_label, nonempty in *. by destruct label. }
  rewrite normalize_label_spec by done. fold (sep w).
  assert (len label <= 4 * len label /\ 1 <= len label) as [_ Hl1] by (unfold nonempty in Hne; lia).
  pose proof (length_label_text label) as Ht.
  assert (0 <= len (sep w) <= 1) as Hs by (unfold sep; case_if; len_lia).
  assert (len (wire_labels [label]) = len label + 1) as Hw1
    by (change (wire_labels [label]) with (len label :: label ++ []); rewrite app_nil_r; len_lia).
  destruct next as [[| c' q'] |].
  - (* a final dot *)
    assert (raw' = [[]]) as -> by (destruct fuel as [| [| ?]]; cbn in Er; congruence).
    cbn [loop_labels forallb]. rewrite Hne, Hw1, Z.add_assoc. cbn [andb]. case_if; [| done]. cbn [obind].
    by destruct fuel.
  - assert (raw' <> []) as Hnn by (by eapply parse_labels_not_nil).
    assert (raw' <> [[]]) as Hn1 by (intros ->; by apply parse_labels_single_empty in Er).
    rewrite loop_labels_cons by done. cbn [forallb]. rewrite Hne. cbn [andb].
    change (label :: loop_labels raw') with ([label] ++ loop_labels raw'). rewrite wire_labels_app, length_app.
    destruct (wl + len label + 1 <=? 255) eqn:E1; cbn [obind].
    2: { destruct (forallb nonempty _); cbn [andb]; [| done]. case_if; [ex_lia | done]. }
    rewrite app_nil_r, (IH _ _ _ raw'); [| done | rewrite !length_app; len_lia | lia | done].
    replace (sep (w ++ sep w ++ label_text label)) with [DOT]
      by (unfold sep at 1; rewrite !length_app; case_if; [done | ex_lia]).
    replace (render (label :: raw')) with (label_text label ++ [DOT] ++ render raw') by (by destruct raw').
    rewrite <- !app_assoc. replace (wl + len label + 1 + len (wire_labels (loop_labels raw')))
      with (wl + Z.of_nat (length (wire_labels [label]) + length (wire_labels (loop_labels raw')))) by lia. done.
  - assert (raw' = []) as -> by (by destruct fuel; cbn in Er; congruence).
    cbn [loop_labels forallb]. rewrite Hne, Hw1, Z.add_assoc. cbn [andb]. case_if; [| done]. cbn [obind].
    rewrite app_nil_r. by destruct fuel.
Qed.

Lemma normalize_loop_Fail fuel q w wl cap :
  1025 <= cap -> q <> [] -> len w <= 4 * (wl - 1) -> 1 <= wl -> parse_labels fuel (Some q) = Fail ->
  normalize_loop fuel (Some q) w wl cap = Fail.
Proof.
  intros Hcap. revert q w wl. induction fuel as [| fuel IH]; intros q w wl Hq Hw Hwl Hp; [done |].
  cbn [parse_labels] in Hp. destruct q as [| c q]; [done |]. cbn [normalize_loop]. set (q0 := c :: q) in *.
  destruct (parse_label q0) as [[label next] | | |] eqn:El; try done. cbn [obind] in *.
  assert (parse_labels fuel next = Fail) as Er by (by destruct (parse_labels fuel next)).
  destruct (nonempty label) eqn:Hne; [| unfold normalize_label, nonempty in *; by destruct label].
  rewrite normalize_label_spec by done. case_if; [| done]. cbn [obind].
  destruct next as [[| c' q'] |]; [by destruct fuel as [| [| ?]]; cbn in Er | | by destruct fuel; cbn in Er].
  pose proof (length_label_text label). apply IH; try done; [| lia].
  rewrite !length_app. case_if; len_lia.
Qed.

(** The text of a name fits where its wire form has at most 255 octets. *)
Lemma length_render raw : len (render raw) <= 4 * len (wire_labels (loop_labels raw)).
Proof.
  induction raw as [| l raw IH]; [done |]. pose proof (length_label_text l) as Ht.
  assert (forall ls, len (wire_labels (l :: ls)) = len l + 1 + len (wire_labels ls)) as Hw
    by (intros; rewrite wire_labels_cons; cbn [length]; rewrite length_app; lia).
  destruct (decide (raw = [[]])) as [-> | Hn]; [| rewrite loop_labels_cons by done].
  - change (loop_labels [l; []]) with [l]. rewrite Hw. change (render [l; []]) with (label_text l ++ [DOT]).
    rewrite length_app. len_lia.
  - rewrite Hw. destruct raw as [| l' raw]; [change (render [l]) with (label_text l); lia |].
    rewrite render_cons, length_app. cbn [length]. lia.
Qed.

Lemma normalize_spec inp cap :
  1025 <= cap ->
  dns_name_normalize inp cap =
  match text_labels inp with
  | Ret raw => if normal_labels raw then Ret (render raw) else Fail
  | _ => Fail
  end.
Proof.
  intros Hcap. unfold dns_name_normalize. case_if; [ex_lia |]. unfold streq.
  case_bool_decide as H1; [subst inp |].
  { change (text_labels []) with (Ret [@nil Z]). cbn [orb]. by rewrite put_in by len_lia. }
  case_bool_decide as H2; [subst inp |]; cbn [orb].
  { change (text_labels [DOT]) with (Ret [@nil Z; []]). by rewrite put_in by len_lia. }
  unfold text_labels. pose proof (text_labels_defined inp) as [Hd1 Hd2]. unfold text_labels in *.
  destruct (parse_labels (name_fuel inp) (Some inp)) as [raw | | |] eqn:Ep; try done.
  - rewrite (normalize_loop_spec _ _ _ _ _ raw) by (done || len_lia). unfold normal_labels, wire_name.
    rewrite (bool_decide_false (raw = [[]])) by (intros ->; by apply parse_labels_single_empty in Ep).
    rewrite (bool_decide_false (raw = [[]; []])).
    2: { intros ->. unfold name_fuel in Ep. cbn [parse_labels] in Ep.
         destruct (parse_label inp) as [[l n] | | |] eqn:El; try done. cbn in Ep.
         destruct (parse_labels (length inp) n) as [ls | | |] eqn:En; try done. cbn in Ep. injection Ep as -> ->.
         apply parse_label_empty in El as [_ ->]. destruct n as [q |]; [| done].
         apply parse_labels_single_empty in En as ->. done. }
    rewrite length_app. cbn [orb length sep app].
    replace (Z.of_nat (length (wire_labels (loop_labels raw)) + 1)) with (1 + len (wire_labels (loop_labels raw))) by lia.
    destruct (forallb nonempty (loop_labels raw) && _) eqn:Ev; [| done]. cbn [obind].
    change (sep [] ++ render raw) with (render raw). pose proof (length_render raw).
    rewrite put_in by len_lia. done.
  - by rewrite normalize_loop_Fail by (done || len_lia).
Qed.

(** ** Comparison of names in canonical form *)

(** The labels of the name that a text stands for: none for the root. *)
Definition host_labels (raw : list (list Z)) : list (list Z) :=
  if bool_decide (raw = [[]]) || bool_decide (raw = [[]; []]) then [] else loop_labels raw.

Lemma escape_lower c : isbyte c -> map tolower (escape c) = escape (lc c).
Proof.
  intros Hc.
  assert (forallb (fun c => bool_decide (map tolower (escape c) = escape (lc c))) (seqZ 0 256) = true) as H by by vm_compute.
  apply (forallb_range _ 0 256 H) in Hc. by apply bool_decide_eq_true in Hc.
Qed.

Lemma label_text_lower l : bytes l -> map tolower (label_text l) = label_text (map lc l).
Proof.
  induction l as [| c l IH]; intros Hb; [done |]. apply Forall_cons_1 in Hb as [Hc Hb]. unfold label_text in *. cbn [map concat].
  by rewrite map_app, escape_lower, IH by done.
Qed.

Lemma render_lower ls : Forall bytes ls -> map tolower (render ls) = render (map (map lc) ls).
Proof.
  induction ls as [| l [| l' ls] IH]; intros Hb; [done | |]; apply Forall_cons_1 in Hb as [Hl Hb].
  - by apply label_text_lower.
  - cbn [map] in *. rewrite !render_cons, map_app. cbn [map]. rewrite label_text_lower, IH by done. done.
Qed.

(** No escape is left open at the end of an octet, a label, a name. *)
Lemma esc_escape c : isbyte c -> foldl esc_step false (escape c) = false.
Proof.
  intros Hc. assert (forallb (fun c => negb (foldl esc_step false (escape c))) (seqZ 0 256) = true) as H by by vm_compute.
  apply (forallb_range _ 0 256 H) in Hc. by apply negb_true_iff.
Qed.

Lemma esc_label_text l : bytes l -> foldl esc_step false (label_text l) = false.
Proof.
  intros Hb. induction l as [| c l IH]; [done |]. apply Forall_cons_1 in Hb as [Hc Hb]. unfold label_text in *. cbn [map concat].
  by rewrite foldl_app, esc_escape, IH.
Qed.

Lemma esc_render ls : Forall bytes ls -> esc_after (render ls) = false.
Proof.
  intros Hb. unfold esc_after. induction ls as [| l [| l' ls] IH]; [done | |]; apply Forall_cons_1 in Hb as [Hl Hb].
  - by apply esc_label_text.
  - rewrite render_cons, foldl_app, esc_label_text by done. cbn [foldl]. by apply IH.
Qed.

Lemma labels_from_plain x rest cur :
  x <> BACKSLASH -> x <> DOT -> labels_from (x :: rest) false cur = labels_from rest false (cur ++ [x]).
Proof. intros H1 H2. cbn [labels_from]. by rewrite (proj2 (Z.eqb_neq _ _) H1), (proj2 (Z.eqb_neq _ _) H2). Qed.

Lemma labels_from_escape c rest cur :
  isbyte c -> labels_from (escape c ++ rest) false cur = labels_from rest false (cur ++ escape c).
Proof.
  intros Hc. unfold escape. case_if; [| case_if].
  - cbn [app labels_from]. rewrite Z.eqb_refl, <- app_assoc. done.
  - change (([BACKSLASH; 48 + c / 100; 48 + (c / 10) mod 10; 48 + c mod 10]) ++ rest)
      with (BACKSLASH :: (48 + c / 100) :: (48 + (c / 10) mod 10) :: (48 + c mod 10) :: rest).
    pose proof (Z.mod_pos_bound c 10). pose proof (Z.mod_pos_bound (c / 10) 10).
    cbn [labels_from]. rewrite Z.eqb_refl. rewrite !(proj2 (Z.eqb_neq _ _)) by (unfold BACKSLASH, DOT; lia).
    by rewrite <- !app_assoc.
  - cbn [app]. cmp_prop. by apply labels_from_plain.
Qed.

Lemma labels_from_text l rest cur :
  bytes l -> labels_from (label_text l ++ rest) false cur = labels_from rest false (cur ++ label_text l).
Proof.
  revert cur. induction l as [| c l IH]; intros cur Hb; [by rewrite app_nil_r |]. apply Forall_cons_1 in Hb as [Hc Hb].
  unfold label_text in *. cbn [map concat]. by rewrite <- app_assoc, labels_from_escape, IH, <- app_assoc.
Qed.

Lemma labels_from_render ls : ls <> [] -> Forall bytes ls -> labels_from (render ls) false [] = map label_text ls.
Proof.
  induction ls as [| l [| l' ls] IH]; intros Hn Hb; [done | |]; apply Forall_cons_1 in Hb as [Hl Hb].
  - change (render [l]) with (label_text l). rewrite <- (app_nil_r (label_text l)) at 1. by rewrite labels_from_text.
  - rewrite render_cons, labels_from_text by done. cbn [app labels_from]. by rewrite IH.
Qed.

Lemma relative_dot s : esc_after s = false -> relative (s ++ [DOT]) = s.
Proof.
  intros He. unfold relative, dns_name_len_no_root. rewrite length_app. cbn [length]. rewrite Nat.add_sub.
  unfold chr. rewrite nth_middle, escaped_spec by (rewrite length_app; lia).
  rewrite take_app_length, He, Z.eqb_refl. replace (Nat.ltb 0 (length s + 1)) with true by (symmetry; apply Nat.ltb_lt; lia).
  cbn [andb negb]. by rewrite take_app_length.
Qed.

Lemma relative_keep s x : x <> DOT \/ esc_after s = true -> relative (s ++ [x]) = s ++ [x].
Proof.
  intros He. unfold relative, dns_name_len_no_root. rewrite length_app. cbn [length]. rewrite Nat.add_sub.
  unfold chr. rewrite nth_middle, escaped_spec by (rewrite length_app; lia). rewrite take_app_length.
  destruct He as [He%Z.eqb_neq | ->]; [rewrite He |]; cbn [negb]; rewrite ?andb_false_r;
    cbn [andb]; rewrite ?andb_false_r; cbn [andb]; apply take_ge; rewrite length_app; cbn; lia.
Qed.

Lemma relative_escape s c : isbyte c -> esc_after s = false -> relative (s ++ escape c) = s ++ escape c.
Proof.
  intros Hc Hs. unfold escape. case_if; [| case_if].
  - change [BACKSLASH; c] with ([BACKSLASH] ++ [c]). rewrite app_assoc. apply relative_keep. right.
    unfold esc_after in *. by rewrite foldl_app, Hs.
  - change [BACKSLASH; ?a; ?b; ?d] with ([BACKSLASH; a; b] ++ [d]). rewrite app_assoc. apply relative_keep. left.
    pose proof (Z.mod_pos_bound c 10). unfold DOT. lia.
  - apply relative_keep. left. cmp_prop. done.
Qed.

(** A name whose last label is not empty keeps its text. *)
Lemma relative_render ls l : Forall bytes (ls ++ [l]) -> l <> [] -> relative (render (ls ++ [l])) = render (ls ++ [l]).
Proof.
  intros Hb Hl. destruct (exists_last Hl) as (l0 & c & ->).
  apply Forall_app in Hb as [Hls Hl1]. apply Forall_cons_1 in Hl1 as [Hl1 _]. apply Forall_app in Hl1 as [Hl0 Hc].
  apply Forall_cons_1 in Hc as [Hc _].
  assert (label_text (l0 ++ [c]) = label_text l0 ++ escape c) as Ht
    by (unfold label_text; rewrite map_app, concat_app; cbn; by rewrite app_nil_r).
  assert (render (ls ++ [l0 ++ [c]]) = render (ls ++ [l0]) ++ escape c) as ->.
  { clear -Ht. induction ls as [| x [| y ls] IH]; [done | |].
    - cbn [app]. rewrite !render_cons. change (render [l0 ++ [c]]) with (label_text (l0 ++ [c])). rewrite Ht.
      change (render [l0]) with (label_text l0). by rewrite <- app_assoc.
    - cbn [app] in *. rewrite !render_cons, IH. by rewrite <- app_assoc. }
  apply relative_escape; [done |]. apply esc_render, Forall_app. split; [done |]. by constructor.
Qed.

Lemma loop_labels_cases raw : raw = loop_labels raw \/ raw = loop_labels raw ++ [[]].
Proof.
  induction raw as [| l raw IH]; [by left |]. destruct (decide (raw = [[]])) as [-> | Hn]; [by right |].
  rewrite loop_labels_cons by done. destruct IH as [IH | IH]; [left | right]; cbn; by rewrite <- IH.
Qed.

Lemma render_final_dot ls : ls <> [] -> render (ls ++ [[]]) = render ls ++ [DOT].
Proof.
  induction ls as [| l [| l' ls] IH]; intros Hn; [done | done |]. cbn [app] in *. rewrite !render_cons, IH by done.
  by rewrite <- app_assoc.
Qed.

(** The labels [domain_names_match_ci] compares are the labels of the name. *)
Lemma name_labels_render raw :
  Forall bytes raw -> raw <> [] -> normal_labels raw = true ->
  name_labels (render raw) = map label_text (map (map lc) (host_labels raw)).
Proof.
  intros Hb Hne Hn. unfold normal_labels, host_labels in *.
  case_bool_decide as H1; [by subst |]. case_bool_decide as H2; [by subst |]. cbn [orb] in *.
  apply andb_true_iff in Hn as [Hn _]. set (ls := loop_labels raw) in *.
  assert (Forall bytes ls /\ ls <> [] /\ relative (render raw) = render ls) as (Hbl & Hnl & Hrel).
  { destruct (loop_labels_cases raw) as [E | E]; fold ls in E.
    - rewrite <- E in *. split_and!; [done.. |].
      destruct (exists_last Hne) as (ls0 & l & El). rewrite El in *. apply relative_render; [done |].
      intros ->. rewrite forallb_app in Hn. apply andb_true_iff in Hn as [_ Hn]. done.
    - assert (ls <> []) by (intros El; rewrite El in E; done).
      rewrite E in Hb. apply Forall_app in Hb as [Hb _]. split_and!; [done.. |]. rewrite E, render_final_dot by done.
      apply relative_dot. by apply esc_render. }
  rewrite name_labels_relative, Hrel. destruct (render ls) as [| x r] eqn:Er.
  { pose proof (labels_from_render ls Hnl Hbl) as Hl. rewrite Er in Hl. cbn in Hl. destruct ls as [| [| ? l] [|]]; try done.
    all: pose proof (length_label_text (z :: l)); injection Hl as Hl; rewrite <- Hl in *; len_lia. }
  rewrite <- Er, render_lower by done. apply labels_from_render; [by destruct ls |].
  apply Forall_map. eapply Forall_impl; [done |]. cbn. intros l Hl. apply Forall_map. eapply Forall_impl; [done |]. apply lc_byte.
Qed.

Lemma label_text_inj a b : octets63 a -> octets63 b -> label_text a = label_text b -> a = b.
Proof. intros Ha Hb H. pose proof (parse_label_last a Ha) as Ea. rewrite H, parse_label_last in Ea by done. congruence. Qed.

Lemma map_label_text_inj a b : Forall octets63 a -> Forall octets63 b -> map label_text a = map label_text b -> a = b.
Proof.
  revert b. induction a as [| x a IH]; intros [| y b] Ha Hb H; try done.
  apply Forall_cons_1 in Ha as [Hx Ha]. apply Forall_cons_1 in Hb as [Hy Hb]. injection H as H1 H2.
  f_equal; [by apply label_text_inj | by apply IH].
Qed.

Lemma octets63_lc l : octets63 l -> octets63 (map lc l).
Proof.
  intros [Hb Hl]. split; [| by rewrite length_map]. apply Forall_map. eapply Forall_impl; [done |]. apply lc_byte.
Qed.

Lemma loop_labels_Forall (P : list Z -> Prop) raw : Forall P raw -> Forall P (loop_labels raw).
Proof.
  intros H. destruct (loop_labels_cases raw) as [E | E]; [by rewrite <- E |].
  rewrite E in H. by apply Forall_app in H as [H _].
Qed.

Lemma host_labels_Forall (P : list Z -> Prop) raw : Forall P raw -> Forall P (host_labels raw).
Proof. intros H. unfold host_labels. case_if; [constructor |]. by apply loop_labels_Forall. Qed.

(** ** Properties *)

(** [dns_name_normalize] with the standard buffer is total.  When it
    accepts a text, the result denotes the same labels, fits the buffer with
    its terminator, is a fixed point, and is the result for every other
    spelling of the same labels, so that equal names have equal normal forms;
    when it refuses, the text is no name: a bad escape, a label over 63
    octets, an empty label, or more than 255 octets on the wire. *)
Theorem normalize_canonical (inp : list Z) :
  bytes inp ->
  match dns_name_normalize inp DNS_NAME_TEXT_SIZE with
  | Ret out =>
      text_labels out = text_labels inp /\ len out < DNS_NAME_TEXT_SIZE /\
      dns_name_normalize out DNS_NAME_TEXT_SIZE = Ret out /\
      (forall inp', text_labels inp' = text_labels inp -> dns_name_normalize inp' DNS_NAME_TEXT_SIZE = Ret out)
  | Fail => forall raw, text_labels inp = Ret raw -> normal_labels raw = false
  | Oob | NoFuel => False
  end.
Proof.
  intros Hb. rewrite normalize_spec by done. destruct (text_labels inp) as [raw | | |] eqn:Et.
  - destruct (normal_labels raw) eqn:En; [| by intros ? [= <-]].
    assert (raw <> []) as Hne by (by eapply parse_labels_not_nil).
    apply text_labels_wf in Et; [| done]. rewrite text_labels_render by done. split_and!; [done | | |].
    + unfold normal_labels, wire_name in En. case_bool_decide; [by subst |]. case_bool_decide; [by subst |].
      pose proof (length_render raw). rewrite length_app in En. unfold DNS_NAME_TEXT_SIZE. cbn [orb] in En.
      apply andb_true_iff in En as [_ En]. len_lia.
    + by rewrite normalize_spec, text_labels_render, En.
    + intros inp' Hi. by rewrite normalize_spec, Hi, En.
  - done.
  - by destruct (text_labels_defined inp).
  - by destruct (text_labels_defined inp).
Qed.

Lemma normalize_canonical_witness :
  match dns_name_normalize (str "a\046B.\099om.") DNS_NAME_TEXT_SIZE with
  | Ret out =>
      text_labels out = text_labels (str "a\046B.\099om.") /\ len out < DNS_NAME_TEXT_SIZE /\
      dns_name_normalize out DNS_NAME_TEXT_SIZE = Ret out /\
      (forall inp', text_labels inp' = text_labels (str "a\046B.\099om.") -> dns_name_normalize inp' DNS_NAME_TEXT_SIZE = Ret out)
  | Fail => forall raw, text_labels (str "a\046B.\099om.") = Ret raw -> normal_labels raw = false
  | Oob | NoFuel => False
  end.
Proof. apply (normalize_canonical (str "a\046B.\099om.")). bytes_lit. Defined.

(** On names in canonical form, the comparison of characters without
    case is the comparison of RFC 4343: the names match exactly when their
    labels are equal octet by octet, ASCII letters compared without case, and
    an absolute name equals its relative spelling. *)
Theorem canonical_names_match (a b : list (list Z)) :
  a <> [] -> b <> [] -> Forall octets63 a -> Forall octets63 b -> normal_labels a = true -> normal_labels b = true ->
  domain_names_match_ci (render a) (render b) = true <-> map (map lc) (host_labels a) = map (map lc) (host_labels b).
Proof.
  intros Ha Hb Hwa Hwb Hna Hnb. rewrite match_ci_relative, name_labels_lower.
  rewrite !name_labels_render by (done || (eapply Forall_impl; [done |]; by intros ? [? ?])).
  split; [| by intros ->]. apply map_label_text_inj; apply Forall_map.
  - eapply Forall_impl; [by apply host_labels_Forall | apply octets63_lc].
  - eapply Forall_impl; [by apply host_labels_Forall | apply octets63_lc].
Qed.

Lemma canonical_names_match_witness :
  let a := [str "Ex.ample"; str "ORG"; []] in let b := [str "eX.Ample"; str "org"] in
  domain_names_match_ci (render a) (render b) = true <-> map (map lc) (host_labels a) = map (map lc) (host_labels b).
Proof.
  intros a b. apply (canonical_names_match a b); try done;
    repeat (apply Forall_cons_2; [split; [bytes_lit | vm_compute; congruence] |]); apply Forall_nil_2.
Defined.

(** [write_uncompressed_name_ext] writes, for every text, exactly the
    length-prefixed labels and the root at the offset, and nothing else; it
    fails exactly when the text is no name, exceeds 255 octets, or does not
    fit; and no write is outside the buffer. *)
Theorem write_uncompressed_name_correct (buf : list Z) (offset max_len : Z) (name : list Z) (downcase : bool) :
  bytes name -> 0 <= offset <= max_len -> max_len <= len buf ->
  write_uncompressed_name_ext buf offset max_len name downcase =
  match text_labels name with
  | Ret ls =>
      let W := wire_name (written_labels downcase ls) in
      if (offset + len W <=? max_len) && (len W <=? 255) then Ret (splice buf offset W, len W) else Fail
  | _ => Fail
  end.
Proof. apply write_uncompressed_spec. Qed.

Lemma write_uncompressed_name_correct_witness :
  write_uncompressed_name_ext (replicate 12 0) 2 12 (str "Ab.c") true =
  (let W := wire_name (written_labels true [str "Ab"; str "c"]) in
   if (2 + len W <=? 12) && (len W <=? 255) then Ret (splice (replicate 12 0) 2 W, len W) else Fail).
Proof.
  rewrite (write_uncompressed_name_correct (replicate 12 0) 2 12 (str "Ab.c") true); [by vm_compute | bytes_lit | lia |].
  vm_compute. congruence.
Defined.

End NameText.
