(* ===== verification/WireName.v ===== *)
(** * Names on the wire (src/dns_wire.c)

    Reading names from a packet an attacker may have written: the walk along
    labels and compression pointers that [skip_wire_name] and
    [expand_wire_name_to_buffer] share, the readers of uncompressed names, and
    their users in the transfer code.  The specification [decodes] says which
    labels a position of a packet denotes. *)

From S2P Require Import Prelude.
From S2P Require Import CLib.
From S2P Require Import DnsName.
From S2P Require Import NameText.

Module WireName.
Import CLib DnsName NameText.

Definition DNS_HEADER_SIZE : Z := 12.

(** ** Operations *)

(** [((raw & 0x3F) << 8) | packet[p + 1]] *)
Definition pointer_target (raw lo : Z) : Z := Z.lor (Z.shiftl (Z.land raw 63) 8) lo.

Section Walk.
Context {A : Type}.

(** What a reader does with the label of [n] octets at [p] (the root is the
    label of length 0). *)
Variable label : Z -> Z -> A -> outcome A.

(** The loop of both readers: [jumped] is the offset behind the first
    pointer, [visited] the pointer targets seen so far. *)
Fixpoint walk (fuel : nat) (packet : list Z) (packet_len p : Z) (jumped : option Z) (visited : list Z) (a : A) :
    outcome (A * Z) :=
  match fuel with
  | O => NoFuel
  | S fuel' =>
      fail_if packet_len <=? p ;;
      let! raw := rd packet p in
      let label_type := Z.land raw 192 in
      if label_type =? 192 then
        fail_if packet_len <=? p + 1 ;;
        let! lo := rd packet (p + 1) in
        let ptr := pointer_target raw lo in
        fail_if packet_len <=? ptr ;;
        let jumped := match jumped with None => Some (p + 2) | Some j => Some j end in
        fail_if bool_decide (ptr ∈ visited) ;;
        walk fuel' packet packet_len ptr jumped (ptr :: visited) a
      else if label_type =? 0 then
        fail_if 63 <? raw ;;
        let! a := label (p + 1) raw a in
        if raw =? 0 then Ret (a, match jumped with Some j => j | None => p + 1 end)
        else walk fuel' packet packet_len (p + 1 + raw) jumped visited a
      else Fail
  end.

End Walk.

(** A label moves forward, a pointer is followed once per target. *)
Definition walk_fuel (packet_len : Z) : nat := (S (Z.to_nat packet_len) * S (Z.to_nat packet_len))%nat.

(** [*next_offset] *)
Definition skip_wire_name (packet : list Z) (packet_len current_offset : Z) : outcome Z :=
  fail_if packet_len <=? current_offset ;;
  let! '(_, next_offset) :=
    walk (fun _ _ (u : unit) => Ret u) (walk_fuel packet_len) packet packet_len current_offset None [] tt in
  Ret next_offset.

(** The text written so far and [total_wire_len]. *)
Definition expand_label (packet : list Z) (packet_len buf_size : Z) (p n : Z) (s : list Z * Z) : outcome (list Z * Z) :=
  let '(buf, total_wire_len) := s in
  let total_wire_len := total_wire_len + (1 + n) in
  fail_if 255 <? total_wire_len ;;
  if n =? 0 then
    let! buf := if Nat.eqb (length buf) 0 then put buf_size buf DOT else Ret buf in
    let! buf := put buf_size buf 0 in
    Ret (buf, total_wire_len)
  else
    fail_if (packet_len <? p + n) || (buf_size <? len buf + 2) ;;
    let! octets := slice packet p n in
    let! t := dns_label_to_text octets (buf_size - len buf - 2) in
    let! buf := put_list buf_size buf t in
    let! buf := put buf_size buf DOT in
    Ret (buf, total_wire_len).

(** The text with its terminator, and [*next_offset]. *)
Definition expand_wire_name_to_buffer (packet : list Z) (packet_len current_offset buf_size : Z) : outcome (list Z * Z) :=
  fail_if (packet_len <=? current_offset) || (buf_size <? 2) ;;
  let! '(s, next_offset) :=
    walk (expand_label packet packet_len buf_size) (walk_fuel packet_len) packet packet_len current_offset None [] ([], 0) in
  Ret (fst s, next_offset).

(** Names that are not decompressed. *)
Fixpoint skip_inplace (fuel : nat) (packet : list Z) (packet_len offset : Z) : outcome Z :=
  match fuel with
  | O => NoFuel
  | S fuel' =>
      fail_if packet_len <=? offset ;;
      let! raw := rd packet offset in
      let label_type := Z.land raw 192 in
      if label_type =? 192 then
        fail_if packet_len <? offset + 2 ;; Ret (offset + 2)
      else if label_type =? 0 then
        fail_if 63 <? raw ;;
        if raw =? 0 then Ret (offset + 1) else skip_inplace fuel' packet packet_len (offset + 1 + raw)
      else Fail
  end.

Definition skip_name_inplace (packet : list Z) (packet_len offset : Z) : outcome Z :=
  skip_inplace (S (Z.to_nat (packet_len - offset))) packet packet_len offset.

Definition rd32 (buf : list Z) (i : Z) : outcome Z :=
  let! b0 := rd buf i in
  let! b1 := rd buf (i + 1) in
  let! b2 := rd buf (i + 2) in
  let! b3 := rd buf (i + 3) in
  Ret (Z.lor (Z.lor (Z.lor (Z.shiftl b0 24) (Z.shiftl b1 16)) (Z.shiftl b2 8)) b3).

(** The loop over resource records that [ixfr_request_client_serial] and
    [rrl_referral_name] share: skip [n] of them. *)
Fixpoint skip_rrs (n : nat) (req : list Z) (req_len p : Z) : outcome Z :=
  match n with
  | O => Ret p
  | S n' =>
      let! next_p := skip_wire_name req req_len p in
      fail_if req_len <? next_p + 10 ;;
      let! rdlen := rd16 req (next_p + 8) in
      let p := next_p + 10 + rdlen in
      fail_if req_len <? p ;;
      skip_rrs n' req req_len p
  end.

Definition ixfr_request_client_serial (req : list Z) (req_len q_end : Z) : outcome Z :=
  fail_if req_len <? DNS_HEADER_SIZE ;;
  let! ancount := rd16 req 6 in
  let! nscount := rd16 req 8 in
  fail_if nscount =? 0 ;;
  let! p := skip_rrs (Z.to_nat ancount) req req_len q_end in
  let! next_p := skip_wire_name req req_len p in
  fail_if req_len <? next_p + 10 ;;
  let! type := rd16 req next_p in
  let! rdlen := rd16 req (next_p + 8) in
  let p := next_p + 10 in
  fail_if negb (type =? 6) || (req_len <? p + rdlen) ;;
  let! next_p := skip_wire_name req (p + rdlen) p in
  let! rp := skip_wire_name req (p + rdlen) next_p in
  fail_if p + rdlen <? rp + 4 ;;
  rd32 req rp.

(** ** Specification *)

(** The labels that the position [p] of a packet denotes, in [n] steps. *)
Inductive decodes (packet : list Z) (packet_len : Z) : nat -> Z -> list (list Z) -> Prop :=
| decodes_root p :
    p < packet_len -> rd packet p = Ret 0 -> decodes packet packet_len 0 p []
| decodes_label n p len l ls :
    p < packet_len -> rd packet p = Ret len -> 1 <= len <= 63 -> p + 1 + len <= packet_len ->
    slice packet (p + 1) len = Ret l -> decodes packet packet_len n (p + 1 + len) ls ->
    decodes packet packet_len (S n) p (l :: ls)
| decodes_pointer n p raw lo ls :
    p + 1 < packet_len -> rd packet p = Ret raw -> Z.land raw 192 = 192 -> rd packet (p + 1) = Ret lo ->
    pointer_target raw lo < packet_len -> decodes packet packet_len n (pointer_target raw lo) ls ->
    decodes packet packet_len (S n) p ls.

(** The offset behind a name: after the first pointer or after the root. *)
Inductive name_end (packet : list Z) : Z -> Z -> Prop :=
| end_root p : rd packet p = Ret 0 -> name_end packet p (p + 1)
| end_label p len q : rd packet p = Ret len -> 1 <= len <= 63 -> name_end packet (p + 1 + len) q -> name_end packet p q
| end_pointer p raw : rd packet p = Ret raw -> Z.land raw 192 = 192 -> name_end packet p (p + 2).

(** The text the expander writes: every label followed by a dot. *)
Definition dotted (ls : list (list Z)) : list Z := concat (map (fun l => label_text l ++ [DOT]) ls).
Definition expanded (ls : list (list Z)) : list Z := match ls with [] => [DOT] | _ => dotted ls end.

(** ** Lemmas: the three kinds of length octet *)

Lemma octet_pointer raw : isbyte raw -> Z.land raw 192 = 192 <-> 192 <= raw.
Proof.
  intros Hr. assert (forallb (fun r => Bool.eqb (Z.land r 192 =? 192) (192 <=? r)) (seqZ 0 256) = true) as H by by vm_compute.
  apply (forallb_range _ 0 256 H) in Hr. apply Bool.eqb_prop in Hr. rewrite <- Z.eqb_eq, Hr. apply Z.leb_le.
Qed.

Lemma octet_label raw : isbyte raw -> Z.land raw 192 = 0 <-> raw <= 63.
Proof.
  intros Hr. assert (forallb (fun r => Bool.eqb (Z.land r 192 =? 0) (r <=? 63)) (seqZ 0 256) = true) as H by by vm_compute.
  apply (forallb_range _ 0 256 H) in Hr. apply Bool.eqb_prop in Hr. rewrite <- Z.eqb_eq, Hr. apply Z.leb_le.
Qed.

Lemma pointer_target_range raw lo : isbyte raw -> isbyte lo -> 0 <= pointer_target raw lo < 16384.
Proof.
  intros Hr Hl. unfold pointer_target. change 63 with (Z.ones 6). rewrite Z.land_ones by lia.
  pose proof (Z.mod_pos_bound raw (2 ^ 6)). rewrite Z.lor_comm, lor_shiftl_add by (unfold isbyte in *; lia).
  unfold isbyte in *. lia.
Qed.

(** ** Lemmas: the walk *)

Section WalkLemmas.
Context (packet : list Z) (packet_len : Z).
Hypothesis Hbytes : bytes packet.
Hypothesis Hlen : packet_len <= len packet.

Lemma rd_ok p : 0 <= p < packet_len -> exists b, rd packet p = Ret b /\ isbyte b.
Proof. intros Hp. destruct (rd_in packet p) as [b Hb]; [lia |]. exists b. split; [done |]. by eapply rd_byte. Qed.

(** Inversion by the octet at the position. *)
Lemma decodes_inv n p ls :
  decodes packet packet_len n p ls ->
  p < packet_len /\ exists b, rd packet p = Ret b /\ isbyte b /\
  ((b = 0 /\ n = 0%nat /\ ls = []) \/
   (1 <= b <= 63 /\ p + 1 + b <= packet_len /\ exists n' l ls', n = S n' /\ ls = l :: ls' /\
      slice packet (p + 1) b = Ret l /\ decodes packet packet_len n' (p + 1 + b) ls') \/
   (192 <= b /\ p + 1 < packet_len /\ exists n' lo, n = S n' /\ rd packet (p + 1) = Ret lo /\ isbyte lo /\
      pointer_target b lo < packet_len /\ decodes packet packet_len n' (pointer_target b lo) ls)).
Proof.
  destruct 1 as [p Hp Hr | n p k l ls Hp Hr Hk Hfit Hs Hd | n p raw lo ls Hp Hr Ht Hlo Hptr Hd];
    (split; [lia |]); pose proof (rd_byte _ _ _ Hbytes Hr) as Hb; eexists; (split; [done | split; [done |]]).
  - left. done.
  - right; left. split_and!; [lia.. |]. by exists n, l, ls.
  - right; right. apply octet_pointer in Ht; [| done]. split_and!; [lia.. |]. exists n, lo. split_and!; try done.
    by eapply rd_byte.
Qed.

Lemma decodes_det n p ls : decodes packet packet_len n p ls ->
  forall m ls', decodes packet packet_len m p ls' -> n = m /\ ls = ls'.
Proof.
  revert p ls. induction n as [| n IH]; intros p ls Hd m ls' Hd';
    apply decodes_inv in Hd as (_ & b & Hb & _ & Hd); apply decodes_inv in Hd' as (_ & b' & Hb' & _ & Hd');
    assert (b' = b) as -> by congruence.
  - destruct Hd as [(-> & _ & ->) | [(? & _ & ? & ? & ? & [=] & _) | (? & _ & ? & ? & [=] & _)]].
    destruct Hd' as [(_ & -> & ->) | [(? & _) | (? & _)]]; [done | lia | lia].
  - destruct Hd as [(_ & [=] & _) | [(Hk & _ & n1 & l & ls1 & [= <-] & -> & Hs & Hd) | (Hk & _ & n1 & lo & [= <-] & Hlo & _ & _ & Hd)]];
    destruct Hd' as [(-> & _) | [(Hk' & _ & n2 & l' & ls2 & -> & -> & Hs' & Hd') | (Hk' & _ & n2 & lo' & -> & Hlo' & _ & _ & Hd')]]; try lia.
    + destruct (IH _ _ Hd _ _ Hd') as [-> ->]. split; congruence.
    + assert (lo' = lo) as -> by congruence. by destruct (IH _ _ Hd _ _ Hd') as [-> ->].
Qed.

Section Reader.
Context {A : Type} (label : Z -> Z -> A -> outcome A) (act : list Z -> A -> outcome A).

(** A reader that looks at a label only through its octets. *)
Hypothesis label_act : forall p n a l, 1 <= n <= 63 -> p + n <= packet_len -> slice packet p n = Ret l -> label p n a = act l a.
Hypothesis label_root : forall p p' a, label p 0 a = label p' 0 a.

(** What the walk from [p] returns when [p] denotes [ls]. *)
Definition walk_result (p : Z) (ls : list (list Z)) (a : A) : outcome A := let! a := ofold act ls a in label (p + 1) 0 a.

Definition walk_next (p next : Z) (jumped : option Z) : Prop :=
  match jumped with Some j => next = j | None => name_end packet p next end.

Lemma walk_sound fuel : forall p jumped visited a a' next,
  0 <= p -> walk label fuel packet packet_len p jumped visited a = Ret (a', next) ->
  exists n ls, decodes packet packet_len n p ls /\ walk_result p ls a = Ret a' /\ walk_next p next jumped.
Proof.
  induction fuel as [| fuel IH]; intros p jumped visited a a' next Hp; [done |]. cbn [walk].
  case_if; [done |]. destruct (rd_ok p) as (raw & Hraw & Hb); [len_lia |]. rewrite Hraw. cbn [obind].
  destruct (Z.eqb_spec (Z.land raw 192) 192) as [Ep | Ep].
  - case_if; [done |]. destruct (rd_ok (p + 1)) as (lo & Hlo & Hblo); [len_lia |]. rewrite Hlo. cbn [obind].
    pose proof (pointer_target_range raw lo Hb Hblo) as Hpt. case_if; [done |]. case_if; [done |]. cmp_prop.
    intros (n & ls & Hd & Hres & Hnext)%IH; [| lia]. exists (S n), ls. split_and!.
    + by eapply decodes_pointer.
    + unfold walk_result in *. destruct (ofold act ls a); cbn in *; try done. by rewrite (label_root _ (pointer_target raw lo + 1)).
    + destruct jumped; [done |]. cbn in *. subst. by eapply end_pointer.
  - destruct (Z.eqb_spec (Z.land raw 192) 0) as [El | El]; [| done]. apply octet_label in El; [| done].
    case_if; [done |]. destruct (Z.eqb_spec raw 0) as [-> | Hne].
    + intros H. bind_inv H. injection H as <- <-. exists 0%nat, []. split_and!.
      * apply decodes_root; [len_lia | done].
      * done.
      * destruct jumped; [done |]. by apply end_root.
    + intros H. bind_inv H. unfold isbyte in Hb. apply IH in H as (n & ls & Hd & Hres & Hnext); [| lia].
      assert (p + 1 + raw < packet_len) as Hfit by (by apply decodes_inv in Hd as [? _]).
      assert (exists l, slice packet (p + 1) raw = Ret l) as [l Hs] by (rewrite slice_in by len_lia; eauto).
      exists (S n), (l :: ls). split_and!.
      * eapply decodes_label; try done; lia || len_lia.
      * unfold walk_result in *. cbn [ofold]. rewrite <- (label_act (p + 1) raw) by (done || lia). rewrite Ha. cbn [obind].
        destruct (ofold act ls a0); cbn in *; try done. by rewrite (label_root _ (p + 1 + raw + 1)).
      * destruct jumped; [done |]. eapply end_label; [done | lia | done].
Qed.

(** A name whose walk terminates is never mistaken for a loop. *)
Lemma walk_complete n : forall fuel p jumped visited a ls,
  0 <= p -> decodes packet packet_len n p ls ->
  Forall (fun v => exists m lsv, decodes packet packet_len m v lsv /\ (n <= m)%nat) visited ->
  walk label fuel packet packet_len p jumped visited a <> NoFuel ->
  (forall a', walk_result p ls a = Ret a' -> exists next, walk label fuel packet packet_len p jumped visited a = Ret (a', next)).
Proof.
  induction n as [n IH] using lt_wf_ind. intros fuel p jumped visited a ls Hp Hd Hv Hnf a' Hres.
  destruct fuel as [| fuel]; [done |]. cbn [walk] in *.
  pose proof Hd as Hd0. apply decodes_inv in Hd as (Hlt & b & Hb & Hbb & Hd).
  rewrite (proj2 (Z.leb_gt _ _)) in * by done. rewrite Hb in *. cbn [obind] in *.
  destruct Hd as [(-> & -> & ->) | [(Hk & Hfit & n' & l & ls' & -> & -> & Hs & Hd) | (Hk & Hlt1 & n' & lo & -> & Hlo & Hlob & Hpt & Hd)]].
  - change (Z.land 0 192 =? 192) with false in *. change (Z.land 0 192 =? 0) with true in *. change (63 <? 0) with false in *.
    cbn [Z.eqb] in *. cbn in Hres. rewrite Hres in *. by eexists.
  - rewrite (proj2 (Z.eqb_neq _ 192)) in * by (intros E; apply octet_pointer in E; [lia | done]).
    rewrite (proj2 (Z.eqb_eq _ 0)) in * by (apply octet_label; [done | lia]).
    rewrite (proj2 (Z.ltb_ge _ _)) in * by lia. rewrite (proj2 (Z.eqb_neq b 0)) in * by lia.
    unfold walk_result in Hres. cbn [ofold] in Hres. rewrite (label_act (p + 1) b a l) in * by (done || lia).
    destruct (act l a) as [a1 | | |]; try done. cbn [obind] in *.
    apply (IH n' ltac:(lia) fuel (p + 1 + b) jumped visited a1 ls'); try done; [lia | |].
    + eapply Forall_impl; [done |]. cbn. intros v (m & lsv & ? & ?). exists m, lsv. split; [done | lia].
    + unfold walk_result. destruct (ofold act ls' a1); cbn in *; try done. by rewrite (label_root _ (p + 1)).
  - rewrite (proj2 (Z.eqb_eq _ 192)) in * by (by apply octet_pointer).
    rewrite (proj2 (Z.leb_gt _ (p + 1))) in * by lia. rewrite Hlo in *. cbn [obind] in *.
    rewrite (proj2 (Z.leb_gt _ (pointer_target b lo))) in * by lia.
    rewrite bool_decide_false in *.
    2, 3: (intros Hin; rewrite Forall_forall in Hv; destruct (Hv _ Hin) as (m & lsv & Hm & Hle);
           destruct (decodes_det _ _ _ Hd _ _ Hm); lia).
    apply (IH n' ltac:(lia) fuel (pointer_target b lo) _ _ a ls); try done.
    + by apply pointer_target_range.
    + constructor; [by exists n', ls |]. eapply Forall_impl; [done |]. cbn. intros v (m & lsv & ? & ?). exists m, lsv. split; [done | lia].
    + unfold walk_result in *. destruct (ofold act ls a); cbn in *; try done. by rewrite (label_root _ (p + 1)).
Qed.

(** The walk stays inside the packet and terminates. *)
Context (Inv : A -> Prop).
Hypothesis label_safe : forall p n a, 0 <= p -> isbyte n -> Inv a ->
  label p n a = Fail \/ exists a', label p n a = Ret a' /\ (n <> 0 -> Inv a').

Lemma visited_bound visited :
  NoDup visited -> Forall (fun v => 0 <= v < packet_len) visited -> (length visited <= Z.to_nat packet_len)%nat.
Proof.
  intros Hnd Hv. rewrite <- (length_seqZ 0 packet_len). apply submseteq_length, NoDup_submseteq; [done |].
  intros x Hx. rewrite Forall_forall in Hv. apply elem_of_seqZ. specialize (Hv x Hx). lia.
Qed.

Lemma walk_defined fuel : forall p jumped visited a,
  0 <= p -> Inv a -> NoDup visited -> Forall (fun v => 0 <= v < packet_len) visited ->
  ((Z.to_nat packet_len - length visited) * S (Z.to_nat packet_len) + Z.to_nat (packet_len - p) < fuel)%nat ->
  defined (walk label fuel packet packet_len p jumped visited a).
Proof.
  induction fuel as [| fuel IH]; intros p jumped visited a Hp Ha Hnd Hv Hf; [by apply Nat.nlt_0_r in Hf |]. cbn [walk].
  case_if; [apply defined_Fail |]. destruct (rd_ok p) as (raw & Hraw & Hb); [len_lia |]. rewrite Hraw. cbn [obind].
  case_if.
  - case_if; [apply defined_Fail |]. destruct (rd_ok (p + 1)) as (lo & Hlo & Hblo); [len_lia |]. rewrite Hlo. cbn [obind].
    pose proof (pointer_target_range raw lo Hb Hblo) as Hpt. case_if; [apply defined_Fail |].
    case_bool_decide as Hin; [apply defined_Fail |].
    assert (NoDup (pointer_target raw lo :: visited)) as Hnd' by (by constructor).
    assert (Forall (fun v => 0 <= v < packet_len) (pointer_target raw lo :: visited)) as Hv' by (constructor; [len_lia | done]).
    pose proof (visited_bound _ Hnd' Hv') as Hb'. apply IH; [lia | done.. |]. cbn [length] in *. cmp_prop. nia.
  - case_if; [| apply defined_Fail]. case_if; [apply defined_Fail |].
    destruct (label_safe (p + 1) raw a) as [-> | (a' & -> & Ha')]; [lia | done | done | apply defined_Fail |]. cbn [obind].
    case_if; [apply defined_Ret |]. unfold isbyte in Hb. cmp_prop. apply IH; [lia | by apply Ha' | done | done | lia].
Qed.

Lemma walk_fuel_defined p a :
  0 <= p < packet_len -> Inv a -> defined (walk label (walk_fuel packet_len) packet packet_len p None [] a).
Proof.
  intros Hp Ha. apply walk_defined; [lia | done | apply NoDup_nil_2 | apply Forall_nil_2 |]. unfold walk_fuel. cbn [length]. nia.
Qed.

End Reader.
Lemma name_end_det p q q' : name_end packet p q -> name_end packet p q' -> q = q'.
Proof.
  intros H. revert q'.
  induction H as [p Hr | p k q Hr Hk H IH | p raw Hr Ht]; intros q' H'; destruct H' as [p Hr' | p k' q' Hr' Hk' H' | p raw' Hr' Ht'];
    rewrite Hr in Hr'; simplify_eq; try done; try lia.
  - by apply IH.
  - pose proof (rd_byte _ _ _ Hbytes Hr) as Hb. apply octet_pointer in Ht'; [lia | done].
  - pose proof (rd_byte _ _ _ Hbytes Hr) as Hb. apply octet_pointer in Ht; [lia | done].
Qed.

(** *** [skip_wire_name] *)

Lemma skip_defined off : 0 <= off -> defined (skip_wire_name packet packet_len off).
Proof.
  intros Ho. unfold skip_wire_name. case_if; [apply defined_Fail |]. apply obind_defined; [| intros [? ?] _; apply defined_Ret].
  apply (walk_fuel_defined _ (fun _ => True)); [| len_lia | done]. intros p n [] _ _ _. right. by exists tt.
Qed.

Lemma skip_sound off next :
  0 <= off -> skip_wire_name packet packet_len off = Ret next ->
  (exists n ls, decodes packet packet_len n off ls) /\ name_end packet off next.
Proof.
  intros Ho. unfold skip_wire_name. case_if; [done |]. intros H. bind_inv H. destruct a as [[] nx]. injection H as ->.
  apply (walk_sound (fun _ _ u => Ret u) (fun _ u => Ret u)) in Ha as (n & ls & Hd & _ & Hn); [| done.. |done].
  split; [by exists n, ls | done].
Qed.

Lemma skip_complete off n ls : 0 <= off -> decodes packet packet_len n off ls -> exists next, skip_wire_name packet packet_len off = Ret next.
Proof.
  intros Ho Hd. pose proof (skip_defined off Ho) as [_ Hnf]. unfold skip_wire_name in *.
  assert (off < packet_len) as Hlt by (by apply decodes_inv in Hd as [? _]).
  rewrite (proj2 (Z.leb_gt _ _)) in * by done.
  destruct (walk_complete (fun _ _ (u : unit) => Ret u) (fun _ u => Ret u) ltac:(done) ltac:(done) n (walk_fuel packet_len) off None [] tt ls)
    with (a' := tt) as (next & Hw); [done | done | apply Forall_nil_2 | | | by exists next; rewrite Hw].
  - intros E. by rewrite E in Hnf.
  - unfold walk_result. clear. induction ls as [| l ls IH]; [done | apply IH].
Qed.

(** *** [expand_wire_name_to_buffer] *)

Definition expand_act (buf_size : Z) (l : list Z) (s : list Z * Z) : outcome (list Z * Z) :=
  let '(buf, total) := s in
  fail_if 255 <? total + (1 + len l) ;;
  fail_if buf_size <? len buf + 2 ;;
  let! t := dns_label_to_text l (buf_size - len buf - 2) in
  let! buf := put_list buf_size buf t in
  let! buf := put buf_size buf DOT in
  Ret (buf, total + (1 + len l)).

Lemma expand_label_act buf_size p n s l :
  1 <= n <= 63 -> p + n <= packet_len -> slice packet p n = Ret l ->
  expand_label packet packet_len buf_size p n s = expand_act buf_size l s.
Proof.
  intros Hn Hp Hs. assert (len l = n) as Hl.
  { unfold slice in Hs. case_if_in Hs; [| done]. injection Hs as <-. rewrite length_take, length_drop. len_lia. }
  unfold expand_label, expand_act. destruct s as [buf total]. rewrite Hl. case_if; [done |].
  rewrite (proj2 (Z.eqb_neq n 0)) by lia. rewrite (proj2 (Z.ltb_ge packet_len _)) by lia. cbn [orb]. by rewrite Hs.
Qed.

(** The loop keeps room for the terminator. *)
Lemma expand_label_safe buf_size p n s :
  2 <= buf_size -> 0 <= p -> isbyte n -> len (fst s) + 1 <= buf_size ->
  expand_label packet packet_len buf_size p n s = Fail \/
  exists s', expand_label packet packet_len buf_size p n s = Ret s' /\ (n <> 0 -> len (fst s') + 1 <= buf_size).
Proof.
  intros Hsz Hp Hn Hs. unfold expand_label, isbyte in *. destruct s as [buf total]. cbn [fst] in Hs. case_if; [by left |].
  case_if.
  - right. destruct buf as [| b0 buf]; cbn [length Nat.eqb].
    + rewrite put_in by len_lia. cbn [obind app]. rewrite put_in by len_lia. eexists. split; [done |]. len_lia.
    + cbn [obind]. rewrite put_in by len_lia. eexists. split; [done |]. len_lia.
  - case_if; [by left |]. cmp_prop. rewrite slice_in by lia. cbn [obind]. rewrite dns_label_to_text_spec by lia.
    case_if; [| by left]. cmp_prop. cbn [obind]. rewrite put_list_in by lia. cbn [obind].
    rewrite put_in by (rewrite length_app; lia). right. eexists. split; [done |]. cbn [fst]. rewrite !length_app. len_lia.
Qed.

Lemma expand_defined off buf_size : 0 <= off -> defined (expand_wire_name_to_buffer packet packet_len off buf_size).
Proof.
  intros Ho. unfold expand_wire_name_to_buffer. case_if; [apply defined_Fail |]. cmp_prop.
  apply obind_defined; [| intros [? ?] _; apply defined_Ret].
  apply (walk_fuel_defined _ (fun s => len (fst s) + 1 <= buf_size)); [| lia | cbn; lia].
  intros p n a Hp Hn Ha. by apply expand_label_safe.
Qed.

Lemma length_dotted ls : len (dotted ls) <= 4 * len (wire_labels ls).
Proof.
  induction ls as [| l ls IH]; [done |]. unfold dotted in *. cbn [map concat]. rewrite wire_labels_cons, !length_app. cbn [length].
  rewrite length_app. pose proof (length_label_text l). lia.
Qed.

Lemma dotted_app a b : dotted (a ++ b) = dotted a ++ dotted b.
Proof. unfold dotted. by rewrite map_app, concat_app. Qed.

(** With a standard buffer only the 255-octet limit can refuse a label. *)
Lemma expand_fold buf_size ls : forall pre,
  DNS_NAME_TEXT_SIZE <= buf_size -> len (wire_labels pre) <= 255 ->
  ofold (expand_act buf_size) ls (dotted pre, len (wire_labels pre)) =
  (if len (wire_labels (pre ++ ls)) <=? 255 then Ret (dotted (pre ++ ls), len (wire_labels (pre ++ ls))) else Fail).
Proof.
  unfold DNS_NAME_TEXT_SIZE. induction ls as [| l ls IH]; intros pre Hsz Hpre; cbn [ofold].
  { rewrite app_nil_r. by rewrite (proj2 (Z.leb_le _ _)) by done. }
  assert (len (wire_labels (pre ++ [l])) = len (wire_labels pre) + (1 + len l)) as Hl.
  { rewrite wire_labels_app, length_app. change (wire_labels [l]) with (len l :: l ++ []). rewrite app_nil_r. len_lia. }
  assert (len (wire_labels (pre ++ l :: ls)) = len (wire_labels (pre ++ [l])) + len (wire_labels ls)) as Hall.
  { change (l :: ls) with ([l] ++ ls). rewrite app_assoc, wire_labels_app, length_app. lia. }
  unfold expand_act at 1. rewrite <- Hl. case_if.
  { cbn [obind]. case_if; [ex_lia | done]. }
  pose proof (length_dotted pre). pose proof (length_label_text l). case_if; [ex_lia |]. cmp_prop.
  rewrite dns_label_to_text_spec by lia. case_if; [| ex_lia]. cbn [obind]. rewrite put_list_in by lia. cbn [obind].
  rewrite put_in by (rewrite length_app; lia). cbn [obind].
  assert ((dotted pre ++ label_text l) ++ [DOT] = dotted (pre ++ [l])) as ->
    by (rewrite dotted_app, <- app_assoc; unfold dotted; cbn; by rewrite app_nil_r).
  rewrite IH by lia. by rewrite <- app_assoc.
Qed.

Lemma expand_result buf_size p ls :
  DNS_NAME_TEXT_SIZE <= buf_size ->
  walk_result (expand_label packet packet_len buf_size) (expand_act buf_size) p ls ([], 0) =
  (if len (wire_name ls) <=? 255 then Ret (expanded ls ++ [0], len (wire_name ls)) else Fail).
Proof.
  intros Hsz. unfold walk_result. change (@nil Z, 0) with (dotted [], len (wire_labels [])). rewrite expand_fold by done.
  cbn [app]. unfold wire_name. rewrite length_app. cbn [length]. case_if; cbn [obind].
  2: { case_if; [ex_lia | done]. }
  unfold expand_label. rewrite Z.add_0_r.
  destruct (255 <? len (wire_labels ls) + 1) eqn:E1, (Z.of_nat (length (wire_labels ls) + 1) <=? 255) eqn:E2; try ex_lia; [done |].
  pose proof (length_dotted ls). unfold DNS_NAME_TEXT_SIZE in *. cbn [Z.eqb]. unfold expanded.
  destruct ls as [| l ls].
  - change (dotted []) with (@nil Z). cbn [length Nat.eqb]. rewrite put_in by len_lia. cbn [obind app]. rewrite put_in by len_lia. done.
  - assert (dotted (l :: ls) <> []) as Hne by (unfold dotted; cbn; by destruct (label_text l)).
    destruct (Nat.eqb_spec (length (dotted (l :: ls))) 0) as [En | En]; [by apply nil_length_inv in En |].
    cbn [obind]. rewrite put_in by len_lia. cbn [obind]. do 2 f_equal. lia.
Qed.

Lemma expand_spec off buf_size t next :
  0 <= off -> DNS_NAME_TEXT_SIZE <= buf_size ->
  expand_wire_name_to_buffer packet packet_len off buf_size = Ret (t, next) <->
  exists n ls, decodes packet packet_len n off ls /\ len (wire_name ls) <= 255 /\ t = expanded ls ++ [0] /\ name_end packet off next.
Proof.
  intros Ho Hsz. pose proof (expand_defined off buf_size Ho) as [_ Hnf]. unfold expand_wire_name_to_buffer in *.
  assert ((buf_size <? 2) = false) as E2 by (unfold DNS_NAME_TEXT_SIZE in Hsz; lia). rewrite E2, orb_false_r in *. split.
  - case_if; [done |]. intros H. bind_inv H. destruct a as [s nx]. injection H as <- ->.
    apply (walk_sound _ (expand_act buf_size)) in Ha as (n & ls & Hd & Hres & Hn); [| | done | done].
    2: { intros. by apply expand_label_act. }
    rewrite expand_result in Hres by done. case_if_in Hres; [| done]. injection Hres as <-. cmp_prop. by exists n, ls.
  - intros (n & ls & Hd & H255 & -> & Hn). assert (off < packet_len) as Hlt by (by apply decodes_inv in Hd as [? _]).
    rewrite (proj2 (Z.leb_gt _ _)) in * by done.
    destruct (walk_complete (expand_label packet packet_len buf_size) (expand_act buf_size)) with (n := n) (fuel := walk_fuel packet_len)
      (p := off) (jumped := @None Z) (visited := @nil Z) (a := (@nil Z, 0)) (ls := ls) (a' := (expanded ls ++ [0], len (wire_name ls)))
      as (next' & Hw); [| done | done | done | apply Forall_nil_2 | | |].
    + intros. by apply expand_label_act.
    + intros E. by rewrite E in Hnf.
    + rewrite expand_result by done. by rewrite (proj2 (Z.leb_le _ _)).
    + rewrite Hw. cbn. do 2 f_equal.
      apply (walk_sound _ (expand_act buf_size)) in Hw as (? & ? & _ & _ & Hn'); [| | done | done].
      * by eapply name_end_det.
      * intros. by apply expand_label_act.
Qed.

Lemma decodes_wf n p ls : 0 <= p -> decodes packet packet_len n p ls -> Forall label_wf ls.
Proof.
  revert p ls. induction n as [| n IH]; intros p ls Hp Hd; apply decodes_inv in Hd as (_ & b & _ & Hb & Hd).
  - destruct Hd as [(_ & _ & ->) | [(_ & _ & ? & ? & ? & [=] & _) | (_ & _ & ? & ? & [=] & _)]]. constructor.
  - destruct Hd as [(_ & [=] & _) | [(Hk & Hf & n' & l & ls' & [= <-] & -> & Hs & Hd) | (_ & _ & n' & lo & [= <-] & _ & Hlo & _ & Hd)]].
    + constructor; [| apply IH in Hd; [done | lia]]. rewrite slice_in in Hs by lia. injection Hs as <-.
      split; [by apply Forall_take, Forall_drop |]. rewrite length_take, length_drop. lia.
    + apply IH in Hd; [done |]. by apply pointer_target_range.
Qed.

(** *** Users of the readers *)

Lemma rd16_ok p : 0 <= p -> p + 1 < packet_len -> exists v, rd16 packet p = Ret v /\ 0 <= v < 65536.
Proof.
  intros Hp Hl. unfold rd16. destruct (rd_ok p) as (hi & -> & Hhi); [lia |]. destruct (rd_ok (p + 1)) as (lo & -> & Hlo); [lia |].
  cbn [obind]. eexists. split; [done |]. unfold isbyte in *. rewrite Z.lor_comm, lor_shiftl_add by lia. lia.
Qed.

Lemma skip_next off next : 0 <= off -> skip_wire_name packet packet_len off = Ret next -> off < next.
Proof.
  intros Ho H. apply skip_sound in H as [_ H]; [| done].
  induction H as [p Hr | p k q Hr Hk H IH | p raw Hr Ht]; [lia | | lia]. assert (p + 1 + k < q) by (apply IH; lia). lia.
Qed.

Lemma skip_rrs_spec n : forall p, 0 <= p ->
  defined (skip_rrs n packet packet_len p) /\ forall q, skip_rrs n packet packet_len p = Ret q -> 0 <= q.
Proof.
  induction n as [| n IH]; intros p Hp; cbn [skip_rrs]; [split; [apply defined_Ret | by intros q [= <-]] |].
  destruct (skip_defined p Hp) as [Hd1 Hd2].
  destruct (skip_wire_name packet packet_len p) as [next | | |] eqn:Es; try done; cbn [obind].
  apply skip_next in Es; [| done]. case_if; [split; [apply defined_Fail | done] |]. cmp_prop.
  destruct (rd16_ok (next + 8)) as (v & -> & Hv); [lia | lia |]. cbn [obind].
  case_if; [split; [apply defined_Fail | done] |]. apply IH. lia.
Qed.

End WalkLemmas.

Lemma ixfr_serial_defined req req_len q_end :
  bytes req -> req_len <= len req -> 0 <= q_end -> defined (ixfr_request_client_serial req req_len q_end).
Proof.
  intros Hb Hl Hq. unfold ixfr_request_client_serial, DNS_HEADER_SIZE. case_if; [apply defined_Fail |]. cmp_prop.
  destruct (rd16_ok req req_len Hb Hl 6) as (an & -> & Han); [lia | lia |]. cbn [obind].
  destruct (rd16_ok req req_len Hb Hl 8) as (ns & -> & Hns); [lia | lia |]. cbn [obind].
  case_if; [apply defined_Fail |]. destruct (skip_rrs_spec req req_len Hb Hl (Z.to_nat an) q_end Hq) as [Hd Hpos].
  apply obind_defined; [done |]. intros p Hp%Hpos. apply obind_defined; [by apply skip_defined |].
  intros next Hn. apply (skip_next req req_len Hb Hl) in Hn; [| done]. case_if; [apply defined_Fail |]. cmp_prop.
  destruct (rd16_ok req req_len Hb Hl next) as (ty & -> & Hty); [lia | lia |]. cbn [obind].
  destruct (rd16_ok req req_len Hb Hl (next + 8)) as (rdlen & -> & Hrd); [lia | lia |]. cbn [obind].
  case_if; [apply defined_Fail |]. cmp_prop. set (e := next + 10 + rdlen) in *. assert (e <= len req) as He by lia.
  apply obind_defined; [apply skip_defined; [done.. | lia] |]. intros n1 Hn1. apply (skip_next req e Hb He) in Hn1; [| lia].
  apply obind_defined; [apply skip_defined; [done.. | lia] |]. intros rp Hrp. apply (skip_next req e Hb He) in Hrp; [| lia].
  case_if; [apply defined_Fail |]. cmp_prop. unfold rd32.
  repeat (apply obind_defined; [apply rd_defined; lia |]; intros ? _). apply defined_Ret.
Qed.

(** ** Octets *)

Lemma wire_name_bytes ls : Forall label_wf ls -> bytes (wire_name ls).
Proof.
  intros Hls. unfold wire_name. apply Forall_app. split; [| by constructor; [unfold isbyte; lia |]].
  induction Hls as [| l ls [Hb Hl] Hls IH]; [constructor |]. rewrite wire_labels_cons. constructor; [unfold isbyte; lia |].
  by apply Forall_app.
Qed.

Lemma escape_bytes c : isbyte c -> bytes (escape c).
Proof.
  intros Hc. assert (forallb (fun c => forallb (fun b => (0 <=? b) && (b <? 256)) (escape c)) (seqZ 0 256) = true) as H by by vm_compute.
  apply (forallb_range _ 0 256 H) in Hc. by apply bytes_check.
Qed.

Lemma label_text_bytes l : bytes l -> bytes (label_text l).
Proof. intros Hb. unfold label_text. apply Forall_concat, Forall_map. eapply Forall_impl; [done | apply escape_bytes]. Qed.

Lemma expanded_bytes ls : Forall label_wf ls -> bytes (expanded ls).
Proof.
  intros Hls. unfold expanded. destruct ls as [| l0 ls0]; [bytes_lit |]. unfold dotted. apply Forall_concat, Forall_map.
  eapply Forall_impl; [done |]. intros l [Hb _]. apply Forall_app. split; [by apply label_text_bytes | bytes_lit].
Qed.

Lemma bytes_splice buf i src : bytes buf -> bytes src -> bytes (splice buf i src).
Proof. intros. unfold splice. repeat (apply Forall_app; split); auto using Forall_take, Forall_drop. Qed.

(** ** A name written without compression is read back *)

Lemma wire_decodes ls : forall packet packet_len off rest,
  0 <= off -> drop (Z.to_nat off) packet = wire_name ls ++ rest -> packet_len <= len packet ->
  off + len (wire_name ls) <= packet_len -> Forall label_wf ls ->
  decodes packet packet_len (length ls) off ls /\ name_end packet off (off + len (wire_name ls)).
Proof.
  induction ls as [| l ls IH]; intros packet packet_len off rest Ho Hd Hl Hfit Hls.
  - change (wire_name []) with [0] in *. assert (rd packet off = Ret 0) as Hr.
    { rewrite <- (Z.add_0_r off), rd_drop by lia. by rewrite Hd. }
    split; [apply decodes_root; [len_lia | done] | by apply end_root].
  - apply Forall_cons_1 in Hls as [[Hb Hn] Hls].
    assert (wire_name (l :: ls) = [len l] ++ l ++ wire_name ls) as Hw by (unfold wire_name; rewrite wire_labels_cons; cbn [app]; by rewrite <- app_assoc).
    rewrite Hw in *. rewrite !length_app in Hfit. cbn [length] in Hfit.
    assert (rd packet off = Ret (len l)) as Hr.
    { rewrite <- (Z.add_0_r off), rd_drop by lia. by rewrite Hd. }
    assert (drop (Z.to_nat (off + 1)) packet = l ++ wire_name ls ++ rest) as Hd1.
    { rewrite Z2Nat.inj_add, <- drop_drop, Hd by lia. by rewrite <- !app_assoc. }
    assert (slice packet (off + 1) (len l) = Ret l) as Hs.
    { rewrite slice_in by len_lia. by rewrite Hd1, Nat2Z.id, take_app_length. }
    assert (drop (Z.to_nat (off + 1 + len l)) packet = wire_name ls ++ rest) as Hd2.
    { rewrite Z2Nat.inj_add, Nat2Z.id, <- drop_drop, Hd1 by lia. by rewrite drop_app_length. }
    destruct (IH packet packet_len (off + 1 + len l) rest) as [IH1 IH2]; [lia | done | done | len_lia | done |].
    split.
    + cbn [length]. eapply decodes_label; try done; len_lia.
    + eapply end_label; [done | done |]. rewrite !length_app. cbn [length].
      by replace (off + Z.of_nat (1 + (length l + length (wire_name ls)))) with (off + 1 + len l + len (wire_name ls)) by lia.
Qed.

Lemma expanded_render ls : expanded ls = match ls with [] => render [[]; []] | _ => render (ls ++ [[]]) end.
Proof.
  destruct ls as [| l ls]; [done |]. unfold expanded. revert l. induction ls as [| l' ls IH]; intros l.
  - unfold dotted. cbn. by rewrite app_nil_r.
  - cbn [app] in *. rewrite render_cons, <- IH. unfold dotted. cbn [map concat]. by rewrite <- app_assoc.
Qed.

Lemma text_labels_expanded ls :
  Forall label_wf ls -> exists raw, text_labels (expanded ls) = Ret raw /\ List.filter nonempty raw = ls.
Proof.
  intros Hls. assert (List.filter nonempty ls = ls) as Hf.
  { induction Hls as [| l ls [_ Hl] Hls IH]; [done |]. cbn. unfold nonempty at 1. case_if; [by f_equal | ex_lia]. }
  rewrite expanded_render. destruct ls as [| l ls]; [by exists [[]; []] |]. exists ((l :: ls) ++ [[]]). split.
  - apply text_labels_render; [done |]. apply Forall_app. split; [| by constructor; [split; [constructor | len_lia] |]].
    eapply Forall_impl; [done |]. intros x [? ?]. split; [done | lia].
  - rewrite List.filter_app, Hf. cbn. by rewrite app_nil_r.
Qed.

(** ** Properties *)

(** C14. For every packet, whatever an attacker put into it, and every offset
    and buffer size, reading a name terminates and touches neither an octet
    outside the packet nor one outside the buffer: a chain of compression
    pointers cannot loop.  The same holds for finding the serial in an IXFR
    request. *)
Theorem wire_name_readers_safe (packet : list Z) (packet_len off buf_size : Z) :
  bytes packet -> packet_len <= len packet -> 0 <= off ->
  defined (skip_wire_name packet packet_len off) /\
  defined (expand_wire_name_to_buffer packet packet_len off buf_size) /\
  defined (ixfr_request_client_serial packet packet_len off).
Proof.
  intros Hb Hl Ho. split_and!; [by apply skip_defined | by apply expand_defined | by apply ixfr_serial_defined].
Qed.

(** Two names, the second a pointer into the first, and a pointer to itself. *)
Definition ex_packet : list Z := [3; 119; 119; 119; 2; 46; 88; 0; 1; 97; 192; 4; 192; 12].

Lemma wire_name_readers_safe_witness :
  defined (skip_wire_name ex_packet 14 12) /\ defined (expand_wire_name_to_buffer ex_packet 14 12 1025) /\
  defined (ixfr_request_client_serial ex_packet 14 12).
Proof. apply (wire_name_readers_safe ex_packet 14 12 1025); [bytes_lit | vm_compute; congruence | lia]. Defined.

(** C15. [expand_wire_name_to_buffer] with a standard buffer succeeds exactly
    when the position denotes a name of at most 255 octets, and then gives
    the canonical text of its labels, each followed by a dot, and the offset
    behind the name in the packet; [skip_wire_name] succeeds exactly when the
    position denotes a name, with the same offset.  In particular a name that
    uses pointers without a loop is never refused. *)
Theorem wire_name_readers_correct (packet : list Z) (packet_len off next : Z) (t : list Z) :
  bytes packet -> packet_len <= len packet -> 0 <= off ->
  (expand_wire_name_to_buffer packet packet_len off DNS_NAME_TEXT_SIZE = Ret (t, next) <->
   exists n ls, decodes packet packet_len n off ls /\ len (wire_name ls) <= 255 /\ t = expanded ls ++ [0] /\ name_end packet off next) /\
  (skip_wire_name packet packet_len off = Ret next <->
   (exists n ls, decodes packet packet_len n off ls) /\ name_end packet off next).
Proof.
  intros Hb Hl Ho. split; [by apply expand_spec |]. split; [by apply skip_sound |]. intros [(n & ls & Hd) Hn].
  destruct (skip_complete packet packet_len Hb Hl off n ls Ho Hd) as (next' & Hs). rewrite Hs. f_equal.
  apply skip_sound in Hs as [_ Hn']; [| done..]. by eapply name_end_det.
Qed.

Lemma wire_name_readers_correct_witness :
  expand_wire_name_to_buffer ex_packet 14 8 DNS_NAME_TEXT_SIZE = Ret (str "a.\.X." ++ [0], 12) /\
  exists n ls, decodes ex_packet 14 n 8 ls /\ len (wire_name ls) <= 255 /\ str "a.\.X." ++ [0] = expanded ls ++ [0] /\ name_end ex_packet 8 12.
Proof.
  assert (expand_wire_name_to_buffer ex_packet 14 8 DNS_NAME_TEXT_SIZE = Ret (str "a.\.X." ++ [0], 12)) as H by by vm_compute.
  split; [exact H |]. apply (wire_name_readers_correct ex_packet 14 8 12 (str "a.\.X." ++ [0])); [bytes_lit | vm_compute; congruence | lia | exact H].
Defined.

(** Round trip through text: a name read from a packet and written
    again without compression gives the wire form of the same labels, and
    reading that gives the same text.  So no distinction between names is
    lost in the text form the server works with. *)
Theorem wire_text_wire_roundtrip (packet : list Z) (packet_len off next : Z) (t : list Z) (buf : list Z) (max_len : Z) :
  bytes packet -> packet_len <= len packet -> 0 <= off -> bytes buf -> max_len <= len buf -> 255 <= max_len ->
  expand_wire_name_to_buffer packet packet_len off DNS_NAME_TEXT_SIZE = Ret (t ++ [0], next) ->
  exists n ls buf',
    decodes packet packet_len n off ls /\
    write_uncompressed_name_ext buf 0 max_len t false = Ret (buf', len (wire_name ls)) /\
    take (length (wire_name ls)) buf' = wire_name ls /\
    expand_wire_name_to_buffer buf' max_len 0 DNS_NAME_TEXT_SIZE = Ret (t ++ [0], len (wire_name ls)).
Proof.
  intros Hb Hl Ho Hbuf Hm H255 He. apply expand_spec in He as (n & ls & Hd & Hw & Ht & _); [| done..].
  apply app_inj_tail in Ht as [-> _]. pose proof (decodes_wf packet packet_len Hb Hl n off ls Ho Hd) as Hls.
  destruct (text_labels_expanded ls Hls) as (raw & Hraw & Hf).
  assert (written_labels false raw = ls) as Hwr by (unfold written_labels; rewrite Hf; apply map_id).
  assert (bytes (wire_name ls)) as Hbw by (by apply wire_name_bytes).
  exists n, ls, (splice buf 0 (wire_name ls)).
  assert (drop (Z.to_nat 0) (splice buf 0 (wire_name ls)) = wire_name ls ++ drop (0 + length (wire_name ls)) buf) as Hdrop
    by (by rewrite drop_splice by len_lia).
  split_and!; [done | | |].
  - rewrite write_uncompressed_spec; [| by apply expanded_bytes | lia | done]. rewrite Hraw, Hwr. cbn zeta. case_if; [done | ex_lia].
  - rewrite drop_0 in Hdrop. by rewrite Hdrop, take_app_length.
  - assert (len (splice buf 0 (wire_name ls)) = len buf) as Hls' by (rewrite length_splice; len_lia).
    destruct (wire_decodes ls (splice buf 0 (wire_name ls)) max_len 0 (drop (0 + length (wire_name ls)) buf)) as [Hd' Hn'];
      [lia | done | lia | lia | done |].
    apply expand_spec; [by apply bytes_splice | lia | lia | done |]. exists (length ls), ls. split_and!; try done.
Qed.

Lemma wire_text_wire_roundtrip_witness :
  let t := str "a.\.X." in let buf := replicate 300 0 in
  exists n ls buf',
    decodes ex_packet 14 n 8 ls /\
    write_uncompressed_name_ext buf 0 300 t false = Ret (buf', len (wire_name ls)) /\
    take (length (wire_name ls)) buf' = wire_name ls /\
    expand_wire_name_to_buffer buf' 300 0 DNS_NAME_TEXT_SIZE = Ret (t ++ [0], len (wire_name ls)).
Proof.
  intros t buf. apply (wire_text_wire_roundtrip ex_packet 14 8 12 t buf 300);
    [bytes_lit | vm_compute; congruence | lia | bytes_lit | vm_compute; congruence | lia | by vm_compute].
Defined.

End WireName.
