(* ===== verification/Compress.v ===== *)
(** * Name compression (src/dns_wire.c)

    [compress_name] writes a name into a response, replacing the longest
    suffix it finds in its hash table by a pointer.  The table maps hashes of
    suffixes to offsets of the packet; entries of an older generation are
    free.  The theorems read the result with the specification [decodes] of
    the readers. *)

From S2P Require Import Prelude.
From S2P Require Import CLib.
From S2P Require Import DnsName.
From S2P Require Import NameText.
From S2P Require Import WireName.

Module Compress.
Import CLib DnsName NameText WireName.

Definition COMPRESS_HASH_MASK : Z := 4095.
Definition MAX_PROBE_DEPTH : nat := 8.

(** ** Data *)

Record compress_entry_t := Entry { hash : Z; offset : Z; generation : Z }.
Definition entry_zero : compress_entry_t := Entry 0 0 0.

(** The table, indexed by slot; absent slots are zero. *)
Record compress_ctx_t := Ctx { table : gmap Z compress_entry_t; current_generation : Z }.

Definition slot (c : compress_ctx_t) (i : Z) : compress_entry_t := default entry_zero (table c !! i).
Definition probe (idx : Z) (k : nat) : Z := Z.land (idx + Z.of_nat k) COMPRESS_HASH_MASK.

(** ** Operations *)

Definition compress_ctx_init : compress_ctx_t := Ctx ∅ 1.

Definition compress_ctx_init_packet (c : compress_ctx_t) : compress_ctx_t :=
  let g := u16 (current_generation c + 1) in
  if g =? 0 then Ctx ∅ 1 else Ctx (table c) g.

(** The comparison of one label, octet by octet: [n] octets at [p] of the
    packet and at the head of [name]. *)
Fixpoint label_equals (n : nat) (packet_buf : list Z) (p : Z) (name : list Z) : outcome bool :=
  match n with
  | O => Ret true
  | S n' =>
      let! c1 := rd packet_buf p in
      match name with
      | [] => Oob
      | c2 :: name' => if lc c1 =? lc c2 then label_equals n' packet_buf (p + 1) name' else Ret false
      end
  end.

(** The name is over: the packet must reach the root too. *)
Fixpoint reaches_root (fuel : nat) (packet_buf : list Z) (off p : Z) : outcome bool :=
  match fuel with
  | O => NoFuel
  | S fuel' =>
      let! b := rd packet_buf p in
      if Z.land b 192 =? 192 then
        let! lo := rd packet_buf (p + 1) in
        let next_offset := pointer_target b lo in
        if off <=? next_offset then Ret false
        else reaches_root fuel' packet_buf next_offset next_offset
      else Ret (b =? 0)
  end.

Fixpoint suffix_loop (fuel : nat) (packet_buf : list Z) (off p : Z) (n : list Z) : outcome bool :=
  match fuel with
  | O => NoFuel
  | S fuel' =>
      match n with
      | [] => Oob
      | c :: n' =>
          if c =? 0 then reaches_root fuel' packet_buf off p
          else
            let! b := rd packet_buf p in
            if Z.land b 192 =? 192 then
              let! lo := rd packet_buf (p + 1) in
              let next_offset := pointer_target b lo in
              if off <=? next_offset then Ret false
              else suffix_loop fuel' packet_buf next_offset next_offset n
            else if negb (b =? c) then Ret false
            else
              let! eq := label_equals (Z.to_nat b) packet_buf (p + 1) n' in
              if eq then suffix_loop fuel' packet_buf off (p + 1 + b) (drop (Z.to_nat b) n') else Ret false
      end
  end.

(** Every iteration consumes a part of the name or lowers the offset. *)
Definition suffix_equals (packet_buf : list Z) (off : Z) (name : list Z) : outcome bool :=
  suffix_loop (length name + Z.to_nat off + 2) packet_buf off off name.

(** The suffixes of a wire name that start at a label: [labels[i]]. *)
Fixpoint collect_labels (fuel : nat) (s : list Z) : outcome (list (list Z)) :=
  match s with
  | [] => Oob
  | c :: s' =>
      if c =? 0 then Ret []
      else match fuel with
      | O => Fail
      | S fuel' =>
          let! ls := collect_labels fuel' (drop (Z.to_nat c) s') in
          Ret (s :: ls)
      end
  end.

(** The octets of a label, last one first, and then its length, into the
    hash. *)
Definition hash_label (h : Z) (l : list Z) : Z :=
  fnv_step (foldl (fun h c => fnv_step h (lc c)) h (rev l)) (len l).

(** The hash of each suffix, computed from the root. *)
Fixpoint suffix_hashes (labels : list (list Z)) : list Z :=
  match labels with
  | [] => []
  | s :: labels' =>
      let hs := suffix_hashes labels' in
      let h := match hs with h :: _ => h | [] => 2166136261 end in
      match s with
      | [] => hs
      | n :: s' => hash_label h (take (Z.to_nat n) s') :: hs
      end
  end.

(** Step 1: look for the suffix in the table. *)
Fixpoint find_pointer (n k : nat) (c : compress_ctx_t) (packet_buf : list Z) (off h : Z) (label : list Z) : outcome (option Z) :=
  match n with
  | O => Ret None
  | S n' =>
      let e := slot c (probe (Z.land h COMPRESS_HASH_MASK) k) in
      if negb (generation e =? current_generation c) then Ret None
      else if (off <=? offset e) || (16384 <=? offset e) then find_pointer n' (S k) c packet_buf off h label
      else if hash e =? h then
        let! eq := suffix_equals packet_buf (offset e) label in
        if eq then Ret (Some (offset e)) else find_pointer n' (S k) c packet_buf off h label
      else find_pointer n' (S k) c packet_buf off h label
  end.

(** Step 3: register the start of the label. *)
Fixpoint register_offset (n k : nat) (c : compress_ctx_t) (h off : Z) : compress_ctx_t :=
  match n with
  | O => c
  | S n' =>
      let i := probe (Z.land h COMPRESS_HASH_MASK) k in
      let e := slot c i in
      if (generation e =? current_generation c) && (hash e =? h) && (offset e =? off) then c
      else if negb (generation e =? current_generation c)
      then Ctx (<[i := Entry h off (current_generation c)]> (table c)) (current_generation c)
      else register_offset n' (S k) c h off
  end.

(** The label with its length octet at the head of a suffix. *)
Definition label_octets (s : list Z) : list Z :=
  match s with [] => [] | n :: s' => n :: take (Z.to_nat n) s' end.

(** Octets at [*offset], a [uint16_t]: the packet and the offset behind them. *)
Fixpoint put_octets (packet_buf : list Z) (off : Z) (octets : list Z) : outcome (list Z * Z) :=
  match octets with
  | [] => Ret (packet_buf, off)
  | b :: octets' => let! packet_buf := wr packet_buf off b in put_octets packet_buf (u16 (off + 1)) octets'
  end.

(** The loop over the labels, with their hashes. *)
Fixpoint compress_labels (labels : list (list Z * Z)) (packet_buf : list Z) (off : Z) (c : compress_ctx_t) (max_len : Z) :
    outcome (list Z * Z * compress_ctx_t) :=
  match labels with
  | [] =>
      fail_if max_len <? off + 1 ;;
      let! '(packet_buf, off) := put_octets packet_buf off [0] in
      Ret (packet_buf, off, c)
  | (label, h) :: labels' =>
      let! found := find_pointer MAX_PROBE_DEPTH 0 c packet_buf off h label in
      match found with
      | Some target =>
          fail_if max_len <? off + 2 ;;
          let ptr := Z.lor 49152 target in
          let! '(packet_buf, off) := put_octets packet_buf off [Z.shiftr ptr 8; Z.land ptr 255] in
          Ret (packet_buf, off, c)
      | None =>
          let octets := label_octets label in
          fail_if max_len <? off + len octets ;;
          let! '(packet_buf, next) := put_octets packet_buf off octets in
          let c := if off <? 16384 then register_offset MAX_PROBE_DEPTH 0 c h off else c in
          compress_labels labels' packet_buf next c max_len
      end
  end.

(** The packet, [*offset] and the table after the call. *)
Definition compress_name (packet_buf : list Z) (off : Z) (name : list Z) (c : compress_ctx_t) (max_len : Z) :
    outcome (list Z * Z * compress_ctx_t) :=
  let! labels := collect_labels 127 name in
  compress_labels (combine labels (suffix_hashes labels)) packet_buf off c max_len.

(** [write_dns_name_str]: a name in text form, compressed when there is a
    context; the name is first put together in [wire], 256 octets. *)
Definition append_label (label : list Z) (wire : list Z) : outcome (list Z) :=
  if 0 <? len label then
    fail_if 255 <? len wire + len label + 1 ;;
    let! wire := put 256 wire (u8 (len label)) in
    put_list 256 wire label
  else Ret wire.

Definition write_dns_name_str (packet_buf : list Z) (off : Z) (name : list Z) (ctx : option compress_ctx_t) (max_len : Z) :
    outcome (list Z * Z * option compress_ctx_t) :=
  match ctx with
  | None =>
      let! '(packet_buf, w) := write_uncompressed_name_ext packet_buf off max_len name false in
      Ret (packet_buf, u16 (off + w), None)
  | Some c =>
      let! wire := for_labels (name_fuel name) append_label (Some name) [] in
      fail_if 255 <? len wire + 1 ;;
      let! wire := put 256 wire 0 in
      let! '(packet_buf, off, c) := compress_name packet_buf off wire c max_len in
      Ret (packet_buf, off, Some c)
  end.

(** The offsets of the labels of a name that is already in the packet; [None]
    where the C function returns without registering anything. *)
Fixpoint collect_offsets (fuel : nat) (packet_buf : list Z) (p : Z) : outcome (option (list Z)) :=
  let! b := rd packet_buf p in
  if b =? 0 then Ret (Some [])
  else match fuel with
  | O => Ret None
  | S fuel' =>
      if 16384 <=? p then Ret None
      else if negb (Z.land b 192 =? 0) then Ret None
      else
        let! rest := collect_offsets fuel' packet_buf (u16 (p + (1 + b))) in
        Ret (match rest with Some l => Some (p :: l) | None => None end)
  end.

(** The hash of the suffix at each of the offsets. *)
Fixpoint offset_hashes (packet_buf : list Z) (offs : list Z) : outcome (list Z) :=
  match offs with
  | [] => Ret []
  | off :: offs' =>
      let! hs := offset_hashes packet_buf offs' in
      let h := match hs with h :: _ => h | [] => 2166136261 end in
      let! n := rd packet_buf off in
      let! l := slice packet_buf (off + 1) n in
      Ret (hash_label h l :: hs)
  end.

Definition register_wire_name_for_compression (packet_buf : list Z) (start_offset : Z) (c : compress_ctx_t) : outcome compress_ctx_t :=
  let! offs := collect_offsets 127 packet_buf start_offset in
  match offs with
  | None => Ret c
  | Some offs =>
      let! hs := offset_hashes packet_buf offs in
      Ret (foldl (fun c '(h, off) => register_offset MAX_PROBE_DEPTH 0 c h off) c (combine hs offs))
  end.

(** ** Specification: names up to the case of letters *)

Definition ci (a b : list (list Z)) : Prop := map (map lc) a = map (map lc) b.

(** The suffixes of a name and their hashes. *)
Fixpoint suffixes (ls : list (list Z)) : list (list Z) :=
  match ls with [] => [] | l :: ls' => wire_name ls :: suffixes ls' end.

Fixpoint name_hashes (ls : list (list Z)) : list Z :=
  match ls with
  | [] => []
  | l :: ls' =>
      let hs := name_hashes ls' in
      hash_label (match hs with h :: _ => h | [] => 2166136261 end) l :: hs
  end.

(** ** Lemmas: reading the packet while it grows *)

Definition agree (a b : list Z) (n : Z) : Prop := length a = length b /\ take (Z.to_nat n) a = take (Z.to_nat n) b.

Lemma agree_trans a b c n m : m <= n -> agree a b m -> agree b c n -> agree a c m.
Proof.
  intros Hm [L1 H1] [L2 H2]. split; [congruence |]. rewrite H1. apply (f_equal (take (Z.to_nat m))) in H2.
  rewrite !take_take, Nat.min_l in H2 by lia. done.
Qed.

Lemma agree_mono a b n m : m <= n -> agree a b n -> agree a b m.
Proof. intros Hm H. by apply (agree_trans a a b n). Qed.

Lemma agree_rd a b n i : agree a b n -> i < n -> rd a i = rd b i.
Proof.
  intros [_ H] Hi. destruct (Z.lt_ge_cases i 0); [unfold rd; by rewrite (proj2 (Z.ltb_lt _ _)) |].
  rewrite <- (rd_take a (Z.to_nat n)), H, rd_take by lia. done.
Qed.

Lemma agree_slice a b n i k : agree a b n -> i + k <= n -> slice a i k = slice b i k.
Proof.
  intros [L H] Hi. unfold slice. rewrite L. case_if; [| done]. cmp_prop. f_equal.
  assert (forall x : list Z, take (Z.to_nat k) (drop (Z.to_nat i) x) = take (Z.to_nat k) (drop (Z.to_nat i) (take (Z.to_nat n) x))) as Hx.
  { intros x. rewrite skipn_firstn_comm, take_take. f_equal. lia. }
  by rewrite (Hx a), (Hx b), H.
Qed.

Lemma agree_splice buf i src : 0 <= i -> i + len src <= len buf -> agree buf (splice buf i src) i.
Proof.
  intros Hi Hl. split; [by rewrite length_splice |]. unfold splice. rewrite take_app_le by (rewrite length_take; lia).
  rewrite take_take. by rewrite Nat.min_id.
Qed.

Lemma decodes_mono a b n m k p ls : agree a b n -> n <= m -> decodes a n k p ls -> decodes b m k p ls.
Proof.
  intros Hag Hm. induction 1 as [p Hp Hr | k p len l ls Hp Hr Hk Hfit Hs Hd IH | k p raw lo ls Hp Hr Ht Hlo Hptr Hd IH].
  - apply decodes_root; [lia | by rewrite <- (agree_rd a b n)].
  - eapply decodes_label; [lia | by rewrite <- (agree_rd a b n) | done | lia | | done].
    by rewrite <- (agree_slice a b n) by (done || lia).
  - apply (decodes_pointer b m k p raw lo); [lia | rewrite <- (agree_rd a b n); [done | done | lia] | done | | lia | done].
    rewrite <- (agree_rd a b n); [done | done | lia].
Qed.

Lemma name_end_mono a b n p q : agree a b n -> q <= n -> name_end a p q -> name_end b p q.
Proof.
  intros Hag Hq. induction 1 as [p Hr | p k q Hr Hk H IH | p raw Hr Ht].
  - apply end_root. rewrite <- (agree_rd a b n); [done | done | lia].
  - assert (forall x y, name_end a x y -> x < y) as Hlt by (clear; induction 1; lia).
    apply Hlt in H as Hl. eapply end_label; [| done | by apply IH]. rewrite <- (agree_rd a b n); [done | done | lia].
  - eapply end_pointer; [| done]. rewrite <- (agree_rd a b n); [done | done | lia].
Qed.

(** ** Lemmas: names that stay clear of two octets

    A record reserves the two octets of its RDLENGTH and writes them after
    the RDATA. The names of the packet do not pass through them: [h] is the
    offset of the reserved octets, or [no_hole]. *)

Definition clear (h i n : Z) : Prop := i + n <= h \/ h + 2 <= i.
Definition no_hole : Z := -2.

Inductive hdecodes (h : Z) (packet : list Z) (B : Z) : nat -> Z -> list (list Z) -> Prop :=
| hdecodes_root p : clear h p 1 -> p < B -> rd packet p = Ret 0 -> hdecodes h packet B 0 p []
| hdecodes_label n p len l ls :
    clear h p (1 + len) -> p < B -> rd packet p = Ret len -> 1 <= len <= 63 -> p + 1 + len <= B ->
    slice packet (p + 1) len = Ret l -> hdecodes h packet B n (p + 1 + len) ls -> hdecodes h packet B (S n) p (l :: ls)
| hdecodes_pointer n p raw lo ls :
    clear h p 2 -> p + 1 < B -> rd packet p = Ret raw -> Z.land raw 192 = 192 -> rd packet (p + 1) = Ret lo ->
    pointer_target raw lo < B -> hdecodes h packet B n (pointer_target raw lo) ls -> hdecodes h packet B (S n) p ls.

Lemma hdecodes_decodes h packet B n p ls : hdecodes h packet B n p ls -> decodes packet B n p ls.
Proof. induction 1; [by apply decodes_root | by eapply decodes_label | by eapply decodes_pointer]. Qed.

(** Octets below [n] and outside of the hole are those of [b]. *)
Definition agree_clear (h : Z) (a b : list Z) (n : Z) : Prop :=
  (forall i, i < n -> clear h i 1 -> rd a i = rd b i) /\ (forall i k, i + k <= n -> clear h i k -> slice a i k = slice b i k).

Lemma agree_agree_clear h a b n : agree a b n -> agree_clear h a b n.
Proof. intros Hag. split; intros; [by apply (agree_rd a b n) | by apply (agree_slice a b n)]. Qed.

Lemma clear_mono h i n j m : i <= j -> j + m <= i + n -> clear h i n -> clear h j m.
Proof. unfold clear. lia. Qed.

Lemma hdecodes_clear h a b n m k p ls : agree_clear h a b n -> n <= m -> hdecodes h a n k p ls -> hdecodes h b m k p ls.
Proof.
  intros [Hrd Hsl] Hm. induction 1 as [p Hc Hp Hr | k p len l ls Hc Hp Hr Hk Hfit Hs Hd IH | k p raw lo ls Hc Hp Hr Ht Hlo Hptr Hd IH].
  - apply hdecodes_root; [done | lia | by rewrite <- Hrd].
  - eapply hdecodes_label; [done | lia | rewrite <- Hrd; [done | lia | eapply clear_mono; [| | exact Hc]; lia] | done | lia | | done].
    rewrite <- Hsl; [done | lia | eapply clear_mono; [| | exact Hc]; lia].
  - apply (hdecodes_pointer h b m k p raw lo); [done | lia | | done | | lia | done]; (rewrite <- Hrd; [done | lia | eapply clear_mono; [| | exact Hc]; lia]).
Qed.

Lemma hdecodes_mono h a b n m k p ls : agree a b n -> n <= m -> hdecodes h a n k p ls -> hdecodes h b m k p ls.
Proof. intros Hag. apply hdecodes_clear. by apply agree_agree_clear. Qed.

(** A name of octets, all of them before the hole. *)
Lemma decodes_hdecodes h packet B n p ls : bytes packet -> 0 <= p -> B <= h \/ h <= no_hole -> decodes packet B n p ls -> hdecodes h packet B n p ls.
Proof.
  intros Hb Hp Hh Hd. induction Hd as [p Hlt Hr | n p len l ls Hlt Hr Hk Hfit Hs Hd IH | n p raw lo ls Hlt Hr Ht Hlo Hptr Hd IH]; unfold no_hole in *.
  - apply hdecodes_root; [unfold clear; lia | done | done].
  - eapply hdecodes_label; try done; [unfold clear; lia | apply IH; lia].
  - eapply hdecodes_pointer; try done; [unfold clear; lia |]. apply IH. apply pointer_target_range; by eapply rd_byte.
Qed.

(** [o] is the start of an uncompressed run of labels that ends at [off]. *)
Inductive leads (h : Z) (packet : list Z) (off : Z) : Z -> Prop :=
| leads_here : leads h packet off off
| leads_label o l :
    clear h o (1 + len l) -> 0 <= o -> rd packet o = Ret (len l) -> 1 <= len l <= 63 -> slice packet (o + 1) (len l) = Ret l ->
    o + 1 + len l <= off -> leads h packet off (o + 1 + len l) -> leads h packet off o.

Lemma leads_mono h a b off o : agree a b off -> leads h a off o -> leads h b off o.
Proof.
  intros Hag. induction 1 as [| o l Hc Ho Hr Hl Hs Hfit H IH]; [apply leads_here |].
  eapply leads_label; try done; [rewrite <- (agree_rd a b off); [done | done | lia] | by rewrite <- (agree_slice a b off)].
Qed.

Lemma leads_snoc h packet off l o :
  h + 2 <= off -> 0 <= off -> rd packet off = Ret (len l) -> 1 <= len l <= 63 -> slice packet (off + 1) (len l) = Ret l ->
  leads h packet off o -> leads h packet (off + 1 + len l) o.
Proof.
  intros Hh Ho Hr Hl Hs. induction 1 as [| o l' Hc' Ho' Hr' Hl' Hs' Hfit H IH].
  - eapply leads_label; try done; [unfold clear; lia |]. apply leads_here.
  - eapply leads_label; try done. lia.
Qed.

Lemma leads_decodes h packet B off o n ls :
  leads h packet off o -> off <= B -> hdecodes h packet B n off ls -> exists n' ls', hdecodes h packet B n' o ls'.
Proof.
  intros H HB Hd. induction H as [| o l Hc Ho Hr Hl Hs Hfit H (n' & ls' & IH)]; [eauto |].
  exists (S n'), (l :: ls'). eapply hdecodes_label; try done; lia.
Qed.

(** ** Lemmas: comparing a suffix with the packet *)

Section Suffix.
Context (packet : list Z) (B : Z).
Hypothesis Hbytes : bytes packet.
Hypothesis HB : B <= len packet.

Lemma label_equals_spec l1 : forall p l2 rest,
  (forall k, 0 <= k < len l1 -> rd packet (p + k) = rd l1 k) -> length l1 = length l2 ->
  label_equals (length l1) packet p (l2 ++ rest) = Ret (bool_decide (map lc l1 = map lc l2)).
Proof.
  induction l1 as [| c1 l1 IH]; intros p [| c2 l2] rest Hr Hl; try done. cbn [length label_equals app].
  pose proof (Hr 0 ltac:(len_lia)) as H0. rewrite Z.add_0_r, rd_0 in H0. rewrite H0. cbn [obind map].
  destruct (Z.eqb_spec (lc c1) (lc c2)) as [E | E].
  - rewrite IH; [| | by injection Hl].
    + f_equal. apply bool_decide_ext. rewrite E. split; [by intros -> | by intros [= ->]].
    + intros k Hk. rewrite <- Z.add_assoc, Hr by len_lia. rewrite rd_cons by lia. f_equal. lia.
  - f_equal. symmetry. apply bool_decide_false. by intros [= ? _].
Qed.

Lemma slice_rd buf i n l k : slice buf i n = Ret l -> 0 <= k < len l -> rd buf (i + k) = rd l k.
Proof.
  unfold slice. case_if; [| done]. intros [= <-] Hk. cmp_prop. rewrite length_take, length_drop in Hk.
  rewrite rd_take, rd_drop by lia. done.
Qed.

Lemma slice_len buf i n l : slice buf i n = Ret l -> len l = n.
Proof. unfold slice. case_if; [| done]. intros [= <-]. cmp_prop. rewrite length_take, length_drop. lia. Qed.

Lemma reaches_root_spec n : forall fuel off p ls,
  0 <= p -> decodes packet B n p ls -> (Z.to_nat off < fuel)%nat ->
  exists r, reaches_root fuel packet off p = Ret r /\ (r = true -> ls = []).
Proof.
  induction n as [n IH] using lt_wf_ind. intros [| fuel] off p ls Hp Hd Hf; [lia |]. cbn [reaches_root].
  apply (decodes_inv packet B Hbytes) in Hd as (_ & b & -> & Hb & Hd). cbn [obind].
  destruct Hd as [(-> & _ & ->) | [(Hk & _ & n' & l & ls' & -> & -> & _) | (Hk & _ & n' & lo & -> & Hlo & Hlob & _ & Hd)]].
  - by exists true.
  - rewrite (proj2 (Z.eqb_neq _ 192)) by (intros E; apply octet_pointer in E; [lia | done]).
    exists false. split; [| done]. f_equal. lia.
  - rewrite (proj2 (Z.eqb_eq _ 192)) by (by apply octet_pointer). rewrite Hlo. cbn [obind].
    pose proof (pointer_target_range b lo Hb Hlob). case_if; [by exists false |]. cmp_prop.
    apply (IH n'); [lia | lia | done | lia].
Qed.

Lemma wire_name_cons l ls : wire_name (l :: ls) = len l :: l ++ wire_name ls.
Proof. unfold wire_name. rewrite wire_labels_cons. cbn [app]. by rewrite <- app_assoc. Qed.

(** A suffix that compares equal is the name the packet holds there. *)
Lemma suffix_loop_spec n : forall fuel off p lsd ls,
  0 <= p -> 0 <= off -> decodes packet B n p lsd -> Forall label_wf ls ->
  (length (wire_name ls) + Z.to_nat off < fuel)%nat ->
  exists r, suffix_loop fuel packet off p (wire_name ls) = Ret r /\ (r = true -> ci lsd ls).
Proof.
  induction n as [n IH] using lt_wf_ind. intros [| fuel] off p lsd ls Hp Ho Hd Hls Hf; [lia |]. cbn [suffix_loop].
  destruct ls as [| l ls].
  { change (wire_name []) with [0] in *. cbn [Z.eqb]. cbn [length] in Hf.
    destruct (reaches_root_spec n fuel off p lsd) as (r & -> & Hr); [done | done | lia |]. exists r. split; [done |].
    by intros ->%Hr. }
  apply Forall_cons_1 in Hls as [[Hlb Hll] Hls]. rewrite wire_name_cons in *. rewrite (proj2 (Z.eqb_neq _ 0)) by lia.
  cbn [length] in Hf. rewrite length_app in Hf.
  apply (decodes_inv packet B Hbytes) in Hd as (_ & b & -> & Hb & Hd). cbn [obind].
  destruct Hd as [(-> & _ & ->) | [(Hk & _ & n' & l' & ls' & -> & -> & Hs & Hd) | (Hk & _ & n' & lo & -> & Hlo & Hlob & _ & Hd)]].
  - change (Z.land 0 192 =? 192) with false. cbn iota. rewrite (proj2 (Z.eqb_neq 0 _)) by lia. by exists false.
  - rewrite (proj2 (Z.eqb_neq _ 192)) by (intros E; apply octet_pointer in E; [lia | done]).
    destruct (Z.eqb_spec b (len l)) as [-> | Hne]; cbn [negb]; [| by exists false].
    pose proof (slice_len _ _ _ _ Hs) as Hl'. rewrite Nat2Z.id. replace (length l) with (length l') by lia.
    rewrite label_equals_spec; [| by intros; eapply slice_rd | lia]. cbn [obind].
    case_bool_decide as Hc; [| by exists false]. replace (length l') with (length l) by lia. rewrite drop_app_length.
    destruct (IH n' ltac:(lia) fuel off (p + 1 + len l) ls' ls) as (r & -> & Hr); [lia | done | done | done | lia |].
    exists r. split; [done |]. intros Ht%Hr. unfold ci in *. cbn. by rewrite Hc, Ht.
  - rewrite (proj2 (Z.eqb_eq _ 192)) by (by apply octet_pointer). rewrite Hlo. cbn [obind].
    pose proof (pointer_target_range b lo Hb Hlob). case_if; [by exists false |]. cmp_prop. rewrite <- wire_name_cons.
    apply (IH n' ltac:(lia) fuel); [lia | lia | done | by constructor |]. rewrite wire_name_cons. cbn [length]. rewrite length_app. lia.
Qed.

Lemma suffix_equals_spec n o lsd ls :
  0 <= o -> decodes packet B n o lsd -> Forall label_wf ls ->
  exists r, suffix_equals packet o (wire_name ls) = Ret r /\ (r = true -> ci lsd ls).
Proof. intros Ho Hd Hls. apply (suffix_loop_spec n); try done. lia. Qed.

End Suffix.

(** ** Lemmas: pointers *)

Lemma encode_pointer o :
  0 <= o < 16384 ->
  let hi := Z.shiftr (Z.lor 49152 o) 8 in let lo := Z.land (Z.lor 49152 o) 255 in
  isbyte hi /\ isbyte lo /\ Z.land hi 192 = 192 /\ pointer_target hi lo = o.
Proof.
  intros Ho. cbn zeta.
  assert (Z.lor 49152 o = o + 3 * 2 ^ 14) as ->.
  { rewrite Z.lor_comm. change 49152 with (Z.shiftl 3 14). apply lor_shiftl_add; lia. }
  rewrite Z.shiftr_div_pow2 by lia. change 255 with (Z.ones 8). rewrite Z.land_ones by lia.
  change (2 ^ 14) with 16384. change (2 ^ 8) with 256.
  pose proof (Z.div_mod o 256). pose proof (Z.mod_pos_bound o 256).
  assert ((o + 3 * 16384) / 256 = o / 256 + 192) as -> by (replace (o + 3 * 16384) with (o + 192 * 256) by lia; by rewrite Z.div_add).
  assert ((o + 3 * 16384) mod 256 = o mod 256) as -> by (replace (o + 3 * 16384) with (o + 192 * 256) by lia; by rewrite Z.mod_add).
  assert (0 <= o / 256 < 64) as Hq by (split; [apply Z.div_pos | apply Z.div_lt_upper_bound]; lia).
  split_and!; [unfold isbyte; lia | unfold isbyte; lia | apply octet_pointer; unfold isbyte; lia |].
  unfold pointer_target. change 63 with (Z.ones 6). rewrite Z.land_ones by lia. change (2 ^ 6) with 64.
  replace ((o / 256 + 192) mod 64) with (o / 256) by (replace (o / 256 + 192) with (o / 256 + 3 * 64) by lia; rewrite Z.mod_add, Z.mod_small; lia).
  rewrite Z.lor_comm, lor_shiftl_add by lia. lia.
Qed.

(** ** The table *)

(** Generations are 16-bit counters; the current one is the largest. *)
Definition gen_ok (c : compress_ctx_t) : Prop :=
  1 <= current_generation c <= 65535 /\ forall i, 0 <= generation (slot c i) <= current_generation c.

(** An entry points at a name of the packet written so far, or at a label of
    the name being written, whose hash is then among [pending]. *)
Definition entry_ok (h : Z) (packet : list Z) (off : Z) (pending : list Z) (e : compress_entry_t) : Prop :=
  0 <= offset e < off /\
  ((exists n ls, hdecodes h packet off n (offset e) ls) \/ (leads h packet off (offset e) /\ In (hash e) pending)).

Definition table_ok (h : Z) (packet : list Z) (off : Z) (pending : list Z) (c : compress_ctx_t) : Prop :=
  forall i, generation (slot c i) = current_generation c -> entry_ok h packet off pending (slot c i).

Definition hctx_ok (h : Z) (packet : list Z) (off : Z) (c : compress_ctx_t) : Prop := gen_ok c /\ table_ok h packet off [] c.
Definition ctx_ok : list Z -> Z -> compress_ctx_t -> Prop := hctx_ok no_hole.

Lemma slot_insert i j e t g : slot (Ctx (<[i := e]> t) g) j = (if decide (i = j) then e else slot (Ctx t g) j).
Proof. unfold slot. cbn. case_decide; [subst; by rewrite lookup_insert_eq | by rewrite lookup_insert_ne]. Qed.

Lemma register_offset_spec n : forall k c h off,
  current_generation (register_offset n k c h off) = current_generation c /\
  forall i, slot (register_offset n k c h off) i = slot c i \/
            slot (register_offset n k c h off) i = Entry h off (current_generation c).
Proof.
  induction n as [| n IH]; intros k c h off; cbn [register_offset]; [split; [done | by left] |].
  case_if; [split; [done | by left] |]. case_if; [| apply IH]. split; [done |]. intros i. rewrite slot_insert.
  case_decide; [by right | by left].
Qed.

Lemma register_gen_ok n k c h off : gen_ok c -> gen_ok (register_offset n k c h off).
Proof.
  intros [Hc Hg]. destruct (register_offset_spec n k c h off) as [Hcur Hs]. split; [by rewrite Hcur |].
  intros i. rewrite Hcur. destruct (Hs i) as [-> | ->]; [apply Hg | cbn; lia].
Qed.

Lemma find_pointer_spec g packet off pending c h ls :
  bytes packet -> off <= len packet -> table_ok g packet off pending c -> ~ In h pending -> Forall label_wf ls ->
  forall n k, exists r, find_pointer n k c packet off h (wire_name ls) = Ret r /\
    forall o, r = Some o -> 0 <= o < off /\ o < 16384 /\ exists m lsd, hdecodes g packet off m o lsd /\ ci lsd ls.
Proof.
  intros Hb Hl Ht Hh Hls. induction n as [| n IH]; intros k; cbn [find_pointer]; [by exists None |].
  set (e := slot c _). destruct (Z.eqb_spec (generation e) (current_generation c)) as [Eg | Eg]; cbn [negb]; [| by exists None].
  case_if; [apply IH |]. destruct (Z.eqb_spec (hash e) h) as [Eh | Eh]; [| apply IH]. cmp_prop.
  pose proof (Ht _ Eg) as Hok. fold e in Hok. destruct Hok as [Ho [(m & lsd & Hd) | [_ Hin]]]; [| by rewrite <- Eh in Hh].
  destruct (suffix_equals_spec packet off Hb m (offset e) lsd ls) as (r & -> & Hr); [lia | by eapply hdecodes_decodes | done |]. cbn [obind].
  destruct r; [| apply IH]. eexists. split; [done |]. intros o [= <-]. split_and!; [lia | lia | lia |]. exists m, lsd. auto.
Qed.

(** Once the name is complete, so are the labels that lead to it. *)
Lemma table_close h packet packet' off off' pending c n ls :
  table_ok h packet off pending c -> agree packet packet' off -> off <= off' -> hdecodes h packet' off' n off ls ->
  table_ok h packet' off' [] c.
Proof.
  intros Ht Hag Hlt Hd i Hi. destruct (Ht i Hi) as [Ho [(m & lsd & Hdi) | [Hlead _]]]; (split; [lia |]); left.
  - exists m, lsd. by eapply hdecodes_mono.
  - eapply leads_decodes; [by eapply leads_mono | done | done].
Qed.

(** A label is added to the name in progress. *)
Lemma table_label g packet packet' off pending c h l c' :
  g + 2 <= off -> 0 <= off -> table_ok g packet off pending c -> agree packet packet' off ->
  rd packet' off = Ret (len l) -> 1 <= len l <= 63 -> slice packet' (off + 1) (len l) = Ret l ->
  current_generation c' = current_generation c ->
  (forall i, slot c' i = slot c i \/ slot c' i = Entry h off (current_generation c)) ->
  table_ok g packet' (off + 1 + len l) (h :: pending) c'.
Proof.
  intros Hg Ho Ht Hag Hr Hl Hs Hcur Hreg i Hi. rewrite Hcur in Hi. destruct (Hreg i) as [E | E]; rewrite E in *.
  - destruct (Ht i Hi) as [Hoi [(m & lsd & Hdi) | [Hlead Hin]]]; (split; [lia |]).
    + left. exists m, lsd. eapply hdecodes_mono; [done | lia | done].
    + right. split; [| by right]. apply leads_snoc; try done. by eapply leads_mono.
  - split; [cbn; lia |]. right. split; [| by left]. cbn. apply leads_snoc; try done. apply leads_here.
Qed.

(** ** Writing a name *)

Lemma splice_rd buf i src k :
  0 <= i -> i + len src <= len buf -> 0 <= k < len src -> rd (splice buf i src) (i + k) = rd src k.
Proof.
  intros Hi Hl Hk. rewrite rd_drop, drop_splice by lia. by rewrite rd_app_l by lia.
Qed.

Lemma splice_slice buf i a b :
  0 <= i -> i + len (a ++ b) <= len buf -> slice (splice buf i (a ++ b)) (i + len a) (len b) = Ret b.
Proof.
  intros Hi Hl. rewrite length_app in Hl. rewrite slice_in by (rewrite ?length_splice; rewrite ?length_app; lia).
  rewrite Z2Nat.inj_add, Nat2Z.id, <- drop_drop, drop_splice by (rewrite ?length_app; lia).
  by rewrite Nat2Z.id, <- app_assoc, drop_app_length, take_app_length.
Qed.

Lemma length_wire_name l ls : len (wire_name (l :: ls)) = 1 + len l + len (wire_name ls).
Proof. rewrite wire_name_cons. cbn [length]. rewrite length_app. lia. Qed.

Lemma wire_name_pos ls : 1 <= len (wire_name ls).
Proof. unfold wire_name. rewrite length_app. len_lia. Qed.

Lemma put_octets_fit bs : forall packet off, 0 <= off -> off + len bs <= 65535 -> put_octets packet off bs = let! p := wr_list packet off bs in Ret (p, off + len bs).
Proof.
  induction bs as [| b bs IH]; intros packet off Ho Hl; cbn [put_octets wr_list length] in *; [by rewrite Z.add_0_r |]. destruct (wr packet off b) as [p | | |]; [| done..]. cbn [obind].
  rewrite u16_small by lia. rewrite IH by lia. destruct (wr_list p (off + 1) bs); [| done..]. cbn [obind]. do 2 f_equal. lia.
Qed.

Lemma put_octets_splice packet off bs : 0 <= off -> off + len bs <= len packet -> off + len bs <= 65535 -> put_octets packet off bs = Ret (splice packet off bs, off + len bs).
Proof. intros Ho Hl H6. rewrite put_octets_fit by done. by rewrite wr_list_splice. Qed.

Definition written (h : Z) (packet : list Z) (off : Z) (ls : list (list Z)) (packet' : list Z) (off' : Z) : Prop :=
  bytes packet' /\ agree packet packet' off /\ off < off' <= off + len (wire_name ls) /\
  (exists n ls', hdecodes h packet' off' n off ls' /\ ci ls' ls) /\ name_end packet' off off'.

Section Hole.
Variable g : Z.

Lemma compress_root packet off c max_len pending : g + 2 <= off ->
  bytes packet -> 0 <= off -> max_len <= len packet -> max_len <= 65535 -> gen_ok c -> table_ok g packet off pending c ->
  (compress_labels [] packet off c max_len = Fail /\ max_len < off + len (wire_name [])) \/
  exists packet' off' c', compress_labels [] packet off c max_len = Ret (packet', off', c') /\
    written g packet off [] packet' off' /\ off' <= max_len /\ hctx_ok g packet' off' c'.
Proof.
  intros Hh Hb Ho Hm H6 Hg Ht. cbn [compress_labels]. change (len (wire_name [])) with 1. case_if; [left; split; [done | lia] |]. right.
  cmp_prop. rewrite put_octets_splice by len_lia. change (len [0]) with 1. cbn [obind]. eexists _, _, _. split; [done |].
  assert (rd (splice packet off [0]) off = Ret 0) as Hr.
  { rewrite <- (Z.add_0_r off) at 2. rewrite splice_rd by len_lia. done. }
  assert (hdecodes g (splice packet off [0]) (off + 1) 0 off []) as Hd by (apply hdecodes_root; [by right | lia | done]).
  assert (agree packet (splice packet off [0]) off) as Hag by (apply agree_splice; len_lia).
  split_and!; [| lia | split; [done |]; eapply (table_close g packet _ off); [done | done | lia | done]].
  split_and!; [apply bytes_splice; [done | bytes_lit] | done | lia | change (len (wire_name [])) with 1; lia | by exists 0%nat, [] | by apply end_root].
Qed.

Lemma compress_pointer packet off c max_len pending target m lsd ls : g + 2 <= off ->
  bytes packet -> 0 <= off -> max_len <= len packet -> max_len <= 65535 -> gen_ok c -> table_ok g packet off pending c ->
  0 <= target < off -> target < 16384 -> hdecodes g packet off m target lsd -> ci lsd ls -> off + 2 <= max_len -> ls <> [] -> Forall label_wf ls ->
  exists packet', put_octets packet off [Z.shiftr (Z.lor 49152 target) 8; Z.land (Z.lor 49152 target) 255] = Ret (packet', off + 2) /\
    written g packet off ls packet' (off + 2) /\ hctx_ok g packet' (off + 2) c.
Proof.
  intros Hh Hb Ho Hm H6 Hg Ht Htg Htg' Hd Hci Hfit Hne Hls.
  destruct (encode_pointer target) as (Hhi & Hlo & Hland & Htarget); [lia |].
  set (hi := Z.shiftr _ 8) in *. set (lo := Z.land _ 255) in *. set (packet' := splice packet off [hi; lo]).
  assert (put_octets packet off [hi; lo] = Ret (packet', off + 2)) as -> by (apply put_octets_splice; len_lia).
  assert (rd packet' off = Ret hi) as Hr0.
  { unfold packet'. rewrite <- (Z.add_0_r off) at 2. by rewrite splice_rd by len_lia. }
  assert (rd packet' (off + 1) = Ret lo) as Hr1 by (unfold packet'; by rewrite splice_rd by len_lia).
  assert (agree packet packet' off) as Hag by (apply agree_splice; len_lia).
  assert (hdecodes g packet' (off + 2) (S m) off lsd) as Hd'.
  { eapply (hdecodes_pointer _ _ _ _ _ hi lo); try done; [by right | lia | rewrite Htarget; lia |]. rewrite Htarget. eapply hdecodes_mono; [done | lia | done]. }
  exists packet'. split; [done |].
  assert (3 <= len (wire_name ls)) as H3.
  { destruct ls as [| l ls]; [done |]. rewrite length_wire_name. apply Forall_cons_1 in Hls as [[_ Hl] _]. pose proof (wire_name_pos ls). lia. }
  split; [| split; [done |]; eapply (table_close g packet _ off); [done | done | lia | done]].
  split_and!; [apply bytes_splice; [done | by repeat (apply Forall_cons_2; [done |])] | done | lia | lia | by exists (S m), lsd | by eapply end_pointer].
Qed.

Lemma label_octets_name l ls : label_octets (wire_name (l :: ls)) = len l :: l.
Proof. rewrite wire_name_cons. unfold label_octets. by rewrite Nat2Z.id, take_app_length. Qed.

(** A label written where no suffix was found. *)
Lemma write_label packet off l :
  bytes packet -> 0 <= off -> label_wf l -> off + 1 + len l <= len packet -> off + 1 + len l <= 65535 ->
  exists packet', put_octets packet off (len l :: l) = Ret (packet', off + 1 + len l) /\ bytes packet' /\ agree packet packet' off /\
    rd packet' off = Ret (len l) /\ slice packet' (off + 1) (len l) = Ret l.
Proof.
  intros Hb Ho [Hlb Hll] Hfit H6. exists (splice packet off (len l :: l)). rewrite put_octets_splice by len_lia. split_and!.
  - do 2 f_equal. len_lia.
  - apply bytes_splice; [done |]. constructor; [unfold isbyte; lia | done].
  - apply agree_splice; len_lia.
  - rewrite <- (Z.add_0_r off) at 2. by rewrite splice_rd by len_lia.
  - change (len l :: l) with ([len l] ++ l). change 1 with (len [len l]). apply splice_slice; [done |]. rewrite length_app. len_lia.
Qed.

Lemma compress_labels_spec ls : forall packet off c max_len pending, g + 2 <= off ->
  bytes packet -> 0 <= off <= max_len -> max_len <= len packet -> max_len <= 65535 -> gen_ok c -> table_ok g packet off pending c ->
  Forall label_wf ls -> NoDup (name_hashes ls) -> (forall h, In h pending -> ~ In h (name_hashes ls)) ->
  let r := compress_labels (combine (suffixes ls) (name_hashes ls)) packet off c max_len in
  (r = Fail /\ max_len < off + len (wire_name ls)) \/
  exists packet' off' c', r = Ret (packet', off', c') /\ written g packet off ls packet' off' /\ off' <= max_len /\ hctx_ok g packet' off' c'.
Proof.
  induction ls as [| l ls IH]; intros packet off c max_len pending Hhole Hb Ho Hm H6 Hg Ht Hls Hnd Hp; cbn zeta.
  { eapply compress_root; [done | done | lia | done..]. }
  pose proof Hls as Hls0. apply Forall_cons_1 in Hls as [Hl Hls]. pose proof Hl as [Hlb Hll].
  cbn [suffixes name_hashes combine compress_labels]. set (h := hash_label _ l).
  assert (name_hashes (l :: ls) = h :: name_hashes ls) as Hh by done. rewrite Hh in *. apply NoDup_cons in Hnd as [Hnot Hnd].
  pose proof (wire_name_pos ls) as Hpos. rewrite length_wire_name.
  destruct (find_pointer_spec g packet off pending c h (l :: ls) Hb ltac:(lia) Ht) with (n := MAX_PROBE_DEPTH) (k := 0%nat) as (r & -> & Hr);
    [intros Hin; apply (Hp h Hin); by left | done |]. cbn [obind].
  destruct r as [target |].
  - destruct (Hr target eq_refl) as (Htg & Htg' & m & lsd & Hd & Hci). case_if; [left; split; [done | len_lia] |]. right. cmp_prop.
    destruct (compress_pointer packet off c max_len pending target m lsd (l :: ls)) as (packet' & -> & Hw & Hctx); try (done || lia). cbn [obind].
    by exists packet', (off + 2), c.
  - rewrite label_octets_name. cbn [length]. case_if; [left; split; [done | len_lia] |]. cmp_prop.
    destruct (write_label packet off l) as (packet' & -> & Hb' & Hag & Hrd & Hsl); [done | lia | done | lia | lia |]. cbn [obind].
    set (c1 := if off <? 16384 then _ else c).
    assert (current_generation c1 = current_generation c /\
            forall i, slot c1 i = slot c i \/ slot c1 i = Entry h off (current_generation c)) as [Hcur Hreg].
    { unfold c1. case_if; [apply register_offset_spec | split; [done | by left]]. }
    destruct (IH packet' (off + 1 + len l) c1 max_len (h :: pending)) as [[Hf Hlt] | (p2 & off2 & c2 & Hok & Hw & Hle & Hctx)].
    + lia.
    + done.
    + lia.
    + destruct Hag as [<- _]. done.
    + done.
    + unfold c1. case_if; [by apply register_gen_ok | done].
    + eapply (table_label g packet); done || lia.
    + done.
    + done.
    + intros x [<- | Hin]; [by rewrite <- list_elem_of_In | intros Hx; apply (Hp x Hin); by right].
    + left. split; [done | lia].
    + right. exists p2, off2, c2. split_and!; try done. destruct Hw as (Hb2 & Hag2 & Hrange & (n & ls' & Hd & Hci) & Hend).
      split_and!.
      * done.
      * eapply (agree_trans packet packet'); [| done | done]. lia.
      * lia.
      * rewrite length_wire_name. lia.
      * exists (S n), (l :: ls'). split; [| unfold ci in *; cbn; by rewrite Hci].
        eapply hdecodes_label; [right; lia | lia | rewrite <- (agree_rd packet' p2 (off + 1 + len l)); [done | done | lia] | done | lia | | done].
        by rewrite <- (agree_slice packet' p2 (off + 1 + len l)) by (done || lia).
      * eapply end_label; [rewrite <- (agree_rd packet' p2 (off + 1 + len l)); [done | done | lia] | done | done].
Qed.

Lemma collect_labels_spec ls : forall fuel,
  Forall label_wf ls -> (length ls <= fuel)%nat -> collect_labels fuel (wire_name ls) = Ret (suffixes ls).
Proof.
  induction ls as [| l ls IH]; intros fuel Hls Hf; [by destruct fuel |]. apply Forall_cons_1 in Hls as [[_ Hl] Hls].
  destruct fuel as [| fuel]; [cbn in Hf; lia |]. cbn [suffixes]. rewrite wire_name_cons. cbn [collect_labels].
  rewrite (proj2 (Z.eqb_neq _ 0)) by lia. rewrite Nat2Z.id, drop_app_length, IH by (done || (cbn in Hf; lia)). done.
Qed.

Lemma suffix_hashes_spec ls : Forall label_wf ls -> suffix_hashes (suffixes ls) = name_hashes ls.
Proof.
  induction ls as [| l ls IH]; intros Hls; [done |]. apply Forall_cons_1 in Hls as [_ Hls].
  cbn [suffixes suffix_hashes name_hashes]. rewrite IH, wire_name_cons by done. by rewrite Nat2Z.id, take_app_length.
Qed.

(** A name the compressor is given: labels of the right size, at most 127 of
    them, and no two of its suffixes with the same 32-bit hash. *)
Definition name_ok (ls : list (list Z)) : Prop := Forall label_wf ls /\ (length ls <= 127)%nat /\ NoDup (name_hashes ls).

Lemma compress_name_hole packet off c max_len ls : g + 2 <= off ->
  bytes packet -> 0 <= off <= max_len -> max_len <= len packet -> max_len <= 65535 -> hctx_ok g packet off c -> name_ok ls ->
  let r := compress_name packet off (wire_name ls) c max_len in
  (r = Fail /\ max_len < off + len (wire_name ls)) \/
  exists packet' off' c', r = Ret (packet', off', c') /\ written g packet off ls packet' off' /\ off' <= max_len /\ hctx_ok g packet' off' c'.
Proof.
  intros Hh Hb Ho Hm H6 [Hg Ht] (Hls & Hn & Hnd). unfold compress_name. rewrite collect_labels_spec by done. cbn [obind]. rewrite suffix_hashes_spec by done.
  by apply (compress_labels_spec ls) with (pending := []).
Qed.

End Hole.

Lemma compress_name_spec packet off c max_len ls :
  bytes packet -> 0 <= off <= max_len -> max_len <= len packet -> max_len <= 65535 -> ctx_ok packet off c -> name_ok ls ->
  let r := compress_name packet off (wire_name ls) c max_len in
  (r = Fail /\ max_len < off + len (wire_name ls)) \/
  exists packet' off' c', r = Ret (packet', off', c') /\ written no_hole packet off ls packet' off' /\ off' <= max_len /\ ctx_ok packet' off' c'.
Proof. intros Hb Ho Hm H6 Hc Hls. apply compress_name_hole; try done. unfold no_hole. lia. Qed.

(** The names of the packet so far are before a new hole; and when the hole is
    filled they are what they were. *)
Lemma ctx_open h packet off c : bytes packet -> off <= h -> ctx_ok packet off c -> hctx_ok h packet off c.
Proof.
  intros Hb Hh [Hg Ht]. split; [done |]. intros i Hi. destruct (Ht i Hi) as [Ho [(n & ls & Hd) | [_ []]]]. split; [done |]. left. exists n, ls.
  apply decodes_hdecodes; [done | lia | by left |]. by eapply hdecodes_decodes.
Qed.

Lemma ctx_fill h packet packet' off c : bytes packet' -> agree_clear h packet packet' off -> hctx_ok h packet off c -> ctx_ok packet' off c.
Proof.
  intros Hb Hag [Hg Ht]. split; [done |]. intros i Hi. destruct (Ht i Hi) as [Ho [(n & ls & Hd) | [_ []]]]. split; [done |]. left. exists n, ls.
  apply decodes_hdecodes; [done | lia | by right |]. eapply hdecodes_decodes, hdecodes_clear; [exact Hag | lia | done].
Qed.

Lemma hctx_mono h a b n m c : agree a b n -> n <= m -> hctx_ok h a n c -> hctx_ok h b m c.
Proof.
  intros Hag Hm [Hg Ht]. split; [done |]. intros i Hi. destruct (Ht i Hi) as [Ho [(k & ls & Hd) | [_ []]]]. split; [lia |]. left. exists k, ls.
  by eapply hdecodes_mono.
Qed.

(** A new packet: the entries of the previous one are free. *)
Lemma init_packet_ok packet off c : gen_ok c -> ctx_ok packet off (compress_ctx_init_packet c).
Proof.
  intros [Hc Hg]. unfold compress_ctx_init_packet.
  assert (forall i, slot (Ctx ∅ 1) i = entry_zero) as Hz by (intros; unfold slot; cbn; by rewrite lookup_empty).
  destruct (Z.eqb_spec (u16 (current_generation c + 1)) 0) as [E | E].
  - split; [split; [done |]; intros i; rewrite Hz; cbn; lia |]. intros i. by rewrite Hz.
  - assert (u16 (current_generation c + 1) = current_generation c + 1) as ->.
    { apply u16_small. destruct (decide (current_generation c = 65535)) as [E' | ?]; [by rewrite E' in E | lia]. }
    split; [split; cbn; [| intros i; specialize (Hg i); change (slot (Ctx (table c) _) i) with (slot c i); lia] |].
    + destruct (decide (current_generation c = 65535)) as [E' | ?]; [by rewrite E' in E | lia].
    + intros i Hi. specialize (Hg i). change (slot (Ctx (table c) _) i) with (slot c i) in *. cbn in Hi. lia.
Qed.

Lemma init_gen_ok : gen_ok compress_ctx_init.
Proof. split; [cbn; lia |]. intros i. unfold slot. cbn. rewrite lookup_empty. cbn. lia. Qed.

(** ** Registering the question *)

Lemma collect_offsets_spec packet B :
  bytes packet -> B <= len packet -> forall n fuel p ls, 0 <= p -> decodes packet B n p ls ->
  exists r, collect_offsets fuel packet p = Ret r /\
    forall l, r = Some l -> Forall (fun o => 0 <= o /\ exists b l', rd packet o = Ret b /\ slice packet (o + 1) b = Ret l' /\
                                       exists n' ls', decodes packet B n' o ls') l.
Proof.
  intros Hb HB. induction n as [n IH] using lt_wf_ind. intros fuel p ls Hp Hd. pose proof Hd as Hd0.
  apply (decodes_inv packet B Hb) in Hd as (Hlt & b & Hr & Hbb & Hd).
  destruct Hd as [(-> & -> & ->) | [(Hk & Hfit & n' & l & ls' & -> & -> & Hs & Hd) | (Hk & _ & _)]].
  - destruct fuel; cbn [collect_offsets]; rewrite Hr; cbn; eexists; (split; [done |]); intros l [= <-]; constructor.
  - destruct fuel as [| fuel]; cbn [collect_offsets]; rewrite Hr; cbn [obind]; rewrite (proj2 (Z.eqb_neq b 0)) by lia; [by exists None |].
    case_if; [by exists None |]. case_if; [by exists None |]. cmp_prop. rewrite u16_small, Z.add_assoc by lia.
    destruct (IH n' ltac:(lia) fuel (p + 1 + b) ls') as (r & -> & Hrest); [lia | done |]. cbn [obind].
    eexists. split; [done |]. intros l0. destruct r as [l1 |]; [| done]. intros [= <-]. constructor; [| by apply Hrest].
    split; [done |]. exists b, l. split_and!; [done | done |]. by exists (S n'), (l :: ls').
  - destruct fuel as [| fuel]; cbn [collect_offsets]; rewrite Hr; cbn [obind]; rewrite (proj2 (Z.eqb_neq b 0)) by lia; [by exists None |].
    case_if; [by exists None |]. case_if; [by exists None |]. apply negb_false_iff, Z.eqb_eq, octet_label in E0; [lia | done].
Qed.

Lemma register_name_ok packet off start c n ls :
  bytes packet -> off <= len packet -> 0 <= start -> decodes packet off n start ls -> ctx_ok packet off c ->
  exists c', register_wire_name_for_compression packet start c = Ret c' /\ ctx_ok packet off c'.
Proof.
  intros Hb Hl Hs Hd Hc. unfold register_wire_name_for_compression.
  destruct (collect_offsets_spec packet off Hb Hl n 127 start ls Hs Hd) as (r & -> & Hr). cbn [obind].
  destruct r as [offs |]; [| by exists c]. specialize (Hr offs eq_refl).
  assert (exists hs, offset_hashes packet offs = Ret hs) as (hs & ->).
  { clear -Hr. induction Hr as [| o offs (_ & b & l & Hb & Hs & _) Hr (hs & IH)]; [by exists [] |]. cbn [offset_hashes].
    rewrite IH, Hb. cbn [obind]. rewrite Hs. by eexists. }
  cbn [obind]. eexists. split; [done |]. revert hs c Hc.
  induction Hr as [| o offs (Ho & _ & _ & _ & _ & m & ls' & Hdo) Hr IH]; intros [| h hs] c Hc; try done. cbn [combine foldl]. apply IH.
  destruct Hc as [Hg Ht]. split; [by apply register_gen_ok |]. intros i Hi.
  destruct (register_offset_spec MAX_PROBE_DEPTH 0 c h o) as [Hcur Hreg]. rewrite Hcur in Hi.
  destruct (Hreg i) as [E | E]; rewrite E in *; [by apply Ht |].
  apply (decodes_inv packet off Hb) in Hdo as Hlt. destruct Hlt as [Hlt _]. split; [done |]. left. exists m, ls'.
  apply decodes_hdecodes; [done | done | by right | done].
Qed.

(** ** A whole packet: the question and names between other octets *)

Inductive item := Question (ls : list (list Z)) | Name (ls : list (list Z)) | Octets (bs : list Z).

Fixpoint emit (items : list item) (packet : list Z) (off : Z) (c : compress_ctx_t) (max_len : Z) :
    outcome (list Z * Z * list (Z * list (list Z))) :=
  match items with
  | [] => Ret (packet, off, [])
  | Question ls :: items' =>
      fail_if max_len <? off + len (wire_name ls) ;;
      let! packet' := wr_list packet off (wire_name ls) in
      let! c' := register_wire_name_for_compression packet' off c in
      let! '(packet'', off'', names) := emit items' packet' (off + len (wire_name ls)) c' max_len in
      Ret (packet'', off'', (off, ls) :: names)
  | Name ls :: items' =>
      let! '(packet', off', c') := compress_name packet off (wire_name ls) c max_len in
      let! '(packet'', off'', names) := emit items' packet' off' c' max_len in
      Ret (packet'', off'', (off, ls) :: names)
  | Octets bs :: items' =>
      fail_if max_len <? off + len bs ;;
      let! packet' := wr_list packet off bs in
      emit items' packet' (off + len bs) c max_len
  end.

Definition item_ok (i : item) : Prop :=
  match i with Question ls => Forall label_wf ls | Name ls => Forall label_wf ls /\ (length ls <= 127)%nat | Octets bs => bytes bs end.

(** No two suffixes of a name that is compressed have the same hash. *)
Definition item_hashes (i : item) : Prop := match i with Name ls => NoDup (name_hashes ls) | _ => True end.

Lemma emit_spec items : forall packet off c max_len,
  bytes packet -> 0 <= off <= max_len -> max_len <= len packet -> max_len <= 65535 -> ctx_ok packet off c -> Forall item_ok items -> Forall item_hashes items ->
  emit items packet off c max_len = Fail \/
  exists packet' off' names, emit items packet off c max_len = Ret (packet', off', names) /\
    agree packet packet' off /\ off <= off' <= max_len /\
    Forall (fun '(o, ls) => exists n ls', decodes packet' off' n o ls' /\ ci ls' ls) names.
Proof.
  induction items as [| [ls | ls | bs] items IH]; intros packet off c max_len Hb Ho Hm H6 Hc Hi Hh; cbn [emit].
  - right. exists packet, off, []. split_and!; [done | done | lia | lia | constructor].
  - apply Forall_cons_1 in Hi as [Hn Hi]. apply Forall_cons_1 in Hh as [Hn' Hh]. cbn in Hn. case_if; [by left |]. cmp_prop. rewrite wr_list_splice by lia. cbn [obind].
    set (p1 := splice packet off (wire_name ls)).
    assert (agree packet p1 off) as Hag by (apply agree_splice; lia).
    assert (bytes p1) as Hb1 by (apply bytes_splice; [done | by apply wire_name_bytes]).
    assert (len p1 = len packet) as Hl1 by (destruct Hag as [<- _]; done).
    destruct (wire_decodes ls p1 (off + len (wire_name ls)) off (drop (Z.to_nat off + length (wire_name ls)) packet)) as [Hd _];
      [lia | apply drop_splice; lia | lia | lia | done |].
    destruct (register_name_ok p1 (off + len (wire_name ls)) off c (length ls) ls) as (c1 & -> & Hc1); [done | lia | lia | done | |].
    { eapply hctx_mono; [done | lia | done]. }
    cbn [obind]. destruct (IH p1 (off + len (wire_name ls)) c1 max_len) as [-> | (p2 & o2 & names & -> & Hag2 & Hr2 & Hnames)];
      [done | lia | lia | done | done | done | done | by left |].
    right. cbn [obind]. exists p2, o2, ((off, ls) :: names). split_and!; [done | | lia | lia |].
    + eapply agree_trans; [| done | done]. lia.
    + constructor; [| done]. exists (length ls), ls. split; [| done]. eapply decodes_mono; [done | lia | done].
  - apply Forall_cons_1 in Hi as [Hn Hi]. apply Forall_cons_1 in Hh as [Hn' Hh].
    destruct (compress_name_spec packet off c max_len ls Hb Ho Hm H6 Hc) as [[-> _] | (p1 & o1 & c1 & -> & Hw & Hle & Hc1)]; [by split_and!; [apply Hn | apply Hn |] | by left |].
    cbn [obind]. destruct Hw as (Hb1 & Hag1 & Hr1 & (n & ls' & Hd%hdecodes_decodes & Hci) & _).
    destruct (IH p1 o1 c1 max_len) as [-> | (p2 & o2 & names & -> & Hag2 & Hr2 & Hnames)]; [done | lia | by destruct Hag1 as [<- _] | done | done | done | done | by left |].
    right. cbn [obind]. exists p2, o2, ((off, ls) :: names). split_and!; [done | | lia | lia |].
    + eapply agree_trans; [| done | done]. lia.
    + constructor; [| done]. exists n, ls'. split; [| done]. eapply decodes_mono; [done | lia | done].
  - apply Forall_cons_1 in Hi as [Hbs Hi]. apply Forall_cons_1 in Hh as [_ Hh]. case_if; [by left |]. cmp_prop. rewrite wr_list_splice by lia. cbn [obind].
    assert (agree packet (splice packet off bs) off) as Hag by (apply agree_splice; lia).
    destruct (IH (splice packet off bs) (off + len bs) c max_len) as [-> | (p2 & o2 & names & -> & Hag2 & Hr2 & Hnames)].
    + by apply bytes_splice.
    + lia.
    + by destruct Hag as [<- _].
    + done.
    + eapply hctx_mono; [done | lia | done].
    + done.
    + done.
    + by left.
    + right. exists p2, o2, names. split_and!; [done | | lia | lia | done]. eapply agree_trans; [| done | done]. lia.
Qed.

(** ** Names in text form *)

Lemma append_labels_spec ls : forall pre,
  len (wire_labels pre) <= 255 -> Forall (fun l => len l <= 63) ls ->
  ofold append_label ls (wire_labels pre) =
  (let W := wire_labels (pre ++ List.filter nonempty ls) in if len W <=? 255 then Ret W else Fail).
Proof.
  induction ls as [| l ls IH]; intros pre Hp Hls; cbn zeta.
  { cbn [ofold List.filter]. rewrite app_nil_r. case_if; [done | ex_lia]. }
  apply Forall_cons_1 in Hls as [Hl Hls]. cbn [ofold List.filter]. unfold append_label at 1. fold (nonempty l).
  destruct (nonempty l); [| by apply IH].
  assert (wire_labels (pre ++ [l]) = wire_labels pre ++ len l :: l) as Hw
    by (rewrite wire_labels_app; f_equal; unfold wire_labels; cbn; by rewrite app_nil_r).
  assert (len (wire_labels (pre ++ l :: List.filter nonempty ls)) =
          len (wire_labels pre) + 1 + len l + len (wire_labels (List.filter nonempty ls))) as Hlen
    by (rewrite wire_labels_app, wire_labels_cons, length_app; cbn [length]; rewrite length_app; lia).
  case_if; [cbn [obind]; case_if; [ex_lia | done] |]. cmp_prop.
  rewrite u8_small by lia. rewrite put_in by lia. cbn [obind]. rewrite put_list_in by (rewrite length_app; len_lia). cbn [obind].
  rewrite <- app_assoc. cbn [app]. rewrite <- Hw, IH; [by rewrite <- app_assoc | rewrite Hw, length_app; len_lia | done].
Qed.

Lemma write_dns_name_str_spec packet off name c max_len ls :
  bytes name -> text_labels name = Ret ls ->
  write_dns_name_str packet off name (Some c) max_len =
  (let W := wire_name (List.filter nonempty ls) in
   if len W <=? 255 then let! '(packet', off', c') := compress_name packet off W c max_len in Ret (packet', off', Some c') else Fail).
Proof.
  intros Hb Hls. unfold write_dns_name_str. pose proof Hls as Hp. unfold text_labels in Hp. rewrite (for_labels_Ret _ _ _ _ _ Hp).
  apply text_labels_wf in Hls; [| done]. change (@nil Z) with (wire_labels []).
  rewrite append_labels_spec; [| done | eapply Forall_impl; [done |]; by intros ? [? ?]]. cbn zeta. cbn [app].
  unfold wire_name. rewrite length_app. set (W := wire_labels _). cbn [length].
  case_if; cbn [obind].
  2: { case_if; [ex_lia | done]. }
  case_if; case_if; try ex_lia; [done |]. by rewrite put_in by len_lia.
Qed.

(** ** Properties *)

(** C16. A name compressed into a packet of at most 65535 octets is read back,
    if no two of its suffixes have the same 32-bit FNV hash: [compress_name]
    fails only when the uncompressed name would not fit, leaves every octet
    before the offset alone, never writes more than the uncompressed form, and
    the position then denotes the name up to the case of letters, inside the
    part of the packet written so far. The table stays correct for the next
    name. The condition on the hashes of the name is needed
    ([compress_name_collision_loop]); names that are already in the packet may
    have any hashes. *)
Theorem compress_name_correct (packet : list Z) (off : Z) (c : compress_ctx_t) (max_len : Z) (ls : list (list Z)) :
  bytes packet -> 0 <= off <= max_len -> max_len <= len packet -> max_len <= 65535 -> ctx_ok packet off c -> Forall label_wf ls -> (length ls <= 127)%nat -> NoDup (name_hashes ls) ->
  let r := compress_name packet off (wire_name ls) c max_len in
  (r = Fail /\ max_len < off + len (wire_name ls)) \/
  exists packet' off' c', r = Ret (packet', off', c') /\ bytes packet' /\ agree packet packet' off /\
    off < off' <= off + len (wire_name ls) /\ off' <= max_len /\
    (exists n ls', decodes packet' off' n off ls' /\ ci ls' ls) /\ name_end packet' off off' /\ ctx_ok packet' off' c'.
Proof.
  intros Hb Ho Hm H6 Hc Hls Hn Hh. destruct (compress_name_spec packet off c max_len ls Hb Ho Hm H6 Hc) as [H | (p & o & c' & -> & Hw & Hle & Hok)]; [by split_and! | by left |].
  right. exists p, o, c'. destruct Hw as (? & ? & ? & (n & ls' & Hd%hdecodes_decodes & ?) & ?). split_and!; [done | done | done | lia | lia | done | by exists n, ls' | done | done].
Qed.

Definition ex_name : list (list Z) := [str "www"; str "example"; str "org"].

Lemma ex_name_ok : name_ok ex_name.
Proof.
  split_and!; [| cbn; lia | apply NoDup_check; by vm_compute].
  repeat (apply Forall_cons_2; [split; [bytes_lit | vm_compute; split; congruence] |]). apply Forall_nil_2.
Qed.

Lemma compress_name_correct_witness :
  let packet := replicate 64 0 in let c := compress_ctx_init_packet compress_ctx_init in
  let r := compress_name packet 12 (wire_name ex_name) c 64 in
  (r = Fail /\ 64 < 12 + len (wire_name ex_name)) \/
  exists packet' off' c', r = Ret (packet', off', c') /\ bytes packet' /\ agree packet packet' 12 /\
    12 < off' <= 12 + len (wire_name ex_name) /\ off' <= 64 /\
    (exists n ls', decodes packet' off' n 12 ls' /\ ci ls' ex_name) /\ name_end packet' 12 off' /\ ctx_ok packet' off' c'.
Proof.
  intros packet c. apply (compress_name_correct packet 12 c 64 ex_name);
    [bytes_lit | lia | vm_compute; congruence | lia | apply init_packet_ok, init_gen_ok | apply ex_name_ok | apply ex_name_ok | apply ex_name_ok].
Defined.

(** C17. A whole message of at most 65535 octets: starting a packet frees the
    entries of the previous one, and however the question, names and other
    octets follow each other, every name written can be read from the finished
    packet as the name it was, up to the case of letters, if in none of the
    names that are compressed two suffixes have the same 32-bit FNV hash
    ([item_hashes]; needed, as [compress_name_collision_loop] shows). Suffixes
    of different names may have the same hash. *)
Theorem compressed_packet_readable (items : list item) (packet : list Z) (off : Z) (c : compress_ctx_t) (max_len : Z) :
  bytes packet -> 0 <= off <= max_len -> max_len <= len packet -> max_len <= 65535 -> gen_ok c -> Forall item_ok items -> Forall item_hashes items ->
  emit items packet off (compress_ctx_init_packet c) max_len = Fail \/
  exists packet' off' names, emit items packet off (compress_ctx_init_packet c) max_len = Ret (packet', off', names) /\
    agree packet packet' off /\ off <= off' <= max_len /\
    Forall (fun '(o, ls) => exists n ls', decodes packet' off' n o ls' /\ ci ls' ls) names.
Proof. intros Hb Ho Hm H6 Hg Hi Hh. apply emit_spec; try done. by apply init_packet_ok. Qed.

Definition ex_items : list item :=
  [Question ex_name; Octets [0; 1; 0; 1]; Name ex_name; Octets [0; 2; 0; 1]; Name [str "NS1"; str "EXAMPLE"; str "org"]].

Lemma compressed_packet_readable_witness :
  let packet := replicate 64 0 in let c := compress_ctx_init_packet compress_ctx_init in
  emit ex_items packet 12 c 64 = Fail \/
  exists packet' off' names, emit ex_items packet 12 c 64 = Ret (packet', off', names) /\
    agree packet packet' 12 /\ 12 <= off' <= 64 /\
    Forall (fun '(o, ls) => exists n ls', decodes packet' off' n o ls' /\ ci ls' ls) names.
Proof.
  intros packet c. apply (compressed_packet_readable ex_items packet 12 compress_ctx_init 64);
    [bytes_lit | lia | vm_compute; congruence | lia | apply init_gen_ok | |].
  - pose proof ex_name_ok as (H1 & H2 & _). apply Forall_cons_2; [exact H1 |]. apply Forall_cons_2; [bytes_lit |]. apply Forall_cons_2; [exact (conj H1 H2) |].
    apply Forall_cons_2; [bytes_lit |]. apply Forall_cons_2; [split; [| cbn; lia] | apply Forall_nil_2].
    repeat (apply Forall_cons_2; [split; [bytes_lit | vm_compute; split; congruence] |]). apply Forall_nil_2.
  - repeat (apply Forall_cons_2; [first [exact I | apply NoDup_check; by vm_compute] |]). apply Forall_nil_2.
Defined.

(** The condition on the hashes is needed: the guard "never use an entry
    that points at the name itself or behind it" compares with the current
    offset and lets the labels of the name being written through.  A label
    whose hash equals the FNV offset basis gives the two suffixes of
    "khesp5y.khesp5y" the same hash; with a zero octet left behind the first
    label in the buffer, the second label becomes a pointer to the first one,
    which is a loop: no reader can decode the name. *)
Theorem compress_name_collision_loop :
  let l := str "khesp5y" in
  name_hashes [l; l] = [2166136261; 2166136261] /\
  match compress_name (replicate 64 0) 12 (wire_name [l; l]) (compress_ctx_init_packet compress_ctx_init) 64 with
  | Ret (packet', off', _) =>
      off' = 22 /\ rd packet' 20 = Ret 192 /\ rd packet' 21 = Ret 12 /\ skip_wire_name packet' off' 12 = Fail
  | _ => False
  end.
Proof. vm_compute. done. Qed.

End Compress.
