(* ===== verification/RrlKey.v ===== *)
(** * Response rate limiting: keys and decisions (src/dns_rrl.c)

    The class of a response, the key it is counted under, the octets of the
    key that are hashed, and the decision [rrl_check_key] built on
    [Rrl.rrl_debit]: exempt clients, the limit per key, the limit per client
    and the log-only mode. *)

From S2P Require Import Prelude.
From S2P Require Import CLib.
From S2P Require Import Siphash.
From S2P Require Import Cidr.
From S2P Require Import Acl.
From S2P Require Import DnsName.
From S2P Require Import NameText.
From S2P Require Import WireName.
From S2P Require Import Rrl.

Module RrlKey.
Import CLib Siphash Cidr DnsName NameText WireName Rrl.

(** ** Data *)

Inductive rrl_response_class_t :=
| RRL_RESP_NOERROR | RRL_RESP_NODATA | RRL_RESP_NXDOMAIN | RRL_RESP_ERROR | RRL_RESP_REFERRAL | RRL_RESP_ALL.

#[export] Instance rrl_response_class_eq_dec : EqDecision rrl_response_class_t.
Proof. solve_decision. Defined.

Definition class_code (c : rrl_response_class_t) : Z :=
  match c with
  | RRL_RESP_NOERROR => 0 | RRL_RESP_NODATA => 1 | RRL_RESP_NXDOMAIN => 2
  | RRL_RESP_ERROR => 3 | RRL_RESP_REFERRAL => 4 | RRL_RESP_ALL => 5
  end.

Record rrl_key_t := RrlKey {
  cls : rrl_response_class_t;
  name : option (list Z);
  wildcard : bool;
  qtype : Z;
  qclass : Z
}.

(** [.cls = c] and everything else zero. *)
Definition key_of_class (c : rrl_response_class_t) : rrl_key_t := RrlKey c None false 0 0.

(** The fields of [rate_limit_config_t] the limiter reads; [exempt_clients]
    are the texts, [exempt_clients_parsed] is NULL if they were not parsed. *)
Record rate_limit_config_t := RateLimitConfig {
  configured : bool;
  log_only : bool;
  responses_per_second : Z;
  nodata_per_second : Z;
  nxdomains_per_second : Z;
  errors_per_second : Z;
  referrals_per_second : Z;
  all_per_second : Z;
  ipv4_prefix_length : Z;
  ipv6_prefix_length : Z;
  ipv4_prefix_length_set : bool;
  ipv6_prefix_length_set : bool;
  window_seconds : Z;
  slip : Z;
  exempt_clients : list (list Z);
  exempt_clients_parsed : option (list cidr_entry_t)
}.

(** ** Operations: the class and the key of a response *)

Definition get_rrl_class (res_buf : list Z) (res_len : Z) : outcome rrl_response_class_t :=
  if res_len <? DNS_HEADER_SIZE then Ret RRL_RESP_ERROR
  else
    let! b3 := rd res_buf 3 in
    let rcode := Z.land b3 15 in
    let! ancount := rd16 res_buf 6 in
    let! nscount := rd16 res_buf 8 in
    if rcode =? 3 then Ret RRL_RESP_NXDOMAIN
    else if rcode =? 0 then
      if 0 <? ancount then Ret RRL_RESP_NOERROR
      else
        let! b2 := rd res_buf 2 in
        if (Z.land b2 4 =? 0) && (0 <? nscount) then Ret RRL_RESP_REFERRAL
        else Ret RRL_RESP_NODATA
    else Ret RRL_RESP_ERROR.

(** Skip [n] questions. *)
Fixpoint skip_questions (n : nat) (res : list Z) (res_len off : Z) : outcome Z :=
  match n with
  | O => Ret off
  | S n' =>
      let! next := skip_wire_name res res_len off in
      fail_if res_len <? next + 4 ;;
      skip_questions n' res res_len (next + 4)
  end.

(** The name, without its terminator. *)
Definition rrl_referral_name (res : list Z) (res_len cap : Z) : outcome (list Z) :=
  let! qdcount := rd16 res 4 in
  let! ancount := rd16 res 6 in
  let! off := skip_questions (Z.to_nat qdcount) res res_len DNS_HEADER_SIZE in
  let! off := skip_rrs (Z.to_nat ancount) res res_len off in
  let! '(out, _) := expand_wire_name_to_buffer res res_len off cap in
  let n := len out in
  fail_if n <=? 0 ;;
  let! c := if 2 <? n then rd out (n - 2) else Ret 0 in
  Ret (if (2 <? n) && (c =? DOT) then take (Z.to_nat (n - 2)) out else take (Z.to_nat (n - 1)) out).

(** [namebuf] is present with its capacity, or NULL. *)
Definition rrl_make_key (res : list Z) (res_len : Z) (qname : list Z) (qt qc : Z) (zone : option (list Z)) (wild : bool)
    (namebuf : option Z) : outcome rrl_key_t :=
  let! c := get_rrl_class res res_len in
  match c with
  | RRL_RESP_NOERROR | RRL_RESP_NODATA =>
      match wild, zone with
      | true, Some z => Ret (RrlKey c (Some z) true qt qc)
      | _, _ => Ret (RrlKey c (Some qname) false qt qc)
      end
  | RRL_RESP_NXDOMAIN => Ret (RrlKey c (Some (match zone with Some z => z | None => qname end)) false qt qc)
  | RRL_RESP_REFERRAL =>
      match namebuf with
      | None => Ret (RrlKey c (Some qname) false qt qc)
      | Some cap =>
          match rrl_referral_name res res_len cap with
          | Ret n => Ret (RrlKey c (Some n) false qt qc)
          | Fail => Ret (RrlKey c (Some qname) false qt qc)
          | Oob => Oob
          | NoFuel => NoFuel
          end
      end
  | _ => Ret (RrlKey c None false qt qc)
  end.

Definition rrl_rate (cfg : rate_limit_config_t) (c : rrl_response_class_t) : Z :=
  match c with
  | RRL_RESP_NOERROR => responses_per_second cfg
  | RRL_RESP_NODATA => nodata_per_second cfg
  | RRL_RESP_NXDOMAIN => nxdomains_per_second cfg
  | RRL_RESP_REFERRAL => referrals_per_second cfg
  | RRL_RESP_ALL => all_per_second cfg
  | RRL_RESP_ERROR => errors_per_second cfg
  end.

(** ** Operations: the octets of a key *)

(** [sizeof(buf)] *)
Definition KEY_BUF : Z := 2 + 16 + 4 + 2 + DNS_NAME_TEXT_SIZE.

Definition key_mask (plen i : Z) : Z :=
  let bits := if i * 8 <? plen then plen - i * 8 else 0 in
  if 8 <=? bits then 255 else u8 (Z.shiftl 255 (8 - bits)).

(** [for (i = 0; i < addr_len; i++) buf[n++] = addr[i] & mask;] *)
Fixpoint put_addr (n : nat) (i plen : Z) (addr buf : list Z) : outcome (list Z) :=
  match n with
  | O => Ret buf
  | S n' =>
      let! a := rd addr i in
      let! buf := put KEY_BUF buf (Z.land a (key_mask plen i)) in
      put_addr n' (i + 1) plen addr buf
  end.

(** [for (i = 0; i < name_len && n < sizeof(buf); i++)] *)
Fixpoint put_name (nm buf : list Z) : outcome (list Z) :=
  match nm with
  | [] => Ret buf
  | c :: nm' =>
      if len buf <? KEY_BUF then
        let! buf := put KEY_BUF buf (lc c) in put_name nm' buf
      else Ret buf
  end.

Definition name_part (nm : list Z) : list Z :=
  let n := length nm in
  if (Nat.ltb 1 n) && (chr nm (n - 1) =? DOT) && negb (dns_char_is_escaped nm (n - 1)) then take (n - 1) nm else nm.

Definition key_bytes (client_addr : sockaddr) (key : rrl_key_t) (cfg : rate_limit_config_t) : outcome (list Z) :=
  let! buf := put KEY_BUF [] (class_code (cls key)) in
  let! buf := put KEY_BUF buf (u8 (sa_family client_addr)) in
  let! buf :=
    if sa_family client_addr =? AF_INET6
    then put_addr 16 0 (if ipv6_prefix_length_set cfg then ipv6_prefix_length cfg else 56) (sa_addr client_addr) buf
    else put_addr 4 0 (if ipv4_prefix_length_set cfg then ipv4_prefix_length cfg else 24) (sa_addr client_addr) buf in
  let! buf :=
    match cls key with
    | RRL_RESP_NOERROR =>
        let! buf := put KEY_BUF buf (u8 (Z.shiftr (qtype key) 8)) in put KEY_BUF buf (u8 (qtype key))
    | _ => Ret buf
    end in
  let! buf :=
    match cls key with
    | RRL_RESP_NOERROR | RRL_RESP_NODATA | RRL_RESP_REFERRAL =>
        let! buf := put KEY_BUF buf (u8 (Z.shiftr (qclass key) 8)) in put KEY_BUF buf (u8 (qclass key))
    | _ => Ret buf
    end in
  match name key, cls key with
  | None, _ | _, RRL_RESP_ERROR | _, RRL_RESP_ALL => Ret buf
  | Some nm, _ =>
      let! buf :=
        if wildcard key then let! buf := put KEY_BUF buf 42 in put KEY_BUF buf DOT else Ret buf in
      put_name (name_part nm) buf
  end.

Definition rrl_key_hash (k : Z * Z) (client_addr : sockaddr) (key : rrl_key_t) (cfg : rate_limit_config_t) : outcome Z :=
  let! buf := key_bytes client_addr key cfg in
  let! h := dns_siphash24 buf (len buf) k in
  Ret (if h =? 0 then 1 else h).

(** ** Operations: the decision *)

Definition rrl_window (cfg : rate_limit_config_t) : Z :=
  let w := if 0 <? window_seconds cfg then window_seconds cfg else 15 in
  if 3600 <? w then 3600 else w.

(** The table and the two counters. *)
Record rrl_state := RrlState { buckets : table; dropped_total : Z; slip_total : Z }.

Section Decision.
Context `{InetPton}.

(** [inet_ntop], used where the exempt list could not be parsed. *)
Variable inet_ntop : Z -> list Z -> list Z.

(** The key of the hash, drawn at start-up. *)
Variable g_rrl_hash_key : Z * Z.

Fixpoint any_match {A} (f : A -> outcome bool) (l : list A) : outcome bool :=
  match l with
  | [] => Ret false
  | x :: l' => let! m := f x in if m then Ret true else any_match f l'
  end.

Definition rrl_is_exempt (client_addr : sockaddr) (cfg : rate_limit_config_t) : outcome bool :=
  match exempt_clients_parsed cfg with
  | Some l => any_match (fun e => cidr_entry_match_sockaddr e (Some client_addr)) l
  | None =>
      let ip_str :=
        if (sa_family client_addr =? AF_INET) || (sa_family client_addr =? AF_INET6)
        then inet_ntop (sa_family client_addr) (sa_addr client_addr) else [] in
      any_match (match_cidr ip_str) (exempt_clients cfg)
  end.

(** Debit the bucket of one key and merge its verdict into the decision. *)
Definition debit_key (client_addr : sockaddr) (key : rrl_key_t) (cfg : rate_limit_config_t) (rate now_ms : Z) (t : table)
    (allow out_slip : bool) : outcome (table * bool * bool) :=
  let! h := rrl_key_hash g_rrl_hash_key client_addr key cfg in
  let '(t', v) := rrl_debit t h rate (rrl_window cfg) (slip cfg) now_ms in
  Ret (match v with Limited sl => (t', false, sl) | _ => (t', allow, out_slip) end).

(** The new state, the return value and [*out_slip]. *)
Definition rrl_check_key (st : rrl_state) (client_addr : option sockaddr) (key : rrl_key_t) (cfg : rate_limit_config_t) (now_ms : Z) :
    outcome (rrl_state * bool * bool) :=
  if negb (configured cfg) then Ret (st, true, false)
  else match client_addr with
  | None => Ret (st, true, false)
  | Some sa =>
      if negb (sa_family sa =? AF_INET) && negb (sa_family sa =? AF_INET6) then Ret (st, true, false)
      else
        let rate := rrl_rate cfg (cls key) in
        if (rate =? 0) && (all_per_second cfg =? 0) then Ret (st, true, false)
        else
          let! exempt := rrl_is_exempt sa cfg in
          if exempt then Ret (st, true, false)
          else
            let! '(t, allow, out_slip) :=
              if 0 <? rate then debit_key sa key cfg rate now_ms (buckets st) true false
              else Ret (buckets st, true, false) in
            let! '(t, allow, out_slip) :=
              if 0 <? all_per_second cfg
              then debit_key sa (key_of_class RRL_RESP_ALL) cfg (all_per_second cfg) now_ms t allow out_slip
              else Ret (t, allow, out_slip) in
            let st' :=
              RrlState t
                (if negb allow && negb out_slip then u64 (dropped_total st + 1) else dropped_total st)
                (if negb allow && out_slip then u64 (slip_total st + 1) else slip_total st) in
            if log_only cfg && negb allow then Ret (st', true, false) else Ret (st', allow, out_slip)
  end.

Definition rrl_check (st : rrl_state) (client_addr : option sockaddr) (c : rrl_response_class_t) (cfg : rate_limit_config_t) (now_ms : Z) :
    outcome (rrl_state * bool * bool) :=
  rrl_check_key st client_addr (key_of_class c) cfg now_ms.

Definition rrl_key_exhausted (st : rrl_state) (client_addr : option sockaddr) (key : rrl_key_t) (cfg : rate_limit_config_t) : outcome bool :=
  if negb (configured cfg) then Ret false
  else match client_addr with
  | None => Ret false
  | Some sa =>
      if negb (sa_family sa =? AF_INET) && negb (sa_family sa =? AF_INET6) then Ret false
      else
        let has_rate := 0 <? rrl_rate cfg (cls key) in
        if negb has_rate && (all_per_second cfg =? 0) then Ret false
        else
          let! exempt := rrl_is_exempt sa cfg in
          if exempt then Ret false
          else
            let! e1 :=
              if has_rate then let! h := rrl_key_hash g_rrl_hash_key sa key cfg in Ret (rrl_bucket_empty (buckets st) h)
              else Ret false in
            if e1 then Ret true
            else if 0 <? all_per_second cfg then
              let! h := rrl_key_hash g_rrl_hash_key sa (key_of_class RRL_RESP_ALL) cfg in Ret (rrl_bucket_empty (buckets st) h)
            else Ret false
  end.

Definition rrl_is_client_exhausted (st : rrl_state) (client_addr : option sockaddr) (cfg : rate_limit_config_t) : outcome bool :=
  rrl_key_exhausted st client_addr (key_of_class RRL_RESP_NOERROR) cfg.

End Decision.
(** ** Specification: what requests are counted together *)

(** The address with everything behind the prefix cleared. *)
Definition masked (p : Z) (a : list Z) : list Z := imap (fun i x => Z.land x (mask_byte (p - Z.of_nat i * 8))) a.

Definition plen_of (cfg : rate_limit_config_t) (fam : Z) : Z :=
  if fam =? AF_INET6 then (if ipv6_prefix_length_set cfg then ipv6_prefix_length cfg else 56)
  else (if ipv4_prefix_length_set cfg then ipv4_prefix_length cfg else 24).

Definition be16 (v : Z) : list Z := [u8 (Z.shiftr v 8); u8 v].

Definition counts_qtype (c : rrl_response_class_t) : bool := match c with RRL_RESP_NOERROR => true | _ => false end.
Definition counts_qclass (c : rrl_response_class_t) : bool :=
  match c with RRL_RESP_NOERROR | RRL_RESP_NODATA | RRL_RESP_REFERRAL => true | _ => false end.

(** The name a key is counted under, without case and final dot. *)
Definition counted_name (key : rrl_key_t) : list Z :=
  match name key, cls key with
  | None, _ | _, RRL_RESP_ERROR | _, RRL_RESP_ALL => []
  | Some nm, _ => (if wildcard key then [42; DOT] else []) ++ map lc (name_part nm)
  end.

Definition key_spec (sa : sockaddr) (key : rrl_key_t) (cfg : rate_limit_config_t) : list Z :=
  [class_code (cls key); u8 (sa_family sa)] ++ masked (plen_of cfg (sa_family sa)) (sa_addr sa) ++
  (if counts_qtype (cls key) then be16 (qtype key) else []) ++
  (if counts_qclass (cls key) then be16 (qclass key) else []) ++ counted_name key.

(** A socket address of one of the two families. *)
Definition sockaddr_wf (sa : sockaddr) : Prop :=
  (sa_family sa = AF_INET \/ sa_family sa = AF_INET6) /\ bytes (sa_addr sa) /\ length (sa_addr sa) = family_bytes (sa_family sa).

Definition prefixes_wf (cfg : rate_limit_config_t) : Prop :=
  0 <= ipv4_prefix_length cfg <= 32 /\ 0 <= ipv6_prefix_length cfg <= 128.

(** ** Lemmas *)

Lemma key_mask_spec plen i : key_mask plen i = mask_byte (plen - i * 8).
Proof.
  unfold key_mask, mask_byte. destruct (Z.ltb_spec (i * 8) plen).
  - case_if; [done |]. rewrite (proj2 (Z.ltb_lt _ _)) by lia. change 255 with (Z.ones 8). by rewrite Z.land_ones by lia.
  - rewrite (proj2 (Z.leb_gt 8 (plen - i * 8))) by lia. rewrite (proj2 (Z.ltb_ge 0 _)) by lia. done.
Qed.

Lemma length_masked p a : length (masked p a) = length a.
Proof. apply length_imap. Qed.

Lemma masked_snoc p a x : masked p (a ++ [x]) = masked p a ++ [Z.land x (mask_byte (p - len a * 8))].
Proof. unfold masked. rewrite imap_app. cbn. by rewrite Nat.add_0_r. Qed.

Lemma put_addr_spec plen rest : forall done buf,
  len buf + len rest <= KEY_BUF ->
  put_addr (length rest) (len done) plen (done ++ rest) (buf ++ masked plen done) =
  Ret (buf ++ masked plen (done ++ rest)) \/ KEY_BUF < len buf + len done + len rest.
Proof.
  induction rest as [| x rest IH]; intros done buf Hl; cbn [length put_addr]; [left; by rewrite app_nil_r |].
  destruct (Z.lt_ge_cases KEY_BUF (len buf + len done + len (x :: rest))) as [Hgt | Hle]; [by right | left].
  rewrite rd_app_r by lia. replace (len done - len done) with 0 by lia. rewrite rd_0. cbn [obind].
  rewrite key_mask_spec, put_in by (rewrite length_app, length_masked; len_lia). cbn [obind].
  rewrite <- app_assoc, <- masked_snoc. change (x :: rest) with ([x] ++ rest). rewrite app_assoc.
  replace (len done + 1) with (len (done ++ [x])) by (rewrite length_app; len_lia).
  destruct (IH (done ++ [x]) buf) as [-> | Hgt]; [len_lia | done |]. rewrite length_app in Hgt. len_lia.
Qed.

Lemma put_addr_all plen a buf :
  len buf + len a <= KEY_BUF -> put_addr (length a) 0 plen a buf = Ret (buf ++ masked plen a).
Proof.
  intros Hl. destruct (put_addr_spec plen a [] buf Hl) as [H | H]; [| len_lia].
  cbn [length app] in H. change (masked plen []) with (@nil Z) in H. by rewrite app_nil_r in H.
Qed.

Lemma put_name_spec nm buf : len buf + len nm <= KEY_BUF -> put_name nm buf = Ret (buf ++ map lc nm).
Proof.
  revert buf. induction nm as [| c nm IH]; intros buf Hl; cbn [put_name map]; [by rewrite app_nil_r |].
  rewrite (proj2 (Z.ltb_lt _ _)), put_in by len_lia. cbn [obind]. rewrite IH by (rewrite length_app; len_lia).
  by rewrite <- app_assoc.
Qed.

Lemma put_name_defined nm buf : defined (put_name nm buf).
Proof.
  revert buf. induction nm as [| c nm IH]; intros buf; cbn [put_name]; [apply defined_Ret |].
  destruct (len buf <? KEY_BUF) eqn:E; [| apply defined_Ret]. unfold put. rewrite E. apply IH.
Qed.

Lemma length_name_part nm : (length (name_part nm) <= length nm)%nat.
Proof. unfold name_part. case_if; [rewrite length_take |]; lia. Qed.

Lemma same_prefix_masked p a b :
  bytes a -> bytes b -> length a = length b -> p <= 8 * len a -> same_prefix p a b <-> masked p a = masked p b.
Proof.
  intros Ha Hb Hl Hp.
  assert (forall m : nat, (m <= length a)%nat ->
    prefix_from (len a - Z.of_nat m) p a b <->
    forall i x y, (length a - m <= i)%nat -> a !! i = Some x -> b !! i = Some y ->
      Z.land x (mask_byte (p - Z.of_nat i * 8)) = Z.land y (mask_byte (p - Z.of_nat i * 8))) as Hall.
  { induction m as [| m IH]; intros Hm.
    - split; [intros _ i x y Hi Hx; apply lookup_lt_Some in Hx; lia | intros _; apply prefix_from_done; lia].
    - set (i0 := (length a - S m)%nat). destruct (lookup_lt_is_Some_2 a i0) as [x0 Hx0]; [lia |].
      destruct (lookup_lt_is_Some_2 b i0) as [y0 Hy0]; [lia |].
      replace (len a - Z.of_nat (S m)) with (Z.of_nat i0) by lia.
      rewrite (prefix_from_mask_step (Z.of_nat i0) p a b x0 y0);
        [| done | done | lia | apply rd_Ret; rewrite Nat2Z.id; split; [lia | done] | apply rd_Ret; rewrite Nat2Z.id; split; [lia | done]].
      replace (Z.of_nat i0 + 1) with (len a - Z.of_nat m) by lia. rewrite IH by lia. split.
      + intros [H0 Hr] i x y Hi Hx Hy. destruct (decide (i = i0)) as [-> | Hne]; [by simplify_eq |]. apply Hr; [lia | done | done].
      + intros Hr. split; [by apply Hr |]. intros i x y Hi. apply Hr. lia. }
  rewrite <- prefix_from_0. specialize (Hall (length a) ltac:(lia)). replace (len a - len a) with 0 in Hall by lia. rewrite Hall. split.
  - intros H. apply list_eq. intros i. unfold masked. rewrite !list_lookup_imap.
    destruct (a !! i) as [x |] eqn:Hx; destruct (b !! i) as [y |] eqn:Hy; cbn; try done.
    + f_equal. apply H; [lia | done | done].
    + apply lookup_lt_Some in Hx. apply lookup_ge_None_1 in Hy. lia.
    + apply lookup_lt_Some in Hy. apply lookup_ge_None_1 in Hx. lia.
  - intros H i x y _ Hx Hy. apply (f_equal (fun l => l !! i)) in H. unfold masked in H.
    rewrite !list_lookup_imap, Hx, Hy in H. cbn in H. congruence.
Qed.

Ltac key_length := repeat first [rewrite length_app | progress (cbn [length])]; rewrite ?length_masked.
Ltac put_step := rewrite put_in by (key_length; unfold KEY_BUF, DNS_NAME_TEXT_SIZE; len_lia); cbn [obind].

Lemma put_family_addr sa cfg buf :
  sockaddr_wf sa -> len buf = 2 ->
  (if sa_family sa =? AF_INET6
   then put_addr 16 0 (if ipv6_prefix_length_set cfg then ipv6_prefix_length cfg else 56) (sa_addr sa) buf
   else put_addr 4 0 (if ipv4_prefix_length_set cfg then ipv4_prefix_length cfg else 24) (sa_addr sa) buf) =
  Ret (buf ++ masked (plen_of cfg (sa_family sa)) (sa_addr sa)).
Proof.
  intros (Hf & _ & Hl) Hb. unfold plen_of. destruct Hf as [E | E]; rewrite E in *; cbn [Z.eqb AF_INET AF_INET6 Pos.eqb];
    cbn in Hl; rewrite <- Hl; apply put_addr_all; rewrite Hl; unfold KEY_BUF, DNS_NAME_TEXT_SIZE; len_lia.
Qed.

Lemma length_sa_addr sa : sockaddr_wf sa -> len (sa_addr sa) <= 16.
Proof. intros ([E | E] & _ & Hl); rewrite E in Hl; cbn in Hl; lia. Qed.

Definition name_fits (key : rrl_key_t) : Prop := forall nm, name key = Some nm -> len nm <= DNS_NAME_TEXT_SIZE.

Lemma key_bytes_spec sa key cfg : sockaddr_wf sa -> name_fits key -> key_bytes sa key cfg = Ret (key_spec sa key cfg).
Proof.
  intros Hsa Hn. pose proof (length_sa_addr sa Hsa). unfold key_bytes, key_spec, counted_name, counts_qtype, counts_qclass, be16.
  put_step. put_step. rewrite put_family_addr by done. cbn [obind app].
  assert (forall nm buf, name key = Some nm -> len buf <= 24 -> put_name (name_part nm) buf = Ret (buf ++ map lc (name_part nm))) as Hname.
  { intros nm buf Hnm Hb. apply put_name_spec. specialize (Hn nm Hnm). pose proof (length_name_part nm).
    unfold KEY_BUF, DNS_NAME_TEXT_SIZE in *. lia. }
  destruct (cls key); cbn [obind]; repeat put_step; destruct (name key) as [nm |] eqn:En; rewrite ?app_nil_r;
    try (destruct (wildcard key); cbn [obind]; repeat put_step;
      rewrite (Hname nm) by (done || (key_length; len_lia)));
    by rewrite <- ?app_assoc, ?app_nil_r.
Qed.

Lemma length_key_spec sa key cfg : sockaddr_wf sa -> name_fits key -> len (key_spec sa key cfg) <= KEY_BUF.
Proof.
  intros Hsa Hn. pose proof (length_sa_addr sa Hsa). unfold key_spec, counted_name, counts_qtype, counts_qclass, be16. key_length.
  destruct (name key) as [nm |] eqn:En; [specialize (Hn nm En); pose proof (length_name_part nm) |];
    destruct (cls key), (wildcard key); key_length; rewrite ?length_map; unfold KEY_BUF, DNS_NAME_TEXT_SIZE in *; len_lia.
Qed.

Lemma key_bytes_defined sa key cfg : sockaddr_wf sa -> defined (key_bytes sa key cfg).
Proof.
  intros Hsa. pose proof (length_sa_addr sa Hsa). unfold key_bytes. put_step. put_step. rewrite put_family_addr by done. cbn [obind app].
  destruct (cls key); cbn [obind]; repeat put_step; destruct (name key) as [nm |] eqn:En; try apply defined_Ret;
    destruct (wildcard key); cbn [obind]; repeat put_step; apply put_name_defined.
Qed.

Lemma class_code_inj a b : class_code a = class_code b -> a = b.
Proof. by destruct a, b. Qed.

Lemma be16_inj v w : 0 <= v < 65536 -> 0 <= w < 65536 -> be16 v = be16 w -> v = w.
Proof.
  intros Hv Hw [= H1 H2]. rewrite !Z.shiftr_div_pow2 in H1 by lia. unfold u8 in *.
  change (2 ^ 8) with 256 in *. pose proof (Z.div_mod v 256). pose proof (Z.div_mod w 256).
  rewrite !Z.mod_small in H1 by (split; [apply Z.div_pos | apply Z.div_lt_upper_bound]; lia). lia.
Qed.

(** Two requests are counted in the same bucket. *)
Definition counted_together (sa1 sa2 : sockaddr) (k1 k2 : rrl_key_t) (cfg : rate_limit_config_t) : Prop :=
  cls k1 = cls k2 /\ sa_family sa1 = sa_family sa2 /\
  same_prefix (plen_of cfg (sa_family sa1)) (sa_addr sa1) (sa_addr sa2) /\
  (counts_qtype (cls k1) = true -> qtype k1 = qtype k2) /\
  (counts_qclass (cls k1) = true -> qclass k1 = qclass k2) /\
  counted_name k1 = counted_name k2.

Definition key_wf (key : rrl_key_t) : Prop := 0 <= qtype key < 65536 /\ 0 <= qclass key < 65536.

Lemma plen_le sa cfg : sockaddr_wf sa -> prefixes_wf cfg -> plen_of cfg (sa_family sa) <= 8 * len (sa_addr sa).
Proof.
  intros ([E | E] & _ & Hl) [H4 H6]; unfold plen_of; rewrite E in *; cbn [Z.eqb AF_INET AF_INET6 Pos.eqb]; cbn in Hl; rewrite Hl; case_if; lia.
Qed.

Lemma key_spec_eq sa1 sa2 k1 k2 cfg :
  sockaddr_wf sa1 -> sockaddr_wf sa2 -> key_wf k1 -> key_wf k2 -> prefixes_wf cfg ->
  key_spec sa1 k1 cfg = key_spec sa2 k2 cfg <-> counted_together sa1 sa2 k1 k2 cfg.
Proof.
  intros Hs1 Hs2 Hk1 Hk2 Hp. pose proof (plen_le sa1 cfg Hs1 Hp) as Hpl. unfold key_spec, counted_together. split.
  - intros H. injection H as Hc Hf H. apply class_code_inj in Hc.
    assert (sa_family sa1 = sa_family sa2) as Hfam.
    { destruct Hs1 as ([E1 | E1] & _), Hs2 as ([E2 | E2] & _); rewrite E1, E2 in *; done. }
    assert (length (sa_addr sa1) = length (sa_addr sa2)) as Hl by (destruct Hs1 as (_ & _ & ->), Hs2 as (_ & _ & ->); by rewrite Hfam).
    apply app_inj_1 in H as [Hm H]; [| by rewrite !length_masked]. rewrite <- Hfam, <- Hc in *.
    assert ((counts_qtype (cls k1) = true -> qtype k1 = qtype k2) /\ (counts_qclass (cls k1) = true -> qclass k1 = qclass k2) /\
            counted_name k1 = counted_name k2) as (? & ? & ?).
    { destruct (counts_qtype (cls k1)).
      - apply app_inj_1 in H as [H1 H]; [| done]. apply be16_inj in H1; [| apply Hk1 | apply Hk2].
        destruct (counts_qclass (cls k1)); [| done]. apply app_inj_1 in H as [H2 H]; [| done].
        apply be16_inj in H2; [| apply Hk1 | apply Hk2]. done.
      - change ([] ++ ?x) with x in H. destruct (counts_qclass (cls k1)); [| done]. apply app_inj_1 in H as [H2 H]; [| done].
        apply be16_inj in H2; [| apply Hk1 | apply Hk2]. done. }
    split_and!; try done. apply same_prefix_masked; [apply Hs1 | apply Hs2 | done | done | done].
  - intros (Hc & Hf & Hpre & Hqt & Hqc & Hnm).
    assert (length (sa_addr sa1) = length (sa_addr sa2)) as Hl by (destruct Hs1 as (_ & _ & ->), Hs2 as (_ & _ & ->); by rewrite Hf).
    apply same_prefix_masked in Hpre; [| apply Hs1 | apply Hs2 | done | done]. rewrite <- Hc, <- Hf, Hpre, Hnm.
    destruct (counts_qtype (cls k1)), (counts_qclass (cls k1)); rewrite ?Hqt, ?Hqc by done; done.
Qed.

(** ** The decision *)

Section DecisionLemmas.
Context `{InetPton} (inet_ntop : Z -> list Z -> list Z) (hash_key : Z * Z).

(** The parsed list, when there is one, was parsed from the texts; where it is
    missing, [inet_ntop] prints an address that [inet_pton] reads back. *)
Definition exempt_wf (sa : sockaddr) (cfg : rate_limit_config_t) : Prop :=
  match exempt_clients_parsed cfg with
  | Some l => l = map (fun t => fst (cidr_entry_parse t)) (exempt_clients cfg)
  | None => client_addr (inet_ntop (sa_family sa) (sa_addr sa)) = Some (sa_family sa, sa_addr sa)
  end.

Definition exempt (sa : sockaddr) (cfg : rate_limit_config_t) : Prop :=
  exists t, In t (exempt_clients cfg) /\ Acl.text_covers (sa_family sa) (sa_addr sa) t.

Lemma any_match_spec {A} (f : A -> outcome bool) (P : A -> Prop) l :
  (forall x, exists r, f x = Ret r /\ (r = true <-> P x)) ->
  exists r, any_match f l = Ret r /\ (r = true <-> exists x, In x l /\ P x).
Proof.
  intros Hf. induction l as [| x l (r & Hr & Hiff)]; cbn [any_match]; [exists false; split; [done | naive_solver] |].
  destruct (Hf x) as (m & -> & Hm). cbn [obind]. destruct m; [exists true | exists r]; (split; [done |]).
  - split; [| done]. intros _. exists x. split; [by left | by apply Hm].
  - rewrite Hiff. split; [intros (y & Hy & HP); exists y; split; [by right | done] |].
    intros (y & [-> | Hy] & HP); [by apply Hm in HP | by exists y].
Qed.

Lemma sockaddr_match_covers sa t :
  sockaddr_wf sa -> exists r, cidr_entry_match_sockaddr (fst (cidr_entry_parse t)) (Some sa) = Ret r /\
    (r = true <-> Acl.text_covers (sa_family sa) (sa_addr sa) t).
Proof.
  intros (Hf & Hb & Hl). destruct (Acl.entry_match_covers (sa_family sa) (sa_addr sa) t Hb Hl Hf) as (r & Hr & Hiff).
  exists r. split; [| done]. rewrite <- Hr. unfold cidr_entry_match_sockaddr, cidr_entry_match.
  destruct (valid _); [| done]. destruct (is_any _); [done |]. cbn [negb].
  by destruct Hf as [-> | ->].
Qed.

Lemma exempt_spec sa cfg :
  sockaddr_wf sa -> exempt_wf sa cfg ->
  exists r, rrl_is_exempt inet_ntop sa cfg = Ret r /\ (r = true <-> exempt sa cfg).
Proof.
  intros Hsa Hex. unfold rrl_is_exempt, exempt, exempt_wf in *. destruct (exempt_clients_parsed cfg) as [l |].
  - subst l. assert (forall ts, any_match (fun e => cidr_entry_match_sockaddr e (Some sa)) (map (fun t => fst (cidr_entry_parse t)) ts) =
      any_match (fun t => cidr_entry_match_sockaddr (fst (cidr_entry_parse t)) (Some sa)) ts) as ->.
    { induction ts as [| t ts IH]; [done |]. cbn [map any_match]. by rewrite IH. }
    apply any_match_spec. intros t. by apply sockaddr_match_covers.
  - assert ((sa_family sa =? AF_INET) || (sa_family sa =? AF_INET6) = true) as -> by (destruct Hsa as ([-> | ->] & _); done).
    apply any_match_spec. intros t. rewrite (match_cidr_parsed _ _ _ _ Hex).
    destruct Hsa as (Hf & Hb & Hl). by apply Acl.entry_match_covers.
Qed.

Lemma masked_bytes p a : bytes a -> bytes (masked p a).
Proof.
  intros Ha. apply Forall_lookup_2. intros i x. unfold masked. rewrite list_lookup_imap. destruct (a !! i) as [y |] eqn:E; cbn; [| done].
  intros [= <-]. apply land_byte; [by apply (Forall_lookup_1 _ _ _ _ Ha E) | apply mask_byte_range].
Qed.

Lemma key_spec_bytes sa key cfg :
  sockaddr_wf sa -> (forall nm, name key = Some nm -> bytes nm) -> bytes (key_spec sa key cfg).
Proof.
  intros (_ & Hb & _) Hn. unfold key_spec, be16, counted_name. repeat (apply Forall_app; split).
  - apply Forall_cons_2; [destruct (cls key); unfold isbyte; cbn; lia |]. apply Forall_cons_2; [apply u8_range | apply Forall_nil_2].
  - by apply masked_bytes.
  - case_if; [| apply Forall_nil_2]. apply Forall_cons_2; [apply u8_range |]. apply Forall_cons_2; [apply u8_range | apply Forall_nil_2].
  - case_if; [| apply Forall_nil_2]. apply Forall_cons_2; [apply u8_range |]. apply Forall_cons_2; [apply u8_range | apply Forall_nil_2].
  - destruct (name key) as [nm |] eqn:En; [| apply Forall_nil_2]. specialize (Hn nm eq_refl).
    assert (bytes ((if wildcard key then [42; DOT] else []) ++ map lc (name_part nm))) as Hx.
    { apply Forall_app. split; [case_if; bytes_lit |]. apply Forall_map. eapply Forall_impl; [| apply lc_byte].
      unfold name_part. case_if; [by apply Forall_take | done]. }
    destruct (cls key); done || apply Forall_nil_2.
Qed.

(** The hash of a key is defined and not the mark of a free bucket. *)
Lemma key_hash_defined sa key cfg :
  sockaddr_wf sa -> name_fits key -> (forall nm, name key = Some nm -> bytes nm) ->
  exists h, rrl_key_hash hash_key sa key cfg = Ret h /\ h <> 0.
Proof.
  intros Hsa Hn Hb. unfold rrl_key_hash. rewrite key_bytes_spec by done. cbn [obind].
  rewrite siphash24_spec by (by apply key_spec_bytes || lia). cbn [obind]. eexists. split; [done |]. case_if; [done | lia].
Qed.

(** The bucket that refused a response. *)
Definition limited_by (cfg : rate_limit_config_t) (sa : sockaddr) (key : rrl_key_t) (now_ms : Z) : Prop :=
  exists k rate h t sl,
    (k = key /\ rate = rrl_rate cfg (cls key) \/ k = key_of_class RRL_RESP_ALL /\ rate = all_per_second cfg) /\ 0 < rate /\
    rrl_key_hash hash_key sa k cfg = Ret h /\ snd (rrl_debit t h rate (rrl_window cfg) (slip cfg) now_ms) = Limited sl.

Lemma debit_key_spec sa k cfg rate now t allow out_slip :
  sockaddr_wf sa -> name_fits k -> (forall nm, name k = Some nm -> bytes nm) ->
  exists t' allow' out_slip', debit_key hash_key sa k cfg rate now t allow out_slip = Ret (t', allow', out_slip') /\
    (allow' = false -> allow = false \/ exists h sl, rrl_key_hash hash_key sa k cfg = Ret h /\
       snd (rrl_debit t h rate (rrl_window cfg) (slip cfg) now) = Limited sl).
Proof.
  intros Hsa Hn Hb. unfold debit_key. destruct (key_hash_defined sa k cfg Hsa Hn Hb) as (h & Hh & _). rewrite Hh. cbn [obind].
  destruct (rrl_debit t h rate (rrl_window cfg) (slip cfg) now) as [t' v] eqn:Ed. destruct v as [| sl |].
  - exists t', allow, out_slip. auto.
  - exists t', false, sl. split; [done |]. right. exists h, sl. by rewrite Ed.
  - exists t', allow, out_slip. auto.
Qed.

Lemma check_key_spec st sa key cfg now :
  sockaddr_wf sa -> exempt_wf sa cfg -> name_fits key -> (forall nm, name key = Some nm -> bytes nm) ->
  exists st' allow sl, rrl_check_key inet_ntop hash_key st (Some sa) key cfg now = Ret (st', allow, sl) /\
    (configured cfg = false \/ exempt sa cfg -> st' = st /\ allow = true) /\
    (allow = false ->
       log_only cfg = false /\ limited_by cfg sa key now /\
       dropped_total st' = (if sl then dropped_total st else u64 (dropped_total st + 1)) /\
       slip_total st' = (if sl then u64 (slip_total st + 1) else slip_total st)).
Proof.
  intros Hsa Hex Hn Hb. unfold rrl_check_key.
  destruct (configured cfg); cbn [negb]; [| exists st, true, false; split_and!; done].
  assert (negb (sa_family sa =? AF_INET) && negb (sa_family sa =? AF_INET6) = false) as -> by (destruct Hsa as ([-> | ->] & _); done).
  destruct ((rrl_rate cfg (cls key) =? 0) && (all_per_second cfg =? 0)); [exists st, true, false; split_and!; done |].
  destruct (exempt_spec sa cfg Hsa Hex) as (ex & -> & Hexi). cbn [obind].
  destruct ex; [exists st, true, false; split_and!; done |].
  assert (~ exempt sa cfg) as Hne by (intros Hx; apply Hexi in Hx; done).
  set (rate := rrl_rate cfg (cls key)) in *.
  assert (exists t1 a1 s1, (if 0 <? rate then debit_key hash_key sa key cfg rate now (buckets st) true false else Ret (buckets st, true, false)) =
            Ret (t1, a1, s1) /\ (a1 = false -> limited_by cfg sa key now)) as (t1 & a1 & s1 & -> & H1).
  { destruct (0 <? rate) eqn:Er; [| by exists (buckets st), true, false].
    destruct (debit_key_spec sa key cfg rate now (buckets st) true false) as (t1 & a1 & s1 & -> & H1); [done.. |].
    exists t1, a1, s1. split; [done |]. intros Ha. destruct (H1 Ha) as [? | (h & sl & Hh & Hd)]; [done |].
    exists key, rate, h, (buckets st), sl. split_and!; [by left | lia | done | done]. }
  cbn [obind].
  assert (exists t2 a2 s2, (if 0 <? all_per_second cfg then debit_key hash_key sa (key_of_class RRL_RESP_ALL) cfg (all_per_second cfg) now t1 a1 s1
            else Ret (t1, a1, s1)) = Ret (t2, a2, s2) /\ (a2 = false -> limited_by cfg sa key now)) as (t2 & a2 & s2 & -> & H2).
  { destruct (0 <? all_per_second cfg) eqn:Er; [| by exists t1, a1, s1].
    destruct (debit_key_spec sa (key_of_class RRL_RESP_ALL) cfg (all_per_second cfg) now t1 a1 s1) as (t2 & a2 & s2 & -> & H2); [done.. |].
    exists t2, a2, s2. split; [done |]. intros Ha. destruct (H2 Ha) as [Ha1 | (h & sl & Hh & Hd)]; [by apply H1 |].
    exists (key_of_class RRL_RESP_ALL), (all_per_second cfg), h, t1, sl. split_and!; [by right | lia | done | done]. }
  cbn [obind]. destruct (log_only cfg) eqn:El, a2; cbn [negb andb]; eexists _, _, _; (split; [done |]); (split; [intros [? | ?]; done |]); try done.
  intros _. split_and!; [done | by apply H2 | by destruct s2 | by destruct s2].
Qed.

End DecisionLemmas.

(** ** Lemmas: the key of a response *)

Lemma skip_questions_spec packet packet_len n : bytes packet -> packet_len <= len packet -> forall p, 0 <= p ->
  defined (skip_questions n packet packet_len p) /\ forall q, skip_questions n packet packet_len p = Ret q -> 0 <= q.
Proof.
  intros Hb Hl. induction n as [| n IH]; intros p Hp; cbn [skip_questions]; [split; [apply defined_Ret | by intros q [= <-]] |].
  destruct (skip_defined packet packet_len Hb Hl p Hp) as [Hd1 Hd2].
  destruct (skip_wire_name packet packet_len p) as [next | | |] eqn:Es; try done; cbn [obind].
  apply (skip_next packet packet_len Hb Hl) in Es; [| done]. case_if; [done |]. apply IH. lia.
Qed.

Lemma expand_length packet packet_len off buf_size t next :
  bytes packet -> packet_len <= len packet -> 0 <= off -> DNS_NAME_TEXT_SIZE <= buf_size ->
  expand_wire_name_to_buffer packet packet_len off buf_size = Ret (t, next) ->
  bytes t /\ exists ls, t = expanded ls ++ [0] /\ 1 <= len (expanded ls) < DNS_NAME_TEXT_SIZE.
Proof.
  intros Hb Hl Ho Hs He. apply expand_spec in He as (n & ls & Hd & H255 & -> & _); [| done..].
  apply (decodes_wf packet packet_len Hb Hl) in Hd as Hls; [| done]. split.
  - apply Forall_app. split; [by apply expanded_bytes | bytes_lit].
  - exists ls. split; [done |]. pose proof (length_dotted packet ls). unfold wire_name, DNS_NAME_TEXT_SIZE in *. rewrite length_app in H255.
    unfold expanded. destruct ls as [| l ls]; [done |]. split; [| len_lia]. unfold dotted. cbn [map concat].
    rewrite !length_app. len_lia.
Qed.

Lemma referral_name_safe res res_len :
  bytes res -> res_len <= len res -> DNS_HEADER_SIZE <= res_len ->
  defined (rrl_referral_name res res_len DNS_NAME_TEXT_SIZE) /\
  forall nm, rrl_referral_name res res_len DNS_NAME_TEXT_SIZE = Ret nm -> bytes nm /\ len nm <= DNS_NAME_TEXT_SIZE.
Proof.
  intros Hb Hl Hh. unfold rrl_referral_name, DNS_HEADER_SIZE in *.
  destruct (rd16_ok res res_len Hb Hl 4) as (qd & -> & Hqd); [lia | lia |]. cbn [obind].
  destruct (rd16_ok res res_len Hb Hl 6) as (an & -> & Han); [lia | lia |]. cbn [obind].
  destruct (skip_questions_spec res res_len (Z.to_nat qd) Hb Hl 12) as [[? ?] Hq]; [lia |].
  destruct (skip_questions _ _ _ 12) as [off | | |] eqn:Eq; try done. cbn [obind]. specialize (Hq off eq_refl).
  destruct (skip_rrs_spec res res_len Hb Hl (Z.to_nat an) off Hq) as [[? ?] Hr].
  destruct (skip_rrs _ _ _ off) as [off2 | | |] eqn:Er; try done. cbn [obind]. specialize (Hr off2 eq_refl).
  destruct (expand_defined res res_len Hb Hl off2 DNS_NAME_TEXT_SIZE Hr) as [? ?].
  destruct (expand_wire_name_to_buffer _ _ _ _) as [[t next] | | |] eqn:Ee; try done. cbn [obind].
  apply expand_length in Ee as (Ht & ls & -> & Hlen); [| done..]. rewrite length_app. cbn [length].
  case_if; [done |]. assert (forall n, bytes (take n (expanded ls ++ [0])) /\ len (take n (expanded ls ++ [0])) <= DNS_NAME_TEXT_SIZE) as Htake.
  { intros n. split; [by apply Forall_take |]. rewrite length_take, length_app. len_lia. }
  destruct (2 <? Z.of_nat (length (expanded ls) + 1)) eqn:E2.
  - destruct (rd_in (expanded ls ++ [0]) (Z.of_nat (length (expanded ls) + 1) - 2)) as (c & ->); [rewrite length_app; len_lia |].
    cbn [obind]. split; [apply defined_Ret |]. intros nm [= <-]. case_if; apply Htake.
  - cbn [obind andb]. split; [apply defined_Ret |]. intros nm [= <-]. apply Htake.
Qed.

Lemma class_defined res res_len : bytes res -> res_len <= len res -> exists c, get_rrl_class res res_len = Ret c.
Proof.
  intros Hb Hl. unfold get_rrl_class, DNS_HEADER_SIZE. destruct (Z.ltb_spec res_len 12); [by eexists |].
  destruct (rd_ok res res_len Hb Hl 3) as (b3 & -> & _); [lia |]. cbn [obind].
  destruct (rd16_ok res res_len Hb Hl 6) as (an & -> & _); [lia | lia |]. cbn [obind].
  destruct (rd16_ok res res_len Hb Hl 8) as (ns & -> & _); [lia | lia |]. cbn [obind].
  destruct (rd_ok res res_len Hb Hl 2) as (b2 & -> & _); [lia |]. cbn [obind].
  destruct (Z.land b3 15 =? 3); [by eexists |]. destruct (Z.land b3 15 =? 0); [| by eexists].
  destruct (0 <? an); [by eexists |]. destruct ((Z.land b2 4 =? 0) && (0 <? ns)); by eexists.
Qed.

(** ** Properties *)

(** Two responses are counted in one bucket exactly when they have the
    same class, their clients are in the same network of the configured
    prefix length, and they agree in the parts of the question the class
    takes into account (type, class, name without case and final dot).  The
    octets hashed never run over the key buffer. *)
Theorem rrl_bucket_sharing (sa1 sa2 : sockaddr) (k1 k2 : rrl_key_t) (cfg : rate_limit_config_t) :
  sockaddr_wf sa1 -> sockaddr_wf sa2 -> key_wf k1 -> key_wf k2 -> name_fits k1 -> name_fits k2 -> prefixes_wf cfg ->
  exists b1 b2, key_bytes sa1 k1 cfg = Ret b1 /\ key_bytes sa2 k2 cfg = Ret b2 /\ len b1 <= KEY_BUF /\
    (b1 = b2 <-> counted_together sa1 sa2 k1 k2 cfg).
Proof.
  intros Hs1 Hs2 Hk1 Hk2 Hn1 Hn2 Hp. exists (key_spec sa1 k1 cfg), (key_spec sa2 k2 cfg).
  split_and!; [by apply key_bytes_spec | by apply key_bytes_spec | by apply length_key_spec | by apply key_spec_eq].
Qed.

Definition sample_config : rate_limit_config_t :=
  RateLimitConfig true false 1 1 1 1 1 0 24 56 true true 15 2 [str "192.0.2.0/24"] (Some (map (fun t => fst (cidr_entry_parse t)) [str "192.0.2.0/24"])).

Definition sample_client (a b c d : Z) : sockaddr := Sockaddr AF_INET [a; b; c; d].

Lemma rrl_bucket_sharing_witness :
  exists b1 b2,
    key_bytes (sample_client 198 51 100 1) (RrlKey RRL_RESP_NOERROR (Some (str "Example.com.")) false 1 1) sample_config = Ret b1 /\
    key_bytes (sample_client 198 51 100 77) (RrlKey RRL_RESP_NOERROR (Some (str "example.COM")) false 1 1) sample_config = Ret b2 /\ b1 = b2.
Proof.
  destruct (rrl_bucket_sharing (sample_client 198 51 100 1) (sample_client 198 51 100 77)
    (RrlKey RRL_RESP_NOERROR (Some (str "Example.com.")) false 1 1) (RrlKey RRL_RESP_NOERROR (Some (str "example.COM")) false 1 1) sample_config)
    as (b1 & b2 & H1 & H2 & _ & H3).
  - split_and!; [by left | bytes_lit | done].
  - split_and!; [by left | bytes_lit | done].
  - split; cbn; lia.
  - split; cbn; lia.
  - intros nm [= <-]. vm_compute. done.
  - intros nm [= <-]. vm_compute. done.
  - split; cbn; lia.
  - exists b1, b2. split_and!; [done | done |]. apply H3. split_and!; try done. apply same_prefixb_spec. vm_compute. done.
Defined.

(** A decision is always reached.  Where rate limiting is off or the
    client is exempt, the response goes out and nothing is counted.  A
    response is held back only if the limiter is not in log-only mode and the
    bucket of the key or the bucket of the client refused it, and then exactly
    one of the two counters goes up: slipped or dropped. *)
Theorem rrl_decision_sound `{InetPton} (inet_ntop : Z -> list Z -> list Z) (hash_key : Z * Z) (st : rrl_state) (sa : sockaddr)
    (key : rrl_key_t) (cfg : rate_limit_config_t) (now_ms : Z) :
  sockaddr_wf sa -> exempt_wf inet_ntop sa cfg -> name_fits key -> (forall nm, name key = Some nm -> bytes nm) ->
  exists st' allow sl, rrl_check_key inet_ntop hash_key st (Some sa) key cfg now_ms = Ret (st', allow, sl) /\
    (configured cfg = false \/ exempt sa cfg -> st' = st /\ allow = true) /\
    (allow = false ->
       log_only cfg = false /\ limited_by hash_key cfg sa key now_ms /\
       dropped_total st' = (if sl then dropped_total st else u64 (dropped_total st + 1)) /\
       slip_total st' = (if sl then u64 (slip_total st + 1) else slip_total st)).
Proof. apply check_key_spec. Qed.

Definition sample_st : rrl_state := RrlState ∅ 0 0.

Lemma rrl_decision_sound_witness :
  exists st' sl,
    rrl_check_key (fun _ a => a) (1, 2) sample_st (Some (sample_client 192 0 2 9)) (key_of_class RRL_RESP_ERROR) sample_config 1000 = Ret (st', true, sl) /\
    st' = sample_st.
Proof.
  destruct (rrl_decision_sound (fun _ a => a) (1, 2) sample_st (sample_client 192 0 2 9) (key_of_class RRL_RESP_ERROR) sample_config 1000)
    as (st' & allow & sl & H1 & H2 & _).
  - split_and!; [by left | bytes_lit | done].
  - done.
  - intros nm [=].
  - intros nm [=].
  - destruct H2 as [-> ->]; [| by exists sample_st, sl]. right. exists (str "192.0.2.0/24"). split; [by left |].
    eexists. split; [reflexivity |]. right. split; [done |]. apply same_prefixb_spec. vm_compute. done.
Defined.

(** The key of any response, however malformed, is found without reading
    outside it and without looping; the name it is counted under fits the key
    buffer whenever the question and zone names do. *)
Theorem rrl_make_key_safe (res : list Z) (res_len : Z) (qname : list Z) (qt qc : Z) (zone : option (list Z)) (wild : bool)
    (namebuf : bool) :
  bytes res -> res_len <= len res -> len qname <= DNS_NAME_TEXT_SIZE -> (forall z, zone = Some z -> len z <= DNS_NAME_TEXT_SIZE) ->
  exists k, rrl_make_key res res_len qname qt qc zone wild (if namebuf then Some DNS_NAME_TEXT_SIZE else None) = Ret k /\
    get_rrl_class res res_len = Ret (cls k) /\ name_fits k.
Proof.
  intros Hb Hl Hq Hz. unfold rrl_make_key. destruct (class_defined res res_len Hb Hl) as (c & Hc). rewrite Hc. cbn [obind].
  assert (forall w nm, len nm <= DNS_NAME_TEXT_SIZE -> name_fits (RrlKey c (Some nm) w qt qc)) as Hfit by (intros w nm Hn x [= <-]; done).
  destruct c.
  1, 2: destruct wild, zone as [z |]; eexists; (split; [done |]); (split; [done |]); apply Hfit; auto.
  - eexists. split; [done |]. split; [done |]. apply Hfit. destruct zone; auto.
  - eexists. split; [done |]. split; [done |]. intros x [=].
  - destruct namebuf; [| eexists; split; [done |]; split; [done |]; by apply Hfit].
    assert (DNS_HEADER_SIZE <= res_len) as Hh.
    { unfold get_rrl_class in Hc. destruct (Z.ltb_spec res_len DNS_HEADER_SIZE); done. }
    destruct (referral_name_safe res res_len Hb Hl Hh) as [[? ?] Hr].
    destruct (rrl_referral_name res res_len DNS_NAME_TEXT_SIZE) as [nm | | |]; try done; eexists; (split; [done |]); (split; [done |]);
      apply Hfit; [by apply Hr | done].
  - eexists. split; [done |]. split; [done |]. intros x [=].
Qed.

Definition sample_referral : list Z :=
  [0; 1; 128; 0; 0; 1; 0; 0; 0; 1; 0; 0] ++ [1; 97; 0; 0; 1; 0; 1] ++ [192; 12; 0; 2; 0; 1; 0; 0; 0; 0; 0; 2; 192; 12].

Lemma rrl_make_key_safe_witness :
  exists k, rrl_make_key sample_referral 33 (str "x.a.") 1 1 None false (Some DNS_NAME_TEXT_SIZE) = Ret k /\
    name k = Some (str "a") /\ name_fits k.
Proof.
  destruct (rrl_make_key_safe sample_referral 33 (str "x.a.") 1 1 None false true) as (k & H1 & _ & H2).
  - bytes_lit.
  - done.
  - done.
  - done.
  - exists k. split; [exact H1 |]. split; [| exact H2]. vm_compute in H1. injection H1 as <-. done.
Defined.

End RrlKey.
