(* ===== verification/ZoneAttr.v ===== *)
(** * The zone level tables of a zone image (src/dns_zone_image.c)

    A zone may carry tables of its own: tinydns client locations, the tag
    definitions for BIND locations and for EDNS client subnets, and the list
    of trusted resolvers.  [build_zattr] writes them into one area of the
    image; [thaw_zattr] reads the area back into a builder; the query path
    reads it in place through cursors.  The area is a [list Z], the object
    every read is checked against; allocations succeed. *)

From S2P Require Import Prelude.
From S2P Require Import CLib.
From S2P Require Import Cidr.
From S2P Require Import Acl.

Module ZoneAttr.
Import CLib Cidr Acl.

(** ** Data *)

Record tinydns_location_entry_t := TinydnsLocation { code : list Z; loc_prefix : list Z; prefix_bits : Z }.

Record ecs_cidr_entry_t := EcsCidr { cidr_text : option (list Z); cidr_parsed : cidr_entry_t }.
Record ecs_tag_def_t := EcsTagDef { tag : option (list Z); cidrs : list ecs_cidr_entry_t }.

(** The tables of a [zone_arena_t]; a missing array is the empty list, and
    [trusted_parsed] is the parsed list when the builder has one. *)
Record zone_tables := ZoneTables {
  locations : list tinydns_location_entry_t;
  location_tags : list ecs_tag_def_t;
  ecs_tags : list ecs_tag_def_t;
  trusted : list (option (list Z));
  trusted_parsed : option (list acl_entry_t)
}.

(** ** Structures in memory

    A structure copied by [memcpy] is the octets of its members at the
    offsets of the platform's ABI, with padding octets zero. *)

Definition le32 (v : Z) : list Z := Z_to_little_endian 4 8 v.
Definition of_le32 (b : list Z) : Z := little_endian_to_Z 8 b.
Definition bool_octet (b : bool) : Z := if b then 1 else 0.
Definition field (b : list Z) (off n : nat) : list Z := take n (drop off b).
Definition octet (b : list Z) (off : nat) : Z := nth off b 0.

Class Layout (T : Type) := {
  sizeof : Z;
  to_octets : T -> list Z;
  of_octets : list Z -> T;
  layout_wf : T -> Prop;
  sizeof_pos : 0 < sizeof;
  length_to_octets : forall x, layout_wf x -> len (to_octets x) = sizeof;
  of_to_octets : forall x, layout_wf x -> of_octets (to_octets x) = x
}.

Definition cidr_storable (e : cidr_entry_t) : Prop :=
  length (addr e) = 16%nat /\ length (mask e) = 16%nat /\ 0 <= family e < 2147483648.

#[export, program] Instance cidr_layout : Layout cidr_entry_t := {
  sizeof := 44;
  to_octets e := [bool_octet (valid e); bool_octet (is_any e); 0; 0] ++ le32 (family e) ++ [prefix e] ++ addr e ++ mask e ++ [0; 0; 0];
  of_octets b := CidrEntry (negb (octet b 0 =? 0)) (negb (octet b 1 =? 0)) (s32 (of_le32 (field b 4 4))) (octet b 8) (field b 9 16) (field b 25 16);
  layout_wf := cidr_storable
}.
Next Obligation. done. Qed.
Next Obligation. intros [v i f p a m] (Ha & Hm & Hf). cbn [addr mask] in *. by rewrite !length_app, Ha, Hm. Qed.
Next Obligation.
  intros [v i f p a m] (Ha & Hm & Hf). cbn [addr mask family valid is_any prefix] in *.
  assert (exists b0 b1 b2 b3, le32 f = [b0; b1; b2; b3]) as (b0 & b1 & b2 & b3 & El).
  { unfold le32. eexists _, _, _, _. reflexivity. }
  rewrite El. cbn [app]. unfold octet, field. cbn [nth drop take]. rewrite <- El.
  assert (of_le32 (le32 f) = f) as ->.
  { unfold of_le32, le32. rewrite little_endian_to_Z_to_little_endian by lia. apply Z.mod_small. lia. }
  rewrite drop_0, take_app_length' by done.
  rewrite drop_app_length' by done. rewrite take_app_length' by done.
  f_equal; [by destruct v | by destruct i |]. unfold s32. rewrite u32_small by lia.
  rewrite (proj2 (Z.ltb_lt _ _)); [done | lia].
Qed.

#[export, program] Instance location_layout : Layout tinydns_location_entry_t := {
  sizeof := 7;
  to_octets e := code e ++ loc_prefix e ++ [prefix_bits e];
  of_octets b := TinydnsLocation (field b 0 2) (field b 2 4) (octet b 6);
  layout_wf e := length (code e) = 2%nat /\ length (loc_prefix e) = 4%nat
}.
Next Obligation. done. Qed.
Next Obligation. intros [c p b] [Hc Hp]. cbn [code loc_prefix] in *. by rewrite !length_app, Hc, Hp. Qed.
Next Obligation.
  intros [c p b] [Hc Hp]. cbn [code loc_prefix prefix_bits] in *.
  destruct c as [| c0 [| c1 [| ? ?]]]; try done. destruct p as [| p0 [| p1 [| p2 [| p3 [| ? ?]]]]]; done.
Qed.

#[export, program] Instance acl_layout : Layout acl_entry_t := {
  sizeof := 48;
  to_octets e := to_octets (cidr e) ++ [bool_octet (is_deny e); 0; 0; 0];
  of_octets b := AclEntry (of_octets (field b 0 44)) (negb (octet b 44 =? 0));
  layout_wf e := cidr_storable (cidr e)
}.
Next Obligation. done. Qed.
Next Obligation. intros [e d] He. pose proof (length_to_octets e He) as Hl. cbn [cidr]. rewrite length_app. cbn [sizeof cidr_layout] in Hl. len_lia. Qed.
Next Obligation.
  intros [e d] He. pose proof (length_to_octets e He) as Hl. cbn [sizeof cidr_layout] in Hl. cbn [cidr is_deny].
  unfold field. rewrite drop_0, take_app_length' by lia. rewrite of_to_octets by done. f_equal.
  unfold octet. rewrite app_nth2 by lia. replace (44 - length (to_octets e))%nat with 0%nat by lia. by destruct d.
Qed.

(** The octets before the first NUL. *)
Fixpoint takewhile_nz (s : list Z) : list Z :=
  match s with
  | [] => []
  | c :: s' => if c =? 0 then [] else c :: takewhile_nz s'
  end.

(** A C string read from memory: its NUL must be inside the object. *)
Fixpoint cstr_of (s : list Z) : outcome (list Z) :=
  match s with
  | [] => Oob
  | c :: s' => if c =? 0 then Ret [] else let! r := cstr_of s' in Ret (c :: r)
  end.

(** ** Writing the area *)

Definition put_str (s : option (list Z)) : list Z :=
  match s with
  | None => le32 4294967295
  | Some s => le32 (u32 (len s)) ++ s ++ [0]
  end.

Definition put_cidr (c : ecs_cidr_entry_t) : list Z := put_str (cidr_text c) ++ to_octets (cidr_parsed c).

Definition put_tag (t : ecs_tag_def_t) : list Z :=
  put_str (tag t) ++ le32 (u32 (len (cidrs t))) ++ concat (map put_cidr (cidrs t)).

Definition put_tags (tags : list ecs_tag_def_t) : list Z :=
  le32 (u32 (len tags)) ++ concat (map put_tag tags).

Definition nonempty {A} (l : list A) : bool := match l with [] => false | _ => true end.

Definition zattr_any (a : zone_tables) : bool :=
  nonempty (locations a) || nonempty (location_tags a) || nonempty (ecs_tags a) || nonempty (trusted a).

(** [(8 - (len & 7)) & 7] zero octets. *)
Definition padding (l : Z) : list Z := replicate (Z.to_nat (Z.land (8 - Z.land l 7) 7)) 0.

Section Writer.
Context `{InetPton}.

Definition build_zattr (a : zone_tables) : list Z :=
  if negb (zattr_any a) then []
  else
    let sb := le32 (u32 (len (locations a))) ++ concat (map to_octets (locations a)) in
    let sb := sb ++ put_tags (location_tags a) in
    let sb := sb ++ put_tags (ecs_tags a) in
    let sb := sb ++ le32 (u32 (len (trusted a))) in
    let sb := sb ++ concat (map put_str (trusted a)) in
    let parsed :=
      if nonempty (trusted a)
      then Some (match trusted_parsed a with Some p => p | None => acl_list_parse (trusted a) end) else None in
    let sb := sb ++ le32 (match parsed with Some _ => u32 (len (trusted a)) | None => 0 end) in
    match parsed with
    | None => sb
    | Some p => sb ++ padding (len sb) ++ concat (map to_octets (take (length (trusted a)) p))
    end.

End Writer.

(** ** Cursors *)

(** A cursor runs over [c_len] octets from the offset [c_p] of the area. *)
Record cursor_t := Cursor { c_p : Z; c_len : Z; c_pos : Z; c_bad : bool }.

Definition adv (c : cursor_t) (n : Z) : cursor_t := Cursor (c_p c) (c_len c) (c_pos c + n) (c_bad c).
Definition spoil (c : cursor_t) : cursor_t := Cursor (c_p c) (c_len c) (c_pos c) true.

(** [c->len - c->pos], a [size_t]. *)
Definition c_left (c : cursor_t) : Z := u64 (c_len c - c_pos c).

Section Readers.
Variable area : list Z.

Definition get_u32 (c : cursor_t) : outcome (cursor_t * Z) :=
  if c_bad c || (c_left c <? 4) then Ret (spoil c, 0)
  else let! b := slice area (c_p c + c_pos c) 4 in Ret (adv c 4, of_le32 b).

(** The position of the text, NULL for a missing text or a bad one. *)
Definition zc_str (c : cursor_t) : outcome (cursor_t * option Z) :=
  let! '(c, n) := get_u32 c in
  if c_bad c || (n =? 4294967295) then Ret (c, None)
  else if (c_len c <=? n) || (c_left c <? n + 1) then Ret (spoil c, None)
  else Ret (adv c (n + 1), Some (c_p c + c_pos c)).

(** The copy of the text, cut like a C string at its first NUL by its users. *)
Definition get_str (c : cursor_t) : outcome (cursor_t * option (list Z)) :=
  let! '(c, n) := get_u32 c in
  if c_bad c || (n =? 4294967295) then Ret (c, None)
  else if (c_len c <=? n) || (c_left c <? n + 1) then Ret (spoil c, None)
  else let! s := slice area (c_p c + c_pos c) n in Ret (adv c (n + 1), Some (takewhile_nz s)).

Definition get_struct {T} `{Layout T} (c : cursor_t) : outcome (cursor_t * option T) :=
  if c_left c <? sizeof then Ret (spoil c, None)
  else let! b := slice area (c_p c + c_pos c) sizeof in Ret (adv c sizeof, Some (of_octets b)).

(** *** Thawing *)

Fixpoint get_cidrs (n : nat) (c : cursor_t) : outcome (cursor_t * list ecs_cidr_entry_t) :=
  match n with
  | O => Ret (c, [])
  | S n' =>
      if c_bad c then Ret (c, [])
      else
        let! '(c, s) := get_str c in
        let! '(c, e) := get_struct c in
        match e with
        | None => Ret (c, [])
        | Some e => let! '(c, l) := get_cidrs n' c in Ret (c, EcsCidr s e :: l)
        end
  end.

Fixpoint get_tag_list (n : nat) (c : cursor_t) : outcome (cursor_t * list ecs_tag_def_t) :=
  match n with
  | O => Ret (c, [])
  | S n' =>
      if c_bad c then Ret (c, [])
      else
        let! '(c, t) := get_str c in
        let! '(c, nc) := get_u32 c in
        if c_bad c then Ret (c, [])
        else if c_len c <? nc then Ret (spoil c, [])
        else
          let! '(c, cs) := get_cidrs (Z.to_nat nc) c in
          let! '(c, l) := get_tag_list n' c in
          Ret (c, EcsTagDef t cs :: l)
  end.

Definition get_tags (c : cursor_t) : outcome (cursor_t * list ecs_tag_def_t) :=
  let! '(c, n) := get_u32 c in
  if c_bad c || (n =? 0) then Ret (c, [])
  else if c_len c <? n then Ret (spoil c, [])
  else get_tag_list (Z.to_nat n) c.

(** The locations are copied without a further look at the bounds. *)
Fixpoint copy_locations (n : nat) (c : cursor_t) : outcome (cursor_t * list tinydns_location_entry_t) :=
  match n with
  | O => Ret (c, [])
  | S n' =>
      let! b := slice area (c_p c + c_pos c) 7 in
      let! '(c, l) := copy_locations n' (adv c 7) in
      Ret (c, of_octets b :: l)
  end.

Fixpoint get_strs (n : nat) (c : cursor_t) : outcome (cursor_t * list (option (list Z))) :=
  match n with
  | O => Ret (c, [])
  | S n' =>
      if c_bad c then Ret (c, [])
      else
        let! '(c, s) := get_str c in
        let! '(c, l) := get_strs n' c in
        Ret (c, s :: l)
  end.

Definition no_tables : zone_tables := ZoneTables [] [] [] [] None.

Definition thaw_zattr `{InetPton} : outcome zone_tables :=
  if len area =? 0 then Ret no_tables
  else
    let! '(c, nloc) := get_u32 (Cursor 0 (len area) 0 false) in
    let copies := negb (c_bad c) && negb (nloc =? 0) in
    fail_if copies && (c_len c / 7 <? nloc) ;;
    let! '(c, locs) := if copies then copy_locations (Z.to_nat nloc) c else Ret (c, []) in
    let! '(c, ltags) := get_tags c in
    let! '(c, etags) := get_tags c in
    let! '(c, ntr) := get_u32 c in
    let has := negb (c_bad c) && negb (ntr =? 0) in
    fail_if has && (c_len c <? ntr) ;;
    let! '(c, tr) := if has then get_strs (Z.to_nat ntr) c else Ret (c, []) in
    fail_if c_bad c ;;
    Ret (ZoneTables locs ltags etags tr (if has then Some (acl_list_parse tr) else None)).

(** *** Reading in place *)

Fixpoint skip_cidrs (n : nat) (c : cursor_t) : outcome cursor_t :=
  match n with
  | O => Ret c
  | S n' =>
      if c_bad c then Ret c
      else
        let! '(c, _) := zc_str c in
        if c_left c <? 44 then Ret (spoil c) else skip_cidrs n' (adv c 44)
  end.

Fixpoint skip_tag_list (n : nat) (c : cursor_t) : outcome cursor_t :=
  match n with
  | O => Ret c
  | S n' =>
      if c_bad c then Ret c
      else
        let! '(c, _) := zc_str c in
        let! '(c, nc) := get_u32 c in
        if c_bad c then Ret c
        else if c_len c <? nc then Ret (spoil c)
        else let! c := skip_cidrs (Z.to_nat nc) c in skip_tag_list n' c
  end.

Definition zc_skip_tags (c : cursor_t) : outcome cursor_t :=
  let! '(c, n) := get_u32 c in
  if c_bad c then Ret c
  else if c_len c <? n then Ret (spoil c)
  else skip_tag_list (Z.to_nat n) c.

Definition zattr_cursor : cursor_t := Cursor 0 (len area) 0 (len area =? 0).

(** The array in the area, as its entries. *)
Fixpoint entries_at {T} `{Layout T} (n : nat) (off : Z) : outcome (list T) :=
  match n with
  | O => Ret []
  | S n' => let! b := slice area off sizeof in let! l := entries_at n' (off + sizeof) in Ret (of_octets b :: l)
  end.

Definition zone_image_locations : outcome (list tinydns_location_entry_t) :=
  let! '(c, n) := get_u32 zattr_cursor in
  if c_bad c || (n =? 0) || (c_left c / 7 <? n) then Ret []
  else entries_at (Z.to_nat n) (c_p c + c_pos c).

Record zone_image_tags_t := ImageTags { it_p : Z; it_end : Z; it_left : Z }.
Record zone_image_tag_t := ImageTag { zt_tag : option Z; cidr_count : Z; zt_p : Z; zt_end : Z; zt_left : Z }.

Definition zone_image_tags_open (ecs : bool) : outcome zone_image_tags_t :=
  let! '(c, nloc) := get_u32 zattr_cursor in
  if c_bad c || (c_left c / 7 <? nloc) then Ret (ImageTags 0 0 0)
  else
    let c := adv c (nloc * 7) in
    let! c := if ecs then zc_skip_tags c else Ret c in
    let! '(c, n) := get_u32 c in
    if c_bad c then Ret (ImageTags 0 0 0) else Ret (ImageTags (c_p c + c_pos c) (c_p c + c_len c) n).

(** [for (j = 0; j < nc && !c.bad; j++)] of [zone_image_tags_next]. *)
Definition zone_image_tags_next (it : zone_image_tags_t) : outcome (zone_image_tags_t * option zone_image_tag_t) :=
  let stop := ImageTags (it_p it) (it_end it) 0 in
  if it_left it =? 0 then Ret (it, None)
  else
    let! '(c, t) := zc_str (Cursor (it_p it) (it_end it - it_p it) 0 false) in
    let! '(c, nc) := get_u32 c in
    if c_bad c || (c_len c <? nc) then Ret (stop, None)
    else
      let zt := ImageTag t nc (c_p c + c_pos c) (it_end it) nc in
      let! c := skip_cidrs (Z.to_nat nc) c in
      if c_bad c then Ret (stop, None)
      else Ret (ImageTags (it_p it + c_pos c) (it_end it) (it_left it - 1), Some zt).

Definition zone_image_tag_next_cidr (zt : zone_image_tag_t) : outcome (zone_image_tag_t * option (option Z * cidr_entry_t)) :=
  let stop := ImageTag (zt_tag zt) (cidr_count zt) (zt_p zt) (zt_end zt) 0 in
  if zt_left zt =? 0 then Ret (zt, None)
  else
    let! '(c, s) := zc_str (Cursor (zt_p zt) (zt_end zt - zt_p zt) 0 false) in
    if c_bad c || (c_left c <? 44) then Ret (stop, None)
    else
      let! b := slice area (c_p c + c_pos c) 44 in
      let c := adv c 44 in
      Ret (ImageTag (zt_tag zt) (cidr_count zt) (zt_p zt + c_pos c) (zt_end zt) (zt_left zt - 1), Some (s, of_octets b)).

(** Skip [n] texts. *)
Fixpoint skip_strs (n : nat) (c : cursor_t) : outcome cursor_t :=
  match n with
  | O => Ret c
  | S n' => if c_bad c then Ret c else let! '(c, _) := zc_str c in skip_strs n' c
  end.

Definition zone_image_ecs_trusted : outcome (list acl_entry_t) :=
  let! '(c, nloc) := get_u32 zattr_cursor in
  if c_bad c || (c_left c / 7 <? nloc) then Ret []
  else
    let c := adv c (nloc * 7) in
    let! c := zc_skip_tags c in
    let! c := zc_skip_tags c in
    let! '(c, ntr) := get_u32 c in
    if c_bad c || (c_len c <? ntr) then Ret []
    else
      let! c := skip_strs (Z.to_nat ntr) c in
      let! '(c, np) := get_u32 c in
      if c_bad c || (np =? 0) then Ret []
      else
        let at8 := Z.land (c_pos c + 7) (Z.lnot 7) in
        if (c_len c <? at8) || ((c_len c - at8) / 48 <? np) then Ret []
        else entries_at (Z.to_nat np) (c_p c + at8).

(** The C string at an offset of the area. *)
Definition text_at (off : Z) : outcome (list Z) :=
  if off <? 0 then Oob else cstr_of (drop (Z.to_nat off) area).

End Readers.

(** ** Lemmas: reading what was written *)

Lemma length_le32 v : length (le32 v) = 4%nat.
Proof. pose proof (length_Z_to_little_endian 4 8 v ltac:(lia)). unfold le32. lia. Qed.

Lemma of_le32_le32 v : 0 <= v < 2 ^ 32 -> of_le32 (le32 v) = v.
Proof. intros Hv. unfold of_le32, le32. rewrite little_endian_to_Z_to_little_endian by lia. by apply Z.mod_small. Qed.

Lemma takewhile_nz_cstring s : cstring s -> takewhile_nz s = s.
Proof.
  induction 1 as [| c s Hc Hs IH]; [done |]. cbn [takewhile_nz]. unfold ischar in Hc. rewrite (proj2 (Z.eqb_neq _ _)) by lia. by rewrite IH.
Qed.

Lemma cstr_of_app s rest : cstring s -> cstr_of (s ++ 0 :: rest) = Ret s.
Proof.
  induction 1 as [| c s Hc Hs IH]; [done |]. cbn [app cstr_of]. unfold ischar in Hc. rewrite (proj2 (Z.eqb_neq _ _)) by lia. by rewrite IH.
Qed.

Definition text_wf (s : option (list Z)) : Prop := forall t, s = Some t -> cstring t.
Definition tag_cidr_wf (c : ecs_cidr_entry_t) : Prop := text_wf (cidr_text c) /\ layout_wf (cidr_parsed c).
Definition tag_wf (t : ecs_tag_def_t) : Prop := text_wf (tag t) /\ Forall tag_cidr_wf (cidrs t).

Definition cstr_len (s : option (list Z)) : Z := match s with None => 0 | Some t => len t + 1 end.

Lemma length_put_str s : len (put_str s) = 4 + cstr_len s.
Proof. destruct s as [t |]; cbn [put_str cstr_len]; rewrite ?length_app, length_le32; len_lia. Qed.

Lemma concat_length_le {A} (f : A -> list Z) l : (forall x, In x l -> 1 <= len (f x)) -> len l <= len (concat (map f l)).
Proof.
  induction l as [| x l IH]; intros Hf; [done |]. cbn [map concat]. rewrite length_app. cbn [length].
  pose proof (Hf x (or_introl eq_refl)). assert (len l <= len (concat (map f l))) by (apply IH; intros; apply Hf; by right). lia.
Qed.

Section ReaderLemmas.
Variable area : list Z.

Definition cursor_ok (c : cursor_t) : Prop :=
  c_bad c = false /\ 0 <= c_p c /\ 0 <= c_pos c <= c_len c /\ c_p c + c_len c = len area /\ len area < 2 ^ 32.

Definition here (c : cursor_t) : list Z := drop (Z.to_nat (c_p c + c_pos c)) area.

Lemma length_here c : cursor_ok c -> len (here c) = c_len c - c_pos c.
Proof. intros (_ & Hp & Hpos & Hl & _). unfold here. rewrite length_drop. lia. Qed.

Lemma c_left_here c : cursor_ok c -> c_left c = len (here c).
Proof.
  intros Hc. rewrite length_here by done. destruct Hc as (_ & Hp & Hpos & Hl & Hm). unfold c_left. apply u64_small. lia.
Qed.

Lemma adv_here c a rest : cursor_ok c -> here c = a ++ rest -> cursor_ok (adv c (len a)) /\ here (adv c (len a)) = rest.
Proof.
  intros Hc Hh. pose proof (length_here c Hc) as Hl. rewrite Hh, length_app in Hl. destruct Hc as (Hb & Hp & Hpos & Hlen & Hm). split.
  - unfold cursor_ok, adv. cbn. split_and!; [done | done | lia | lia | done | done].
  - unfold here, adv in *. cbn [c_p c_pos]. replace (Z.to_nat (c_p c + (c_pos c + len a))) with (Z.to_nat (c_p c + c_pos c) + length a)%nat by lia.
    rewrite <- drop_drop, Hh. by rewrite drop_app_length.
Qed.

Lemma adv_adv c a b : adv (adv c a) b = adv c (a + b).
Proof. unfold adv. cbn. f_equal. lia. Qed.

Lemma slice_here c a rest n : cursor_ok c -> here c = a ++ rest -> n = len a -> slice area (c_p c + c_pos c) n = Ret a.
Proof.
  intros Hc Hh ->. pose proof (length_here c Hc) as Hl. rewrite Hh, length_app in Hl. destruct Hc as (Hb & Hp & Hpos & Hlen & Hm).
  rewrite slice_in by lia. fold (here c). rewrite Hh, Nat2Z.id. by rewrite take_app_length.
Qed.

Lemma get_u32_ok c v rest : cursor_ok c -> here c = le32 v ++ rest -> 0 <= v < 2 ^ 32 -> get_u32 area c = Ret (adv c 4, v).
Proof.
  intros Hc Hh Hv. unfold get_u32. rewrite c_left_here, Hh by done. destruct Hc as (Hb & Hc). rewrite Hb. cbn [orb].
  rewrite length_app, length_le32. rewrite (proj2 (Z.ltb_ge _ _)) by lia.
  rewrite (slice_here c (le32 v) rest) by (done || by rewrite length_le32). cbn [obind]. by rewrite of_le32_le32.
Qed.

Lemma get_u32_step c v rest : cursor_ok c -> here c = le32 v ++ rest -> 0 <= v < 2 ^ 32 ->
  get_u32 area c = Ret (adv c 4, v) /\ cursor_ok (adv c 4) /\ here (adv c 4) = rest.
Proof.
  intros Hc Hh Hv. split; [by eapply get_u32_ok |]. change 4 with (Z.of_nat 4). rewrite <- (length_le32 v). by apply adv_here.
Qed.

Lemma put_str_bound c s rest : cursor_ok c -> here c = put_str (Some s) ++ rest -> 0 <= len s < 2 ^ 32 - 1 /\ 4 + (len s + 1) <= len (here c).
Proof.
  intros Hc Hh. pose proof (length_here c Hc) as Hl. rewrite Hh, length_app in *. rewrite Nat2Z.inj_add, length_put_str in *. cbn [cstr_len] in *.
  destruct Hc as (_ & ? & ? & ? & ?). lia.
Qed.

(** A text is found where it was written. *)
Lemma zc_str_ok c s rest : cursor_ok c -> here c = put_str s ++ rest -> text_wf s ->
  exists off, zc_str area c = Ret (adv c (len (put_str s)), off) /\
    match s with None => off = None | Some t => exists o, off = Some o /\ text_at area o = Ret t end.
Proof.
  intros Hc Hh Hw. unfold zc_str. destruct s as [t |].
  - destruct (put_str_bound c t rest Hc Hh) as [Ht Hl]. rewrite length_put_str. cbn [cstr_len]. cbn [put_str] in Hh. rewrite u32_small in Hh by lia. rewrite <- app_assoc in Hh.
    destruct (get_u32_step c (len t) _ Hc Hh) as (-> & Hc1 & Hh1); [lia |]. cbn [obind].
    pose proof (length_here c Hc) as Hlh. pose proof Hc1 as (Hb1 & _). rewrite Hb1. cbn [orb]. rewrite (proj2 (Z.eqb_neq _ _)) by lia.
    rewrite c_left_here, Hh1 by done. rewrite !length_app. cbn [length adv c_len]. destruct Hc as (Hb & Hp & Hpos & Hlen & Hm).
    rewrite (proj2 (Z.leb_gt _ _)) by lia. rewrite (proj2 (Z.ltb_ge _ _)) by lia. cbn [orb]. eexists. split; [by rewrite adv_adv |].
    eexists. split; [done |]. unfold text_at. cbn [adv c_p c_pos]. rewrite (proj2 (Z.ltb_ge _ _)) by lia.
    unfold here in Hh1. cbn [adv c_p c_pos] in Hh1. rewrite Hh1, <- app_assoc. apply cstr_of_app. by apply Hw.
  - exists None. split; [| done]. destruct (get_u32_step c 4294967295 _ Hc Hh) as (-> & (Hb1 & _) & _); [lia |]. cbn [obind]. by rewrite orb_true_r.
Qed.

Lemma get_str_ok c s rest : cursor_ok c -> here c = put_str s ++ rest -> text_wf s -> get_str area c = Ret (adv c (len (put_str s)), s).
Proof.
  intros Hc Hh Hw. unfold get_str. destruct s as [t |].
  - destruct (put_str_bound c t rest Hc Hh) as [Ht Hl]. rewrite length_put_str. cbn [cstr_len]. cbn [put_str] in Hh. rewrite u32_small in Hh by lia. rewrite <- app_assoc in Hh.
    destruct (get_u32_step c (len t) _ Hc Hh) as (-> & Hc1 & Hh1); [lia |]. cbn [obind].
    pose proof (length_here c Hc) as Hlh. pose proof Hc1 as (Hb1 & _). rewrite Hb1. cbn [orb]. rewrite (proj2 (Z.eqb_neq _ _)) by lia.
    rewrite c_left_here, Hh1 by done. rewrite !length_app. cbn [length adv c_len]. pose proof Hc as (Hb & Hp & Hpos & Hlen & Hm).
    rewrite (proj2 (Z.leb_gt _ _)) by lia. rewrite (proj2 (Z.ltb_ge _ _)) by lia. cbn [orb].
    rewrite (slice_here (adv c 4) t ([0] ++ rest)) by (done || by rewrite Hh1, <- app_assoc). cbn [obind].
    rewrite takewhile_nz_cstring by (by apply Hw). by rewrite adv_adv.
  - destruct (get_u32_step c 4294967295 _ Hc Hh) as (-> & (Hb1 & _) & _); [lia |]. cbn [obind]. by rewrite orb_true_r.
Qed.

Lemma get_struct_ok {T} `{Layout T} c x rest : cursor_ok c -> here c = to_octets x ++ rest -> layout_wf x ->
  get_struct area c = Ret (adv c sizeof, Some x).
Proof.
  intros Hc Hh Hw. unfold get_struct. pose proof (length_to_octets x Hw) as Hl. rewrite c_left_here, Hh by done. rewrite length_app.
  rewrite (proj2 (Z.ltb_ge _ _)) by lia. rewrite (slice_here c (to_octets x) rest) by done. cbn [obind]. by rewrite of_to_octets.
Qed.

Lemma adv_0 c : adv c 0 = c.
Proof. destruct c. unfold adv. cbn. f_equal. lia. Qed.

Lemma length_put_cidr c : tag_cidr_wf c -> len (put_cidr c) = 4 + cstr_len (cidr_text c) + 44.
Proof.
  intros [_ Hc]. unfold put_cidr. rewrite length_app, Nat2Z.inj_add, length_put_str.
  pose proof (length_to_octets (cidr_parsed c) Hc) as Hl. cbn [sizeof cidr_layout] in Hl. lia.
Qed.

Lemma cstr_len_nonneg s : 0 <= cstr_len s.
Proof. destruct s; cbn; lia. Qed.

Lemma get_cidrs_ok cs : forall c rest, Forall tag_cidr_wf cs -> cursor_ok c -> here c = concat (map put_cidr cs) ++ rest ->
  get_cidrs area (length cs) c = Ret (adv c (len (concat (map put_cidr cs))), cs).
Proof.
  induction cs as [| x cs IH]; intros c rest Hw Hc Hh; cbn [map concat length get_cidrs] in *; [by rewrite adv_0 |].
  apply Forall_cons in Hw as [Hx Hw]. pose proof (length_put_cidr x Hx) as Hlx. destruct Hx as [Hxt Hxc].
  pose proof Hc as (Hb & _). rewrite Hb. unfold put_cidr in Hh at 1. rewrite <- !app_assoc in Hh.
  rewrite (get_str_ok c _ _ Hc Hh Hxt). cbn [obind]. apply adv_here in Hh as [Hc1 Hh1]; [| done].
  rewrite (get_struct_ok (adv c _) _ _ Hc1 Hh1 Hxc). cbn [obind].
  rewrite <- (length_to_octets (cidr_parsed x) Hxc). apply adv_here in Hh1 as [Hc2 Hh2]; [| done].
  rewrite (IH _ rest Hw Hc2 Hh2). cbn [obind]. rewrite !adv_adv. rewrite length_app. unfold put_cidr at 2. rewrite length_app.
  destruct x. cbn. do 2 f_equal. f_equal. lia.
Qed.

Lemma skip_cidrs_ok cs : forall c rest, Forall tag_cidr_wf cs -> cursor_ok c -> here c = concat (map put_cidr cs) ++ rest ->
  skip_cidrs area (length cs) c = Ret (adv c (len (concat (map put_cidr cs)))).
Proof.
  induction cs as [| x cs IH]; intros c rest Hw Hc Hh; cbn [map concat length skip_cidrs] in *; [by rewrite adv_0 |].
  apply Forall_cons in Hw as [Hx Hw]. destruct Hx as [Hxt Hxc]. pose proof Hc as (Hb & _). rewrite Hb.
  unfold put_cidr in Hh at 1. rewrite <- !app_assoc in Hh. pose proof (length_to_octets (cidr_parsed x) Hxc) as Hl. cbn [sizeof cidr_layout] in Hl.
  destruct (zc_str_ok c _ _ Hc Hh Hxt) as (off & -> & _). cbn [obind]. apply adv_here in Hh as [Hc1 Hh1]; [| done].
  rewrite c_left_here, Hh1, length_app by done. rewrite (proj2 (Z.ltb_ge _ _)) by lia. rewrite <- Hl.
  apply adv_here in Hh1 as [Hc2 Hh2]; [| done]. rewrite (IH _ rest Hw Hc2 Hh2). rewrite !adv_adv, length_app. unfold put_cidr at 2. rewrite length_app.
  do 2 f_equal. lia.
Qed.

Lemma cidrs_count cs : Forall tag_cidr_wf cs -> len cs <= len (concat (map put_cidr cs)).
Proof.
  intros Hw. apply concat_length_le. intros x Hx. rewrite Forall_forall in Hw. apply list_elem_of_In, Hw in Hx.
  rewrite length_put_cidr by done. pose proof (cstr_len_nonneg (cidr_text x)). lia.
Qed.

(** The header of a tag: its text and the number of its CIDRs. *)
Lemma tag_head c t rest : cursor_ok c -> here c = put_tag t ++ rest -> tag_wf t ->
  let c1 := adv c (len (put_str (tag t))) in let c2 := adv c1 4 in
  cursor_ok c1 /\ get_u32 area c1 = Ret (c2, len (cidrs t)) /\ cursor_ok c2 /\ here c2 = concat (map put_cidr (cidrs t)) ++ rest /\
  len (cidrs t) <= c_len c2.
Proof.
  intros Hc Hh [Hwt Hwc]. cbv zeta. unfold put_tag in Hh. rewrite <- !app_assoc in Hh. pose proof (length_here c Hc) as Hl.
  rewrite Hh, !length_app in Hl. pose proof (cidrs_count (cidrs t) Hwc) as Hn. pose proof Hc as (_ & ? & ? & ? & ?).
  apply adv_here in Hh as [Hc1 Hh1]; [| done]. rewrite u32_small in Hh1 by lia.
  destruct (get_u32_step _ _ _ Hc1 Hh1) as (Hg & Hc2 & Hh2); [lia |]. split_and!; try done. cbn [adv c_len]. lia.
Qed.

Lemma get_tag_list_ok ts : forall c rest, Forall tag_wf ts -> cursor_ok c -> here c = concat (map put_tag ts) ++ rest ->
  get_tag_list area (length ts) c = Ret (adv c (len (concat (map put_tag ts))), ts).
Proof.
  induction ts as [| t ts IH]; intros c rest Hw Hc Hh; cbn [map concat length get_tag_list] in *; [by rewrite adv_0 |].
  apply Forall_cons in Hw as [Ht Hw]. rewrite <- app_assoc in Hh. destruct (tag_head c t _ Hc Hh Ht) as (Hc1 & Hg & Hc2 & Hh2 & Hn).
  pose proof Hc as (Hb & _). rewrite Hb. unfold put_tag in Hh. rewrite <- !app_assoc in Hh. destruct Ht as [Htt Htc].
  rewrite (get_str_ok c _ _ Hc Hh Htt). cbn [obind]. rewrite Hg. cbn [obind]. pose proof Hc2 as (Hb2 & _). rewrite Hb2.
  rewrite (proj2 (Z.ltb_ge _ _)) by lia. rewrite Nat2Z.id. rewrite (get_cidrs_ok _ _ _ Htc Hc2 Hh2). cbn [obind].
  apply adv_here in Hh2 as [Hc3 Hh3]; [| done]. rewrite (IH _ rest Hw Hc3 Hh3). cbn [obind]. rewrite !adv_adv. rewrite length_app.
  unfold put_tag at 2. rewrite !length_app, length_le32. destruct t. cbn. do 2 f_equal. f_equal. lia.
Qed.

Lemma skip_tag_list_ok ts : forall c rest, Forall tag_wf ts -> cursor_ok c -> here c = concat (map put_tag ts) ++ rest ->
  skip_tag_list area (length ts) c = Ret (adv c (len (concat (map put_tag ts)))).
Proof.
  induction ts as [| t ts IH]; intros c rest Hw Hc Hh; cbn [map concat length skip_tag_list] in *; [by rewrite adv_0 |].
  apply Forall_cons in Hw as [Ht Hw]. rewrite <- app_assoc in Hh. destruct (tag_head c t _ Hc Hh Ht) as (Hc1 & Hg & Hc2 & Hh2 & Hn).
  pose proof Hc as (Hb & _). rewrite Hb. unfold put_tag in Hh. rewrite <- !app_assoc in Hh. destruct Ht as [Htt Htc].
  destruct (zc_str_ok c _ _ Hc Hh Htt) as (off & -> & _). cbn [obind]. rewrite Hg. cbn [obind]. pose proof Hc2 as (Hb2 & _). rewrite Hb2.
  rewrite (proj2 (Z.ltb_ge _ _)) by lia. rewrite Nat2Z.id. rewrite (skip_cidrs_ok _ _ _ Htc Hc2 Hh2). cbn [obind].
  apply adv_here in Hh2 as [Hc3 Hh3]; [| done]. rewrite (IH _ rest Hw Hc3 Hh3). rewrite !adv_adv, length_app.
  unfold put_tag at 2. rewrite !length_app, length_le32. do 2 f_equal. lia.
Qed.

(** The number in front of a list of tags. *)
Lemma tags_head c ts rest : cursor_ok c -> here c = put_tags ts ++ rest -> Forall tag_wf ts ->
  get_u32 area c = Ret (adv c 4, len ts) /\ cursor_ok (adv c 4) /\ here (adv c 4) = concat (map put_tag ts) ++ rest /\
  len ts <= c_len (adv c 4).
Proof.
  intros Hc Hh Hw. unfold put_tags in Hh. rewrite <- app_assoc in Hh. pose proof (length_here c Hc) as Hl. rewrite Hh, !length_app in Hl.
  assert (len ts <= len (concat (map put_tag ts))) as Hn.
  { apply concat_length_le. intros x Hx. unfold put_tag. rewrite !length_app, length_le32. lia. }
  pose proof Hc as (_ & ? & ? & ? & ?). rewrite u32_small in Hh by lia. destruct (get_u32_step _ _ _ Hc Hh) as (Hg & Hc2 & Hh2); [lia |].
  split_and!; try done. cbn [adv c_len]. lia.
Qed.

Lemma get_tags_ok c ts rest : cursor_ok c -> here c = put_tags ts ++ rest -> Forall tag_wf ts ->
  get_tags area c = Ret (adv c (len (put_tags ts)), ts).
Proof.
  intros Hc Hh Hw. destruct (tags_head c ts rest Hc Hh Hw) as (Hg & Hc1 & Hh1 & Hn). unfold get_tags. rewrite Hg. cbn [obind].
  pose proof Hc1 as (Hb1 & _). rewrite Hb1. cbn [orb]. unfold put_tags. rewrite length_app, length_le32, Nat2Z.inj_add, <- adv_adv.
  destruct ts as [| t ts]; [change (len [] =? 0) with true; cbn iota; by rewrite adv_0 |].
  rewrite (proj2 (Z.eqb_neq _ _)), (proj2 (Z.ltb_ge _ _)) by len_lia. rewrite Nat2Z.id. by eapply get_tag_list_ok.
Qed.

Lemma zc_skip_tags_ok c ts rest : cursor_ok c -> here c = put_tags ts ++ rest -> Forall tag_wf ts ->
  zc_skip_tags area c = Ret (adv c (len (put_tags ts))).
Proof.
  intros Hc Hh Hw. destruct (tags_head c ts rest Hc Hh Hw) as (Hg & Hc1 & Hh1 & Hn). unfold zc_skip_tags. rewrite Hg. cbn [obind].
  pose proof Hc1 as (Hb1 & _). rewrite Hb1. rewrite (proj2 (Z.ltb_ge _ _)) by lia. rewrite Nat2Z.id. unfold put_tags. rewrite length_app, length_le32, Nat2Z.inj_add, <- adv_adv.
  by eapply skip_tag_list_ok.
Qed.

Lemma get_strs_ok ss : forall c rest, Forall text_wf ss -> cursor_ok c -> here c = concat (map put_str ss) ++ rest ->
  get_strs area (length ss) c = Ret (adv c (len (concat (map put_str ss))), ss).
Proof.
  induction ss as [| s ss IH]; intros c rest Hw Hc Hh; cbn [map concat length get_strs] in *; [by rewrite adv_0 |].
  apply Forall_cons in Hw as [Hs Hw]. rewrite <- app_assoc in Hh. pose proof Hc as (Hb & _). rewrite Hb.
  rewrite (get_str_ok c _ _ Hc Hh Hs). cbn [obind]. apply adv_here in Hh as [Hc1 Hh1]; [| done]. rewrite (IH _ rest Hw Hc1 Hh1). cbn [obind].
  rewrite adv_adv, length_app. do 3 f_equal. lia.
Qed.

Lemma skip_strs_ok ss : forall c rest, Forall text_wf ss -> cursor_ok c -> here c = concat (map put_str ss) ++ rest ->
  skip_strs area (length ss) c = Ret (adv c (len (concat (map put_str ss)))).
Proof.
  induction ss as [| s ss IH]; intros c rest Hw Hc Hh; cbn [map concat length skip_strs] in *; [by rewrite adv_0 |].
  apply Forall_cons in Hw as [Hs Hw]. rewrite <- app_assoc in Hh. pose proof Hc as (Hb & _). rewrite Hb.
  destruct (zc_str_ok c _ _ Hc Hh Hs) as (off & -> & _). cbn [obind]. apply adv_here in Hh as [Hc1 Hh1]; [| done].
  rewrite (IH _ rest Hw Hc1 Hh1). rewrite adv_adv, length_app. do 2 f_equal. lia.
Qed.

Lemma copy_locations_ok ls : forall c rest, Forall layout_wf ls -> cursor_ok c -> here c = concat (map to_octets ls) ++ rest ->
  copy_locations area (length ls) c = Ret (adv c (len (concat (map to_octets ls))), ls).
Proof.
  induction ls as [| l ls IH]; intros c rest Hw Hc Hh; cbn [map concat length copy_locations] in *; [by rewrite adv_0 |].
  apply Forall_cons in Hw as [Hl Hw]. rewrite <- app_assoc in Hh. pose proof (length_to_octets l Hl) as Hn. cbn [sizeof location_layout] in Hn.
  rewrite (slice_here c _ _ 7 Hc Hh) by done. cbn [obind]. apply adv_here in Hh as [Hc1 Hh1]; [| done]. rewrite Hn in *.
  rewrite (IH _ rest Hw Hc1 Hh1). cbn [obind]. rewrite of_to_octets by done. rewrite adv_adv, length_app. do 3 f_equal. lia.
Qed.

Lemma entries_at_ok {T} `{Layout T} (ls : list T) : forall off rest, Forall layout_wf ls -> 0 <= off ->
  drop (Z.to_nat off) area = concat (map to_octets ls) ++ rest -> entries_at area (length ls) off = Ret ls.
Proof.
  induction ls as [| l ls IH]; intros off rest Hw Ho Hh; cbn [map concat length entries_at] in *; [done |].
  apply Forall_cons in Hw as [Hl Hw]. rewrite <- app_assoc in Hh. pose proof (length_to_octets l Hl) as Hn. pose proof sizeof_pos.
  pose proof (f_equal length Hh) as Hlen. rewrite length_drop, length_app in Hlen.
  rewrite slice_in by lia. rewrite Hh, take_app_length' by lia. cbn [obind]. rewrite (IH _ rest) by (done || lia ||
    (rewrite Z2Nat.inj_add by lia; rewrite <- drop_drop, Hh; by rewrite drop_app_length' by lia)).
  cbn [obind]. by rewrite of_to_octets.
Qed.

(** *** Cursors over tags *)

(** The cursor stands in front of the definitions [ts]. *)
Definition tags_at (it : zone_image_tags_t) (ts : list ecs_tag_def_t) : Prop :=
  it_left it = len ts /\ it_end it = len area /\ 0 <= it_p it <= it_end it /\
  exists rest, drop (Z.to_nat (it_p it)) area = concat (map put_tag ts) ++ rest.

Definition cidrs_at (zt : zone_image_tag_t) (cs : list ecs_cidr_entry_t) : Prop :=
  zt_left zt = len cs /\ zt_end zt = len area /\ 0 <= zt_p zt <= zt_end zt /\
  exists rest, drop (Z.to_nat (zt_p zt)) area = concat (map put_cidr cs) ++ rest.

Definition points_to (off : option Z) (s : option (list Z)) : Prop :=
  match s with None => off = None | Some t => exists o, off = Some o /\ text_at area o = Ret t end.

Lemma fresh_cursor p e rest : len area < 2 ^ 32 -> 0 <= p <= e -> e = len area -> drop (Z.to_nat p) area = rest ->
  cursor_ok (Cursor p (e - p) 0 false) /\ here (Cursor p (e - p) 0 false) = rest.
Proof.
  intros Hm Hp He Hd. split; [unfold cursor_ok; cbn; split_and!; done || lia |]. unfold here. cbn [c_p c_pos]. by replace (p + 0) with p by lia.
Qed.

Lemma tags_next_ok it t ts : len area < 2 ^ 32 -> Forall tag_wf (t :: ts) -> tags_at it (t :: ts) ->
  exists it' zt, zone_image_tags_next area it = Ret (it', Some zt) /\ tags_at it' ts /\ cidrs_at zt (cidrs t) /\ points_to (zt_tag zt) (tag t).
Proof.
  intros Hm Hw (Hleft & Hend & Hp & rest & Hd). apply Forall_cons in Hw as [Ht Hw]. unfold zone_image_tags_next.
  rewrite Hleft, (proj2 (Z.eqb_neq _ _)) by (cbn [length]; lia). cbn [map concat] in Hd. rewrite <- app_assoc in Hd.
  destruct (fresh_cursor _ _ _ Hm Hp Hend Hd) as [Hc Hh]. set (c := Cursor _ _ _ _) in *.
  destruct (tag_head c t _ Hc Hh Ht) as (Hc1 & Hg & Hc2 & Hh2 & Hn). pose proof Hh as Hh'. unfold put_tag in Hh'. rewrite <- !app_assoc in Hh'.
  destruct (zc_str_ok c _ _ Hc Hh' (proj1 Ht)) as (off & -> & Hoff). cbn [obind]. rewrite Hg. cbn [obind].
  pose proof Hc2 as (Hb2 & Hp2 & Hpos2 & Hl2 & _). rewrite Hb2, (proj2 (Z.ltb_ge _ _)) by lia. cbn [orb]. rewrite Nat2Z.id.
  rewrite (skip_cidrs_ok _ _ _ (proj2 Ht) Hc2 Hh2). cbn [obind]. destruct (adv_here _ _ _ Hc2 Hh2) as [Hc3 Hh3].
  pose proof Hc3 as (Hb3 & _ & Hpos3 & Hl3 & _). rewrite Hb3. eexists _, _. split; [done |]. split_and!.
  - unfold tags_at. cbn [it_left it_end it_p]. cbn [length] in *. split_and!; [lia | done | | |].
    + subst c. cbn [c_pos adv] in *. lia.
    + subst c. cbn [c_pos adv c_len] in *. lia.
    + exists rest. exact Hh3.
  - unfold cidrs_at. cbn [zt_left zt_end zt_p]. subst c. cbn [c_p c_pos adv c_len] in *. split_and!; [done | done | lia | lia |].
    eexists. exact Hh2.
  - exact Hoff.
Qed.

Lemma next_cidr_ok zt x cs : len area < 2 ^ 32 -> Forall tag_cidr_wf (x :: cs) -> cidrs_at zt (x :: cs) ->
  exists zt' off, zone_image_tag_next_cidr area zt = Ret (zt', Some (off, cidr_parsed x)) /\ zt_tag zt' = zt_tag zt /\
    cidrs_at zt' cs /\ points_to off (cidr_text x).
Proof.
  intros Hm Hw (Hleft & Hend & Hp & rest & Hd). apply Forall_cons in Hw as [[Hxt Hxc] Hw]. unfold zone_image_tag_next_cidr.
  rewrite Hleft, (proj2 (Z.eqb_neq _ _)) by (cbn [length]; lia). cbn [map concat] in Hd. unfold put_cidr in Hd at 1. rewrite <- !app_assoc in Hd.
  destruct (fresh_cursor _ _ _ Hm Hp Hend Hd) as [Hc Hh]. set (c := Cursor _ _ _ _) in *.
  destruct (zc_str_ok c _ _ Hc Hh Hxt) as (off & -> & Hoff). cbn [obind]. destruct (adv_here _ _ _ Hc Hh) as [Hc1 Hh1].
  pose proof (length_to_octets (cidr_parsed x) Hxc) as Hl. cbn [sizeof cidr_layout] in Hl.
  pose proof Hc1 as (Hb1 & _). rewrite Hb1, c_left_here, Hh1, length_app by done. rewrite (proj2 (Z.ltb_ge _ _)) by lia. cbn [orb].
  rewrite (slice_here (adv c _) _ _ 44 Hc1 Hh1) by done. cbn [obind]. rewrite of_to_octets by done. eexists _, _. split; [done |]. split; [done |].
  split; [| done]. apply adv_here in Hh1 as [Hc2 Hh2]; [| done]. rewrite Hl in *. pose proof Hc2 as (_ & Hp2 & Hpos2 & Hl2 & _). unfold cidrs_at.
  subst c. cbn [zt_left zt_end zt_p c_p c_pos adv c_len length] in *. split_and!; [lia | done | lia | lia |]. exists rest. exact Hh2.
Qed.

(** *** Any area at all *)

Definition cursor_in (c : cursor_t) : Prop :=
  0 <= c_p c /\ 0 <= c_pos c <= c_len c /\ c_p c + c_len c = len area /\ len area < 2 ^ 32.

Hypothesis Harea : bytes area.

Lemma c_left_in c : cursor_in c -> c_left c = c_len c - c_pos c.
Proof. intros (Hp & Hpos & Hl & Hm). apply u64_small. lia. Qed.

Lemma adv_in c n : cursor_in c -> 0 <= n <= c_len c - c_pos c -> cursor_in (adv c n).
Proof. intros (Hp & Hpos & Hl & Hm) Hn. unfold cursor_in. cbn. lia. Qed.

Lemma get_u32_safe c : cursor_in c -> exists c' v, get_u32 area c = Ret (c', v) /\ cursor_in c' /\ 0 <= v < 2 ^ 32.
Proof.
  intros Hc. unfold get_u32. rewrite c_left_in by done. destruct (c_bad c || _) eqn:E; [by exists (spoil c), 0 |]. apply orb_false_iff in E as [_ E].
  pose proof Hc as (Hp & Hpos & Hl & Hm). rewrite slice_in by lia. cbn [obind]. eexists _, _. split; [done |]. split; [apply adv_in; [done | lia] |].
  unfold of_le32. set (b := take _ _). assert (bytes b) as Hb by (by apply Forall_take, Forall_drop).
  assert (length b <= 4)%nat as Hb4 by (unfold b; rewrite length_take; lia).
  pose proof (little_endian_to_Z_bound 8 b ltac:(lia) Hb) as Hbnd. split; [lia |]. eapply Z.lt_le_trans; [apply Hbnd |]. apply Z.pow_le_mono_r; lia.
Qed.

Lemma zc_str_safe c : cursor_in c -> exists c' s, zc_str area c = Ret (c', s) /\ cursor_in c'.
Proof.
  intros Hc. unfold zc_str. destruct (get_u32_safe c Hc) as (c1 & n & -> & Hc1 & Hn). cbn [obind].
  destruct (c_bad c1 || _); [by eexists _, _ |]. destruct (_ || _) eqn:E; [by exists (spoil c1), None |]. rewrite c_left_in in E by done.
  eexists _, _. split; [done |]. apply adv_in; [done | lia].
Qed.

(** A cursor keeps its bounds. *)
Lemma get_u32_base c c' v : get_u32 area c = Ret (c', v) -> c_p c' = c_p c /\ c_len c' = c_len c.
Proof. unfold get_u32. case_if; [by intros [= <- _] |]. intros H. bind_inv H. by injection H as <- _. Qed.

Lemma zc_str_base c c' s : zc_str area c = Ret (c', s) -> c_p c' = c_p c /\ c_len c' = c_len c.
Proof.
  unfold zc_str. intros H. bind_inv H. destruct a as [d n]. apply get_u32_base in Ha as [<- <-]. case_if_in H; [by injection H as <- _ |].
  case_if_in H; by injection H as <- _.
Qed.

Lemma skip_cidrs_base n : forall c c', skip_cidrs area n c = Ret c' -> c_p c' = c_p c /\ c_len c' = c_len c.
Proof.
  induction n as [| n IH]; intros c c' H; cbn [skip_cidrs] in H; [by injection H as <- |]. destruct (c_bad c); [by injection H as <- |].
  bind_inv H. destruct a as [d s]. apply zc_str_base in Ha as [<- <-]. case_if_in H; [by injection H as <- |]. by apply IH in H.
Qed.

Lemma skip_cidrs_safe n : forall c, cursor_in c -> exists c', skip_cidrs area n c = Ret c' /\ cursor_in c'.
Proof.
  induction n as [| n IH]; intros c Hc; cbn [skip_cidrs]; [by exists c |]. destruct (c_bad c); [by exists c |].
  destruct (zc_str_safe c Hc) as (c1 & s & -> & Hc1). cbn [obind]. rewrite c_left_in by done. case_if; [by exists (spoil c1) |].
  apply IH, adv_in; [done | lia].
Qed.

Lemma skip_tag_list_safe n : forall c, cursor_in c -> exists c', skip_tag_list area n c = Ret c' /\ cursor_in c'.
Proof.
  induction n as [| n IH]; intros c Hc; cbn [skip_tag_list]; [by exists c |]. destruct (c_bad c); [by exists c |].
  destruct (zc_str_safe c Hc) as (c1 & s & -> & Hc1). cbn [obind]. destruct (get_u32_safe c1 Hc1) as (c2 & nc & -> & Hc2 & _). cbn [obind].
  destruct (c_bad c2); [by exists c2 |]. case_if; [by exists (spoil c2) |]. destruct (skip_cidrs_safe (Z.to_nat nc) c2 Hc2) as (c3 & -> & Hc3). by apply IH.
Qed.

Lemma zc_skip_tags_safe c : cursor_in c -> exists c', zc_skip_tags area c = Ret c' /\ cursor_in c'.
Proof.
  intros Hc. unfold zc_skip_tags. destruct (get_u32_safe c Hc) as (c1 & n & -> & Hc1 & _). cbn [obind]. destruct (c_bad c1); [by exists c1 |].
  case_if; [by exists (spoil c1) |]. by apply skip_tag_list_safe.
Qed.

Lemma skip_strs_safe n : forall c, cursor_in c -> exists c', skip_strs area n c = Ret c' /\ cursor_in c'.
Proof.
  induction n as [| n IH]; intros c Hc; cbn [skip_strs]; [by exists c |]. destruct (c_bad c); [by exists c |].
  destruct (zc_str_safe c Hc) as (c1 & s & -> & Hc1). by apply IH.
Qed.

Lemma entries_at_safe {T} `{Layout T} n : forall off, 0 <= off -> off + Z.of_nat n * sizeof <= len area -> exists l, entries_at area n off = Ret l.
Proof.
  pose proof sizeof_pos. induction n as [| n IH]; intros off Ho Hl; cbn [entries_at]; [by eexists |].
  rewrite slice_in by lia. cbn [obind]. destruct (IH (off + sizeof)) as (l & ->); [lia | lia |]. by eexists.
Qed.

Lemma div_count k v l : 0 < k -> 0 <= v -> (l / k <? v) = false -> v * k <= l.
Proof. intros Hk Hv E. apply Z.ltb_ge in E. pose proof (Z.mul_div_le l k Hk). nia. Qed.

Lemma zattr_cursor_in : len area < 2 ^ 32 -> cursor_in (zattr_cursor area).
Proof. intros Hm. unfold cursor_in, zattr_cursor. cbn. lia. Qed.

Lemma locations_safe : len area < 2 ^ 32 -> exists l, zone_image_locations area = Ret l.
Proof.
  intros Hm. unfold zone_image_locations. destruct (get_u32_safe _ (zattr_cursor_in Hm)) as (c & n & -> & Hc & Hn). cbn [obind].
  destruct (_ || _) eqn:E; [by eexists |]. apply orb_false_iff in E as [_ E]. rewrite c_left_in in E by done. apply div_count in E; [| lia | lia].
  destruct Hc as (Hp & Hpos & Hl & _). apply entries_at_safe; cbn [sizeof location_layout]; lia.
Qed.

(** Behind the locations. *)
Lemma after_locations c nloc : cursor_in c -> 0 <= nloc -> (c_left c / 7 <? nloc) = false -> cursor_in (adv c (nloc * 7)).
Proof. intros Hc Hn E. rewrite c_left_in in E by done. apply div_count in E; [| lia | lia]. apply adv_in; [done | lia]. Qed.

Lemma trusted_safe : len area < 2 ^ 32 -> exists l, zone_image_ecs_trusted area = Ret l.
Proof.
  intros Hm. unfold zone_image_ecs_trusted. destruct (get_u32_safe _ (zattr_cursor_in Hm)) as (c & n & -> & Hc & Hn). cbn [obind].
  destruct (_ || _) eqn:E; [by eexists |]. apply orb_false_iff in E as [_ E]. apply after_locations in E; [| done | lia].
  destruct (zc_skip_tags_safe _ E) as (d1 & -> & Hd1). cbn [obind]. destruct (zc_skip_tags_safe _ Hd1) as (d2 & -> & Hd2). cbn [obind].
  destruct (get_u32_safe _ Hd2) as (d3 & ntr & -> & Hd3 & Hntr). cbn [obind]. destruct (_ || _); [by eexists |].
  destruct (skip_strs_safe (Z.to_nat ntr) _ Hd3) as (d4 & -> & Hd4). cbn [obind]. destruct (get_u32_safe _ Hd4) as (d5 & np & -> & Hd5 & Hnp). cbn [obind].
  destruct (_ || _); [by eexists |]. destruct (_ || _) eqn:E5; [by eexists |]. apply orb_false_iff in E5 as [E5 E6]. apply div_count in E6; [| lia | lia].
  destruct Hd5 as (Hp & Hpos & Hl & _). assert (0 <= Z.land (c_pos d5 + 7) (Z.lnot 7)) by (apply Z.land_nonneg; lia).
  apply entries_at_safe; cbn [sizeof acl_layout]; lia.
Qed.

Definition tags_in (it : zone_image_tags_t) : Prop := 0 <= it_p it <= it_end it /\ 0 <= it_left it /\ (it_left it = 0 \/ it_end it = len area).

Lemma tags_open_safe ecs : len area < 2 ^ 32 -> exists it, zone_image_tags_open area ecs = Ret it /\ tags_in it.
Proof.
  assert (tags_in (ImageTags 0 0 0)) as Hz by (unfold tags_in; cbn; lia).
  intros Hm. unfold zone_image_tags_open. destruct (get_u32_safe _ (zattr_cursor_in Hm)) as (c & n & -> & Hc & Hn). cbn [obind].
  destruct (_ || _) eqn:E; [by eexists |]. apply orb_false_iff in E as [_ E]. apply after_locations in E; [| done | lia].
  assert (exists d, (if ecs then zc_skip_tags area (adv c (n * 7)) else Ret (adv c (n * 7))) = Ret d /\ cursor_in d) as (d & -> & Hd)
    by (destruct ecs; [by apply zc_skip_tags_safe | eauto]).
  cbn [obind]. destruct (get_u32_safe _ Hd) as (d3 & m & -> & Hd3 & Hmm). cbn [obind]. destruct (c_bad d3); [by eexists |].
  eexists. split; [done |]. destruct Hd3 as (? & ? & ? & _). unfold tags_in. cbn. lia.
Qed.

Lemma tags_next_safe it : len area < 2 ^ 32 -> tags_in it ->
  exists it' zt, zone_image_tags_next area it = Ret (it', zt) /\ tags_in it' /\
    (forall t, zt = Some t -> it_left it' < it_left it /\ 0 <= zt_p t <= zt_end t /\ zt_end t = len area /\ 0 <= zt_left t).
Proof.
  intros Hm Hit. unfold zone_image_tags_next. destruct (Z.eqb_spec (it_left it) 0) as [E0 | E0]; [by exists it, None |].
  destruct Hit as (Hp & Hl0 & [? | Hend]); [done |].
  assert (cursor_in (Cursor (it_p it) (it_end it - it_p it) 0 false)) as Hc by (unfold cursor_in; cbn; lia).
  destruct (zc_str_safe _ Hc) as (d1 & s & E1 & Hd1). rewrite E1. cbn [obind]. assert (c_p d1 = it_p it /\ c_len d1 = it_end it - it_p it) as [Hp1 Hl1] by (by apply zc_str_base in E1).
  destruct (get_u32_safe _ Hd1) as (d2 & nc & E2 & Hd2 & Hnc). rewrite E2. cbn [obind]. apply get_u32_base in E2 as [Hp2 Hl2].
  assert (tags_in (ImageTags (it_p it) (it_end it) 0)) as Hstop by (unfold tags_in; cbn; lia).
  destruct (_ || _); [by eexists _, None |]. destruct (skip_cidrs_safe (Z.to_nat nc) _ Hd2) as (d3 & E3 & Hd3). rewrite E3. cbn [obind].
  apply skip_cidrs_base in E3 as [Hp3 Hl3]. destruct (c_bad d3); [by eexists _, None |]. eexists _, _. split; [done |].
  destruct Hd2 as (? & ? & ? & _), Hd3 as (? & ? & ? & _). split; [unfold tags_in; cbn; lia |]. intros t [= <-]. cbn. lia.
Qed.

Lemma next_cidr_safe zt : len area < 2 ^ 32 -> 0 <= zt_p zt <= zt_end zt -> zt_end zt = len area -> 0 <= zt_left zt ->
  exists zt' r, zone_image_tag_next_cidr area zt = Ret (zt', r) /\ 0 <= zt_p zt' <= zt_end zt' /\ zt_end zt' = len area /\ 0 <= zt_left zt' /\
    (r <> None -> zt_left zt' < zt_left zt).
Proof.
  intros Hm Hp Hend Hl. unfold zone_image_tag_next_cidr. destruct (Z.eqb_spec (zt_left zt) 0) as [E0 | E0]; [by exists zt, None |].
  assert (cursor_in (Cursor (zt_p zt) (zt_end zt - zt_p zt) 0 false)) as Hc by (unfold cursor_in; cbn; lia).
  destruct (zc_str_safe _ Hc) as (d1 & s & E1 & Hd1). rewrite E1. cbn [obind]. apply zc_str_base in E1 as [Hp1 Hl1]. cbn [c_p c_len] in *.
  destruct (_ || _) eqn:E; [eexists _, None; split; [done |]; cbn; lia || (split_and!; done || lia) |]. apply orb_false_iff in E as [_ E].
  rewrite c_left_in in E by done. pose proof Hd1 as (? & ? & ? & _). rewrite slice_in by lia. cbn [obind]. eexists _, _. split; [done |]. cbn. lia.
Qed.

End ReaderLemmas.

(** ** Lemmas: the area as a whole *)

Section AreaLemmas.
Context `{InetPton}.

Lemma parse_storable s : layout_wf (fst (cidr_entry_parse s)).
Proof.
  assert (cidr_storable entry_zero) as Hz by (split_and!; done). unfold cidr_entry_parse. cbn [layout_wf cidr_layout].
  destruct (streq s []); [done |]. destruct (_ || _); [done |]. destruct (split_prefix s) as [[c p] |]; [| done].
  destruct (inet_pton AF_INET c) as [a |] eqn:E4.
  - apply inet_pton_v4 in E4 as [E4 _]. case_ifs; try done; split_and!; cbn; rewrite ?length_app, ?E4; done.
  - destruct (inet_pton AF_INET6 c) as [a |] eqn:E6; [| done]. apply inet_pton_v6 in E6 as [E6 _]. case_ifs; try done; split_and!; cbn; done.
Qed.

Lemma acl_list_storable l : Forall layout_wf (acl_list_parse l).
Proof.
  unfold acl_list_parse. apply Forall_map, Forall_true. intros [r |]; [| by split_and!]. cbn [acl_rule_parse].
  destruct (rule_target r) as [d t]. apply parse_storable.
Qed.

Definition stored_parsed (a : zone_tables) : list acl_entry_t :=
  match trusted_parsed a with Some p => p | None => acl_list_parse (trusted a) end.

(** Tables whose texts are C strings and whose parsed list has one entry per
    trusted resolver. *)
Definition tables_wf (a : zone_tables) : Prop :=
  Forall layout_wf (locations a) /\ Forall tag_wf (location_tags a) /\ Forall tag_wf (ecs_tags a) /\ Forall text_wf (trusted a) /\
  (forall p, trusted_parsed a = Some p -> length p = length (trusted a) /\ Forall layout_wf p).

Lemma stored_parsed_wf a : tables_wf a -> length (stored_parsed a) = length (trusted a) /\ Forall layout_wf (stored_parsed a).
Proof.
  intros (_ & _ & _ & _ & Hp). unfold stored_parsed. destruct (trusted_parsed a); [by apply Hp |].
  split; [by unfold acl_list_parse; rewrite length_map | apply acl_list_storable].
Qed.

Definition area_head (a : zone_tables) : list Z :=
  le32 (u32 (len (locations a))) ++ concat (map to_octets (locations a)) ++ put_tags (location_tags a) ++ put_tags (ecs_tags a) ++
  le32 (u32 (len (trusted a))) ++ concat (map put_str (trusted a)) ++ le32 (u32 (len (trusted a))).

Lemma build_zattr_spec a : tables_wf a -> zattr_any a = true ->
  build_zattr a = area_head a ++ (if nonempty (trusted a) then padding (len (area_head a)) ++ concat (map to_octets (stored_parsed a)) else []).
Proof.
  intros Hw Ha. unfold build_zattr. rewrite Ha. cbn [negb]. unfold stored_parsed in *. pose proof (stored_parsed_wf a Hw) as [Hl _].
  unfold stored_parsed in Hl. destruct (trusted a) as [| t ts] eqn:Et; cbn [nonempty].
  - unfold area_head. rewrite Et. cbn [map concat]. rewrite <- !app_assoc. done.
  - rewrite (firstn_all2 (n := length (t :: ts))) by lia. unfold area_head. rewrite Et. rewrite <- !app_assoc. done.
Qed.

Lemma padding_length l : 0 <= l -> l + len (padding l) = Z.land (l + 7) (Z.lnot 7).
Proof.
  intros Hl. unfold padding. rewrite length_replicate.
  assert (forall x, Z.land x 7 = x mod 8) as E7 by (intros; change 7 with (Z.ones 3); apply Z.land_ones; lia).
  assert (forall x, Z.land x (Z.lnot 7) = x / 8 * 8) as ->.
  { intros x. rewrite <- Z.ldiff_land. change 7 with (Z.ones 3). rewrite Z.ldiff_ones_r, Z.shiftl_mul_pow2, Z.shiftr_div_pow2 by lia. done. }
  rewrite !E7. pose proof (Z.div_mod l 8). pose proof (Z.mod_pos_bound l 8). pose proof (Z.mod_pos_bound (8 - l mod 8) 8).
  rewrite Z2Nat.id by lia. pose proof (Z.div_mod (l + 7) 8). pose proof (Z.mod_pos_bound (l + 7) 8). pose proof (Z.div_mod (8 - l mod 8) 8). nia.
Qed.

Section Area.
Variable a : zone_tables.
Hypothesis Hw : tables_wf a.
Hypothesis Hany : zattr_any a = true.
Hypothesis Hsize : len (build_zattr a) < 2 ^ 32.

Abbreviation area := (build_zattr a).
Definition area_tail : list Z := if nonempty (trusted a) then padding (len (area_head a)) ++ concat (map to_octets (stored_parsed a)) else [].

Definition c0 : cursor_t := Cursor 0 (len area) 0 false.
Definition c1 : cursor_t := adv c0 4.
Definition c2 : cursor_t := adv c1 (len (concat (map to_octets (locations a)))).
Definition c3 : cursor_t := adv c2 (len (put_tags (location_tags a))).
Definition c4 : cursor_t := adv c3 (len (put_tags (ecs_tags a))).
Definition c5 : cursor_t := adv c4 4.
Definition c6 : cursor_t := adv c5 (len (concat (map put_str (trusted a)))).

Lemma locations_length : len (concat (map to_octets (locations a))) = 7 * len (locations a).
Proof.
  destruct Hw as (Hl & _). induction Hl as [| x l Hx Hl IH]; [done |]. cbn [map concat length]. rewrite length_app.
  pose proof (length_to_octets x Hx) as Hx7. cbn [sizeof location_layout] in Hx7. lia.
Qed.

Lemma trusted_count : len (trusted a) <= len (concat (map put_str (trusted a))).
Proof. apply concat_length_le. intros x _. rewrite length_put_str. pose proof (cstr_len_nonneg x). lia. Qed.

Lemma head_fits : len (area_head a) <= len area.
Proof. rewrite build_zattr_spec by done. rewrite length_app. lia. Qed.

Lemma area_walk :
  (get_u32 area c0 = Ret (c1, len (locations a)) /\ cursor_ok area c1) /\
  (cursor_ok area c2 /\ exists r, here area c1 = concat (map to_octets (locations a)) ++ r) /\
  (cursor_ok area c3 /\ exists r, here area c2 = put_tags (location_tags a) ++ r) /\
  (cursor_ok area c4 /\ exists r, here area c3 = put_tags (ecs_tags a) ++ r) /\
  (get_u32 area c4 = Ret (c5, len (trusted a)) /\ cursor_ok area c5 /\ exists r, here area c5 = concat (map put_str (trusted a)) ++ r) /\
  (cursor_ok area c6 /\ get_u32 area c6 = Ret (adv c6 4, len (trusted a)) /\ cursor_ok area (adv c6 4) /\ here area (adv c6 4) = area_tail).
Proof.
  pose proof head_fits as Hf. pose proof locations_length as Hll. pose proof trusted_count as Htc.
  assert (len (area_head a) = 4 + len (concat (map to_octets (locations a))) + len (put_tags (location_tags a)) + len (put_tags (ecs_tags a)) + 4 +
    len (concat (map put_str (trusted a))) + 4) as Hlen by (unfold area_head; rewrite !length_app, !length_le32; len_lia).
  assert (cursor_ok area c0) as Hc0 by (unfold cursor_ok, c0; cbn; split_and!; done || lia).
  assert (here area c0 = le32 (len (locations a)) ++ concat (map to_octets (locations a)) ++ put_tags (location_tags a) ++ put_tags (ecs_tags a) ++
    le32 (len (trusted a)) ++ concat (map put_str (trusted a)) ++ le32 (len (trusted a)) ++ area_tail) as Hh0.
  { unfold here, c0. cbn [c_p c_pos]. rewrite drop_0, build_zattr_spec by done. fold area_tail. unfold area_head. rewrite !u32_small by lia.
    rewrite <- !app_assoc. done. }
  destruct (get_u32_step area c0 _ _ Hc0 Hh0) as (Hg0 & Hc1 & Hh1); [lia |]. fold c1 in *.
  destruct (adv_here area c1 _ _ Hc1 Hh1) as [Hc2 Hh2]. fold c2 in *. destruct (adv_here area c2 _ _ Hc2 Hh2) as [Hc3 Hh3]. fold c3 in *.
  destruct (adv_here area c3 _ _ Hc3 Hh3) as [Hc4 Hh4]. fold c4 in *.
  destruct (get_u32_step area c4 _ _ Hc4 Hh4) as (Hg4 & Hc5 & Hh5); [lia |]. fold c5 in *.
  destruct (adv_here area c5 _ _ Hc5 Hh5) as [Hc6 Hh6]. fold c6 in *. destruct (get_u32_step area c6 _ _ Hc6 Hh6) as (Hg6 & Hc7 & Hh7); [lia |].
  split_and!; eauto.
Qed.

Lemma nonempty_count {A} (l : list A) : negb (len l =? 0) = nonempty l.
Proof. destruct l; [done |]. cbn [nonempty length]. by rewrite (proj2 (Z.eqb_neq _ _)) by lia. Qed.

Lemma area_nonempty : (len area =? 0) = false.
Proof. pose proof head_fits as Hf. unfold area_head in Hf. rewrite length_app, length_le32 in Hf. apply Z.eqb_neq. lia. Qed.

Lemma thaw_spec : thaw_zattr area =
  Ret (ZoneTables (locations a) (location_tags a) (ecs_tags a) (trusted a) (if nonempty (trusted a) then Some (acl_list_parse (trusted a)) else None)).
Proof.
  destruct area_walk as ((Hg0 & Hc1) & (Hc2 & r1 & Hh1) & (Hc3 & r2 & Hh2) & (Hc4 & r3 & Hh3) & (Hg4 & Hc5 & r5 & Hh5) & (Hc6 & _)).
  destruct Hw as (Hwl & Hwlt & Hwet & Hwt & _). pose proof locations_length as Hll. pose proof trusted_count as Htc.
  unfold thaw_zattr. rewrite area_nonempty. fold c0. rewrite Hg0. cbn [obind]. pose proof Hc1 as (Hb1 & _). rewrite Hb1. cbn [negb andb].
  rewrite nonempty_count. assert ((c_len c1 / 7 <? len (locations a)) = false) as ->.
  { apply Z.ltb_ge, Z.div_le_lower_bound; [lia |]. pose proof (length_here area c1 Hc1) as Hl. rewrite Hh1, length_app in Hl. destruct Hc1 as (_ & ? & ? & _). lia. }
  rewrite andb_false_r.
  assert ((if nonempty (locations a) then copy_locations area (Z.to_nat (len (locations a))) c1 else Ret (c1, [])) = Ret (c2, locations a)) as ->.
  { rewrite Nat2Z.id. pose proof (copy_locations_ok area (locations a) c1 r1 Hwl Hc1 Hh1) as E. fold c2 in E. destruct (locations a); [| by rewrite E].
    exact E. }
  cbn [obind]. rewrite (get_tags_ok area c2 _ _ Hc2 Hh2 Hwlt). cbn [obind]. fold c3. rewrite (get_tags_ok area c3 _ _ Hc3 Hh3 Hwet). cbn [obind]. fold c4.
  rewrite Hg4. cbn [obind]. pose proof Hc5 as (Hb5 & _). rewrite Hb5. cbn [negb andb]. rewrite nonempty_count.
  assert ((c_len c5 <? len (trusted a)) = false) as ->.
  { apply Z.ltb_ge. pose proof (length_here area c5 Hc5) as Hl. rewrite Hh5, length_app in Hl. destruct Hc5 as (_ & ? & ? & _). lia. }
  rewrite andb_false_r.
  assert ((if nonempty (trusted a) then get_strs area (Z.to_nat (len (trusted a))) c5 else Ret (c5, [])) = Ret (c6, trusted a)) as ->.
  { rewrite Nat2Z.id. pose proof (get_strs_ok area (trusted a) c5 r5 Hwt Hc5 Hh5) as E. fold c6 in E. destruct (trusted a); [| by rewrite E]. exact E. }
  cbn [obind]. destruct Hc6 as (-> & _). done.
Qed.

Lemma start_cursor : zattr_cursor area = c0.
Proof. unfold zattr_cursor, c0. by rewrite area_nonempty. Qed.

Lemma locations_left : (c_left c1 / 7 <? len (locations a)) = false.
Proof.
  destruct area_walk as ((Hg0 & Hc1) & (_ & r1 & Hh1) & _). rewrite (c_left_here area) by done. rewrite Hh1, length_app, Nat2Z.inj_add, locations_length.
  apply Z.ltb_ge, Z.div_le_lower_bound; lia.
Qed.

Lemma locations_spec : zone_image_locations area = Ret (locations a).
Proof.
  destruct area_walk as ((Hg0 & Hc1) & (_ & r1 & Hh1) & _). destruct Hw as (Hwl & _). unfold zone_image_locations. rewrite start_cursor, Hg0. cbn [obind].
  rewrite locations_left, orb_false_r. pose proof Hc1 as (Hb1 & Hp1 & Hpos1 & _). rewrite Hb1. cbn [orb]. rewrite Nat2Z.id.
  pose proof (entries_at_ok area (locations a) (c_p c1 + c_pos c1) r1 Hwl ltac:(lia) Hh1) as E. destruct (locations a); [done |].
  rewrite (proj2 (Z.eqb_neq _ _)) by (cbn [length]; lia). exact E.
Qed.

Lemma trusted_spec : zone_image_ecs_trusted area = Ret (if nonempty (trusted a) then stored_parsed a else []).
Proof.
  destruct area_walk as ((Hg0 & Hc1) & (Hc2 & r1 & Hh1) & (Hc3 & r2 & Hh2) & (Hc4 & r3 & Hh3) & (Hg4 & Hc5 & r5 & Hh5) & (Hc6 & Hg6 & Hc7 & Hh7)).
  pose proof (stored_parsed_wf a Hw) as [Hsl Hsw]. pose proof trusted_count as Htc. destruct Hw as (_ & Hwlt & Hwet & Hwt & _).
  unfold zone_image_ecs_trusted. rewrite start_cursor, Hg0. cbn [obind]. pose proof Hc1 as (Hb1 & _). rewrite Hb1, locations_left. cbn [orb].
  replace (len (locations a) * 7) with (len (concat (map to_octets (locations a)))) by (rewrite locations_length; lia). fold c2.
  rewrite (zc_skip_tags_ok area c2 _ _ Hc2 Hh2 Hwlt). cbn [obind]. fold c3. rewrite (zc_skip_tags_ok area c3 _ _ Hc3 Hh3 Hwet). cbn [obind]. fold c4.
  rewrite Hg4. cbn [obind]. pose proof Hc5 as (Hb5 & _). rewrite Hb5. cbn [orb].
  assert ((c_len c5 <? len (trusted a)) = false) as ->.
  { apply Z.ltb_ge. pose proof (length_here area c5 Hc5) as Hl. rewrite Hh5, length_app in Hl. destruct Hc5 as (_ & ? & ? & _). lia. }
  rewrite Nat2Z.id, (skip_strs_ok area _ _ _ Hwt Hc5 Hh5). cbn [obind]. fold c6. rewrite Hg6. cbn [obind]. pose proof Hc7 as (Hb7 & _). rewrite Hb7. cbn [orb].
  unfold area_tail in Hh7. destruct (trusted a) as [| t ts] eqn:Et; [done |]. cbn [nonempty] in *.
  rewrite (proj2 (Z.eqb_neq _ _)) by (cbn [length]; lia).
  assert (c_pos (adv c6 4) = len (area_head a)) as Hpos.
  { unfold c6, c5, c4, c3, c2, c1, c0, area_head. cbn [adv c_pos]. rewrite !length_app, !length_le32, Et. len_lia. }
  pose proof (padding_length (len (area_head a)) ltac:(lia)) as Hpad. rewrite Hpos, <- Hpad.
  destruct (adv_here area _ _ _ Hc7 Hh7) as [Hc8 Hh8]. pose proof (length_here area _ Hc8) as Hl8. unfold here in Hh8, Hl8. cbn [adv c_p c_pos c_len] in *.
  assert (len (concat (map to_octets (stored_parsed a))) = 48 * len (stored_parsed a)) as H48.
  { clear -Hsw. induction Hsw as [| x l Hx Hl IH]; [done |]. cbn [map concat length]. rewrite length_app. pose proof (length_to_octets x Hx) as Hx7.
    cbn [sizeof acl_layout] in Hx7. lia. }
  rewrite Hh8 in Hl8. cbn [c_pos adv] in Hpos. unfold cursor_ok in Hc8. cbn [adv c_p c_pos c_len] in Hc8. rewrite Hpos in *.
  rewrite (proj2 (Z.ltb_ge _ _)) by lia. rewrite (proj2 (Z.ltb_ge _ _)) by (apply Z.div_le_lower_bound; lia). cbn [orb].
  rewrite <- Hsl, Nat2Z.id. apply (entries_at_ok area _ _ []); [done | lia |]. rewrite app_nil_r. exact Hh8.
Qed.

Definition tags_of (ecs : bool) : list ecs_tag_def_t := if ecs then ecs_tags a else location_tags a.

Lemma tags_open_spec ecs : exists it, zone_image_tags_open area ecs = Ret it /\ tags_at area it (tags_of ecs).
Proof.
  destruct area_walk as ((Hg0 & Hc1) & (Hc2 & r1 & Hh1) & (Hc3 & r2 & Hh2) & (Hc4 & r3 & Hh3) & _). destruct Hw as (_ & Hwlt & Hwet & _).
  unfold zone_image_tags_open. rewrite start_cursor, Hg0. cbn [obind]. pose proof Hc1 as (Hb1 & _). rewrite Hb1, locations_left. cbn [orb].
  replace (len (locations a) * 7) with (len (concat (map to_octets (locations a)))) by (rewrite locations_length; lia). fold c2.
  assert (exists c r, (if ecs then zc_skip_tags area c2 else Ret c2) = Ret c /\ cursor_ok area c /\ here area c = put_tags (tags_of ecs) ++ r) as (c & r & -> & Hc & Hh).
  { destruct ecs; [exists c3, r3; by rewrite (zc_skip_tags_ok area c2 _ _ Hc2 Hh2 Hwlt) | by exists c2, r2]. }
  cbn [obind]. assert (Forall tag_wf (tags_of ecs)) as Hwf by (by destruct ecs).
  destruct (tags_head area c _ _ Hc Hh Hwf) as (-> & Hc' & Hh' & Hn). cbn [obind]. pose proof Hc' as (Hb' & Hp' & Hpos' & Hl' & _). rewrite Hb'.
  eexists. split; [done |]. unfold tags_at. cbn [it_left it_end it_p]. split_and!; [done | done | lia | lia | eauto].
Qed.

End Area.
End AreaLemmas.

(** ** Specification: what a client of the cursors sees *)

Definition text_seen (area : list Z) (off : option Z) : outcome (option (list Z)) :=
  match off with None => Ret None | Some o => let! t := text_at area o in Ret (Some t) end.

Fixpoint cidrs_seen (area : list Z) (fuel : nat) (zt : zone_image_tag_t) : outcome (list ecs_cidr_entry_t) :=
  match fuel with
  | O => NoFuel
  | S n =>
      let! '(zt, r) := zone_image_tag_next_cidr area zt in
      match r with
      | None => Ret []
      | Some (off, e) => let! t := text_seen area off in let! l := cidrs_seen area n zt in Ret (EcsCidr t e :: l)
      end
  end.

Fixpoint tags_seen (area : list Z) (fuel : nat) (it : zone_image_tags_t) : outcome (list ecs_tag_def_t) :=
  match fuel with
  | O => NoFuel
  | S n =>
      let! '(it, r) := zone_image_tags_next area it in
      match r with
      | None => Ret []
      | Some zt =>
          let! t := text_seen area (zt_tag zt) in
          let! cs := cidrs_seen area (S (Z.to_nat (zt_left zt))) zt in
          let! l := tags_seen area n it in Ret (EcsTagDef t cs :: l)
      end
  end.

Definition image_tags (area : list Z) (ecs : bool) : outcome (list ecs_tag_def_t) :=
  let! it := zone_image_tags_open area ecs in tags_seen area (S (Z.to_nat (it_left it))) it.

Lemma text_seen_ok area off s : points_to area off s -> text_seen area off = Ret s.
Proof. unfold points_to, text_seen. destruct s as [t |]; [intros (o & -> & ->); done | by intros ->]. Qed.

Lemma cidrs_seen_ok area cs : forall zt, len area < 2 ^ 32 -> Forall tag_cidr_wf cs -> cidrs_at area zt cs -> cidrs_seen area (S (length cs)) zt = Ret cs.
Proof.
  induction cs as [| x cs IH]; intros zt Hm Hw Ha; cbn [length].
  - destruct Ha as (Hl & _). cbn [cidrs_seen]. unfold zone_image_tag_next_cidr. rewrite Hl. done.
  - destruct (next_cidr_ok area zt x cs Hm Hw Ha) as (zt' & off & E & _ & Ha' & Ht). apply Forall_cons in Hw as [_ Hw].
    change (cidrs_seen area (S (S (length cs))) zt) with (let! '(zt, r) := zone_image_tag_next_cidr area zt in
      match r with None => Ret [] | Some (off, e) => let! t := text_seen area off in let! l := cidrs_seen area (S (length cs)) zt in Ret (EcsCidr t e :: l) end).
    rewrite E. cbn [obind]. rewrite (text_seen_ok _ _ _ Ht). cbn [obind]. rewrite IH by done. cbn [obind]. by destruct x.
Qed.

Lemma tags_seen_ok area ts : forall it, len area < 2 ^ 32 -> Forall tag_wf ts -> tags_at area it ts -> tags_seen area (S (length ts)) it = Ret ts.
Proof.
  induction ts as [| t ts IH]; intros it Hm Hw Ha; cbn [length].
  - destruct Ha as (Hl & _). cbn [tags_seen]. unfold zone_image_tags_next. rewrite Hl. done.
  - destruct (tags_next_ok area it t ts Hm Hw Ha) as (it' & zt & E & Ha' & Hc & Ht). apply Forall_cons in Hw as [[_ Hwc] Hw].
    change (tags_seen area (S (S (length ts))) it) with (let! '(it, r) := zone_image_tags_next area it in
      match r with None => Ret [] | Some zt => let! t := text_seen area (zt_tag zt) in let! cs := cidrs_seen area (S (Z.to_nat (zt_left zt))) zt in
        let! l := tags_seen area (S (length ts)) it in Ret (EcsTagDef t cs :: l) end).
    rewrite E. cbn [obind]. rewrite (text_seen_ok _ _ _ Ht). cbn [obind]. pose proof Hc as (Hl & _). rewrite Hl, Nat2Z.id.
    rewrite cidrs_seen_ok by done. cbn [obind]. rewrite IH by done. cbn [obind]. by destruct t.
Qed.

Lemma image_tags_spec `{InetPton} a ecs : tables_wf a -> zattr_any a = true -> len (build_zattr a) < 2 ^ 32 ->
  image_tags (build_zattr a) ecs = Ret (tags_of a ecs).
Proof.
  intros Hw Ha Hm. unfold image_tags. destruct (tags_open_spec a Hw Ha Hm ecs) as (it & -> & Hit). cbn [obind].
  pose proof Hit as (Hl & _). rewrite Hl, Nat2Z.id. apply tags_seen_ok; [done | | done]. destruct Hw as (_ & ? & ? & _). by destruct ecs.
Qed.

Lemma zattr_none a : zattr_any a = false -> locations a = [] /\ location_tags a = [] /\ ecs_tags a = [] /\ trusted a = [].
Proof.
  unfold zattr_any, nonempty. destruct (locations a), (location_tags a), (ecs_tags a), (trusted a); done.
Qed.

(** ** Properties *)

(** The tables a zone was frozen with come back when the image is thawed:
    locations, both kinds of tags, and the trusted resolvers, whose parsed form
    is rebuilt from the texts. *)
Theorem zattr_thaw_roundtrip `{InetPton} (a : zone_tables) :
  tables_wf a -> len (build_zattr a) < 2 ^ 32 ->
  thaw_zattr (build_zattr a) =
  Ret (ZoneTables (locations a) (location_tags a) (ecs_tags a) (trusted a) (if nonempty (trusted a) then Some (acl_list_parse (trusted a)) else None)).
Proof.
  intros Hw Hm. destruct (zattr_any a) eqn:Ea; [by apply thaw_spec |]. unfold build_zattr. rewrite Ea.
  destruct (zattr_none a Ea) as (-> & -> & -> & ->). done.
Qed.

Definition sample_tables : zone_tables :=
  ZoneTables [TinydnsLocation [101; 120] [192; 0; 2; 0] 24]
    [] [EcsTagDef (Some (str "eu")) [EcsCidr (Some (str "192.0.2.0/24")) (fst (cidr_entry_parse (str "192.0.2.0/24"))); EcsCidr None entry_zero]]
    [Some (str "198.51.100.1")] None.

Lemma sample_tables_wf : tables_wf sample_tables.
Proof.
  assert (forall s, forallb (fun b => (0 <? b) && (b <? 256)) s = true -> text_wf (Some s)) as Hs
    by (intros s Hs t [= <-]; by apply chars_check).
  split_and!; [| apply Forall_nil_2 | | | done].
  - repeat constructor.
  - apply Forall_singleton. split; [by apply Hs |]. apply Forall_cons_2; [split; [by apply Hs | apply parse_storable] |].
    apply Forall_singleton. split; [by intros t |]. by split_and!.
  - apply Forall_singleton. by apply Hs.
Qed.

Lemma zattr_thaw_roundtrip_witness :
  thaw_zattr (build_zattr sample_tables) =
  Ret (ZoneTables (locations sample_tables) [] (ecs_tags sample_tables) (trusted sample_tables) (Some (acl_list_parse (trusted sample_tables)))).
Proof. apply (zattr_thaw_roundtrip sample_tables sample_tables_wf). vm_compute. done. Defined.

(** C37. The readers of the query path, which work in the image, see exactly
    the tables the zone was frozen with. *)
Theorem zattr_readers_see_tables `{InetPton} (a : zone_tables) :
  tables_wf a -> len (build_zattr a) < 2 ^ 32 ->
  zone_image_locations (build_zattr a) = Ret (locations a) /\
  image_tags (build_zattr a) false = Ret (location_tags a) /\
  image_tags (build_zattr a) true = Ret (ecs_tags a) /\
  zone_image_ecs_trusted (build_zattr a) = Ret (if nonempty (trusted a) then stored_parsed a else []).
Proof.
  intros Hw Hm. destruct (zattr_any a) eqn:Ea.
  - split_and!; [by apply locations_spec | by apply (image_tags_spec a false) | by apply (image_tags_spec a true) | by apply trusted_spec].
  - unfold build_zattr. rewrite Ea. destruct (zattr_none a Ea) as (-> & -> & -> & ->). done.
Qed.

Lemma zattr_readers_see_tables_witness :
  image_tags (build_zattr sample_tables) true = Ret (ecs_tags sample_tables) /\
  zone_image_ecs_trusted (build_zattr sample_tables) = Ret (acl_list_parse (trusted sample_tables)).
Proof.
  destruct (zattr_readers_see_tables sample_tables sample_tables_wf) as (_ & _ & H1 & H2); [vm_compute; done |]. exact (conj H1 H2).
Defined.

(** The readers of the query path never read outside the area, whatever
    it holds, and their loops end: every step of a cursor that yields
    something leaves fewer definitions. *)
Theorem zattr_readers_safe (area : list Z) (ecs : bool) :
  bytes area -> len area < 2 ^ 32 ->
  (exists l, zone_image_locations area = Ret l) /\ (exists l, zone_image_ecs_trusted area = Ret l) /\
  exists it, zone_image_tags_open area ecs = Ret it /\ tags_in area it /\
    forall it, tags_in area it -> exists it' r, zone_image_tags_next area it = Ret (it', r) /\ tags_in area it' /\
      forall zt, r = Some zt -> it_left it' < it_left it /\
        exists zt' r, zone_image_tag_next_cidr area zt = Ret (zt', r) /\ (r <> None -> zt_left zt' < zt_left zt).
Proof.
  intros Hb Hm. split; [by apply locations_safe |]. split; [by apply trusted_safe |].
  destruct (tags_open_safe area Hb ecs Hm) as (it & -> & Hit). exists it. split_and!; [done | done |]. intros it1 Hit1.
  destruct (tags_next_safe area Hb it1 Hm Hit1) as (it' & r & E & Hit' & Hr). exists it', r. split_and!; [done | done |]. intros zt Hzt.
  destruct (Hr zt Hzt) as (? & ? & ? & ?). split; [done |].
  destruct (next_cidr_safe area Hb zt) as (zt' & r' & E' & _ & _ & _ & Hlt); [done.. |]. eauto.
Qed.

Lemma zattr_readers_safe_witness : exists l, zone_image_locations [9; 0; 0; 0; 1; 2; 3] = Ret l.
Proof. apply (zattr_readers_safe [9; 0; 0; 0; 1; 2; 3] true); [bytes_lit | done]. Defined.

(** [thaw_zattr] compares the number of locations with the size of the
    whole area, the count field included: an area of seven octets that claims
    one location is read past its end, where the reader of the query path
    rejects it. *)
Theorem zattr_thaw_overread `{InetPton} :
  thaw_zattr [1; 0; 0; 0; 101; 120; 10] = Oob /\ zone_image_locations [1; 0; 0; 0; 101; 120; 10] = Ret [].
Proof. done. Qed.

End ZoneAttr.
