(* ===== verification/Ecs.v ===== *)
(** * What a client sees of a zone (src/dns_edns_ecs.c)

    The tag of an EDNS client subnet together with the SCOPE PREFIX-LENGTH of
    the answer, the BIND location tag, the tinydns location, and the test
    whether a resolver's client subnet is trusted.  The definitions come from
    the zone's own tables (the area of the image, read through the cursors of
    [ZoneAttr]), else from the zone's configuration, else from the server's. *)

From Stdlib Require Import Btauto.
From S2P Require Import Prelude.
From S2P Require Import CLib.
From S2P Require Import Cidr.
From S2P Require Import Acl.
From S2P Require Import ZoneAttr.

Module Ecs.
Import CLib Cidr Acl ZoneAttr.

(** ** Data *)

(** Where definitions may come from besides the image; NULL is [None]. *)
Record tag_config := TagConfig { zone_tags : option (list ecs_tag_def_t); server_tags : option (list ecs_tag_def_t) }.

(** The trusted resolvers of a configuration: the texts and the parsed list. *)
Record trusted_config := TrustedConfig {
  zone_resolvers : option (list (option (list Z)));
  zone_resolvers_parsed : option (list acl_entry_t);
  zone_ceiling : bool;
  server_resolvers : option (list (option (list Z)));
  server_resolvers_parsed : option (list acl_entry_t)
}.

Record zone_image_view_t := View { now : Z; loc : list Z; loc_tag : option (list Z); ecs_tag : option (list Z) }.

(** ** Operations *)

(** [while (n + 8 <= max_bits && a[n / 8] == b[n / 8]) n += 8;] *)
Fixpoint common_octets (fuel : nat) (a b : list Z) (max_bits n : Z) : outcome Z :=
  match fuel with
  | O => NoFuel
  | S f =>
      if n + 8 <=? max_bits then
        let! x := rd a (n / 8) in
        let! y := rd b (n / 8) in
        if x =? y then common_octets f a b max_bits (n + 8) else Ret n
      else Ret n
  end.

(** [while (same < 8 && !(diff & (0x80u >> same))) same++;] *)
Fixpoint leading_zeros (fuel : nat) (diff same : Z) : Z :=
  match fuel with
  | O => same
  | S f => if (same <? 8) && (Z.land diff (Z.shiftr 128 same) =? 0) then leading_zeros f diff (same + 1) else same
  end.

Definition ecs_common_prefix_bits (a b : list Z) (max_bits : Z) : outcome Z :=
  let! n := common_octets 32 a b max_bits 0 in
  if n <? max_bits then
    let! x := rd a (n / 8) in
    let! y := rd b (n / 8) in
    let same := leading_zeros 8 (u8 (Z.lxor x y)) 0 in
    let n := u8 (n + same) in
    Ret (if max_bits <? n then max_bits else n)
  else Ret n.

Section Resolve.
Context `{InetPton}.
Variable inet_ntop : Z -> list Z -> list Z.

(** The match and the new [*scope]; the text is read only for a definition
    that could not be parsed. *)
Definition ecs_cidr_step (text : outcome (option (list Z))) (parsed : cidr_entry_t) (af : Z) (addr : list Z) (family_bits scope : Z) :
    outcome (bool * Z) :=
  if valid parsed then
    let! m := cidr_entry_match parsed af addr in
    if m then Ret (true, if negb (is_any parsed) && (scope <? prefix parsed) then prefix parsed else scope)
    else if family parsed =? af then
      let! cp := ecs_common_prefix_bits addr (Cidr.addr parsed) (prefix parsed) in
      Ret (false, if scope <? u8 (cp + 1) then u8 (cp + 1) else scope)
    else Ret (false, scope)
  else
    let! t := text in
    match t with
    | None => Ret (false, scope)
    | Some t => let! m := match_cidr (inet_ntop af addr) t in Ret (m, family_bits)
    end.

(** The search through the image. *)
Fixpoint image_cidrs_step (area : list Z) (fuel : nat) (zt : zone_image_tag_t) (af : Z) (addr : list Z) (family_bits scope : Z) : outcome (bool * Z) :=
  match fuel with
  | O => NoFuel
  | S f =>
      let! '(zt, r) := zone_image_tag_next_cidr area zt in
      match r with
      | None => Ret (false, scope)
      | Some (ctext, parsed) =>
          let! '(m, scope) := ecs_cidr_step (text_seen area ctext) parsed af addr family_bits scope in
          if m then Ret (true, scope) else image_cidrs_step area f zt af addr family_bits scope
      end
  end.

Fixpoint image_tags_step (area : list Z) (fuel : nat) (it : zone_image_tags_t) (af : Z) (addr : list Z) (family_bits scope : Z) :
    outcome (option Z * Z) :=
  match fuel with
  | O => NoFuel
  | S f =>
      let! '(it, r) := zone_image_tags_next area it in
      match r with
      | None => Ret (None, scope)
      | Some zt =>
          let! '(m, scope) := image_cidrs_step area (S (Z.to_nat (zt_left zt))) zt af addr family_bits scope in
          match (if m then zt_tag zt else None) with
          | Some found => Ret (Some found, scope)
          | None => image_tags_step area f it af addr family_bits scope
          end
      end
  end.

(** The search through a configuration. *)
Fixpoint cidrs_step (cs : list ecs_cidr_entry_t) (af : Z) (addr : list Z) (family_bits scope : Z) : outcome (bool * Z) :=
  match cs with
  | [] => Ret (false, scope)
  | ce :: cs' =>
      let! '(m, scope) := ecs_cidr_step (Ret (cidr_text ce)) (cidr_parsed ce) af addr family_bits scope in
      if m then Ret (true, scope) else cidrs_step cs' af addr family_bits scope
  end.

Fixpoint tags_step (tags : list ecs_tag_def_t) (af : Z) (addr : list Z) (family_bits scope : Z) : outcome (option (list Z) * Z) :=
  match tags with
  | [] => Ret (None, scope)
  | t :: tags' =>
      let! '(m, scope) := cidrs_step (cidrs t) af addr family_bits scope in
      match (if m then tag t else None) with
      | Some found => Ret (Some found, scope)
      | None => tags_step tags' af addr family_bits scope
      end
  end.

(** [zone_image_tags_open], where there may be no image. *)
Definition open_tags (zone : option (list Z)) (ecs : bool) : outcome zone_image_tags_t :=
  match zone with None => Ret (ImageTags 0 0 0) | Some area => zone_image_tags_open area ecs end.

(** The definitions of the zone's configuration if it has any, else those of
    the server. *)
Definition configured_tags (cfg : tag_config) : list ecs_tag_def_t :=
  match zone_tags cfg with
  | Some ts => ts
  | None => match server_tags cfg with Some ts => ts | None => [] end
  end.

(** The tag and [*out_scope_prefix]. *)
Definition resolve_ecs_subnet_tag (zone : option (list Z)) (cfg : tag_config) (addr : option (list Z)) (family : Z) :
    outcome (option (list Z) * Z) :=
  let! zit := open_tags zone true in
  let tags := configured_tags cfg in
  if (it_left zit =? 0) && negb (nonempty tags) then Ret (None, 0)
  else match addr with
  | None => Ret (None, 0)
  | Some addr =>
      let af := if family =? 1 then AF_INET else if family =? 2 then AF_INET6 else -1 in
      if af =? -1 then Ret (None, 0)
      else
        let family_bits := if af =? AF_INET then 32 else 128 in
        let! '(found, scope) :=
          if 0 <? it_left zit then
            let area := match zone with Some area => area | None => [] end in
            let! '(found, scope) := image_tags_step area (S (Z.to_nat (it_left zit))) zit af addr family_bits 0 in
            let! t := text_seen area found in Ret (t, scope)
          else tags_step tags af addr family_bits 0 in
        Ret (found, if family_bits <? scope then family_bits else scope)
  end.

(** [parsed.valid ? cidr_entry_match(...) : (ctext && match_cidr(...))] *)
Definition location_match (client_ip : list Z) (af : Z) (addr : list Z) (text : outcome (option (list Z))) (parsed : cidr_entry_t) : outcome bool :=
  if valid parsed then cidr_entry_match parsed af addr
  else let! t := text in match t with None => Ret false | Some t => match_cidr client_ip t end.

Fixpoint image_location_cidrs (area : list Z) (fuel : nat) (zt : zone_image_tag_t) (client_ip : list Z) (af : Z) (addr : list Z) : outcome bool :=
  match fuel with
  | O => NoFuel
  | S f =>
      let! '(zt, r) := zone_image_tag_next_cidr area zt in
      match r with
      | None => Ret false
      | Some (ctext, parsed) =>
          let! m := location_match client_ip af addr (text_seen area ctext) parsed in
          if m then Ret true else image_location_cidrs area f zt client_ip af addr
      end
  end.

Fixpoint image_location_tags (area : list Z) (fuel : nat) (it : zone_image_tags_t) (client_ip : list Z) (af : Z) (addr : list Z) :
    outcome (option (list Z)) :=
  match fuel with
  | O => NoFuel
  | S f =>
      let! '(it, r) := zone_image_tags_next area it in
      match r with
      | None => Ret None
      | Some zt =>
          let! m := image_location_cidrs area (S (Z.to_nat (zt_left zt))) zt client_ip af addr in
          if m then text_seen area (zt_tag zt) else image_location_tags area f it client_ip af addr
      end
  end.

Fixpoint location_cidrs (cs : list ecs_cidr_entry_t) (client_ip : list Z) (af : Z) (addr : list Z) : outcome bool :=
  match cs with
  | [] => Ret false
  | ce :: cs' =>
      let! m := location_match client_ip af addr (Ret (cidr_text ce)) (cidr_parsed ce) in
      if m then Ret true else location_cidrs cs' client_ip af addr
  end.

Fixpoint location_tags_step (tags : list ecs_tag_def_t) (client_ip : list Z) (af : Z) (addr : list Z) : outcome (option (list Z)) :=
  match tags with
  | [] => Ret None
  | t :: tags' =>
      let! m := location_cidrs (cidrs t) client_ip af addr in
      if m then Ret (tag t) else location_tags_step tags' client_ip af addr
  end.

Definition resolve_bind_location_tag (zone : option (list Z)) (cfg : tag_config) (client_ip : option (list Z)) : outcome (option (list Z)) :=
  match client_ip with
  | None => Ret None
  | Some client_ip =>
      let! zit := open_tags zone false in
      let tags := configured_tags cfg in
      if (it_left zit =? 0) && negb (nonempty tags) then Ret None
      else match client_addr client_ip with
      | None => Ret None
      | Some (af, addr) =>
          if 0 <? it_left zit
          then image_location_tags (match zone with Some area => area | None => [] end) (S (Z.to_nat (it_left zit))) zit client_ip af addr
          else location_tags_step tags client_ip af addr
      end
  end.

Definition image_trusted (zone : option (list Z)) : outcome (list acl_entry_t) :=
  match zone with None => Ret [] | Some area => zone_image_ecs_trusted area end.

Definition is_ecs_trusted_resolver (zone : option (list Z)) (cfg : server_config_t) (tc : trusted_config) (client_ip : option (list Z)) :
    outcome bool :=
  match client_ip with
  | None => Ret false
  | Some client_ip =>
      let! parsed := image_trusted zone in
      if nonempty parsed then check_acl_bin client_ip parsed (length parsed)
      else
        let count :=
          match zone_resolvers_parsed tc with
          | Some _ => match zone_resolvers tc with Some l => length l | None => 0%nat end
          | None => match server_resolvers tc with Some l => length l | None => 0%nat end
          end in
        let parsed := match zone_resolvers_parsed tc with Some p => Some p | None => server_resolvers_parsed tc end in
        match parsed, count with
        | Some p, S _ =>
            let! m := check_acl_bin client_ip p count in
            if m && bool_decide (is_Some (zone_resolvers_parsed tc)) && zone_ceiling tc then db_ceiling_allows_address cfg client_ip else Ret m
        | _, _ =>
            let resolvers := match zone_resolvers tc with Some l => l | None => match server_resolvers tc with Some l => l | None => [] end end in
            if negb (nonempty resolvers) then Ret false
            else
              let! m := check_acl client_ip resolvers in
              if m && bool_decide (is_Some (zone_resolvers tc)) && zone_ceiling tc then db_ceiling_allows_address cfg client_ip else Ret m
        end
  end.

(** Big-endian value of four octets ([ntohl] and the shifts of the code). *)
Definition be32 (a : list Z) : Z :=
  match a with
  | [b0; b1; b2; b3] => Z.lor (Z.lor (Z.lor (Z.shiftl b0 24) (Z.shiftl b1 16)) (Z.shiftl b2 8)) b3
  | _ => 0
  end.

Definition bits_mask (bits : Z) : Z := if bits =? 0 then 0 else u32 (Z.shiftl 4294967295 (32 - bits)).

(** One round: the best entry so far and its bits. *)
Definition location_step (ip : Z) (best : option tinydns_location_entry_t * Z) (l : tinydns_location_entry_t) : option tinydns_location_entry_t * Z :=
  let bits := if 32 <? prefix_bits l then 32 else prefix_bits l in
  if bits <=? snd best then best
  else
    let mask := bits_mask bits in
    if Z.land ip mask =? Z.land (be32 (loc_prefix l)) mask then (Some l, bits) else best.

Definition tinydns_resolve_client_location (zone : option (list Z)) (client_ip : option (list Z)) : outcome (list Z) :=
  let! locs := match zone with None => Ret [] | Some area => zone_image_locations area end in
  match client_ip with
  | None => Ret [0; 0]
  | Some client_ip =>
      if negb (nonempty locs) then Ret [0; 0]
      else match inet_pton AF_INET client_ip with
      | None => Ret [0; 0]
      | Some a => Ret (match fst (fold_left (location_step (be32 a)) locs (None, -1)) with Some l => code l | None => [0; 0] end)
      end
  end.

(** The view, and [*zone_scope]; [time] is the clock. *)
Definition zone_client_view (area : list Z) (tinydns : bool) (location_cfg ecs_cfg : tag_config) (client_ip : option (list Z)) (ecs_trusted : bool)
    (ecs_addr : option (list Z)) (ecs_family time : Z) : outcome (zone_image_view_t * Z) :=
  let! l := tinydns_resolve_client_location (Some area) client_ip in
  let! lt := resolve_bind_location_tag (Some area) location_cfg client_ip in
  let! '(et, scope) :=
    if ecs_trusted && bool_decide (is_Some ecs_addr) then resolve_ecs_subnet_tag (Some area) ecs_cfg ecs_addr ecs_family else Ret (None, 0) in
  Ret (View (if tinydns then time else 0) l lt et, scope).

End Resolve.

(** ** Lemmas: common prefixes *)

Lemma leading_zeros_spec d : isbyte d ->
  let s := leading_zeros 8 d 0 in
  0 <= s <= 8 /\ (forall i, 0 <= i < s -> Z.testbit d (7 - i) = false) /\ (s < 8 -> Z.testbit d (7 - s) = true).
Proof.
  intros Hd. set (f := fun d => let s := leading_zeros 8 d 0 in
    (0 <=? s) && (s <=? 8) && forallb (fun i => negb (Z.testbit d (7 - i))) (seqZ 0 s) && ((8 <=? s) || Z.testbit d (7 - s))).
  assert (f d = true) as Hf by (apply (forallb_range f 0 256); [vm_compute; done | unfold isbyte in Hd; lia]).
  unfold f in Hf. cbv zeta. set (s := leading_zeros 8 d 0) in *. apply andb_true_iff in Hf as [Hf H3]. apply andb_true_iff in Hf as [Hf H2].
  split; [lia |]. split.
  - intros i Hi. apply negb_true_iff. rewrite forallb_forall in H2. apply H2, list_elem_of_In, elem_of_seqZ. lia.
  - intros Hs. destruct (Z.testbit d (7 - s)); [done |]. lia.
Qed.

(** The number of equal leading bits, at most [m]. *)
Definition is_common (a b : list Z) (m n : Z) : Prop :=
  0 <= n <= m /\ same_prefix n a b /\ (n < m -> addr_bit a n <> addr_bit b n).

Lemma is_common_unique a b m n n' : is_common a b m n -> is_common a b m n' -> n = n'.
Proof.
  intros (Hn & Hp & Hd) (Hn' & Hp' & Hd'). destruct (Z.lt_trichotomy n n') as [H | [-> | H]]; [| done |].
  - exfalso. apply Hd; [lia |]. apply Hp'. lia.
  - exfalso. apply Hd'; [lia |]. apply Hp. lia.
Qed.

Lemma is_common_prefix a b m n : is_common a b m n -> same_prefix m a b <-> n = m.
Proof.
  intros (Hn & Hp & Hd). split; [| by intros ->]. intros Hm. destruct (Z.eq_dec n m); [done |]. exfalso. apply Hd; [lia |]. apply Hm. lia.
Qed.

Section Common.
Variables a b : list Z.
Variable m : Z.
Hypothesis Ha : bytes a.
Hypothesis Hb : bytes b.
Hypothesis Hla : m <= 8 * len a.
Hypothesis Hlb : m <= 8 * len b.
Hypothesis Hm : 0 <= m <= 128.

Lemma octet_same k x : rd a k = Ret x -> rd b k = Ret x -> 0 <= k -> same_prefix (8 * k) a b -> same_prefix (8 * k + 8) a b.
Proof.
  intros Hx Hy Hk Hp i Hi. destruct (Z.lt_ge_cases i (8 * k)); [apply Hp; lia |].
  replace i with (k * 8 + (i - k * 8)) by lia. by rewrite !(addr_bit_octet _ k _ x) by (done || lia).
Qed.

Lemma common_octets_spec fuel : forall k, 0 <= k -> 16 < Z.of_nat fuel + k -> 8 * k <= m -> same_prefix (8 * k) a b ->
  exists k', common_octets fuel a b m (8 * k) = Ret (8 * k') /\ 0 <= k' /\ 8 * k' <= m /\ same_prefix (8 * k') a b /\
    (8 * k' + 8 <= m -> rd a k' <> rd b k').
Proof.
  induction fuel as [| f IH]; intros k Hk Hf Hkm Hp; cbn [common_octets]; [lia |].
  destruct (Z.leb_spec (8 * k + 8) m) as [Hle | Hgt]; [| exists k; split_and!; done || lia].
  replace (8 * k / 8) with k by (rewrite Z.mul_comm, Z.div_mul; lia).
  destruct (rd_in a k) as (x & Hx); [lia |]. destruct (rd_in b k) as (y & Hy); [lia |]. rewrite Hx, Hy. cbn [obind].
  destruct (Z.eqb_spec x y) as [<- | Hne].
  - replace (8 * k + 8) with (8 * (k + 1)) by lia. apply IH; [lia | lia | lia |]. replace (8 * (k + 1)) with (8 * k + 8) by lia. by apply (octet_same k x).
  - exists k. split_and!; [done | done | done | done |]. intros _. rewrite Hx, Hy. congruence.
Qed.

Lemma common_prefix_spec : exists n, ecs_common_prefix_bits a b m = Ret n /\ is_common a b m n.
Proof.
  unfold ecs_common_prefix_bits. destruct (common_octets_spec 32 0) as (k & E & Hk & Hkm & Hp & Hd); [lia | lia | lia | intros i; lia |].
  replace (8 * 0) with 0 in E by lia. rewrite E. cbn [obind]. destruct (Z.ltb_spec (8 * k) m) as [Hlt | Hge].
  2: { exists (8 * k). split; [done |]. split_and!; [lia | lia | done | lia]. }
  replace (8 * k / 8) with k by (rewrite Z.mul_comm, Z.div_mul; lia).
  destruct (rd_in a k) as (x & Hx); [lia |]. destruct (rd_in b k) as (y & Hy); [lia |]. rewrite Hx, Hy. cbn [obind].
  pose proof (rd_byte _ _ _ Ha Hx) as Hbx. pose proof (rd_byte _ _ _ Hb Hy) as Hby.
  assert (isbyte (Z.lxor x y)) as Hxor.
  { unfold isbyte in *. assert (0 <= Z.lxor x y) by (apply Z.lxor_nonneg; lia). split; [done |]. change 256 with (2 ^ 8).
    apply Z.bounded_iff_bits_nonneg; [lia | done |]. intros i Hi. rewrite Z.lxor_spec, !(testbit_above _ 8) by lia. done. }
  rewrite (u8_small (Z.lxor x y)) by exact Hxor. destruct (leading_zeros_spec _ Hxor) as (Hs & Hz & Ho). set (s := leading_zeros 8 (Z.lxor x y) 0) in *.
  assert (forall i, 0 <= i < s -> addr_bit a (8 * k + i) = addr_bit b (8 * k + i)) as Heq.
  { intros i Hi. replace (8 * k + i) with (k * 8 + i) by lia. rewrite (addr_bit_octet a k i x), (addr_bit_octet b k i y) by (done || lia).
    specialize (Hz i Hi). rewrite Z.lxor_spec in Hz. by apply xorb_eq. }
  assert (s < 8 -> addr_bit a (8 * k + s) <> addr_bit b (8 * k + s)) as Hne.
  { intros Hs8. replace (8 * k + s) with (k * 8 + s) by lia. rewrite (addr_bit_octet a k s x), (addr_bit_octet b k s y) by (done || lia).
    specialize (Ho Hs8). rewrite Z.lxor_spec in Ho. intros E'. rewrite E' in Ho. by rewrite xorb_nilpotent in Ho. }
  assert (forall n, 8 * k <= n <= 8 * k + s -> same_prefix n a b) as Hpre.
  { intros n Hn i Hi. destruct (Z.lt_ge_cases i (8 * k)); [apply Hp; lia |]. replace i with (8 * k + (i - 8 * k)) by lia. apply Heq. lia. }
  rewrite u8_small by lia. eexists. split; [done |]. destruct (Z.ltb_spec m (8 * k + s)).
  - split_and!; [lia | lia | apply Hpre; lia | lia].
  - split_and!; [lia | lia | apply Hpre; lia |]. intros Hlm. apply Hne. destruct (Z.eq_dec s 8) as [E8 | E8]; [| lia].
    exfalso. apply Hd; [lia |]. rewrite Hx, Hy. f_equal. apply isbyte_eq_bits; [done | done |]. intros i Hi.
    specialize (Hz i ltac:(lia)). rewrite Z.lxor_spec in Hz. by apply xorb_eq.
Qed.

End Common.

Lemma same_prefix_all a b : bytes a -> bytes b -> length a = length b -> same_prefix (8 * len a) a b -> a = b.
Proof.
  intros Ha Hb Hl Hp. apply list_eq_same_length with (n := length a); [done | done |]. intros i x y Hi Hx Hy.
  apply isbyte_eq_bits; [by apply (Forall_lookup_1 _ _ _ _ Ha Hx) | by apply (Forall_lookup_1 _ _ _ _ Hb Hy) |]. intros j Hj.
  assert (rd a (Z.of_nat i) = Ret x /\ rd b (Z.of_nat i) = Ret y) as [Hrx Hry] by (split; apply rd_Ret; rewrite Nat2Z.id; split; done || lia).
  specialize (Hp (Z.of_nat i * 8 + j)). rewrite (addr_bit_octet a _ _ x), (addr_bit_octet b _ _ y) in Hp by (done || lia).
  apply Hp. lia.
Qed.

(** ** Lemmas: one definition *)

Definition addr_ok (af : Z) (a : list Z) : Prop := (af = AF_INET \/ af = AF_INET6) /\ bytes a /\ length a = family_bytes af.
Definition bits_of (af : Z) : Z := if af =? AF_INET then 32 else 128.

(** A definition that parsed is [any] or a well-formed entry. *)
Definition entry_ok (c : ecs_cidr_entry_t) : Prop := valid (cidr_parsed c) = true -> is_any (cidr_parsed c) = true \/ cidr_wf (cidr_parsed c).

Lemma bits_of_bytes af a : addr_ok af a -> bits_of af = 8 * len a.
Proof. intros ([-> | ->] & _ & ->); done. Qed.

Section Steps.
Context `{InetPton} (inet_ntop : Z -> list Z -> list Z).

Lemma match_cidr_total client t : exists r, match_cidr client t = Ret r.
Proof.
  destruct (client_addr client) as [[fam a] |] eqn:Ec.
  - destruct (client_addr_ok _ _ _ Ec) as (Hb & Hl & Hf). rewrite (match_cidr_parsed _ t _ _ Ec).
    destruct (entry_match_covers fam a t Hb Hl Hf) as (r & -> & _). by eexists.
  - unfold match_cidr, client_addr in *. destruct (inet_pton AF_INET client); [done |]. destruct (inet_pton AF_INET6 client); [done |].
    destruct (_ || _); [by eexists |]. destruct (split_prefix t) as [[h q] |]; by eexists.
Qed.

(** The definition covers the address [a], whose text is [ip]. *)
Definition covers_text (ip : list Z) (af : Z) (a : list Z) (c : ecs_cidr_entry_t) : bool :=
  if valid (cidr_parsed c)
  then is_any (cidr_parsed c) || ((family (cidr_parsed c) =? af) && same_prefixb (prefix (cidr_parsed c)) a (addr (cidr_parsed c)))
  else match cidr_text c with
  | None => false
  | Some t => match match_cidr ip t with Ret r => r | _ => false end
  end.

Definition covers (af : Z) (a : list Z) (c : ecs_cidr_entry_t) : bool := covers_text (inet_ntop af a) af a c.

(** The bits that decide about the definition. *)
Definition need (af : Z) (a : list Z) (c : ecs_cidr_entry_t) : Z :=
  let e := cidr_parsed c in
  if valid e then
    if covers af a c then (if is_any e then 0 else prefix e)
    else if family e =? af then (match ecs_common_prefix_bits a (addr e) (prefix e) with Ret n => n + 1 | _ => 0 end) else 0
  else match cidr_text c with None => 0 | Some _ => bits_of af end.

Lemma family_prefix af e : cidr_wf e -> family e = af -> 0 <= prefix e <= bits_of af.
Proof. intros (Hf & Hp & _) <-. unfold bits_of. destruct Hf as [E | E]; rewrite E in *; cbn in Hp; cbn; lia. Qed.

Lemma common_in_entry af a e : addr_ok af a -> cidr_wf e -> family e = af ->
  exists n, ecs_common_prefix_bits a (addr e) (prefix e) = Ret n /\ is_common a (addr e) (prefix e) n.
Proof.
  intros Ha He Hf. pose proof (family_prefix af e He Hf) as Hp. pose proof (bits_of_bytes af a Ha) as Hb. destruct He as (_ & _ & Hl & Hbe & _).
  destruct Ha as (Haf & Hba & _). assert (bits_of af <= 128) by (destruct Haf as [-> | ->]; cbn; lia).
  apply common_prefix_spec; done || (rewrite ?Hl; lia).
Qed.

Lemma entry_match_other e af a : is_any e = false -> family e <> af -> cidr_entry_match e af a = Ret false.
Proof. intros Ha Hf. unfold cidr_entry_match. rewrite Ha, (proj2 (Z.eqb_neq _ _) Hf). by destruct (valid e). Qed.

Lemma step_spec af a c scope : addr_ok af a -> entry_ok c -> 0 <= scope <= bits_of af ->
  ecs_cidr_step inet_ntop (Ret (cidr_text c)) (cidr_parsed c) af a (bits_of af) scope = Ret (covers af a c, Z.max scope (need af a c)) /\
  0 <= need af a c <= bits_of af.
Proof.
  intros Ha He Hs. unfold ecs_cidr_step, need, covers, covers_text, entry_ok in *. destruct (valid (cidr_parsed c)) eqn:Ev.
  - destruct (is_any (cidr_parsed c)) eqn:Eany; cbn [negb andb orb].
    { unfold cidr_entry_match. rewrite Ev, Eany. cbn. split; [do 2 f_equal; lia | lia]. }
    destruct (He eq_refl) as [? | Hwf]; [done |]. destruct (Z.eqb_spec (family (cidr_parsed c)) af) as [Ef | Ef]; cbn [andb].
    + pose proof (family_prefix af _ Hwf Ef) as Hp. destruct (common_in_entry af a _ Ha Hwf Ef) as (n & En & Hn).
      destruct (entry_match_wf (cidr_parsed c) a) as (r & Hr & Hiff); [done | done | done | apply Ha | rewrite Ef; apply Ha |].
      rewrite Ef in Hr. rewrite Hr. cbn [obind]. assert (same_prefixb (prefix (cidr_parsed c)) a (addr (cidr_parsed c)) = r) as ->.
      { apply (bool_of_iff _ _ (same_prefix (prefix (cidr_parsed c)) a (addr (cidr_parsed c)))); [apply same_prefixb_spec | done]. }
      destruct r; [split; [case_if; do 2 f_equal; lia | done] |]. rewrite En. cbn [obind].
      assert (n <> prefix (cidr_parsed c)) by (intros E; apply (is_common_prefix _ _ _ _ Hn) in E; by apply Hiff in E).
      destruct Hn as (Hn & _). assert (bits_of af <= 128) by (destruct Ha as ([-> | ->] & _); cbn; lia).
      rewrite u8_small by lia. split; [case_if; do 2 f_equal; lia | lia].
    + rewrite entry_match_other by done. cbn [obind]. split; [do 2 f_equal; lia |]. unfold bits_of. case_if; lia.
  - cbn [obind]. destruct (cidr_text c) as [t |]; [| split; [do 2 f_equal; lia | unfold bits_of; case_if; lia]].
    destruct (match_cidr_total (inet_ntop af a) t) as (r & ->). cbn [obind]. split; [do 2 f_equal; lia | unfold bits_of; case_if; lia].
Qed.

(** Addresses that agree in those bits are treated alike. *)
Lemma need_stable af a b c : addr_ok af a -> addr_ok af b -> entry_ok c -> same_prefix (need af a c) a b ->
  covers af b c = covers af a c /\ need af b c = need af a c.
Proof.
  intros Ha Hb He. unfold need, covers, covers_text, entry_ok in *. destruct (valid (cidr_parsed c)) eqn:Ev.
  - destruct (is_any (cidr_parsed c)) eqn:Eany; cbn [orb]; [done |]. destruct (He eq_refl) as [? | Hwf]; [done |].
    destruct (Z.eqb_spec (family (cidr_parsed c)) af) as [Ef | Ef]; cbn [andb]; [| done].
    set (p := prefix (cidr_parsed c)). set (e := addr (cidr_parsed c)).
    destruct (common_in_entry af a _ Ha Hwf Ef) as (n & En & Hn). destruct (common_in_entry af b _ Hb Hwf Ef) as (n' & En' & Hn'). fold p e in En, Hn, En', Hn'.
    assert (forall x k, is_common x e p k -> same_prefixb p x e = (k =? p)) as Hsp.
    { intros x k Hk. apply (bool_of_iff _ _ (same_prefix p x e)); [apply same_prefixb_spec |]. rewrite Z.eqb_eq. symmetry. by apply is_common_prefix. }
    rewrite (Hsp a n Hn), (Hsp b n' Hn'), En, En'. intros Hpre. assert (n' = n) as ->; [| done].
    apply (is_common_unique b e p); [done |]. destruct Hn as (Hn0 & Hnp & Hnd). destruct (Z.eqb_spec n p) as [-> | Hne].
    + split_and!; [lia | lia | apply (same_prefix_trans _ _ a); [by apply same_prefix_sym | done] | lia].
    + split_and!; [lia | lia | |].
      * apply (same_prefix_trans _ _ a); [apply same_prefix_sym; eapply same_prefix_mono; [| exact Hpre]; lia | done].
      * intros Hlt. rewrite <- (Hpre n) by lia. by apply Hnd.
  - destruct (cidr_text c) as [t |]; [| done]. rewrite (bits_of_bytes af a Ha). intros Hpre.
    assert (a = b) as ->; [| done]. destruct Ha as (_ & Hba & Hla), Hb as (_ & Hbb & Hlb). apply same_prefix_all; [done | done | congruence | done].
Qed.

(** ** Lemmas: the search *)

Lemma cidrs_step_spec af a cs : addr_ok af a -> Forall entry_ok cs -> forall scope, 0 <= scope <= bits_of af ->
  exists s, cidrs_step inet_ntop cs af a (bits_of af) scope = Ret (existsb (covers af a) cs, s) /\ scope <= s <= bits_of af /\
    forall b, addr_ok af b -> same_prefix s a b ->
      cidrs_step inet_ntop cs af b (bits_of af) scope = Ret (existsb (covers af a) cs, s) /\ existsb (covers af b) cs = existsb (covers af a) cs.
Proof.
  intros Ha Hcs. induction Hcs as [| c cs Hc Hcs IH]; intros scope Hs; cbn [cidrs_step existsb]; [exists scope; split_and!; done || lia |].
  destruct (step_spec af a c scope Ha Hc Hs) as [-> Hneed]. cbn [obind].
  destruct (IH (Z.max scope (need af a c))) as (s & E & Hle & Hst); [lia |].
  assert (forall s b, addr_ok af b -> Z.max scope (need af a c) <= s -> same_prefix s a b ->
    ecs_cidr_step inet_ntop (Ret (cidr_text c)) (cidr_parsed c) af b (bits_of af) scope = Ret (covers af a c, Z.max scope (need af a c)) /\
    covers af b c = covers af a c) as Hb.
  { intros s' b Hb Hle' Hp. destruct (need_stable af a b c Ha Hb Hc) as [E1 E2]; [eapply same_prefix_mono; [| exact Hp]; lia |].
    destruct (step_spec af b c scope Hb Hc Hs) as [-> _]. rewrite E1, E2. split; reflexivity. }
  destruct (covers af a c) eqn:Ecov; cbn [orb].
  - eexists. split; [done |]. split; [lia |]. intros b Hbo Hp. destruct (Hb _ b Hbo (Z.le_refl _) Hp) as [-> ->]. done.
  - exists s. rewrite E. split; [done |]. split; [lia |]. intros b Hbo Hp. destruct (Hb s b Hbo ltac:(lia) Hp) as [-> ->]. cbn [obind orb]. by apply Hst.
Qed.

(** The first named tag one of whose definitions covers the address. *)
Fixpoint first_tag (af : Z) (a : list Z) (tags : list ecs_tag_def_t) : option (list Z) :=
  match tags with
  | [] => None
  | t :: tags' => match (if existsb (covers af a) (cidrs t) then tag t else None) with Some x => Some x | None => first_tag af a tags' end
  end.

Definition tags_ok (tags : list ecs_tag_def_t) : Prop := Forall (fun t => Forall entry_ok (cidrs t)) tags.

Lemma tags_step_spec af a tags : addr_ok af a -> tags_ok tags -> forall scope, 0 <= scope <= bits_of af ->
  exists s, tags_step inet_ntop tags af a (bits_of af) scope = Ret (first_tag af a tags, s) /\ scope <= s <= bits_of af /\
    forall b, addr_ok af b -> same_prefix s a b ->
      tags_step inet_ntop tags af b (bits_of af) scope = Ret (first_tag af a tags, s) /\ first_tag af b tags = first_tag af a tags.
Proof.
  intros Ha Hts. induction Hts as [| t tags Ht Hts IH]; intros scope Hs; cbn [tags_step first_tag]; [exists scope; split_and!; done || lia |].
  destruct (cidrs_step_spec af a (cidrs t) Ha Ht scope Hs) as (s1 & -> & Hs1 & Hst1). cbn [obind].
  destruct (IH s1 ltac:(lia)) as (s & E & Hle & Hst). destruct (if existsb _ _ then tag t else None) as [x |] eqn:Ex.
  - exists s1. split; [done |]. split; [lia |]. intros b Hb Hp. destruct (Hst1 b Hb Hp) as [-> ->]. cbn [obind]. by rewrite Ex.
  - exists s. rewrite E. split; [done |]. split; [lia |]. intros b Hb Hp.
    destruct (Hst1 b Hb) as [-> ->]; [eapply same_prefix_mono; [| exact Hp]; lia |]. cbn [obind]. rewrite Ex. by apply Hst.
Qed.

(** ** Lemmas: searching the image is searching its tables *)

Lemma step_text area off t parsed af a fb scope : points_to area off t ->
  ecs_cidr_step inet_ntop (text_seen area off) parsed af a fb scope = ecs_cidr_step inet_ntop (Ret t) parsed af a fb scope.
Proof. intros Hp. by rewrite (text_seen_ok _ _ _ Hp). Qed.

Lemma image_cidrs_eq area af a fb cs : len area < 2 ^ 32 -> Forall tag_cidr_wf cs -> forall zt scope, cidrs_at area zt cs ->
  image_cidrs_step inet_ntop area (S (length cs)) zt af a fb scope = cidrs_step inet_ntop cs af a fb scope.
Proof.
  intros Hm Hcs. induction Hcs as [| c cs Hc Hcs IH]; intros zt scope Hz.
  - destruct Hz as (Hl & _). cbn [length image_cidrs_step cidrs_step]. unfold zone_image_tag_next_cidr. by rewrite Hl.
  - destruct (next_cidr_ok area zt c cs Hm (Forall_cons_2 _ _ _ Hc Hcs) Hz) as (zt' & off & E & _ & Hz' & Hp).
    change (length (c :: cs)) with (S (length cs)). set (n := S (length cs)) in *. cbn [image_cidrs_step cidrs_step]. rewrite E. cbn [obind].
    rewrite (step_text _ _ _ _ _ _ _ _ Hp). destruct (ecs_cidr_step _ _ _ _ _ _ _) as [[m s] | | |]; try done. cbn [obind]. destruct m; [done |]. by apply IH.
Qed.

Lemma image_tags_eq area af a fb ts : len area < 2 ^ 32 -> Forall tag_wf ts -> forall it scope, tags_at area it ts ->
  (let! '(found, scope) := image_tags_step inet_ntop area (S (length ts)) it af a fb scope in
   let! t := text_seen area found in Ret (t, scope)) = tags_step inet_ntop ts af a fb scope.
Proof.
  intros Hm Hts. induction Hts as [| t ts Ht Hts IH]; intros it scope Hi.
  - destruct Hi as (Hl & _). cbn [length image_tags_step tags_step]. unfold zone_image_tags_next. by rewrite Hl.
  - destruct (tags_next_ok area it t ts Hm (Forall_cons_2 _ _ _ Ht Hts) Hi) as (it' & zt & E & Hi' & Hc & Hp).
    change (length (t :: ts)) with (S (length ts)). set (n := S (length ts)) in *. cbn [image_tags_step tags_step]. rewrite E. cbn [obind].
    pose proof Hc as (Hl & _). rewrite Hl, Nat2Z.id. rewrite (image_cidrs_eq _ _ _ _ _ Hm (proj2 Ht) _ _ Hc).
    destruct (cidrs_step _ _ _ _ _ _) as [[m s] | | |]; try done. cbn [obind]. destruct m; [| by apply IH].
    unfold points_to in Hp. destruct (tag t) as [x |]; [| rewrite Hp; by apply IH]. destruct Hp as (o & -> & Ho). cbn [obind text_seen]. by rewrite Ho.
Qed.

Lemma location_text area off t client_ip parsed af a : points_to area off t ->
  location_match client_ip af a (text_seen area off) parsed = location_match client_ip af a (Ret t) parsed.
Proof. intros Hp. by rewrite (text_seen_ok _ _ _ Hp). Qed.

Lemma image_location_cidrs_eq area client_ip af a cs : len area < 2 ^ 32 -> Forall tag_cidr_wf cs -> forall zt, cidrs_at area zt cs ->
  image_location_cidrs area (S (length cs)) zt client_ip af a = location_cidrs cs client_ip af a.
Proof.
  intros Hm Hcs. induction Hcs as [| c cs Hc Hcs IH]; intros zt Hz.
  - destruct Hz as (Hl & _). cbn [length image_location_cidrs location_cidrs]. unfold zone_image_tag_next_cidr. by rewrite Hl.
  - destruct (next_cidr_ok area zt c cs Hm (Forall_cons_2 _ _ _ Hc Hcs) Hz) as (zt' & off & E & _ & Hz' & Hp).
    change (length (c :: cs)) with (S (length cs)). set (n := S (length cs)) in *. cbn [image_location_cidrs location_cidrs]. rewrite E. cbn [obind].
    rewrite (location_text _ _ _ _ _ _ _ Hp). destruct (location_match _ _ _ _ _) as [m | | |]; try done. cbn [obind]. destruct m; [done |]. by apply IH.
Qed.

Lemma image_location_tags_eq area client_ip af a ts : len area < 2 ^ 32 -> Forall tag_wf ts -> forall it, tags_at area it ts ->
  image_location_tags area (S (length ts)) it client_ip af a = location_tags_step ts client_ip af a.
Proof.
  intros Hm Hts. induction Hts as [| t ts Ht Hts IH]; intros it Hi.
  - destruct Hi as (Hl & _). cbn [length image_location_tags location_tags_step]. unfold zone_image_tags_next. by rewrite Hl.
  - destruct (tags_next_ok area it t ts Hm (Forall_cons_2 _ _ _ Ht Hts) Hi) as (it' & zt & E & Hi' & Hc & Hp).
    change (length (t :: ts)) with (S (length ts)). set (n := S (length ts)) in *. cbn [image_location_tags location_tags_step]. rewrite E. cbn [obind].
    pose proof Hc as (Hl & _). rewrite Hl, Nat2Z.id. rewrite (image_location_cidrs_eq _ _ _ _ _ Hm (proj2 Ht) _ Hc).
    destruct (location_cidrs _ _ _ _) as [m | | |]; try done. cbn [obind]. destruct m; [| by apply IH]. by apply text_seen_ok.
Qed.

(** *** Which definitions count *)

Definition zone_ok (zone : option zone_tables) : Prop := forall a, zone = Some a -> tables_wf a /\ len (build_zattr a) < 2 ^ 32.
Definition own_tags (zone : option zone_tables) (ecs : bool) : list ecs_tag_def_t := match zone with Some a => tags_of a ecs | None => [] end.
Definition effective_tags (zone : option zone_tables) (ecs : bool) (cfg : tag_config) : list ecs_tag_def_t :=
  if nonempty (own_tags zone ecs) then own_tags zone ecs else configured_tags cfg.

Abbreviation image zone := (option_map build_zattr zone).

Lemma open_tags_ok zone ecs : zone_ok zone ->
  exists it, open_tags (image zone) ecs = Ret it /\ it_left it = len (own_tags zone ecs) /\
    (nonempty (own_tags zone ecs) = true -> exists a, zone = Some a /\ tags_at (build_zattr a) it (tags_of a ecs)).
Proof.
  intros Hz. destruct zone as [a |]; cbn [option_map open_tags own_tags]; [| by eexists]. destruct (Hz a eq_refl) as [Hw Hm].
  destruct (zattr_any a) eqn:Ea.
  - destruct (tags_open_spec a Hw Ea Hm ecs) as (it & -> & Hit). exists it. split; [done |]. split; [apply Hit |]. eauto.
  - destruct (zattr_none a Ea) as (_ & El & Ee & _). unfold tags_of. rewrite El, Ee. exists (ImageTags 0 0 0). unfold build_zattr. rewrite Ea. by destruct ecs.
Qed.

Lemma resolve_ecs_eq zone cfg family af a : zone_ok zone -> (family = 1 /\ af = AF_INET \/ family = 2 /\ af = AF_INET6) ->
  resolve_ecs_subnet_tag inet_ntop (image zone) cfg (Some a) family =
  (let! '(found, scope) := tags_step inet_ntop (effective_tags zone true cfg) af a (bits_of af) 0 in
   Ret (found, if bits_of af <? scope then bits_of af else scope)).
Proof.
  intros Hz Hf. unfold resolve_ecs_subnet_tag. destruct (open_tags_ok zone true Hz) as (it & -> & Hl & Hat). cbn [obind]. rewrite Hl.
  assert ((if family =? 1 then AF_INET else if family =? 2 then AF_INET6 else -1) = af /\ (af =? -1) = false) as [-> ->] by (destruct Hf as [[-> ->] | [-> ->]]; done).
  fold (bits_of af). unfold effective_tags. destruct (own_tags zone true) as [| t ts] eqn:Eo; cbn [nonempty].
  - change (len [] =? 0) with true. change (0 <? len []) with false. cbn [andb]. destruct (configured_tags cfg) as [| t ts]; cbn [nonempty negb]; [| done].
    cbn [tags_step obind]. destruct Hf as [[_ ->] | [_ ->]]; done.
  - rewrite (proj2 (Z.eqb_neq _ _)), (proj2 (Z.ltb_lt _ _)) by (cbn [length]; lia). cbn [andb]. destruct (Hat eq_refl) as (tb & -> & Hit).
    destruct (Hz tb eq_refl) as [Hw Hm]. cbn [option_map own_tags] in *. rewrite Nat2Z.id. rewrite <- Eo. rewrite image_tags_eq; [done | done | | done].
    destruct Hw as (_ & _ & Hwe & _). exact Hwe.
Qed.

Lemma resolve_location_eq zone cfg client af a : zone_ok zone -> client_addr client = Some (af, a) ->
  resolve_bind_location_tag (image zone) cfg (Some client) = location_tags_step (effective_tags zone false cfg) client af a.
Proof.
  intros Hz Hc. unfold resolve_bind_location_tag. destruct (open_tags_ok zone false Hz) as (it & -> & Hl & Hat). cbn [obind]. rewrite Hl, Hc.
  unfold effective_tags. destruct (own_tags zone false) as [| t ts] eqn:Eo; cbn [nonempty].
  - change (len [] =? 0) with true. change (0 <? len []) with false. cbn [andb]. by destruct (configured_tags cfg) as [| t ts].
  - rewrite (proj2 (Z.eqb_neq _ _)), (proj2 (Z.ltb_lt _ _)) by (cbn [length]; lia). cbn [andb]. destruct (Hat eq_refl) as (tb & -> & Hit).
    destruct (Hz tb eq_refl) as [Hw Hm]. cbn [option_map own_tags] in *. rewrite Nat2Z.id, <- Eo. rewrite image_location_tags_eq; [done | done | | done].
    destruct Hw as (_ & Hwl & _). exact Hwl.
Qed.

Lemma location_match_spec client af a c : client_addr client = Some (af, a) -> entry_ok c ->
  location_match client af a (Ret (cidr_text c)) (cidr_parsed c) = Ret (covers_text client af a c).
Proof.
  intros Hc He. destruct (client_addr_ok _ _ _ Hc) as (Hb & Hl & Hf). unfold location_match, covers_text, entry_ok in *. destruct (valid (cidr_parsed c)) eqn:Ev.
  - destruct (is_any (cidr_parsed c)) eqn:Eany; cbn [orb]; [unfold cidr_entry_match; by rewrite Ev, Eany |]. destruct (He eq_refl) as [? | Hwf]; [done |].
    destruct (Z.eqb_spec (family (cidr_parsed c)) af) as [Ef | Ef]; cbn [andb]; [| by apply entry_match_other].
    destruct (entry_match_wf (cidr_parsed c) a) as (r & Hr & Hiff); [done | done | done | done | by rewrite Ef |]. rewrite Ef in Hr. rewrite Hr. f_equal.
    apply (bool_of_iff _ _ (same_prefix (prefix (cidr_parsed c)) a (addr (cidr_parsed c)))); [done | apply same_prefixb_spec].
  - cbn [obind]. destruct (cidr_text c) as [t |]; [| done]. by destruct (match_cidr_total client t) as (r & ->).
Qed.

Lemma location_step_spec client af a ts : client_addr client = Some (af, a) -> tags_ok ts ->
  location_tags_step ts client af a = Ret (match find (fun t => existsb (covers_text client af a) (cidrs t)) ts with Some t => tag t | None => None end).
Proof.
  intros Hc Hts. induction Hts as [| t ts Ht Hts IH]; cbn [location_tags_step find]; [done |].
  assert (location_cidrs (cidrs t) client af a = Ret (existsb (covers_text client af a) (cidrs t))) as ->.
  { induction Ht as [| c cs Hco Hcs IHc]; cbn [location_cidrs existsb]; [done |]. rewrite location_match_spec by done. cbn [obind].
    destruct (covers_text client af a c); [done | by rewrite IHc]. }
  cbn [obind]. by destruct (existsb _ _).
Qed.

End Steps.

(** ** Lemmas: the tinydns location *)

Lemma be32_reverse a : length a = 4%nat -> be32 a = little_endian_to_Z 8 (reverse a).
Proof.
  intros Hl. destruct a as [| b0 [| b1 [| b2 [| b3 [| ? ?]]]]]; try done. cbn [be32]. unfold reverse. cbn [rev_append little_endian_to_Z].
  rewrite Z.shiftl_0_l, Z.lor_0_r, !Z.shiftl_lor, !Z.shiftl_shiftl by lia.
  change (8 + 8) with 16. change (8 + 16) with 24. apply Z.bits_inj'. intros k Hk. rewrite !Z.lor_spec. btauto.
Qed.

Lemma be32_bit a i : bytes a -> length a = 4%nat -> 0 <= i < 32 -> Z.testbit (be32 a) (31 - i) = addr_bit a i.
Proof.
  intros Hb Hl Hi. rewrite be32_reverse by done. unfold addr_bit.
  destruct (lookup_lt_is_Some_2 a (Z.to_nat (i / 8))) as [x Hx].
  { pose proof (Z.div_pos i 8). pose proof (Z.div_lt_upper_bound i 8 4). lia. }
  rewrite (nth_lookup_Some _ _ _ _ Hx). rewrite (little_endian_to_Z_spec 8 (reverse a) (31 - i) x).
  - f_equal. pose proof (Z.div_mod i 8). pose proof (Z.mod_pos_bound i 8). rewrite <- (Z.mod_unique (31 - i) 8 (3 - i / 8) (7 - i mod 8)); lia.
  - lia.
  - lia.
  - by apply Forall_reverse.
  - rewrite reverse_lookup by (rewrite Hl; pose proof (Z.div_pos (31 - i) 8); pose proof (Z.div_lt_upper_bound (31 - i) 8 4); lia).
    rewrite Hl, <- Hx. f_equal. pose proof (Z.div_mod i 8). pose proof (Z.mod_pos_bound i 8).
    rewrite <- (Z.div_unique (31 - i) 8 (3 - i / 8) (7 - i mod 8)) by lia. pose proof (Z.div_pos i 8). pose proof (Z.div_lt_upper_bound i 8 4). lia.
Qed.

Lemma bits_mask_bit bits j : 0 <= bits <= 32 -> 0 <= j -> Z.testbit (bits_mask bits) j = (32 - bits <=? j) && (j <? 32).
Proof.
  intros Hb Hj. unfold bits_mask. destruct (Z.eqb_spec bits 0) as [-> | Hne]; [rewrite Z.bits_0; lia |].
  unfold u32. change 4294967296 with (2 ^ 32). destruct (Z.ltb_spec j 32) as [Hlt | Hge]; [| rewrite Z.mod_pow2_bits_high by lia; lia].
  rewrite Z.mod_pow2_bits_low, Z.shiftl_spec by lia. change 4294967295 with (Z.ones 32). rewrite Z.testbit_ones by lia. lia.
Qed.

Lemma mask_match a n bits : bytes a -> bytes n -> length a = 4%nat -> length n = 4%nat -> 0 <= bits <= 32 ->
  Z.land (be32 a) (bits_mask bits) = Z.land (be32 n) (bits_mask bits) <-> same_prefix bits a n.
Proof.
  intros Ha Hn Hla Hln Hb. split.
  - intros E i Hi. apply (f_equal (fun z => Z.testbit z (31 - i))) in E. rewrite !Z.land_spec, bits_mask_bit in E by lia.
    rewrite !be32_bit in E by (done || lia). rewrite (proj2 (Z.leb_le _ _)), (proj2 (Z.ltb_lt _ _)), !andb_true_r in E by lia. done.
  - intros Hp. apply Z.bits_inj'. intros j Hj. rewrite !Z.land_spec, bits_mask_bit by done.
    destruct ((32 - bits <=? j) && (j <? 32)) eqn:E; [| by rewrite !andb_false_r]. replace j with (31 - (31 - j)) by lia.
    rewrite !be32_bit by (done || lia). rewrite Hp by lia. done.
Qed.

Definition location_wf (l : tinydns_location_entry_t) : Prop := bytes (loc_prefix l) /\ length (loc_prefix l) = 4%nat /\ 0 <= prefix_bits l.
Definition location_bits (l : tinydns_location_entry_t) : Z := Z.min 32 (prefix_bits l).
Definition location_covers (a : list Z) (l : tinydns_location_entry_t) : Prop := same_prefix (location_bits l) a (loc_prefix l).

(** The entry of the longest prefix that covers the address, the first of
    several of that length. *)
Definition is_best (a : list Z) (ls : list tinydns_location_entry_t) (best : option tinydns_location_entry_t) : Prop :=
  match best with
  | None => forall l, In l ls -> ~ location_covers a l
  | Some l =>
      location_covers a l /\ exists pre post, ls = pre ++ l :: post /\
        (forall l', In l' pre -> location_covers a l' -> location_bits l' < location_bits l) /\
        (forall l', In l' post -> location_covers a l' -> location_bits l' <= location_bits l)
  end.

Definition best_bits (best : option tinydns_location_entry_t) : Z := match best with Some l => location_bits l | None => -1 end.

Lemma location_step_best a ls best l : bytes a -> length a = 4%nat -> location_wf l -> is_best a ls best ->
  exists best', location_step (be32 a) (best, best_bits best) l = (best', best_bits best') /\ is_best a (ls ++ [l]) best'.
Proof.
  intros Ha Hla (Hb & Hl & H0) Hbest. unfold location_step. cbn [snd].
  assert ((if 32 <? prefix_bits l then 32 else prefix_bits l) = location_bits l) as -> by (unfold location_bits; case_if; lia).
  assert (0 <= location_bits l <= 32) as Hr by (unfold location_bits; lia).
  assert (forall x, location_covers a l -> location_bits l <= best_bits (Some x) -> best = Some x -> is_best a (ls ++ [l]) best) as Hkeep1.
  { intros x _ Hle ->. destruct Hbest as (Hc & pre & post & -> & H1 & H2). split; [done |]. exists pre, (post ++ [l]). split; [by rewrite <- app_assoc |].
    split; [done |]. intros l' [Hin | [<- | []]]%in_app_or Hc'; [by apply H2 | done]. }
  assert (~ location_covers a l -> is_best a (ls ++ [l]) best) as Hkeep2.
  { intros Hnc. destruct best as [x |].
    - destruct Hbest as (Hc & pre & post & -> & H1 & H2). split; [done |]. exists pre, (post ++ [l]). split; [by rewrite <- app_assoc |].
      split; [done |]. intros l' [Hin | [<- | []]]%in_app_or Hc'; [by apply H2 | done].
    - intros l' [Hin | [<- | []]]%in_app_or; [by apply Hbest | done]. }
  pose proof (mask_match a (loc_prefix l) (location_bits l) Ha Hb Hla Hl Hr) as Hmm. fold (location_covers a l) in Hmm.
  destruct (Z.leb_spec (location_bits l) (best_bits best)) as [Hle | Hgt].
  - exists best. split; [done |]. destruct best as [x |]; [| cbn in Hle; lia].
    destruct (Z.eq_dec (Z.land (be32 a) (bits_mask (location_bits l))) (Z.land (be32 (loc_prefix l)) (bits_mask (location_bits l)))) as [E | E].
    + by apply (Hkeep1 x); [apply Hmm | |].
    + apply Hkeep2. by rewrite <- Hmm.
  - destruct (Z.eqb_spec (Z.land (be32 a) (bits_mask (location_bits l))) (Z.land (be32 (loc_prefix l)) (bits_mask (location_bits l)))) as [E | E].
    + exists (Some l). split; [done |]. split; [by apply Hmm |]. exists ls, []. split; [done |]. split; [| done]. intros l' Hin Hc'.
      destruct best as [x |]; [| by apply Hbest in Hin]. cbn in Hgt. destruct Hbest as (Hc & pre & post & -> & H1 & H2).
      apply in_app_or in Hin as [Hin | [<- | Hin]]; [pose proof (H1 l' Hin Hc'); lia | lia | pose proof (H2 l' Hin Hc'); lia].
    + exists best. split; [done |]. apply Hkeep2. by rewrite <- Hmm.
Qed.

Lemma location_fold a ls : bytes a -> length a = 4%nat -> Forall location_wf ls -> forall done best, is_best a done best ->
  exists best', fold_left (location_step (be32 a)) ls (best, best_bits best) = (best', best_bits best') /\ is_best a (done ++ ls) best'.
Proof.
  intros Ha Hla Hls. induction Hls as [| l ls Hl Hls IH]; intros dn best Hb; cbn [fold_left]; [exists best; by rewrite app_nil_r |].
  destruct (location_step_best a dn best l Ha Hla Hl Hb) as (best1 & -> & Hb1). destruct (IH _ _ Hb1) as (best2 & -> & Hb2).
  exists best2. split; [done |]. by rewrite <- app_assoc in Hb2.
Qed.

(** ** Lemmas: trusted resolvers *)

Section Trusted.
Context `{InetPton}.

(** Every list was parsed when it was configured. *)
Definition trusted_wf (tc : trusted_config) : Prop :=
  zone_resolvers_parsed tc = option_map acl_list_parse (zone_resolvers tc) /\
  server_resolvers_parsed tc = option_map acl_list_parse (server_resolvers tc).

(** The list that decides, and whether it is bounded by the ceiling. *)
Definition deciding_list (zone : option zone_tables) (tc : trusted_config) : list (option (list Z)) * bool :=
  match zone with
  | Some a => if nonempty (trusted a) then (trusted a, false)
              else match zone_resolvers tc with Some l => (l, zone_ceiling tc) | None => (default [] (server_resolvers tc), false) end
  | None => match zone_resolvers tc with Some l => (l, zone_ceiling tc) | None => (default [] (server_resolvers tc), false) end
  end.

Definition image_trusted_wf (zone : option zone_tables) : Prop :=
  zone_ok zone /\ forall a, zone = Some a -> trusted_parsed a = None \/ trusted_parsed a = Some (acl_list_parse (trusted a)).

Lemma image_trusted_ok zone : image_trusted_wf zone ->
  image_trusted (option_map build_zattr zone) = Ret (match zone with Some a => acl_list_parse (trusted a) | None => [] end).
Proof.
  intros [Hz Hp]. destruct zone as [a |]; [| done]. cbn [option_map image_trusted]. destruct (Hz a eq_refl) as [Hw Hm].
  destruct (zattr_any a) eqn:Ea.
  - rewrite trusted_spec by done. f_equal. unfold stored_parsed. destruct (Hp a eq_refl) as [-> | ->]; by destruct (trusted a).
  - destruct (zattr_none a Ea) as (_ & _ & _ & ->). unfold build_zattr. by rewrite Ea.
Qed.

Lemma trusted_list_spec client fam a l bounded cfg :
  client_addr client = Some (fam, a) -> list_wf (acl_ceiling cfg) ->
  exists r, (let! m := check_acl client l in if m && bounded then db_ceiling_allows_address cfg client else Ret m) = Ret r /\
    (r = true <-> first_match_allows fam a l /\
       (bounded = true -> db_acl_ceiling_configured cfg = true /\ first_match_allows fam a (entries (acl_ceiling cfg)))).
Proof.
  intros Hc Hcl. destruct (check_acl_first_match _ _ _ l Hc) as (m & -> & Hm). cbn [obind]. destruct m; cbn [andb].
  - destruct bounded; [| exists true; naive_solver]. unfold db_ceiling_allows_address. destruct (db_acl_ceiling_configured cfg) eqn:Ed; cbn [negb].
    + destruct (addr_list_match_spec _ _ _ _ Hc Hcl) as (r & -> & Hr). exists r. naive_solver.
    + exists false. naive_solver.
  - exists false. naive_solver.
Qed.

Lemma trusted_spec_ok zone cfg tc client fam a :
  image_trusted_wf zone -> trusted_wf tc -> list_wf (acl_ceiling cfg) -> client_addr client = Some (fam, a) ->
  is_ecs_trusted_resolver (option_map build_zattr zone) cfg tc (Some client) =
  (let '(l, bounded) := deciding_list zone tc in
   let! m := check_acl client l in if m && bounded then db_ceiling_allows_address cfg client else Ret m).
Proof.
  intros Hz [Htz Hts] Hcl Hc. unfold is_ecs_trusted_resolver. rewrite image_trusted_ok by done. cbn [obind].
  assert (forall l, check_acl_bin client (acl_list_parse l) (length l) = check_acl client l) as Hbin by (intros; by rewrite (check_acl_parsed _ _ _ _ Hc)).
  match goal with |- (if _ then _ else ?r) = _ => set (rest := r) end.
  assert (rest = (let '(l, bounded) := match zone_resolvers tc with Some l => (l, zone_ceiling tc) | None => (default [] (server_resolvers tc), false) end in
    let! m := check_acl client l in if m && bounded then db_ceiling_allows_address cfg client else Ret m)) as Hrest.
  { unfold rest. rewrite Htz, Hts. destruct (zone_resolvers tc) as [[| t l] |]; cbn [option_map length nonempty negb]; [done | |].
    - change (S (length l)) with (length (t :: l)). rewrite Hbin. destruct (check_acl client (t :: l)) as [m | | |]; try done. cbn [obind].
      rewrite bool_decide_true by eauto. by rewrite andb_true_r.
    - destruct (server_resolvers tc) as [[| t l] |]; cbn [option_map length default from_option id nonempty negb]; unfold id; try done.
      change (S (length l)) with (length (t :: l)). rewrite Hbin. destruct (check_acl client (t :: l)) as [m | | |]; try done. cbn [obind].
      rewrite bool_decide_false by (intros [? [=]]). by destruct m. }
  clearbody rest. unfold deciding_list. destruct zone as [tb |]; [| done]. destruct (trusted tb) as [| t l] eqn:Et; [done |]. cbn [nonempty acl_list_parse map].
  change (acl_rule_parse t :: map acl_rule_parse l) with (acl_list_parse (t :: l)).
  replace (length (acl_list_parse (t :: l))) with (length (t :: l)) by (unfold acl_list_parse; by rewrite length_map). rewrite Hbin.
  destruct (check_acl client (t :: l)) as [m | | |]; try done. cbn [obind]. by rewrite andb_false_r.
Qed.

End Trusted.

(** ** Properties *)

(** C38. The tag of a client subnet is that of the first definition that
    covers the address, and the SCOPE PREFIX-LENGTH sent with it is sound: it
    is at most the length of an address, and every address that shares that
    many bits gets the same tag and the same scope.  The definitions are the
    zone's own, else its configuration's, else the server's. *)
Theorem ecs_tag_and_scope `{InetPton} (inet_ntop : Z -> list Z -> list Z) (zone : option zone_tables) (cfg : tag_config) (family af : Z) (a : list Z) :
  zone_ok zone -> tags_ok (effective_tags zone true cfg) ->
  (family = 1 /\ af = AF_INET \/ family = 2 /\ af = AF_INET6) -> addr_ok af a ->
  exists scope,
    resolve_ecs_subnet_tag inet_ntop (option_map build_zattr zone) cfg (Some a) family =
      Ret (first_tag inet_ntop af a (effective_tags zone true cfg), scope) /\ 0 <= scope <= bits_of af /\
    forall b, addr_ok af b -> same_prefix scope a b ->
      resolve_ecs_subnet_tag inet_ntop (option_map build_zattr zone) cfg (Some b) family =
        resolve_ecs_subnet_tag inet_ntop (option_map build_zattr zone) cfg (Some a) family.
Proof.
  intros Hz Hts Hf Ha. assert (0 <= bits_of af) by (unfold bits_of; case_if; lia).
  destruct (tags_step_spec inet_ntop af a _ Ha Hts 0) as (s & E & Hs & Hst); [lia |]. exists s.
  rewrite !(resolve_ecs_eq inet_ntop zone cfg family af) by done. rewrite E. cbn [obind]. rewrite (proj2 (Z.ltb_ge _ _)) by lia.
  split; [done |]. split; [done |]. intros b Hb Hp. rewrite (resolve_ecs_eq inet_ntop zone cfg family af) by done.
  destruct (Hst b Hb Hp) as [-> _]. cbn [obind]. by rewrite (proj2 (Z.ltb_ge _ _)) by lia.
Qed.

Definition sample_def (name cidr : string) : ecs_tag_def_t :=
  EcsTagDef (Some (str name)) [EcsCidr (Some (str cidr)) (fst (cidr_entry_parse (str cidr)))].

Definition sample_cfg : tag_config := TagConfig None (Some [sample_def "x" "10.0.0.0/9"; sample_def "x" "10.128.0.0/9"]).

Lemma parsed_entry_ok n c : entry_ok (EcsCidr n (fst (cidr_entry_parse c))).
Proof.
  intros Hv. cbn [cidr_parsed] in *. destruct (cidr_entry_parse c) as [e ok] eqn:Ec. cbn [fst] in *. destruct ok; [by apply cidr_entry_parse_wf in Ec as [_ ?] |].
  by apply cidr_entry_parse_invalid in Ec as ->.
Qed.

Lemma sample_cfg_ok : tags_ok (effective_tags None true sample_cfg).
Proof. apply Forall_cons_2; [| apply Forall_singleton]; apply Forall_singleton, parsed_entry_ok. Qed.

Lemma ecs_tag_and_scope_witness :
  resolve_ecs_subnet_tag (fun _ a => a) None sample_cfg (Some [10; 0; 0; 1]) 1 = Ret (Some (str "x"), 9) /\
  resolve_ecs_subnet_tag (fun _ a => a) None sample_cfg (Some [10; 99; 4; 5]) 1 =
    resolve_ecs_subnet_tag (fun _ a => a) None sample_cfg (Some [10; 0; 0; 1]) 1.
Proof.
  split; [vm_compute; done |].
  assert (forall l, length l = 4%nat -> bytes l -> addr_ok AF_INET l) as Hok by (intros l Hl Hb; split_and!; auto).
  destruct (ecs_tag_and_scope (fun _ a => a) None sample_cfg 1 AF_INET [10; 0; 0; 1]) as (scope & E & _ & Hst).
  - by intros a.
  - exact sample_cfg_ok.
  - by left.
  - apply Hok; [done | bytes_lit].
  - cbn [option_map] in *. apply Hst; [apply Hok; [done | bytes_lit] |]. assert (scope = 9) as -> by (vm_compute in E; congruence).
    apply same_prefixb_spec. vm_compute. done.
Defined.

(** The scope is not always the shortest one that works, as the comment
    on the function has it: with 10.0.0.0/9 and 10.128.0.0/9 under one tag,
    10.0.0.1 is answered with scope 9 although every address that shares its
    first 8 bits gets that tag. *)
Theorem ecs_scope_not_shortest :
  resolve_ecs_subnet_tag (fun _ a => a) None sample_cfg (Some [10; 0; 0; 1]) 1 = Ret (Some (str "x"), 9) /\
  forall b, addr_ok AF_INET b /\ same_prefix 8 [10; 0; 0; 1] b ->
    exists scope, resolve_ecs_subnet_tag (fun _ a => a) None sample_cfg (Some b) 1 = Ret (Some (str "x"), scope).
Proof.
  split; [vm_compute; done |]. intros b [Hb Hp].
  destruct (tags_step_spec (fun _ a => a) AF_INET b _ Hb sample_cfg_ok 0) as (s & E & Hs & _); [cbn; lia |].
  pose proof (resolve_ecs_eq (fun _ a => a) None sample_cfg 1 AF_INET b) as Eq. cbn [option_map] in Eq. rewrite Eq; [| by intros a | by left].
  rewrite E. cbn [obind]. rewrite (proj2 (Z.ltb_ge _ _)) by lia. exists s. do 2 f_equal.
  assert (forall n, n = [10; 0; 0; 0] ++ replicate 12 0 /\ addr_bit b 8 = false \/ n = [10; 128; 0; 0] ++ replicate 12 0 /\ addr_bit b 8 = true ->
    same_prefixb 9 b n = true) as Hn.
  { intros n Hn. apply same_prefixb_spec. intros i Hi. destruct (Z.eq_dec i 8) as [-> | Hne].
    - destruct Hn as [[-> ->] | [-> ->]]; done.
    - rewrite <- Hp by lia. assert (addr_bit n i = addr_bit [10; 0; 0; 0] i) as ->.
      { assert (nth (Z.to_nat (i / 8)) n 0 = nth (Z.to_nat (i / 8)) [10; 0; 0; 0] 0) as E0; [| unfold addr_bit; by rewrite E0].
        assert (i / 8 = 0) as -> by (apply Z.div_small; lia). by destruct Hn as [[-> _] | [-> _]]. }
      unfold addr_bit. assert (i / 8 = 0) as -> by (apply Z.div_small; lia). done. }
  unfold effective_tags, own_tags. cbn [nonempty configured_tags zone_tags server_tags sample_cfg first_tag cidrs sample_def existsb tag]. unfold covers, covers_text.
  cbn [cidr_parsed]. set (e1 := fst (cidr_entry_parse (str "10.0.0.0/9"))). set (e2 := fst (cidr_entry_parse (str "10.128.0.0/9"))).
  vm_compute in e1, e2. subst e1 e2. cbn [valid is_any family prefix addr orb Z.eqb AF_INET Pos.eqb andb].
  destruct (addr_bit b 8) eqn:E8.
  - rewrite (Hn [10; 128; 0; 0; 0; 0; 0; 0; 0; 0; 0; 0; 0; 0; 0; 0]) by (right; done). by case_if.
  - rewrite (Hn [10; 0; 0; 0; 0; 0; 0; 0; 0; 0; 0; 0; 0; 0; 0; 0]) by (left; done). done.
Qed.

(** What a client sees of a zone: its BIND location tag is that of the
    first definition that covers its address, and its tinydns location is the
    code of the longest prefix that covers it, the first of several of that
    length, or none. *)
Theorem client_locations `{InetPton} (zone : zone_tables) (cfg : tag_config) (client : list Z) (af : Z) (a : list Z) :
  tables_wf zone -> len (build_zattr zone) < 2 ^ 32 -> Forall location_wf (locations zone) -> tags_ok (effective_tags (Some zone) false cfg) ->
  client_addr client = Some (af, a) ->
  resolve_bind_location_tag (Some (build_zattr zone)) cfg (Some client) =
    Ret (match find (fun t => existsb (covers_text client af a) (cidrs t)) (effective_tags (Some zone) false cfg) with Some t => tag t | None => None end) /\
  (af = AF_INET -> exists best, is_best a (locations zone) best /\
    tinydns_resolve_client_location (Some (build_zattr zone)) (Some client) = Ret (match best with Some l => code l | None => [0; 0] end)) /\
  (af = AF_INET6 -> tinydns_resolve_client_location (Some (build_zattr zone)) (Some client) = Ret [0; 0]).
Proof.
  intros Hw Hm Hlw Hts Hc. destruct (client_addr_ok _ _ _ Hc) as (Hb & Hl & Hf). split.
  - rewrite <- location_step_spec by done. apply (resolve_location_eq (Some zone)); [| done]. by intros ? [= <-].
  - unfold tinydns_resolve_client_location. assert (zone_image_locations (build_zattr zone) = Ret (locations zone)) as ->.
    { destruct (zattr_any zone) eqn:Ea; [by apply locations_spec |]. unfold build_zattr. rewrite Ea. destruct (zattr_none zone Ea) as (-> & _). done. }
    cbn [obind]. split; intros ->.
    + destruct (location_fold a (locations zone) Hb Hl Hlw [] None) as (best & E & Hbest); [by intros l |]. exists best. split; [done |].
      apply client_addr_v4 in Hc as [-> _]. change (best_bits None) with (-1) in E. rewrite E. cbn [fst].
      destruct (locations zone); [| done]. destruct best as [l |]; [| done]. destruct Hbest as (_ & pre & post & E' & _). by destruct pre.
    + apply client_addr_v6 in Hc as [-> _]. by destruct (negb _).
Qed.

Definition sample_zone : zone_tables :=
  ZoneTables [TinydnsLocation (str "in") [192; 0; 0; 0] 8; TinydnsLocation (str "ex") [192; 0; 2; 0] 24] [sample_def "eu" "192.0.2.0/24"] [] [] None.

Lemma sample_zone_wf : tables_wf sample_zone.
Proof.
  split_and!; [repeat constructor | | apply Forall_nil_2 | apply Forall_nil_2 | done].
  apply Forall_singleton. split; [intros t [= <-]; chars_lit |]. apply Forall_singleton. split; [intros t [= <-]; chars_lit | apply parse_storable].
Qed.

Lemma client_locations_witness :
  resolve_bind_location_tag (Some (build_zattr sample_zone)) (TagConfig None None) (Some (str "192.0.2.77")) = Ret (Some (str "eu")) /\
  tinydns_resolve_client_location (Some (build_zattr sample_zone)) (Some (str "192.0.2.77")) = Ret (str "ex").
Proof.
  destruct (client_locations sample_zone (TagConfig None None) (str "192.0.2.77") AF_INET [192; 0; 2; 77]) as (H1 & H2 & _).
  - exact sample_zone_wf.
  - vm_compute. done.
  - repeat (apply Forall_cons_2; [split_and!; [bytes_lit | done | done] |]). apply Forall_nil_2.
  - apply Forall_singleton, Forall_singleton, parsed_entry_ok.
  - vm_compute. done.
  - split; [rewrite H1; vm_compute; done |]. destruct (H2 eq_refl) as (best & _ & E). vm_compute in E |- *. done.
Defined.

(** A resolver's client subnet is trusted exactly when the first entry
    that covers the resolver in the deciding list allows it: the zone's own
    list if it has one, else the list of the zone's configuration, else the
    server's.  The list a database gave a zone cannot exceed the
    administrator's ceiling. *)
Theorem ecs_trusted_decision `{InetPton} (zone : option zone_tables) (cfg : server_config_t) (tc : trusted_config) (client : list Z) (fam : Z) (a : list Z) :
  image_trusted_wf zone -> trusted_wf tc -> list_wf (acl_ceiling cfg) -> client_addr client = Some (fam, a) ->
  exists r, is_ecs_trusted_resolver (option_map build_zattr zone) cfg tc (Some client) = Ret r /\
    (r = true <-> first_match_allows fam a (fst (deciding_list zone tc)) /\
       (snd (deciding_list zone tc) = true ->
          db_acl_ceiling_configured cfg = true /\ first_match_allows fam a (entries (acl_ceiling cfg)))).
Proof.
  intros Hz Ht Hcl Hc. rewrite (trusted_spec_ok _ _ _ _ _ _ Hz Ht Hcl Hc). destruct (deciding_list zone tc) as [l bounded]. by apply trusted_list_spec.
Qed.

Definition sample_trusted : trusted_config :=
  TrustedConfig (Some [Some (str "192.0.2.0/24")]) (Some (acl_list_parse [Some (str "192.0.2.0/24")])) true None None.

Definition sample_server : server_config_t := ServerConfig [] true (AddrList [Some (str "198.51.100.0/24")] None) [] ACL_MATCH_DEFAULT.

Lemma ecs_trusted_decision_witness :
  exists r, is_ecs_trusted_resolver None sample_server sample_trusted (Some (str "192.0.2.1")) = Ret r /\
    (r = true <-> first_match_allows AF_INET [192; 0; 2; 1] [Some (str "192.0.2.0/24")] /\
       (true = true -> db_acl_ceiling_configured sample_server = true /\ first_match_allows AF_INET [192; 0; 2; 1] [Some (str "198.51.100.0/24")])).
Proof.
  apply (ecs_trusted_decision None sample_server sample_trusted (str "192.0.2.1") AF_INET [192; 0; 2; 1]).
  - by split.
  - done.
  - by left.
  - vm_compute. done.
Defined.

End Ecs.
