(* ===== verification/Question.v ===== *)
(** * Questions and the shape of requests (src/dns_wire.c)

    The fast parser of the question on the query path, the walk over the
    whole question section that decides whether a request is answered with
    FORMERR and which questions are echoed, and the test whether a request is
    a well-formed AXFR or IXFR request. *)

From S2P Require Import Prelude.
From S2P Require Import CLib.
From S2P Require Import DnsName.
From S2P Require Import NameText.
From S2P Require Import WireName.

Module Question.
Import CLib DnsName NameText WireName.

(** ** Operations *)

(** A loop over the labels of the first name, from [offset]. *)
Fixpoint name_compressed_from (fuel : nat) (buf : list Z) (buf_len offset : Z) : outcome bool :=
  match fuel with
  | O => NoFuel
  | S f =>
      if offset <? buf_len then
        let! l := rd buf offset in
        if l =? 0 then Ret false
        else if Z.land l 192 =? 192 then Ret true
        else if 63 <? l then Ret false
        else name_compressed_from f buf buf_len (offset + (1 + l))
      else Ret false
  end.

Definition wire_question_name_compressed (buf : list Z) (buf_len : Z) : outcome bool :=
  name_compressed_from (S (Z.to_nat buf_len)) buf buf_len DNS_HEADER_SIZE.

(** What [parse_query_question_fast] writes through its pointers; [q_fields]
    is missing on the one path that leaves them alone. *)
Record query_question := QueryQuestion { q_ok : bool; q_name : list Z; q_fields : option (Z * Z * Z) }.

(** The label loop: whether the name was completed, the offset and the text. *)
Fixpoint qname_loop (fuel : nat) (buf : list Z) (buf_len qname_size offset : Z) (qname : list Z) (wire_len : Z) : outcome (bool * Z * list Z) :=
  match fuel with
  | O => NoFuel
  | S f =>
      if offset <? buf_len then
        let! label_len := rd buf offset in
        if label_len =? 0 then Ret (true, offset + 1, qname)
        else if Z.land label_len 192 =? 192 then Ret (false, offset, qname)
        else if (63 <? label_len) || (buf_len <? offset + 1 + label_len) then Ret (false, offset, qname)
        else
          let offset := offset + 1 in
          let wire_len := wire_len + (1 + label_len) in
          if 255 <? wire_len then Ret (false, offset, qname)
          else
            let! label := slice buf offset label_len in
            let written := len qname in
            match (if written + 1 <? qname_size then dns_label_to_text label (qname_size - written - 1) else Fail) with
            | Ret t =>
                if qname_size <=? written + len t + 1 then Ret (false, offset, qname)
                else qname_loop f buf buf_len qname_size (offset + label_len) (qname ++ t ++ [DOT]) wire_len
            | Fail => Ret (false, offset, qname)
            | Oob => Oob
            | NoFuel => NoFuel
            end
      else Ret (false, offset, qname)
  end.

Definition parse_query_question_fast (buf : list Z) (buf_len qname_size : Z) : outcome query_question :=
  if (buf_len <=? DNS_HEADER_SIZE) || (qname_size =? 0) then Ret (QueryQuestion false [] (Some (0, 1, DNS_HEADER_SIZE)))
  else
    let! '(completed, offset, qname) := qname_loop (S (Z.to_nat buf_len)) buf buf_len qname_size DNS_HEADER_SIZE [] 1 in
    if negb completed then Ret (QueryQuestion false [] (Some (0, 1, offset)))
    else if (len qname =? 0) && (qname_size <? 2) then Ret (QueryQuestion false [] None)
    else
      let qname := if len qname =? 0 then [DOT] else qname in
      if offset + 4 <=? buf_len then
        let! qtype := rd16 buf offset in
        let! qclass := rd16 buf (offset + 2) in
        Ret (QueryQuestion true qname (Some (qtype, qclass, offset + 4)))
      else Ret (QueryQuestion false qname (Some (0, 1, offset))).

(** The questions from the [i]-th on, [n] of them left; [first] is the name
    and the class of the first one, [seen] the bitmap of types as a set. *)
Fixpoint walk_questions (n : nat) (req : list Z) (req_len opcode qd p i : Z) (first : option (list Z * Z)) (seen : gset Z) : outcome (bool * Z) :=
  match n with
  | O => Ret (true, i)
  | S n' =>
      match expand_wire_name_to_buffer req req_len p DNS_NAME_TEXT_SIZE with
      | Ret (nb, next) =>
          if req_len <? next + 4 then Ret (false, i)
          else
            let! type := rd16 req next in
            let! cls := rd16 req (next + 2) in
            let ok := negb (((opcode =? 4) || (opcode =? 5)) && ((cls =? 254) || (cls =? 255))) in
            let ok :=
              match first with
              | None => ok
              | Some (fname, fclass) => ok && strcaseeq fname nb && (cls =? fclass) && negb (bool_decide (type ∈ seen))
              end in
            if negb ok then Ret (false, i)
            else walk_questions n' req req_len opcode qd (next + 4) (i + 1)
                   (match first with None => Some (nb, cls) | Some f => Some f end) (if 1 <? qd then {[type]} ∪ seen else seen)
      | Fail => Ret (false, i)
      | Oob => Oob
      | NoFuel => NoFuel
      end
  end.

(** The result and [*n_read]. *)
Definition question_section_walk (req : list Z) (req_len : Z) : outcome (bool * Z) :=
  let! b2 := rd req 2 in
  let opcode := Z.land (Z.shiftr b2 3) 15 in
  let! qd := rd16 req 4 in
  if qd =? 0 then Ret (true, 0)
  else
    let! compressed := wire_question_name_compressed req req_len in
    if compressed then Ret (false, 0)
    else walk_questions (Z.to_nat qd) req req_len opcode qd DNS_HEADER_SIZE 0 None ∅.

Definition dns_question_section_ok (req : list Z) (req_len : Z) : outcome bool :=
  if req_len <? DNS_HEADER_SIZE then Ret false
  else let! '(ok, _) := question_section_walk req req_len in Ret ok.

Definition dns_error_qd_echo (req : list Z) (req_len : Z) : outcome Z :=
  if req_len <? DNS_HEADER_SIZE then Ret 0
  else
    let! b2 := rd req 2 in
    let opcode := Z.land (Z.shiftr b2 3) 15 in
    if negb (opcode =? 0) && negb (opcode =? 4) && negb (opcode =? 5) then Ret 0
    else
      let! '(ok, n) := question_section_walk req req_len in
      Ret (if ok || (opcode =? 5) then n else 0).

(** *** The shape of a transfer request *)

Inductive xfr_shape_t :=
| XFR_SHAPE_OK | XFR_SHAPE_SHORT | XFR_SHAPE_TOO_LONG | XFR_SHAPE_RESPONSE | XFR_SHAPE_OPCODE | XFR_SHAPE_RCODE
| XFR_SHAPE_QDCOUNT | XFR_SHAPE_QUESTION | XFR_SHAPE_QTYPE | XFR_SHAPE_ANCOUNT | XFR_SHAPE_NSCOUNT
| XFR_SHAPE_IXFR_SOA | XFR_SHAPE_ADDITIONAL | XFR_SHAPE_TRAILING.

#[export] Instance xfr_shape_eq_dec : EqDecision xfr_shape_t.
Proof. solve_decision. Defined.

Definition XFR_REQUEST_MAX_LEN : Z := 4096.

(** [*start], [*type], [*rdata], [*rdlen]. *)
Record shape_rr := ShapeRR { rr_start : Z; rr_type : Z; rr_rdata : Z; rr_rdlen : Z }.
Definition rr_end (r : shape_rr) : Z := rr_rdata r + rr_rdlen r.

Definition xfr_shape_rr (req : list Z) (req_len p : Z) : outcome shape_rr :=
  let! n := skip_wire_name req req_len p in
  fail_if req_len <? n + 10 ;;
  let! type := rd16 req n in
  let! rdlen := rd16 req (n + 8) in
  fail_if req_len <? n + 10 + rdlen ;;
  Ret (ShapeRR p type (n + 10) rdlen).

(** [while (o < rdata + rdlen)]: the options fill the RDATA exactly. *)
Fixpoint opt_options (fuel : nat) (req : list Z) (o stop : Z) : outcome bool :=
  match fuel with
  | O => NoFuel
  | S f =>
      if o <? stop then
        if stop <? o + 4 then Ret false
        else
          let! l := rd16 req (o + 2) in
          let o := o + (4 + l) in
          if stop <? o then Ret false else opt_options f req o stop
      else Ret true
  end.

(** The additional records, [n] of them left; [Ret None] is the error. *)
Fixpoint additional (n : nat) (req : list Z) (req_len p n_opt : Z) : outcome (option Z) :=
  match n with
  | O => Ret (Some p)
  | S n' =>
      match xfr_shape_rr req req_len p with
      | Ret r =>
          if rr_type r =? 41 then
            if (1 <? n_opt + 1) || negb (rr_rdata r =? rr_start r + 11) then Ret None
            else
              let! b := rd req (rr_start r) in
              if negb (b =? 0) then Ret None
              else
              let! ok := opt_options (S (Z.to_nat (rr_rdlen r))) req (rr_rdata r) (rr_end r) in
              if ok then additional n' req req_len (rr_end r) (n_opt + 1) else Ret None
          else if ((rr_type r =? 250) || (rr_type r =? 24)) && Nat.eqb n' 0 then additional n' req req_len (rr_end r) n_opt
          else Ret None
      | Fail => Ret None
      | Oob => Oob
      | NoFuel => NoFuel
      end
  end.

(** What is written for a good request: QTYPE, the end of the question, the
    serial. *)
Definition xfr_request_shape (req : list Z) (req_len : Z) : outcome (xfr_shape_t * option (Z * Z * Z)) :=
  if req_len <? DNS_HEADER_SIZE then Ret (XFR_SHAPE_SHORT, None)
  else if XFR_REQUEST_MAX_LEN <? req_len then Ret (XFR_SHAPE_TOO_LONG, None)
  else
    let! b2 := rd req 2 in
    if negb (Z.land b2 128 =? 0) then Ret (XFR_SHAPE_RESPONSE, None)
    else if negb (Z.land (Z.shiftr b2 3) 15 =? 0) then Ret (XFR_SHAPE_OPCODE, None)
    else
      let! b3 := rd req 3 in
      if negb (Z.land b3 15 =? 0) then Ret (XFR_SHAPE_RCODE, None)
      else
        let! qd := rd16 req 4 in
        let! an := rd16 req 6 in
        let! ns := rd16 req 8 in
        let! ar := rd16 req 10 in
        if negb (qd =? 1) then Ret (XFR_SHAPE_QDCOUNT, None)
        else
          let! compressed := wire_question_name_compressed req req_len in
          if compressed then Ret (XFR_SHAPE_QUESTION, None)
          else orelse (skip_wire_name req req_len DNS_HEADER_SIZE) (XFR_SHAPE_QUESTION, None) (fun p =>
            if req_len <? p + 4 then Ret (XFR_SHAPE_QUESTION, None)
            else
              let! qt := rd16 req p in
              let qend := p + 4 in
              if negb (qt =? 252) && negb (qt =? 251) then Ret (XFR_SHAPE_QTYPE, None)
              else if negb (an =? 0) then Ret (XFR_SHAPE_ANCOUNT, None)
              else
                let rest (p serial : Z) :=
                  let! r := additional (Z.to_nat ar) req req_len p 0 in
                  match r with
                  | None => Ret (XFR_SHAPE_ADDITIONAL, None)
                  | Some p => if negb (p =? req_len) then Ret (XFR_SHAPE_TRAILING, None) else Ret (XFR_SHAPE_OK, Some (qt, qend, serial))
                  end in
                if qt =? 252 then
                  if negb (ns =? 0) then Ret (XFR_SHAPE_NSCOUNT, None) else rest qend 0
                else if negb (ns =? 1) then Ret (XFR_SHAPE_NSCOUNT, None)
                else orelse (xfr_shape_rr req req_len qend) (XFR_SHAPE_IXFR_SOA, None) (fun r =>
                  if negb (rr_type r =? 6) then Ret (XFR_SHAPE_IXFR_SOA, None)
                  else orelse (ixfr_request_client_serial req req_len qend) (XFR_SHAPE_IXFR_SOA, None) (fun serial =>
                    rest (rr_end r) serial))).

Definition xfr_shape_text (s : xfr_shape_t) : list Z :=
  match s with
  | XFR_SHAPE_OK => str "well formed"
  | XFR_SHAPE_SHORT => str "shorter than a DNS header"
  | XFR_SHAPE_TOO_LONG => str "request too long"
  | XFR_SHAPE_RESPONSE => str "QR is set"
  | XFR_SHAPE_OPCODE => str "OPCODE is not QUERY"
  | XFR_SHAPE_RCODE => str "RCODE is not NOERROR"
  | XFR_SHAPE_QDCOUNT => str "QDCOUNT is not 1"
  | XFR_SHAPE_QUESTION => str "malformed question"
  | XFR_SHAPE_QTYPE => str "the question is not AXFR or IXFR"
  | XFR_SHAPE_ANCOUNT => str "ANCOUNT is not 0"
  | XFR_SHAPE_NSCOUNT => str "unexpected NSCOUNT"
  | XFR_SHAPE_IXFR_SOA => str "the IXFR Authority record is not a SOA"
  | XFR_SHAPE_ADDITIONAL => str "malformed or unexpected Additional record"
  | XFR_SHAPE_TRAILING => str "trailing octets after the last record"
  end.

(** ** Specification *)

(** An uncompressed name: its labels and the offset behind it. *)
Inductive plain (packet : list Z) (packet_len : Z) : Z -> list (list Z) -> Z -> Prop :=
| plain_root p : p < packet_len -> rd packet p = Ret 0 -> plain packet packet_len p [] (p + 1)
| plain_label p n l ls q :
    rd packet p = Ret n -> 1 <= n <= 63 -> p + 1 + n <= packet_len -> slice packet (p + 1) n = Ret l ->
    plain packet packet_len (p + 1 + n) ls q -> plain packet packet_len p (l :: ls) q.

(** ** Lemmas: the name of the question *)

(** A question as it is read: the text of the name, type and class. *)
Record question := Q { qn_name : list Z; qn_type : Z; qn_class : Z }.

Inductive questions_at (req : list Z) (req_len : Z) : nat -> Z -> list question -> Prop :=
| questions_nil p : questions_at req req_len 0 p []
| questions_cons n p nb next t c qs :
    expand_wire_name_to_buffer req req_len p DNS_NAME_TEXT_SIZE = Ret (nb, next) -> next + 4 <= req_len ->
    rd16 req next = Ret t -> rd16 req (next + 2) = Ret c -> questions_at req req_len n (next + 4) qs ->
    questions_at req req_len (S n) p (Q nb t c :: qs).

(** NOTIFY and UPDATE do not ask for the classes NONE and ANY. *)
Definition class_ok (opcode : Z) (q : question) : Prop := ~ ((opcode = 4 \/ opcode = 5) /\ (qn_class q = 254 \/ qn_class q = 255)).

(** One name, one class, no type twice. *)
Definition good_questions (opcode : Z) (qs : list question) : Prop :=
  Forall (class_ok opcode) qs /\ NoDup (map qn_type qs) /\
  forall q, head qs = Some q -> Forall (fun q' => map tolower (qn_name q) = map tolower (qn_name q') /\ qn_class q' = qn_class q) qs.

(** The options of an OPT record fill its RDATA exactly. *)
Inductive options_fill (req : list Z) (stop : Z) : Z -> Prop :=
| fill_done : options_fill req stop stop
| fill_option o l : o + 4 + l <= stop -> rd16 req (o + 2) = Ret l -> options_fill req stop (o + 4 + l) -> options_fill req stop o.

(** The additional section from [p] to [e], [n] records: at most one OPT
    (none any more if [opt]), and a TSIG or SIG(0) record in the last place. *)
Inductive additional_ok (req : list Z) (req_len : Z) : nat -> bool -> Z -> Z -> Prop :=
| additional_nil opt p : additional_ok req req_len 0 opt p p
| additional_opt n p r e :
    xfr_shape_rr req req_len p = Ret r -> rr_type r = 41 -> rr_rdata r = p + 11 -> rd req p = Ret 0 -> options_fill req (rr_end r) (rr_rdata r) ->
    additional_ok req req_len n true (rr_end r) e -> additional_ok req req_len (S n) false p e
| additional_sig opt p r :
    xfr_shape_rr req req_len p = Ret r -> rr_type r = 250 \/ rr_type r = 24 -> additional_ok req req_len 1 opt p (rr_end r).

(** A transfer request: a query with one plain question for AXFR or IXFR, for
    IXFR the SOA of the client's version, then the additional section up to
    the end of the message. *)
Definition transfer_request (req : list Z) (req_len qt qend serial : Z) : Prop :=
  DNS_HEADER_SIZE <= req_len <= XFR_REQUEST_MAX_LEN /\
  (exists b2 b3 ls, rd req 2 = Ret b2 /\ Z.land b2 128 = 0 /\ Z.land (Z.shiftr b2 3) 15 = 0 /\ rd req 3 = Ret b3 /\ Z.land b3 15 = 0 /\
     rd16 req 4 = Ret 1 /\ rd16 req 6 = Ret 0 /\ plain req req_len DNS_HEADER_SIZE ls (qend - 4)) /\
  qend <= req_len /\ rd16 req (qend - 4) = Ret qt /\
  exists ns ar p, rd16 req 8 = Ret ns /\ rd16 req 10 = Ret ar /\ additional_ok req req_len (Z.to_nat ar) false p req_len /\
    (qt = 252 /\ ns = 0 /\ p = qend /\ serial = 0 \/
     qt = 251 /\ ns = 1 /\ exists r, xfr_shape_rr req req_len qend = Ret r /\ rr_type r = 6 /\ p = rr_end r /\
       ixfr_request_client_serial req req_len qend = Ret serial).

(** Two reads of one octet, or two slices, give one value. *)
Ltac read_eq :=
  simplify_eq;
  repeat match goal with
  | H1 : ?o = Ret ?x, H2 : ?o = Ret ?y |- _ => assert_fails (constr_eq x y); assert (y = x) by congruence; clear H2; simplify_eq
  end.

Lemma rd16_nonneg buf i v : bytes buf -> rd16 buf i = Ret v -> 0 <= v.
Proof.
  intros Hb H. unfold rd16 in H. bind_inv H. bind_inv H. injection H as <-. apply (rd_byte _ _ _ Hb) in Ha, Ha0. unfold isbyte in *.
  apply Z.lor_nonneg. rewrite Z.shiftl_nonneg. lia.
Qed.

Section Packet.
Variables (packet : list Z) (packet_len : Z).
Hypothesis Hbytes : bytes packet.
Hypothesis Hlen : packet_len <= len packet.

Abbreviation plain_at := (plain packet packet_len).

Lemma plain_decodes p ls q : plain_at p ls q -> decodes packet packet_len (length ls) p ls /\ name_end packet p q.
Proof.
  induction 1 as [p Hp H0 | p n l ls q Hn Hr Hf Hs H [IH1 IH2]]; [split; [by apply decodes_root | by apply end_root] |].
  split; [| by eapply end_label]. cbn [length]. eapply decodes_label; try done. lia.
Qed.

Lemma plain_det p ls q ls' q' : plain_at p ls q -> plain_at p ls' q' -> ls = ls' /\ q = q'.
Proof.
  intros H. revert ls' q'. induction H as [p Hp H0 | p n l ls q Hn Hr Hf Hs H IH]; intros ls' q' H'.
  - inversion H'; read_eq; [done | lia].
  - inversion H' as [| p' n' l' ls2 q2 Hn' Hr' Hf' Hs' H2]; read_eq; [lia |]. destruct (IH _ _ H2) as [-> ->]. done.
Qed.

(** A name that is not compressed and decodes is plain. *)
Lemma compressed_spec fuel : forall p, 0 <= p -> packet_len - p < Z.of_nat fuel -> (0 < fuel)%nat ->
  exists c, name_compressed_from fuel packet packet_len p = Ret c /\
    (forall ls q, plain_at p ls q -> c = false) /\
    (c = false -> forall n ls, decodes packet packet_len n p ls -> exists q, plain_at p ls q).
Proof.
  induction fuel as [| f IH]; intros p Hp Hf Hf0; [lia |]. cbn [name_compressed_from].
  destruct (Z.ltb_spec p packet_len) as [Hlt | Hge].
  2: { exists false. split_and!; [done | done |]. intros _ n ls Hd. apply decodes_inv in Hd as [? _]; [lia | done]. }
  destruct (rd_ok packet packet_len Hbytes Hlen p) as (l & Hl & Hlb); [lia |]. rewrite Hl. cbn [obind].
  destruct (Z.eqb_spec l 0) as [-> | Hl0].
  { exists false. split_and!; [done | done |]. intros _ n ls Hd. apply decodes_inv in Hd as (_ & b & Hb & _ & Hd); [| done]. read_eq.
    destruct Hd as [(_ & _ & ->) | [(? & _) | (? & _)]]; [| lia | lia]. exists (p + 1). by apply plain_root. }
  destruct (Z.eqb_spec (Z.land l 192) 192) as [Hptr | Hnp].
  { exists true. split_and!; [done | | done]. intros ls q H. inversion H; read_eq. exfalso. apply octet_pointer in Hptr; [lia | done]. }
  destruct (Z.ltb_spec 63 l) as [Hbig | Hsmall].
  { exists false. split_and!; [done | done |]. intros _ n ls Hd. apply decodes_inv in Hd as (_ & b & Hb & _ & Hd); [| done]. read_eq.
    destruct Hd as [(? & _) | [(? & _) | (? & _)]]; [done | lia |]. exfalso. apply Hnp, octet_pointer; done. }
  unfold isbyte in Hlb. destruct (IH (p + (1 + l))) as (c & -> & H1 & H2); [lia | lia | lia |]. exists c. split; [done |].
  replace (p + (1 + l)) with (p + 1 + l) in * by lia. split.
  - intros ls q H. inversion H; read_eq. by eapply H1.
  - intros Hc n ls Hd. apply decodes_inv in Hd as (_ & b & Hb & _ & Hd); [| done]. read_eq.
    destruct Hd as [(? & _) | [(Hk & Hf' & n' & l' & ls' & -> & -> & Hs & Hd) | (? & _)]]; [done | | lia].
    destruct (H2 eq_refl _ _ Hd) as (q & Hq). exists q. by eapply plain_label.
Qed.

Lemma question_compressed : exists c, wire_question_name_compressed packet packet_len = Ret c /\
    (forall ls q, plain_at DNS_HEADER_SIZE ls q -> c = false) /\
    (c = false -> forall n ls, decodes packet packet_len n DNS_HEADER_SIZE ls -> exists q, plain_at DNS_HEADER_SIZE ls q).
Proof. apply compressed_spec; unfold DNS_HEADER_SIZE; lia. Qed.

Lemma plain_end p ls q : plain_at p ls q -> p < q <= packet_len.
Proof. induction 1; lia. Qed.

Lemma qname_loop_spec size fuel : DNS_NAME_TEXT_SIZE <= size -> forall p pre, 0 <= p -> packet_len - p < Z.of_nat fuel -> (0 < fuel)%nat -> len (wire_labels pre) <= 254 ->
  (exists ls q, qname_loop fuel packet packet_len size p (dotted pre) (1 + len (wire_labels pre)) = Ret (true, q, dotted (pre ++ ls)) /\
     plain_at p ls q /\ len (wire_labels (pre ++ ls)) <= 254) \/
  (exists o t, qname_loop fuel packet packet_len size p (dotted pre) (1 + len (wire_labels pre)) = Ret (false, o, t) /\
     forall ls q, plain_at p ls q -> 254 < len (wire_labels (pre ++ ls))).
Proof.
  intros Hsz. induction fuel as [| f IH]; intros p pre Hp Hf Hf0 Hpre; [lia |]. cbn [qname_loop]. unfold DNS_NAME_TEXT_SIZE in Hsz.
  destruct (Z.ltb_spec p packet_len) as [Hlt | Hge].
  2: { right. eexists _, _. split; [done |]. intros ls q H. apply plain_end in H. lia. }
  destruct (rd_ok packet packet_len Hbytes Hlen p) as (l & Hl & Hlb); [lia |]. rewrite Hl. cbn [obind]. unfold isbyte in Hlb.
  destruct (Z.eqb_spec l 0) as [-> | Hl0].
  { left. exists [], (p + 1). rewrite app_nil_r. split; [done |]. split; [by apply plain_root | done]. }
  destruct (Z.eqb_spec (Z.land l 192) 192) as [Hptr | Hnp].
  { right. eexists _, _. split; [done |]. intros ls q H. inversion H; read_eq. apply octet_pointer in Hptr; [lia | done]. }
  destruct (_ || _) eqn:E63.
  { right. eexists _, _. split; [done |]. intros ls q H. inversion H; read_eq. lia. }
  apply orb_false_iff in E63 as [E63 Efit].
  assert (exists lab, slice packet (p + 1) l = Ret lab /\ len lab = l) as (lab & Hs & Hll).
  { rewrite slice_in by lia. eexists. split; [done |]. rewrite length_take, length_drop. lia. }
  assert (wire_labels (pre ++ [lab]) = wire_labels pre ++ l :: lab) as Hw by (rewrite wire_labels_app, wire_labels_cons, Hll; cbn; by rewrite app_nil_r).
  assert (forall ls, len (wire_labels (pre ++ lab :: ls)) >= len (wire_labels pre) + 1 + l) as Hge.
  { intros ls. rewrite wire_labels_app, wire_labels_cons, !length_app. cbn [length]. rewrite length_app. lia. }
  destruct (Z.ltb_spec 255 (1 + len (wire_labels pre) + (1 + l))) as [Hbig | Hok].
  { right. eexists _, _. split; [done |]. intros ls q H. inversion H as [| p' n' l' ls2 q2 Hn' Hr' Hf' Hs' H2]; read_eq. specialize (Hge ls2). lia. }
  rewrite Hs. cbn [obind]. pose proof (length_dotted packet (pre ++ [lab])) as Hd. rewrite Hw in Hd. rewrite dotted_app in Hd.
  rewrite !length_app in Hd. cbn [length] in Hd. assert (dotted [lab] = label_text lab ++ [DOT]) as Hd1 by (unfold dotted; cbn; by rewrite app_nil_r).
  rewrite Hd1, length_app in Hd. cbn [length] in Hd. rewrite (proj2 (Z.ltb_lt _ _)) by lia. rewrite dns_label_to_text_spec by lia.
  rewrite (proj2 (Z.leb_le _ _)) by lia. rewrite (proj2 (Z.leb_gt _ _)) by lia.
  destruct (IH (p + 1 + l) (pre ++ [lab])) as [(ls & q & E & Hq & Hlim) | (o & t & E & Hno)]; [lia | lia | lia | rewrite Hw, length_app; cbn [length]; lia | |];
    rewrite Hw, dotted_app, Hd1, length_app in E; cbn [length] in E;
    replace (1 + Z.of_nat (length (wire_labels pre) + S (length lab))) with (1 + len (wire_labels pre) + (1 + l)) in E by lia; rewrite E.
  - left. exists (lab :: ls), q. rewrite <- app_assoc in Hlim |- *. split; [done |]. split; [| done]. apply (plain_label _ _ p l); [done | lia | lia | done | done].
  - right. eexists _, _. split; [done |]. intros ls q H. inversion H as [| p' n' l' ls2 q2 Hn' Hr' Hf' Hs' H2]; read_eq.
    specialize (Hno _ _ H2). by rewrite <- app_assoc in Hno.
Qed.

(** The plain name of the question, read by the general reader. *)
Lemma plain_expand ls q : plain_at DNS_HEADER_SIZE ls q -> len (wire_name ls) <= 255 ->
  expand_wire_name_to_buffer packet packet_len DNS_HEADER_SIZE DNS_NAME_TEXT_SIZE = Ret (expanded ls ++ [0], q).
Proof.
  intros Hp Hw. apply plain_decodes in Hp as [Hd He]. apply expand_spec; [done | done | unfold DNS_HEADER_SIZE; lia | lia |]. by eexists _, _.
Qed.

Lemma expand_plain t q : wire_question_name_compressed packet packet_len = Ret false ->
  expand_wire_name_to_buffer packet packet_len DNS_HEADER_SIZE DNS_NAME_TEXT_SIZE = Ret (t, q) ->
  exists ls, plain_at DNS_HEADER_SIZE ls q /\ len (wire_name ls) <= 255 /\ t = expanded ls ++ [0].
Proof.
  intros Hc He. apply expand_spec in He as (n & ls & Hd & Hw & -> & Hn); [| done | done | unfold DNS_HEADER_SIZE; lia | lia].
  destruct question_compressed as (c & Ec & _ & Hp). rewrite Hc in Ec. injection Ec as <-. destruct (Hp eq_refl _ _ Hd) as (q' & Hq').
  exists ls. split_and!; [| done | done]. assert (q' = q) as <-; [| done]. apply plain_decodes in Hq' as [_ Hn']. by eapply name_end_det.
Qed.

Lemma expanded_dotted ls : (if len (dotted ls) =? 0 then [DOT] else dotted ls) = expanded ls.
Proof.
  unfold expanded. destruct ls as [| l ls]; [done |]. assert (len (dotted (l :: ls)) <> 0); [| by rewrite (proj2 (Z.eqb_neq _ _))].
  unfold dotted. cbn [map concat]. rewrite !length_app. cbn [length]. lia.
Qed.

Lemma fast_question_spec size : DNS_NAME_TEXT_SIZE <= size ->
  exists q, parse_query_question_fast packet packet_len size = Ret q /\
    forall name qt qc e, q = QueryQuestion true name (Some (qt, qc, e)) <->
      wire_question_name_compressed packet packet_len = Ret false /\
      expand_wire_name_to_buffer packet packet_len DNS_HEADER_SIZE DNS_NAME_TEXT_SIZE = Ret (name ++ [0], e - 4) /\
      e <= packet_len /\ rd16 packet (e - 4) = Ret qt /\ rd16 packet (e - 2) = Ret qc.
Proof.
  intros Hsz. unfold parse_query_question_fast. assert ((size =? 0) = false) as -> by (unfold DNS_NAME_TEXT_SIZE in Hsz; lia). rewrite orb_false_r.
  destruct (Z.leb_spec packet_len DNS_HEADER_SIZE) as [Hs | Hs].
  { eexists. split; [done |]. intros name qt qc e. split; [done |]. intros (_ & He & _). unfold expand_wire_name_to_buffer in He.
    by rewrite (proj2 (Z.leb_le _ _) Hs) in He. }
  destruct (qname_loop_spec size (S (Z.to_nat packet_len)) Hsz DNS_HEADER_SIZE []) as [(ls & q & E & Hp & Hw) | (o & t & E & Hno)];
    [unfold DNS_HEADER_SIZE; lia | unfold DNS_HEADER_SIZE; lia | lia | done | |];
    change (dotted []) with (@nil Z) in E; change (1 + len (wire_labels [])) with 1 in E; rewrite E; cbn [obind negb].
  - cbn [app] in *. assert ((size <? 2) = false) as -> by (unfold DNS_NAME_TEXT_SIZE in Hsz; lia). rewrite andb_false_r, expanded_dotted.
    assert (len (wire_name ls) <= 255) as Hw' by (unfold wire_name; rewrite length_app; cbn [length]; lia).
    pose proof (plain_expand _ _ Hp Hw') as He. destruct question_compressed as (c & Ec & Hpc & _). rewrite (Hpc _ _ Hp) in Ec. pose proof (plain_end _ _ _ Hp) as Hq.
    destruct (Z.leb_spec (q + 4) packet_len) as [Hfit | Hno].
    + destruct (rd16_ok packet packet_len Hbytes Hlen q) as (qt & Eqt & _); [unfold DNS_HEADER_SIZE in *; lia | lia |].
      destruct (rd16_ok packet packet_len Hbytes Hlen (q + 2)) as (qc & Eqc & _); [unfold DNS_HEADER_SIZE in *; lia | lia |]. rewrite Eqt, Eqc. cbn [obind].
      eexists. split; [done |]. intros name qt' qc' e. split.
      * intros [= <- <- <- <-]. replace (q + 4 - 4) with q by lia. replace (q + 4 - 2) with (q + 2) by lia. done.
      * intros (_ & He' & _ & E1 & E2). rewrite He in He'. injection He' as Hn Hqe. apply app_inj_tail in Hn as [<- _].
        replace (e - 2) with (q + 2) in E2 by lia. rewrite <- Hqe in E1.
        assert (qt' = qt /\ qc' = qc /\ e = q + 4) as (-> & -> & ->) by (split_and!; [congruence | congruence | lia]). done.
    + eexists. split; [done |]. intros name qt' qc' e. split; [done |]. intros (_ & He' & Hle & _). rewrite He in He'. injection He' as _ Hqe. lia.
  - eexists. split; [done |]. intros name qt' qc' e. split; [done |]. intros (Hc & He & _). destruct (expand_plain _ _ Hc He) as (ls & Hp & Hw & _).
    specialize (Hno _ _ Hp). cbn [app] in Hno. unfold wire_name in Hw. rewrite length_app in Hw. cbn [length] in Hw. lia.
Qed.

(** *** The question section *)

Lemma class_ok_bool opcode q :
  negb (((opcode =? 4) || (opcode =? 5)) && ((qn_class q =? 254) || (qn_class q =? 255))) = true <-> class_ok opcode q.
Proof. unfold class_ok. lia. Qed.

Lemma read_question p : 0 <= p ->
  (exists nb next t c, expand_wire_name_to_buffer packet packet_len p DNS_NAME_TEXT_SIZE = Ret (nb, next) /\ next + 4 <= packet_len /\
     rd16 packet next = Ret t /\ rd16 packet (next + 2) = Ret c /\ p < next) \/
  ((expand_wire_name_to_buffer packet packet_len p DNS_NAME_TEXT_SIZE = Fail \/
    exists nb next, expand_wire_name_to_buffer packet packet_len p DNS_NAME_TEXT_SIZE = Ret (nb, next) /\ packet_len < next + 4) /\
   forall n qs, ~ questions_at packet packet_len (S n) p qs).
Proof.
  intros Hp. destruct (expand_defined packet packet_len Hbytes Hlen p DNS_NAME_TEXT_SIZE Hp) as [? ?].
  destruct (expand_wire_name_to_buffer packet packet_len p DNS_NAME_TEXT_SIZE) as [[nb next] | | |] eqn:E; try done.
  - apply expand_spec in E as Hx; [| done | done | done | lia]. destruct Hx as (n & ls & Hd & _ & _ & Hn).
    destruct (skip_complete packet packet_len Hbytes Hlen p n ls Hp Hd) as (next' & Hsk). pose proof (skip_next packet packet_len Hbytes Hlen p next' Hp Hsk) as Hlt.
    apply skip_sound in Hsk as [_ Hn']; [| done | done | done]. assert (next' = next) as -> by (by eapply name_end_det).
    destruct (Z.le_gt_cases (next + 4) packet_len) as [Hle | Hgt].
    + left. destruct (rd16_ok packet packet_len Hbytes Hlen next) as (t & Et & _); [lia | lia |].
      destruct (rd16_ok packet packet_len Hbytes Hlen (next + 2)) as (c & Ec & _); [lia | lia |]. eauto 10.
    + right. split; [right; by eexists _, _ |]. intros m qs Hq. inversion Hq; read_eq. lia.
  - right. split; [by left |]. intros m qs Hq. inversion Hq. congruence.
Qed.

(** The questions after the first. *)
Definition follow (opcode : Z) (f : list Z * Z) (seen : gset Z) (qs : list question) : Prop :=
  Forall (fun q => class_ok opcode q /\ map tolower (fst f) = map tolower (qn_name q) /\ qn_class q = snd f) qs /\
  NoDup (map qn_type qs) /\ Forall (fun q => qn_type q ∉ seen) qs.

Lemma walk_rest opcode qd f n : 1 < qd -> forall p i seen, 0 <= p ->
  exists ok k, walk_questions n packet packet_len opcode qd p i (Some f) seen = Ret (ok, k) /\ i <= k <= i + Z.of_nat n /\
    (ok = true <-> exists qs, questions_at packet packet_len n p qs /\ follow opcode f seen qs) /\ (ok = true -> k = i + Z.of_nat n).
Proof.
  intros Hqd. induction n as [| n IH]; intros p i seen Hp; cbn [walk_questions].
  { exists true, i. split_and!; [done | lia | lia | | intros; lia]. split; [| done]. intros _. exists []. split; [constructor |]. split_and!; constructor. }
  destruct (read_question p Hp) as [(nb & next & t & c & E & Hle & Et & Ec & Hlt) | [[E | (nb & next & E & Hgt)] Hno]]; rewrite E.
  2: { exists false, i. split_and!; [done | lia | lia | | done]. split; [done |]. intros (qs & Hqs & _). by apply Hno in Hqs. }
  2: { rewrite (proj2 (Z.ltb_lt _ _)) by done. exists false, i. split_and!; [done | lia | lia | | done]. split; [done |]. intros (qs & Hqs & _). by apply Hno in Hqs. }
  rewrite (proj2 (Z.ltb_ge _ _)) by lia. rewrite Et, Ec. cbn [obind]. destruct f as [fn fc]. rewrite (proj2 (Z.ltb_lt 1 qd)) by done.
  assert (forall qs, questions_at packet packet_len (S n) p qs <-> exists qs', qs = Q nb t c :: qs' /\ questions_at packet packet_len n (next + 4) qs') as Hqs.
  { intros qs. split; [| intros (qs' & -> & H); by econstructor]. intros H. inversion H as [| n' p' nb' next' t' c' qs2 E' Hle' Et' Ec' H2]; simplify_eq.
    rewrite E in E'. simplify_eq. rewrite Et in Et'. rewrite Ec in Ec'. simplify_eq. eauto. }
  destruct (negb _) eqn:Eok.
  - exists false, i. split_and!; [done | lia | lia | | done]. split; [done |]. intros (qs & (qs' & -> & _)%Hqs & Hfol & Hnd & Hseen). exfalso.
    apply Forall_cons in Hfol as [(Hc & Hn & Hcl) _]. apply Forall_cons in Hseen as [Hs _]. cbn [qn_name qn_type qn_class fst snd] in *.
    apply class_ok_bool in Hc. cbn [qn_class] in Hc. rewrite Hc in Eok. unfold strcaseeq in Eok. rewrite bool_decide_true in Eok by done.
    rewrite (proj2 (Z.eqb_eq _ _)) in Eok by done. rewrite bool_decide_false in Eok by done. done.
  - destruct (IH (next + 4) (i + 1) ({[t]} ∪ seen)) as (ok & k & E' & Hk & Hok & Hkk); [lia |]. exists ok, k. rewrite E'. split_and!; [done | lia | lia | | intros; specialize (Hkk ltac:(done)); lia].
    apply negb_false_iff in Eok. apply andb_true_iff in Eok as [Eok Hnin]. apply andb_true_iff in Eok as [Eok Hfc]. apply andb_true_iff in Eok as [Eok Hname].
    apply negb_true_iff, bool_decide_eq_false in Hnin. apply bool_decide_eq_true in Hname. apply Z.eqb_eq in Hfc.
    assert (class_ok opcode (Q nb t c)) as Hcok by (by apply class_ok_bool). rewrite Hok. split.
    + intros (qs' & Hq' & Hf1 & Hf2 & Hf3). exists (Q nb t c :: qs'). split; [apply Hqs; eauto |]. split_and!.
      * apply Forall_cons_2; [done | done].
      * cbn [map qn_type]. constructor; [| done]. intros (q & -> & Hq)%list_elem_of_fmap. rewrite Forall_forall in Hf3. specialize (Hf3 q Hq). set_solver.
      * apply Forall_cons_2; [done |]. eapply Forall_impl; [exact Hf3 |]. set_solver.
    + intros (qs & (qs' & -> & Hq')%Hqs & Hf1 & Hf2 & Hf3). exists qs'. split; [done |]. apply Forall_cons in Hf1 as [_ Hf1], Hf3 as [_ Hf3].
      cbn [map qn_type] in Hf2. apply NoDup_cons in Hf2 as [Hnt Hf2]. split_and!; [done | done |]. apply Forall_forall. intros q Hq. rewrite Forall_forall in Hf3.
      specialize (Hf3 q Hq). assert (qn_type q <> t); [| set_solver]. intros E3. apply Hnt. rewrite <- E3. by apply list_elem_of_fmap_2.
Qed.

Lemma questions_succ n p qs nb next t c :
  expand_wire_name_to_buffer packet packet_len p DNS_NAME_TEXT_SIZE = Ret (nb, next) -> next + 4 <= packet_len ->
  rd16 packet next = Ret t -> rd16 packet (next + 2) = Ret c ->
  questions_at packet packet_len (S n) p qs <-> exists qs', qs = Q nb t c :: qs' /\ questions_at packet packet_len n (next + 4) qs'.
Proof.
  intros E Hle Et Ec. split; [| intros (qs' & -> & H); by econstructor]. intros H.
  inversion H as [| n' p' nb' next' t' c' qs2 E' Hle' Et' Ec' H2]; read_eq. eauto.
Qed.

Lemma follow_good opcode nb t c qs :
  class_ok opcode (Q nb t c) -> follow opcode (nb, c) ({[t]} ∪ ∅) qs <-> good_questions opcode (Q nb t c :: qs).
Proof.
  intros Hc. unfold follow, good_questions. cbn [fst snd map qn_type head]. rewrite NoDup_cons, !Forall_cons. split.
  - intros (H1 & H2 & H3). split_and!; [done | | | done |].
    + eapply Forall_impl; [exact H1 |]. naive_solver.
    + intros (q & Eq & Hq)%list_elem_of_fmap. rewrite Forall_forall in H3. specialize (H3 q Hq). rewrite Eq in H3. set_solver.
    + intros q [= <-]. cbn [qn_name qn_class]. apply Forall_cons. split; [done |]. eapply Forall_impl; [exact H1 |]. naive_solver.
  - intros ([_ H1] & [Hn H2] & H3). specialize (H3 _ eq_refl). apply Forall_cons in H3 as [_ H3]. cbn [qn_name qn_class] in H3. split_and!.
    + rewrite Forall_forall in *. naive_solver.
    + done.
    + apply Forall_forall. intros q Hq E. assert (qn_type q = t) as Et by set_solver. apply Hn. rewrite <- Et. by apply list_elem_of_fmap_2.
Qed.

Lemma section_spec opcode qd : 12 <= packet_len -> 0 <= qd ->
  exists ok n, walk_questions (Z.to_nat qd) packet packet_len opcode qd DNS_HEADER_SIZE 0 None ∅ = Ret (ok, n) /\ 0 <= n <= qd /\ (ok = true -> n = qd) /\
    (ok = true <-> exists qs, questions_at packet packet_len (Z.to_nat qd) DNS_HEADER_SIZE qs /\ good_questions opcode qs).
Proof.
  intros Hl Hqd. destruct (Z.to_nat qd) as [| m] eqn:Em; cbn [walk_questions].
  { exists true, 0. split_and!; [done | lia | lia | lia |]. split; [| done]. intros _. exists []. split; [constructor |]. split_and!; [constructor | constructor | done]. }
  destruct (read_question DNS_HEADER_SIZE) as [(nb & next & t & c & E & Hle & Et & Ec & Hlt) | [[E | (nb & next & E & Hgt)] Hno]]; [unfold DNS_HEADER_SIZE; lia | rewrite E.. ].
  2: { exists false, 0. split_and!; [done | lia | lia | done |]. split; [done |]. intros (qs & Hqs & _). by apply Hno in Hqs. }
  2: { rewrite (proj2 (Z.ltb_lt _ _)) by done. exists false, 0. split_and!; [done | lia | lia | done |]. split; [done |]. intros (qs & Hqs & _). by apply Hno in Hqs. }
  rewrite (proj2 (Z.ltb_ge _ _)) by lia. rewrite Et, Ec. cbn [obind]. setoid_rewrite (fun qs => questions_succ m _ qs _ _ _ _ E Hle Et Ec).
  destruct (negb (negb _)) eqn:Ecls.
  - exists false, 0. split_and!; [done | lia | lia | done |]. split; [done |]. intros (qs & (qs' & -> & _) & Hg & _). apply Forall_cons in Hg as [Hg _].
    apply (class_ok_bool opcode (Q nb t c)) in Hg. cbn [qn_class] in Hg. by rewrite Hg in Ecls.
  - apply negb_false_iff in Ecls. apply (class_ok_bool opcode (Q nb t c)) in Ecls as Hc. destruct m as [| m].
    + cbn [walk_questions]. exists true, 1. assert (qd = 1) as -> by lia. split_and!; [done | lia | lia | done |]. split; [| done]. intros _. exists [Q nb t c].
      split; [exists []; split; [done | constructor] |]. split_and!; [by apply Forall_singleton | apply NoDup_singleton |].
      intros q [= <-]. by apply Forall_singleton.
    + rewrite (proj2 (Z.ltb_lt 1 qd)) by lia. destruct (walk_rest opcode qd (nb, c) (S m) ltac:(lia) (next + 4) 1 ({[t]} ∪ ∅)) as (ok & k & E' & Hk & Hok & Hkk); [unfold DNS_HEADER_SIZE in *; lia |].
      change (0 + 1) with 1. rewrite E'. exists ok, k. split_and!; [done | lia | lia | intros Ho; specialize (Hkk Ho); lia |]. rewrite Hok. split.
      * intros (qs & Hq & Hf). exists (Q nb t c :: qs). split; [by exists qs |]. by apply follow_good.
      * intros (qs & (qs' & -> & Hq) & Hg). exists qs'. split; [done |]. by apply follow_good.
Qed.

(** *** Transfer requests *)

Lemma shape_rr_spec p : 0 <= p ->
  defined (xfr_shape_rr packet packet_len p) /\
  forall r, xfr_shape_rr packet packet_len p = Ret r ->
    rr_start r = p /\ p < rr_rdata r - 9 /\ 0 <= rr_rdlen r /\ rr_end r <= packet_len.
Proof.
  intros Hp. unfold xfr_shape_rr, rr_end. destruct (skip_defined packet packet_len Hbytes Hlen p Hp) as [? ?].
  destruct (skip_wire_name packet packet_len p) as [n | | |] eqn:Es; try done; cbn [obind]. apply skip_next in Es; [| done | done | done].
  destruct (Z.ltb_spec packet_len (n + 10)); [done |]. destruct (rd16_ok packet packet_len Hbytes Hlen n) as (t & -> & _); [lia | lia |].
  destruct (rd16_ok packet packet_len Hbytes Hlen (n + 8)) as (l & -> & Hl); [lia | lia |]. cbn [obind].
  destruct (Z.ltb_spec packet_len (n + 10 + l)); [done |]. split; [done |]. intros r [= <-]. cbn. lia.
Qed.

Lemma opt_options_spec stop fuel : stop <= packet_len -> forall o, 0 <= o <= stop -> stop - o < Z.of_nat fuel ->
  exists ok, opt_options fuel packet o stop = Ret ok /\ (ok = true <-> options_fill packet stop o).
Proof.
  intros Hs. induction fuel as [| f IH]; intros o Ho Hf; [lia |]. cbn [opt_options]. destruct (Z.ltb_spec o stop) as [Hlt | Hge].
  2: { exists true. split; [done |]. split; [| done]. intros _. assert (o = stop) as -> by lia. constructor. }
  destruct (Z.ltb_spec stop (o + 4)) as [Hbig | Hok].
  { exists false. split; [done |]. split; [done |]. intros H. inversion H as [E | o' l Hle Hr H']; subst; [lia |].
    apply rd16_nonneg in Hr; [lia | done]. }
  destruct (rd16_ok packet packet_len Hbytes Hlen (o + 2)) as (l & El & Hl); [lia | lia |]. rewrite El. cbn [obind].
  assert (forall P, (options_fill packet stop (o + (4 + l)) <-> P) -> (o + (4 + l) <= stop) -> (options_fill packet stop o <-> P)) as Hstep.
  { intros P HP Hle. rewrite <- HP. replace (o + (4 + l)) with (o + 4 + l) in * by lia. split; [| by apply fill_option]. intros H. inversion H as [E | o' l' Hle' Hr H']; subst; [lia |].
    assert (l' = l) as -> by congruence. done. }
  destruct (Z.ltb_spec stop (o + (4 + l))) as [Hbig | Hfit].
  - exists false. split; [done |]. split; [done |]. intros H. inversion H as [E | o' l' Hle' Hr H']; subst; [lia |]. assert (l' = l) as -> by congruence. lia.
  - destruct (IH (o + (4 + l))) as (ok & -> & Hiff); [lia | lia |]. exists ok. split; [done |]. symmetry. apply Hstep; [symmetry; exact Hiff | lia].
Qed.

Lemma additional_spec n : forall p n_opt, 0 <= p -> 0 <= n_opt <= 1 ->
  exists r, additional n packet packet_len p n_opt = Ret r /\
    forall e, r = Some e <-> additional_ok packet packet_len n (0 <? n_opt) p e.
Proof.
  induction n as [| n IH]; intros p n_opt Hp Hn; cbn [additional].
  { exists (Some p). split; [done |]. intros e. split; [intros [= <-]; constructor |]. intros H. by inversion H. }
  destruct (shape_rr_spec p Hp) as [[? ?] Hr]. destruct (xfr_shape_rr packet packet_len p) as [r | | |] eqn:Er; try done.
  2: { exists None. split; [done |]. intros e. split; [done |]. intros H'. inversion H'; congruence. }
  destruct (Hr r eq_refl) as (Hst & Hrd & Hlen0 & Hend). rewrite Hst.
  assert (rr_end r = rr_rdata r + rr_rdlen r) as Hre by done.
  assert (forall e, (rr_type r = 41 -> ~ (n_opt = 0 /\ rr_rdata r = p + 11 /\ rd packet p = Ret 0 /\ options_fill packet (rr_end r) (rr_rdata r))) ->
    ((rr_type r = 250 \/ rr_type r = 24) -> n <> 0%nat) -> None = Some e <-> additional_ok packet packet_len (S n) (0 <? n_opt) p e) as Hnone.
  { intros e H41 Hsig. split; [done |]. intros H'. inversion H'; read_eq.
    - exfalso. apply H41; [done |]. split_and!; try done. lia.
    - exfalso. by apply Hsig. }
  destruct (Z.eqb_spec (rr_type r) 41) as [Et | Et].
  - assert (rr_type r <> 250 /\ rr_type r <> 24) as [? ?] by lia.
    destruct (_ || _) eqn:E1; [exists None; split; [done |]; intros e; apply Hnone; lia |]. apply orb_false_iff in E1 as [E1 E2].
    apply negb_false_iff, Z.eqb_eq in E2. destruct (rd_ok packet packet_len Hbytes Hlen p) as (b & Eb & _); [lia |]. rewrite Eb. cbn [obind].
    destruct (Z.eqb_spec b 0) as [-> | Hb]; cbn [negb].
    2: { exists None. split; [done |]. intros e. apply Hnone; [intros _ (_ & _ & Hx & _); congruence | lia]. }
    destruct (opt_options_spec (rr_end r) (S (Z.to_nat (rr_rdlen r))) Hend (rr_rdata r)) as (ok & -> & Hok); [lia | lia |]. cbn [obind]. destruct ok.
    + destruct (IH (rr_end r) (n_opt + 1)) as (res & -> & Hiff); [lia | lia |]. exists res. split; [done |]. intros e. rewrite Hiff.
      rewrite (proj2 (Z.ltb_lt _ _)) by lia. assert ((0 <? n_opt) = false) as -> by lia. split.
      * intros Ha. eapply additional_opt; try done. by apply Hok.
      * intros Ha. inversion Ha; read_eq; [done | lia].
    + exists None. split; [done |]. intros e. apply Hnone; [| lia]. intros _ (_ & _ & _ & Hf). by apply Hok in Hf.
  - destruct (_ && _) eqn:E1.
    + apply andb_true_iff in E1 as [E1 ->%Nat.eqb_eq]. cbn [additional]. exists (Some (rr_end r)). split; [done |]. intros e.
      assert (rr_type r = 250 \/ rr_type r = 24) as Hsig by lia. split; [intros [= <-]; by apply additional_sig |]. intros Ha. inversion Ha; read_eq; done.
    + exists None. split; [done |]. intros e. apply Hnone; [done |]. intros Hs ->. apply andb_false_iff in E1 as [E1 | E1]; [lia | done].
Qed.

Definition shape_result (o : outcome (xfr_shape_t * option (Z * Z * Z))) : Prop :=
  exists s r, o = Ret (s, r) /\ (s = XFR_SHAPE_OK <-> r <> None) /\
    forall qt qend serial, r = Some (qt, qend, serial) <-> transfer_request packet packet_len qt qend serial.

Lemma shape_refused s : s <> XFR_SHAPE_OK -> (forall qt qend serial, ~ transfer_request packet packet_len qt qend serial) -> shape_result (Ret (s, None)).
Proof. intros Hs Hno. exists s, None. split; [done |]. split; [split; [done | by intros []] |]. intros qt qend serial. split; [done |]. intros H. by apply Hno in H. Qed.

(** Refute a transfer request from what was read. *)
Ltac refuse :=
  apply shape_refused; [done |];
  let qt := fresh in let qend := fresh in let serial := fresh in
  intros qt qend serial (? & (? & ? & ? & ? & ? & ? & ? & ? & ? & ? & ?) & ? & ? & ? & ? & ? & ? & ? & ? & ?); read_eq.

(** The part behind the question. *)
Lemma rest_shape qt qend serial ar p : 0 <= p -> 0 <= ar ->
  (forall qt' qend' serial', transfer_request packet packet_len qt' qend' serial' <->
     (qt', qend', serial') = (qt, qend, serial) /\ additional_ok packet packet_len (Z.to_nat ar) false p packet_len) ->
  shape_result (let! r := additional (Z.to_nat ar) packet packet_len p 0 in
    match r with
    | None => Ret (XFR_SHAPE_ADDITIONAL, None)
    | Some p => if negb (p =? packet_len) then Ret (XFR_SHAPE_TRAILING, None) else Ret (XFR_SHAPE_OK, Some (qt, qend, serial))
    end).
Proof.
  intros Hp Har Hreq. destruct (additional_spec (Z.to_nat ar) p 0) as (r & -> & Hr); [done | lia |]. cbn [obind]. change (0 <? 0) with false in Hr.
  destruct r as [e |].
  - destruct (Z.eqb_spec e packet_len) as [-> | Hne]; cbn [negb].
    + eexists _, _. split; [done |]. split; [split; done |]. intros qt' qend' serial'. rewrite Hreq, <- Hr. naive_solver.
    + apply shape_refused; [done |]. intros qt' qend' serial' [_ Ha]%Hreq. apply Hr in Ha. congruence.
  - apply shape_refused; [done |]. intros qt' qend' serial' [_ Ha]%Hreq. by apply Hr in Ha.
Qed.

Lemma plain_skip ls q : plain_at DNS_HEADER_SIZE ls q -> skip_wire_name packet packet_len DNS_HEADER_SIZE = Ret q.
Proof.
  intros Hp. apply plain_decodes in Hp as [Hd Hn]. assert (0 <= DNS_HEADER_SIZE) as H0 by (unfold DNS_HEADER_SIZE; lia).
  destruct (skip_complete packet packet_len Hbytes Hlen _ _ _ H0 Hd) as (q' & Hq). rewrite Hq. f_equal.
  apply skip_sound in Hq as [_ Hn']; [| done | done | done]. by eapply name_end_det.
Qed.

Lemma shape_spec : shape_result (xfr_request_shape packet packet_len).
Proof.
  unfold xfr_request_shape. destruct (Z.ltb_spec packet_len DNS_HEADER_SIZE); [refuse; lia |].
  destruct (Z.ltb_spec XFR_REQUEST_MAX_LEN packet_len); [refuse; lia |]. unfold DNS_HEADER_SIZE in *.
  destruct (rd_ok packet packet_len Hbytes Hlen 2) as (b2 & E2 & _); [lia |]. rewrite E2. cbn [obind].
  destruct (Z.eqb_spec (Z.land b2 128) 0) as [Eqr |]; cbn [negb]; [| refuse; done].
  destruct (Z.eqb_spec (Z.land (Z.shiftr b2 3) 15) 0) as [Eop |]; cbn [negb]; [| refuse; done].
  destruct (rd_ok packet packet_len Hbytes Hlen 3) as (b3 & E3 & _); [lia |]. rewrite E3. cbn [obind].
  destruct (Z.eqb_spec (Z.land b3 15) 0) as [Erc |]; cbn [negb]; [| refuse; done].
  destruct (rd16_ok packet packet_len Hbytes Hlen 4) as (qd & Eqd & _); [lia | lia |]. rewrite Eqd. cbn [obind].
  destruct (rd16_ok packet packet_len Hbytes Hlen 6) as (an & Ean & _); [lia | lia |]. rewrite Ean. cbn [obind].
  destruct (rd16_ok packet packet_len Hbytes Hlen 8) as (ns & Ens & _); [lia | lia |]. rewrite Ens. cbn [obind].
  destruct (rd16_ok packet packet_len Hbytes Hlen 10) as (ar & Ear & Har); [lia | lia |]. rewrite Ear. cbn [obind].
  destruct (Z.eqb_spec qd 1) as [-> |]; cbn [negb]; [| refuse; done].
  destruct question_compressed as (c & Ec & Hcp & Hcd). rewrite Ec. cbn [obind].
  destruct c; [apply shape_refused; [done |]; intros qt qend serial (_ & (? & ? & ls & ? & ? & ? & ? & ? & ? & ? & Hpl) & _); by apply Hcp in Hpl |].
  destruct (skip_defined packet packet_len Hbytes Hlen 12) as [? ?]; [lia |].
  destruct (skip_wire_name packet packet_len 12) as [p | | |] eqn:Esk; try done; cbn [orelse].
  2: { apply shape_refused; [done |]. intros qt qend serial (_ & (? & ? & ls & ? & ? & ? & ? & ? & ? & ? & Hpl) & _). apply plain_skip in Hpl.
       unfold DNS_HEADER_SIZE in Hpl. congruence. }
  pose proof (skip_next packet packet_len Hbytes Hlen 12 p ltac:(lia) Esk) as Hp12.
  assert (exists ls, plain_at 12 ls p) as (ls & Hpl).
  { apply skip_sound in Esk as [(n & ls & Hd) Hn]; [| done | done | lia]. destruct (Hcd eq_refl _ _ Hd) as (q & Hq). exists ls.
    assert (q = p) as <-; [| done]. apply plain_decodes in Hq as [_ Hn']. by eapply name_end_det. }
  assert (forall qt qend serial, transfer_request packet packet_len qt qend serial -> qend = p + 4) as Hqend.
  { intros qt qend serial (_ & (? & ? & ls' & ? & ? & ? & ? & ? & ? & ? & Hpl') & _). destruct (plain_det _ _ _ _ _ Hpl Hpl') as [_ ->]. lia. }
  destruct (Z.ltb_spec packet_len (p + 4)); [apply shape_refused; [done |]; intros qt qend serial Hreq; apply Hqend in Hreq as Hq; destruct Hreq as (_ & _ & ? & _); lia |].
  destruct (rd16_ok packet packet_len Hbytes Hlen p) as (qt & Eqt & _); [lia | lia |]. rewrite Eqt. cbn [obind].
  assert (forall qt' qend serial, transfer_request packet packet_len qt' qend serial -> qt' = qt /\ qend = p + 4) as Hqt.
  { intros qt' qend serial Hreq. apply Hqend in Hreq as Hq. subst qend. destruct Hreq as (_ & _ & _ & E & _). replace (p + 4 - 4) with p in E by lia. split; [congruence | done]. }
  assert (forall qt' qend serial, transfer_request packet packet_len qt' qend serial ->
    an = 0 /\ (qt = 252 /\ ns = 0 \/ qt = 251 /\ ns = 1 /\ exists r, xfr_shape_rr packet packet_len (p + 4) = Ret r /\ rr_type r = 6 /\
      ixfr_request_client_serial packet packet_len (p + 4) = Ret serial)) as Hkind.
  { intros qt' qend serial Hreq. destruct (Hqt _ _ _ Hreq) as [-> ->]. destruct Hreq as (_ & (? & ? & ? & ? & ? & ? & ? & ? & ? & Han & ?) & _ & _ & ns' & ar' & p' & Hns & _ & _ & Hk).
    split; [congruence |]. assert (ns' = ns) as -> by congruence. destruct Hk as [(-> & -> & _) | (-> & -> & r & ? & ? & ? & ?)]; [by left | right; eauto 6]. }
  destruct (negb (qt =? 252) && negb (qt =? 251)) eqn:Eq; [apply shape_refused; [done |]; intros qt' qend serial Hreq; apply Hkind in Hreq as (_ & [? | ?]); lia |].
  destruct (Z.eqb_spec an 0) as [-> |]; cbn [negb]; [| apply shape_refused; [done |]; intros qt' qend serial Hreq; apply Hkind in Hreq as (? & _); lia].
  assert (exists b2 b3 ls, rd packet 2 = Ret b2 /\ Z.land b2 128 = 0 /\ Z.land (Z.shiftr b2 3) 15 = 0 /\ rd packet 3 = Ret b3 /\ Z.land b3 15 = 0 /\
     rd16 packet 4 = Ret 1 /\ rd16 packet 6 = Ret 0 /\ plain_at DNS_HEADER_SIZE ls (p + 4 - 4)) as Hhead.
  { exists b2, b3, ls. replace (p + 4 - 4) with p by lia. done. }
  destruct (Z.eqb_spec qt 252) as [-> | Hn252].
  - destruct (Z.eqb_spec ns 0) as [-> |]; cbn [negb]; [| apply shape_refused; [done |]; intros qt' qend serial Hreq; apply Hkind in Hreq as (_ & [? | ?]); lia].
    apply rest_shape; [lia | lia |]. intros qt' qend' serial'. split.
    + intros Hreq. destruct (Hqt _ _ _ Hreq) as [-> ->]. destruct Hreq as (_ & _ & _ & _ & ns' & ar' & p' & Hns & Har' & Ha & Hk). assert (ar' = ar) as -> by congruence.
      destruct Hk as [(_ & _ & -> & ->) | (? & _)]; [done | lia].
    + intros [[= -> -> ->] Ha]. split; [unfold DNS_HEADER_SIZE; lia |]. split; [done |]. split; [lia |]. replace (p + 4 - 4) with p by lia. split; [done |].
      exists 0, ar, (p + 4). split_and!; try done. by left.
  - assert (qt = 251) as -> by lia. destruct (Z.eqb_spec ns 1) as [-> |]; cbn [negb]; [| apply shape_refused; [done |]; intros qt' qend serial Hreq; apply Hkind in Hreq as (_ & [? | ?]); lia].
    destruct (shape_rr_spec (p + 4) ltac:(lia)) as [[? ?] Hr]. destruct (xfr_shape_rr packet packet_len (p + 4)) as [r | | |] eqn:Er; try done; cbn [orelse].
    2: { apply shape_refused; [done |]. intros qt' qend serial Hreq. apply Hkind in Hreq as (_ & [? | (_ & _ & r & ? & _)]); [lia | done]. }
    destruct (Hr r eq_refl) as (_ & Hrd & Hrl & Hend).
    destruct (Z.eqb_spec (rr_type r) 6) as [Et |]; cbn [negb].
    2: { apply shape_refused; [done |]. intros qt' qend serial Hreq. apply Hkind in Hreq as (_ & [? | (_ & _ & r' & [= <-] & ? & _)]); [lia | done]. }
    destruct (ixfr_serial_defined packet packet_len (p + 4) Hbytes Hlen ltac:(lia)) as [? ?].
    destruct (ixfr_request_client_serial packet packet_len (p + 4)) as [serial | | |] eqn:Ese; try done; cbn [orelse].
    2: { apply shape_refused; [done |]. intros qt' qend serial Hreq. apply Hkind in Hreq as (_ & [? | (_ & _ & r' & _ & _ & ?)]); [lia | done]. }
    apply rest_shape; [unfold rr_end; lia | lia |]. intros qt' qend' serial'. split.
    + intros Hreq. destruct (Hqt _ _ _ Hreq) as [-> ->]. destruct Hreq as (_ & _ & _ & _ & ns' & ar' & p' & Hns & Har' & Ha & Hk). assert (ar' = ar) as -> by congruence.
      destruct Hk as [(? & _) | (_ & _ & r' & Hr' & _ & -> & Hs')]; [lia |]. rewrite Er in Hr'. rewrite Ese in Hs'. simplify_eq. done.
    + intros [[= -> -> ->] Ha]. split; [unfold DNS_HEADER_SIZE; lia |]. split; [done |]. split; [lia |]. replace (p + 4 - 4) with p by lia. split; [done |].
      exists 1, ar, (rr_end r). split_and!; try done. right. split_and!; try done. by exists r.
Qed.

End Packet.

(** ** Properties *)

(** C39. The fast parser of the query path agrees with the general reader of
    names: it accepts a question exactly when its name is not compressed, the
    general reader accepts the name and type and class follow; it then yields
    the same text, type and class.  It reads nothing outside the message,
    whatever the message holds. *)
Theorem fast_question_agrees (packet : list Z) (packet_len qname_size : Z) :
  bytes packet -> packet_len <= len packet -> DNS_NAME_TEXT_SIZE <= qname_size ->
  exists q, parse_query_question_fast packet packet_len qname_size = Ret q /\
    forall name qt qc e, q = QueryQuestion true name (Some (qt, qc, e)) <->
      wire_question_name_compressed packet packet_len = Ret false /\
      expand_wire_name_to_buffer packet packet_len DNS_HEADER_SIZE DNS_NAME_TEXT_SIZE = Ret (name ++ [0], e - 4) /\
      e <= packet_len /\ rd16 packet (e - 4) = Ret qt /\ rd16 packet (e - 2) = Ret qc.
Proof. intros Hb Hl Hs. by apply fast_question_spec. Qed.

Definition sample_query : list Z := [0; 1; 0; 0; 0; 1; 0; 0; 0; 0; 0; 0] ++ [1; 97; 2; 98; 46; 0] ++ [0; 252; 0; 1].

Lemma fast_question_agrees_witness :
  exists q, parse_query_question_fast sample_query 22 1025 = Ret q /\ q = QueryQuestion true (str "a.b\..") (Some (252, 1, 22)).
Proof.
  destruct (fast_question_agrees sample_query 22 1025) as (q & E & Hq); [bytes_lit | done | done |].
  exists q. split; [exact E |]. apply Hq. vm_compute. done.
Defined.

(** The question section of a message is accepted exactly when it is
    empty, or its first name is not compressed and every question can be
    read, all have one name (without regard to case) and one class, no type
    is asked twice, and a NOTIFY or UPDATE asks for no class NONE or ANY.  The
    number of questions an error answer echoes never exceeds QDCOUNT. *)
Theorem question_section_accepted (req : list Z) (req_len b2 qd : Z) :
  bytes req -> req_len <= len req -> DNS_HEADER_SIZE <= req_len -> rd req 2 = Ret b2 -> rd16 req 4 = Ret qd ->
  let opcode := Z.land (Z.shiftr b2 3) 15 in
  (exists ok, dns_question_section_ok req req_len = Ret ok /\
     (ok = true <-> qd = 0 \/ wire_question_name_compressed req req_len = Ret false /\
        exists qs, questions_at req req_len (Z.to_nat qd) DNS_HEADER_SIZE qs /\ good_questions opcode qs)) /\
  (exists n, dns_error_qd_echo req req_len = Ret n /\ 0 <= n <= qd).
Proof.
  intros Hb Hl H12 E2 Eqd opcode. pose proof (rd16_nonneg _ _ _ Hb Eqd) as Hqd.
  assert (exists ok n, question_section_walk req req_len = Ret (ok, n) /\ 0 <= n <= qd /\ (ok = true <-> qd = 0 \/ wire_question_name_compressed req req_len = Ret false /\
    exists qs, questions_at req req_len (Z.to_nat qd) DNS_HEADER_SIZE qs /\ good_questions opcode qs)) as (ok & n & Ew & Hn & Hok).
  { unfold question_section_walk. rewrite E2, Eqd. cbn [obind]. destruct (Z.eqb_spec qd 0) as [-> | Hne]; [exists true, 0; split_and!; done || lia || (split; [by left | done]) |].
    destruct (question_compressed req req_len Hb Hl) as (c & -> & _). cbn [obind]. destruct c; [exists false, 0; split_and!; [done | lia | lia |]; split; [done |]; intros [? | [? _]]; done |].
    destruct (section_spec req req_len Hb Hl opcode qd H12 Hqd) as (ok & n & E & Hn & _ & Hok). exists ok, n. split; [exact E |]. split; [done |]. rewrite Hok. naive_solver. }
  unfold dns_question_section_ok, dns_error_qd_echo. rewrite (proj2 (Z.ltb_ge _ _)) by lia. rewrite E2, Ew. cbn [obind]. split; [by exists ok |].
  destruct (_ && _ && _); [by exists 0 |]. eexists. split; [done |]. case_if; lia.
Qed.

Lemma question_section_accepted_witness : exists ok, dns_question_section_ok sample_query 22 = Ret ok /\ ok = true.
Proof.
  destruct (question_section_accepted sample_query 22 0 1) as [(ok & E & Hok) _]; [bytes_lit | done | done | done | done |].
  exists ok. split; [exact E |]. apply Hok. right. split; [vm_compute; done |]. eexists. split.
  - eapply questions_cons; [vm_compute; reflexivity | done | vm_compute; reflexivity | vm_compute; reflexivity | constructor].
  - split_and!; [apply Forall_singleton; intros [[? | ?] _]; done | apply NoDup_singleton |]. intros q [= <-]. by apply Forall_singleton.
Defined.

(** A request is taken for a transfer request exactly when it is one: a
    query with one uncompressed AXFR or IXFR question, no answers, for IXFR the
    SOA of the client's version, and an additional section that holds at most
    one OPT record (owned by the root, its options filling it) and a TSIG or
    SIG(0) record at the end, with nothing behind it.  Every message, however
    malformed, is classified without reading outside it. *)
Theorem transfer_request_shape (packet : list Z) (packet_len : Z) :
  bytes packet -> packet_len <= len packet ->
  exists s r, xfr_request_shape packet packet_len = Ret (s, r) /\ (s = XFR_SHAPE_OK <-> r <> None) /\
    forall qt qend serial, r = Some (qt, qend, serial) <-> transfer_request packet packet_len qt qend serial.
Proof. intros Hb Hl. exact (shape_spec packet packet_len Hb Hl). Qed.

Lemma transfer_request_shape_witness :
  exists s r, xfr_request_shape sample_query 22 = Ret (s, r) /\ transfer_request sample_query 22 252 22 0.
Proof.
  destruct (transfer_request_shape sample_query 22) as (s & r & E & _ & Hr); [bytes_lit | done |]. exists s, r. split; [exact E |].
  apply Hr. vm_compute in E. congruence.
Defined.

End Question.
