(* ===== verification/TypeName.v ===== *)
(** * Record type and class names (dns_utils.c)

    The mnemonics of record types, both ways: [get_type_code] reads one (a
    [switch] on the first letter with a chain of [strcmp], [TYPE<number>] for
    the others), [format_type_name] writes one (a binary search in a sorted
    table). Besides these: the class and response code names, hexadecimal
    text and RFC 1982 serial numbers. *)

From S2P Require Import Prelude CLib.

Module TypeName.
Import CLib.

(** ** Operations *)

Definition is_meta_rrtype (type_code : Z) : bool :=
  (type_code =? 41) || (type_code =? 128) || ((249 <=? type_code) && (type_code <=? 255)).

Local Open Scope string_scope.
Local Open Scope Z_scope.

(** The comparisons of [type_code_upper], by the first letter. *)
Definition mnemonics_A_M (c : Z) : list (string * Z) :=
  if c =? 65 (* 'A' *) then
        [("A", 1); ("AAAA", 28); ("AFSDB", 18); ("ATMA", 34); ("A6", 38); ("APL", 42); ("ANY", 255); ("AVC", 258);
     ("AMTRELAY", 260); ("AXFR", 252)]
  else if c =? 66 (* 'B' *) then
    [("BRID", 68)]
  else if c =? 67 (* 'C' *) then
    [("CNAME", 5); ("CERT", 37); ("CDS", 59); ("CDNSKEY", 60); ("CSYNC", 62); ("CAA", 257)]
  else if c =? 68 (* 'D' *) then
    [("DS", 43); ("DNAME", 39); ("DNSKEY", 48); ("DHCID", 49); ("DOA", 259); ("DLV", 32769); ("DSYNC", 66)]
  else if c =? 69 (* 'E' *) then
    [("EID", 31); ("EUI48", 108); ("EUI64", 109)]
  else if c =? 71 (* 'G' *) then
    [("GPOS", 27); ("GID", 102)]
  else if c =? 72 (* 'H' *) then
    [("HINFO", 13); ("HTTPS", 65); ("HIP", 55); ("HHIT", 67)]
  else if c =? 73 (* 'I' *) then
    [("ISDN", 20); ("IPSECKEY", 45); ("IXFR", 251)]
  else if c =? 75 (* 'K' *) then
    [("KEY", 25); ("KX", 36)]
  else if c =? 76 (* 'L' *) then
    [("LOC", 29); ("L32", 105); ("L64", 106); ("LP", 107)]
  else if c =? 77 (* 'M' *) then
    [("MX", 15); ("MD", 3); ("MF", 4); ("MB", 7); ("MG", 8); ("MR", 9); ("MINFO", 14); ("MAILB", 253); ("MAILA", 254)]
  else [].

Definition mnemonics_N_Z (c : Z) : list (string * Z) :=
  if c =? 78 (* 'N' *) then
        [("NS", 2); ("NULL", 10); ("NSAP", 22); ("NSAP-PTR", 23); ("NXT", 30); ("NIMLOC", 32); ("NXNAME", 128);
     ("NAPTR", 35); ("NSEC", 47); ("NSEC3", 50); ("NSEC3PARAM", 51); ("NINFO", 56); ("NID", 104)]
  else if c =? 79 (* 'O' *) then
    [("OPT", 41); ("OPENPGPKEY", 61)]
  else if c =? 80 (* 'P' *) then
    [("PTR", 12); ("PX", 26)]
  else if c =? 82 (* 'R' *) then
    [("RP", 17); ("RT", 21); ("RKEY", 57); ("RRSIG", 46); ("RESINFO", 261)]
  else if c =? 83 (* 'S' *) then
    [("SOA", 6); ("SRV", 33); ("SIG", 24); ("SINK", 40); ("SSHFP", 44); ("SMIMEA", 53); ("SVCB", 64); ("SPF", 99)]
  else if c =? 84 (* 'T' *) then
    [("TXT", 16); ("TLSA", 52); ("TALINK", 58); ("TKEY", 249); ("TSIG", 250); ("TA", 32768)]
  else if c =? 85 (* 'U' *) then
    [("URI", 256); ("UINFO", 100); ("UID", 101); ("UNSPEC", 103)]
  else if c =? 87 (* 'W' *) then
    [("WKS", 11); ("WALLET", 262)]
  else if c =? 88 (* 'X' *) then
    [("X25", 19)]
  else if c =? 90 (* 'Z' *) then
    [("ZONEMD", 63)]
  else [].

Definition TYPE_NAMES : list (Z * string) :=
  [(1, "A"); (2, "NS"); (3, "MD"); (4, "MF"); (5, "CNAME"); (6, "SOA"); (7, "MB"); (8, "MG"); (9, "MR"); (10,
   "NULL"); (11, "WKS"); (12, "PTR"); (13, "HINFO"); (14, "MINFO"); (15, "MX"); (16, "TXT"); (17, "RP"); (18,
   "AFSDB"); (19, "X25"); (20, "ISDN"); (21, "RT"); (22, "NSAP"); (23, "NSAP-PTR"); (24, "SIG"); (25, "KEY");
   (26, "PX"); (27, "GPOS"); (28, "AAAA"); (29, "LOC"); (30, "NXT"); (31, "EID"); (32, "NIMLOC"); (33, "SRV");
   (34, "ATMA"); (35, "NAPTR"); (36, "KX"); (37, "CERT"); (38, "A6"); (39, "DNAME"); (40, "SINK"); (41, "OPT");
   (42, "APL"); (43, "DS"); (44, "SSHFP"); (45, "IPSECKEY"); (46, "RRSIG"); (47, "NSEC"); (48, "DNSKEY"); (49,
   "DHCID"); (50, "NSEC3"); (51, "NSEC3PARAM"); (52, "TLSA"); (53, "SMIMEA"); (55, "HIP"); (56, "NINFO"); (57,
   "RKEY"); (58, "TALINK"); (59, "CDS"); (60, "CDNSKEY"); (61, "OPENPGPKEY"); (62, "CSYNC"); (63, "ZONEMD"); (64,
   "SVCB"); (65, "HTTPS"); (66, "DSYNC"); (67, "HHIT"); (68, "BRID"); (99, "SPF"); (100, "UINFO"); (101, "UID");
   (102, "GID"); (103, "UNSPEC"); (104, "NID"); (105, "L32"); (106, "L64"); (107, "LP"); (108, "EUI48"); (109,
   "EUI64"); (128, "NXNAME"); (249, "TKEY"); (250, "TSIG"); (251, "IXFR"); (252, "AXFR"); (253, "MAILB"); (254,
   "MAILA"); (255, "ANY"); (256, "URI"); (257, "CAA"); (258, "AVC"); (259, "DOA"); (260, "AMTRELAY"); (261,
   "RESINFO"); (262, "WALLET"); (32768, "TA"); (32769, "DLV")].

Local Close Scope string_scope.

(** [strcmp(type_str, name) == 0] for the first entry that has it. *)
Fixpoint find_name (tab : list (string * Z)) (s : list Z) : option Z :=
  match tab with
  | [] => None
  | (name, code) :: tab' => if streq s (str name) then Some code else find_name tab' s
  end.

(** [strncmp(s, p, |p|) == 0]: what follows [p] in [s]. *)
Fixpoint after_prefix (p s : list Z) : option (list Z) :=
  match p, s with
  | [], _ => Some s
  | c :: p', d :: s' => if c =? d then after_prefix p' s' else None
  | _ :: _, [] => None
  end.

Definition type_code_upper (type_str : list Z) : Z :=
  match type_str with
  | [] => 0
  | c :: _ =>
      match find_name (if c <=? 77 then mnemonics_A_M c else mnemonics_N_Z c) type_str with
      | Some code => code
      | None =>
          match after_prefix (str "TYPE") type_str with
          | Some number =>
              let '(tval, endptr) := strtol number in
              if Nat.eqb (length endptr) 0 && (0 <? tval) && (tval <=? 65535) then tval else 0
          | None => 0
          end
      end
  end.

(** [char upper[24]]: a text of 24 characters or more is no type. *)
Definition get_type_code (type_str : list Z) : Z :=
  if 24 <=? len type_str then 0 else type_code_upper (map toupper type_str).

Fixpoint search_type (fuel : nat) (type left right : Z) : outcome (option string) :=
  match fuel with
  | O => NoFuel
  | S fuel' =>
      if left <=? right then
        let mid := left + (right - left) / 2 in
        match TYPE_NAMES !! Z.to_nat mid with
        | None => Oob
        | Some (t, name) =>
            if t =? type then Ret (Some name)
            else if t <? type then search_type fuel' type (mid + 1) right
            else search_type fuel' type left (mid - 1)
        end
      else Ret None
  end.

Definition lookup_type_name (type : Z) : outcome (option string) :=
  search_type (S (length TYPE_NAMES)) type 0 (len TYPE_NAMES - 1).

(** [snprintf(buf, buf_size, "%s%u", prefix, n)] *)
Definition numbered (prefix : string) (n buf_size : Z) : list Z :=
  take (Z.to_nat (buf_size - 1)) (str prefix ++ fmt_u n).

Definition format_type_name (type buf_size : Z) : outcome (list Z) :=
  let! n := lookup_type_name type in
  Ret (match n with Some name => str name | None => numbered "TYPE" type buf_size end).

(** The constructor function that checks the table before [main]. *)
Fixpoint type_names_sorted (tab : list (Z * string)) : bool :=
  match tab with
  | a :: (b :: _) as tab' => (fst a <? fst b) && type_names_sorted tab'
  | _ => true
  end.

Definition dns_class_text (qclass buf_size : Z) : list Z :=
  if qclass =? 1 then str "IN"
  else if qclass =? 3 then str "CH"
  else if qclass =? 4 then str "HS"
  else if qclass =? 254 then str "NONE"
  else if qclass =? 255 then str "ANY"
  else numbered "CLASS" qclass buf_size.

(** -1: not a hexadecimal digit. *)
Definition hex_char_to_val (c : Z) : Z :=
  if (48 <=? c) && (c <=? 57) then c - 48
  else if (97 <=? c) && (c <=? 102) then c - 97 + 10
  else if (65 <=? c) && (c <=? 70) then c - 65 + 10
  else -1.

(** [high] is the pending digit, -1 when there is none; other characters are
    skipped. *)
Fixpoint hex_decode_from (hex : list Z) (high : Z) (out : list Z) (out_cap : Z) : outcome (list Z) :=
  match hex with
  | [] => Ret out
  | h :: hex' =>
      let v := hex_char_to_val h in
      if v <? 0 then hex_decode_from hex' high out out_cap
      else if high <? 0 then hex_decode_from hex' v out out_cap
      else
        fail_if out_cap <=? len out ;;
        let! out := put out_cap out (u8 (Z.lor (Z.shiftl high 4) v)) in
        hex_decode_from hex' (-1) out out_cap
  end.

Definition hex_decode (hex : list Z) (out_cap : Z) : outcome (list Z) := hex_decode_from hex (-1) [] out_cap.

(** [(int32_t)(s1 - s2) > 0] *)
Definition serial_is_newer (s1 s2 : Z) : bool := 0 <? s32 (u32 (s1 - s2)).

(** ** Lemmas: the table and the binary search *)

Lemma type_names_sorted_lt tab : type_names_sorted tab = true ->
  forall i j a b, tab !! i = Some a -> tab !! j = Some b -> (i < j)%nat -> fst a < fst b.
Proof.
  induction tab as [| x tab IH]; [done |]. intros Hs i j a b Ha Hb Hij.
  destruct j as [| j]; [lia |]. cbn in Hb. destruct tab as [| y tab]; [done |]. cbn in Hs.
  apply andb_true_iff in Hs as [Hxy Hs]. destruct i as [| i]; cbn in Ha.
  - injection Ha as <-. destruct j as [| j]; [cbn in Hb; injection Hb as <-; lia |].
    pose proof (IH Hs 0%nat (S j) y b eq_refl Hb ltac:(lia)). lia.
  - apply (IH Hs i j); [done | done | lia].
Qed.

Lemma TYPE_NAMES_sorted i j a b :
  TYPE_NAMES !! i = Some a -> TYPE_NAMES !! j = Some b -> (i < j)%nat -> fst a < fst b.
Proof. apply type_names_sorted_lt. by vm_compute. Qed.

(** The names of the table, as a relation. *)
Definition named (type : Z) (name : string) : Prop := (type, name) ∈ TYPE_NAMES.

Lemma search_type_spec type fuel : forall left right,
  0 <= left -> right < len TYPE_NAMES -> (Z.to_nat (right - left + 1) < fuel)%nat ->
  (forall i name, TYPE_NAMES !! i = Some (type, name) -> left <= Z.of_nat i <= right) ->
  (exists name, search_type fuel type left right = Ret (Some name) /\ named type name) \/
  (search_type fuel type left right = Ret None /\ forall name, ~ named type name).
Proof.
  induction fuel as [| fuel IH]; intros left right Hl Hr Hf Hin; [lia |]. cbn [search_type].
  destruct (Z.leb_spec left right) as [Hle | Hgt].
  2: { right. split; [done |]. intros name [i Hi]%list_elem_of_lookup. apply Hin in Hi. lia. }
  set (mid := left + (right - left) / 2).
  assert (left <= mid <= right) as Hm by (unfold mid; pose proof (Z.div_le_upper_bound (right - left) 2 (right - left)); pose proof (Z.div_pos (right - left) 2); lia).
  destruct (lookup_lt_is_Some_2 TYPE_NAMES (Z.to_nat mid)) as [[t nm] Hnm]; [lia |]. rewrite Hnm.
  destruct (Z.eqb_spec t type) as [-> | Hne]; [left; exists nm; split; [done |]; by eapply list_elem_of_lookup_2 |].
  destruct (Z.ltb_spec t type) as [Hlt | Hge]; apply IH; try lia.
  - intros i name Hi. pose proof (Hin _ _ Hi). split; [| lia]. destruct (Z.le_gt_cases (mid + 1) (Z.of_nat i)); [done |].
    destruct (Z.eq_dec (Z.of_nat i) mid) as [E | ?]; [assert (i = Z.to_nat mid) as -> by lia; congruence |].
    pose proof (TYPE_NAMES_sorted _ _ _ _ Hi Hnm ltac:(lia)). cbn in *. lia.
  - intros i name Hi. pose proof (Hin _ _ Hi). split; [lia |]. destruct (Z.le_gt_cases (Z.of_nat i) (mid - 1)); [done |].
    destruct (Z.eq_dec (Z.of_nat i) mid) as [E | ?]; [assert (i = Z.to_nat mid) as -> by lia; congruence |].
    pose proof (TYPE_NAMES_sorted _ _ _ _ Hnm Hi ltac:(lia)). cbn in *. lia.
Qed.

Lemma lookup_type_name_spec type :
  (exists name, lookup_type_name type = Ret (Some name) /\ named type name) \/
  (lookup_type_name type = Ret None /\ forall name, ~ named type name).
Proof.
  apply search_type_spec; [lia | lia | lia |]. intros i name Hi%lookup_lt_Some. lia.
Qed.

(** ** Lemmas: reading *)

Lemma find_name_spec tab s t : find_name tab s = Some t -> exists name, (name, t) ∈ tab /\ s = str name.
Proof.
  induction tab as [| [name code] tab IH]; cbn [find_name]; [done |]. unfold streq. case_bool_decide as E.
  - intros [= ->]. exists name. split; [set_solver | done].
  - intros (nm & Hin & ->)%IH. exists nm. split; [set_solver | done].
Qed.

(** Every mnemonic that is read is the one of the table. *)
Definition mnemonics (c : Z) : list (string * Z) := if c <=? 77 then mnemonics_A_M c else mnemonics_N_Z c.

Lemma mnemonics_named c name t : (name, t) ∈ mnemonics c -> named t name.
Proof.
  assert (forall tab, forallb (fun '(name, t) => bool_decide ((t, name) ∈ TYPE_NAMES)) tab = true -> (name, t) ∈ tab -> named t name) as Htab.
  { intros tab Hall Hin%list_elem_of_In. rewrite forallb_forall in Hall. apply Hall in Hin. cbn in Hin. by apply bool_decide_eq_true in Hin. }
  unfold mnemonics, mnemonics_A_M, mnemonics_N_Z. case_ifs; apply Htab; by vm_compute.
Qed.

Lemma named_read t name : named t name -> get_type_code (str name) = t /\ map toupper (str name) = str name.
Proof.
  assert (forallb (fun '(t, name) => (get_type_code (str name) =? t) && bool_decide (map toupper (str name) = str name)) TYPE_NAMES = true) as H
    by by vm_compute.
  intros Hin%list_elem_of_In. rewrite forallb_forall in H. apply H in Hin. apply andb_true_iff in Hin as [Ht Hu].
  apply bool_decide_eq_true in Hu. split; [lia | done].
Qed.

Lemma after_prefix_Some p s r : after_prefix p s = Some r <-> s = p ++ r.
Proof.
  revert s. induction p as [| c p IH]; intros [| d s]; cbn [after_prefix app]; try naive_solver.
  destruct (Z.eqb_spec c d) as [-> | ?]; [rewrite IH |]; naive_solver.
Qed.

Lemma skip_spaces_digit s : starts_digit s = true -> skip_spaces s = s /\ sign s = (false, s).
Proof.
  destruct s as [| c s]; [done |]. cbn. unfold isspace, isdigit. intros Hd. case_ifs; [lia | done || lia..].
Qed.

(** [strtol] reads what ["%u"] writes. *)
Lemma strtol_fmt_u v rest : 0 <= v <= LONG_MAX -> starts_digit rest = false -> strtol (fmt_u v ++ rest) = (v, rest).
Proof.
  intros Hv Hr. destruct (digits_fmt_u v rest) as [Hd Hs]; [lia | done |].
  destruct (skip_spaces_digit _ Hs) as [Hsp Hsg]. unfold strtol. rewrite Hsp, Hsg, Hs, Hd. f_equal. lia.
Qed.

Lemma toupper_digits ds : Forall (fun c => isdigit c = true) ds -> map toupper ds = ds.
Proof.
  induction 1 as [| c ds Hc _ IH]; [done |]. cbn. rewrite IH. f_equal. unfold toupper, islower, isdigit in *. case_if; lia.
Qed.

(** No mnemonic starts with "TYPE". *)
Lemma find_name_TYPE r : find_name (mnemonics 84) (str "TYPE" ++ r) = None.
Proof.
  destruct (find_name _ _) as [t |] eqn:E; [| done]. apply find_name_spec in E as (name & Hin & Hs).
  assert (forallb (fun '(name, _) => match after_prefix (str "TYPE") (str name) with None => true | _ => false end) (mnemonics 84) = true) as H
    by by vm_compute.
  apply list_elem_of_In in Hin. rewrite forallb_forall in H. apply H in Hin.
  by rewrite (proj2 (after_prefix_Some (str "TYPE") (str name) r) (eq_sym Hs)) in Hin.
Qed.

Lemma type_code_upper_TYPE number t :
  strtol number = (t, []) -> 0 < t <= 65535 -> type_code_upper (str "TYPE" ++ number) = t.
Proof.
  intros Hs Ht. pose proof (find_name_TYPE number) as Hf.
  pose proof (proj2 (after_prefix_Some (str "TYPE") (str "TYPE" ++ number) number) eq_refl) as Hp.
  change (str "TYPE" ++ number) with (84 :: 89 :: 80 :: 69 :: number) in *. unfold type_code_upper.
  change (if 84 <=? 77 then mnemonics_A_M 84 else mnemonics_N_Z 84) with (mnemonics 84).
  rewrite Hf, Hp, Hs. cbn [length Nat.eqb andb]. by rewrite (proj2 (Z.ltb_lt _ _)), (proj2 (Z.leb_le _ _)) by lia.
Qed.

(** A decimal text of a 16-bit number has five digits at most. *)
Lemma fmt_u_short v : 0 <= v < 100000 -> len (fmt_u v) <= 5.
Proof.
  intros Hv. unfold fmt_u. generalize (S (Z.to_nat (Z.log2 v))). intros fuel.
  assert (forall (k : nat) v acc, 0 <= v < 10 ^ Z.of_nat k -> (0 < k)%nat -> forall fuel, len (dec_digits fuel v acc) <= Z.of_nat k + len acc) as H.
  { clear. intros k. induction k as [| k IH]; intros v acc Hv Hk fuel; [lia |]. destruct fuel as [| fuel]; cbn [dec_digits]; [cbn; lia |].
    destruct (Z.ltb_spec v 10); [cbn [length]; lia |]. rewrite Nat2Z.inj_succ, Z.pow_succ_r in Hv by lia.
    destruct k as [| k]; [cbn in Hv; lia |]. etrans; [apply IH; [split; [apply Z.div_pos; lia | apply Z.div_lt_upper_bound; lia] | lia] |].
    cbn [length]. lia. }
  specialize (H 5%nat v [] ltac:(cbn; lia) ltac:(lia) fuel). cbn [length] in H. lia.
Qed.

(** ** Properties *)

(** The texts that [get_type_code] takes for the type [t]. *)
Definition spells (t : Z) (s : list Z) : Prop :=
  (exists name, named t name /\ map toupper s = str name) \/
  (exists number, map toupper s = str "TYPE" ++ number /\ strtol number = (t, [])).

(** A type name round trips: for every 16-bit type other than 0, the
    name that is written is read back as the type, whatever the case of its
    letters, and a text read as the type is either its mnemonic or "TYPE"
    followed by the number. *)
Theorem type_name_roundtrip (t : Z) (s : list Z) :
  0 < t <= 65535 ->
  exists name, format_type_name t 16 = Ret name /\
    (map toupper s = name -> get_type_code s = t) /\
    (get_type_code s = t -> spells t s).
Proof.
  intros Ht. unfold format_type_name.
  assert (get_type_code s = t -> spells t s) as Hread.
  { unfold get_type_code, type_code_upper. case_if; [lia |]. unfold spells. destruct (map toupper s) as [| c u] eqn:Es; [lia |].
    change (if c <=? 77 then _ else _) with (mnemonics c). destruct (find_name _ _) as [code |] eqn:Ef.
    - intros ->. apply find_name_spec in Ef as (name & Hin & Hs). left. exists name. split; [by apply (mnemonics_named c) | done].
    - destruct (after_prefix _ _) as [number |] eqn:Ep; [| lia]. apply after_prefix_Some in Ep.
      destruct (strtol number) as [tval endptr] eqn:En. case_if; [| lia]. intros ->. right. exists number. split; [done |].
      apply andb_true_iff in E0 as [[E0 _]%andb_true_iff _]. apply Nat.eqb_eq, nil_length_inv in E0 as ->. done. }
  destruct (lookup_type_name_spec t) as [(name & -> & Hn) | [-> Hn]]; cbn [obind]; eexists; (split; [done |]); (split; [| done]).
  - intros Hs. destruct (named_read t name Hn) as [Hr Hu]. unfold get_type_code in *.
    assert (length s = length (str name)) as -> by (by rewrite <- Hs, length_map). by rewrite Hu in Hr; rewrite Hs.
  - assert (len (fmt_u t) <= 5) as Hf by (apply fmt_u_short; lia).
    destruct (fmt_u_digits t ltac:(lia)) as [Hd _]. unfold numbered. rewrite take_ge by (rewrite length_app; change (length (str "TYPE")) with 4%nat; lia).
    intros Hs. unfold get_type_code. assert (len s = len (map toupper s)) as -> by (by rewrite length_map). rewrite Hs.
    rewrite (proj2 (Z.leb_gt _ _)) by (rewrite length_app; change (length (str "TYPE")) with 4%nat; lia). apply type_code_upper_TYPE; [| lia].
    rewrite <- (app_nil_r (fmt_u t)). apply strtol_fmt_u; [unfold LONG_MAX; lia | done].
Qed.

Lemma type_name_roundtrip_witness :
  get_type_code (str "nsec3") = 50 /\ get_type_code (str "Type54") = 54 /\ spells 50 (str "nsec3").
Proof.
  destruct (type_name_roundtrip 50 (str "nsec3")) as (n & Hn & H1 & H2); [lia |]. vm_compute in Hn. injection Hn as <-.
  destruct (type_name_roundtrip 54 (str "Type54")) as (n & Hn & H3 & H4); [lia |]. vm_compute in Hn. injection Hn as <-.
  split_and!; [by apply H1 | by apply H3 | apply H2; by vm_compute].
Defined.

End TypeName.
