(* ===== verification/CanonOrder.v ===== *)
(** * The canonical order of names (dns_utils.c)

    RFC 4034 section 6.1 orders names by their labels from the right, each
    label as a string of octets with the letters in lower case. The order of
    the tree of a zone and of its NSEC chain is [compare_canonical_name],
    which compares the texts directly when they have no escapes and the wire
    forms otherwise. Both are shown to compute the order of the labels. *)

From S2P Require Import Prelude CLib.
From S2P Require Import DnsName NameText.

Module CanonOrder.
Import CLib DnsName NameText.

(** ** Operations *)

(** [while (d >= 0 && name[d] != '.') d--;] from [d = n - 1]. *)
Fixpoint last_dot (name : list Z) (n : nat) : outcome Z :=
  match n with
  | O => Ret (-1)
  | S d => let! c := rd name (Z.of_nat d) in if c =? DOT then Ret (Z.of_nat d) else last_dot name d
  end.

(** The first difference of [k] characters at [i1] and [i2], without case; 0
    when there is none. *)
Fixpoint first_diff (name1 name2 : list Z) (i1 i2 : Z) (k : nat) : outcome Z :=
  match k with
  | O => Ret 0
  | S k' =>
      let! c1 := rd name1 i1 in
      let! c2 := rd name2 i2 in
      let c1 := lc c1 in
      let c2 := lc c2 in
      if negb (c1 =? c2) then Ret (c1 - c2) else first_diff name1 name2 (i1 + 1) (i2 + 1) k'
  end.

(** The texts up to [p1] and [p2] are still to be compared. *)
Fixpoint compare_text (fuel : nat) (name1 name2 : list Z) (p1 p2 : Z) : outcome Z :=
  match fuel with
  | O => NoFuel
  | S fuel' =>
      if (0 <? p1) || (0 <? p2) then
        let! d1 := last_dot name1 (Z.to_nat p1) in
        let! d2 := last_dot name2 (Z.to_nat p2) in
        if p1 <=? 0 then Ret (-1)
        else if p2 <=? 0 then Ret 1
        else
          let len1 := p1 - d1 - 1 in
          let len2 := p2 - d2 - 1 in
          let! diff := first_diff name1 name2 (d1 + 1) (d2 + 1) (Z.to_nat (if len1 <? len2 then len1 else len2)) in
          if negb (diff =? 0) then Ret diff
          else if negb (len1 =? len2) then Ret (len1 - len2)
          else compare_text fuel' name1 name2 d1 d2
      else Ret 0
  end.

(** The length without a final dot. *)
Definition no_final_dot (name : list Z) : outcome Z :=
  let p := len name in
  if 0 <? p then let! c := rd name (p - 1) in Ret (if c =? DOT then p - 1 else p) else Ret p.

(** The offsets of the labels: [labels[n++] = &wire[p]]. *)
Fixpoint label_offsets (fuel : nat) (wire : list Z) (w p : Z) (labels : list Z) : outcome (list Z) :=
  match fuel with
  | O => NoFuel
  | S fuel' =>
      if p <? w then
        let! n := rd wire p in
        if n =? 0 then Ret labels
        else
          fail_if 128 <=? len labels ;;
          label_offsets fuel' wire w (p + 1 + n) (labels ++ [p])
      else Ret labels
  end.

(** The wire form in lower case, in [uint8_t wire[256]], and its labels. *)
Definition canonical_wire_labels (name : list Z) : outcome (list Z * list Z) :=
  let! '(wire, w) := write_uncompressed_name_ext (replicate 256 0) 0 256 name true in
  fail_if w <=? 0 ;;
  let! labels := label_offsets 129 wire w 0 [] in
  Ret (wire, labels).

(** [memcmp] and [strcmp]: the difference of the first octets that differ
    (only its sign is specified). *)
Fixpoint memcmp (a b : list Z) : Z :=
  match a, b with
  | x :: a', y :: b' => if x =? y then memcmp a' b' else x - y
  | _, _ => 0
  end.

Fixpoint strcmp (a b : list Z) : Z :=
  match a, b with
  | [], [] => 0
  | [], y :: _ => - y
  | x :: _, [] => x
  | x :: a', y :: b' => if x =? y then strcmp a' b' else x - y
  end.

(** The labels from the last: [l1] and [l2] are the offsets still to be
    compared, the last first. *)
Fixpoint compare_wire (w1 w2 : list Z) (l1 l2 : list Z) : outcome Z :=
  match l1, l2 with
  | [], [] => Ret 0
  | [], _ :: _ => Ret (-1)
  | _ :: _, [] => Ret 1
  | o1 :: l1', o2 :: l2' =>
      let! len1 := rd w1 o1 in
      let! len2 := rd w2 o2 in
      let n := if len1 <? len2 then len1 else len2 in
      let! a := slice w1 (o1 + 1) n in
      let! b := slice w2 (o2 + 1) n in
      let cmp := memcmp a b in
      if negb (cmp =? 0) then Ret cmp
      else if negb (len1 =? len2) then Ret (if len1 <? len2 then -1 else 1)
      else compare_wire w1 w2 l1' l2'
  end.

(** [Fail] of [canonical_wire_labels] is its [-1]: the comparison goes on. *)
Definition wire_or_invalid (o : outcome (list Z * list Z)) : outcome (option (list Z * list Z)) :=
  match o with Ret x => Ret (Some x) | Fail => Ret None | Oob => Oob | NoFuel => NoFuel end.

(** [None] is NULL. *)
Definition compare_canonical_name (name1 name2 : option (list Z)) : outcome Z :=
  match name1, name2 with
  | None, None => Ret 0
  | None, Some _ => Ret (-1)
  | Some _, None => Ret 1
  | Some name1, Some name2 =>
      match strchr BACKSLASH name1, strchr BACKSLASH name2 with
      | None, None =>
          let! p1 := no_final_dot name1 in
          let! p2 := no_final_dot name2 in
          compare_text (S (length name1)) name1 name2 p1 p2
      | _, _ =>
          let! c1 := wire_or_invalid (canonical_wire_labels name1) in
          let! c2 := wire_or_invalid (canonical_wire_labels name2) in
          match c1, c2 with
          | Some (w1, l1), Some (w2, l2) => compare_wire w1 w2 (rev l1) (rev l2)
          | None, None => Ret (strcmp name1 name2)
          | None, Some _ => Ret 1
          | Some _, None => Ret (-1)
          end
      end
  end.

(** ** Specification *)

(** A three-way comparison that is a total order. *)
Class Ordering {A} (cmp : A -> A -> comparison) : Prop := {
  cmp_eq : forall a b, cmp a b = Eq <-> a = b;
  cmp_swap : forall a b, cmp b a = CompOpp (cmp a b);
  cmp_lt_trans : forall a b c, cmp a b = Lt -> cmp b c = Lt -> cmp a c = Lt;
}.

(** Lexicographic: the absence of an element sorts first. *)
Fixpoint lex {A} (cmp : A -> A -> comparison) (a b : list A) : comparison :=
  match a, b with
  | [], [] => Eq
  | [], _ :: _ => Lt
  | _ :: _, [] => Gt
  | x :: a', y :: b' => match cmp x y with Eq => lex cmp a' b' | c => c end
  end.

#[export] Instance Z_Ordering : Ordering Z.compare.
Proof.
  split; [apply Z.compare_eq_iff | intros; apply Z.compare_antisym |].
  intros a b c. rewrite !Z.compare_lt_iff. lia.
Qed.

#[export] Instance lex_Ordering {A} (cmp : A -> A -> comparison) `{!Ordering cmp} : Ordering (lex cmp).
Proof.
  split.
  - induction a as [| x a IH]; intros [| y b]; cbn; try done. pose proof (cmp_eq x y) as Hxy.
    destruct (cmp x y); rewrite ?IH; naive_solver.
  - induction a as [| x a IH]; intros [| y b]; cbn; try done. rewrite (cmp_swap x y). destruct (cmp x y); cbn; [apply IH | done..].
  - induction a as [| x a IH]; intros [| y b] [| z c]; cbn; try done.
    destruct (cmp x y) eqn:Exy; try done.
    + apply cmp_eq in Exy as ->. destruct (cmp y z); [apply IH | done..].
    + intros _. destruct (cmp y z) eqn:Eyz; try done.
      * apply cmp_eq in Eyz as ->. by rewrite Exy.
      * intros _. by rewrite (cmp_lt_trans _ _ _ Exy Eyz).
Qed.

(** RFC 4034 section 6.1, on the labels of two names. *)
Definition canonical (ls1 ls2 : list (list Z)) : comparison :=
  lex (lex Z.compare) (rev (map (map lc) ls1)) (rev (map (map lc) ls2)).

(** The sign of a result of [int]. *)
Definition sign_of (r : Z) (c : comparison) : Prop := Z.compare r 0 = c.

(** ** Lemmas: two labels *)

(** What a comparison of the common length of two labels says. *)
Definition diff_of (d : Z) (x y : list Z) : Prop :=
  (d <> 0 /\ sign_of d (lex Z.compare x y)) \/
  (d = 0 /\ len x <> len y /\ sign_of (len x - len y) (lex Z.compare x y)) \/
  (d = 0 /\ len x = len y /\ x = y).

Lemma diff_of_head x y a b : x <> y -> diff_of (x - y) (x :: a) (y :: b).
Proof. intros Hne. left. split; [lia |]. unfold sign_of. cbn [lex]. destruct (Z.compare_spec x y); [lia | apply Z.compare_lt_iff; lia | apply Z.compare_gt_iff; lia]. Qed.

Lemma diff_of_cons d x a b : diff_of d a b -> diff_of d (x :: a) (x :: b).
Proof.
  unfold diff_of, sign_of. cbn [lex length]. rewrite Z.compare_refl.
  replace (Z.of_nat (S (length a)) - Z.of_nat (S (length b))) with (len a - len b) by lia.
  intros [? | [(? & ? & ?) | (? & ? & ->)]]; [by left | right; left; split_and!; (done || lia) | right; right; split_and!; (done || lia)].
Qed.

Lemma diff_of_nil x y : x = [] \/ y = [] -> diff_of 0 x y.
Proof.
  intros Hn. right. destruct x as [| a x], y as [| b y]; [right; done | left.. |naive_solver];
    (split_and!; [done | cbn [length]; lia |]); unfold sign_of; cbn [lex length].
  - apply Z.compare_lt_iff. lia.
  - apply Z.compare_gt_iff. lia.
Qed.

Lemma first_diff_spec x : forall y a1 a2 r1 r2,
  exists d, first_diff (a1 ++ x ++ r1) (a2 ++ y ++ r2) (len a1) (len a2) (Nat.min (length x) (length y)) = Ret d /\
    diff_of d (map lc x) (map lc y).
Proof.
  induction x as [| c x IH]; intros y a1 a2 r1 r2; [exists 0; split; [done | apply diff_of_nil; by left] |].
  destruct y as [| e y]; [exists 0; split; [done | apply diff_of_nil; by right] |].
  cbn [length Nat.min first_diff map app]. rewrite !rd_app_r, !Z.sub_diag, !rd_0 by lia. cbn [obind].
  destruct (Z.eqb_spec (lc c) (lc e)) as [E | E]; cbn [negb].
  - specialize (IH y (a1 ++ [c]) (a2 ++ [e]) r1 r2). rewrite <- !app_assoc, !length_app, !Nat2Z.inj_add in IH.
    destruct IH as (d & Hd & Hs). exists d. split; [exact Hd |]. rewrite E. by apply diff_of_cons.
  - eexists. split; [done |]. by apply diff_of_head.
Qed.

Lemma memcmp_spec x : forall y, diff_of (memcmp (take (Nat.min (length x) (length y)) x) (take (Nat.min (length x) (length y)) y)) x y.
Proof.
  induction x as [| c x IH]; intros y; [apply diff_of_nil; by left |].
  destruct y as [| e y]; [apply diff_of_nil; by right |]. cbn [length Nat.min take memcmp].
  destruct (Z.eqb_spec c e) as [-> | E]; [by apply diff_of_cons | by apply diff_of_head].
Qed.

(** How both loops go on from the comparison of a label. *)
Lemma canonical_snoc ls1 ls2 x y :
  canonical (ls1 ++ [x]) (ls2 ++ [y]) =
  match lex Z.compare (map lc x) (map lc y) with Eq => canonical ls1 ls2 | Lt => Lt | Gt => Gt end.
Proof. unfold canonical. by rewrite !map_app, !rev_app_distr. Qed.

Lemma sign_of_decided r c1 c2 : sign_of r c1 -> r <> 0 -> sign_of r match c1 with Eq => c2 | Lt => Lt | Gt => Gt end.
Proof. unfold sign_of. intros <- Hr. destruct (Z.compare_spec r 0); [lia | done..]. Qed.

(** ** Lemmas: the texts without escapes *)

(** The text in front of the last label. *)
Definition before_last (ls : list (list Z)) : list Z := match ls with [] => [] | _ => join_dots ls ++ [DOT] end.

Lemma join_dots_snoc ls x : join_dots (ls ++ [x]) = before_last ls ++ x.
Proof.
  unfold before_last. destruct ls as [| l ls]; [done |]. revert l. induction ls as [| l' ls IH]; intros l.
  - cbn. by rewrite <- app_assoc.
  - cbn [app join_dots] in *. rewrite IH. by rewrite <- !app_assoc.
Qed.

(** The position in front of which the labels [ls] are still to be compared. *)
Definition text_pos (ls : list (list Z)) (p : Z) : Prop := match ls with [] => p <= 0 | _ => p = len (join_dots ls) end.

Definition plain_label (l : list Z) : Prop := l <> [] /\ DOT ∉ l.

Lemma last_dot_spec ls x rest : DOT ∉ x ->
  last_dot (before_last ls ++ x ++ rest) (length (before_last ls ++ x)) = Ret (len (before_last ls) - 1).
Proof.
  revert rest. induction x as [| c x IH] using rev_ind; intros rest Hx.
  - rewrite app_nil_r. unfold before_last. destruct ls as [| l ls]; [done |]. rewrite length_app, Nat.add_1_r. cbn [last_dot].
    rewrite rd_app_l by (rewrite length_app; cbn; lia). rewrite rd_app_r, Z.sub_diag, rd_0 by lia. cbn [obind]. rewrite Z.eqb_refl. f_equal. lia.
  - rewrite not_elem_of_app, not_elem_of_cons in Hx. destruct Hx as (Hx & Hc & _).
    replace (length (before_last ls ++ x ++ [c])) with (S (length (before_last ls ++ x))) by (rewrite !length_app; cbn; lia).
    cbn [last_dot]. rewrite <- (app_assoc x [c] rest), (app_assoc (before_last ls) x), rd_app_r, Z.sub_diag by lia.
    cbn [app]. rewrite rd_0. cbn [obind]. rewrite (proj2 (Z.eqb_neq _ _)) by done. rewrite <- app_assoc. by apply IH.
Qed.

Lemma text_pos_snoc ls x p : x <> [] -> text_pos (ls ++ [x]) p -> p = len (before_last ls ++ x) /\ 0 < p.
Proof.
  intros Hx. destruct (ls ++ [x]) eqn:E; [by destruct ls |]. unfold text_pos. rewrite <- E, join_dots_snoc. intros ->.
  split; [done |]. rewrite length_app. destruct x; [done |]. cbn [length]. lia.
Qed.

Lemma text_pos_before ls : Forall plain_label ls -> text_pos ls (len (before_last ls) - 1).
Proof. destruct ls as [| l ls]; [done |]. intros _. unfold text_pos, before_last. rewrite length_app. cbn [length]. lia. Qed.

Lemma compare_text_spec ls1 : forall fuel ls2 p1 p2 r1 r2,
  Forall plain_label ls1 -> Forall plain_label ls2 -> text_pos ls1 p1 -> text_pos ls2 p2 -> (length ls1 < fuel)%nat ->
  exists r, compare_text fuel (join_dots ls1 ++ r1) (join_dots ls2 ++ r2) p1 p2 = Ret r /\ sign_of r (canonical ls1 ls2).
Proof.
  induction ls1 as [| x ls1 IH] using rev_ind; intros fuel ls2 p1 p2 r1 r2 H1 H2 Hp1 Hp2 Hf; (destruct fuel as [| fuel]; [lia |]); cbn [compare_text].
  { cbn in Hp1. rewrite (proj2 (Z.ltb_ge 0 p1)) by lia. cbn [orb].
    destruct ls2 as [| y ls2 _] using rev_ind; [cbn in Hp2; rewrite (proj2 (Z.ltb_ge 0 p2)) by lia; by exists 0 |].
    apply Forall_app in H2 as [_ H2]. apply Forall_cons_1 in H2 as [[Hy Hyd] _].
    destruct (text_pos_snoc ls2 y p2 Hy Hp2) as [-> Hpos]. rewrite (proj2 (Z.ltb_lt _ _)) by done.
    replace (Z.to_nat p1) with 0%nat by lia. cbn [last_dot obind]. rewrite join_dots_snoc, Nat2Z.id, <- app_assoc, last_dot_spec by done.
    cbn [obind]. rewrite (proj2 (Z.leb_le _ _)) by lia. exists (-1). split; [done |]. unfold canonical. rewrite map_app, rev_app_distr. done. }
  apply Forall_app in H1 as [H1 Hx]. apply Forall_cons_1 in Hx as [[Hx Hxd] _].
  destruct (text_pos_snoc ls1 x p1 Hx Hp1) as [-> Hpos1]. rewrite (proj2 (Z.ltb_lt _ _)) by done. cbn [orb].
  rewrite join_dots_snoc, Nat2Z.id, <- app_assoc, last_dot_spec by done. cbn [obind].
  destruct ls2 as [| y ls2 _] using rev_ind.
  { cbn in Hp2. replace (Z.to_nat p2) with 0%nat by lia. cbn [last_dot obind]. rewrite (proj2 (Z.leb_gt _ _)), (proj2 (Z.leb_le _ _)) by lia.
    exists 1. split; [done |]. unfold canonical. rewrite map_app, rev_app_distr. done. }
  apply Forall_app in H2 as [H2 Hy]. apply Forall_cons_1 in Hy as [[Hy Hyd] _].
  destruct (text_pos_snoc ls2 y p2 Hy Hp2) as [-> Hpos2]. rewrite !join_dots_snoc, Nat2Z.id, <- app_assoc, last_dot_spec by done. cbn [obind].
  rewrite !(proj2 (Z.leb_gt _ _)) by lia. rewrite !length_app, !Nat2Z.inj_add.
  replace (len (before_last ls1) + len x - (len (before_last ls1) - 1) - 1) with (len x) by lia.
  replace (len (before_last ls2) + len y - (len (before_last ls2) - 1) - 1) with (len y) by lia.
  rewrite !Z.sub_add. replace (Z.to_nat _) with (Nat.min (length x) (length y)) by (case_if; lia).
  destruct (first_diff_spec x y (before_last ls1) (before_last ls2) r1 r2) as (d & -> & Hd). cbn [obind]. rewrite canonical_snoc.
  unfold diff_of in Hd. rewrite !length_map in Hd. destruct Hd as [[Hne Hs] | [(-> & Hne & Hs) | (-> & He & Hxy)]].
  - rewrite (proj2 (Z.eqb_neq _ _)) by done. eexists. split; [done |]. exact (sign_of_decided _ _ _ Hs Hne).
  - cbn [Z.eqb negb]. rewrite (proj2 (Z.eqb_neq _ _)) by done. eexists. split; [done |]. exact (sign_of_decided _ _ _ Hs ltac:(lia)).
  - cbn [Z.eqb negb]. rewrite (proj2 (Z.eqb_eq _ _)) by done. cbn [negb]. rewrite (proj2 (cmp_eq _ _) Hxy).
    assert (forall ls z rest, Forall plain_label ls -> exists rest', before_last ls ++ z ++ rest = join_dots ls ++ rest') as Hre.
    { intros [| l ls] z rest _; [by eexists |]. unfold before_last. rewrite <- app_assoc. by eexists. }
    destruct (Hre ls1 x r1 H1) as [r1' ->], (Hre ls2 y r2 H2) as [r2' ->].
    apply IH; [done | done | by apply text_pos_before | by apply text_pos_before |]. rewrite length_app in Hf. cbn in Hf. lia.
Qed.

Lemma parse_label_plain p : forall acc l next, BACKSLASH ∉ p -> parse_label_from p acc = Ret (l, next) ->
  exists l', l = acc ++ l' /\ (DOT ∉ l') /\ p = l' ++ match next with None => [] | Some q => DOT :: q end.
Proof.
  induction p as [| c p IH]; intros acc l next Hb; cbn [parse_label_from].
  { intros [= <- <-]. exists []. rewrite app_nil_r. split_and!; [done | apply not_elem_of_nil | done]. }
  apply not_elem_of_cons in Hb as [Hc Hb]. rewrite (proj2 (Z.eqb_neq c _)) by done.
  destruct (Z.eqb_spec c DOT) as [-> | Hd].
  { intros [= <- <-]. exists []. rewrite app_nil_r. split_and!; [done | apply not_elem_of_nil | done]. }
  case_if; [done |]. intros (l' & -> & Hd' & ->)%IH; [| done]. exists (c :: l'). rewrite <- app_assoc. split_and!; [done | | done].
  apply not_elem_of_cons. done.
Qed.

(** Without escapes a text is its labels joined by dots. *)
Lemma parse_labels_plain fuel : forall p raw, BACKSLASH ∉ p -> parse_labels fuel (Some p) = Ret raw ->
  p = join_dots raw /\ Forall (fun l => DOT ∉ l) raw.
Proof.
  induction fuel as [| fuel IH]; intros p raw Hb; [done |]. cbn [parse_labels].
  destruct (parse_label p) as [[l next] | | |] eqn:El; cbn [obind]; try done.
  destruct (parse_labels fuel next) as [ls | | |] eqn:E; cbn [obind]; try done. intros [= <-].
  apply parse_label_plain in El as (l' & -> & Hd & ->); [| done]. cbn [app] in *. destruct next as [q |].
  - apply not_elem_of_app in Hb as [_ Hb]. apply not_elem_of_cons in Hb as [_ Hb]. pose proof (parse_labels_not_nil _ _ _ E) as Hne.
    destruct (IH _ _ Hb E) as [-> Hls]. split; [by destruct ls | by constructor].
  - assert (ls = []) as -> by (destruct fuel; cbn in E; congruence). rewrite app_nil_r. split; [done | by repeat constructor].
Qed.

Lemma normal_host raw : raw <> [] -> normal_labels raw = true ->
  Forall (fun l => l <> []) (host_labels raw) /\ List.filter nonempty raw = host_labels raw /\
  len (wire_name (host_labels raw)) <= 255 /\
  (raw = host_labels raw \/ raw = host_labels raw ++ [[]] \/ (host_labels raw = [] /\ raw = [[]; []])).
Proof.
  intros Hne Hn. unfold normal_labels, host_labels in *.
  case_bool_decide as H1; [subst; split_and!; [constructor | done | vm_compute; congruence | right; left; done] |].
  case_bool_decide as H2; [subst; split_and!; [constructor | done | vm_compute; congruence | right; right; done] |].
  cbn [orb] in *. apply andb_true_iff in Hn as [Hn Hlen].
  assert (List.filter nonempty (loop_labels raw) = loop_labels raw) as Hf.
  { clear -Hn. induction (loop_labels raw) as [| l ls IH]; [done |]. cbn in *. apply andb_true_iff in Hn as [-> Hn]. by rewrite IH. }
  split_and!.
  - apply Forall_forall. intros l Hl%list_elem_of_In. rewrite forallb_forall in Hn. apply Hn in Hl. by destruct l.
  - destruct (loop_labels_cases raw) as [E | E]; rewrite E at 1; [done |]. rewrite List.filter_app, Hf. cbn. by rewrite app_nil_r.
  - lia.
  - destruct (loop_labels_cases raw) as [E | E]; [by left | right; left; done].
Qed.

(** The text compared is that of the labels without the final dot. *)
Lemma no_final_dot_spec raw : raw <> [] -> normal_labels raw = true -> Forall (fun l => DOT ∉ l) raw ->
  Forall plain_label (host_labels raw) /\
  exists p rest, no_final_dot (join_dots raw) = Ret p /\ join_dots raw = join_dots (host_labels raw) ++ rest /\ text_pos (host_labels raw) p.
Proof.
  intros Hne Hn Hd. destruct (normal_host raw Hne Hn) as (Hnz & _ & _ & Hraw).
  assert (Forall plain_label (host_labels raw)) as Hp.
  { apply Forall_forall. intros l Hl. split; [by eapply (Forall_forall _ _) in Hnz |].
    apply (host_labels_Forall (fun l => DOT ∉ l)) in Hd. by eapply (Forall_forall _ _) in Hd. }
  split; [done |]. destruct Hraw as [E | [E | [E ->]]].
  - exists (len (join_dots raw)), []. rewrite app_nil_r, <- E. split_and!; [| done | by destruct raw].
    unfold no_final_dot. destruct (exists_last Hne) as (ls & x & Ex).
    rewrite Ex, join_dots_snoc. rewrite <- E, Ex in Hnz. apply Forall_app in Hnz as [_ Hx]. apply Forall_cons_1 in Hx as [Hx _].
    rewrite Ex in Hd. apply Forall_app in Hd as [_ Hxd]. apply Forall_cons_1 in Hxd as [Hxd _].
    destruct (exists_last Hx) as (x' & c & ->). rewrite app_assoc, length_app. cbn [length]. rewrite (proj2 (Z.ltb_lt _ _)) by lia.
    rewrite rd_app_r by lia. replace (_ - len (before_last ls ++ x')) with 0 by lia. rewrite rd_0. cbn [obind].
    rewrite (proj2 (Z.eqb_neq c DOT)); [done |]. intros ->. apply Hxd. set_solver.
  - destruct (decide (host_labels raw = [])) as [E0 | E0].
    + rewrite E0 in *. subst raw. exists 0, []. done.
    + exists (len (join_dots (host_labels raw))), [DOT].
      assert (join_dots raw = join_dots (host_labels raw) ++ [DOT]) as Ej.
      { rewrite E at 1. rewrite join_dots_snoc, app_nil_r. unfold before_last. by destruct (host_labels raw). }
      split_and!; [| done | by destruct (host_labels raw)]. unfold no_final_dot. rewrite Ej, length_app. cbn [length].
      rewrite (proj2 (Z.ltb_lt _ _)) by lia. rewrite rd_app_r by lia. replace (_ - len (join_dots (host_labels raw))) with 0 by lia.
      rewrite rd_0. cbn [obind]. rewrite Z.eqb_refl. f_equal. lia.
  - rewrite E. exists 0, [DOT]. done.
Qed.

(** ** Lemmas: the wire forms *)

(** The label [l] stands at [o]. *)
Definition label_at (wire : list Z) (o : Z) (l : list Z) : Prop := rd wire o = Ret (len l) /\ slice wire (o + 1) (len l) = Ret l.

Lemma label_at_app pre l rest : label_at (pre ++ len l :: l ++ rest) (len pre) l.
Proof.
  split; [rewrite rd_app_r, Z.sub_diag by lia; apply rd_0 |]. rewrite slice_in by (rewrite ?length_app; cbn [length]; rewrite ?length_app; lia).
  rewrite Z2Nat.inj_add, !Nat2Z.id by lia. change (Z.to_nat 1) with 1%nat. rewrite <- drop_drop, drop_app_length. cbn [drop]. by rewrite drop_0, take_app_length.
Qed.

Lemma label_offsets_spec ls : forall fuel pre rest acc w,
  Forall (fun l => l <> []) ls -> (length ls < fuel)%nat -> len acc + len ls <= 128 -> len pre + len (wire_labels ls) < w ->
  exists offs, label_offsets fuel (pre ++ wire_labels ls ++ 0 :: rest) w (len pre) acc = Ret (acc ++ offs) /\
    Forall2 (label_at (pre ++ wire_labels ls ++ 0 :: rest)) offs ls.
Proof.
  induction ls as [| l ls IH]; intros fuel pre rest acc w Hnz Hf Hn Hw; (destruct fuel as [| fuel]; [cbn in Hf; lia |]); cbn [label_offsets].
  - change (wire_labels []) with (@nil Z) in *. cbn [app length] in *. rewrite (proj2 (Z.ltb_lt _ _)) by lia.
    rewrite rd_app_r, Z.sub_diag, rd_0 by lia. cbn [obind Z.eqb]. exists []. rewrite app_nil_r. done.
  - apply Forall_cons_1 in Hnz as [Hl Hnz]. rewrite wire_labels_cons in *. cbn [length] in Hw, Hn, Hf. rewrite length_app in Hw.
    cbn [app]. rewrite <- app_assoc. rewrite (proj2 (Z.ltb_lt _ _)) by lia.
    rewrite rd_app_r, Z.sub_diag, rd_0 by lia. cbn [obind]. rewrite (proj2 (Z.eqb_neq (len l) 0)) by (destruct l; [done | cbn; lia]).
    rewrite (proj2 (Z.leb_gt _ _)) by lia.
    destruct (IH fuel (pre ++ len l :: l) rest (acc ++ [len pre]) w) as (offs & Ho & Hat);
      [done | lia | rewrite length_app; cbn; lia | rewrite length_app; cbn [length]; lia |].
    rewrite <- !app_assoc in Ho, Hat. cbn [app] in Ho, Hat. rewrite length_app in Ho. cbn [length] in Ho.
    replace (len pre + 1 + len l) with (Z.of_nat (length pre + S (length l))) by lia. rewrite Ho.
    exists (len pre :: offs). rewrite <- app_assoc. split; [done |]. constructor; [apply label_at_app | done].
Qed.

Lemma compare_wire_spec w1 w2 offs1 ls1 : Forall2 (label_at w1) offs1 ls1 -> forall offs2 ls2, Forall2 (label_at w2) offs2 ls2 ->
  exists r, compare_wire w1 w2 offs1 offs2 = Ret r /\ sign_of r (lex (lex Z.compare) ls1 ls2).
Proof.
  induction 1 as [| o1 l1 offs1 ls1 [Hr1 Hs1] H1 IH]; intros offs2 ls2 H2; destruct H2 as [| o2 l2 offs2 ls2 [Hr2 Hs2] H2]; cbn [compare_wire].
  1-3: by eexists.
  rewrite Hr1, Hr2. cbn [obind]. set (n := if len l1 <? len l2 then len l1 else len l2).
  assert (Z.to_nat n = Nat.min (length l1) (length l2)) as Hn by (unfold n; case_if; lia).
  assert (forall w o l, rd w o = Ret (len l) -> slice w (o + 1) (len l) = Ret l -> n <= len l -> slice w (o + 1) n = Ret (take (Z.to_nat n) l)) as Hsl.
  { intros w o l Hr Hs Hle. pose proof (rd_lt _ _ _ Hr) as Ho. unfold slice in *. case_if_in Hs; [| done]. injection Hs as Hs.
    assert (0 <= n) as Hn0 by (unfold n; case_if; lia). rewrite (proj2 (andb_true_iff _ _)) by lia.
    rewrite <- Hs, take_take. do 2 f_equal. lia. }
  rewrite (Hsl w1 o1 l1), (Hsl w2 o2 l2) by (done || (unfold n; case_if; lia)). cbn [obind]. rewrite Hn.
  cbn [lex]. destruct (memcmp_spec l1 l2) as [[Hne Hs] | [(-> & Hne & Hs) | (-> & He & ->)]].
  - rewrite (proj2 (Z.eqb_neq _ _)) by done. eexists. split; [done |]. exact (sign_of_decided _ _ _ Hs Hne).
  - cbn [Z.eqb negb]. rewrite (proj2 (Z.eqb_neq (len l1) _)) by done. eexists. split; [done |]. apply sign_of_decided; [| by case_if].
    unfold sign_of in *. rewrite <- Hs. case_if; [by rewrite (proj2 (Z.compare_lt_iff (_ - _) _)) by lia | by rewrite (proj2 (Z.compare_gt_iff (_ - _) _)) by lia].
  - cbn [Z.eqb negb]. rewrite Z.eqb_refl. cbn [negb]. rewrite (proj2 (cmp_eq l2 l2) eq_refl). by apply IH.
Qed.

Lemma length_wire_labels_le ls : Forall (fun l => l <> []) ls -> 2 * len ls <= len (wire_labels ls).
Proof.
  induction 1 as [| l ls Hl _ IH]; [done |]. rewrite wire_labels_cons. cbn [length]. rewrite length_app. destruct l; [done |]. cbn [length]. lia.
Qed.

Lemma wire_labels_lc ls : len (wire_labels (map (map lc) ls)) = len (wire_labels ls).
Proof.
  induction ls as [| l ls IH]; [done |]. cbn [map]. rewrite !wire_labels_cons. cbn [length]. rewrite !length_app, !length_map. lia.
Qed.

Lemma canonical_wire_labels_spec name raw : bytes name -> text_labels name = Ret raw -> normal_labels raw = true ->
  exists wire offs, canonical_wire_labels name = Ret (wire, offs) /\ Forall2 (label_at wire) offs (map (map lc) (host_labels raw)).
Proof.
  intros Hb Ht Hn. pose proof (parse_labels_not_nil _ _ _ Ht) as Hne. destruct (normal_host raw Hne Hn) as (Hnz & Hf & Hlen & _).
  unfold canonical_wire_labels. rewrite write_uncompressed_spec by (done || lia). rewrite Ht. unfold written_labels. rewrite Hf. cbv zeta.
  change (map (cased true)) with (map (map lc)). set (ls := map (map lc) (host_labels raw)).
  assert (len (wire_labels ls) = len (wire_labels (host_labels raw))) as El by apply wire_labels_lc.
  unfold wire_name in *. rewrite length_app in *. cbn [length] in *. rewrite !(proj2 (Z.leb_le _ _)) by lia. cbn [andb obind].
  rewrite (proj2 (Z.leb_gt _ _)) by lia.
  assert (Forall (fun l => l <> []) ls) as Hnl by (apply Forall_map; eapply Forall_impl; [exact Hnz |]; by intros []).
  pose proof (length_wire_labels_le ls Hnl) as H2.
  assert (splice (replicate 256 0) 0 (wire_labels ls ++ [0]) = [] ++ wire_labels ls ++ 0 :: drop (length (wire_labels ls ++ [0])) (replicate 256 0)) as ->
    by (unfold splice; cbn [Z.to_nat take app]; by rewrite <- app_assoc).
  set (rest := drop _ _).
  destruct (label_offsets_spec ls 129 [] rest [] (Z.of_nat (length (wire_labels ls) + 1))) as (offs & Ho & Hat);
    [done | lia | cbn [length]; lia | cbn [length]; lia |].
  cbn [app length] in *. change (Z.of_nat 0) with 0 in Ho. rewrite Ho. cbn [obind]. by eexists _, _.
Qed.

(** ** Both paths *)

(** A text that is a name: its labels. *)
Definition name_text (name : list Z) (ls : list (list Z)) : Prop :=
  bytes name /\ exists raw, text_labels name = Ret raw /\ normal_labels raw = true /\ ls = host_labels raw.

Lemma strchr_None c s : strchr c s = None <-> c ∉ s.
Proof.
  split.
  - induction s as [| x s IH]; cbn [strchr]; [intros; apply not_elem_of_nil |]. destruct (Z.eqb_spec x c) as [-> | Hne]; [done |].
    destruct (strchr c s) as [[? ?] |]; [done |]. intros _. apply not_elem_of_cons. split; [done | by apply IH].
  - destruct (strchr c s) as [[b a] |] eqn:E; [| done]. apply strchr_Some in E as [-> _]. set_solver.
Qed.

Lemma compare_spec n1 n2 ls1 ls2 : name_text n1 ls1 -> name_text n2 ls2 ->
  exists r, compare_canonical_name (Some n1) (Some n2) = Ret r /\ sign_of r (canonical ls1 ls2).
Proof.
  intros (Hb1 & raw1 & Ht1 & Hn1 & ->) (Hb2 & raw2 & Ht2 & Hn2 & ->). cbn [compare_canonical_name].
  assert (exists r, (let! c1 := wire_or_invalid (canonical_wire_labels n1) in let! c2 := wire_or_invalid (canonical_wire_labels n2) in
      match c1, c2 with
      | Some (w1, l1), Some (w2, l2) => compare_wire w1 w2 (rev l1) (rev l2)
      | None, None => Ret (strcmp n1 n2) | None, Some _ => Ret 1 | Some _, None => Ret (-1) end) = Ret r /\
      sign_of r (canonical (host_labels raw1) (host_labels raw2))) as Hwire.
  { destruct (canonical_wire_labels_spec n1 raw1) as (w1 & o1 & -> & H1); [done.. |].
    destruct (canonical_wire_labels_spec n2 raw2) as (w2 & o2 & -> & H2); [done.. |]. cbn [wire_or_invalid obind].
    unfold canonical. rewrite !rev_alt. apply compare_wire_spec; by apply Forall2_reverse. }
  destruct (strchr BACKSLASH n1) as [? |] eqn:E1; [done |]. destruct (strchr BACKSLASH n2) as [? |] eqn:E2; [done |]. clear Hwire.
  apply strchr_None in E1, E2.
  destruct (parse_labels_plain _ _ _ E1 Ht1) as [-> Hd1], (parse_labels_plain _ _ _ E2 Ht2) as [-> Hd2].
  pose proof (parse_labels_not_nil _ _ _ Ht1) as Hne1. pose proof (parse_labels_not_nil _ _ _ Ht2) as Hne2.
  destruct (no_final_dot_spec raw1) as (Hp1 & p1 & r1 & -> & Ej1 & Hpos1); [done.. |].
  destruct (no_final_dot_spec raw2) as (Hp2 & p2 & r2 & -> & Ej2 & Hpos2); [done.. |]. cbn [obind]. rewrite Ej1, Ej2.
  apply compare_text_spec; try done. rewrite length_app.
  assert (length (host_labels raw1) <= length (join_dots (host_labels raw1)))%nat; [| lia].
  clear -Hp1. induction Hp1 as [| l ls [Hl _] _ IH]; [done |]. destruct l as [| c l]; [done |].
  destruct ls as [| l' ls]; [cbn; lia |]. cbn [join_dots length] in *. rewrite length_app. cbn [length] in *. lia.
Qed.

(** ** Properties *)

(** C35. On names, the comparison always returns, and its sign is the
    canonical order of RFC 4034 of their labels, whether the texts are
    written with escapes or not. It is 0 exactly for names with the same
    labels (without case), it changes sign with the operands, and it is
    transitive. *)
Theorem canonical_name_order (n1 n2 n3 : list Z) (ls1 ls2 ls3 : list (list Z)) :
  name_text n1 ls1 -> name_text n2 ls2 -> name_text n3 ls3 ->
  exists r12 r21 r23 r13,
    compare_canonical_name (Some n1) (Some n2) = Ret r12 /\ compare_canonical_name (Some n2) (Some n1) = Ret r21 /\
    compare_canonical_name (Some n2) (Some n3) = Ret r23 /\ compare_canonical_name (Some n1) (Some n3) = Ret r13 /\
    sign_of r12 (canonical ls1 ls2) /\
    (r12 = 0 <-> map (map lc) ls1 = map (map lc) ls2) /\
    (r12 < 0 <-> 0 < r21) /\
    (r12 <= 0 -> r23 <= 0 -> r13 <= 0).
Proof.
  intros H1 H2 H3. destruct (compare_spec _ _ _ _ H1 H2) as (r12 & -> & S12), (compare_spec _ _ _ _ H2 H1) as (r21 & -> & S21),
    (compare_spec _ _ _ _ H2 H3) as (r23 & -> & S23), (compare_spec _ _ _ _ H1 H3) as (r13 & -> & S13).
  exists r12, r21, r23, r13. split_and!; [done.. | | |]; unfold sign_of, canonical in *.
  - rewrite <- Z.compare_eq_iff, S12, cmp_eq. split; [| by intros ->]. intros H%(f_equal (@rev _)). by rewrite !rev_involutive in H.
  - rewrite <- Z.compare_lt_iff, <- (Z.compare_gt_iff r21), S12, S21. rewrite (cmp_swap (rev (map (map lc) ls1))). by destruct (lex _ _ _).
  - assert (forall r c, (r ?= 0) = c -> r <= 0 <-> c <> Gt) as Hle by (intros r c <-; unfold Z.le; done).
    rewrite (Hle _ _ S12), (Hle _ _ S23), (Hle _ _ S13).
    clear. generalize (rev (map (map lc) ls1)) (rev (map (map lc) ls2)) (rev (map (map lc) ls3)). intros a b c N1 N2.
    destruct (lex (lex Z.compare) a b) eqn:Eab; [apply cmp_eq in Eab as ->; done | | done].
    destruct (lex (lex Z.compare) b c) eqn:Ebc; [apply cmp_eq in Ebc as <-; by rewrite Eab | | done].
    by rewrite (cmp_lt_trans _ _ _ Eab Ebc).
Qed.

Lemma canonical_name_order_witness :
  exists r12 r21 r23 r13,
    compare_canonical_name (Some (str "a.Example.")) (Some (str "\122.\101xample")) = Ret r12 /\
    compare_canonical_name (Some (str "\122.\101xample")) (Some (str "a.Example.")) = Ret r21 /\
    compare_canonical_name (Some (str "\122.\101xample")) (Some (str "Z.EXAMPLE")) = Ret r23 /\
    compare_canonical_name (Some (str "a.Example.")) (Some (str "Z.EXAMPLE")) = Ret r13 /\ r13 <= 0.
Proof.
  assert (forall n raw, bytes n -> text_labels n = Ret raw -> normal_labels raw = true -> name_text n (host_labels raw)) as Hname
    by (intros n raw ? ? ?; split; [done | by exists raw]).
  destruct (canonical_name_order (str "a.Example.") (str "\122.\101xample") (str "Z.EXAMPLE")
    (host_labels [str "a"; str "Example"; []]) (host_labels [str "z"; str "example"]) (host_labels [str "Z"; str "EXAMPLE"]))
    as (r12 & r21 & r23 & r13 & H12 & H21 & H23 & H13 & _ & _ & _ & Hle); [apply Hname; [bytes_lit | by vm_compute | by vm_compute].. |].
  exists r12, r21, r23, r13. split_and!; try done. vm_compute in H12, H23. injection H12 as <-. injection H23 as <-. apply Hle; lia.
Defined.

(** On texts that are not names the comparison is not an order, although its
    last case is there "to keep a total order": a label of 70 characters is
    before "b" (compared as text), "b" is before the label written "\099",
    and that one is before the 70 characters (not a name, so last). *)
Theorem canonical_order_cycle :
  let a := replicate 70 97 in let b := str "b" in let c := str "\099" in
  compare_canonical_name (Some a) (Some b) = Ret (-1) /\ compare_canonical_name (Some b) (Some c) = Ret (-1) /\
  compare_canonical_name (Some c) (Some a) = Ret (-1).
Proof. by vm_compute. Qed.

End CanonOrder.
