(* ===== verification/Edns.v ===== *)
(** * EDNS (dns_wire.c, dns_edns_ecs.c)

    [parse_edns_opt] finds the OPT record of a message and reads its options
    into an [edns_info_t]; [assemble_edns_opt] writes the OPT record of a
    response in the room that [edns_opt_reserve_len] kept free;
    [dns_build_error_response] and [build_not_ready_response] compose them. *)

From S2P Require Import Prelude CLib.
From S2P Require Import DnsName NameText WireName Question.

Module Edns.
Import CLib DnsName NameText WireName Question.

(** ** Data: [edns_info_t], its groups of fields as records *)

(** DNS cookie: [client_cookie] and [server_cookie] are arrays of 8 and 32
    octets. *)
Record cookie_t := Cookie {
  has_cookie : bool; has_malformed_cookie : bool; client_cookie : list Z; server_cookie : list Z; server_cookie_len : Z }.

(** [ede_text] is [char text[256]], read as a C string. *)
Record parsed_ede_t := Ede { ede_code : Z; ede_text : list Z }.

(** Multiple QTYPEs: the first [mqtype_count] of an array of 16. *)
Record mqtype_t := Mqtype {
  has_mqtype_query : bool; mqtype_query_duplicated : bool; saw_invalid_mqtype_response_in_query : bool; mqtypes : list Z }.

(** Client subnet: [ecs_addr] is an array of 16 octets. *)
Record ecs_t := EcsInfo {
  has_ecs : bool; has_malformed_ecs : bool; ecs_family : Z; ecs_source_prefix : Z; ecs_scope_prefix : Z; ecs_addr : list Z }.

Record ext_t := Ext { has_karidns_ext : bool; karidns_ext_version : Z; karidns_ext_hash : Z }.

Record expire_t := Expire {
  has_expire_query : bool; has_expire_value : bool; expire_value : Z; send_expire : bool; send_expire_value : Z }.

(** [ede_list] holds the first [ede_count] entries. *)
Record edns_info_t := Edns {
  present : bool; udp_payload_size : Z; ext_rcode : Z; version : Z; dnssec_ok : bool; compact_answers_ok : bool; server_udp_size : Z;
  cookie : cookie_t; ede_list : list parsed_ede_t; has_nsid_query : bool; has_keepalive_query : bool;
  mqtype : mqtype_t; ecs : ecs_t; ext : ext_t; expire : expire_t }.

Definition MAX_EDE_COUNT : Z := 64.
Definition EDNS_OPTION_EXPIRE : Z := 9.
Definition EDNS_OPTION_KARIDNS_EXT : Z := 65153.

(** [memset(edns, 0, sizeof(edns_info_t))] *)
Definition edns_zero : edns_info_t :=
  Edns false 0 0 0 false false 0 (Cookie false false (replicate 8 0) (replicate 32 0) 0) [] false false
    (Mqtype false false false []) (EcsInfo false false 0 0 0 (replicate 16 0)) (Ext false 0 0) (Expire false false 0 false 0).

Definition set_opt (e : edns_info_t) (size rcode ver : Z) (d c : bool) : edns_info_t :=
  Edns true size rcode ver d c (server_udp_size e) (cookie e) (ede_list e) (has_nsid_query e) (has_keepalive_query e) (mqtype e) (ecs e) (ext e) (expire e).
Definition set_udp_size (e : edns_info_t) (size : Z) : edns_info_t :=
  Edns (present e) size (ext_rcode e) (version e) (dnssec_ok e) (compact_answers_ok e) (server_udp_size e)
    (cookie e) (ede_list e) (has_nsid_query e) (has_keepalive_query e) (mqtype e) (ecs e) (ext e) (expire e).
Definition set_version (e : edns_info_t) (v : Z) : edns_info_t :=
  Edns (present e) (udp_payload_size e) (ext_rcode e) v (dnssec_ok e) (compact_answers_ok e) (server_udp_size e)
    (cookie e) (ede_list e) (has_nsid_query e) (has_keepalive_query e) (mqtype e) (ecs e) (ext e) (expire e).
Definition set_body (e : edns_info_t) ck ed ns ka mq ec ex xp : edns_info_t :=
  Edns (present e) (udp_payload_size e) (ext_rcode e) (version e) (dnssec_ok e) (compact_answers_ok e) (server_udp_size e) ck ed ns ka mq ec ex xp.
Definition set_cookie (e : edns_info_t) (c : cookie_t) :=
  set_body e c (ede_list e) (has_nsid_query e) (has_keepalive_query e) (mqtype e) (ecs e) (ext e) (expire e).
Definition set_ede (e : edns_info_t) (l : list parsed_ede_t) :=
  set_body e (cookie e) l (has_nsid_query e) (has_keepalive_query e) (mqtype e) (ecs e) (ext e) (expire e).
Definition set_nsid (e : edns_info_t) :=
  set_body e (cookie e) (ede_list e) true (has_keepalive_query e) (mqtype e) (ecs e) (ext e) (expire e).
Definition set_keepalive (e : edns_info_t) :=
  set_body e (cookie e) (ede_list e) (has_nsid_query e) true (mqtype e) (ecs e) (ext e) (expire e).
Definition set_mqtype (e : edns_info_t) (m : mqtype_t) :=
  set_body e (cookie e) (ede_list e) (has_nsid_query e) (has_keepalive_query e) m (ecs e) (ext e) (expire e).
Definition set_ecs (e : edns_info_t) (s : ecs_t) :=
  set_body e (cookie e) (ede_list e) (has_nsid_query e) (has_keepalive_query e) (mqtype e) s (ext e) (expire e).
Definition set_ext (e : edns_info_t) (x : ext_t) :=
  set_body e (cookie e) (ede_list e) (has_nsid_query e) (has_keepalive_query e) (mqtype e) (ecs e) x (expire e).
Definition set_expire (e : edns_info_t) (x : expire_t) :=
  set_body e (cookie e) (ede_list e) (has_nsid_query e) (has_keepalive_query e) (mqtype e) (ecs e) (ext e) x.

(** ** Operations: the options of a query *)

(** The octets of an array up to its first NUL. *)
Fixpoint cstr (s : list Z) : list Z :=
  match s with
  | [] => []
  | c :: s' => if c =? 0 then [] else c :: cstr s'
  end.

(** The option whose [opt_len] octets are [d]. Each step reads only them. *)
Definition parse_cookie (c : cookie_t) (d : list Z) (opt_len : Z) : outcome cookie_t :=
  if has_cookie c || has_malformed_cookie c then Ret c
  else if (opt_len =? 8) || ((16 <=? opt_len) && (opt_len <=? 40)) then
    let! client := slice d 0 8 in
    let! client_cookie := wr_list (client_cookie c) 0 client in
    if 8 <? opt_len then
      let n := if 32 <? opt_len - 8 then 32 else opt_len - 8 in
      let! server := slice d 8 n in
      let! server_cookie := wr_list (server_cookie c) 0 server in
      Ret (Cookie true (has_malformed_cookie c) client_cookie server_cookie n)
    else Ret (Cookie true (has_malformed_cookie c) client_cookie (server_cookie c) (server_cookie_len c))
  else Ret (Cookie (has_cookie c) true (client_cookie c) (server_cookie c) (server_cookie_len c)).

Definition parse_ede (l : list parsed_ede_t) (d : list Z) (opt_len : Z) : outcome (list parsed_ede_t) :=
  if (2 <=? opt_len) && (len l <? MAX_EDE_COUNT) then
    let! code := rd16 d 0 in
    let! text := if 2 <? opt_len then slice d 2 (if 256 <=? opt_len - 2 then 255 else opt_len - 2) else Ret [] in
    Ret (l ++ [Ede code (cstr text)])
  else Ret l.

Fixpoint read_mqtypes (n : nat) (d : list Z) (k : Z) : outcome (list Z) :=
  match n with
  | O => Ret []
  | S n' =>
      let! t := rd16 d (k * 2) in
      let! ts := read_mqtypes n' d (k + 1) in
      Ret (t :: ts)
  end.

Definition parse_mqtype (m : mqtype_t) (d : list Z) (opt_len : Z) : outcome mqtype_t :=
  if has_mqtype_query m then Ret (Mqtype true true (saw_invalid_mqtype_response_in_query m) (mqtypes m))
  else
    let! ts := if opt_len mod 2 =? 0 then read_mqtypes (Z.to_nat (Z.min (opt_len / 2) 16)) d 0 else Ret (mqtypes m) in
    Ret (Mqtype true (mqtype_query_duplicated m) (saw_invalid_mqtype_response_in_query m) ts).

(** The fields of a client subnet and whether they are well formed
    ([ecs_ok]): the address has exactly the octets of the source prefix, and
    the bits behind the prefix are zero. *)
Definition ecs_fields (d : list Z) (opt_len : Z) : outcome (option (Z * Z * Z)) :=
  if 4 <=? opt_len then
    let! family := rd16 d 0 in
    let! source_prefix := rd d 2 in
    let! scope_prefix := rd d 3 in
    let expected_addr_len := (source_prefix + 7) / 8 in
    let actual_addr_len := opt_len - 4 in
    if negb (family =? 1) && negb (family =? 2) then Ret None
    else if (family =? 1) && (32 <? source_prefix) then Ret None
    else if (family =? 2) && (128 <? source_prefix) then Ret None
    else if negb (scope_prefix =? 0) then Ret None
    else if negb (actual_addr_len =? expected_addr_len) then Ret None
    else if negb (source_prefix mod 8 =? 0) then
      let pad_mask := u8 (Z.shiftl 1 (8 - source_prefix mod 8) - 1) in
      let! last_byte := rd d (4 + expected_addr_len - 1) in
      if negb (Z.land last_byte pad_mask =? 0) then Ret None else Ret (Some (family, source_prefix, scope_prefix))
    else Ret (Some (family, source_prefix, scope_prefix))
  else Ret None.

Definition parse_ecs (s : ecs_t) (d : list Z) (opt_len : Z) : outcome ecs_t :=
  if has_ecs s || has_malformed_ecs s then Ret s
  else
    let! f := ecs_fields d opt_len in
    match f with
    | None => Ret (EcsInfo (has_ecs s) true (ecs_family s) (ecs_source_prefix s) (ecs_scope_prefix s) (ecs_addr s))
    | Some (family, source_prefix, scope_prefix) =>
        let! a := slice d 4 (if 16 <? opt_len - 4 then 16 else opt_len - 4) in
        let! addr := wr_list (replicate 16 0) 0 a in
        Ret (EcsInfo true (has_malformed_ecs s) family source_prefix scope_prefix addr)
    end.

Definition parse_expire (x : expire_t) (d : list Z) (opt_len : Z) : outcome expire_t :=
  if opt_len =? 0 then Ret (Expire true (has_expire_value x) (expire_value x) (send_expire x) (send_expire_value x))
  else if (opt_len =? 4) && negb (has_expire_value x) then
    let! v := rd32 d 0 in
    Ret (Expire (has_expire_query x) true v (send_expire x) (send_expire_value x))
  else Ret x.

Definition parse_ext (x : ext_t) (d : list Z) (opt_len : Z) : outcome ext_t :=
  if opt_len =? 5 then
    let! v := rd d 0 in
    let! h := rd32 d 1 in
    Ret (Ext true v h)
  else Ret x.

Definition parse_option (e : edns_info_t) (opt_code : Z) (d : list Z) (opt_len : Z) : outcome edns_info_t :=
  if opt_code =? 10 then let! c := parse_cookie (cookie e) d opt_len in Ret (set_cookie e c)
  else if opt_code =? 15 then let! l := parse_ede (ede_list e) d opt_len in Ret (set_ede e l)
  else if opt_code =? 3 then Ret (set_nsid e)
  else if opt_code =? 11 then Ret (set_keepalive e)
  else if opt_code =? 21 then
    let m := mqtype e in Ret (set_mqtype e (Mqtype (has_mqtype_query m) (mqtype_query_duplicated m) true (mqtypes m)))
  else if opt_code =? 20 then let! m := parse_mqtype (mqtype e) d opt_len in Ret (set_mqtype e m)
  else if opt_code =? 8 then let! s := parse_ecs (ecs e) d opt_len in Ret (set_ecs e s)
  else if opt_code =? EDNS_OPTION_EXPIRE then let! x := parse_expire (expire e) d opt_len in Ret (set_expire e x)
  else if opt_code =? EDNS_OPTION_KARIDNS_EXT then let! x := parse_ext (ext e) d opt_len in Ret (set_ext e x)
  else Ret e.

(** [while (rdata_offset + 4 <= rdata_end)]: an option that runs past the end
    stops the loop. *)
Fixpoint parse_options (fuel : nat) (e : edns_info_t) (req : list Z) (rdata_offset rdata_end : Z) : outcome edns_info_t :=
  match fuel with
  | O => NoFuel
  | S fuel' =>
      if rdata_offset + 4 <=? rdata_end then
        let! opt_code := rd16 req rdata_offset in
        let! opt_len := rd16 req (rdata_offset + 2) in
        let rdata_offset := rdata_offset + 4 in
        if rdata_end <? rdata_offset + opt_len then Ret e
        else
          let! d := slice req rdata_offset opt_len in
          let! e := parse_option e opt_code d opt_len in
          parse_options fuel' e req (rdata_offset + opt_len) rdata_end
      else Ret e
  end.

(** The end of the name at [scan_offset]. *)
Fixpoint scan_name (fuel : nat) (req : list Z) (req_len scan_offset : Z) : outcome Z :=
  match fuel with
  | O => NoFuel
  | S fuel' =>
      if scan_offset <? req_len then
        let! raw := rd req scan_offset in
        let label_type := Z.land raw 192 in
        if label_type =? 192 then Ret (scan_offset + 2)
        else if label_type =? 0 then
          fail_if 63 <? raw ;;
          if raw =? 0 then Ret (scan_offset + 1)
          else
            fail_if req_len <? scan_offset + raw + 1 ;;
            scan_name fuel' req req_len (scan_offset + (raw + 1))
        else Fail
      else Ret scan_offset
  end.

(** The records from the [i]-th of the message on, [n] of them; [rr0] is the
    number of questions and [ar0] that of the records before the additional
    section. The result is whether the function returned 0, and [*edns]. *)
Fixpoint parse_rrs (n : nat) (req : list Z) (req_len rr0 ar0 i scan_offset opt_rr_count : Z) (e : edns_info_t) : outcome (bool * edns_info_t) :=
  match n with
  | O => Ret (true, e)
  | S n' =>
      if req_len <=? scan_offset then Ret (true, e)
      else
        orelse (scan_name (S (Z.to_nat (req_len - scan_offset))) req req_len scan_offset) (false, e) (fun name_end =>
        if i <? rr0 then parse_rrs n' req req_len rr0 ar0 (i + 1) (name_end + 4) opt_rr_count e
        else if name_end + 10 <=? req_len then
          let! rtype := rd16 req name_end in
          let! rclass := rd16 req (name_end + 2) in
          let! ttl := rd32 req (name_end + 4) in
          let! rdlen := rd16 req (name_end + 8) in
          let next := name_end + (10 + rdlen) in
          let is_opt := ar0 <=? i in
          if negb is_opt && (rtype =? 41) then Ret (false, e)
          else if is_opt && (rtype =? 41) then
            let! owner := rd req scan_offset in
            if negb (name_end - scan_offset =? 1) || negb (owner =? 0) then Ret (false, e)
            else if 1 <? opt_rr_count + 1 then Ret (false, e)
            else
              let e := set_opt e rclass (Z.land (Z.shiftr ttl 24) 255) (Z.land (Z.shiftr ttl 16) 255)
                         (negb (Z.land ttl 32768 =? 0)) (negb (Z.land ttl 16384 =? 0)) in
              let rdata_offset := name_end + 10 in
              let rdata_end := rdata_offset + rdlen in
              if req_len <? rdata_end then Ret (false, e)
              else
                let! e := parse_options (S (Z.to_nat rdlen)) e req rdata_offset rdata_end in
                parse_rrs n' req req_len rr0 ar0 (i + 1) next (opt_rr_count + 1) e
          else parse_rrs n' req req_len rr0 ar0 (i + 1) next opt_rr_count e
        else Ret (true, e))
  end.

Definition parse_edns_opt (req : list Z) (req_len qdcount ancount_req nscount_req arcount_req : Z) : outcome (bool * edns_info_t) :=
  parse_rrs (Z.to_nat (qdcount + ancount_req + nscount_req + arcount_req)) req req_len qdcount (qdcount + ancount_req + nscount_req)
    0 DNS_HEADER_SIZE 0 (set_udp_size edns_zero 512).

(** ** Operations: the OPT record of a response *)

(** What the writers use of [server_config_t]. *)
Record opt_config := OptConfig {
  nsid_string : option (list Z); tcp_connection_reuse : bool; tcp_idle_timeout : Z;
  tcp_advertised_set : bool; tcp_advertised_units : Z; ecs_enable : bool; send_extended_errors : bool }.

Definition nsid_of (e : edns_info_t) (cfg : option opt_config) : option (list Z) :=
  if has_nsid_query e then match cfg with Some c => nsid_string c | None => None end else None.

Definition keepalive_on (e : edns_info_t) (is_tcp : bool) (cfg : option opt_config) : bool :=
  is_tcp && has_keepalive_query e && match cfg with Some c => tcp_connection_reuse c | None => false end.

Definition ecs_on (e : edns_info_t) (cfg : option opt_config) : bool :=
  has_ecs (ecs e) && match cfg with Some c => ecs_enable c | None => true end.

(** [edns == NULL] is [None]. *)
Definition edns_opt_reserve_len (edns : option edns_info_t) (is_tcp : bool) (cfg : option opt_config) : Z :=
  match edns with
  | None => 11
  | Some e =>
      11 + ((if has_cookie (cookie e) then 4 + 8 + 32 else 0) +
            (if has_mqtype_query (mqtype e) then 4 + len (mqtypes (mqtype e)) * 2 else 0) +
            (match nsid_of e cfg with Some s => 4 + len s | None => 0 end) +
            (if keepalive_on e is_tcp cfg then 4 + 2 else 0) +
            (if has_karidns_ext (ext e) then 4 + 5 else 0) +
            (if has_expire_query (expire e) || send_expire (expire e) then 4 + 4 else 0) +
            (if ecs_on e cfg then 4 + 4 + 16 else 0))
  end.

(** [res[offset++] = ...] of several octets, with [uint16_t offset]. *)
Definition emit (w : list Z * Z) (octets : list Z) : outcome (list Z * Z) :=
  let! res := wr_list (fst w) (snd w) octets in
  Ret (res, u16 (snd w + len octets)).

Definition hi16 (v : Z) : Z := u8 (Z.shiftr v 8).
Definition be16 (v : Z) : list Z := [hi16 v; Z.land v 255].
Definition be32 (v : Z) : list Z := [u8 (Z.shiftr v 24); Z.land (Z.shiftr v 16) 255; Z.land (Z.shiftr v 8) 255; Z.land v 255].

Definition keepalive_value (c : opt_config) : Z :=
  if tcp_advertised_set c then tcp_advertised_units c
  else
    let ms := if 0 <? tcp_idle_timeout c then tcp_idle_timeout c else 10000 in
    let v := u16 (if 65535 <? ms / 100 then 65535 else ms / 100) in
    if v =? 0 then 1 else v.

Definition ecs_addr_bytes (s : ecs_t) : Z :=
  let n := u8 ((ecs_source_prefix s + 7) / 8) in
  if (ecs_family s =? 1) && (4 <? n) then 4
  else if (ecs_family s =? 2) && (16 <? n) then 16
  else if negb (ecs_family s =? 1) && negb (ecs_family s =? 2) then 0
  else n.

(** [uint16_t ede_rdlen]. *)
Definition ede_rdlen (l : list parsed_ede_t) : Z := foldl (fun n x => u16 (n + (6 + len (ede_text x)))) 0 l.

(** [uint16_t rdlen]: the sum of the options but the EDE, and with them. *)
Definition opt_rdlen (e : edns_info_t) (is_tcp : bool) (cfg : option opt_config) : Z :=
  let n := if has_cookie (cookie e) then u16 (4 + 8 + server_cookie_len (cookie e)) else 0 in
  let n := u16 (n + ede_rdlen (ede_list e)) in
  let n := if has_mqtype_query (mqtype e) then u16 (n + (4 + len (mqtypes (mqtype e)) * 2)) else n in
  let n := match nsid_of e cfg with Some s => u16 (n + (4 + u16 (len s))) | None => n end in
  let n := if keepalive_on e is_tcp cfg then u16 (n + 6) else n in
  let n := if has_karidns_ext (ext e) then u16 (n + 9) else n in
  let n := if send_expire (expire e) then u16 (n + 8) else n in
  if ecs_on e cfg then u16 (n + (8 + ecs_addr_bytes (ecs e))) else n.

Definition emit_ede (w : list Z * Z) (x : parsed_ede_t) : outcome (list Z * Z) :=
  emit w ([0; 15] ++ be16 (2 + len (ede_text x)) ++ be16 (ede_code x) ++ ede_text x).

Fixpoint emit_edes (w : list Z * Z) (l : list parsed_ede_t) : outcome (list Z * Z) :=
  match l with
  | [] => Ret w
  | x :: l' => let! w := emit_ede w x in emit_edes w l'
  end.

Definition emit_cookie (w : list Z * Z) (c : cookie_t) : outcome (list Z * Z) :=
  if has_cookie c then
    let! w := emit w ([0; 10] ++ be16 (u16 (8 + server_cookie_len c))) in
    let! client := slice (client_cookie c) 0 8 in
    let! w := emit w client in
    if 0 <? server_cookie_len c then let! server := slice (server_cookie c) 0 (server_cookie_len c) in emit w server else Ret w
  else Ret w.

Definition emit_mqtype (w : list Z * Z) (m : mqtype_t) : outcome (list Z * Z) :=
  if has_mqtype_query m then emit w ([0; 21] ++ be16 (u16 (len (mqtypes m) * 2)) ++ concat (map be16 (mqtypes m))) else Ret w.

Definition emit_nsid (w : list Z * Z) (nsid : option (list Z)) : outcome (list Z * Z) :=
  match nsid with
  | Some s => emit w ([0; 3] ++ be16 (u16 (len s)) ++ take (Z.to_nat (u16 (len s))) s)
  | None => Ret w
  end.

Definition emit_ecs (w : list Z * Z) (s : ecs_t) : outcome (list Z * Z) :=
  let n := ecs_addr_bytes s in
  let! w := emit w ([0; 8] ++ be16 (4 + n) ++ be16 (ecs_family s) ++ [ecs_source_prefix s; ecs_scope_prefix s]) in
  if 0 <? n then let! a := slice (ecs_addr s) 0 n in emit w a else Ret w.

(** The record, when it fits: the fixed part and the options in order. *)
Definition write_opt (w : list Z * Z) (rdlen : Z) (e : edns_info_t) (rcode_ext : Z) (is_tcp : bool) (cfg : option opt_config) : outcome (list Z * Z) :=
  let udp_size := if server_udp_size e =? 0 then 1232 else server_udp_size e in
  let flags := if dnssec_ok e then 32768 else 0 in
  let! w := emit w ([0; 0; 41] ++ be16 udp_size ++ [rcode_ext; 0] ++ be16 flags ++ be16 rdlen) in
  let! w := emit_cookie w (cookie e) in
  let! w := emit_edes w (ede_list e) in
  let! w := emit_mqtype w (mqtype e) in
  let! w := emit_nsid w (nsid_of e cfg) in
  let! w := match cfg with
            | Some c => if keepalive_on e is_tcp cfg then emit w ([0; 11; 0; 2] ++ be16 (keepalive_value c)) else Ret w
            | None => Ret w
            end in
  let! w := if has_karidns_ext (ext e)
            then emit w (be16 EDNS_OPTION_KARIDNS_EXT ++ [0; 5; karidns_ext_version (ext e)] ++ be32 (karidns_ext_hash (ext e))) else Ret w in
  let! w := if send_expire (expire e) then emit w ([0; EDNS_OPTION_EXPIRE; 0; 4] ++ be32 (send_expire_value (expire e))) else Ret w in
  if ecs_on e cfg then emit_ecs w (ecs e) else Ret w.

(** The octets of the response, [*offset_inout], [*arcount_inout] and the
    EDNS data, whose EDE list is dropped when it does not fit. With
    [edns == NULL] every test is false, as for the zero record. *)
Definition assemble_edns_opt (res : list Z) (max_res_len offset arcount : Z) (edns : option edns_info_t) (rcode_ext : Z) (is_tcp : bool)
    (cfg : option opt_config) : outcome (list Z * Z * Z * edns_info_t) :=
  let e := default edns_zero edns in
  let rdlen := opt_rdlen e is_tcp cfg in
  let '(rdlen, e) :=
    if (max_res_len <? offset + 11 + rdlen) && negb (Nat.eqb (length (ede_list e)) 0) then (u16 (rdlen - ede_rdlen (ede_list e)), set_ede e [])
    else (rdlen, e) in
  if offset + 11 + rdlen <=? max_res_len then
    let! '(res, offset) := write_opt (res, offset) rdlen e rcode_ext is_tcp cfg in
    Ret (res, offset, u16 (arcount + 1), e)
  else Ret (res, offset, arcount, e).

(** [strncpy(text, t, 255)]: a longer text is cut. The counters of the codes
    are not part of the model. *)
Definition add_ede (e : edns_info_t) (enabled : bool) (code : Z) (text : option (list Z)) : edns_info_t :=
  if negb enabled || negb (present e) then e
  else if MAX_EDE_COUNT <=? len (ede_list e) then e
  else set_ede e (ede_list e ++ [Ede code (take 255 (default [] text))]).

(** ** Operations: error responses *)

Definition dns_init_response_header (res req : list Z) (rcode : Z) (aa : bool) : outcome (list Z) :=
  let! r0 := rd req 0 in
  let! r1 := rd req 1 in
  let! r2 := rd req 2 in
  let! r3 := rd req 3 in
  let query := Z.land (Z.shiftr r2 3) 15 =? 0 in
  wr_list res 0 [r0; r1;
    u8 (Z.lor (Z.lor (Z.lor 128 (Z.land r2 120)) (if query then Z.land r2 1 else 0)) (if aa then 4 else 0));
    u8 (Z.lor (if query then Z.land r3 16 else 0) (Z.land rcode 15))].

(** The questions that are kept: the number and the end of the section. *)
Fixpoint keep_questions (n : nat) (req : list Z) (req_len q_end : Z) : outcome Z :=
  match n with
  | O => Ret q_end
  | S n' =>
      let! next := skip_wire_name req req_len q_end in
      fail_if req_len <? next + 4 ;;
      keep_questions n' req req_len (next + 4)
  end.

(** [edns->has_mqtype_query = false; edns->mqtype_count = 0; edns->send_expire = false;] *)
Definition error_edns (e : edns_info_t) : edns_info_t :=
  let m := mqtype e in
  let x := expire e in
  set_expire (set_mqtype e (Mqtype false (mqtype_query_duplicated m) (saw_invalid_mqtype_response_in_query m) []))
    (Expire (has_expire_query x) (has_expire_value x) (expire_value x) false (send_expire_value x)).

(** The octets of the response and its length, 0 when there is none. *)
Definition dns_build_error_response (req : list Z) (req_len : Z) (res : list Z) (max_res_len rcode ext_rcode qd_keep : Z)
    (edns : option edns_info_t) (is_tcp : bool) (cfg : option opt_config) : outcome (list Z * Z) :=
  if (req_len <? DNS_HEADER_SIZE) || (max_res_len <? DNS_HEADER_SIZE) then Ret (res, 0)
  else
    let! bad := if (rcode =? 1) && (ext_rcode =? 0) then let! ok := dns_question_section_ok req req_len in Ret (negb ok) else Ret false in
    let edns := if bad then None else edns in
    let! res := dns_init_response_header res req rcode false in
    let! '(qd_keep, q_end) :=
      orelse (let! q := keep_questions (Z.to_nat qd_keep) req req_len DNS_HEADER_SIZE in Ret (qd_keep, q)) (0, DNS_HEADER_SIZE) Ret in
    let '(qd_keep, q_end) := if (max_res_len <? q_end) || (65535 <? q_end) then (0, DNS_HEADER_SIZE) else (qd_keep, q_end) in
    let! q := slice req DNS_HEADER_SIZE (q_end - DNS_HEADER_SIZE) in
    let! res := wr_list res DNS_HEADER_SIZE q in
    let! res := wr_list res 4 [u8 (Z.shiftr qd_keep 8); Z.land qd_keep 255; 0; 0; 0; 0] in
    let! '(res, offset, arcount) :=
      match edns with
      | Some e =>
          if present e then
            let! '(res, offset, arcount, _) := assemble_edns_opt res max_res_len q_end 0 (Some (error_edns e)) ext_rcode is_tcp cfg in
            Ret (res, offset, arcount)
          else Ret (res, q_end, 0)
      | None => Ret (res, q_end, 0)
      end in
    let! res := wr_list res 10 [u8 (Z.shiftr arcount 8); Z.land arcount 255] in
    Ret (res, offset).

Definition dns_build_badvers_response (req : list Z) (req_len : Z) (res : list Z) (max_res_len qd_keep : Z)
    (e : edns_info_t) (is_tcp : bool) (cfg : option opt_config) : outcome (list Z * Z) :=
  dns_build_error_response req req_len res max_res_len 0 1 qd_keep (Some (set_version e 0)) is_tcp cfg.

Definition build_not_ready_response (req : list Z) (req_len : Z) (res : list Z) (cap : Z) (is_tcp : bool) (cfg : option opt_config) :
    outcome (list Z * Z) :=
  if req_len <? DNS_HEADER_SIZE then Ret (res, 0)
  else
    let! qd := rd16 req 4 in
    let! an := rd16 req 6 in
    let! ns := rd16 req 8 in
    let! ar := rd16 req 10 in
    let! '(ok, e) := parse_edns_opt req req_len qd an ns ar in
    let e := if ok then set_ede e [] else e in
    let e := add_ede e (match cfg with Some c => send_extended_errors c | None => false end) 14 (Some (str "Not Ready")) in
    dns_build_error_response req req_len res cap 2 0 1 (Some e) is_tcp cfg.

(** ** Operations: truncation *)

Fixpoint find_opt (n : nat) (msg : list Z) (msg_len off : Z) : outcome (Z * Z) :=
  match n with
  | O => Fail
  | S n' =>
      let start := off in
      let! off := skip_wire_name msg msg_len off in
      fail_if msg_len <? off + 10 ;;
      let! type := rd16 msg off in
      let! rdlen := rd16 msg (off + 8) in
      let off := off + 10 in
      fail_if msg_len <? off + rdlen ;;
      let off := off + rdlen in
      if type =? 41 then Ret (start, off - start) else find_opt n' msg msg_len off
  end.

(** [*opt_off] and [*opt_len]. *)
Definition dns_find_opt_rr (msg : list Z) (msg_len : Z) : outcome (Z * Z) :=
  fail_if msg_len <? DNS_HEADER_SIZE ;;
  let! qd := rd16 msg 4 in
  let! an := rd16 msg 6 in
  let! ns := rd16 msg 8 in
  let! ar := rd16 msg 10 in
  let! off := keep_questions (Z.to_nat qd) msg msg_len DNS_HEADER_SIZE in
  find_opt (Z.to_nat (an + ns + ar)) msg msg_len off.

(** The message and its new length. *)
Definition dns_truncate_keep_opt (res : list Z) (res_len q_end : Z) : outcome (list Z * Z) :=
  if res_len <? DNS_HEADER_SIZE then Ret (res, res_len)
  else
    let q_end := if (q_end <? DNS_HEADER_SIZE) || (res_len <? q_end) then DNS_HEADER_SIZE else q_end in
    let! opt := orelse (let! o := dns_find_opt_rr res res_len in Ret (Some o)) None Ret in
    let opt := match opt with Some (opt_off, opt_len) => if q_end <=? opt_off then Some (opt_off, opt_len) else None | None => None end in
    let! res := wr_list res 6 [0; 0; 0; 0; 0; 0] in
    match opt with
    | None => Ret (res, q_end)
    | Some (opt_off, opt_len) =>
        let! o := slice res opt_off opt_len in
        let! res := wr_list res q_end o in
        let! res := wr res 11 1 in
        Ret (res, q_end + opt_len)
    end.

(** ** Specification: well-formed EDNS data *)

Definition u16_range (v : Z) : Prop := 0 <= v < 65536.
Definition u32_range (v : Z) : Prop := 0 <= v < 4294967296.

Definition cookie_wf (c : cookie_t) : Prop :=
  bytes (client_cookie c) /\ length (client_cookie c) = 8%nat /\ bytes (server_cookie c) /\ length (server_cookie c) = 32%nat /\
  (server_cookie_len c = 0 \/ 8 <= server_cookie_len c <= 32) /\ ~ (has_cookie c = true /\ has_malformed_cookie c = true).

Definition ede_wf (x : parsed_ede_t) : Prop := u16_range (ede_code x) /\ cstring (ede_text x) /\ len (ede_text x) <= 255.

Definition mqtype_wf (m : mqtype_t) : Prop := Forall u16_range (mqtypes m) /\ len (mqtypes m) <= 16.

(** The bit [i] of an address, from the most significant one. *)
Definition addr_bit (a : list Z) (i : Z) : bool := Z.testbit (nth (Z.to_nat (i / 8)) a 0) (7 - i mod 8).

(** RFC 7871: a family that is known, a prefix within it, scope 0, and no
    bit behind the prefix. *)
Definition ecs_wf (s : ecs_t) : Prop :=
  bytes (ecs_addr s) /\ length (ecs_addr s) = 16%nat /\ ~ (has_ecs s = true /\ has_malformed_ecs s = true) /\
  (has_ecs s = true -> ecs_scope_prefix s = 0 /\
    ((ecs_family s = 1 /\ 0 <= ecs_source_prefix s <= 32) \/ (ecs_family s = 2 /\ 0 <= ecs_source_prefix s <= 128)) /\
    forall i, ecs_source_prefix s <= i < 128 -> addr_bit (ecs_addr s) i = false).

Definition edns_wf (e : edns_info_t) : Prop :=
  u16_range (udp_payload_size e) /\ isbyte (ext_rcode e) /\ isbyte (version e) /\
  cookie_wf (cookie e) /\ Forall ede_wf (ede_list e) /\ len (ede_list e) <= MAX_EDE_COUNT /\ mqtype_wf (mqtype e) /\ ecs_wf (ecs e) /\
  (isbyte (karidns_ext_version (ext e)) /\ u32_range (karidns_ext_hash (ext e))) /\ u32_range (expire_value (expire e)).

(** What a response may send: the SCOPE PREFIX-LENGTH of the client subnet is
    the server's, and so are the flags, the sizes and the EXPIRE value. *)
Definition ecs_sendable (s : ecs_t) : Prop :=
  length (ecs_addr s) = 16%nat /\
  (has_ecs s = true -> (ecs_family s = 1 /\ 0 <= ecs_source_prefix s <= 32) \/ (ecs_family s = 2 /\ 0 <= ecs_source_prefix s <= 128)).

Definition edns_sendable (e : edns_info_t) : Prop :=
  cookie_wf (cookie e) /\ Forall ede_wf (ede_list e) /\ len (ede_list e) <= MAX_EDE_COUNT /\ mqtype_wf (mqtype e) /\ ecs_sendable (ecs e).

(** The NSID text of the configuration: with all other options at their
    largest, the options are shorter than 65536 octets. *)
Definition nsid_ok (cfg : option opt_config) : Prop := forall c s, cfg = Some c -> nsid_string c = Some s -> len s <= 48000.

(** ** Lemmas: reads *)

Lemma slice_bytes buf i n l : bytes buf -> slice buf i n = Ret l -> bytes l /\ len l = n.
Proof.
  unfold slice. intros Hb. case_if; [| done]. intros [= <-]. split; [by apply Forall_take, Forall_drop |].
  rewrite length_take, length_drop. lia.
Qed.

Lemma slice_ok buf i n : bytes buf -> 0 <= i -> 0 <= n -> i + n <= len buf -> exists l, slice buf i n = Ret l /\ bytes l /\ len l = n.
Proof. intros Hb Hi Hn Hl. eexists. rewrite slice_in by done. split; [done |]. apply (slice_bytes buf i); [done |]. by apply slice_in. Qed.

Lemma rd16_range buf i : bytes buf -> 0 <= i -> i + 2 <= len buf -> exists v, rd16 buf i = Ret v /\ u16_range v.
Proof. intros Hb Hi Hl. apply (rd16_ok buf (len buf)); [done | lia | lia | lia]. Qed.

Lemma rd_range buf i : bytes buf -> 0 <= i < len buf -> exists v, rd buf i = Ret v /\ isbyte v.
Proof. intros Hb Hi. destruct (rd_in buf i Hi) as [v Hv]. exists v. split; [done |]. by eapply rd_byte. Qed.

Lemma rd32_range buf i : bytes buf -> 0 <= i -> i + 4 <= len buf -> exists v, rd32 buf i = Ret v /\ u32_range v.
Proof.
  intros Hb Hi Hl. unfold rd32.
  destruct (rd_range buf i) as (b0 & -> & H0); [done | lia |]. destruct (rd_range buf (i + 1)) as (b1 & -> & H1); [done | lia |].
  destruct (rd_range buf (i + 2)) as (b2 & -> & H2); [done | lia |]. destruct (rd_range buf (i + 3)) as (b3 & -> & H3); [done | lia |].
  cbn [obind]. eexists. split; [done |]. unfold u32_range, isbyte in *. change 4294967296 with (2 ^ 32).
  repeat apply isbyte_lor; try lia; rewrite ?Z.shiftl_mul_pow2 by lia; lia.
Qed.

Lemma wr_list_bytes buf src : bytes buf -> bytes src -> len src <= len buf ->
  exists buf', wr_list buf 0 src = Ret buf' /\ bytes buf' /\ length buf' = length buf /\ buf' = src ++ drop (length src) buf.
Proof.
  intros Hb Hs Hl. exists (splice buf 0 src). split_and!.
  - by apply wr_list_splice.
  - by apply bytes_splice.
  - by apply length_splice.
  - done.
Qed.

Lemma cstr_chars s : bytes s -> cstring (cstr s) /\ len (cstr s) <= len s.
Proof.
  induction 1 as [| c s Hc _ [IH1 IH2]]; [done |]. cbn [cstr]. destruct (Z.eqb_spec c 0); [split; [constructor | cbn; lia] |].
  split; [constructor; [unfold ischar, isbyte in *; lia | done] | cbn [length]; lia].
Qed.

(** ** Lemmas: every option leaves the data well formed *)

Section Option.
Context (d : list Z) (opt_len : Z).
Hypothesis Hd : bytes d.
Hypothesis Hlen : len d = opt_len.

Lemma parse_cookie_wf c : cookie_wf c -> exists c', parse_cookie c d opt_len = Ret c' /\ cookie_wf c'.
Proof.
  intros (H1 & H2 & H3 & H4 & H5 & H6). unfold parse_cookie. case_if; [by exists c |]. apply orb_false_iff in E as [Eh Em].
  case_if; [| eexists; split; [done |]; unfold cookie_wf; cbn; rewrite Eh; split_and!; (done || naive_solver)].
  destruct (slice_ok d 0 8) as (cl & -> & Hc & Hcl); [done | lia | lia | lia |]. cbn [obind].
  destruct (wr_list_bytes (client_cookie c) cl) as (cl' & -> & Hc' & Hcl' & _); [done | done | lia |]. cbn [obind]. case_if.
  - set (n := if 32 <? opt_len - 8 then 32 else opt_len - 8). assert (8 <= n <= 32 /\ n <= opt_len - 8) as Hn by (unfold n; case_if; lia).
    destruct (slice_ok d 8 n) as (sv & -> & Hs & Hsl); [done | lia | lia | lia |]. cbn [obind].
    destruct (wr_list_bytes (server_cookie c) sv) as (sv' & -> & Hs' & Hsl' & _); [done | done | lia |]. cbn [obind].
    eexists. split; [done |]. unfold cookie_wf. cbn. split_and!; [done | lia | done | lia | lia | rewrite Em; naive_solver].
  - eexists. split; [done |]. unfold cookie_wf. cbn. split_and!; [done | lia | done | lia | done | rewrite Em; naive_solver].
Qed.

Lemma parse_ede_wf l : Forall ede_wf l -> len l <= MAX_EDE_COUNT ->
  exists l', parse_ede l d opt_len = Ret l' /\ Forall ede_wf l' /\ len l' <= MAX_EDE_COUNT.
Proof.
  intros Hl Hn. unfold parse_ede. case_if; [| by exists l]. destruct (rd16_range d 0) as (v & -> & Hv); [done | lia | lia |]. cbn [obind].
  assert (exists t, (if 2 <? opt_len then slice d 2 (if 256 <=? opt_len - 2 then 255 else opt_len - 2) else Ret []) = Ret t /\ bytes t /\ len t <= 255)
    as (t & -> & Ht & Htl).
  { case_if; [| exists []; split_and!; [done | constructor | cbn; lia]].
    destruct (slice_ok d 2 (if 256 <=? opt_len - 2 then 255 else opt_len - 2)) as (t & -> & Ht & Htl); [done | lia | case_if; lia | case_if; lia |].
    exists t. split_and!; [done | done | case_if_in Htl; lia]. }
  cbn [obind]. eexists. split; [done |]. rewrite length_app. cbn. split; [| lia]. apply Forall_app. split; [done |]. constructor; [| constructor].
  destruct (cstr_chars t Ht) as [Hc Hcl]. split_and!; [done | done | cbn; lia].
Qed.

Lemma read_mqtypes_ok n : forall k, 0 <= k -> (k + Z.of_nat n) * 2 <= opt_len ->
  exists ts, read_mqtypes n d k = Ret ts /\ Forall u16_range ts /\ length ts = n.
Proof.
  induction n as [| n IH]; intros k Hk Hl; cbn [read_mqtypes]; [by exists [] |].
  destruct (rd16_range d (k * 2)) as (v & -> & Hv); [done | lia | lia |]. cbn [obind].
  destruct (IH (k + 1)) as (ts & -> & Hts & Hn); [lia | lia |]. cbn [obind]. exists (v :: ts). split_and!; [done | by constructor | cbn; lia].
Qed.

Lemma parse_mqtype_wf m : mqtype_wf m -> exists m', parse_mqtype m d opt_len = Ret m' /\ mqtype_wf m'.
Proof.
  intros [H1 H2]. unfold parse_mqtype. case_if; [by eexists |]. case_if; [| by eexists].
  destruct (read_mqtypes_ok (Z.to_nat (Z.min (opt_len / 2) 16)) 0) as (ts & -> & Hts & Hn); [lia | |].
  { pose proof (Z.div_mod opt_len 2). pose proof (Z.div_pos opt_len 2). lia. }
  cbn [obind]. eexists. split; [done |]. split; [done |]. cbn. lia.
Qed.

(** The mask of the padding bits clears them. *)
Lemma pad_bits b r j : isbyte b -> 1 <= r <= 7 -> Z.land b (u8 (Z.shiftl 1 (8 - r) - 1)) = 0 -> 0 <= j < 8 - r -> Z.testbit b j = false.
Proof.
  intros Hb Hr H0 Hj. rewrite Z.shiftl_1_l in H0. unfold u8 in H0. rewrite Z.mod_small in H0.
  2: { assert (r = 1 \/ r = 2 \/ r = 3 \/ r = 4 \/ r = 5 \/ r = 6 \/ r = 7) as Hr' by lia.
       repeat (destruct Hr' as [-> | Hr']; [vm_compute; split; congruence |]). subst. vm_compute. split; congruence. }
  replace (2 ^ (8 - r) - 1) with (Z.ones (8 - r)) in H0 by (rewrite Z.ones_equiv; lia).
  apply (f_equal (fun z => Z.testbit z j)) in H0. rewrite Z.land_spec, Z.bits_0, Z.ones_spec_low in H0 by lia. by rewrite andb_true_r in H0.
Qed.

Lemma ecs_fields_ok : 0 <= opt_len ->
  ecs_fields d opt_len = Ret None \/
  exists family prefix, ecs_fields d opt_len = Ret (Some (family, prefix, 0)) /\
    ((family = 1 /\ 0 <= prefix <= 32) \/ (family = 2 /\ 0 <= prefix <= 128)) /\ opt_len = 4 + (prefix + 7) / 8 /\
    (prefix mod 8 <> 0 -> exists b, rd d (4 + (prefix + 7) / 8 - 1) = Ret b /\ isbyte b /\
       Z.land b (u8 (Z.shiftl 1 (8 - prefix mod 8) - 1)) = 0).
Proof.
  intros Ho. unfold ecs_fields. case_if; [| by left].
  destruct (rd16_range d 0) as (f & -> & Hf); [done | lia | lia |]. destruct (rd_range d 2) as (sp & -> & Hsp); [done | lia |].
  destruct (rd_range d 3) as (sc & -> & Hsc); [done | lia |]. cbn [obind].
  destruct (negb (f =? 1) && negb (f =? 2)) eqn:E1; [by left |]. destruct ((f =? 1) && (32 <? sp)) eqn:E2; [by left |].
  destruct ((f =? 2) && (128 <? sp)) eqn:E3; [by left |]. destruct (Z.eqb_spec sc 0) as [-> | ?]; [| by left]. cbn [negb].
  destruct (Z.eqb_spec (opt_len - 4) ((sp + 7) / 8)) as [El | ?]; [| by left]. cbn [negb].
  assert ((f = 1 /\ 0 <= sp <= 32) \/ (f = 2 /\ 0 <= sp <= 128)) as Hfam by (unfold isbyte in Hsp; lia).
  assert (0 <= (sp + 7) / 8) by (apply Z.div_pos; unfold isbyte in Hsp; lia).
  destruct (Z.eqb_spec (sp mod 8) 0) as [Em | Em]; cbn [negb].
  { right. exists f, sp. split_and!; [done | done | lia | done]. }
  assert (sp <> 0) by (intros ->; done). assert (0 < (sp + 7) / 8) by (apply Z.div_str_pos; unfold isbyte in Hsp; lia).
  destruct (rd_range d (4 + (sp + 7) / 8 - 1)) as (b & Hb & Hbb); [done | lia |]. rewrite Hb. cbn [obind].
  destruct (Z.eqb_spec (Z.land b (u8 (Z.shiftl 1 (8 - sp mod 8) - 1))) 0) as [Eb | ?]; [| by left]. cbn [negb].
  right. exists f, sp. split_and!; [done | done | lia |]. intros _. by exists b.
Qed.

Lemma parse_ecs_wf s : 0 <= opt_len -> ecs_wf s -> exists s', parse_ecs s d opt_len = Ret s' /\ ecs_wf s'.
Proof.
  intros Ho Hs. pose proof Hs as (H1 & H2 & H3 & H4). unfold parse_ecs. case_if; [by exists s |]. apply orb_false_iff in E as [Eh Em].
  destruct (ecs_fields_ok Ho) as [-> | (f & sp & -> & Hfam & El & Hpad)]; cbn [obind].
  { eexists. split; [done |]. unfold ecs_wf. cbn. rewrite Eh. split_and!; [done | done | naive_solver | done]. }
  assert (0 <= (sp + 7) / 8 <= 16) as Hn by (split; [apply Z.div_pos; lia | enough ((sp + 7) / 8 < 17) by lia; apply Z.div_lt_upper_bound; lia]).
  replace (if 16 <? opt_len - 4 then 16 else opt_len - 4) with (opt_len - 4) by (case_if; lia).
  destruct (slice_ok d 4 (opt_len - 4)) as (a & Ha & Hab & Hal); [done | lia | lia | lia |]. rewrite Ha. cbn [obind].
  destruct (wr_list_bytes (replicate 16 0) a) as (a' & -> & Ha' & Hal' & Ea'); [bytes_lit | done | rewrite length_replicate; lia |]. cbn [obind].
  eexists. split; [done |]. rewrite length_replicate in Hal'. unfold ecs_wf. cbn. rewrite Em. split_and!; [done | done | naive_solver |].
  intros _. split_and!; [done | done |]. intros i Hi. unfold addr_bit. rewrite Ea'.
  assert (0 <= i / 8 < 16) as Hk by (split; [apply Z.div_pos; lia | apply Z.div_lt_upper_bound; lia]).
  destruct (Z.lt_ge_cases (i / 8) (len a)) as [Hlt | Hge].
  - rewrite app_nth1 by lia. pose proof (Z.div_mod i 8). pose proof (Z.mod_pos_bound i 8). pose proof (Z.div_mod sp 8).
    pose proof (Z.mod_pos_bound sp 8). pose proof (Z.div_mod (sp + 7) 8). pose proof (Z.mod_pos_bound (sp + 7) 8).
    assert (sp mod 8 <> 0 /\ i / 8 = (sp + 7) / 8 - 1 /\ sp / 8 = i / 8) as (Hnz & Hik & Hspk) by lia.
    destruct (Hpad Hnz) as (b & Hb & Hbb & Hz).
    assert (nth (Z.to_nat (i / 8)) a 0 = b) as ->.
    { unfold slice in Ha. case_if_in Ha; [| done]. injection Ha as <-. apply nth_lookup_Some. rewrite lookup_take_lt, lookup_drop by lia.
      apply rd_Ret in Hb as [_ Hb]. by replace (Z.to_nat 4 + Z.to_nat (i / 8))%nat with (Z.to_nat (4 + (sp + 7) / 8 - 1)) by lia. }
    apply (pad_bits b (sp mod 8)); [done | lia | done | lia].
  - rewrite app_nth2, drop_replicate by lia. enough (forall n k, nth k (replicate n 0) 0 = 0) as -> by apply Z.bits_0.
    clear. induction n as [| n IH]; intros [| k]; cbn; auto.
Qed.

Lemma parse_expire_wf x : u32_range (expire_value x) -> exists x', parse_expire x d opt_len = Ret x' /\ u32_range (expire_value x').
Proof.
  intros Hx. unfold parse_expire. case_if; [by eexists |]. case_if; [| by eexists].
  destruct (rd32_range d 0) as (v & -> & Hv); [done | lia | lia |]. by eexists.
Qed.

Lemma parse_ext_wf x : isbyte (karidns_ext_version x) /\ u32_range (karidns_ext_hash x) ->
  exists x', parse_ext x d opt_len = Ret x' /\ isbyte (karidns_ext_version x') /\ u32_range (karidns_ext_hash x').
Proof.
  intros Hx. unfold parse_ext. case_if; [| by eexists]. destruct (rd_range d 0) as (v & -> & Hv); [done | lia |].
  destruct (rd32_range d 1) as (h & -> & Hh); [done | lia | lia |]. by eexists.
Qed.

Lemma parse_option_wf e code : edns_wf e -> exists e', parse_option e code d opt_len = Ret e' /\ edns_wf e' /\ present e' = present e.
Proof.
  intros (H1 & H2 & H3 & H4 & H5 & H6 & H7 & H8 & H9 & H10). unfold parse_option.
  assert (0 <= opt_len) as Ho by lia.
  case_if; [destruct (parse_cookie_wf _ H4) as (c & -> & Hc); eexists; split; [done |]; by unfold edns_wf; cbn |].
  case_if; [destruct (parse_ede_wf _ H5 H6) as (l & -> & Hl & Hn); eexists; split; [done |]; by unfold edns_wf; cbn |].
  case_if; [eexists; split; [done |]; by unfold edns_wf; cbn |].
  case_if; [eexists; split; [done |]; by unfold edns_wf; cbn |].
  case_if; [eexists; split; [done |]; by unfold edns_wf; cbn |].
  case_if; [destruct (parse_mqtype_wf _ H7) as (m & -> & Hm); eexists; split; [done |]; by unfold edns_wf; cbn |].
  case_if; [destruct (parse_ecs_wf _ Ho H8) as (x & -> & Hx); eexists; split; [done |]; by unfold edns_wf; cbn |].
  case_if; [destruct (parse_expire_wf _ H10) as (x & -> & Hx); eexists; split; [done |]; by unfold edns_wf; cbn |].
  case_if; [destruct (parse_ext_wf _ H9) as (x & -> & Hx); eexists; split; [done |]; by unfold edns_wf; cbn |].
  eexists; split; [done |]; by unfold edns_wf; cbn.
Qed.

End Option.

(** ** Lemmas: the scan of a message *)

Section Scan.
Context (req : list Z) (req_len : Z).
Hypothesis Hreq : bytes req.
Hypothesis Hlen : 0 <= req_len <= len req.

Lemma parse_options_wf fuel : forall e off stop,
  edns_wf e -> 0 <= off -> stop <= req_len -> (0 < fuel)%nat -> (Z.to_nat (stop - off) < fuel)%nat ->
  exists e', parse_options fuel e req off stop = Ret e' /\ edns_wf e' /\ present e' = present e.
Proof.
  induction fuel as [| fuel IH]; intros e off stop He Ho Hs H0 Hf; [lia |]. cbn [parse_options]. case_if; [| by exists e].
  destruct (rd16_range req off) as (code & -> & Hc); [done | lia | lia |].
  destruct (rd16_range req (off + 2)) as (n & -> & Hn); [done | lia | lia |]. cbn [obind]. unfold u16_range in *. case_if; [by exists e |].
  destruct (slice_ok req (off + 4) n) as (d & -> & Hd & Hdl); [done | lia | lia | lia |]. cbn [obind].
  destruct (parse_option_wf d n Hd Hdl e code He) as (e1 & -> & He1 & Hp1). cbn [obind].
  destruct (IH e1 (off + 4 + n) stop) as (e2 & -> & He2 & Hp2); [done | lia | lia | lia | lia |].
  exists e2. split_and!; [done | done | congruence].
Qed.

Lemma scan_name_ok fuel : forall off, 0 <= off -> (0 < fuel)%nat -> (Z.to_nat (req_len - off) < fuel)%nat ->
  scan_name fuel req req_len off = Fail \/ exists off', scan_name fuel req req_len off = Ret off' /\ off <= off' /\ (off < req_len -> off < off').
Proof.
  induction fuel as [| fuel IH]; intros off Ho H0 Hf; [lia |]. cbn [scan_name]. case_if; [| right; exists off; split_and!; (done || lia)].
  destruct (rd_range req off) as (raw & -> & Hb); [done | lia |]. cbn [obind]. unfold isbyte in Hb.
  case_if; [right; eexists; split_and!; [done | lia | lia] |]. case_if; [| by left]. case_if; [by left |].
  case_if; [right; eexists; split_and!; [done | lia | lia] |]. case_if; [by left |].
  destruct (IH (off + (raw + 1))) as [-> | (o & -> & Ho1 & Ho2)]; [lia | lia | lia | by left |]. right. exists o. split_and!; (done || lia).
Qed.

Lemma parse_rrs_wf n : forall rr0 ar0 i off c e,
  edns_wf e -> 0 <= off ->
  exists ok e', parse_rrs n req req_len rr0 ar0 i off c e = Ret (ok, e') /\ edns_wf e'.
Proof.
  induction n as [| n IH]; intros rr0 ar0 i off c e He Ho; cbn [parse_rrs]; [by eexists _, _ |]. case_if; [by eexists _, _ |].
  destruct (scan_name_ok (S (Z.to_nat (req_len - off))) off) as [-> | (o & -> & Ho1 & Ho2)]; [lia | lia | lia | by eexists _, _ |]. cbn [orelse].
  case_if; [apply IH; [done | lia] |]. case_if; [| by eexists _, _].
  destruct (rd16_range req o) as (ty & -> & Hty); [done | lia | lia |]. destruct (rd16_range req (o + 2)) as (cl & -> & Hcl); [done | lia | lia |].
  destruct (rd32_range req (o + 4)) as (ttl & -> & Httl); [done | lia | lia |].
  destruct (rd16_range req (o + 8)) as (rdl & -> & Hrdl); [done | lia | lia |]. cbn [obind]. unfold u16_range in Hrdl.
  case_if; [by eexists _, _ |]. case_if; [| apply IH; [done | lia]].
  destruct (rd_range req off) as (ow & -> & How); [done | lia |]. cbn [obind]. case_if; [by eexists _, _ |]. case_if; [by eexists _, _ |].
  assert (forall v, 0 <= v -> isbyte (Z.land v 255)) as Hland.
  { intros v Hv. change 255 with (Z.ones 8). rewrite Z.land_ones by lia. apply Z.mod_pos_bound. lia. }
  set (e1 := set_opt e _ _ _ _ _). assert (edns_wf e1) as He1.
  { destruct He as (_ & _ & _ & He). unfold edns_wf, e1. cbn [set_opt udp_payload_size ext_rcode version cookie ede_list mqtype ecs ext expire].
    unfold u32_range in Httl. split_and!; [by unfold u16_range in * | | | apply He..]; apply Hland, Z.shiftr_nonneg; lia. }
  case_if; [by eexists _, _ |].
  destruct (parse_options_wf (S (Z.to_nat rdl)) e1 (o + 10) (o + 10 + rdl)) as (e2 & -> & He2 & _); [done | lia | lia | lia | lia |]. cbn [obind].
  apply IH; [done | lia].
Qed.

End Scan.

Lemma edns_start_wf : edns_wf (set_udp_size edns_zero 512).
Proof.
  unfold edns_wf, u16_range, u32_range, isbyte, cookie_wf, mqtype_wf, ecs_wf, MAX_EDE_COUNT.
  cbn -[replicate]. split_and!; try lia; try done; try bytes_lit; try constructor; try naive_solver.
Qed.

(** ** Specification: the options of a response *)

Definition opt_octets (o : Z * list Z) : list Z := be16 (fst o) ++ be16 (len (snd o)) ++ snd o.
Definition body (opts : list (Z * list Z)) : list Z := concat (map opt_octets opts).

Definition ede_option (x : parsed_ede_t) : Z * list Z := (15, be16 (ede_code x) ++ ede_text x).

Definition when {A} (c : bool) (x : A) : list A := if c then [x] else [].

Definition cookie_option (c : cookie_t) : Z * list Z :=
  (10, client_cookie c ++ take (Z.to_nat (server_cookie_len c)) (server_cookie c)).
Definition ecs_option (s : ecs_t) : Z * list Z :=
  (8, be16 (ecs_family s) ++ [ecs_source_prefix s; ecs_scope_prefix s] ++ take (Z.to_nat (ecs_addr_bytes s)) (ecs_addr s)).
Definition nsid_options (nsid : option (list Z)) : list (Z * list Z) := match nsid with Some s => [(3, s)] | None => [] end.
Definition keepalive_options (e : edns_info_t) (is_tcp : bool) (cfg : option opt_config) : list (Z * list Z) :=
  match cfg with Some c => when (keepalive_on e is_tcp cfg) (11, be16 (keepalive_value c)) | None => [] end.

Definition response_options (e : edns_info_t) (is_tcp : bool) (cfg : option opt_config) : list (Z * list Z) :=
  when (has_cookie (cookie e)) (cookie_option (cookie e)) ++
  map ede_option (ede_list e) ++
  when (has_mqtype_query (mqtype e)) (21, concat (map be16 (mqtypes (mqtype e)))) ++
  nsid_options (nsid_of e cfg) ++
  keepalive_options e is_tcp cfg ++
  when (has_karidns_ext (ext e)) (EDNS_OPTION_KARIDNS_EXT, karidns_ext_version (ext e) :: be32 (karidns_ext_hash (ext e))) ++
  when (send_expire (expire e)) (EDNS_OPTION_EXPIRE, be32 (send_expire_value (expire e))) ++
  when (ecs_on e cfg) (ecs_option (ecs e)).

Definition opt_record (e : edns_info_t) (rcode_ext : Z) (is_tcp : bool) (cfg : option opt_config) : list Z :=
  let opts := body (response_options e is_tcp cfg) in
  [0; 0; 41] ++ be16 (if server_udp_size e =? 0 then 1232 else server_udp_size e) ++ [rcode_ext; 0] ++
  be16 (if dnssec_ok e then 32768 else 0) ++ be16 (len opts) ++ opts.

(** ** Lemmas: the lengths *)

Lemma body_app a b : body (a ++ b) = body a ++ body b.
Proof. unfold body. by rewrite map_app, concat_app. Qed.

Lemma length_body_cons o opts : len (body (o :: opts)) = 4 + len (snd o) + len (body opts).
Proof. unfold body. cbn [map concat]. rewrite length_app. unfold opt_octets. rewrite !length_app. cbn [be16 length]. lia. Qed.

Lemma length_body_ede l : len (body (map ede_option l)) = foldr (fun x n => 6 + len (ede_text x) + n) 0 l.
Proof. induction l as [| x l IH]; [done |]. cbn [map foldr]. rewrite length_body_cons, IH. cbn [ede_option snd]. rewrite length_app. cbn [be16 length]. lia. Qed.

Lemma length_be16s l : len (concat (map be16 l)) = 2 * len l.
Proof. induction l as [| x l IH]; [done |]. cbn [map concat]. rewrite length_app. cbn [be16 length]. lia. Qed.

Lemma u16_id z : 0 <= z < 65536 -> u16 z = z.
Proof. apply Z.mod_small. Qed.

Lemma ede_rdlen_spec l : len (body (map ede_option l)) < 65536 -> ede_rdlen l = len (body (map ede_option l)).
Proof.
  rewrite length_body_ede. unfold ede_rdlen.
  assert (forall l n, 0 <= n -> n + foldr (fun x n => 6 + len (ede_text x) + n) 0 l < 65536 ->
    foldl (fun n x => u16 (n + (6 + len (ede_text x)))) n l = n + foldr (fun x n => 6 + len (ede_text x) + n) 0 l) as H.
  { clear. induction l as [| x l IH]; intros n Hn Hl; cbn [foldl foldr] in *; [lia |].
    assert (forall l, 0 <= foldr (fun x n => 6 + len (ede_text x) + n) 0 l) as Hnn by (clear; induction l as [| x l IH]; cbn [foldr]; lia).
    specialize (Hnn l). rewrite u16_id by lia. rewrite IH by lia. lia. }
  intros Hl. rewrite H by lia. lia.
Qed.

Lemma ecs_wf_sendable s : ecs_wf s -> ecs_sendable s.
Proof. intros (_ & H16 & _ & Hs). split; [done |]. intros Hh. by destruct (Hs Hh) as (_ & ? & _). Qed.

Lemma edns_wf_sendable e : edns_wf e -> edns_sendable e.
Proof. intros (_ & _ & _ & H4 & H5 & H6 & H7 & H8 & _). split_and!; try done. by apply ecs_wf_sendable. Qed.

Lemma ecs_addr_bytes_spec s : ecs_sendable s -> has_ecs s = true -> ecs_addr_bytes s = (ecs_source_prefix s + 7) / 8 /\ 0 <= ecs_addr_bytes s <= 16.
Proof.
  intros (_ & Hs) Hh. pose proof (Hs Hh) as Hf. unfold ecs_addr_bytes.
  assert (0 <= (ecs_source_prefix s + 7) / 8 < 17) as Hn by (split; [apply Z.div_pos; lia | apply Z.div_lt_upper_bound; lia]).
  assert (u8 ((ecs_source_prefix s + 7) / 8) = (ecs_source_prefix s + 7) / 8) as -> by (apply Z.mod_small; lia).
  assert (ecs_family s = 1 -> (ecs_source_prefix s + 7) / 8 < 5) by (intros; apply Z.div_lt_upper_bound; lia).
  case_ifs; lia.
Qed.

Lemma length_body_when c o : len (body (when c o)) = if c then 4 + len (snd o) else 0.
Proof. destruct c; [| done]. cbn [when]. rewrite length_body_cons. cbn. lia. Qed.

Lemma length_cookie_option c : cookie_wf c -> len (snd (cookie_option c)) = 8 + server_cookie_len c.
Proof. intros (_ & H8 & _ & H32 & Hl & _). unfold cookie_option. cbn [snd]. rewrite length_app, length_take. lia. Qed.

Lemma length_ecs_option s : ecs_sendable s -> has_ecs s = true -> len (snd (ecs_option s)) = 4 + ecs_addr_bytes s.
Proof.
  intros Hs Hh. destruct (ecs_addr_bytes_spec s Hs Hh) as [_ Hn]. destruct Hs as (H16 & _). unfold ecs_option. cbn [snd].
  rewrite !length_app, length_take. cbn [be16 length]. lia.
Qed.

Lemma length_keepalive_options e is_tcp cfg : len (body (keepalive_options e is_tcp cfg)) = if keepalive_on e is_tcp cfg then 6 else 0.
Proof.
  unfold keepalive_options. destruct cfg as [c |]; [by rewrite length_body_when |]. unfold keepalive_on. by rewrite andb_false_r.
Qed.

Lemma length_nsid_options nsid : len (body (nsid_options nsid)) = match nsid with Some s => 4 + len s | None => 0 end.
Proof. destruct nsid as [s |]; [| done]. cbn [nsid_options]. rewrite length_body_cons. cbn. lia. Qed.

(** One step of a sum in 16 bits. *)
Lemma add16 (c : bool) n k : 0 <= n -> 0 <= k -> n + (if c then k else 0) < 65536 -> (if c then u16 (n + k) else n) = n + (if c then k else 0).
Proof. intros. destruct c; [by rewrite u16_id by lia | lia]. Qed.

(** The running sum that the code keeps in 16 bits is the length. *)
Lemma opt_rdlen_spec e is_tcp cfg : edns_sendable e -> len (body (response_options e is_tcp cfg)) < 65536 ->
  opt_rdlen e is_tcp cfg = len (body (response_options e is_tcp cfg)).
Proof.
  intros (Hck & _ & _ & _ & Hecs) Hl. unfold response_options in *. rewrite !body_app, !length_app, !Nat2Z.inj_add in *.
  rewrite !length_body_when, length_keepalive_options, length_nsid_options, length_cookie_option in * by done. cbn [snd] in *. unfold be32 in *. eval_lengths.
  rewrite length_be16s in *. set (ede := len (body (map ede_option (ede_list e)))) in *.
  assert ((if ecs_on e cfg then 4 + len (snd (ecs_option (ecs e))) else 0) = if ecs_on e cfg then 8 + ecs_addr_bytes (ecs e) else 0) as Ee.
  { destruct (ecs_on e cfg) eqn:E; [| done]. apply andb_true_iff in E as [E _]. rewrite length_ecs_option by done. lia. }
  rewrite Ee in *. 
  assert (0 <= ede) as H0 by lia.
  assert (0 <= (if ecs_on e cfg then 8 + ecs_addr_bytes (ecs e) else 0)) as H1 by (rewrite <- Ee; case_if; lia).
  assert (0 <= match nsid_of e cfg with Some s => 4 + len s | None => 0 end) as H2 by (destruct (nsid_of e cfg); lia).
  assert (0 <= server_cookie_len (cookie e) <= 32) as H3 by (destruct Hck as (_ & _ & _ & _ & ? & _); lia).
  set (A := if has_cookie (cookie e) then 4 + (8 + server_cookie_len (cookie e)) else 0) in *.
  set (B := if has_mqtype_query (mqtype e) then 4 + 2 * len (mqtypes (mqtype e)) else 0) in *.
  set (N := match nsid_of e cfg with Some s => 4 + len s | None => 0 end) in *.
  set (K := if keepalive_on e is_tcp cfg then 6 else 0) in *.
  set (X := if has_karidns_ext (ext e) then 4 + 5 else 0) in *.
  set (S := if send_expire (expire e) then 4 + 4 else 0) in *.
  set (E := if ecs_on e cfg then 8 + ecs_addr_bytes (ecs e) else 0) in *.
  assert (0 <= A /\ 0 <= B /\ 0 <= K /\ 0 <= X /\ 0 <= S) as (? & ? & ? & ? & ?)
    by (unfold A, B, K, X, S; split_and!; case_if; lia).
  unfold opt_rdlen. assert (ede_rdlen (ede_list e) = ede) as -> by (apply ede_rdlen_spec; fold ede; lia).
  assert ((if has_cookie (cookie e) then u16 (4 + 8 + server_cookie_len (cookie e)) else 0) = A) as -> by (unfold A; case_if; [rewrite u16_id; lia | done]).
  rewrite (u16_id (A + ede)) by lia.
  replace (len (mqtypes (mqtype e)) * 2) with (2 * len (mqtypes (mqtype e))) by lia.
  rewrite (add16 (has_mqtype_query (mqtype e)) (A + ede)) by (try fold B; lia). fold B.
  assert ((match nsid_of e cfg with Some s => u16 (A + ede + B + (4 + u16 (len s))) | None => A + ede + B end) = A + ede + B + N) as ->.
  { unfold N in *. destruct (nsid_of e cfg); [| lia]. rewrite (u16_id (len _)) by lia. rewrite u16_id by lia. lia. }
  rewrite (add16 (keepalive_on e is_tcp cfg) _ 6) by (try fold K; lia). fold K.
  rewrite (add16 (has_karidns_ext (ext e)) _ 9) by (change 9 with (4 + 5); try fold X; lia). change 9 with (4 + 5). fold X.
  rewrite (add16 (send_expire (expire e)) _ 8) by (change 8 with (4 + 4); try fold S; lia). change (if send_expire (expire e) then 8 else 0) with S.
  assert (ecs_on e cfg = true -> 0 <= 8 + ecs_addr_bytes (ecs e)) by (intros Ec; unfold E in H1; rewrite Ec in H1; done).
  unfold E in *. destruct (ecs_on e cfg); [rewrite u16_id by lia |]; lia.
Qed.

(** ** Lemmas: writing *)

Section Writer.
Context (res : list Z) (o : Z).
Hypothesis Ho : 0 <= o.

(** The octets [W] were written at [o]. *)
Definition wrote (W : list Z) : list Z * Z := (splice res o W, o + len W).
Definition fits (W : list Z) : Prop := o + len W <= len res /\ o + len W < 65536.

Lemma fits_app_l W x : fits (W ++ x) -> fits W.
Proof. unfold fits. rewrite length_app. lia. Qed.

Lemma emit_wrote W x : fits (W ++ x) -> emit (wrote W) x = Ret (wrote (W ++ x)).
Proof.
  unfold fits. rewrite length_app. intros [H1 H2]. unfold emit, wrote. cbn [fst snd].
  rewrite wr_list_splice by (rewrite ?length_splice by lia; lia). cbn [obind]. rewrite splice_app by lia.
  rewrite u16_id by lia. rewrite length_app. do 2 f_equal. lia.
Qed.

Lemma body_one x : body [x] = opt_octets x.
Proof. unfold body. cbn [map concat]. apply app_nil_r. Qed.

Lemma emit_edes_spec l : forall W, fits (W ++ body (map ede_option l)) -> emit_edes (wrote W) l = Ret (wrote (W ++ body (map ede_option l))).
Proof.
  induction l as [| x l IH]; intros W Hf; cbn [emit_edes map] in *; [by rewrite app_nil_r |].
  change (body (ede_option x :: map ede_option l)) with (opt_octets (ede_option x) ++ body (map ede_option l)) in *. rewrite app_assoc in *.
  unfold emit_ede. assert ([0; 15] ++ be16 (2 + len (ede_text x)) ++ be16 (ede_code x) ++ ede_text x = opt_octets (ede_option x)) as ->.
  { unfold opt_octets, ede_option. cbn [fst snd]. do 2 f_equal. rewrite length_app. cbn [be16 length]. f_equal. lia. }
  rewrite emit_wrote by exact (fits_app_l _ _ Hf). cbn [obind]. by apply IH.
Qed.

Lemma emit_cookie_spec c W : cookie_wf c -> fits (W ++ body (when (has_cookie c) (cookie_option c))) ->
  emit_cookie (wrote W) c = Ret (wrote (W ++ body (when (has_cookie c) (cookie_option c)))).
Proof.
  intros Hc Hf. pose proof (length_cookie_option c Hc) as Hl. destruct Hc as (Hb8 & H8 & Hb32 & H32 & Hn & _).
  unfold emit_cookie. destruct (has_cookie c); cbn [when] in *; [| by rewrite app_nil_r]. rewrite body_one in *.
  assert (opt_octets (cookie_option c) = ([0; 10] ++ be16 (u16 (8 + server_cookie_len c))) ++ client_cookie c ++
    take (Z.to_nat (server_cookie_len c)) (server_cookie c)) as E.
  { unfold opt_octets. rewrite Hl, u16_id by lia. unfold cookie_option. cbn [fst snd]. rewrite <- app_assoc. reflexivity. }
  rewrite E in *. rewrite app_assoc in Hf. rewrite emit_wrote by exact (fits_app_l _ _ Hf). cbn [obind].
  rewrite slice_in by lia. cbn [obind]. rewrite drop_0, take_ge by lia. rewrite app_assoc in Hf.
  rewrite emit_wrote by exact (fits_app_l _ _ Hf). cbn [obind]. rewrite !app_assoc in *. case_if.
  - rewrite slice_in by lia. cbn [obind]. rewrite drop_0. by apply emit_wrote.
  - replace (Z.to_nat (server_cookie_len c)) with 0%nat by lia. cbn [take]. by rewrite app_nil_r.
Qed.

Lemma emit_mqtype_spec m W : let x := when (has_mqtype_query m) (21, concat (map be16 (mqtypes m))) in
  mqtype_wf m -> fits (W ++ body x) -> emit_mqtype (wrote W) m = Ret (wrote (W ++ body x)).
Proof.
  intros x [_ Hm] Hf. unfold emit_mqtype, x in *. destruct (has_mqtype_query m); cbn [when] in *; [| by rewrite app_nil_r]. rewrite body_one in *.
  rewrite emit_wrote; unfold opt_octets in *; cbn [fst snd] in *; rewrite length_be16s in *; rewrite u16_id by lia;
    replace (len (mqtypes m) * 2) with (2 * len (mqtypes m)) by lia; done.
Qed.

Lemma emit_nsid_spec nsid W : fits (W ++ body (nsid_options nsid)) -> emit_nsid (wrote W) nsid = Ret (wrote (W ++ body (nsid_options nsid))).
Proof.
  intros Hf. destruct nsid as [s |]; cbn [emit_nsid nsid_options] in *; [| by rewrite app_nil_r]. rewrite body_one in *.
  assert (len s < 65536) as Hs by (unfold fits, opt_octets in Hf; rewrite !length_app in Hf; cbn [snd] in Hf; lia).
  rewrite u16_id, Nat2Z.id, take_ge by lia. by apply emit_wrote.
Qed.

Lemma emit_ecs_spec s W : ecs_sendable s -> has_ecs s = true -> fits (W ++ body [ecs_option s]) ->
  emit_ecs (wrote W) s = Ret (wrote (W ++ body [ecs_option s])).
Proof.
  intros Hs Hh. pose proof (length_ecs_option s Hs Hh) as Hl. destruct (ecs_addr_bytes_spec s Hs Hh) as [_ Hn]. destruct Hs as (H16 & _).
  rewrite body_one. unfold emit_ecs. set (n := ecs_addr_bytes s) in *.
  assert (opt_octets (ecs_option s) = ([0; 8] ++ be16 (4 + n) ++ be16 (ecs_family s) ++ [ecs_source_prefix s; ecs_scope_prefix s]) ++
    take (Z.to_nat n) (ecs_addr s)) as ->.
  { unfold opt_octets. rewrite Hl. unfold ecs_option. cbn [fst snd]. fold n. rewrite <- !app_assoc. reflexivity. }
  rewrite app_assoc. intros Hf. rewrite emit_wrote by exact (fits_app_l _ _ Hf). cbn [obind]. case_if.
  - rewrite slice_in by lia. cbn [obind]. rewrite drop_0. by apply emit_wrote.
  - replace (Z.to_nat n) with 0%nat by lia. cbn [take]. by rewrite app_nil_r.
Qed.

Lemma emit_when c x opt W : opt_octets opt = x -> fits (W ++ body (when c opt)) ->
  (if c then emit (wrote W) x else Ret (wrote W)) = Ret (wrote (W ++ body (when c opt))).
Proof. intros <- Hf. destruct c; cbn [when] in *; [rewrite body_one in *; by apply emit_wrote | by rewrite app_nil_r]. Qed.

End Writer.

(** ** The OPT record of a response *)

Lemma length_opt_record e rc tcp cfg : len (opt_record e rc tcp cfg) = 11 + len (body (response_options e tcp cfg)).
Proof. unfold opt_record. cbv zeta. rewrite !length_app. cbn [be16 length]. lia. Qed.

(** The EDE list that is sent: all of it or, when it does not fit, none. *)
Definition sent (e : edns_info_t) (room : Z) (tcp : bool) (cfg : option opt_config) : edns_info_t :=
  if (room <? 11 + len (body (response_options e tcp cfg))) && negb (Nat.eqb (length (ede_list e)) 0) then set_ede e [] else e.

Lemma sent_sendable e room tcp cfg : edns_sendable e -> edns_sendable (sent e room tcp cfg).
Proof. intros He. unfold sent. case_if; [| done]. destruct He as (H1 & _ & _ & H4 & H5). split_and!; [done | constructor | unfold MAX_EDE_COUNT; cbn; lia | done | done]. Qed.

Lemma body_set_ede_nil e tcp cfg :
  len (body (response_options e tcp cfg)) = len (body (response_options (set_ede e []) tcp cfg)) + len (body (map ede_option (ede_list e))).
Proof.
  unfold response_options. cbn [set_ede set_body cookie ede_list mqtype ext expire ecs map app].
  change (nsid_of (set_ede e []) cfg) with (nsid_of e cfg). change (keepalive_options (set_ede e []) tcp cfg) with (keepalive_options e tcp cfg).
  change (ecs_on (set_ede e []) cfg) with (ecs_on e cfg). rewrite !body_app, !length_app. lia.
Qed.

Lemma write_opt_spec res o e rc tcp cfg : 0 <= o -> edns_sendable e -> fits res o (opt_record e rc tcp cfg) ->
  write_opt (res, o) (len (body (response_options e tcp cfg))) e rc tcp cfg = Ret (wrote res o (opt_record e rc tcp cfg)).
Proof.
  intros Ho (Hck & _ & _ & Hmq & Hecs) Hf. unfold write_opt. cbv zeta.
  set (n := len (body (response_options e tcp cfg))).
  set (H := [0; 0; 41] ++ be16 (if server_udp_size e =? 0 then 1232 else server_udp_size e) ++ [rc; 0] ++ be16 (if dnssec_ok e then 32768 else 0) ++ be16 n).
  assert (opt_record e rc tcp cfg = [] ++ H ++ body (response_options e tcp cfg)) as E.
  { unfold opt_record, H. cbv zeta. fold n. cbn [app]. by rewrite <- !app_assoc. }
  rewrite E in *. clear E. unfold response_options in Hf |- *. rewrite !body_app in Hf |- *. rewrite !(app_assoc _ _ (body _)) in Hf |- *.
  assert ((res, o) = wrote res o []) as -> by (unfold wrote; rewrite splice_nil; f_equal; cbn; lia).
  pose proof (fits_app_l _ _ _ _ Hf) as F7. pose proof (fits_app_l _ _ _ _ F7) as F6. pose proof (fits_app_l _ _ _ _ F6) as F5.
  pose proof (fits_app_l _ _ _ _ F5) as F4. pose proof (fits_app_l _ _ _ _ F4) as F3. pose proof (fits_app_l _ _ _ _ F3) as F2.
  pose proof (fits_app_l _ _ _ _ F2) as F1. pose proof (fits_app_l _ _ _ _ F1) as F0.
  rewrite emit_wrote by assumption. cbn [obind]. rewrite emit_cookie_spec by assumption. cbn [obind]. rewrite emit_edes_spec by assumption. cbn [obind].
  rewrite emit_mqtype_spec by assumption. cbn [obind]. rewrite emit_nsid_spec by assumption. cbn [obind].
  match type of F5 with fits _ _ (?W ++ _) => set (W4 := W) in * end.
  assert ((match cfg with
           | Some c => if keepalive_on e tcp cfg then emit (wrote res o W4) ([0; 11; 0; 2] ++ be16 (keepalive_value c)) else Ret (wrote res o W4)
           | None => Ret (wrote res o W4)
           end) = Ret (wrote res o (W4 ++ body (keepalive_options e tcp cfg)))) as ->.
  { unfold keepalive_options in *. destruct cfg as [c |]; [by apply emit_when | by rewrite app_nil_r]. }
  cbn [obind]. rewrite (emit_when _ _ Ho _ _ (EDNS_OPTION_KARIDNS_EXT, karidns_ext_version (ext e) :: be32 (karidns_ext_hash (ext e)))) by done.
  cbn [obind]. rewrite (emit_when _ _ Ho _ _ (EDNS_OPTION_EXPIRE, be32 (send_expire_value (expire e)))) by done. cbn [obind].
  destruct (ecs_on e cfg) eqn:Ee; cbn [when] in *; [| by rewrite app_nil_r]. apply emit_ecs_spec; [done | done | | done].
  by apply andb_true_iff in Ee as [? _].
Qed.

(** What [assemble_edns_opt] does. *)
Lemma assemble_spec res max_len o ar e rc tcp cfg :
  edns_sendable e -> 0 <= o -> max_len <= len res -> max_len < 65536 -> len (body (response_options e tcp cfg)) < 65536 ->
  let e1 := sent e (max_len - o) tcp cfg in
  assemble_edns_opt res max_len o ar (Some e) rc tcp cfg =
  if o + len (opt_record e1 rc tcp cfg) <=? max_len
  then Ret (splice res o (opt_record e1 rc tcp cfg), o + len (opt_record e1 rc tcp cfg), u16 (ar + 1), e1)
  else Ret (res, o, ar, e1).
Proof.
  intros He Ho Hm Hm16 Hb e1. pose proof (sent_sendable e (max_len - o) tcp cfg He) as He1. fold e1 in He1.
  unfold assemble_edns_opt. change (default edns_zero (Some e)) with e. cbv zeta. rewrite opt_rdlen_spec by done.
  set (n1 := len (body (response_options e1 tcp cfg))).
  assert ((if (max_len <? o + 11 + len (body (response_options e tcp cfg))) && negb (Nat.eqb (length (ede_list e)) 0)
           then (u16 (len (body (response_options e tcp cfg)) - ede_rdlen (ede_list e)), set_ede e [])
           else (len (body (response_options e tcp cfg)), e)) = (n1, e1)) as ->.
  { unfold n1, e1, sent. replace (max_len - o <? 11 + len (body (response_options e tcp cfg)))
      with (max_len <? o + 11 + len (body (response_options e tcp cfg))) by lia.
    destruct (_ && _); [| done]. f_equal. pose proof (body_set_ede_nil e tcp cfg). rewrite ede_rdlen_spec by lia. rewrite u16_id by lia. lia. }
  rewrite length_opt_record. fold n1. replace (o + (11 + n1)) with (o + 11 + n1) by lia. case_if; [| done].
  assert (fits res o (opt_record e1 rc tcp cfg)) as Hf by (unfold fits; rewrite length_opt_record; fold n1; lia).
  unfold n1. rewrite write_opt_spec by done. unfold wrote. cbn [obind]. rewrite length_opt_record. do 4 f_equal. lia.
Qed.

(** The reserved room is enough for everything but the EDE list. *)
Lemma reserve_covers e tcp cfg : edns_sendable e ->
  11 + len (body (response_options (set_ede e []) tcp cfg)) <= edns_opt_reserve_len (Some e) tcp cfg.
Proof.
  intros (Hck & _ & _ & _ & Hecs). unfold edns_opt_reserve_len, response_options.
  cbn [set_ede set_body cookie ede_list mqtype ext expire ecs map app].
  change (nsid_of (set_ede e []) cfg) with (nsid_of e cfg). change (keepalive_options (set_ede e []) tcp cfg) with (keepalive_options e tcp cfg).
  change (ecs_on (set_ede e []) cfg) with (ecs_on e cfg). rewrite !body_app, !length_app, !Nat2Z.inj_add.
  rewrite !length_body_when, length_keepalive_options, length_nsid_options, length_cookie_option by done. cbn [snd]. unfold be32. eval_lengths.
  rewrite length_be16s. change (len (body [])) with 0.
  assert (forall (c : bool) x y, (c = true -> x <= y) -> (if c then x else 0) <= (if c then y else 0)) as Hif by (intros []; auto with lia).
  pose proof (Hif (has_cookie (cookie e)) (4 + (8 + server_cookie_len (cookie e))) (4 + 8 + 32)) as A.
  pose proof (Hif (has_mqtype_query (mqtype e)) (4 + 2 * len (mqtypes (mqtype e))) (4 + len (mqtypes (mqtype e)) * 2)) as B.
  pose proof (Hif (ecs_on e cfg) (4 + len (snd (ecs_option (ecs e)))) (4 + 4 + 16)) as C.
  assert ((if send_expire (expire e) then 4 + 4 else 0) <= (if has_expire_query (expire e) || send_expire (expire e) then 4 + 4 else 0)) as D
    by (destruct (has_expire_query (expire e)), (send_expire (expire e)); cbn; lia).
  destruct Hck as (_ & _ & _ & _ & Hcl & _). specialize (A ltac:(lia)). specialize (B ltac:(lia)).
  assert (ecs_on e cfg = true -> 4 + len (snd (ecs_option (ecs e))) <= 4 + 4 + 16) as Hc.
  { intros [Ee _]%andb_true_iff. rewrite length_ecs_option by done. destruct (ecs_addr_bytes_spec (ecs e) Hecs Ee) as [_ ?]. lia. }
  specialize (C Hc). change (4 + 2) with 6. lia.
Qed.

(** The options are shorter than 65536 octets. *)
Lemma options_bound e tcp cfg : edns_sendable e -> nsid_ok cfg -> len (body (response_options e tcp cfg)) < 65536.
Proof.
  intros (Hck & Hed & Hn & Hmq & Hecs) Hns. unfold response_options. rewrite !body_app, !length_app, !Nat2Z.inj_add.
  rewrite !length_body_when, length_keepalive_options, length_nsid_options, length_cookie_option, length_body_ede by done. cbn [snd]. unfold be32. eval_lengths. rewrite length_be16s.
  assert (foldr (fun x n => 6 + len (ede_text x) + n) 0 (ede_list e) <= 261 * len (ede_list e)) as He.
  { clear -Hed. induction Hed as [| x l (_ & _ & Hx) _ IH]; cbn [foldr length]; lia. }
  assert (ecs_on e cfg = true -> len (snd (ecs_option (ecs e))) <= 20) as Hc.
  { intros [Ee _]%andb_true_iff. rewrite length_ecs_option by done. destruct (ecs_addr_bytes_spec (ecs e) Hecs Ee) as [_ ?]. lia. }
  assert (match nsid_of e cfg with Some s => 4 + len s | None => 0 end <= 48004) as Hs.
  { unfold nsid_of. destruct (has_nsid_query e); [| lia]. destruct cfg as [c |]; [| lia]. destruct (nsid_string c) as [s |] eqn:Es; [| lia]. specialize (Hns c s eq_refl Es). lia. }
  destruct Hck as (_ & _ & _ & _ & Hcl & _), Hmq as [_ Hm]. unfold MAX_EDE_COUNT in Hn.
  destruct (has_cookie _), (has_mqtype_query _), (keepalive_on _ _ _), (has_karidns_ext _), (send_expire _), (ecs_on e cfg) eqn:Eo; try specialize (Hc eq_refl); lia.
Qed.

(** ** Lemmas: reading what was written *)

Lemma rd_splice_in buf i src j : 0 <= i -> i + len src <= len buf -> i <= j < i + len src -> rd (splice buf i src) j = rd src (j - i).
Proof.
  intros Hi Hl Hj. unfold splice. assert (len (take (Z.to_nat i) buf) = i) as Ht by (rewrite length_take; lia).
  rewrite rd_app_r by lia. rewrite Ht. by rewrite rd_app_l by lia.
Qed.

Lemma rd_splice_r buf i src j : 0 <= i -> i + len src <= len buf -> i + len src <= j -> rd (splice buf i src) j = rd buf j.
Proof.
  intros Hi Hl Hj. unfold splice. assert (len (take (Z.to_nat i) buf) = i) as Ht by (rewrite length_take; lia).
  rewrite rd_app_r, Ht, rd_app_r by lia. replace j with (Z.of_nat (Z.to_nat i + length src) + (j - i - len src)) at 2 by lia.
  rewrite rd_drop by lia. by rewrite Nat2Z.id.
Qed.

Lemma splice_app_l a b i src : 0 <= i -> i + len src <= len a -> splice (a ++ b) i src = splice a i src ++ b.
Proof.
  intros Hi Hl. unfold splice. rewrite take_app_le, drop_app_le by lia. by rewrite <- !app_assoc.
Qed.

Lemma join16 v : u16_range v -> Z.lor (Z.shiftl (hi16 v) 8) (Z.land v 255) = v.
Proof.
  intros Hv. unfold u16_range in Hv. unfold hi16, u8. change 255 with (Z.ones 8). rewrite Z.land_ones, Z.shiftr_div_pow2 by lia. change (2 ^ 8) with 256.
  rewrite (Z.mod_small (v / 256)) by (split; [apply Z.div_pos; lia | apply Z.div_lt_upper_bound; lia]).
  rewrite Z.lor_comm. rewrite lor_shiftl_add by (change (2 ^ 8) with 256; pose proof (Z.mod_pos_bound v 256); lia).
  change (2 ^ 8) with 256. pose proof (Z.div_mod v 256). lia.
Qed.

Lemma rd16_be16 pre v rest : u16_range v -> rd16 (pre ++ be16 v ++ rest) (len pre) = Ret v.
Proof.
  intros Hv. unfold rd16. cbn [be16 app]. rewrite rd_app_r, Z.sub_diag, rd_0 by lia. rewrite rd_app_r by lia.
  replace (len pre + 1 - len pre) with 1 by lia. rd_eval. by rewrite join16.
Qed.

Lemma rd16_at pre v rest i : i = len pre -> u16_range v -> rd16 (pre ++ be16 v ++ rest) i = Ret v.
Proof. intros ->. apply rd16_be16. Qed.

Lemma slice_at pre x rest i n : i = len pre -> n = len x -> slice (pre ++ x ++ rest) i n = Ret x.
Proof.
  intros -> ->. rewrite slice_in by (rewrite ?length_app; lia). rewrite !Nat2Z.id, drop_app_length. by rewrite take_app_length.
Qed.

Lemma slice_0 x rest n : n = len x -> slice (x ++ rest) 0 n = Ret x.
Proof. by apply (slice_at [] x rest). Qed.

Lemma slice_end pre x i n : i = len pre -> n = len x -> slice (pre ++ x) i n = Ret x.
Proof. intros. rewrite <- (app_nil_r x) at 1. by apply slice_at. Qed.

Lemma rd32_list a b c d rest :
  rd32 (a :: b :: c :: d :: rest) 0 = Ret (Z.lor (Z.lor (Z.lor (Z.shiftl a 24) (Z.shiftl b 16)) (Z.shiftl c 8)) d).
Proof. done. Qed.

Lemma rd32_at pre a b c d rest i : i = len pre ->
  rd32 (pre ++ a :: b :: c :: d :: rest) i = Ret (Z.lor (Z.lor (Z.lor (Z.shiftl a 24) (Z.shiftl b 16)) (Z.shiftl c 8)) d).
Proof.
  intros ->. rewrite <- (rd32_list a b c d rest). unfold rd32.
  rewrite (rd_app_r pre), Z.sub_diag, !rd_0 by lia. cbn [obind].
  rewrite (rd_app_r pre) by lia. replace (len pre + 1 - len pre) with 1 by lia. change (rd (a :: b :: c :: d :: rest) 1) with (Ret b). cbn [obind].
  rewrite (rd_app_r pre) by lia. replace (len pre + 2 - len pre) with 2 by lia. change (rd (a :: b :: c :: d :: rest) 2) with (Ret c). cbn [obind].
  rewrite (rd_app_r pre) by lia. replace (len pre + 3 - len pre) with 3 by lia. done.
Qed.

Lemma rd32_be32 v : u32_range v -> rd32 (be32 v) 0 = Ret v.
Proof.
  intros Hv. unfold be32. rewrite rd32_list. f_equal. unfold u32_range in Hv. unfold u8. change 255 with (Z.ones 8).
  rewrite !Z.land_ones, !Z.shiftr_div_pow2, !Z.shiftl_mul_pow2 by lia. change (2 ^ 24) with 16777216. change (2 ^ 16) with 65536. change (2 ^ 8) with 256.
  rewrite (Z.mod_small (v / 16777216)) by (split; [apply Z.div_pos; lia | apply Z.div_lt_upper_bound; lia]).
  assert (forall a b n, 0 <= n -> 0 <= b < 2 ^ n -> Z.lor (a * 2 ^ n) b = a * 2 ^ n + b) as Hor.
  { intros a b n Hn Hb. rewrite Z.lor_comm, <- Z.shiftl_mul_pow2 by lia. rewrite lor_shiftl_add by lia. rewrite Z.shiftl_mul_pow2 by lia. lia. }
  pose proof (Z.mod_pos_bound (v / 65536) 256). pose proof (Z.mod_pos_bound (v / 256) 256). pose proof (Z.mod_pos_bound v 256).
  change 16777216 with (2 ^ 24). rewrite (Hor (v / 2 ^ 24) _ 24) by lia. change (2 ^ 24) with 16777216.
  replace (v / 16777216 * 16777216 + v / 65536 mod 256 * 65536) with ((v / 16777216 * 256 + v / 65536 mod 256) * 2 ^ 16) by lia.
  rewrite (Hor _ _ 16) by lia.
  replace ((v / 16777216 * 256 + v / 65536 mod 256) * 2 ^ 16 + v / 256 mod 256 * 256)
    with (((v / 16777216 * 256 + v / 65536 mod 256) * 256 + v / 256 mod 256) * 2 ^ 8) by lia.
  rewrite (Hor _ _ 8) by lia.
  pose proof (Z.div_mod v 256). pose proof (Z.div_mod (v / 256) 256). pose proof (Z.div_mod (v / 65536) 256).
  rewrite !Z.div_div in * by lia. change (256 * 256) with 65536 in *. change (65536 * 256) with 16777216 in *. lia.
Qed.

Fixpoint read_options (opts : list (Z * list Z)) (e : edns_info_t) : outcome edns_info_t :=
  match opts with
  | [] => Ret e
  | (code, d) :: opts' => let! e := parse_option e code d (len d) in read_options opts' e
  end.

Definition option_wf (o : Z * list Z) : Prop := u16_range (fst o) /\ len (snd o) < 65536.

Lemma parse_options_body opts : forall fuel e pre post,
  Forall option_wf opts -> (length opts < fuel)%nat ->
  parse_options fuel e (pre ++ body opts ++ post) (len pre) (len pre + len (body opts)) = read_options opts e.
Proof.
  induction opts as [| [code d] opts IH]; intros fuel e pre post Hw Hf; (destruct fuel as [| fuel]; [cbn in Hf; lia |]); cbn [parse_options read_options].
  { change (body []) with (@nil Z). cbn [length]. by rewrite (proj2 (Z.leb_gt _ _)) by lia. }
  apply Forall_cons_1 in Hw as [[Hc Hd] Hw]. cbn [fst snd] in *. rewrite length_body_cons. cbn [snd].
  change (body ((code, d) :: opts)) with (opt_octets (code, d) ++ body opts). unfold opt_octets. cbn [fst snd]. rewrite <- !app_assoc.
  rewrite (proj2 (Z.leb_le _ _)) by lia. rewrite rd16_be16 by done. cbn [obind].
  rewrite (app_assoc pre (be16 code)). rewrite rd16_at by (rewrite ?length_app; cbn; unfold u16_range; lia). cbn [obind].
  rewrite (proj2 (Z.ltb_ge _ _)) by lia.
  rewrite (app_assoc (pre ++ be16 code) (be16 (len d))). rewrite slice_at by (rewrite ?length_app; cbn [be16 length]; lia). cbn [obind].
  destruct (parse_option e code d (len d)) as [e1 | | |]; cbn [obind]; try done.
  rewrite app_assoc. specialize (IH fuel e1 (((pre ++ be16 code) ++ be16 (len d)) ++ d) post Hw ltac:(cbn in Hf; lia)).
  rewrite !length_app in IH. cbn [be16 length] in IH.
  replace (len pre + 4 + len d) with (Z.of_nat (length pre + 2 + 2 + length d)) by lia.
  replace (len pre + (4 + len d + len (body opts))) with (Z.of_nat (length pre + 2 + 2 + length d) + len (body opts)) by lia. exact IH.
Qed.

Lemma read_options_app a b e : read_options (a ++ b) e = let! e := read_options a e in read_options b e.
Proof. revert e. induction a as [| [c d] a IH]; intros e; [done |]. cbn [app read_options]. destruct (parse_option e c d (len d)); cbn [obind]; [apply IH | done..]. Qed.

Lemma cstr_id t : cstring t -> cstr t = t.
Proof. induction 1 as [| c t Hc _ IH]; [done |]. cbn [cstr]. unfold ischar in Hc. rewrite (proj2 (Z.eqb_neq _ _)) by lia. by rewrite IH. Qed.

Lemma rd16_0 v rest : u16_range v -> rd16 (be16 v ++ rest) 0 = Ret v.
Proof. intros Hv. by apply (rd16_at [] v rest). Qed.

Lemma read_edes l : forall e, Forall ede_wf l -> len (ede_list e) + len l <= MAX_EDE_COUNT ->
  read_options (map ede_option l) e = Ret (set_ede e (ede_list e ++ l)).
Proof.
  induction l as [| x l IH]; intros e Hl Hn; cbn [map read_options].
  { rewrite app_nil_r. by destruct e. }
  apply Forall_cons_1 in Hl as [(Hc & Ht & Htl) Hl]. cbn [length] in Hn. unfold ede_option at 1.
  unfold parse_option. cbn [Z.eqb Pos.eqb]. unfold parse_ede. rewrite length_app. cbn [be16 length].
  rewrite (proj2 (Z.leb_le 2 _)), (proj2 (Z.ltb_lt (len (ede_list e)) _)) by lia. cbn [andb].
  change ([hi16 (ede_code x); Z.land (ede_code x) 255]) with (be16 (ede_code x)). rewrite rd16_0 by done. cbn [obind].
  assert ((if 2 <? Z.of_nat (2 + length (ede_text x)) then slice (be16 (ede_code x) ++ ede_text x) 2
      (if 256 <=? Z.of_nat (2 + length (ede_text x)) - 2 then 255 else Z.of_nat (2 + length (ede_text x)) - 2) else Ret []) = Ret (ede_text x)) as ->.
  { rewrite (proj2 (Z.leb_gt _ _)) by lia. case_if.
    - by rewrite slice_end by (done || lia).
    - by assert (ede_text x = []) as -> by (apply nil_length_inv; cmp_prop; lia). }
  cbn [obind]. rewrite cstr_id by done. rewrite IH by (cbn [set_ede set_body ede_list]; rewrite ?length_app; cbn; (done || lia)).
  cbn [set_ede set_body ede_list]. rewrite <- app_assoc. by destruct x, e.
Qed.

Definition read_cookie (c : cookie_t) : cookie_t :=
  let n := Z.to_nat (server_cookie_len c) in
  Cookie true false (client_cookie c) (take n (server_cookie c) ++ replicate (32 - n) 0) (server_cookie_len c).

Lemma read_cookie_spec c e : cookie_wf c -> cookie e = cookie edns_zero ->
  read_options [cookie_option c] e = Ret (set_cookie e (read_cookie c)).
Proof.
  intros Hw He. pose proof (length_cookie_option c Hw) as Hl. destruct Hw as (Hb8 & H8 & Hb32 & H32 & Hn & _).
  unfold cookie_option in *. cbn [read_options snd] in *. unfold parse_option. cbn [Z.eqb Pos.eqb]. rewrite He, Hl. unfold parse_cookie.
  cbn [cookie edns_zero has_cookie has_malformed_cookie orb client_cookie server_cookie server_cookie_len].
  rewrite (proj2 (orb_true_iff _ _)) by lia.
  rewrite slice_0 by lia. cbn [obind]. rewrite wr_list_splice by (rewrite ?length_replicate; lia). cbn [obind].
  assert (splice (replicate 8 0) 0 (client_cookie c) = client_cookie c) as ->.
  { unfold splice. cbn [Z.to_nat take app]. rewrite drop_ge by (rewrite length_replicate; lia). apply app_nil_r. }
  destruct Hn as [Hn | Hn].
  - rewrite Hn. cbn [Z.add Z.ltb Z.compare Pos.compare Pos.compare_cont Pos.add]. cbn [obind]. unfold read_cookie. rewrite Hn. done.
  - rewrite (proj2 (Z.ltb_lt _ _)) by lia. replace (8 + server_cookie_len c - 8) with (server_cookie_len c) by lia.
    rewrite (proj2 (Z.ltb_ge 32 _)) by lia.
    rewrite slice_end by (rewrite ?length_take; lia). cbn [obind].
    rewrite wr_list_splice by (rewrite ?length_replicate, ?length_take; lia). cbn [obind]. unfold read_cookie, splice. do 3 f_equal.
    change (Z.to_nat 0) with 0%nat. rewrite take_0, drop_replicate, length_take. cbn [app]. do 2 f_equal. lia.
Qed.

(** A well-formed address has no octet behind its prefix. *)
Lemma ecs_addr_zero s : ecs_wf s -> has_ecs s = true ->
  ecs_addr s = take (Z.to_nat (ecs_addr_bytes s)) (ecs_addr s) ++ replicate (16 - Z.to_nat (ecs_addr_bytes s)) 0.
Proof.
  intros Hw Hh. destruct (ecs_addr_bytes_spec s (ecs_wf_sendable s Hw) Hh) as [En Hn]. destruct Hw as (Hb & H16 & _ & Hs). destruct (Hs Hh) as (_ & Hf & Hz).
  rewrite <- (take_drop (Z.to_nat (ecs_addr_bytes s)) (ecs_addr s)) at 1. f_equal. apply list_eq_same_length with (n := (16 - Z.to_nat (ecs_addr_bytes s))%nat).
  { by rewrite length_replicate. }
  { rewrite length_drop. lia. }
  intros i x y Hi Hx Hy. rewrite lookup_replicate in Hy. destruct Hy as [-> _]. rewrite lookup_drop in Hx.
  pose proof (Forall_lookup_1 _ _ _ _ Hb Hx) as Hxb. set (k := (Z.to_nat (ecs_addr_bytes s) + i)%nat) in *.
  apply Z.bits_inj'. intros j Hj. rewrite Z.bits_0. destruct (Z.lt_ge_cases j 8) as [Hj8 | Hj8]; [| by apply (testbit_above x 8)].
  pose proof (Z.div_mod (ecs_source_prefix s + 7) 8). pose proof (Z.mod_pos_bound (ecs_source_prefix s + 7) 8).
  specialize (Hz (Z.of_nat k * 8 + (7 - j)) ltac:(lia)). unfold addr_bit in Hz.
  replace ((Z.of_nat k * 8 + (7 - j)) / 8) with (Z.of_nat k) in Hz by (rewrite Z.div_add_l, Z.div_small by lia; lia).
  replace ((Z.of_nat k * 8 + (7 - j)) mod 8) with (7 - j) in Hz by (rewrite Z.add_comm, Z.mod_add, Z.mod_small by lia; lia).
  rewrite Nat2Z.id in Hz. rewrite (nth_lookup_Some _ _ _ x) in Hz by done. by replace (7 - (7 - j)) with j in Hz by lia.
Qed.

Lemma pad_zero b r : 1 <= r <= 7 -> (forall j, 0 <= j < 8 - r -> Z.testbit b j = false) -> Z.land b (u8 (Z.shiftl 1 (8 - r) - 1)) = 0.
Proof.
  intros Hr Hz. assert (u8 (Z.shiftl 1 (8 - r) - 1) = Z.ones (8 - r)) as ->.
  { assert (r = 1 \/ r = 2 \/ r = 3 \/ r = 4 \/ r = 5 \/ r = 6 \/ r = 7) as Hr' by lia.
    by repeat (destruct Hr' as [-> | Hr']; [done |]); subst. }
  apply Z.bits_inj'. intros j Hj. rewrite Z.land_spec, Z.bits_0. destruct (Z.lt_ge_cases j (8 - r)); [by rewrite Hz by lia |].
  rewrite Z.ones_spec_high by lia. apply andb_false_r.
Qed.

Lemma ecs_fields_read s : ecs_wf s -> has_ecs s = true ->
  ecs_fields (snd (ecs_option s)) (4 + ecs_addr_bytes s) = Ret (Some (ecs_family s, ecs_source_prefix s, ecs_scope_prefix s)).
Proof.
  intros Hw Hh. destruct (ecs_addr_bytes_spec s (ecs_wf_sendable s Hw) Hh) as [En Hn]. destruct Hw as (Hb & H16 & _ & Hs). destruct (Hs Hh) as (Hsc & Hf & Hz).
  unfold ecs_fields, ecs_option. cbn [snd]. rewrite (proj2 (Z.leb_le _ _)) by lia. rewrite rd16_0 by (unfold u16_range; lia). cbn [obind].
  change (rd (be16 (ecs_family s) ++ [ecs_source_prefix s; ecs_scope_prefix s] ++ take (Z.to_nat (ecs_addr_bytes s)) (ecs_addr s)) 2) with (Ret (ecs_source_prefix s)).
  change (rd (be16 (ecs_family s) ++ [ecs_source_prefix s; ecs_scope_prefix s] ++ take (Z.to_nat (ecs_addr_bytes s)) (ecs_addr s)) 3) with (Ret (ecs_scope_prefix s)).
  cbn [obind]. rewrite Hsc. cbn [Z.eqb negb]. rewrite <- En. replace (4 + ecs_addr_bytes s - 4) with (ecs_addr_bytes s) by lia. rewrite Z.eqb_refl. cbn [negb].
  assert (negb (ecs_family s =? 1) && negb (ecs_family s =? 2) = false) as -> by lia.
  assert ((ecs_family s =? 1) && (32 <? ecs_source_prefix s) = false) as -> by lia.
  assert ((ecs_family s =? 2) && (128 <? ecs_source_prefix s) = false) as -> by lia.
  destruct (Z.eqb_spec (ecs_source_prefix s mod 8) 0) as [Em | Em]; cbn [negb]; [done |].
  pose proof (Z.mod_pos_bound (ecs_source_prefix s) 8). pose proof (Z.div_mod (ecs_source_prefix s) 8).
  pose proof (Z.div_mod (ecs_source_prefix s + 7) 8). pose proof (Z.mod_pos_bound (ecs_source_prefix s + 7) 8).
  set (n := ecs_addr_bytes s) in *. assert (1 <= n /\ n - 1 = ecs_source_prefix s / 8) as [Hn1 Hdiv] by lia.
  destruct (lookup_lt_is_Some_2 (ecs_addr s) (Z.to_nat (n - 1))) as [b Hb1]; [lia |].
  assert (rd (be16 (ecs_family s) ++ [ecs_source_prefix s; 0] ++ take (Z.to_nat n) (ecs_addr s)) (4 + n - 1) = Ret b) as ->.
  { rewrite !rd_app_r by (cbn [be16 length]; lia). cbn [be16 length]. rewrite rd_take by lia. apply rd_Ret. split; [lia |].
    by replace (Z.to_nat (4 + n - 1 - Z.of_nat 2 - Z.of_nat 2)) with (Z.to_nat (n - 1)) by lia. }
  cbn [obind]. rewrite pad_zero; [done | lia |]. intros j Hj.
  specialize (Hz ((n - 1) * 8 + (7 - j)) ltac:(lia)). unfold addr_bit in Hz.
  replace (((n - 1) * 8 + (7 - j)) / 8) with (n - 1) in Hz by (rewrite Z.div_add_l, Z.div_small by lia; lia).
  replace (((n - 1) * 8 + (7 - j)) mod 8) with (7 - j) in Hz by (rewrite Z.add_comm, Z.mod_add, Z.mod_small by lia; lia).
  rewrite (nth_lookup_Some _ _ _ b) in Hz by done. by replace (7 - (7 - j)) with j in Hz by lia.
Qed.

Definition read_ecs (s : ecs_t) : ecs_t := EcsInfo true false (ecs_family s) (ecs_source_prefix s) (ecs_scope_prefix s) (ecs_addr s).

Lemma read_ecs_spec s e : ecs_wf s -> has_ecs s = true -> ecs e = ecs edns_zero ->
  read_options [ecs_option s] e = Ret (set_ecs e (read_ecs s)).
Proof.
  intros Hw Hh He. pose proof (length_ecs_option s (ecs_wf_sendable s Hw) Hh) as Hl. pose proof (ecs_fields_read s Hw Hh) as Hf.
  pose proof (ecs_addr_zero s Hw Hh) as Hz. destruct (ecs_addr_bytes_spec s (ecs_wf_sendable s Hw) Hh) as [En Hn]. destruct Hw as (Hb & H16 & _ & _).
  unfold ecs_option in *. cbn [read_options snd] in *. unfold parse_option. cbn [Z.eqb Pos.eqb]. rewrite He, Hl. unfold parse_ecs.
  cbn [ecs edns_zero has_ecs has_malformed_ecs orb]. rewrite Hf. cbn [obind].
  replace (4 + ecs_addr_bytes s - 4) with (ecs_addr_bytes s) by lia. rewrite (proj2 (Z.ltb_ge _ _)) by lia.
  rewrite (app_assoc (be16 _)). rewrite slice_end by (rewrite ?length_take; cbn; lia). cbn [obind].
  rewrite wr_list_splice by (rewrite ?length_replicate, ?length_take; lia). cbn [obind]. unfold read_ecs, splice. do 3 f_equal.
  etrans; [| symmetry; exact Hz]. change (Z.to_nat 0) with 0%nat. rewrite take_0, drop_replicate, length_take. cbn [app]. do 2 f_equal. lia.
Qed.

Lemma read_ext_spec v h e : isbyte v -> u32_range h ->
  read_options [(EDNS_OPTION_KARIDNS_EXT, v :: be32 h)] e = Ret (set_ext e (Ext true v h)).
Proof.
  intros Hv Hh. cbn [read_options]. unfold parse_option, EDNS_OPTION_KARIDNS_EXT, EDNS_OPTION_EXPIRE. cbn [Z.eqb Pos.eqb].
  unfold parse_ext. change (len (v :: be32 h) =? 5) with true. cbv iota.
  change (rd (v :: be32 h) 0) with (Ret v). change (rd32 (v :: be32 h) 1) with (rd32 (be32 h) 0). by rewrite rd32_be32.
Qed.

Lemma read_expire_spec v e : u32_range v -> expire e = expire edns_zero ->
  read_options [(EDNS_OPTION_EXPIRE, be32 v)] e = Ret (set_expire e (Expire false true v false 0)).
Proof.
  intros Hv He. cbn [read_options]. unfold parse_option, EDNS_OPTION_EXPIRE. cbn [Z.eqb Pos.eqb]. rewrite He.
  unfold parse_expire. change (len (be32 v) =? 0) with false. change (len (be32 v) =? 4) with true. cbv iota.
  cbn [andb negb expire edns_zero has_expire_value]. rewrite rd32_be32 by done. done.
Qed.

(** What a reader finds in the OPT record of a response. *)
Definition read_back (e : edns_info_t) (rc : Z) (tcp : bool) (cfg : option opt_config) : edns_info_t :=
  Edns true (if server_udp_size e =? 0 then 1232 else server_udp_size e) rc 0 (dnssec_ok e) false 0
    (if has_cookie (cookie e) then read_cookie (cookie e) else cookie edns_zero)
    (ede_list e) (match nsid_of e cfg with Some _ => true | None => false end) (keepalive_on e tcp cfg)
    (Mqtype false false (has_mqtype_query (mqtype e)) [])
    (if ecs_on e cfg then read_ecs (ecs e) else ecs edns_zero)
    (if has_karidns_ext (ext e) then Ext true (karidns_ext_version (ext e)) (karidns_ext_hash (ext e)) else ext edns_zero)
    (if send_expire (expire e) then Expire false true (send_expire_value (expire e)) false 0 else expire edns_zero).

Lemma read_response_options e rc tcp cfg : edns_wf e -> u32_range (send_expire_value (expire e)) ->
  read_options (response_options e tcp cfg)
    (set_opt (set_udp_size edns_zero 512) (if server_udp_size e =? 0 then 1232 else server_udp_size e) rc 0 (dnssec_ok e) false) =
  Ret (read_back e rc tcp cfg).
Proof.
  intros (_ & _ & _ & Hck & Hed & Hen & _ & Hecs & [Hev Heh] & _) Hx. unfold response_options. rewrite read_options_app.
  set (e0 := set_opt _ _ _ _ _ _).
  assert (read_options (when (has_cookie (cookie e)) (cookie_option (cookie e))) e0 =
    Ret (set_cookie e0 (if has_cookie (cookie e) then read_cookie (cookie e) else cookie edns_zero))) as ->.
  { destruct (has_cookie (cookie e)); cbn [when]; [by apply read_cookie_spec | done]. }
  cbn [obind]. rewrite read_options_app, read_edes by (done || (cbn [e0 set_cookie set_body set_opt set_udp_size ede_list edns_zero length] in *; lia)). cbn [obind].
  set (e1 := set_ede _ _). rewrite read_options_app.
  assert (read_options (when (has_mqtype_query (mqtype e)) (21, concat (map be16 (mqtypes (mqtype e))))) e1 =
    Ret (set_mqtype e1 (Mqtype false false (has_mqtype_query (mqtype e)) []))) as -> by (by destruct (has_mqtype_query (mqtype e))).
  cbn [obind]. set (e2 := set_mqtype _ _). rewrite read_options_app.
  assert (read_options (nsid_options (nsid_of e cfg)) e2 = Ret (match nsid_of e cfg with Some _ => set_nsid e2 | None => e2 end)) as -> by (by destruct (nsid_of e cfg)).
  cbn [obind]. set (e3 := match nsid_of e cfg with Some _ => _ | None => _ end). rewrite read_options_app.
  assert (read_options (keepalive_options e tcp cfg) e3 = Ret (if keepalive_on e tcp cfg then set_keepalive e3 else e3)) as ->.
  { unfold keepalive_options. destruct cfg as [c |]; [by destruct (keepalive_on e tcp (Some c)) |]. unfold keepalive_on. by rewrite andb_false_r. }
  cbn [obind]. set (e4 := if keepalive_on e tcp cfg then _ else _). rewrite read_options_app.
  assert (read_options (when (has_karidns_ext (ext e)) (EDNS_OPTION_KARIDNS_EXT, karidns_ext_version (ext e) :: be32 (karidns_ext_hash (ext e)))) e4 =
    Ret (if has_karidns_ext (ext e) then set_ext e4 (Ext true (karidns_ext_version (ext e)) (karidns_ext_hash (ext e))) else e4)) as ->.
  { destruct (has_karidns_ext (ext e)); cbn [when]; [by apply read_ext_spec | done]. }
  cbn [obind]. set (e5 := if has_karidns_ext (ext e) then _ else _). rewrite read_options_app.
  assert (expire e5 = expire edns_zero /\ ecs e5 = ecs edns_zero) as [Hx5 Hs5].
  { unfold e5, e4, e3. by destruct (has_karidns_ext (ext e)), (keepalive_on e tcp cfg), (nsid_of e cfg). }
  assert (read_options (when (send_expire (expire e)) (EDNS_OPTION_EXPIRE, be32 (send_expire_value (expire e)))) e5 =
    Ret (if send_expire (expire e) then set_expire e5 (Expire false true (send_expire_value (expire e)) false 0) else e5)) as ->.
  { destruct (send_expire (expire e)); cbn [when]; [by apply read_expire_spec | done]. }
  cbn [obind]. set (e6 := if send_expire (expire e) then _ else _).
  assert (read_options (when (ecs_on e cfg) (ecs_option (ecs e))) e6 = Ret (if ecs_on e cfg then set_ecs e6 (read_ecs (ecs e)) else e6)) as ->.
  { destruct (ecs_on e cfg) eqn:Ee; cbn [when]; [| done]. apply andb_true_iff in Ee as [Ee _]. apply read_ecs_spec; [done | done |].
    unfold e6. by destruct (send_expire (expire e)). }
  unfold e6, e5, e4, e3, e2, e1, e0, read_back. f_equal.
  by destruct (ecs_on e cfg), (send_expire (expire e)), (has_karidns_ext (ext e)), (keepalive_on e tcp cfg), (nsid_of e cfg).
Qed.

(** *** The record in a message *)

Lemma body_options_wf opts : Forall (fun o => u16_range (fst o)) opts -> len (body opts) < 65536 -> Forall option_wf opts.
Proof.
  induction 1 as [| o opts Ho _ IH]; intros Hl; [constructor |]. rewrite length_body_cons in Hl.
  constructor; [split; [done | lia] |]. apply IH. lia.
Qed.

Lemma response_codes e tcp cfg : Forall (fun o => u16_range (fst o)) (response_options e tcp cfg).
Proof.
  assert (forall c (o : Z * list Z), u16_range (fst o) -> Forall (fun o => u16_range (fst o)) (when c o)) as Hw.
  { intros [] o Ho; [by apply Forall_cons_2, Forall_nil_2 | apply Forall_nil_2]. }
  unfold response_options. rewrite !Forall_app. split_and!; try (apply Hw; cbv [fst cookie_option ecs_option u16_range EDNS_OPTION_EXPIRE EDNS_OPTION_KARIDNS_EXT]; lia).
  - apply Forall_map, Forall_true. intros x. cbn. unfold u16_range. lia.
  - destruct (nsid_of e cfg); [| apply Forall_nil_2]. apply Forall_cons_2; [cbn; unfold u16_range; lia | apply Forall_nil_2].
  - unfold keepalive_options. destruct cfg; [| apply Forall_nil_2]. apply Hw. cbn. unfold u16_range. lia.
Qed.

Lemma length_options_body opts : len opts <= len (body opts).
Proof. induction opts as [| o opts IH]; [done |]. rewrite length_body_cons. cbn [length]. lia. Qed.

(** The TTL field of the record: extended RCODE, version 0, flags. *)
Lemma ttl_fields rc (d : bool) :
  isbyte rc ->
  let f := if d then 32768 else 0 in
  let ttl := Z.lor (Z.lor (Z.lor (Z.shiftl rc 24) (Z.shiftl 0 16)) (Z.shiftl (hi16 f) 8)) (Z.land f 255) in
  Z.land (Z.shiftr ttl 24) 255 = rc /\ Z.land (Z.shiftr ttl 16) 255 = 0 /\ negb (Z.land ttl 32768 =? 0) = d /\ negb (Z.land ttl 16384 =? 0) = false.
Proof.
  intros Hrc. assert (forallb (fun rc => forallb (fun d : bool =>
    let f := if d then 32768 else 0 in
    let ttl := Z.lor (Z.lor (Z.lor (Z.shiftl rc 24) (Z.shiftl 0 16)) (Z.shiftl (hi16 f) 8)) (Z.land f 255) in
    (Z.land (Z.shiftr ttl 24) 255 =? rc) && (Z.land (Z.shiftr ttl 16) 255 =? 0) && Bool.eqb (negb (Z.land ttl 32768 =? 0)) d &&
    Bool.eqb (negb (Z.land ttl 16384 =? 0)) false) [true; false]) (seqZ 0 256) = true) as H by by vm_compute.
  apply (forallb_range _ 0 256 H) in Hrc. rewrite forallb_forall in Hrc. specialize (Hrc d ltac:(destruct d; cbn; auto)). cbv zeta in *.
  apply andb_true_iff in Hrc as [[[H1 H2]%andb_true_iff H3]%andb_true_iff H4]. apply Bool.eqb_prop in H3, H4. split_and!; [lia | lia | done | done].
Qed.

Lemma parse_opt_record pre post e rc tcp cfg rr0 ar0 i e0 :
  u16_range (server_udp_size e) -> isbyte rc -> len (body (response_options e tcp cfg)) < 65536 -> rr0 <= i -> ar0 <= i ->
  parse_rrs 1 (pre ++ opt_record e rc tcp cfg ++ post) (len pre + len (opt_record e rc tcp cfg)) rr0 ar0 i (len pre) 0 e0 =
  let! e1 := read_options (response_options e tcp cfg)
    (set_opt e0 (if server_udp_size e =? 0 then 1232 else server_udp_size e) rc 0 (dnssec_ok e) false) in Ret (true, e1).
Proof.
  intros Hu Hrc Hb Hi1 Hi2. rewrite length_opt_record. set (opts := response_options e tcp cfg) in *. set (n := len (body opts)) in *.
  set (udp := if server_udp_size e =? 0 then 1232 else server_udp_size e). set (fl := if dnssec_ok e then 32768 else 0).
  assert (u16_range udp) as Hudp by (unfold udp; case_if; [unfold u16_range; lia | done]).
  assert (opt_record e rc tcp cfg = 0 :: be16 41 ++ be16 udp ++ [rc; 0; hi16 fl; Z.land fl 255] ++ be16 n ++ body opts) as -> by done.
  cbn [parse_rrs]. rewrite (proj2 (Z.leb_gt _ _)) by lia. cbn [scan_name]. rewrite (proj2 (Z.ltb_lt _ _)) by lia.
  rewrite (rd_app_r pre), Z.sub_diag by lia. cbn [app]. rewrite rd_0. cbn [obind].
  change (Z.land 0 192 =? 192) with false. change (Z.land 0 192 =? 0) with true. change (63 <? 0) with false. change (0 =? 0) with true. cbv iota. cbn [orelse].
  rewrite (proj2 (Z.ltb_ge i rr0)) by lia. rewrite (proj2 (Z.leb_le (len pre + 1 + 10) _)) by lia.
  set (req := pre ++ 0 :: _).
  assert (req = (pre ++ [0]) ++ be16 41 ++ (be16 udp ++ [rc; 0; hi16 fl; Z.land fl 255] ++ be16 n ++ body opts) ++ post) as R1
    by (unfold req; rewrite <- !app_assoc; done).
  assert (rd16 req (len pre + 1) = Ret 41) as -> by (rewrite R1; apply rd16_at; [rewrite length_app; cbn; lia | unfold u16_range; lia]). cbn [obind].
  assert (req = ((pre ++ [0]) ++ be16 41) ++ be16 udp ++ ([rc; 0; hi16 fl; Z.land fl 255] ++ be16 n ++ body opts) ++ post) as R2
    by (unfold req; rewrite <- !app_assoc; done).
  assert (rd16 req (len pre + 1 + 2) = Ret udp) as -> by (rewrite R2; apply rd16_at; [rewrite !length_app; cbn [be16 length]; lia | done]). cbn [obind].
  set (ttl := Z.lor (Z.lor (Z.lor (Z.shiftl rc 24) (Z.shiftl 0 16)) (Z.shiftl (hi16 fl) 8)) (Z.land fl 255)).
  assert (rd32 req (len pre + 1 + 4) = Ret ttl) as ->.
  { assert (req = (((pre ++ [0]) ++ be16 41) ++ be16 udp) ++ [rc; 0; hi16 fl; Z.land fl 255] ++ (be16 n ++ body opts) ++ post) as ->
      by (unfold req; rewrite <- !app_assoc; done).
    apply rd32_at. rewrite !length_app. cbn [be16 length]. lia. }
  cbn [obind].
  assert (req = ((((pre ++ [0]) ++ be16 41) ++ be16 udp) ++ [rc; 0; hi16 fl; Z.land fl 255]) ++ be16 n ++ body opts ++ post) as R3
    by (unfold req; rewrite <- !app_assoc; done).
  assert (rd16 req (len pre + 1 + 8) = Ret n) as -> by (rewrite R3; apply rd16_at; [rewrite !length_app; cbn [be16 length]; lia | unfold u16_range; lia]). cbn [obind].
  rewrite (proj2 (Z.leb_le ar0 i)) by lia. change (41 =? 41) with true. cbn [negb andb].
  replace (len pre + 1 - len pre) with 1 by lia. change (negb (1 =? 1) || false) with false. change (1 <? 0 + 1) with false. cbv iota.
  destruct (ttl_fields rc (dnssec_ok e) Hrc) as (T1 & T2 & T3 & T4). fold fl in T1, T2, T3, T4. fold ttl in T1, T2, T3, T4. rewrite T1, T2, T3, T4.
  rewrite (proj2 (Z.ltb_ge _ _)) by lia.
  set (p6 := (((((pre ++ [0]) ++ be16 41) ++ be16 udp) ++ [rc; 0; hi16 fl; Z.land fl 255]) ++ be16 n)).
  assert (len pre + 1 + 10 = len p6) as -> by (unfold p6; rewrite !length_app; cbn [be16 length]; lia).
  assert (req = p6 ++ body opts ++ post) as -> by (unfold p6; rewrite R3, <- !app_assoc; done).
  rewrite parse_options_body; [done | apply body_options_wf; [apply response_codes | done] |]. pose proof (length_options_body opts). lia.
Qed.

(** *** The questions in front of it *)

Lemma name_end_lt req p q : name_end req p q -> p < q.
Proof. induction 1; lia. Qed.

Lemma scan_name_end req p q : name_end req p q -> forall res L fuel,
  (forall i, p <= i < q -> rd res i = rd req i) -> q <= L -> (Z.to_nat (L - p) < fuel)%nat -> scan_name fuel res L p = Ret q.
Proof.
  induction 1 as [p Hr | p n q Hr Hn He IH | p raw Hr Ht]; intros res L fuel Hag HL Hf; (destruct fuel as [| fuel]; [lia |]); cbn [scan_name].
  - rewrite (proj2 (Z.ltb_lt _ _)) by lia. rewrite Hag, Hr by lia. done.
  - pose proof (name_end_lt _ _ _ He). rewrite (proj2 (Z.ltb_lt _ _)) by lia. rewrite Hag, Hr by lia. cbn [obind].
    rewrite (proj2 (Z.eqb_neq _ 192)) by (intros E; apply octet_pointer in E; unfold isbyte; lia).
    rewrite (proj2 (Z.eqb_eq _ 0)) by (apply octet_label; unfold isbyte; lia).
    rewrite (proj2 (Z.ltb_ge 63 _)), (proj2 (Z.eqb_neq n 0)), (proj2 (Z.ltb_ge L _)) by lia.
    replace (p + (n + 1)) with (p + 1 + n) by lia. apply IH; [intros; apply Hag; lia | lia | lia].
  - rewrite (proj2 (Z.ltb_lt _ _)) by lia. rewrite Hag, Hr by lia. cbn [obind]. by rewrite Ht.
Qed.

Lemma keep_questions_end req req_len : bytes req -> req_len <= len req -> forall n off q,
  0 <= off -> keep_questions n req req_len off = Ret q -> off <= q /\ (off <= req_len -> q <= req_len).
Proof.
  intros Hb Hl. induction n as [| n IH]; intros off q Ho; cbn [keep_questions]; [intros [= <-]; lia |].
  intros H. bind_inv H. case_if_in H; [done |]. apply skip_next in Ha; [| done | done | done]. apply IH in H; [| lia]. lia.
Qed.

(** The scan of [parse_edns_opt] passes the questions that were kept. *)
Lemma keep_questions_scan req req_len res L rr0 ar0 c e m : bytes req -> req_len <= len req -> forall n off q i,
  0 <= off -> keep_questions n req req_len off = Ret q -> (forall j, off <= j < q -> rd res j = rd req j) -> q <= L -> i + Z.of_nat n <= rr0 ->
  parse_rrs (n + m) res L rr0 ar0 i off c e = parse_rrs m res L rr0 ar0 (i + Z.of_nat n) q c e.
Proof.
  intros Hb Hl. induction n as [| n IH]; intros off q i Ho H Hag HL Hi; cbn [keep_questions] in H.
  { injection H as <-. cbn [Nat.add]. f_equal. lia. }
  bind_inv H. case_if_in H; [done |]. pose proof (skip_next _ _ Hb Hl off a Ho Ha) as Hlt.
  destruct (keep_questions_end req req_len Hb Hl n (a + 4) q ltac:(lia) H) as [Hq _].
  apply skip_sound in Ha as [_ Hend]; [| done | done | done]. cbn [Nat.add parse_rrs]. rewrite (proj2 (Z.leb_gt _ _)) by lia.
  rewrite (scan_name_end _ _ _ Hend) by (done || lia || (intros; apply Hag; lia)). cbn [orelse]. rewrite (proj2 (Z.ltb_lt _ _)) by lia.
  rewrite (IH (a + 4) q) by (done || lia || (intros; apply Hag; lia)). f_equal. lia.
Qed.

Lemma error_edns_wf e : edns_wf e -> edns_wf (error_edns e).
Proof. intros (H1 & H2 & H3 & H4 & H5 & H6 & H7 & H8 & [H9 H9b] & H10). unfold edns_wf, error_edns. cbn. by split_and!. Qed.

Lemma sent_all e room tcp cfg : 11 + len (body (response_options e tcp cfg)) <= room -> sent e room tcp cfg = e.
Proof. intros H. unfold sent. by rewrite (proj2 (Z.ltb_ge _ _)). Qed.

Lemma init_header_spec res req rcode aa : 4 <= len req -> 4 <= len res ->
  exists h, dns_init_response_header res req rcode aa = Ret (splice res 0 h) /\ length h = 4%nat /\ rd h 0 = rd req 0 /\ rd h 1 = rd req 1.
Proof.
  intros Hq Hr. unfold dns_init_response_header. destruct (rd_in req 0) as [r0 E0]; [lia |]. destruct (rd_in req 1) as [r1 E1]; [lia |].
  destruct (rd_in req 2) as [r2 E2]; [lia |]. destruct (rd_in req 3) as [r3 E3]; [lia |]. rewrite E0, E1, E2, E3. cbn [obind].
  eexists. rewrite wr_list_splice by (cbn [length]; lia). split; [done |]. done.
Qed.

(** The message in front of the OPT record: the header with the counts and
    the questions of the request. *)
Lemma error_prefix res req h q_end qd ar : 12 <= q_end <= len req -> q_end <= len res -> length h = 4%nat -> u16_range qd -> u16_range ar ->
  let q := take (Z.to_nat (q_end - 12)) (drop 12 req) in
  let r3 := splice (splice (splice res 0 h) 12 q) 4 (be16 qd ++ [0; 0; 0; 0]) in
  let pre := splice (take (Z.to_nat q_end) r3) 10 (be16 ar) in
  length r3 = length res /\ len pre = q_end /\ (forall i, 12 <= i < q_end -> rd pre i = rd req i) /\
  (forall i, 0 <= i < 4 -> rd pre i = rd h i) /\ rd16 pre 4 = Ret qd /\ rd16 pre 10 = Ret ar.
Proof.
  intros Hq Hr Hh Hqd Har q r3 pre.
  assert (len q = q_end - 12) as Hql by (unfold q; rewrite length_take, length_drop; lia).
  assert (length (splice res 0 h) = length res) as L1 by (apply length_splice; lia).
  assert (length (splice (splice res 0 h) 12 q) = length res) as L2 by (rewrite length_splice; lia).
  assert (length r3 = length res) as L3 by (unfold r3; rewrite length_splice; cbn [be16 app length]; lia).
  assert (len (take (Z.to_nat q_end) r3) = q_end) as Lt by (rewrite length_take; lia).
  assert (len pre = q_end) as Lp by (unfold pre; rewrite length_splice by (cbn [be16 length]; lia); done).
  assert (forall i, i < 10 \/ 12 <= i -> i < q_end -> rd pre i = rd r3 i) as Hpre.
  { intros i Hi Hlt. unfold pre. destruct Hi; [rewrite rd_splice_l by (cbn [be16 length]; lia) | rewrite rd_splice_r by (cbn [be16 length]; lia)];
      rewrite rd_take by lia; done. }
  split_and!; [done | done | | | |].
  - intros i Hi. rewrite Hpre by lia. unfold r3. rewrite rd_splice_r by (cbn [be16 app length]; lia). rewrite rd_splice_in by lia.
    unfold q. rewrite rd_take by lia. rewrite <- (rd_drop req 12) by lia. f_equal. lia.
  - intros i Hi. rewrite Hpre by lia. unfold r3. rewrite rd_splice_l by (cbn [be16 app length]; lia). rewrite rd_splice_l by lia.
    rewrite rd_splice_in by lia. f_equal. lia.
  - unfold rd16. rewrite !Hpre by lia. unfold r3. rewrite !rd_splice_in by (cbn [be16 app length]; lia).
    rewrite <- (rd16_0 qd [0; 0; 0; 0]) by done. unfold rd16. done.
  - unfold rd16, pre. rewrite !rd_splice_in by (cbn [be16 length]; lia). rewrite <- (rd16_0 ar []) by done. unfold rd16. by rewrite app_nil_r.
Qed.

(** *** Truncation *)

Section Truncate.
Context (msg : list Z) (msg_len : Z).
Hypothesis Hmsg : bytes msg.
Hypothesis Hlen : msg_len <= len msg.

Lemma keep_questions_defined n : forall off, 0 <= off -> defined (keep_questions n msg msg_len off).
Proof.
  induction n as [| n IH]; intros off Ho; cbn [keep_questions]; [apply defined_Ret |].
  apply obind_defined; [by apply skip_defined |]. intros next Hn. apply skip_next in Hn; [| done..]. case_if; [apply defined_Fail |]. apply IH. lia.
Qed.

Lemma find_opt_spec n : forall off, 0 <= off ->
  find_opt n msg msg_len off = Fail \/ exists start l, find_opt n msg msg_len off = Ret (start, l) /\ off <= start /\ 11 <= l /\ start + l <= msg_len.
Proof.
  induction n as [| n IH]; intros off Ho; cbn [find_opt]; [by left |].
  pose proof (skip_defined msg msg_len Hmsg Hlen off Ho) as [Hd1 Hd2].
  destruct (skip_wire_name msg msg_len off) as [next | | |] eqn:En; try done; [| by left]. cbn [obind].
  apply skip_next in En; [| done..]. case_if; [by left |].
  destruct (rd16_range msg next) as (t & -> & Ht); [done | lia | lia |]. destruct (rd16_range msg (next + 8)) as (r & -> & Hr); [done | lia | lia |].
  cbn [obind]. unfold u16_range in *. case_if; [by left |]. case_if; [right; eexists _, _; split; [done |]; lia |].
  destruct (IH (next + 10 + r)) as [-> | (st & l & -> & H1 & H2 & H3)]; [lia | by left |]. right. exists st, l. split; [done |]. lia.
Qed.

Lemma find_opt_rr_spec : 12 <= msg_len ->
  dns_find_opt_rr msg msg_len = Fail \/ exists start l, dns_find_opt_rr msg msg_len = Ret (start, l) /\ 12 <= start /\ 11 <= l /\ start + l <= msg_len.
Proof.
  intros H12. unfold dns_find_opt_rr, DNS_HEADER_SIZE. rewrite (proj2 (Z.ltb_ge _ _)) by lia.
  destruct (rd16_range msg 4) as (? & -> & _); [done | lia | lia |]. destruct (rd16_range msg 6) as (? & -> & _); [done | lia | lia |].
  destruct (rd16_range msg 8) as (? & -> & _); [done | lia | lia |]. destruct (rd16_range msg 10) as (? & -> & _); [done | lia | lia |]. cbn [obind].
  match goal with |- context [keep_questions ?n msg msg_len 12] => pose proof (keep_questions_defined n 12 ltac:(lia)) as [Hd1 Hd2];
    destruct (keep_questions n msg msg_len 12) as [off | | |] eqn:Ek end; try done; [| by left].
  apply keep_questions_end in Ek; [| done | done | lia]. cbn [obind].
  match goal with |- context [find_opt ?n msg msg_len off] => destruct (find_opt_spec n off ltac:(lia)) as [-> | (st & l & -> & H1 & H2 & H3)] end; [by left |].
  right. exists st, l. split; [done |]. lia.
Qed.

(** A truncated response is the header, the questions and the OPT record, if
    it has one behind the questions; it never grows. *)
Lemma truncate_spec q : 12 <= q <= msg_len ->
  exists out n, dns_truncate_keep_opt msg msg_len q = Ret (out, n) /\ q <= n <= msg_len /\ length out = length msg /\
    (forall i, 12 <= i < q -> rd out i = rd msg i) /\
    (forall st l, dns_find_opt_rr msg msg_len = Ret (st, l) -> q <= st -> n = q + l /\ forall i, 0 <= i < l -> rd out (q + i) = rd msg (st + i)).
Proof.
  intros Hq. unfold dns_truncate_keep_opt, DNS_HEADER_SIZE. rewrite (proj2 (Z.ltb_ge msg_len 12)) by lia.
  rewrite (proj2 (Z.ltb_ge q 12)), (proj2 (Z.ltb_ge msg_len q)) by lia. cbn [orb].
  set (m1 := splice msg 6 [0; 0; 0; 0; 0; 0]). assert (length m1 = length msg) as L1 by (apply length_splice; cbn [length]; lia).
  assert (wr_list msg 6 [0; 0; 0; 0; 0; 0] = Ret m1) as Hw by (apply wr_list_splice; cbn [length]; lia).
  assert (forall i, 12 <= i -> rd m1 i = rd msg i) as Hm1 by (intros; apply rd_splice_r; cbn [length]; lia).
  destruct (find_opt_rr_spec ltac:(lia)) as [-> | (st & l & -> & H1 & H2 & H3)]; cbn [obind orelse].
  { rewrite Hw. cbn [obind]. exists m1, q. split_and!; [done | lia | lia | done | intros; apply Hm1; lia | done]. }
  destruct (Z.leb_spec q st) as [Hle | Hgt]; rewrite Hw; cbn [obind].
  2: { exists m1, q. split_and!; [done | lia | lia | done | intros; apply Hm1; lia |]. intros st' l' [= <- <-]. lia. }
  rewrite slice_in by lia. cbn [obind]. set (o := take (Z.to_nat l) (drop (Z.to_nat st) m1)).
  assert (len o = l) as Lo by (unfold o; rewrite length_take, length_drop; lia). rewrite wr_list_splice by lia. cbn [obind].
  assert (length (splice m1 q o) = length m1) as L2 by (apply length_splice; lia). rewrite wr_in by lia. cbn [obind].
  eexists _, _. split; [done |]. split; [lia |]. split; [rewrite length_insert; lia |].
  assert (forall i, 12 <= i -> rd (<[Z.to_nat 11 := 1]> (splice m1 q o)) i = rd (splice m1 q o) i) as Hins.
  { intros i Hi. unfold rd. case_if; [done |]. by rewrite list_lookup_insert_ne by lia. }
  split; [intros i Hi; rewrite Hins, rd_splice_l, Hm1 by lia; done |].
  intros st' l' [= <- <-] _. split; [done |]. intros i Hi. rewrite Hins, rd_splice_in by lia. replace (q + i - q) with i by lia.
  unfold o. rewrite rd_take by lia. rewrite <- rd_drop by lia. apply Hm1. lia.
Qed.

End Truncate.

Lemma section_ok_total req req_len : bytes req -> 12 <= req_len -> req_len <= len req -> exists ok, dns_question_section_ok req req_len = Ret ok.
Proof.
  intros Hb H12 Hl. destruct (rd_range req 2) as (b2 & E2 & _); [done | lia |]. destruct (rd16_range req 4) as (qd & E4 & _); [done | lia | lia |].
  destruct (question_section_accepted req req_len b2 qd Hb Hl H12 E2 E4) as [(ok & E & _) _]. by exists ok.
Qed.

(** ** Properties *)

(** C30. Reading the OPT record of any message returns, never reads outside
    the message, and leaves well-formed data even when the record is refused:
    a cookie of a permitted length, at most 64 errors with texts of at most
    255 characters, at most 16 query types, and a client subnet only with a
    known family, a prefix within it, scope 0 and no bit behind the prefix. *)
Theorem edns_parse_wf (req : list Z) (req_len qd an ns ar : Z) :
  bytes req -> 0 <= req_len <= len req ->
  exists ok e, parse_edns_opt req req_len qd an ns ar = Ret (ok, e) /\ edns_wf e.
Proof.
  intros Hb Hl. apply parse_rrs_wf; [done | done | apply edns_start_wf | unfold DNS_HEADER_SIZE; lia].
Qed.

Lemma edns_parse_wf_witness :
  let req := [0; 1; 1; 0; 0; 1; 0; 0; 0; 0; 0; 1; 1; 97; 0; 0; 1; 0; 1; 0; 0; 41; 4; 208; 0; 0; 128; 0; 0; 11; 0; 8; 0; 7; 0; 1; 20; 0; 10; 1; 16] in
  exists ok e, parse_edns_opt req 41 1 0 0 1 = Ret (ok, e) /\ edns_wf e /\ has_ecs (ecs e) = true.
Proof.
  intros req. destruct (edns_parse_wf req 41 1 0 0 1) as (ok & e & He & Hw); [bytes_lit | vm_compute; split; congruence |].
  exists ok, e. split; [done |]. split; [done |]. vm_compute in He. by injection He as <- <-.
Defined.

(** C31. The room that [edns_opt_reserve_len] keeps free is enough: a
    response of at most 65535 octets whose body leaves it free gets its OPT
    record, within the buffer, with every option but possibly the extended
    errors, which are dropped all together. Nothing outside the record is
    written. The data may be what the server made of the request's, with any
    SCOPE PREFIX-LENGTH ([edns_sendable]); the NSID text of the configuration
    has at most 48000 octets ([nsid_ok]), as the length of the options is kept
    in 16 bits. *)
Theorem edns_opt_written (res : list Z) (max_len o ar : Z) (e : edns_info_t) (rc : Z) (tcp : bool) (cfg : option opt_config) :
  edns_sendable e -> nsid_ok cfg -> 0 <= o -> max_len <= len res -> max_len < 65536 ->
  o + edns_opt_reserve_len (Some e) tcp cfg <= max_len ->
  exists e1, (e1 = e \/ e1 = set_ede e []) /\ o + len (opt_record e1 rc tcp cfg) <= max_len /\
    assemble_edns_opt res max_len o ar (Some e) rc tcp cfg =
    Ret (splice res o (opt_record e1 rc tcp cfg), o + len (opt_record e1 rc tcp cfg), u16 (ar + 1), e1).
Proof.
  intros He Hns Ho Hm Hm16 Hr. pose proof (reserve_covers e tcp cfg He) as Hcov. pose proof (options_bound e tcp cfg He Hns) as Hb.
  exists (sent e (max_len - o) tcp cfg). split; [unfold sent; case_if; auto |].
  assert (o + len (opt_record (sent e (max_len - o) tcp cfg) rc tcp cfg) <= max_len) as Hfit.
  { rewrite length_opt_record. unfold sent. case_if; [lia |]. apply andb_false_iff in E as [E | E]; [lia |].
    assert (ede_list e = []) as El by (destruct (ede_list e); done). pose proof (body_set_ede_nil e tcp cfg) as Hs. rewrite El in Hs. cbn in Hs. lia. }
  split; [done |]. rewrite assemble_spec by done. by rewrite (proj2 (Z.leb_le _ _)).
Qed.

Definition sample_edns : edns_info_t :=
  Edns true 1232 0 0 true false 0 (Cookie true false (seqZ 1 8) (seqZ 1 32) 16) [Ede 18 (str "no")] true true
    (Mqtype true false false [1; 28]) (EcsInfo true false 1 20 0 ([10; 1; 16] ++ replicate 13 0)) (Ext true 3 305419896) (Expire true false 0 true 3600).
Definition sample_config : opt_config := OptConfig (Some (str "ns1")) true 30000 false 0 true true.

Lemma sample_edns_wf : edns_wf sample_edns.
Proof.
  unfold edns_wf, sample_edns, u16_range, u32_range, isbyte, MAX_EDE_COUNT. cbn -[replicate seqZ].
  split_and!; try lia; try (vm_compute; congruence).
  - split_and!; cbn -[seqZ]; try bytes_lit; try lia; try (by vm_compute); naive_solver.
  - apply Forall_cons_2; [| apply Forall_nil_2]. split_and!; [cbv [u16_range ede_code]; lia | chars_lit | vm_compute; congruence].
  - split; [| vm_compute; congruence]. repeat (apply Forall_cons_2; [unfold u16_range; lia |]). apply Forall_nil_2.
  - split_and!; cbn -[replicate]; try bytes_lit; try (by vm_compute); [naive_solver |]. intros _. split_and!; [done | left; lia |].
    intros i Hi. assert (forallb (fun i => negb (addr_bit ([10; 1; 16] ++ replicate 13 0) i)) (seqZ 20 108) = true) as H by by vm_compute.
    apply negb_true_iff. apply (forallb_range _ 20 108 H). lia.
Qed.

(** The response: the server has set the scope. *)
Definition sample_scoped : edns_info_t := set_ecs sample_edns (EcsInfo true false 1 20 24 ([10; 1; 16] ++ replicate 13 0)).

Lemma sample_nsid_ok : nsid_ok (Some sample_config).
Proof. intros c s [= <-] [= <-]. vm_compute. discriminate. Qed.

Lemma edns_opt_written_witness :
  exists e1, (e1 = sample_scoped \/ e1 = set_ede sample_scoped []) /\ 17 + len (opt_record e1 0 true (Some sample_config)) <= 190 /\
    assemble_edns_opt (replicate 512 0) 190 17 0 (Some sample_scoped) 0 true (Some sample_config) =
    Ret (splice (replicate 512 0) 17 (opt_record e1 0 true (Some sample_config)), 17 + len (opt_record e1 0 true (Some sample_config)), u16 (0 + 1), e1).
Proof.
  apply (edns_opt_written (replicate 512 0) 190 17 0 sample_scoped 0 true (Some sample_config)); [| apply sample_nsid_ok | lia | | lia |]; [| vm_compute; congruence..].
  destruct (edns_wf_sendable _ sample_edns_wf) as (H1 & H2 & H3 & H4 & _). split_and!; [exact H1 | exact H2 | exact H3 | exact H4 |]. split; [reflexivity |]. intros _. left. cbn. lia.
Defined.

(** C36. An error response carries the EDNS data of the request's reader:
    when there is room, the response is the header with the ID of the request,
    the questions kept, octet for octet, and one OPT record, and reading that
    response gives back the cookie, the errors, the client subnet, the extension
    and the flags that were put in. The exception is a FORMERR (RCODE 1 without
    an extended one) for a request whose question section is not accepted: it
    has no OPT record and ends behind the questions. The NSID text of the
    configuration has at most 48000 octets. *)
Theorem error_response_roundtrip (req res : list Z) (req_len max_len rcode ext_rcode qd q_end : Z) (e : edns_info_t) (tcp : bool) (cfg : option opt_config) :
  bytes req -> 12 <= req_len <= len req -> max_len <= len res -> max_len < 65536 -> u16_range qd ->
  edns_wf e -> present e = true -> u16_range (server_udp_size e) -> u32_range (send_expire_value (expire e)) -> isbyte ext_rcode -> nsid_ok cfg ->
  keep_questions (Z.to_nat qd) req req_len 12 = Ret q_end -> q_end + len (opt_record (error_edns e) ext_rcode tcp cfg) <= max_len ->
  exists ok out n, dns_question_section_ok req req_len = Ret ok /\
    dns_build_error_response req req_len res max_len rcode ext_rcode qd (Some e) tcp cfg = Ret (out, n) /\
    rd out 0 = rd req 0 /\ rd out 1 = rd req 1 /\ rd16 out 4 = Ret qd /\ (forall i, 12 <= i < q_end -> rd out i = rd req i) /\
    if (rcode =? 1) && (ext_rcode =? 0) && negb ok then n = q_end /\ rd16 out 10 = Ret 0
    else n = q_end + len (opt_record (error_edns e) ext_rcode tcp cfg) /\ rd16 out 10 = Ret 1 /\
      parse_edns_opt out n qd 0 0 1 = Ret (true, read_back (error_edns e) ext_rcode tcp cfg).
Proof.
  intros Hb Hl Hm Hm16 Hqd He Hp Hu Hx Hrc Hns Hk Hfit. set (e1 := error_edns e) in *. destruct (section_ok_total req req_len Hb) as [ok Hok]; [lia | lia |]. exists ok.
  destruct (keep_questions_end req req_len Hb ltac:(lia) _ 12 q_end ltac:(lia) Hk) as [Hq1 Hq2]. specialize (Hq2 ltac:(lia)).
  pose proof (error_edns_wf e He) as He1. fold e1 in He1. pose proof (length_opt_record e1 ext_rcode tcp cfg) as Hlr. pose proof (options_bound e1 tcp cfg (edns_wf_sendable _ He1) Hns) as Hbody.
  unfold dns_build_error_response, DNS_HEADER_SIZE. rewrite !(proj2 (Z.ltb_ge _ 12)) by lia. cbn [orb].
  assert ((if (rcode =? 1) && (ext_rcode =? 0) then let! ok := dns_question_section_ok req req_len in Ret (negb ok) else Ret false) = Ret ((rcode =? 1) && (ext_rcode =? 0) && negb ok)) as ->
    by (rewrite Hok; by destruct (_ && _)).
  set (bad := _ && negb ok). cbn [obind]. destruct (init_header_spec res req rcode false) as (h & -> & Hh & Hh0 & Hh1); [lia | lia |]. cbn [obind].
  rewrite Hk. cbn [obind orelse]. rewrite (proj2 (Z.ltb_ge max_len q_end)), (proj2 (Z.ltb_ge 65535 q_end)) by lia. cbn [orb].
  rewrite slice_in by lia. cbn [obind]. change (Z.to_nat 12) with 12%nat.
  assert (forall ar, u16_range ar -> let q := take (Z.to_nat (q_end - 12)) (drop 12 req) in let r3 := splice (splice (splice res 0 h) 12 q) 4 (be16 qd ++ [0; 0; 0; 0]) in
    let pre := splice (take (Z.to_nat q_end) r3) 10 (be16 ar) in
    length r3 = length res /\ len pre = q_end /\ (forall i, 12 <= i < q_end -> rd pre i = rd req i) /\ (forall i, 0 <= i < 4 -> rd pre i = rd h i) /\ rd16 pre 4 = Ret qd /\ rd16 pre 10 = Ret ar) as Hpre
    by (intros ar Har; apply error_prefix; done || lia). cbv zeta in Hpre.
  set (q := take (Z.to_nat (q_end - 12)) (drop 12 req)) in *.
  assert (len q = q_end - 12) as Hql by (unfold q; rewrite length_take, length_drop; lia).
  rewrite wr_list_splice by (rewrite ?length_splice by lia; lia). cbn [obind].
  change ([u8 (Z.shiftr qd 8); Z.land qd 255; 0; 0; 0; 0]) with (be16 qd ++ [0; 0; 0; 0]).
  rewrite wr_list_splice by (rewrite ?length_splice by (rewrite ?length_splice by lia; lia); cbn [be16 app length]; lia). cbn [obind].
  set (r3 := splice (splice (splice res 0 h) 12 q) 4 (be16 qd ++ [0; 0; 0; 0])) in *. destruct bad.
  - destruct (Hpre 0) as (L3 & Lp & Hag & Hhd & H4 & H10); [unfold u16_range; lia |]. cbn [obind]. change ([u8 (Z.shiftr 0 8); Z.land 0 255]) with (be16 0).
    rewrite wr_list_splice by (rewrite ?L3; cbn [be16 length]; lia). cbn [obind]. rewrite <- (take_drop (Z.to_nat q_end) r3).
    rewrite splice_app_l by (rewrite ?length_take; cbn [be16 length]; lia). set (pre := splice (take (Z.to_nat q_end) r3) 10 (be16 0)) in *.
    eexists _, _. split; [done |]. split; [done |]. unfold rd16. rewrite !(rd_app_l pre) by lia. fold (rd16 pre 4). fold (rd16 pre 10). rewrite !Hhd by lia.
    split_and!; [done | done | done | | done | done]. intros i Hi. rewrite rd_app_l by lia. by apply Hag.
  - destruct (Hpre 1) as (L3 & Lp & Hag & Hhd & H4 & H10); [unfold u16_range; lia |]. rewrite Hp. fold e1.
    rewrite assemble_spec by (done || lia || by apply edns_wf_sendable). rewrite sent_all by lia. rewrite (proj2 (Z.leb_le _ _)) by lia. cbn [obind].
    change (u16 (0 + 1)) with 1. change ([u8 (Z.shiftr 1 8); Z.land 1 255]) with (be16 1).
    set (rec := opt_record e1 ext_rcode tcp cfg) in *. unfold splice at 1. rewrite wr_list_splice.
    2: { lia. }
    2: { rewrite !length_app, length_take. cbn [be16 length]. lia. }
    cbn [obind]. rewrite splice_app_l by (rewrite ?length_take; cbn [be16 length]; lia).
    set (pre := splice (take (Z.to_nat q_end) r3) 10 (be16 1)) in *. set (post := drop _ r3).
    exists (pre ++ rec ++ post), (q_end + len rec). split; [done |]. split; [done |]. unfold rd16. rewrite !(rd_app_l pre) by lia. fold (rd16 pre 4). fold (rd16 pre 10).
    rewrite !Hhd by lia. split_and!; [done | done | done | intros i Hi; rewrite rd_app_l by lia; by apply Hag | done | done |].
    unfold parse_edns_opt. replace (Z.to_nat (qd + 0 + 0 + 1)) with (Z.to_nat qd + 1)%nat by (unfold u16_range in Hqd; lia).
    rewrite (keep_questions_scan req req_len (pre ++ rec ++ post) _ qd _ 0 _ 1 Hb ltac:(lia) (Z.to_nat qd) 12 q_end).
    2-3: (done || lia).
    2: { intros j Hj. rewrite rd_app_l by lia. by apply Hag. }
    2: { lia. }
    2: { unfold u16_range in Hqd. lia. }
    rewrite <- Lp. unfold rec. rewrite parse_opt_record by (done || (unfold u16_range in *; lia)).
    by rewrite read_response_options.
Qed.

Lemma error_response_roundtrip_witness :
  let req := [18; 52; 1; 0; 0; 1; 0; 0; 0; 0; 0; 0; 1; 97; 0; 0; 1; 0; 1] in
  exists out n, dns_build_error_response req 19 (replicate 512 0) 512 5 0 1 (Some sample_edns) true (Some sample_config) = Ret (out, n) /\
    rd out 0 = rd req 0 /\ rd16 out 10 = Ret 1 /\ parse_edns_opt out n 1 0 0 1 = Ret (true, read_back (error_edns sample_edns) 0 true (Some sample_config)).
Proof.
  intros req. destruct (error_response_roundtrip req (replicate 512 0) 19 512 5 0 1 19 sample_edns true (Some sample_config)) as (ok & out & n & _ & E & H0 & _ & _ & _ & _ & H10 & Hp);
    [bytes_lit | vm_compute; split; congruence | vm_compute; congruence | lia | unfold u16_range; lia | apply sample_edns_wf | done |
     vm_compute; split; congruence | vm_compute; split; congruence | unfold isbyte; lia | apply sample_nsid_ok | by vm_compute | vm_compute; congruence |].
  exists out, n. split; [exact E |]. split; [exact H0 |]. split; [exact H10 | exact Hp].
Defined.

(** [build_not_ready_response] is documented not to echo the errors of the
    request. It drops them only when the OPT record of the request was
    accepted: a request with two OPT records, the first one with an error
    option, gets the code and text of that option back. *)
Theorem not_ready_echoes_request_ede :
  let req := [18; 52; 1; 0; 0; 1; 0; 0; 0; 0; 0; 2; 1; 97; 0; 0; 1; 0; 1] ++
             [0; 0; 41; 4; 208; 0; 0; 0; 0; 0; 8] ++ [0; 15; 0; 4; 0; 9; 72; 105] ++ [0; 0; 41; 4; 208; 0; 0; 0; 0; 0; 0] in
  exists out e, build_not_ready_response req (len req) (replicate 512 0) 512 false (Some sample_config) = Ret (out, 53) /\
    parse_edns_opt out 53 1 0 0 1 = Ret (true, e) /\ ede_list e = [Ede 9 (str "Hi"); Ede 14 (str "Not Ready")].
Proof. intros req. eexists _, _. split; [by vm_compute |]. split; by vm_compute. Qed.

End Edns.
