(* ===== verification/Cookie.v ===== *)
(** * DNS server cookies (dns_edns_ecs.c, dns_query_engine.c)

    RFC 9018 cookies of version 1: the version, three reserved octets, the
    time and a SipHash of these with the client cookie and address. A server
    accepts the cookies of all its configured secrets, and answers a query
    whose cookie is not valid with BADCOOKIE and a new cookie. *)

From S2P Require Import Prelude CLib Siphash Cidr.
From S2P Require Import WireName Edns.

Module Cookie.
Import CLib Siphash Cidr WireName Edns.

Definition SERVER_COOKIE_LEN : Z := 16.
Definition SERVER_COOKIE_VERSION : Z := 1.
Definition SERVER_COOKIE_VALID_PAST_SECS : Z := 3600.
Definition SERVER_COOKIE_VALID_FUTURE_SECS : Z := 300.
Definition SERVER_COOKIE_REFRESH_SECS : Z := 1800.

Inductive server_cookie_status_t := SERVER_COOKIE_INVALID | SERVER_COOKIE_VALID | SERVER_COOKIE_VALID_REFRESH.

Section Cookie.
Context {pton : InetPton}.

(** [g_server_cookie_secret], random at start-up. *)
Variable g_server_cookie_secret : list Z.

(** ** Operations *)

(** [cfg->cookie_secrets], the first [cookie_secret_count]; [cfg == NULL] is
    the empty list, which the code treats alike. *)
Definition cookie_active_secret (cookie_secrets : list (list Z)) : list Z :=
  match cookie_secrets with s :: _ => s | [] => g_server_cookie_secret end.

(** The address in the hash; [Fail]: not an address. *)
Definition cookie_address (client_ip : option (list Z)) : outcome (list Z) :=
  match client_ip with
  | None => Fail
  | Some ip =>
      match inet_pton AF_INET ip with
      | Some a4 => Ret a4
      | None => match inet_pton AF_INET6 ip with Some a6 => Ret a6 | None => Fail end
      end
  end.

(** [hash_out] *)
Definition compute_server_cookie_hash (secret : list Z) (client_ip : option (list Z)) (client_cookie ver_rsvd_ts : list Z) : outcome (list Z) :=
  let! cc := slice client_cookie 0 8 in
  let! vrt := slice ver_rsvd_ts 0 8 in
  let! a := cookie_address client_ip in
  let data := cc ++ vrt ++ a in
  let! key := dns_siphash_key_from_bytes secret in
  let! h := dns_siphash24 data (len data) key in
  Ret (map (fun i => u8 (Z.shiftr h (8 * i))) (seqZ 0 8)).

(** The first eight octets: version, reserved and time. *)
Definition cookie_head (timestamp : Z) : list Z :=
  [SERVER_COOKIE_VERSION; 0; 0; 0; Z.land (Z.shiftr timestamp 24) 255; Z.land (Z.shiftr timestamp 16) 255;
   Z.land (Z.shiftr timestamp 8) 255; Z.land timestamp 255].

(** The octets of [server_cookie]; when it fails, the first eight have been
    written. *)
Definition generate_server_cookie (cookie_secrets : list (list Z)) (client_ip : option (list Z)) (client_cookie : list Z) (timestamp : Z) : outcome (list Z) :=
  let vrt := cookie_head timestamp in
  let! h := compute_server_cookie_hash (cookie_active_secret cookie_secrets) client_ip client_cookie vrt in
  Ret (vrt ++ h).

(** 0: equal. Every octet is looked at. *)
Fixpoint const_time_from (a b : list Z) (i : Z) (n : nat) (res : Z) : outcome Z :=
  match n with
  | O => Ret (if res =? 0 then 0 else 1)
  | S n' => let! x := rd a i in let! y := rd b i in const_time_from a b (i + 1) n' (Z.lor res (Z.lxor x y))
  end.
Definition const_time_memcmp (a b : list Z) (n : Z) : outcome Z := const_time_from a b 0 (Z.to_nat n) 0.

(** Whether one of the secrets gives the hash of the cookie. *)
Fixpoint match_secrets (secrets : list (list Z)) (client_ip : option (list Z)) (client_cookie server_cookie : list Z) : outcome bool :=
  match secrets with
  | [] => Ret false
  | s :: secrets' =>
      let! expected := compute_server_cookie_hash s client_ip client_cookie server_cookie in
      let! hash := slice server_cookie 8 8 in
      let! c := const_time_memcmp hash expected 8 in
      if c =? 0 then Ret true else match_secrets secrets' client_ip client_cookie server_cookie
  end.

Definition verify_server_cookie (cookie_secrets : list (list Z)) (client_ip : option (list Z)) (client_cookie server_cookie : list Z)
    (server_cookie_len now : Z) : outcome server_cookie_status_t :=
  if negb (server_cookie_len =? SERVER_COOKIE_LEN) then Ret SERVER_COOKIE_INVALID
  else
    let! v := rd server_cookie 0 in
    if negb (v =? SERVER_COOKIE_VERSION) then Ret SERVER_COOKIE_INVALID
    else
      let! ts := rd32 server_cookie 4 in
      let age := s32 (now - ts) in
      if (SERVER_COOKIE_VALID_PAST_SECS <? age) || (age <? - SERVER_COOKIE_VALID_FUTURE_SECS) then Ret SERVER_COOKIE_INVALID
      else
        orelse (match_secrets (match cookie_secrets with [] => [g_server_cookie_secret] | _ => cookie_secrets end) client_ip client_cookie server_cookie)
          SERVER_COOKIE_INVALID (fun found =>
        if negb found then Ret SERVER_COOKIE_INVALID
        else Ret (if SERVER_COOKIE_REFRESH_SECS <? age then SERVER_COOKIE_VALID_REFRESH else SERVER_COOKIE_VALID)).

(** The cookie of a query ([process_query_body], with [edns.has_cookie]): the
    cookie of the response and whether the answer is BADCOOKIE.
    [require_cookie] is [config_require_server_cookie]. *)
Definition answer_cookie (cookie_secrets : list (list Z)) (client_ip : option (list Z)) (c : cookie_t) (is_tcp require_cookie : bool) (now : Z) :
    outcome (cookie_t * bool) :=
  let! '(need_new_cookie, is_badcookie) :=
    if server_cookie_len c =? 0 then Ret (true, negb is_tcp && require_cookie)
    else
      let! cst := verify_server_cookie cookie_secrets client_ip (client_cookie c) (server_cookie c) (server_cookie_len c) now in
      Ret (match cst with
           | SERVER_COOKIE_INVALID => (true, negb is_tcp)
           | SERVER_COOKIE_VALID_REFRESH => (true, false)
           | SERVER_COOKIE_VALID => (false, false)
           end) in
  if (need_new_cookie : bool) then
    let! fresh := orelse (let! k := generate_server_cookie cookie_secrets client_ip (client_cookie c) now in Ret (Some k)) None Ret in
    match fresh with
    | None =>
        let! sc := wr_list (server_cookie c) 0 (cookie_head now) in
        Ret (Edns.Cookie false (has_malformed_cookie c) (client_cookie c) sc 0, is_badcookie)
    | Some k =>
        let! sc := wr_list (server_cookie c) 0 k in
        Ret (Edns.Cookie (has_cookie c) (has_malformed_cookie c) (client_cookie c) sc SERVER_COOKIE_LEN, is_badcookie)
    end
  else Ret (c, is_badcookie).

(** ** Specification *)

(** The hash of RFC 9018: SipHash-2-4 of the client cookie, the first eight
    octets of the server cookie and the address, in little-endian order. *)
Definition secret_key (secret : list Z) : Z * Z :=
  (little_endian_to_Z 8 (take 8 secret), little_endian_to_Z 8 (take 8 (drop 8 secret))).

Definition cookie_hash (secret a cc vrt : list Z) : list Z :=
  let h := siphash_ref (secret_key secret) (cc ++ vrt ++ a) in map (fun i => u8 (Z.shiftr h (8 * i))) (seqZ 0 8).

Definition secret_wf (s : list Z) : Prop := bytes s /\ length s = 16%nat.

(** The secrets whose cookies are accepted. *)
Definition accepted_secrets (cookie_secrets : list (list Z)) : list (list Z) :=
  match cookie_secrets with [] => [g_server_cookie_secret] | _ => cookie_secrets end.

(** The age of a cookie, in the arithmetic of RFC 1982. *)
Definition cookie_age (now ts : Z) : Z := s32 (now - ts).
Definition in_window (age : Z) : Prop := - SERVER_COOKIE_VALID_FUTURE_SECS <= age <= SERVER_COOKIE_VALID_PAST_SECS.

(** A cookie that one of the secrets made for this client. *)
Definition genuine (secrets : list (list Z)) (client_ip : option (list Z)) (cc sc : list Z) : Prop :=
  exists s a, s ∈ secrets /\ cookie_address client_ip = Ret a /\ take 8 (drop 8 sc) = cookie_hash s a cc (take 8 sc).

(** ** Lemmas *)

Lemma cookie_address_cases client_ip : cookie_address client_ip = Fail \/ exists a, cookie_address client_ip = Ret a /\ bytes a.
Proof.
  unfold cookie_address. destruct client_ip as [ip |]; [| by left].
  destruct (inet_pton AF_INET ip) as [a4 |] eqn:E4; [right; exists a4; split; [done |]; exact (proj2 (inet_pton_v4 _ _ E4)) |].
  destruct (inet_pton AF_INET6 ip) as [a6 |] eqn:E6; [right; exists a6; split; [done |]; exact (proj2 (inet_pton_v6 _ _ E6)) | by left].
Qed.

Lemma compute_hash_spec secret client_ip cc vrt : secret_wf secret -> bytes cc -> length cc = 8%nat -> bytes vrt -> 8 <= len vrt ->
  compute_server_cookie_hash secret client_ip cc vrt =
  let! a := cookie_address client_ip in Ret (cookie_hash secret a cc (take 8 vrt)).
Proof.
  intros [Hs Hsl] Hc Hcl Hv Hvl. unfold compute_server_cookie_hash.
  rewrite !slice_in by lia. cbn [obind]. change (Z.to_nat 8) with 8%nat. change (Z.to_nat 0) with 0%nat. rewrite !drop_0, (take_ge cc) by lia.
  destruct (cookie_address_cases client_ip) as [-> | (a & -> & Ha)]; [done |]. cbn [obind].
  unfold dns_siphash_key_from_bytes. rewrite !load_le64_spec by (done || lia). cbn [obind].
  rewrite siphash24_spec by ((rewrite !Forall_app; split_and!; [done | by apply Forall_take | done]) || lia). cbn [obind].
  by rewrite Nat2Z.id, firstn_all.
Qed.

Lemma length_cookie_hash s a cc vrt : length (cookie_hash s a cc vrt) = 8%nat.
Proof. unfold cookie_hash. by rewrite length_map, length_seqZ. Qed.

Lemma const_time_from_spec a b n : forall i res, 0 <= i -> i + Z.of_nat n <= len a -> i + Z.of_nat n <= len b ->
  exists c, const_time_from a b i n res = Ret c /\
    (c = 0 <-> res = 0 /\ take n (drop (Z.to_nat i) a) = take n (drop (Z.to_nat i) b)).
Proof.
  induction n as [| n IH]; intros i res Hi Ha Hb; cbn [const_time_from].
  { eexists. split; [done |]. rewrite !take_0. destruct (Z.eqb_spec res 0); naive_solver. }
  destruct (lookup_lt_is_Some_2 a (Z.to_nat i)) as [x Hx]; [lia |]. destruct (lookup_lt_is_Some_2 b (Z.to_nat i)) as [y Hy]; [lia |].
  rewrite (proj2 (rd_Ret a i x)), (proj2 (rd_Ret b i y)) by done. cbn [obind].
  destruct (IH (i + 1) (Z.lor res (Z.lxor x y))) as (c & -> & Hc); [lia | lia | lia |]. exists c. split; [done |]. rewrite Hc.
  rewrite (drop_S a x (Z.to_nat i)), (drop_S b y (Z.to_nat i)) by done. cbn [take].
  replace (Z.to_nat (i + 1)) with (S (Z.to_nat i)) by lia. rewrite Z.lor_eq_0_iff, Z.lxor_eq_0_iff.
  split; [intros [[-> ->] Ht]; by rewrite Ht | intros [-> Ht]; by injection Ht as -> Ht].
Qed.

Lemma match_secrets_spec secrets client_ip cc sc a : Forall secret_wf secrets -> bytes cc -> length cc = 8%nat -> bytes sc -> 16 <= len sc ->
  cookie_address client_ip = Ret a ->
  exists found, match_secrets secrets client_ip cc sc = Ret found /\
    (found = true <-> exists s, s ∈ secrets /\ take 8 (drop 8 sc) = cookie_hash s a cc (take 8 sc)).
Proof.
  intros Hs Hc Hcl Hb Hl Ha. induction Hs as [| s secrets Hs _ IH]; cbn [match_secrets]; [exists false; split; [done |]; set_solver |].
  rewrite compute_hash_spec by (done || lia). rewrite Ha. cbn [obind]. rewrite slice_in by lia. cbn [obind]. change (Z.to_nat 8) with 8%nat.
  pose proof (length_cookie_hash s a cc (take 8 sc)) as Hh.
  assert (length (take 8 (drop 8 sc)) = 8%nat) as H8 by (rewrite length_take, length_drop; lia).
  destruct (const_time_from_spec (take 8 (drop 8 sc)) (cookie_hash s a cc (take 8 sc)) 8 0 0) as (c & Hct & Hc0); [lia | lia | lia |].
  unfold const_time_memcmp. change (Z.to_nat 8) with 8%nat. rewrite Hct. cbn [obind]. rewrite !drop_0, !take_ge in Hc0 by lia.
  destruct (Z.eqb_spec c 0) as [E | E].
  - exists true. split; [done |]. split; [| done]. intros _. exists s. split; [set_solver |]. by apply Hc0.
  - destruct IH as (found & -> & Hf). exists found. split; [done |]. rewrite Hf. split.
    + intros (s' & Hin & He). exists s'. split; [set_solver | done].
    + intros (s' & [-> | Hin]%elem_of_cons & He); [exfalso; apply E, Hc0; done | by exists s'].
Qed.

Lemma accepted_wf secrets : secret_wf g_server_cookie_secret -> Forall secret_wf secrets -> Forall secret_wf (accepted_secrets secrets).
Proof. intros Hg Hs. unfold accepted_secrets. destruct secrets; [by apply Forall_cons_2, Forall_nil_2 | done]. Qed.

(** What a valid cookie of a given age is worth. *)
Definition status_at (age : Z) : server_cookie_status_t :=
  if SERVER_COOKIE_REFRESH_SECS <? age then SERVER_COOKIE_VALID_REFRESH else SERVER_COOKIE_VALID.

Lemma status_valid age : status_at age <> SERVER_COOKIE_INVALID.
Proof. unfold status_at. by case_if. Qed.

Lemma verify_spec secrets client_ip cc sc now : secret_wf g_server_cookie_secret -> Forall secret_wf secrets ->
  bytes cc -> length cc = 8%nat -> bytes sc -> 16 <= len sc ->
  exists v ts st, rd sc 0 = Ret v /\ rd32 sc 4 = Ret ts /\ verify_server_cookie secrets client_ip cc sc 16 now = Ret st /\
    (st <> SERVER_COOKIE_INVALID <-> v = 1 /\ in_window (cookie_age now ts) /\ genuine (accepted_secrets secrets) client_ip cc sc) /\
    (st <> SERVER_COOKIE_INVALID -> st = status_at (cookie_age now ts)).
Proof.
  intros Hg Hs Hc Hcl Hb Hl. destruct (rd_range sc 0) as (v & Hv & _); [done | lia |]. destruct (rd32_range sc 4) as (ts & Hts & _); [done | lia | lia |].
  exists v, ts. unfold verify_server_cookie. change (negb (16 =? SERVER_COOKIE_LEN)) with false. cbv iota.
  rewrite Hv. cbn [obind]. destruct (Z.eqb_spec v SERVER_COOKIE_VERSION) as [-> | Hne]; cbn [negb].
  2: { exists SERVER_COOKIE_INVALID. split_and!; try done. split; [done | intros [-> _]; done]. }
  rewrite Hts. cbn [obind]. fold (cookie_age now ts). set (age := cookie_age now ts). unfold in_window.
  destruct ((SERVER_COOKIE_VALID_PAST_SECS <? age) || (age <? - SERVER_COOKIE_VALID_FUTURE_SECS)) eqn:Ew.
  { exists SERVER_COOKIE_INVALID. split_and!; try done. split; [done | intros (_ & Hw & _); lia]. }
  assert (- SERVER_COOKIE_VALID_FUTURE_SECS <= age <= SERVER_COOKIE_VALID_PAST_SECS) as Hw by lia. fold (accepted_secrets secrets).
  destruct (cookie_address_cases client_ip) as [Ea | (a & Ea & _)].
  - assert (match_secrets (accepted_secrets secrets) client_ip cc sc = Fail) as ->.
    { pose proof (accepted_wf secrets Hg Hs) as Hacc. unfold accepted_secrets in *.
      destruct secrets; cbn [match_secrets]; apply Forall_cons_1 in Hacc as [Hs1 _]; rewrite compute_hash_spec by (done || lia); by rewrite Ea. }
    exists SERVER_COOKIE_INVALID. split_and!; try done. split; [done | intros (_ & _ & s & a & _ & Ha & _); congruence].
  - destruct (match_secrets_spec (accepted_secrets secrets) client_ip cc sc a) as (found & -> & Hf); try done; [by apply accepted_wf |].
    cbn [orelse]. destruct found; cbn [negb].
    + exists (status_at age). split_and!; try done. split; [| intros _; apply status_valid]. intros _. split_and!; [done | lia | lia |].
      destruct (proj1 Hf eq_refl) as (s & Hin & He). by exists s, a.
    + exists SERVER_COOKIE_INVALID. split_and!; try done. split; [done |]. intros (_ & _ & s & a' & Hin & Ha & He). assert (a' = a) as -> by congruence.
      assert (false = true) as [=]. apply Hf. by exists s.
Qed.

Lemma land_255_byte z : isbyte (Z.land z 255).
Proof. change 255 with (Z.ones 8). rewrite Z.land_ones by lia. apply Z.mod_pos_bound. lia. Qed.

Lemma cookie_head_spec ts rest : u32_range ts ->
  bytes (cookie_head ts) /\ rd (cookie_head ts ++ rest) 0 = Ret 1 /\ rd32 (cookie_head ts ++ rest) 4 = Ret ts.
Proof.
  intros Hts. split_and!; [| done |].
  - unfold cookie_head, SERVER_COOKIE_VERSION. forall_list; (apply land_255_byte || (unfold isbyte; lia)).
  - rewrite <- (rd32_be32 ts Hts). unfold be32, cookie_head.
    assert (u8 (Z.shiftr ts 24) = Z.land (Z.shiftr ts 24) 255) as -> by (change 255 with (Z.ones 8); by rewrite Z.land_ones by lia). done.
Qed.

Lemma generate_spec secrets client_ip cc ts a : secret_wf g_server_cookie_secret -> Forall secret_wf secrets -> bytes cc -> length cc = 8%nat ->
  u32_range ts -> cookie_address client_ip = Ret a ->
  generate_server_cookie secrets client_ip cc ts =
  Ret (cookie_head ts ++ cookie_hash (cookie_active_secret secrets) a cc (cookie_head ts)).
Proof.
  intros Hg Hs Hc Hcl Hts Ha. unfold generate_server_cookie. cbv zeta. destruct (cookie_head_spec ts [] Hts) as (Hb & _).
  rewrite compute_hash_spec; [by rewrite Ha | | done | done | done | done]. unfold cookie_active_secret. destruct Hs; done.
Qed.

Lemma cookie_hash_bytes s a cc vrt : bytes (cookie_hash s a cc vrt).
Proof. unfold cookie_hash. cbv zeta. apply Forall_map, Forall_true. intros i. apply Z.mod_pos_bound. lia. Qed.

Lemma active_accepted secrets : cookie_active_secret secrets ∈ accepted_secrets secrets.
Proof. unfold cookie_active_secret, accepted_secrets. destruct secrets; set_solver. Qed.

(** ** Properties *)

(** C26. A server cookie is accepted exactly when it has 16 octets and version
    1, its time is at most an hour in the past and five minutes in the future
    (in serial arithmetic), and its hash is that of one of the accepted
    secrets over the client cookie, the octets received and the address of
    the client. Then the only other question is its age: older than half an
    hour, it is to be renewed. *)
Theorem server_cookie_accepted (secrets : list (list Z)) (client_ip : option (list Z)) (cc sc : list Z) (n now : Z) :
  secret_wf g_server_cookie_secret -> Forall secret_wf secrets -> bytes cc -> length cc = 8%nat -> bytes sc -> 16 <= len sc ->
  exists st, verify_server_cookie secrets client_ip cc sc n now = Ret st /\
    (st <> SERVER_COOKIE_INVALID <-> n = 16 /\ rd sc 0 = Ret 1 /\
      exists ts, rd32 sc 4 = Ret ts /\ in_window (cookie_age now ts) /\ genuine (accepted_secrets secrets) client_ip cc sc /\
        (st = SERVER_COOKIE_VALID_REFRESH <-> SERVER_COOKIE_REFRESH_SECS < cookie_age now ts)).
Proof.
  intros Hg Hs Hc Hcl Hb Hl. destruct (verify_spec secrets client_ip cc sc now) as (v & ts & st & Hv & Hts & Hst & Hiff & Hval); try done.
  destruct (Z.eq_dec n 16) as [-> | Hn].
  2: { exists SERVER_COOKIE_INVALID. split; [| naive_solver]. unfold verify_server_cookie, SERVER_COOKIE_LEN. by rewrite (proj2 (Z.eqb_neq _ _)). }
  exists st. split; [done |]. rewrite Hv. split.
  - intros Hne. destruct (proj1 Hiff Hne) as (-> & Hw & Hgen). split_and!; [done | done |]. exists ts. split_and!; try done; try apply Hw.
    rewrite (Hval Hne). unfold status_at. destruct (Z.ltb_spec SERVER_COOKIE_REFRESH_SECS (cookie_age now ts)); split; done || lia.
  - intros (_ & [= ->] & ts' & Ets & Hw & Hgen & _). apply Hiff. assert (ts' = ts) as -> by congruence. done.
Qed.

(** Cookies round trip, also when secrets are rolled over: a cookie that
    was handed out at time [t0] is accepted at time [t] from the same address
    with the same client cookie, by any server whose accepted secrets include
    the one that made it, when [t] is in the window; the query is then not
    answered with BADCOOKIE, and the cookie is renewed exactly after half an
    hour. *)
Theorem server_cookie_roundtrip (secrets secrets' : list (list Z)) (client_ip : option (list Z)) (a : list Z) (c c1 : cookie_t) (b tcp req req' : bool) (t0 t : Z) :
  secret_wf g_server_cookie_secret -> Forall secret_wf secrets -> Forall secret_wf secrets' ->
  cookie_active_secret secrets ∈ accepted_secrets secrets' ->
  cookie_address client_ip = Ret a -> cookie_wf c -> server_cookie_len c = 0 -> u32_range t0 -> u32_range t ->
  answer_cookie secrets client_ip c tcp req t0 = Ret (c1, b) -> in_window (cookie_age t t0) ->
  server_cookie_len c1 = 16 /\
  exists c2, answer_cookie secrets' client_ip c1 tcp req' t = Ret (c2, false) /\
    (cookie_age t t0 <= SERVER_COOKIE_REFRESH_SECS -> c2 = c1) /\
    (SERVER_COOKIE_REFRESH_SECS < cookie_age t t0 -> exists k, generate_server_cookie secrets' client_ip (client_cookie c) t = Ret k /\ take 16 (server_cookie c2) = k).
Proof.
  intros Hg Hs Hs' Hin Ha (Hcb & Hcl & Hsb & Hsl & _ & _) Hlen Ht0 Ht Hans Hw. unfold answer_cookie in Hans. rewrite Hlen in Hans. cbn [Z.eqb obind] in Hans.
  rewrite (generate_spec _ _ _ _ a) in Hans by done. cbn [obind orelse] in Hans.
  pose proof (length_cookie_hash (cookie_active_secret secrets) a (client_cookie c) (cookie_head t0)) as Hh. set (h := cookie_hash _ _ _ _) in *.
  assert (length (cookie_head t0 ++ h) = 16%nat) as Hk by (rewrite length_app, Hh; done).
  rewrite wr_list_splice in Hans by lia. cbn [obind] in Hans.
  set (sc := splice (server_cookie c) 0 (cookie_head t0 ++ h)) in *. injection Hans as <- _.
  assert (sc = cookie_head t0 ++ h ++ drop 16 (server_cookie c)) as Esc.
  { unfold sc, splice. change (Z.to_nat 0) with 0%nat. rewrite take_0, Hk. cbn [Nat.add]. by rewrite <- app_assoc. }
  assert (length sc = 32%nat) as Lsc by (unfold sc; rewrite length_splice by lia; done).
  destruct (cookie_head_spec t0 (h ++ drop 16 (server_cookie c)) Ht0) as (Hhb & Hrd0 & Hrd4). rewrite <- Esc in Hrd0, Hrd4.
  assert (bytes sc) as Hscb by (rewrite Esc; apply Forall_app_2; [done | apply Forall_app_2; [apply cookie_hash_bytes | by apply Forall_drop]]).
  split; [done |]. unfold answer_cookie. cbn [server_cookie_len client_cookie server_cookie has_cookie has_malformed_cookie]. change (SERVER_COOKIE_LEN =? 0) with false.
  change SERVER_COOKIE_LEN with 16. cbv iota.
  destruct (verify_spec secrets' client_ip (client_cookie c) sc t) as (v & ts & st & Hv & Hts & Hst & Hiff & Hval); try done; [lia |].
  assert (v = 1) as -> by congruence. assert (ts = t0) as -> by congruence.
  assert (st <> SERVER_COOKIE_INVALID) as Hne.
  { apply Hiff. split; [done |]. split; [done |]. exists (cookie_active_secret secrets), a. split_and!; [done | done |]. rewrite Esc.
    change (drop 8 (cookie_head t0 ++ h ++ drop 16 (server_cookie c))) with (drop 0 (h ++ drop 16 (server_cookie c))).
    change (take 8 (cookie_head t0 ++ h ++ drop 16 (server_cookie c))) with (take 8 (cookie_head t0 ++ (h ++ drop 16 (server_cookie c)))).
    rewrite drop_0, (take_app_le h) by lia. rewrite (take_app_le (cookie_head t0)) by (cbn; lia). rewrite !take_ge by (rewrite ?Hh; cbn; lia). done. }
  rewrite Hst. cbn [obind]. rewrite (Hval Hne). unfold status_at. destruct (Z.ltb_spec SERVER_COOKIE_REFRESH_SECS (cookie_age t t0)) as [Hold | Hnew]; cbn [obind].
  - rewrite (generate_spec _ _ _ _ a) by done. cbn [obind orelse].
    pose proof (length_cookie_hash (cookie_active_secret secrets') a (client_cookie c) (cookie_head t)) as Hh'. set (h' := cookie_hash _ _ _ (cookie_head t)) in *.
    assert (length (cookie_head t ++ h') = 16%nat) as Hk' by (rewrite length_app, Hh'; done).
    rewrite wr_list_splice by lia. cbn [obind]. eexists. split; [done |]. split; [lia |]. intros _. eexists. split; [done |].
    cbn [server_cookie]. unfold splice. change (Z.to_nat 0) with 0%nat. rewrite take_0. cbn [app]. rewrite take_app_le by lia. by rewrite take_ge by lia.
  - eexists. split; [done |]. split; [done | lia].
Qed.

End Cookie.

Ltac secrets_lit := repeat (apply Forall_cons_2; [split; [bytes_lit | reflexivity] |]); apply Forall_nil_2.

Lemma server_cookie_accepted_witness :
  exists sc, generate_server_cookie (replicate 16 0) [seqZ 1 16] (Some (str "192.0.2.1")) (seqZ 1 8) 1000000 = Ret sc /\
  exists st, verify_server_cookie (replicate 16 0) [seqZ 9 16; seqZ 1 16] (Some (str "192.0.2.1")) (seqZ 1 8) sc 16 1002000 = Ret st /\
    st = SERVER_COOKIE_VALID_REFRESH.
Proof.
  eexists. split; [vm_compute; reflexivity |].
  match goal with |- context [verify_server_cookie _ _ _ _ ?sc] =>
    destruct (server_cookie_accepted (replicate 16 0) [seqZ 9 16; seqZ 1 16] (Some (str "192.0.2.1")) (seqZ 1 8) sc 16 1002000) as (st & Hst & _);
    [split; [bytes_lit | by vm_compute] | secrets_lit | bytes_lit | by vm_compute | bytes_lit | by vm_compute |];
    assert (verify_server_cookie (replicate 16 0) [seqZ 9 16; seqZ 1 16] (Some (str "192.0.2.1")) (seqZ 1 8) sc 16 1002000 = Ret SERVER_COOKIE_VALID_REFRESH)
      as E by (vm_compute; reflexivity)
  end.
  exists st. split; [exact Hst |]. congruence.
Defined.

Lemma server_cookie_roundtrip_witness :
  let c := Edns.Cookie true false (seqZ 1 8) (replicate 32 0) 0 in
  exists c1 c2, answer_cookie (replicate 16 0) [seqZ 1 16] (Some (str "192.0.2.1")) c false true 1000000 = Ret (c1, true) /\
    answer_cookie (replicate 16 0) [seqZ 9 16; seqZ 1 16] (Some (str "192.0.2.1")) c1 false true 1000500 = Ret (c2, false) /\ c2 = c1.
Proof.
  intros c. eexists.
  match goal with |- exists c2, ?x = Ret (?c1, _) /\ _ => assert (x = Ret (c1, true)) as E by (vm_compute; reflexivity) end.
  match type of E with _ = Ret (?c1, _) =>
    destruct (server_cookie_roundtrip (replicate 16 0) [seqZ 1 16] [seqZ 9 16; seqZ 1 16] (Some (str "192.0.2.1")) [192; 0; 2; 1] c c1 true false true true 1000000 1000500)
      as (_ & c2 & H2 & Hsame & _);
    [split; [bytes_lit | reflexivity] | secrets_lit | secrets_lit | constructor 2; constructor 1 | vm_compute; reflexivity
    | split_and!; [bytes_lit | reflexivity | bytes_lit | reflexivity | left; reflexivity | intros [_ [=]]]
    | reflexivity | clear E; by vm_compute | clear E; by vm_compute | exact E | clear E; by vm_compute |]
  end.
  exists c2. split; [exact E |]. split; [exact H2 |]. apply Hsame. clear. by vm_compute.
Defined.

End Cookie.
