(* ===== verification/EpochRcu.v ===== *)
(** * Epoch based reclamation (dns_epoch_rcu.c)

    Readers announce the epoch they have seen in a slot before they load a
    protected pointer; a writer publishes a new object, advances the epoch,
    and frees the old object after it has found no slot with the old epoch or
    an older one. The threads are modelled by their atomic accesses, so that
    every interleaving is a sequence of steps. The relaxed load of the epoch
    may return an old value; the fences make the other accesses sequentially
    consistent, and this is what the model assumes. *)

From stdpp Require Import functions.
From S2P Require Import Prelude.

Module EpochRcu.

(** ** Data *)

Definition RCU_EPOCH_IDLE : Z := 18446744073709551615.
Definition MAX_ASYNC_IO_RCU_WORKERS : nat := 16.
Definition MAX_AUX_RCU_READERS : nat := 128.

(** The places where an epoch is announced. *)
Inductive slot := Worker (i : nat) | RespLogger | QueryLogger | AsyncIo (i : nat) | Aux (i : nat).

#[export] Instance slot_eq_dec : EqDecision slot.
Proof. solve_decision. Defined.

(** Where a thread is inside a function of the component; [Run] is the
    caller's code. *)
Inductive program_counter :=
  | Run
  | Entering (s : slot)
  | Loaded (s : slot) (e : Z)
  | Claiming (i : nat) (lock : bool)
  | Exchange (i : nat) (lock : bool)
  | Releasing (i : nat)
  | Published (old : nat)
  | Scanning (old : nat) (retire_epoch : Z) (skip : option slot) (rest : list slot).

(** The thread-local variables: [own] is [t_rcu_own_observed]. *)
Record thread := Thread { own : option slot; aux_slot : option nat; aux_depth : Z; aux_pinned : bool; pc : program_counter }.

(** [ptr] are the protected pointers; objects are numbers that are not used
    again ([used]). What readers have loaded in a section
    ([held]), which objects were replaced at which epoch ([retired]) and
    freed, with the slot that was not waited for ([freed]), is only
    recorded. *)
Record state := State {
  g_global_epoch : Z; observed : slot -> Z; in_use : nat -> bool; threads : nat -> thread; ptr : list nat;
  held : slot -> list nat; retired : list (nat * Z); freed : list (nat * option slot); used : list nat }.

(** What a thread does next: call a function, or go on inside one, where the
    epoch is what the load returns. *)
Inductive action :=
  | Enter | Exit | Pin | Unpin | Lock | Unlock
  | Load (s : slot) (p : nat)
  | Publish (p : nat) (new : nat)
  | Check (old : nat) (retire_epoch : Z) (in_reader : bool)
  | Go (e : Z).

Definition set_thread (st : state) (t : nat) (th : thread) : state :=
  State (g_global_epoch st) (observed st) (in_use st) (<[t := th]> (threads st)) (ptr st) (held st) (retired st) (freed st) (used st).
Definition set_observed (st : state) (s : slot) (e : Z) : state :=
  State (g_global_epoch st) (<[s := e]> (observed st)) (in_use st) (threads st) (ptr st) (held st) (retired st) (freed st) (used st).
Definition set_held (st : state) (s : slot) (l : list nat) : state :=
  State (g_global_epoch st) (observed st) (in_use st) (threads st) (ptr st) (<[s := l]> (held st)) (retired st) (freed st) (used st).
Definition set_in_use (st : state) (i : nat) (b : bool) : state :=
  State (g_global_epoch st) (observed st) (<[i := b]> (in_use st)) (threads st) (ptr st) (held st) (retired st) (freed st) (used st).

Definition with_pc (th : thread) (c : program_counter) : thread := Thread (own th) (aux_slot th) (aux_depth th) (aux_pinned th) c.
Definition set_pc (st : state) (t : nat) (c : program_counter) : state := set_thread st t (with_pc (threads st t) c).

Section EpochRcu.

(** [g_worker_count] and [g_async_io_rcu_worker_count]. *)
Variables num_workers async_workers : nat.

(** The slot of a thread's own, for workers, loggers and asynchronous I/O. *)
Variable role : nat -> option slot.

(** ** Operations: readers *)

(** [rcu_reader_enter], [rcu_slot_reader_enter]: not called inside a section
    of the slot. *)
Definition rcu_reader_enter (st : state) (t : nat) : option state :=
  match role t with
  | Some s =>
      if decide (observed st s = RCU_EPOCH_IDLE) then
        let th := threads st t in
        Some (set_thread st t (Thread (Some s) (aux_slot th) (aux_depth th) (aux_pinned th) (Entering s)))
      else None
  | None => None
  end.

(** The two accesses of [rcu_epoch_enter]; the load may return any epoch up
    to the present one. *)
Definition epoch_load (st : state) (t : nat) (s : slot) (e : Z) : option state :=
  if (0 <=? e) && (e <=? g_global_epoch st) then Some (set_pc st t (Loaded s e)) else None.
Definition epoch_store (st : state) (t : nat) (s : slot) (e : Z) : state := set_pc (set_observed st s e) t Run.

Definition rcu_epoch_exit (st : state) (s : slot) : state := set_held (set_observed st s RCU_EPOCH_IDLE) s [].

Definition rcu_reader_exit (st : state) (t : nat) : option state :=
  match role t with
  | Some s => Some (rcu_epoch_exit st s)
  | None => None
  end.

(** A protected pointer is loaded inside a section of the thread. *)
Definition in_section (st : state) (t : nat) (s : slot) : bool :=
  (bool_decide (role t = Some s) || bool_decide (option_map Aux (aux_slot (threads st t)) = Some s)) && negb (observed st s =? RCU_EPOCH_IDLE).

Definition load_pointer (st : state) (t : nat) (s : slot) (p : nat) : option state :=
  match ptr st !! p with
  | Some o => if in_section st t s then Some (set_held st s (o :: held st s)) else None
  | None => None
  end.

(** ** Operations: slots for other threads *)

(** What follows [aux_slot_claim]. *)
Definition claimed (st : state) (t : nat) (i : nat) (lock : bool) : state :=
  let th := threads st t in
  if lock then set_thread st t (Thread (own th) (Some i) (aux_depth th) (aux_pinned th) (Entering (Aux i)))
  else set_thread st t (Thread (own th) (Some i) (aux_depth th) true Run).

(** The load and the exchange of [aux_slot_claim] at one slot; behind the
    last slot it starts again. *)
Definition claim_load (st : state) (t : nat) (i : nat) (lock : bool) : state :=
  if (i <? MAX_AUX_RCU_READERS)%nat then set_pc st t (if in_use st i then Claiming (S i) lock else Exchange i lock)
  else set_pc st t (Claiming 0 lock).
Definition claim_exchange (st : state) (t : nat) (i : nat) (lock : bool) : state :=
  if in_use st i then set_pc st t (Claiming (S i) lock) else claimed (set_in_use st i true) t i lock.

Definition aux_slot_release (st : state) (t : nat) (i : nat) : state :=
  let th := threads st t in
  set_thread (set_in_use st i false) t (Thread (own th) None (aux_depth th) (aux_pinned th) Run).

Definition rcu_aux_thread_pin (st : state) (t : nat) : state :=
  let th := threads st t in
  if aux_pinned th then st
  else match aux_slot th with
       | None => set_pc st t (Claiming 0 false)
       | Some i => set_thread st t (Thread (own th) (Some i) (aux_depth th) true Run)
       end.

Definition rcu_aux_thread_unpin (st : state) (t : nat) : state :=
  let th := threads st t in
  if negb (aux_pinned th) then st
  else
    let st := set_thread st t (Thread (own th) (aux_slot th) (aux_depth th) false Run) in
    match aux_slot th with
    | Some i => if aux_depth th =? 0 then aux_slot_release st t i else st
    | None => st
    end.

Definition rcu_aux_read_lock (st : state) (t : nat) : state :=
  let th := threads st t in
  let deeper c := set_thread st t (Thread (own th) (aux_slot th) (aux_depth th + 1) (aux_pinned th) c) in
  if 0 <? aux_depth th then deeper Run
  else match aux_slot th with
       | None => deeper (Claiming 0 true)
       | Some i => deeper (Entering (Aux i))
       end.

(** [None]: the store through a null pointer. *)
Definition rcu_aux_read_unlock (st : state) (t : nat) : option state :=
  let th := threads st t in
  if aux_depth th <=? 0 then Some st
  else
    let st := set_thread st t (Thread (own th) (aux_slot th) (aux_depth th - 1) (aux_pinned th) Run) in
    if 0 <? aux_depth th - 1 then Some st
    else match aux_slot th with
         | Some i => let st := rcu_epoch_exit st (Aux i) in Some (if aux_pinned th then st else set_pc st t (Releasing i))
         | None => None
         end.

(** ** Operations: writers *)

(** The store of [rcu_writer_publish]; the writer keeps the old object. The
    new object is not one that was published before. *)
Definition publish (st : state) (t : nat) (p new : nat) : option state :=
  match ptr st !! p with
  | Some old =>
      if decide (new ∈ used st) then None
      else
        Some (set_pc (State (g_global_epoch st) (observed st) (in_use st) (threads st) (<[p := new]> (ptr st)) (held st)
                        (retired st) (freed st) (new :: used st)) t (Published old))
  | None => None
  end.

Definition rcu_writer_advance_epoch (st : state) (t : nat) (old : nat) : state :=
  set_pc (State (u64 (g_global_epoch st + 1)) (observed st) (in_use st) (threads st) (ptr st) (held st)
            ((old, g_global_epoch st) :: retired st) (freed st) (used st)) t Run.

Definition epoch_blocks (st : state) (s : slot) (retire_epoch : Z) (skip : option slot) : bool :=
  if decide (skip = Some s) then false
  else negb (observed st s =? RCU_EPOCH_IDLE) && (observed st s <=? retire_epoch).

(** The slots in the order in which [readers_safe] looks at them. *)
Definition scan_order : list slot :=
  (Worker <$> seq 0 num_workers) ++ [RespLogger; QueryLogger] ++ (AsyncIo <$> seq 0 async_workers) ++ (Aux <$> seq 0 MAX_AUX_RCU_READERS).

(** [readers_safe] for an object that was replaced, by any thread; [skip] is
    the caller's own slot in [rcu_writer_wait_until_safe_in_reader]. *)
Definition start_check (st : state) (t : nat) (old : nat) (retire_epoch : Z) (in_reader : bool) : option state :=
  if decide ((old, retire_epoch) ∈ retired st) then
    Some (set_pc st t (Scanning old retire_epoch (if in_reader then own (threads st t) else None) scan_order))
  else None.

(** One slot of the scan. A slot that blocks ends it with [false]; at the end
    the caller frees the object. *)
Definition readers_safe_step (st : state) (t : nat) (old : nat) (retire_epoch : Z) (skip : option slot) (rest : list slot) : state :=
  match rest with
  | [] =>
      set_pc (State (g_global_epoch st) (observed st) (in_use st) (threads st) (ptr st) (held st) (retired st) ((old, skip) :: freed st) (used st)) t Run
  | s :: rest' => set_pc st t (if epoch_blocks st s retire_epoch skip then Run else Scanning old retire_epoch skip rest')
  end.

(** ** Operations: waiting *)

Definition RCU_WAIT_SLEEP_MAX_US : Z := 1000.

(** The time slept in microseconds (0: the thread yields), [retries] and
    [sleep_time]. *)
Definition rcu_exponential_backoff (retries sleep_time : Z) : Z * Z * Z :=
  if retries <? 100 then (0, retries + 1, sleep_time)
  else (sleep_time, retries + 1, if sleep_time <? 100000 then u32 (sleep_time * 2) else sleep_time).

(** A [struct timespec] is its seconds and nanoseconds. *)
Definition elapsed_ms (start now : Z * Z) : Z := (fst now - fst start) * 1000 + Z.quot (snd now - snd start) 1000000.

(** [safe k] is the answer of the [k]-th [readers_safe], and [clock (k + 1)]
    the clock after the [k]-th sleep. Only the log depends on
    [stall_logged_ms]. *)
Fixpoint wait_until_safe_impl (fuel : nat) (safe : nat -> bool) (clock : nat -> Z * Z) (k : nat) (timeout_ms retries sleep_time : Z) : outcome bool :=
  match fuel with
  | O => NoFuel
  | S fuel' =>
      if safe k then Ret true
      else
        let '(_, retries, sleep_time) := rcu_exponential_backoff retries sleep_time in
        let sleep_time := if RCU_WAIT_SLEEP_MAX_US <? sleep_time then RCU_WAIT_SLEEP_MAX_US else sleep_time in
        if ((sleep_time =? RCU_WAIT_SLEEP_MAX_US) || (0 <? timeout_ms)) && (0 <? timeout_ms) && (timeout_ms <=? elapsed_ms (clock 0%nat) (clock (S k)))
        then Ret false
        else wait_until_safe_impl fuel' safe clock (S k) timeout_ms retries sleep_time
  end.

Definition rcu_writer_wait_until_safe (fuel : nat) (safe : nat -> bool) (clock : nat -> Z * Z) (timeout_ms : Z) : outcome bool :=
  wait_until_safe_impl fuel safe clock 0 timeout_ms 0 1.

(** ** Interleavings *)

Definition step (t : nat) (a : action) (st : state) : option state :=
  match pc (threads st t), a with
  | Run, Enter => rcu_reader_enter st t
  | Run, Exit => rcu_reader_exit st t
  | Run, Pin => Some (rcu_aux_thread_pin st t)
  | Run, Unpin => Some (rcu_aux_thread_unpin st t)
  | Run, Lock => Some (rcu_aux_read_lock st t)
  | Run, Unlock => rcu_aux_read_unlock st t
  | Run, Load s p => load_pointer st t s p
  | Run, Publish p new => publish st t p new
  | Run, Check old r in_reader => start_check st t old r in_reader
  | Entering s, Go e => epoch_load st t s e
  | Loaded s e, Go _ => Some (epoch_store st t s e)
  | Claiming i lock, Go _ => Some (claim_load st t i lock)
  | Exchange i lock, Go _ => Some (claim_exchange st t i lock)
  | Releasing i, Go _ => Some (aux_slot_release st t i)
  | Published old, Go _ => Some (rcu_writer_advance_epoch st t old)
  | Scanning old r skip rest, Go _ => Some (readers_safe_step st t old r skip rest)
  | _, _ => None
  end.

(** Before the threads start. *)
Definition start (objects : nat) : state :=
  State 0 (fun _ => RCU_EPOCH_IDLE) (fun _ => false) (fun _ => Thread None None 0 false Run) (seq 0 objects) (fun _ => []) [] [] (seq 0 objects).

Fixpoint run (l : list (nat * action)) (st : state) : option state :=
  match l with
  | [] => Some st
  | (t, a) :: l' => match step t a st with Some st' => run l' st' | None => None end
  end.

(** ** Invariant *)

(** A thread owns the slot of its role and the slot it has claimed. *)
Definition owns (st : state) (t : nat) (s : slot) : Prop := role t = Some s \/ option_map Aux (aux_slot (threads st t)) = Some s.

Definition idle (st : state) (s : slot) : Prop := observed st s = RCU_EPOCH_IDLE.
#[local] Instance idle_dec st s : Decision (idle st s).
Proof. unfold idle. apply _. Defined.

(** Outside the functions, a thread has a slot while it is pinned or inside a
    section, and the section is announced. *)
Definition aux_ok (st : state) (th : thread) : Prop :=
  match aux_slot th with
  | None => aux_depth th = 0 /\ aux_pinned th = false
  | Some i => aux_depth th = 0 /\ aux_pinned th = true /\ idle st (Aux i) \/ 0 < aux_depth th /\ ~ idle st (Aux i)
  end.

Definition thread_ok (st : state) (t : nat) : Prop :=
  let th := threads st t in
  match pc th with
  | Entering s | Loaded s _ => idle st s /\ (role t = Some s /\ aux_ok st th \/ exists i, s = Aux i /\ aux_slot th = Some i /\ aux_depth th = 1)
  | Claiming _ lock => aux_slot th = None /\ aux_depth th = (if lock then 1 else 0) /\ aux_pinned th = false
  | Exchange i lock => aux_slot th = None /\ aux_depth th = (if lock then 1 else 0) /\ aux_pinned th = false /\ (i < MAX_AUX_RCU_READERS)%nat
  | Releasing i => aux_slot th = Some i /\ aux_depth th = 0 /\ aux_pinned th = false /\ idle st (Aux i)
  | _ => aux_ok st th
  end.

(** The slots. *)
Record slots_ok (st : state) : Prop := {
  so_unique t t' i : aux_slot (threads st t) = Some i -> aux_slot (threads st t') = Some i -> t = t';
  so_use i : in_use st i = true <-> exists t, aux_slot (threads st t) = Some i;
  so_range i : in_use st i = true -> (i < MAX_AUX_RCU_READERS)%nat;
  so_own t : own (threads st t) = None \/ own (threads st t) = role t;
  so_busy s : ~ idle st s -> (exists t, role t = Some s) \/ exists i, s = Aux i /\ in_use st i = true;
  so_thread t : thread_ok st t }.

(** The epochs and the objects. *)
Record objects_ok (st : state) : Prop := {
  oo_epoch : g_global_epoch st = len (retired st);
  oo_observed s : idle st s \/ 0 <= observed st s <= g_global_epoch st;
  oo_loaded t s e : pc (threads st t) = Loaded s e -> 0 <= e <= g_global_epoch st;
  oo_ptr : NoDup (ptr st);
  oo_used o : o ∈ ptr st -> o ∈ used st;
  oo_retired o r : (o, r) ∈ retired st -> 0 <= r < g_global_epoch st /\ (o ∉ ptr st) /\ o ∈ used st;
  oo_published t o : pc (threads st t) = Published o -> (o ∉ ptr st) /\ o ∈ used st;
  oo_held s o : o ∈ held st s -> ~ idle st s /\ o ∈ used st /\ forall r, (o, r) ∈ retired st -> observed st s <= r;
  oo_scan t o r k l : pc (threads st t) = Scanning o r k l ->
    (o, r) ∈ retired st /\ exists d, scan_order = d ++ l /\ forall s, s ∈ d -> k <> Some s -> o ∉ held st s;
  oo_freed o k : (o, k) ∈ freed st -> (exists r, (o, r) ∈ retired st) /\ forall s, o ∈ held st s -> k = Some s }.

(** No reader of an epoch up to [r] is announced in a slot or about to be. *)
Definition past (st : state) (r : Z) (s : slot) : Prop :=
  (idle st s \/ r < observed st s) /\ forall t e, pc (threads st t) = Loaded s e -> r < e.

(** The loads of the epoch in a run see that it has passed [r]. *)
Fixpoint fresh (r : Z) (l : list (nat * action)) (st : state) : bool :=
  match l with
  | [] => true
  | (t, a) :: l' =>
      match pc (threads st t), a with Entering _, Go e => r <? e | _, _ => true end &&
      match step t a st with Some st' => fresh r l' st' | None => true end
  end.

(** How often a thread runs. *)
Definition turns (t : nat) (l : list (nat * action)) : nat := length (filter (fun x => fst x = t) l).

Hypothesis role_unique : forall t t' s, role t = Some s -> role t' = Some s -> t = t'.
Hypothesis role_scanned : forall t s, role t = Some s -> s ∈ scan_order /\ forall i, s <> Aux i.

(** ** Lemmas *)

Lemma fn_eq {A B} `{EqDecision A} (f : A -> B) k v : (<[k := v]> f) k = v.
Proof. apply fn_lookup_insert. Qed.
Lemma fn_ne {A B} `{EqDecision A} (f : A -> B) k v x : k <> x -> (<[k := v]> f) x = f x.
Proof. apply fn_lookup_insert_ne. Qed.

Ltac steps H :=
  unfold step, rcu_reader_enter, rcu_reader_exit, rcu_epoch_exit, rcu_aux_thread_pin, rcu_aux_thread_unpin, rcu_aux_read_lock, rcu_aux_read_unlock, load_pointer,
    publish, start_check, epoch_load, epoch_store, claim_load, claim_exchange, claimed, aux_slot_release, rcu_writer_advance_epoch, readers_safe_step, set_pc, with_pc,
    set_thread, set_observed, set_held, set_in_use in H;
  repeat match type of H with context [match ?x with _ => _ end] => destruct x eqn:? end; try discriminate H; injection H as <-.

Lemma step_others t a st st' t' : step t a st = Some st' -> t <> t' -> threads st' t' = threads st t'.
Proof. intros H Hne. steps H; cbn; rewrite ?fn_ne by done; done. Qed.

Lemma step_observed t a st st' s : thread_ok st t -> step t a st = Some st' -> observed st' s = observed st s \/ owns st t s.
Proof.
  intros Hok H. unfold owns, thread_ok in *. steps H; cbn; auto;
    match goal with |- (<[?k := _]> _) s = _ \/ _ => destruct (decide (k = s)) as [<- | ?]; [right | left; by apply fn_ne] end.
  - by left.
  - by right.
  - by right.
  - destruct Hok as (_ & [[Hr _] | (i & -> & -> & _)]); auto.
Qed.

(** The claimed slots change in two ways. *)
Lemma step_slots t a st st' : thread_ok st t -> step t a st = Some st' ->
  let i := aux_slot (threads st t) in let i' := aux_slot (threads st' t) in
  i' = i /\ in_use st' = in_use st \/
  (exists j, i = None /\ i' = Some j /\ in_use st j = false /\ in_use st' = <[j := true]> (in_use st) /\ (j < MAX_AUX_RCU_READERS)%nat) \/
  (exists j, i = Some j /\ i' = None /\ in_use st' = <[j := false]> (in_use st) /\ idle st' (Aux j)).
Proof.
  intros Hok H. unfold thread_ok, aux_ok, idle in *. steps H; cbn; rewrite ?fn_eq; cbn; auto; right.
  - right. exists n. split_and!; try done. lia.
  - left. exists i. naive_solver.
  - left. exists i. naive_solver.
  - right. exists i. naive_solver.
Qed.

Lemma thread_ok_frame st st' t : threads st' t = threads st t -> (forall s, owns st t s -> observed st' s = observed st s) -> thread_ok st t -> thread_ok st' t.
Proof.
  intros Ht Ho. unfold thread_ok, idle. rewrite Ht.
  assert (forall i, aux_slot (threads st t) = Some i -> observed st' (Aux i) = observed st (Aux i)) as Ha.
  { intros i E. apply Ho. right. by rewrite E. }
  assert (aux_ok st (threads st t) -> aux_ok st' (threads st t)) as Hok.
  { unfold aux_ok, idle. destruct (aux_slot (threads st t)) eqn:E; [by rewrite Ha | done]. }
  assert (forall s, role t = Some s -> observed st' s = observed st s) as Hr by (intros s E; apply Ho; by left).
  destruct (pc (threads st t)); auto.
  - intros [Hi [[Hs Hx] | (i & -> & Hs & Hd)]]; [rewrite Hr by done | rewrite Ha by done]; eauto 7.
  - intros [Hi [[Hs Hx] | (i & -> & Hs & Hd)]]; [rewrite Hr by done | rewrite Ha by done]; eauto 7.
  - intros (Hs & Hd & Hp & Hi). by rewrite Ha.
Qed.

Lemma free_idle st i : slots_ok st -> in_use st i = false -> idle st (Aux i).
Proof.
  intros Hs Hf. destruct (decide (idle st (Aux i))) as [| Hb]; [done |].
  destruct (so_busy st Hs _ Hb) as [[t Ht] | (j & [= <-] & Hj)]; [by destruct (role_scanned t _ Ht) as [_ []%(fun H => H i)] | congruence].
Qed.

Lemma thread_ok_own st st' t a : slots_ok st -> objects_ok st -> g_global_epoch st < RCU_EPOCH_IDLE -> step t a st = Some st' -> thread_ok st' t.
Proof.
  intros Hs Ho He H. pose proof (so_thread st Hs t) as Hok. pose proof (oo_loaded st Ho t) as Hl. unfold thread_ok, aux_ok, idle in *.
  assert (forall s i, role t = Some s -> s <> Aux i) as Hn by (intros s i E; by destruct (role_scanned t s E)).
  assert (forall e, e <= g_global_epoch st -> e <> RCU_EPOCH_IDLE) as Hi by lia.
  steps H; cbn; rewrite ?fn_eq; cbn; rewrite ?Heqp; try done; try solve [intuition (lia || eauto)].
  - destruct (aux_slot (threads st t)); [rewrite fn_ne by auto |]; done.
  - by rewrite Heqb.
  - destruct (aux_slot (threads st t)); intuition lia.
  - assert (aux_depth (threads st t) = 0) by lia. split; [intuition lia |]. right. exists n. intuition lia.
  - destruct (aux_slot (threads st t)); intuition lia.
  - rewrite fn_eq. intuition lia.
  - rewrite fn_eq. intuition lia.
  - destruct Hok as (Hidle & [[Hr Hx] | (i & -> & -> & Hd)]).
    + destruct (aux_slot (threads st t)); [rewrite fn_ne by auto |]; done.
    + rewrite fn_eq. right. split; [lia |]. apply Hi. by apply (Hl (Aux i) e).
  - apply Nat.ltb_lt in Heqb. intuition.
  - pose proof (free_idle st i Hs Heqb) as Hf. split; [done |]. right. exists i. intuition.
  - pose proof (free_idle st i Hs Heqb) as Hf. left. intuition.
Qed.

Lemma owns_unique st t t' s : slots_ok st -> owns st t s -> owns st t' s -> t = t'.
Proof.
  intros Hs H H'. assert (forall t t' s, role t = Some s -> option_map Aux (aux_slot (threads st t')) = Some s -> False) as Hx.
  { intros u u' s' Hr Ha. destruct (aux_slot (threads st u')) as [i |]; [| done]. injection Ha as <-. by destruct (role_scanned u _ Hr) as [_ []%(fun H => H i)]. }
  destruct H as [H | H], H' as [H' | H'].
  - eauto using role_unique.
  - by destruct (Hx t t' s).
  - by destruct (Hx t' t s).
  - destruct (aux_slot (threads st t)) as [i |] eqn:E, (aux_slot (threads st t')) as [i' |] eqn:E'; try done.
    injection H as <-. injection H' as ->. by apply (so_unique st Hs t t' i).
Qed.

Lemma step_own t a st st' : step t a st = Some st' -> own (threads st' t) = own (threads st t) \/ own (threads st' t) = role t.
Proof. intros H. steps H; cbn; rewrite ?fn_eq; cbn; auto. Qed.

Lemma slots_step t a st st' : slots_ok st -> objects_ok st -> g_global_epoch st < RCU_EPOCH_IDLE -> step t a st = Some st' -> slots_ok st'.
Proof.
  intros Hs Ho He H. pose proof (so_thread st Hs t) as Hok. pose proof (fun t' => step_others t a st st' t' H) as Hf.
  pose proof (step_slots t a st st' Hok H) as Hc. pose proof (fun s => step_observed t a st st' s Hok H) as Hobs. cbv zeta in Hc.
  assert (forall i, in_use st i = true -> ~ idle st' (Aux i) -> in_use st' i = true) as Hkeep.
  { intros i Hi Hb. destruct Hc as [[_ ->] | [(j & _ & _ & _ & -> & _) | (j & _ & _ & -> & Hj)]]; [done | |].
    - destruct (decide (j = i)) as [-> | ?]; [by rewrite fn_eq | by rewrite fn_ne].
    - rewrite fn_ne; [done | congruence]. }
  assert (forall t' i, t <> t' -> aux_slot (threads st' t) = Some i -> aux_slot (threads st t') = Some i -> False) as Hother.
  { intros t' i Hne E E'. destruct Hc as [[Hc _] | [(j & _ & Hc & Hj & _) | (j & _ & Hc & _)]]; [| | congruence].
    - apply Hne, (so_unique st Hs t t' i); congruence.
    - assert (in_use st i = true) by (apply so_use; eauto). congruence. }
  split.
  - intros t1 t2 i. destruct (decide (t = t1)) as [<- |], (decide (t = t2)) as [<- |]; [done | rewrite (Hf t2) by done | rewrite (Hf t1) by done | rewrite !Hf by done].
    + intros E1 E2. by destruct (Hother t2 i).
    + intros E1 E2. by destruct (Hother t1 i).
    + apply so_unique, Hs.
  - intros i. destruct Hc as [[Ha ->] | [(j & Ha & Ha' & Hj & -> & _) | (j & Ha & Ha' & -> & _)]].
    + rewrite (so_use st Hs i). split; intros [t' E]; exists t'; destruct (decide (t = t')) as [<- |]; rewrite ?Hf in * by done; congruence.
    + destruct (decide (j = i)) as [-> | Hne]; [rewrite fn_eq; split; [eauto | done] |]. rewrite fn_ne, (so_use st Hs i) by done.
      split; intros [t' E]; exists t'; destruct (decide (t = t')) as [<- |]; rewrite ?Hf in * by done; congruence.
    + destruct (decide (j = i)) as [-> | Hne].
      * rewrite fn_eq. split; [done |]. intros [t' E]. destruct (decide (t = t')) as [<- |]; [congruence |]. rewrite Hf in E by done.
        by destruct (so_unique st Hs t t' i).
      * rewrite fn_ne, (so_use st Hs i) by done. split; intros [t' E]; exists t'; destruct (decide (t = t')) as [<- |]; rewrite ?Hf in * by done; congruence.
  - intros i. destruct Hc as [[_ ->] | [(j & _ & _ & _ & -> & Hj) | (j & _ & _ & -> & _)]]; [apply so_range, Hs | |];
      (destruct (decide (j = i)) as [-> | Hne]; [rewrite fn_eq; done | rewrite fn_ne by done; apply so_range, Hs]).
  - intros t'. destruct (decide (t = t')) as [<- |]; [| rewrite Hf by done; apply so_own, Hs].
    pose proof (so_own st Hs t). destruct (step_own t a st st' H); intuition congruence.
  - intros s Hb. destruct (Hobs s) as [E | [Hr | Ha]].
    + assert (~ idle st s) as Hb' by (unfold idle in *; congruence). destruct (so_busy st Hs s Hb') as [? | (i & -> & Hi)]; eauto.
    + eauto.
    + destruct (aux_slot (threads st t)) as [i |] eqn:E; [| done]. injection Ha as <-. right. exists i. split; [done |]. apply Hkeep; [| done].
      apply so_use; eauto.
  - intros t'. destruct (decide (t = t')) as [<- | Hne]; [by apply (thread_ok_own st st' t a) |]. apply (thread_ok_frame st); [by apply Hf | | apply so_thread, Hs].
    intros s Hown. destruct (Hobs s) as [? | Ho']; [done |]. by destruct (owns_unique st t t' s Hs Ho' Hown).
Qed.

(** What a step does to the epochs and the objects. *)

Lemma step_announced t a st st' s : step t a st = Some st' ->
  observed st' s = observed st s \/ idle st' s /\ held st' s = [] \/ pc (threads st t) = Loaded s (observed st' s) /\ held st' s = held st s.
Proof.
  intros H. unfold idle. steps H; cbn; auto;
    match goal with |- (<[?k := _]> _) s = _ \/ _ => destruct (decide (k = s)) as [<- | ?]; [rewrite ?fn_eq | left; by apply fn_ne] end; auto.
Qed.

Lemma step_held t a st st' s o : step t a st = Some st' -> o ∈ held st' s ->
  o ∈ held st s \/ o ∈ ptr st /\ ~ idle st s /\ observed st' = observed st /\ retired st' = retired st.
Proof.
  intros H. steps H; cbn; auto;
    match goal with |- _ ∈ (<[?k := _]> _) s -> _ => destruct (decide (k = s)) as [<- | ?]; [rewrite fn_eq | rewrite fn_ne by done; by auto] end.
  - by intros ?%elem_of_nil.
  - by intros ?%elem_of_nil.
  - by intros ?%elem_of_nil.
  - intros [-> | ?]%elem_of_cons; [| by auto]. right. split_and!; try done; [by eapply list_elem_of_lookup_2 |].
    unfold in_section in *. unfold idle. intros E. rewrite E in *. rewrite andb_false_r in *. done.
Qed.

Lemma step_retired t a st st' : step t a st = Some st' ->
  retired st' = retired st /\ g_global_epoch st' = g_global_epoch st \/
  exists old, pc (threads st t) = Published old /\ retired st' = (old, g_global_epoch st) :: retired st /\ g_global_epoch st' = u64 (g_global_epoch st + 1) /\
    observed st' = observed st /\ held st' = held st.
Proof. intros H. steps H; cbn; eauto 10. Qed.

Lemma step_ptr t a st st' : step t a st = Some st' ->
  ptr st' = ptr st /\ used st' = used st \/
  exists p old new, ptr st !! p = Some old /\ (new ∉ used st) /\ ptr st' = <[p := new]> (ptr st) /\ used st' = new :: used st /\ pc (threads st' t) = Published old.
Proof. intros H. steps H; cbn; auto. right. rewrite fn_eq. eauto 10. Qed.

Lemma step_freed t a st st' o k : step t a st = Some st' -> (o, k) ∈ freed st' ->
  (o, k) ∈ freed st \/ exists r, pc (threads st t) = Scanning o r k [] /\ held st' = held st.
Proof. intros H. steps H; cbn; auto. intros [[= -> ->] | ?]%elem_of_cons; eauto. Qed.

Lemma step_pc t a st st' : step t a st = Some st' ->
  match pc (threads st' t) with
  | Loaded s e => 0 <= e <= g_global_epoch st
  | Published o => exists p new, ptr st !! p = Some o /\ ptr st' = <[p := new]> (ptr st) /\ (new ∉ used st) /\ used st' = new :: used st
  | Scanning o r k l => (o, r) ∈ retired st /\ l = scan_order \/
      exists s, pc (threads st t) = Scanning o r k (s :: l) /\ epoch_blocks st s r k = false /\ held st' = held st
  | _ => True
  end.
Proof. intros H. steps H; cbn; rewrite ?fn_eq; cbn; rewrite ?Heqp; auto; [by exists p, new | lia | right; by exists s]. Qed.

Lemma scanned_slot st s : slots_ok st -> ~ idle st s -> s ∈ scan_order.
Proof.
  intros Hs Hb. destruct (so_busy st Hs s Hb) as [[t Ht] | (i & -> & Hi)]; [by apply (role_scanned t) |]. apply (so_range st Hs) in Hi.
  unfold scan_order. rewrite !elem_of_app. right. right. right. apply list_elem_of_fmap. exists i. split; [done |]. apply elem_of_seq. lia.
Qed.

Lemma elem_of_replaced (l : list nat) p new o : o ∈ <[p := new]> l -> o = new \/ exists q, q <> p /\ l !! q = Some o.
Proof.
  intros [q Hq]%list_elem_of_lookup. destruct (decide (q = p)) as [-> | Hne].
  - left. apply list_lookup_insert_Some in Hq. intuition.
  - right. exists q. by rewrite list_lookup_insert_ne in Hq by done.
Qed.

Lemma NoDup_replaced (l : list nat) p new : NoDup l -> (new ∉ l) -> NoDup (<[p := new]> l).
Proof.
  intros Hnd Hn. apply NoDup_alt. intros i j x Hi Hj. apply list_lookup_insert_Some in Hi, Hj.
  destruct Hi as [(-> & -> & _) | [Hi1 Hi2]], Hj as [(-> & E & _) | [Hj1 Hj2]]; try done.
  - by apply list_elem_of_lookup_2 in Hj2.
  - subst. by apply list_elem_of_lookup_2 in Hi2.
  - by apply (NoDup_lookup l i j x).
Qed.

Section Step.
Context (t : nat) (a : action) (st st' : state).
Context (Hs : slots_ok st) (Ho : objects_ok st) (H : step t a st = Some st') (Hlen : len (retired st') < RCU_EPOCH_IDLE).

Lemma epoch_counts : g_global_epoch st' = len (retired st') /\ g_global_epoch st <= g_global_epoch st'.
Proof.
  pose proof (oo_epoch st Ho) as Hep. destruct (step_retired t a st st' H) as [[-> ->] | (old & _ & E & -> & _)]; [lia |].
  rewrite E in *. cbn [length] in *. rewrite u64_small; unfold RCU_EPOCH_IDLE in *; lia.
Qed.

Lemma retired_kept x : x ∈ retired st -> x ∈ retired st'.
Proof. destruct (step_retired t a st st' H) as [[-> _] | (? & _ & -> & _)]; intros; [done | by right]. Qed.

Lemma used_kept o : o ∈ used st -> o ∈ used st'.
Proof. destruct (step_ptr t a st st' H) as [[_ ->] | (? & ? & ? & _ & _ & _ & -> & _)]; intros; [done | by right]. Qed.

Lemma stays_out o : o ∈ used st -> (o ∉ ptr st) -> (o ∉ ptr st') /\ o ∈ used st'.
Proof.
  intros Hu Hn. split; [| by apply used_kept]. destruct (step_ptr t a st st' H) as [[-> _] | (p & old & new & _ & Hnew & -> & _)]; [done |]. intros Hin.
  destruct (elem_of_replaced _ _ _ _ Hin) as [-> | (q & _ & Hq)]; [done | by apply list_elem_of_lookup_2 in Hq].
Qed.

Lemma held_announced s o : o ∈ held st' s -> observed st' s = observed st s /\ ~ idle st s.
Proof.
  intros Hin. destruct (step_held t a st st' s o H Hin) as [Hin' | (_ & Hb & -> & _)]; [| done]. pose proof (oo_held st Ho s o Hin') as (Hb & _).
  split; [| done]. destruct (step_announced t a st st' s H) as [? | [[_ E] | [E _]]]; [done | rewrite E in Hin; by apply elem_of_nil in Hin |].
  pose proof (so_thread st Hs t) as Hok. unfold thread_ok in Hok. rewrite E in Hok. by destruct Hok.
Qed.

Lemma not_held s o : (o ∉ ptr st) -> (o ∉ held st s) -> o ∉ held st' s.
Proof. intros Hp Hn Hin. by destruct (step_held t a st st' s o H Hin) as [? | (? & _)]. Qed.

Lemma observed_step s : idle st' s \/ 0 <= observed st' s <= g_global_epoch st'.
Proof.
  pose proof epoch_counts. destruct (step_announced t a st st' s H) as [E | [[? _] | [E _]]]; [| by left |].
  - unfold idle. rewrite E. destruct (oo_observed st Ho s); [by left | right; lia].
  - right. apply oo_loaded in E; [lia | done].
Qed.

Lemma loaded_step t' s e : pc (threads st' t') = Loaded s e -> 0 <= e <= g_global_epoch st'.
Proof.
  pose proof epoch_counts. pose proof (step_pc t a st st' H) as Hpc. intros E. destruct (decide (t = t')) as [<- | Hne]; [rewrite E in Hpc; lia |].
  rewrite (step_others t a st st') in E by done. apply oo_loaded in E; [lia | done].
Qed.

Lemma ptr_step : NoDup (ptr st') /\ forall o, o ∈ ptr st' -> o ∈ used st'.
Proof.
  pose proof (oo_ptr st Ho) as Hnd. pose proof (oo_used st Ho) as Hu. destruct (step_ptr t a st st' H) as [[-> ->] | (p & old & new & _ & Hnew & -> & -> & _)]; [done |].
  split; [apply NoDup_replaced; [done | by intros Hin%Hu] |]. intros o Hin.
  destruct (elem_of_replaced _ _ _ _ Hin) as [-> | (q & _ & Hq)]; [by left | right]. apply Hu. by apply list_elem_of_lookup_2 in Hq.
Qed.

Lemma retired_step o r : (o, r) ∈ retired st' -> 0 <= r < g_global_epoch st' /\ (o ∉ ptr st') /\ o ∈ used st'.
Proof.
  pose proof epoch_counts as [Hep' _]. pose proof (oo_epoch st Ho) as Hep. intros Hin.
  assert ((o, r) ∈ retired st \/ pc (threads st t) = Published o /\ r = g_global_epoch st /\ g_global_epoch st < g_global_epoch st') as [Hin' | (E & -> & Hlt)].
  { destruct (step_retired t a st st' H) as [[E _] | (old & E & E' & _)]; [rewrite E in Hin; by left |]. rewrite E' in Hin, Hep'. cbn [length] in Hep'.
    apply elem_of_cons in Hin as [[= -> ->] | Hin]; [right; split_and!; [done | done | lia] | by left]. }
  - pose proof epoch_counts. apply (oo_retired st Ho) in Hin' as (? & ? & ?). split; [lia | by apply stays_out].
  - apply (oo_published st Ho) in E as [? ?]. split; [lia | by apply stays_out].
Qed.

Lemma published_step t' o : pc (threads st' t') = Published o -> (o ∉ ptr st') /\ o ∈ used st'.
Proof.
  pose proof (step_pc t a st st' H) as Hpc. intros E. destruct (decide (t = t')) as [<- | Hne].
  - rewrite E in Hpc. destruct Hpc as (p & new & Hp & -> & Hnew & ->). assert (o ∈ used st) as Hu by (apply (oo_used st Ho); by apply list_elem_of_lookup_2 in Hp).
    split; [| by right]. intros Hin. destruct (elem_of_replaced _ _ _ _ Hin) as [-> | (q & Hq & Hq')]; [done |].
    apply Hq. by apply (NoDup_lookup (ptr st) q p o (oo_ptr st Ho)).
  - rewrite (step_others t a st st') in E by done. apply (oo_published st Ho) in E as [? ?]. by apply stays_out.
Qed.

Lemma held_step s o : o ∈ held st' s -> ~ idle st' s /\ o ∈ used st' /\ forall r, (o, r) ∈ retired st' -> observed st' s <= r.
Proof.
  intros Hin. destruct (held_announced s o Hin) as [E Hb]. unfold idle. rewrite E. split; [done |].
  destruct (step_held t a st st' s o H Hin) as [Hin' | (Hp & _ & _ & E')].
  - pose proof (oo_held st Ho s o Hin') as (_ & Hu & Hr). split; [by apply used_kept |]. intros r Hin2.
    destruct (step_retired t a st st' H) as [[E2 _] | (old & E2 & E3 & _)]; [rewrite E2 in Hin2; by apply Hr |].
    rewrite E3 in Hin2. apply elem_of_cons in Hin2 as [[= -> ->] | Hin2]; [| by apply Hr]. destruct (oo_observed st Ho s); [done | lia].
  - split; [apply used_kept, (oo_used st Ho), Hp |]. intros r Hin2. rewrite E' in Hin2. by apply (oo_retired st Ho) in Hin2 as (_ & ? & _).
Qed.

(** A slot that the scan passes does not protect the object: its reader came
    later, or not at all. *)
Lemma scan_step t' o r k l : pc (threads st' t') = Scanning o r k l ->
  (o, r) ∈ retired st' /\ exists d, scan_order = d ++ l /\ forall s, s ∈ d -> k <> Some s -> o ∉ held st' s.
Proof.
  pose proof (step_pc t a st st' H) as Hpc. intros E. destruct (decide (t = t')) as [<- | Hne].
  - rewrite E in Hpc. destruct Hpc as [[Hin ->] | (s & E2 & Hb & Eh)].
    { split; [by apply retired_kept |]. exists []. split; [done |]. by intros s ?%elem_of_nil. }
    apply (oo_scan st Ho) in E2 as (Hin & d & Ed & Hd). split; [by apply retired_kept |]. exists (d ++ [s]). split; [by rewrite Ed, <- app_assoc |].
    intros s' Hs' Hk. rewrite Eh. apply elem_of_app in Hs' as [? | ->%list_elem_of_singleton]; [auto |]. intros Hh.
    pose proof (oo_held st Ho s o Hh) as (Hb' & _ & Hr). specialize (Hr r Hin). unfold epoch_blocks in Hb. rewrite decide_False in Hb by done. unfold idle in Hb'. lia.
  - rewrite (step_others t a st st') in E by done. apply (oo_scan st Ho) in E as (Hin & d & Ed & Hd). split; [by apply retired_kept |]. exists d. split; [done |].
    intros s Hs' Hk. apply (oo_retired st Ho) in Hin as (_ & ? & ?). by apply not_held; [| apply Hd].
Qed.

Lemma freed_step o k : (o, k) ∈ freed st' -> (exists r, (o, r) ∈ retired st') /\ forall s, o ∈ held st' s -> k = Some s.
Proof.
  intros Hin. destruct (step_freed t a st st' o k H Hin) as [Hin' | (r & E & Eh)].
  - apply (oo_freed st Ho) in Hin' as [[r Hr] Hk]. split; [exists r; by apply retired_kept |]. intros s Hh. apply Hk.
    apply (oo_retired st Ho) in Hr as (_ & ? & ?). by destruct (step_held t a st st' s o H Hh) as [? | (? & _)].
  - apply (oo_scan st Ho) in E as (Hin' & d & Ed & Hd). split; [exists r; by apply retired_kept |]. intros s Hh. rewrite Eh in Hh.
    destruct (decide (k = Some s)) as [| Hne]; [done |]. exfalso. apply (Hd s); [| done | done]. rewrite app_nil_r in Ed. rewrite <- Ed.
    apply (scanned_slot st s Hs). by apply (oo_held st Ho s o).
Qed.

Lemma objects_step : objects_ok st'.
Proof.
  pose proof ptr_step as [? ?].
  split; [apply epoch_counts | apply observed_step | apply loaded_step | done | done | apply retired_step | apply published_step | apply held_step | apply scan_step | apply freed_step].
Qed.

End Step.

Lemma start_ok n : slots_ok (start n) /\ objects_ok (start n).
Proof.
  split; split; cbn; try done; try (intros; by left).
  - intros i. split; [done | by intros []].
  - apply NoDup_seq.
  - by intros o r ?%elem_of_nil.
  - by intros s o ?%elem_of_nil.
  - by intros o k ?%elem_of_nil.
Qed.

Lemma retired_grows l : forall st st', run l st = Some st' -> len (retired st) <= len (retired st').
Proof.
  induction l as [| [t a] l IH]; cbn; intros st st' H; [by injection H as -> |]. destruct (step t a st) as [st1 |] eqn:E; [| done].
  specialize (IH st1 st' H). destruct (step_retired t a st st1 E) as [[E' _] | (? & _ & E' & _)]; rewrite E' in IH; cbn [length] in IH; lia.
Qed.

Lemma run_ok l : forall st st', slots_ok st -> objects_ok st -> run l st = Some st' -> len (retired st') < RCU_EPOCH_IDLE -> slots_ok st' /\ objects_ok st'.
Proof.
  induction l as [| [t a] l IH]; cbn; intros st st' Hs Ho H Hl; [by injection H as <- |]. destruct (step t a st) as [st1 |] eqn:E; [| done].
  pose proof (retired_grows l st1 st' H). pose proof (oo_epoch st Ho) as Hep. pose proof (retired_grows [(t, a)] st st1) as Hg. cbn in Hg. rewrite E in Hg. specialize (Hg eq_refl).
  apply (IH st1); [apply (slots_step t a st); done || lia | apply (objects_step t a st); done || lia | done | done].
Qed.

(** ** Lemmas: progress *)

Lemma fresh_cons r t a l st st' : fresh r ((t, a) :: l) st = true -> step t a st = Some st' ->
  (forall s e, pc (threads st t) = Entering s -> a = Go e -> r < e) /\ fresh r l st' = true.
Proof.
  cbn. intros [Hf Hl]%andb_true_iff E. rewrite E in Hl. split; [| done]. intros s e Hp ->. rewrite Hp in Hf. lia.
Qed.

Lemma past_step t a st st' r s : step t a st = Some st' -> (forall s e, pc (threads st t) = Entering s -> a = Go e -> r < e) -> past st r s -> past st' r s.
Proof.
  intros H Hfr [Hp Hl]. split.
  - destruct (step_announced t a st st' s H) as [E | [[? _] | [E _]]]; [unfold idle in *; by rewrite E | by left | right; eauto].
  - intros t' e' E. destruct (decide (t = t')) as [<- | Hne]; [| rewrite (step_others t a st st') in E by done; eauto].
    clear Hl Hp. steps H; cbn in E; rewrite ?fn_eq in E; cbn in E; try congruence. injection E as -> ->. eauto.
Qed.

Lemma past_run l : forall st st' r s, run l st = Some st' -> fresh r l st = true -> past st r s -> past st' r s.
Proof.
  induction l as [| [t a] l IH]; intros st st' r s H Hf Hp; [by injection H as <- |]. cbn in H. destruct (step t a st) as [st1 |] eqn:E; [| done].
  destruct (fresh_cons r t a l st st1 Hf E) as [Hf1 Hf2]. eauto using past_step.
Qed.

Lemma run_split l1 l2 st : run (l1 ++ l2) st = match run l1 st with Some st' => run l2 st' | None => None end.
Proof. revert st. induction l1 as [| [t a] l1 IH]; intros st; [done |]. cbn. by destruct (step t a st). Qed.

Lemma fresh_app r l1 l2 st st' : run l1 st = Some st' -> fresh r (l1 ++ l2) st = true -> fresh r l1 st = true /\ fresh r l2 st' = true.
Proof.
  revert st. induction l1 as [| [t a] l1 IH]; cbn; intros st H Hf; [by injection H as <- |]. destruct (step t a st) as [st1 |] eqn:E; [| done].
  apply andb_true_iff in Hf as [-> Hf]. by apply IH.
Qed.

Lemma freed_kept l : forall st st' x, run l st = Some st' -> x ∈ freed st -> x ∈ freed st'.
Proof.
  induction l as [| [t a] l IH]; cbn; intros st st' x H Hx; [by injection H as <- |]. destruct (step t a st) as [st1 |] eqn:E; [| done].
  apply (IH st1); [done |]. steps E; cbn; try done. by right.
Qed.

Lemma not_blocked st r s k : past st r s -> epoch_blocks st s r k = false.
Proof. intros [Hp _]. unfold epoch_blocks, idle in *. case_decide; [done |]. lia. Qed.

(** A scan is not held up by readers that came later. *)
Lemma scan_run t o r k l : forall rest st st', run l st = Some st' -> fresh r l st = true -> (forall s, s ∈ rest -> past st r s) ->
  pc (threads st t) = Scanning o r k rest -> (length rest < turns t l)%nat -> (o, k) ∈ freed st'.
Proof.
  induction l as [| [t' a] l IH]; intros rest st st' H Hf Hp Hpc Ht; [cbn in Ht; lia |]. cbn in H. destruct (step t' a st) as [st1 |] eqn:E; [| done].
  destruct (fresh_cons r t' a l st st1 Hf E) as [Hf1 Hf2]. unfold turns in *. rewrite filter_cons in Ht. cbn [fst] in Ht. destruct (decide (t' = t)) as [-> | Hne].
  - cbn [length] in Ht. unfold step in E. rewrite Hpc in E. destruct a; try done. injection E as <-. destruct rest as [| s rest]; cbn [readers_safe_step] in *.
    + apply (freed_kept l _ _ _ H). cbn. by left.
    + rewrite (not_blocked st r s k) in * by (apply Hp; by left). apply (IH rest _ _ H Hf2); [| cbn; by rewrite fn_eq | cbn in Ht; lia].
      intros s' Hs'. assert (past st r s') as [Hp1 Hp2] by (apply Hp; by right). split; [done |]. cbn. intros t1 e1. destruct (decide (t = t1)) as [<- |].
      * by rewrite fn_eq.
      * rewrite fn_ne by done. apply Hp2.
  - apply (IH rest st1); [done | done | | by rewrite (step_others t' a st) | done]. intros s Hs'. eauto using past_step.
Qed.

(** ** Lemmas: waiting *)

Definition sleep_at (k : nat) : Z := if (k <=? 100)%nat then 1 else Z.min 1000 (2 ^ (Z.of_nat k - 100)).
Definition ns (ts : Z * Z) : Z := fst ts * 1000000000 + snd ts.

(** The clock is a clock, and a sleep takes at least the time asked for. *)
Definition clock_ok (clock : nat -> Z * Z) : Prop :=
  forall k, 0 <= snd (clock k) < 1000000000 /\
    ns (clock k) + 1000 * fst (fst (rcu_exponential_backoff (Z.of_nat k) (sleep_at k))) <= ns (clock (S k)).

Lemma sleep_next k : let '(_, retries, sleep) := rcu_exponential_backoff (Z.of_nat k) (sleep_at k) in
  retries = Z.of_nat (S k) /\ (if RCU_WAIT_SLEEP_MAX_US <? sleep then RCU_WAIT_SLEEP_MAX_US else sleep) = sleep_at (S k).
Proof.
  unfold rcu_exponential_backoff, sleep_at, RCU_WAIT_SLEEP_MAX_US. destruct (Z.ltb_spec (Z.of_nat k) 100).
  - split; [lia |]. rewrite !(proj2 (Nat.leb_le _ _)) by lia. done.
  - split; [lia |]. rewrite (proj2 (Nat.leb_gt (S k) 100)) by lia. destruct (Nat.leb_spec k 100).
    + assert (k = 100%nat) as -> by lia. done.
    + replace (Z.of_nat (S k) - 100) with (Z.succ (Z.of_nat k - 100)) by lia. rewrite Z.pow_succ_r by lia.
      pose proof (Z.pow_pos_nonneg 2 (Z.of_nat k - 100)). set (x := 2 ^ (Z.of_nat k - 100)) in *.
      rewrite (proj2 (Z.ltb_lt (Z.min 1000 x) 100000)) by lia. rewrite u32_small by lia. case_match; lia.
Qed.

Lemma sleep_full k : (110 <= k)%nat -> fst (fst (rcu_exponential_backoff (Z.of_nat k) (sleep_at k))) = 1000.
Proof.
  intros Hk. unfold rcu_exponential_backoff, sleep_at. rewrite (proj2 (Z.ltb_ge _ _)) by lia. rewrite (proj2 (Nat.leb_gt _ _)) by lia. cbn [fst].
  pose proof (Z.pow_le_mono_r 2 10 (Z.of_nat k - 100)). change (2 ^ 10) with 1024 in *. lia.
Qed.

Lemma clock_mono clock k : clock_ok clock -> ns (clock 0%nat) <= ns (clock k).
Proof.
  intros Hc. induction k as [| k IH]; [done |]. destruct (Hc k) as [_ Hk].
  assert (0 <= fst (fst (rcu_exponential_backoff (Z.of_nat k) (sleep_at k)))); [| lia]. unfold rcu_exponential_backoff, sleep_at.
  pose proof (Z.pow_nonneg 2 (Z.of_nat k - 100)). repeat case_match; cbn; lia.
Qed.

Lemma clock_passes clock m : clock_ok clock -> ns (clock 0%nat) + 1000000 * Z.of_nat m <= ns (clock (110 + m)%nat).
Proof.
  intros Hc. induction m as [| m IH]; [rewrite Z.mul_0_r, Z.add_0_r; by apply clock_mono |].
  destruct (Hc (110 + m)%nat) as [_ Hk]. rewrite sleep_full in Hk by lia. rewrite Nat.add_succ_r. lia.
Qed.

Lemma elapsed_range start now : 0 <= snd start < 1000000000 -> 0 <= snd now < 1000000000 ->
  ns now - ns start < 1000000 * (elapsed_ms start now + 1) /\ 1000000 * (elapsed_ms start now - 1) < ns now - ns start.
Proof.
  intros Hs Hn. unfold elapsed_ms, ns. pose proof (Z.quot_rem' (snd now - snd start) 1000000). pose proof (Z.rem_bound_abs (snd now - snd start) 1000000).
  lia.
Qed.

Lemma wait_spec safe clock timeout : clock_ok clock -> 0 < timeout -> forall fuel k, (k <= 109 + Z.to_nat timeout)%nat -> (110 + Z.to_nat timeout - k <= fuel)%nat ->
  (forall j, (j < k)%nat -> safe j = false) ->
  exists n b, wait_until_safe_impl fuel safe clock k timeout (Z.of_nat k) (sleep_at k) = Ret b /\ (n < 110 + Z.to_nat timeout)%nat /\
    (forall j, (j < n)%nat -> safe j = false) /\ (if b then safe n = true else safe n = false /\ 1000000 * (timeout - 1) < ns (clock (S n)) - ns (clock 0%nat)).
Proof.
  intros Hc Ht. induction fuel as [| fuel IH]; intros k Hk Hfuel Hj; [lia |]. cbn [wait_until_safe_impl].
  destruct (safe k) eqn:Es; [exists k, true; split_and!; try done; lia |]. pose proof (sleep_next k) as Hn. destruct (rcu_exponential_backoff _ _) as [[w r] sl].
  destruct Hn as [-> ->]. rewrite (proj2 (Z.ltb_lt 0 timeout)) by done. rewrite orb_true_r. cbn [andb].
  assert (forall i, 0 <= snd (clock i) < 1000000000) as Hts by (intros i; apply Hc).
  destruct (elapsed_range (clock 0%nat) (clock (S k)) (Hts _) (Hts _)) as [Hlo Hhi]. destruct (Z.leb_spec timeout (elapsed_ms (clock 0%nat) (clock (S k)))).
  { exists k, false. split_and!; try done; lia. }
  assert (k <> 109 + Z.to_nat timeout)%nat.
  { intros ->. pose proof (clock_passes clock (Z.to_nat timeout) Hc). replace (S (109 + Z.to_nat timeout)) with (110 + Z.to_nat timeout)%nat in * by lia. lia. }
  apply IH; [lia | lia |]. intros j Hj'. destruct (decide (j = k)) as [-> |]; [done | apply Hj; lia].
Qed.

(** ** Properties *)

(** C1. No use after free. Whatever the interleaving of readers, writers and
    threads that collect retired objects, an object that a check has found
    safe is neither published nor held by a reader that is inside a section;
    the only exception is the section of the caller itself, where the caller
    asked for that. This holds although the load of the epoch may be stale,
    as long as the epoch has not wrapped around. *)
Theorem rcu_no_use_after_free (n : nat) (l : list (nat * action)) (st : state) (o : nat) (k : option slot) :
  run l (start n) = Some st -> len (retired st) < RCU_EPOCH_IDLE -> (o, k) ∈ freed st ->
  (o ∉ ptr st) /\ forall s, o ∈ held st s -> k = Some s.
Proof.
  intros H Hl Hf. destruct (start_ok n) as [Hs0 Ho0]. destruct (run_ok l _ _ Hs0 Ho0 H Hl) as [Hs Ho].
  apply (oo_freed st Ho) in Hf as [[r Hr] Hk]. apply (oo_retired st Ho) in Hr as (_ & ? & _). done.
Qed.

(** The shared reader slots are used well. Two threads never have the same
    slot, a slot is marked as used exactly while a thread has it (none is
    lost), and a thread outside the functions announces an epoch exactly
    while it is inside a section, however sections and pins are nested; a
    thread that is neither inside a section nor pinned has given its slot
    back. Leaving a section never goes through a null pointer. *)
Theorem rcu_aux_slots (n : nat) (l : list (nat * action)) (st : state) (t : nat) :
  run l (start n) = Some st -> len (retired st) < RCU_EPOCH_IDLE ->
  let th := threads st t in
  (forall t' i, aux_slot th = Some i -> aux_slot (threads st t') = Some i -> t = t') /\
  (forall i, in_use st i = true <-> exists t', aux_slot (threads st t') = Some i) /\
  (pc th = Run -> 0 <= aux_depth th /\ rcu_aux_read_unlock st t <> None /\
     (0 < aux_depth th <-> exists i, aux_slot th = Some i /\ ~ idle st (Aux i)) /\
     (aux_depth th = 0 -> (aux_slot th = None <-> aux_pinned th = false))).
Proof.
  intros H Hl th. destruct (start_ok n) as [Hs0 Ho0]. destruct (run_ok l _ _ Hs0 Ho0 H Hl) as [Hs Ho].
  split; [intros t' i; apply so_unique, Hs |]. split; [apply so_use, Hs |]. intros Hpc. pose proof (so_thread st Hs t) as Hok.
  unfold thread_ok in Hok. fold th in Hok. rewrite Hpc in Hok. unfold aux_ok, rcu_aux_read_unlock in *. fold th.
  destruct (aux_slot th) as [i |].
  - split; [lia |]. split; [by repeat case_match |]. split; [| intros Hd; split; [done | intros Hp; exfalso; intuition (congruence || lia)]]. split.
    + intros Hd. exists i. intuition lia.
    + intros (j & [= <-] & Hi). intuition.
  - destruct Hok as [-> ->]. split; [lia |]. split; [done |]. split; [| done]. split; [lia | by intros (j & [=] & _)].
Qed.

(** C34. Writers are not starved. Once every slot has at some time of a run
    been free of readers of the retired epoch, a check that starts then
    succeeds after one turn for every slot, whatever other readers do in the
    meantime: only the readers that were there when the object was replaced
    can delay it. The loads of the epoch see that it has advanced. *)
Theorem rcu_writer_not_starved (st st1 st2 : state) (l1 l2 : list (nat * action)) (t o : nat) (r : Z) (k : option slot) :
  run l1 st = Some st1 -> run l2 st1 = Some st2 -> fresh r (l1 ++ l2) st = true ->
  (forall s, s ∈ scan_order -> exists l0 l0' st0, l1 = l0 ++ l0' /\ run l0 st = Some st0 /\ past st0 r s) ->
  pc (threads st1 t) = Scanning o r k scan_order -> (length scan_order < turns t l2)%nat ->
  (o, k) ∈ freed st2.
Proof.
  intros H1 H2 Hf Hp Hpc Ht. destruct (fresh_app r l1 l2 st st1 H1 Hf) as [Hf1 Hf2].
  apply (scan_run t o r k l2 scan_order st1); [done | done | | done | done]. intros s Hin. destruct (Hp s Hin) as (l0 & l0' & st0 & -> & H0 & Hp0).
  rewrite run_split, H0 in H1. destruct (fresh_app r l0 l0' st st0 H0 Hf1) as [_ Hf0]. by apply (past_run l0' st0).
Qed.

(** C33. Waiting ends. With a time limit, the loop asks at most 110 times and
    once more for every millisecond of the limit; it returns true only when
    the last answer was that no reader is left, and false only when no answer
    was and the limit has passed (up to the millisecond that the conversion
    of the clock may lose). *)
Theorem rcu_wait_terminates (safe : nat -> bool) (clock : nat -> Z * Z) (timeout_ms : Z) (fuel : nat) :
  clock_ok clock -> 0 < timeout_ms -> (110 + Z.to_nat timeout_ms <= fuel)%nat ->
  exists n b, rcu_writer_wait_until_safe fuel safe clock timeout_ms = Ret b /\ (n < 110 + Z.to_nat timeout_ms)%nat /\
    (forall j, (j < n)%nat -> safe j = false) /\
    (if b then safe n = true else safe n = false /\ 1000000 * (timeout_ms - 1) < ns (clock (S n)) - ns (clock 0%nat)).
Proof. intros Hc Ht Hf. apply (wait_spec safe clock timeout_ms Hc Ht fuel 0); [lia | lia |]. intros j Hj. lia. Qed.

End EpochRcu.

(** ** Witnesses *)

(** Two workers. *)
Definition sample_role (t : nat) : option slot := match t with 0%nat => Some (Worker 0) | 1%nat => Some (Worker 1) | _ => None end.

Lemma sample_role_unique t t' s : sample_role t = Some s -> sample_role t' = Some s -> t = t'.
Proof. destruct t as [| [|]], t' as [| [|]]; cbn; congruence. Qed.

Lemma sample_role_scanned t s : sample_role t = Some s -> s ∈ scan_order 2 0 /\ forall i, s <> Aux i.
Proof. destruct t as [| [|]]; cbn; intros [= <-]; (split; [first [constructor 1 | constructor 2; constructor 1] | done]). Qed.

(** Worker 0 reads the object while worker 1 replaces it: the first check is
    refused, the second one, after the section has ended, is not. *)
Definition sample_run : list (nat * action) :=
  [(0, Enter); (0, Go 0); (0, Go 0); (0, Load (Worker 0) 0); (1, Publish 0 1); (1, Go 0); (1, Check 0 0 false); (1, Go 0);
   (0, Exit); (1, Check 0 0 false)]%nat ++ replicate 133 (1%nat, Go 0).

Lemma rcu_no_use_after_free_witness :
  exists st, run 2 0 sample_role sample_run (start 1) = Some st /\ freed st = [(0%nat, None)] /\ ((0%nat ∉ ptr st) /\ forall s, 0%nat ∈ held st s -> None = Some s).
Proof.
  assert (option_map (fun st => (freed st, length (retired st))) (run 2 0 sample_role sample_run (start 1)) = Some ([(0%nat, None)], 1%nat)) as Hv by (vm_compute; reflexivity).
  destruct (run 2 0 sample_role sample_run (start 1)) as [st |] eqn:E; [| done]. injection Hv as Hf Hr. exists st. split; [done |]. split; [done |].
  apply (rcu_no_use_after_free 2 0 sample_role sample_role_unique sample_role_scanned 1 sample_run st 0 None E); [rewrite Hr; done | rewrite Hf; by left].
Defined.

Lemma rcu_aux_slots_witness :
  exists st, run 2 0 sample_role [(2, Lock); (2, Go 0); (2, Go 0); (2, Go 0); (2, Go 0); (2, Lock); (2, Pin)]%nat (start 1) = Some st /\
    aux_depth (threads st 2%nat) = 2 /\ in_use st 0%nat = true.
Proof.
  set (l := [(2, Lock); (2, Go 0); (2, Go 0); (2, Go 0); (2, Go 0); (2, Lock); (2, Pin)]%nat).
  assert (option_map (fun st => (aux_depth (threads st 2%nat), aux_slot (threads st 2%nat), length (retired st))) (run 2 0 sample_role l (start 1)) = Some (2, Some 0%nat, 0%nat))
    as Hv by (vm_compute; reflexivity).
  destruct (run 2 0 sample_role l (start 1)) as [st |] eqn:E; [| done]. injection Hv as Hd Ha Hr. exists st. split; [done |]. split; [done |].
  destruct (rcu_aux_slots 2 0 sample_role sample_role_unique sample_role_scanned 1 l st 2 E) as (_ & Hu & _); [rewrite Hr; done |]. apply Hu. by exists 2%nat.
Defined.

Lemma rcu_writer_not_starved_witness :
  exists st2, run 2 0 sample_role ([(0, Enter); (0, Go 1); (0, Go 0)]%nat ++ replicate 133 (1%nat, Go 0))
    (set_pc (State 1 (fun _ => RCU_EPOCH_IDLE) (fun _ => false) (fun _ => Thread None None 0 false Run) [1%nat] (fun _ => []) [(0%nat, 0)] [] [1%nat; 0%nat])
       1 (Scanning 0 0 None (scan_order 2 0))) = Some st2 /\ (0%nat, None) ∈ freed st2.
Proof.
  set (st := set_pc _ _ _). set (l := _ ++ _). assert (option_map freed (run 2 0 sample_role l st) = Some [(0%nat, None)]) as Hv by (vm_compute; reflexivity).
  destruct (run 2 0 sample_role l st) as [st2 |] eqn:E; [clear Hv | done].
  exists st2. split; [done |]. apply (rcu_writer_not_starved 2 0 sample_role st st st2 [] l 1 0 0 None); [done | done | by vm_compute | | done | vm_compute; lia].
  intros s _. exists [], [], st. split_and!; [done | done |]. split; [by left |]. intros t e. cbn. destruct (decide (1%nat = t)) as [<- |].
  - by rewrite fn_lookup_insert.
  - by rewrite fn_lookup_insert_ne.
Defined.

Lemma rcu_wait_terminates_witness :
  exists n b, rcu_writer_wait_until_safe 115 (fun _ => false) (fun k => (Z.of_nat k, 0)) 5 = Ret b /\ (n < 115)%nat /\ b = false.
Proof.
  destruct (rcu_wait_terminates (fun _ => false) (fun k => (Z.of_nat k, 0)) 5 115) as (n & b & H & Hn & _ & Hb); [| lia | by vm_compute |].
  - intros k. split; [cbn; lia |]. unfold ns. cbn [fst snd]. unfold rcu_exponential_backoff, sleep_at. pose proof (Z.pow_nonneg 2 (Z.of_nat k - 100)).
    repeat case_match; cbn; lia.
  - exists n, b. split; [done |]. split; [done |]. by destruct b.
Defined.
End EpochRcu.
