(* ===== verification/RdataText.v ===== *)
(** * Values in the text form of RDATA (dns_wire.c)

    Times to live with units, serial numbers, the times of signatures, and
    base32hex and hexadecimal octets: the readers of zone files and the
    writers that turn received RDATA into text. *)

From S2P Require Import Prelude CLib TypeName.

Module RdataText.
Import CLib TypeName.

(** ** Operations: numbers *)

Definition TTL_MAX : Z := 2147483647.

(** The factor of a unit letter. *)
Definition unit_factor (c : Z) : option Z :=
  let c := tolower c in
  if c =? 115 then Some 1 else if c =? 109 then Some 60 else if c =? 104 then Some 3600
  else if c =? 100 then Some 86400 else if c =? 119 then Some 604800 else None.

(** The loop of [parse_ttl_value]; the fuel is the length of the text, since
    every turn reads a character. *)
Fixpoint ttl_terms (fuel : nat) (p : list Z) (total : Z) : outcome Z :=
  match p with
  | [] => Ret (if TTL_MAX <? total then TTL_MAX else total)
  | _ =>
      match fuel with
      | O => NoFuel
      | S fuel' =>
          let '(num, rest) := strtoull p in
          if bool_decide (rest = p) then Ret 3600
          else
            let add m rest :=
              ttl_terms fuel' rest (if (TTL_MAX / m <? num) || (TTL_MAX <? total) then TTL_MAX + 1 else u64 (total + u64 (num * m))) in
            match rest with
            | [] => add 1 []
            | c :: rest' => match unit_factor c with Some m => add m rest' | None => Ret 3600 end
            end
      end
  end.

Definition parse_ttl_value (ttl_str : option (list Z)) : outcome Z :=
  match ttl_str with
  | None | Some [] => Ret 3600
  | Some s =>
      if forallb isdigit s then let v := fst (strtoull s) in Ret (if TTL_MAX <? v then TTL_MAX else v)
      else ttl_terms (length s) s 0
  end.

(** The digits of one number of [parse_ttl_strict]. *)
Fixpoint strict_digits (p : list Z) (num max : Z) : outcome (Z * list Z) :=
  match p with
  | c :: p' =>
      if isdigit c then
        let num := u64 (num * 10 + (c - 48)) in
        fail_if max <? num ;; strict_digits p' num max
      else Ret (num, p)
  | [] => Ret (num, [])
  end.

Fixpoint strict_terms (fuel : nat) (p : list Z) (max total : Z) (seen_unit : bool) : outcome Z :=
  match p with
  | [] => Ret (u32 total)
  | c :: _ =>
      match fuel with
      | O => NoFuel
      | S fuel' =>
          fail_if negb (isdigit c) ;;
          let! '(num, rest) := strict_digits p 0 max in
          let add m rest seen := let total := u64 (total + u64 (num * m)) in fail_if max <? total ;; strict_terms fuel' rest max total seen in
          match rest with
          | [] => fail_if seen_unit ;; add 1 [] seen_unit
          | u :: rest' => match unit_factor u with Some m => add m rest' true | None => Fail end
          end
      end
  end.

(** [Fail] is [false]. *)
Definition parse_ttl_strict (ttl_str : option (list Z)) (max : Z) : outcome Z :=
  match ttl_str with
  | None | Some [] => Fail
  | Some s => fail_if (4294967295 <? max) || (63 <? len s) ;; strict_terms (length s) s max 0 false
  end.

(** The value stops to grow when it is out of range. *)
Fixpoint serial_digits (p : list Z) (v : Z) : option Z :=
  match p with
  | [] => Some v
  | c :: p' => if isdigit c then serial_digits p' (if v <=? 4294967295 then u64 (v * 10 + (c - 48)) else v) else None
  end.

(** The serial, or [err]. *)
Definition parse_soa_serial_strict (s : option (list Z)) : Z + Z :=
  match s with
  | None | Some [] => inr 1
  | Some s =>
      match serial_digits s 0 with
      | None => inr 1
      | Some v => if 4294967295 <? v then inr 2 else inl (u32 v)
      end
  end.

(** ** Operations: times *)

(** [%wd] of [sscanf]: blanks, then at most [w] characters of a sign and
    digits. *)
Fixpoint scan_digits (w : nat) (s : list Z) (acc : Z) : Z * list Z :=
  match w, s with
  | S w', c :: s' => if isdigit c then scan_digits w' s' (acc * 10 + (c - 48)) else (acc, s)
  | _, _ => (acc, s)
  end.
Definition scan_d (w : nat) (s : list Z) : option (Z * list Z) :=
  let s := skip_spaces s in
  let '(neg, body) := sign s in
  let w := if bool_decide (body = s) then w else (w - 1)%nat in
  if starts_digit body && negb (w =? 0)%nat then
    let '(v, rest) := scan_digits w body 0 in Some (if neg then - v else v, rest)
  else None.

(** Days since the epoch; [month] and [day] may be any number. *)
Definition days_from_civil (year month day : Z) : Z :=
  let y := if month <=? 2 then year - 1 else year in
  let era := Z.quot (if 0 <=? y then y else y - 399) 400 in
  let yoe := u32 (y - era * 400) in
  let mp := u32 (Z.rem (month + 9) 12) in
  let doy := u32 (u32 (153 * mp + 2) / 5 + u32 day - 1) in
  let doe := u32 (u32 (yoe * 365) + yoe / 4 - yoe / 100 + doy) in
  era * 146097 + doe - 719468.

Definition parse_dnssec_time (s : list Z) : Z :=
  match scan_d 4 s with
  | Some (year, s) =>
      match scan_d 2 s with
      | Some (month, s) =>
          match scan_d 2 s with
          | Some (day, s) =>
              match scan_d 2 s with
              | Some (hour, s) =>
                  match scan_d 2 s with
                  | Some (minute, s) =>
                      match scan_d 2 s with
                      | Some (sec, _) => u32 (days_from_civil year month day * 86400 + hour * 3600 + minute * 60 + sec)
                      | None => 0
                      end
                  | None => 0
                  end
              | None => 0
              end
          | None => 0
          end
      | None => 0
      end
  | None => 0
  end.

(** The year, month and day of a day since the epoch. *)
Definition civil_from_days (days : Z) : Z * Z * Z :=
  let z := days + 719468 in
  let era := z / 146097 in
  let doe := z - era * 146097 in
  let yoe := (doe - doe / 1460 + doe / 36524 - doe / 146096) / 365 in
  let y := yoe + era * 400 in
  let doy := doe - (365 * yoe + yoe / 4 - yoe / 100) in
  let mp := (5 * doy + 2) / 153 in
  let d := doy - (153 * mp + 2) / 5 + 1 in
  let m := if mp <? 10 then mp + 3 else mp - 9 in
  (if m <=? 2 then y + 1 else y, m, d).

(** ["%0wu"]: at least [w] digits. *)
Fixpoint fixed_digits (w : nat) (v : Z) (acc : list Z) : list Z :=
  match w with O => acc | S w' => fixed_digits w' (v / 10) ((48 + v mod 10) :: acc) end.
Definition fmt_0u (w : nat) (v : Z) : list Z := if v <? 10 ^ Z.of_nat w then fixed_digits w v [] else fmt_u v.

Definition dnssec_rdata_time (t : Z) : list Z :=
  let '(y, m, d) := civil_from_days (t / 86400) in
  let secs := t mod 86400 in
  take 14 (fmt_0u 4 (y mod 10000) ++ fmt_0u 2 (m mod 100) ++ fmt_0u 2 (d mod 100) ++
           fmt_0u 2 (secs / 3600) ++ fmt_0u 2 ((secs / 60) mod 60) ++ fmt_0u 2 (secs mod 60)).

(** ** Operations: octets *)

Definition base32hex_alphabet : list Z := str "0123456789ABCDEFGHIJKLMNOPQRSTUV".

(** The inner loop of [dns_base32hex_encode], at most two turns: at most 12
    bits are pending. The boolean tells that the text is full. *)
Fixpoint base32hex_drain (fuel : nat) (buffer bits_left : Z) (out : list Z) (out_cap : Z) : outcome (Z * list Z * bool) :=
  if bits_left <? 5 then Ret (bits_left, out, false)
  else match fuel with
       | O => NoFuel
       | S fuel' =>
           if out_cap <=? len out + 1 then Ret (bits_left, out, true)
           else
             let! c := rd base32hex_alphabet (Z.land (Z.shiftr buffer (bits_left - 5)) 31) in
             let! out := put out_cap out c in
             base32hex_drain fuel' buffer (bits_left - 5) out out_cap
       end.

Fixpoint base32hex_octets (data : list Z) (buffer bits_left : Z) (out : list Z) (out_cap : Z) : outcome (list Z) :=
  match data with
  | [] =>
      let! out :=
        if (0 <? bits_left) && (len out + 1 <? out_cap) then
          let! c := rd base32hex_alphabet (Z.land (u32 (Z.shiftl buffer (5 - bits_left))) 31) in put out_cap out c
        else Ret out in
      let! _ := put out_cap out 0 in Ret out
  | b :: data' =>
      let buffer := u32 (Z.lor (Z.shiftl buffer 8) b) in
      let! '(bits_left, out, full) := base32hex_drain 3 buffer (bits_left + 8) out out_cap in
      if (full : bool) then let! _ := put out_cap out 0 in Ret out
      else base32hex_octets data' buffer bits_left out out_cap
  end.

(** The C string in [out]; the first [len] octets of [data] are encoded. *)
Definition dns_base32hex_encode (data : list Z) (out_cap : Z) : outcome (list Z) :=
  if out_cap =? 0 then Ret [] else base32hex_octets data 0 0 [] out_cap.

Definition base32hex_map (c : Z) : Z :=
  if isdigit c then c - 48 else if (65 <=? c) && (c <=? 86) then c - 55 else if (97 <=? c) && (c <=? 118) then c - 87 else -1.

Fixpoint base32hex_chars (inp : list Z) (buffer bits_left : Z) (out : list Z) (out_cap : Z) : outcome (list Z) :=
  match inp with
  | [] => Ret out
  | c :: inp' =>
      if c =? 61 then Ret out
      else if base32hex_map c =? -1 then base32hex_chars inp' buffer bits_left out out_cap
      else
        let buffer := u32 (Z.lor (Z.shiftl buffer 5) (base32hex_map c)) in
        let bits_left := bits_left + 5 in
        if 8 <=? bits_left then
          fail_if out_cap <=? len out ;;
          let! out := put out_cap out (Z.land (Z.shiftr buffer (bits_left - 8)) 255) in
          base32hex_chars inp' buffer (bits_left - 8) out out_cap
        else base32hex_chars inp' buffer bits_left out out_cap
  end.

Definition base32hex_decode (inp : list Z) (out_cap : Z) : outcome (list Z) := base32hex_chars inp 0 0 [] out_cap.

Definition hex_digit (v : Z) : Z := if v <? 10 then 48 + v else 55 + v.
Definition dnssec_rdata_hex (d : list Z) : list Z := concat (map (fun b => [hex_digit (Z.shiftr b 4); hex_digit (Z.land b 15)]) d).

(** ** Specification *)

(** A number is a nonempty run of digits. *)
Definition dec_from (acc : Z) (ds : list Z) : Z := fold_left (fun a c => a * 10 + (c - 48)) ds acc.
Definition number (ds : list Z) : Prop := ds <> [] /\ Forall (fun c => isdigit c = true) ds.

(** Numbers, each with its unit, and the sum in seconds. *)
Inductive terms : list Z -> Z -> Prop :=
  | terms_nil : terms [] 0
  | terms_cons ds u m s v : number ds -> unit_factor u = Some m -> terms s v -> terms (ds ++ u :: s) (dec_from 0 ds * m + v).

(** A time to live: a number, or numbers with units. *)
Definition ttl_text (s : list Z) (v : Z) : Prop := number s /\ v = dec_from 0 s \/ s <> [] /\ terms s v.

(** ** Lemmas: numbers *)

Lemma dec_from_ge ds : Forall (fun c => isdigit c = true) ds -> forall acc, 0 <= acc -> acc <= dec_from acc ds.
Proof.
  induction 1 as [| c ds Hc _ IH]; intros acc Ha; cbn; [lia |]. unfold isdigit in Hc. specialize (IH (acc * 10 + (c - 48))). unfold dec_from in IH. lia.
Qed.

Lemma unit_factor_spec u m : unit_factor u = Some m -> isdigit u = false /\ 1 <= m <= 604800.
Proof. unfold unit_factor, tolower, isupper, isdigit. cbv zeta. case_ifs; intros [= <-]; lia. Qed.

Lemma span_digits p : exists ds rest, p = ds ++ rest /\ Forall (fun c => isdigit c = true) ds /\ starts_digit rest = false.
Proof.
  induction p as [| c p (ds & rest & -> & Hd & Hr)]; [by exists [], [] |]. destruct (isdigit c) eqn:E.
  - exists (c :: ds), rest. auto.
  - exists [], (c :: ds ++ rest). auto.
Qed.

Lemma span_unique ds rest ds' rest' : ds ++ rest = ds' ++ rest' -> Forall (fun c => isdigit c = true) ds -> Forall (fun c => isdigit c = true) ds' ->
  starts_digit rest = false -> starts_digit rest' = false -> ds = ds' /\ rest = rest'.
Proof.
  revert ds'. induction ds as [| c ds IH]; intros ds' E Hd Hd' Hr Hr'.
  - destruct ds' as [| c' ds']; [done |]. cbn in E. subst rest. apply Forall_cons_1 in Hd' as [Hc _]. cbn in Hr. congruence.
  - apply Forall_cons_1 in Hd as [Hc Hd]. destruct ds' as [| c' ds']; cbn in E.
    + subst rest'. cbn in Hr'. congruence.
    + injection E as -> E. apply Forall_cons_1 in Hd' as [_ Hd']. by destruct (IH ds' E Hd Hd' Hr Hr') as [-> ->].
Qed.

Lemma terms_inv ds rest w : Forall (fun c => isdigit c = true) ds -> starts_digit rest = false -> terms (ds ++ rest) w ->
  ds = [] /\ rest = [] /\ w = 0 \/ exists u m s v, ds <> [] /\ rest = u :: s /\ unit_factor u = Some m /\ terms s v /\ w = dec_from 0 ds * m + v.
Proof.
  intros Hd Hr H. remember (ds ++ rest) as p eqn:E. destruct H as [| ds' u m s v [Hne Hd'] Hu Hs].
  - symmetry in E. apply app_nil in E as [-> ->]. by left.
  - right. destruct (unit_factor_spec u m Hu) as [Hu' _]. destruct (span_unique ds' (u :: s) ds rest E) as [<- <-]; try done. exists u, m, s, v. done.
Qed.

Lemma terms_nonneg s v : terms s v -> 0 <= v.
Proof.
  induction 1 as [| ds u m s v [_ Hd] Hu _ IH]; [done |]. destruct (unit_factor_spec u m Hu). pose proof (dec_from_ge ds Hd 0). nia.
Qed.

Lemma number_app_inv ds rest : starts_digit rest = false -> number (ds ++ rest) -> rest = [].
Proof. intros Hr [_ Hd]. apply Forall_app in Hd as [_ Hd]. destruct rest as [| c rest]; [done |]. apply Forall_cons_1 in Hd as [Hc _]. cbn in Hr. congruence. Qed.

Lemma strict_digits_spec ds rest max : Forall (fun c => isdigit c = true) ds -> starts_digit rest = false -> max <= 4294967295 -> forall num, 0 <= num <= max ->
  strict_digits (ds ++ rest) num max = if dec_from num ds <=? max then Ret (dec_from num ds, rest) else Fail.
Proof.
  intros Hd Hr Hm. induction Hd as [| c ds Hc Hd IH]; intros num Hn; cbn [app strict_digits dec_from fold_left].
  - rewrite (proj2 (Z.leb_le _ _)) by lia. destruct rest as [| c rest]; [done |]. cbn in *. by rewrite Hr.
  - rewrite Hc. unfold isdigit in Hc. rewrite u64_small by lia. fold (dec_from (num * 10 + (c - 48)) ds). destruct (Z.ltb_spec max (num * 10 + (c - 48))).
    + pose proof (dec_from_ge ds Hd (num * 10 + (c - 48))). rewrite (proj2 (Z.leb_gt _ _)) by lia. done.
    + apply IH. lia.
Qed.

(** What the loop of the strict reader accepts. *)
Definition strict_ok (p : list Z) (max total : Z) (seen : bool) (v : Z) : Prop :=
  v <= max /\ (terms p (v - total) \/ seen = false /\ number p /\ v = total + dec_from 0 p).

Lemma strict_ok_nil max total seen v : 0 <= total <= max -> strict_ok [] max total seen v <-> v = total.
Proof.
  intros Ht. split.
  - intros [Hv [H | (_ & [[] _] & _)]]; [| done]. destruct (terms_inv [] [] _ (Forall_nil_2 _) eq_refl H) as [(_ & _ & E) | (u & m & s & w & [] & _)]; [lia | done].
  - intros ->. split; [lia |]. left. rewrite Z.sub_diag. constructor.
Qed.

(** Behind a number: the end of the text, or a unit and more numbers. *)
Lemma strict_ok_end ds max total seen v : number ds -> strict_ok ds max total seen v <-> seen = false /\ v = total + dec_from 0 ds /\ v <= max.
Proof.
  intros Hn. pose proof Hn as [Hne Hd]. split.
  - intros [Hv [H | (Hs & _ & E)]]; [| done]. rewrite <- (app_nil_r ds) in H. destruct (terms_inv ds [] _ Hd eq_refl H) as [(-> & _) | (u & m & s & w & _ & [=] & _)]. done.
  - intros (Hs & E & Hv). split; [done | by right].
Qed.

Lemma strict_ok_unit ds u rest max total seen v : number ds -> isdigit u = false ->
  strict_ok (ds ++ u :: rest) max total seen v <-> exists m, unit_factor u = Some m /\ strict_ok rest max (total + dec_from 0 ds * m) true v.
Proof.
  intros [Hne Hd] Hu. split.
  - intros [Hv [H | (_ & Hn & _)]]; [| by apply number_app_inv in Hn].
    destruct (terms_inv ds (u :: rest) _ Hd Hu H) as [(_ & [=] & _) | (u' & m & s & w & _ & [= <- <-] & Hm & Hs & E)].
    exists m. split; [done |]. split; [done |]. left. by replace (v - (total + dec_from 0 ds * m)) with w by lia.
  - intros (m & Hm & Hv & [H | ([=] & _)]). split; [done |]. left.
    replace (v - total) with (dec_from 0 ds * m + (v - (total + dec_from 0 ds * m))) by lia. by constructor.
Qed.

Lemma strict_ok_ge p max total seen v : strict_ok p max total seen v -> total <= v.
Proof. intros [_ [H%terms_nonneg | (_ & [_ Hd] & ->)]]; [lia |]. pose proof (dec_from_ge p Hd 0). lia. Qed.

Lemma strict_step fuel ds rest max total seen : max <= 4294967295 -> number ds -> starts_digit rest = false -> 0 <= total <= max ->
  strict_terms (S fuel) (ds ++ rest) max total seen =
  if dec_from 0 ds <=? max then
    let add m rest seen := if max <? total + dec_from 0 ds * m then Fail else strict_terms fuel rest max (total + dec_from 0 ds * m) seen in
    match rest with
    | [] => if seen then Fail else add 1 [] seen
    | u :: rest' => match unit_factor u with Some m => add m rest' true | None => Fail end
    end
  else Fail.
Proof.
  intros Hm [Hne Hd] Hr Ht. assert (exists c p, ds ++ rest = c :: p /\ isdigit c = true) as (c & p & E & Hc).
  { destruct ds as [| c ds]; [done |]. exists c, (ds ++ rest). apply Forall_cons_1 in Hd as [Hc _]. done. }
  pose proof (strict_digits_spec ds rest max Hd Hr Hm 0 ltac:(lia)) as Hs. pose proof (dec_from_ge ds Hd 0 ltac:(lia)).
  rewrite E in *. cbn [strict_terms]. rewrite Hc, Hs. cbn [negb]. cbv iota. destruct (Z.leb_spec (dec_from 0 ds) max); [| done]. cbn [obind]. cbv zeta.
  destruct rest as [| u rest']; [destruct seen; [done |] | destruct (unit_factor u) as [m |] eqn:Eu; [| done]].
  - rewrite !u64_small; [done | lia | rewrite u64_small; lia].
  - destruct (unit_factor_spec u m Eu) as [_ ?]. rewrite !u64_small; [done | nia | rewrite u64_small; nia].
Qed.

Lemma strict_terms_spec max : max <= 4294967295 -> forall fuel p total seen, (length p <= fuel)%nat -> 0 <= total <= max ->
  defined (strict_terms fuel p max total seen) /\ forall v, strict_terms fuel p max total seen = Ret v <-> strict_ok p max total seen v.
Proof.
  intros Hm. induction fuel as [| fuel IH]; intros p total seen Hf Ht; destruct (decide (p = [])) as [-> | Hp].
  1, 3: cbn; rewrite u32_small by lia; split; [apply defined_Ret | intros v; rewrite strict_ok_nil by lia; naive_solver].
  { destruct p; cbn in Hf; [done | lia]. }
  destruct (span_digits p) as (ds & rest & -> & Hd & Hr). assert (Fail = @Ret Z 0 <-> False) as _ by done.
  destruct (decide (ds = [])) as [-> | Hne].
  { destruct rest as [| c rest]; [done |]. cbn in Hr. cbn [app strict_terms]. rewrite Hr. cbn [negb]. cbv iota. split; [apply defined_Fail |]. intros v. split; [done |].
    intros [_ [H | (_ & [_ Hn] & _)]]; [| apply Forall_cons_1 in Hn as [? _]; congruence].
    by destruct (terms_inv [] (c :: rest) _ (Forall_nil_2 _) Hr H) as [(_ & [=] & _) | (u & m & s & w & [] & _)]. }
  assert (number ds) as Hn by done. rewrite strict_step by done. pose proof (dec_from_ge ds Hd 0 ltac:(lia)) as Hge.
  destruct (Z.leb_spec (dec_from 0 ds) max) as [Hle | Hgt].
  2: { split; [apply defined_Fail |]. intros v. split; [done |]. intros Hok. destruct rest as [| u rest].
       - rewrite app_nil_r in Hok. apply strict_ok_end in Hok; [lia | done].
       - apply strict_ok_unit in Hok as (m & Hu & Hok); [| done | done]. apply unit_factor_spec in Hu as [_ ?]. pose proof (strict_ok_ge _ _ _ _ _ Hok). destruct Hok. nia. }
  cbv zeta. destruct rest as [| u rest].
  - rewrite app_nil_r. setoid_rewrite (strict_ok_end ds max total seen); [| done]. destruct seen; [split; [apply defined_Fail | naive_solver] |].
    rewrite Z.mul_1_r. destruct (Z.ltb_spec max (total + dec_from 0 ds)); [split; [apply defined_Fail | intros v; split; [done | lia]] |].
    destruct (IH [] (total + dec_from 0 ds) false) as [H1 H2]; [cbn; lia | lia |]. split; [done |]. intros v. rewrite H2, strict_ok_nil by lia. intuition lia.
  - cbn in Hr. setoid_rewrite (strict_ok_unit ds u rest max total seen); [| done | done]. destruct (unit_factor u) as [m |] eqn:Eu.
    2: { split; [apply defined_Fail |]. intros v. split; [done |]. by intros (m & [=] & _). }
    destruct (unit_factor_spec u m Eu) as [_ Hm']. rewrite length_app in Hf. cbn in Hf. destruct (Z.ltb_spec max (total + dec_from 0 ds * m)) as [Hgt | Hle'].
    + split; [apply defined_Fail |]. intros v. split; [done |]. intros (m' & [= <-] & Hok). pose proof (strict_ok_ge _ _ _ _ _ Hok). destruct Hok. lia.
    + destruct (IH rest (total + dec_from 0 ds * m) true) as [H1 H2]; [lia | nia |]. split; [done |]. intros v. rewrite H2. naive_solver.
Qed.

(** ** Lemmas: the lenient reader *)

Lemma strtoull_number ds rest : number ds -> starts_digit rest = false ->
  strtoull (ds ++ rest) = (Z.min ULLONG_MAX (dec_from 0 ds), rest).
Proof.
  intros [Hne Hd] Hr. destruct ds as [| c ds]; [done |]. pose proof (Forall_cons_1 _ _ _ Hd) as [Hc _]. unfold strtoull.
  assert (skip_spaces ((c :: ds) ++ rest) = (c :: ds) ++ rest) as ->.
  { cbn. unfold isspace, isdigit in *. by rewrite (proj2 (orb_false_iff _ _)) by lia. }
  assert (sign ((c :: ds) ++ rest) = (false, (c :: ds) ++ rest)) as ->.
  { cbn. unfold isdigit in Hc. rewrite !(proj2 (Z.eqb_neq _ _)) by lia. done. }
  assert (starts_digit ((c :: ds) ++ rest) = true) as -> by done. rewrite digits_app by done. fold (dec_from 0 (c :: ds)).
  destruct (Z.ltb_spec ULLONG_MAX (dec_from 0 (c :: ds))); f_equal; lia.
Qed.

Lemma terms_spec : forall fuel p w t, terms p w -> (length p <= fuel)%nat -> 0 <= t <= 4294967295 -> ttl_terms fuel p t = Ret (Z.min (t + w) TTL_MAX).
Proof.
  induction fuel as [| fuel IH]; intros p w t Hp Hf Ht; destruct Hp as [| ds u m s v Hn Hu Hs].
  1, 3: cbn; unfold TTL_MAX; rewrite Z.add_0_r; destruct (Z.ltb_spec 2147483647 t); f_equal; lia.
  { rewrite length_app in Hf. cbn in Hf. lia. }
  destruct (unit_factor_spec u m Hu) as [Hu' Hm]. pose proof (terms_nonneg s v Hs) as Hv. pose proof (dec_from_ge ds (proj2 Hn) 0 ltac:(lia)) as Hge.
  assert (exists c p, ds ++ u :: s = c :: p) as (c & p & E) by (destruct ds; cbn; eauto).
  rewrite length_app in Hf. cbn [length] in Hf. pose proof (strtoull_number ds (u :: s) Hn Hu') as Hs'. rewrite E in *. cbn [ttl_terms].
  rewrite Hs'. rewrite bool_decide_eq_false_2 by (rewrite <- E; intros E'; apply (f_equal length) in E'; rewrite length_app in E'; destruct Hn as [Hn _]; destruct ds; [done | cbn in E'; lia]).
  rewrite Hu. cbv zeta. set (d := dec_from 0 ds) in *. assert (TTL_MAX / m < Z.min ULLONG_MAX d <-> TTL_MAX < d * m) as Hdiv.
  { unfold TTL_MAX, ULLONG_MAX. pose proof (Z.div_mod 2147483647 m ltac:(lia)). pose proof (Z.mod_pos_bound 2147483647 m ltac:(lia)). split; intros; nia. }
  destruct ((TTL_MAX / m <? Z.min ULLONG_MAX d) || (TTL_MAX <? t)) eqn:Eo.
  - rewrite (IH s v); [| done | lia | unfold TTL_MAX; lia]. f_equal. unfold TTL_MAX in *. lia.
  - assert (d * m <= TTL_MAX /\ t <= TTL_MAX) as [Hdm Ht'] by (unfold TTL_MAX in *; lia). assert (Z.min ULLONG_MAX d = d) as -> by (unfold ULLONG_MAX, TTL_MAX in *; nia).
    rewrite !u64_small; [| unfold TTL_MAX in *; nia | rewrite u64_small; unfold TTL_MAX in *; nia]. rewrite (IH s v); [f_equal; lia | done | lia | unfold TTL_MAX in *; lia].
Qed.

Lemma digits_length s : forall acc, (length (snd (digits s acc)) <= length s)%nat.
Proof. induction s as [| c s IH]; intros acc; cbn; [done |]. destruct (isdigit c); cbn; [specialize (IH (acc * 10 + (c - 48))); lia | lia]. Qed.

Lemma digits_nonneg s : forall acc, 0 <= acc -> 0 <= fst (digits s acc).
Proof. induction s as [| c s IH]; intros acc Ha; cbn; [done |]. destruct (isdigit c) eqn:E; [| done]. apply IH. unfold isdigit in E. lia. Qed.

Lemma strtoull_rest s : (snd (strtoull s) = s \/ (length (snd (strtoull s)) < length s)%nat) /\ 0 <= fst (strtoull s) <= ULLONG_MAX.
Proof.
  unfold strtoull. assert (forall s, (length (skip_spaces s) <= length s)%nat) as Hk by (clear; induction s as [| c s IH]; cbn; [done |]; destruct (isspace c); cbn; lia).
  specialize (Hk s). destruct (sign (skip_spaces s)) as [neg body] eqn:Es.
  assert (length body <= length (skip_spaces s))%nat as Hb.
  { destruct (skip_spaces s) as [| c s']; cbn in Es; [by injection Es as _ <- |]. destruct (c =? 45); [| destruct (c =? 43)]; injection Es as _ <-; cbn; lia. }
  destruct (starts_digit body) eqn:Ed; [| split; [by left | unfold ULLONG_MAX; cbn; lia]].
  pose proof (digits_nonneg body 0 ltac:(lia)) as Hv. assert (length (snd (digits body 0)) < length body)%nat as Hd.
  { destruct body as [| c body]; [done |]. cbn [digits starts_digit length] in *. rewrite Ed. pose proof (digits_length body (0 * 10 + (c - 48))). lia. }
  destruct (digits body 0) as [v rest]. cbn in *. split; [right; lia |].
  pose proof (Z.mod_pos_bound (- v) 18446744073709551616 ltac:(lia)). unfold ULLONG_MAX, u64. case_ifs; lia.
Qed.

Lemma ttl_terms_range : forall fuel p t, (length p <= fuel)%nat -> 0 <= t -> exists r, ttl_terms fuel p t = Ret r /\ 0 <= r <= TTL_MAX.
Proof.
  assert (forall t, 0 <= t -> exists r, Ret (if TTL_MAX <? t then TTL_MAX else t) = Ret r /\ 0 <= r <= TTL_MAX) as Hend.
  { intros t Ht. eexists. split; [done |]. unfold TTL_MAX. case_if; lia. }
  induction fuel as [| fuel IH]; intros p t Hf Ht; (destruct p as [| c p]; [by apply Hend |]); [cbn in Hf; lia |]. cbn [ttl_terms].
  destruct (strtoull_rest (c :: p)) as [Hr Hv]. destruct (strtoull (c :: p)) as [num rest]. cbn [fst snd] in *.
  case_bool_decide as Eb; [exists 3600; unfold TTL_MAX; split; [done | lia] |]. destruct Hr as [? | Hr]; [done |]. cbn [length] in Hf, Hr. cbv zeta.
  assert (forall m rest', (length rest' <= length rest)%nat ->
    exists r, ttl_terms fuel rest' (if (TTL_MAX / m <? num) || (TTL_MAX <? t) then TTL_MAX + 1 else u64 (t + u64 (num * m))) = Ret r /\ 0 <= r <= TTL_MAX) as Hadd.
  { intros m rest' Hl. apply IH; [lia |]. case_if; [unfold TTL_MAX; lia | apply u64_range]. }
  destruct rest as [| u rest']; [by apply Hadd |]. destruct (unit_factor u); [apply Hadd; cbn; lia |]. exists 3600. unfold TTL_MAX. split; [done | lia].
Qed.

Lemma serial_digits_spec s : forall v, 0 <= v <= 42949672959 ->
  (Forall (fun c => isdigit c = true) s -> exists r, serial_digits s v = Some r /\ (dec_from v s <= 4294967295 -> r = dec_from v s) /\ (4294967295 < dec_from v s -> 4294967295 < r)) /\
  (~ Forall (fun c => isdigit c = true) s -> serial_digits s v = None).
Proof.
  induction s as [| c s IH]; intros v Hv; cbn [serial_digits].
  - split; [intros _; exists v; cbn; split_and!; [done | done | done] | intros []; constructor].
  - destruct (isdigit c) eqn:E.
    2: { split; [intros [Hc _]%Forall_cons_1; congruence | done]. }
    unfold dec_from in *. cbn [fold_left]. unfold isdigit in E. destruct (Z.leb_spec v 4294967295) as [Hle | Hgt].
    + rewrite u64_small by lia. destruct (IH (v * 10 + (c - 48))) as [H1 H2]; [lia |]. split; [by intros [_ Hs]%Forall_cons_1; apply H1 |].
      intros Hn. apply H2. intros Hs. apply Hn. constructor; [unfold isdigit; lia | done].
    + destruct (IH v Hv) as [H1 H2]. split.
      * intros [_ Hs]%Forall_cons_1. destruct (H1 Hs) as (r & -> & _ & Hr). exists r. split; [done |].
        pose proof (dec_from_ge s Hs v). pose proof (dec_from_ge s Hs (v * 10 + (c - 48))). unfold dec_from in *. split; lia.
      * intros Hn. apply H2. intros Hs. apply Hn. constructor; [unfold isdigit; lia | done].
Qed.

(** ** Lemmas: times *)

Lemma year_of_era doe : 0 <= doe < 146097 -> let yoe := (doe - doe / 1460 + doe / 36524 - doe / 146096) / 365 in
  0 <= yoe < 400 /\ 0 <= doe - (365 * yoe + yoe / 4 - yoe / 100) < 366.
Proof. intros H yoe. unfold yoe. split; Z.to_euclidean_division_equations; lia. Qed.

Lemma civil_roundtrip days : 0 <= days < 49711 -> let '(y, m, d) := civil_from_days days in
  0 <= y < 10000 /\ 1 <= m <= 12 /\ 1 <= d <= 31 /\ days_from_civil y m d = days.
Proof.
  intros Hd. unfold civil_from_days, days_from_civil. cbv zeta. set (z := days + 719468). set (era := z / 146097). set (doe := z - era * 146097).
  assert (0 <= doe < 146097 /\ 4 <= era <= 5) as [Hdoe Hera] by (unfold doe, era, z; Z.to_euclidean_division_equations; lia).
  destruct (year_of_era doe Hdoe) as [Hyoe Hdoy]. set (yoe := (doe - doe / 1460 + doe / 36524 - doe / 146096) / 365) in *.
  set (doy := doe - (365 * yoe + yoe / 4 - yoe / 100)) in *. set (mp := (5 * doy + 2) / 153). set (d := doy - (153 * mp + 2) / 5 + 1).
  assert (0 <= mp <= 11 /\ 1 <= d <= 31) as [Hmp Hday] by (unfold d, mp; Z.to_euclidean_division_equations; lia).
  set (m := if mp <? 10 then mp + 3 else mp - 9).
  assert (1 <= m <= 12 /\ (m <=? 2) = negb (mp <? 10) /\ Z.rem (m + 9) 12 = mp) as (Hm & Hle & Hrem).
  { unfold m. destruct (Z.ltb_spec mp 10); cbn [negb]; rewrite Z.rem_mod_nonneg by lia.
    - split; [lia |]. split; [lia |]. replace (mp + 3 + 9) with (mp + 1 * 12) by lia. rewrite Z.mod_add, Z.mod_small by lia. done.
    - split; [lia |]. split; [lia |]. replace (mp - 9 + 9) with mp by lia. apply Z.mod_small. lia. }
  assert ((if m <=? 2 then (if m <=? 2 then yoe + era * 400 + 1 else yoe + era * 400) - 1 else if m <=? 2 then yoe + era * 400 + 1 else yoe + era * 400) = yoe + era * 400)
    as -> by (destruct (m <=? 2); lia).
  rewrite (proj2 (Z.leb_le 0 (yoe + era * 400))) by lia. rewrite Z.quot_div_nonneg by lia. rewrite Z.div_add, (Z.div_small yoe) by lia.
  rewrite Hrem. replace (yoe + era * 400 - (0 + era) * 400) with yoe by lia.
  rewrite (u32_small yoe), (u32_small mp), (u32_small d), (u32_small (yoe * 365)), (u32_small (153 * mp + 2)) by lia.
  replace ((153 * mp + 2) / 5 + d - 1) with doy by (unfold d; lia). rewrite (u32_small doy) by lia.
  replace (yoe * 365 + yoe / 4 - yoe / 100 + doy) with doe by (unfold doy; lia). rewrite (u32_small doe) by lia.
  split; [| split; [done | split; [done |]]].
  - destruct (m <=? 2); lia.
  - unfold doe, z. lia.
Qed.

Lemma fmt_0u_2 v : 0 <= v < 100 -> fmt_0u 2 v = [48 + v / 10; 48 + v mod 10].
Proof.
  intros Hv. unfold fmt_0u. change (10 ^ Z.of_nat 2) with 100. rewrite (proj2 (Z.ltb_lt _ _)) by lia. cbn [fixed_digits].
  by rewrite (Z.mod_small (v / 10)) by (Z.to_euclidean_division_equations; lia).
Qed.

Lemma fmt_0u_4 v : 0 <= v < 10000 -> fmt_0u 4 v = [48 + v / 1000; 48 + v / 100 mod 10; 48 + v / 10 mod 10; 48 + v mod 10].
Proof.
  intros Hv. unfold fmt_0u. change (10 ^ Z.of_nat 4) with 10000. rewrite (proj2 (Z.ltb_lt _ _)) by lia. cbn [fixed_digits].
  rewrite !Z.div_div by lia. change (10 * 10) with 100. change (100 * 10) with 1000.
  by rewrite (Z.mod_small (v / 1000)) by (Z.to_euclidean_division_equations; lia).
Qed.

Lemma scan_digit_head w c s : isdigit c = true -> (0 < w)%nat -> scan_d w (c :: s) = Some (scan_digits w (c :: s) 0).
Proof.
  intros Hc Hw. unfold scan_d. assert (skip_spaces (c :: s) = c :: s) as ->.
  { cbn. unfold isspace, isdigit in *. by rewrite (proj2 (orb_false_iff _ _)) by lia. }
  assert (sign (c :: s) = (false, c :: s)) as ->.
  { cbn. unfold isdigit in Hc. rewrite !(proj2 (Z.eqb_neq _ _)) by lia. done. }
  rewrite bool_decide_eq_true_2 by done. cbn [starts_digit]. rewrite Hc, (proj2 (Nat.eqb_neq _ _)) by lia. cbn [andb negb].
  by destruct (scan_digits w (c :: s) 0).
Qed.

Lemma isdigit_48 d : 0 <= d < 10 -> isdigit (48 + d) = true.
Proof. unfold isdigit. lia. Qed.

Lemma scan_2 v rest : 0 <= v < 100 -> scan_d 2 (fmt_0u 2 v ++ rest) = Some (v, rest).
Proof.
  intros Hv. rewrite fmt_0u_2 by done. cbn [app]. rewrite scan_digit_head; [| apply isdigit_48; Z.to_euclidean_division_equations; lia | lia].
  cbn [scan_digits]. rewrite !isdigit_48 by (Z.to_euclidean_division_equations; lia). repeat f_equal. Z.to_euclidean_division_equations; lia.
Qed.

Lemma scan_4 v rest : 0 <= v < 10000 -> scan_d 4 (fmt_0u 4 v ++ rest) = Some (v, rest).
Proof.
  intros Hv. rewrite fmt_0u_4 by done. cbn [app]. rewrite scan_digit_head; [| apply isdigit_48; Z.to_euclidean_division_equations; lia | lia].
  cbn [scan_digits]. rewrite !isdigit_48 by (Z.to_euclidean_division_equations; lia). repeat f_equal. Z.to_euclidean_division_equations; lia.
Qed.

Lemma length_fmt_2 v : 0 <= v < 100 -> length (fmt_0u 2 v) = 2%nat.
Proof. intros Hv. by rewrite fmt_0u_2. Qed.

Lemma length_fmt_4 v : 0 <= v < 10000 -> length (fmt_0u 4 v) = 4%nat.
Proof. intros Hv. by rewrite fmt_0u_4. Qed.

(** ** Lemmas: octets *)

(** The number that octets or 5-bit digits write in base [2 ^ w]. *)
Definition big (w : Z) (l : list Z) : Z := fold_left (fun a x => a * 2 ^ w + x) l 0.

Lemma big_snoc w l x : big w (l ++ [x]) = big w l * 2 ^ w + x.
Proof. unfold big. by rewrite fold_left_app. Qed.

Lemma big_range w l : 0 <= w -> Forall (fun x => 0 <= x < 2 ^ w) l -> 0 <= big w l < 2 ^ (w * len l).
Proof.
  intros Hw. induction l as [| x l IH] using rev_ind; intros Hl; [cbn; rewrite Z.mul_0_r; done |]. apply Forall_app in Hl as [Hl [Hx _]%Forall_cons_1].
  rewrite big_snoc, length_app. cbn [length]. replace (w * Z.of_nat (length l + 1)) with (w * len l + w) by lia. rewrite Z.pow_add_r by lia. specialize (IH Hl). nia.
Qed.

Lemma big_inj w l l' : 0 <= w -> Forall (fun x => 0 <= x < 2 ^ w) l -> Forall (fun x => 0 <= x < 2 ^ w) l' -> length l = length l' -> big w l = big w l' -> l = l'.
Proof.
  intros Hw. revert l'. induction l as [| x l IH] using rev_ind; intros l' Hl Hl' Hlen E; [by destruct l' |].
  destruct l' as [| x' l' _] using rev_ind; [rewrite length_app in Hlen; cbn in Hlen; lia |]. rewrite !length_app in Hlen. cbn in Hlen.
  apply Forall_app in Hl as [Hl [Hx _]%Forall_cons_1]. apply Forall_app in Hl' as [Hl' [Hx' _]%Forall_cons_1]. rewrite !big_snoc in E.
  destruct (Z.div_mod_unique (2 ^ w) (big w l) (big w l') x x') as [El ->]; [lia | lia | lia |]. f_equal. apply IH; [done | done | lia | done].
Qed.

Lemma alphabet_at v : 0 <= v < 32 -> exists c, rd base32hex_alphabet v = Ret c /\ base32hex_map c = v /\ c <> 61.
Proof.
  intros Hv. pose proof (forallb_range (fun v => match rd base32hex_alphabet v with Ret c => (base32hex_map c =? v) && negb (c =? 61) | _ => false end) 0 32 eq_refl v Hv) as H.
  cbn beta in H. destruct (rd base32hex_alphabet v) as [c | | |]; [| done..]. exists c. split; [done |]. lia.
Qed.

(** The pending bits of the buffer. *)
Lemma shift_in buffer bits w x : 0 <= bits -> bits + w <= 32 -> 0 <= w -> 0 <= x < 2 ^ w ->
  u32 (Z.lor (Z.shiftl buffer w) x) mod 2 ^ (bits + w) = (buffer mod 2 ^ bits) * 2 ^ w + x.
Proof.
  intros Hb Hw H0 Hx. unfold u32. rewrite Z.lor_comm, lor_shiftl_add by lia.
  pose proof (Z.pow_pos_nonneg 2 bits). pose proof (Z.pow_pos_nonneg 2 w). pose proof (Z.pow_pos_nonneg 2 (bits + w)). rewrite Z.mod_mod_divide.
  - rewrite Z.pow_add_r by lia. symmetry. apply (Z.mod_unique _ _ (buffer / 2 ^ bits)); [left |].
    + pose proof (Z.mod_pos_bound buffer (2 ^ bits)). nia.
    + pose proof (Z.div_mod buffer (2 ^ bits)). nia.
  - exists (2 ^ (32 - (bits + w))). rewrite <- Z.pow_add_r by lia. by replace (32 - (bits + w) + (bits + w)) with 32 by lia.
Qed.

Lemma shift_out buffer bits w : 0 <= w <= bits ->
  let v := Z.land (Z.shiftr buffer (bits - w)) (Z.ones w) in 0 <= v < 2 ^ w /\ buffer mod 2 ^ bits = v * 2 ^ (bits - w) + buffer mod 2 ^ (bits - w).
Proof.
  intros Hw v. unfold v. rewrite Z.land_ones, Z.shiftr_div_pow2 by lia. pose proof (Z.pow_pos_nonneg 2 (bits - w)). pose proof (Z.pow_pos_nonneg 2 w).
  split; [apply Z.mod_pos_bound; lia |]. replace (2 ^ bits) with (2 ^ (bits - w) * 2 ^ w) by (rewrite <- Z.pow_add_r by lia; f_equal; lia).
  rewrite Z.rem_mul_r by lia. lia.
Qed.

(** The characters of 5-bit digits. *)
Definition digits_of (vals out : list Z) : Prop := Forall2 (fun v c => 0 <= v < 32 /\ rd base32hex_alphabet v = Ret c) vals out.

Lemma drain_spec cap : forall fuel buffer bits out vals, digits_of vals out -> 0 <= bits < 5 * (Z.of_nat fuel + 1) -> 5 * len out + bits + 5 <= 5 * cap ->
  exists out' vals' bits', base32hex_drain fuel buffer bits out cap = Ret (bits', out', false) /\ digits_of vals' out' /\ 0 <= bits' < 5 /\
    5 * len out' + bits' = 5 * len out + bits /\ big 5 vals' * 2 ^ bits' + buffer mod 2 ^ bits' = big 5 vals * 2 ^ bits + buffer mod 2 ^ bits.
Proof.
  induction fuel as [| fuel IH]; intros buffer bits out vals Hd Hb Hc; cbn [base32hex_drain]; destruct (Z.ltb_spec bits 5).
  - exists out, vals, bits. split_and!; done || lia.
  - lia.
  - exists out, vals, bits. split_and!; done || lia.
  - rewrite (proj2 (Z.leb_gt cap (len out + 1))) by lia. destruct (shift_out buffer bits 5) as [Hv Hm]; [lia |]. change (Z.ones 5) with 31 in *.
    set (v := Z.land (Z.shiftr buffer (bits - 5)) 31) in *. destruct (alphabet_at v Hv) as (c & Hc' & _ & _). rewrite Hc'. cbn [obind]. unfold put.
    rewrite (proj2 (Z.ltb_lt _ _)) by lia. cbn [obind].
    destruct (IH buffer (bits - 5) (out ++ [c]) (vals ++ [v])) as (out' & vals' & bits' & -> & Hd' & Hb' & Hl & Hbig); [| lia | rewrite length_app; cbn [length]; lia |].
    { apply Forall2_app; [done |]. constructor; [by split | constructor]. }
    exists out', vals', bits'. split_and!; [done | done | lia | lia | rewrite Hl, length_app; cbn [length]; lia |]. rewrite Hbig, big_snoc, Hm.
    replace (2 ^ bits) with (2 ^ (bits - 5) * 2 ^ 5) by (rewrite <- Z.pow_add_r by lia; f_equal; lia). lia.
Qed.

Lemma octets_spec cap data : bytes data -> forall done buffer bits out vals,
  digits_of vals out -> 0 <= bits < 5 -> 5 * len out + bits = 8 * len done -> 8 * len (done ++ data) + 5 <= 5 * cap ->
  big 5 vals * 2 ^ bits + buffer mod 2 ^ bits = big 8 done ->
  exists out' vals' p, base32hex_octets data buffer bits out cap = Ret out' /\ digits_of vals' out' /\ 0 <= p < 5 /\
    5 * len out' = 8 * len (done ++ data) + p /\ big 5 vals' = big 8 (done ++ data) * 2 ^ p.
Proof.
  induction 1 as [| b data Hb Hdata IH]; intros dn buffer bits out vals Hd Hbits Hlen Hcap Hbig; cbn [base32hex_octets].
  - rewrite app_nil_r in *. destruct (Z.ltb_spec 0 bits) as [Hpos | Hz].
    + rewrite (proj2 (Z.ltb_lt _ _)) by lia. cbn [andb]. assert (Z.land (u32 (Z.shiftl buffer (5 - bits))) 31 = (buffer mod 2 ^ bits) * 2 ^ (5 - bits)) as ->.
      { change 31 with (Z.ones 5). rewrite Z.land_ones by lia. pose proof (shift_in buffer bits (5 - bits) 0) as Hs. rewrite Z.lor_0_r, Z.add_0_r in Hs.
        replace (bits + (5 - bits)) with 5 in Hs by lia. apply Hs; [lia | lia | lia |]. pose proof (Z.pow_pos_nonneg 2 (5 - bits)). lia. }
      set (v := buffer mod 2 ^ bits * 2 ^ (5 - bits)). assert (0 <= v < 32) as Hv.
      { unfold v. pose proof (Z.pow_pos_nonneg 2 (5 - bits)). pose proof (Z.pow_pos_nonneg 2 bits). pose proof (Z.mod_pos_bound buffer (2 ^ bits)).
        assert (2 ^ bits * 2 ^ (5 - bits) = 32) by (rewrite <- Z.pow_add_r by lia; by replace (bits + (5 - bits)) with 5 by lia). nia. }
      destruct (alphabet_at v Hv) as (c & Hc & _ & _). rewrite Hc. cbn [obind]. unfold put. rewrite (proj2 (Z.ltb_lt (len out) cap)) by lia. cbn [obind]. rewrite length_app. cbn [length].
      rewrite (proj2 (Z.ltb_lt _ cap)) by lia. cbn [obind]. exists (out ++ [c]), (vals ++ [v]), (5 - bits). split_and!; [done | | lia | lia | rewrite length_app; cbn [length]; lia |].
      * apply Forall2_app; [done |]. constructor; [by split | constructor].
      * rewrite big_snoc. unfold v. rewrite <- Hbig, Z.mul_add_distr_r, <- Z.mul_assoc, <- Z.pow_add_r by lia. by replace (bits + (5 - bits)) with 5 by lia.
    + assert (bits = 0) as -> by lia. cbn [andb obind]. unfold put. rewrite (proj2 (Z.ltb_lt _ _)) by lia. cbn [obind]. exists out, vals, 0.
      split_and!; [done | done | lia | lia | lia |]. rewrite Z.pow_0_r in *. rewrite Z.mod_1_r in Hbig. lia.
  - assert (length (dn ++ b :: data) = length ((dn ++ [b]) ++ data)) as El by (rewrite !length_app; cbn; lia).
    set (buffer' := u32 (Z.lor (Z.shiftl buffer 8) b)). rewrite length_app in Hcap. cbn [length] in Hcap.
    destruct (drain_spec cap 3 buffer' (bits + 8) out vals Hd) as (out1 & vals1 & bits1 & -> & Hd1 & Hb1 & Hl1 & Hbig1); [lia | lia |]. cbn [obind]. cbv iota.
    rewrite (cons_middle b dn data), app_assoc. apply (IH (dn ++ [b]) buffer' bits1 out1 vals1 Hd1 Hb1).
    + rewrite length_app. cbn [length]. lia.
    + rewrite length_app, length_app. cbn [length]. lia.
    + rewrite Hbig1. unfold buffer'. rewrite shift_in by (unfold isbyte in *; lia). rewrite big_snoc, <- Hbig, Z.pow_add_r by lia. lia.
Qed.

Lemma chars_spec cap vals inp : digits_of vals inp -> forall dn buffer bits out,
  bytes out -> 0 <= bits < 8 -> 8 * len out + bits = 5 * len dn -> 5 * len (dn ++ vals) <= 8 * cap + 7 -> big 8 out * 2 ^ bits + buffer mod 2 ^ bits = big 5 dn ->
  exists out' bits' b, base32hex_chars inp buffer bits out cap = Ret out' /\ bytes out' /\ 0 <= bits' < 8 /\ 8 * len out' + bits' = 5 * len (dn ++ vals) /\
    0 <= b < 2 ^ bits' /\ big 8 out' * 2 ^ bits' + b = big 5 (dn ++ vals).
Proof.
  induction 1 as [| v c vals inp [Hv Hc] Hd IH]; intros dn buffer bits out Hout Hbits Hlen Hcap Hbig; cbn [base32hex_chars].
  - rewrite app_nil_r in *. exists out, bits, (buffer mod 2 ^ bits). split_and!; try done; try lia; apply Z.mod_pos_bound; lia.
  - destruct (alphabet_at v Hv) as (c' & Hc' & Hmap & Hne). assert (c' = c) as -> by congruence. rewrite (proj2 (Z.eqb_neq c 61)) by done. rewrite Hmap.
    rewrite (proj2 (Z.eqb_neq v (-1))) by lia. rewrite (cons_middle v dn vals), app_assoc in *. set (buffer' := u32 (Z.lor (Z.shiftl buffer 5) v)).
    assert (buffer' mod 2 ^ (bits + 5) = buffer mod 2 ^ bits * 2 ^ 5 + v) as Hin by (apply shift_in; lia).
    assert (big 8 out * 2 ^ (bits + 5) + buffer' mod 2 ^ (bits + 5) = big 5 (dn ++ [v])) as Hbig' by (rewrite Hin, big_snoc, <- Hbig, Z.pow_add_r by lia; lia).
    destruct (Z.leb_spec 8 (bits + 5)) as [H8 | H8].
    + destruct (shift_out buffer' (bits + 5) 8) as [Hx Hm]; [lia |]. change (Z.ones 8) with 255 in *. set (x := Z.land (Z.shiftr buffer' (bits + 5 - 8)) 255) in *.
      assert (len out < cap) as Hroom by (rewrite !length_app in Hcap; cbn [length] in Hcap; lia). rewrite (proj2 (Z.leb_gt _ _)) by lia. unfold put.
      rewrite (proj2 (Z.ltb_lt _ _)) by lia. cbn [obind]. apply IH; [apply Forall_app; split; [done |]; constructor; [exact Hx | constructor] | lia | | done |].
      * rewrite !length_app. cbn [length]. lia.
      * rewrite big_snoc, <- Hbig', Hm. replace (2 ^ (bits + 5)) with (2 ^ (bits + 5 - 8) * 2 ^ 8) by (rewrite <- Z.pow_add_r by lia; f_equal; lia). lia.
    + apply IH; [done | lia | rewrite length_app; cbn [length]; lia | done | done].
Qed.

Lemma base32hex_roundtrip d cap out_cap : bytes d -> 8 * len d + 5 <= 5 * cap -> len d <= out_cap ->
  exists text, dns_base32hex_encode d cap = Ret text /\ base32hex_decode text out_cap = Ret d.
Proof.
  intros Hd Hcap Hout. unfold dns_base32hex_encode. rewrite (proj2 (Z.eqb_neq _ _)) by lia.
  destruct (octets_spec cap d Hd [] 0 0 [] []) as (out & vals & p & -> & Hv & Hp & Hlen & Hbig); [constructor | lia | done | done | done |].
  cbn [app] in *. exists out. split; [done |]. assert (length vals = length out) as El by (by apply Forall2_length in Hv).
  destruct (chars_spec out_cap vals out Hv [] 0 0 []) as (out' & bits & b & Hdec & Hb & Hbits & Hlen' & Hb' & Hbig'); [constructor | lia | done | cbn [app]; lia | done |].
  unfold base32hex_decode. rewrite Hdec. f_equal. cbn [app] in *. assert (len out' = len d /\ bits = p) as [Hn ->] by lia.
  apply (big_inj 8); [lia | done | done | lia |]. rewrite Hbig in Hbig'. pose proof (Z.pow_pos_nonneg 2 p). nia.
Qed.

Lemma hex_roundtrip d cap : bytes d -> len d <= cap -> hex_decode (dnssec_rdata_hex d) cap = Ret d.
Proof.
  intros Hd. unfold hex_decode. change d with ([] ++ d) at 1 3. generalize (@nil Z) as pre. induction Hd as [| b d Hb Hd IH]; intros pre Hcap.
  - by rewrite app_nil_r.
  - assert (forall v, 0 <= v < 16 -> hex_char_to_val (hex_digit v) = v) as Hx.
    { intros v Hv. apply Z.eqb_eq. by apply (forallb_range (fun v => hex_char_to_val (hex_digit v) =? v) 0 16 eq_refl). }
    assert (0 <= Z.shiftr b 4 < 16 /\ 0 <= Z.land b 15 < 16 /\ Z.lor (Z.shiftl (Z.shiftr b 4) 4) (Z.land b 15) = b) as (Hh & Hl & Hb').
    { unfold isbyte in Hb. change 15 with (Z.ones 4). rewrite Z.land_ones, Z.shiftr_div_pow2 by lia. change (2 ^ 4) with 16. pose proof (Z.mod_pos_bound b 16).
      rewrite Z.lor_comm, lor_shiftl_add by (change (2 ^ 4) with 16; lia). change (2 ^ 4) with 16. split_and!; try lia; Z.to_euclidean_division_equations; lia. }
    unfold dnssec_rdata_hex in *. rewrite length_app in Hcap. cbn [length] in Hcap. cbn [map concat app hex_decode_from]. rewrite !Hx by done.
    rewrite (proj2 (Z.ltb_ge (Z.shiftr b 4) 0)), (proj2 (Z.ltb_ge (Z.land b 15) 0)) by lia. cbn [orb Z.ltb Z.compare].
    rewrite (proj2 (Z.leb_gt cap (len pre))) by lia. unfold put. rewrite (proj2 (Z.ltb_lt (len pre) cap)) by lia. cbn [obind].
    rewrite Hb', u8_small by done. rewrite (cons_middle b pre d), app_assoc. apply IH. rewrite !length_app. cbn [length]. lia.
Qed.

Lemma ttl_text_ne v : ~ ttl_text [] v.
Proof. by intros [[[[] _] _] | [[] _]]. Qed.

Lemma strict_reader s max v : 0 <= max -> defined (parse_ttl_strict (Some s) max) /\
  (parse_ttl_strict (Some s) max = Ret v <-> max <= 4294967295 /\ len s <= 63 /\ ttl_text s v /\ v <= max).
Proof.
  intros Hmax. destruct (decide (s = [])) as [-> | Hne].
  { cbn. split; [apply defined_Fail |]. split; [done |]. by intros (_ & _ & H%ttl_text_ne & _). }
  assert (parse_ttl_strict (Some s) max = if (4294967295 <? max) || (63 <? len s) then Fail else strict_terms (length s) s max 0 false) as -> by (by destruct s).
  destruct (Z.ltb_spec 4294967295 max); [split; [apply defined_Fail |]; split; [done | lia] |].
  destruct (Z.ltb_spec 63 (len s)); [split; [apply defined_Fail |]; split; [done | lia] |]. cbn [orb].
  destruct (strict_terms_spec max ltac:(lia) (length s) s 0 false ltac:(lia) ltac:(lia)) as [Hd Hs]. split; [done |].
  rewrite (Hs v). unfold strict_ok, ttl_text. rewrite Z.sub_0_r, Z.add_0_l. naive_solver lia.
Qed.

Lemma number_forallb s : s <> [] -> forallb isdigit s = true <-> number s.
Proof.
  intros Hne. rewrite forallb_forall. unfold number. rewrite Forall_forall. setoid_rewrite <- list_elem_of_In. naive_solver.
Qed.

Lemma lenient_eq s : s <> [] ->
  parse_ttl_value (Some s) = if forallb isdigit s then Ret (Z.min (fst (strtoull s)) TTL_MAX) else ttl_terms (length s) s 0.
Proof. intros Hne. destruct s as [| c s]; [done |]. cbn [parse_ttl_value]. destruct (forallb isdigit (c :: s)); [| done]. destruct (Z.ltb_spec TTL_MAX (fst (strtoull (c :: s)))); f_equal; lia. Qed.

Lemma lenient_reader s v : ttl_text s v -> parse_ttl_value (Some s) = Ret (Z.min v TTL_MAX).
Proof.
  intros Ht. destruct (decide (s = [])) as [-> | Hne]; [by apply ttl_text_ne in Ht |]. rewrite lenient_eq by done. pose proof (number_forallb s Hne) as Hb.
  destruct Ht as [[Hn ->] | [_ Ht]].
  - rewrite (proj2 Hb Hn). pose proof (strtoull_number s [] Hn eq_refl) as E. rewrite app_nil_r in E. rewrite E. cbn [fst]. f_equal. unfold ULLONG_MAX, TTL_MAX. lia.
  - destruct (forallb isdigit s).
    + destruct (proj1 Hb eq_refl) as [_ Hd]. rewrite <- (app_nil_r s) in Ht. destruct (terms_inv s [] v Hd eq_refl Ht) as [(-> & _) | (u & m & w & x & _ & [=] & _)]. done.
    + by rewrite (terms_spec _ _ v 0).
Qed.

Lemma lenient_range s : exists r, parse_ttl_value (Some s) = Ret r /\ 0 <= r <= TTL_MAX.
Proof.
  destruct (decide (s = [])) as [-> | Hne]; [exists 3600; unfold TTL_MAX; by split |]. rewrite lenient_eq by done. destruct (forallb isdigit s).
  - eexists. split; [done |]. pose proof (proj2 (strtoull_rest s)). unfold TTL_MAX, ULLONG_MAX in *. lia.
  - by apply ttl_terms_range.
Qed.

(** ** Properties *)

(** The strict reader of times to live accepts exactly the texts of at most
    63 characters that are a number or a run of numbers with units and whose
    sum of seconds is at most [max], and yields that sum; on such texts the
    lenient reader yields the same sum capped at 2^31 - 1, and it yields a
    time to live of at most 2^31 - 1 for every string. Neither runs past the
    text. *)
Theorem ttl_readers s max v : 0 <= max ->
  defined (parse_ttl_strict (Some s) max) /\
  (parse_ttl_strict (Some s) max = Ret v <-> max <= 4294967295 /\ len s <= 63 /\ ttl_text s v /\ v <= max) /\
  (ttl_text s v -> parse_ttl_value (Some s) = Ret (Z.min v TTL_MAX)) /\
  exists r, parse_ttl_value (Some s) = Ret r /\ 0 <= r <= TTL_MAX.
Proof.
  intros Hmax. destruct (strict_reader s max v Hmax) as [Hd Hs]. split; [done | split; [done | split; [apply lenient_reader | apply lenient_range]]].
Qed.

Lemma ttl_readers_witness : ttl_text (str "1w2d") 777600 /\ parse_ttl_strict (Some (str "1w2d")) 2147483647 = Ret 777600.
Proof.
  assert (ttl_text (str "1w2d") 777600) as Ht.
  { right. split; [done |]. change (str "1w2d") with ([49] ++ 119 :: [50] ++ 100 :: []). change 777600 with (dec_from 0 [49] * 604800 + (dec_from 0 [50] * 86400 + 0)).
    repeat constructor; done. }
  split; [done |]. apply (ttl_readers (str "1w2d") 2147483647 777600); [done |]. by repeat split.
Defined.

(** The text of a signature time reads back: for every 32-bit time, the
    fourteen digits that [dnssec_rdata_time] prints are read by
    [parse_dnssec_time] as that time. *)
Theorem dnssec_time_roundtrip t : 0 <= t < 2 ^ 32 ->
  length (dnssec_rdata_time t) = 14%nat /\ parse_dnssec_time (dnssec_rdata_time t) = t.
Proof.
  intros Ht. unfold dnssec_rdata_time. pose proof (civil_roundtrip (t / 86400) ltac:(Z.to_euclidean_division_equations; lia)) as Hc.
  destruct (civil_from_days (t / 86400)) as [[y m] d]. destruct Hc as (Hy & Hm & Hd & Hdays). set (secs := t mod 86400).
  assert (0 <= secs < 86400) as Hs by (apply Z.mod_pos_bound; lia). rewrite (Z.mod_small y), (Z.mod_small m), (Z.mod_small d) by lia.
  assert (0 <= secs / 3600 < 100 /\ 0 <= secs / 60 mod 60 < 100 /\ 0 <= secs mod 60 < 100) as (H1 & H2 & H3) by (Z.to_euclidean_division_equations; lia).
  rewrite take_ge by (rewrite !length_app, length_fmt_4, !length_fmt_2 by lia; lia). split; [rewrite !length_app, length_fmt_4, !length_fmt_2 by lia; done |].
  unfold parse_dnssec_time. rewrite <- (app_nil_r (fmt_0u 2 (secs mod 60))). rewrite scan_4, !scan_2 by lia. rewrite Hdays. unfold u32.
  assert (t / 86400 * 86400 + secs / 3600 * 3600 + secs / 60 mod 60 * 60 + secs mod 60 = t) as -> by (unfold secs; Z.to_euclidean_division_equations; lia).
  by apply Z.mod_small.
Qed.

Lemma dnssec_time_roundtrip_witness : dnssec_rdata_time 1700000000 = str "20231114221320" /\ parse_dnssec_time (str "20231114221320") = 1700000000.
Proof. change (str "20231114221320") with (dnssec_rdata_time 1700000000). split; [done |]. by apply (dnssec_time_roundtrip 1700000000). Defined.

(** Octets survive their text form: any octets written in base32hex, into
    the space the caller provides, and any octets written in hexadecimal are
    read back as they were. *)
Theorem rdata_octets_roundtrip d out_cap : bytes d -> len d <= out_cap ->
  (exists text, dns_base32hex_encode d (len d * 8 / 5 + 2) = Ret text /\ base32hex_decode text out_cap = Ret d) /\
  hex_decode (dnssec_rdata_hex d) out_cap = Ret d.
Proof. intros Hd Hc. split; [apply base32hex_roundtrip; [done | Z.to_euclidean_division_equations; lia | done] | by apply hex_roundtrip]. Qed.

Lemma rdata_octets_roundtrip_witness : dns_base32hex_encode [18; 52; 171] 6 = Ret (str "28QAM") /\
  exists text, dns_base32hex_encode [18; 52; 171] 6 = Ret text /\ base32hex_decode text 3 = Ret [18; 52; 171].
Proof. split; [done |]. apply (rdata_octets_roundtrip [18; 52; 171] 3); [by apply bytes_check | done]. Defined.

End RdataText.
