(* ===== verification/Record.v ===== *)
(** * Resource records and the common writers of their RDATA (dns_wire.h, dns_wire.c)

    The record of a zone, with the pre-parsed copies it may carry, and the
    helpers [serialize_dns_record] shares between record types: numbers,
    character strings, type bitmaps, and hexadecimal and base64 text. The
    base64 codec of OpenSSL is the interface [EvpBase64]. *)

From Stdlib Require Export Sorting.Sorted.
From S2P Require Import Prelude CLib Cidr NameText WireName Compress TypeName RdataText.

Module Record.
Import CLib NameText WireName Compress TypeName RdataText.

Definition MAX_RDATA : Z := 48.
Definition DNS_CLASS_KARIDNS_EXT : Z := 65302.

(** [EVP_DecodeBlock] of a text, [None] for a negative result: it writes at
    most three octets for four characters. [EVP_EncodeBlock] writes a C
    string. *)
Class EvpBase64 := {
  evp_decode : list Z -> option (list Z);
  evp_encode : list Z -> list Z;
  evp_decode_bytes : forall s d, evp_decode s = Some d -> bytes d;
  evp_decode_length : forall s d, evp_decode s = Some d -> len d <= len s / 4 * 3;
  evp_encode_cstring : forall d, cstring (evp_encode d)
}.

(** ** Data *)

(** The pre-parsed RDATA: [is_cached] and the member of the union for the type. *)
Inductive cache_t :=
| NotCached
| CacheA (addr : list Z)
| CacheAaaa (addr : list Z)
| CacheSoa (mname rname : list Z) (wires : option (list Z * list Z)) (numbers : list Z)
| CacheMx (pref : Z) (target : list Z) (target_wire : option (list Z))
| CacheRrsig (type_covered algorithm labels orig_ttl sig_exp sig_inc key_tag : Z) (signer : list Z) (signature : option (list Z))
| CacheSrv (priority weight port : Z) (target : list Z) (target_wire : option (list Z))
| CacheTxt (wire_data : list Z)
| CacheName (wire_name : list Z).

Record dns_record_t := DnsRecord {
  name : list Z;
  ttl : list Z;
  class_str : list Z;
  class_val : Z;
  type_str : list Z;
  type_code : Z;
  ttl_value : Z;
  rdata : list (list Z);
  generic_data : option (list Z);
  generic_len : Z;
  tinydns_ttd : Z;
  tinydns_ttl_countdown : bool;
  tinydns_loc : Z * Z;
  ecs_subnet_tag : option (list Z);
  bind_location_tag : option (list Z);
  name_wire : option (list Z);
  cache : cache_t
}.

Definition set_cache (rec : dns_record_t) (nw : option (list Z)) (c : cache_t) : dns_record_t :=
  DnsRecord (name rec) (ttl rec) (class_str rec) (class_val rec) (type_str rec) (type_code rec) (ttl_value rec) (rdata rec)
    (generic_data rec) (generic_len rec) (tinydns_ttd rec) (tinydns_ttl_countdown rec) (tinydns_loc rec) (ecs_subnet_tag rec)
    (bind_location_tag rec) nw c.

(** ** Operations: numbers *)

Definition parse_num (max : Z) (s : list Z) : outcome Z :=
  fail_if streq s [] ;;
  let '(val, rest) := strtol s in
  fail_if negb (streq rest []) || (val <? 0) || (max <? val) ;;
  Ret val.

Definition parse_u8 : list Z -> outcome Z := parse_num 255.
Definition parse_u16 : list Z -> outcome Z := parse_num 65535.

(** [(uint32_t)strtoul(s, NULL, 10)] *)
Definition strtoul32 (s : list Z) : Z := u32 (fst (strtoull s)).

(** The octets of a number, most significant first. *)
Definition w16 (v : Z) : list Z := [u8 (Z.shiftr v 8); u8 v].
Definition w32 (v : Z) : list Z := [u8 (Z.shiftr v 24); u8 (Z.shiftr v 16); u8 (Z.shiftr v 8); u8 v].

(** [rec->rdata[i]] *)
Definition fld (rdata : list (list Z)) (i : nat) : outcome (list Z) :=
  match rdata !! i with Some s => Ret s | None => Oob end.

(** ** Operations: writing

    [res] and [offset]; the length of the response is limited to
    [max_res_len]. *)

Section Write.
Context `{EvpBase64}.
Variable max_res_len : Z.

(** [if ((size_t)offset + n > max_res_len) return -1;] *)
Definition need (n : Z) (s : list Z * Z) : outcome (list Z * Z) := fail_if max_res_len <? snd s + n ;; Ret s.

(** [res[offset++] = ...;] or [memcpy(&res[offset], ...); offset += ...;] *)
Definition out (octets : list Z) (s : list Z * Z) : outcome (list Z * Z) :=
  let '(res, offset) := s in
  let! res := wr_list res offset octets in
  Ret (res, u16 (offset + len octets)).

(** The same with an offset of type [size_t]. *)
Definition out_size (octets : list Z) (s : list Z * Z) : outcome (list Z * Z) :=
  let '(res, offset) := s in
  let! res := wr_list res offset octets in
  Ret (res, offset + len octets).

Definition out_name (name : list Z) (s : list Z * Z) : outcome (list Z * Z) :=
  let '(res, offset) := s in
  let! '(res, w) := write_uncompressed_name_ext res offset max_res_len name false in
  Ret (res, u16 (offset + w)).

Definition write_char_string (text : list Z) (s : list Z * Z) : outcome (list Z * Z) :=
  let n := if 255 <? len text then 255 else len text in
  let! s := need (1 + n) s in
  let! s := out [u8 n] s in
  out (take (Z.to_nat n) text) s.

Fixpoint write_char_strings (texts : list (list Z)) (s : list Z * Z) : outcome (list Z * Z) :=
  match texts with
  | [] => Ret s
  | text :: texts' => let! s := write_char_string text s in write_char_strings texts' s
  end.

(** [if (codes[i] > codes[j]) swap;] for [i] fixed and [j] going up. *)
Fixpoint exchange {A} (key : A -> Z) (x : A) (l : list A) : A * list A :=
  match l with
  | [] => (x, [])
  | y :: l' =>
      if key y <? key x then let '(m, t) := exchange key y l' in (m, x :: t)
      else let '(m, t) := exchange key x l' in (m, y :: t)
  end.

Fixpoint exchange_sort {A} (n : nat) (key : A -> Z) (l : list A) : list A :=
  match n, l with
  | S n', x :: l' => let '(m, t) := exchange key x l' in m :: exchange_sort n' key t
  | _, _ => l
  end.

Definition sort_by {A} (key : A -> Z) (l : list A) : list A := exchange_sort (length l) key l.

(** [bitmap[bit / 8] |= (1 << (7 - (bit % 8)));] *)
Definition set_bit (bitmap : list Z) (bit : Z) : outcome (list Z) :=
  let! b := rd bitmap (bit / 8) in
  wr bitmap (bit / 8) (u8 (Z.lor b (Z.shiftl 1 (7 - bit mod 8)))).

(** One window of the type bitmap. *)
Definition flush_window (window max_bit : Z) (bitmap : list Z) (s : list Z * Z) : outcome (list Z * Z) :=
  let map_len := max_bit / 8 + 1 in
  let! s := need (2 + map_len) s in
  let! s := out [u8 window; u8 map_len] s in
  let! octets := slice bitmap 0 map_len in
  out octets s.

(** The loop over the sorted codes; the current window is -1 before the first. *)
Fixpoint bitmap_codes (codes : list Z) (current_window max_bit : Z) (bitmap : list Z) (s : list Z * Z) : outcome (list Z * Z) :=
  match codes with
  | [] => if current_window =? -1 then Ret s else flush_window current_window max_bit bitmap s
  | code :: codes' =>
      if code =? 0 then bitmap_codes codes' current_window max_bit bitmap s
      else
        let window := code / 256 in
        let bit := code mod 256 in
        if window =? current_window then
          let! bitmap := set_bit bitmap bit in
          bitmap_codes codes' current_window (if max_bit <? bit then bit else max_bit) bitmap s
        else
          let! s := if current_window =? -1 then Ret s else flush_window current_window max_bit bitmap s in
          let! bitmap := set_bit (replicate 32 0) bit in
          bitmap_codes codes' window bit bitmap s
  end.

Definition encode_type_bitmap (types : list (list Z)) (s : list Z * Z) : outcome (list Z * Z) :=
  match types with
  | [] => Ret s
  | _ =>
      fail_if MAX_RDATA <? len types ;;
      bitmap_codes (sort_by id (map get_type_code types)) (-1) (-1) (replicate 32 0) s
  end.

Definition decode_b64_buffer (b64 : list Z) (s : list Z * Z) : outcome (list Z * Z) :=
  let b64_len := len b64 in
  fail_if (b64_len =? 0) || negb (b64_len mod 4 =? 0) ;;
  let! last := rd b64 (b64_len - 1) in
  let! last2 := rd b64 (b64_len - 2) in
  let padding := (if last =? 61 then 1 else 0) + (if last2 =? 61 then 1 else 0) in
  let exact := b64_len / 4 * 3 - padding in
  let! s := need exact s in
  let head := b64_len - 4 in
  let! s :=
    if 0 <? head then
      match evp_decode (take (Z.to_nat head) b64) with
      | Some d => fail_if negb (len d =? head / 4 * 3) ;; out_size d s
      | None => Fail
      end
    else Ret s in
  match evp_decode (drop (Z.to_nat head) b64) with
  | Some tail => fail_if negb (len tail =? 3) ;; out_size (take (Z.to_nat (3 - padding)) tail) s
  | None => Fail
  end.

(** The texts are put together in a buffer of their length. *)
Definition decode_concat_b64_rdata (fields : list (list Z)) (s : list Z * Z) : outcome (list Z * Z) :=
  fail_if max_res_len <? snd s ;;
  fail_if 87384 <? len (concat fields) ;;
  decode_b64_buffer (concat fields) s.

(** The text put together in [hex], 2048 characters with the NUL. *)
Fixpoint concat_hex (fields : list (list Z)) (hex : list Z) : outcome (list Z) :=
  match fields with
  | [] => Ret hex
  | f :: fields' =>
      fail_if 2048 <=? len hex + len f ;;
      let! hex := put_list 2048 hex f in
      let! _ := put 2048 hex 0 in
      concat_hex fields' hex
  end.

Definition decode_concat_hex_rdata (fields : list (list Z)) (s : list Z * Z) : outcome (list Z * Z) :=
  fail_if max_res_len <? snd s ;;
  let! hex := concat_hex fields [] in
  let! dec := hex_decode hex (max_res_len - snd s) in
  out_size dec s.

(** [size_t off = offset; if (decode_...(fields, res, max_res_len, &off) != 0) return -1; offset = off;] *)
Definition out_b64 (fields : list (list Z)) (s : list Z * Z) : outcome (list Z * Z) :=
  let! '(res, off) := decode_concat_b64_rdata fields s in Ret (res, u16 off).
Definition out_hex (fields : list (list Z)) (s : list Z * Z) : outcome (list Z * Z) :=
  let! '(res, off) := decode_concat_hex_rdata fields s in Ret (res, u16 off).

End Write.

(** ** Lemmas: readers of fields *)

Lemma fld_in rdata i : (i < length rdata)%nat -> exists f, fld rdata i = Ret f /\ f ∈ rdata.
Proof. intros Hi. unfold fld. destruct (lookup_lt_is_Some_2 rdata i Hi) as [f Hf]. rewrite Hf. exists f. split; [done |]. by eapply list_elem_of_lookup_2. Qed.

Lemma parse_num_defined max s : defined (parse_num max s).
Proof. unfold parse_num. case_if; [apply defined_Fail |]. destruct (strtol s). case_if; auto with kari. Qed.

Lemma parse_num_range max s v : parse_num max s = Ret v -> 0 <= v <= max.
Proof. unfold parse_num. case_if; [done |]. destruct (strtol s). case_if; [done |]. intros [= <-]. lia. Qed.

Lemma w16_bytes v : bytes (w16 v).
Proof. unfold w16. forall_list; apply u8_range. Qed.
Lemma w32_bytes v : bytes (w32 v).
Proof. unfold w32. forall_list; apply u8_range. Qed.
Lemma bytes_app a b : bytes a -> bytes b -> bytes (a ++ b).
Proof. intros. by apply Forall_app. Qed.
Lemma bytes_byte v : 0 <= v <= 255 -> bytes [v].
Proof. intros. repeat constructor; unfold isbyte; lia. Qed.
Lemma bytes_cons v l : isbyte v -> bytes l -> bytes (v :: l).
Proof. by constructor. Qed.
Lemma byte_le v : 0 <= v <= 255 -> isbyte v.
Proof. unfold isbyte. lia. Qed.

Create HintDb octets discriminated.
#[export] Hint Resolve w16_bytes w32_bytes bytes_app bytes_cons byte_le u8_range Forall_take Forall_drop Forall_nil_2 : octets.
#[export] Hint Extern 5 (isbyte _) => unfold isbyte; lia : octets.

Lemma nonempty_wf ls : Forall (fun l => bytes l /\ len l <= 63) ls -> Forall label_wf (List.filter nonempty ls).
Proof.
  induction 1 as [| l ls [Hb Hl] _ IH]; [constructor |]. cbn [List.filter]. unfold nonempty at 1. destruct (Z.ltb_spec 0 (len l)); [| done].
  constructor; [split; [done | lia] | done].
Qed.

Lemma hex_decode_spec hex cap : defined (hex_decode hex cap) /\ forall d, hex_decode hex cap = Ret d -> bytes d /\ len d <= Z.max 0 cap.
Proof.
  enough (forall o high, bytes o -> len o <= Z.max 0 cap -> defined (hex_decode_from hex high o cap) /\
    forall d, hex_decode_from hex high o cap = Ret d -> bytes d /\ len d <= Z.max 0 cap) as H by (apply H; [constructor | cbn; lia]).
  induction hex as [| h hex IH]; intros o high Hb Hl; cbn [hex_decode_from].
  - split; [apply defined_Ret | by intros d [= <-]].
  - case_if; [by apply IH |]. case_if; [by apply IH |]. destruct (Z.leb_spec cap (len o)); [split; [apply defined_Fail | done] |].
    rewrite put_in by done. cbn [obind]. apply IH; [auto with octets | rewrite length_app; cbn; lia].
Qed.

Lemma base32hex_decode_spec inp cap : defined (base32hex_decode inp cap) /\ forall d, base32hex_decode inp cap = Ret d -> bytes d /\ len d <= Z.max 0 cap.
Proof.
  enough (forall o buffer bits, bytes o -> len o <= Z.max 0 cap -> defined (base32hex_chars inp buffer bits o cap) /\
    forall d, base32hex_chars inp buffer bits o cap = Ret d -> bytes d /\ len d <= Z.max 0 cap) as H by (apply H; [constructor | cbn; lia]).
  induction inp as [| c inp IH]; intros o buffer bits Hb Hl; cbn [base32hex_chars].
  - split; [apply defined_Ret | by intros d [= <-]].
  - case_if; [split; [apply defined_Ret | by intros d [= <-]] |]. case_if; [by apply IH |]. case_if; [| by apply IH].
    destruct (Z.leb_spec cap (len o)); [split; [apply defined_Fail | done] |]. rewrite put_in by done. cbn [obind].
    apply IH; [| rewrite length_app; cbn; lia]. apply bytes_app; [done |]. change 255 with (Z.ones 8). rewrite Z.land_ones by lia. apply bytes_cons; [by apply Z.mod_pos_bound | constructor].
Qed.

Lemma get_type_code_range s : 0 <= get_type_code s <= 65535.
Proof.
  unfold get_type_code. case_if; [lia |]. unfold type_code_upper. destruct (map toupper s) as [| c u]; [lia |].
  destruct (find_name _ _) as [t |] eqn:Ef.
  - apply find_name_spec in Ef as (name & Hin & _). change (if c <=? 77 then mnemonics_A_M c else mnemonics_N_Z c) with (mnemonics c) in Hin.
    apply mnemonics_named in Hin. unfold named in Hin. assert (forallb (fun '(t, _) => (0 <=? t) && (t <=? 65535)) TYPE_NAMES = true) as H by by vm_compute.
    rewrite forallb_forall in H. apply list_elem_of_In, H in Hin. lia.
  - destruct (after_prefix _ _); [| lia]. destruct (strtol _). case_if; lia.
Qed.

Lemma set_bit_spec bitmap bit : bytes bitmap -> 0 <= bit < 8 * len bitmap ->
  exists b', set_bit bitmap bit = Ret b' /\ bytes b' /\ length b' = length bitmap.
Proof.
  intros Hb Hbit. unfold set_bit. assert (0 <= bit / 8 < len bitmap) as Hi by (Z.to_euclidean_division_equations; lia).
  destruct (rd_in bitmap (bit / 8) Hi) as [b ->]. cbn [obind]. rewrite wr_in by done. eexists. split; [done |]. split; [| apply length_insert].
  apply Forall_insert; [done | apply u8_range].
Qed.

(** ** Lemmas: writers

    A writer fails, or it adds octets inside the limit. *)

Section Good.
Context `{EvpBase64}.
Variable max : Z.

Definition st_ok (s : list Z * Z) : Prop := bytes (fst s) /\ 0 <= snd s <= max /\ max <= len (fst s) /\ max <= 65535.

(** [s'] is [s] with the octets [W] added. *)
Definition wrote (s : list Z * Z) (W : list Z) (s' : list Z * Z) : Prop :=
  bytes W /\ snd s + len W <= max /\ s' = (splice (fst s) (snd s) W, snd s + len W).

Definition good (s : list Z * Z) (o : outcome (list Z * Z)) : Prop := o = Fail \/ exists W s', o = Ret s' /\ wrote s W s'.

Lemma wrote_ok s W s' : st_ok s -> wrote s W s' -> st_ok s'.
Proof.
  intros (Hb & Ho & Hm & H6) (HW & Hl & ->). split_and!; cbn [fst snd]; [apply bytes_splice; done || lia | lia | lia | | done].
  rewrite length_splice; lia.
Qed.

Lemma wrote_nil s : st_ok s -> wrote s [] s.
Proof. intros (_ & Ho & _). destruct s as [res off]. cbn in *. split_and!; [constructor | cbn; lia | cbn; by rewrite splice_nil, Z.add_0_r]. Qed.

Lemma wrote_app s W s' V s'' : st_ok s -> wrote s W s' -> wrote s' V s'' -> wrote s (W ++ V) s''.
Proof.
  intros (_ & Ho & Hm & _) (HW & Hl & ->) (HV & Hl' & ->). cbn [fst snd] in *. split; [by apply bytes_app |]. rewrite length_app, Nat2Z.inj_add, Z.add_assoc.
  split; [done |]. by rewrite splice_app by lia.
Qed.

(** Octets that are skipped and written later. *)
Lemma wrote_skip s n : st_ok s -> 0 <= n -> snd s + n <= max -> exists X, len X = n /\ wrote s X (fst s, snd s + n).
Proof.
  intros (Hb & Ho & Hm & _) Hn Hl. set (X := take (Z.to_nat n) (drop (Z.to_nat (snd s)) (fst s))). assert (length X = Z.to_nat n) as HX by (unfold X; rewrite length_take, length_drop; lia).
  exists X. split; [lia |]. split_and!; [unfold X; by apply Forall_take, Forall_drop | lia |]. f_equal; [| lia]. unfold splice. rewrite HX. unfold X.
  rewrite <- drop_drop. by rewrite !take_drop.
Qed.

Lemma splice_patch buf i A X B Y : 0 <= i -> i + len (A ++ X ++ B) <= len buf -> length Y = length X ->
  splice (splice buf i (A ++ X ++ B)) (i + len A) Y = splice buf i (A ++ Y ++ B).
Proof.
  intros Hi Hl HY. unfold splice at 1 2. rewrite !length_app in Hl. rewrite Z2Nat.inj_add, Nat2Z.id by lia. set (n := Z.to_nat i).
  assert (length (take n buf ++ A) = (n + length A)%nat) as HA by (rewrite length_app, length_take; lia).
  replace (take n buf ++ (A ++ X ++ B) ++ drop (n + length (A ++ X ++ B)) buf) with ((take n buf ++ A) ++ X ++ B ++ drop (n + length (A ++ X ++ B)) buf) by (by rewrite <- !app_assoc).
  rewrite take_app_le, drop_app_ge, <- HA, firstn_all by lia. rewrite drop_app_ge by lia.
  replace (length (take n buf ++ A) + length Y - length (take n buf ++ A) - length X)%nat with 0%nat by lia. rewrite drop_0. unfold splice. fold n.
  rewrite <- !app_assoc. rewrite !length_app, HY. done.
Qed.

Lemma wrote_patch s A X B s' Y : st_ok s -> wrote s (A ++ X ++ B) s' -> length Y = length X -> bytes Y ->
  wr_list (fst s') (snd s + len A) Y = Ret (splice (fst s') (snd s + len A) Y) /\ wrote s (A ++ Y ++ B) (splice (fst s') (snd s + len A) Y, snd s').
Proof.
  intros (Hb & Ho & Hm & _) (HW & Hl & ->) HY HbY. cbn [fst snd]. rewrite !length_app in Hl.
  split; [apply wr_list_splice; [lia |]; rewrite length_splice by (rewrite ?length_app; lia); lia |].
  apply Forall_app in HW as [HA HW]. apply Forall_app in HW as [_ HB]. split; [auto with octets |]. rewrite splice_patch by (rewrite ?length_app; lia).
  rewrite !length_app, HY. split; [lia | done].
Qed.

Lemma good_fail s : good s Fail.
Proof. by left. Qed.

Lemma good_ret s : st_ok s -> good s (Ret s).
Proof. intros Hs. right. exists [], s. split; [done | by apply wrote_nil]. Qed.

Lemma good_bind s o k : st_ok s -> good s o -> (forall s', o = Ret s' -> st_ok s' -> good s' (k s')) -> good s (obind o k).
Proof.
  intros Hs [-> | (W & s' & -> & HW)] Hk; [by left |]. cbn [obind]. pose proof (wrote_ok s W s' Hs HW) as Hs'.
  destruct (Hk s' eq_refl Hs') as [-> | (V & s'' & -> & HV)]; [by left |]. right. exists (W ++ V), s''. split; [done |]. by eapply wrote_app.
Qed.

Lemma good_pure {A} s (o : outcome A) k : defined o -> (forall a, o = Ret a -> good s (k a)) -> good s (obind o k).
Proof. intros [H1 H2] Hk. destruct o; try done; [by apply Hk | by left]. Qed.

Lemma good_num {n} s f k : (forall v, 0 <= v <= n -> good s (k v)) -> good s (obind (parse_num n f) k).
Proof. intros Hk. apply good_pure; [apply parse_num_defined |]. intros v Hv. apply Hk. by eapply parse_num_range. Qed.

Lemma good_field rdata i s k : (i < length rdata)%nat -> Forall bytes rdata -> (forall f, bytes f -> good s (k f)) -> good s (obind (fld rdata i) k).
Proof. intros Hi Hr Hk. destruct (fld_in rdata i Hi) as (f & -> & Hf). apply Hk. rewrite Forall_forall in Hr. auto. Qed.

Lemma good_need s n k : (snd s + n <= max -> good s (k s)) -> good s (obind (need max n s) k).
Proof. intros Hk. unfold need. destruct (Z.ltb_spec max (snd s + n)); [by left |]. by apply Hk. Qed.

Lemma out_spec s d : st_ok s -> bytes d -> snd s + len d <= max -> exists s', out d s = Ret s' /\ wrote s d s'.
Proof.
  intros (Hb & Ho & Hm & H6) Hd Hl. destruct s as [res off]. cbn [fst snd] in *. unfold out. rewrite wr_list_splice by lia. cbn [obind].
  rewrite u16_small by lia. eexists. split; [done |]. by split_and!.
Qed.

Lemma out_size_spec s d : st_ok s -> snd s + len d <= max -> out_size d s = out d s.
Proof. intros (Hb & Ho & Hm & H6) Hl. destruct s as [res off]. cbn [fst snd] in *. unfold out_size, out. by rewrite wr_list_splice, u16_small by lia. Qed.

Lemma good_out s d : st_ok s -> bytes d -> snd s + len d <= max -> good s (out d s).
Proof. intros Hs Hd Hl. right. exists d. by apply out_spec. Qed.

Lemma good_out_bind s d k : st_ok s -> bytes d -> snd s + len d <= max ->
  (forall s', st_ok s' -> snd s' = snd s + len d -> good s' (k s')) -> good s (obind (out d s) k).
Proof.
  intros Hs Hd Hl Hk. apply good_bind; [done | by apply good_out |]. intros s' E Hs'. destruct (out_spec s d Hs Hd Hl) as (s1 & E1 & (_ & _ & E2)).
  apply Hk; [done |]. assert (s' = s1) as -> by congruence. by rewrite E2.
Qed.

Lemma out_name_spec s name : st_ok s -> bytes name ->
  out_name max name s = Fail \/ exists ls s', text_labels name = Ret ls /\ out_name max name s = Ret s' /\ wrote s (wire_name (List.filter nonempty ls)) s'.
Proof.
  intros (Hb & Ho & Hm & H6) Hn. destruct s as [res off]. cbn [fst snd] in *. unfold out_name. rewrite write_uncompressed_spec by done.
  destruct (text_labels name) as [ls | | |] eqn:El; [| by left | by destruct (proj1 (text_labels_defined name)) | by destruct (proj2 (text_labels_defined name))].
  unfold written_labels, cased. rewrite map_id. cbv zeta. case_if; [| by left]. cmp_prop. right. cbn [obind]. rewrite u16_small by lia.
  eexists ls, _. split_and!; [done | done |]. split_and!; [| done | done]. apply text_labels_wf in El; [| done]. by apply wire_name_bytes, nonempty_wf.
Qed.

Lemma good_name s name : st_ok s -> bytes name -> good s (out_name max name s).
Proof. intros Hs Hn. destruct (out_name_spec s name Hs Hn) as [-> | (ls & s' & _ & -> & Hw)]; [by left |]. right. eauto. Qed.

Lemma good_char_string s text : st_ok s -> bytes text -> good s (write_char_string max text s).
Proof.
  intros Hs Ht. unfold write_char_string. set (n := if 255 <? len text then 255 else len text). assert (0 <= n <= 255 /\ n <= len text) as [Hn Hl] by (unfold n; case_if; lia).
  apply good_need. intros Hroom. apply good_out_bind; [done | auto with octets | cbn; lia |]. intros s' Hs' Es. cbn in Es.
  apply good_out; [done | auto with octets |]. rewrite length_take. lia.
Qed.

Lemma good_window s window max_bit bitmap : st_ok s -> bytes bitmap -> 0 <= max_bit < 8 * len bitmap -> good s (flush_window max window max_bit bitmap s).
Proof.
  intros Hs Hb Hm. unfold flush_window. assert (0 <= max_bit / 8 < len bitmap) as Hi by (Z.to_euclidean_division_equations; lia).
  apply good_need. intros Hroom. apply good_out_bind; [done | auto with octets | cbn; lia |]. intros s' Hs' Es. cbn in Es.
  rewrite slice_in by lia. cbn [obind]. apply good_out; [done | auto with octets |]. rewrite length_take, length_drop. lia.
Qed.

Lemma good_codes codes : Forall (fun c => 0 <= c <= 65535) codes -> forall window max_bit bitmap s, st_ok s -> bytes bitmap -> length bitmap = 32%nat ->
  (window <> -1 -> 0 <= max_bit < 256) -> good s (bitmap_codes max codes window max_bit bitmap s).
Proof.
  induction 1 as [| code codes Hc _ IH]; intros window max_bit bitmap s Hs Hb Hl Hm; cbn [bitmap_codes].
  - destruct (Z.eqb_spec window (-1)); [by apply good_ret | apply good_window; [done | done |]; rewrite Hl; lia].
  - case_if; [by apply IH |]. assert (0 <= code mod 256 < 256) as Hbit by (by apply Z.mod_pos_bound).
    destruct (Z.eqb_spec (code / 256) window) as [Ew | Ew].
    + destruct (set_bit_spec bitmap (code mod 256)) as (b' & -> & Hb' & Hl'); [done | rewrite Hl; lia |]. cbn [obind].
      apply IH; [done | done | congruence |]. intros Hw. specialize (Hm Hw). case_if; lia.
    + apply good_bind; [done | |].
      * destruct (Z.eqb_spec window (-1)); [by apply good_ret | apply good_window; [done | done |]; rewrite Hl; lia].
      * intros s' _ Hs'. destruct (set_bit_spec (replicate 32 0) (code mod 256)) as (b' & -> & Hb' & Hl'); [bytes_lit | cbn; lia |].
        cbn [obind]. by apply IH.
Qed.

Lemma exchange_spec {A} (key : A -> Z) l : forall x, let '(m, t) := exchange key x l in
  Permutation (x :: l) (m :: t) /\ key m <= key x /\ Forall (fun y => key m <= key y) t.
Proof.
  induction l as [| y l IH]; intros x; cbn [exchange]; [split; [done | split; [lia | constructor]] |]. destruct (Z.ltb_spec (key y) (key x)) as [Hlt | Hge].
  - specialize (IH y). destruct (exchange key y l) as [m t]. destruct IH as (Hp & Hm & Hall). split_and!; [| lia | constructor; [lia | done]].
    rewrite Hp. apply perm_swap.
  - specialize (IH x). destruct (exchange key x l) as [m t]. destruct IH as (Hp & Hm & Hall). split_and!; [| lia | constructor; [lia | done]].
    etransitivity; [apply perm_swap |]. rewrite Hp. apply perm_swap.
Qed.

Lemma sort_by_spec {A} (key : A -> Z) l : Permutation l (sort_by key l) /\ StronglySorted (fun a b => key a <= key b) (sort_by key l).
Proof.
  unfold sort_by. assert (length l <= length l)%nat as Hn by lia. revert Hn. generalize (length l) at 2 3 4 as n. intros n. revert l.
  induction n as [| n IH]; intros [| x l] Hn; cbn [exchange_sort length] in *; [by split; [| apply SSorted_nil] | lia | by split; [| apply SSorted_nil] |].
  pose proof (exchange_spec key l x) as Hx. destruct (exchange key x l) as [m t]. destruct Hx as (Hp & Hm & Hall).
  destruct (IH t) as [Hp' Hs]; [apply Permutation_length in Hp; cbn in Hp; lia |]. split; [rewrite Hp; by constructor |].
  constructor; [done |]. by rewrite <- Hp'.
Qed.

(** Distinct keys come out in strict order. *)
Lemma sort_by_strict {A} (key : A -> Z) l : NoDup (map key l) -> StronglySorted Z.lt (map key (sort_by key l)).
Proof.
  intros Hnd. destruct (sort_by_spec key l) as [Hp Hs]. rewrite Hp in Hnd. revert Hnd. clear Hp.
  induction Hs as [| x l' Hs IH Hall]; intros Hnd; cbn in *; [constructor |]. apply NoDup_cons in Hnd as [Hx Hnd]. constructor; [by apply IH |].
  apply Forall_forall. intros k Hk. apply list_elem_of_fmap in Hk as (y & -> & Hy). rewrite Forall_forall in Hall. specialize (Hall y Hy).
  assert (key x <> key y); [| lia]. intros E. apply Hx. rewrite E. apply list_elem_of_fmap. by exists y.
Qed.

Lemma sort_by_Forall {A} (key : A -> Z) (P : A -> Prop) l : Forall P l -> Forall P (sort_by key l).
Proof. intros Hl. by rewrite <- (proj1 (sort_by_spec key l)). Qed.

Lemma good_bitmap types s : st_ok s -> good s (encode_type_bitmap max types s).
Proof.
  intros Hs. unfold encode_type_bitmap. destruct types as [| t types]; [by apply good_ret |]. case_if; [by left |].
  apply good_codes; [| done | bytes_lit | done | done]. apply sort_by_Forall, Forall_map, Forall_true. intros x. apply get_type_code_range.
Qed.

(** Writers with an offset of type [size_t]. *)
Lemma good_size_bind s d k : st_ok s -> bytes d -> snd s + len d <= max ->
  (forall s', st_ok s' -> snd s' = snd s + len d -> good s' (k s')) -> good s (obind (out_size d s) k).
Proof.
  intros Hs Hd Hl Hk. rewrite out_size_spec by done. by apply good_out_bind.
Qed.

Lemma good_b64_buffer b64 s : st_ok s -> good s (decode_b64_buffer max b64 s).
Proof.
  intros Hs. unfold decode_b64_buffer. case_if; [by left |]. assert (4 <= len b64 /\ len b64 mod 4 = 0) as [Hl Hm] by (Z.to_euclidean_division_equations; lia).
  destruct (rd_in b64 (len b64 - 1)) as [c1 ->]; [lia |]. destruct (rd_in b64 (len b64 - 2)) as [c2 ->]; [lia |]. cbn [obind].
  set (padding := (if c1 =? 61 then 1 else 0) + (if c2 =? 61 then 1 else 0)). assert (0 <= padding <= 2) as Hp by (unfold padding; case_ifs; lia).
  apply good_need. intros Hroom. set (head := len b64 - 4) in *.
  assert (forall s', st_ok s' -> snd s' = snd s + head / 4 * 3 -> good s' (match evp_decode (drop (Z.to_nat head) b64) with
    | Some tail => fail_if negb (len tail =? 3) ;; out_size (take (Z.to_nat (3 - padding)) tail) s' | None => Fail end)) as Htail.
  { intros s' Hs' Es. destruct (evp_decode _) as [d |] eqn:Ed; [| by left]. apply evp_decode_bytes in Ed. case_if; [by left |]. cmp_prop.
    assert (snd s' + len (take (Z.to_nat (3 - padding)) d) <= max) as Hfit by (rewrite length_take, Es; unfold head; Z.to_euclidean_division_equations; lia).
    rewrite out_size_spec by done. apply good_out; [done | auto with octets | done]. }
  destruct (Z.ltb_spec 0 head) as [Hh | Hh].
  - destruct (evp_decode (take _ b64)) as [d |] eqn:Ed; [| by left]. apply evp_decode_bytes in Ed. destruct (Z.eqb_spec (len d) (head / 4 * 3)) as [El | El]; [| by left].
    cbn [negb]. apply good_size_bind; [done | done | unfold head in *; Z.to_euclidean_division_equations; lia |]. intros s' Hs' Es. apply Htail; [done | congruence].
  - cbn [obind]. apply Htail; [done |]. unfold head in *. Z.to_euclidean_division_equations; lia.
Qed.

Lemma good_wrap s o : st_ok s -> good s o -> good s (let! '(res, off) := o in Ret (res, u16 off)).
Proof.
  intros (_ & Ho & _ & H6) [-> | (W & s' & -> & HW)]; [by left |]. right. exists W, s'. split; [| done]. destruct HW as (_ & Hl & ->). cbn [obind]. by rewrite u16_small by lia.
Qed.

Lemma good_b64 fields s : st_ok s -> good s (out_b64 max fields s).
Proof.
  intros Hs. apply good_wrap; [done |]. unfold decode_concat_b64_rdata. case_if; [by left |]. case_if; [by left |]. by apply good_b64_buffer.
Qed.

Lemma concat_hex_defined fields : forall hex, defined (concat_hex fields hex).
Proof.
  induction fields as [| f fields IH]; intros hex; cbn [concat_hex]; [apply defined_Ret |]. destruct (Z.leb_spec 2048 (len hex + len f)); [apply defined_Fail |].
  rewrite put_list_in by lia. cbn [obind]. rewrite put_in by (rewrite length_app; lia). cbn [obind]. apply IH.
Qed.

Lemma good_hex fields s : st_ok s -> good s (out_hex max fields s).
Proof.
  intros Hs. apply good_wrap; [done |]. unfold decode_concat_hex_rdata. case_if; [by left |]. apply good_pure; [apply concat_hex_defined |]. intros hex _.
  destruct (hex_decode_spec hex (max - snd s)) as [Hd Hr]. apply good_pure; [done |]. intros d [Hb Hl]%Hr.
  rewrite out_size_spec by (done || lia). apply good_out; [done | done | lia].
Qed.

End Good.

(** ** An instance: the base64 of RFC 4648 *)

Definition b64_alphabet : list Z := str "ABCDEFGHIJKLMNOPQRSTUVWXYZabcdefghijklmnopqrstuvwxyz0123456789+/".

Definition b64_value (c : Z) : option Z :=
  if c =? 61 then Some 0
  else match list_find (fun x => x = c) b64_alphabet with Some (i, _) => Some (Z.of_nat i) | None => None end.

Definition b64_octets (v : Z) : list Z := [u8 (Z.shiftr v 16); u8 (Z.shiftr v 8); u8 v].

Fixpoint b64_decode (s : list Z) : option (list Z) :=
  match s with
  | [] => Some []
  | a :: b :: c :: d :: s' =>
      match b64_value a, b64_value b, b64_value c, b64_value d, b64_decode s' with
      | Some a, Some b, Some c, Some d, Some rest => Some (b64_octets (a * 262144 + b * 4096 + c * 64 + d) ++ rest)
      | _, _, _, _, _ => None
      end
  | _ => None
  end.

Definition b64_char (v : Z) : Z := nth (Z.to_nat (v mod 64)) b64_alphabet 65.

Fixpoint b64_encode (d : list Z) : list Z :=
  match d with
  | x :: y :: z :: d' => let v := x * 65536 + y * 256 + z in map b64_char [v / 262144; v / 4096; v / 64; v] ++ b64_encode d'
  | [x; y] => let v := x * 65536 + y * 256 in map b64_char [v / 262144; v / 4096; v / 64] ++ [61]
  | [x] => let v := x * 65536 in map b64_char [v / 262144; v / 4096] ++ [61; 61]
  | [] => []
  end.

Lemma triples_ind (P : list Z -> Prop) :
  P [] -> (forall x, P [x]) -> (forall x y, P [x; y]) -> (forall x y z d, P d -> P (x :: y :: z :: d)) -> forall d, P d.
Proof.
  intros H0 H1 H2 H3 d. enough (forall n d, (length d <= n)%nat -> P d) by eauto. clear d.
  induction n as [| n IH]; intros [| x [| y [| z d]]] Hl; try done; cbn in Hl; [lia.. |]. apply H3, IH. lia.
Qed.

Lemma b64_encode_cstring d : cstring (b64_encode d).
Proof.
  assert (forall v, ischar (b64_char v)) as Hc.
  { intros v. unfold b64_char. assert (forallb (fun i => let c := nth (Z.to_nat i) b64_alphabet 65 in (0 <? c) && (c <? 256)) (seqZ 0 64) = true) as H by by vm_compute.
    pose proof (forallb_range _ 0 64 H (v mod 64) ltac:(apply Z.mod_pos_bound; lia)) as Hv. cbn beta zeta in Hv. unfold ischar. lia. }
  induction d as [| x | x y | x y z d IH] using triples_ind; cbn [b64_encode map app]; forall_list; try done; apply Hc.
Qed.

Lemma b64_decode_spec s d : b64_decode s = Some d -> bytes d /\ len d = len s / 4 * 3.
Proof.
  revert d. enough (forall n s d, (length s <= n)%nat -> b64_decode s = Some d -> bytes d /\ len d = len s / 4 * 3) by eauto.
  induction n as [| n IH]; intros [| a [| b [| c [| e s']]]] d Hl; try done; cbn [b64_decode length] in *; try lia; try (intros [= <-]; split; [constructor | done]).
  destruct (b64_value a), (b64_value b), (b64_value c), (b64_value e), (b64_decode s') as [rest |] eqn:E; try done. intros [= <-].
  destruct (IH s' rest ltac:(lia) E) as [Hb Hlen]. split; [auto with octets |]. cbn [length]. rewrite !Nat2Z.inj_succ, Hlen. Z.to_euclidean_division_equations; lia.
Qed.

Definition plain_EvpBase64 : EvpBase64 := {|
  evp_decode := b64_decode;
  evp_encode := b64_encode;
  evp_decode_bytes := fun s d E => proj1 (b64_decode_spec s d E);
  evp_decode_length := fun s d E => Z.eq_le_incl _ _ (proj2 (b64_decode_spec s d E));
  evp_encode_cstring := b64_encode_cstring
|}.

(** Lengths of the octets of numbers. *)
Ltac wlen := rewrite ?length_app, ?length_take, ?length_drop, ?length_replicate in *; cbn [length app w16 w32 fst snd] in *; lia.

(** One step through a writer: a guard, a field, a number, octets, a name. *)
Ltac wstep :=
  match goal with
  | |- good _ _ Fail => apply good_fail
  | |- good _ _ (Ret _) => apply good_ret; assumption
  | |- good _ _ (if ?c then _ else _) => destruct c eqn:?
  | |- good _ _ (obind (if ?c then _ else _) _) => destruct c eqn:?; cbn [obind]
  | |- good _ _ (obind (Ret _) _) => cbn [obind]
  | |- good _ _ (obind (fld _ _) _) => apply good_field; [lia | assumption | intros ? ?]
  | |- good _ _ (obind (parse_u8 _) _) => apply (good_num _ (n := 255)); intros ? ?
  | |- good _ _ (obind (parse_u16 _) _) => apply (good_num _ (n := 65535)); intros ? ?
  | |- good _ _ (obind (need _ _ _) _) => apply good_need; intros ?
  | |- good _ _ (obind (out _ _) _) => apply good_out_bind; [assumption | auto 20 with octets | wlen | intros ? ? ?]
  | |- good _ _ (out _ _) => apply good_out; [assumption | auto 20 with octets | wlen]
  | |- good _ _ (out_name _ _ _) => apply good_name; assumption
  | |- good _ _ (write_char_string _ _ _) => apply good_char_string; assumption
  | |- good _ _ (encode_type_bitmap _ _ _) => apply good_bitmap; assumption
  | |- good _ _ (out_b64 _ _ _) => apply good_b64; assumption
  | |- good _ _ (out_hex _ _ _) => apply good_hex; assumption
  | |- good _ _ (obind (hex_decode ?h ?c) _) =>
      let d := fresh "d" in let Hb := fresh "Hb" in let Hl := fresh "Hl" in
      apply good_pure; [apply hex_decode_spec | intros d [Hb Hl]%(proj2 (hex_decode_spec h c))]
  | |- good _ ?s (obind (_ ?s) _) => apply good_bind; [assumption | | intros ? _ ?]
  end.
Ltac wgood := repeat wstep.

End Record.
