(* ===== verification/Svcb.v ===== *)
(** * Service binding records (dns_wire.c, the SVCB and HTTPS case of serialize_dns_record)

    The parameters of a SVCB or HTTPS record: their text form is parsed, kept
    with their keys, checked against the mandatory list and written in the
    order of the keys (RFC 9460). *)

From S2P Require Import Prelude CLib Cidr NameText WireName Compress TypeName RdataText Record.

Module Svcb.
Import CLib Cidr NameText TypeName Record.

(** ** Operations: keys *)

(** [strncasecmp(s, prefix, n) == 0] with the length of [prefix] *)
Definition has_prefix (prefix s : list Z) : bool := strcaseeq (take (length prefix) s) prefix.

(** The names of the registered keys but "mandatory". *)
Definition named_key (s : list Z) : option Z :=
  if strcaseeq s (str "alpn") then Some 1
  else if strcaseeq s (str "no-default-alpn") then Some 2
  else if strcaseeq s (str "port") then Some 3
  else if strcaseeq s (str "ipv4hint") then Some 4
  else if strcaseeq s (str "ech") then Some 5
  else if strcaseeq s (str "ipv6hint") then Some 6
  else None.

(** The key of a parameter; [None] where the parameter is passed over. *)
Definition param_key (s : list Z) : outcome (option Z) :=
  if strcaseeq s (str "mandatory") then Ret (Some 0)
  else match named_key s with
       | Some k => Ret (Some k)
       | None =>
           if has_prefix (str "key") s then
             let '(kval, rest) := strtol (drop 3 s) in
             fail_if negb (streq rest []) || (kval <? 0) || (65535 <? kval) ;; Ret (Some kval)
           else Ret None
       end.

(** A key of the mandatory list. *)
Definition mandatory_key (s : list Z) : outcome Z :=
  match named_key s with
  | Some k => Ret k
  | None =>
      fail_if negb (has_prefix (str "key") s) ;;
      let '(kval, rest) := strtol (drop 3 s) in
      fail_if negb (streq rest []) || (kval <=? 0) || (65535 <=? kval) ;; Ret kval
  end.

(** ** Operations: values *)

(** The pieces of a text between commas; nothing follows a final comma. *)
Fixpoint comma_from (p tok : list Z) : list (list Z) :=
  match p with
  | [] => [tok]
  | c :: p' => if c =? 44 then tok :: match p' with [] => [] | _ => comma_from p' [] end else comma_from p' (tok ++ [c])
  end.
Definition comma_items (p : list Z) : list (list Z) := match p with [] => [] | _ => comma_from p [] end.

(** Without the double quotes around it. *)
Definition is_quoted (s : list Z) : bool :=
  (2 <=? len s) && bool_decide (head s = Some 34) && bool_decide (last s = Some 34).
Definition unquoted (s : list Z) : list Z := if is_quoted s then take (length s - 2) (drop 1 s) else s.

(** The values are put together in [val_wire]. *)
Definition VAL_WIRE : Z := 4096.

(** [if (val_len + n > sizeof(val_wire)) return -1;] and the octets. *)
Definition add_val (octets val_wire : list Z) : outcome (list Z) :=
  fail_if VAL_WIRE <? len val_wire + len octets ;; put_list VAL_WIRE val_wire octets.

Fixpoint mandatory_keys (items : list (list Z)) (mkeys : list Z) : outcome (list Z) :=
  match items with
  | [] => Ret mkeys
  | item :: items' =>
      fail_if 64 <=? len item ;;
      let! mkey := mandatory_key item in
      fail_if (mkey =? 0) || (64 <=? len mkeys) ;;
      fail_if bool_decide (mkey ∈ mkeys) ;;
      mandatory_keys items' (mkeys ++ [mkey])
  end.

Fixpoint alpn_ids (items : list (list Z)) (val_wire : list Z) : outcome (list Z) :=
  match items with
  | [] => Ret val_wire
  | item :: items' =>
      let id := unquoted item in
      fail_if 255 <? len id ;;
      let! val_wire := add_val (u8 (len id) :: id) val_wire in
      alpn_ids items' val_wire
  end.

Section Params.
Context `{InetPton, EvpBase64}.

Fixpoint hints (fam : Z) (items : list (list Z)) (val_wire : list Z) : outcome (list Z) :=
  match items with
  | [] => Ret val_wire
  | item :: items' =>
      fail_if 64 <=? len item ;;
      match inet_pton fam item with
      | Some a => let! val_wire := add_val a val_wire in hints fam items' val_wire
      | None => Fail
      end
  end.

Definition ech_value (val : list Z) : outcome (list Z) :=
  let blen := len val in
  fail_if (blen =? 0) || negb (blen mod 4 =? 0) ;;
  fail_if VAL_WIRE <? (blen + 3) / 4 * 3 ;;
  match evp_decode val with
  | None => Fail
  | Some d =>
      let! _ := put_list VAL_WIRE [] d in
      let! last := rd val (blen - 1) in
      let! last2 := rd val (blen - 2) in
      let pad := (if last =? 61 then 1 else 0) + (if last2 =? 61 then 1 else 0) in
      fail_if len d <? pad ;;
      Ret (take (Z.to_nat (len d - pad)) d)
  end.

(** The value in wire form, and the keys of a mandatory list. *)
Definition param_value (key : Z) (val : list Z) : outcome (list Z * option (list Z)) :=
  if key =? 0 then
    let! mkeys := mandatory_keys (comma_items val) [] in
    let! v := add_val (concat (map w16 (sort_by id mkeys))) [] in
    Ret (v, Some mkeys)
  else
    let! v :=
      if key =? 1 then alpn_ids (comma_items (unquoted val)) []
      else if key =? 3 then let! p := parse_u16 val in add_val (w16 p) []
      else if key =? 4 then hints AF_INET (comma_items val) []
      else if key =? 6 then hints AF_INET6 (comma_items val) []
      else if key =? 5 then ech_value val
      else add_val (unquoted val) [] in
    Ret (v, None).

(** ** Operations: the parameters *)

(** One field: the key and the value, if it is a parameter. *)
Definition split_param (param : list Z) : outcome (list Z * option (list Z)) :=
  match strchr 61 param with
  | None => Ret (take 63 param, None)
  | Some (key_str, val_str) =>
      if is_quoted val_str then fail_if 4096 <=? len val_str - 2 ;; Ret (take 63 key_str, Some (unquoted val_str))
      else Ret (take 63 key_str, Some val_str)
  end.

(** The parameters so far, with the size of their values, and the mandatory
    keys. [val_storage] has 8192 octets. *)
Fixpoint collect_params (fields : list (list Z)) (params : list (Z * list Z)) (storage : Z) (mandatory : option (list Z)) :
    outcome (list (Z * list Z) * option (list Z)) :=
  match fields with
  | [] => Ret (params, mandatory)
  | param :: fields' =>
      let! '(key_str, val_str) := split_param param in
      let! key := param_key key_str in
      match key with
      | None => collect_params fields' params storage mandatory
      | Some key =>
          fail_if key =? 65535 ;;
          fail_if 64 <=? len params ;;
          fail_if bool_decide (key ∈ map fst params) ;;
          let! '(val, refs) := match val_str with Some v => param_value key v | None => Ret ([], None) end in
          fail_if 8192 <? storage + len val ;;
          collect_params fields' (params ++ [(key, val)]) (u16 (storage + len val)) (match refs with Some r => Some r | None => mandatory end)
      end
  end.

Variable max_res_len : Z.

Fixpoint out_params (params : list (Z * list Z)) (s : list Z * Z) : outcome (list Z * Z) :=
  match params with
  | [] => Ret s
  | (key, val) :: params' =>
      let! s := need max_res_len (4 + len val) s in
      let! s := out (w16 key ++ w16 (len val)) s in
      let! s := out val s in
      out_params params' s
  end.

Definition rdata_svcb (rdata : list (list Z)) (s : list Z * Z) : outcome (list Z * Z) :=
  fail_if len rdata <? 2 ;;
  let! s := need max_res_len 2 s in
  let! f0 := fld rdata 0 in let! svc_prio := parse_u16 f0 in
  let! s := out (w16 svc_prio) s in
  let! f1 := fld rdata 1 in
  let! s := out_name max_res_len f1 s in
  let! '(params, mandatory) := collect_params (drop 2 rdata) [] 0 None in
  fail_if match mandatory with
          | Some refs => negb (forallb (fun m => bool_decide (m ∈ map fst params)) refs)
          | None => false
          end ;;
  out_params (sort_by fst params) s.

End Params.

(** ** Lemmas: the parameters are well formed *)

Lemma add_val_spec octets val : defined (add_val octets val) /\ forall v, add_val octets val = Ret v -> v = val ++ octets /\ len v <= VAL_WIRE.
Proof.
  unfold add_val. destruct (Z.ltb_spec VAL_WIRE (len val + len octets)); [split; [apply defined_Fail | done] |].
  rewrite put_list_in by done. split; [apply defined_Ret |]. intros v [= <-]. split; [done | rewrite length_app; lia].
Qed.

Lemma named_key_range s k : named_key s = Some k -> 1 <= k <= 6.
Proof. unfold named_key. case_ifs; intros [= <-]; lia. Qed.

Lemma param_key_spec s : defined (param_key s) /\ forall k, param_key s = Ret (Some k) -> 0 <= k <= 65535.
Proof.
  unfold param_key. case_if; [split; [apply defined_Ret | intros k [= <-]; lia] |].
  destruct (named_key s) as [k |] eqn:E'; [split; [apply defined_Ret | intros k' [= <-]; apply named_key_range in E'; lia] |].
  case_if; [| split; [apply defined_Ret | done]]. destruct (strtol _) as [kval rest]. case_if; [split; [apply defined_Fail | done] |].
  split; [apply defined_Ret | intros k [= <-]; lia].
Qed.

Lemma mandatory_key_spec s : defined (mandatory_key s) /\ forall k, mandatory_key s = Ret k -> 0 < k < 65535.
Proof.
  unfold mandatory_key. destruct (named_key s) as [k |] eqn:E'; [split; [apply defined_Ret | intros k' [= <-]; apply named_key_range in E'; lia] |].
  case_if; [split; [apply defined_Fail | done] |]. destruct (strtol _) as [kval rest]. case_if; [split; [apply defined_Fail | done] |].
  split; [apply defined_Ret | intros k [= <-]; lia].
Qed.

Lemma mandatory_keys_spec items : forall mkeys, NoDup mkeys -> Forall (fun k => 0 < k < 65535) mkeys ->
  defined (mandatory_keys items mkeys) /\ forall r, mandatory_keys items mkeys = Ret r -> NoDup r /\ Forall (fun k => 0 < k < 65535) r.
Proof.
  induction items as [| item items IH]; intros mkeys Hnd Hr; cbn [mandatory_keys]; [split; [apply defined_Ret | by intros r [= <-]] |].
  case_if; [split; [apply defined_Fail | done] |]. destruct (mandatory_key_spec item) as [Hd Hk].
  destruct (mandatory_key item) as [k | | |]; [| split; [apply defined_Fail | done] | by destruct Hd..]. cbn [obind]. specialize (Hk k eq_refl).
  case_if; [split; [apply defined_Fail | done] |]. case_bool_decide; [split; [apply defined_Fail | done] |].
  apply IH; [apply NoDup_app; split_and!; [done | set_solver | apply NoDup_singleton] | apply Forall_app; split; [done |]; constructor; [done | constructor]].
Qed.

(** A value never exceeds its buffer and is made of octets. *)
Definition value_ok (o : outcome (list Z)) : Prop := defined o /\ forall v, o = Ret v -> bytes v /\ len v <= VAL_WIRE.

Lemma value_fail : value_ok Fail.
Proof. split; [apply defined_Fail | done]. Qed.

Lemma value_add octets val : bytes octets -> bytes val -> value_ok (add_val octets val).
Proof. intros Ho Hv. destruct (add_val_spec octets val) as [Hd Hs]. split; [done |]. intros v [-> Hl]%Hs. split; [by apply bytes_app | done]. Qed.

Lemma value_bind {A} (o : outcome A) k : defined o -> (forall a, o = Ret a -> value_ok (k a)) -> value_ok (obind o k).
Proof. intros [H1 H2] Hk. destruct o; [by apply Hk | apply value_fail | done | done]. Qed.

Lemma unquoted_bytes s : bytes s -> bytes (unquoted s).
Proof. intros. unfold unquoted. case_if; auto with octets. Qed.

Lemma comma_from_bytes p : bytes p -> forall tok, bytes tok -> Forall bytes (comma_from p tok).
Proof.
  induction 1 as [| c p Hc Hp IH]; intros tok Ht; cbn [comma_from]; [by repeat constructor |]. case_if; [| apply IH; auto with octets].
  constructor; [done |]. destruct p; [constructor | apply IH; constructor].
Qed.

Lemma comma_items_bytes p : bytes p -> Forall bytes (comma_items p).
Proof. intros Hp. destruct p; [constructor | apply comma_from_bytes; [done | constructor]]. Qed.

Lemma alpn_ok items : Forall bytes items -> forall val, bytes val -> len val <= VAL_WIRE -> value_ok (alpn_ids items val).
Proof.
  induction 1 as [| item items Hi _ IH]; intros val Hv Hl; cbn [alpn_ids]; [split; [apply defined_Ret | by intros v [= <-]] |].
  case_if; [apply value_fail |]. apply unquoted_bytes in Hi. destruct (value_add (u8 (len (unquoted item)) :: unquoted item) val) as [Hd Hs]; [auto with octets | done |].
  apply value_bind; [done |]. intros v [Hv' Hl']%Hs. by apply IH.
Qed.

Section Values.
Context `{InetPton, EvpBase64}.

Lemma hints_ok fam items : fam = AF_INET \/ fam = AF_INET6 -> forall val, bytes val -> len val <= VAL_WIRE -> value_ok (hints fam items val).
Proof.
  intros Hf. induction items as [| item items IH]; intros val Hv Hl; cbn [hints]; [split; [apply defined_Ret | by intros v [= <-]] |].
  case_if; [apply value_fail |]. destruct (inet_pton fam item) as [a |] eqn:Ea; [| apply value_fail].
  assert (bytes a) as Ha by (destruct Hf as [-> | ->]; [by apply inet_pton_v4 in Ea as [_ ?] | by apply inet_pton_v6 in Ea as [_ ?]]).
  destruct (value_add a val Ha Hv) as [Hd Hs]. apply value_bind; [done |]. intros v [Hv' Hl']%Hs. by apply IH.
Qed.

Lemma ech_ok val : value_ok (ech_value val).
Proof.
  unfold ech_value. case_if; [apply value_fail |]. destruct (Z.ltb_spec VAL_WIRE ((len val + 3) / 4 * 3)); [apply value_fail |].
  assert (4 <= len val /\ len val mod 4 = 0) as [Hl Hm] by (Z.to_euclidean_division_equations; lia).
  destruct (evp_decode val) as [d |] eqn:Ed; [| apply value_fail]. pose proof (evp_decode_length _ _ Ed) as Hd. apply evp_decode_bytes in Ed.
  rewrite put_list_in by (cbn [length]; Z.to_euclidean_division_equations; lia). cbn [obind].
  destruct (rd_in val (len val - 1)) as [c1 ->]; [lia |]. destruct (rd_in val (len val - 2)) as [c2 ->]; [lia |]. cbn [obind].
  case_if; [apply value_fail |]. split; [apply defined_Ret |]. intros v [= <-]. split; [auto with octets |]. rewrite length_take.
  Z.to_euclidean_division_equations; lia.
Qed.

(** What a parameter may be: a mandatory list names each key once, none of
    them is "mandatory", and its value is that list in order. *)
Definition refs_ok (key : Z) (val : list Z) (refs : option (list Z)) : Prop :=
  match refs with
  | Some r => key = 0 /\ NoDup r /\ Forall (fun k => 0 < k < 65535) r /\ val = concat (map w16 (sort_by id r))
  | None => key <> 0
  end.

Lemma concat_w16_bytes l : bytes (concat (map w16 l)).
Proof. induction l as [| v l IH]; [constructor |]. cbn [map concat]. auto with octets. Qed.

Lemma param_value_spec key val : bytes val -> defined (param_value key val) /\
  forall v refs, param_value key val = Ret (v, refs) -> bytes v /\ len v <= VAL_WIRE /\ refs_ok key v refs.
Proof.
  intros Hv. unfold param_value. destruct (Z.eqb_spec key 0) as [-> | Hk].
  - destruct (mandatory_keys_spec (comma_items val) []) as [Hd Hs]; [constructor | constructor |].
    destruct (mandatory_keys _ _) as [mkeys | | |]; [| split; [apply defined_Fail | done] | by destruct Hd..]. cbn [obind].
    destruct (Hs mkeys eq_refl) as [Hnd Hr]. destruct (add_val_spec (concat (map w16 (sort_by id mkeys))) []) as [Hd' Hs'].
    destruct (add_val _ _) as [v | | |]; [| split; [apply defined_Fail | done] | by destruct Hd'..]. destruct (Hs' v eq_refl) as [-> Hl].
    split; [apply defined_Ret |]. intros v' refs [= <- <-]. split; [apply concat_w16_bytes |]. by split.
  - assert (value_ok (if key =? 1 then alpn_ids (comma_items (unquoted val)) []
      else if key =? 3 then let! p := parse_u16 val in add_val (w16 p) []
      else if key =? 4 then hints AF_INET (comma_items val) []
      else if key =? 6 then hints AF_INET6 (comma_items val) []
      else if key =? 5 then ech_value val
      else add_val (unquoted val) [])) as [Hd Hs].
    { case_if; [apply alpn_ok; [by apply comma_items_bytes, unquoted_bytes | constructor | done] |].
      case_if; [apply value_bind; [apply parse_num_defined |]; intros p _; apply value_add; auto with octets |].
      case_if; [apply hints_ok; [by left | constructor | done] |]. case_if; [apply hints_ok; [by right | constructor | done] |].
      case_if; [apply ech_ok |]. apply value_add; [by apply unquoted_bytes | constructor]. }
    destruct (if key =? 1 then _ else _) as [v | | |]; [| split; [apply defined_Fail | done] | by destruct Hd..]. cbn [obind].
    split; [apply defined_Ret |]. intros v' refs [= <- <-]. destruct (Hs v eq_refl). by split.
Qed.

Lemma split_param_spec param : bytes param -> defined (split_param param) /\
  forall k v, split_param param = Ret (k, Some v) -> bytes v.
Proof.
  intros Hp. unfold split_param. destruct (strchr 61 param) as [[key val] |] eqn:Es; [| split; [apply defined_Ret | done]].
  apply strchr_Some in Es as [-> _]. apply Forall_app in Hp as [_ Hp]. apply Forall_cons_1 in Hp as [_ Hp]. case_if.
  - case_if; [split; [apply defined_Fail | done] |]. split; [apply defined_Ret |]. intros k v [= _ <-]. by apply unquoted_bytes.
  - split; [apply defined_Ret |]. by intros k v [= _ <-].
Qed.

(** The parameters collected: distinct keys, values inside the storage, and
    the mandatory list with its value. *)
Definition params_ok (params : list (Z * list Z)) (mandatory : option (list Z)) : Prop :=
  NoDup (map fst params) /\ Forall (fun '(k, v) => 0 <= k < 65535 /\ bytes v /\ len v <= VAL_WIRE) params /\
  forall v, (0, v) ∈ params -> v = [] \/ exists r, mandatory = Some r /\ NoDup r /\ Forall (fun k => 0 < k < 65535) r /\ v = concat (map w16 (sort_by id r)).

Lemma collect_spec fields : Forall bytes fields -> forall params storage mandatory, params_ok params mandatory ->
  defined (collect_params fields params storage mandatory) /\
  forall ps m, collect_params fields params storage mandatory = Ret (ps, m) -> params_ok ps m.
Proof.
  induction 1 as [| param fields Hp _ IH]; intros params storage mandatory Hok; cbn [collect_params]; [split; [apply defined_Ret | by intros ps m [= <- <-]] |].
  destruct (split_param_spec param Hp) as [Hd Hs]. destruct (split_param param) as [[key_str val_str] | | |]; [| split; [apply defined_Fail | done] | by destruct Hd..].
  cbn [obind]. destruct (param_key_spec key_str) as [Hd' Hk]. destruct (param_key key_str) as [[key |] | | |]; [| by apply IH | split; [apply defined_Fail | done] | by destruct Hd'..].
  cbn [obind]. specialize (Hk key eq_refl). destruct (Z.eqb_spec key 65535) as [? | Hk']; [split; [apply defined_Fail | done] |].
  case_if; [split; [apply defined_Fail | done] |]. case_bool_decide as Hin; [split; [apply defined_Fail | done] |].
  assert (defined (match val_str with Some v => param_value key v | None => Ret ([], None) end) /\
    forall v refs, (match val_str with Some v => param_value key v | None => Ret ([], None) end) = Ret (v, refs) ->
      bytes v /\ len v <= VAL_WIRE /\ (refs_ok key v refs \/ v = [] /\ refs = None)) as [Hdv Hsv].
  { destruct val_str as [val |]; [| split; [apply defined_Ret |]; intros v refs [= <- <-]; split_and!; [constructor | done | by right]].
    destruct (param_value_spec key val (Hs _ _ eq_refl)) as [Hd1 Hs1]. split; [done |]. intros v refs (? & ? & ?)%Hs1. auto. }
  destruct (match val_str with Some _ => _ | None => _ end) as [[v refs] | | |]; [| split; [apply defined_Fail | done] | by destruct Hdv..].
  cbn [obind]. destruct (Hsv v refs eq_refl) as (Hbv & Hlv & Hrefs). case_if; [split; [apply defined_Fail | done] |].
  apply IH. destruct Hok as (Hnd & Hall & Hmand). split_and!.
  - rewrite map_app. apply NoDup_app. split_and!; [done | set_solver | apply NoDup_singleton].
  - apply Forall_app. split; [done |]. constructor; [split_and!; done || lia | constructor].
  - intros v' [Hv' | [= <- <-]%list_elem_of_singleton]%elem_of_app.
    + destruct refs as [r |]; [| by apply Hmand]. destruct Hrefs as [(-> & _) | [_ [=]]]. destruct Hin. apply list_elem_of_fmap. by exists (0, v').
    + destruct Hrefs as [Hr | [-> ->]]; [| by left]. destruct refs as [r |]; [| by destruct Hr]. right. exists r. by destruct Hr as (_ & ? & ? & ?).
Qed.

Variable max : Z.

Lemma good_params params : Forall (fun '(k, v) => 0 <= k < 65535 /\ bytes v /\ len v <= VAL_WIRE) params -> forall s, st_ok max s -> good max s (out_params max params s).
Proof. induction 1 as [| [k v] params (Hk & Hb & Hl) _ IH]; intros s Hs; cbn [out_params]; wgood. by apply IH. Qed.

Lemma params_ok_nil : params_ok [] None.
Proof. split_and!; [constructor | constructor |]. intros v Hv%not_elem_of_nil. done. Qed.

Lemma good_svcb rdata s : Forall bytes rdata -> st_ok max s -> good max s (rdata_svcb max rdata s).
Proof.
  intros Hr Hs. unfold rdata_svcb. wgood. destruct (collect_spec (drop 2 rdata) ltac:(by apply Forall_drop) [] 0 None params_ok_nil) as [Hd Hc].
  apply good_pure; [done |]. intros [params mandatory] (_ & Hall & _)%Hc. wstep; [apply good_fail |]. by apply good_params; [apply sort_by_Forall |].
Qed.

(** The octets of a parameter. *)
Definition param_wire (p : Z * list Z) : list Z := w16 (fst p) ++ w16 (len (snd p)) ++ snd p.

Lemma out_params_spec params : Forall (fun '(k, v) => 0 <= k < 65535 /\ bytes v /\ len v <= VAL_WIRE) params -> forall s, st_ok max s ->
  out_params max params s = Fail \/ exists s', out_params max params s = Ret s' /\ wrote max s (concat (map param_wire params)) s'.
Proof.
  induction 1 as [| [k v] params (Hk & Hb & Hl) _ IH]; intros s Hs; cbn [out_params map concat].
  { right. exists s. split; [done | by apply wrote_nil]. }
  unfold need. destruct (Z.ltb_spec max (snd s + (4 + len v))); [by left |]. cbn [obind].
  destruct (out_spec max s (w16 k ++ w16 (len v)) Hs) as (s1 & -> & Hw1); [auto with octets | wlen |]. pose proof (wrote_ok max _ _ _ Hs Hw1) as Hs1. cbn [obind].
  destruct (out_spec max s1 v Hs1 Hb) as (s2 & -> & Hw2); [destruct Hw1 as (_ & _ & ->); wlen |]. pose proof (wrote_ok max _ _ _ Hs1 Hw2) as Hs2. cbn [obind].
  destruct (IH s2 Hs2) as [-> | (s3 & -> & Hw3)]; [by left |]. right. exists s3. split; [done |]. unfold param_wire. cbn [fst snd]. rewrite !app_assoc.
  eapply wrote_app; [done | | exact Hw3]. by eapply wrote_app.
Qed.

(** The octets of the RDATA of a service binding record. *)
Definition svcb_wire (prio : Z) (target : list (list Z)) (params : list (Z * list Z)) : list Z :=
  w16 prio ++ wire_name target ++ concat (map param_wire params).

(** What a field of the record says of a parameter: its key, and its value in
    wire form. *)
Definition field_param (field : list Z) (p : Z * list Z) : Prop :=
  exists key val, split_param field = Ret (key, val) /\ param_key key = Ret (Some (fst p)) /\
    match val with Some text => exists refs, param_value (fst p) text = Ret (snd p, refs) | None => snd p = [] end.

(** The parameters are those of the fields, and every field with a key known
    to the server gives one. *)
Lemma collect_fields fields : forall params storage mandatory ps m, collect_params fields params storage mandatory = Ret (ps, m) ->
  exists found, ps = params ++ found /\ (forall p, p ∈ found -> exists f, f ∈ fields /\ field_param f p) /\
    forall f key val k, f ∈ fields -> split_param f = Ret (key, val) -> param_key key = Ret (Some k) -> k ∈ map fst found.
Proof.
  induction fields as [| f fields IH]; intros params storage mandatory ps m Hc; cbn [collect_params] in Hc.
  { injection Hc as <- <-. exists []. split_and!; [by rewrite app_nil_r | intros p Hp%not_elem_of_nil; done | intros f key val k Hf%not_elem_of_nil; done]. }
  destruct (split_param f) as [[key_str val_str] | | |] eqn:Es; [| done..]. cbn [obind] in Hc.
  destruct (param_key key_str) as [[key |] | | |] eqn:Ek; [| | done..]; cbn [obind] in Hc.
  - case_if_in Hc; [done |]. case_if_in Hc; [done |]. case_if_in Hc; [done |]. bind_inv Hc. destruct a as [v refs]. case_if_in Hc; [done |].
    apply IH in Hc as (found & -> & Hfrom & Hall). exists ((key, v) :: found). split; [by rewrite <- app_assoc |]. split.
    + intros p [-> | (g & Hg & Hp)%Hfrom]%elem_of_cons; [| exists g; split; [by right | done]].
      exists f. split; [by left |]. exists key_str, val_str. split_and!; [done | done |]. cbn [fst snd]. destruct val_str as [t |]; [by exists refs | congruence].
    + intros g gk gv k [-> | Hg]%elem_of_cons Hs Hk; [| right; by eapply Hall]. rewrite Es in Hs. injection Hs as <- <-. rewrite Ek in Hk. injection Hk as <-. by left.
  - apply IH in Hc as (found & -> & Hfrom & Hall). exists found. split; [done |]. split.
    + intros p (g & Hg & Hp)%Hfrom. exists g. split; [by right | done].
    + intros g gk gv k [-> | Hg]%elem_of_cons Hs Hk; [| by eapply Hall]. rewrite Es in Hs. injection Hs as <- <-. by rewrite Ek in Hk.
Qed.

(** A name that is written has labels of the right size and fits a name. *)
Lemma out_name_Ret s name s' : st_ok max s -> bytes name -> out_name max name s = Ret s' ->
  exists ls, text_labels name = Ret ls /\ wrote max s (wire_name (List.filter nonempty ls)) s' /\
    Forall label_wf (List.filter nonempty ls) /\ len (wire_name (List.filter nonempty ls)) <= 255.
Proof.
  intros Hs Hn Ho. destruct (out_name_spec max s name Hs Hn) as [E | (ls & s1 & El & E & Hw)]; rewrite E in Ho; [done |]. injection Ho as <-.
  exists ls. split_and!; [done | done | by apply nonempty_wf, (text_labels_wf name) |]. destruct Hs as (_ & ? & ? & _). destruct s as [res off]. cbn [fst snd] in *.
  unfold out_name in E. rewrite write_uncompressed_spec in E by done. rewrite El in E. cbv zeta in E. unfold written_labels, cased in E. rewrite map_id in E.
  case_if_in E; [cmp_prop; lia | done].
Qed.

Lemma rdata_svcb_Ret rdata s s' : Forall bytes rdata -> st_ok max s -> rdata_svcb max rdata s = Ret s' ->
  exists f0 f1 fields prio ls params mandatory, rdata = f0 :: f1 :: fields /\ parse_u16 f0 = Ret prio /\ text_labels f1 = Ret ls /\
    Forall label_wf (List.filter nonempty ls) /\ len (wire_name (List.filter nonempty ls)) <= 255 /\
    wrote max s (svcb_wire prio (List.filter nonempty ls) (sort_by fst params)) s' /\
    collect_params fields [] 0 None = Ret (params, mandatory) /\ params_ok params mandatory /\
    match mandatory with Some refs => Forall (fun m => m ∈ map fst params) refs | None => True end.
Proof.
  intros Hr Hs. unfold rdata_svcb. case_if; [done |]. unfold need. case_if; [done |]. cbn [obind]. cmp_prop.
  destruct rdata as [| f0 [| f1 fields]]; [by vm_compute in E.. |]. apply Forall_cons_1 in Hr as [Hf0 [Hf1 Hdrop]%Forall_cons_1].
  intros Hrun. change (fld (f0 :: f1 :: fields) 0) with (Ret f0) in Hrun. cbn [obind] in Hrun. bind_inv Hrun. rename a into prio, Ha into Hprio.
  destruct (out_spec max s (w16 prio) Hs) as (s1 & E1 & Hw1); [auto with octets | wlen |]. rewrite E1 in Hrun. pose proof (wrote_ok max _ _ _ Hs Hw1) as Hs1.
  change (fld (f0 :: f1 :: fields) 1) with (Ret f1) in Hrun. cbn [obind] in Hrun. bind_inv Hrun. rename a into s2.
  apply out_name_Ret in Ha as (ls & El & Hw2 & Hwf & Hfit); [| done | done]. pose proof (wrote_ok max _ _ _ Hs1 Hw2) as Hs2. cbn [drop] in Hrun.
  bind_inv Hrun. destruct a as [params mandatory]. destruct (collect_spec fields Hdrop [] 0 None params_ok_nil) as [_ Hc]. apply Hc in Ha as Hok.
  destruct (match mandatory with Some _ => _ | None => _ end) eqn:Em; [done |].
  destruct (out_params_spec (sort_by fst params)) with (s := s2) as [E4 | (s3 & E4 & Hw3)]; [apply sort_by_Forall, Hok | done | by rewrite E4 in Hrun |].
  rewrite E4 in Hrun. injection Hrun as <-. exists f0, f1, fields, prio, ls, params, mandatory. split_and!; try done.
  - unfold svcb_wire. eapply wrote_app; [done | done |]. by eapply wrote_app.
  - destruct mandatory as [refs |]; [| done]. apply negb_false_iff in Em. rewrite forallb_forall in Em. apply Forall_forall. intros m Hm%list_elem_of_In%Em.
    by apply bool_decide_eq_true in Hm.
Qed.

(** ** Properties *)

(** C32. A service binding record in text form, the fields a zone file gives,
    that is written carries what its fields say and satisfies the order and
    consistency rules of RFC 9460. The priority is the number of the first
    field. The target is the name of the second, with labels of 1 to 63 octets
    and at most 255 octets in all. The parameters are those of the other
    fields, each field with a known key giving one, with strictly increasing
    keys below 65535. A mandatory list names, in strictly increasing order, keys
    other than its own that the record carries. A record whose RDATA came in
    wire form, by transfer or update, is not read again: it is written as it is
    kept, and this says nothing of it. *)
Theorem svcb_wellformed rdata s s' : Forall bytes rdata -> st_ok max s -> rdata_svcb max rdata s = Ret s' ->
  exists f0 f1 fields prio ls target params, rdata = f0 :: f1 :: fields /\ parse_u16 f0 = Ret prio /\ 0 <= prio < 65536 /\
    text_labels f1 = Ret ls /\ target = List.filter nonempty ls /\ Forall label_wf target /\ len (wire_name target) <= 255 /\
    wrote max s (svcb_wire prio target params) s' /\
    (forall p, p ∈ params -> exists f, f ∈ fields /\ field_param f p) /\
    (forall f key val k, f ∈ fields -> split_param f = Ret (key, val) -> param_key key = Ret (Some k) -> k ∈ map fst params) /\
    StronglySorted Z.lt (map fst params) /\ Forall (fun '(k, v) => 0 <= k < 65535 /\ bytes v /\ len v < 65536) params /\
    forall v, (0, v) ∈ params -> exists refs, v = concat (map w16 refs) /\ StronglySorted Z.lt refs /\ Forall (fun k => k <> 0 /\ k ∈ map fst params) refs.
Proof.
  intros Hr Hs Hrun. destruct (rdata_svcb_Ret rdata s s' Hr Hs Hrun) as (f0 & f1 & fields & prio & ls & params & mandatory & Ef & Hprio & El & Hwf & Hfit & Hw & Hc & (Hnd & Hall & Hm) & Href).
  exists f0, f1, fields, prio, ls, (List.filter nonempty ls), (sort_by fst params). pose proof (proj1 (sort_by_spec fst params)) as Hp.
  apply collect_fields in Hc as (found & Ep & Hfrom & Hkeys). cbn [app] in Ep. subst found. pose proof (parse_num_range _ _ _ Hprio). split_and!; try (done || lia).
  - intros p Hin. apply Hfrom. by rewrite Hp.
  - intros f key val k Hf Hsp Hk. rewrite <- Hp. by eapply Hkeys.
  - by apply sort_by_strict.
  - apply sort_by_Forall. eapply Forall_impl; [exact Hall |]. intros [k v] (Hk & Hb & Hl). unfold VAL_WIRE in Hl. split_and!; done || lia.
  - intros v Hv. rewrite <- Hp in Hv. destruct (Hm v Hv) as [-> | (r & -> & Hndr & Hrr & ->)]; [exists []; split_and!; [done | constructor | constructor] |].
    exists (sort_by id r). split; [done |]. split; [pose proof (sort_by_strict id r) as Hst; rewrite !list_fmap_id in Hst; by apply Hst |].
    apply sort_by_Forall. rewrite Forall_forall in *. intros k Hk. specialize (Hrr k Hk). specialize (Href k Hk). rewrite Hp in Href. split; [lia | done].
Qed.

End Values.

Definition ex_svcb : list (list Z) := [str "1"; str "svc.example."; str "port=8443"; str "alpn=h2,h3"; str "mandatory=port,alpn"].

Lemma svcb_wellformed_witness :
  let H := plain_InetPton in let H0 := plain_EvpBase64 in let s := (replicate 64 0, 0) in
  exists s' target params, rdata_svcb 64 ex_svcb s = Ret s' /\ wrote 64 s (svcb_wire 1 target params) s' /\ target = [str "svc"; str "example"] /\
    3 ∈ map fst params /\ StronglySorted Z.lt (map fst params).
Proof.
  intros H H0 s. destruct (rdata_svcb 64 ex_svcb s) as [s' | | |] eqn:E; [| by vm_compute in E..].
  destruct (svcb_wellformed 64 ex_svcb s s') as (f0 & f1 & fields & prio & ls & target & params & Ef & Hprio & _ & El & -> & _ & _ & Hw & _ & Hk & Hs & _); [| | exact E |].
  - repeat (apply Forall_cons_2; [bytes_lit |]). apply Forall_nil_2.
  - split_and!; cbn [fst snd s]; [bytes_lit | lia | lia | vm_compute; congruence | lia].
  - injection Ef as <- <- <-. vm_compute in Hprio. injection Hprio as <-. vm_compute in El. injection El as <-.
    exists s', [str "svc"; str "example"], params. split_and!; [done | exact Hw | done | | done].
    by apply (Hk (str "port=8443") (str "port") (Some (str "8443")) 3); [left | vm_compute | vm_compute].
Defined.

End Svcb.
