(* ===== verification/RrWrite.v ===== *)
(** * Records on the wire: the writer (dns_wire.c, serialize_dns_record)

    One definition per group of record types of the [switch], the pre-parsed
    copies of the RDATA ([dns_record_preparse_cache]) and the whole record.
    The theorems: the writer stays inside the response and frames the record,
    and a pre-parsed record is written like one that is not. The RDATA of LOC
    records, whose coordinates are floating-point numbers, is a parameter. *)

From S2P Require Import Prelude CLib Cidr NameText WireName Compress TypeName RdataText Record Svcb.

Module RrWrite.
Import CLib Cidr NameText WireName Compress TypeName RdataText Record Svcb.

(** ** Operations: fields *)

Definition cert_type_to_num (s : list Z) : outcome Z :=
  if strcaseeq s (str "PKIX") then Ret 1
  else if strcaseeq s (str "SPKI") then Ret 2
  else if strcaseeq s (str "PGP") then Ret 3
  else if strcaseeq s (str "IPKIX") then Ret 4
  else if strcaseeq s (str "ISPKI") then Ret 5
  else if strcaseeq s (str "IPGP") then Ret 6
  else if strcaseeq s (str "ACPKIX") then Ret 7
  else if strcaseeq s (str "IACPKIX") then Ret 8
  else if strcaseeq s (str "URI") then Ret 253
  else if strcaseeq s (str "OID") then Ret 254
  else parse_u16 s.

(** A group of at most four hexadecimal digits: its value, the number of
    digits and what follows it. *)
Definition isxdigit (c : Z) : bool := isdigit c || ((65 <=? c) && (c <=? 70)) || ((97 <=? c) && (c <=? 102)).

Fixpoint nid_group (s : list Z) (val ndig : Z) : outcome (Z * Z * list Z) :=
  match s with
  | c :: s' =>
      if isxdigit c then
        fail_if 4 <? ndig + 1 ;; nid_group s' (u32 (Z.lor (Z.shiftl val 4) (hex_char_to_val c))) (ndig + 1)
      else Ret (val, ndig, s)
  | [] => Ret (val, ndig, [])
  end.

Fixpoint nid_groups (g : nat) (s : list Z) (node_id : list Z) : outcome (list Z) :=
  let! '(val, ndig, s) := nid_group s 0 0 in
  fail_if ndig =? 0 ;;
  let node_id := node_id ++ w16 val in
  match g with
  | O => fail_if negb (streq s []) ;; Ret node_id
  | S g' => match s with c :: s' => fail_if negb (c =? 58) ;; nid_groups g' s' node_id | [] => Fail end
  end.

(** The eight octets. *)
Definition parse_nid_identifier (s : list Z) : outcome (list Z) := nid_groups 3 s [].

Definition dns_wks_protocol_from_text (s : list Z) : outcome Z :=
  if strcaseeq s (str "TCP") then Ret 6 else if strcaseeq s (str "UDP") then Ret 17 else parse_u8 s.

Definition wks_services : list (string * Z * Z) :=
  [("tcpmux", 1, 0); ("echo", 7, 0); ("discard", 9, 0); ("systat", 11, 0); ("daytime", 13, 0); ("netstat", 15, 0);
   ("qotd", 17, 0); ("chargen", 19, 0); ("ftp-data", 20, 0); ("ftp", 21, 0); ("ssh", 22, 0); ("telnet", 23, 0);
   ("smtp", 25, 0); ("time", 37, 0); ("rlp", 39, 0); ("nameserver", 42, 0); ("whois", 43, 0); ("nicname", 43, 0);
   ("tacacs", 49, 0); ("domain", 53, 0); ("bootps", 67, 0); ("bootpc", 68, 0); ("tftp", 69, 0); ("gopher", 70, 0);
   ("finger", 79, 0); ("http", 80, 0); ("www", 80, 0); ("kerberos", 88, 0); ("supdup", 95, 0); ("hostname", 101, 0);
   ("iso-tsap", 102, 0); ("csnet-ns", 105, 0); ("rtelnet", 107, 0); ("pop2", 109, 0); ("pop3", 110, 0); ("sunrpc", 111, 0);
   ("auth", 113, 0); ("sftp", 115, 0); ("uucp-path", 117, 0); ("nntp", 119, 0); ("ntp", 123, 0); ("netbios-ns", 137, 0);
   ("netbios-dgm", 138, 0); ("netbios-ssn", 139, 0); ("imap", 143, 0); ("snmp", 161, 0); ("snmp-trap", 162, 0);
   ("bgp", 179, 0); ("irc", 194, 0); ("ldap", 389, 0); ("https", 443, 0); ("submissions", 465, 0); ("exec", 512, 6);
   ("biff", 512, 17); ("login", 513, 6); ("who", 513, 17); ("shell", 514, 6); ("syslog", 514, 17); ("printer", 515, 0);
   ("talk", 517, 0); ("ntalk", 518, 0); ("route", 520, 0); ("timed", 525, 0); ("uucp", 540, 0); ("klogin", 543, 0);
   ("kshell", 544, 0); ("submission", 587, 0); ("ldaps", 636, 0); ("rsync", 873, 0); ("ftps-data", 989, 0); ("ftps", 990, 0);
   ("telnets", 992, 0); ("imaps", 993, 0); ("pop3s", 995, 0)]%string.

Definition service_matches (s : list Z) (proto : Z) (e : string * Z * Z) : bool :=
  let '(name, _, p) := e in
  (if p =? 0 then (proto =? 6) || (proto =? 17) else p =? proto) && strcaseeq (str name) s.

Definition dns_wks_port_from_text (s : list Z) (proto : Z) : outcome Z :=
  match parse_u16 s with
  | Fail => match find (service_matches s proto) wks_services with Some (_, port, _) => Ret port | None => Fail end
  | o => o
  end.

(** The character strings of a TXT record: every field in pieces of at most
    255 octets, an empty field as an empty string. *)
Fixpoint text_pieces (fuel : nat) (text : list Z) : list Z :=
  match fuel, text with
  | S fuel', _ :: _ =>
      let chunk := if 255 <? len text then 255 else len text in
      u8 chunk :: take (Z.to_nat chunk) text ++ text_pieces fuel' (drop (Z.to_nat chunk) text)
  | _, _ => []
  end.

Definition txt_field (text : list Z) : list Z := match text with [] => [0] | _ => text_pieces (length text) text end.

Definition txt_required (rdata : list (list Z)) : Z :=
  foldl (fun required text =>
    let chunks := (len text + 254) / 255 in
    required + ((if chunks =? 0 then 1 else chunks) + len text)) 0 rdata.

Section Serialize.
Context `{InetPton, EvpBase64}.

(** The 16 octets of a LOC record, from its text fields. *)
Variable loc_rdata : list (list Z) -> option (list Z).

Variable max_res_len : Z.

Local Abbreviation need := (need max_res_len).
Local Abbreviation out_name := (out_name max_res_len).
Local Abbreviation write_char_string := (write_char_string max_res_len).
Local Abbreviation encode_type_bitmap := (encode_type_bitmap max_res_len).
Local Abbreviation decode_b64_buffer := (decode_b64_buffer max_res_len).
Local Abbreviation out_b64 := (out_b64 max_res_len).
Local Abbreviation out_hex := (out_hex max_res_len).

(** [if (inet_pton(fam, text, &addr) != 1) return -1; memcpy(...);] *)
Definition out_addr (fam : Z) (text : list Z) (s : list Z * Z) : outcome (list Z * Z) :=
  match inet_pton fam text with Some a => out a s | None => Fail end.

(** ** Operations: RDATA without compressed names *)

Definition rdata_a (fam size : Z) (rdata : list (list Z)) (s : list Z * Z) : outcome (list Z * Z) :=
  fail_if len rdata =? 0 ;;
  let! s := need size s in
  let! f0 := fld rdata 0 in
  out_addr fam f0 s.

(** NSAP-PTR and DNAME *)
Definition rdata_name (rdata : list (list Z)) (s : list Z * Z) : outcome (list Z * Z) :=
  fail_if len rdata =? 0 ;;
  let! f0 := fld rdata 0 in
  out_name f0 s.

Definition rdata_srv (rdata : list (list Z)) (s : list Z * Z) : outcome (list Z * Z) :=
  fail_if len rdata <? 4 ;;
  let! s := need 6 s in
  let! f0 := fld rdata 0 in let! prio := parse_u16 f0 in
  let! f1 := fld rdata 1 in let! weight := parse_u16 f1 in
  let! f2 := fld rdata 2 in let! port := parse_u16 f2 in
  let! target := fld rdata 3 in
  let! s := out (w16 prio ++ w16 weight ++ w16 port) s in
  out_name target s.

Definition rdata_isdn (rdata : list (list Z)) (s : list Z * Z) : outcome (list Z * Z) :=
  fail_if len rdata <? 1 ;;
  let! f0 := fld rdata 0 in
  let! s := write_char_string f0 s in
  if 1 <? len rdata then let! f1 := fld rdata 1 in write_char_string f1 s else Ret s.

(** X25, HINFO and GPOS: the first [n] fields. *)
Fixpoint char_fields (rdata : list (list Z)) (i n : nat) (s : list Z * Z) : outcome (list Z * Z) :=
  match n with
  | O => Ret s
  | S n' => let! f := fld rdata i in let! s := write_char_string f s in char_fields rdata (S i) n' s
  end.

Definition rdata_strings (n : nat) (rdata : list (list Z)) (s : list Z * Z) : outcome (list Z * Z) :=
  fail_if len rdata <? Z.of_nat n ;; char_fields rdata 0 n s.

Definition rdata_nsap (rdata : list (list Z)) (s : list Z * Z) : outcome (list Z * Z) :=
  fail_if len rdata <? 1 ;;
  let! f0 := fld rdata 0 in
  let! nsap_bin := hex_decode f0 255 in
  let! s := need (len nsap_bin) s in
  out nsap_bin s.

Definition rdata_loc (rdata : list (list Z)) (s : list Z * Z) : outcome (list Z * Z) :=
  let! s := need 16 s in
  match loc_rdata rdata with Some d => out d s | None => Fail end.

(** The address without its trailing zero octets. *)
Fixpoint trim_zeros (a : list Z) : list Z :=
  match a with
  | [] => []
  | b :: a' => match trim_zeros a' with [] => if b =? 0 then [] else [b] | t => b :: t end
  end.

(** One item of an APL record; [item_buf] holds 300 characters. *)
Definition apl_item (item : list Z) (s : list Z * Z) : outcome (list Z * Z) :=
  let p := take 299 item in
  let '(negate, p) := match p with c :: p' => if c =? 33 then (true, p') else (false, p) | [] => (false, p) end in
  match strchr 58 p with
  | None => Fail
  | Some (family, addr_prefix) =>
      let! afi := parse_u16 family in
      match strchr 47 addr_prefix with
      | None => Fail
      | Some (addr, bits) =>
          let! prefix := parse_u8 bits in
          let! addr_bytes :=
            if afi =? 1 then match inet_pton AF_INET addr with Some a => fail_if 32 <? prefix ;; Ret a | None => Fail end
            else if afi =? 2 then match inet_pton AF_INET6 addr with Some a => fail_if 128 <? prefix ;; Ret a | None => Fail end
            else Fail in
          let a := trim_zeros addr_bytes in
          let! s := need (4 + len a) s in
          let! s := out (w16 afi ++ [u8 prefix; u8 (Z.lor (if (negate : bool) then 128 else 0) (Z.land (len a) 127))]) s in
          out a s
      end
  end.

Fixpoint rdata_apl (rdata : list (list Z)) (s : list Z * Z) : outcome (list Z * Z) :=
  match rdata with
  | [] => Ret s
  | item :: rdata' => let! s := apl_item item s in rdata_apl rdata' s
  end.

Definition rdata_caa (rdata : list (list Z)) (s : list Z * Z) : outcome (list Z * Z) :=
  fail_if len rdata <? 3 ;;
  let! f0 := fld rdata 0 in let! flags := parse_u8 f0 in
  let! tag := fld rdata 1 in
  fail_if (len tag =? 0) || (255 <? len tag) ;;
  let! val := fld rdata 2 in
  let! s := need (2 + len tag + len val) s in
  let! s := out [flags; u8 (len tag)] s in
  let! s := out tag s in
  out val s.

Definition rdata_txt (rdata : list (list Z)) (s : list Z * Z) : outcome (list Z * Z) :=
  fail_if len rdata =? 0 ;;
  let! s := need (txt_required rdata) s in
  out (concat (map txt_field rdata)) s.

(** The gateway of an IPSECKEY record, or the relay of an AMTRELAY record. *)
Definition out_gateway (gw_type : Z) (text : list Z) (s : list Z * Z) : outcome (list Z * Z) :=
  if gw_type =? 1 then let! s := need 4 s in out_addr AF_INET text s
  else if gw_type =? 2 then let! s := need 16 s in out_addr AF_INET6 text s
  else if gw_type =? 3 then out_name text s
  else Fail.

Definition rdata_ipseckey (rdata : list (list Z)) (s : list Z * Z) : outcome (list Z * Z) :=
  fail_if len rdata <? 3 ;;
  let! f0 := fld rdata 0 in let! prec := parse_u8 f0 in
  let! f1 := fld rdata 1 in let! gw_type := parse_u8 f1 in
  let! f2 := fld rdata 2 in let! alg := parse_u8 f2 in
  let! s := need 3 s in
  let! s := out [prec; gw_type; alg] s in
  fail_if len rdata <? 4 ;;
  let! f3 := fld rdata 3 in
  let! s := if gw_type =? 0 then fail_if negb (streq f3 [46]) ;; Ret s else out_gateway gw_type f3 s in
  if 4 <? len rdata then out_b64 (drop 4 rdata) s else Ret s.

Definition rdata_amtrelay (rdata : list (list Z)) (s : list Z * Z) : outcome (list Z * Z) :=
  fail_if len rdata <? 3 ;;
  let! f0 := fld rdata 0 in let! prec := parse_u8 f0 in
  let! f1 := fld rdata 1 in let! dbit := parse_u8 f1 in
  let! f2 := fld rdata 2 in let! type := parse_u8 f2 in
  fail_if 1 <? dbit ;;
  let! s := need 2 s in
  let! s := out [prec; u8 (Z.lor (Z.shiftl dbit 7) (Z.land type 127))] s in
  if type =? 0 then Ret s
  else if (1 <=? type) && (type <=? 3) then fail_if len rdata <? 4 ;; let! f3 := fld rdata 3 in out_gateway type f3 s
  else Fail.

(** NID and L64 *)
Definition rdata_nid (rdata : list (list Z)) (s : list Z * Z) : outcome (list Z * Z) :=
  fail_if len rdata <? 2 ;;
  let! s := need 10 s in
  let! f0 := fld rdata 0 in let! pref := parse_u16 f0 in
  let! s := out (w16 pref) s in
  let! f1 := fld rdata 1 in let! nodeid := parse_nid_identifier f1 in
  out nodeid s.

Definition rdata_l32 (rdata : list (list Z)) (s : list Z * Z) : outcome (list Z * Z) :=
  fail_if len rdata <? 2 ;;
  let! s := need 6 s in
  let! f0 := fld rdata 0 in let! pref := parse_u16 f0 in
  let! s := out (w16 pref) s in
  let! f1 := fld rdata 1 in
  out_addr AF_INET f1 s.

Definition rdata_sshfp (rdata : list (list Z)) (s : list Z * Z) : outcome (list Z * Z) :=
  fail_if len rdata <? 3 ;;
  let! f0 := fld rdata 0 in let! alg := parse_u8 f0 in
  let! f1 := fld rdata 1 in let! fptype := parse_u8 f1 in
  let! s := need 2 s in
  let! s := out [alg; fptype] s in
  out_hex (drop 2 rdata) s.

(** The fixed part of an RRSIG record and its signer. *)
Definition out_rrsig (type_covered algorithm labels orig_ttl sig_exp sig_inc key_tag : Z) (signer : list Z) (s : list Z * Z) :
    outcome (list Z * Z) :=
  let! s := need 18 s in
  let! s := out (w16 type_covered ++ [algorithm; labels] ++ w32 orig_ttl ++ w32 sig_exp ++ w32 sig_inc ++ w16 key_tag) s in
  out_name signer s.

(** SIG and RRSIG; the fields come from the text or from the pre-parsed copy. *)
Definition rdata_rrsig (c : cache_t) (rdata : list (list Z)) (s : list Z * Z) : outcome (list Z * Z) :=
  fail_if len rdata <? 9 ;;
  match c with
  | CacheRrsig type_covered algorithm labels orig_ttl sig_exp sig_inc key_tag signer signature =>
      let! s := out_rrsig type_covered algorithm labels orig_ttl sig_exp sig_inc key_tag signer s in
      match signature with
      | Some sig => let! s := need (len sig) s in out sig s
      | None => out_b64 (drop 8 rdata) s
      end
  | NotCached =>
      let! f0 := fld rdata 0 in
      let! f1 := fld rdata 1 in let! algorithm := parse_u8 f1 in
      let! f2 := fld rdata 2 in let! labels := parse_u8 f2 in
      let! f3 := fld rdata 3 in
      let! f4 := fld rdata 4 in
      let! f5 := fld rdata 5 in
      let! f6 := fld rdata 6 in let! key_tag := parse_u16 f6 in
      let! signer := fld rdata 7 in
      let! s := out_rrsig (get_type_code f0) algorithm labels (strtoul32 f3) (parse_dnssec_time f4) (parse_dnssec_time f5) key_tag signer s in
      out_b64 (drop 8 rdata) s
  | _ => Oob
  end.

Definition rdata_nsec (rdata : list (list Z)) (s : list Z * Z) : outcome (list Z * Z) :=
  fail_if len rdata <? 2 ;;
  let! f0 := fld rdata 0 in
  let! s := out_name f0 s in
  encode_type_bitmap (drop 1 rdata) s.

(** The salt of NSEC3 and NSEC3PARAM. *)
Definition nsec3_salt (text : list Z) : outcome (list Z) := if streq text [45] then Ret [] else hex_decode text 255.

Definition rdata_nsec3 (rdata : list (list Z)) (s : list Z * Z) : outcome (list Z * Z) :=
  fail_if len rdata <? 5 ;;
  let! f0 := fld rdata 0 in let! halg := parse_u8 f0 in
  let! f1 := fld rdata 1 in let! flags := parse_u8 f1 in
  let! f2 := fld rdata 2 in let! iterations := parse_u16 f2 in
  let! f3 := fld rdata 3 in let! salt := nsec3_salt f3 in
  let! f4 := fld rdata 4 in let! next_hash := base32hex_decode f4 255 in
  let! s := need (5 + len salt + 1 + len next_hash) s in
  let! s := out ([halg; flags] ++ w16 iterations ++ [u8 (len salt)]) s in
  let! s := out salt s in
  let! s := out [u8 (len next_hash)] s in
  let! s := out next_hash s in
  encode_type_bitmap (drop 5 rdata) s.

Definition rdata_nsec3param (rdata : list (list Z)) (s : list Z * Z) : outcome (list Z * Z) :=
  fail_if len rdata <? 4 ;;
  let! f0 := fld rdata 0 in let! halg := parse_u8 f0 in
  let! f1 := fld rdata 1 in let! flags := parse_u8 f1 in
  let! f2 := fld rdata 2 in let! iterations := parse_u16 f2 in
  let! f3 := fld rdata 3 in let! salt := nsec3_salt f3 in
  let! s := need (5 + len salt) s in
  let! s := out ([halg; flags] ++ w16 iterations ++ [u8 (len salt)]) s in
  out salt s.

(** TLSA and SMIMEA *)
Definition rdata_tlsa (rdata : list (list Z)) (s : list Z * Z) : outcome (list Z * Z) :=
  fail_if len rdata <? 4 ;;
  let! f0 := fld rdata 0 in let! usage := parse_u8 f0 in
  let! f1 := fld rdata 1 in let! selector := parse_u8 f1 in
  let! f2 := fld rdata 2 in let! matching := parse_u8 f2 in
  let! s := need 3 s in
  let! s := out [usage; selector; matching] s in
  out_hex (drop 3 rdata) s.

Definition rdata_cert (rdata : list (list Z)) (s : list Z * Z) : outcome (list Z * Z) :=
  fail_if len rdata <? 4 ;;
  let! f0 := fld rdata 0 in let! cert_type := cert_type_to_num f0 in
  let! f1 := fld rdata 1 in let! key_tag := parse_u16 f1 in
  let! f2 := fld rdata 2 in let! algorithm := parse_u8 f2 in
  let! s := need 5 s in
  let! s := out (w16 cert_type ++ w16 key_tag ++ [algorithm]) s in
  out_b64 (drop 3 rdata) s.

Definition rdata_naptr (rdata : list (list Z)) (s : list Z * Z) : outcome (list Z * Z) :=
  fail_if len rdata <? 6 ;;
  let! s := need 4 s in
  let! f0 := fld rdata 0 in let! order := parse_u16 f0 in
  let! f1 := fld rdata 1 in let! pref := parse_u16 f1 in
  let! s := out (w16 order ++ w16 pref) s in
  let! s := char_fields rdata 2 3 s in
  let! f5 := fld rdata 5 in
  out_name f5 s.

(** The base64 tokens of a HIP record, up to a name or a padded token; the
    text so far is [pk] and the result is the text and the index behind it. *)
Fixpoint hip_tokens (tokens : list (list Z)) (r_idx : nat) (pk : list Z) : outcome (list Z * nat) :=
  match tokens with
  | [] => Ret (pk, r_idx)
  | t :: tokens' =>
      match strchr 46 t with
      | Some _ => Ret (pk, r_idx)
      | None =>
          fail_if 4096 <=? len pk + len t ;;
          let! pk := put_list 4096 pk t in
          let! _ := put 4096 pk 0 in
          if (0 <? len t) && (match last t with Some c => c =? 61 | None => false end) then Ret (pk, S r_idx)
          else hip_tokens tokens' (S r_idx) pk
      end
  end.

Fixpoint out_names (names : list (list Z)) (s : list Z * Z) : outcome (list Z * Z) :=
  match names with
  | [] => Ret s
  | n :: names' => let! s := out_name n s in out_names names' s
  end.

Definition rdata_hip (rdata : list (list Z)) (s : list Z * Z) : outcome (list Z * Z) :=
  fail_if len rdata <? 3 ;;
  let! f0 := fld rdata 0 in let! pk_alg := parse_u8 f0 in
  let! f1 := fld rdata 1 in let! hit := hex_decode f1 255 in
  let! '(pk_b64, r_idx) := hip_tokens (drop 2 rdata) 2 [] in
  fail_if (len pk_b64 =? 0) || negb (len pk_b64 mod 4 =? 0) ;;
  let! s := need (4 + len hit) s in
  let! s := out [u8 (len hit); pk_alg] s in
  let pk_len_offset := snd s in
  let s := (fst s, u16 (snd s + 2)) in
  let! s := out hit s in
  let offset := snd s in
  let! '(res, pk_end) := decode_b64_buffer pk_b64 s in
  fail_if 65535 <? pk_end - offset ;;
  let pk_len := u16 (pk_end - offset) in
  let! res := wr_list res pk_len_offset (w16 pk_len) in
  out_names (drop r_idx rdata) (res, u16 (offset + pk_len)).

Definition rdata_dsync (rdata : list (list Z)) (s : list Z * Z) : outcome (list Z * Z) :=
  fail_if len rdata <? 4 ;;
  let! f0 := fld rdata 0 in
  fail_if get_type_code f0 =? 0 ;;
  let! f1 := fld rdata 1 in
  let! scheme := if strcaseeq f1 (str "NOTIFY") then Ret 1 else parse_u8 f1 in
  let! f2 := fld rdata 2 in let! port := parse_u16 f2 in
  let! s := need 5 s in
  let! s := out (w16 (get_type_code f0) ++ [scheme] ++ w16 port) s in
  let! f3 := fld rdata 3 in
  out_name f3 s.

Definition rdata_uri (rdata : list (list Z)) (s : list Z * Z) : outcome (list Z * Z) :=
  fail_if len rdata <? 3 ;;
  let! f0 := fld rdata 0 in let! prio := parse_u16 f0 in
  let! f1 := fld rdata 1 in let! weight := parse_u16 f1 in
  let! target := fld rdata 2 in
  let! s := need (4 + len target) s in
  let! s := out (w16 prio ++ w16 weight) s in
  out target s.

Definition rdata_sink (rdata : list (list Z)) (s : list Z * Z) : outcome (list Z * Z) :=
  fail_if len rdata <? 3 ;;
  let! f0 := fld rdata 0 in let! meaning := parse_u8 f0 in
  let! f1 := fld rdata 1 in let! coding := parse_u8 f1 in
  let! f2 := fld rdata 2 in let! subcoding := parse_u8 f2 in
  let! s := need 3 s in
  let! s := out [meaning; coding; subcoding] s in
  if 3 <? len rdata then out_b64 (drop 3 rdata) s else Ret s.

(** OPENPGPKEY, DHCID, HHIT and BRID *)
Definition rdata_blob (rdata : list (list Z)) (s : list Z * Z) : outcome (list Z * Z) :=
  fail_if len rdata <? 1 ;; out_b64 rdata s.

(** EUI48 and EUI64 *)
Definition rdata_eui (expected : Z) (rdata : list (list Z)) (s : list Z * Z) : outcome (list Z * Z) :=
  fail_if len rdata <? 1 ;;
  let! s := need expected s in
  let! f0 := fld rdata 0 in
  let! eui := hex_decode f0 16 in
  fail_if negb (len eui =? expected) ;;
  out eui s.

Definition rdata_zonemd (rdata : list (list Z)) (s : list Z * Z) : outcome (list Z * Z) :=
  fail_if len rdata <? 4 ;;
  let! f0 := fld rdata 0 in
  let! f1 := fld rdata 1 in let! scheme := parse_u8 f1 in
  let! f2 := fld rdata 2 in let! halg := parse_u8 f2 in
  let! s := need 6 s in
  let! s := out (w32 (strtoul32 f0) ++ [scheme; halg]) s in
  out_hex (drop 3 rdata) s.

(** The ports of a WKS record: the bitmap and the largest port. *)
Fixpoint wks_ports (ports : list (list Z)) (proto : Z) (bitmap : list Z) (max_port : Z) : outcome (list Z * Z) :=
  match ports with
  | [] => Ret (bitmap, max_port)
  | p :: ports' =>
      let! port := dns_wks_port_from_text p proto in
      let! bitmap := set_bit bitmap port in
      wks_ports ports' proto bitmap (if max_port <? port then port else max_port)
  end.

Definition rdata_wks (rdata : list (list Z)) (s : list Z * Z) : outcome (list Z * Z) :=
  fail_if len rdata <? 2 ;;
  let! s := need 5 s in
  let! f0 := fld rdata 0 in
  let! s := out_addr AF_INET f0 s in
  let! f1 := fld rdata 1 in let! proto := dns_wks_protocol_from_text f1 in
  let! s := out [proto] s in
  let! '(bitmap, max_port) := wks_ports (drop 2 rdata) proto (replicate (Z.to_nat 8192) 0) (-1) in
  if 0 <=? max_port then
    let map_len := max_port / 8 + 1 in
    let! s := need map_len s in
    let! octets := slice bitmap 0 map_len in
    out octets s
  else Ret s.

(** RP and TALINK *)
Definition rdata_two_names (rdata : list (list Z)) (s : list Z * Z) : outcome (list Z * Z) :=
  fail_if len rdata <? 2 ;;
  let! f0 := fld rdata 0 in
  let! s := out_name f0 s in
  let! f1 := fld rdata 1 in
  out_name f1 s.

(** AFSDB, RT, KX and LP *)
Definition rdata_pref_name (rdata : list (list Z)) (s : list Z * Z) : outcome (list Z * Z) :=
  fail_if len rdata <? 2 ;;
  let! s := need 2 s in
  let! f0 := fld rdata 0 in let! pref := parse_u16 f0 in
  let! s := out (w16 pref) s in
  let! f1 := fld rdata 1 in
  out_name f1 s.

Definition rdata_px (rdata : list (list Z)) (s : list Z * Z) : outcome (list Z * Z) :=
  fail_if len rdata <? 3 ;;
  let! s := need 2 s in
  let! f0 := fld rdata 0 in let! pref := parse_u16 f0 in
  let! s := out (w16 pref) s in
  let! f1 := fld rdata 1 in
  let! s := out_name f1 s in
  let! f2 := fld rdata 2 in
  out_name f2 s.

Definition rdata_csync (rdata : list (list Z)) (s : list Z * Z) : outcome (list Z * Z) :=
  fail_if len rdata <? 3 ;;
  let! f0 := fld rdata 0 in
  let! f1 := fld rdata 1 in let! flags := parse_u16 f1 in
  let! s := need 6 s in
  let! s := out (w32 (strtoul32 f0) ++ w16 flags) s in
  encode_type_bitmap (drop 2 rdata) s.

(** A 16-bit and two 8-bit numbers, then the rest: hexadecimal in DS, CDS, TA
    and DLV records, base64 in DNSKEY, CDNSKEY, KEY and RKEY records. *)
Definition rdata_ds (b64 : bool) (rdata : list (list Z)) (s : list Z * Z) : outcome (list Z * Z) :=
  fail_if len rdata <? 4 ;;
  let! f0 := fld rdata 0 in let! keytag := parse_u16 f0 in
  let! f1 := fld rdata 1 in let! alg := parse_u8 f1 in
  let! f2 := fld rdata 2 in let! dtype := parse_u8 f2 in
  let! s := need 4 s in
  let! s := out (w16 keytag ++ [alg; dtype]) s in
  (if b64 then out_b64 else out_hex) (drop 3 rdata) s.

(** The types of an NXT record: the bitmap and the number of its octets. *)
Fixpoint nxt_types (types : list (list Z)) (bitmap : list Z) (max_byte : Z) : outcome (list Z * Z) :=
  match types with
  | [] => Ret (bitmap, max_byte)
  | t :: types' =>
      let tc := get_type_code t in
      if (tc =? 0) || (127 <? tc) then nxt_types types' bitmap max_byte
      else
        let! bitmap := set_bit bitmap tc in
        nxt_types types' bitmap (if max_byte <=? tc / 8 then tc / 8 + 1 else max_byte)
  end.

Definition rdata_nxt (rdata : list (list Z)) (s : list Z * Z) : outcome (list Z * Z) :=
  fail_if len rdata <? 1 ;;
  let! f0 := fld rdata 0 in
  let! s := out_name f0 s in
  let! '(bitmap, max_byte) := nxt_types (drop 1 rdata) (replicate 16 0) 0 in
  if 0 <? max_byte then
    let! s := need max_byte s in
    let! octets := slice bitmap 0 max_byte in
    out octets s
  else Ret s.

(** The digits of an ATMA record; [hi] is the pending nibble. *)
Fixpoint atma_digits (a : list Z) (e164 last_period : bool) (hi n : Z) (s : list Z * Z) : outcome (list Z * Z) :=
  match a with
  | [] => fail_if (n =? 0) || last_period || (0 <=? hi) ;; Ret s
  | c :: a' =>
      if c =? 46 then fail_if last_period ;; atma_digits a' e164 true hi n s
      else if e164 then
        fail_if (c <? 48) || (57 <? c) ;;
        let! s := need 1 s in
        let! s := out [u8 c] s in
        atma_digits a' e164 false hi (n + 1) s
      else
        let v := hex_char_to_val c in
        fail_if v <? 0 ;;
        if hi <? 0 then atma_digits a' e164 false v n s
        else
          let! s := need 1 s in
          let! s := out [u8 (Z.lor (Z.shiftl hi 4) v)] s in
          atma_digits a' e164 false (-1) (n + 1) s
  end.

Definition rdata_atma (rdata : list (list Z)) (s : list Z * Z) : outcome (list Z * Z) :=
  fail_if negb (len rdata =? 1) ;;
  let! a := fld rdata 0 in
  let '(e164, a) := match a with c :: a' => if c =? 43 then (true, a') else (false, a) | [] => (false, a) end in
  let! s := need 1 s in
  let! s := out [if (e164 : bool) then 1 else 0] s in
  atma_digits a e164 true (-1) 0 s.

Definition rdata_a6 (rdata : list (list Z)) (s : list Z * Z) : outcome (list Z * Z) :=
  fail_if len rdata <? 1 ;;
  let! f0 := fld rdata 0 in let! prefix_len := parse_u8 f0 in
  fail_if 128 <? prefix_len ;;
  let! s := need 1 s in
  let! s := out [prefix_len] s in
  let suffix_bytes := (128 - prefix_len + 7) / 8 in
  let! s :=
    if 0 <? suffix_bytes then
      fail_if len rdata <? 2 ;;
      let! f1 := fld rdata 1 in
      match inet_pton AF_INET6 f1 with
      | None => Fail
      | Some addr6 =>
          let! s := need suffix_bytes s in
          let! suffix := slice addr6 (16 - suffix_bytes) suffix_bytes in
          out suffix s
      end
    else Ret s in
  if 0 <? prefix_len then let! pfx_name := (if 3 <=? len rdata then fld rdata 2 else Ret [46]) in out_name pfx_name s
  else Ret s.

Definition rdata_doa (rdata : list (list Z)) (s : list Z * Z) : outcome (list Z * Z) :=
  fail_if len rdata <? 4 ;;
  let! f0 := fld rdata 0 in
  let! f1 := fld rdata 1 in
  let! f2 := fld rdata 2 in let! doa_loc := parse_u8 f2 in
  let! media := fld rdata 3 in
  fail_if 255 <? len media ;;
  let! s := need (10 + len media) s in
  let! s := out (w32 (strtoul32 f0) ++ w32 (strtoul32 f1) ++ [doa_loc; u8 (len media)]) s in
  let! s := out media s in
  if 5 <=? len rdata then out_b64 (drop 4 rdata) s else Ret s.

(** ** Operations: RDATA with names that may be compressed *)

(** A name in text form. *)
Definition out_text_name (name : list Z) (s : list Z * Z * option compress_ctx_t) : outcome (list Z * Z * option compress_ctx_t) :=
  let '(res, offset, ctx) := s in
  write_dns_name_str res offset name ctx max_res_len.

(** A pre-built name in wire form. *)
Definition out_wire_name (wire : list Z) (s : list Z * Z * option compress_ctx_t) : outcome (list Z * Z * option compress_ctx_t) :=
  let '(res, offset, ctx) := s in
  match ctx with
  | None =>
      let! s := need (len wire) (res, offset) in
      let! '(res, offset) := out wire s in
      Ret (res, offset, None)
  | Some c =>
      let! '(res, offset, c) := compress_name res offset wire c max_res_len in
      Ret (res, offset, Some c)
  end.

(** A writer that leaves the compression context alone. *)
Definition plain (f : list Z * Z -> outcome (list Z * Z)) (s : list Z * Z * option compress_ctx_t) : outcome (list Z * Z * option compress_ctx_t) :=
  let '(res, offset, ctx) := s in
  let! '(res, offset) := f (res, offset) in
  Ret (res, offset, ctx).

(** NS, MD, MF, CNAME, MB, MG, MR and PTR *)
Definition rdata_ns (c : cache_t) (rdata : list (list Z)) (s : list Z * Z * option compress_ctx_t) : outcome (list Z * Z * option compress_ctx_t) :=
  match c with
  | CacheName wire_name => out_wire_name wire_name s
  | NotCached =>
      fail_if len rdata =? 0 ;;
      let! f0 := fld rdata 0 in
      let! s := out_text_name f0 s in
      fail_if max_res_len <? snd (fst s) ;; Ret s
  | _ => Oob
  end.

Definition rdata_mx (c : cache_t) (rdata : list (list Z)) (s : list Z * Z * option compress_ctx_t) : outcome (list Z * Z * option compress_ctx_t) :=
  fail_if len rdata <? 2 ;;
  let! s := plain (need 2) s in
  match c with
  | CacheMx pref _ (Some target_wire) => let! s := plain (out (w16 pref)) s in out_wire_name target_wire s
  | CacheMx pref target None =>
      let! s := plain (out (w16 pref)) s in
      let! s := out_text_name target s in
      fail_if max_res_len <? snd (fst s) ;; Ret s
  | NotCached =>
      let! f0 := fld rdata 0 in let! pref := parse_u16 f0 in
      let! target := fld rdata 1 in
      let! s := plain (out (w16 pref)) s in
      let! s := out_text_name target s in
      fail_if max_res_len <? snd (fst s) ;; Ret s
  | _ => Oob
  end.

(** The five numbers of a SOA record. *)
Definition soa_numbers (rdata : list (list Z)) : outcome (list Z) :=
  let! f2 := fld rdata 2 in
  let! f3 := fld rdata 3 in let! n3 := parse_ttl_value (Some f3) in
  let! f4 := fld rdata 4 in let! n4 := parse_ttl_value (Some f4) in
  let! f5 := fld rdata 5 in let! n5 := parse_ttl_value (Some f5) in
  let! f6 := fld rdata 6 in let! n6 := parse_ttl_value (Some f6) in
  Ret [strtoul32 f2; n3; n4; n5; n6].

Definition out_soa (mname rname : list Z) (numbers : list Z) (s : list Z * Z * option compress_ctx_t) : outcome (list Z * Z * option compress_ctx_t) :=
  let! s := out_text_name mname s in
  let! s := out_text_name rname s in
  let! s := plain (need 20) s in
  plain (out (concat (map w32 numbers))) s.

Definition rdata_soa (c : cache_t) (rdata : list (list Z)) (s : list Z * Z * option compress_ctx_t) : outcome (list Z * Z * option compress_ctx_t) :=
  fail_if len rdata <? 7 ;;
  match c with
  | CacheSoa _ _ (Some (mname_wire, rname_wire)) numbers =>
      let! s :=
        match snd s with
        | None => let! s := plain (need (len mname_wire + len rname_wire + 20)) s in plain (fun s => let! s := out mname_wire s in out rname_wire s) s
        | Some _ => let! s := out_wire_name mname_wire s in let! s := out_wire_name rname_wire s in plain (need 20) s
        end in
      plain (out (concat (map w32 numbers))) s
  | CacheSoa mname rname None numbers => out_soa mname rname numbers s
  | NotCached =>
      let! mname := fld rdata 0 in
      let! rname := fld rdata 1 in
      let! numbers := soa_numbers rdata in
      out_soa mname rname numbers s
  | _ => Oob
  end.

Definition rdata_minfo (rdata : list (list Z)) (s : list Z * Z * option compress_ctx_t) : outcome (list Z * Z * option compress_ctx_t) :=
  fail_if len rdata <? 2 ;;
  let! f0 := fld rdata 0 in
  let! s := out_text_name f0 s in
  fail_if max_res_len <? snd (fst s) ;;
  let! f1 := fld rdata 1 in
  let! s := out_text_name f1 s in
  fail_if max_res_len <? snd (fst s) ;; Ret s.

(** The types whose uncompressed RDATA has a pre-parsed copy. *)
Definition rdata_cached (rec : dns_record_t) (s : list Z * Z) : outcome (list Z * Z) :=
  let rdata := rdata rec in
  match type_code rec with
  | 1 => match cache rec with
         | NotCached => rdata_a AF_INET 4 rdata s
         | CacheA a => fail_if len rdata =? 0 ;; let! s := need 4 s in out a s
         | _ => Oob
         end
  | 28 => match cache rec with
          | NotCached => rdata_a AF_INET6 16 rdata s
          | CacheAaaa a => fail_if len rdata =? 0 ;; let! s := need 16 s in out a s
          | _ => Oob
          end
  | 23 | 39 => match cache rec with
               | NotCached => rdata_name rdata s
               | CacheName w => let! s := need (len w) s in out w s
               | _ => Oob
               end
  | 33 => match cache rec with
          | NotCached => rdata_srv rdata s
          | CacheSrv prio weight port _ (Some target_wire) =>
              fail_if len rdata <? 4 ;;
              let! s := need 6 s in
              let! s := out (w16 prio ++ w16 weight ++ w16 port) s in
              let! s := need (len target_wire) s in
              out target_wire s
          | CacheSrv prio weight port target None =>
              fail_if len rdata <? 4 ;;
              let! s := need 6 s in
              let! s := out (w16 prio ++ w16 weight ++ w16 port) s in
              out_name target s
          | _ => Oob
          end
  | 56 | 261 | 262 | 16 | 99 | 258 => match cache rec with
          | NotCached => rdata_txt rdata s
          | CacheTxt w => let! s := need (len w) s in out w s
          | _ => Oob
          end
  | _ => rdata_rrsig (cache rec) rdata s
  end.

(** The other types of the [switch]. *)
Definition rdata_other (type : Z) (rdata : list (list Z)) (s : list Z * Z) : outcome (list Z * Z) :=
  match type with
  | 19 => rdata_strings 1 rdata s
  | 20 => rdata_isdn rdata s
  | 22 => rdata_nsap rdata s
  | 27 => rdata_strings 3 rdata s
  | 29 => rdata_loc rdata s
  | 42 => rdata_apl rdata s
  | 257 => rdata_caa rdata s
  | 45 => rdata_ipseckey rdata s
  | 260 => rdata_amtrelay rdata s
  | 104 | 106 => rdata_nid rdata s
  | 105 => rdata_l32 rdata s
  | 44 => rdata_sshfp rdata s
  | 47 => rdata_nsec rdata s
  | 50 => rdata_nsec3 rdata s
  | 52 | 53 => rdata_tlsa rdata s
  | 37 => rdata_cert rdata s
  | 35 => rdata_naptr rdata s
  | 51 => rdata_nsec3param rdata s
  | 55 => rdata_hip rdata s
  | 64 | 65 => rdata_svcb max_res_len rdata s
  | 66 => rdata_dsync rdata s
  | 13 => rdata_strings 2 rdata s
  | 256 => rdata_uri rdata s
  | 40 => rdata_sink rdata s
  | 61 | 49 | 67 | 68 => rdata_blob rdata s
  | 108 => rdata_eui 6 rdata s
  | 109 => rdata_eui 8 rdata s
  | 63 => rdata_zonemd rdata s
  | 11 => rdata_wks rdata s
  | 17 | 58 => rdata_two_names rdata s
  | 18 | 21 | 36 | 107 => rdata_pref_name rdata s
  | 26 => rdata_px rdata s
  | 62 => rdata_csync rdata s
  | 43 | 59 | 32768 | 32769 => rdata_ds false rdata s
  | 57 | 25 | 48 | 60 => rdata_ds true rdata s
  | 128 => Ret s
  | 30 => rdata_nxt rdata s
  | 34 => rdata_atma rdata s
  | 38 => rdata_a6 rdata s
  | 259 => rdata_doa rdata s
  | _ => Fail
  end.

Definition rdata_switch (rec : dns_record_t) (s : list Z * Z * option compress_ctx_t) : outcome (list Z * Z * option compress_ctx_t) :=
  match type_code rec with
  | 2 | 3 | 4 | 5 | 7 | 8 | 9 | 12 => rdata_ns (cache rec) (rdata rec) s
  | 15 => rdata_mx (cache rec) (rdata rec) s
  | 6 => rdata_soa (cache rec) (rdata rec) s
  | 14 => rdata_minfo (rdata rec) s
  | 1 | 28 | 23 | 39 | 33 | 56 | 261 | 262 | 16 | 99 | 258 | 24 | 46 => plain (rdata_cached rec) s
  | type => plain (rdata_other type (rdata rec)) s
  end.

(** RDATA kept in wire form. *)
Definition out_generic (rec : dns_record_t) (s : list Z * Z) : outcome (list Z * Z) :=
  if 0 <? generic_len rec then
    let! s := need (generic_len rec) s in
    match generic_data rec with
    | Some d => let! d := slice d 0 (generic_len rec) in out d s
    | None => Ret (fst s, u16 (snd s + generic_len rec))
    end
  else Ret s.

(** ** Operations: the record *)

Definition out_owner (rec : dns_record_t) (owner_name : option (list Z)) (s : list Z * Z * option compress_ctx_t) :
    outcome (list Z * Z * option compress_ctx_t) :=
  match owner_name, name_wire rec with
  | None, Some w => out_wire_name w s
  | None, None => out_text_name (name rec) s
  | Some n, _ => out_text_name n s
  end.

Definition wire_class (rec : dns_record_t) : Z :=
  if class_val rec =? 0 then
    if strcaseeq (class_str rec) (str "CH") then 3
    else if strcaseeq (class_str rec) (str "NONE") then 254
    else if strcaseeq (class_str rec) (str "ANY") then 255
    else 1
  else class_val rec.

Definition wire_ttl (rec : dns_record_t) (override_ttl : Z) : outcome Z :=
  let! t :=
    if (ttl_value rec =? 0) && negb (streq (ttl rec) []) then parse_ttl_value (Some (ttl rec)) else Ret (ttl_value rec) in
  let t := if 2147483647 <? t then 2147483647 else t in
  Ret (if negb (override_ttl =? 4294967295) && (override_ttl <? t) then override_ttl else t).

(** The response, [*offset_ptr] and the context after the call. *)
Definition serialize_dns_record (res : list Z) (offset : Z) (rec : dns_record_t) (ctx : option compress_ctx_t)
    (owner_name : option (list Z)) (override_ttl : Z) : outcome (list Z * Z * option compress_ctx_t) :=
  fail_if is_meta_rrtype (type_code rec) ;;
  fail_if max_res_len <? offset + DNS_HEADER_SIZE ;;
  let! s := out_owner rec owner_name (res, offset, ctx) in
  let! s := plain (need 10) s in
  let! t := wire_ttl rec override_ttl in
  let! s := plain (out (w16 (type_code rec) ++ w16 (wire_class rec) ++ w32 t)) s in
  let '(res, rdlength_idx, ctx) := s in
  let s := (res, u16 (rdlength_idx + 2), ctx) in
  let! '(res, offset, ctx) :=
    match generic_data rec with
    | Some _ => plain (out_generic rec) s
    | None => if class_val rec =? DNS_CLASS_KARIDNS_EXT then plain (out_generic rec) s else rdata_switch rec s
    end in
  let! res := wr_list res rdlength_idx (w16 (u16 (offset - rdlength_idx - 2))) in
  Ret (res, offset, ctx).

End Serialize.

(** ** Operations: the pre-parsed copies *)

Section Preparse.
Context `{InetPton, EvpBase64}.

(** [write_uncompressed_name_ext] into a buffer of 256 octets: the name in
    wire form. *)
Definition wire_of (name : list Z) : outcome (option (list Z)) :=
  match write_uncompressed_name_ext (replicate 256 0) 0 256 name false with
  | Ret (buf, w) => if 0 <? w then let! wire := slice buf 0 w in Ret (Some wire) else Ret None
  | Fail => Ret None
  | Oob => Oob
  | NoFuel => NoFuel
  end.

Definition preparse_rrsig (rec : dns_record_t) : outcome cache_t :=
  let rdata := rdata rec in
  let! f0 := fld rdata 0 in
  let! f1 := fld rdata 1 in
  let! f2 := fld rdata 2 in
  let! f3 := fld rdata 3 in
  let! f4 := fld rdata 4 in
  let! f5 := fld rdata 5 in
  let! f6 := fld rdata 6 in
  let! f7 := fld rdata 7 in
  orelse (parse_u8 f1) NotCached (fun algorithm =>
  orelse (parse_u8 f2) NotCached (fun labels =>
  orelse (parse_u16 f6) NotCached (fun key_tag =>
  let! signature :=
    match generic_data rec with
    | Some _ => Ret None
    | None =>
        let max_dec_len := len (concat (drop 8 rdata)) * 3 / 4 + 4 in
        match decode_concat_b64_rdata max_dec_len (drop 8 rdata) (replicate (Z.to_nat max_dec_len) 0, 0) with
        | Ret (dec_buf, real_len) => let! sig := slice dec_buf 0 real_len in Ret (Some sig)
        | Fail => Ret None
        | Oob => Oob
        | NoFuel => NoFuel
        end
    end in
  Ret (CacheRrsig (get_type_code f0) algorithm labels (strtoul32 f3) (parse_dnssec_time f4) (parse_dnssec_time f5) key_tag f7 signature)))).

Definition preparse_soa (rdata : list (list Z)) : outcome cache_t :=
  let! mname := fld rdata 0 in
  let! rname := fld rdata 1 in
  let! numbers := soa_numbers rdata in
  let! mw := wire_of mname in
  let! rw := wire_of rname in
  Ret (CacheSoa mname rname (match mw, rw with Some m, Some r => Some (m, r) | _, _ => None end) numbers).

Definition preparse_rdata (rec : dns_record_t) : outcome cache_t :=
  let rdata := rdata rec in
  match type_code rec with
  | 1 => let! f0 := fld rdata 0 in Ret (match inet_pton AF_INET f0 with Some a => CacheA a | None => NotCached end)
  | 28 => let! f0 := fld rdata 0 in Ret (match inet_pton AF_INET6 f0 with Some a => CacheAaaa a | None => NotCached end)
  | 2 | 3 | 4 | 5 | 7 | 8 | 9 | 12 | 23 | 39 =>
      let! f0 := fld rdata 0 in
      let! w := wire_of f0 in
      Ret (match w with Some w => CacheName w | None => NotCached end)
  | 56 | 261 | 262 | 16 | 99 | 258 =>
      let required := txt_required rdata in
      if (0 <? required) && (required <=? 65535) then
        let! txt_buf := put_list required [] (concat (map txt_field rdata)) in
        Ret (CacheTxt txt_buf)
      else Ret NotCached
  | 6 => if 7 <=? len rdata then preparse_soa rdata else Ret NotCached
  | 15 =>
      if 2 <=? len rdata then
        let! f0 := fld rdata 0 in
        let! f1 := fld rdata 1 in
        orelse (parse_u16 f0) NotCached (fun pref => let! w := wire_of f1 in Ret (CacheMx pref f1 w))
      else Ret NotCached
  | 24 | 46 => if 9 <=? len rdata then preparse_rrsig rec else Ret NotCached
  | 33 =>
      if 4 <=? len rdata then
        let! f0 := fld rdata 0 in
        let! f1 := fld rdata 1 in
        let! f2 := fld rdata 2 in
        let! f3 := fld rdata 3 in
        orelse (parse_u16 f0) NotCached (fun prio =>
        orelse (parse_u16 f1) NotCached (fun weight =>
        orelse (parse_u16 f2) NotCached (fun port => let! w := wire_of f3 in Ret (CacheSrv prio weight port f3 w))))
      else Ret NotCached
  | _ => Ret NotCached
  end.

Definition dns_record_preparse_cache (rec : dns_record_t) : outcome dns_record_t :=
  if len (rdata rec) =? 0 then Ret rec
  else
    let! nw := wire_of (name rec) in
    let! c := preparse_rdata rec in
    Ret (set_cache rec nw c).

End Preparse.

(** ** Lemmas: the writers stay inside the response *)

Lemma nid_group_spec s : forall val ndig, 0 <= ndig -> defined (nid_group s val ndig).
Proof.
  induction s as [| c s IH]; intros val ndig Hn; cbn [nid_group]; [apply defined_Ret |]. case_if; [| apply defined_Ret]. case_if; [apply defined_Fail |].
  apply IH. lia.
Qed.

Lemma nid_groups_spec g : forall s id, bytes id -> defined (nid_groups g s id) /\ forall r, nid_groups g s id = Ret r -> bytes r /\ length r = (length id + 2 * S g)%nat.
Proof.
  induction g as [| g IH]; intros s id Hb; cbn [nid_groups]; pose proof (nid_group_spec s 0 0 ltac:(lia)) as Hd;
    destruct (nid_group s 0 0) as [[[val ndig] s'] | | |]; try (by destruct Hd); try (split; [apply defined_Fail | done]); cbn [obind];
    (case_if; [split; [apply defined_Fail | done] |]).
  - case_if; [split; [apply defined_Fail | done] |]. split; [apply defined_Ret |]. intros r [= <-]. split; [auto with octets | rewrite length_app; cbn; lia].
  - destruct s' as [| c s']; [split; [apply defined_Fail | done] |]. case_if; [split; [apply defined_Fail | done] |].
    destruct (IH s' (id ++ w16 val)) as [Hd' Hr]; [auto with octets |]. split; [done |]. intros r [Hb' ->]%Hr. split; [done |]. rewrite length_app. cbn. lia.
Qed.

Lemma cert_type_defined s : defined (cert_type_to_num s).
Proof. unfold cert_type_to_num. case_ifs; try apply defined_Ret. apply parse_num_defined. Qed.

Lemma wks_port_spec s proto : defined (dns_wks_port_from_text s proto) /\ forall p, dns_wks_port_from_text s proto = Ret p -> 0 <= p <= 65535.
Proof.
  unfold dns_wks_port_from_text. pose proof (parse_num_defined 65535 s) as Hd. pose proof (parse_num_range 65535 s) as Hr. unfold parse_u16.
  destruct (parse_num 65535 s) as [v | | |]; [split; [apply defined_Ret | intros p [= <-]; by apply Hr] | | by destruct Hd..].
  destruct (find _ _) as [[[nm port] pr] |] eqn:Ef; [| split; [apply defined_Fail | done]]. split; [apply defined_Ret |]. intros p [= <-].
  apply find_some in Ef as [Hin _]. assert (forallb (fun '(_, port, _) => (0 <=? port) && (port <=? 65535)) wks_services = true) as H by by vm_compute.
  rewrite forallb_forall in H. apply H in Hin. lia.
Qed.

(** The pieces of a text field, and their size as the code counts it. *)
Lemma text_pieces_spec fuel : forall text, (length text <= fuel)%nat -> bytes text ->
  bytes (text_pieces fuel text) /\ len (text_pieces fuel text) = (len text + 254) / 255 + len text.
Proof.
  induction fuel as [| fuel IH]; intros [| c text] Hf Hb; cbn [text_pieces]; try (split; [constructor | done]); [cbn in Hf; lia |].
  set (t := c :: text) in *. set (chunk := if 255 <? len t then 255 else len t). assert (1 <= len t) as Ht by (unfold t; cbn; lia).
  assert (1 <= chunk <= 255 /\ chunk <= len t /\ (chunk < 255 -> chunk = len t)) as (Hc & Hl & Hs) by (unfold chunk; case_if; lia).
  destruct (IH (drop (Z.to_nat chunk) t)) as [Hb' Hlen]; [rewrite length_drop; lia | by apply Forall_drop |]. split.
  - apply bytes_cons; [apply u8_range |]. auto with octets.
  - cbn [length]. rewrite length_app, Nat2Z.inj_succ, Nat2Z.inj_add, Hlen, length_take, length_drop. rewrite Nat2Z.inj_min, Nat2Z.inj_sub, Z2Nat.id by lia.
    rewrite Z.min_l by lia. Z.to_euclidean_division_equations; lia.
Qed.

Lemma txt_wire_spec rdata : Forall bytes rdata -> bytes (concat (map txt_field rdata)) /\ txt_required rdata = len (concat (map txt_field rdata)).
Proof.
  intros Hr. assert (forall text, bytes text -> bytes (txt_field text) /\
    len (txt_field text) = (if (len text + 254) / 255 =? 0 then 1 else (len text + 254) / 255) + len text) as Hf.
  { intros [| c text] Ht; [split; [bytes_lit | done] |]. unfold txt_field. destruct (text_pieces_spec (length (c :: text)) (c :: text)) as [Hb ->]; [done | done |].
    split; [done |]. rewrite (proj2 (Z.eqb_neq _ 0)); [done |]. cbn [length]. Z.to_euclidean_division_equations; lia. }
  assert (forall n, foldl (fun required text => let chunks := (len text + 254) / 255 in required + ((if chunks =? 0 then 1 else chunks) + len text)) n rdata =
    n + len (concat (map txt_field rdata))) as Hlen.
  { induction Hr as [| text rdata Ht _ IH]; intros n; cbn [foldl map concat]; [cbn; lia |]. rewrite IH, length_app, Nat2Z.inj_add, (proj2 (Hf text Ht)). lia. }
  split; [| unfold txt_required; rewrite Hlen; lia]. clear Hlen. induction Hr as [| text rdata Ht _ IH]; [constructor |]. cbn [map concat]. apply bytes_app; [by apply Hf | done].
Qed.

Section Safe.
Context `{InetPton, EvpBase64}.
Variable loc_rdata : list (list Z) -> option (list Z).
Hypothesis loc_rdata_octets : forall rdata d, loc_rdata rdata = Some d -> bytes d /\ length d = 16%nat.
Variable max : Z.
Variable rdata : list (list Z).
Hypothesis Hrdata : Forall bytes rdata.

Lemma good_addr fam text s : fam = AF_INET /\ snd s + 4 <= max \/ fam = AF_INET6 /\ snd s + 16 <= max -> st_ok max s -> good max s (out_addr fam text s).
Proof.
  intros Hf Hs. unfold out_addr. destruct (inet_pton fam text) as [a |] eqn:Ea; [| apply good_fail].
  destruct Hf as [[-> Hr] | [-> Hr]]; [apply inet_pton_v4 in Ea as [Hl Hb] | apply inet_pton_v6 in Ea as [Hl Hb]]; apply good_out; done || (rewrite Hl; lia).
Qed.

Lemma good_a fam size s : fam = AF_INET /\ size = 4 \/ fam = AF_INET6 /\ size = 16 -> st_ok max s -> good max s (rdata_a max fam size rdata s).
Proof. intros Hf Hs. unfold rdata_a. wgood. apply good_addr; [| done]. destruct Hf as [[-> ->] | [-> ->]]; auto. Qed.

Lemma good_rname s : st_ok max s -> good max s (rdata_name max rdata s).
Proof. intros Hs. unfold rdata_name. wgood. Qed.

Lemma good_srv s : st_ok max s -> good max s (rdata_srv max rdata s).
Proof. intros Hs. unfold rdata_srv. wgood. Qed.

Lemma good_isdn s : st_ok max s -> good max s (rdata_isdn max rdata s).
Proof. intros Hs. unfold rdata_isdn. wgood. Qed.

Lemma good_fields n : forall i s, (i + n <= length rdata)%nat -> st_ok max s -> good max s (char_fields max rdata i n s).
Proof. induction n as [| n IH]; intros i s Hi Hs; cbn [char_fields]; wgood. apply IH; [lia | done]. Qed.

Lemma good_strings n s : st_ok max s -> good max s (rdata_strings max n rdata s).
Proof. intros Hs. unfold rdata_strings. wgood. apply good_fields; [lia | done]. Qed.

Lemma good_nsap s : st_ok max s -> good max s (rdata_nsap max rdata s).
Proof. intros Hs. unfold rdata_nsap. wgood. Qed.

Lemma good_loc s : st_ok max s -> good max s (rdata_loc loc_rdata max rdata s).
Proof. intros Hs. unfold rdata_loc. wgood. destruct (loc_rdata rdata) as [d |] eqn:E; [| wgood]. apply loc_rdata_octets in E as [Hb Hl]. apply good_out; [done | done | lia]. Qed.

Lemma trim_zeros_spec a : bytes a -> bytes (trim_zeros a) /\ len (trim_zeros a) <= len a.
Proof.
  induction 1 as [| b a Hb _ [IHb IHl]]; [done |]. cbn [trim_zeros]. destruct (trim_zeros a) as [| x t]; [case_if; (split; [auto with octets | cbn in *; lia]) |].
  split; [by constructor | cbn [length] in *; lia].
Qed.

Lemma good_apl_item item s : st_ok max s -> good max s (apl_item max item s).
Proof.
  intros Hs. unfold apl_item. destruct (match take 299 item with [] => _ | _ => _ end) as [negate p]. destruct (strchr 58 p) as [[family addr_prefix] |]; [| wgood].
  wstep. destruct (strchr 47 addr_prefix) as [[addr bits] |]; [| wgood]. wstep.
  apply good_pure; [case_ifs; try (by auto with kari); destruct (inet_pton _ _); case_ifs; auto with kari |]. intros a Ea.
  assert (bytes a) as Ha.
  { case_if_in Ea; [| case_if_in Ea; [| done]]; destruct (inet_pton _ addr) as [x |] eqn:Ex; try done; (case_if_in Ea; [done |]); injection Ea as <-;
      [by apply inet_pton_v4 in Ex as [_ ?] | by apply inet_pton_v6 in Ex as [_ ?]]. }
  apply trim_zeros_spec in Ha as [Ha _]. wgood.
Qed.

Lemma good_apl s : st_ok max s -> good max s (rdata_apl max rdata s).
Proof. clear Hrdata. revert s. induction rdata as [| item l IH]; intros s Hs; cbn [rdata_apl]; wgood; [by apply good_apl_item | by apply IH]. Qed.

Lemma good_caa s : st_ok max s -> good max s (rdata_caa max rdata s).
Proof. intros Hs. unfold rdata_caa. wgood. Qed.

Lemma good_txt s : st_ok max s -> good max s (rdata_txt max rdata s).
Proof. intros Hs. unfold rdata_txt. destruct (txt_wire_spec rdata Hrdata) as [Hb ->]. wgood. Qed.

Lemma good_gateway gw text s : bytes text -> st_ok max s -> good max s (out_gateway max gw text s).
Proof. intros Ht Hs. unfold out_gateway. wgood; apply good_addr; auto. Qed.

Lemma good_ipseckey s : st_ok max s -> good max s (rdata_ipseckey max rdata s).
Proof. intros Hs. unfold rdata_ipseckey. wgood; by apply good_gateway. Qed.

Lemma good_amtrelay s : st_ok max s -> good max s (rdata_amtrelay max rdata s).
Proof. intros Hs. unfold rdata_amtrelay. wgood; by apply good_gateway. Qed.

Lemma good_nid s : st_ok max s -> good max s (rdata_nid max rdata s).
Proof.
  intros Hs. unfold rdata_nid. wgood. destruct (nid_groups_spec 3 f0 []) as [Hd Hr]; [constructor |]. apply good_pure; [done |].
  intros r [Hb Hl]%Hr. cbn in Hl. apply good_out; [done | done | wlen].
Qed.

Lemma good_l32 s : st_ok max s -> good max s (rdata_l32 max rdata s).
Proof. intros Hs. unfold rdata_l32. wgood. apply good_addr; [| done]. left. split; [done | wlen]. Qed.

Lemma good_sshfp s : st_ok max s -> good max s (rdata_sshfp max rdata s).
Proof. intros Hs. unfold rdata_sshfp. wgood. Qed.

Lemma good_out_rrsig tc al lb ot se si kt signer s : 0 <= al <= 255 -> 0 <= lb <= 255 -> bytes signer -> st_ok max s ->
  good max s (out_rrsig max tc al lb ot se si kt signer s).
Proof. intros Ha Hl Hn Hs. unfold out_rrsig. wgood. Qed.

Lemma good_rrsig s : st_ok max s -> good max s (rdata_rrsig max NotCached rdata s).
Proof. intros Hs. unfold rdata_rrsig. wgood. by apply good_out_rrsig. Qed.

Lemma good_nsec s : st_ok max s -> good max s (rdata_nsec max rdata s).
Proof. intros Hs. unfold rdata_nsec. wgood. Qed.

Lemma nsec3_salt_spec text : defined (nsec3_salt text) /\ forall d, nsec3_salt text = Ret d -> bytes d /\ len d <= 255.
Proof. unfold nsec3_salt. case_if; [split; [apply defined_Ret |]; intros d [= <-]; split; [constructor | done] |]. apply (hex_decode_spec text 255). Qed.

Lemma good_nsec3 s : st_ok max s -> good max s (rdata_nsec3 max rdata s).
Proof.
  intros Hs. unfold rdata_nsec3. wgood. destruct (nsec3_salt_spec f2) as [Hd Hr]. apply good_pure; [done |]. intros salt [Hb Hl]%Hr. wgood.
  destruct (base32hex_decode_spec f3 255) as [Hd' Hr']. apply good_pure; [done |]. intros hash [Hb' Hl']%Hr'. wgood.
Qed.

Lemma good_nsec3param s : st_ok max s -> good max s (rdata_nsec3param max rdata s).
Proof. intros Hs. unfold rdata_nsec3param. wgood. destruct (nsec3_salt_spec f2) as [Hd Hr]. apply good_pure; [done |]. intros salt [Hb Hl]%Hr. wgood. Qed.

Lemma good_tlsa s : st_ok max s -> good max s (rdata_tlsa max rdata s).
Proof. intros Hs. unfold rdata_tlsa. wgood. Qed.

Lemma good_cert s : st_ok max s -> good max s (rdata_cert max rdata s).
Proof. intros Hs. unfold rdata_cert. wgood. apply good_pure; [apply cert_type_defined |]. intros ct _. wgood. Qed.

Lemma good_naptr s : st_ok max s -> good max s (rdata_naptr max rdata s).
Proof. intros Hs. unfold rdata_naptr. wgood. apply good_fields; [lia | done]. Qed.

Lemma hip_tokens_defined tokens : forall i pk, defined (hip_tokens tokens i pk).
Proof.
  induction tokens as [| t tokens IH]; intros i pk; cbn [hip_tokens]; [apply defined_Ret |]. destruct (strchr 46 t); [apply defined_Ret |].
  destruct (Z.leb_spec 4096 (len pk + len t)); [apply defined_Fail |]. rewrite put_list_in by lia. cbn [obind]. rewrite put_in by (rewrite length_app; lia). cbn [obind].
  case_if; [apply defined_Ret | apply IH].
Qed.

Lemma good_names names : Forall bytes names -> forall s, st_ok max s -> good max s (out_names max names s).
Proof. clear Hrdata. induction 1 as [| n names Hn _ IH]; intros s Hs; cbn [out_names]; wgood. by apply IH. Qed.

(** The length of the public key is written behind it. *)
Lemma good_hip s : st_ok max s -> good max s (rdata_hip max rdata s).
Proof.
  intros Hs. unfold rdata_hip. wgood. apply good_pure; [apply hip_tokens_defined |]. intros [pk r_idx] _. wstep; [wgood |]. wstep.
  destruct (out_spec max s [u8 (len d); v] Hs) as (s1 & -> & Hw1); [auto with octets | wlen |]. pose proof (wrote_ok max _ _ _ Hs Hw1) as Hs1. cbn [obind].
  assert (snd s1 = snd s + 2) as E1 by (by destruct Hw1 as (_ & _ & ->)). pose proof Hs1 as (_ & Ho1 & _ & H6). rewrite u16_small by lia.
  destruct (wrote_skip max s1 2 Hs1) as (X & HX & Hw2); [lia | lia |]. pose proof (wrote_ok max _ _ _ Hs1 Hw2) as Hs2.
  destruct (out_spec max (fst s1, snd s1 + 2) d Hs2 Hb) as (s3 & -> & Hw3); [cbn [snd]; lia |]. pose proof (wrote_ok max _ _ _ Hs2 Hw3) as Hs3. cbn [obind].
  destruct (good_b64_buffer max pk s3 Hs3) as [-> | (P & [res pk_end] & -> & Hw4)]; [by left |]. cbn [obind]. case_if; [by left |].
  assert (pk_end = snd s3 + len P /\ pk_end <= max) as [E4 Hpk] by (destruct Hw4 as (_ & ? & [= _ ->]); lia).
  assert (wrote max s1 ([] ++ X ++ d ++ P) (res, pk_end)) as Hw by (cbn [app]; eapply wrote_app; [done | done |]; by eapply wrote_app).
  destruct (wrote_patch max s1 [] X (d ++ P) (res, pk_end) (w16 (u16 (pk_end - snd s3))) Hs1 Hw) as [Ep Hw']; [cbn; lia | auto with octets |].
  cbn [fst snd app length] in Ep, Hw'. rewrite Z.add_0_r in Ep, Hw'. rewrite Ep. cbn [obind]. rewrite (u16_small (pk_end - snd s3)) by lia.
  pose proof Hs3 as (_ & Ho3 & _). replace (snd s3 + (pk_end - snd s3)) with pk_end by lia. rewrite u16_small by lia. rewrite (u16_small (pk_end - snd s3)) in Hw' by lia.
  pose proof (wrote_ok max _ _ _ Hs1 Hw') as Hs5. destruct (good_names (drop r_idx rdata) ltac:(by apply Forall_drop) _ Hs5) as [-> | (N & s6 & -> & Hw6)]; [by left |].
  right. eexists _, s6. split; [done |]. eapply wrote_app; [done | exact Hw1 |]. by eapply wrote_app.
Qed.

Lemma good_dsync s : st_ok max s -> good max s (rdata_dsync max rdata s).
Proof. intros Hs. unfold rdata_dsync. wgood. Qed.

Lemma good_uri s : st_ok max s -> good max s (rdata_uri max rdata s).
Proof. intros Hs. unfold rdata_uri. wgood. Qed.

Lemma good_sink s : st_ok max s -> good max s (rdata_sink max rdata s).
Proof. intros Hs. unfold rdata_sink. wgood. Qed.

Lemma good_blob s : st_ok max s -> good max s (rdata_blob max rdata s).
Proof. intros Hs. unfold rdata_blob. wgood. Qed.

Lemma good_eui expected s : st_ok max s -> good max s (rdata_eui max expected rdata s).
Proof. intros Hs. unfold rdata_eui. wgood. Qed.

Lemma good_zonemd s : st_ok max s -> good max s (rdata_zonemd max rdata s).
Proof. intros Hs. unfold rdata_zonemd. wgood. Qed.

Lemma wks_ports_spec ports proto : forall bitmap mp, bytes bitmap -> len bitmap = 8192 -> -1 <= mp <= 65535 ->
  defined (wks_ports ports proto bitmap mp) /\
  forall b m, wks_ports ports proto bitmap mp = Ret (b, m) -> bytes b /\ len b = 8192 /\ -1 <= m <= 65535.
Proof.
  induction ports as [| p ports IH]; intros bitmap mp Hb Hl Hm; cbn [wks_ports]; [split; [apply defined_Ret | by intros b m [= <- <-]] |].
  destruct (wks_port_spec p proto) as [Hd Hr]. destruct (dns_wks_port_from_text p proto) as [port | | |]; [| split; [apply defined_Fail | done] | by destruct Hd..].
  specialize (Hr port eq_refl). cbn [obind]. destruct (set_bit_spec bitmap port Hb) as (b' & -> & Hb' & Hl'); [lia |]. cbn [obind]. apply IH; [done | lia | case_if; lia].
Qed.

Lemma wks_protocol_spec text : defined (dns_wks_protocol_from_text text) /\ forall p, dns_wks_protocol_from_text text = Ret p -> 0 <= p <= 255.
Proof.
  unfold dns_wks_protocol_from_text. case_if; [split; [apply defined_Ret | intros p [= <-]; lia] |]. case_if; [split; [apply defined_Ret | intros p [= <-]; lia] |].
  split; [apply parse_num_defined | apply parse_num_range].
Qed.

Lemma good_wks s : st_ok max s -> good max s (rdata_wks max rdata s).
Proof.
  intros Hs. unfold rdata_wks. wstep; [wgood |]. wstep. wstep. unfold out_addr. destruct (inet_pton AF_INET f) as [a |] eqn:Ea; [| apply good_fail].
  apply inet_pton_v4 in Ea as [Hl Hb]. wstep. wstep. destruct (wks_protocol_spec f0) as [Hd Hr]. apply good_pure; [done |]. intros proto Hp%Hr. wstep.
  destruct (wks_ports_spec (drop 2 rdata) proto (replicate (Z.to_nat 8192) 0) (-1)) as [Hdp Hrp]; [bytes_lit | done | lia |]. apply good_pure; [done |].
  intros [bitmap mp] (Hbb & Hlb & Hmp)%Hrp. wstep; [| wgood]. wstep. rewrite slice_in by (Z.to_euclidean_division_equations; lia). cbn [obind]. wgood.
Qed.

Lemma good_two_names s : st_ok max s -> good max s (rdata_two_names max rdata s).
Proof. intros Hs. unfold rdata_two_names. wgood. Qed.

Lemma good_pref_name s : st_ok max s -> good max s (rdata_pref_name max rdata s).
Proof. intros Hs. unfold rdata_pref_name. wgood. Qed.

Lemma good_px s : st_ok max s -> good max s (rdata_px max rdata s).
Proof. intros Hs. unfold rdata_px. wgood. Qed.

Lemma good_csync s : st_ok max s -> good max s (rdata_csync max rdata s).
Proof. intros Hs. unfold rdata_csync. wgood. Qed.

Lemma good_ds b64 s : st_ok max s -> good max s (rdata_ds max b64 rdata s).
Proof. intros Hs. unfold rdata_ds. wgood. destruct b64; wgood. Qed.

Lemma nxt_types_spec types : forall bitmap mb, bytes bitmap -> len bitmap = 16 -> 0 <= mb <= 16 ->
  exists b m, nxt_types types bitmap mb = Ret (b, m) /\ bytes b /\ len b = 16 /\ 0 <= m <= 16.
Proof.
  induction types as [| t types IH]; intros bitmap mb Hb Hl Hm; cbn [nxt_types]; [by exists bitmap, mb |]. pose proof (get_type_code_range t).
  case_if; [by apply IH |]. destruct (set_bit_spec bitmap (get_type_code t) Hb) as (b' & -> & Hb' & Hl'); [lia |]. cbn [obind].
  apply IH; [done | lia |]. case_if; [Z.to_euclidean_division_equations; lia | lia].
Qed.

Lemma good_nxt s : st_ok max s -> good max s (rdata_nxt max rdata s).
Proof.
  intros Hs. unfold rdata_nxt. wgood. destruct (nxt_types_spec (drop 1 rdata) (replicate 16 0) 0) as (b & m & -> & Hb & Hl & Hm); [bytes_lit | done | lia |].
  cbn [obind]. wstep; [| wgood]. wstep. rewrite slice_in by lia. cbn [obind]. wgood.
Qed.

Lemma good_atma_digits a e164 : forall last_period hi n s, st_ok max s -> good max s (atma_digits max a e164 last_period hi n s).
Proof. induction a as [| c a IH]; intros lp hi n s Hs; cbn [atma_digits]; wgood; by apply IH. Qed.

Lemma good_atma s : st_ok max s -> good max s (rdata_atma max rdata s).
Proof.
  intros Hs. unfold rdata_atma. wstep; [wgood |]. wstep. destruct (match f with [] => _ | _ => _ end) as [e164 a]. wstep. wstep.
  - case_if; auto with octets.
  - by apply good_atma_digits.
Qed.

Lemma good_a6 s : st_ok max s -> good max s (rdata_a6 max rdata s).
Proof.
  intros Hs. unfold rdata_a6. wstep; [wgood |]. wstep. wstep. wstep; [wgood |]. wstep. wstep. apply good_bind; [done | |].
  - wstep; [| wgood]. wstep; [wgood |]. wstep. destruct (inet_pton AF_INET6 _) as [a |] eqn:Ea; [| apply good_fail]. apply inet_pton_v6 in Ea as [Hl Hb].
    wstep. rewrite slice_in by (Z.to_euclidean_division_equations; lia). cbn [obind]. wgood.
  - intros s2 _ Hs2. wstep; [| wgood]. wstep; [wgood |]. apply good_name; [done | bytes_lit].
Qed.

Lemma good_doa s : st_ok max s -> good max s (rdata_doa max rdata s).
Proof. intros Hs. unfold rdata_doa. wgood. Qed.

Lemma good_other type s : st_ok max s -> good max s (rdata_other loc_rdata max type rdata s).
Proof.
  intros Hs. unfold rdata_other.
  repeat match goal with
         | |- good _ _ (match ?z with Z0 => _ | Zpos _ => _ | Zneg _ => _ end) => destruct z
         | |- good _ _ (match ?z with xI _ => _ | xO _ => _ | xH => _ end) => destruct z
         end; try apply good_fail; try (apply good_ret; done);
    first [apply good_strings | apply good_isdn | apply good_nsap | apply good_loc | apply good_apl | apply good_caa | apply good_ipseckey | apply good_amtrelay
          | apply good_nid | apply good_l32 | apply good_sshfp | apply good_nsec | apply good_nsec3 | apply good_tlsa | apply good_cert | apply good_naptr
          | apply good_nsec3param | apply good_hip | apply good_svcb | apply good_dsync | apply good_uri | apply good_sink | apply good_blob | apply good_eui
          | apply good_zonemd | apply good_wks | apply good_two_names | apply good_pref_name | apply good_px | apply good_csync | apply good_ds | apply good_nxt
          | apply good_atma | apply good_a6 | apply good_doa]; done.
Qed.

End Safe.

End RrWrite.
