(* ===== verification/RrFrame.v ===== *)
(** * Records on the wire: what [serialize_dns_record] leaves behind

    The record that [serialize_dns_record] writes, as a sequence of octets and
    names, for every record type and with or without name compression; and the
    agreement of the pre-parsed copies of [dns_record_preparse_cache] with the
    text they are made from. *)

From S2P Require Import Prelude CLib Cidr NameText WireName Compress TypeName RdataText Record Svcb RrWrite.

Module RrFrame.
Import CLib Cidr NameText WireName Compress TypeName RdataText Record Svcb RrWrite.

(** ** The shape of a record *)

(** Octets, or a name that may be compressed. *)
Inductive piece := POctets (d : list Z) | PName (ls : list (list Z)).

(** The size without compression. *)
Definition piece_size (p : piece) : Z := match p with POctets d => len d | PName ls => len (wire_name ls) end.
Fixpoint size (ps : list piece) : Z := match ps with [] => 0 | p :: ps' => piece_size p + size ps' end.

(** The pieces are in the packet from [p] to [q], names readable below [B] and
    equal up to the case of letters; names are exactly those given when
    [exact]. Nothing is read from the two octets at [h]. *)
Inductive holds (h : Z) (exact : bool) (packet : list Z) (B : Z) : list piece -> Z -> Z -> Prop :=
| holds_nil p : holds h exact packet B [] p p
| holds_octets d ps p q :
    clear h p (len d) -> p + len d <= B -> slice packet p (len d) = Ret d ->
    holds h exact packet B ps (p + len d) q -> holds h exact packet B (POctets d :: ps) p q
| holds_name ls ls' n ps p r q :
    hdecodes h packet B n p ls' -> ci ls' ls -> (exact = true -> ls' = ls) -> name_end packet p r -> 0 <= p ->
    holds h exact packet B ps r q -> holds h exact packet B (PName ls :: ps) p q.

(** The same for a packet without a hole. *)
Inductive reads (exact : bool) (packet : list Z) (B : Z) : list piece -> Z -> Z -> Prop :=
| reads_nil p : reads exact packet B [] p p
| reads_octets d ps p q :
    p + len d <= B -> slice packet p (len d) = Ret d -> reads exact packet B ps (p + len d) q -> reads exact packet B (POctets d :: ps) p q
| reads_name ls ls' n ps p r q :
    decodes packet B n p ls' -> ci ls' ls -> (exact = true -> ls' = ls) -> name_end packet p r ->
    reads exact packet B ps r q -> reads exact packet B (PName ls :: ps) p q.

(** No two suffixes of the name have the same 32-bit hash. *)
Definition distinct_hashes (name : list Z) : Prop := forall ls, text_labels name = Ret ls -> NoDup (name_hashes (List.filter nonempty ls)).

(** Text of a name that can be compressed. *)
Definition text_ok (ctx : option compress_ctx_t) (name : list Z) : Prop := bytes name /\ (is_Some ctx -> distinct_hashes name).

(** The fields of a record that are compressed. *)
Definition name_fields (rec : dns_record_t) : list (list Z) :=
  match type_code rec with
  | 2 | 3 | 4 | 5 | 7 | 8 | 9 | 12 => take 1 (rdata rec)
  | 15 => take 1 (drop 1 (rdata rec))
  | 6 | 14 => take 2 (rdata rec)
  | _ => []
  end.

Definition is_exact (ctx : option compress_ctx_t) : bool := match ctx with None => true | Some _ => false end.

(** ** Lemmas: pieces *)

Lemma ci_refl ls : ci ls ls.
Proof. done. Qed.

Lemma label_no_pointer l : 1 <= l <= 63 -> Z.land l 192 <> 192.
Proof.
  intros Hl E. assert (forallb (fun r => negb (Z.land r 192 =? 192)) (seqZ 0 64) = true) as Hf by by vm_compute.
  pose proof (forallb_range _ 0 64 Hf l ltac:(lia)) as Hx. cbn beta in Hx. by rewrite E in Hx.
Qed.

Lemma name_end_hmono h a b B n p ls r : 0 <= p -> agree_clear h a b B -> hdecodes h a B n p ls -> name_end a p r -> name_end b p r.
Proof.
  intros Hp [Hrd _] Hd. revert r. induction Hd as [p Hc Hlt Hr | n p l lb ls Hc Hlt Hr Hl Hfit Hs Hd IH | n p raw lo ls Hc Hlt Hr Ht Hlo Hptr Hd IH]; intros r He.
  - inversion He as [p' E | p' l' q E Hl' He' | p' raw' E Ht']; subst; [apply end_root; by rewrite <- Hrd | |]; rewrite Hr in E; injection E as <-; [lia | done].
  - assert (clear h p 1) as Hc1 by (eapply clear_mono; [| | exact Hc]; lia).
    inversion He as [p' E | p' l' q E Hl' He' | p' raw' E Ht']; subst; rewrite Hr in E; injection E as E; subst; [lia | |].
    + eapply end_label; [rewrite <- Hrd; done | done |]. apply IH; [lia | done].
    + eapply end_pointer; [| done]. rewrite <- Hrd; done.
  - assert (clear h p 1) as Hc1 by (eapply clear_mono; [| | exact Hc]; lia).
    inversion He as [p' E | p' l' q E Hl' He' | p' raw' E Ht']; subst; rewrite Hr in E; injection E as E; subst; [done | |].
    + by apply label_no_pointer in Hl'.
    + eapply end_pointer; [| done]. rewrite <- Hrd; [done | lia | done].
Qed.

Lemma holds_clear h e a b n m ps p q : agree_clear h a b n -> n <= m -> holds h e a n ps p q -> holds h e b m ps p q.
Proof.
  intros Hag Hm. induction 1 as [| d ps p q Hc Hfit Hs Hh IH | ls ls' k ps p r q Hd Hci Hex He Hp Hh IH]; [constructor | |].
  - apply holds_octets; [done | lia | | done]. rewrite <- (proj2 Hag); done.
  - eapply holds_name; [by eapply hdecodes_clear | done | done | by eapply name_end_hmono | done | done].
Qed.

Lemma holds_mono h e a b n m ps p q : agree a b n -> n <= m -> holds h e a n ps p q -> holds h e b m ps p q.
Proof. intros Hag. apply holds_clear. by apply agree_agree_clear. Qed.

Lemma holds_app h e packet B ps qs p r q : holds h e packet B ps p r -> holds h e packet B qs r q -> holds h e packet B (ps ++ qs) p q.
Proof. induction 1; intros; cbn [app]; [done | apply holds_octets; auto | eapply holds_name; eauto]. Qed.

(** A hole is opened behind the pieces. *)
Lemma holds_open h e packet B ps p q : bytes packet -> B <= h -> holds no_hole e packet B ps p q -> holds h e packet B ps p q.
Proof.
  intros Hb Hh. induction 1 as [| d ps p q Hc Hfit Hs Hr IH | ls ls' k ps p r q Hd Hci Hex He Hp Hr IH]; [constructor | |].
  - apply holds_octets; [unfold clear; lia | done | done | done].
  - eapply holds_name; try done. apply decodes_hdecodes; [done | done | by left | by eapply hdecodes_decodes].
Qed.

Lemma holds_reads h e packet B ps p q : holds h e packet B ps p q -> reads e packet B ps p q.
Proof.
  induction 1 as [| d ps p q Hc Hfit Hs Hr IH | ls ls' k ps p r q Hd Hci Hex He Hp Hr IH]; [constructor | by apply reads_octets |].
  eapply reads_name; try done. by eapply hdecodes_decodes.
Qed.

Lemma size_app ps qs : size (ps ++ qs) = size ps + size qs.
Proof. induction ps as [| p ps IH]; cbn [app size]; lia. Qed.

(** The hole is gone. *)
Lemma holds_close h e packet B ps p q : bytes packet -> holds h e packet B ps p q -> holds no_hole e packet B ps p q.
Proof.
  intros Hb. induction 1 as [| d ps p q Hc Hfit Hs Hr IH | ls ls' k ps p r q Hd Hci Hex He Hp Hr IH]; [constructor | |].
  - apply holds_octets; [| done | done | done]. unfold slice in Hs. case_if_in Hs; [| done]. unfold clear, no_hole. lia.
  - eapply holds_name; try done. apply decodes_hdecodes; [done | done | by right | by eapply hdecodes_decodes].
Qed.

Lemma slice_join buf i A B : slice buf i (len A) = Ret A -> slice buf (i + len A) (len B) = Ret B -> slice buf i (len (A ++ B)) = Ret (A ++ B).
Proof.
  unfold slice. intros Ha Hb. case_if_in Ha; [| done]. case_if_in Hb; [| done]. injection Ha as Ha. injection Hb as Hb. rewrite length_app, Nat2Z.inj_add.
  rewrite (proj2 (Z.leb_le 0 i)), (proj2 (Z.leb_le 0 (len A + len B))), (proj2 (Z.leb_le (i + (len A + len B)) (len buf))) by lia. cbn [andb]. f_equal.
  rewrite Z2Nat.inj_add, !Nat2Z.id by lia. rewrite Nat2Z.id in Ha, Hb. rewrite <- (take_take_drop _ (length A)), Ha, drop_drop. f_equal.
  by rewrite <- Hb at 2; rewrite Z2Nat.inj_add, Nat2Z.id by lia.
Qed.

Lemma splice_slice_self buf i W : 0 <= i -> i + len W <= len buf -> slice (splice buf i W) i (len W) = Ret W.
Proof.
  intros Hi Hl. rewrite slice_in by (rewrite ?length_splice; lia). f_equal. unfold splice. rewrite drop_app_ge by (rewrite length_take; lia).
  rewrite length_take. replace (Z.to_nat i - _)%nat with 0%nat by lia. rewrite drop_0, Nat2Z.id. by rewrite take_app_length.
Qed.

(** ** Lemmas: writers with a compression context *)

Section Full.
Context `{InetPton, EvpBase64}.
Variable loc_rdata : list (list Z) -> option (list Z).
Hypothesis loc_rdata_octets : forall rdata d, loc_rdata rdata = Some d -> bytes d /\ length d = 16%nat.
Variable max : Z.

Definition fs_ok (h : Z) (s : list Z * Z * option compress_ctx_t) : Prop :=
  st_ok max (fst s) /\ h + 2 <= snd (fst s) /\
  match snd s with None => True | Some c => hctx_ok h (fst (fst s)) (snd (fst s)) c end.

(** [s'] is [s] with the pieces [ps] added. *)
Definition swrote (h : Z) (s : list Z * Z * option compress_ctx_t) (ps : list piece) (s' : list Z * Z * option compress_ctx_t) : Prop :=
  fs_ok h s' /\ agree (fst (fst s)) (fst (fst s')) (snd (fst s)) /\
  snd (fst s) <= snd (fst s') <= snd (fst s) + size ps /\ (is_Some (snd s) <-> is_Some (snd s')) /\
  holds h (is_exact (snd s)) (fst (fst s')) (snd (fst s')) ps (snd (fst s)) (snd (fst s')).

Definition sgood (h : Z) (s : list Z * Z * option compress_ctx_t) (o : outcome (list Z * Z * option compress_ctx_t)) : Prop :=
  o = Fail \/ exists ps s', o = Ret s' /\ swrote h s ps s'.

Lemma is_exact_eq (c c' : option compress_ctx_t) : (is_Some c <-> is_Some c') -> is_exact c' = is_exact c.
Proof. destruct c, c'; cbn; intros [H1 H2]; try done; [by destruct (H1 (mk_is_Some _ _ eq_refl)) | by destruct (H2 (mk_is_Some _ _ eq_refl))]. Qed.

Lemma swrote_nil h s : fs_ok h s -> swrote h s [] s.
Proof. intros Hs. split; [done |]. split; [done |]. split; [cbn; lia |]. split; [done | constructor]. Qed.

Lemma swrote_app h s ps s' qs s'' : swrote h s ps s' -> swrote h s' qs s'' -> swrote h s (ps ++ qs) s''.
Proof.
  intros (Hs' & Ha & Ho & Hc & Hh) (Hs'' & Ha' & Ho' & Hc' & Hh'). rewrite (is_exact_eq _ _ Hc) in Hh'. split; [done |].
  split; [eapply agree_trans; [| done | done]; lia |]. split; [rewrite size_app; lia |]. split; [by rewrite Hc |].
  eapply holds_app; [| done]. eapply holds_mono; [done | lia | done].
Qed.

Lemma swrote_octets h s W s1 : fs_ok h s -> wrote max (fst s) W s1 -> swrote h s [POctets W] (s1, snd s).
Proof.
  intros (Hs & Hh & Hc) Hw. pose proof (wrote_ok max _ _ _ Hs Hw) as Hs1. pose proof Hs as (Hb & Ho & Hm & _). pose proof Hw as (_ & Hl & E1).
  assert (agree (fst (fst s)) (fst s1) (snd (fst s))) as Hag by (rewrite E1; apply agree_splice; lia). assert (snd s1 = snd (fst s) + len W) as Eo by (by rewrite E1).
  split; [| split; [done |]].
  - split; [done |]. cbn [fst snd]. split; [lia |]. destruct (snd s) as [c |]; [| done]. eapply hctx_mono; [done | lia | done].
  - cbn [fst snd size piece_size]. split; [lia |]. split; [done |]. rewrite Eo. apply holds_octets; [unfold clear; lia | lia | | constructor].
    rewrite E1. cbn [fst]. apply splice_slice_self; lia.
Qed.

Lemma sgood_bind h s o k : fs_ok h s -> sgood h s o -> (forall s', o = Ret s' -> fs_ok h s' -> (is_Some (snd s) <-> is_Some (snd s')) -> sgood h s' (k s')) ->
  sgood h s (obind o k).
Proof.
  intros Hs [-> | (ps & s' & -> & Hw)] Hk; [by left |]. destruct (Hk s' eq_refl) as [E | (qs & s'' & E & Hw')]; [apply Hw | apply Hw | by left |].
  right. exists (ps ++ qs), s''. split; [done |]. by eapply swrote_app.
Qed.

Lemma sgood_plain h s f : fs_ok h s -> good max (fst s) (f (fst s)) -> sgood h s (plain f s).
Proof.
  intros Hs [E | (W & s1 & E & Hw)]; destruct s as [[res off] ctx]; unfold plain; cbn [fst] in E; rewrite E; [by left |]. cbn [obind]. destruct s1 as [res1 off1].
  right. eexists [POctets W], _. split; [done |]. by apply (swrote_octets h (res, off, ctx) W (res1, off1)).
Qed.

Lemma sgood_need h s n k : fs_ok h s -> (snd (fst s) + n <= max -> sgood h s (k s)) -> sgood h s (obind (plain (need max n) s) k).
Proof.
  intros Hs Hk. destruct s as [[res off] ctx]. unfold plain, need. cbn [fst snd] in *. destruct (Z.ltb_spec max (off + n)); [by left |]. by apply Hk.
Qed.

(** A name in wire form that was just written. *)
Lemma wire_hdecodes h ls : forall packet B off rest, 0 <= off -> h + 2 <= off -> drop (Z.to_nat off) packet = wire_name ls ++ rest -> B <= len packet ->
  off + len (wire_name ls) <= B -> Forall label_wf ls -> hdecodes h packet B (length ls) off ls.
Proof.
  induction ls as [| l ls IH]; intros packet B off rest Ho Hh Hd Hl Hfit Hls.
  - change (wire_name []) with [0] in *. apply hdecodes_root; [unfold clear; lia | len_lia |]. rewrite <- (Z.add_0_r off), rd_drop by lia. by rewrite Hd.
  - apply Forall_cons_1 in Hls as [[Hb Hn] Hls]. rewrite length_wire_name in Hfit. rewrite wire_name_cons in Hd.
    assert (drop (Z.to_nat (off + 1)) packet = l ++ wire_name ls ++ rest) as Hd1.
    { rewrite Z2Nat.inj_add, <- drop_drop, Hd by lia. cbn. by rewrite <- !app_assoc. }
    assert (drop (Z.to_nat (off + 1 + len l)) packet = wire_name ls ++ rest) as Hd2.
    { rewrite Z2Nat.inj_add, Nat2Z.id, <- drop_drop, Hd1 by lia. by rewrite drop_app_length. }
    cbn [length]. pose proof (wire_name_pos ls). eapply hdecodes_label; [unfold clear; lia | lia | | done | lia | | eapply IH; [lia | lia | done | done | lia | done]].
    + rewrite <- (Z.add_0_r off), rd_drop by lia. by rewrite Hd.
    + rewrite slice_in by lia. by rewrite Hd1, Nat2Z.id, take_app_length.
Qed.

Lemma wf_length ls : Forall label_wf ls -> len (wire_name ls) <= 255 -> (length ls <= 127)%nat.
Proof.
  intros Hls. enough (2 * len ls + 1 <= len (wire_name ls)) by lia. induction Hls as [| l ls [_ Hl] _ IH]; [done |]. rewrite length_wire_name. cbn [length]. lia.
Qed.

Lemma write_text_fail packet off name c max_len : text_labels name = Fail -> write_dns_name_str packet off name (Some c) max_len = Fail.
Proof.
  intros El. unfold write_dns_name_str. rewrite (for_labels_Fail (fun w => len w <= 255)); [done | | done | done]. intros l w Hw. unfold append_label.
  case_if; [| by right; eexists]. case_if; [by left |]. right. cmp_prop. rewrite put_in by lia. cbn [obind].
  rewrite put_list_in by (rewrite length_app; len_lia). eexists. split; [done |]. rewrite !length_app. len_lia.
Qed.

Lemma text_name_spec h s name : fs_ok h s -> text_ok (snd s) name ->
  (out_text_name max name s = Fail /\ forall ls, text_labels name = Ret ls ->
     let W := wire_name (List.filter nonempty ls) in 255 < len W \/ max < snd (fst s) + len W) \/
  exists ls s', text_labels name = Ret ls /\ out_text_name max name s = Ret s' /\ swrote h s [PName (List.filter nonempty ls)] s'.
Proof.
  intros (Hs & Hh & Hc) [Hb Hnd]. destruct s as [[res off] ctx]. pose proof Hs as (Hbr & Ho & Hm & H6). cbn [fst snd] in *. unfold out_text_name.
  destruct ctx as [c |].
  - destruct (text_labels name) as [ls | | |] eqn:El; [| | by destruct (proj1 (text_labels_defined name)) | by destruct (proj2 (text_labels_defined name))];
      [| left; split; [by rewrite write_text_fail | done]].
    rewrite (write_dns_name_str_spec res off name c max ls Hb El). cbv zeta. set (fl := List.filter nonempty ls) in *.
    assert (Forall label_wf fl) as Hwf by (by apply nonempty_wf, (text_labels_wf name)).
    destruct (Z.leb_spec (len (wire_name fl)) 255) as [H255 | H255]; [| left; split; [done | intros ? [= <-]; by left]].
    destruct (compress_name_hole h res off c max fl) as [[-> Hr] | (res' & off' & c' & -> & (Hbr' & Hag & Hoff & (n & ls' & Hd & Hci) & He) & Hm' & Hc')]; try done.
    { split_and!; [done | by apply wf_length | by apply Hnd]. }
    { left. split; [done | intros ? [= <-]; by right]. }
    right. exists ls, (res', off', Some c'). split; [done |]. cbn [obind]. split; [done |].
    assert (len res' = len res) as El' by (by rewrite (proj1 Hag)).
    fold fl. split; [| split; [done | split; [cbn [size piece_size fst snd]; lia | split; [done |]]]].
    + split; [split_and!; cbn [fst snd]; [done | lia | lia | lia | done] |]. split; [cbn [fst snd]; lia | done].
    + cbn [fst snd is_exact]. eapply holds_name; [done | done | done | done | lia | constructor].
  - unfold write_dns_name_str. pose proof (out_name_spec max (res, off) name Hs Hb) as Hn. unfold out_name in Hn.
    rewrite write_uncompressed_spec in * by done.
    destruct (text_labels name) as [ls | | |] eqn:El; [| by left.. ].
    unfold written_labels, cased in *. rewrite map_id in *. cbv zeta in *. set (fl := List.filter nonempty ls) in *. case_if.
    2: { left. split; [done |]. intros ? [= <-]. cbv zeta. fold fl. lia. }
    cbn [obind] in Hn |- *. cmp_prop. rewrite (u16_small (off + _)) in * by lia. destruct Hn as [| (ls0 & s' & [= <-] & Es & Hw)]; [done |]. fold fl in Hw. right.
    exists ls, (splice res off (wire_name fl), off + len (wire_name fl), None). split; [done |]. split; [done |]. injection Es as <-.
    destruct (swrote_octets h (res, off, None) (wire_name fl) _ ltac:(by split) Hw) as (Hs' & Hag & Hoff & Hc' & Hh').
    split; [done | split; [done | split; [done | split; [done |]]]]. cbn [fst snd is_exact] in *.
    assert (drop (Z.to_nat off) (splice res off (wire_name fl)) = wire_name fl ++ drop (Z.to_nat off + length (wire_name fl)) res) as Hd.
    { unfold splice. rewrite drop_app_ge by (rewrite length_take; lia). rewrite length_take. by replace (Z.to_nat off - _)%nat with 0%nat by lia. }
    assert (Forall label_wf fl) as Hwf by (by apply nonempty_wf, (text_labels_wf name)). assert (len (splice res off (wire_name fl)) = len res) as El' by (rewrite length_splice; lia).
    eapply holds_name; [eapply wire_hdecodes; [lia | lia | done | lia | done | done] | done | done | | lia | constructor].
    by eapply (wire_decodes fl _ (off + len (wire_name fl))); [lia | done | lia | lia | done].
Qed.

Lemma sgood_name h s name : fs_ok h s -> text_ok (snd s) name -> sgood h s (out_text_name max name s).
Proof. intros Hs Hn. destruct (text_name_spec h s name Hs Hn) as [[-> _] | (ls & s' & _ & -> & Hw)]; [by left | right; eauto]. Qed.

Lemma sgood_ret h s : fs_ok h s -> sgood h s (Ret s).
Proof. intros Hs. right. exists [], s. split; [done | by apply swrote_nil]. Qed.

Lemma text_ok_some ctx ctx' name : (is_Some ctx <-> is_Some ctx') -> text_ok ctx name -> text_ok ctx' name.
Proof. intros Hc [Hb Hn]. split; [done |]. by rewrite <- Hc. Qed.

(** A name and the check of the offset behind it. *)
Lemma sgood_name_check h s name : fs_ok h s -> text_ok (snd s) name ->
  sgood h s (let! s := out_text_name max name s in fail_if max <? snd (fst s) ;; Ret s).
Proof. intros Hs Hn. apply sgood_bind; [done | by apply sgood_name |]. intros s' _ Hs' _. case_if; [by left | by apply sgood_ret]. Qed.

Lemma sgood_out h s d k : fs_ok h s -> bytes d -> snd (fst s) + len d <= max ->
  (forall s', fs_ok h s' -> (is_Some (snd s) <-> is_Some (snd s')) -> sgood h s' (k s')) -> sgood h s (obind (plain (out d) s) k).
Proof. intros Hs Hd Hl Hk. apply sgood_bind; [done | apply sgood_plain; [done | apply good_out; [apply Hs | done | done]] |]. auto. Qed.

Lemma sgood_field h s rdata i k : (i < length rdata)%nat -> (forall f, rdata !! i = Some f -> sgood h s (k f)) -> sgood h s (obind (fld rdata i) k).
Proof. intros Hi Hk. unfold fld. destruct (lookup_lt_is_Some_2 rdata i Hi) as [f Hf]. rewrite Hf. by apply Hk. Qed.

Lemma sgood_ns h s rdata : fs_ok h s -> Forall (text_ok (snd s)) (take 1 rdata) -> sgood h s (rdata_ns max NotCached rdata s).
Proof.
  intros Hs Hn. unfold rdata_ns. case_if; [by left |]. apply sgood_field; [lia |]. intros f Hf. apply sgood_name_check; [done |]. destruct rdata as [| f' rdata]; [done |].
  injection Hf as ->. by apply Forall_cons_1 in Hn as [? _].
Qed.

Lemma sgood_mx h s rdata : fs_ok h s -> Forall (text_ok (snd s)) (take 1 (drop 1 rdata)) -> sgood h s (rdata_mx max NotCached rdata s).
Proof.
  intros Hs Hn. unfold rdata_mx. case_if; [by left |]. apply sgood_need; [done |]. intros Hr. destruct rdata as [| f0 [| f1 rdata]]; [done.. |]. cbn [drop take] in Hn.
  apply Forall_cons_1 in Hn as [Hn _]. unfold fld. cbn [lookup list_lookup obind]. pose proof (parse_num_defined 65535 f0) as [Hd1 Hd2]. unfold parse_u16.
  destruct (parse_num 65535 f0) as [pref | | |]; try done; [| by left]. cbn [obind]. apply sgood_out; [done | apply w16_bytes | cbn [length w16]; lia |].
  intros s' Hs' Hc. apply sgood_name_check; [done | by eapply text_ok_some].
Qed.

Lemma sgood_out_soa h s mname rname numbers : fs_ok h s -> text_ok (snd s) mname -> text_ok (snd s) rname -> length numbers = 5%nat ->
  sgood h s (out_soa max mname rname numbers s).
Proof.
  intros Hs Hm Hr Hl. unfold out_soa. apply sgood_bind; [done | by apply sgood_name |]. intros s1 _ Hs1 Hc1.
  apply sgood_bind; [done | apply sgood_name; [done | by eapply text_ok_some] |]. intros s2 _ Hs2 _. apply sgood_need; [done |]. intros Hroom.
  apply sgood_plain; [done |]. destruct numbers as [| n0 [| n1 [| n2 [| n3 [| n4 [|]]]]]]; try done. apply good_out; [apply Hs2 | cbn [map concat]; auto 20 with octets | cbn; lia].
Qed.

Lemma soa_numbers_spec rdata : (7 <= length rdata)%nat -> exists numbers, soa_numbers rdata = Ret numbers /\ length numbers = 5%nat.
Proof.
  intros Hl. do 7 (destruct rdata as [| ? rdata]; [cbn in Hl; lia |]). unfold soa_numbers, fld. cbn [lookup list_lookup obind].
  repeat match goal with |- context [parse_ttl_value (Some ?f)] => let v := fresh "v" in let Hv := fresh in destruct (lenient_range f) as (v & Hv & _); rewrite Hv; cbn [obind] end.
  by eexists.
Qed.

Lemma sgood_soa h s rdata : fs_ok h s -> Forall (text_ok (snd s)) (take 2 rdata) -> sgood h s (rdata_soa max NotCached rdata s).
Proof.
  intros Hs Hn. unfold rdata_soa. case_if; [by left |]. destruct (soa_numbers_spec rdata) as (numbers & -> & Hl); [lia |]. destruct rdata as [| f0 [| f1 rdata]]; [done.. |].
  unfold fld. cbn [lookup list_lookup obind take] in *. apply Forall_cons_1 in Hn as [H0' Hn]. apply Forall_cons_1 in Hn as [H1' _]. by apply sgood_out_soa.
Qed.

Lemma sgood_minfo h s rdata : fs_ok h s -> Forall (text_ok (snd s)) (take 2 rdata) -> sgood h s (rdata_minfo max rdata s).
Proof.
  intros Hs Hn. unfold rdata_minfo. case_if; [by left |]. destruct rdata as [| f0 [| f1 rdata]]; [done.. |].
  unfold fld. cbn [lookup list_lookup obind take] in *. apply Forall_cons_1 in Hn as [Hn0 Hn]. apply Forall_cons_1 in Hn as [Hn1 _].
  apply sgood_bind; [done | by apply sgood_name |]. intros s1 _ Hs1 Hc1. case_if; [by left |]. apply sgood_name_check; [done | by eapply text_ok_some].
Qed.

Lemma good_uncached rec s : cache rec = NotCached -> Forall bytes (rdata rec) -> st_ok max s -> good max s (rdata_cached max rec s).
Proof.
  intros Hc Hr Hs. unfold rdata_cached. rewrite Hc.
  repeat match goal with
         | |- good _ _ (match ?z with Z0 => _ | Zpos _ => _ | Zneg _ => _ end) => destruct z
         | |- good _ _ (match ?z with xI _ => _ | xO _ => _ | xH => _ end) => destruct z
         end; first [by apply good_rrsig | by apply good_rname | by apply good_srv | by apply good_txt | apply good_a; auto].
Qed.

Lemma sgood_switch h s rec : fs_ok h s -> cache rec = NotCached -> Forall bytes (rdata rec) -> Forall (text_ok (snd s)) (name_fields rec) ->
  sgood h s (rdata_switch loc_rdata max rec s).
Proof.
  intros Hs Hc Hr Hn. unfold rdata_switch, name_fields in *. pose proof (good_uncached rec (fst s) Hc Hr (proj1 Hs)) as Hu.
  pose proof (fun t => good_other loc_rdata loc_rdata_octets max (rdata rec) Hr t (fst s) (proj1 Hs)) as Ho. rewrite Hc.
  repeat match goal with
         | |- sgood _ _ (match ?z with Z0 => _ | Zpos _ => _ | Zneg _ => _ end) => destruct z
         | |- sgood _ _ (match ?z with xI _ => _ | xO _ => _ | xH => _ end) => destruct z
         end; first [by apply sgood_plain | by apply sgood_ns | by apply sgood_mx | by apply sgood_soa | by apply sgood_minfo].
Qed.

Definition generic_ok (rec : dns_record_t) : Prop :=
  0 <= generic_len rec <= 65535 /\ match generic_data rec with Some d => bytes d /\ generic_len rec <= len d | None => True end.

Lemma good_generic rec s : generic_ok rec -> st_ok max s -> good max s (out_generic max rec s).
Proof.
  intros [Hg Hd] Hs. unfold out_generic. case_if; [| by apply good_ret]. apply good_need. intros Hroom. destruct (generic_data rec) as [d |].
  - destruct Hd as [Hb Hl]. rewrite slice_in by lia. cbn [obind]. apply good_out; [done | auto with octets | rewrite length_take, length_drop; lia].
  - right. destruct (wrote_skip max s (generic_len rec) Hs) as (X & HX & Hw); [lia | lia |]. exists X. eexists. split; [| exact Hw]. pose proof Hs as (_ & Ho & _ & H6).
    by rewrite u16_small by lia.
Qed.

(** The text of the owner name. *)
Definition owner_text (rec : dns_record_t) (owner_name : option (list Z)) : list Z := default (name rec) owner_name.

Definition record_ok (rec : dns_record_t) (ctx : option compress_ctx_t) (owner_name : option (list Z)) : Prop :=
  text_ok ctx (owner_text rec owner_name) /\ Forall bytes (rdata rec) /\ Forall (text_ok ctx) (name_fields rec) /\ generic_ok rec.

Lemma name_fields_in r f : f ∈ name_fields r -> f ∈ rdata r.
Proof.
  assert (forall n k, f ∈ take n (drop k (rdata r)) -> f ∈ rdata r) as Ht.
  { intros n k [i E]%list_elem_of_lookup_1. apply lookup_take_Some in E as [E _]. rewrite lookup_drop in E. by eapply list_elem_of_lookup_2. }
  unfold name_fields. repeat case_match; intros Hf; first [by apply elem_of_nil in Hf | by apply (Ht 1%nat 0%nat) | by apply (Ht 2%nat 0%nat) | by apply (Ht 1%nat 1%nat)].
Qed.

Lemma record_ok_intro rec ctx owner_name : bytes (owner_text rec owner_name) -> Forall bytes (rdata rec) -> generic_ok rec ->
  (is_Some ctx -> distinct_hashes (owner_text rec owner_name) /\ Forall distinct_hashes (name_fields rec)) -> record_ok rec ctx owner_name.
Proof.
  intros Ho Hr Hg Hd. split; [split; [done | by intros [? _]%Hd] |]. split; [done |]. split; [| done]. apply Forall_forall. intros f Hf.
  split; [rewrite Forall_forall in Hr; by apply Hr, name_fields_in |]. intros [_ H2]%Hd. rewrite Forall_forall in H2. by apply H2.
Qed.

Lemma ttl_spec rec override_ttl : exists t, wire_ttl rec override_ttl = Ret t.
Proof. unfold wire_ttl. case_if; [destruct (lenient_range (ttl rec)) as (v & -> & _) |]; by eexists. Qed.

(** Filling the two octets of the hole changes nothing else. *)
Lemma agree_fill h packet W n : 0 <= h -> h + 2 <= len packet -> length W = 2%nat -> agree_clear h packet (splice packet h W) n.
Proof.
  intros Hh Hl HW. assert (take (Z.to_nat h) (splice packet h W) = take (Z.to_nat h) packet) as Et.
  { unfold splice. rewrite take_app_le by (rewrite length_take; lia). rewrite take_take. f_equal. lia. }
  assert (drop (Z.to_nat (h + 2)) (splice packet h W) = drop (Z.to_nat (h + 2)) packet) as Ed.
  { unfold splice. rewrite app_assoc, drop_app_ge by (rewrite length_app, length_take; lia). rewrite length_app, length_take, drop_drop. f_equal. lia. }
  assert (len (splice packet h W) = len packet) as El by (rewrite length_splice; lia).
  split.
  - intros i Hi [Hc | Hc].
    + apply (agree_rd _ _ h); [| lia]. split; [lia | done].
    + replace i with (h + 2 + (i - (h + 2))) by lia. by rewrite !rd_drop, Ed by lia.
  - intros i k Hi Hc. destruct (Z.lt_ge_cases k 0) as [Hk | Hk]; [unfold slice; by rewrite (proj2 (Z.leb_gt 0 k)), !andb_false_r by lia |].
    destruct Hc as [Hc | Hc]; [apply (agree_slice _ _ h); [split; [lia | done] | lia] |].
    unfold slice. rewrite El. replace (Z.to_nat i) with (Z.to_nat (h + 2) + Z.to_nat (i - (h + 2)))%nat by lia. by rewrite <- !drop_drop, Ed.
Qed.

(** The fixed part of a record, up to RDLENGTH. *)
Definition rr_fixed (rec : dns_record_t) (t : Z) : list Z := w16 (type_code rec) ++ w16 (wire_class rec) ++ w32 t.

Lemma fs_hole s : fs_ok no_hole s -> snd (fst s) + 2 <= max -> fs_ok (snd (fst s)) (fst (fst s), u16 (snd (fst s) + 2), snd s).
Proof.
  intros (Hs & _ & Hc) Hr. pose proof Hs as (Hb & Ho & Hm & H6). rewrite u16_small by lia. split; [split_and!; cbn [fst snd]; done || lia |]. cbn [fst snd]. split; [lia |].
  destruct (snd s) as [c |]; [| done]. eapply hctx_mono; [split; done | | by apply ctx_open]. lia.
Qed.

(** RDLENGTH is filled in: the record is in the packet and the context is for
    the packet with it. *)
Lemma serialize_close s rec t ls ps s2 s4 : fs_ok no_hole s -> swrote no_hole s [PName ls; POctets (rr_fixed rec t)] s2 ->
  let h := snd (fst s2) in swrote h (fst (fst s2), h + 2, snd s2) ps s4 -> h + 2 <= max ->
  let n := snd (fst s4) - h - 2 in let res' := splice (fst (fst s4)) h (w16 (u16 n)) in
  wr_list (fst (fst s4)) h (w16 (u16 n)) = Ret res' /\
  fs_ok no_hole (res', snd (fst s4), snd s4) /\ agree (fst (fst s)) res' (snd (fst s)) /\ (is_Some (snd s) <-> is_Some (snd s4)) /\
  0 <= n <= size ps /\ holds no_hole (is_exact (snd s)) res' (snd (fst s4)) [PName ls; POctets (rr_fixed rec t ++ w16 n)] (snd (fst s)) (h + 2) /\
  holds no_hole (is_exact (snd s)) res' (snd (fst s4)) ps (h + 2) (snd (fst s4)).
Proof.
  intros Hs (Hs2 & Ha2 & Ho2 & Hc2 & Hh2) h (Hs4 & Ha4 & Ho4 & Hc4 & Hh4) Hroom n. cbn [fst snd] in *. fold h in Ho2, Hh2.
  pose proof Hs2 as ((Hb2 & Hr2 & Hm2 & H6) & _ & _). fold h in Hr2. pose proof Hs4 as ((Hb4 & Hr4 & Hm4 & _) & _ & Hx4).
  assert (0 <= n <= size ps) as Hn by lia. rewrite (u16_small n) by lia. set (res' := splice (fst (fst s4)) h (w16 n)). assert (length (w16 n) = 2%nat) as Hw by done.
  assert (wr_list (fst (fst s4)) h (w16 n) = Ret res') as Ew by (apply wr_list_splice; lia). split; [done |].
  pose proof (agree_fill h (fst (fst s4)) (w16 n) (snd (fst s4)) ltac:(lia) ltac:(lia) Hw) as Hfill. fold res' in Hfill.
  assert (bytes res') as Hb' by (apply bytes_splice; [done | apply w16_bytes]). assert (len res' = len (fst (fst s4))) as El by (unfold res'; rewrite length_splice; lia).
  assert (agree (fst (fst s4)) res' h) as Hag4 by (apply agree_splice; lia).
  split; [| split; [| split; [tauto | split; [done | split]]]].
  - split; [split; [done | split; [cbn; lia | split; [cbn; lia | done]]] |]. split; [cbn; unfold no_hole; lia |]. cbn [fst snd].
    destruct (snd s4) as [c |]; [by eapply ctx_fill | done].
  - apply (agree_trans _ (fst (fst s2)) _ h); [lia | done |]. apply (agree_trans _ (fst (fst s4)) _ h); [lia | | done]. eapply agree_mono; [| exact Ha4]. lia.
  - apply (holds_open h) in Hh2; [| done | lia]. apply (holds_mono h _ _ (fst (fst s4)) h (snd (fst s4))) in Hh2; [| eapply agree_mono; [| exact Ha4]; lia | lia].
    apply (holds_clear h _ _ res' _ (snd (fst s4))) in Hh2; [| done | lia]. apply holds_close in Hh2; [| done].
    inversion Hh2 as [| | ls0 ls' k ps0 p r q Hd Hci Hex He Hp Hrest]; subst. inversion Hrest as [| d ps0 p q Hcl Hfit Hsl Hnil |]; subst. inversion Hnil; subst.
    assert (length (rr_fixed rec t) = 8%nat) as Hf by done. assert (r + Z.of_nat 8 + 2 = r + len (rr_fixed rec t ++ w16 n)) as -> by (rewrite length_app, Hf, Hw; lia).
    eapply holds_name; try done.
    apply holds_octets; [unfold clear, no_hole in *; lia | rewrite length_app; cbn [length w16]; lia | | constructor].
    apply slice_join; [done |]. replace (r + len (rr_fixed rec t)) with h by (rewrite Hf; lia). apply splice_slice_self; rewrite ?Hw; lia.
  - rewrite (is_exact_eq _ _ Hc2) in Hh4. apply (holds_clear h _ _ res' _ (snd (fst s4))) in Hh4; [| done | lia]. by apply holds_close in Hh4.
Qed.

Definition body (rec : dns_record_t) (s : list Z * Z * option compress_ctx_t) : outcome (list Z * Z * option compress_ctx_t) :=
  match generic_data rec with
  | Some _ => plain (out_generic max rec) s
  | None => if class_val rec =? DNS_CLASS_KARIDNS_EXT then plain (out_generic max rec) s else rdata_switch loc_rdata max rec s
  end.

(** The record up to RDLENGTH is written, or there is no room for it. *)
Lemma serialize_head res offset ctx rec owner_name override_ttl : fs_ok no_hole (res, offset, ctx) -> text_ok ctx (owner_text rec owner_name) -> name_wire rec = None ->
  let r := serialize_dns_record loc_rdata max res offset rec ctx owner_name override_ttl in
  (r = Fail /\ (is_meta_rrtype (type_code rec) = true \/ max < offset + DNS_HEADER_SIZE \/
     forall ls, text_labels (owner_text rec owner_name) = Ret ls -> let W := wire_name (List.filter nonempty ls) in 255 < len W \/ max < offset + len W + 10)) \/
  exists ls t s2, is_meta_rrtype (type_code rec) = false /\ text_labels (owner_text rec owner_name) = Ret ls /\ wire_ttl rec override_ttl = Ret t /\
    swrote no_hole (res, offset, ctx) [PName (List.filter nonempty ls); POctets (rr_fixed rec t)] s2 /\ snd (fst s2) + 2 <= max /\
    let h := snd (fst s2) in
    r = let! s4 := body rec (fst (fst s2), h + 2, snd s2) in
        let! res' := wr_list (fst (fst s4)) h (w16 (u16 (snd (fst s4) - h - 2))) in Ret (res', snd (fst s4), snd s4).
Proof.
  intros Hs Hn Hw. cbv zeta. unfold serialize_dns_record. destruct (is_meta_rrtype (type_code rec)); [left; split; [done | by left] |].
  destruct (Z.ltb_spec max (offset + DNS_HEADER_SIZE)) as [H12 | H12]; [left; split; [done | right; by left] |].
  assert (out_owner max rec owner_name (res, offset, ctx) = out_text_name max (owner_text rec owner_name) (res, offset, ctx)) as Eo
    by (unfold out_owner, owner_text; rewrite Hw; by destruct owner_name).
  rewrite Eo. destruct (text_name_spec no_hole (res, offset, ctx) (owner_text rec owner_name) Hs Hn) as [[-> Hf] | (ls & [[res1 off1] ctx1] & El & -> & Hw1)].
  { left. split; [done |]. right; right. intros ls El. cbv zeta. destruct (Hf ls El) as [? | ?]; cbn [fst snd] in *; lia. }
  cbn [obind]. pose proof Hw1 as (Hs1 & _ & Ho1 & _). cbn [fst snd size piece_size] in Ho1. 
  assert (plain (need max 10) (res1, off1, ctx1) = if max <? off1 + 10 then Fail else Ret (res1, off1, ctx1)) as -> by (unfold plain, need; cbn [snd]; by case_if).
  destruct (Z.ltb_spec max (off1 + 10)) as [H10 | H10].
  { left. split; [done |]. right; right. intros ls' El'. assert (ls' = ls) as -> by congruence. cbv zeta. lia. }
  cbn [obind]. destruct (ttl_spec rec override_ttl) as [t Et]. rewrite Et. cbn [obind]. fold (rr_fixed rec t).
  assert (length (rr_fixed rec t) = 8%nat) as Hl8 by done.
  destruct (out_spec max (res1, off1) (rr_fixed rec t) (proj1 Hs1)) as ([res2 off2] & E2 & Hw2); [unfold rr_fixed; auto with octets | cbn [snd]; lia |].
  assert (off2 = off1 + 8) as Eo2 by (destruct Hw2 as (_ & _ & Eq); injection Eq as _ Eq; cbn [snd] in Eq; lia).
  assert (plain (out (rr_fixed rec t)) (res1, off1, ctx1) = Ret (res2, off2, ctx1)) as -> by (unfold plain; by rewrite E2).
  right. exists ls, t, (res2, off2, ctx1). split; [done |]. split; [done |]. split; [done |].
  assert (swrote no_hole (res, offset, ctx) ([PName (List.filter nonempty ls)] ++ [POctets (rr_fixed rec t)]) (res2, off2, ctx1)) as Hw3.
  { eapply swrote_app; [done |]. by apply (swrote_octets no_hole (res1, off1, ctx1) _ (res2, off2)). }
  split; [done |]. pose proof Hw3 as (((_ & Ho2 & _ & H6) & _) & _). cbn [fst snd] in *. split; [lia |]. cbn [obind]. rewrite u16_small by lia. unfold body.
  destruct (match generic_data rec with Some _ => _ | None => _ end) as [[[res4 off4] ctx4] | | |]; done.
Qed.

Lemma sgood_body h s rec : fs_ok h s -> cache rec = NotCached -> Forall bytes (rdata rec) -> Forall (text_ok (snd s)) (name_fields rec) -> generic_ok rec ->
  sgood h s (body rec s).
Proof.
  intros Hs Hc Hr Hn Hg. unfold body. pose proof (good_generic rec (fst s) Hg (proj1 Hs)) as Hgen.
  destruct (generic_data rec); [by apply sgood_plain |]. case_if; [by apply sgood_plain | by apply sgood_switch].
Qed.

Lemma serialize_spec res offset ctx rec owner_name override_ttl : fs_ok no_hole (res, offset, ctx) -> record_ok rec ctx owner_name -> name_wire rec = None -> cache rec = NotCached ->
  let r := serialize_dns_record loc_rdata max res offset rec ctx owner_name override_ttl in
  r = Fail \/
  exists res' off' ctx' ls t start ps, r = Ret (res', off', ctx') /\ text_labels (owner_text rec owner_name) = Ret ls /\ wire_ttl rec override_ttl = Ret t /\
    fs_ok no_hole (res', off', ctx') /\ agree res res' offset /\ (is_Some ctx <-> is_Some ctx') /\
    0 <= off' - start <= 65535 /\
    holds no_hole (is_exact ctx) res' off' [PName (List.filter nonempty ls); POctets (rr_fixed rec t ++ w16 (off' - start))] offset start /\
    holds no_hole (is_exact ctx) res' off' ps start off'.
Proof.
  intros Hs (Hn & Hr & Hnf & Hg) Hnw Hc. cbv zeta.
  destruct (serialize_head res offset ctx rec owner_name override_ttl Hs Hn Hnw) as [[-> _] | (ls & t & s2 & _ & El & Et & Hw & Hroom & ->)]; [by left |].
  pose proof Hw as (Hs2 & _ & _ & Hc2 & _). cbn [snd] in Hc2. set (h := snd (fst s2)) in *.
  pose proof (fs_hole s2 Hs2 ltac:(fold h; lia)) as Hs3. fold h in Hs3. pose proof Hs2 as ((_ & Ho2 & _ & H6) & _). rewrite u16_small in Hs3 by (unfold h in *; lia).
  destruct (sgood_body h (fst (fst s2), h + 2, snd s2) rec Hs3 Hc Hr) as [-> | (ps & s4 & -> & Hw4)]; [| done | by left |].
  { cbn [snd]. eapply Forall_impl; [exact Hnf |]. intros f. by apply text_ok_some. }
  cbn [obind]. destruct (serialize_close (res, offset, ctx) rec t _ ps s2 s4 Hs Hw Hw4 Hroom) as (Ew & Hs5 & Hag & Hc5 & Hsz & Hh1 & Hh2). fold h in Ew, Hs5, Hag, Hsz, Hh1, Hh2. rewrite Ew. cbn [obind].
  right. eexists _, _, _, ls, t, (h + 2), ps. split; [done |]. pose proof Hs5 as ((_ & Ho5 & _) & _). cbn [fst snd] in *.
  replace (snd (fst s4) - (h + 2)) with (snd (fst s4) - h - 2) by lia. split; [done |]. split; [done |]. split; [done |]. split; [done |]. split; [done |]. split; [unfold h in *; lia | done].
Qed.

End Full.

(** ** Lemmas: the pre-parsed copies *)

Lemma wr_list_length src : forall buf i buf', wr_list buf i src = Ret buf' -> length buf' = length buf.
Proof.
  induction src as [| v src IH]; intros buf i buf'; cbn [wr_list]; [by intros [= ->] |]. destruct (wr buf i v) as [b | | |] eqn:E; try done. cbn [obind]. intros ->%IH. by eapply wr_length.
Qed.

Lemma put_octets_bound packet off bs packet' off' : 0 <= off -> off + len bs <= 65535 -> put_octets packet off bs = Ret (packet', off') -> off' = off + len bs /\ length packet' = length packet.
Proof.
  intros Ho Hl. rewrite put_octets_fit by done. destruct (wr_list packet off bs) as [p | | |] eqn:E; [| done..]. apply wr_list_length in E. intros [= <- <-]. done.
Qed.

Lemma compress_bound labels : forall packet off c max_len packet' off' c', 0 <= off -> max_len <= 65535 -> compress_labels labels packet off c max_len = Ret (packet', off', c') ->
  off <= off' <= max_len /\ length packet' = length packet.
Proof.
  induction labels as [| [label h] labels IH]; intros packet off c max_len packet' off' c' Ho H6; cbn [compress_labels].
  - destruct (Z.ltb_spec max_len (off + 1)); [done |]. destruct (put_octets packet off [0]) as [[p o] | | |] eqn:E; try done. apply put_octets_bound in E as [-> El]; [| lia | cbn [length]; lia].
    intros [= <- <- _]. cbn [length]. lia.
  - destruct (find_pointer _ _ _ _ _ _ _) as [[target |] | | |]; try done; cbn [obind].
    + destruct (Z.ltb_spec max_len (off + 2)); [done |]. destruct (put_octets packet off _) as [[p o] | | |] eqn:E; try done. apply put_octets_bound in E as [-> El]; [| lia | cbn [length]; lia].
      intros [= <- <- _]. cbn [length]. lia.
    + destruct (Z.ltb_spec max_len (off + len (label_octets label))); [done |]. destruct (put_octets packet off _) as [[p o] | | |] eqn:E; try done. apply put_octets_bound in E as [-> El]; [| lia | lia].
      cbn [obind]. intros [? ->]%IH; [| lia | done]. split; [lia | done].
Qed.

Section Cache.
Context `{InetPton, EvpBase64}.
Variable max : Z.

(** The name in wire form is there when the text is one. *)
Lemma wire_of_spec name : bytes name ->
  wire_of name = Ret (match text_labels name with
                      | Ret ls => let W := wire_name (List.filter nonempty ls) in if len W <=? 255 then Some W else None
                      | _ => None
                      end).
Proof.
  intros Hb. unfold wire_of. rewrite write_uncompressed_spec by (done || lia || (rewrite length_replicate; lia)). destruct (text_labels name) as [ls | | |]; try done.
  unfold written_labels, cased. rewrite map_id. cbv zeta. set (W := wire_name _). pose proof (wire_name_pos (List.filter nonempty ls)) as Hp. fold W in Hp.
  destruct (Z.leb_spec (len W) 255) as [Hl | Hl]; [| by rewrite andb_false_r]. rewrite (proj2 (Z.leb_le (0 + len W) 256)) by lia. cbn [andb]. rewrite (proj2 (Z.ltb_lt 0 (len W))) by lia.
  rewrite splice_slice_self; [done | lia | rewrite length_replicate; lia].
Qed.

(** Enough of the state for both forms of the data to be written alike. *)
Definition in_range (s : list Z * Z) : Prop := 0 <= snd s <= max /\ max <= len (fst s) /\ max <= 65535.

Lemma wire_text_name W name s : in_range (fst s) -> bytes name -> wire_of name = Ret (Some W) -> out_wire_name max W s = out_text_name max name s.
Proof.
  intros (Ho & Hm & H6) Hb. rewrite wire_of_spec by done. destruct (text_labels name) as [ls | | |] eqn:El; try done. cbv zeta. case_if; [| done]. cmp_prop. intros [= <-].
  destruct s as [[res off] [c |]]; unfold out_wire_name, out_text_name; cbn [fst snd] in *.
  - rewrite (write_dns_name_str_spec res off name c max ls Hb El). cbv zeta. rewrite (proj2 (Z.leb_le _ 255)) by done. by destruct (compress_name _ _ _ _ _) as [[[? ?] ?] | | |].
  - unfold write_dns_name_str. rewrite write_uncompressed_spec, El by done.
    unfold written_labels, cased. rewrite map_id. cbv zeta. set (V := wire_name _) in *. unfold need. cbn [snd]. rewrite (proj2 (Z.leb_le _ 255)), andb_true_r by done.
    destruct (Z.ltb_spec max (off + len V)); destruct (Z.leb_spec (off + len V) max); try lia; [done |]. cbn [obind]. unfold out. by rewrite wr_list_splice by lia.
Qed.

Lemma text_name_keeps name s s' : in_range (fst s) -> bytes name -> out_text_name max name s = Ret s' -> in_range (fst s').
Proof.
  intros (Ho & Hm & H6) Hb. destruct s as [[res off] [c |]]; cbn [fst snd] in *; unfold out_text_name.
  - destruct (text_labels name) as [ls | | |] eqn:El;
      [| by rewrite write_text_fail | by destruct (proj1 (text_labels_defined name)) | by destruct (proj2 (text_labels_defined name))].
    rewrite (write_dns_name_str_spec res off name c max ls Hb El). cbv zeta. case_if; [| done]. unfold compress_name.
    destruct (collect_labels _ _) as [labels | | |]; try done. cbn [obind]. destruct (compress_labels _ _ _ _ _) as [[[res' off'] c'] | | |] eqn:Ec; try done.
    apply compress_bound in Ec as [Hoff Hl]; [| lia | done]. cbn [obind]. intros [= <-]. split; cbn [fst snd]; lia.
  - unfold write_dns_name_str. rewrite write_uncompressed_spec by done. destruct (text_labels name) as [ls | | |]; try done. cbv zeta. case_if; [| done]. cmp_prop. cbn [obind].
    intros [= <-]. rewrite u16_small by lia. split; cbn [fst snd]; [lia |]. rewrite length_splice; lia.
Qed.

Lemma text_name_check name s : in_range (fst s) -> bytes name ->
  (let! s := out_text_name max name s in fail_if max <? snd (fst s) ;; Ret s) = out_text_name max name s.
Proof.
  intros Hs Hb. destruct (out_text_name max name s) as [s' | | |] eqn:E; try done. apply text_name_keeps in E as ((_ & Hle) & _); [| done | done]. cbn [obind].
  by rewrite (proj2 (Z.ltb_ge _ _)).
Qed.

(** The same without a context. *)
Lemma wire_name_out W name s : in_range s -> bytes name -> wire_of name = Ret (Some W) -> (let! s := need max (len W) s in out W s) = out_name max name s.
Proof.
  intros Hs Hb E. destruct s as [res off]. pose proof (wire_text_name W name (res, off, None) Hs Hb E) as Ht. unfold out_wire_name, out_text_name, write_dns_name_str in Ht. unfold out_name.
  destruct (need max (len W) (res, off)) as [s1 | | |]; cbn [obind] in *; destruct (write_uncompressed_name_ext _ _ _ _ _) as [[res' w] | | |]; try done; cbn [obind] in *;
    destruct (out W s1) as [[? ?] | | |]; try done. cbn [obind] in Ht. by injection Ht as -> ->.
Qed.

(** The octets of a base64 text, wherever they are written. *)
Definition b64_result (b64 : list Z) : option (list Z) :=
  if (len b64 =? 0) || negb (len b64 mod 4 =? 0) then None
  else
    let padding := (if nth (length b64 - 1) b64 0 =? 61 then 1 else 0) + (if nth (length b64 - 2) b64 0 =? 61 then 1 else 0) in
    let head := len b64 - 4 in
    match (if 0 <? head then evp_decode (take (Z.to_nat head) b64) else Some []), evp_decode (drop (Z.to_nat head) b64) with
    | Some d, Some tail => if (len d =? head / 4 * 3) && (len tail =? 3) then Some (d ++ take (Z.to_nat (3 - padding)) tail) else None
    | _, _ => None
    end.

Definition add_octets (m : Z) (d : list Z) (s : list Z * Z) : outcome (list Z * Z) :=
  if m <? snd s + len d then Fail else Ret (splice (fst s) (snd s) d, snd s + len d).

Lemma add_app m a b s : 0 <= snd s -> m <= len (fst s) -> obind (add_octets m a s) (add_octets m b) = add_octets m (a ++ b) s.
Proof.
  intros Ho Hm. unfold add_octets. rewrite length_app, Nat2Z.inj_add. destruct (Z.ltb_spec m (snd s + len a)); destruct (Z.ltb_spec m (snd s + (len a + len b))); try lia; try done; cbn [obind fst snd].
  - by rewrite (proj2 (Z.ltb_lt _ _)) by lia.
  - rewrite (proj2 (Z.ltb_ge _ _)) by lia. rewrite splice_app by lia. by rewrite Z.add_assoc.
Qed.

Lemma add_size m d s : 0 <= snd s -> m <= len (fst s) -> snd s + len d <= m -> out_size d s = add_octets m d s.
Proof. intros Ho Hm Hl. destruct s as [res off]. cbn [fst snd] in *. unfold out_size, add_octets. cbn [snd]. rewrite (proj2 (Z.ltb_ge _ _)) by lia. by rewrite wr_list_splice by lia. Qed.

Lemma b64_buffer_spec m b64 s : 0 <= snd s -> m <= len (fst s) ->
  decode_b64_buffer m b64 s = match b64_result b64 with Some d => add_octets m d s | None => Fail end.
Proof.
  intros Ho Hm. unfold decode_b64_buffer, b64_result. case_if; [done |]. assert (4 <= len b64 /\ len b64 mod 4 = 0) as [Hl H4] by (Z.to_euclidean_division_equations; lia).
  assert (forall i, (i < length b64)%nat -> rd b64 (Z.of_nat i) = Ret (nth i b64 0)) as Hrd.
  { intros i Hi. destruct (rd_in b64 (Z.of_nat i)) as [c Hc]; [lia |]. rewrite Hc. f_equal. unfold rd in Hc. rewrite (proj2 (Z.ltb_ge _ _)), Nat2Z.id in Hc by lia.
    destruct (b64 !! i) eqn:Eb; [| done]. injection Hc as ->. symmetry. by apply nth_lookup_Some. }
  replace (len b64 - 1) with (Z.of_nat (length b64 - 1)) by lia. replace (len b64 - 2) with (Z.of_nat (length b64 - 2)) by lia. rewrite !Hrd by lia. cbn [obind].
  set (padding := (if nth (length b64 - 1) b64 0 =? 61 then 1 else 0) + (if nth (length b64 - 2) b64 0 =? 61 then 1 else 0)).
  assert (0 <= padding <= 2) as Hp by (unfold padding; case_ifs; lia). set (head := len b64 - 4). unfold need.
  assert (len b64 / 4 * 3 - padding = head / 4 * 3 + (3 - padding)) as -> by (unfold head; Z.to_euclidean_division_equations; lia).
  set (hd := if 0 <? head then evp_decode (take (Z.to_nat head) b64) else Some []). set (tl := evp_decode (drop (Z.to_nat head) b64)).
  assert (forall d tail, hd = Some d -> tl = Some tail -> len d = head / 4 * 3 -> len tail = 3 ->
    len (d ++ take (Z.to_nat (3 - padding)) tail) = head / 4 * 3 + (3 - padding)) as Hlen by (intros d tail _ _ Ed Et; rewrite length_app, length_take; lia).
  destruct (Z.ltb_spec m (snd s + (head / 4 * 3 + (3 - padding)))) as [Hno | Hroom].
  { cbn [obind]. destruct hd as [d |], tl as [tail |]; try done. destruct (Z.eqb_spec (len d) (head / 4 * 3)), (Z.eqb_spec (len tail) 3); try done. cbn [andb].
    unfold add_octets. by rewrite Hlen, (proj2 (Z.ltb_lt _ _)) by done. }
  cbn [obind]. assert (forall d s1, hd = Some d -> len d = head / 4 * 3 -> add_octets m d s = Ret s1 ->
    match tl with Some tail => fail_if negb (len tail =? 3) ;; out_size (take (Z.to_nat (3 - padding)) tail) s1 | None => Fail end =
    match tl with Some tail => if len tail =? 3 then add_octets m (d ++ take (Z.to_nat (3 - padding)) tail) s else Fail | None => Fail end) as Htail.
  { intros d s1 Hd Ed Es. destruct tl as [tail |]; [| done]. destruct (Z.eqb_spec (len tail) 3) as [Et |]; [| done]. cbn [negb]. rewrite <- add_app, Es by done. cbn [obind].
    unfold add_octets in Es. case_if_in Es; [done |]. injection Es as <-. cmp_prop. cbn [fst snd]. apply add_size; cbn [fst snd]; [lia | rewrite length_splice; lia |]. rewrite length_take. lia. }
  fold tl. unfold hd in *. destruct (Z.ltb_spec 0 head) as [Hh | Hh].
  - destruct (evp_decode (take _ b64)) as [d |] eqn:Ed; [| done]. destruct (Z.eqb_spec (len d) (head / 4 * 3)) as [El | El]; cbn [negb andb]; [| by destruct tl].
    rewrite (add_size m) by lia. destruct (add_octets m d s) as [s1 | | |] eqn:Es; try (unfold add_octets in Es; case_if_in Es; try done; lia). cbn [obind]. rewrite (Htail d s1) by done.
    destruct tl as [tail |]; [| done]. by destruct (len tail =? 3).
  - assert (head = 0) as E0 by (unfold head in *; lia). cbn [obind]. rewrite (Htail [] s); [| done | by rewrite E0 |].
    + rewrite E0. cbn [Z.div Z.eqb andb app]. destruct tl as [tail |]; [| done]. by destruct (len tail =? 3).
    + rewrite E0, Z.div_0_l in Hroom by lia. unfold add_octets. cbn [length]. rewrite (proj2 (Z.ltb_ge _ _)) by lia. rewrite splice_nil, Z.add_0_r. by destruct s.
Qed.

Lemma need_out_add d s : in_range s -> (let! s := need max (len d) s in out d s) = add_octets max d s.
Proof.
  intros (Ho & Hm & H6). destruct s as [res off]. cbn [fst snd] in *. unfold need, add_octets. cbn [fst snd]. destruct (Z.ltb_spec max (off + len d)); [done |]. cbn [obind]. unfold out.
  rewrite wr_list_splice by lia. cbn [obind]. by rewrite u16_small by lia.
Qed.

Lemma add_keeps d s s' : in_range s -> add_octets max d s = Ret s' -> in_range s' /\ snd s' = snd s + len d.
Proof.
  intros (Ho & Hm & H6). unfold add_octets. case_if; [done |]. cmp_prop. intros [= <-]. unfold in_range. cbn [fst snd]. split; [| done]. split; [lia |]. rewrite length_splice; lia.
Qed.

Lemma out_add d s : in_range s -> snd s + len d <= max -> out d s = add_octets max d s.
Proof. intros Hs Hl. rewrite <- need_out_add by done. unfold need. by rewrite (proj2 (Z.ltb_ge _ _)). Qed.

Lemma out_b64_spec fields s : in_range s ->
  out_b64 max fields s = if 87384 <? len (concat fields) then Fail else match b64_result (concat fields) with Some d => add_octets max d s | None => Fail end.
Proof.
  intros (Ho & Hm & H6). unfold out_b64, decode_concat_b64_rdata. rewrite (proj2 (Z.ltb_ge max (snd s))) by lia. case_if; [done |]. rewrite b64_buffer_spec by lia.
  destruct (b64_result _) as [d |]; [| done]. unfold add_octets. case_if; [done |]. cmp_prop. cbn [obind]. by rewrite u16_small by lia.
Qed.

Lemma b64_result_length b64 d : b64_result b64 = Some d -> len d <= len b64 / 4 * 3.
Proof.
  unfold b64_result. case_if; [done |]. cbv zeta. destruct (if 0 <? len b64 - 4 then _ else _) as [hd |]; [| done]. destruct (evp_decode (drop _ _)) as [tl |]; [| done]. case_if; [| done].
  intros [= <-]. rewrite length_app, length_take. assert (4 <= len b64) by (Z.to_euclidean_division_equations; lia). Z.to_euclidean_division_equations; lia.
Qed.

Lemma preparse_signature fields : let max_dec_len := len (concat fields) * 3 / 4 + 4 in
  match decode_concat_b64_rdata max_dec_len fields (replicate (Z.to_nat max_dec_len) 0, 0) with
  | Ret (dec_buf, real_len) => let! sig := slice dec_buf 0 real_len in Ret (Some sig)
  | Fail => Ret None | Oob => Oob | NoFuel => NoFuel
  end = Ret (if 87384 <? len (concat fields) then None else b64_result (concat fields)).
Proof.
  cbv zeta. set (m := len (concat fields) * 3 / 4 + 4). assert (4 <= m) as Hm by (unfold m; Z.to_euclidean_division_equations; lia). unfold decode_concat_b64_rdata. cbn [snd].
  rewrite (proj2 (Z.ltb_ge m 0)) by lia. case_if; [done |]. rewrite b64_buffer_spec by (cbn [fst snd]; rewrite ?length_replicate; lia). destruct (b64_result _) as [d |] eqn:Ed; [| done].
  apply b64_result_length in Ed. unfold add_octets. cbn [fst snd]. assert (len d <= m) as Hd by (unfold m; Z.to_euclidean_division_equations; lia).
  rewrite (proj2 (Z.ltb_ge m (0 + len d))) by lia. rewrite splice_slice_self; [done | lia | rewrite length_replicate; lia].
Qed.

Lemma out_keeps d s s' : in_range s -> snd s + len d <= max -> out d s = Ret s' -> in_range s'.
Proof.
  intros (Ho & Hm & H6) Hl. destruct s as [res off]. cbn [fst snd] in *. unfold out. rewrite wr_list_splice by lia. cbn [obind]. intros [= <-]. rewrite u16_small by lia.
  split; cbn [fst snd]; [lia |]. rewrite length_splice; lia.
Qed.

Lemma out_name_keeps name s s' : in_range s -> bytes name -> out_name max name s = Ret s' -> in_range s'.
Proof.
  intros (Ho & Hm & H6) Hb. destruct s as [res off]. cbn [fst snd] in *. unfold out_name. rewrite write_uncompressed_spec by done. destruct (text_labels name) as [ls | | |]; try done.
  cbv zeta. case_if; [| done]. cmp_prop. cbn [obind]. intros [= <-]. rewrite u16_small by lia. split; cbn [fst snd]; [lia |]. rewrite length_splice; lia.
Qed.

(** ** Lemmas: the cases of the pre-parsed copies *)

Variable rdata : list (list Z).
Hypothesis Hrdata : Forall bytes rdata.

Lemma ns_cached f0 w s : in_range (fst s) -> fld rdata 0 = Ret f0 -> wire_of f0 = Ret w ->
  rdata_ns max (match w with Some w => CacheName w | None => NotCached end) rdata s = rdata_ns max NotCached rdata s.
Proof.
  intros Hs E0 Ew. destruct w as [w |]; [| done]. destruct rdata as [| f rdata']; [done |]. apply Forall_cons_1 in Hrdata as [Hb _]. injection E0 as ->. cbn [rdata_ns].
  rewrite (proj2 (Z.eqb_neq _ 0)) by (cbn [length]; lia). unfold fld. cbn [lookup list_lookup obind]. by rewrite text_name_check, (wire_text_name w f0).
Qed.

Lemma name_cached f0 w s : in_range s -> fld rdata 0 = Ret f0 -> wire_of f0 = Ret (Some w) -> (let! s := need max (len w) s in out w s) = rdata_name max rdata s.
Proof.
  intros Hs E0 Ew. destruct rdata as [| f rdata']; [done |]. apply Forall_cons_1 in Hrdata as [Hb _]. injection E0 as ->. unfold rdata_name.
  rewrite (proj2 (Z.eqb_neq _ 0)) by (cbn [length]; lia). unfold fld. cbn [lookup list_lookup obind]. by apply wire_name_out.
Qed.

Lemma plain_need n s : plain (need max n) s = if max <? snd (fst s) + n then Fail else Ret s.
Proof. destruct s as [[res off] ctx]. unfold plain, need. cbn [fst snd]. by case_if. Qed.

Lemma plain_out_keeps d s s' : in_range (fst s) -> snd (fst s) + len d <= max -> plain (out d) s = Ret s' -> in_range (fst s') /\ snd s' = snd s.
Proof.
  intros Hs Hl. destruct s as [[res off] ctx]. unfold plain. destruct (out d (res, off)) as [[res' off'] | | |] eqn:E; try done. cbn [obind]. intros [= <-]. cbn [fst snd].
  split; [| done]. by eapply out_keeps.
Qed.

Lemma mx_cached f0 f1 pref w s : in_range (fst s) -> fld rdata 0 = Ret f0 -> fld rdata 1 = Ret f1 -> parse_u16 f0 = Ret pref -> wire_of f1 = Ret w ->
  rdata_mx max (CacheMx pref f1 w) rdata s = rdata_mx max NotCached rdata s.
Proof.
  intros Hs E0 E1 Ep Ew. destruct rdata as [| f [| f' rdata']]; [done.. |]. injection E0 as ->. injection E1 as ->. apply Forall_cons_1 in Hrdata as [_ Hr]. apply Forall_cons_1 in Hr as [Hb _].
  unfold rdata_mx. rewrite (proj2 (Z.ltb_ge _ 2)) by (cbn [length]; lia). rewrite plain_need. destruct (Z.ltb_spec max (snd (fst s) + 2)); [done |]. cbn [obind].
  unfold fld. cbn [lookup list_lookup obind]. rewrite Ep. cbn [obind]. destruct w as [w |]; [| done].
  destruct (plain (out (w16 pref)) s) as [s1 | | |] eqn:E; try done. apply plain_out_keeps in E as [Hs1 _]; [| done | cbn [length w16]; lia]. cbn [obind].
  by rewrite text_name_check, (wire_text_name w f1).
Qed.

Lemma srv_cached f0 f1 f2 f3 prio weight port w s : in_range s -> fld rdata 0 = Ret f0 -> fld rdata 1 = Ret f1 -> fld rdata 2 = Ret f2 -> fld rdata 3 = Ret f3 ->
  parse_u16 f0 = Ret prio -> parse_u16 f1 = Ret weight -> parse_u16 f2 = Ret port -> wire_of f3 = Ret w ->
  (fail_if len rdata <? 4 ;;
   let! s := need max 6 s in
   let! s := out (w16 prio ++ w16 weight ++ w16 port) s in
   match w with Some w => let! s := need max (len w) s in out w s | None => out_name max f3 s end) = rdata_srv max rdata s.
Proof.
  intros Hs E0 E1 E2 E3 Ep Ewt Epo Ew. unfold rdata_srv. case_if; [done |]. unfold need at 1 3. destruct (Z.ltb_spec max (snd s + 6)); [done |]. cbn [obind].
  rewrite E0. cbn [obind]. rewrite Ep, E1. cbn [obind]. rewrite Ewt, E2. cbn [obind]. rewrite Epo, E3. cbn [obind]. destruct w as [w |]; [| done].
  destruct (out _ s) as [s1 | | |] eqn:Eo; try done. apply out_keeps in Eo; [| done | cbn [length app w16]; lia]. cbn [obind]. apply wire_name_out; [done | | done].
  unfold fld in E3. destruct (rdata !! 3%nat) eqn:El; [| done]. injection E3 as ->. by eapply Forall_lookup_1.
Qed.

Lemma txt_cached s : in_range s -> len rdata <> 0 -> (let d := concat (map txt_field rdata) in let! s := need max (len d) s in out d s) = rdata_txt max rdata s.
Proof. intros Hs Hl. unfold rdata_txt. rewrite (proj2 (Z.eqb_neq _ 0)) by done. by rewrite (proj2 (txt_wire_spec rdata Hrdata)). Qed.

Lemma addr_cached fam n a f0 s : fld rdata 0 = Ret f0 -> inet_pton fam f0 = Some a -> (fail_if len rdata =? 0 ;; let! s := need max n s in out a s) = rdata_a max fam n rdata s.
Proof. intros E0 Ea. unfold rdata_a. case_if; [done |]. destruct (need max n s); try done. cbn [obind]. rewrite E0. cbn [obind]. unfold out_addr. by rewrite Ea. Qed.

Lemma rrsig_cached rec c s : in_range s -> Record.rdata rec = rdata -> generic_data rec = None -> preparse_rrsig rec = Ret c -> rdata_rrsig max c rdata s = rdata_rrsig max NotCached rdata s.
Proof.
  intros Hs Er Hg. unfold preparse_rrsig. rewrite Er, Hg. unfold rdata_rrsig.
  destruct (fld rdata 0) as [f0 | | |]; try done. destruct (fld rdata 1) as [f1 | | |]; try done. destruct (fld rdata 2) as [f2 | | |]; try done. destruct (fld rdata 3) as [f3 | | |]; try done.
  destruct (fld rdata 4) as [f4 | | |]; try done. destruct (fld rdata 5) as [f5 | | |]; try done. destruct (fld rdata 6) as [f6 | | |]; try done. destruct (fld rdata 7) as [f7 | | |] eqn:E7; try done.
  cbn [obind]. unfold orelse. destruct (parse_u8 f1) as [al | | |]; try done; [| by intros [= <-]]. destruct (parse_u8 f2) as [lb | | |]; try done; [| by intros [= <-]].
  destruct (parse_u16 f6) as [kt | | |]; try done; [| by intros [= <-]]. rewrite preparse_signature. cbn [obind]. intros [= <-]. case_if; [done |].
  unfold out_rrsig. unfold need at 1 3. destruct (Z.ltb_spec max (snd s + 18)); [done |]. cbn [obind]. destruct (out _ s) as [s1 | | |] eqn:Eo; try done.
  apply out_keeps in Eo; [| done | cbn [length app w16 w32]; lia]. cbn [obind]. destruct (out_name max f7 s1) as [s2 | | |] eqn:En; try done.
  apply out_name_keeps in En; [| done |]. 2: { unfold fld in E7. destruct (rdata !! 7%nat) eqn:El; [| done]. injection E7 as ->. by eapply Forall_lookup_1. }
  cbn [obind]. destruct (if 87384 <? _ then _ else _) as [d |] eqn:Ed; [| done]. rewrite need_out_add, out_b64_spec by done. case_if; [done |]. by rewrite Ed.
Qed.

Lemma text_name_add W name res off : in_range (res, off) -> bytes name -> wire_of name = Ret (Some W) ->
  out_text_name max name (res, off, None) = if max <? off + len W then Fail else Ret (splice res off W, off + len W, None).
Proof.
  intros Hs Hb Ew. rewrite <- (wire_text_name W name (res, off, None)) by done. pose proof (need_out_add W (res, off) Hs) as Ho. unfold add_octets in Ho. cbn [fst snd] in Ho.
  unfold out_wire_name. destruct (need max (len W) (res, off)) as [s | | |]; cbn [obind] in *; [rewrite Ho | ..]; by case_if_in Ho || case_if.
Qed.

(** Without a context the room for the whole RDATA is checked first. *)
Lemma soa_plain mw rw nums mname rname res off : in_range (res, off) -> bytes mname -> bytes rname -> wire_of mname = Ret (Some mw) -> wire_of rname = Ret (Some rw) -> length nums = 20%nat ->
  (let! s := plain (need max (len mw + len rw + 20)) (res, off, None) in
   let! s := plain (fun s => let! s := out mw s in out rw s) s in plain (out nums) s) =
  (let! s := out_text_name max mname (res, off, None) in let! s := out_text_name max rname s in let! s := plain (need max 20) s in plain (out nums) s).
Proof.
  intros Hs Hbm Hbr Em Er Hn. rewrite (text_name_add mw) by done. pose proof Hs as (Ho & Hm & H6). cbn [fst snd] in *. rewrite plain_need. cbn [fst snd].
  assert (forall d r o, 0 <= o -> o + len d <= max -> max <= len r -> out d (r, o) = Ret (splice r o d, o + len d)) as Hout
    by (intros d r o ? ? ?; unfold out; rewrite wr_list_splice by lia; cbn [obind]; by rewrite u16_small by lia).
  destruct (Z.ltb_spec max (off + len mw)).
  { by rewrite (proj2 (Z.ltb_lt _ _)) by lia. }
  cbn [obind]. rewrite (text_name_add rw) by (done || (split; cbn [fst snd]; [lia | rewrite length_splice; lia])).
  destruct (Z.ltb_spec max (off + len mw + len rw)).
  { by rewrite (proj2 (Z.ltb_lt _ _)) by lia. }
  cbn [obind]. rewrite plain_need. cbn [fst snd]. destruct (Z.ltb_spec max (off + len mw + len rw + 20)); destruct (Z.ltb_spec max (off + (len mw + len rw + 20))); try lia; [done |].
  cbn [obind]. unfold plain. rewrite (Hout mw) by lia. cbn [obind]. by rewrite (Hout rw) by (rewrite ?length_splice; lia).
Qed.

Lemma soa_cached c s : in_range (fst s) -> 7 <= len rdata -> preparse_soa rdata = Ret c -> rdata_soa max c rdata s = rdata_soa max NotCached rdata s.
Proof.
  intros Hs Hl. destruct (soa_numbers_spec rdata) as (numbers & En & H5); [lia |]. destruct rdata as [| f0 [| f1 rdata']]; [done.. |]. apply Forall_cons_1 in Hrdata as [Hb0 Hr].
  apply Forall_cons_1 in Hr as [Hb1 _]. unfold preparse_soa, rdata_soa. rewrite En. unfold fld. cbn [lookup list_lookup obind]. destruct (wire_of f0) as [mw | | |] eqn:Em; try done.
  destruct (wire_of f1) as [rw | | |] eqn:Er; try done. cbn [obind]. intros [= <-]. rewrite (proj2 (Z.ltb_ge _ 7)) by lia. destruct mw as [mw |]; [| done]. destruct rw as [rw |]; [| done].
  assert (length (concat (map w32 numbers)) = 20%nat) as H20 by (destruct numbers as [| ? [| ? [| ? [| ? [| ? [|]]]]]]; done). destruct s as [[res off] [ctx |]]; cbn [snd]; unfold out_soa.
  - rewrite (wire_text_name mw f0) by done. destruct (out_text_name max f0 _) as [s1 | | |] eqn:E1; try done. apply text_name_keeps in E1; [| done | done]. cbn [obind].
    rewrite (wire_text_name rw f1) by done. by destruct (out_text_name max f1 s1).
  - rewrite <- soa_plain with (mw := mw) (rw := rw) by done. by destruct (plain (need max (len mw + len rw + 20)) (res, off, None)).
Qed.

Lemma field_at i f : fld rdata i = Ret f -> bytes f.
Proof. unfold fld. destruct (rdata !! i) eqn:E; [| done]. intros [= <-]. by eapply Forall_lookup_1. Qed.

Lemma wire_of_total f : bytes f -> exists w, wire_of f = Ret w.
Proof. intros Hb. rewrite wire_of_spec by done. by eexists. Qed.

Lemma plain_eq f g s : f (fst s) = g (fst s) -> plain f s = plain g s.
Proof. destruct s as [[res off] ctx]. unfold plain. cbn [fst]. by intros ->. Qed.

End Cache.

Section CacheSwitch.
Context `{InetPton, EvpBase64}.
Variable loc_rdata : list (list Z) -> option (list Z).
Variable max : Z.
Variable rec : dns_record_t.
Hypothesis Hbytes : Forall bytes (rdata rec).
Hypothesis Hcache : cache rec = NotCached.
Hypothesis Hgeneric : generic_data rec = None.
Hypothesis Hcount : len (rdata rec) <> 0.

Lemma pre_name c : (let! f0 := fld (rdata rec) 0 in let! w := wire_of f0 in Ret (match w with Some w => CacheName w | None => NotCached end)) = Ret c ->
  (forall s, in_range max (fst s) -> rdata_ns max c (rdata rec) s = rdata_ns max NotCached (rdata rec) s) /\
  (forall s, in_range max s ->
     match c with NotCached => rdata_name max (rdata rec) s | CacheName w => let! s := need max (len w) s in out w s | _ => Oob end = rdata_name max (rdata rec) s).
Proof.
  intros Hp. destruct (fld (rdata rec) 0) as [f0 | | |] eqn:E0; try done. cbn [obind] in Hp. destruct (wire_of f0) as [w | | |] eqn:Ew; try done. injection Hp as <-.
  split; intros s Hs; [by apply (ns_cached max (rdata rec) Hbytes f0) |]. destruct w as [w |]; [| done]. by apply (name_cached max (rdata rec) Hbytes f0).
Qed.

Lemma pre_mx c s : in_range max (fst s) ->
  (if 2 <=? len (rdata rec) then
     let! f0 := fld (rdata rec) 0 in let! f1 := fld (rdata rec) 1 in
     orelse (parse_u16 f0) NotCached (fun pref => let! w := wire_of f1 in Ret (CacheMx pref f1 w))
   else Ret NotCached) = Ret c -> rdata_mx max c (rdata rec) s = rdata_mx max NotCached (rdata rec) s.
Proof.
  intros Hs. case_if; [| by intros [= <-]]. destruct (fld (rdata rec) 0) as [f0 | | |] eqn:E0; try done. destruct (fld (rdata rec) 1) as [f1 | | |] eqn:E1; try done.
  cbn [obind]. unfold orelse. destruct (parse_u16 f0) as [pref | | |] eqn:Ep; try done; [| by intros [= <-]]. destruct (wire_of f1) as [w | | |] eqn:Ew; try done. intros [= <-].
  by apply (mx_cached max (rdata rec) Hbytes f0 f1).
Qed.

Lemma pre_srv c s : in_range max s ->
  (if 4 <=? len (rdata rec) then
     let! f0 := fld (rdata rec) 0 in let! f1 := fld (rdata rec) 1 in let! f2 := fld (rdata rec) 2 in let! f3 := fld (rdata rec) 3 in
     orelse (parse_u16 f0) NotCached (fun prio => orelse (parse_u16 f1) NotCached (fun weight => orelse (parse_u16 f2) NotCached (fun port =>
       let! w := wire_of f3 in Ret (CacheSrv prio weight port f3 w))))
   else Ret NotCached) = Ret c ->
  match c with
  | NotCached => rdata_srv max (rdata rec) s
  | CacheSrv prio weight port _ (Some target_wire) =>
      fail_if len (rdata rec) <? 4 ;; let! s := need max 6 s in let! s := out (w16 prio ++ w16 weight ++ w16 port) s in let! s := need max (len target_wire) s in out target_wire s
  | CacheSrv prio weight port target None =>
      fail_if len (rdata rec) <? 4 ;; let! s := need max 6 s in let! s := out (w16 prio ++ w16 weight ++ w16 port) s in out_name max target s
  | _ => Oob
  end = rdata_srv max (rdata rec) s.
Proof.
  intros Hs. case_if; [| by intros [= <-]]. destruct (fld (rdata rec) 0) as [f0 | | |] eqn:E0; try done. destruct (fld (rdata rec) 1) as [f1 | | |] eqn:E1; try done.
  destruct (fld (rdata rec) 2) as [f2 | | |] eqn:E2; try done. destruct (fld (rdata rec) 3) as [f3 | | |] eqn:E3; try done.
  cbn [obind]. unfold orelse. destruct (parse_u16 f0) as [prio | | |] eqn:Ep; try done; [| by intros [= <-]]. destruct (parse_u16 f1) as [weight | | |] eqn:Ewt; try done; [| by intros [= <-]].
  destruct (parse_u16 f2) as [port | | |] eqn:Epo; try done; [| by intros [= <-]]. destruct (wire_of f3) as [w | | |] eqn:Ew; try done. intros [= <-].
  destruct w as [w |]; [by apply (srv_cached max (rdata rec) Hbytes f0 f1 f2 f3 prio weight port (Some w)) | by apply (srv_cached max (rdata rec) Hbytes f0 f1 f2 f3 prio weight port None)].
Qed.

Lemma pre_txt c s : in_range max s ->
  (if (0 <? txt_required (rdata rec)) && (txt_required (rdata rec) <=? 65535) then
     let! txt_buf := put_list (txt_required (rdata rec)) [] (concat (map txt_field (rdata rec))) in Ret (CacheTxt txt_buf)
   else Ret NotCached) = Ret c ->
  match c with NotCached => rdata_txt max (rdata rec) s | CacheTxt w => let! s := need max (len w) s in out w s | _ => Oob end = rdata_txt max (rdata rec) s.
Proof.
  intros Hs. case_if; [| by intros [= <-]]. unfold put_list. case_if; [| done]. intros [= <-]. by apply (txt_cached max (rdata rec) Hbytes).
Qed.

Lemma pre_rrsig c s : in_range max s -> (if 9 <=? len (rdata rec) then preparse_rrsig rec else Ret NotCached) = Ret c ->
  rdata_rrsig max c (rdata rec) s = rdata_rrsig max NotCached (rdata rec) s.
Proof. intros Hs. case_if; [| by intros [= <-]]. intros Hp. by apply (rrsig_cached max (rdata rec) Hbytes rec). Qed.

Lemma pre_soa c s : in_range max (fst s) -> (if 7 <=? len (rdata rec) then preparse_soa (rdata rec) else Ret NotCached) = Ret c ->
  rdata_soa max c (rdata rec) s = rdata_soa max NotCached (rdata rec) s.
Proof. intros Hs. case_if; [| by intros [= <-]]. cmp_prop. intros Hp. by apply (soa_cached max (rdata rec) Hbytes). Qed.

Lemma pre_addr c s :
  ((let! f0 := fld (rdata rec) 0 in Ret (match inet_pton AF_INET f0 with Some a => CacheA a | None => NotCached end)) = Ret c ->
   match c with NotCached => rdata_a max AF_INET 4 (rdata rec) s | CacheA a => fail_if len (rdata rec) =? 0 ;; let! s := need max 4 s in out a s | _ => Oob end
   = rdata_a max AF_INET 4 (rdata rec) s) /\
  ((let! f0 := fld (rdata rec) 0 in Ret (match inet_pton AF_INET6 f0 with Some a => CacheAaaa a | None => NotCached end)) = Ret c ->
   match c with NotCached => rdata_a max AF_INET6 16 (rdata rec) s | CacheAaaa a => fail_if len (rdata rec) =? 0 ;; let! s := need max 16 s in out a s | _ => Oob end
   = rdata_a max AF_INET6 16 (rdata rec) s).
Proof.
  split; destruct (fld (rdata rec) 0) as [f0 | | |] eqn:E0; try done; intros [= <-]; destruct (inet_pton _ f0) as [a |] eqn:Ea; try done; by apply (addr_cached max (rdata rec) _ _ a f0).
Qed.

(** Every pre-parse ends with a copy or without one. *)
Definition returns {A} (o : outcome A) : Prop := exists a, o = Ret a.

Lemma returns_ret {A} (a : A) : returns (Ret a).
Proof. by exists a. Qed.

Lemma returns_field {A} i (k : list Z -> outcome A) : Z.of_nat i < len (rdata rec) -> (forall f, bytes f -> returns (k f)) -> returns (obind (fld (rdata rec) i) k).
Proof. intros Hi Hk. destruct (fld_in (rdata rec) i) as (f & E & _); [lia |]. rewrite E. apply Hk. by eapply field_at. Qed.

Lemma returns_wire {A} f (k : option (list Z) -> outcome A) : bytes f -> (forall w, returns (k w)) -> returns (obind (wire_of f) k).
Proof. intros Hb Hk. destruct (wire_of_total f Hb) as [w ->]. apply Hk. Qed.

Lemma returns_num {A} n f (d : A) k : (forall v, returns (k v)) -> returns (orelse (parse_num n f) d k).
Proof. intros Hk. pose proof (parse_num_defined n f) as [? ?]. unfold orelse. destruct (parse_num n f); try done; apply returns_ret. Qed.

Lemma returns_rrsig : 9 <= len (rdata rec) -> returns (preparse_rrsig rec).
Proof.
  intros Hl. unfold preparse_rrsig. cbv zeta. do 8 (apply returns_field; [lia |]; intros ? ?). do 3 (apply returns_num; intros ?). clear Hgeneric.
  destruct (generic_data rec); [apply returns_ret |]. rewrite preparse_signature. apply returns_ret.
Qed.

Lemma returns_soa : 7 <= len (rdata rec) -> returns (preparse_soa (rdata rec)).
Proof.
  intros Hl. unfold preparse_soa. do 2 (apply returns_field; [lia |]; intros ? ?). destruct (soa_numbers_spec (rdata rec)) as (numbers & -> & _); [lia |]. cbn [obind].
  do 2 (apply returns_wire; [done |]; intros ?). apply returns_ret.
Qed.

Lemma returns_txt : returns (if (0 <? txt_required (rdata rec)) && (txt_required (rdata rec) <=? 65535) then
     let! txt_buf := put_list (txt_required (rdata rec)) [] (concat (map txt_field (rdata rec))) in Ret (CacheTxt txt_buf) else Ret NotCached).
Proof. destruct (txt_wire_spec (rdata rec) Hbytes) as [_ ->]. case_if; [| apply returns_ret]. rewrite put_list_in by (cbn [length]; lia). apply returns_ret. Qed.

Lemma preparse_total : returns (preparse_rdata rec).
Proof.
  assert (0 < len (rdata rec)) as Hl by lia. pose proof returns_txt as Ht. unfold preparse_rdata. cbv zeta.
  repeat match goal with
         | |- returns (match ?z with Z0 => _ | Zpos _ => _ | Zneg _ => _ end) => destruct z
         | |- returns (match ?z with xI _ => _ | xO _ => _ | xH => _ end) => destruct z
         end; try apply returns_ret; try exact Ht;
    repeat first [apply returns_ret | apply returns_rrsig; lia | apply returns_soa; lia | apply returns_field; [lia |]; intros ? ? | apply returns_wire; [done |]; intros ?
                 | apply returns_num; intros ? | match goal with |- returns (if ?b then _ else _) => destruct b eqn:?; cmp_prop end].
Qed.

Lemma switch_cached nw c s : in_range max (fst s) -> preparse_rdata rec = Ret c -> rdata_switch loc_rdata max (set_cache rec nw c) s = rdata_switch loc_rdata max rec s.
Proof.
  intros Hs Hp. unfold rdata_switch, preparse_rdata in *. cbn [set_cache rdata type_code cache]. rewrite Hcache.
  assert (plain (rdata_cached max (set_cache rec nw c)) s = plain (rdata_cached max rec) s -> plain (rdata_cached max (set_cache rec nw c)) s = plain (rdata_cached max rec) s) as Hplain by done.
  unfold rdata_cached in Hplain at 1 2. cbn [set_cache rdata type_code cache] in Hplain. rewrite Hcache in Hplain.
  repeat match goal with
         | H : context [match ?z with Z0 => _ | Zpos _ => _ | Zneg _ => _ end] |- _ => destruct z
         | H : context [match ?z with xI _ => _ | xO _ => _ | xH => _ end] |- _ => destruct z
         end; try (injection Hp as <-; done);
    first [apply (proj1 (pre_name c Hp)); done | by apply pre_mx | apply Hplain, plain_eq | idtac];
    first [apply (proj2 (pre_name c Hp)); done | by apply pre_srv | by apply pre_txt | by apply pre_rrsig | by apply pre_soa | by apply pre_addr].
Qed.

End CacheSwitch.

Lemma body_cached `{InetPton, EvpBase64} loc_rdata max rec nw c s : Forall bytes (rdata rec) -> cache rec = NotCached -> len (rdata rec) <> 0 ->
  in_range max (fst s) -> preparse_rdata rec = Ret c -> body loc_rdata max (set_cache rec nw c) s = body loc_rdata max rec s.
Proof.
  intros Hb Hc Hl Hs Hp. unfold body. cbn [set_cache generic_data class_val]. destruct (generic_data rec) eqn:Hg; [done |]. case_if; [done |]. by apply switch_cached.
Qed.

Lemma serialize_body `{InetPton, EvpBase64} loc_rdata max res offset rec ctx owner_name override_ttl :
  serialize_dns_record loc_rdata max res offset rec ctx owner_name override_ttl =
  (fail_if is_meta_rrtype (type_code rec) ;;
   fail_if max <? offset + DNS_HEADER_SIZE ;;
   let! s := out_owner max rec owner_name (res, offset, ctx) in
   let! s := plain (need max 10) s in
   let! t := wire_ttl rec override_ttl in
   let! s := plain (out (rr_fixed rec t)) s in
   let h := snd (fst s) in
   let! s4 := body loc_rdata max rec (fst (fst s), u16 (h + 2), snd s) in
   let! res' := wr_list (fst (fst s4)) h (w16 (u16 (snd (fst s4) - h - 2))) in
   Ret (res', snd (fst s4), snd s4)).
Proof.
  unfold serialize_dns_record. case_if; [done |]. case_if; [done |]. destruct (out_owner _ _ _ _) as [s | | |]; try done. cbn [obind]. destruct (plain (need max 10) s) as [s1 | | |]; try done. cbn [obind].
  destruct (wire_ttl rec override_ttl) as [t | | |]; try done. cbn [obind]. fold (rr_fixed rec t). destruct (plain (out (rr_fixed rec t)) s1) as [[[res1 off1] ctx1] | | |]; try done. cbn [obind fst snd].
  unfold body. by destruct (match generic_data rec with Some _ => _ | None => _ end) as [[[res2 off2] ctx2] | | |].
Qed.

Lemma serialize_cached `{InetPton, EvpBase64} loc_rdata max res offset rec nw c ctx owner_name override_ttl :
  in_range max (res, offset) -> bytes (owner_text rec owner_name) -> Forall bytes (rdata rec) -> cache rec = NotCached -> name_wire rec = None -> len (rdata rec) <> 0 ->
  (bytes (name rec) -> wire_of (name rec) = Ret nw) -> preparse_rdata rec = Ret c ->
  serialize_dns_record loc_rdata max res offset (set_cache rec nw c) ctx owner_name override_ttl = serialize_dns_record loc_rdata max res offset rec ctx owner_name override_ttl.
Proof.
  intros Hs Ho Hb Hc Hnw Hl Hw Hp. rewrite !serialize_body. cbn [set_cache type_code]. case_if; [done |]. case_if; [done |].
  assert (out_owner max rec owner_name (res, offset, ctx) = out_text_name max (owner_text rec owner_name) (res, offset, ctx)) as Er
    by (unfold out_owner, owner_text; rewrite Hnw; by destruct owner_name).
  assert (out_owner max (set_cache rec nw c) owner_name (res, offset, ctx) = out_text_name max (owner_text rec owner_name) (res, offset, ctx)) as Ec.
  { unfold out_owner, owner_text in *. cbn [set_cache name_wire name]. destruct owner_name as [o |]; [done |]. destruct nw as [w |]; [| done]. cbn [default] in *. apply wire_text_name; auto. }
  rewrite Er. fold (set_cache rec nw c). rewrite Ec. destruct (out_text_name max _ _) as [s1 | | |] eqn:E1; try done. apply text_name_keeps in E1; [| done | done]. cbn [obind].
  rewrite plain_need. destruct (Z.ltb_spec max (snd (fst s1) + 10)); [done |]. cbn [obind]. change (wire_ttl (set_cache rec nw c) override_ttl) with (wire_ttl rec override_ttl).
  destruct (wire_ttl rec override_ttl) as [t | | |]; try done. cbn [obind]. change (rr_fixed (set_cache rec nw c) t) with (rr_fixed rec t).
  destruct (plain (out (rr_fixed rec t)) s1) as [s2 | | |] eqn:E2; try done. assert (snd (fst s2) = snd (fst s1) + 8) as E8.
  { destruct s1 as [[res1 off1] ctx1], E1 as (Ho1 & Hm1 & H6). cbn [fst snd] in *. unfold plain, out in E2. assert (length (rr_fixed rec t) = 8%nat) as Hl8 by done. rewrite wr_list_splice in E2 by lia.
    cbn [obind] in E2. injection E2 as <-. cbn [fst snd]. rewrite u16_small by lia. lia. }
  apply (plain_out_keeps max) in E2 as [Hs2 _]; [| done | assert (length (rr_fixed rec t) = 8%nat) as Hl8 by done; lia]. cbn [obind]. rewrite body_cached; try done.
  destruct Hs2 as (? & ? & ?). split; cbn [fst snd]; [rewrite u16_small by lia; lia | done].
Qed.

(** ** Properties *)

(** C2. A record that is written is framed: for every type, [serialize_dns_record]
    into a buffer of at most 65535 octets fails, or it leaves every octet before
    the offset alone and stays inside the limit, and the packet then has the
    owner name, the type, class and TTL, and an RDLENGTH that is the number of
    octets of RDATA behind it, though the length is filled in after RDATA with
    compressed names was written. The compression table stays correct for the
    next record. When names are compressed, this asks that neither the owner
    name nor a name of the RDATA that is compressed has two suffixes with the
    same 32-bit FNV hash ([distinct_hashes]; needed, see
    [compress_name_collision_loop]). The record has no pre-parsed copies; with
    them the writer does the same. *)
Theorem serialize_record_framed `{InetPton, EvpBase64} (loc_rdata : list (list Z) -> option (list Z)) (max : Z) (res : list Z) (offset : Z) (rec : dns_record_t)
    (ctx : option compress_ctx_t) (owner_name : option (list Z)) (override_ttl : Z) :
  (forall rdata d, loc_rdata rdata = Some d -> bytes d /\ length d = 16%nat) ->
  bytes res -> 0 <= offset <= max -> max <= len res -> max <= 65535 -> (forall c, ctx = Some c -> ctx_ok res offset c) ->
  bytes (owner_text rec owner_name) -> Forall bytes (rdata rec) -> generic_ok rec -> name_wire rec = None -> cache rec = NotCached ->
  (is_Some ctx -> distinct_hashes (owner_text rec owner_name) /\ Forall distinct_hashes (name_fields rec)) ->
  let r := serialize_dns_record loc_rdata max res offset rec ctx owner_name override_ttl in
  r = Fail \/
  exists res' off' ctx' ls t start ps, r = Ret (res', off', ctx') /\ bytes res' /\ agree res res' offset /\ off' <= max /\
    text_labels (owner_text rec owner_name) = Ret ls /\ wire_ttl rec override_ttl = Ret t /\
    reads (is_exact ctx) res' off' [PName (List.filter nonempty ls); POctets (rr_fixed rec t ++ w16 (off' - start))] offset start /\
    reads (is_exact ctx) res' off' ps start off' /\ 0 <= off' - start <= 65535 /\
    match ctx' with Some c => ctx_ok res' off' c | None => ctx = None end.
Proof.
  intros Hloc Hb Ho Hm H6 Hc Hob Hrb Hg Hnw Hnc Hd. assert (fs_ok max no_hole (res, offset, ctx)) as Hs.
  { split; [done |]. split; [cbn; unfold no_hole; lia |]. destruct ctx as [c |]; [by apply Hc | done]. }
  assert (record_ok rec ctx owner_name) as Hrec by (by apply record_ok_intro).
  destruct (serialize_spec loc_rdata Hloc max res offset ctx rec owner_name override_ttl Hs Hrec Hnw Hnc)
    as [-> | (res' & off' & ctx' & ls & t & start & ps & -> & El & Et & ((Hb' & Ho' & _) & _ & Hc') & Hag & Hsome & Hlen & Hh1 & Hh2)]; [by left |].
  right. exists res', off', ctx', ls, t, start, ps. cbn [fst snd] in *. apply holds_reads in Hh1, Hh2. do 4 (split; [done || lia |]). do 5 (split; [done |]).
  destruct ctx' as [c |]; [done |]. destruct ctx; [| done]. by destruct (proj1 Hsome (mk_is_Some _ _ eq_refl)).
Qed.

Definition ex_record : dns_record_t :=
  DnsRecord (str "www.Example.org.") (str "1h") (str "IN") 0 (str "MX") 15 0 [str "10"; str "mail.example.org."] None 0 0 false (0, 0) None None None NotCached.
Definition ex_ctx : compress_ctx_t := compress_ctx_init_packet compress_ctx_init.

Ltac ex_hashes := intros ls E; vm_compute in E; injection E as <-; refine (bool_decide_unpack _ _); vm_compute; exact I.

Lemma serialize_record_framed_witness :
  exists res' off' ctx' ls start ps,
    @serialize_dns_record plain_InetPton plain_EvpBase64 (fun _ => None) 100 (replicate 100 0) 12 ex_record (Some ex_ctx) None 4294967295 = Ret (res', off', Some ctx') /\
    reads false res' off' [PName ls; POctets ([0; 15; 0; 1; 0; 0; 14; 16] ++ w16 (off' - start))] 12 start /\
    reads false res' off' ps start off' /\ ctx_ok res' off' ctx'.
Proof.
  destruct (@serialize_record_framed plain_InetPton plain_EvpBase64 (fun _ => None) 100 (replicate 100 0) 12 ex_record (Some ex_ctx) None 4294967295)
    as [E | (res' & off' & ctx' & ls & t & start & ps & E & _ & _ & _ & _ & Et & H1 & H2 & _ & H3)];
    [done | bytes_lit | lia | done | lia | | bytes_lit | | by split; [cbn; lia |] | done | done | | |].
  - intros c [= <-]. apply init_packet_ok, init_gen_ok.
  - repeat (apply Forall_cons_2; [bytes_lit |]). apply Forall_nil_2.
  - intros _. split; [ex_hashes |]. cbn [name_fields ex_record type_code rdata take drop]. apply Forall_cons_2; [ex_hashes | apply Forall_nil_2].
  - exfalso. vm_compute in E. discriminate.
  - vm_compute in Et. injection Et as <-. destruct ctx' as [c' |]; [| done]. exists res', off', c', (List.filter nonempty ls), start, ps. split; [exact E |]. split; [exact H1 |]. split; [exact H2 | exact H3].
Defined.

(** C5. The pre-parsed copies change nothing: [dns_record_preparse_cache] always
    ends, and the record with its copies is written octet for octet as it is
    without them, with or without name compression, and fails when it does. *)
Theorem preparse_cache_equivalent `{InetPton, EvpBase64} (loc_rdata : list (list Z) -> option (list Z)) (max : Z) (res : list Z) (offset : Z) (rec : dns_record_t)
    (ctx : option compress_ctx_t) (owner_name : option (list Z)) (override_ttl : Z) :
  0 <= offset <= max -> max <= len res -> max <= 65535 -> bytes (name rec) -> bytes (owner_text rec owner_name) -> Forall bytes (rdata rec) ->
  cache rec = NotCached -> name_wire rec = None ->
  exists rec', dns_record_preparse_cache rec = Ret rec' /\
    serialize_dns_record loc_rdata max res offset rec' ctx owner_name override_ttl = serialize_dns_record loc_rdata max res offset rec ctx owner_name override_ttl.
Proof.
  intros Ho Hm H6 Hn Hon Hb Hc Hnw. unfold dns_record_preparse_cache. destruct (Z.eqb_spec (len (rdata rec)) 0) as [E | E]; [by exists rec |].
  destruct (wire_of_total (name rec) Hn) as [nw Ew]. destruct (preparse_total rec Hb E) as [c Ec]. rewrite Ew, Ec. cbn [obind]. eexists. split; [done |].
  by apply serialize_cached.
Qed.

Lemma preparse_cache_equivalent_witness :
  exists rec', @dns_record_preparse_cache plain_InetPton plain_EvpBase64 ex_record = Ret rec' /\ cache rec' <> NotCached /\
    @serialize_dns_record plain_InetPton plain_EvpBase64 (fun _ => None) 100 (replicate 100 0) 12 rec' (Some ex_ctx) None 60 =
    @serialize_dns_record plain_InetPton plain_EvpBase64 (fun _ => None) 100 (replicate 100 0) 12 ex_record (Some ex_ctx) None 60.
Proof.
  destruct (@preparse_cache_equivalent plain_InetPton plain_EvpBase64 (fun _ => None) 100 (replicate 100 0) 12 ex_record (Some ex_ctx) None 60) as (rec' & E & Hs);
    [lia | done | lia | bytes_lit | bytes_lit | repeat (apply Forall_cons_2; [bytes_lit |]); apply Forall_nil_2 | done | done |].
  exists rec'. split; [exact E |]. split; [| exact Hs]. vm_compute in E. injection E as <-. discriminate.
Defined.

End RrFrame.
