(* ===== verification/RrSame.v ===== *)
(** * Resource records: the octets do not depend on the place

    The writers of RDATA without compressed names (RrWrite, Svcb) append the
    same octets wherever they are called: they succeed exactly when these fit
    before the end of the response. RDATA with compressed names is some octets,
    the names, and some octets. *)

From S2P Require Import Prelude CLib Cidr DnsName NameText WireName Compress TypeName RdataText Record Svcb RrWrite RrFrame.

Module RrSame.
Import CLib Cidr DnsName NameText WireName Compress TypeName RdataText Record Svcb RrWrite RrFrame.

(** ** Specification *)

Section Uniform.
Context `{InetPton, EvpBase64}.

(** A writer for which [n] octets of room have been checked: it appends some
    octets, at least [n], or never succeeds. *)
Definition uniform (n : Z) (F : Z -> list Z * Z -> outcome (list Z * Z)) : Prop :=
  (exists d, n <= len d /\ forall m s, in_range m s -> snd s + n <= m -> F m s = add_octets m d s) \/
  (forall m s s', in_range m s -> snd s + n <= m -> F m s <> Ret s').

(** ** Lemmas: composition *)

Lemma U_ret : uniform 0 (fun m s => Ret s).
Proof.
  left. exists []. split; [done |]. intros m [res off] (Ho & _) Hr. unfold add_octets. cbn [fst snd length] in *. rewrite (proj2 (Z.ltb_ge _ _)) by lia. by rewrite splice_nil, Z.add_0_r.
Qed.

Lemma U_fail n : uniform n (fun m s => Fail).
Proof. by right. Qed.

Lemma U_pure {A} n (o : outcome A) K : (forall a, o = Ret a -> uniform n (K a)) -> uniform n (fun m s => obind o (fun a => K a m s)).
Proof. intros HK. destruct o as [a | | |]; [by apply HK | by right..]. Qed.

Lemma U_need k K : 0 <= k -> uniform k (fun m s => K m s) -> uniform 0 (fun m s => obind (need m k s) (K m)).
Proof.
  intros Hk [(d & Hd & HK) | HK].
  - left. exists d. split; [lia |]. intros m s Hs _. unfold need. destruct (Z.ltb_spec m (snd s + k)).
    + cbn [obind]. unfold add_octets. by rewrite (proj2 (Z.ltb_lt _ _)) by lia.
    + by apply HK.
  - right. intros m s s' Hs _. unfold need. destruct (Z.ltb_spec m (snd s + k)); [done |]. by apply HK.
Qed.

Lemma U_out n d K : len d <= n -> uniform (n - len d) (fun m s => K m s) -> uniform n (fun m s => obind (out d s) (K m)).
Proof.
  intros Hn HK. assert (forall m s, in_range m s -> snd s + n <= m -> exists s1, add_octets m d s = Ret s1 /\ out d s = Ret s1 /\ in_range m s1 /\ snd s1 = snd s + len d) as Hout.
  { intros m s Hs Hr. rewrite (out_add m d s) by (done || lia). destruct (add_octets m d s) as [s1 | | |] eqn:E; [| unfold add_octets in E; case_if_in E; done || lia..].
    exists s1. by destruct (add_keeps m d s s1 Hs E). }
  destruct HK as [(d' & Hd & HK) | HK].
  - left. exists (d ++ d'). split; [rewrite length_app; lia |]. intros m s Hs Hr. destruct (Hout m s Hs Hr) as (s1 & Ea & -> & Hs1 & Eo). cbn [obind].
    rewrite HK by (done || lia). destruct Hs as (? & ? & ?). rewrite <- add_app by lia. by rewrite Ea.
  - right. intros m s s' Hs Hr. destruct (Hout m s Hs Hr) as (s1 & _ & -> & Hs1 & Eo). cbn [obind]. apply HK; [done | lia].
Qed.

Lemma U_last n d : len d = n -> uniform n (fun m s => out d s).
Proof. intros <-. left. exists d. split; [done |]. intros m s Hs Hr. by apply out_add. Qed.

Lemma U_bind F K : uniform 0 F -> uniform 0 (fun m s => K m s) -> uniform 0 (fun m s => obind (F m s) (K m)).
Proof.
  intros [(d & _ & HF) | HF] HK.
  - assert (forall m s, in_range m s -> F m s = add_octets m d s) as HF' by (intros m s (? & ?); apply HF; [done | lia]). clear HF.
    destruct HK as [(d' & _ & HK) | HK].
    + left. exists (d ++ d'). split; [lia |]. intros m s Hs _. rewrite HF' by done. pose proof Hs as (? & ? & ?). rewrite <- add_app by lia.
      destruct (add_octets m d s) as [s1 | | |] eqn:E; [| done..]. cbn [obind]. apply HK; [by eapply add_keeps |]. destruct (add_keeps m d s s1 Hs E) as [(? & ?) _]. lia.
    + right. intros m s s' Hs _. rewrite HF' by done. destruct (add_octets m d s) as [s1 | | |] eqn:E; [| done..]. cbn [obind]. destruct (add_keeps m d s s1 Hs E) as [(? & ?) _].
      apply HK; [done | lia].
  - right. intros m s s' Hs Hr. destruct (F m s) as [s1 | | |] eqn:E; [| done..]. by destruct (HF m s s1 Hs Hr).
Qed.

Lemma U_ext n F G : (forall m s, in_range m s -> snd s + n <= m -> F m s = G m s) -> uniform n G -> uniform n F.
Proof.
  intros HE [(d & Hd & HG) | HG]; [left; exists d; split; [done |]; intros m s Hs Hr; by rewrite HE, HG | right; intros m s s' Hs Hr; rewrite HE by done; by apply HG].
Qed.

Lemma U_zero n F : n = 0 -> uniform 0 F -> uniform n F.
Proof. by intros ->. Qed.

(** A writer that succeeds with the same octets wherever they fit. *)
Lemma U_add (o : option (list Z)) : uniform 0 (fun m s => match o with Some d => add_octets m d s | None => Fail end).
Proof. destruct o as [d |]; [| apply U_fail]. left. exists d. split; [lia | done]. Qed.

(** ** Lemmas: parts of records *)

Lemma U_name name : bytes name -> uniform 0 (fun m s => out_name m name s).
Proof.
  intros Hb. pose proof (wire_of_spec name Hb) as Ew. set (w := match text_labels name with Ret ls => _ | _ => _ end) in Ew.
  destruct w as [W |] eqn:EW.
  - apply (U_ext _ _ (fun m s => add_octets m W s)); [| apply (U_add (Some W))]. intros m s Hs _. by rewrite <- (wire_name_out m W name s), need_out_add by (done || rewrite Ew; done).
  - right. intros m [res off] s' (Ho & Hm & _) _. unfold out_name. cbn [fst snd] in *. rewrite write_uncompressed_spec by (done || lia). subst w.
    destruct (text_labels name) as [ls | | |]; try done. unfold written_labels, cased. rewrite map_id. cbv zeta in EW |- *. case_if_in EW; [done |]. by rewrite andb_false_r.
Qed.

Lemma U_addr n fam text : fam = AF_INET /\ n = 4 \/ fam = AF_INET6 /\ n = 16 -> uniform n (fun m s => out_addr fam text s).
Proof.
  intros Hf. unfold out_addr. destruct (inet_pton fam text) as [a |] eqn:Ea; [| apply U_fail]. apply U_last.
  destruct Hf as [[-> ->] | [-> ->]]; [apply inet_pton_v4 in Ea as [Hl _] | apply inet_pton_v6 in Ea as [Hl _]]; by rewrite Hl.
Qed.

Lemma U_b64 fields : uniform 0 (fun m s => out_b64 m fields s).
Proof.
  apply (U_ext _ _ (fun m s => match (if 87384 <? len (concat fields) then None else b64_result (concat fields)) with Some d => add_octets m d s | None => Fail end)); [| apply U_add].
  intros m s Hs _. rewrite out_b64_spec by done. by case_if.
Qed.

(** The capacity matters only when it is used up. *)
Lemma hex_decode_from_cap hex : forall high out cap cap' d, hex_decode_from hex high out cap = Ret d -> len out <= cap' ->
  hex_decode_from hex high out cap' = if cap' <? len d then Fail else Ret d.
Proof.
  induction hex as [| h hex IH]; intros high out cap cap' d; cbn [hex_decode_from].
  - intros [= <-] Hl. by rewrite (proj2 (Z.ltb_ge _ _)) by lia.
  - case_if; [apply IH |]. case_if; [apply IH |]. destruct (Z.leb_spec cap (len out)); [done |]. intros Hd Hl. unfold put in *. rewrite (proj2 (Z.ltb_lt _ _)) in Hd by lia. cbn [obind] in Hd.
    set (v := u8 _) in *. destruct (Z.leb_spec cap' (len out)).
    + destruct (Z.ltb_spec cap' (len d)) as [| Hle]; [done |]. exfalso. assert (forall hex high out d, hex_decode_from hex high out cap = Ret d -> len out <= len d) as Hmono.
      { clear. induction hex as [| h hex IH]; intros high out d; cbn [hex_decode_from]; [by intros [= <-] |]. case_if; [apply IH |]. case_if; [apply IH |]. case_if; [done |]. unfold put.
        case_if; [| done]. cbn [obind]. intros Hd%IH. rewrite length_app in Hd. cbn in Hd. lia. }
      apply Hmono in Hd. rewrite length_app in Hd. cbn in Hd. lia.
    + rewrite (proj2 (Z.ltb_lt (len out) cap')) by lia. cbn [obind]. apply (IH _ _ _ _ _ Hd). rewrite length_app. cbn. lia.
Qed.

Lemma hex_decode_from_total hex : forall high out, exists d, hex_decode_from hex high out (len out + len hex) = Ret d.
Proof.
  assert (forall high out cap, len out + len hex <= cap -> exists d, hex_decode_from hex high out cap = Ret d) as Ht; [| intros; by apply Ht].
  induction hex as [| h hex IH]; intros high out cap Hc; cbn [hex_decode_from]; [by eexists |]. cbn [length] in Hc. case_if; [apply IH; lia |]. case_if; [apply IH; lia |].
  rewrite (proj2 (Z.leb_gt _ _)) by lia. unfold put. rewrite (proj2 (Z.ltb_lt _ _)) by lia. cbn [obind]. apply IH. rewrite length_app. cbn. lia.
Qed.

Lemma U_hex fields : uniform 0 (fun m s => out_hex m fields s).
Proof.
  unfold out_hex, decode_concat_hex_rdata. destruct (concat_hex fields []) as [hex | | |];
    [| right; intros m s s' (? & ?) _; rewrite (proj2 (Z.ltb_ge m (snd s))) by lia; done..].
  destruct (hex_decode_from_total hex (-1) []) as [d Ed]. apply (U_ext _ _ (fun m s => add_octets m d s)); [| apply (U_add (Some d))].
  intros m s Hs _. pose proof Hs as (? & ? & ?). rewrite (proj2 (Z.ltb_ge m (snd s))) by lia. cbn [obind]. unfold hex_decode.
  rewrite (hex_decode_from_cap hex (-1) [] _ (m - snd s) d Ed) by (cbn; lia). destruct (Z.ltb_spec (m - snd s) (len d)).
  - cbn [obind]. unfold add_octets. by rewrite (proj2 (Z.ltb_lt _ _)) by lia.
  - cbn [obind]. rewrite (add_size m) by lia. destruct (add_octets m d s) as [[res off] | | |] eqn:E; [| done..]. cbn [obind]. destruct (add_keeps m d s _ Hs E) as [(? & ?) _]. cbn [fst snd] in *.
    by rewrite u16_small by lia.
Qed.

Lemma U_char text : uniform 0 (fun m s => write_char_string m text s).
Proof.
  unfold write_char_string. cbv zeta. set (n := if 255 <? len text then 255 else len text). assert (0 <= n <= len text) as Hn by (unfold n; case_if; lia).
  apply U_need; [lia |]. apply U_out; [cbn; lia |]. apply U_last. rewrite length_take. cbn [length]. lia.
Qed.

Lemma U_window window max_bit bitmap : 0 <= max_bit -> uniform 0 (fun m s => flush_window m window max_bit bitmap s).
Proof.
  intros Hb. unfold flush_window. cbv zeta. assert (0 <= max_bit / 8) by (apply Z.div_pos; lia). apply U_need; [lia |]. apply U_out; [cbn; lia |].
  apply (U_pure _ _ (fun octets m s => out octets s)). intros octets Ho. apply U_last. unfold slice in Ho. case_if_in Ho; [| done]. injection Ho as <-.
  cmp_prop. rewrite length_take, length_drop. cbn [length]. lia.
Qed.

Lemma U_codes codes : Forall (fun c => 0 <= c) codes -> forall window max_bit bitmap, (window <> -1 -> 0 <= max_bit) -> uniform 0 (fun m s => bitmap_codes m codes window max_bit bitmap s).
Proof.
  induction 1 as [| code codes Hc _ IH]; intros window max_bit bitmap Hb; cbn [bitmap_codes].
  - destruct (Z.eqb_spec window (-1)); [apply U_ret | by apply U_window, Hb].
  - destruct (code =? 0); [by apply IH |]. cbv zeta. assert (0 <= code mod 256) by (apply Z.mod_pos_bound; lia). destruct (Z.eqb_spec (code / 256) window) as [Ew | Ew].
    + apply (U_pure _ _ (fun bm m s => bitmap_codes m codes window _ bm s)). intros bm _. apply IH. intros Hw. case_if; [done | by apply Hb].
    + apply (U_bind (fun m s => if window =? -1 then Ret s else flush_window m window max_bit bitmap s)).
      * destruct (Z.eqb_spec window (-1)); [apply U_ret | by apply U_window, Hb].
      * apply (U_pure _ _ (fun bm m s => bitmap_codes m codes (code / 256) _ bm s)). intros bm _. by apply IH.
Qed.

Lemma U_bitmap types : uniform 0 (fun m s => encode_type_bitmap m types s).
Proof.
  unfold encode_type_bitmap. destruct types as [| t types]; [apply U_ret |]. case_if; [apply U_fail |]. apply U_codes; [| done].
  apply sort_by_Forall, Forall_map, Forall_true. intros x. apply get_type_code_range.
Qed.

(** ** Lemmas: the types *)

Lemma field_bytes rdata i f : Forall bytes rdata -> fld rdata i = Ret f -> bytes f.
Proof. intros Hr. unfold fld. destruct (rdata !! i) as [g |] eqn:E; [| done]. intros [= <-]. by eapply Forall_lookup_1. Qed.

(** One step through a writer. *)
Ltac ulen := cmp_prop; rewrite ?length_app, ?length_take, ?length_drop, ?length_replicate in *; cbn [length app w16 w32 fst snd] in *; lia.
Ltac uzero := lazymatch goal with |- uniform 0 _ => idtac | |- uniform ?n _ => apply (U_zero n); [ulen |] end.
Ltac ustep :=
  lazymatch goal with
  | |- uniform _ (fun m s => Fail) => apply U_fail
  | |- uniform _ (fun m s => Ret s) => uzero; apply U_ret
  | |- uniform _ (fun m s => if ?c then _ else _) => destruct c eqn:?
  | |- uniform _ (fun m s => obind (Ret _) _) => cbn [obind]
  | |- uniform _ (fun m s => obind (need m _ s) _) => uzero; apply U_need; [ulen |]
  | |- uniform _ (fun m s => obind (out _ s) _) => apply U_out; [ulen |]
  | |- uniform _ (fun m s => out _ s) => apply U_last; ulen
  | |- uniform _ (fun m s => out_name m _ s) => uzero; apply U_name; by eapply field_bytes
  | |- uniform _ (fun m s => out_b64 m _ s) => uzero; apply U_b64
  | |- uniform _ (fun m s => out_hex m _ s) => uzero; apply U_hex
  | |- uniform _ (fun m s => write_char_string m _ s) => uzero; apply U_char
  | |- uniform _ (fun m s => encode_type_bitmap m _ s) => uzero; apply U_bitmap
  | |- uniform _ (fun m s => obind _ _) => first [apply U_pure; intros ? ? | uzero; apply U_bind]
  end.
Ltac usteps := repeat ustep.

Context (loc_rdata : list (list Z) -> option (list Z)).
Context (Hloc : forall rdata d, loc_rdata rdata = Some d -> bytes d /\ length d = 16%nat).
Context (rdata : list (list Z)) (Hrdata : Forall bytes rdata).

Lemma U_a fam size : fam = AF_INET /\ size = 4 \/ fam = AF_INET6 /\ size = 16 -> uniform 0 (fun m s => rdata_a m fam size rdata s).
Proof. intros Hf. unfold rdata_a. ustep; [ustep |]. apply U_need; [lia |]. ustep. by apply U_addr. Qed.

Lemma U_rname : uniform 0 (fun m s => rdata_name m rdata s).
Proof. unfold rdata_name. usteps. Qed.

Lemma U_srv : uniform 0 (fun m s => rdata_srv m rdata s).
Proof. unfold rdata_srv. usteps. Qed.

Lemma U_isdn : uniform 0 (fun m s => rdata_isdn m rdata s).
Proof. unfold rdata_isdn. usteps. Qed.

Lemma U_fields n : forall i, uniform 0 (fun m s => char_fields m rdata i n s).
Proof. induction n as [| n IH]; intros i; cbn [char_fields]; usteps. apply IH. Qed.

Lemma U_strings n : uniform 0 (fun m s => rdata_strings m n rdata s).
Proof. unfold rdata_strings. ustep; [ustep | apply U_fields]. Qed.

Lemma U_nsap : uniform 0 (fun m s => rdata_nsap m rdata s).
Proof. unfold rdata_nsap. usteps. Qed.

Lemma U_loc : uniform 0 (fun m s => rdata_loc loc_rdata m rdata s).
Proof. unfold rdata_loc. ustep. destruct (loc_rdata rdata) as [d |] eqn:E; [| ustep]. apply Hloc in E as [_ E]. apply U_last. by rewrite E. Qed.

Lemma U_apl_item item : uniform 0 (fun m s => apl_item m item s).
Proof.
  unfold apl_item. cbv zeta. destruct (match take 299 item with [] => _ | _ => _ end) as [negate p]. destruct (strchr 58 p) as [[family addr_prefix] |]; [| ustep].
  ustep. destruct (strchr 47 addr_prefix) as [[addr bits] |]; usteps.
Qed.

Lemma U_apl l : uniform 0 (fun m s => rdata_apl m l s).
Proof. induction l as [| item l IH]; cbn [rdata_apl]; [ustep |]. apply U_bind; [apply U_apl_item | exact IH]. Qed.

Lemma U_caa : uniform 0 (fun m s => rdata_caa m rdata s).
Proof. unfold rdata_caa. usteps. Qed.

Lemma U_txt : uniform 0 (fun m s => rdata_txt m rdata s).
Proof. unfold rdata_txt. destruct (txt_wire_spec rdata Hrdata) as [_ ->]. usteps. Qed.

Lemma U_gateway gw text : bytes text -> uniform 0 (fun m s => out_gateway m gw text s).
Proof.
  intros Ht. unfold out_gateway. ustep; [ustep; apply U_addr; auto |]. ustep; [ustep; apply U_addr; auto |]. ustep; [by apply U_name | ustep].
Qed.

Lemma U_ipseckey : uniform 0 (fun m s => rdata_ipseckey m rdata s).
Proof. unfold rdata_ipseckey. usteps. apply U_gateway. by eapply field_bytes. Qed.

Lemma U_amtrelay : uniform 0 (fun m s => rdata_amtrelay m rdata s).
Proof. unfold rdata_amtrelay. usteps. apply U_gateway. by eapply field_bytes. Qed.

Lemma U_nid : uniform 0 (fun m s => rdata_nid m rdata s).
Proof.
  unfold rdata_nid. do 7 (ustep; try (ustep; fail)). destruct (nid_groups_spec 3 a1 [] ltac:(constructor)) as [_ Hl]. apply Hl in H4 as [_ Hr]. apply U_last. rewrite Hr. cbn. lia.
Qed.

Lemma U_l32 : uniform 0 (fun m s => rdata_l32 m rdata s).
Proof. unfold rdata_l32. usteps. apply U_addr. left. split; [done | cbn; lia]. Qed.

Lemma U_sshfp : uniform 0 (fun m s => rdata_sshfp m rdata s).
Proof. unfold rdata_sshfp. usteps. Qed.

Lemma U_out_rrsig tc al lb ot se si kt signer : bytes signer -> uniform 0 (fun m s => out_rrsig m tc al lb ot se si kt signer s).
Proof. intros Hs. unfold out_rrsig. ustep. ustep. by apply U_name. Qed.

Lemma U_rrsig : uniform 0 (fun m s => rdata_rrsig m NotCached rdata s).
Proof. unfold rdata_rrsig. usteps. apply U_out_rrsig. by eapply field_bytes. Qed.

Lemma U_nsec : uniform 0 (fun m s => rdata_nsec m rdata s).
Proof. unfold rdata_nsec. usteps. Qed.

Lemma U_nsec3 : uniform 0 (fun m s => rdata_nsec3 m rdata s).
Proof. unfold rdata_nsec3. usteps. Qed.

Lemma U_nsec3param : uniform 0 (fun m s => rdata_nsec3param m rdata s).
Proof. unfold rdata_nsec3param. usteps. Qed.

Lemma U_tlsa : uniform 0 (fun m s => rdata_tlsa m rdata s).
Proof. unfold rdata_tlsa. usteps. Qed.

Lemma U_cert : uniform 0 (fun m s => rdata_cert m rdata s).
Proof. unfold rdata_cert. usteps. Qed.

Lemma U_naptr : uniform 0 (fun m s => rdata_naptr m rdata s).
Proof. unfold rdata_naptr. usteps. apply U_fields. Qed.

Lemma U_names names : Forall bytes names -> uniform 0 (fun m s => out_names m names s).
Proof. induction 1 as [| n names Hn _ IH]; cbn [out_names]; [ustep |]. apply U_bind; [by apply U_name | exact IH]. Qed.

(** The key of a HIP record, whose length is written behind it. *)
Lemma hip_key m s alg hit pk d : in_range m s -> b64_result pk = Some d ->
  (let! s := need m (4 + len hit) s in
   let! s := out [u8 (len hit); alg] s in
   let! s' := out hit (fst s, u16 (snd s + 2)) in
   let! '(res, pk_end) := decode_b64_buffer m pk s' in
   fail_if 65535 <? pk_end - snd s' ;;
   let! res := wr_list res (snd s) (w16 (u16 (pk_end - snd s'))) in
   Ret (res, u16 (snd s' + u16 (pk_end - snd s')))) = add_octets m ([u8 (len hit); alg] ++ w16 (len d) ++ hit ++ d) s.
Proof.
  intros Hs Ed. destruct s as [res off]. pose proof Hs as (Ho & Hm & H6). cbn [fst snd] in *. unfold need. cbn [snd]. set (hd := [u8 (len hit); alg]).
  assert (len (hd ++ w16 (len d) ++ hit ++ d) = 4 + len hit + len d) as El by (rewrite !length_app; cbn [length hd w16]; lia).
  unfold add_octets at 1. rewrite El. cbn [fst snd]. destruct (Z.ltb_spec m (off + (4 + len hit))); [by rewrite (proj2 (Z.ltb_lt _ _)) by lia |]. cbn [obind].
  rewrite (out_add m hd) by (done || (cbn; lia)). unfold add_octets at 1. cbn [fst snd]. change (len hd) with 2. rewrite (proj2 (Z.ltb_ge m (off + 2))) by lia. cbn [obind fst snd]. rewrite u16_small by lia.
  set (res1 := splice res off hd). assert (length res1 = length res) as Hl1 by (unfold res1; apply length_splice; cbn; lia).
  assert (exists X, length X = 2%nat /\ splice res1 (off + 2) X = res1) as (X & HX & EX).
  { exists (take 2 (drop (Z.to_nat (off + 2)) res1)). assert (length (take 2 (drop (Z.to_nat (off + 2)) res1)) = 2%nat) as E2 by (rewrite length_take, length_drop; lia). split; [done |].
    unfold splice. rewrite E2, <- drop_drop. rewrite take_drop. apply take_drop. }
  rewrite (out_add m hit) by (unfold in_range; cbn [fst snd]; lia). unfold add_octets at 1. cbn [fst snd]. rewrite (proj2 (Z.ltb_ge m _)) by lia. cbn [obind fst snd].
  rewrite b64_buffer_spec, Ed by (cbn [fst snd]; rewrite ?length_splice; lia). unfold add_octets. cbn [fst snd].
  destruct (Z.ltb_spec m (off + 2 + 2 + len hit + len d)); [by rewrite (proj2 (Z.ltb_lt _ _)) by lia |]. cbn [obind]. rewrite (proj2 (Z.ltb_ge m _)) by lia.
  replace (off + 2 + 2 + len hit + len d - (off + 2 + 2 + len hit)) with (len d) by lia. rewrite (proj2 (Z.ltb_ge 65535 _)), (u16_small (len d)) by lia.
  assert (splice (splice res1 (off + 2 + 2) hit) (off + 2 + 2 + len hit) d = splice res off (hd ++ X ++ hit ++ d)) as ->.
  { rewrite splice_app by lia. rewrite <- EX at 1. replace (off + 2 + 2) with (off + 2 + len X) by lia. rewrite splice_app by (rewrite ?length_app; lia). unfold res1.
    change (off + 2) with (off + len hd). by rewrite splice_app by (rewrite ?length_app; cbn [length hd]; lia). }
  change (off + 2) with (off + len hd). rewrite wr_list_splice by (rewrite ?length_splice, ?length_app; rewrite ?length_app; cbn [length hd w16]; lia). cbn [obind].
  rewrite splice_patch by (rewrite ?length_app; cbn [length hd w16]; lia). rewrite u16_small by (cbn [length hd]; lia). do 2 f_equal. cbn [length hd]. lia.
Qed.

Lemma U_hip : uniform 0 (fun m s => rdata_hip m rdata s).
Proof.
  unfold rdata_hip. ustep; [ustep |]. ustep. ustep. ustep. ustep. apply U_pure. intros [pk r_idx] _. ustep; [ustep |]. cbv zeta. destruct (b64_result pk) as [d |] eqn:Ed.
  - apply (U_ext _ _ (fun m s => let! s := add_octets m ([u8 (len a2); a0] ++ w16 (len d) ++ a2 ++ d) s in out_names m (drop r_idx rdata) s)).
    + intros m s Hs _. rewrite <- (hip_key m s a0 a2 pk d) by done. destruct (need m _ s) as [s1 | | |]; [| done..]. cbn [obind]. destruct (out _ s1) as [s2 | | |]; [| done..]. cbn [obind].
      destruct (out a2 _) as [s3 | | |]; [| done..]. cbn [obind]. destruct (decode_b64_buffer m pk s3) as [[res pk_end] | | |]; [| done..]. cbn [obind]. case_if; [done |].
      by destruct (wr_list res _ _).
    + apply U_bind; [apply (U_add (Some _)) | apply U_names; by apply Forall_drop].
  - right. intros m s s' Hs _ E. unfold need in E. case_if_in E; [done |]. cmp_prop. cbn [obind] in E. pose proof Hs as (? & ? & ?).
    rewrite (out_add m) in E by (done || (cbn [length]; lia)). destruct (add_octets m _ s) as [s1 | | |] eqn:E1; [| done..]. cbn [obind] in E.
    destruct (add_keeps m _ s s1 Hs E1) as [(? & ? & ?) Es1]. cbn [length] in Es1. rewrite u16_small in E by lia.
    rewrite (out_add m) in E by (unfold in_range; cbn [fst snd]; lia). destruct (add_octets m a2 _) as [s2 | | |] eqn:E2; [| done..]. cbn [obind] in E.
    apply add_keeps in E2 as [(? & ? & ?) _]; [| unfold in_range; cbn [fst snd]; lia]. rewrite b64_buffer_spec, Ed in E by lia. done.
Qed.

Lemma U_dsync : uniform 0 (fun m s => rdata_dsync m rdata s).
Proof. unfold rdata_dsync. usteps. Qed.

Lemma U_uri : uniform 0 (fun m s => rdata_uri m rdata s).
Proof. unfold rdata_uri. usteps. Qed.

Lemma U_sink : uniform 0 (fun m s => rdata_sink m rdata s).
Proof. unfold rdata_sink. usteps. Qed.

Lemma U_blob : uniform 0 (fun m s => rdata_blob m rdata s).
Proof. unfold rdata_blob. usteps. Qed.

Lemma U_eui expected : 0 <= expected -> uniform 0 (fun m s => rdata_eui m expected rdata s).
Proof. intros He. unfold rdata_eui. usteps. Qed.

Lemma U_zonemd : uniform 0 (fun m s => rdata_zonemd m rdata s).
Proof. unfold rdata_zonemd. usteps. Qed.

Lemma slice_length l i n x : slice l i n = Ret x -> len x = n.
Proof. unfold slice. case_if; [| done]. intros [= <-]. cmp_prop. rewrite length_take, length_drop. lia. Qed.

Lemma U_slice k l i : 0 <= k -> uniform 0 (fun m s => let! s := need m k s in let! octets := slice l i k in out octets s).
Proof. intros Hk. ustep. apply U_pure. intros x Hx%slice_length. by apply U_last. Qed.

Lemma U_wks : uniform 0 (fun m s => rdata_wks m rdata s).
Proof.
  unfold rdata_wks. ustep; [ustep |]. ustep. ustep. unfold out_addr. destruct (inet_pton AF_INET a) as [d |] eqn:Ea; [| apply (U_fail 5)]. apply inet_pton_v4 in Ea as [Hl _].
  ustep. ustep. ustep. ustep. apply U_pure. intros [bitmap mp] _. apply (U_zero _); [ulen |]. ustep; [| ustep]. apply U_slice. cmp_prop. assert (0 <= mp / 8) by (apply Z.div_pos; lia). lia.
Qed.

Lemma U_two_names : uniform 0 (fun m s => rdata_two_names m rdata s).
Proof. unfold rdata_two_names. usteps. Qed.

Lemma U_pref_name : uniform 0 (fun m s => rdata_pref_name m rdata s).
Proof. unfold rdata_pref_name. usteps. Qed.

Lemma U_px : uniform 0 (fun m s => rdata_px m rdata s).
Proof. unfold rdata_px. usteps. Qed.

Lemma U_csync : uniform 0 (fun m s => rdata_csync m rdata s).
Proof. unfold rdata_csync. usteps. Qed.

Lemma U_ds b64 : uniform 0 (fun m s => rdata_ds m b64 rdata s).
Proof. unfold rdata_ds. destruct b64; usteps. Qed.

Lemma U_nxt : uniform 0 (fun m s => rdata_nxt m rdata s).
Proof.
  unfold rdata_nxt. ustep; [ustep |]. ustep. ustep; [ustep |]. destruct (nxt_types (drop 1 rdata) (replicate 16 0) 0) as [[bitmap mb] | | |]; cbn [obind]; try (by right).
  ustep; [| ustep]. apply U_slice. ulen.
Qed.

Lemma U_atma_digits a e164 : forall last_period hi n, uniform 0 (fun m s => atma_digits m a e164 last_period hi n s).
Proof. induction a as [| c a IH]; intros lp hi n; cbn [atma_digits]; usteps; apply IH. Qed.

Lemma U_atma : uniform 0 (fun m s => rdata_atma m rdata s).
Proof.
  unfold rdata_atma. ustep; [ustep |]. ustep. destruct (match a with [] => _ | _ => _ end) as [e164 digits]. ustep. ustep. apply U_atma_digits.
Qed.

Lemma U_a6 : uniform 0 (fun m s => rdata_a6 m rdata s).
Proof.
  unfold rdata_a6. ustep; [ustep |]. ustep. ustep. ustep; [ustep |]. ustep. ustep. cbv zeta. apply U_bind.
  - ustep; [| ustep]. ustep; [ustep |]. ustep. destruct (inet_pton AF_INET6 _) as [d |]; [| ustep]. apply U_slice. ulen.
  - ustep; [| ustep]. apply U_pure. intros pfx Hp. apply U_name. case_if_in Hp; [by eapply field_bytes | injection Hp as <-; bytes_lit].
Qed.

Lemma U_doa : uniform 0 (fun m s => rdata_doa m rdata s).
Proof. unfold rdata_doa. usteps. Qed.

Lemma U_params params : uniform 0 (fun m s => out_params m params s).
Proof. induction params as [| [k v] params IH]; cbn [out_params]; [ustep |]. ustep. ustep. ustep. uzero. exact IH. Qed.

Lemma U_svcb : uniform 0 (fun m s => rdata_svcb m rdata s).
Proof. unfold rdata_svcb. usteps. destruct a2 as [params mandatory]. ustep; [ustep | apply U_params]. Qed.

Lemma U_other type : uniform 0 (fun m s => rdata_other loc_rdata m type rdata s).
Proof.
  unfold rdata_other.
  repeat match goal with
         | |- uniform _ (fun m s => match ?z with Z0 => _ | Zpos _ => _ | Zneg _ => _ end) => destruct z
         | |- uniform _ (fun m s => match ?z with xI _ => _ | xO _ => _ | xH => _ end) => destruct z
         end; first [apply U_fail | apply U_ret | apply U_strings | apply U_isdn | apply U_nsap | apply U_loc | apply U_apl | apply U_caa | apply U_ipseckey | apply U_amtrelay
          | apply U_nid | apply U_l32 | apply U_sshfp | apply U_nsec | apply U_nsec3 | apply U_tlsa | apply U_cert | apply U_naptr
          | apply U_nsec3param | apply U_hip | apply U_svcb | apply U_dsync | apply U_uri | apply U_sink | apply U_blob | apply U_eui; lia
          | apply U_zonemd | apply U_wks | apply U_two_names | apply U_pref_name | apply U_px | apply U_csync | apply U_ds | apply U_nxt
          | apply U_atma | apply U_a6 | apply U_doa].
Qed.

End Uniform.

(** ** Lemmas: whole RDATA *)

Section Body.
Context `{InetPton, EvpBase64}.
Context (loc_rdata : list (list Z) -> option (list Z)).
Context (Hloc : forall rdata d, loc_rdata rdata = Some d -> bytes d /\ length d = 16%nat).
Context (rec : dns_record_t) (Hrdata : Forall bytes (rdata rec)) (Hc : cache rec = NotCached).

Lemma U_uncached : uniform 0 (fun m s => rdata_cached m rec s).
Proof.
  unfold rdata_cached. rewrite Hc.
  repeat match goal with
         | |- uniform _ (fun m s => match ?z with Z0 => _ | Zpos _ => _ | Zneg _ => _ end) => destruct z
         | |- uniform _ (fun m s => match ?z with xI _ => _ | xO _ => _ | xH => _ end) => destruct z
         end; first [by apply U_rrsig | by apply U_rname | by apply U_srv | by apply U_txt | apply U_a; auto].
Qed.

(** A record with RDATA in wire form; without data there is no length. *)
Definition raw (r : dns_record_t) : bool := bool_decide (is_Some (generic_data r)) || (class_val r =? DNS_CLASS_KARIDNS_EXT).

Definition raw_ok (r : dns_record_t) : Prop := generic_ok r /\ (generic_data r = None -> generic_len r = 0).

Lemma U_generic : raw_ok rec -> uniform 0 (fun m s => out_generic m rec s).
Proof.
  intros [[Hg Hd] Hn]. unfold out_generic. destruct (Z.ltb_spec 0 (generic_len rec)); [| apply U_ret]. destruct (generic_data rec) as [d |]; [| specialize (Hn eq_refl); lia].
  apply U_slice. lia.
Qed.

(** The types whose names are compressed. *)
Definition compressible (t : Z) : bool := match t with 2 | 3 | 4 | 5 | 6 | 7 | 8 | 9 | 12 | 14 | 15 => true | _ => false end.

Lemma body_plain : raw_ok rec -> raw rec = true \/ compressible (type_code rec) = false -> exists F, uniform 0 F /\ forall m s, body loc_rdata m rec s = plain (F m) s.
Proof.
  intros Hg Hk. unfold body, raw in *. destruct (generic_data rec) eqn:Ed; [exists (fun m s => out_generic m rec s); split; [by apply U_generic | done] |].
  rewrite bool_decide_eq_false_2 in Hk by (by intros []). cbn [orb] in Hk.
  destruct (class_val rec =? DNS_CLASS_KARIDNS_EXT); [exists (fun m s => out_generic m rec s); split; [by apply U_generic | done] |]. destruct Hk as [? | Hk]; [done |].
  pose proof U_uncached as Hu. pose proof (U_other loc_rdata Hloc (rdata rec) Hrdata) as Ho. unfold rdata_switch, compressible in *.
  repeat match goal with
         | |- exists F, _ /\ forall m s, (match ?z with Z0 => _ | Zpos _ => _ | Zneg _ => _ end) = _ => destruct z
         | |- exists F, _ /\ forall m s, (match ?z with xI _ => _ | xO _ => _ | xH => _ end) = _ => destruct z
         end; try done; first [exists (fun m s => rdata_cached m rec s); done | eexists; split; [apply Ho | intros m s; reflexivity]].
Qed.

(** Octets, names that may be compressed, and octets again. *)
Fixpoint text_names (m : Z) (names : list (list Z)) (s : list Z * Z * option compress_ctx_t) : outcome (list Z * Z * option compress_ctx_t) :=
  match names with
  | [] => Ret s
  | n :: names' => let! s := out_text_name m n s in text_names m names' s
  end.

Definition parts (pre : list Z) (names : list (list Z)) (post : list Z) (m : Z) (s : list Z * Z * option compress_ctx_t) : outcome (list Z * Z * option compress_ctx_t) :=
  let! s := plain (add_octets m pre) s in
  let! s := text_names m names s in
  plain (add_octets m post) s.

Lemma add_nil m s : in_range m s -> add_octets m [] s = Ret s.
Proof.
  intros (Ho & _). unfold add_octets. cbn [length]. rewrite (proj2 (Z.ltb_ge _ _)) by lia. rewrite splice_nil, Z.add_0_r. by destruct s.
Qed.

Lemma plain_nil m s : in_range m (fst s) -> plain (add_octets m []) s = Ret s.
Proof. intros Hs. destruct s as [[res off] ctx]. unfold plain. by rewrite add_nil. Qed.

Lemma plain_need_out m d s : in_range m (fst s) -> (let! s := plain (need m (len d)) s in plain (out d) s) = plain (add_octets m d) s.
Proof.
  intros Hs. destruct s as [[res off] ctx]. unfold plain. cbn [fst] in Hs. rewrite <- need_out_add by done. by destruct (need m (len d) (res, off)) as [[? ?] | | |].
Qed.

Lemma plain_add_keeps m d s s' : in_range m (fst s) -> plain (add_octets m d) s = Ret s' -> in_range m (fst s') /\ snd s' = snd s.
Proof.
  intros Hs. destruct s as [[res off] ctx]. unfold plain. cbn [fst snd] in *. destruct (add_octets m d (res, off)) as [[res' off'] | | |] eqn:E; [| done..]. cbn [obind].
  intros [= <-]. cbn [fst snd]. split; [by eapply add_keeps | done].
Qed.

(** The layout of the RDATA: the octets before the names, the number of names
    and the octets behind them. *)
Definition parts_layout (t : Z) : Z * nat * Z :=
  match t with 15 => (2, 1%nat, 0) | 6 => (0, 2%nat, 20) | 14 => (0, 2%nat, 0) | _ => (0, 1%nat, 0) end.

Definition has_parts (t : Z) (F : Z -> list Z * Z * option compress_ctx_t -> outcome (list Z * Z * option compress_ctx_t)) : Prop :=
  (exists pre names post, parts_layout t = (len pre, length names, len post) /\ Forall bytes names /\ forall m s, in_range m (fst s) -> F m s = parts pre names post m s) \/
  (forall m s s', in_range m (fst s) -> F m s <> Ret s').

Lemma parts_one m n s : in_range m (fst s) -> bytes n -> parts [] [n] [] m s = out_text_name m n s.
Proof.
  intros Hs Hn. unfold parts. rewrite plain_nil by done. cbn [obind text_names]. destruct (out_text_name m n s) as [s' | | |] eqn:E; [| done..]. cbn [obind].
  apply plain_nil. by eapply text_name_keeps.
Qed.

Lemma ns_parts t l : Forall bytes l -> parts_layout t = (0, 1%nat, 0) -> has_parts t (fun m s => rdata_ns m NotCached l s).
Proof.
  intros Hl Ht. unfold rdata_ns. destruct l as [| f l]; [by right |]. apply Forall_cons_1 in Hl as [Hf _]. left. exists [], [f], []. split_and!; [done | by constructor |].
  intros m s Hs. rewrite parts_one by done. rewrite (proj2 (Z.eqb_neq _ 0)) by (cbn [length]; lia). cbn [fld lookup list_lookup obind]. by rewrite text_name_check.
Qed.

Lemma mx_parts l : Forall bytes l -> has_parts 15 (fun m s => rdata_mx m NotCached l s).
Proof.
  intros Hl. unfold rdata_mx. destruct l as [| f0 [| f1 l]]; [by right | by right |]. apply Forall_cons_1 in Hl as [_ Hl]. apply Forall_cons_1 in Hl as [Hf _].
  assert ((len (f0 :: f1 :: l) <? 2) = false) as -> by (apply Z.ltb_ge; cbn [length]; lia). cbn [fld lookup list_lookup obind].
  destruct (parse_u16 f0) as [pref | | |]; [| right; intros m s s' _; rewrite plain_need; by case_if..]. left. exists (w16 pref), [f1], []. split_and!; [done | by constructor |].
  intros m s Hs. unfold parts. rewrite <- plain_need_out by done. change (len (w16 pref)) with 2. rewrite plain_need. case_if; [done |]. cmp_prop. cbn [obind].
  destruct (plain (out (w16 pref)) s) as [s1 | | |] eqn:E1; [| done..]. apply (plain_out_keeps m) in E1 as [Hs1 _]; [| done | cbn [length w16]; lia]. cbn [obind text_names].
  rewrite text_name_check by done. destruct (out_text_name m f1 s1) as [s2 | | |] eqn:E2; [| done..]. cbn [obind]. symmetry. apply plain_nil. by eapply text_name_keeps.
Qed.

Lemma soa_parts l : Forall bytes l -> has_parts 6 (fun m s => rdata_soa m NotCached l s).
Proof.
  intros Hl. unfold rdata_soa. destruct (Z.ltb_spec (len l) 7) as [| H7]; [by right |]. destruct (soa_numbers_spec l) as (numbers & En & H5); [lia |].
  destruct l as [| f0 [| f1 l]]; [done.. |]. apply Forall_cons_1 in Hl as [Hf0 Hl]. apply Forall_cons_1 in Hl as [Hf1 _]. rewrite En. cbn [fld lookup list_lookup obind].
  assert (len (concat (map w32 numbers)) = 20) as E20 by (do 5 (destruct numbers as [| ? numbers]; [done |]); by destruct numbers).
  left. exists [], [f0; f1], (concat (map w32 numbers)). split_and!; [by rewrite E20 | by repeat constructor |]. intros m s Hs. unfold out_soa, parts. rewrite plain_nil by done.
  cbn [obind text_names]. destruct (out_text_name m f0 s) as [s1 | | |] eqn:E1; [| done..]. apply text_name_keeps in E1; [| done..]. cbn [obind].
  destruct (out_text_name m f1 s1) as [s2 | | |] eqn:E2; [| done..]. apply text_name_keeps in E2; [| done..]. cbn [obind]. rewrite <- plain_need_out by done. by rewrite E20.
Qed.

Lemma minfo_parts l : Forall bytes l -> has_parts 14 (fun m s => rdata_minfo m l s).
Proof.
  intros Hl. unfold rdata_minfo. destruct l as [| f0 [| f1 l]]; [by right | by right |]. apply Forall_cons_1 in Hl as [Hf0 Hl]. apply Forall_cons_1 in Hl as [Hf1 _].
  assert ((len (f0 :: f1 :: l) <? 2) = false) as -> by (apply Z.ltb_ge; cbn [length]; lia). cbn [fld lookup list_lookup obind]. left. exists [], [f0; f1], []. split_and!; [done | by repeat constructor |].
  intros m s Hs. unfold parts. rewrite plain_nil by done. cbn [obind text_names]. destruct (out_text_name m f0 s) as [s1 | | |] eqn:E1; [| done..].
  apply text_name_keeps in E1; [| done..]. cbn [obind]. pose proof E1 as ((_ & Hle) & _). rewrite (proj2 (Z.ltb_ge m _)) by done. rewrite text_name_check by done.
  destruct (out_text_name m f1 s1) as [s2 | | |] eqn:E2; [| done..]. cbn [obind]. symmetry. apply plain_nil. by eapply text_name_keeps.
Qed.

Lemma body_parts : raw rec = false -> compressible (type_code rec) = true -> has_parts (type_code rec) (fun m s => body loc_rdata m rec s).
Proof.
  unfold raw, body. destruct (generic_data rec) eqn:Ed; [done |]. rewrite bool_decide_eq_false_2 by (by intros []). cbn [orb]. intros -> Hk.
  pose proof (fun t => ns_parts t (rdata rec) Hrdata) as H2. pose proof (mx_parts (rdata rec) Hrdata) as H15. pose proof (soa_parts (rdata rec) Hrdata) as H6.
  pose proof (minfo_parts (rdata rec) Hrdata) as H14. unfold rdata_switch. rewrite Hc. unfold compressible in Hk. destruct (type_code rec) as [| t | t]; [done | | done].
  repeat match type of Hk with (match ?z with xI _ => _ | xO _ => _ | xH => _ end) = _ => destruct z end; try done; by apply H2.
Qed.

End Body.

End RrSame.
