(* ===== verification/RrParse.v ===== *)
(** * Records on the wire: the reader (dns_wire.c, parse_resource_record)

    Records received in zone transfers and updates. The fields of the known
    types are turned into text; other RDATA is kept in wire form, with text
    fields for the DNSSEC types. [inet_ntop] of an IPv6 address is a
    parameter; so is the base64 encoder (the interface [EvpBase64]). *)

From S2P Require Import Prelude CLib Cidr NameText WireName Compress TypeName Edns RdataText Record Svcb RrWrite RrFrame.

Module RrParse.
Import CLib Cidr NameText WireName Compress TypeName RdataText Record Svcb RrWrite RrFrame.

(** ** Operations: DNSSEC fields *)

(** The name in front of [pos], without pointers: the loop of
    [dnssec_rdata_name]. *)
Fixpoint no_pointers (fuel : nat) (rd_ : list Z) (rdlen p : Z) : outcome unit :=
  match fuel with
  | O => NoFuel
  | S fuel' =>
      fail_if rdlen <=? p ;;
      let! n := rd rd_ p in
      fail_if negb (Z.land n 192 =? 0) ;;
      if n =? 0 then Ret tt else no_pointers fuel' rd_ rdlen (p + (1 + n))
  end.

(** The name as a C string and the offset behind it. *)
Definition expand_wire_name (packet : list Z) (packet_len current_offset : Z) : outcome (list Z * Z) :=
  let! '(buf, next_offset) := expand_wire_name_to_buffer packet packet_len current_offset DNS_NAME_TEXT_SIZE in
  Ret (take (length buf - 1) buf, next_offset).

Definition dnssec_rdata_name (rd_ : list Z) (rdlen pos : Z) : outcome (list Z * Z) :=
  let! _ := no_pointers (S (Z.to_nat rdlen)) rd_ rdlen pos in
  expand_wire_name rd_ rdlen pos.

(** [rec->rdata[rec->rdata_count++] = field;] in an array of [MAX_RDATA]. *)
Definition push (fields : list (list Z)) (field : list Z) : outcome (list (list Z)) :=
  if len fields <? MAX_RDATA then Ret (fields ++ [field]) else Oob.

(** The types of one octet of a bitmap; [b] is the bit. *)
Fixpoint bitmap_bits (n : nat) (octet base b : Z) (fields : list (list Z)) : outcome (list (list Z)) :=
  match n with
  | O => Ret fields
  | S n' =>
      if Z.land octet (Z.shiftr 128 b) =? 0 then bitmap_bits n' octet base (b + 1) fields
      else
        let t := u16 (base + b) in
        if (t =? 0) || (t =? 41) || ((249 <=? t) && (t <=? 255)) then bitmap_bits n' octet base (b + 1) fields
        else if MAX_RDATA <=? len fields then bitmap_bits n' octet base (b + 1) fields
        else
          let! name := format_type_name t 16 in
          let! fields := push fields name in
          bitmap_bits n' octet base (b + 1) fields
  end.

(** The octets of one window. *)
Fixpoint bitmap_octets (n : nat) (rd_ : list Z) (pos win i : Z) (fields : list (list Z)) : outcome (list (list Z)) :=
  match n with
  | O => Ret fields
  | S n' =>
      let! octet := rd rd_ (pos + i) in
      let! fields := bitmap_bits 8 octet (win * 256 + i * 8) 0 fields in
      bitmap_octets n' rd_ pos win (i + 1) fields
  end.

Fixpoint dnssec_rdata_bitmap (fuel : nat) (rd_ : list Z) (rdlen pos last_window : Z) (fields : list (list Z)) : outcome (list (list Z)) :=
  if rdlen <=? pos then Ret fields
  else match fuel with
       | O => NoFuel
       | S fuel' =>
           fail_if rdlen <? pos + 2 ;;
           let! win := rd rd_ pos in
           let! blen := rd rd_ (pos + 1) in
           let pos := pos + 2 in
           fail_if (win <=? last_window) || (blen <? 1) || (32 <? blen) || (rdlen <? pos + blen) ;;
           let! fields := bitmap_octets (Z.to_nat blen) rd_ pos win 0 fields in
           dnssec_rdata_bitmap fuel' rd_ rdlen (pos + blen) win fields
       end.

(** [%u] *)
Definition dnssec_rdata_uint (v : Z) : list Z := fmt_u v.

Section Parse.
Context `{EvpBase64}.

(** [inet_ntop(AF_INET6, ...)] of 16 octets. *)
Variable inet_ntop6 : list Z -> list Z.

Definition dnssec_rdata_b64 (d : list Z) : list Z := match d with [] => [] | _ => evp_encode d end.

(** The octets from [pos] on. *)
Definition rest_of (rd_ : list Z) (rdlen pos : Z) : outcome (list Z) := slice rd_ pos (rdlen - pos).

Definition decode_rrsig (rd_ : list Z) (rdlen : Z) : outcome (list (list Z)) :=
  fail_if rdlen <? 18 ;;
  let! tc := rd16 rd_ 0 in
  let! covered := format_type_name tc 16 in
  let! alg := rd rd_ 2 in
  let! labels := rd rd_ 3 in
  let! orig_ttl := rd32 rd_ 4 in
  let! sig_exp := rd32 rd_ 8 in
  let! sig_inc := rd32 rd_ 12 in
  let! key_tag := rd16 rd_ 16 in
  let! '(signer, pos) := dnssec_rdata_name rd_ rdlen 18 in
  let! sig := rest_of rd_ rdlen pos in
  Ret [covered; dnssec_rdata_uint alg; dnssec_rdata_uint labels; dnssec_rdata_uint orig_ttl; dnssec_rdata_time sig_exp;
       dnssec_rdata_time sig_inc; dnssec_rdata_uint key_tag; signer; dnssec_rdata_b64 sig].

Definition decode_nsec (rd_ : list Z) (rdlen : Z) : outcome (list (list Z)) :=
  let! '(next, pos) := dnssec_rdata_name rd_ rdlen 0 in
  dnssec_rdata_bitmap (S (Z.to_nat rdlen)) rd_ rdlen pos (-1) [next].

(** NSEC3 and NSEC3PARAM *)
Definition decode_nsec3 (param : bool) (rd_ : list Z) (rdlen : Z) : outcome (list (list Z)) :=
  fail_if rdlen <? 5 ;;
  let! salt_len := rd rd_ 4 in
  let pos := 5 + salt_len in
  fail_if (rdlen <? pos) || (param && negb (pos =? rdlen)) ;;
  let! halg := rd rd_ 0 in
  let! flags := rd rd_ 1 in
  let! iterations := rd16 rd_ 2 in
  let! salt := slice rd_ 5 salt_len in
  let fields := [dnssec_rdata_uint halg; dnssec_rdata_uint flags; dnssec_rdata_uint iterations;
                 if salt_len =? 0 then str "-" else dnssec_rdata_hex salt] in
  if param then Ret fields
  else
    fail_if rdlen <=? pos ;;
    let! hash_len := rd rd_ pos in
    fail_if (hash_len =? 0) || (rdlen <? pos + 1 + hash_len) ;;
    let pos := pos + 1 in
    let! h := slice rd_ pos hash_len in
    let! hash := dns_base32hex_encode h (hash_len * 8 / 5 + 2) in
    dnssec_rdata_bitmap (S (Z.to_nat rdlen)) rd_ rdlen (pos + hash_len) (-1) (fields ++ [hash]).

(** DNSKEY and DS *)
Definition decode_dnskey (key : bool) (rd_ : list Z) (rdlen : Z) : outcome (list (list Z)) :=
  fail_if rdlen <? 4 ;;
  let! tag := rd16 rd_ 0 in
  let! b2 := rd rd_ 2 in
  let! b3 := rd rd_ 3 in
  let! d := rest_of rd_ rdlen 4 in
  Ret [dnssec_rdata_uint tag; dnssec_rdata_uint b2; dnssec_rdata_uint b3; if key then dnssec_rdata_b64 d else dnssec_rdata_hex d].

(** The text fields, none for a type that is not decoded; [Fail] is -1. *)
Definition decode_dnssec_rdata (type_code : Z) (rd_ : list Z) (rdlen : Z) : outcome (list (list Z)) :=
  if type_code =? 46 then decode_rrsig rd_ rdlen
  else if type_code =? 47 then decode_nsec rd_ rdlen
  else if type_code =? 50 then decode_nsec3 false rd_ rdlen
  else if type_code =? 51 then decode_nsec3 true rd_ rdlen
  else if type_code =? 48 then decode_dnskey true rd_ rdlen
  else if type_code =? 43 then decode_dnskey false rd_ rdlen
  else Ret [].

(** ** Operations: RDATA

    The text fields and the RDATA in wire form. [off] is the start of the
    RDATA and [off + rdlen] its end; names may point before it. *)

(** A name that ends inside the RDATA. *)
Definition name_in (packet : list Z) (packet_len rdata_p rdata_end : Z) : outcome (list Z * Z) :=
  let! '(name, next) := expand_wire_name packet packet_len rdata_p in
  fail_if rdata_end <? next ;; Ret (name, next).

Fixpoint soa_numbers_at (n : nat) (packet : list Z) (rdata_p rdata_end : Z) : outcome (list (list Z)) :=
  match n with
  | O => Ret []
  | S n' =>
      fail_if rdata_end <? rdata_p + 4 ;;
      let! val := rd32 packet rdata_p in
      let! vals := soa_numbers_at n' packet (rdata_p + 4) rdata_end in
      Ret (fmt_u val :: vals)
  end.

Definition parse_soa (packet : list Z) (packet_len off rdlen : Z) : outcome (list (list Z)) :=
  let! '(mname, p) := name_in packet packet_len off (off + rdlen) in
  let! '(rname, p) := name_in packet packet_len p (off + rdlen) in
  let! numbers := soa_numbers_at 5 packet p (off + rdlen) in
  Ret (mname :: rname :: numbers).

Definition parse_a (packet : list Z) (off rdlen : Z) : outcome (list (list Z)) :=
  fail_if negb (rdlen =? 4) ;;
  let! a := rd packet off in
  let! b := rd packet (off + 1) in
  let! c := rd packet (off + 2) in
  let! d := rd packet (off + 3) in
  Ret [take 15 (fmt_u a ++ [46] ++ fmt_u b ++ [46] ++ fmt_u c ++ [46] ++ fmt_u d)].

Definition parse_name (packet : list Z) (packet_len off rdlen : Z) : outcome (list (list Z)) :=
  let! '(target, _) := name_in packet packet_len off (off + rdlen) in Ret [target].

(** MINFO and RP *)
Definition parse_two_names (packet : list Z) (packet_len off rdlen : Z) : outcome (list (list Z)) :=
  let! '(name1, p) := name_in packet packet_len off (off + rdlen) in
  let! '(name2, _) := name_in packet packet_len p (off + rdlen) in
  Ret [name1; name2].

(** AFSDB, RT, KX, LP and MX *)
Definition parse_pref_name (packet : list Z) (packet_len off rdlen : Z) : outcome (list (list Z)) :=
  fail_if rdlen <? 3 ;;
  let! pref := rd16 packet off in
  let! '(target, _) := name_in packet packet_len (off + 2) (off + rdlen) in
  Ret [fmt_u pref; target].

Definition parse_px (packet : list Z) (packet_len off rdlen : Z) : outcome (list (list Z)) :=
  fail_if rdlen <? 4 ;;
  let! pref := rd16 packet off in
  let! '(map822, p) := name_in packet packet_len (off + 2) (off + rdlen) in
  let! '(mapx400, _) := name_in packet packet_len p (off + rdlen) in
  Ret [fmt_u pref; map822; mapx400].

Definition parse_srv (packet : list Z) (packet_len off rdlen : Z) : outcome (list (list Z)) :=
  fail_if rdlen <? 7 ;;
  let! prio := rd16 packet off in
  let! weight := rd16 packet (off + 2) in
  let! port := rd16 packet (off + 4) in
  let! '(target, _) := name_in packet packet_len (off + 6) (off + rdlen) in
  Ret [fmt_u prio; fmt_u weight; fmt_u port; target].

Definition has_nul (s : list Z) : bool := existsb (fun c => c =? 0) s.

(** [n] character strings from [p] on, whether one has a NUL, and the offset
    behind them. *)
Fixpoint naptr_strings (n : nat) (packet : list Z) (p rdata_end : Z) : outcome (list (list Z) * bool * Z) :=
  match n with
  | O => Ret ([], false, p)
  | S n' =>
      fail_if rdata_end <=? p ;;
      let! slen := rd packet p in
      fail_if rdata_end <? p + 1 + slen ;;
      let! s := slice packet (p + 1) slen in
      let! '(strings, nul, p) := naptr_strings n' packet (p + 1 + slen) rdata_end in
      Ret (s :: strings, has_nul s || nul, p)
  end.

(** The replacement is written out in full and ends the RDATA. *)
Fixpoint full_name (fuel : nat) (packet : list Z) (q rdata_end : Z) : outcome unit :=
  match fuel with
  | O => NoFuel
  | S fuel' =>
      fail_if rdata_end <=? q ;;
      let! l := rd packet q in
      let q := q + 1 in
      if l =? 0 then fail_if negb (q =? rdata_end) ;; Ret tt
      else fail_if (63 <? l) || (rdata_end - q <? l) ;; full_name fuel' packet (q + l) rdata_end
  end.

Definition parse_naptr (packet : list Z) (packet_len off rdlen : Z) : outcome (list (list Z) * option (list Z)) :=
  fail_if rdlen <? 7 ;;
  let! order := rd16 packet off in
  let! pref := rd16 packet (off + 2) in
  let! '(strings, nul, repl_start) := naptr_strings 3 packet (off + 4) (off + rdlen) in
  let! '(replacement, _) := name_in packet packet_len repl_start (off + rdlen) in
  if (nul : bool) then
    let! _ := full_name (S (Z.to_nat rdlen)) packet repl_start (off + rdlen) in
    let! blob := slice packet off rdlen in
    Ret ([], Some blob)
  else Ret ([fmt_u order; fmt_u pref] ++ strings ++ [replacement], None).

(** The character strings of a TXT record; the booleans are [has_nul] and
    [too_many]. *)
Fixpoint txt_strings (fuel : nat) (packet : list Z) (p rdata_end : Z) (fields : list (list Z)) (nul too_many : bool) :
    outcome (list (list Z) * bool * bool) :=
  if rdata_end <=? p then Ret (fields, nul, too_many)
  else match fuel with
       | O => NoFuel
       | S fuel' =>
           let! n := rd packet p in
           let p := p + 1 in
           fail_if rdata_end <? p + n ;;
           let! s := slice packet p n in
           let nul := nul || has_nul s in
           if MAX_RDATA <=? len fields then txt_strings fuel' packet (p + n) rdata_end fields nul true
           else
             let! fields := push fields s in
             txt_strings fuel' packet (p + n) rdata_end fields nul too_many
       end.

Definition parse_txt (packet : list Z) (off rdlen : Z) : outcome (list (list Z) * option (list Z)) :=
  let! '(fields, nul, too_many) := txt_strings (S (Z.to_nat rdlen)) packet off (off + rdlen) [] false false in
  if (nul || too_many) && (0 <? rdlen) then let! blob := slice packet off rdlen in Ret ([], Some blob)
  else Ret (fields, None).

Definition parse_aaaa (packet : list Z) (off rdlen : Z) : outcome (list (list Z)) :=
  fail_if negb (rdlen =? 16) ;;
  let! a := slice packet off 16 in
  Ret [inet_ntop6 a].

(** Other types: the RDATA as it is, and the text of DNSSEC types. *)
Definition parse_generic (type : Z) (packet : list Z) (off rdlen : Z) : outcome (list (list Z) * option (list Z)) :=
  let! blob := slice packet off rdlen in
  match decode_dnssec_rdata type blob rdlen with
  | Ret fields => Ret (fields, Some blob)
  | Fail => Ret ([], Some blob)
  | Oob => Oob
  | NoFuel => NoFuel
  end.

Definition text_only (o : outcome (list (list Z))) : outcome (list (list Z) * option (list Z)) := let! fields := o in Ret (fields, None).

Definition parse_rdata (type : Z) (packet : list Z) (packet_len off rdlen : Z) : outcome (list (list Z) * option (list Z)) :=
  if type =? 6 then text_only (parse_soa packet packet_len off rdlen)
  else if type =? 1 then text_only (parse_a packet off rdlen)
  else if bool_decide (type ∈ [2; 3; 4; 5; 7; 8; 9; 12; 23; 39]) then text_only (parse_name packet packet_len off rdlen)
  else if (type =? 14) || (type =? 17) then text_only (parse_two_names packet packet_len off rdlen)
  else if bool_decide (type ∈ [18; 21; 36; 107]) then text_only (parse_pref_name packet packet_len off rdlen)
  else if type =? 26 then text_only (parse_px packet packet_len off rdlen)
  else if type =? 33 then text_only (parse_srv packet packet_len off rdlen)
  else if type =? 35 then parse_naptr packet packet_len off rdlen
  else if type =? 15 then text_only (parse_pref_name packet packet_len off rdlen)
  else if type =? 16 then parse_txt packet off rdlen
  else if type =? 28 then text_only (parse_aaaa packet off rdlen)
  else parse_generic type packet off rdlen.

(** ** Operations: the record *)

Definition class_text (class_val : Z) : list Z :=
  if class_val =? 1 then str "IN" else if class_val =? DNS_CLASS_KARIDNS_EXT then str "KARIDNS" else str "CH".

Definition get_type_str (type : Z) : outcome (list Z) := format_type_name type 16.

(** The record before its copies are made, and the offset behind it. *)
Definition parse_resource_record_scratch (packet : list Z) (packet_len offset : Z) : outcome (dns_record_t * Z) :=
  let! '(name, offset) := expand_wire_name packet packet_len offset in
  fail_if packet_len <? offset + 10 ;;
  let! type := rd16 packet offset in
  let! class_val := rd16 packet (offset + 2) in
  let! ttl := rd32 packet (offset + 4) in
  let! rdlen := rd16 packet (offset + 8) in
  let offset := offset + 10 in
  fail_if packet_len <? offset + rdlen ;;
  let! type_str := get_type_str type in
  let ttl := if 2147483647 <? ttl then 2147483647 else ttl in
  let! '(fields, blob) := parse_rdata type packet packet_len offset rdlen in
  Ret (DnsRecord name (fmt_u ttl) (class_text class_val) class_val type_str type ttl fields blob
         (match blob with Some d => len d | None => 0 end) 0 false (0, 0) None None None NotCached, offset + rdlen).

End Parse.

Section ParseRecord.
Context `{InetPton, EvpBase64}.
Variable inet_ntop6 : list Z -> list Z.

Definition parse_resource_record (packet : list Z) (packet_len offset : Z) : outcome (dns_record_t * Z) :=
  let! '(rec, offset) := parse_resource_record_scratch inet_ntop6 packet packet_len offset in
  let! rec := dns_record_preparse_cache rec in
  Ret (rec, offset).

End ParseRecord.

(** ** Lemmas: text without NUL *)

Lemma cstring_bytes s : cstring s -> bytes s.
Proof. intros Hs. eapply Forall_impl; [done |]. unfold ischar, isbyte. lia. Qed.

Lemma cstring_str s : forallb (fun b => (0 <? b) && (b <? 256)) (str s) = true -> cstring (str s).
Proof. apply chars_check. Qed.

Lemma digit_char c : isdigit c = true -> ischar c.
Proof. unfold isdigit, ischar. lia. Qed.

Lemma cstring_fmt_u v : 0 <= v -> cstring (fmt_u v).
Proof. intros [Hd _]%fmt_u_digits. eapply Forall_impl; [done | apply digit_char]. Qed.

Lemma cstring_expanded ls : Forall label_wf ls -> cstring (expanded ls).
Proof.
  assert (forallb (fun c => forallb (fun b => (0 <? b) && (b <? 256)) (escape c)) (seqZ 0 256) = true) as He by by vm_compute.
  intros Hls. destruct ls as [| l0 ls0]; [by apply (chars_check [46]) |]. unfold expanded, dotted. apply Forall_concat, Forall_map. eapply Forall_impl; [done |].
  intros l [Hb _]. apply Forall_app. split; [| by apply (chars_check [46])]. unfold label_text. apply Forall_concat, Forall_map. eapply Forall_impl; [done |].
  intros c Hc. apply (forallb_range _ 0 256 He) in Hc. by apply chars_check.
Qed.

Lemma format_type_spec t size : 0 <= t -> exists s, format_type_name t size = Ret s /\ cstring s.
Proof.
  intros Ht. unfold format_type_name. destruct (lookup_type_name_spec t) as [(name & -> & Hn) | [-> _]]; cbn [obind]; eexists; (split; [done |]).
  - assert (forallb (fun '(_, n) => forallb (fun b => (0 <? b) && (b <? 256)) (str n)) TYPE_NAMES = true) as Ha by by vm_compute. rewrite forallb_forall in Ha.
    unfold named in Hn. apply list_elem_of_In, Ha in Hn. by apply cstring_str.
  - apply Forall_take, Forall_app. split; [by apply cstring_str | by apply cstring_fmt_u].
Qed.

Lemma cstring_fmt_0u w v : 0 <= v -> cstring (fmt_0u w v).
Proof.
  intros Hv. unfold fmt_0u. case_if; [| by apply cstring_fmt_u]. clear E. assert (forall acc, cstring acc -> cstring (fixed_digits w v acc)) as H; [| by apply H].
  revert v Hv. induction w as [| w IH]; intros v Hv acc Ha; cbn [fixed_digits]; [done |]. apply IH; [apply Z.div_pos; lia |]. constructor; [| done].
  pose proof (Z.mod_pos_bound v 10 ltac:(lia)). unfold ischar. lia.
Qed.

Lemma cstring_time t : 0 <= t < 4294967296 -> cstring (dnssec_rdata_time t).
Proof.
  intros Ht. unfold dnssec_rdata_time. assert (0 <= t mod 86400) as Hs by (apply Z.mod_pos_bound; lia). destruct (civil_from_days (t / 86400)) as [[y m] d].
  apply Forall_take. repeat (apply Forall_app; split); apply cstring_fmt_0u; try (apply Z.mod_pos_bound; lia); try done; apply Z.div_pos; lia.
Qed.

Lemma cstring_hex d : bytes d -> cstring (dnssec_rdata_hex d).
Proof.
  intros Hd. unfold dnssec_rdata_hex. apply Forall_concat, Forall_map. eapply Forall_impl; [done |]. intros b Hb.
  assert (forallb (fun b => forallb (fun c => (0 <? c) && (c <? 256)) [hex_digit (Z.shiftr b 4); hex_digit (Z.land b 15)]) (seqZ 0 256) = true) as He by by vm_compute.
  apply (forallb_range _ 0 256 He) in Hb. by apply chars_check.
Qed.

Lemma base32hex_text d cap : bytes d -> 8 * len d + 5 <= 5 * cap -> exists text, dns_base32hex_encode d cap = Ret text /\ cstring text.
Proof.
  intros Hd Hcap. unfold dns_base32hex_encode. rewrite (proj2 (Z.eqb_neq _ _)) by lia.
  destruct (octets_spec cap d Hd [] 0 0 [] []) as (out & vals & p & -> & Hv & _); [constructor | lia | done | done | done |]. cbn [app] in *. exists out. split; [done |].
  clear -Hv. unfold digits_of in Hv. induction Hv as [| v c vals out [Hc Hr] _ IH]; constructor; [| done].
  pose proof (forallb_range (fun v => match rd base32hex_alphabet v with Ret c => (0 <? c) && (c <? 256) | _ => false end) 0 32 eq_refl v Hc) as Hx. cbn beta in Hx.
  rewrite Hr in Hx. unfold ischar. lia.
Qed.

(** ** Lemmas: the readers stay inside the packet *)

(** A reader fails, or it gives something with the property. *)
Definition ensures {A} (o : outcome A) (Q : A -> Prop) : Prop := o = Fail \/ exists a, o = Ret a /\ Q a.

Lemma ensures_fail {A} (Q : A -> Prop) : ensures Fail Q.
Proof. by left. Qed.
Lemma ensures_ret {A} (a : A) (Q : A -> Prop) : Q a -> ensures (Ret a) Q.
Proof. intros Ha. right. by exists a. Qed.
Lemma ensures_bind {A B} (o : outcome A) (k : A -> outcome B) P Q : ensures o P -> (forall a, P a -> ensures (k a) Q) -> ensures (obind o k) Q.
Proof. intros [-> | (a & -> & Ha)] Hk; [by left | by apply Hk]. Qed.
Lemma ensures_impl {A} (o : outcome A) (P Q : A -> Prop) : (forall a, P a -> Q a) -> ensures o P -> ensures o Q.
Proof. intros HPQ [-> | (a & -> & Ha)]; [by left | right; eauto]. Qed.
Lemma ensures_defined {A} (o : outcome A) Q : ensures o Q -> defined o /\ forall a, o = Ret a -> Q a.
Proof. intros [-> | (a & -> & Ha)]; [split; [apply defined_Fail | done] | split; [apply defined_Ret | by intros ? [= <-]]]. Qed.

(** Text fields of a record. *)
Definition fields_ok (fields : list (list Z)) : Prop := Forall cstring fields /\ len fields <= MAX_RDATA.

Lemma fields_lit fields : Forall cstring fields -> (length fields <= 48)%nat -> fields_ok fields.
Proof. intros Hf Hl. split; [done | unfold MAX_RDATA; lia]. Qed.

(** RDATA that is kept in wire form is all of it. *)
Definition rdata_ok (rdlen : Z) (r : list (list Z) * option (list Z)) : Prop := fields_ok (fst r) /\ match snd r with Some d => bytes d /\ len d = rdlen | None => True end.

Lemma has_nul_cstring s : bytes s -> has_nul s = false -> cstring s.
Proof.
  unfold has_nul. induction 1 as [| c s Hc _ IH]; [done |]. cbn [existsb]. intros [E1 E2]%orb_false_iff. constructor; [unfold ischar, isbyte in *; lia | by apply IH].
Qed.

Lemma bits_ensures n : forall octet base b fields, fields_ok fields -> ensures (bitmap_bits n octet base b fields) fields_ok.
Proof.
  induction n as [| n IH]; intros octet base b fields Hf; cbn [bitmap_bits]; [by apply ensures_ret |]. do 3 (case_if; [by apply IH |]).
  destruct (format_type_spec (u16 (base + b)) 16) as (name & -> & Hn); [apply u16_range |]. cbn [obind]. unfold push. rewrite (proj2 (Z.ltb_lt _ _)) by lia. cbn [obind].
  apply IH. destruct Hf as [Hf Hl]. split; [apply Forall_app; by split; [| constructor] | rewrite length_app; cbn [length]; lia].
Qed.

Section Readers.
Variables (packet : list Z) (packet_len : Z).
Hypothesis Hbytes : bytes packet.
Hypothesis Hlen : packet_len <= len packet.

Lemma reads_rd {A} i (k : Z -> outcome A) Q : 0 <= i < packet_len -> (forall v, isbyte v -> ensures (k v) Q) -> ensures (obind (rd packet i) k) Q.
Proof. intros Hi Hk. destruct (Edns.rd_range packet i) as (v & -> & Hv); [done | lia |]. by apply Hk. Qed.

Lemma reads_rd16 {A} i (k : Z -> outcome A) Q : 0 <= i -> i + 2 <= packet_len -> (forall v, 0 <= v < 65536 -> ensures (k v) Q) -> ensures (obind (rd16 packet i) k) Q.
Proof. intros Hi Hl Hk. destruct (Edns.rd16_range packet i) as (v & -> & Hv); [done | lia | lia |]. by apply Hk. Qed.

Lemma reads_rd32 {A} i (k : Z -> outcome A) Q : 0 <= i -> i + 4 <= packet_len -> (forall v, 0 <= v < 4294967296 -> ensures (k v) Q) -> ensures (obind (rd32 packet i) k) Q.
Proof. intros Hi Hl Hk. destruct (Edns.rd32_range packet i) as (v & -> & Hv); [done | lia | lia |]. by apply Hk. Qed.

Lemma reads_slice {A} i n (k : list Z -> outcome A) Q : 0 <= i -> 0 <= n -> i + n <= packet_len -> (forall l, bytes l -> len l = n -> ensures (k l) Q) -> ensures (obind (slice packet i n) k) Q.
Proof. intros Hi Hn Hl Hk. destruct (Edns.slice_ok packet i n) as (l & -> & Hb & El); [done | lia | lia | lia |]. by apply Hk. Qed.

Lemma name_bound n p ls q : 0 <= p -> decodes packet packet_len n p ls -> name_end packet p q -> p < q <= packet_len.
Proof.
  intros Hp Hd. revert q. induction Hd as [p Hlt Hr | n p l lb ls Hlt Hr Hl Hfit Hs Hd IH | n p raw lo ls Hlt Hr Ht Hlo Hptr Hd IH];
    intros q He; inversion He as [? E | ? l' ? E Hl' He' | ? raw' E Ht']; subst; try lia.
  - rewrite Hr in E. injection E as <-. lia.
  - rewrite Hr in E. by injection E as <-.
  - rewrite Hr in E. injection E as E. subst. destruct (IH ltac:(lia) q He'). lia.
  - rewrite Hr in E. injection E as E. subst. by apply label_no_pointer in Hl'.
Qed.

Lemma expand_ensures p : 0 <= p ->
  ensures (expand_wire_name packet packet_len p) (fun '(t, q) => p < q <= packet_len /\ exists n ls, decodes packet packet_len n p ls /\ name_end packet p q /\ t = expanded ls /\ Forall label_wf ls /\ len (wire_name ls) <= 255).
Proof.
  intros Hp. unfold expand_wire_name. pose proof (expand_defined packet packet_len Hbytes Hlen p DNS_NAME_TEXT_SIZE Hp) as [Hd1 Hd2].
  destruct (expand_wire_name_to_buffer _ _ _ _) as [[buf q] | | |] eqn:E; try done; [| by left]. right. cbn [obind]. eexists. split; [done |].
  apply expand_spec in E as (n & ls & Hd & H255 & -> & He); [| done | done | done | done]. pose proof (name_bound n p ls q Hp Hd He). split; [done |]. exists n, ls. split; [done |]. split; [done |].
  split; [by rewrite length_app, Nat.add_sub, take_app_length |]. split; [by eapply decodes_wf | done].
Qed.

Lemma reads_expand {A} p (k : list Z * Z -> outcome A) Q : 0 <= p -> (forall t q, cstring t -> p < q <= packet_len -> ensures (k (t, q)) Q) -> ensures (obind (expand_wire_name packet packet_len p) k) Q.
Proof.
  intros Hp Hk. eapply ensures_bind; [by apply expand_ensures |]. intros [t q] (Hq & n & ls & _ & _ & -> & Hwf & _). apply Hk; [by apply cstring_expanded | done].
Qed.

Lemma reads_name_in {A} p e (k : list Z * Z -> outcome A) Q : 0 <= p -> (forall t q, cstring t -> p < q <= e -> q <= packet_len -> ensures (k (t, q)) Q) -> ensures (obind (name_in packet packet_len p e) k) Q.
Proof.
  intros Hp Hk. apply (ensures_bind _ _ (fun '(t, q) => cstring t /\ p < q <= e /\ q <= packet_len)); [| intros [t q] (Ht & Hq & Hl); by apply Hk].
  unfold name_in. apply reads_expand; [done |]. intros t q Ht Hq. case_if; [by left |]. cmp_prop. apply ensures_ret. split; [done | lia].
Qed.

Ltac pstep :=
  match goal with
  | |- ensures Fail _ => apply ensures_fail
  | |- ensures (if ?c then _ else _) _ => destruct c eqn:?; cmp_prop
  | |- ensures (obind (rd packet _) _) _ => apply reads_rd; [lia | let v := fresh "v" in let Hv := fresh "Hv" in intros v Hv; unfold isbyte in Hv]
  | |- ensures (obind (rd16 packet _) _) _ => apply reads_rd16; [lia | lia | intros ? ?]
  | |- ensures (obind (rd32 packet _) _) _ => apply reads_rd32; [lia | lia | intros ? ?]
  | |- ensures (obind (slice packet _ _) _) _ => apply reads_slice; [lia | lia | lia | intros ? ? ?]
  | |- ensures (obind (name_in packet _ _ _) _) _ => apply reads_name_in; [lia | intros ? ? ? ? ?]
  end; cbn [obind].

Ltac pfields := apply ensures_ret; apply fields_lit; [repeat (apply Forall_cons_2; [first [assumption | apply cstring_fmt_u; lia | idtac] |]); try apply Forall_nil_2 | cbn [length]; try lia].

Section Rdata.
Variables off rdlen : Z.
Hypothesis Hoff : 0 <= off.
Hypothesis Hrdlen : 0 <= rdlen.
Hypothesis Hend : off + rdlen <= packet_len.

Lemma soa_numbers_ensures n : forall p, 0 <= p -> ensures (soa_numbers_at n packet p (off + rdlen)) (fun fields => Forall cstring fields /\ length fields = n).
Proof.
  induction n as [| n IH]; intros p Hp; cbn [soa_numbers_at]; [by apply ensures_ret |]. repeat pstep. eapply ensures_bind; [apply IH; lia |].
  intros fields [Hf Hl]. apply ensures_ret. split; [constructor; [apply cstring_fmt_u; lia | done] | cbn; lia].
Qed.

Lemma soa_ensures : ensures (parse_soa packet packet_len off rdlen) fields_ok.
Proof.
  unfold parse_soa. repeat pstep. eapply ensures_bind; [apply soa_numbers_ensures; lia |]. intros fields [Hf Hl]. apply ensures_ret, fields_lit; [by repeat constructor | cbn [length]; lia].
Qed.

Lemma a_ensures : ensures (parse_a packet off rdlen) fields_ok.
Proof.
  unfold parse_a. repeat pstep. pfields. unfold isbyte in *. apply Forall_take. repeat (apply Forall_app; split); try (apply cstring_fmt_u; lia); by apply (chars_check [46]).
Qed.

Lemma name_ensures : ensures (parse_name packet packet_len off rdlen) fields_ok.
Proof. unfold parse_name. repeat pstep. pfields. Qed.

Lemma two_names_ensures : ensures (parse_two_names packet packet_len off rdlen) fields_ok.
Proof. unfold parse_two_names. repeat pstep. pfields. Qed.

Lemma pref_name_ensures : ensures (parse_pref_name packet packet_len off rdlen) fields_ok.
Proof. unfold parse_pref_name. repeat pstep. pfields. Qed.

Lemma px_ensures : ensures (parse_px packet packet_len off rdlen) fields_ok.
Proof. unfold parse_px. repeat pstep. pfields. Qed.

Lemma srv_ensures : ensures (parse_srv packet packet_len off rdlen) fields_ok.
Proof. unfold parse_srv. repeat pstep. pfields. Qed.

Lemma naptr_strings_ensures n : forall p, 0 <= p -> ensures (naptr_strings n packet p (off + rdlen))
  (fun '(strings, nul, q) => (nul = false -> Forall cstring strings) /\ length strings = n /\ p <= q <= Z.max p (off + rdlen)).
Proof.
  induction n as [| n IH]; intros p Hp; cbn [naptr_strings]; [apply ensures_ret; by split_and!; [| | lia | lia] |]. repeat pstep. unfold isbyte in *.
  eapply ensures_bind; [apply IH; lia |]. intros [[strings nul] q] (Hs & Hl & Hq). apply ensures_ret. split_and!; [| cbn; lia | lia | lia].
  intros [E1 E2]%orb_false_iff. constructor; [by apply has_nul_cstring | by apply Hs].
Qed.

Lemma full_name_ensures fuel : forall q, 0 <= q -> Z.max 0 (off + rdlen - q) < Z.of_nat fuel -> ensures (full_name fuel packet q (off + rdlen)) (fun _ => True).
Proof.
  induction fuel as [| fuel IH]; intros q Hq Hf; cbn [full_name]; [lia |]. repeat pstep; [by apply ensures_ret |]. unfold isbyte in *. apply IH; lia.
Qed.

Lemma naptr_ensures : ensures (parse_naptr packet packet_len off rdlen) (rdata_ok rdlen).
Proof.
  unfold parse_naptr. repeat pstep. eapply ensures_bind; [apply naptr_strings_ensures; lia |]. intros [[strings nul] q] (Hs & Hl & Hq). pstep. destruct nul.
  - eapply ensures_bind; [apply full_name_ensures; lia |]. intros _ _. pstep. apply ensures_ret. split; [by apply fields_lit; [| cbn; lia] | done].
  - apply ensures_ret. split; [| done]. apply fields_lit; cbn [fst app]; [| cbn [length]; rewrite length_app; cbn [length]; lia].
    do 2 (apply Forall_cons_2; [apply cstring_fmt_u; lia |]). apply Forall_app. split; [by apply Hs | by constructor].
Qed.

Lemma txt_strings_ensures fuel : forall p fields nul too_many, 0 <= p -> off + rdlen - p < Z.of_nat fuel -> (nul = false -> Forall cstring fields) -> len fields <= MAX_RDATA ->
  ensures (txt_strings fuel packet p (off + rdlen) fields nul too_many) (fun '(fields, nul, too_many) => (nul = false -> Forall cstring fields) /\ len fields <= MAX_RDATA).
Proof.
  induction fuel as [| fuel IH]; intros p fields nul too_many Hp Hf Hc Hl; cbn [txt_strings]; repeat pstep; try (by apply ensures_ret); [lia | ..]; unfold isbyte in *.
  - apply IH; [lia | lia | | done]. intros [E1 E2]%orb_false_iff. by apply Hc.
  - unfold push. rewrite (proj2 (Z.ltb_lt _ _)) by lia. cbn [obind]. apply IH; [lia | lia | | rewrite length_app; cbn [length]; unfold MAX_RDATA in *; lia].
    intros [E1 E2]%orb_false_iff. apply Forall_app. split; [by apply Hc |]. constructor; [by apply has_nul_cstring | done].
Qed.

Lemma txt_ensures : ensures (parse_txt packet off rdlen) (rdata_ok rdlen).
Proof.
  unfold parse_txt. destruct (Z.eq_dec rdlen 0) as [-> | Hz].
  { cbn [txt_strings]. rewrite (proj2 (Z.leb_le _ _)) by lia. cbn [obind orb andb]. apply ensures_ret. split; [by apply fields_lit; [| cbn; lia] | done]. }
  eapply ensures_bind; [apply txt_strings_ensures; [lia | lia | done | done] |]. intros [[fields nul] too_many] [Hc Hl]. rewrite (proj2 (Z.ltb_lt 0 rdlen)), andb_true_r by lia. destruct (nul || too_many) eqn:En.
  - pstep. apply ensures_ret. split; [by apply fields_lit; [| cbn; lia] | done].
  - apply ensures_ret. split; [| done]. split; [| done]. apply Hc. by destruct nul.
Qed.

End Rdata.

(** The DNSSEC fields; [packet] is the RDATA. *)

Lemma no_pointers_ensures fuel : forall p, 0 <= p -> Z.max 0 (packet_len - p) < Z.of_nat fuel -> ensures (no_pointers fuel packet packet_len p) (fun _ => True).
Proof. induction fuel as [| fuel IH]; intros p Hp Hf; cbn [no_pointers]; [lia |]. repeat pstep; [by apply ensures_ret | apply IH; lia]. Qed.

Lemma reads_dnssec_name {A} p (k : list Z * Z -> outcome A) Q : 0 <= p <= packet_len -> (forall t q, cstring t -> p < q <= packet_len -> ensures (k (t, q)) Q) ->
  ensures (obind (dnssec_rdata_name packet packet_len p) k) Q.
Proof.
  intros Hp Hk. apply (ensures_bind _ _ (fun '(t, q) => cstring t /\ p < q <= packet_len)); [| intros [t q] [Ht Hq]; by apply Hk].
  unfold dnssec_rdata_name. eapply ensures_bind; [apply no_pointers_ensures; lia |]. intros _ _. eapply ensures_impl; [| apply expand_ensures; lia].
  intros [t q] (Hq & n & ls & _ & _ & -> & Hwf & _). split; [by apply cstring_expanded | done].
Qed.

Lemma octets_ensures n : forall pos win i fields, fields_ok fields -> 0 <= pos -> 0 <= i -> pos + i + Z.of_nat n <= packet_len -> ensures (bitmap_octets n packet pos win i fields) fields_ok.
Proof.
  induction n as [| n IH]; intros pos win i fields Hf Hp Hi Hl; cbn [bitmap_octets]; [by apply ensures_ret |]. pstep. eapply ensures_bind; [by apply bits_ensures |].
  intros fields' Hf'. apply IH; [done | lia | lia | lia].
Qed.

Lemma bitmap_ensures fuel : forall pos last fields, fields_ok fields -> 0 <= pos -> Z.max 0 (packet_len - pos) < Z.of_nat fuel ->
  ensures (dnssec_rdata_bitmap fuel packet packet_len pos last fields) fields_ok.
Proof.
  induction fuel as [| fuel IH]; intros pos last fields Hf Hp Hl; cbn [dnssec_rdata_bitmap]; [lia |]. destruct (packet_len <=? pos) eqn:E; [by apply ensures_ret |]. cmp_prop.
  do 3 pstep. destruct (_ || _ || _ || _) eqn:Eg; [apply ensures_fail |]. cmp_prop. eapply ensures_bind; [apply octets_ensures; [done | lia..] |]. intros fields' Hf'. apply IH; [done | lia | lia].
Qed.

End Readers.

Section Dnssec.
Context `{EvpBase64}.
Variable d : list Z.
Hypothesis Hbytes : bytes d.

Ltac dstep :=
  match goal with
  | |- ensures Fail _ => apply ensures_fail
  | |- ensures (obind (rd d _) _) _ => apply (reads_rd d (len d)); [done | lia | lia | let v := fresh "v" in let Hv := fresh "Hv" in intros v Hv; unfold isbyte in Hv]
  | |- ensures (obind (rd16 d _) _) _ => apply (reads_rd16 d (len d)); [done | lia | lia | lia | intros ? ?]
  | |- ensures (obind (rd32 d _) _) _ => apply (reads_rd32 d (len d)); [done | lia | lia | lia | intros ? ?]
  | |- ensures (obind (slice d _ _) _) _ => apply (reads_slice d (len d)); [done | lia | lia | lia | lia | intros ? ? ?]
  | |- ensures (obind (rest_of d _ _) _) _ => unfold rest_of
  | |- ensures (obind (dnssec_rdata_name d _ _) _) _ => apply reads_dnssec_name; [done | lia | lia | intros ? ? ? ?]
  | |- ensures (obind (format_type_name ?t 16) _) _ =>
      let s := fresh "s" in let Hs := fresh "Hs" in destruct (format_type_spec t 16) as (s & -> & Hs); [lia |]
  end; cbn [obind].

Lemma cstring_b64 x : cstring (dnssec_rdata_b64 x).
Proof. unfold dnssec_rdata_b64. destruct x; [constructor | apply evp_encode_cstring]. Qed.

Ltac dfields := apply ensures_ret; apply fields_lit;
  [repeat (apply Forall_cons_2; [first [assumption | apply cstring_fmt_u; lia | apply cstring_time; lia | apply cstring_b64 | by apply cstring_hex | idtac] |]); try apply Forall_nil_2 | cbn [length]; try lia].

Lemma rrsig_ensures : ensures (decode_rrsig d (len d)) fields_ok.
Proof. unfold decode_rrsig. destruct (Z.ltb_spec (len d) 18); [apply ensures_fail |]. repeat dstep. dfields. Qed.

Lemma nsec_ensures : ensures (decode_nsec d (len d)) fields_ok.
Proof.
  unfold decode_nsec. dstep. apply bitmap_ensures; [done | lia | | lia | lia]. apply fields_lit; [by constructor | cbn; lia].
Qed.

Lemma nsec3_ensures param : ensures (decode_nsec3 param d (len d)) fields_ok.
Proof.
  unfold decode_nsec3. destruct (Z.ltb_spec (len d) 5); [apply ensures_fail |]. dstep. destruct ((len d <? 5 + v) || _) eqn:E; [apply ensures_fail |]. apply orb_false_iff in E as [E _]. cmp_prop. repeat dstep.
  assert (cstring (if v =? 0 then str "-" else dnssec_rdata_hex l)) as Hsalt by (case_if; [by apply cstring_str | by apply cstring_hex]).
  destruct param; [dfields |]. destruct (Z.leb_spec (len d) (5 + v)); [apply ensures_fail |]. dstep. destruct ((v3 =? 0) || _) eqn:E'; [apply ensures_fail |]. cmp_prop. dstep.
  destruct (base32hex_text l0 (v3 * 8 / 5 + 2)) as (text & -> & Ht); [done | Z.to_euclidean_division_equations; lia |]. cbn [obind].
  apply bitmap_ensures; [done | lia | | lia | lia]. apply fields_lit; [| cbn; lia]. cbn [app]. repeat (apply Forall_cons_2; [first [assumption | apply cstring_fmt_u; lia] |]). apply Forall_nil_2.
Qed.

Lemma dnskey_ensures key : ensures (decode_dnskey key d (len d)) fields_ok.
Proof.
  unfold decode_dnskey. destruct (Z.ltb_spec (len d) 4); [apply ensures_fail |]. repeat dstep. dfields. destruct key; [apply cstring_b64 | by apply cstring_hex].
Qed.

Lemma dnssec_ensures type : ensures (decode_dnssec_rdata type d (len d)) fields_ok.
Proof.
  unfold decode_dnssec_rdata. case_ifs; auto using rrsig_ensures, nsec_ensures, nsec3_ensures, dnskey_ensures. apply ensures_ret, fields_lit; [constructor | cbn; lia].
Qed.

End Dnssec.

Section Record.
Context `{InetPton, EvpBase64}.
Variable inet_ntop6 : list Z -> list Z.
Hypothesis Hntop : forall a, bytes a -> length a = 16%nat -> cstring (inet_ntop6 a).
Variables (packet : list Z) (packet_len : Z).
Hypothesis Hbytes : bytes packet.
Hypothesis Hlen : packet_len <= len packet.

Lemma generic_ensures type off rdlen : 0 <= off -> 0 <= rdlen -> off + rdlen <= packet_len -> ensures (parse_generic type packet off rdlen) (rdata_ok rdlen).
Proof.
  intros Ho Hr He. unfold parse_generic. apply (reads_slice packet packet_len); [done.. |]. intros blob Hb Hl. rewrite <- Hl at 1.
  destruct (dnssec_ensures blob Hb type) as [-> | (fields & -> & Hf)]; apply ensures_ret; (split; [| done]); [apply fields_lit; [constructor | cbn; lia] | done].
Qed.

Lemma aaaa_ensures off rdlen : 0 <= off -> off + rdlen <= packet_len -> ensures (parse_aaaa inet_ntop6 packet off rdlen) fields_ok.
Proof.
  intros Ho He. unfold parse_aaaa. destruct (Z.eqb_spec rdlen 16) as [-> |]; [| apply ensures_fail]. cbn [negb]. apply (reads_slice packet packet_len); [done | done | lia.. |]. intros a Hb Hl.
  apply ensures_ret, fields_lit; [| cbn; lia]. constructor; [| done]. apply Hntop; [done | lia].
Qed.

Lemma text_ensures rdlen o : ensures o fields_ok -> ensures (text_only o) (rdata_ok rdlen).
Proof. intros Ho. unfold text_only. eapply ensures_bind; [done |]. intros fields Hf. by apply ensures_ret. Qed.

Lemma rdata_ensures type off rdlen : 0 <= off -> 0 <= rdlen -> off + rdlen <= packet_len -> ensures (parse_rdata inet_ntop6 type packet packet_len off rdlen) (rdata_ok rdlen).
Proof.
  intros Ho Hr He. unfold parse_rdata. case_ifs; try apply text_ensures;
    first [by apply soa_ensures | by apply (a_ensures packet packet_len) | by apply name_ensures | by apply two_names_ensures | by apply pref_name_ensures | by apply px_ensures | by apply srv_ensures
          | by apply naptr_ensures | by apply (txt_ensures packet packet_len) | by apply aaaa_ensures | by apply generic_ensures].
Qed.

End Record.

(** ** Properties *)

(** What a received record is: C strings for its name and its fields, at most
    [MAX_RDATA] of them, and RDATA in wire form of the length it says. *)
Definition parsed_ok (rec : dns_record_t) : Prop :=
  cstring (name rec) /\ fields_ok (rdata rec) /\ 0 <= type_code rec < 65536 /\ 0 <= class_val rec < 65536 /\ 0 <= ttl_value rec <= 2147483647 /\
  match generic_data rec with Some d => bytes d /\ len d = generic_len rec /\ len d <= 65535 | None => generic_len rec = 0 end.

Lemma scratch_ensures `{InetPton, EvpBase64} inet_ntop6 packet packet_len offset :
  (forall a, bytes a -> length a = 16%nat -> cstring (inet_ntop6 a)) -> bytes packet -> packet_len <= len packet -> 0 <= offset ->
  ensures (parse_resource_record_scratch inet_ntop6 packet packet_len offset)
    (fun '(rec, next) => parsed_ok rec /\ cache rec = NotCached /\ name_wire rec = None /\ offset + 11 <= next <= packet_len).
Proof.
  intros Hntop Hb Hl Ho. unfold parse_resource_record_scratch. apply reads_expand; [done | done | done |]. intros name p Hn Hp.
  destruct (Z.ltb_spec packet_len (p + 10)); [apply ensures_fail |].
  do 2 (apply (reads_rd16 packet packet_len Hb Hl); [lia | lia |]; intros ? ?). apply (reads_rd32 packet packet_len Hb Hl); [lia | lia |]. intros ttl Httl.
  apply (reads_rd16 packet packet_len Hb Hl); [lia | lia |]. intros rdlen Hr. destruct (Z.ltb_spec packet_len (p + 10 + rdlen)); [apply ensures_fail |].
  unfold get_type_str. destruct (format_type_spec v 16) as (ts & -> & Hts); [lia |]. cbn [obind].
  eapply ensures_bind; [apply rdata_ensures; [done | done | done | lia | lia | lia] |]. intros [fields blob] [Hf Hblob]. apply ensures_ret. split; [| split; [done | split; [done | lia]]].
  split; [done |]. split; [done |]. split; [done |]. split; [done |]. cbn [ttl_value generic_data generic_len]. split; [case_if; lia |]. cbn [snd] in Hblob. destruct blob as [d |]; [| done].
  destruct Hblob as [? ?]. split; [done |]. lia.
Qed.

(** C3. Reading a record from a packet an attacker made never leaves the packet
    and always ends; the record that comes out has C strings without a NUL in
    every field (character strings with a NUL are kept in wire form), no more
    fields than the array holds, and the offset has moved forward inside the
    packet. *)
Theorem parse_resource_record_safe `{InetPton, EvpBase64} (inet_ntop6 : list Z -> list Z) (packet : list Z) (packet_len offset : Z) :
  (forall a, bytes a -> length a = 16%nat -> cstring (inet_ntop6 a)) -> bytes packet -> packet_len <= len packet -> 0 <= offset ->
  let r := parse_resource_record inet_ntop6 packet packet_len offset in
  defined r /\ forall rec next, r = Ret (rec, next) -> parsed_ok rec /\ offset + 11 <= next <= packet_len.
Proof.
  intros Hntop Hb Hl Ho r. enough (ensures r (fun '(rec, next) => parsed_ok rec /\ offset + 11 <= next <= packet_len)) as He.
  { apply ensures_defined in He as [Hd Hr]. split; [done |]. intros rec next E. by apply (Hr (rec, next)). }
  unfold r, parse_resource_record. eapply ensures_bind; [by apply scratch_ensures |]. intros [rec next] (Hok & Hc & Hnw & Hnext).
  unfold dns_record_preparse_cache. destruct (Z.eqb_spec (len (rdata rec)) 0) as [E | E]; [by apply ensures_ret |].
  destruct Hok as (Hn & [Hf Hcount] & Hrest). assert (Forall bytes (rdata rec)) as Hfb by (eapply Forall_impl; [done | apply cstring_bytes]).
  destruct (wire_of_total (name rec)) as [nw ->]; [by apply cstring_bytes |]. destruct (preparse_total rec Hfb E) as [c ->]. cbn [obind]. by apply ensures_ret.
Qed.

(** A TXT record with a NUL in its string. *)
Definition ex_txt : list Z := [0; 0; 16; 0; 1; 0; 0; 0; 60; 0; 3; 2; 97; 0].

Lemma parse_resource_record_safe_witness :
  exists rec, @parse_resource_record plain_InetPton plain_EvpBase64 (fun _ => []) ex_txt 14 0 = Ret (rec, 14) /\ rdata rec = [] /\ generic_data rec = Some [2; 97; 0] /\ parsed_ok rec.
Proof.
  destruct (@parse_resource_record_safe plain_InetPton plain_EvpBase64 (fun _ => []) ex_txt 14 0) as [_ Hr]; [constructor | bytes_lit | done | done |].
  eexists. split; [vm_compute; reflexivity |]. split; [reflexivity |]. split; [reflexivity |]. apply (Hr _ 14). vm_compute. reflexivity.
Defined.

End RrParse.
