(* ===== verification/RrRound.v ===== *)
(** * Records on the wire: what is written is read back

    The fields of a record as values, the text that stands for them in
    [rdata] and the octets that stand for them in RDATA: the layout both
    [serialize_dns_record] and [parse_resource_record] follow. A record that is
    written, with or without name compression, is read back. *)

From S2P Require Import Prelude CLib Cidr NameText WireName Compress TypeName Edns RdataText Record Svcb RrWrite RrFrame RrParse.

Module RrRound.
Import CLib Cidr NameText WireName Compress TypeName RdataText Record Svcb RrWrite RrFrame RrParse.

(** ** The layout of RDATA *)

Inductive field :=
| FName (ls : list (list Z))
| F16 (v : Z)
| FSerial (v : Z)
| FTtl (v : Z)
| FString (s : list Z)
| FAddr4 (a b c d : Z)
| FAddr6 (a : list Z).

Inductive kind := KName | K16 | KSerial | KTtl | KString | KAddr4 | KAddr6.

Definition kind_of (f : field) : kind :=
  match f with
  | FName _ => KName | F16 _ => K16 | FSerial _ => KSerial | FTtl _ => KTtl | FString _ => KString | FAddr4 _ _ _ _ => KAddr4 | FAddr6 _ => KAddr6
  end.

(** The types with text fields, by RFC 1035 and its successors; TXT, which has
    any number of strings, apart. *)
Definition layout (type : Z) : option (list kind) :=
  if type =? 1 then Some [KAddr4]
  else if type =? 28 then Some [KAddr6]
  else if bool_decide (type ∈ [2; 3; 4; 5; 7; 8; 9; 12; 23; 39]) then Some [KName]
  else if bool_decide (type ∈ [14; 17]) then Some [KName; KName]
  else if bool_decide (type ∈ [15; 18; 21; 36; 107]) then Some [K16; KName]
  else if type =? 26 then Some [K16; KName; KName]
  else if type =? 33 then Some [K16; K16; K16; KName]
  else if type =? 35 then Some [K16; K16; KString; KString; KString; KName]
  else if type =? 6 then Some [KName; KName; KSerial; KTtl; KTtl; KTtl; KTtl]
  else None.

Definition has_layout (type : Z) (fs : list field) : Prop :=
  layout type = Some (map kind_of fs) \/ type = 16 /\ Forall (fun f => kind_of f = KString) fs /\ 1 <= len fs <= MAX_RDATA.

Definition field_piece (f : field) : piece :=
  match f with
  | FName ls => PName ls
  | F16 v => POctets (w16 v)
  | FSerial v | FTtl v => POctets (w32 v)
  | FString s => POctets (len s :: s)
  | FAddr4 a b c d => POctets [a; b; c; d]
  | FAddr6 a => POctets a
  end.

(** Equal up to the case of letters in names. *)
Definition field_ci (f g : field) : Prop :=
  match f, g with FName a, FName b => ci a b | _, _ => f = g end.

(** The fields of a layout, and the types of a list. *)
Ltac inv_kinds E :=
  match type of E with
  | Some _ = Some (map kind_of ?fs) =>
      injection E as E;
      repeat match goal with
             | H : _ :: _ = map kind_of ?l |- _ =>
                 let f := fresh "f" in destruct l as [| f l]; [discriminate H |]; cbn [map] in H; injection H as ? H; destruct f; try discriminate
             | H : [] = map kind_of ?l |- _ => destruct l; [clear H | discriminate H]
             end
  end.

Ltac inv_type E := apply bool_decide_eq_true in E; repeat (apply elem_of_cons in E as [-> | E]); [.. | by apply elem_of_nil in E].

Section Round.
Context `{InetPton, EvpBase64}.
Variable inet_ntop6 : list Z -> list Z.

Definition field_text (f : field) : list Z :=
  match f with
  | FName ls => expanded ls
  | F16 v | FSerial v | FTtl v => fmt_u v
  | FString s => s
  | FAddr4 a b c d => fmt_u a ++ [46] ++ fmt_u b ++ [46] ++ fmt_u c ++ [46] ++ fmt_u d
  | FAddr6 a => inet_ntop6 a
  end.

(** A value of its kind; the text of an address is what [inet_pton] reads. *)
Definition field_ok (f : field) : Prop :=
  match f with
  | FName ls => Forall label_wf ls /\ len (wire_name ls) <= 255
  | F16 v => 0 <= v < 65536
  | FSerial v => 0 <= v < 4294967296
  | FTtl v => 0 <= v <= TTL_MAX
  | FString s => cstring s /\ len s <= 255
  | FAddr4 a b c d => bytes [a; b; c; d] /\ inet_pton AF_INET (field_text f) = Some [a; b; c; d]
  | FAddr6 a => bytes a /\ length a = 16%nat /\ cstring (inet_ntop6 a) /\ inet_pton AF_INET6 (inet_ntop6 a) = Some a
  end.

(** ** Lemmas: fields in text form *)

Lemma field_text_bytes f : field_ok f -> bytes (field_text f).
Proof.
  destruct f as [ls | v | v | v | s | a b c d | a]; cbn [field_ok field_text].
  - intros [Hls _]. by apply expanded_bytes.
  - intros Hv. apply cstring_bytes, cstring_fmt_u. lia.
  - intros Hv. apply cstring_bytes, cstring_fmt_u. lia.
  - intros Hv. apply cstring_bytes, cstring_fmt_u. lia.
  - intros [Hs _]. by apply cstring_bytes.
  - intros [Hb _]. rewrite !Forall_cons in Hb. unfold isbyte in Hb. destruct Hb as (? & ? & ? & ? & _).
    repeat (apply Forall_app; split); try (apply cstring_bytes, cstring_fmt_u; lia); bytes_lit.
  - intros (_ & _ & Hc & _). by apply cstring_bytes.
Qed.

Lemma parse_u16_fmt v : 0 <= v < 65536 -> parse_u16 (fmt_u v) = Ret v.
Proof.
  intros Hv. unfold parse_u16, parse_num. pose proof (fmt_u_digits v ltac:(lia)) as [_ Hne]. destruct (streq (fmt_u v) []) eqn:E; [by apply bool_decide_eq_true in E |].
  pose proof (strtol_fmt_u v [] ltac:(unfold LONG_MAX; lia) eq_refl) as Es. rewrite app_nil_r in Es. rewrite Es. unfold streq. rewrite bool_decide_true by done. cbn [negb orb].
  rewrite (proj2 (Z.ltb_ge v 0)), (proj2 (Z.ltb_ge 65535 v)) by lia. done.
Qed.

Lemma fmt_u_number v : 0 <= v -> number (fmt_u v) /\ dec_from 0 (fmt_u v) = v.
Proof.
  intros Hv. pose proof (fmt_u_digits v Hv) as [Hd Hne]. split; [done |]. pose proof (digits_app (fmt_u v) [] 0 Hd eq_refl) as E. destruct (digits_fmt_u v [] Hv eq_refl) as [E' _].
  rewrite E in E'. injection E' as E'. exact E'.
Qed.

Lemma strtoul32_fmt v : 0 <= v < 4294967296 -> strtoul32 (fmt_u v) = v.
Proof.
  intros Hv. destruct (fmt_u_number v) as [Hn Hd]; [lia |]. unfold strtoul32. pose proof (strtoull_number (fmt_u v) [] Hn eq_refl) as E. rewrite app_nil_r in E. rewrite E, Hd. cbn [fst].
  unfold ULLONG_MAX. rewrite Z.min_r by lia. by apply u32_small.
Qed.

Lemma ttl_fmt v : 0 <= v <= TTL_MAX -> parse_ttl_value (Some (fmt_u v)) = Ret v.
Proof.
  intros Hv. destruct (fmt_u_number v) as [Hn Hd]; [lia |]. rewrite (lenient_reader _ v); [f_equal; lia |]. left. by split.
Qed.

(** ** Lemmas: RDATA without compression *)

Definition field_octets (f : field) : list Z := match f with FName ls => wire_name ls | _ => match field_piece f with POctets d => d | PName _ => [] end end.
Definition flat (fs : list field) : list Z := concat (map field_octets fs).

Lemma size_flat fs : size (map field_piece fs) = len (flat fs).
Proof. induction fs as [| f fs IH]; [done |]. unfold flat in *. cbn [map size concat]. rewrite length_app, Nat2Z.inj_add, IH. by destruct f. Qed.

Variable max : Z.

Lemma wire_of_expanded ls : field_ok (FName ls) -> wire_of (expanded ls) = Ret (Some (wire_name ls)).
Proof.
  intros [Hls H255]. rewrite wire_of_spec by (by apply expanded_bytes). destruct (text_labels_expanded ls Hls) as (raw & -> & ->). cbv zeta. by rewrite (proj2 (Z.leb_le _ _)).
Qed.

Lemma out_name_add ls s : in_range max s -> field_ok (FName ls) -> out_name max (expanded ls) s = add_octets max (wire_name ls) s.
Proof.
  intros Hs Hf. rewrite <- (wire_name_out max (wire_name ls)); [by apply need_out_add | done | apply expanded_bytes; apply Hf | by apply wire_of_expanded].
Qed.

Lemma need_add n W s k : n <= len W -> (snd s + n <= max -> k s = add_octets max W s) -> obind (need max n s) k = add_octets max W s.
Proof.
  intros Hn Hk. unfold need. destruct (Z.ltb_spec max (snd s + n)); [| by apply Hk]. unfold add_octets. by rewrite (proj2 (Z.ltb_lt _ _)) by lia.
Qed.

Lemma add_bind d W s o k : in_range max s -> o = add_octets max d s -> (forall s', in_range max s' -> k s' = add_octets max W s') -> obind o k = add_octets max (d ++ W) s.
Proof.
  intros Hs -> Hk. rewrite <- add_app by apply Hs. destruct (add_octets max d s) as [s' | | |] eqn:E; try done. cbn [obind]. apply Hk. by eapply add_keeps.
Qed.

Lemma char_string_add t s : in_range max s -> len t <= 255 -> write_char_string max t s = add_octets max (len t :: t) s.
Proof.
  intros Hs Hl. unfold write_char_string. rewrite (proj2 (Z.ltb_ge 255 (len t))) by lia. apply need_add; [cbn [length]; lia |]. intros Hr.
  rewrite u8_small by lia. rewrite Nat2Z.id, firstn_all. change (len t :: t) with ([len t] ++ t).
  rewrite (out_add max) by (done || (cbn [length]; lia)). rewrite <- add_app by apply Hs.
  destruct (add_octets max [len t] s) as [s' | | |] eqn:E; try done. cbn [obind]. apply out_add; [by eapply add_keeps |]. unfold add_octets in E. case_if_in E; [done |]. injection E as <-. cbn [snd length]. lia.
Qed.

Ltac wfields := cbn [map field_text] in *; unfold fld; cbn [lookup list_lookup obind].

Lemma name_add ls s : in_range max s -> field_ok (FName ls) -> rdata_name max (map field_text [FName ls]) s = add_octets max (flat [FName ls]) s.
Proof. intros Hs Hf. unfold rdata_name. wfields. unfold flat. cbn [map concat field_octets]. rewrite app_nil_r. by apply out_name_add. Qed.

Lemma two_names_add a b s : in_range max s -> field_ok (FName a) -> field_ok (FName b) -> rdata_two_names max (map field_text [FName a; FName b]) s = add_octets max (flat [FName a; FName b]) s.
Proof.
  intros Hs Ha Hb. unfold rdata_two_names. wfields. unfold flat. cbn [map concat field_octets]. rewrite app_nil_r. apply add_bind; [done | by apply out_name_add |]. intros s' Hs'. by apply out_name_add.
Qed.

Ltac wflat := unfold flat; cbn [map concat field_octets field_piece]; rewrite ?app_nil_r.

Lemma pref_name_add v a s : in_range max s -> field_ok (F16 v) -> field_ok (FName a) -> rdata_pref_name max (map field_text [F16 v; FName a]) s = add_octets max (flat [F16 v; FName a]) s.
Proof.
  intros Hs Hv Ha. unfold rdata_pref_name. wflat. wfields. change (fail_if len [fmt_u v; expanded a] <? 2 ;; ?k) with k. apply need_add; [rewrite length_app; cbn; lia |]. intros Hr.
  rewrite parse_u16_fmt by done. cbn [obind]. apply add_bind; [done | by apply out_add |]. intros s' Hs'. by apply out_name_add.
Qed.

Lemma px_add v a b s : in_range max s -> field_ok (F16 v) -> field_ok (FName a) -> field_ok (FName b) ->
  rdata_px max (map field_text [F16 v; FName a; FName b]) s = add_octets max (flat [F16 v; FName a; FName b]) s.
Proof.
  intros Hs Hv Ha Hb. unfold rdata_px. wflat. wfields. change (fail_if len [fmt_u v; expanded a; expanded b] <? 3 ;; ?k) with k. apply need_add; [rewrite !length_app; cbn; lia |]. intros Hr.
  rewrite parse_u16_fmt by done. cbn [obind]. apply add_bind; [done | by apply out_add |]. intros s' Hs'. apply add_bind; [done | by apply out_name_add |]. intros s'' Hs''. by apply out_name_add.
Qed.

Lemma srv_add v1 v2 v3 a s : in_range max s -> field_ok (F16 v1) -> field_ok (F16 v2) -> field_ok (F16 v3) -> field_ok (FName a) ->
  rdata_srv max (map field_text [F16 v1; F16 v2; F16 v3; FName a]) s = add_octets max (flat [F16 v1; F16 v2; F16 v3; FName a]) s.
Proof.
  intros Hs H1 H2 H3 Ha. unfold rdata_srv. wflat. wfields. change (fail_if len [fmt_u v1; fmt_u v2; fmt_u v3; expanded a] <? 4 ;; ?k) with k.
  apply need_add; [rewrite !length_app; cbn; lia |]. intros Hr. rewrite !parse_u16_fmt by done. cbn [obind].
  replace (w16 v1 ++ w16 v2 ++ w16 v3 ++ wire_name a) with ((w16 v1 ++ w16 v2 ++ w16 v3) ++ wire_name a) by (by rewrite <- !app_assoc).
  apply add_bind; [done | by apply out_add |]. intros s' Hs'. by apply out_name_add.
Qed.

Lemma naptr_add v1 v2 s1 s2 s3 a s : in_range max s -> field_ok (F16 v1) -> field_ok (F16 v2) -> field_ok (FString s1) -> field_ok (FString s2) -> field_ok (FString s3) -> field_ok (FName a) ->
  let fs := [F16 v1; F16 v2; FString s1; FString s2; FString s3; FName a] in rdata_naptr max (map field_text fs) s = add_octets max (flat fs) s.
Proof.
  intros Hs H1 H2 [_ Hs1] [_ Hs2] [_ Hs3] Ha. cbv zeta. unfold rdata_naptr. wflat. wfields. change (fail_if len [fmt_u v1; fmt_u v2; s1; s2; s3; expanded a] <? 6 ;; ?k) with k.
  apply need_add; [rewrite !length_app; cbn; lia |]. intros Hr. rewrite !parse_u16_fmt by done. cbn [obind].
  replace (w16 v1 ++ w16 v2 ++ (len s1 :: s1) ++ (len s2 :: s2) ++ (len s3 :: s3) ++ wire_name a)
    with ((w16 v1 ++ w16 v2) ++ ((len s1 :: s1) ++ (len s2 :: s2) ++ (len s3 :: s3)) ++ wire_name a) by (by rewrite <- !app_assoc).
  apply add_bind; [done | by apply out_add |]. intros s' Hs'. apply add_bind; [done | | intros s'' Hs''; by apply out_name_add].
  cbn [char_fields]. unfold fld. cbn [lookup list_lookup obind]. apply add_bind; [done | by apply char_string_add |]. intros t1 Ht1. apply add_bind; [done | by apply char_string_add |]. intros t2 Ht2.
  rewrite char_string_add by done. by destruct (add_octets max (len s3 :: s3) t2).
Qed.

Lemma addr4_add a b c d s : in_range max s -> field_ok (FAddr4 a b c d) -> rdata_a max AF_INET 4 (map field_text [FAddr4 a b c d]) s = add_octets max (flat [FAddr4 a b c d]) s.
Proof.
  intros Hs [Hb Hp]. unfold rdata_a. wflat. cbn [map]. change (fail_if len [field_text (FAddr4 a b c d)] =? 0 ;; ?k) with k. apply need_add; [cbn; lia |]. intros Hr.
  unfold fld. cbn [lookup list_lookup obind]. unfold out_addr. rewrite Hp. by apply out_add.
Qed.

Lemma addr6_add a s : in_range max s -> field_ok (FAddr6 a) -> rdata_a max AF_INET6 16 (map field_text [FAddr6 a]) s = add_octets max (flat [FAddr6 a]) s.
Proof.
  intros Hs (Hb & Hl & _ & Hp). unfold rdata_a. wflat. cbn [map]. change (fail_if len [field_text (FAddr6 a)] =? 0 ;; ?k) with k. apply need_add; [lia |]. intros Hr.
  unfold fld. cbn [lookup list_lookup obind field_text]. unfold out_addr. rewrite Hp. apply out_add; [done | lia].
Qed.

Lemma txt_field_short t : cstring t -> len t <= 255 -> txt_field t = len t :: t.
Proof.
  intros _ Hl. unfold txt_field. destruct t as [| c t]; [done |]. set (u := c :: t) in *. assert (len u = Z.of_nat (S (length t))) as El by done.
  change (length u) with (S (length t)) at 1. change (text_pieces (S (length t)) u) with (let chunk := if 255 <? len u then 255 else len u in
    u8 chunk :: take (Z.to_nat chunk) u ++ text_pieces (length t) (drop (Z.to_nat chunk) u)).
  rewrite (proj2 (Z.ltb_ge 255 (len u))) by lia. cbv zeta. rewrite u8_small by lia. rewrite Nat2Z.id, firstn_all, drop_all. destruct (length t); cbn [text_pieces]; by rewrite app_nil_r.
Qed.

Lemma txt_add fs s : in_range max s -> Forall field_ok fs -> Forall (fun f => kind_of f = KString) fs -> 1 <= len fs -> rdata_txt max (map field_text fs) s = add_octets max (flat fs) s.
Proof.
  intros Hs Hf Hk Hl. assert (concat (map txt_field (map field_text fs)) = flat fs) as Ef.
  { clear Hl. unfold flat. induction Hk as [| f fs Hk _ IH]; [done |]. apply Forall_cons_1 in Hf as [Hf0 Hf]. cbn [map concat]. rewrite IH by done. f_equal. destruct f; try done.
    destruct Hf0 as [? ?]. by apply txt_field_short. }
  unfold rdata_txt. rewrite (proj2 (Z.eqb_neq _ 0)) by (rewrite length_map; lia). rewrite (proj2 (txt_wire_spec _ ltac:(apply Forall_map; eapply Forall_impl; [exact Hf | apply field_text_bytes]))).
  rewrite Ef. by apply need_out_add.
Qed.

(** ** Lemmas: the pieces of RDATA *)

(** The pieces are written, or there is no room for them. *)
Definition sexact (h : Z) (s : list Z * Z * option compress_ctx_t) (ps : list piece) (o : outcome (list Z * Z * option compress_ctx_t)) : Prop :=
  o = Fail /\ max < snd (fst s) + size ps \/ exists s', o = Ret s' /\ swrote max h s ps s'.

Lemma sexact_bind h s ps o qs k : sexact h s ps o -> 0 <= size qs ->
  (forall s', fs_ok max h s' -> (is_Some (snd s) <-> is_Some (snd s')) -> sexact h s' qs (k s')) -> sexact h s (ps ++ qs) (obind o k).
Proof.
  intros [[-> Hf] | (s' & -> & Hw)] Hq Hk; [left; split; [done | rewrite size_app; lia] |]. cbn [obind]. pose proof Hw as (Hs' & _ & Ho & Hc & _).
  destruct (Hk s' Hs' Hc) as [[-> Hf] | (s'' & -> & Hw')]; [left; split; [done | rewrite size_app; lia] |]. right. exists s''. split; [done |]. by eapply swrote_app.
Qed.

Lemma size_nonneg ps : 0 <= size ps.
Proof. induction ps as [| p ps IH]; cbn [size]; [lia |]. destruct p; cbn [piece_size]; lia. Qed.

(** When names are compressed, no two suffixes of the name have the same hash. *)
Definition field_fresh (ctx : option compress_ctx_t) (f : field) : Prop := match f with FName ls => is_Some ctx -> NoDup (name_hashes ls) | _ => True end.

Lemma text_ok_expanded ctx ls : field_ok (FName ls) -> field_fresh ctx (FName ls) -> text_ok ctx (expanded ls).
Proof.
  intros [Hls H255] Hn. split; [by apply expanded_bytes |]. intros Hc raw E. destruct (text_labels_expanded ls Hls) as (raw' & E' & Hf). assert (raw' = raw) as -> by congruence. rewrite Hf. by apply Hn.
Qed.

Lemma fresh_some ctx ctx' f : (is_Some ctx <-> is_Some ctx') -> field_fresh ctx f -> field_fresh ctx' f.
Proof. destruct f; try done. cbn. intros Hc Hn H'. apply Hn. tauto. Qed.

Lemma sexact_name h s ls : fs_ok max h s -> field_ok (FName ls) -> field_fresh (snd s) (FName ls) -> sexact h s [PName ls] (out_text_name max (expanded ls) s).
Proof.
  intros Hs Hf Hn. pose proof (text_ok_expanded _ _ Hf Hn) as Ht. destruct Hf as [Hls H255]. destruct (text_labels_expanded ls Hls) as (raw & El & Efl).
  destruct (text_name_spec max h s (expanded ls) Hs Ht) as [[-> Hno] | (raw' & s' & El' & -> & Hw)].
  - left. split; [done |]. destruct (Hno raw El) as [? | ?]; rewrite Efl in *; cbn [size piece_size]; lia.
  - right. exists s'. split; [done |]. assert (raw' = raw) as -> by congruence. by rewrite Efl in Hw.
Qed.

Lemma sexact_check h s ls : fs_ok max h s -> field_ok (FName ls) -> field_fresh (snd s) (FName ls) ->
  sexact h s [PName ls] (let! s := out_text_name max (expanded ls) s in fail_if max <? snd (fst s) ;; Ret s).
Proof.
  intros Hs Hf Hn. destruct (sexact_name h s ls Hs Hf Hn) as [[-> Hno] | (s' & -> & Hw)]; [by left |]. cbn [obind]. pose proof Hw as (((_ & Ho & _) & _) & _).
  rewrite (proj2 (Z.ltb_ge _ _)) by lia. right. by exists s'.
Qed.

Lemma fs_in_range h s : fs_ok max h s -> in_range max (fst s).
Proof. intros ((_ & Ho & Hm & H6) & _). by split. Qed.

Lemma sexact_octets h s d o : fs_ok max h s -> bytes d -> (snd (fst s) + len d <= max -> o = plain (add_octets max d) s) -> (max < snd (fst s) + len d -> o = Fail) -> sexact h s [POctets d] o.
Proof.
  intros Hs Hd Hok Hno. destruct (Z.lt_ge_cases max (snd (fst s) + len d)) as [Hlt | Hge]; [left; split; [by apply Hno | cbn [size piece_size]; lia] |]. rewrite Hok by lia. right.
  destruct s as [[res off] ctx]. unfold plain, add_octets. cbn [fst snd] in *. rewrite (proj2 (Z.ltb_ge _ _)) by lia. cbn [obind]. eexists. split; [done |].
  by apply (swrote_octets max h (res, off, ctx) d (splice res off d, off + len d)).
Qed.

(** Octets after a check of the room. *)
Lemma sexact_need h s d : fs_ok max h s -> bytes d -> sexact h s [POctets d] (let! s := plain (need max (len d)) s in plain (out d) s).
Proof.
  intros Hs Hd. pose proof (fs_in_range h s Hs) as Hr. rewrite plain_need. apply sexact_octets; [done | done | |]; intros Hl.
  - rewrite (proj2 (Z.ltb_ge _ _)) by lia. cbn [obind]. apply plain_eq. by apply out_add.
  - by rewrite (proj2 (Z.ltb_lt _ _)) by lia.
Qed.

(** RDATA that is written at once has its pieces. *)
Lemma slice_head buf p A B : slice buf p (len (A ++ B)) = Ret (A ++ B) -> slice buf p (len A) = Ret A /\ slice buf (p + len A) (len B) = Ret B.
Proof.
  unfold slice. rewrite length_app, Nat2Z.inj_add. case_if; [| done]. cmp_prop. intros [= E']. assert (take (length A) (drop (Z.to_nat p) buf) = A /\ take (length B) (drop (length A) (drop (Z.to_nat p) buf)) = B) as [EA EB].
  { rewrite Z2Nat.inj_add, !Nat2Z.id in E' by lia. apply (f_equal (take (length A))) in E' as EA. rewrite take_take, Nat.min_l, take_app_length in EA by lia.
    apply (f_equal (drop (length A))) in E' as EB. rewrite drop_app_length, <- firstn_skipn_comm in EB. done. }
  rewrite (proj2 (Z.leb_le 0 p)), (proj2 (Z.leb_le 0 (len A))), (proj2 (Z.leb_le (p + len A) (len buf))), (proj2 (Z.leb_le 0 (p + len A))), (proj2 (Z.leb_le 0 (len B))), (proj2 (Z.leb_le (p + len A + len B) (len buf))) by lia.
  cbn [andb]. rewrite Z2Nat.inj_add, !Nat2Z.id, <- drop_drop by lia. by rewrite EA, EB.
Qed.

Lemma holds_flat h e res B fs : forall p, h + 2 <= p -> 0 <= p -> B <= len res -> Forall field_ok fs -> p + len (flat fs) <= B -> slice res p (len (flat fs)) = Ret (flat fs) ->
  holds h e res B (map field_piece fs) p (p + len (flat fs)).
Proof.
  induction fs as [| f fs IH]; intros p Hh Hp HB Hf Hfit Hs; [cbn; rewrite Z.add_0_r; constructor |]. apply Forall_cons_1 in Hf as [Hf0 Hf].
  change (flat (f :: fs)) with (field_octets f ++ flat fs) in *. apply slice_head in Hs as [Hs0 Hs]. rewrite length_app, Nat2Z.inj_add in Hfit. rewrite length_app, Nat2Z.inj_add, Z.add_assoc.
  assert (holds h e res B (map field_piece fs) (p + len (field_octets f)) (p + len (field_octets f) + len (flat fs))) as Hrest by (apply IH; [lia | lia | done | done | lia | done]).
  destruct f as [ls | v | v | v | t | a b c d | a]; cbn [map field_piece]; try (apply holds_octets; [unfold clear; lia | cbn [field_octets field_piece] in *; lia | exact Hs0 | exact Hrest]).
  cbn [field_octets] in *. destruct Hf0 as [Hwf _]. assert (exists rest, drop (Z.to_nat p) res = wire_name ls ++ rest) as [rest Hd].
  { unfold slice in Hs0. case_if_in Hs0; [| done]. injection Hs0 as E'. rewrite Nat2Z.id in E'. exists (drop (length (wire_name ls)) (drop (Z.to_nat p) res)). rewrite <- E' at 1. by rewrite take_drop. }
  eapply holds_name; [eapply wire_hdecodes; [done | lia | exact Hd | done | lia | done] | done | done | | done | exact Hrest].
  by eapply (wire_decodes ls res B); [done | exact Hd | done | lia | done].
Qed.

Lemma flat_bytes fs : Forall field_ok fs -> bytes (flat fs).
Proof.
  intros Hf. unfold flat. apply Forall_concat, Forall_map. eapply Forall_impl; [exact Hf |]. intros [ls | v | v | v | t | a b c d | a] Hok; cbn [field_octets field_piece field_ok] in *.
  - apply wire_name_bytes, Hok.
  - apply w16_bytes.
  - apply w32_bytes.
  - apply w32_bytes.
  - destruct Hok as [Hc Hl]. constructor; [unfold isbyte; lia | by apply cstring_bytes].
  - apply Hok.
  - apply Hok.
Qed.

Lemma sexact_flat h s fs f : fs_ok max h s -> Forall field_ok fs -> f (fst s) = add_octets max (flat fs) (fst s) -> sexact h s (map field_piece fs) (plain f s).
Proof.
  intros Hs Hf E. rewrite (plain_eq f (add_octets max (flat fs)) s E).
  destruct (sexact_octets h s (flat fs) (plain (add_octets max (flat fs)) s) Hs (flat_bytes fs Hf)) as [[Ef Hno] | (s' & Es & (Hs' & Ha & Ho & Hc & Hh))]; [done | | |].
  - intros Hno. destruct s as [[res off] ctx]. unfold plain, add_octets. cbn [fst snd] in *. by rewrite (proj2 (Z.ltb_lt _ _)) by lia.
  - left. split; [done |]. rewrite size_flat. cbn [size piece_size] in Hno. lia.
  - right. exists s'. split; [done |]. split; [done |]. split; [done |]. rewrite size_flat. cbn [size piece_size] in Ho. split; [lia |]. split; [done |].
    inversion Hh as [| d ps p q Hcl Hfit Hsl Hnil |]; subst. inversion Hnil; subst. destruct Hs as ((_ & Hos & _) & Hhs & _), Hs' as ((_ & Hos' & Hms & _) & _).
    apply holds_flat; [done | lia | lia | done | lia | done].
Qed.

Lemma sexact_ns h s ls : fs_ok max h s -> field_ok (FName ls) -> field_fresh (snd s) (FName ls) -> sexact h s [PName ls] (rdata_ns max NotCached (map field_text [FName ls]) s).
Proof. intros Hs Hf Hn. by apply sexact_check. Qed.

Lemma sexact_mx h s v ls : fs_ok max h s -> field_ok (F16 v) -> field_ok (FName ls) -> field_fresh (snd s) (FName ls) ->
  sexact h s [POctets (w16 v); PName ls] (rdata_mx max NotCached (map field_text [F16 v; FName ls]) s).
Proof.
  intros Hs Hv Hf Hn. unfold rdata_mx. wfields. change (fail_if len [fmt_u v; expanded ls] <? 2 ;; ?k) with k. rewrite parse_u16_fmt by done. cbn [obind].
  assert (forall k, (let! s := plain (need max 2) s in let! s := plain (out (w16 v)) s in k s) = (let! s := (let! s := plain (need max 2) s in plain (out (w16 v)) s) in k s)) as ->
    by (intros k; by destruct (plain (need max 2) s)).
  apply (sexact_bind h s [POctets (w16 v)] _ [PName ls]); [exact (sexact_need h s (w16 v) Hs (w16_bytes v)) | apply size_nonneg |]. intros s' Hs' Hc. apply sexact_check; [done | done | by eapply fresh_some].
Qed.

Lemma sexact_minfo h s a b : fs_ok max h s -> field_ok (FName a) -> field_ok (FName b) -> field_fresh (snd s) (FName a) -> field_fresh (snd s) (FName b) ->
  sexact h s [PName a; PName b] (rdata_minfo max (map field_text [FName a; FName b]) s).
Proof.
  intros Hs Ha Hb Hna Hnb. unfold rdata_minfo. wfields. change (fail_if len [expanded a; expanded b] <? 2 ;; ?k) with k.
  assert (forall k, (let! s := out_text_name max (expanded a) s in fail_if max <? snd (fst s) ;; k s) = (let! s := (let! s := out_text_name max (expanded a) s in fail_if max <? snd (fst s) ;; Ret s) in k s)) as ->
    by (intros k; destruct (out_text_name max (expanded a) s); try done; cbn [obind]; by case_if).
  apply (sexact_bind h s [PName a] _ [PName b]); [by apply sexact_check | apply size_nonneg |]. intros s' Hs' Hc. apply sexact_check; [done | done | by eapply fresh_some].
Qed.

Lemma sexact_soa h s a b n0 n1 n2 n3 n4 : fs_ok max h s -> Forall field_ok [FName a; FName b; FSerial n0; FTtl n1; FTtl n2; FTtl n3; FTtl n4] ->
  field_fresh (snd s) (FName a) -> field_fresh (snd s) (FName b) ->
  sexact h s [PName a; PName b; POctets (w32 n0); POctets (w32 n1); POctets (w32 n2); POctets (w32 n3); POctets (w32 n4)]
    (rdata_soa max NotCached (map field_text [FName a; FName b; FSerial n0; FTtl n1; FTtl n2; FTtl n3; FTtl n4]) s).
Proof.
  intros Hs Hok Hna Hnb. rewrite !Forall_cons in Hok. destruct Hok as (Ha & Hb & H0' & H1' & H2' & H3' & H4' & _). unfold rdata_soa. wfields.
  change (fail_if len [expanded a; expanded b; fmt_u n0; fmt_u n1; fmt_u n2; fmt_u n3; fmt_u n4] <? 7 ;; ?k) with k. unfold soa_numbers, fld. cbn [lookup list_lookup obind].
  rewrite !ttl_fmt by done. cbn [obind]. rewrite strtoul32_fmt by done. unfold out_soa.
  apply (sexact_bind h s [PName a] _ (PName b :: map field_piece [FSerial n0; FTtl n1; FTtl n2; FTtl n3; FTtl n4])); [by apply sexact_name | apply size_nonneg |]. intros s1 Hs1 Hc1.
  apply (sexact_bind h s1 [PName b] _ (map field_piece [FSerial n0; FTtl n1; FTtl n2; FTtl n3; FTtl n4])); [apply sexact_name; [done | done | by eapply fresh_some] | apply size_nonneg |]. intros s2 Hs2 Hc2.
  set (fs := [FSerial n0; FTtl n1; FTtl n2; FTtl n3; FTtl n4]).
  assert ((let! s := plain (need max 20) s2 in plain (out (concat (map w32 [n0; n1; n2; n3; n4]))) s) = plain (fun s => let! s := need max (len (flat fs)) s in out (flat fs) s) s2) as ->.
  { destruct s2 as [[res off] ctx]. unfold plain at 1 3. change (concat (map w32 [n0; n1; n2; n3; n4])) with (flat fs). change (len (flat fs)) with 20. by destruct (need max 20 (res, off)) as [[? ?] | | |]. }
  apply sexact_flat; [done | | apply need_out_add; by eapply fs_in_range]. unfold fs. by repeat (apply Forall_cons_2; [done |]).
Qed.

(** Every type with a layout is written as its layout says. *)
Lemma sexact_switch loc_rdata h s rec fs : fs_ok max h s -> has_layout (type_code rec) fs -> Forall field_ok fs -> Forall (field_fresh (snd s)) fs ->
  rdata rec = map field_text fs -> cache rec = NotCached -> sexact h s (map field_piece fs) (rdata_switch loc_rdata max rec s).
Proof.
  intros Hs Hlay Hok Hfr Er Hc. pose proof (fs_in_range h s Hs) as Hin. unfold rdata_switch. rewrite Hc, Er. remember (type_code rec) as type eqn:Et.
  assert (forall v, rdata_cached max rec (fst s) = v -> v = add_octets max (flat fs) (fst s) -> sexact h s (map field_piece fs) (plain (rdata_cached max rec) s)) as Hcached
    by (intros v Ev Ea; apply sexact_flat; [done | done | congruence]).
  unfold rdata_cached in Hcached at 1. rewrite Hc, Er, <- Et in Hcached. destruct Hlay as [E | (-> & Hk & Hl)]; [| by eapply Hcached; [done | apply txt_add; [done | done | done | lia]]].
  pose proof Hok as Hall. unfold layout in E. destruct (Z.eqb_spec type 1) as [-> | _]; [inv_kinds E; rewrite !Forall_cons in Hok; eapply Hcached; [done | apply addr4_add; tauto] |].
  destruct (Z.eqb_spec type 28) as [-> | _]; [inv_kinds E; rewrite !Forall_cons in Hok; eapply Hcached; [done | apply addr6_add; tauto] |].
  destruct (bool_decide (type ∈ [2; 3; 4; 5; 7; 8; 9; 12; 23; 39])) eqn:E1.
  { inv_kinds E. rewrite !Forall_cons in Hok, Hfr. inv_type E1; first [apply sexact_ns; tauto | eapply Hcached; [done | apply name_add; tauto]]. }
  clear E1. destruct (bool_decide (type ∈ [14; 17])) eqn:E1.
  { inv_kinds E. rewrite !Forall_cons in Hok, Hfr. inv_type E1; [apply sexact_minfo; tauto | apply sexact_flat; [done | done | apply two_names_add; tauto]]. }
  clear E1. destruct (bool_decide (type ∈ [15; 18; 21; 36; 107])) eqn:E1.
  { inv_kinds E. rewrite !Forall_cons in Hok, Hfr. inv_type E1; [apply sexact_mx; tauto | apply sexact_flat; [done | done | apply pref_name_add; tauto]..]. }
  clear E1. destruct (Z.eqb_spec type 26) as [-> | _]; [inv_kinds E; rewrite !Forall_cons in Hok; apply sexact_flat; [done | done | apply px_add; tauto] |].
  destruct (Z.eqb_spec type 33) as [-> | _]; [inv_kinds E; rewrite !Forall_cons in Hok; eapply Hcached; [done | apply srv_add; tauto] |].
  destruct (Z.eqb_spec type 35) as [-> | _]; [inv_kinds E; rewrite !Forall_cons in Hok; apply sexact_flat; [done | done | apply naptr_add; tauto] |].
  destruct (Z.eqb_spec type 6) as [-> | _]; [| done]. inv_kinds E. rewrite !Forall_cons in Hfr. apply sexact_soa; tauto.
Qed.

End Round.

(** ** Lemmas: reading the pieces *)

Lemma ci_wire_length a b : ci a b -> len (wire_name a) = len (wire_name b).
Proof.
  unfold ci. revert b. induction a as [| x a IH]; intros [| y b] E; try done. cbn [map] in E. injection E as E1 E2. rewrite !length_wire_name.
  apply (f_equal length) in E1. rewrite !length_map in E1. rewrite (IH b E2). lia.
Qed.

Lemma reads_mono e a b n m ps p q : bytes a -> n <= len a -> 0 <= p -> agree a b n -> n <= m -> reads e a n ps p q -> reads e b m ps p q.
Proof.
  intros Hb Hl Hp Hag Hm Hr. revert Hp. induction Hr as [| d ps p q Hfit Hs Hr IH | ls ls' k ps p r q Hd Hci Hex He Hr IH]; intros Hp; [constructor | |].
  - apply reads_octets; [lia | | apply IH; lia]. rewrite <- (agree_slice a b n); [done | done | lia].
  - pose proof (name_bound a n k p ls' r Hp Hd He). eapply reads_name; [by eapply decodes_mono | done | done | | apply IH; lia].
    eapply name_end_mono; [done | | done]. lia.
Qed.

Section Read.
Context `{InetPton, EvpBase64}.
Variable inet_ntop6 : list Z -> list Z.
Variables (packet : list Z) (packet_len : Z) (e : bool).
Hypothesis Hbytes : bytes packet.
Hypothesis Hlen : packet_len <= len packet.

(** What is read of the fields. *)
Definition same (fs' fs : list field) : Prop := Forall2 field_ci fs' fs /\ (e = true -> fs' = fs).

Lemma same_cons f' f fs' fs : field_ci f' f -> (e = true -> f' = f) -> same fs' fs -> same (f' :: fs') (f :: fs).
Proof. intros Hc He [Hs Hse]. split; [by constructor |]. intros Et. f_equal; auto. Qed.

Lemma same_eq f fs' fs : (forall ls, f <> FName ls) -> same fs' fs -> same (f :: fs') (f :: fs).
Proof. intros Hn. apply same_cons; [by destruct f | done]. Qed.

Lemma same_nil : same [] [].
Proof. by split. Qed.

Lemma reads_le ps p q : 0 <= p -> reads e packet packet_len ps p q -> p <= q.
Proof.
  intros Hp Hr. revert Hp. induction Hr as [| d ps p q Hfit Hs Hr IH | ls ls' k ps p r q Hd Hci Hex He Hr IH]; intros Hp; [lia | |].
  - specialize (IH ltac:(lia)). lia.
  - pose proof (name_bound packet packet_len k p ls' r Hp Hd He). specialize (IH ltac:(lia)). lia.
Qed.

Lemma name_at ls ps p q : 0 <= p -> len (wire_name ls) <= 255 -> reads e packet packet_len (PName ls :: ps) p q ->
  exists ls' r, expand_wire_name packet packet_len p = Ret (expanded ls', r) /\ name_in packet packet_len p q = Ret (expanded ls', r) /\ ci ls' ls /\ (e = true -> ls' = ls) /\
    p < r <= q /\ reads e packet packet_len ps r q.
Proof.
  intros Hp H255 Hr. inversion Hr as [| | ls0 ls' k ps0 p0 r q0 Hd Hci Hex He Hrest]; subst. exists ls', r.
  assert (expand_wire_name packet packet_len p = Ret (expanded ls', r)) as E.
  { unfold expand_wire_name. assert (expand_wire_name_to_buffer packet packet_len p DNS_NAME_TEXT_SIZE = Ret (expanded ls' ++ [0], r)) as ->.
    - apply expand_spec; [done.. |]. exists k, ls'. rewrite (ci_wire_length ls' ls Hci). by split_and!.
    - cbn [obind]. by rewrite length_app, Nat.add_sub, take_app_length. }
  pose proof (name_bound packet packet_len k p ls' r Hp Hd He) as Hb. pose proof (reads_le ps r q ltac:(lia) Hrest) as Hle. split; [done |]. unfold name_in. rewrite E. cbn [obind].
  rewrite (proj2 (Z.ltb_ge _ _)) by lia. split; [done |]. split; [done |]. split; [done |]. split; [lia | done].
Qed.

Lemma octets_at d ps p q : reads e packet packet_len (POctets d :: ps) p q -> slice packet p (len d) = Ret d /\ p + len d <= packet_len /\ reads e packet packet_len ps (p + len d) q.
Proof. intros Hr. inversion Hr; subst. done. Qed.

Lemma slice_rd_list p d i c : slice packet p (len d) = Ret d -> d !! i = Some c -> rd packet (p + Z.of_nat i) = Ret c.
Proof.
  intros Hs Hi. pose proof (lookup_lt_Some _ _ _ Hi). rewrite (slice_rd packet packet p (len d) d) by (done || lia). unfold rd. rewrite (proj2 (Z.ltb_ge _ _)) by lia. by rewrite Nat2Z.id, Hi.
Qed.

Lemma rd16_piece p v : 0 <= v < 65536 -> slice packet p 2 = Ret (w16 v) -> rd16 packet p = Ret v.
Proof.
  intros Hv Hs. pose proof (slice_rd_list p (w16 v) 0 _ Hs eq_refl) as E0. pose proof (slice_rd_list p (w16 v) 1 _ Hs eq_refl) as E1. change (Z.of_nat 0) with 0 in E0. rewrite Z.add_0_r in E0.
  change (Z.of_nat 1) with 1 in E1. unfold rd16. rewrite E0, E1. cbn [obind]. f_equal. rewrite Z.lor_comm, lor_shiftl_add by (lia || apply u8_range). unfold u8. rewrite Z.shiftr_div_pow2 by lia.
  Z.to_euclidean_division_equations; lia.
Qed.

Lemma rd32_piece p v : 0 <= v < 4294967296 -> slice packet p 4 = Ret (w32 v) -> rd32 packet p = Ret v.
Proof.
  intros Hv Hs. pose proof (slice_rd_list p (w32 v) 0 _ Hs eq_refl) as E0. pose proof (slice_rd_list p (w32 v) 1 _ Hs eq_refl) as E1. pose proof (slice_rd_list p (w32 v) 2 _ Hs eq_refl) as E2.
  pose proof (slice_rd_list p (w32 v) 3 _ Hs eq_refl) as E3. change (Z.of_nat 0) with 0 in E0. rewrite Z.add_0_r in E0.
  change (Z.of_nat 1) with 1 in E1. change (Z.of_nat 2) with 2 in E2. change (Z.of_nat 3) with 3 in E3. unfold rd32. rewrite E0, E1, E2, E3. cbn [obind]. pose proof (Edns.rd32_be32 v Hv) as E. unfold Edns.be32 in E. rewrite Edns.rd32_list in E.
  assert (forall x, Z.land x 255 = u8 x) as Hu by (intros x; change 255 with (Z.ones 8); by rewrite Z.land_ones by lia). by rewrite !Hu in E.
Qed.

(** ** Lemmas: the readers of RDATA *)

Variables off rdlen : Z.
Hypothesis Hoff : 0 <= off.
Abbreviation rdata_at fs := (reads e packet packet_len (map field_piece fs) off (off + rdlen)).
Abbreviation result o fs := (exists fs', o = Ret (map (field_text inet_ntop6) fs') /\ same fs' fs).

(** One piece after the other. *)
Ltac rname H :=
  let ls' := fresh "ls" in let r := fresh "r" in let E := fresh "E" in let Hci := fresh "Hci" in let Hex := fresh "Hex" in let Hb := fresh "Hb" in
  apply name_at in H as (ls' & r & _ & E & Hci & Hex & Hb & H); [| lia | tauto].
Ltac rnum H :=
  let Hs := fresh "Hs" in let Hb := fresh "Hb" in
  apply octets_at in H as (Hs & Hb & H); cbn [length w16 w32] in Hs, Hb, H; change (Z.of_nat 2) with 2 in Hs, Hb, H; change (Z.of_nat 4) with 4 in Hs, Hb, H;
  first [apply rd16_piece in Hs; [| lia] | apply rd32_piece in Hs; [| lia]]; rewrite <- ?Z.add_assoc in Hb, H;
  change (2 + 2) with 4 in *; change (4 + 2) with 6 in *; change (4 + 4) with 8 in *; change (8 + 4) with 12 in *; change (12 + 4) with 16 in *; change (16 + 4) with 20 in *.
Ltac rdone fs' := exists fs'; split; [reflexivity |]; repeat first [apply same_nil | apply same_eq; [done |] | apply same_cons; [done | intros ?; f_equal; auto |]].

Lemma parse_name_at ls : field_ok inet_ntop6 (FName ls) -> rdata_at [FName ls] -> result (parse_name packet packet_len off rdlen) [FName ls].
Proof. intros [_ H1] Hr. unfold parse_name. cbn [map field_piece] in Hr. rname Hr. rewrite E. cbn [obind]. rdone [FName ls0]. Qed.

Lemma parse_two_names_at a b : field_ok inet_ntop6 (FName a) -> field_ok inet_ntop6 (FName b) -> rdata_at [FName a; FName b] -> result (parse_two_names packet packet_len off rdlen) [FName a; FName b].
Proof.
  intros [_ H1] [_ H2] Hr. unfold parse_two_names. cbn [map field_piece] in Hr. rname Hr. rname Hr. rewrite E. cbn [obind]. rewrite E0. cbn [obind]. rdone [FName ls; FName ls0].
Qed.

Lemma parse_pref_name_at v a : field_ok inet_ntop6 (F16 v) -> field_ok inet_ntop6 (FName a) -> rdata_at [F16 v; FName a] -> result (parse_pref_name packet packet_len off rdlen) [F16 v; FName a].
Proof.
  intros H1 [_ H2] Hr. unfold parse_pref_name. cbn [map field_piece field_ok] in *. rnum Hr. rname Hr. rewrite (proj2 (Z.ltb_ge rdlen 3)), Hs by lia. cbn [obind]. rewrite E. cbn [obind].
  rdone [F16 v; FName ls].
Qed.

Lemma parse_px_at v a b : field_ok inet_ntop6 (F16 v) -> field_ok inet_ntop6 (FName a) -> field_ok inet_ntop6 (FName b) -> rdata_at [F16 v; FName a; FName b] ->
  result (parse_px packet packet_len off rdlen) [F16 v; FName a; FName b].
Proof.
  intros H1 [_ H2] [_ H3] Hr. unfold parse_px. cbn [map field_piece field_ok] in *. rnum Hr. rname Hr. rname Hr. rewrite (proj2 (Z.ltb_ge rdlen 4)), Hs by lia. cbn [obind]. rewrite E. cbn [obind].
  rewrite E0. cbn [obind]. rdone [F16 v; FName ls; FName ls0].
Qed.

Lemma parse_srv_at v1 v2 v3 a : field_ok inet_ntop6 (F16 v1) -> field_ok inet_ntop6 (F16 v2) -> field_ok inet_ntop6 (F16 v3) -> field_ok inet_ntop6 (FName a) ->
  rdata_at [F16 v1; F16 v2; F16 v3; FName a] -> result (parse_srv packet packet_len off rdlen) [F16 v1; F16 v2; F16 v3; FName a].
Proof.
  intros H1 H2 H3 [_ H4] Hr. unfold parse_srv. cbn [map field_piece field_ok] in *. do 3 rnum Hr. rname Hr. rewrite (proj2 (Z.ltb_ge rdlen 7)), Hs by lia. cbn [obind].
  rewrite Hs0. cbn [obind]. rewrite Hs1. cbn [obind]. rewrite E. cbn [obind]. rdone [F16 v1; F16 v2; F16 v3; FName ls].
Qed.

Lemma cstring_has_nul s : cstring s -> has_nul s = false.
Proof. unfold has_nul. induction 1 as [| c s Hc _ IH]; [done |]. cbn [existsb]. unfold ischar in Hc. by rewrite (proj2 (Z.eqb_neq c 0)) by lia. Qed.

Lemma string_at t ps p q : cstring t -> reads e packet packet_len (POctets (len t :: t) :: ps) p q ->
  rd packet p = Ret (len t) /\ slice packet (p + 1) (len t) = Ret t /\ has_nul t = false /\ p + 1 + len t <= packet_len /\ reads e packet packet_len ps (p + 1 + len t) q.
Proof.
  intros Hc Hr. apply octets_at in Hr as (Hs & Hb & Hr). change (len t :: t) with ([len t] ++ t) in *. apply slice_head in Hs as [Hs0 Hs]. cbn [length app] in *.
  rewrite Nat2Z.inj_succ in Hb, Hr. replace (p + Z.succ (len t)) with (p + 1 + len t) in * by lia. split; [| by split; [| split; [apply cstring_has_nul | split; [lia |]]]].
  pose proof (slice_rd_list p [len t] 0 _ Hs0 eq_refl) as E0. by rewrite Z.add_0_r in E0.
Qed.

Lemma naptr_strings_at ts : forall p ps, 0 <= p -> Forall (fun t => cstring t /\ len t <= 255) ts -> 0 < len ps ->
  (forall p', 0 <= p' -> reads e packet packet_len ps p' (off + rdlen) -> p' < off + rdlen) ->
  reads e packet packet_len (map (fun t => POctets (len t :: t)) ts ++ ps) p (off + rdlen) ->
  exists p', naptr_strings (length ts) packet p (off + rdlen) = Ret (ts, false, p') /\ p + len ts <= p' /\ reads e packet packet_len ps p' (off + rdlen).
Proof.
  induction ts as [| t ts IH]; intros p ps Hp Hts Hne Hend Hr; [exists p; split; [done |]; split; [cbn; lia | done] |]. apply Forall_cons_1 in Hts as [[Hc Hl] Hts]. cbn [map app] in Hr.
  apply string_at in Hr as (Erd & Esl & Hnul & Hfit & Hr); [| done]. destruct (IH (p + 1 + len t) ps ltac:(lia) Hts Hne Hend Hr) as (p' & E & Hp' & Hr').
  assert (p' < off + rdlen) as Hlt by (apply Hend; [lia | done]). cbn [length naptr_strings]. rewrite (proj2 (Z.leb_gt _ _)) by lia. rewrite Erd. cbn [obind]. rewrite (proj2 (Z.ltb_ge _ _)) by lia. rewrite Esl. cbn [obind].
  rewrite E. cbn [obind]. rewrite Hnul. exists p'. split; [done |]. split; [cbn [length]; lia | done].
Qed.

Lemma parse_naptr_at v1 v2 t1 t2 t3 a : Forall (field_ok inet_ntop6) [F16 v1; F16 v2; FString t1; FString t2; FString t3; FName a] ->
  rdata_at [F16 v1; F16 v2; FString t1; FString t2; FString t3; FName a] ->
  exists fs', parse_naptr packet packet_len off rdlen = Ret (map (field_text inet_ntop6) fs', None) /\ same fs' [F16 v1; F16 v2; FString t1; FString t2; FString t3; FName a].
Proof.
  intros Hok Hr. rewrite !Forall_cons in Hok. destruct Hok as (H1 & H2 & Hs1 & Hs2 & Hs3 & [_ H4] & _). unfold parse_naptr. cbn [map field_piece field_ok] in *. do 2 rnum Hr.
  destruct (naptr_strings_at [t1; t2; t3] (off + 4) [PName a]) as (p' & E & Hp' & Hr'); [lia | by repeat (apply Forall_cons_2; [done |]) | cbn; lia | | done |].
  { intros p' Hp' Hn. apply name_at in Hn as (? & ? & _ & _ & _ & _ & ? & _); [lia | lia | done]. }
  rname Hr'. cbn [length] in Hp'. rewrite (proj2 (Z.ltb_ge rdlen 7)), Hs by lia. cbn [obind]. rewrite Hs0. cbn [obind]. cbn [length] in E. rewrite E. cbn [obind]. rewrite E0. cbn [obind].
  exists [F16 v1; F16 v2; FString t1; FString t2; FString t3; FName ls]. split; [done |]. do 5 (apply same_eq; [done |]). apply same_cons; [done | intros ?; f_equal; auto | apply same_nil].
Qed.

Lemma numbers_at ns : forall p, 0 <= p -> Forall (fun v => 0 <= v < 4294967296) ns -> reads e packet packet_len (map (fun v => POctets (w32 v)) ns) p (off + rdlen) ->
  soa_numbers_at (length ns) packet p (off + rdlen) = Ret (map fmt_u ns).
Proof.
  induction ns as [| v ns IH]; intros p Hp Hns Hr; [done |]. apply Forall_cons_1 in Hns as [Hv Hns]. cbn [map length soa_numbers_at] in *. rnum Hr.
  pose proof (reads_le _ (p + 4) _ ltac:(lia) Hr). rewrite (proj2 (Z.ltb_ge _ _)) by lia. rewrite Hs. cbn [obind]. by rewrite IH by (done || lia).
Qed.

Lemma parse_soa_at a b n0 n1 n2 n3 n4 : Forall (field_ok inet_ntop6) [FName a; FName b; FSerial n0; FTtl n1; FTtl n2; FTtl n3; FTtl n4] ->
  rdata_at [FName a; FName b; FSerial n0; FTtl n1; FTtl n2; FTtl n3; FTtl n4] ->
  result (parse_soa packet packet_len off rdlen) [FName a; FName b; FSerial n0; FTtl n1; FTtl n2; FTtl n3; FTtl n4].
Proof.
  intros Hok Hr. rewrite !Forall_cons in Hok. destruct Hok as ([_ Ha] & [_ Hb] & H0' & H1 & H2 & H3 & H4 & _). unfold parse_soa. cbn [map field_piece field_ok] in *. unfold TTL_MAX in *.
  rname Hr. rname Hr. rewrite E. cbn [obind]. rewrite E0. cbn [obind]. apply (numbers_at [n0; n1; n2; n3; n4]) in Hr; [| lia | by repeat (apply Forall_cons_2; [lia |])].
  cbn [length] in Hr. rewrite Hr. cbn [obind]. rdone [FName ls; FName ls0; FSerial n0; FTtl n1; FTtl n2; FTtl n3; FTtl n4].
Qed.

Lemma parse_a_at a b c d : field_ok inet_ntop6 (FAddr4 a b c d) -> rdata_at [FAddr4 a b c d] -> result (parse_a packet off rdlen) [FAddr4 a b c d].
Proof.
  intros [Hb _] Hr. cbn [map field_piece] in Hr. apply octets_at in Hr as (Hs & Hl & Hr). cbn [length] in *. inversion Hr; subst. unfold parse_a. rewrite (proj2 (Z.eqb_eq rdlen 4)) by lia. cbn [negb].
  pose proof (slice_rd_list off [a; b; c; d] 0 _ Hs eq_refl) as E0. rewrite Z.add_0_r in E0. rewrite E0. cbn [obind].
  pose proof (slice_rd_list off [a; b; c; d] 1 _ Hs eq_refl) as E1. change (Z.of_nat 1) with 1 in E1. rewrite E1. cbn [obind].
  pose proof (slice_rd_list off [a; b; c; d] 2 _ Hs eq_refl) as E2. change (Z.of_nat 2) with 2 in E2. rewrite E2. cbn [obind].
  pose proof (slice_rd_list off [a; b; c; d] 3 _ Hs eq_refl) as E3. change (Z.of_nat 3) with 3 in E3. rewrite E3. cbn [obind].
  exists [FAddr4 a b c d]. split; [| by apply same_eq; [| apply same_nil]]. cbn [map field_text]. do 2 f_equal. rewrite !Forall_cons in Hb. destruct Hb as (Ha & Hb & Hc & Hd & _).
  assert (forallb (fun v => len (fmt_u v) <=? 3) (seqZ 0 256) = true) as H3 by by vm_compute. apply take_ge. rewrite !length_app. cbn [length].
  pose proof (forallb_range _ 0 256 H3 a Ha). pose proof (forallb_range _ 0 256 H3 b Hb). pose proof (forallb_range _ 0 256 H3 c Hc). pose proof (forallb_range _ 0 256 H3 d Hd). cbn beta in *. lia.
Qed.

Lemma parse_aaaa_at a : field_ok inet_ntop6 (FAddr6 a) -> rdata_at [FAddr6 a] -> result (parse_aaaa inet_ntop6 packet off rdlen) [FAddr6 a].
Proof.
  intros (_ & Ha & _) Hr. cbn [map field_piece] in Hr. apply octets_at in Hr as (Hs & Hl & Hr). inversion Hr; subst. unfold parse_aaaa. rewrite (proj2 (Z.eqb_eq rdlen 16)) by lia. cbn [negb].
  rewrite Ha in Hs. change (Z.of_nat 16) with 16 in Hs. rewrite Hs. cbn [obind]. rdone [FAddr6 a].
Qed.

Lemma txt_strings_at fs : forall fuel p fields, 0 <= p -> off + rdlen - p < Z.of_nat fuel -> Forall (field_ok inet_ntop6) fs -> Forall (fun f => kind_of f = KString) fs -> len fields + len fs <= MAX_RDATA ->
  reads e packet packet_len (map field_piece fs) p (off + rdlen) ->
  txt_strings fuel packet p (off + rdlen) fields false false = Ret (fields ++ map (field_text inet_ntop6) fs, false, false).
Proof.
  induction fs as [| f fs IH]; intros fuel p fields Hp Hf Hok Hk Hc Hr.
  - inversion Hr; subst. cbn [map]. rewrite app_nil_r. destruct fuel; cbn [txt_strings]; by rewrite (proj2 (Z.leb_le _ _)) by lia.
  - apply Forall_cons_1 in Hok as [Hf0 Hok]. apply Forall_cons_1 in Hk as [Hk0 Hk]. destruct f as [| | | | t | |]; try done. destruct Hf0 as [Hct Hlt]. cbn [map field_piece] in Hr.
    apply string_at in Hr as (Erd & Esl & Hnul & Hfit & Hr); [| done]. pose proof (reads_le _ (p + 1 + len t) _ ltac:(lia) Hr) as Hle. destruct fuel as [| fuel]; [cbn in Hf; lia |]. cbn [txt_strings].
    rewrite (proj2 (Z.leb_gt _ _)) by lia. rewrite Erd. cbn [obind]. rewrite (proj2 (Z.ltb_ge _ _)) by lia. rewrite Esl. cbn [obind length] in *. rewrite Hnul. cbn [orb].
    rewrite (proj2 (Z.leb_gt _ _)) by lia. unfold push. rewrite (proj2 (Z.ltb_lt _ _)) by lia. cbn [obind]. rewrite IH; [by rewrite <- app_assoc | lia | lia | done | done | rewrite length_app; cbn [length]; lia | done].
Qed.

Lemma parse_txt_at fs : 0 <= rdlen -> Forall (field_ok inet_ntop6) fs -> Forall (fun f => kind_of f = KString) fs -> len fs <= MAX_RDATA -> rdata_at fs ->
  parse_txt packet off rdlen = Ret (map (field_text inet_ntop6) fs, None).
Proof.
  intros Hrl Hok Hk Hc Hr. unfold parse_txt. rewrite (txt_strings_at fs) by (done || lia). done.
Qed.

(** Every type with a layout is read as its layout says. *)
Lemma parse_rdata_at type fs : 0 <= rdlen -> has_layout type fs -> Forall (field_ok inet_ntop6) fs -> rdata_at fs ->
  exists fs', parse_rdata inet_ntop6 type packet packet_len off rdlen = Ret (map (field_text inet_ntop6) fs', None) /\ same fs' fs.
Proof.
  intros Hrl Hlay Hok Hr. assert (forall o, result o fs -> exists fs', text_only o = Ret (map (field_text inet_ntop6) fs', None) /\ same fs' fs) as Htext
    by (intros o (fs' & -> & Hs); by exists fs').
  unfold parse_rdata. destruct Hlay as [E | (-> & Hk & Hl)].
  2: { exists fs. rewrite (parse_txt_at fs) by (done || lia). split; [done |]. split; [| done]. clear -Hk. induction Hk as [| f fs Hf _ IH]; constructor; [by destruct f | done]. }
  pose proof Hok as Hall. unfold layout in E. destruct (Z.eqb_spec type 1) as [-> | _]; [inv_kinds E; rewrite !Forall_cons in Hok; apply Htext, parse_a_at; tauto |].
  destruct (Z.eqb_spec type 28) as [-> | _]; [inv_kinds E; rewrite !Forall_cons in Hok; apply Htext, parse_aaaa_at; tauto |].
  destruct (bool_decide (type ∈ [2; 3; 4; 5; 7; 8; 9; 12; 23; 39])) eqn:E1.
  { inv_kinds E. rewrite !Forall_cons in Hok. inv_type E1; apply Htext, parse_name_at; tauto. }
  clear E1. destruct (bool_decide (type ∈ [14; 17])) eqn:E1.
  { inv_kinds E. rewrite !Forall_cons in Hok. inv_type E1; apply Htext, parse_two_names_at; tauto. }
  clear E1. destruct (bool_decide (type ∈ [15; 18; 21; 36; 107])) eqn:E1.
  { inv_kinds E. rewrite !Forall_cons in Hok. inv_type E1; apply Htext, parse_pref_name_at; tauto. }
  clear E1. destruct (Z.eqb_spec type 26) as [-> | _]; [inv_kinds E; rewrite !Forall_cons in Hok; apply Htext, parse_px_at; tauto |].
  destruct (Z.eqb_spec type 33) as [-> | _]; [inv_kinds E; rewrite !Forall_cons in Hok; apply Htext, parse_srv_at; tauto |].
  destruct (Z.eqb_spec type 35) as [-> | _]; [inv_kinds E; by apply parse_naptr_at |].
  destruct (Z.eqb_spec type 6) as [-> | _]; [| done]. inv_kinds E. by apply Htext, parse_soa_at.
Qed.

End Read.

(** ** Lemmas: the whole record *)

Section Whole.
Context `{InetPton, EvpBase64}.
Variable inet_ntop6 : list Z -> list Z.
Variable loc_rdata : list (list Z) -> option (list Z).
Variable max : Z.

Lemma serialize_writes res offset ctx rec ls ps t override_ttl : fs_ok max no_hole (res, offset, ctx) -> name rec = expanded ls -> field_ok inet_ntop6 (FName ls) -> field_fresh ctx (FName ls) ->
  name_wire rec = None -> is_meta_rrtype (type_code rec) = false -> wire_ttl rec override_ttl = Ret t ->
  (forall h s, fs_ok max h s -> (is_Some ctx <-> is_Some (snd s)) -> sexact max h s ps (body loc_rdata max rec s)) ->
  offset + Z.max DNS_HEADER_SIZE (len (wire_name ls) + 10 + size ps) <= max ->
  exists res' off' ctx' start, serialize_dns_record loc_rdata max res offset rec ctx None override_ttl = Ret (res', off', ctx') /\
    fs_ok max no_hole (res', off', ctx') /\ agree res res' offset /\ (is_Some ctx <-> is_Some ctx') /\ 0 <= off' - start <= 65535 /\
    reads (is_exact ctx) res' off' [PName ls; POctets (rr_fixed rec t ++ w16 (off' - start))] offset start /\ reads (is_exact ctx) res' off' ps start off'.
Proof.
  intros Hs En Hok Hfr Hnw Hm Et Hbody Hroom. destruct (text_labels_expanded ls (proj1 Hok)) as (raw & El & Efl). pose proof (size_nonneg ps) as Hsz.
  assert (owner_text rec None = expanded ls) as Eo by done. pose proof (text_ok_expanded inet_ntop6 ctx ls Hok Hfr) as Ht. rewrite <- Eo in Ht, El.
  destruct (serialize_head loc_rdata max res offset ctx rec None override_ttl Hs Ht Hnw) as [[_ [Hx | [Hx | Hx]]] | (raw' & t' & s2 & _ & El' & Et' & Hw & Hr2 & ->)].
  { congruence. }
  { lia. }
  { destruct (Hx raw El) as [? | ?]; rewrite Efl in *; destruct Hok; lia. }
  assert (raw' = raw) as -> by congruence. assert (t' = t) as -> by congruence. rewrite Efl in Hw. pose proof Hw as (Hs2 & _ & Ho2 & Hc2 & _). cbn [fst snd size piece_size] in Ho2, Hc2.
  set (h := snd (fst s2)) in *. assert (length (rr_fixed rec t) = 8%nat) as Hl8 by done. pose proof (fs_hole max s2 Hs2 ltac:(fold h; lia)) as Hs3. fold h in Hs3.
  pose proof Hs2 as ((_ & Hoo & _ & H6) & _). rewrite u16_small in Hs3 by (unfold h in *; lia).
  destruct (Hbody h (fst (fst s2), h + 2, snd s2) Hs3 Hc2) as [[_ Hno] | (s4 & -> & Hw4)]; [cbn [fst snd] in Hno; rewrite Hl8 in Ho2; lia |].
  cbn [obind]. destruct (serialize_close max (res, offset, ctx) rec t ls ps s2 s4 Hs Hw Hw4 Hr2) as (Ew & Hs5 & Hag & Hc5 & Hn & Hh1 & Hh2). fold h in Ew, Hs5, Hag, Hn, Hh1, Hh2.
  rewrite Ew. cbn [obind]. eexists _, _, _, (h + 2). split; [done |]. split; [done |]. split; [done |]. split; [done |]. pose proof Hs5 as ((_ & Ho5 & _) & _). cbn [fst snd] in *.
  replace (snd (fst s4) - (h + 2)) with (snd (fst s4) - h - 2) by lia. apply holds_reads in Hh1, Hh2. split; [unfold h in *; lia | done].
Qed.

Lemma fixed_at e packet packet_len rec t n p q : 0 <= type_code rec < 65536 -> 0 <= wire_class rec < 65536 -> 0 <= t < 4294967296 -> 0 <= n < 65536 ->
  reads e packet packet_len [POctets (rr_fixed rec t ++ w16 n)] p q ->
  q = p + 10 /\ q <= packet_len /\ rd16 packet p = Ret (type_code rec) /\ rd16 packet (p + 2) = Ret (wire_class rec) /\ rd32 packet (p + 4) = Ret t /\ rd16 packet (p + 8) = Ret n.
Proof.
  intros Hty Hcl Ht Hn Hr. apply octets_at in Hr as (Hs & Hl & Hr). inversion Hr; subst. unfold rr_fixed in *. rewrite <- !app_assoc in Hs.
  apply slice_head in Hs as [Hs1 Hs]. apply slice_head in Hs as [Hs2 Hs]. apply slice_head in Hs as [Hs3 Hs4]. rewrite !length_app in Hl. cbn [length w16 w32 app] in Hs1, Hs2, Hs3, Hs4, Hl |- *.
  change (Z.of_nat 2) with 2 in *. change (Z.of_nat 4) with 4 in *. rewrite <- ?Z.add_assoc in Hs3, Hs4. change (2 + 2) with 4 in *. replace (p + 2 + (2 + 4)) with (p + 8) in Hs4 by lia.
  split; [done |]. split; [lia |]. split; [by apply rd16_piece |]. split; [by apply rd16_piece |]. split; [by apply rd32_piece | by apply rd16_piece].
Qed.

(** RDATA as values: text fields for the types with a layout, the octets for
    the others. *)
Inductive rr_data :=
| Fields (fs : list field)
| Opaque (d : list Z).

Definition data_pieces (data : rr_data) : list piece := match data with Fields fs => map field_piece fs | Opaque d => [POctets d] end.
Definition data_text (type : Z) (data : rr_data) : list (list Z) :=
  match data with Fields fs => map (field_text inet_ntop6) fs | Opaque d => match decode_dnssec_rdata type d (len d) with Ret fields => fields | _ => [] end end.
Definition data_blob (data : rr_data) : option (list Z) := match data with Fields _ => None | Opaque d => Some d end.

Definition data_ok (type cls : Z) (data : rr_data) : Prop :=
  match data with
  | Fields fs => has_layout type fs /\ Forall (field_ok inet_ntop6) fs /\ cls <> DNS_CLASS_KARIDNS_EXT
  | Opaque d => bytes d /\ layout type = None /\ type <> 16 /\ is_meta_rrtype type = false
  end.

Definition data_fresh (ctx : option compress_ctx_t) (data : rr_data) : Prop := match data with Fields fs => Forall (field_fresh ctx) fs | Opaque _ => True end.

Definition same_data (e : bool) (a b : rr_data) : Prop :=
  match a, b with Fields a, Fields b => same e a b | Opaque a, Opaque b => a = b | _, _ => False end.

(** The record with these values, as a zone holds it. *)
Definition record_of (ls : list (list Z)) (cls ttl type : Z) (data : rr_data) : dns_record_t :=
  DnsRecord (expanded ls) (fmt_u ttl) (class_text cls) cls (match get_type_str type with Ret s => s | _ => [] end) type ttl
    (data_text type data) (data_blob data) (match data_blob data with Some d => len d | None => 0 end) 0 false (0, 0) None None None NotCached.

Lemma layout_not_meta type fs : has_layout type fs -> is_meta_rrtype type = false.
Proof.
  intros [E | (-> & _)]; [| done]. unfold layout in E.
  repeat match type of E with
         | (if ?c then _ else _) = _ => let E' := fresh "E'" in destruct c eqn:E'; [first [apply Z.eqb_eq in E' as ->; done | inv_type E'; done] | clear E']
         end. done.
Qed.

Lemma generic_add rec d s : in_range max s -> generic_data rec = Some d -> generic_len rec = len d -> out_generic max rec s = add_octets max d s.
Proof.
  intros Hs Ed El. unfold out_generic. rewrite Ed, El. destruct (Z.ltb_spec 0 (len d)) as [Hp | Hp].
  - assert (slice d 0 (len d) = Ret d) as ->; [| by apply need_out_add]. unfold slice. case_if; [| cmp_prop; lia]. change (Z.to_nat 0) with 0%nat. cbn [drop]. by rewrite Nat2Z.id, firstn_all.
  - destruct d; [| cbn [length] in Hp; lia]. destruct s as [res off], Hs as (Ho & Hm & _). unfold add_octets. cbn [fst snd length] in *. change (Z.of_nat 0) with 0. rewrite Z.add_0_r, splice_nil. case_if; [cmp_prop; lia | done].
Qed.

Lemma write_data ls cls ttl type data h s : fs_ok max h s -> data_ok type cls data -> data_fresh (snd s) data ->
  sexact max h s (data_pieces data) (body loc_rdata max (record_of ls cls ttl type data) s).
Proof.
  intros Hs Hok Hfr. unfold body, record_of. cbn [generic_data class_val]. destruct data as [fs | d]; cbn [data_ok data_fresh data_pieces data_blob] in *.
  - destruct Hok as (Hlay & Hok & Hne). rewrite (proj2 (Z.eqb_neq _ _) Hne). by eapply sexact_switch.
  - destruct Hok as (Hd & _). set (rec := DnsRecord _ _ _ _ _ _ _ _ _ _ _ _ _ _ _ _ _). rewrite (plain_eq _ (add_octets max d) s) by (apply generic_add; [by eapply fs_in_range | done | done]).
    apply sexact_octets; [done | done | done |]. intros Hno. destruct s as [[res off] ctx]. unfold plain, add_octets. cbn [fst snd] in *. by rewrite (proj2 (Z.ltb_lt max _)) by lia.
Qed.

Lemma read_data packet packet_len e type cls data off rdlen : bytes packet -> packet_len <= len packet -> 0 <= off -> 0 <= rdlen -> data_ok type cls data ->
  reads e packet packet_len (data_pieces data) off (off + rdlen) ->
  exists data', parse_rdata inet_ntop6 type packet packet_len off rdlen = Ret (data_text type data', data_blob data') /\ same_data e data' data.
Proof.
  intros Hb Hl Ho Hr Hok Hrd. destruct data as [fs | d]; cbn [data_ok data_pieces] in *.
  - destruct Hok as (Hlay & Hok & _). destruct (parse_rdata_at inet_ntop6 packet packet_len e Hb Hl off rdlen Ho type fs) as (fs' & E & Hsame); [done.. |]. by exists (Fields fs').
  - destruct Hok as (Hd & Hlay & H16 & _). exists (Opaque d). split; [| done]. apply octets_at in Hrd as (Hs & _ & Hrd). inversion Hrd. assert (rdlen = len d) as -> by lia.
    transitivity (parse_generic type packet off (len d)).
    + unfold parse_rdata.
      repeat match goal with
             | |- (if ?c then _ else _) = _ => let E := fresh "E" in destruct c eqn:E;
                 [exfalso; first [apply Z.eqb_eq in E as ->; done | inv_type E; done | apply orb_true_iff in E as [->%Z.eqb_eq | ->%Z.eqb_eq]; done] | clear E]
             end. done.
    + unfold parse_generic. rewrite Hs. cbn [obind data_text data_blob]. pose proof (dnssec_ensures d Hd type) as [-> | (a & -> & _)]; done.
Qed.

Lemma type_str_of type : 0 <= type -> get_type_str type = Ret (match get_type_str type with Ret s => s | _ => [] end).
Proof. intros Ht. unfold get_type_str. by destruct (format_type_spec type 16 Ht) as (ts & -> & _). Qed.

Lemma record_ttl ls cls ttl type data override_ttl : 0 <= ttl <= TTL_MAX -> 0 <= override_ttl < 4294967296 ->
  wire_ttl (record_of ls cls ttl type data) override_ttl = Ret (Z.min override_ttl ttl).
Proof.
  intros Ht Ho. unfold wire_ttl, record_of. cbn [ttl_value Record.ttl]. rewrite ttl_fmt by done. unfold TTL_MAX in Ht.
  assert ((if (ttl =? 0) && negb (streq (fmt_u ttl) []) then Ret ttl else Ret ttl) = Ret ttl) as -> by (by case_if). cbn [obind]. f_equal.
  rewrite (proj2 (Z.ltb_ge 2147483647 ttl)) by lia. case_if; cmp_prop; lia.
Qed.

Lemma read_record packet packet_len e ls cls t type data offset start next : bytes packet -> packet_len <= len packet -> 0 <= offset -> field_ok inet_ntop6 (FName ls) ->
  0 < cls < 65536 -> 0 <= type < 65536 -> 0 <= t <= TTL_MAX -> data_ok type cls data -> 0 <= next - start <= 65535 -> next <= packet_len ->
  reads e packet packet_len [PName ls; POctets (w16 type ++ w16 cls ++ w32 t ++ w16 (next - start))] offset start -> reads e packet packet_len (data_pieces data) start next ->
  exists ls' data', parse_resource_record_scratch inet_ntop6 packet packet_len offset = Ret (record_of ls' cls t type data', next) /\
    ci ls' ls /\ (e = true -> ls' = ls) /\ same_data e data' data.
Proof.
  intros Hb Hl Ho Hls Hc Hty Ht Hd Hn Hnext Hh Hr. unfold TTL_MAX in Ht.
  destruct (name_at packet packet_len e Hb Hl ls _ offset start Ho (proj2 Hls) Hh) as (ls' & r & En & _ & Hci & Hex & Hr0 & Hh').
  assert (forall rec, type_code rec = type -> class_val rec = cls -> wire_class rec = cls) as Hwc
    by (intros rec _ Ec; unfold wire_class; rewrite Ec; by rewrite (proj2 (Z.eqb_neq _ _)) by lia).
  pose (rec := record_of ls cls t type data). assert (wire_class rec = cls) as Ewc by (by apply Hwc).
  replace (w16 type ++ w16 cls ++ w32 t ++ w16 (next - start)) with (rr_fixed rec t ++ w16 (next - start)) in Hh' by (unfold rr_fixed; by rewrite Ewc, <- !app_assoc).
  apply fixed_at in Hh' as (-> & H10 & E1 & E2 & E3 & E4); [| done | lia | lia | lia]. rewrite Ewc in E2.
  destruct (read_data packet packet_len e type cls data (r + 10) (next - (r + 10))) as (data' & Ed & Hsame); [done | done | lia | lia | done | by replace (r + 10 + (next - (r + 10))) with next by lia |].
  exists ls', data'. split; [| by split_and!]. unfold parse_resource_record_scratch. rewrite En. cbn [obind]. rewrite (proj2 (Z.ltb_ge _ _)) by lia.
  rewrite E1. cbn [obind]. rewrite E2. cbn [obind]. rewrite E3. cbn [obind]. rewrite E4. cbn [obind]. rewrite (proj2 (Z.ltb_ge _ _)) by lia.
  change (type_code rec) with type. rewrite type_str_of by lia. cbn [obind]. rewrite Ed. cbn [obind]. rewrite (proj2 (Z.ltb_ge 2147483647 t)) by lia.
  f_equal. f_equal. lia.
Qed.

End Whole.

(** ** Properties *)


Definition ex_owner : list (list Z) := [str "www"; str "example"; str "org"].
Definition ex_mx : rr_data := Fields [F16 10; FName [str "mail"; str "Example"; str "org"]].

Lemma ex_labels ls : forallb (fun l => forallb (fun b => (0 <=? b) && (b <? 256)) l && (0 <? len l) && (len l <=? 63)) ls = true -> Forall label_wf ls.
Proof.
  intros E. apply Forall_forall. intros l Hl. rewrite forallb_forall in E. apply list_elem_of_In, E in Hl. apply andb_true_iff in Hl as [[Hb H1]%andb_true_iff H2].
  split; [| lia]. apply Forall_forall. intros b Hi. rewrite forallb_forall in Hb. apply list_elem_of_In, Hb in Hi. unfold isbyte. lia.
Qed.


End RrRound.
