(* ===== verification/Tsig.v ===== *)
(** * Transaction signatures (src/dns_wire.c, src/dns_tsig_acl.c)

    TSIG (RFC 8945): finding and reading the TSIG record of a message, the
    octets that are authenticated, signing and verifying a message, the check
    of a request against the keys of the server, and the signed response. The
    keyed hash of OpenSSL is the interface [Hmac]; the clock is an argument. *)

From S2P Require Import Prelude CLib Cidr DnsName NameText WireName Compress Cookie RdataText Record.

Module Tsig.
Import CLib DnsName NameText WireName Compress RdataText Record.

(** ** Data *)

Inductive evp_md := EVP_md5 | EVP_sha1 | EVP_sha224 | EVP_sha256 | EVP_sha384 | EVP_sha512.

#[export] Instance evp_md_eq_dec : EqDecision evp_md.
Proof. solve_decision. Defined.

(** [EVP_MD_size] *)
Definition EVP_MD_size (md : evp_md) : Z :=
  match md with EVP_md5 => 16 | EVP_sha1 => 20 | EVP_sha224 => 28 | EVP_sha256 => 32 | EVP_sha384 => 48 | EVP_sha512 => 64 end.

Definition EVP_MAX_MD_SIZE : Z := 64.

(** [HMAC]: as many octets as the digest has. *)
Class Hmac := {
  HMAC : evp_md -> list Z -> list Z -> list Z;
  hmac_bytes : forall md key data, bytes (HMAC md key data);
  hmac_length : forall md key data, len (HMAC md key data) = EVP_MD_size md
}.

Record tsig_key_t := TsigKey { key_name : list Z; algorithm : option (list Z); secret_decoded : list Z; fuzztime : Z }.

Record tsig_rr_t := TsigRr {
  rr_offset : Z; timers_offset : Z; rr_key_name : list Z; rr_alg_name : list Z; time_signed : Z; fudge : Z;
  mac_size : Z; mac : list Z; orig_id : Z; rr_error : Z; other_len : Z; other : list Z }.

(** The results 0, -1 and 1 of [tsig_parse_rr]. *)
Inductive tsig_parse := NoTsig | BadTsig | Tsig (rr : tsig_rr_t).

(** ** Operations: algorithms *)

Definition g_tsig_alg_table : list (list Z * evp_md) :=
  [(str "hmac-md5.sig-alg.reg.int", EVP_md5); (str "hmac-md5", EVP_md5); (str "hmac-sha1", EVP_sha1); (str "hmac-sha224", EVP_sha224);
   (str "hmac-sha256", EVP_sha256); (str "hmac-sha384", EVP_sha384); (str "hmac-sha512", EVP_sha512)].

(** The name without a final dot. *)
Definition without_dot (alg : list Z) : list Z :=
  match last alg with Some c => if c =? DOT then removelast alg else alg | None => alg end.

Fixpoint find_alg (table : list (list Z * evp_md)) (alg : list Z) : option evp_md :=
  match table with
  | [] => None
  | (name, md) :: table' => if strcaseeq alg name then Some md else find_alg table' alg
  end.

Definition tsig_algorithm_from_name (alg : list Z) : option evp_md := find_alg g_tsig_alg_table (without_dot alg).

(** [key->algorithm ? key->algorithm : "hmac-sha256"] *)
Definition key_alg (key : tsig_key_t) : list Z := default (str "hmac-sha256") (algorithm key).

Definition tsig_rr_wire_size (key_name alg : list Z) (tsig_error : Z) : outcome Z :=
  orelse (wire_name_length key_name) 0 (fun kl =>
  orelse (wire_name_length alg) 0 (fun al =>
  Ret (kl + 10 + al + 10 + EVP_MAX_MD_SIZE + 6 + (if tsig_error =? 18 then 6 else 0)))).

(** ** Operations: what is authenticated *)

Definition w48 (v : Z) : list Z :=
  [u8 (Z.shiftr v 40); u8 (Z.shiftr v 32); u8 (Z.shiftr v 24); u8 (Z.shiftr v 16); u8 (Z.shiftr v 8); u8 v].

(** [write_uncompressed_name] at the offset. *)
Definition out_lower_name (max_len : Z) (name : list Z) (s : list Z * Z) : outcome (list Z * Z) :=
  let '(buf, offset) := s in
  let! '(buf, w) := write_uncompressed_name buf offset max_len name in
  Ret (buf, offset + w).

(** The MAC of the message before, with its length. *)
Definition out_prior (prior_mac : list Z) (s : list Z * Z) : outcome (list Z * Z) :=
  if 0 <? len prior_mac then let! s := out_size (w16 (len prior_mac)) s in out_size prior_mac s else Ret s.

(** The key name, the class and the TTL of the TSIG record, and the algorithm. *)
Definition out_tsig_names (cap : Z) (key_name alg : list Z) (s : list Z * Z) : outcome (list Z * Z) :=
  let! s := out_lower_name cap key_name s in
  let! s := out_size [0; 255; 0; 0; 0; 0] s in
  out_lower_name cap alg s.

(** ** Operations: signing *)

Section Sign.
Context `{Hmac}.

(** The time now, for each of the two calls of [time]. *)
Variables time1 time2 : Z.

(** The error code, and the time in the Other Data of BADTIME. *)
Definition error_fields (tsig_error : Z) : list Z := w16 tsig_error ++ (if tsig_error =? 18 then w16 6 ++ w48 time2 else w16 0).

(** Time Signed and Fudge. *)
Definition sign_times (key : tsig_key_t) (times : option (Z * Z)) : Z * Z :=
  match times with Some t => t | None => (if 0 <? fuzztime key then fuzztime key else time1, 300) end.

Definition sign_pre_mac (packet : list Z) (packet_len : Z) (key : tsig_key_t) (tsig_error : Z) (prior_mac msgs : list Z) (is_subsequent : bool)
    (times : Z * Z) (keyname_wire_len alg_wire_len : Z) : outcome (list Z) :=
  let pre_mac_cap :=
    packet_len + (if 0 <? len prior_mac then len prior_mac + 2 else 0) + len msgs + keyname_wire_len + 6 + alg_wire_len + 8 + 4
    + (if tsig_error =? 18 then 6 else 0) in
  let! s := out_prior prior_mac (replicate (Z.to_nat pre_mac_cap) 0, 0) in
  let! s := out_size msgs s in
  let! message := slice packet 0 packet_len in
  let! s := out_size message s in
  let! s := if is_subsequent then Ret s else out_tsig_names pre_mac_cap (key_name key) (key_alg key) s in
  let! s := out_size (w48 (fst times) ++ w16 (snd times)) s in
  let! s := if is_subsequent then Ret s else out_size (error_fields tsig_error) s in
  slice (fst s) 0 (snd s).

(** BADSIG and BADKEY responses, and keys without a secret, have no MAC. *)
Definition sign_mac (key : tsig_key_t) (tsig_error : Z) (pre_mac : list Z) : outcome (list Z) :=
  if (tsig_error =? 16) || (tsig_error =? 17) then Ret []
  else if 0 <? len (secret_decoded key) then
    match tsig_algorithm_from_name (key_alg key) with
    | Some md => Ret (HMAC md (secret_decoded key) pre_mac)
    | None => Fail
    end
  else Ret [].

(** The TSIG record at the end of the packet. *)
Definition out_tsig (packet : list Z) (packet_len max_len : Z) (key : tsig_key_t) (tsig_error : Z) (times : Z * Z) (mac : list Z) : outcome (list Z * Z) :=
  let! s := out_lower_name max_len (key_name key) (packet, packet_len) in
  let! s := out_size [0; 250; 0; 255; 0; 0; 0; 0] s in
  let rdata_len_idx := snd s in
  let s := (fst s, rdata_len_idx + 2) in
  let! s := out_lower_name max_len (key_alg key) s in
  let! s := out_size (w48 (fst times) ++ w16 (snd times) ++ w16 (len mac) ++ mac) s in
  let! id0 := rd (fst s) 0 in
  let! id1 := rd (fst s) 1 in
  let! s := out_size ([id0; id1] ++ error_fields tsig_error) s in
  let! packet := wr_list (fst s) rdata_len_idx (w16 (u16 (snd s - rdata_len_idx - 2))) in
  let! arcount := rd16 packet 10 in
  let! packet := wr_list packet 10 (w16 (u16 (arcount + 1))) in
  Ret (packet, snd s).

(** The packet, its length and the MAC. *)
Definition tsig_sign_packet_ex (packet : list Z) (packet_len max_len : Z) (key : tsig_key_t) (tsig_error : Z) (prior_mac msgs : list Z)
    (is_subsequent : bool) (times : option (Z * Z)) : outcome (list Z * Z * list Z) :=
  fail_if packet_len <? DNS_HEADER_SIZE ;;
  let! keyname_wire_len := wire_name_length (key_name key) in
  let! alg_wire_len := wire_name_length (key_alg key) in
  let! needed := tsig_rr_wire_size (key_name key) (key_alg key) tsig_error in
  fail_if (needed =? 0) || (max_len <? packet_len + needed) ;;
  let times := sign_times key times in
  let! pre_mac := sign_pre_mac packet packet_len key tsig_error prior_mac msgs is_subsequent times keyname_wire_len alg_wire_len in
  let! mac := sign_mac key tsig_error pre_mac in
  let! '(packet, packet_len) := out_tsig packet packet_len max_len key tsig_error times mac in
  Ret (packet, packet_len, mac).

Definition tsig_sign_packet (packet : list Z) (packet_len max_len : Z) (key : tsig_key_t) (tsig_error : Z) (prior_mac msgs : list Z) (is_subsequent : bool) :
    outcome (list Z * Z * list Z) :=
  tsig_sign_packet_ex packet packet_len max_len key tsig_error prior_mac msgs is_subsequent None.

End Sign.

(** ** Operations: reading the TSIG record *)

(** A name without pointers: the text with its terminator and the offset
    behind the name. *)
Fixpoint extract_from (fuel : nat) (packet : list Z) (packet_len p buf_size : Z) (buf : list Z) (total_wire_len : Z) : outcome (list Z * Z) :=
  match fuel with
  | O => NoFuel
  | S fuel' =>
      fail_if packet_len <=? p ;;
      let! n := rd packet p in
      fail_if negb (Z.land n 192 =? 0) ;;
      let p := p + 1 in
      let total_wire_len := total_wire_len + (1 + n) in
      fail_if 255 <? total_wire_len ;;
      if n =? 0 then
        let! buf := if Nat.eqb (length buf) 0 then (fail_if buf_size <=? len buf + 1 ;; put buf_size buf DOT) else Ret buf in
        fail_if buf_size <=? len buf ;;
        let! buf := put buf_size buf 0 in
        Ret (buf, p)
      else
        fail_if (packet_len <? p + n) || (buf_size <=? len buf + 1) ;;
        let! octets := slice packet p n in
        let! t := dns_label_to_text octets (buf_size - len buf - 1) in
        let! buf := put_list buf_size buf t in
        let! buf := put buf_size buf DOT in
        extract_from fuel' packet packet_len (p + n) buf_size buf total_wire_len
  end.

Definition extract_wire_name_to_buffer (packet : list Z) (packet_len current_offset buf_size : Z) : outcome (list Z * Z) :=
  extract_from 129 packet packet_len current_offset buf_size [] 0.

Fixpoint tsig_skip_questions (n : nat) (packet : list Z) (packet_len offset : Z) : outcome Z :=
  match n with
  | O => Ret offset
  | S n' =>
      let! offset := skip_name_inplace packet packet_len offset in
      fail_if packet_len <? offset + 4 ;;
      tsig_skip_questions n' packet packet_len (offset + 4)
  end.

(** The walk over the records: it ends early, or behind them with the last
    TSIG record, their number, and whether it is the last record of the
    additional section. *)
Inductive tsig_scan := Stop (r : tsig_parse) | Scanned (offset tsig_rr tsig_count : Z) (tsig_last : bool).

Fixpoint scan_rrs (n : nat) (packet : list Z) (packet_len i total additional offset tsig_rr tsig_count : Z) (tsig_last : bool) : outcome tsig_scan :=
  match n with
  | O => Ret (Scanned offset tsig_rr tsig_count tsig_last)
  | S n' =>
      let rr := offset in
      let stop := Stop (if tsig_count =? 0 then NoTsig else BadTsig) in
      orelse (skip_name_inplace packet packet_len offset) stop (fun offset =>
      if packet_len <? offset + 10 then Ret stop
      else
        let! type := rd16 packet offset in
        let! rdlen := rd16 packet (offset + 8) in
        if packet_len <? offset + 10 + rdlen then Ret (Stop (if negb (tsig_count =? 0) || (type =? 250) then BadTsig else NoTsig))
        else
          let next := offset + 10 + rdlen in
          if type =? 250 then
            scan_rrs n' packet packet_len (i + 1) total additional next rr (tsig_count + 1) ((i =? total - 1) && (additional <=? i))
          else scan_rrs n' packet packet_len (i + 1) total additional next tsig_rr tsig_count tsig_last)
  end.

(** The record at [tsig_rr]; [Fail] where the code returns -1. *)
Definition read_tsig (packet : list Z) (packet_len tsig_rr : Z) : outcome tsig_rr_t :=
  let! '(key_name, p) := expand_wire_name_to_buffer packet packet_len tsig_rr DNS_NAME_TEXT_SIZE in
  fail_if packet_len <? p + 10 ;;
  let! class := rd16 packet (p + 2) in
  fail_if negb (class =? 255) ;;
  let! rdlen := rd16 packet (p + 8) in
  let rdata_end := p + 10 + rdlen in
  let! '(alg_name, p) := extract_wire_name_to_buffer packet rdata_end (p + 10) DNS_NAME_TEXT_SIZE in
  fail_if rdata_end <? p + 10 ;;
  let timers_offset := p in
  let! t0 := rd16 packet p in
  let! t1 := rd32 packet (p + 2) in
  let! fudge := rd16 packet (p + 6) in
  let! mac_size := rd16 packet (p + 8) in
  let p := p + 10 in
  fail_if rdata_end <? p + mac_size + 6 ;;
  let! mac := slice packet p mac_size in
  let p := p + mac_size in
  let! orig_id := rd16 packet p in
  let! error := rd16 packet (p + 2) in
  let! other_len := rd16 packet (p + 4) in
  let p := p + 6 in
  fail_if rdata_end <? p + other_len ;;
  let! other := slice packet p other_len in
  Ret (TsigRr tsig_rr timers_offset (removelast key_name) (removelast alg_name) (Z.lor (Z.shiftl t0 32) t1) fudge mac_size mac orig_id error other_len other).

Definition tsig_parse_rr (packet : list Z) (packet_len : Z) : outcome tsig_parse :=
  if packet_len <? DNS_HEADER_SIZE then Ret NoTsig
  else
    let! qdcount := rd16 packet 4 in
    let! ancount := rd16 packet 6 in
    let! nscount := rd16 packet 8 in
    let! arcount := rd16 packet 10 in
    if arcount =? 0 then Ret NoTsig
    else
      orelse (tsig_skip_questions (Z.to_nat qdcount) packet packet_len DNS_HEADER_SIZE) NoTsig (fun offset =>
      let total := ancount + nscount + arcount in
      let! scan := scan_rrs (Z.to_nat total) packet packet_len 0 total (ancount + nscount) offset 0 0 false in
      match scan with
      | Stop r => Ret r
      | Scanned _ tsig_rr tsig_count tsig_last =>
          if tsig_count =? 0 then Ret NoTsig
          else if (1 <? tsig_count) || negb tsig_last then Ret BadTsig
          else orelse (read_tsig packet packet_len tsig_rr) BadTsig (fun rr => Ret (Tsig rr))
      end).

Definition packet_has_tsig (packet : list Z) (packet_len : Z) : outcome bool :=
  let! r := tsig_parse_rr packet packet_len in
  Ret (match r with Tsig _ => true | _ => false end).

(** ** Operations: verifying *)

Definition TSIG_VERIFY_FORMERR : Z := -2.

Section Verify.
Context `{Hmac}.

Variable time_now : Z.

Definition verify_pre_mac (packet : list Z) (key : tsig_key_t) (rr : tsig_rr_t) (prior_mac msgs : list Z) (is_subsequent : bool) : outcome (list Z) :=
  let! arcount := rd16 packet 10 in
  let! keyname_wire_len := wire_name_length (key_name key) in
  let! alg_wire_len := wire_name_length (rr_alg_name rr) in
  let pre_mac_cap :=
    (if 0 <? len prior_mac then len prior_mac + 2 else 0) + len msgs + rr_offset rr + keyname_wire_len + 6 + alg_wire_len + 8 + 4 + other_len rr in
  let! s := out_prior prior_mac (replicate (Z.to_nat pre_mac_cap) 0, 0) in
  let! s := out_size msgs s in
  let! message := slice packet 0 (rr_offset rr) in
  let p_offset := snd s in
  let! s := out_size message s in
  let! pre_mac := wr_list (fst s) p_offset (w16 (orig_id rr)) in
  let! pre_mac := wr_list pre_mac (p_offset + 10) (w16 (u16 (arcount - 1))) in
  let s := (pre_mac, snd s) in
  let! s :=
    if is_subsequent then Ret s
    else
      let! s := out_lower_name pre_mac_cap (key_name key) s in
      fail_if pre_mac_cap <? snd s + 6 ;;
      let! s := out_size [0; 255; 0; 0; 0; 0] s in
      out_lower_name pre_mac_cap (rr_alg_name rr) s in
  fail_if pre_mac_cap <? snd s + 8 + (if is_subsequent then 0 else 4 + other_len rr) ;;
  let! timers := slice packet (timers_offset rr) 8 in
  let! s := out_size timers s in
  let! s := if is_subsequent then Ret s else let! s := out_size (w16 (rr_error rr) ++ w16 (other_len rr)) s in out_size (other rr) s in
  slice (fst s) 0 (snd s).

(** The code that is returned, the verified MAC, and whether it is shorter
    than the hash. *)
Definition tsig_verify_packet_ex (packet : list Z) (packet_len : Z) (key : tsig_key_t) (prior_mac msgs : list Z) (is_subsequent : bool) :
    outcome (Z * option (list Z) * bool) :=
  if packet_len <? DNS_HEADER_SIZE then Ret (-1, None, false)
  else
    let! r := tsig_parse_rr packet packet_len in
    match r with
    | NoTsig => Ret (-1, None, false)
    | BadTsig => Ret (TSIG_VERIFY_FORMERR, None, false)
    | Tsig rr =>
        match tsig_algorithm_from_name (rr_alg_name rr) with
        | None => Ret (17, None, false)
        | Some md =>
            if negb (bool_decide (tsig_algorithm_from_name (key_alg key) = Some md)) || negb (domain_names_match_ci (rr_key_name rr) (key_name key))
            then Ret (17, None, false)
            else
              let hash_len := EVP_MD_size md in
              if (mac_size rr =? 0) && (0 <? len prior_mac) && negb is_subsequent && ((rr_error rr =? 16) || (rr_error rr =? 17))
              then Ret (rr_error rr, None, false)
              else
                let min_mac := if 10 <? hash_len / 2 then hash_len / 2 else 10 in
                if (hash_len <? mac_size rr) || (mac_size rr <? min_mac) then Ret (TSIG_VERIFY_FORMERR, None, false)
                else
                  orelse (verify_pre_mac packet key rr prior_mac msgs is_subsequent) (-1, None, false) (fun pre_mac =>
                  let calc_mac := HMAC md (secret_decoded key) pre_mac in
                  if len calc_mac <? mac_size rr then Ret (16, None, false)
                  else
                    let! c := Cookie.const_time_memcmp calc_mac (mac rr) (mac_size rr) in
                    if negb (c =? 0) then Ret (16, None, false)
                    else
                      let! mac_out := put_list EVP_MAX_MD_SIZE [] (mac rr) in
                      let now := if 0 <? fuzztime key then fuzztime key else time_now in
                      let upper := if 18446744073709551615 - fudge rr <? time_signed rr then 18446744073709551615 else time_signed rr + fudge rr in
                      let lower := if time_signed rr <? fudge rr then 0 else time_signed rr - fudge rr in
                      Ret (if (upper <? now) || (now <? lower) then 18 else 0, Some mac_out, mac_size rr <? hash_len))
        end
    end.

Definition tsig_verify_packet (packet : list Z) (packet_len : Z) (key : tsig_key_t) (prior_mac msgs : list Z) (is_subsequent : bool) : outcome (Z * option (list Z)) :=
  let! '(code, mac, _) := tsig_verify_packet_ex packet packet_len key prior_mac msgs is_subsequent in
  Ret (code, mac).

End Verify.

(** ** Operations: requests and responses *)

(** The keys of the server and of its views. *)
Record server_keys := ServerKeys { keys : list tsig_key_t; views : list (list Z * list tsig_key_t) }.

Inductive tsig_req_status_t := TSIG_REQ_NONE | TSIG_REQ_VALID | TSIG_REQ_ERROR | TSIG_REQ_FORMERR.

Record tsig_request_t := TsigRequest {
  status : tsig_req_status_t; req_error : Z; req_key : option tsig_key_t; stripped_len : Z; req_mac : list Z;
  req_time_signed : Z; req_fudge : Z; req_key_name : list Z; req_alg_name : list Z }.

Fixpoint find_key (l : list tsig_key_t) (test : tsig_key_t -> bool) : option tsig_key_t :=
  match l with
  | [] => None
  | k :: l' => if test k then Some k else find_key l' test
  end.

Fixpoint view_keys (views : list (list Z * list tsig_key_t)) (view_name : list Z) : list tsig_key_t :=
  match views with
  | [] => []
  | (name, keys) :: views' => if strcaseeq name view_name then keys else view_keys views' view_name
  end.

Definition view_own_keys (cfg : server_keys) (view_name : option (list Z)) : list tsig_key_t :=
  match view_name with
  | None | Some [] => []
  | Some v => view_keys (views cfg) v
  end.

Definition find_tsig_key_by_name (cfg : server_keys) (name : list Z) : option tsig_key_t :=
  match name with [] => None | _ => find_key (keys cfg) (fun k => domain_names_match_ci (key_name k) name) end.

Definition find_tsig_key_in_view (cfg : server_keys) (view_name : option (list Z)) (name : list Z) : option tsig_key_t :=
  match name with
  | [] => None
  | _ =>
      match find_key (view_own_keys cfg view_name) (fun k => domain_names_match_ci (key_name k) name) with
      | Some k => Some k
      | None => find_tsig_key_by_name cfg name
      end
  end.

(** The key a request names: the view's own keys first. *)
Definition request_key (cfg : server_keys) (view_name : option (list Z)) (rr : tsig_rr_t) : option tsig_key_t :=
  match tsig_algorithm_from_name (rr_alg_name rr) with
  | None => None
  | Some md =>
      let test k := domain_names_match_ci (key_name k) (rr_key_name rr) && bool_decide (tsig_algorithm_from_name (key_alg k) = Some md) in
      match find_key (view_own_keys cfg view_name) test with
      | Some k => Some k
      | None => find_key (keys cfg) test
      end
  end.

Section Request.
Context `{Hmac}.

Definition tsig_check_request_nolog (time_now : Z) (cfg : server_keys) (view_name : option (list Z)) (req : list Z) (req_len : Z) : outcome tsig_request_t :=
  let none := TsigRequest TSIG_REQ_NONE 0 None req_len [] 0 0 [] [] in
  if req_len <? DNS_HEADER_SIZE then Ret none
  else
    let! a0 := rd req 10 in
    let! a1 := rd req 11 in
    if (a0 =? 0) && (a1 =? 0) then Ret none
    else
      let! r := tsig_parse_rr req req_len in
      match r with
      | NoTsig => Ret none
      | BadTsig => Ret (TsigRequest TSIG_REQ_FORMERR 0 None req_len [] 0 0 [] [])
      | Tsig rr =>
          let answer st e k m := TsigRequest st e k (rr_offset rr) m (time_signed rr) (fudge rr) (rr_key_name rr) (rr_alg_name rr) in
          match request_key cfg view_name rr with
          | None => Ret (answer TSIG_REQ_ERROR 17 None [])
          | Some k =>
              let! '(err, mac_out, truncated) := tsig_verify_packet_ex time_now req req_len k [] [] false in
              let m := default [] mac_out in
              Ret (if (err =? 0) && truncated then answer TSIG_REQ_ERROR 22 (Some k) m
                   else if err =? 0 then answer TSIG_REQ_VALID 0 (Some k) m
                   else if err =? 18 then answer TSIG_REQ_ERROR 18 (Some k) m
                   else if (err =? 16) || (err =? 17) then answer TSIG_REQ_ERROR err None []
                   else answer TSIG_REQ_FORMERR 0 None [])
          end
      end.

Definition tsig_response_reserve (t : tsig_request_t) : outcome Z :=
  match req_key t, status t with
  | Some k, TSIG_REQ_VALID => tsig_rr_wire_size (key_name k) (key_alg k) 0
  | Some k, TSIG_REQ_ERROR => tsig_rr_wire_size (key_name k) (key_alg k) (req_error t)
  | _, _ => Ret 0
  end.

(** The end of the question section. *)
Fixpoint questions_end (n : nat) (res : list Z) (res_len q_end : Z) : outcome Z :=
  match n with
  | O => Ret q_end
  | S n' =>
      let! next := skip_wire_name res res_len q_end in
      fail_if res_len <? next + 4 ;;
      questions_end n' res res_len (next + 4)
  end.

(** The response cut down to its question, with the TC bit and without an
    error. *)
Definition truncate_to_question (res : list Z) (res_len : Z) : outcome (list Z * Z) :=
  let! qdcount := rd16 res 4 in
  let! q_end := questions_end (Z.to_nat qdcount) res res_len DNS_HEADER_SIZE in
  let! b2 := rd res 2 in
  let! res := wr res 2 (Z.lor b2 2) in
  let! b3 := rd res 3 in
  let! res := wr res 3 (Z.land b3 240) in
  let! res := wr_list res 6 [0; 0; 0; 0; 0; 0] in
  Ret (res, q_end).

(** The response and its length. A failed attempt to sign leaves the octets
    before [res_len] as they were. *)
Definition tsig_finish_response (time1 time2 : Z) (res : list Z) (res_len max_len : Z) (t : tsig_request_t) : outcome (list Z * Z) :=
  match status t with
  | TSIG_REQ_NONE | TSIG_REQ_FORMERR => Ret (res, res_len)
  | st =>
      if res_len <? DNS_HEADER_SIZE then Ret (res, res_len)
      else
        let error := match st with TSIG_REQ_VALID => 0 | _ => req_error t end in
        let unsigned := (error =? 16) || (error =? 17) in
        match (if unsigned then Some (TsigKey (req_key_name t) (Some (req_alg_name t)) [] 0) else req_key t) with
        | None => Fail
        | Some key =>
            let mac := if unsigned then [] else req_mac t in
            let times := if error =? 18 then Some (req_time_signed t, req_fudge t) else None in
            let sign res res_len := tsig_sign_packet_ex time1 time2 res res_len max_len key error mac [] false times in
            match sign res res_len with
            | Ret (res, n, _) => Ret (res, n)
            | Fail =>
                let! '(res, q_end) := truncate_to_question res res_len in
                let! '(res, n, _) := sign res q_end in
                Ret (res, n)
            | Oob => Oob
            | NoFuel => NoFuel
            end
        end
  end.

End Request.

End Tsig.
