(* ===== verification/TsigSpec.v ===== *)
(** * Transaction signatures: what is authenticated

    The digest of RFC 8945 section 4.3 and the form of a TSIG record as
    specifications; verification accepts exactly the messages that carry the
    keyed hash of their digest, and a signed message is accepted. *)

From S2P Require Import Prelude CLib Cidr DnsName NameText WireName Compress Edns Cookie RdataText Record Svcb RrWrite RrFrame RrParse RrRound Tsig.

Module TsigSpec.
Import CLib DnsName NameText WireName Compress RdataText Record RrFrame RrParse RrRound Tsig.

(** ** Specification *)

(** The canonical wire form of a name in text form. *)
Definition canonical_name (name : list Z) : option (list Z) :=
  match text_labels name with
  | Ret ls => let W := wire_name (written_labels true ls) in if len W <=? 255 then Some W else None
  | _ => None
  end.

(** The digest components: the MAC of the message before, messages that were
    not signed, the message, and the variables of the TSIG record. *)
Definition prior_octets (prior_mac : list Z) : list Z := if 0 <? len prior_mac then w16 (len prior_mac) ++ prior_mac else [].

Definition digest (prior_mac msgs message names timers : list Z) (error : Z) (other : list Z) (is_subsequent : bool) : list Z :=
  prior_octets prior_mac ++ msgs ++ message ++
  (if is_subsequent then timers else names ++ timers ++ w16 error ++ w16 (len other) ++ other).

Definition digest_names (key_name alg : list Z) : option (list Z) :=
  match canonical_name key_name, canonical_name alg with
  | Some k, Some a => Some (k ++ [0; 255; 0; 0; 0; 0] ++ a)
  | _, _ => None
  end.

(** ** Lemmas: building a buffer *)

(** The buffer with [W] at [o], and the offset behind it. *)
Definition built (buf : list Z) (o : Z) (W : list Z) : list Z * Z := (splice buf o W, o + len W).

Lemma built_nil buf o : (buf, o) = built buf o [].
Proof. unfold built. rewrite splice_nil. cbn [length]. f_equal. lia. Qed.

Lemma out_built buf o W d : 0 <= o -> o + len (W ++ d) <= len buf -> out_size d (built buf o W) = Ret (built buf o (W ++ d)).
Proof.
  rewrite length_app. intros Ho Hl. unfold out_size, built. rewrite wr_list_splice by (rewrite ?length_splice; lia). cbn [obind].
  rewrite splice_app by lia. unfold built. rewrite length_app. do 2 f_equal. lia.
Qed.

Lemma name_built cap buf o W name : bytes name -> 0 <= o -> cap <= len buf -> o + len W <= cap ->
  out_lower_name cap name (built buf o W) =
  match canonical_name name with
  | Some N => if o + len (W ++ N) <=? cap then Ret (built buf o (W ++ N)) else Fail
  | None => Fail
  end.
Proof.
  intros Hb Ho Hc Hl. unfold out_lower_name, built, write_uncompressed_name, canonical_name. rewrite write_uncompressed_spec; [| done | lia | rewrite length_splice; lia].
  destruct (text_labels name) as [ls | | |]; try done. cbv zeta. set (N := wire_name (written_labels true ls)).
  destruct (Z.leb_spec (len N) 255) as [H255 | H255]; [| by rewrite andb_false_r]. rewrite andb_true_r, length_app, Nat2Z.inj_add.
  replace (o + len W + len N) with (o + (len W + len N)) by lia. destruct (Z.leb_spec (o + (len W + len N)) cap); [| done]. cbn [obind].
  rewrite splice_app by lia. do 2 f_equal. lia.
Qed.

Lemma prior_built buf o W prior : 0 <= o -> o + len (W ++ prior_octets prior) <= len buf -> out_prior prior (built buf o W) = Ret (built buf o (W ++ prior_octets prior)).
Proof.
  unfold out_prior, prior_octets. case_if; intros Ho Hl; [| by rewrite app_nil_r]. rewrite app_assoc in *. rewrite out_built; [| done | rewrite !length_app in *; lia]. cbn [obind].
  by apply out_built.
Qed.

Lemma slice_built buf W : len W <= len buf -> slice (fst (built buf 0 W)) 0 (snd (built buf 0 W)) = Ret W.
Proof.
  intros Hl. unfold built. cbn [fst snd]. rewrite Z.add_0_l. by apply splice_slice_self.
Qed.

Lemma lower_length ls : len (wire_name (written_labels true ls)) = len (wire_name (List.filter nonempty ls)).
Proof.
  unfold written_labels. induction (List.filter nonempty ls) as [| l fs IH]; [done |]. unfold wire_name in *. cbn [map]. rewrite !wire_labels_cons. cbn [app length]. rewrite !length_app in *.
  rewrite length_cased. lia.
Qed.

Lemma lower_wf ls : Forall (fun l => bytes l /\ len l <= 63) ls -> Forall label_wf (written_labels true ls).
Proof.
  intros Hls. apply nonempty_wf in Hls. unfold written_labels. apply Forall_map. eapply Forall_impl; [done |]. intros l [Hb Hl]. split; [| by rewrite length_cased].
  apply Forall_map. eapply Forall_impl; [done | apply lc_byte].
Qed.

(** [wire_name_length] is the length of the canonical form, unless that is too
    long for a name. *)
Lemma wire_length name : bytes name ->
  wire_name_length name = Fail /\ canonical_name name = None \/
  exists n, wire_name_length name = Ret n /\ 1 <= n /\ match canonical_name name with Some N => len N = n /\ bytes N | None => 255 < n end.
Proof.
  intros Hb. unfold canonical_name. destruct (text_labels name) as [ls | | |] eqn:E.
  - right. exists (len (wire_name (List.filter nonempty ls))). split; [by apply wire_name_length_spec |].
    assert (len (wire_name (written_labels true ls)) = len (wire_name (List.filter nonempty ls))) as El by apply lower_length.
    split; [unfold wire_name; rewrite length_app; cbn [length]; lia |]. cbv zeta. case_if; cmp_prop; [| lia]. split; [done |]. apply wire_name_bytes, lower_wf. by eapply text_labels_wf.
  - left. split; [| done]. unfold wire_name_length. rewrite (for_labels_Fail (fun _ => True)); [done | | done | done]. intros l a _. right. eauto.
  - by destruct (text_labels_defined name).
  - by destruct (text_labels_defined name).
Qed.

(** The names of the digest, written after [W]. *)
Lemma names_built cap buf W key_name alg kl al : bytes key_name -> bytes alg -> cap <= len buf -> wire_name_length key_name = Ret kl -> wire_name_length alg = Ret al ->
  len W + kl + 6 + al <= cap ->
  out_tsig_names cap key_name alg (built buf 0 W) = match digest_names key_name alg with Some names => Ret (built buf 0 (W ++ names)) | None => Fail end.
Proof.
  intros Hk Ha Hc Ek Ea Hl. destruct (wire_length key_name Hk) as [[E _] | (kl' & E & Hkl & Hk')]; [congruence |]. assert (kl' = kl) as -> by congruence.
  destruct (wire_length alg Ha) as [[E' _] | (al' & E' & Hal & Ha')]; [congruence |]. assert (al' = al) as -> by congruence.
  unfold out_tsig_names, digest_names. rewrite name_built by (done || lia). destruct (canonical_name key_name) as [k |]; [| done]. destruct Hk' as [Hkl' _].
  rewrite (proj2 (Z.leb_le _ _)) by (rewrite length_app; lia). cbn [obind].
  rewrite out_built by (rewrite ?length_app; cbn [length]; lia). cbn [obind]. rewrite name_built by (done || (rewrite !length_app; cbn [length]; lia)).
  destruct (canonical_name alg) as [a |]; [| done]. destruct Ha' as [Hal' _]. rewrite (proj2 (Z.leb_le _ _)) by (rewrite !length_app; cbn [length]; lia). by rewrite <- !app_assoc.
Qed.

(** The same with the check of the verifier. *)
Lemma names_checked cap buf W key_name alg kl al : bytes key_name -> bytes alg -> cap <= len buf -> wire_name_length key_name = Ret kl -> wire_name_length alg = Ret al ->
  len W + kl + 6 + al <= cap ->
  (let! s := out_lower_name cap key_name (built buf 0 W) in
   fail_if cap <? snd s + 6 ;; let! s := out_size [0; 255; 0; 0; 0; 0] s in out_lower_name cap alg s) =
  match digest_names key_name alg with Some names => Ret (built buf 0 (W ++ names)) | None => Fail end.
Proof.
  intros Hk Ha Hc Ek Ea Hl. rewrite <- (names_built cap buf W key_name alg kl al) by done. unfold out_tsig_names.
  destruct (wire_length key_name Hk) as [[E _] | (kl' & E & Hkl & Hk')]; [congruence |]. assert (kl' = kl) as -> by congruence.
  destruct (wire_length alg Ha) as [[E' _] | (al' & E' & Hal & _)]; [congruence |]. assert (al' = al) as -> by congruence.
  rewrite name_built by (done || lia). destruct (canonical_name key_name) as [k |]; [| done]. destruct Hk' as [Hkl' _]. case_if; [| done]. cbn [obind]. unfold built at 1. cbn [snd].
  by rewrite (proj2 (Z.ltb_ge _ _)) by (rewrite length_app; lia).
Qed.

Lemma patch_built buf W m i x : 0 <= i -> i + len x <= len m -> len (W ++ m) <= len buf ->
  wr_list (splice buf 0 (W ++ m)) (len W + i) x = Ret (splice buf 0 (W ++ splice m i x)).
Proof.
  intros Hi Hx Hl. rewrite wr_list_splice by (rewrite ?length_splice; rewrite ?length_app in *; lia). f_equal. set (n := Z.to_nat i).
  set (X := take (length x) (drop n m)). set (B := drop (n + length x) m).
  assert (m = take n m ++ X ++ B) as Em by (unfold X, B; by rewrite <- drop_drop, !take_drop).
  assert (length X = length x) as HX by (unfold X; rewrite length_take, length_drop; lia).
  transitivity (splice (splice buf 0 ((W ++ take n m) ++ X ++ B)) (0 + len (W ++ take n m)) x).
  - rewrite <- app_assoc, <- Em. f_equal. rewrite length_app, length_take. lia.
  - rewrite splice_patch; [by rewrite <- app_assoc | lia | by rewrite <- app_assoc, <- Em | done].
Qed.

Lemma len_prior prior : len (prior_octets prior) = if 0 <? len prior then len prior + 2 else 0.
Proof. unfold prior_octets. case_if; [| done]. rewrite length_app. cbn [length w16]. lia. Qed.

(** ** Lemmas: the octets that are authenticated *)

Lemma names_length key_name alg kl al names : bytes key_name -> bytes alg -> wire_name_length key_name = Ret kl -> wire_name_length alg = Ret al ->
  digest_names key_name alg = Some names -> len names = kl + 6 + al.
Proof.
  intros Hk Ha Ek Ea. destruct (wire_length key_name Hk) as [[E _] | (kl' & E & Hkl & Hk')]; [congruence |]. assert (kl' = kl) as -> by congruence.
  destruct (wire_length alg Ha) as [[E' _] | (al' & E' & Hal & Ha')]; [congruence |]. assert (al' = al) as -> by congruence.
  unfold digest_names. destruct (canonical_name key_name) as [k |]; [| done]. destruct (canonical_name alg) as [a |]; [| done]. intros [= <-].
  destruct Hk' as [? _], Ha' as [? _]. rewrite !length_app. cbn [length]. lia.
Qed.

Definition sign_other (time2 tsig_error : Z) : list Z := if tsig_error =? 18 then w48 time2 else [].

Lemma error_fields_eq time2 e : error_fields time2 e = w16 e ++ w16 (len (sign_other time2 e)) ++ sign_other time2 e.
Proof. unfold error_fields, sign_other. by case_if. Qed.

Lemma sign_pre_mac_spec time2 packet packet_len key e prior msgs sub times kl al :
  bytes (key_name key) -> bytes (key_alg key) -> 0 <= packet_len <= len packet -> wire_name_length (key_name key) = Ret kl -> wire_name_length (key_alg key) = Ret al ->
  let d names := digest prior msgs (take (Z.to_nat packet_len) packet) names (w48 (fst times) ++ w16 (snd times)) e (sign_other time2 e) sub in
  sign_pre_mac time2 packet packet_len key e prior msgs sub times kl al =
  if sub then Ret (d []) else match digest_names (key_name key) (key_alg key) with Some names => Ret (d names) | None => Fail end.
Proof.
  intros Hk Ha Hp Ek Ea d. unfold sign_pre_mac. rewrite <- len_prior. destruct (wire_length _ Hk) as [[E _] | (kl' & E & Hkl & _)]; [congruence |]. assert (kl' = kl) as -> by congruence.
  destruct (wire_length _ Ha) as [[E' _] | (al' & E' & Hal & _)]; [congruence |]. assert (al' = al) as -> by congruence. clear E E'.
  assert (len (sign_other time2 e) = if e =? 18 then 6 else 0) as Ho by (unfold sign_other; by case_if). rewrite <- Ho.
  set (cap := packet_len + _ + _ + _ + _ + _ + _ + _ + _). set (buf := replicate (Z.to_nat cap) 0). assert (len buf = cap) as Hbuf by (unfold buf; rewrite length_replicate; lia).
  cbv zeta. fold buf. rewrite (built_nil buf 0). rewrite prior_built by (cbn [app]; lia). cbn [obind app]. rewrite out_built by (rewrite ?length_app; lia). cbn [obind].
  rewrite slice_in by lia. change (Z.to_nat 0) with 0%nat. rewrite drop_0. cbn [obind]. set (m := take (Z.to_nat packet_len) packet) in *. assert (len m = packet_len) as Hm by (unfold m; rewrite length_take; lia).
  rewrite out_built by (rewrite ?length_app; lia). cbn [obind]. rewrite error_fields_eq. unfold d, digest. destruct sub; cbn [obind].
  - rewrite out_built by (rewrite ?length_app; cbn [length w48 w16]; lia). cbn [obind]. rewrite slice_built by (rewrite ?length_app; cbn [length w48 w16]; lia). by rewrite <- !app_assoc.
  - rewrite (names_built cap buf _ _ _ kl al) by (done || lia || (rewrite ?length_app; lia)). destruct (digest_names (key_name key) (key_alg key)) as [names |] eqn:En; [| done].
    pose proof (names_length _ _ _ _ _ Hk Ha Ek Ea En) as Hn. cbn [obind]. rewrite out_built by (rewrite ?length_app; cbn [length w48 w16]; lia). cbn [obind].
    rewrite out_built by (rewrite ?length_app; cbn [length w48 w16]; lia). cbn [obind]. rewrite slice_built by (rewrite ?length_app; cbn [length w48 w16]; lia). by rewrite <- !app_assoc.
Qed.

(** The message that was signed: without the TSIG record, with the original
    ID. *)
Definition signed_message (packet : list Z) (offset id arcount : Z) : list Z :=
  splice (splice (take (Z.to_nat offset) packet) 0 (w16 id)) 10 (w16 (u16 (arcount - 1))).

Lemma verify_pre_mac_spec packet key rr prior msgs sub arcount al timers :
  bytes (key_name key) -> bytes (rr_alg_name rr) -> DNS_HEADER_SIZE <= rr_offset rr <= len packet -> rd16 packet 10 = Ret arcount ->
  wire_name_length (rr_alg_name rr) = Ret al -> slice packet (timers_offset rr) 8 = Ret timers -> len (other rr) = other_len rr ->
  let d names := digest prior msgs (signed_message packet (rr_offset rr) (orig_id rr) arcount) names timers (rr_error rr) (other rr) sub in
  verify_pre_mac packet key rr prior msgs sub =
  match wire_name_length (key_name key) with
  | Ret _ => if sub then Ret (d []) else match digest_names (key_name key) (rr_alg_name rr) with Some names => Ret (d names) | None => Fail end
  | _ => Fail
  end.
Proof.
  intros Hk Ha Ho Er Ea Ht Hol d. unfold verify_pre_mac. rewrite Er. cbn [obind]. rewrite Ea. rewrite <- len_prior. destruct (wire_length _ Hk) as [[-> _] | (kl & Ek & Hkl & _)]; [done |]. rewrite Ek. cbn [obind].
  destruct (wire_length _ Ha) as [[E' _] | (al' & E' & Hal & _)]; [congruence |]. assert (al' = al) as -> by congruence. clear E'.
  unfold DNS_HEADER_SIZE in Ho. rewrite <- Hol. set (cap := len (prior_octets prior) + _ + _ + _ + _ + _ + _ + _ + _). set (buf := replicate (Z.to_nat cap) 0). assert (len buf = cap) as Hbuf by (unfold buf; rewrite length_replicate; lia).
  rewrite (built_nil buf 0). rewrite prior_built by (cbn [app]; lia). cbn [obind app]. rewrite out_built by (rewrite ?length_app; lia). cbn [obind].
  rewrite slice_in by lia. change (Z.to_nat 0) with 0%nat. rewrite drop_0. cbn [obind]. set (m := take (Z.to_nat (rr_offset rr)) packet) in *. assert (len m = rr_offset rr) as Hm by (unfold m; rewrite length_take; lia).
  rewrite out_built by (rewrite ?length_app; lia). cbn [obind]. set (W := prior_octets prior ++ msgs). unfold built at 1. cbn [fst].
  assert (snd (built buf 0 W) = len W + 0) as -> by (unfold built; cbn [snd]; lia). assert (len W = len (prior_octets prior) + len msgs) as HW by (unfold W; rewrite length_app; lia).
  rewrite patch_built by (rewrite ?length_app; cbn [length w16]; lia). cbn [obind]. rewrite Z.add_0_r.
  assert (len (splice m 0 (w16 (orig_id rr))) = rr_offset rr) as Hm1 by (rewrite length_splice; cbn [length w16]; lia).
  rewrite patch_built by (rewrite ?length_app; cbn [length w16]; lia). cbn [obind]. unfold d. fold (signed_message packet (rr_offset rr) (orig_id rr) arcount).
  change (splice (splice m 0 (w16 (orig_id rr))) 10 (w16 (u16 (arcount - 1)))) with (signed_message packet (rr_offset rr) (orig_id rr) arcount).
  set (M := signed_message packet (rr_offset rr) (orig_id rr) arcount).
  assert (len M = rr_offset rr) as HM by (unfold M, signed_message; fold m; rewrite length_splice; cbn [length w16]; lia).
  assert ((splice buf 0 (W ++ M), snd (built buf 0 (W ++ m))) = built buf 0 (W ++ M)) as -> by (unfold built; cbn [snd]; f_equal; rewrite !length_app; lia).
  pose proof (slice_len packet _ _ _ _ Ht) as Hlt. unfold digest. fold W M. destruct sub; cbn [obind].
  - unfold built at 1. cbn [snd]. rewrite (proj2 (Z.ltb_ge _ _)) by (rewrite ?length_app; lia). rewrite Ht. cbn [obind].
    rewrite out_built by (rewrite ?length_app; lia). cbn [obind]. rewrite slice_built by (rewrite ?length_app; lia). unfold W. by rewrite <- !app_assoc.
  - rewrite (names_checked cap buf _ _ _ kl al) by (done || lia || (rewrite ?length_app; lia)). destruct (digest_names (key_name key) (rr_alg_name rr)) as [names |] eqn:En; [| done].
    pose proof (names_length _ _ _ _ _ Hk Ha Ek Ea En) as Hn. cbn [obind]. unfold built at 1. cbn [snd]. rewrite (proj2 (Z.ltb_ge _ _)) by (rewrite ?length_app; lia). rewrite Ht. cbn [obind].
    rewrite out_built by (rewrite ?length_app; lia). cbn [obind]. rewrite out_built by (rewrite ?length_app; cbn [length w16]; lia). cbn [obind].
    rewrite out_built by (rewrite ?length_app; cbn [length w16]; lia). cbn [obind]. rewrite slice_built by (rewrite ?length_app; cbn [length w16]; lia). unfold W. by rewrite <- !app_assoc.
Qed.

(** ** Lemmas: reading the record *)

Section Extract.
Variables (packet : list Z) (packet_len : Z).
Hypothesis Hbytes : bytes packet.
Hypothesis Hlen : packet_len <= len packet.

Lemma wire_snoc pre l : len (wire_labels (pre ++ [l])) = len (wire_labels pre) + (1 + len l).
Proof. rewrite wire_labels_app, length_app. change (wire_labels [l]) with (len l :: l ++ []). rewrite app_nil_r. len_lia. Qed.

Lemma slice_one p c : rd packet p = Ret c -> slice packet p 1 = Ret [c].
Proof.
  intros Hr. pose proof (rd_lt _ _ _ Hr). apply rd_Ret in Hr as [Hp Hc]. rewrite slice_in by lia. apply drop_S in Hc. by rewrite Hc.
Qed.

(** One label, after the labels [pre]. *)
Lemma extract_step fuel p c pre : p < packet_len -> rd packet p = Ret c -> isbyte c -> len (wire_labels pre) <= 255 ->
  extract_from (S fuel) packet packet_len p DNS_NAME_TEXT_SIZE (dotted pre) (len (wire_labels pre)) =
  if negb (Z.land c 192 =? 0) || (255 <? len (wire_labels pre) + (1 + c)) then Fail
  else if c =? 0 then Ret (expanded pre ++ [0], p + 1)
  else if packet_len <? p + 1 + c then Fail
  else let! l := slice packet (p + 1) c in extract_from fuel packet packet_len (p + 1 + c) DNS_NAME_TEXT_SIZE (dotted (pre ++ [l])) (len (wire_labels (pre ++ [l]))).
Proof.
  intros Hp Hr Hc Hpre. cbn [extract_from]. rewrite (proj2 (Z.leb_gt _ _)) by done. rewrite Hr. cbn [obind]. destruct (negb (Z.land c 192 =? 0)); [done |]. cbn [orb].
  destruct (Z.ltb_spec 255 (len (wire_labels pre) + (1 + c))) as [| H255]; [done |]. pose proof (length_dotted [] pre) as Hd. unfold DNS_NAME_TEXT_SIZE, isbyte in *.
  destruct (Z.eqb_spec c 0) as [-> | H0].
  - unfold expanded. destruct pre as [| l0 pre].
    + change (dotted []) with (@nil Z). cbn [length Nat.eqb]. done.
    + assert (dotted (l0 :: pre) <> []) as Hne by (unfold dotted; cbn; by destruct (label_text l0)).
      destruct (Nat.eqb_spec (length (dotted (l0 :: pre))) 0) as [En | En]; [by apply nil_length_inv in En |].
      cbn [obind]. rewrite (proj2 (Z.leb_gt _ _)) by lia. by rewrite put_in by lia.
  - rewrite (proj2 (Z.leb_gt 1025 _)) by lia. rewrite orb_false_r. destruct (Z.ltb_spec packet_len (p + 1 + c)) as [| Hfit]; [done |].
    assert (0 <= p) as Hp0 by (apply rd_Ret in Hr; tauto). destruct (Edns.slice_ok packet (p + 1) c Hbytes) as (l & El & _ & Hl); [lia | lia | lia |]. rewrite El. cbn [obind].
    pose proof (length_label_text l). rewrite dns_label_to_text_spec by lia. rewrite (proj2 (Z.leb_le _ _)) by lia. cbn [obind]. rewrite put_list_in by lia. cbn [obind].
    rewrite put_in by (rewrite length_app; lia). cbn [obind]. rewrite wire_snoc, Hl.
    assert ((dotted pre ++ label_text l) ++ [DOT] = dotted (pre ++ [l])) as -> by (rewrite dotted_app, <- app_assoc; unfold dotted; cbn; by rewrite app_nil_r). done.
Qed.

(** The name in full at [p], up to [q]. *)
Definition full_at (p : Z) (ls : list (list Z)) (q : Z) : Prop :=
  Forall label_wf ls /\ len (wire_name ls) <= 255 /\ slice packet p (len (wire_name ls)) = Ret (wire_name ls) /\ q = p + len (wire_name ls) /\ q <= packet_len.

Lemma extract_sound fuel : forall p pre, 0 <= p -> len (wire_labels pre) <= 255 -> 256 <= 2 * Z.of_nat fuel + len (wire_labels pre) ->
  ensures (extract_from fuel packet packet_len p DNS_NAME_TEXT_SIZE (dotted pre) (len (wire_labels pre)))
    (fun '(t, q) => exists ls, full_at p ls q /\ len (wire_labels pre) + len (wire_name ls) <= 255 /\ t = expanded (pre ++ ls) ++ [0]).
Proof.
  induction fuel as [| fuel IH]; intros p pre Hp Hpre Hf; [lia |]. destruct (Z.le_gt_cases packet_len p) as [Hge | Hlt].
  { cbn [extract_from]. rewrite (proj2 (Z.leb_le _ _)) by done. apply ensures_fail. }
  destruct (Edns.rd_range packet p Hbytes) as (c & Hr & Hc); [lia |]. rewrite (extract_step fuel p c pre) by done.
  destruct (Z.eqb_spec (Z.land c 192) 0) as [Hland | _]; [| apply ensures_fail]. cbn [negb orb]. apply octet_label in Hland; [| done].
  destruct (Z.ltb_spec 255 (len (wire_labels pre) + (1 + c))); [apply ensures_fail |]. destruct (Z.eqb_spec c 0) as [-> | H0].
  - apply ensures_ret. exists []. split; [| split; [cbn; lia | by rewrite app_nil_r]]. split; [constructor |]. split; [cbn; lia |]. split; [| cbn; lia].
    by apply slice_one.
  - destruct (Z.ltb_spec packet_len (p + 1 + c)) as [| Hfit]; [apply ensures_fail |]. unfold isbyte in Hc. destruct (Edns.slice_ok packet (p + 1) c Hbytes) as (l & El & Hbl & Hl); [lia | lia | lia |].
    rewrite El. cbn [obind]. eapply ensures_impl; [| apply IH; [lia | rewrite wire_snoc; lia | rewrite wire_snoc; lia]].
    intros [t q] (ls & (Hwf & H255 & Hs & -> & Hq) & Hsum & ->). rewrite wire_snoc in Hsum. exists (l :: ls).
    assert (wire_name (l :: ls) = [len l] ++ l ++ wire_name ls) as Ew by (unfold wire_name; rewrite wire_labels_cons; cbn [app]; by rewrite <- app_assoc).
    assert (len (wire_name (l :: ls)) = 1 + len l + len (wire_name ls)) as Elen by (rewrite Ew, !length_app; cbn [length]; lia).
    split; [| split; [lia | by rewrite <- app_assoc]]. split; [constructor; [split; [done | lia] | done] |]. split; [lia |]. split; [| lia]. rewrite Ew.
    apply slice_join; [apply slice_one; by rewrite Hl |]. cbn [length]. change (Z.of_nat 1) with 1. apply slice_join; [by rewrite Hl |]. by rewrite Hl.
Qed.

Lemma extract_complete fuel : forall p pre ls q, 0 <= p -> len (wire_labels pre) + len (wire_name ls) <= 255 -> full_at p ls q -> (length ls < fuel)%nat ->
  extract_from fuel packet packet_len p DNS_NAME_TEXT_SIZE (dotted pre) (len (wire_labels pre)) = Ret (expanded (pre ++ ls) ++ [0], q).
Proof.
  induction fuel as [| fuel IH]; intros p pre ls q Hp Hsum (Hwf & H255 & Hs & -> & Hq) Hf; [lia |]. destruct ls as [| l ls].
  - change (wire_name []) with [0] in *. change (len [0]) with 1 in *. pose proof (slice_rd_list packet p [0] 0 0 Hs eq_refl) as Hr. change (Z.of_nat 0) with 0 in Hr. rewrite Z.add_0_r in Hr.
    rewrite (extract_step fuel p 0 pre); [| lia | done | done | lia]. cbn [Z.land Z.eqb negb orb]. rewrite (proj2 (Z.ltb_ge _ _)) by lia. by rewrite app_nil_r.
  - assert (wire_name (l :: ls) = [len l] ++ l ++ wire_name ls) as Ew by (unfold wire_name; rewrite wire_labels_cons; cbn [app]; by rewrite <- app_assoc).
    assert (len (wire_name (l :: ls)) = 1 + len l + len (wire_name ls)) as Elen by (rewrite Ew, !length_app; cbn [length]; lia).
    apply Forall_cons_1 in Hwf as [[Hbl Hl] Hwf]. rewrite Ew in Hs. apply slice_head in Hs as [Hs0 Hs]. apply slice_head in Hs as [Hs1 Hs2]. cbn [length] in Hs1, Hs2. change (Z.of_nat 1) with 1 in *.
    pose proof (slice_rd_list packet p [len l] 0 _ Hs0 eq_refl) as Hr. change (Z.of_nat 0) with 0 in Hr. rewrite Z.add_0_r in Hr.
    rewrite (extract_step fuel p (len l) pre); [| lia | done | unfold isbyte; lia | lia].
    rewrite (proj2 (octet_label (len l) ltac:(unfold isbyte; lia))) by lia. cbn [Z.eqb negb orb]. rewrite (proj2 (Z.ltb_ge 255 _)) by lia. rewrite (proj2 (Z.eqb_neq _ _)) by lia.
    rewrite (proj2 (Z.ltb_ge packet_len _)) by lia. rewrite Hs1. cbn [obind]. rewrite (IH _ (pre ++ [l]) ls (p + 1 + len l + len (wire_name ls))); [| lia | rewrite wire_snoc; lia | | cbn [length] in Hf; lia].
    + rewrite <- app_assoc. do 2 f_equal. lia.
    + split; [done |]. split; [lia |]. split; [done |]. split; [done | lia].
Qed.

Lemma extract_spec p : 0 <= p ->
  ensures (extract_wire_name_to_buffer packet packet_len p DNS_NAME_TEXT_SIZE) (fun '(t, q) => exists ls, full_at p ls q /\ t = expanded ls ++ [0]) /\
  forall ls q, full_at p ls q -> extract_wire_name_to_buffer packet packet_len p DNS_NAME_TEXT_SIZE = Ret (expanded ls ++ [0], q).
Proof.
  intros Hp. unfold extract_wire_name_to_buffer. change (extract_from 129 packet packet_len p DNS_NAME_TEXT_SIZE [] 0) with (extract_from 129 packet packet_len p DNS_NAME_TEXT_SIZE (dotted []) (len (wire_labels []))). split.
  - eapply ensures_impl; [| apply extract_sound; [done | cbn; lia | cbn; lia]]. intros [t q] (ls & Hf & _ & ->). by exists ls.
  - intros ls q Hf. rewrite (extract_complete 129 p [] ls q); [done | done | cbn; apply Hf | done |]. destruct Hf as (Hwf & H255 & _). pose proof (wf_length ls Hwf H255). lia.
Qed.

End Extract.

(** ** Lemmas: finding the record *)

Section Read.
Variables (packet : list Z) (packet_len : Z).
Hypothesis Hbytes : bytes packet.
Hypothesis Hlen : packet_len <= len packet.

(** Questions and records that follow each other. *)
Inductive questions : nat -> Z -> Z -> Prop :=
| questions_nil o : questions 0 o o
| questions_cons n o r e : name_end packet o r -> r + 4 <= packet_len -> questions n (r + 4) e -> questions (S n) o e.

Inductive records : Z -> list (Z * Z) -> Z -> Prop :=
| records_nil o : records o [] o
| records_cons o r type rdlen l e :
    name_end packet o r -> rd16 packet r = Ret type -> rd16 packet (r + 8) = Ret rdlen -> r + 10 + rdlen <= packet_len ->
    records (r + 10 + rdlen) l e -> records o ((o, type) :: l) e.

Lemma name_end_after p q : 0 <= p -> name_end packet p q -> p < q.
Proof. intros Hp He. induction He as [p Hr | p l q Hr Hl He IH | p raw Hr Ht]; [lia | | lia]. specialize (IH ltac:(lia)). lia. Qed.

Lemma skip_inplace_sound fuel : forall p, 0 <= p -> (Z.to_nat (packet_len - p) < fuel)%nat ->
  ensures (skip_inplace fuel packet packet_len p) (fun q => name_end packet p q /\ q <= packet_len).
Proof.
  induction fuel as [| fuel IH]; intros p Hp Hf; [lia |]. cbn [skip_inplace]. destruct (Z.leb_spec packet_len p); [apply ensures_fail |].
  destruct (Edns.rd_range packet p Hbytes) as (c & Hr & Hc); [lia |]. rewrite Hr. cbn [obind]. destruct (Z.eqb_spec (Z.land c 192) 192) as [E | _].
  - case_if; [apply ensures_fail |]. cmp_prop. apply ensures_ret. split; [by eapply end_pointer | lia].
  - destruct (Z.eqb_spec (Z.land c 192) 0) as [E | _]; [| apply ensures_fail]. apply octet_label in E; [| done]. rewrite (proj2 (Z.ltb_ge 63 c)) by lia. unfold isbyte in Hc.
    destruct (Z.eqb_spec c 0) as [-> | Hz]; [apply ensures_ret; split; [by apply end_root | lia] |].
    eapply ensures_impl; [| apply IH; lia]. intros q [He Hq]. split; [| done]. by eapply end_label; [| | exact He]; [done | lia].
Qed.

Lemma skip_inplace_complete p q : name_end packet p q -> q <= packet_len -> forall fuel, 0 <= p -> (Z.to_nat (packet_len - p) < fuel)%nat -> skip_inplace fuel packet packet_len p = Ret q.
Proof.
  intros He Hq. induction He as [p Hr | p l q Hr Hl He IH | p raw Hr Ht]; intros fuel Hp Hf; (destruct fuel as [| fuel]; [lia |]); cbn [skip_inplace].
  - rewrite (proj2 (Z.leb_gt _ _)) by lia. rewrite Hr. done.
  - pose proof (name_end_after (p + 1 + l) q ltac:(lia) He). rewrite (proj2 (Z.leb_gt _ _)) by lia. rewrite Hr. cbn [obind].
    rewrite (proj2 (octet_label l ltac:(unfold isbyte; lia))) by lia. cbn [Z.eqb]. rewrite (proj2 (Z.ltb_ge 63 l)) by lia. rewrite (proj2 (Z.eqb_neq l 0)) by lia. apply IH; lia.
  - rewrite (proj2 (Z.leb_gt _ _)) by lia. rewrite Hr. cbn [obind]. rewrite Ht. cbn [Z.eqb Pos.eqb]. rewrite (proj2 (Z.ltb_ge _ _)) by lia. done.
Qed.

Lemma skip_name_spec p : 0 <= p ->
  ensures (skip_name_inplace packet packet_len p) (fun q => name_end packet p q /\ q <= packet_len) /\
  forall q, name_end packet p q -> q <= packet_len -> skip_name_inplace packet packet_len p = Ret q.
Proof.
  intros Hp. unfold skip_name_inplace. split; [apply skip_inplace_sound; [done | lia] |]. intros q He Hq. eapply skip_inplace_complete; [done | done | done | lia].
Qed.

Lemma tsig_skip_questions_spec n : forall o, 0 <= o ->
  ensures (tsig_skip_questions n packet packet_len o) (questions n o) /\ forall e, questions n o e -> tsig_skip_questions n packet packet_len o = Ret e.
Proof.
  induction n as [| n IH]; intros o Ho; cbn [tsig_skip_questions].
  { split; [apply ensures_ret; constructor |]. intros e He. by inversion He. }
  destruct (skip_name_spec o Ho) as [Hs Hc]. split.
  - eapply ensures_bind; [exact Hs |]. intros r [He Hr]. case_if; [apply ensures_fail |]. cmp_prop. pose proof (name_end_after o r Ho He).
    eapply ensures_impl; [| apply IH; lia]. intros e Hq. by eapply questions_cons.
  - intros e He. inversion He as [| ? ? r ? Hn Hf Hq]; subst. pose proof (name_end_after o r Ho Hn). rewrite (Hc r) by (done || lia). cbn [obind]. rewrite (proj2 (Z.ltb_ge _ _)) by lia. apply IH; [lia | done].
Qed.

(** The TSIG records among those that are walked over. *)
Fixpoint tally (total additional i : Z) (l : list (Z * Z)) (a : Z * Z * bool) : Z * Z * bool :=
  match l with
  | [] => a
  | (o, type) :: l' =>
      tally total additional (i + 1) l' (if type =? 250 then (o, snd (fst a) + 1, (i =? total - 1) && (additional <=? i)) else a)
  end.

Lemma rd16_word i v : rd16 packet i = Ret v -> 0 <= i /\ i + 2 <= len packet /\ 0 <= v < 65536.
Proof.
  intros E. unfold rd16 in E. bind_inv E. bind_inv E. pose proof (rd_lt _ _ _ Ha). pose proof (rd_lt _ _ _ Ha0).
  destruct (Edns.rd16_range packet i Hbytes) as (v' & E' & Hv); [lia | lia |]. unfold rd16 in E'. rewrite Ha, Ha0 in E'. cbn [obind] in E, E'. split; [lia |]. split; [lia |].
  assert (v' = v) as -> by congruence. exact Hv.
Qed.

Lemma scan_sound total additional n : forall i o rr count last, 0 <= o ->
  exists r, scan_rrs n packet packet_len i total additional o rr count last = Ret r /\ (forall t, r <> Stop (Tsig t)) /\
    forall e rr' count' last', r = Scanned e rr' count' last' -> exists l, records o l e /\ length l = n /\ tally total additional i l (rr, count, last) = (rr', count', last').
Proof.
  induction n as [| n IH]; intros i o rr count last Ho; cbn [scan_rrs].
  { eexists. split; [done |]. split; [done |]. intros e rr' count' last' [= -> -> -> ->]. exists []. by split; [constructor |]. }
  assert (forall x : tsig_parse, (forall t, x <> Tsig t) -> exists r, Ret (Stop x) = Ret r /\ (forall t, r <> Stop (Tsig t)) /\
    forall e rr' count' last', r = Scanned e rr' count' last' -> exists l, records o l e /\ length l = S n /\ tally total additional i l (rr, count, last) = (rr', count', last')) as Hstop.
  { intros x Hx. exists (Stop x). split; [done |]. split; [intros t [= ->]; by apply (Hx t) | done]. }
  destruct (skip_name_spec o Ho) as [[-> | (r & -> & He & Hr)] _]; cbn [orelse]; [apply Hstop; by case_if |]. pose proof (name_end_after o r Ho He).
  case_if; [apply Hstop; by case_if |]. cmp_prop. destruct (Edns.rd16_range packet r Hbytes) as (type & E16 & Hty); [lia | lia |]. destruct (Edns.rd16_range packet (r + 8) Hbytes) as (rdlen & Erd & Hrd); [lia | lia |].
  rewrite E16, Erd. cbn [obind]. case_if; [apply Hstop; by case_if |]. cmp_prop. unfold Edns.u16_range in *. destruct (Z.eqb_spec type 250) as [-> | Hne].
  - destruct (IH (i + 1) (r + 10 + rdlen) o (count + 1) ((i =? total - 1) && (additional <=? i)) ltac:(lia)) as (x & Ex & Hx & Hl). exists x. split; [done |]. split; [done |].
    intros e rr' count' last' ->. destruct (Hl e rr' count' last' eq_refl) as (l & Hrec & Hlen' & Ht). exists ((o, 250) :: l). split; [by eapply records_cons |]. split; [cbn; lia | exact Ht].
  - destruct (IH (i + 1) (r + 10 + rdlen) rr count last ltac:(lia)) as (x & Ex & Hx & Hl). exists x. split; [done |]. split; [done |].
    intros e rr' count' last' ->. destruct (Hl e rr' count' last' eq_refl) as (l & Hrec & Hlen' & Ht). exists ((o, type) :: l). split; [by eapply records_cons |]. split; [cbn; lia |].
    cbn [tally]. by rewrite (proj2 (Z.eqb_neq _ _)).
Qed.

Lemma scan_complete total additional o l e : records o l e -> 0 <= o -> forall i rr count last,
  scan_rrs (length l) packet packet_len i total additional o rr count last = let '(rr', count', last') := tally total additional i l (rr, count, last) in Ret (Scanned e rr' count' last').
Proof.
  induction 1 as [o | o r type rdlen l e He H16 Hrd Hf Hrec IH]; intros Ho i rr count last; [done |]. pose proof (name_end_after o r Ho He). pose proof (rd16_word _ _ Hrd).
  cbn [length scan_rrs tally]. rewrite (proj2 (skip_name_spec o Ho) r) by (done || lia). cbn [orelse]. rewrite (proj2 (Z.ltb_ge _ _)) by lia. rewrite H16, Hrd. cbn [obind].
  rewrite (proj2 (Z.ltb_ge _ _)) by lia. destruct (type =? 250); apply IH; lia.
Qed.

Lemma tally_app total additional l1 : forall i l2 a, tally total additional i (l1 ++ l2) a = tally total additional (i + len l1) l2 (tally total additional i l1 a).
Proof.
  induction l1 as [| [o type] l1 IH]; intros i l2 a; cbn [app tally length]; [f_equal; lia |]. rewrite IH. f_equal. lia.
Qed.

Lemma tally_none total additional l : forall i a, Forall (fun x => snd x <> 250) l -> tally total additional i l a = a.
Proof. induction l as [| [o type] l IH]; intros i a Hl; [done |]. apply Forall_cons_1 in Hl as [Hn Hl]. cbn [tally]. cbn [snd] in Hn. rewrite (proj2 (Z.eqb_neq _ _)) by done. by apply IH. Qed.

Lemma tally_count total additional l : forall i a, snd (fst a) <= snd (fst (tally total additional i l a)) /\
  (snd (fst (tally total additional i l a)) = snd (fst a) -> Forall (fun x => snd x <> 250) l).
Proof.
  induction l as [| [o type] l IH]; intros i a; cbn [tally]; [split; [lia | constructor] |]. destruct (Z.eqb_spec type 250) as [-> | Hne].
  - destruct (IH (i + 1) (o, snd (fst a) + 1, (i =? total - 1) && (additional <=? i))) as [H1 _]. cbn [fst snd] in H1. split; [lia |]. lia.
  - destruct (IH (i + 1) a) as [H1 H2]. split; [done |]. intros E. constructor; [done | by apply H2].
Qed.

Lemma tally_last total additional l : forall i a, i + len l <= total - 1 -> snd a = false -> snd (tally total additional i l a) = false.
Proof.
  induction l as [| [o type] l IH]; intros i a Hi Ha; cbn [tally]; [done |]. cbn [length] in Hi. apply IH; [lia |]. case_if; [| done]. cbn [snd]. by rewrite (proj2 (Z.eqb_neq _ _)) by lia.
Qed.

(** The only TSIG record is the last of the records. *)
Lemma tally_one total additional l rr : len l = total -> tally total additional 0 l (0, 0, false) = (rr, 1, true) ->
  exists l', l = l' ++ [(rr, 250)] /\ Forall (fun x => snd x <> 250) l' /\ additional <= len l'.
Proof.
  intros Hl Ht. destruct l as [| [o type] l0 _] using rev_ind; [done |]. rewrite tally_app in Ht. cbn [tally] in Ht. rewrite length_app in Hl. cbn [length] in Hl.
  pose proof (tally_last total additional l0 0 (0, 0, false) ltac:(lia) eq_refl) as Hlast. destruct (tally_count total additional l0 0 (0, 0, false)) as [_ Hnone].
  destruct (tally total additional 0 l0 (0, 0, false)) as [[a c] b]. cbn [fst snd] in *. destruct (Z.eqb_spec type 250) as [-> | Hne]; [| congruence].
  injection Ht as -> Hc Hb. apply andb_true_iff in Hb as [_ Hb]. exists l0. split; [done |]. split; [apply Hnone; lia | lia].
Qed.

(** ** Lemmas: the fields of the record *)

(** The RDATA behind the algorithm name. *)
Definition tsig_fields (rr : tsig_rr_t) : list Z :=
  w48 (time_signed rr) ++ w16 (fudge rr) ++ w16 (mac_size rr) ++ mac rr ++ w16 (orig_id rr) ++ w16 (rr_error rr) ++ w16 (other_len rr) ++ other rr.

Definition tsig_wf (rr : tsig_rr_t) : Prop :=
  0 <= time_signed rr < 2 ^ 48 /\ 0 <= fudge rr < 65536 /\ 0 <= mac_size rr < 65536 /\ len (mac rr) = mac_size rr /\ 0 <= orig_id rr < 65536 /\
  0 <= rr_error rr < 65536 /\ 0 <= other_len rr < 65536 /\ len (other rr) = other_len rr.

(** A TSIG record: its name ends at [r], its RDATA at [e]. *)
Definition tsig_at (rr : tsig_rr_t) (r e : Z) (kls als : list (list Z)) : Prop :=
  (exists n, decodes packet packet_len n (rr_offset rr) kls) /\ len (wire_name kls) <= 255 /\ name_end packet (rr_offset rr) r /\ rr_key_name rr = expanded kls /\
  rd16 packet (r + 2) = Ret 255 /\ rd16 packet (r + 8) = Ret (e - r - 10) /\
  full_at packet e (r + 10) als (timers_offset rr) /\ rr_alg_name rr = expanded als /\
  slice packet (timers_offset rr) (len (tsig_fields rr)) = Ret (tsig_fields rr) /\ timers_offset rr + len (tsig_fields rr) <= e /\ tsig_wf rr.

Lemma shl_or a b n : 0 <= n -> 0 <= b < 2 ^ n -> Z.lor (Z.shiftl a n) b = a * 2 ^ n + b.
Proof. intros Hn Hb. rewrite Z.lor_comm, lor_shiftl_add by done. lia. Qed.

Lemma or_octets a b c d : isbyte a -> isbyte b -> isbyte c -> isbyte d ->
  Z.lor (Z.lor (Z.lor (Z.shiftl a 24) (Z.shiftl b 16)) (Z.shiftl c 8)) d = a * 2 ^ 24 + b * 2 ^ 16 + c * 2 ^ 8 + d.
Proof.
  unfold isbyte. intros Ha Hb Hc Hd. rewrite (Z.shiftl_mul_pow2 b), (shl_or a _ 24) by lia. replace (a * 2 ^ 24 + b * 2 ^ 16) with ((a * 2 ^ 8 + b) * 2 ^ 16) by lia.
  rewrite <- (Z.shiftl_mul_pow2 _ 16) by lia. rewrite (Z.shiftl_mul_pow2 c), (shl_or _ _ 16) by lia.
  replace ((a * 2 ^ 8 + b) * 2 ^ 16 + c * 2 ^ 8) with (((a * 2 ^ 8 + b) * 2 ^ 8 + c) * 2 ^ 8) by lia. rewrite <- (Z.shiftl_mul_pow2 (_ + c)) by lia. rewrite shl_or, ?Z.shiftl_mul_pow2 by lia. lia.
Qed.

Lemma w16_rd i v : rd16 packet i = Ret v -> slice packet i 2 = Ret (w16 v).
Proof.
  intros E. pose proof (rd16_word _ _ E) as (Hi & Hl & Hv). unfold rd16 in E. bind_inv E. bind_inv E. injection E as <-.
  pose proof (rd_byte _ _ _ Hbytes Ha) as H1. pose proof (rd_byte _ _ _ Hbytes Ha0) as H2. unfold isbyte in *. rewrite shl_or in * by lia. unfold w16.
  assert (u8 (Z.shiftr (a * 2 ^ 8 + a0) 8) = a) as -> by (unfold u8; rewrite Z.shiftr_div_pow2 by lia; Z.to_euclidean_division_equations; lia).
  assert (u8 (a * 2 ^ 8 + a0) = a0) as -> by (unfold u8; Z.to_euclidean_division_equations; lia).
  change [a; a0] with ([a] ++ [a0]). change 2 with (len ([a] ++ [a0])). apply slice_join; by apply slice_one.
Qed.

Lemma octet_above a b k : 0 <= k -> 0 <= b < 2 ^ 32 -> (a * 2 ^ 32 + b) / 2 ^ (32 + k) = a / 2 ^ k.
Proof. intros Hk Hb. pose proof (Z.pow_pos_nonneg 2 k). rewrite Z.pow_add_r by lia. rewrite <- Z.div_div by lia. rewrite Z.div_add_l by lia. by rewrite (Z.div_small b), Z.add_0_r by lia. Qed.

Lemma octet_below a b k : 0 <= k <= 24 -> u8 ((a * 2 ^ 32 + b) / 2 ^ k) = u8 (b / 2 ^ k).
Proof.
  intros Hk. pose proof (Z.pow_pos_nonneg 2 k). replace (a * 2 ^ 32) with (a * 2 ^ (24 - k) * 256 * 2 ^ k); [rewrite Z.div_add_l by lia; unfold u8; by rewrite Z.add_comm, Z_mod_plus_full |].
  rewrite <- !Z.mul_assoc. change 256 with (2 ^ 8). rewrite <- !Z.pow_add_r by lia. do 2 f_equal. lia.
Qed.

Lemma w48_split a b : 0 <= a < 65536 -> 0 <= b < 4294967296 -> w48 (Z.lor (Z.shiftl a 32) b) = w16 a ++ w32 b.
Proof.
  intros Ha Hb. rewrite shl_or by lia. unfold w48, w16, w32. rewrite !Z.shiftr_div_pow2 by lia.
  pose proof (octet_below a b 0 ltac:(lia)) as H0. rewrite Z.pow_0_r, !Z.div_1_r in H0. pose proof (octet_above a b 8 ltac:(lia) ltac:(lia)) as H8. change (32 + 8) with 40 in H8. rewrite H8.
  pose proof (octet_above a b 0 ltac:(lia) ltac:(lia)) as H1. rewrite Z.add_0_r, Z.pow_0_r, Z.div_1_r in H1. rewrite H1. by rewrite !octet_below, H0 by lia.
Qed.

Lemma w32_rd i v : rd32 packet i = Ret v -> slice packet i 4 = Ret (w32 v) /\ 0 <= v < 4294967296 /\ i + 4 <= len packet.
Proof.
  intros E. unfold rd32 in E. bind_inv E. bind_inv E. bind_inv E. bind_inv E. injection E as <-.
  pose proof (rd_lt _ _ _ Ha) as L0. pose proof (rd_lt _ _ _ Ha2) as L3. apply slice_one in Ha as S0. apply slice_one in Ha0 as S1. apply slice_one in Ha1 as S2. apply slice_one in Ha2 as S3.
  pose proof (rd_byte _ _ _ Hbytes Ha) as H0. pose proof (rd_byte _ _ _ Hbytes Ha0) as H1. pose proof (rd_byte _ _ _ Hbytes Ha1) as H2. pose proof (rd_byte _ _ _ Hbytes Ha2) as H3.
  rewrite or_octets by done. unfold isbyte in *.
  split; [| lia].
  assert (w32 (a * 2 ^ 24 + a0 * 2 ^ 16 + a1 * 2 ^ 8 + a2) = [a] ++ [a0] ++ [a1] ++ [a2]) as ->.
  { unfold w32, u8. rewrite !Z.shiftr_div_pow2 by lia. cbn [app]. repeat f_equal; Z.to_euclidean_division_equations; lia. }
  change 4 with (len ([a] ++ [a0] ++ [a1] ++ [a2])). do 3 (apply slice_join; [done |]; cbn [length]; change (Z.of_nat 1) with 1; rewrite <- ?Z.add_assoc; cbn [Z.add Pos.add]). done.
Qed.

Lemma join_at buf i j A B : slice buf i (len A) = Ret A -> slice buf j (len B) = Ret B -> j = i + len A -> slice buf i (len (A ++ B)) = Ret (A ++ B).
Proof. intros Ha Hb ->. by apply slice_join. Qed.

Lemma fields_joined p t0 t1 f m id er ol ot :
  rd16 packet p = Ret t0 -> rd32 packet (p + 2) = Ret t1 -> rd16 packet (p + 6) = Ret f -> rd16 packet (p + 8) = Ret (len m) -> slice packet (p + 10) (len m) = Ret m ->
  rd16 packet (p + 10 + len m) = Ret id -> rd16 packet (p + 10 + len m + 2) = Ret er -> rd16 packet (p + 10 + len m + 4) = Ret ol ->
  slice packet (p + 10 + len m + 6) (len ot) = Ret ot ->
  let F := w16 t0 ++ w32 t1 ++ w16 f ++ w16 (len m) ++ m ++ w16 id ++ w16 er ++ w16 ol ++ ot in slice packet p (len F) = Ret F.
Proof.
  intros E0 E1 Ef Em Hm Ei Er Eo Hot. apply w32_rd in E1 as [E1 _]. apply w16_rd in E0, Ef, Em, Ei, Er, Eo. cbv zeta.
  repeat (eapply join_at; [eassumption | |]). exact Hot. all: cbn [length w16 w32]; lia.
Qed.

Lemma read_sound o r rdlen : 0 <= o -> name_end packet o r -> rd16 packet (r + 8) = Ret rdlen -> r + 10 + rdlen <= packet_len ->
  ensures (read_tsig packet packet_len o) (fun rr => rr_offset rr = o /\ exists kls als, tsig_at rr r (r + 10 + rdlen) kls als).
Proof.
  intros Ho He Hrd Hfit. pose proof (name_end_after o r Ho He). pose proof (rd16_word _ _ Hrd). unfold read_tsig.
  destruct (expand_wire_name_to_buffer packet packet_len o DNS_NAME_TEXT_SIZE) as [[t q] | | |] eqn:Ee;
    [| apply ensures_fail | by destruct (expand_defined packet packet_len Hbytes Hlen o DNS_NAME_TEXT_SIZE Ho) | by destruct (expand_defined packet packet_len Hbytes Hlen o DNS_NAME_TEXT_SIZE Ho)].
  apply expand_spec in Ee as (n & kls & Hd & H255 & -> & He'); [| done..]. assert (q = r) as -> by by eapply name_end_det. cbn [obind]. rewrite (proj2 (Z.ltb_ge _ _)) by lia.
  destruct (Edns.rd16_range packet (r + 2) Hbytes) as (class & Ec & _); [lia | lia |]. rewrite Ec, Hrd. cbn [obind]. destruct (Z.eqb_spec class 255) as [-> | _]; [| apply ensures_fail]. cbn [negb].
  set (e := r + 10 + rdlen) in *. eapply ensures_bind; [apply (extract_spec packet e Hbytes); lia |]. intros [ta p] (als & Hals & ->).
  assert (0 <= p) as Hp by (destruct Hals as (_ & _ & _ & -> & _); lia). case_if; [apply ensures_fail |]. cmp_prop.
  destruct (Edns.rd16_range packet p Hbytes) as (t0 & E0 & Ht0); [lia | lia |]. destruct (Edns.rd32_range packet (p + 2) Hbytes) as (t1 & E1 & Ht1); [lia | lia |].
  destruct (Edns.rd16_range packet (p + 6) Hbytes) as (fz & Ef & Hf); [lia | lia |]. destruct (Edns.rd16_range packet (p + 8) Hbytes) as (ms & Em & Hm); [lia | lia |].
  rewrite E0, E1, Ef, Em. cbn [obind]. unfold Edns.u16_range, Edns.u32_range in *. case_if; [apply ensures_fail |]. cmp_prop.
  destruct (Edns.slice_ok packet (p + 10) ms Hbytes) as (m & Esm & Hbm & <-); [lia | lia | lia |]. rewrite Esm. cbn [obind].
  destruct (Edns.rd16_range packet (p + 10 + len m) Hbytes) as (id & Ei & Hi); [lia | lia |]. destruct (Edns.rd16_range packet (p + 10 + len m + 2) Hbytes) as (er & Er & Hr); [lia | lia |].
  destruct (Edns.rd16_range packet (p + 10 + len m + 4) Hbytes) as (ol & Eo & Hol); [lia | lia |]. rewrite Ei, Er, Eo. cbn [obind]. unfold Edns.u16_range in *. case_if; [apply ensures_fail |]. cmp_prop.
  destruct (Edns.slice_ok packet (p + 10 + len m + 6) ol Hbytes) as (ot & Eot & Hbo & <-); [lia | lia | lia |]. rewrite Eot. cbn [obind]. rewrite !removelast_last.
  apply ensures_ret. split; [done |]. exists kls, als. unfold tsig_at, tsig_fields. cbn [rr_offset rr_key_name rr_alg_name timers_offset time_signed fudge mac_size mac orig_id rr_error other_len other].
  split; [by exists n |]. split; [done |]. split; [done |]. split; [done |]. split; [done |]. split; [rewrite Hrd; f_equal; lia |]. split; [done |]. split; [done |].
  rewrite w48_split by done. split; [| split].
  - rewrite <- !app_assoc. by apply fields_joined.
  - rewrite !length_app. cbn [length w16 w32]. lia.
  - unfold tsig_wf. cbn [time_signed fudge mac_size mac orig_id rr_error other_len other]. rewrite shl_or by lia. repeat split; lia || done.
Qed.

Lemma fields_read p t0 t1 f m id er ol ot : 0 <= t0 < 65536 -> 0 <= t1 < 4294967296 -> 0 <= f < 65536 -> len m < 65536 -> 0 <= id < 65536 -> 0 <= er < 65536 -> 0 <= ol < 65536 ->
  let F := w16 t0 ++ w32 t1 ++ w16 f ++ w16 (len m) ++ m ++ w16 id ++ w16 er ++ w16 ol ++ ot in slice packet p (len F) = Ret F ->
  rd16 packet p = Ret t0 /\ rd32 packet (p + 2) = Ret t1 /\ rd16 packet (p + 6) = Ret f /\ rd16 packet (p + 8) = Ret (len m) /\ slice packet (p + 10) (len m) = Ret m /\
  rd16 packet (p + 10 + len m) = Ret id /\ rd16 packet (p + 10 + len m + 2) = Ret er /\ rd16 packet (p + 10 + len m + 4) = Ret ol /\
  slice packet (p + 10 + len m + 6) (len ot) = Ret ot.
Proof.
  intros H0 H1 Hf Hm Hi Hr Ho F HF. unfold F in HF. apply slice_head in HF as [E0 HF]. apply slice_head in HF as [E1 HF]. apply slice_head in HF as [Ef HF]. apply slice_head in HF as [Em HF].
  apply slice_head in HF as [Hsm HF]. apply slice_head in HF as [Ei HF]. apply slice_head in HF as [Er HF]. apply slice_head in HF as [Eo HF].
  cbn [length w16 w32] in E0, E1, Ef, Em, Hsm, Ei, Er, Eo, HF. change (Z.of_nat 2) with 2 in *. change (Z.of_nat 4) with 4 in *.
  replace (p + 2 + 4) with (p + 6) in * by lia. replace (p + 6 + 2) with (p + 8) in * by lia. replace (p + 8 + 2) with (p + 10) in * by lia.
  replace (p + 10 + len m + 2 + 2) with (p + 10 + len m + 4) in * by lia. replace (p + 10 + len m + 4 + 2) with (p + 10 + len m + 6) in * by lia.
  repeat split; try done; try (apply (rd16_piece (fun _ => []))); try apply rd32_piece; done || lia.
Qed.

Lemma time_split t : 0 <= t < 2 ^ 48 -> Z.lor (Z.shiftl (t / 2 ^ 32) 32) (t mod 2 ^ 32) = t /\ 0 <= t / 2 ^ 32 < 65536 /\ 0 <= t mod 2 ^ 32 < 4294967296.
Proof.
  intros Ht. pose proof (Z.mod_pos_bound t (2 ^ 32)). rewrite shl_or by lia. pose proof (Z.div_mod t (2 ^ 32)). split; [lia |]. split; [| lia].
  split; [apply Z.div_pos; lia | apply Z.div_lt_upper_bound; lia].
Qed.

Lemma read_complete rr r e kls als : 0 <= rr_offset rr -> e <= packet_len -> tsig_at rr r e kls als -> read_tsig packet packet_len (rr_offset rr) = Ret rr.
Proof.
  intros Ho Hpl ((n & Hd) & H255 & He & Ek & Ec & Hrd & Hals & Ea & Hs & Hfit & Ht & Hf & Hm & Hml & Hi & Hr & Hol & Hoo). pose proof (name_end_after _ r Ho He). pose proof (rd16_word _ _ Hrd). unfold read_tsig.
  assert (expand_wire_name_to_buffer packet packet_len (rr_offset rr) DNS_NAME_TEXT_SIZE = Ret (expanded kls ++ [0], r)) as ->.
  { apply expand_spec; [done | done | done | done |]. by exists n, kls. }
  cbn [obind]. rewrite (proj2 (Z.ltb_ge _ _)) by lia. rewrite Ec. cbn [obind Z.eqb Pos.eqb negb]. rewrite Hrd. cbn [obind]. replace (r + 10 + (e - r - 10)) with e by lia.
  rewrite (proj2 (extract_spec packet e Hbytes ltac:(lia) (r + 10) ltac:(lia)) als (timers_offset rr) Hals). cbn [obind].
  assert (0 <= timers_offset rr) as Hp by (destruct Hals as (_ & _ & _ & -> & _); lia). clear Hals Hd He Ec Hrd.
  pose proof (time_split _ Ht) as (Et & Ht0 & Ht1). destruct rr as [o p kn an t f ms m id er ol ot]. unfold tsig_fields in *. cbn [rr_offset timers_offset rr_key_name rr_alg_name time_signed fudge mac_size mac orig_id rr_error other_len other] in *.
  subst kn an ms ol. rewrite <- Et in Hs. rewrite w48_split, <- app_assoc in Hs by done.
  apply fields_read in Hs as (E0 & E1 & Ef & Em & Hsm & Ei & Er & Eo & Hso); [| lia..]. rewrite !length_app in Hfit. cbn [length w48 w16] in Hfit.
  rewrite (proj2 (Z.ltb_ge _ _)) by lia. rewrite E0, E1, Ef, Em. cbn [obind]. rewrite (proj2 (Z.ltb_ge _ _)) by lia. rewrite Hsm. cbn [obind]. rewrite Ei, Er, Eo. cbn [obind].
  rewrite (proj2 (Z.ltb_ge _ _)) by lia. rewrite Hso. cbn [obind]. by rewrite !removelast_last, Et.
Qed.

(** ** The TSIG record of a message *)

Lemma records_app o l1 l2 e : records o (l1 ++ l2) e <-> exists m, records o l1 m /\ records m l2 e.
Proof.
  split.
  - revert o. induction l1 as [| [o' ty] l1 IH]; intros o Hr; [exists o; by split; [constructor |] |]. cbn [app] in Hr. inversion Hr; subst.
    destruct (IH _ ltac:(eassumption)) as (m & Hm1 & Hm2). exists m. split; [by eapply records_cons | done].
  - intros (m & H1 & H2). induction H1; [done |]. cbn [app]. eapply records_cons; eauto.
Qed.

Lemma records_le o l e : records o l e -> 0 <= o -> o <= e /\ (l <> [] -> e <= packet_len).
Proof.
  induction 1 as [o | o r type rdlen l e He H16 Hrd Hf Hrec IH]; intros Ho; [done |]. pose proof (name_end_after o r Ho He). pose proof (rd16_word _ _ Hrd).
  destruct (IH ltac:(lia)) as [H1 H2]. split; [lia |]. intros _. destruct l; [inversion Hrec; lia | by apply H2].
Qed.

Lemma questions_le n o e : questions n o e -> 0 <= o -> o <= e /\ (o <= packet_len -> e <= packet_len).
Proof. induction 1 as [o | n o r e He Hf Hq IH]; intros Ho; [done |]. pose proof (name_end_after o r Ho He). destruct (IH ltac:(lia)) as [H1 H2]. split; [lia | intros _; apply H2; lia]. Qed.

(** The sections of the message, with [l] the records in front of the TSIG
    record, which is the only one of its type and the last record of the
    additional section; [e] is its end. *)
Definition tsig_record (rr : tsig_rr_t) (l : list (Z * Z)) (e arcount : Z) : Prop :=
  exists qdcount ancount nscount qe r kls als,
    rd16 packet 4 = Ret qdcount /\ rd16 packet 6 = Ret ancount /\ rd16 packet 8 = Ret nscount /\ rd16 packet 10 = Ret arcount /\
    questions (Z.to_nat qdcount) DNS_HEADER_SIZE qe /\ records qe l (rr_offset rr) /\ records (rr_offset rr) [(rr_offset rr, 250)] e /\
    len l + 1 = ancount + nscount + arcount /\ ancount + nscount <= len l /\ Forall (fun x => snd x <> 250) l /\
    tsig_at rr r e kls als.

Lemma record_one o ty e : records o [(o, ty)] e -> exists r rdlen, name_end packet o r /\ rd16 packet r = Ret ty /\ rd16 packet (r + 8) = Ret rdlen /\ e = r + 10 + rdlen /\ e <= packet_len.
Proof. intros Hr. inversion Hr as [| ? r ? rdlen ? ? He H16 Hrd Hf Hrec]; subst. inversion Hrec; subst. by exists r, rdlen. Qed.

Lemma parse_sound : DNS_HEADER_SIZE <= packet_len ->
  exists r, tsig_parse_rr packet packet_len = Ret r /\ forall rr, r = Tsig rr -> exists l e arcount, tsig_record rr l e arcount.
Proof.
  unfold DNS_HEADER_SIZE. intros Hh. unfold tsig_parse_rr, DNS_HEADER_SIZE. rewrite (proj2 (Z.ltb_ge _ _)) by done.
  destruct (Edns.rd16_range packet 4 Hbytes) as (qd & Eq & Hq); [lia | lia |]. destruct (Edns.rd16_range packet 6 Hbytes) as (an & Ea & Ha); [lia | lia |].
  destruct (Edns.rd16_range packet 8 Hbytes) as (ns & En & Hn); [lia | lia |]. destruct (Edns.rd16_range packet 10 Hbytes) as (ar & Er & Hr); [lia | lia |].
  rewrite Eq, Ea, En, Er. cbn [obind]. unfold Edns.u16_range in *. case_if; [by eexists |]. cmp_prop.
  destruct (tsig_skip_questions_spec (Z.to_nat qd) 12 ltac:(lia)) as [[-> | (qe & -> & Hqs)] _]; cbn [orelse]; [by eexists |]. pose proof (questions_le _ _ _ Hqs ltac:(lia)) as [Hqe _].
  destruct (scan_sound (an + ns + ar) (an + ns) (Z.to_nat (an + ns + ar)) 0 qe 0 0 false ltac:(lia)) as (x & -> & Hstop & Hscan). cbn [obind].
  destruct x as [r | e o count last]; [eexists; split; [done |]; intros rr ->; by destruct (Hstop rr) |]. destruct (Hscan e o count last eq_refl) as (l & Hl & Hlen' & Ht).
  case_if; [by eexists |]. destruct (Z.ltb_spec 1 count) as [| Hc]; [by eexists |]. destruct last; [| by eexists]. cbn [orb negb]. cmp_prop.
  assert (count = 1) as ->. { pose proof (tally_count (an + ns + ar) (an + ns) l 0 (0, 0, false)) as [Hge _]. rewrite Ht in Hge. cbn [fst snd] in Hge. lia. }
  apply tally_one in Ht as (l' & -> & Hno & Had); [| lia]. apply records_app in Hl as (o' & Hl1 & Hl2). assert (o' = o) as -> by by inversion Hl2.
  rewrite length_app in Hlen'. cbn [length] in Hlen'. pose proof (records_le _ _ _ Hl1 ltac:(lia)) as [Hoe _].
  pose proof (record_one _ _ _ Hl2) as (r & rdlen & He & H16 & Hrd & -> & Hfit). destruct (read_sound o r rdlen ltac:(lia) He Hrd Hfit) as [-> | (rr & -> & Ho & kls & als & Hat)]; cbn [orelse]; [by eexists |].
  eexists. split; [done |]. intros rr' [= <-]. exists l', (r + 10 + rdlen), ar, qd, an, ns, qe, r, kls, als. rewrite Ho. do 10 (split; [done || lia |]). done.
Qed.

Lemma parse_complete rr l e arcount : DNS_HEADER_SIZE <= packet_len -> tsig_record rr l e arcount -> tsig_parse_rr packet packet_len = Ret (Tsig rr).
Proof.
  unfold DNS_HEADER_SIZE. intros Hh (qd & an & ns & qe & r & kls & als & Eq & Ea & En & Er & Hqs & Hl & Ho & Hlen' & Had & Hno & Hat). unfold tsig_parse_rr, DNS_HEADER_SIZE. rewrite (proj2 (Z.ltb_ge _ _)) by done.
  pose proof (rd16_word _ _ Eq). pose proof (rd16_word _ _ Ea). pose proof (rd16_word _ _ En). pose proof (rd16_word _ _ Er). rewrite Eq, Ea, En, Er. cbn [obind]. rewrite (proj2 (Z.eqb_neq _ _)) by lia.
  pose proof (questions_le _ _ _ Hqs ltac:(unfold DNS_HEADER_SIZE; lia)) as [Hqe _]. pose proof (records_le _ _ _ Hl ltac:(unfold DNS_HEADER_SIZE in *; lia)) as [Hoe _].
  rewrite (proj2 (tsig_skip_questions_spec (Z.to_nat qd) 12 ltac:(lia)) qe Hqs). cbn [orelse]. unfold DNS_HEADER_SIZE in *.
  assert (records qe (l ++ [(rr_offset rr, 250)]) e) as Hall by (apply records_app; eauto).
  replace (Z.to_nat (an + ns + arcount)) with (length (l ++ [(rr_offset rr, 250)])) by (rewrite length_app; cbn [length]; lia).
  rewrite (scan_complete _ _ _ _ _ Hall) by lia. rewrite tally_app, (tally_none _ _ l) by done. cbn [tally Z.eqb Pos.eqb snd fst obind]. rewrite (proj2 (Z.eqb_eq (0 + len l) _)), (proj2 (Z.leb_le _ _)) by lia.
  cbn [andb orb negb Z.add Z.eqb Z.ltb Z.compare Pos.compare Pos.compare_cont]. pose proof (record_one _ _ _ Ho) as (? & ? & _ & _ & _ & _ & Hfit).
  rewrite (read_complete rr r e kls als) by (done || lia). done.
Qed.

End Read.

(** ** Lemmas: the names of the record *)

Lemma canonical_expanded ls : Forall label_wf ls -> len (wire_name ls) <= 255 -> canonical_name (expanded ls) = Some (wire_name (map (cased true) ls)).
Proof.
  intros Hwf H255. unfold canonical_name. destruct (text_labels_expanded ls Hwf) as (raw & -> & Hf). cbv zeta. rewrite lower_length. unfold written_labels. rewrite Hf. by rewrite (proj2 (Z.leb_le _ _)).
Qed.

(** What a TSIG record gives to the verifier. *)
Lemma record_facts packet packet_len rr l e arcount : bytes packet -> packet_len <= len packet -> tsig_record packet packet_len rr l e arcount ->
  DNS_HEADER_SIZE <= rr_offset rr < packet_len /\ rd16 packet 10 = Ret arcount /\ tsig_wf rr /\ bytes (mac rr) /\ bytes (rr_alg_name rr) /\ (exists A, canonical_name (rr_alg_name rr) = Some A) /\
  slice packet (timers_offset rr) 8 = Ret (w48 (time_signed rr) ++ w16 (fudge rr)).
Proof.
  intros Hb Hl (qd & an & ns & qe & r & kls & als & _ & _ & _ & Er & Hqs & Hrec & Hone & _ & _ & _ & Hat). destruct Hat as (_ & _ & _ & _ & _ & _ & (Hwf & H255 & _) & Ea & Hs & _ & Hw).
  unfold DNS_HEADER_SIZE in *. apply questions_le in Hqs as [Hq _]; [| lia]. apply records_le in Hrec as [Ho _]; [| done | lia].
  apply record_one in Hone as (r' & rdlen & He & _ & Hrd & -> & Hfit). apply name_end_after in He; [| lia]. apply rd16_word in Hrd; [| done].
  split; [lia |]. split; [done |]. split; [done |].
  unfold tsig_fields in Hs. rewrite (app_assoc (w48 _)) in Hs. apply slice_head in Hs as [Ht Hs]. apply slice_head in Hs as [_ Hs]. apply slice_head in Hs as [Hm _].
  split; [by destruct (Edns.slice_bytes packet _ _ _ Hb Hm) |]. rewrite Ea. split; [by apply expanded_bytes |]. split; [eexists; by apply canonical_expanded | done].
Qed.

(** ** Verification *)

Section Verified.
Context `{Hmac}.
Variables (packet : list Z) (packet_len : Z) (key : tsig_key_t) (prior msgs : list Z) (sub : bool).
Hypothesis Hbytes : bytes packet.
Hypothesis Hlen : packet_len <= len packet.

(** The message carries in its TSIG record the keyed hash of its digest. *)
Definition authentic (rr : tsig_rr_t) : Prop :=
  exists l e arcount md names,
    tsig_record packet packet_len rr l e arcount /\
    tsig_algorithm_from_name (rr_alg_name rr) = Some md /\ tsig_algorithm_from_name (key_alg key) = Some md /\
    domain_names_match_ci (rr_key_name rr) (key_name key) = true /\ digest_names (key_name key) (rr_alg_name rr) = Some names /\
    Z.max 10 (EVP_MD_size md / 2) <= mac_size rr <= EVP_MD_size md /\
    mac rr = take (Z.to_nat (mac_size rr)) (HMAC md (secret_decoded key)
      (digest prior msgs (signed_message packet (rr_offset rr) (orig_id rr) arcount) names (w48 (time_signed rr) ++ w16 (fudge rr)) (rr_error rr) (other rr) sub)).

(** The result of the verifier: accepted, out of time, or refused. *)
Definition verdict (now : Z) (res : Z * option (list Z) * bool) : Prop :=
  let '(code, mac_out, truncated) := res in
  (forall m, mac_out = Some m <-> exists rr, authentic rr /\ m = mac rr) /\
  (code = 0 <-> exists rr, authentic rr /\ Z.abs (now - time_signed rr) <= fudge rr) /\
  (code = 18 <-> exists rr, authentic rr /\ fudge rr < Z.abs (now - time_signed rr)) /\
  (forall m md, mac_out = Some m -> tsig_algorithm_from_name (key_alg key) = Some md -> truncated = (len m <? EVP_MD_size md)).

Lemma authentic_parsed rr : DNS_HEADER_SIZE <= packet_len -> authentic rr -> tsig_parse_rr packet packet_len = Ret (Tsig rr).
Proof. intros Hh (l & e & ar & md & names & Hr & _). by eapply parse_complete. Qed.

Lemma refused now code t : code <> 0 -> code <> 18 -> (forall rr, ~ authentic rr) -> verdict now (code, None, t).
Proof. intros H0 H18 Hno. unfold verdict. split; [| split; [| split]]; [| | | done]; intros; (split; [done |]); intros (rr & Hr & _); by destruct (Hno rr). Qed.

Lemma accepted now rr code t : (forall rr', authentic rr' <-> rr' = rr) -> code = (if Z.abs (now - time_signed rr) <=? fudge rr then 0 else 18) ->
  (forall md, tsig_algorithm_from_name (key_alg key) = Some md -> t = (len (mac rr) <? EVP_MD_size md)) -> verdict now (code, Some (mac rr), t).
Proof.
  intros Ha -> Ht. unfold verdict. split; [| split; [| split]].
  - intros m. split; [intros [= <-]; exists rr; split; [by apply Ha | done] |]. intros (rr' & Hr & ->). by apply Ha in Hr as ->.
  - split; [case_if; [| done]; intros _; exists rr; split; [by apply Ha | lia] |]. intros (rr' & Hr & Hf). apply Ha in Hr as ->. case_if; cmp_prop; lia.
  - split; [case_if; [done |]; intros _; exists rr; split; [by apply Ha | lia] |]. intros (rr' & Hr & Hf). apply Ha in Hr as ->. case_if; cmp_prop; lia.
  - intros m md [= <-]. apply Ht.
Qed.

(** The keyed hash that is expected in the record. *)
Definition expected_mac (rr : tsig_rr_t) (arcount : Z) (md : evp_md) (names : list Z) : list Z :=
  HMAC md (secret_decoded key) (digest prior msgs (signed_message packet (rr_offset rr) (orig_id rr) arcount) names (w48 (time_signed rr) ++ w16 (fudge rr)) (rr_error rr) (other rr) sub).

Lemma authentic_iff rr l e arcount md names : tsig_record packet packet_len rr l e arcount -> tsig_algorithm_from_name (rr_alg_name rr) = Some md -> digest_names (key_name key) (rr_alg_name rr) = Some names ->
  authentic rr <->
  tsig_algorithm_from_name (key_alg key) = Some md /\ domain_names_match_ci (rr_key_name rr) (key_name key) = true /\ Z.max 10 (EVP_MD_size md / 2) <= mac_size rr <= EVP_MD_size md /\
  mac rr = take (Z.to_nat (mac_size rr)) (expected_mac rr arcount md names).
Proof.
  intros Hr Ea En. split.
  - intros (l' & e' & ar' & md' & names' & Hr' & Ea' & Ek & Hm & En' & Hs & Hmac). assert (md' = md) as -> by congruence. assert (names' = names) as -> by congruence.
    apply record_facts in Hr as (_ & Er & _); [| done | done]. apply record_facts in Hr' as (_ & Er' & _); [| done | done]. assert (ar' = arcount) as -> by congruence. done.
  - intros (Ek & Hm & Hs & Hmac). by exists l, e, arcount, md, names.
Qed.

Lemma verify_verdict time_now K : bytes (key_name key) -> canonical_name (key_name key) = Some K -> 0 <= time_now ->
  exists res, tsig_verify_packet_ex time_now packet packet_len key prior msgs sub = Ret res /\ verdict (if 0 <? fuzztime key then fuzztime key else time_now) res.
Proof.
  intros Hk HK Hnow. unfold tsig_verify_packet_ex. destruct (Z.ltb_spec packet_len DNS_HEADER_SIZE) as [Hh | Hh].
  { eexists. split; [done |]. apply refused; [done | done |]. intros rr (l & e & ar & md & names & Hr & _). apply record_facts in Hr as [? _]; [lia | done | done]. }
  destruct (parse_sound packet packet_len Hbytes Hlen Hh) as (r & Er & Hsound). rewrite Er. cbn [obind].
  assert (forall rr, authentic rr -> r = Tsig rr) as Hauth by (intros rr Ha; apply authentic_parsed in Ha; [congruence | done]).
  destruct r as [| | rr]; [eexists; split; [done |]; apply refused; [done | done |]; intros rr Ha; by apply Hauth in Ha .. |]. destruct (Hsound rr eq_refl) as (l & e & ar & Hrec). clear Hsound Er.
  destruct (record_facts packet packet_len rr l e ar Hbytes Hlen Hrec) as (Ho & Har & Hw & Hbm & Hba & (A & HA) & Htim). destruct Hw as (Ht & Hf & Hms & Hml & Hi & Hr & Hol & Hoo).
  assert (forall rr', authentic rr' -> rr' = rr) as Huniq by (intros rr' Ha; by apply Hauth in Ha as [= ->]). clear Hauth.
  assert (forall code, code <> 0 -> code <> 18 -> ~ authentic rr -> exists res, Ret (code, None, false) = Ret res /\ verdict (if 0 <? fuzztime key then fuzztime key else time_now) res) as Href.
  { intros code H0 H18 Hno. eexists. split; [done |]. apply refused; [done | done |]. intros rr' Ha. by rewrite (Huniq rr' Ha) in Ha. }
  destruct (tsig_algorithm_from_name (rr_alg_name rr)) as [md |] eqn:Emd; [| apply Href; [done | done |]; intros (? & ? & ? & md & ? & _ & ? & _); congruence].
  assert (digest_names (key_name key) (rr_alg_name rr) = Some (K ++ [0; 255; 0; 0; 0; 0] ++ A)) as En by (unfold digest_names; by rewrite HK, HA). set (names := K ++ [0; 255; 0; 0; 0; 0] ++ A) in *.
  pose proof (authentic_iff rr l e ar md names Hrec Emd En) as Hiff. case_if; [apply Href; [done | done |]; rewrite Hiff; intros (E1 & E2 & _); rewrite E1, E2, bool_decide_eq_true_2 in E by done; done |].
  apply orb_false_iff in E as [E1 E2]. apply negb_false_iff in E1, E2. apply bool_decide_eq_true in E1. set (N := EVP_MD_size md) in *.
  case_if. { cmp_prop; (apply Href; [lia | lia |]; rewrite Hiff; lia). }
  clear E. case_if. { apply Href; [done | done |]. rewrite Hiff. intros (_ & _ & Hs & _). case_if_in E; lia. }
  destruct (wire_length _ Hba) as [[_ ?] | (al & Eal & _)]; [congruence |]. destruct (wire_length _ Hk) as [[_ ?] | (kl & Ekl & _)]; [congruence |].
  rewrite (verify_pre_mac_spec packet key rr prior msgs sub ar al (w48 (time_signed rr) ++ w16 (fudge rr))) by (done || lia). rewrite Ekl, En.
  assert ((if sub then @Ret (list Z) (digest prior msgs (signed_message packet (rr_offset rr) (orig_id rr) ar) [] (w48 (time_signed rr) ++ w16 (fudge rr)) (rr_error rr) (other rr) sub)
     else Ret (digest prior msgs (signed_message packet (rr_offset rr) (orig_id rr) ar) names (w48 (time_signed rr) ++ w16 (fudge rr)) (rr_error rr) (other rr) sub)) =
     Ret (digest prior msgs (signed_message packet (rr_offset rr) (orig_id rr) ar) names (w48 (time_signed rr) ++ w16 (fudge rr)) (rr_error rr) (other rr) sub)) as -> by by destruct sub.
  cbn [orelse]. fold (expected_mac rr ar md names). set (X := expected_mac rr ar md names) in *. assert (len X = N) as HX by apply hmac_length. assert (bytes X) as HbX by apply hmac_bytes.
  assert (Z.max 10 (N / 2) <= mac_size rr <= N) as Hsz by (case_if_in E; lia). clear E. rewrite (proj2 (Z.ltb_ge (len X) _)) by lia.
  destruct (Cookie.const_time_from_spec X (mac rr) (Z.to_nat (mac_size rr)) 0 0) as (c & Ec & Hc); [lia | lia | lia |]. change (Z.to_nat 0) with 0%nat in Hc. rewrite !drop_0, (take_ge (mac rr)) in Hc by lia.
  unfold Cookie.const_time_memcmp. rewrite Ec. cbn [obind]. destruct (Z.eqb_spec c 0) as [Hc0 | Hc0]; cbn [negb]; [apply Hc in Hc0 as [_ Hmac] | apply Href; [done | done |]; rewrite Hiff; intros (_ & _ & _ & ?); by apply Hc0, Hc].
  assert (N <= 64) as HN by (unfold N; by destruct md). rewrite put_list_in by (unfold EVP_MAX_MD_SIZE; cbn [length]; lia). cbn [obind app].
  eexists. split; [done |]. apply accepted.
  - intros rr'. split; [apply Huniq |]. intros ->. by apply Hiff.
  - set (now := if 0 <? fuzztime key then fuzztime key else time_now) in *. assert (0 <= now) by (unfold now; case_if; lia).
    rewrite (proj2 (Z.ltb_ge _ (time_signed rr))) by lia. destruct (Z.ltb_spec (time_signed rr) (fudge rr)); destruct (Z.leb_spec (Z.abs (now - time_signed rr)) (fudge rr)); case_if; cmp_prop; lia.
  - intros md' Emd'. assert (md' = md) as -> by congruence. by rewrite Hml.
Qed.


End Verified.


End TsigSpec.
