(* ===== verification/TsigRound.v ===== *)
(** * Transaction signatures: from the signer to the verifier

    A message that is signed is accepted by a verifier that has the key, and a
    signed request and its signed response authenticate each other. *)

From S2P Require Import Prelude CLib Cidr DnsName NameText WireName Compress Edns RdataText Record Svcb RrWrite RrFrame RrParse RrRound Tsig TsigSpec.

Module TsigRound.
Import CLib DnsName NameText WireName Compress RdataText Record RrFrame RrParse RrRound Tsig TsigSpec.

(** ** Lemmas: the record the signer writes *)

Lemma skip_built buf o W n : 0 <= o -> 0 <= n -> o + len W + n <= len buf -> exists X, len X = n /\ (splice buf o W, o + len W + n) = built buf o (W ++ X).
Proof.
  intros Ho Hn Hl. set (b := splice buf o W). assert (len b = len buf) as Hb by (unfold b; rewrite length_splice; lia). set (i := o + len W) in *.
  set (X := take (Z.to_nat n) (drop (Z.to_nat i) b)). assert (length X = Z.to_nat n) as HX by (unfold X; rewrite length_take, length_drop; lia). exists X. split; [lia |].
  unfold built. rewrite <- splice_app by lia. fold b i. rewrite length_app. f_equal; [| lia]. unfold splice. rewrite HX. unfold X. rewrite <- drop_drop. by rewrite !take_drop.
Qed.

Lemma canonical_length name N : canonical_name name = Some N -> len N <= 255.
Proof. unfold canonical_name. destruct (text_labels name); try done. cbv zeta. case_if; [| done]. intros [= <-]. lia. Qed.

Lemma rd16_splice_l buf i src j : 0 <= i -> i + len src <= len buf -> j + 2 <= i -> rd16 (splice buf i src) j = rd16 buf j.
Proof. intros Hi Hl Hj. unfold rd16. by rewrite !rd_splice_l by lia. Qed.

Definition tsig_rdata (A : list Z) (times : Z * Z) (mac id : list Z) (e : Z) (other : list Z) : list Z :=
  A ++ w48 (fst times) ++ w16 (snd times) ++ w16 (len mac) ++ mac ++ id ++ w16 e ++ w16 (len other) ++ other.

Definition tsig_octets (K A : list Z) (times : Z * Z) (mac id : list Z) (e : Z) (other : list Z) : list Z :=
  let D := tsig_rdata A times mac id e other in K ++ [0; 250; 0; 255; 0; 0; 0; 0] ++ w16 (len D) ++ D.

Lemma w48_bytes v : bytes (w48 v).
Proof. unfold w48. auto 10 with octets. Qed.

Lemma octets_bytes K A times mac id e other : bytes K -> bytes A -> bytes mac -> bytes id -> bytes other -> bytes (tsig_octets K A times mac id e other).
Proof.
  intros HK HA Hm Hi Ho. pose proof (w48_bytes (fst times)). assert (bytes (tsig_rdata A times mac id e other)) by (unfold tsig_rdata; auto 20 with octets).
  unfold tsig_octets. apply bytes_app; [done |]. apply bytes_app; [bytes_lit |]. auto with octets.
Qed.

Lemma out_tsig_spec time2 packet packet_len max key e times mac K A arcount :
  bytes packet -> bytes (key_name key) -> bytes (key_alg key) -> canonical_name (key_name key) = Some K -> canonical_name (key_alg key) = Some A ->
  DNS_HEADER_SIZE <= packet_len -> len mac <= EVP_MAX_MD_SIZE -> rd16 packet 10 = Ret arcount ->
  packet_len + (len K + 10 + len A + 10 + EVP_MAX_MD_SIZE + 6 + (if e =? 18 then 6 else 0)) <= max -> max <= len packet ->
  let R := tsig_octets K A times mac (take 2 packet) e (sign_other time2 e) in
  out_tsig time2 packet packet_len max key e times mac = Ret (splice (splice packet packet_len R) 10 (w16 (u16 (arcount + 1))), packet_len + len R).
Proof.
  intros Hb Hk Ha HK HA Hh Hm Har Hmax Hlen R. unfold DNS_HEADER_SIZE, EVP_MAX_MD_SIZE in *. assert (len (sign_other time2 e) = if e =? 18 then 6 else 0) as Ho by (unfold sign_other; by case_if). rewrite <- Ho in Hmax.
  unfold out_tsig. rewrite (built_nil packet packet_len). rewrite name_built by (done || (cbn [length]; lia)). rewrite HK. cbn [app]. rewrite (proj2 (Z.leb_le _ _)) by lia. cbn [obind].
  rewrite out_built by (rewrite ?length_app; cbn [length]; lia). cbn [obind]. set (W1 := K ++ [0; 250; 0; 255; 0; 0; 0; 0]). assert (len W1 = len K + 8) as HW1 by (unfold W1; rewrite length_app; cbn [length]; lia).
  unfold built at 1 2 3. cbn [fst snd]. destruct (skip_built packet packet_len W1 2) as (X & HX & ->); [lia | lia | lia |].
  rewrite name_built by (done || (rewrite ?length_app; lia)). rewrite HA. rewrite (proj2 (Z.leb_le _ _)) by (rewrite !length_app; lia). cbn [obind].
  rewrite out_built by (rewrite ?length_app; cbn [length w48 w16]; lia). cbn [obind]. unfold built at 1 2. cbn [fst].
  assert (exists a b, take 2 packet = [a; b] /\ rd packet 0 = Ret a /\ rd packet 1 = Ret b) as (a & b & Eid & E0 & E1) by (destruct packet as [| a [| b packet]]; cbn [length] in Hlen; [lia | lia |]; by exists a, b).
  rewrite !rd_splice_l by (rewrite ?length_app; cbn [length w48 w16]; lia). rewrite E0, E1. cbn [obind].
  change (a :: b :: error_fields time2 e) with ([a; b] ++ error_fields time2 e). rewrite error_fields_eq, <- Eid. assert (len (take 2 packet) = 2) as H2 by (by rewrite Eid).
  rewrite out_built by (rewrite ?length_app; cbn [length w48 w16]; lia). cbn [obind]. set (D := tsig_rdata A times mac (take 2 packet) e (sign_other time2 e)) in *.
  match goal with |- context [built packet packet_len ?W] => assert (W = W1 ++ X ++ D) as -> by (unfold D, tsig_rdata; by rewrite <- !app_assoc) end.
  assert (len D = len A + 10 + len mac + 6 + len (sign_other time2 e)) as HD by (unfold D, tsig_rdata; rewrite ?length_app; cbn [length w48 w16]; lia).
  assert (len A <= 255) as HA255 by by apply canonical_length in HA. assert (len (sign_other time2 e) <= 6) as Ho6 by (rewrite Ho; by case_if).
  assert (u16 (snd (built packet packet_len (W1 ++ X ++ D)) - snd (built packet packet_len W1) - 2) = len D) as -> by (unfold built; cbn [snd]; rewrite !length_app; unfold u16; rewrite Z.mod_small; lia).
  unfold built. cbn [fst snd]. rewrite wr_list_splice by (rewrite ?length_splice; rewrite ?length_app; cbn [length w16]; lia). cbn [obind].
  rewrite splice_patch by (rewrite ?length_app; cbn [length w16]; lia). assert (W1 ++ w16 (len D) ++ D = R) as -> by (unfold R, tsig_octets, W1; by rewrite <- app_assoc).
  assert (len R = len (W1 ++ X ++ D)) as HR by (unfold R, tsig_octets; fold D; rewrite !length_app; cbn [length w16]; lia). rewrite !length_app in HR.
  rewrite rd16_splice_l by lia. rewrite Har. cbn [obind]. rewrite wr_list_splice by (rewrite ?length_splice; cbn [length w16]; lia). cbn [obind]. do 2 f_equal. rewrite !length_app. lia.
Qed.

Section Sign.
Context `{Hmac}.
Variables (time1 time2 : Z) (packet : list Z) (packet_len max : Z) (key : tsig_key_t) (e : Z) (prior msgs : list Z) (sub : bool) (times : option (Z * Z)).
Variables (K A mac : list Z) (arcount : Z).
Hypothesis Hbytes : bytes packet.
Hypothesis Hname : bytes (key_name key).
Hypothesis Halg : bytes (key_alg key).
Hypothesis HK : canonical_name (key_name key) = Some K.
Hypothesis HA : canonical_name (key_alg key) = Some A.
Hypothesis Hhead : DNS_HEADER_SIZE <= packet_len.
Hypothesis Harcount : rd16 packet 10 = Ret arcount.
Hypothesis Hmax : packet_len + (len K + 10 + len A + 10 + EVP_MAX_MD_SIZE + 6 + (if e =? 18 then 6 else 0)) <= max.
Hypothesis Hlen : max <= len packet.

Let T := sign_times time1 key times.

(** What the signer authenticates. *)
Definition sign_digest : list Z :=
  digest prior msgs (take (Z.to_nat packet_len) packet) (K ++ [0; 255; 0; 0; 0; 0] ++ A) (w48 (fst T) ++ w16 (snd T)) e (sign_other time2 e) sub.

Definition sign_octets : list Z := tsig_octets K A T mac (take 2 packet) e (sign_other time2 e).

Lemma wire_size : tsig_rr_wire_size (key_name key) (key_alg key) e = Ret (len K + 10 + len A + 10 + EVP_MAX_MD_SIZE + 6 + (if e =? 18 then 6 else 0)).
Proof.
  unfold tsig_rr_wire_size. destruct (wire_length _ Hname) as [[_ ?] | (kl & -> & _ & Hk)]; [congruence |]. destruct (wire_length _ Halg) as [[_ ?] | (al & -> & _ & Ha)]; [congruence |].
  rewrite HK in Hk. rewrite HA in Ha. destruct Hk as [<- _], Ha as [<- _]. done.
Qed.

Lemma sign_spec : sign_mac key e sign_digest = Ret mac -> len mac <= EVP_MAX_MD_SIZE ->
  tsig_sign_packet_ex time1 time2 packet packet_len max key e prior msgs sub times =
  Ret (splice (splice packet packet_len sign_octets) 10 (w16 (u16 (arcount + 1))), packet_len + len sign_octets, mac).
Proof.
  intros Hmac Hlm. unfold tsig_sign_packet_ex. rewrite (proj2 (Z.ltb_ge _ _)) by done. rewrite wire_size.
  destruct (wire_length _ Hname) as [[_ ?] | (kl & Ek & Hk1 & Hk)]; [congruence |]. destruct (wire_length _ Halg) as [[_ ?] | (al & Ea & Ha1 & Ha)]; [congruence |].
  rewrite HK in Hk. rewrite HA in Ha. destruct Hk as [Hk _], Ha as [Ha _]. rewrite Ek, Ea. cbn [obind]. unfold EVP_MAX_MD_SIZE, DNS_HEADER_SIZE in *.
  assert (0 <= if e =? 18 then 6 else 0) by (case_if; lia). rewrite (proj2 (Z.eqb_neq _ _)), (proj2 (Z.ltb_ge _ _)) by lia. cbn [orb]. fold T.
  rewrite sign_pre_mac_spec by (done || lia). unfold digest_names. rewrite HK, HA.
  assert ((if sub then Ret (digest prior msgs (take (Z.to_nat packet_len) packet) [] (w48 (fst T) ++ w16 (snd T)) e (sign_other time2 e) sub)
    else Ret (digest prior msgs (take (Z.to_nat packet_len) packet) (K ++ [0; 255; 0; 0; 0; 0] ++ A) (w48 (fst T) ++ w16 (snd T)) e (sign_other time2 e) sub)) = Ret sign_digest) as ->.
  { unfold sign_digest. by destruct sub. }
  cbn [obind]. rewrite Hmac. cbn [obind]. rewrite (out_tsig_spec time2 packet packet_len max key e T mac K A arcount) by done. done.
Qed.

End Sign.

(** ** Lemmas: the message under the record that was added *)

Lemma lookup_splice b i src k : 0 <= i -> i + len src <= len b ->
  splice b i src !! k = if decide (Z.to_nat i <= k < Z.to_nat i + length src)%nat then src !! (k - Z.to_nat i)%nat else b !! k.
Proof.
  intros Hi Hl. unfold splice. set (n := Z.to_nat i). assert (length (take n b) = n) as Hn by (rewrite length_take; lia). case_decide as Hk.
  - rewrite lookup_app_r by lia. rewrite Hn, lookup_app_l by lia. done.
  - destruct (Nat.lt_ge_cases k n) as [Hlt | Hge]; [rewrite lookup_app_l by lia; by rewrite lookup_take_lt |].
    rewrite lookup_app_r by lia. rewrite Hn, lookup_app_r by lia. rewrite lookup_drop. f_equal. lia.
Qed.

Section Agree.
Variables a b : list Z.

Lemma name_end_agree o r : 0 <= o -> name_end a o r -> (forall i, o <= i < r -> rd a i = rd b i) -> name_end b o r.
Proof.
  intros Ho He. induction He as [p Hr | p l q Hr Hl He IH | p raw Hr Ht]; intros Hag.
  - apply end_root. rewrite <- Hag by lia. done.
  - pose proof (name_end_after a (p + 1 + l) q ltac:(lia) He). eapply end_label; [rewrite <- Hag by lia; done | done |]. apply IH; [lia |]. intros i Hi. apply Hag. lia.
  - eapply end_pointer; [rewrite <- Hag by lia; done | done].
Qed.

Variables (n m : Z).
Hypothesis Hb : bytes a.
Hypothesis Hnm : n <= m.

Lemma questions_agree c o e : questions a n c o e -> 0 <= o -> (forall i, o <= i < n -> rd a i = rd b i) -> questions b m c o e.
Proof.
  induction 1 as [o | c o r e He Hf Hq IH]; intros Ho Hag; [constructor |]. pose proof (name_end_after a o r Ho He).
  apply (questions_cons b m c o r e); [apply name_end_agree; [done | done |]; intros i Hi; apply Hag; lia | lia |]. apply IH; [lia |]. intros i Hi. apply Hag. lia.
Qed.

Lemma records_agree o l e : records a n o l e -> 0 <= o -> (forall i, o <= i < n -> rd a i = rd b i) -> records b m o l e.
Proof.
  induction 1 as [o | o r type rdlen l e He H16 Hrd Hf Hrec IH]; intros Ho Hag; [constructor |]. pose proof (name_end_after a o r Ho He). pose proof (rd16_word a Hb _ _ Hrd).
  assert (forall i, r <= i -> i + 2 <= n -> rd16 b i = rd16 a i) as H16' by (intros i Hi Hl; unfold rd16; by rewrite !Hag by lia).
  apply (records_cons b m o r type rdlen l e); [apply name_end_agree; [done | done |]; intros i Hi; apply Hag; lia | rewrite H16' by lia; done | rewrite H16' by lia; done | lia |].
  apply IH; [lia |]. intros i Hi. apply Hag. lia.
Qed.

End Agree.


(** A name in full is a name. *)
Lemma full_decodes packet packet_len p ls q : 0 <= p -> full_at packet packet_len p ls q -> decodes packet packet_len (length ls) p ls /\ name_end packet p q.
Proof.
  intros Hp (Hwf & _ & Hs & -> & Hq). revert p Hp Hs Hq. induction ls as [| l ls IH]; intros p Hp Hs Hq.
  - change (wire_name []) with [0] in *. change (len [0]) with 1 in *. pose proof (slice_rd_list packet p [0] 0 0 Hs eq_refl) as Hr. change (Z.of_nat 0) with 0 in Hr. rewrite Z.add_0_r in Hr.
    split; [apply decodes_root; [lia | done] | by apply end_root].
  - assert (wire_name (l :: ls) = [len l] ++ l ++ wire_name ls) as Ew by (unfold wire_name; rewrite wire_labels_cons; cbn [app]; by rewrite <- app_assoc).
    assert (len (wire_name (l :: ls)) = 1 + len l + len (wire_name ls)) as El by (rewrite Ew, !length_app; cbn [length]; lia). rewrite El in Hq |- *.
    apply Forall_cons_1 in Hwf as [[Hbl Hl] Hwf]. rewrite Ew in Hs. apply slice_head in Hs as [Hs0 Hs]. apply slice_head in Hs as [Hs1 Hs2]. cbn [length] in Hs1, Hs2. change (Z.of_nat 1) with 1 in *.
    pose proof (slice_rd_list packet p [len l] 0 _ Hs0 eq_refl) as Hr. change (Z.of_nat 0) with 0 in Hr. rewrite Z.add_0_r in Hr.
    destruct (IH Hwf (p + 1 + len l)) as [Hd He]; [lia | done | lia |]. cbn [length]. split; [by eapply decodes_label; [lia | done | done | lia | done | done] |].
    eapply end_label; [done | lia |]. replace (p + (1 + len l + len (wire_name ls))) with (p + 1 + len l + len (wire_name ls)) by lia. done.
Qed.

(** A message of questions and records that ends with its last record and
    has no TSIG record, with the counts of its header. *)
Definition message (packet : list Z) (packet_len arcount : Z) : Prop :=
  exists qdcount ancount nscount qe l,
    rd16 packet 4 = Ret qdcount /\ rd16 packet 6 = Ret ancount /\ rd16 packet 8 = Ret nscount /\ rd16 packet 10 = Ret arcount /\
    questions packet packet_len (Z.to_nat qdcount) DNS_HEADER_SIZE qe /\ records packet packet_len qe l packet_len /\
    len l = ancount + nscount + arcount /\ Forall (fun x => snd x <> 250) l.

Section Added.
Variables (packet : list Z) (packet_len arcount id : Z) (kls als : list (list Z)) (times : Z * Z) (mac : list Z) (e : Z) (other : list Z).
Hypothesis Hbytes : bytes packet.
Hypothesis Hhead : DNS_HEADER_SIZE <= packet_len.
Hypothesis Hmsg : message packet packet_len arcount.
Hypothesis Har : arcount < 65535.
Hypothesis Hid : rd16 packet 0 = Ret id.
Hypothesis Hkls : Forall label_wf kls /\ len (wire_name kls) <= 255.
Hypothesis Hals : Forall label_wf als /\ len (wire_name als) <= 255.
Hypothesis Htime : 0 <= fst times < 2 ^ 48.
Hypothesis Hfudge : 0 <= snd times < 65536.
Hypothesis Hmac : len mac <= 64.
Hypothesis He : 0 <= e < 65536.
Hypothesis Hother : len other <= 6.

Let R := tsig_octets (wire_name kls) (wire_name als) times mac (take 2 packet) e other.
Let packet' := splice (splice packet packet_len R) 10 (w16 (u16 (arcount + 1))).

Hypothesis Hlen : packet_len + len R <= len packet.

(** The record as it is read back. *)
Definition added_rr : tsig_rr_t :=
  TsigRr packet_len (packet_len + len (wire_name kls) + 10 + len (wire_name als)) (expanded kls) (expanded als) (fst times) (snd times) (len mac) mac id e (len other) other.

Lemma added_length : length packet' = length packet.
Proof. unfold DNS_HEADER_SIZE in Hhead. unfold packet'. rewrite length_splice; rewrite ?length_splice; cbn [length w16]; lia. Qed.

Lemma added_rd i : i < 10 \/ 12 <= i < packet_len -> rd packet' i = rd packet i.
Proof.
  unfold DNS_HEADER_SIZE in Hhead. intros [Hi | Hi]; unfold packet'.
  - rewrite rd_splice_l by (rewrite ?length_splice; cbn [length w16]; lia). by rewrite rd_splice_l by lia.
  - rewrite Edns.rd_splice_r by (rewrite ?length_splice; cbn [length w16]; lia). by rewrite rd_splice_l by lia.
Qed.

Lemma take_id : take 2 packet = w16 id.
Proof. apply w16_rd in Hid; [| done]. unfold slice in Hid. case_if_in Hid; [| done]. by injection Hid. Qed.

Lemma added_octets : slice packet' packet_len (len R) = Ret R.
Proof.
  unfold DNS_HEADER_SIZE in Hhead. rewrite slice_in by (rewrite ?added_length; lia). f_equal. apply list_eq. intros k.
  destruct (Nat.lt_ge_cases k (length R)) as [Hk | Hk]; [| by rewrite !lookup_ge_None_2 by (rewrite ?length_take; lia)].
  rewrite lookup_take_lt by lia. rewrite lookup_drop. unfold packet'. rewrite lookup_splice by (rewrite ?length_splice; cbn [length w16]; lia). rewrite decide_False by (cbn [length w16]; lia).
  rewrite lookup_splice by lia. rewrite decide_True by lia. f_equal. lia.
Qed.

Lemma added_signed : signed_message packet' packet_len id (arcount + 1) = take (Z.to_nat packet_len) packet.
Proof.
  unfold DNS_HEADER_SIZE in Hhead. destruct Hmsg as (qd & an & ns & qe & l & _ & _ & _ & Ear & _). pose proof (rd16_word packet Hbytes _ _ Ear) as (_ & H12 & Hu). apply w16_rd in Ear; [| done]. apply w16_rd in Hid as Eid; [| done].
  unfold slice in Ear, Eid. case_if_in Ear; [| done]. case_if_in Eid; [| done]. injection Ear as Ear. injection Eid as Eid.
  unfold signed_message. set (M := take (Z.to_nat packet_len) packet'). assert (len M = packet_len) as HM by (unfold M; rewrite length_take, added_length; lia).
  replace (arcount + 1 - 1) with arcount by lia. assert (u16 arcount = arcount) as -> by (unfold u16; apply Z.mod_small; lia).
  apply list_eq. intros k. rewrite lookup_splice by (rewrite ?length_splice; cbn [length w16]; lia). case_decide as H10.
  { rewrite <- Ear, lookup_take_lt by (cbn [length w16] in H10; lia). rewrite lookup_drop, lookup_take_lt by (cbn [length w16] in H10; lia). f_equal. lia. }
  rewrite lookup_splice by (cbn [length w16]; lia). case_decide as H0.
  { rewrite <- Eid, lookup_take_lt by (cbn [length w16] in H0; lia). rewrite lookup_drop, lookup_take_lt by (cbn [length w16] in H0; lia). f_equal. lia. }
  cbn [length w16] in *. destruct (Nat.lt_ge_cases k (Z.to_nat packet_len)) as [Hk | Hk]; [| by rewrite !lookup_ge_None_2 by (rewrite ?length_take; lia)].
  unfold M. rewrite !lookup_take_lt by lia. unfold packet'. rewrite lookup_splice by (rewrite ?length_splice; cbn [length w16]; lia). rewrite decide_False by (cbn [length w16]; lia).
  rewrite lookup_splice by lia. by rewrite decide_False by lia.
Qed.

Lemma added_pieces : let r := packet_len + len (wire_name kls) in let F := tsig_fields added_rr in
  slice packet' packet_len (len (wire_name kls)) = Ret (wire_name kls) /\ rd16 packet' r = Ret 250 /\ rd16 packet' (r + 2) = Ret 255 /\ rd16 packet' (r + 8) = Ret (len (wire_name als) + len F) /\
  slice packet' (r + 10) (len (wire_name als)) = Ret (wire_name als) /\ slice packet' (r + 10 + len (wire_name als)) (len F) = Ret F /\ packet_len + len R = r + 10 + len (wire_name als) + len F.
Proof.
  cbv zeta. set (r := packet_len + len (wire_name kls)). set (F := tsig_fields added_rr). assert (R = wire_name kls ++ w16 250 ++ w16 255 ++ w32 0 ++ w16 (len (wire_name als) + len F) ++ wire_name als ++ F) as ER.
  { unfold R, tsig_octets, tsig_rdata, F, tsig_fields, added_rr. cbn [time_signed fudge mac_size Tsig.mac orig_id rr_error other_len Tsig.other]. rewrite take_id. cbv zeta. rewrite (length_app (wire_name als)), Nat2Z.inj_add. done. }
  assert (len F <= 86) as HF by (unfold F, tsig_fields; cbn [time_signed fudge mac_size Tsig.mac orig_id rr_error other_len Tsig.other added_rr]; rewrite !length_app; cbn [length w48 w16]; lia).
  pose proof added_octets as HR. rewrite ER in HR. apply slice_head in HR as [HK HR]. fold r in HR. apply slice_head in HR as [Hty HR]. apply slice_head in HR as [Hcl HR]. apply slice_head in HR as [_ HR].
  apply slice_head in HR as [Hrd HR]. apply slice_head in HR as [HA HF']. cbn [length w16 w32] in Hty, Hcl, Hrd, HA, HF'. change (Z.of_nat 2) with 2 in *. change (Z.of_nat 4) with 4 in *.
  replace (r + 2 + 2 + 4) with (r + 8) in * by lia. replace (r + 8 + 2) with (r + 10) in * by lia. destruct Hals as [_ Ha255].
  split; [done |]. split; [apply (rd16_piece (fun _ => [])); [lia | done] |]. split; [apply (rd16_piece (fun _ => [])); [lia | done] |]. split; [apply (rd16_piece (fun _ => [])); [lia | done] |].
  split; [done |]. split; [done |]. rewrite ER, !length_app. cbn [length w16 w32]. lia.
Qed.

Lemma added_record : exists l, tsig_record packet' (packet_len + len R) added_rr l (packet_len + len R) (arcount + 1).
Proof.
  destruct added_pieces as (HK & Hty & Hcl & Hrd & HA & HF & HR). set (F := tsig_fields added_rr) in *. set (r := packet_len + len (wire_name kls)) in *.
  unfold DNS_HEADER_SIZE in Hhead. pose proof Hmsg as (qd & an & ns & qe & l & Eq & Ea & En & Ear & Hqs & Hrec & Hl & Hno). pose proof (rd16_word packet Hbytes _ _ Ear) as (_ & _ & Har0).
  pose proof (questions_le packet packet_len _ _ _ Hqs ltac:(done)) as [Hqe _]. unfold DNS_HEADER_SIZE in Hqe.
  assert (full_at packet' (packet_len + len R) packet_len kls r) as Hfk. { destruct Hkls. split; [done |]. split; [done |]. split; [done |]. split; [done | unfold r in *; lia]. }
  destruct (full_decodes packet' (packet_len + len R) packet_len kls r ltac:(lia) Hfk) as [Hdk Hek].
  assert (forall i, i + 2 <= 10 -> rd16 packet' i = rd16 packet i) as H16 by (intros i Hi; unfold rd16; by rewrite !added_rd by lia).
  exists l, qd, an, ns, qe, r, kls, als. rewrite !H16 by lia. do 3 (split; [done |]). split; [| split; [| split; [| split; [| split; [lia | split; [lia | split; [done |]]]]]]].
  - apply (rd16_piece (fun _ => [])); [lia |]. assert (u16 (arcount + 1) = arcount + 1) as E by (unfold u16; apply Z.mod_small; lia). rewrite <- E. apply (splice_slice_self _ 10 (w16 (u16 (arcount + 1)))); rewrite ?length_splice; cbn [length w16]; lia.
  - apply (questions_agree packet packet' packet_len); [lia | done | done |]. unfold DNS_HEADER_SIZE. intros i Hi. symmetry. apply added_rd. lia.
  - apply (records_agree packet packet' packet_len); [done | lia | done | lia |]. intros i Hi. symmetry. apply added_rd. lia.
  - cbn [rr_offset added_rr]. eapply records_cons; [exact Hek | done | done | lia |]. replace (r + 10 + (len (wire_name als) + len F)) with (packet_len + len R) by lia. constructor.
  - destruct Hkls as [_ Hk255], Hals as [Haw Ha255]. cbn [rr_offset added_rr]. split; [by exists (length kls) |]. split; [done |]. split; [done |]. split; [done |]. split; [done |]. split; [rewrite Hrd; f_equal; lia |].
    split; [split; [done |]; split; [done |]; split; [done |]; cbn [timers_offset added_rr]; split; lia |]. split; [done |]. split; [done |]. split; [cbn [timers_offset added_rr]; fold F; lia |].
    unfold tsig_wf. cbn [time_signed fudge mac_size Tsig.mac orig_id rr_error other_len Tsig.other added_rr]. apply rd16_word in Hid; [| done]. lia.
Qed.

End Added.

(** ** Lemmas: the names of the key, as they are read back *)

Lemma lower_dot c : (lc c =? DOT) = (c =? DOT) /\ (lc c =? BACKSLASH) = (c =? BACKSLASH).
Proof. rewrite lc_tolower. unfold tolower, DOT, BACKSLASH. case_if; [| done]. cmp_prop. unfold isupper in *. cmp_prop. lia. Qed.

(** In a text without escapes, the labels are lowered with the text. *)
Lemma lower_parse_label p : forall acc, Forall (fun c => c <> BACKSLASH) p ->
  parse_label_from (map lc p) (map lc acc) = (let! '(l, q) := parse_label_from p acc in Ret (map lc l, option_map (map lc) q)) /\
  (forall l p', parse_label_from p acc = Ret (l, Some p') -> Forall (fun c => c <> BACKSLASH) p').
Proof.
  induction p as [| c p IH]; intros acc Hp; cbn [parse_label_from map]; [done |]. apply Forall_cons_1 in Hp as [Hc Hp]. destruct (lower_dot c) as [-> ->].
  rewrite (proj2 (Z.eqb_neq _ _)) by done. destruct (c =? DOT); [split; [done |]; by intros l p' [= <- <-] |]. rewrite length_map. destruct (63 <=? len acc); [done |].
  specialize (IH (acc ++ [c]) Hp). rewrite map_app in IH. exact IH.
Qed.

Lemma lower_parse_labels fuel : forall p, (forall p', p = Some p' -> Forall (fun c => c <> BACKSLASH) p') ->
  parse_labels fuel (option_map (map lc) p) = (let! raw := parse_labels fuel p in Ret (map (map lc) raw)).
Proof.
  induction fuel as [| fuel IH]; intros [p |] Hp; cbn [parse_labels option_map] in *; try done.
  destruct (lower_parse_label p [] (Hp p eq_refl)) as [Hl Hq]. unfold parse_label in *. cbn [map] in Hl. rewrite Hl. destruct (parse_label_from p []) as [[l q] | | |]; try done. cbn [obind] in *.
  rewrite IH by (intros p' ->; by eapply Hq). by destruct (parse_labels fuel q).
Qed.

Lemma lower_text_labels name : Forall (fun c => c <> BACKSLASH) name -> text_labels (map lc name) = (let! raw := text_labels name in Ret (map (map lc) raw)).
Proof. intros Hn. unfold text_labels, name_fuel in *. rewrite length_map. apply (lower_parse_labels _ (Some name)). by intros ? [= <-]. Qed.

(** The algorithm is recognised in the record: the table, with and without a
    final dot. *)
Definition alg_read_back (name : list Z) (md : evp_md) : bool :=
  match text_labels name with
  | Ret raw => bool_decide (tsig_algorithm_from_name (expanded (List.filter nonempty raw)) = Some md) && (len (wire_name (List.filter nonempty raw)) <=? 255)
  | _ => false
  end.

Lemma table_read_back : forallb (fun '(name, md) => alg_read_back name md && alg_read_back (name ++ [DOT]) md && forallb (fun c => negb (c =? BACKSLASH) && (tolower c =? c)) name) g_tsig_alg_table = true.
Proof. by vm_compute. Qed.

Lemma find_alg_in table alg md : find_alg table alg = Some md -> exists name, In (name, md) table /\ map tolower alg = map tolower name.
Proof.
  induction table as [| [name md'] table IH]; [done |]. cbn [find_alg]. unfold strcaseeq. case_bool_decide as E.
  - intros [= <-]. exists name. by split; [left |].
  - intros Hf. destruct (IH Hf) as (name' & Hin & E'). exists name'. by split; [right |].
Qed.

Lemma alg_text alg md : tsig_algorithm_from_name alg = Some md -> exists name, In (name, md) g_tsig_alg_table /\ (map tolower alg = map tolower name \/ map tolower alg = map tolower name ++ [DOT]).
Proof.
  intros Hf. apply find_alg_in in Hf as (name & Hin & E). exists name. split; [done |]. unfold without_dot in E. destruct alg as [| c alg _] using rev_ind; [by left |].
  rewrite last_snoc, removelast_last in E. destruct (Z.eqb_spec c DOT) as [-> | _]; [| by left]. right. by rewrite map_app, E.
Qed.

Lemma lower_eq (a b : list Z) : map tolower a = b -> map lc a = b.
Proof. intros <-. apply map_ext. apply lc_tolower. Qed.

Lemma lower_filter raw : List.filter nonempty (map (map lc) raw) = written_labels true raw.
Proof.
  unfold written_labels. induction raw as [| l raw IH]; [done |]. cbn [map List.filter]. assert (nonempty (map lc l) = nonempty l) as -> by (unfold nonempty; by rewrite length_map).
  destruct (nonempty l); [cbn [map]; by rewrite IH | done].
Qed.

Lemma cased_twice ls : map (cased true) (map (cased true) ls) = map (cased true) ls.
Proof. rewrite map_map. apply map_ext. intros l. unfold cased. rewrite map_map. apply map_ext. apply lc_idem. Qed.

(** A supported algorithm has a canonical form, which names it. *)
Lemma alg_canonical alg md : bytes alg -> tsig_algorithm_from_name alg = Some md ->
  exists als, Forall label_wf als /\ len (wire_name als) <= 255 /\ canonical_name alg = Some (wire_name als) /\ tsig_algorithm_from_name (expanded als) = Some md /\ map (cased true) als = als.
Proof.
  intros Hbytes Hf. apply alg_text in Hf as (name & Hin & Ht). pose proof (proj1 (forallb_forall _ _) table_read_back _ Hin) as Hb. cbn beta iota in Hb. apply andb_true_iff in Hb as [Hb Hchars]. apply andb_true_iff in Hb as [Hb1 Hb2].
  assert (map tolower name = name) as En. { clear - Hchars. induction name as [| c name IH]; [done |]. cbn [forallb map] in *. apply andb_true_iff in Hchars as [Hc Hn]. rewrite IH by done. f_equal. lia. }
  assert (Forall (fun c => c <> BACKSLASH) name) as Hname by (apply Forall_forall; intros c Hc; apply list_elem_of_In in Hc; apply (proj1 (forallb_forall _ _) Hchars) in Hc; lia).
  assert (alg_read_back (map lc alg) md = true /\ Forall (fun c => c <> BACKSLASH) (map lc alg)) as [Hrb Hns].
  { rewrite En in Ht. destruct Ht as [Ht | Ht]; apply lower_eq in Ht; rewrite Ht; [done |]. split; [done |]. apply Forall_app. split; [done |]. by constructor. }
  assert (Forall (fun c => c <> BACKSLASH) alg) as Ha. { clear - Hns. induction alg as [| c alg IH]; [done |]. cbn [map] in Hns. apply Forall_cons_1 in Hns as [Hc Hns]. constructor; [intros ->; by apply Hc | by apply IH]. }
  unfold alg_read_back in Hrb. rewrite lower_text_labels in Hrb by done. destruct (text_labels alg) as [raw | | |] eqn:Er; try done. cbn [obind] in Hrb. rewrite lower_filter in Hrb.
  apply andb_true_iff in Hrb as [Hmd H255]. apply bool_decide_eq_true in Hmd. apply Z.leb_le in H255. exists (written_labels true raw).
  split; [apply lower_wf; by eapply text_labels_wf |]. split; [done |]. split; [unfold canonical_name; rewrite Er; by rewrite (proj2 (Z.leb_le _ _)) |]. split; [done | apply cased_twice].
Qed.

(** A name in canonical text. *)
Definition canonical_text (name : list Z) : Prop := exists raw, name = render raw /\ raw <> [] /\ Forall octets63 raw /\ normal_labels raw = true.

Lemma host_filter raw : normal_labels raw = true -> host_labels raw = List.filter nonempty raw /\ len (wire_name (List.filter nonempty raw)) <= 255.
Proof.
  unfold normal_labels, host_labels. case_bool_decide as E1; [subst; by split |]. case_bool_decide as E2; [subst; by split |]. cbn [orb]. intros Hn. apply andb_true_iff in Hn as [Hn H255].
  assert (loop_labels raw = List.filter nonempty raw) as E; [| rewrite E in *; split; [done | lia]]. clear H255 E2.
  induction raw as [| l raw IH]; [done |]. destruct (decide (raw = [[]])) as [-> | Hne].
  - cbn [loop_labels forallb List.filter] in *. by destruct (nonempty l).
  - rewrite loop_labels_cons in * by done. cbn [forallb List.filter] in *. apply andb_true_iff in Hn as [-> Hn]. by rewrite IH.
Qed.

Lemma loop_closed ls : ls <> [] -> Forall label_wf ls -> loop_labels (ls ++ [[]]) = ls.
Proof.
  intros Hne Hwf. induction ls as [| l ls IH]; [done |]. apply Forall_cons_1 in Hwf as [Hl Hwf]. destruct ls as [| l' ls]; [done |]. cbn [app]. rewrite loop_labels_cons by (by destruct ls).
  cbn [app] in IH. by rewrite IH.
Qed.

Lemma closed_normal ls : Forall label_wf ls -> len (wire_name ls) <= 255 -> let raw := match ls with [] => [[]; []] | _ => ls ++ [[]] end in
  expanded ls = render raw /\ normal_labels raw = true /\ host_labels raw = ls /\ Forall octets63 raw /\ raw <> [].
Proof.
  intros Hwf H255 raw. split; [unfold raw; rewrite expanded_render; by destruct ls |]. assert (octets63 []) as H0 by (by split).
  destruct ls as [| l0 ls0]; [split; [done |]; split; [done |]; split; [by repeat constructor | done] |]. set (ls := l0 :: ls0) in *. change raw with (ls ++ [[]]).
  assert (forallb nonempty ls = true) as Hf. { apply forallb_forall. intros l Hl. apply list_elem_of_In in Hl. apply (proj1 (Forall_forall _ _) Hwf) in Hl as [_ Hl]. unfold nonempty. lia. }
  assert (1 <= len l0) as Hl0 by (apply Forall_cons_1 in Hwf as [[_ ?] _]; lia).
  assert (ls ++ [[]] <> [[]] /\ ls ++ [[]] <> [[]; []]) as [N1 N2] by (unfold ls; split; intros [= -> ?]; cbn [length] in Hl0; lia).
  unfold normal_labels, host_labels. rewrite !bool_decide_eq_false_2, loop_closed by done. cbn [orb]. rewrite Hf. split; [cbn [andb]; lia |]. split; [done |]. split; [| by destruct ls].
  apply Forall_app. split; [| by constructor]. eapply Forall_impl; [exact Hwf |]. intros l [? ?]. split; [done | lia].
Qed.

(** The name that is read back from the record is the name of the key. *)
Lemma key_canonical name : canonical_text name ->
  exists kls, Forall label_wf kls /\ len (wire_name kls) <= 255 /\ canonical_name name = Some (wire_name kls) /\ domain_names_match_ci (expanded kls) name = true.
Proof.
  intros (raw & -> & Hne & Hwf & Hn). destruct (host_filter raw Hn) as [Hh H255]. pose proof (text_labels_render raw Hne Hwf) as Er. exists (written_labels true raw).
  assert (Forall label_wf (written_labels true raw)) as Hlw by by apply lower_wf. assert (len (wire_name (written_labels true raw)) <= 255) as Hl255 by (by rewrite lower_length).
  split; [done |]. split; [done |]. split; [unfold canonical_name; rewrite Er; by rewrite (proj2 (Z.leb_le _ _)) |].
  destruct (closed_normal _ Hlw Hl255) as (-> & Hn' & Hh' & Hw' & Hne'). apply canonical_names_match; try done. rewrite Hh, Hh'. unfold written_labels. rewrite !map_map.
  apply map_ext. intros l. unfold cased. rewrite map_map. apply map_ext, lc_idem.
Qed.

(** ** Signing and verifying *)

(** A key the server can sign with. *)
Definition usable_key (key : tsig_key_t) (md : evp_md) : Prop :=
  canonical_text (key_name key) /\ bytes (key_name key) /\ bytes (key_alg key) /\ tsig_algorithm_from_name (key_alg key) = Some md /\ secret_decoded key <> [].

Section Round.
Context `{Hmac}.
Variables (time1 time2 now : Z) (packet : list Z) (packet_len max arcount needed : Z) (key : tsig_key_t) (md : evp_md) (e : Z) (prior msgs : list Z) (sub : bool) (times : option (Z * Z)).
Hypothesis Hbytes : bytes packet.
Hypothesis Hhead : DNS_HEADER_SIZE <= packet_len.
Hypothesis Hmsg : message packet packet_len arcount.
Hypothesis Har : arcount < 65535.
Hypothesis Hkey : usable_key key md.
Hypothesis He : 0 <= e < 65536 /\ e <> 16 /\ e <> 17.
Hypothesis Hneeded : tsig_rr_wire_size (key_name key) (key_alg key) e = Ret needed.
Hypothesis Hroom : packet_len + needed <= max <= len packet.
Hypothesis Htime : 0 <= fst (sign_times time1 key times) < 2 ^ 48 /\ 0 <= snd (sign_times time1 key times) < 65536.
Hypothesis Hnow : 0 <= now /\ Z.abs ((if 0 <? fuzztime key then fuzztime key else now) - fst (sign_times time1 key times)) <= snd (sign_times time1 key times).

Lemma sign_then_verify : exists packet' packet_len' mac,
  tsig_sign_packet_ex time1 time2 packet packet_len max key e prior msgs sub times = Ret (packet', packet_len', mac) /\
  (forall i, i < 10 \/ 12 <= i < packet_len -> rd packet' i = rd packet i) /\ bytes packet' /\ len packet' = len packet /\ packet_len < packet_len' <= max /\ len mac = EVP_MD_size md /\
  (exists rr l, tsig_record packet' packet_len' rr l packet_len' (arcount + 1) /\ rr_offset rr = packet_len /\ domain_names_match_ci (rr_key_name rr) (key_name key) = true /\
     tsig_algorithm_from_name (rr_alg_name rr) = Some md /\ mac_size rr = len mac) /\
  tsig_verify_packet_ex now packet' packet_len' key prior msgs sub = Ret (0, Some mac, false).
Proof.
  destruct Hkey as (Hct & Hbn & Hba & Hmd & Hsec). destruct (key_canonical _ Hct) as (kls & Hkw & Hk255 & HK & Hmatch). destruct (alg_canonical _ _ Hba Hmd) as (als & Haw & Ha255 & HA & Halg & Hlow).
  rewrite (wire_size key e (wire_name kls) (wire_name als) Hbn Hba HK HA) in Hneeded. injection Hneeded as <-.
  set (T := sign_times time1 key times) in *. set (mac := HMAC md (secret_decoded key) (sign_digest time1 time2 packet packet_len key e prior msgs sub times (wire_name kls) (wire_name als))).
  assert (len mac = EVP_MD_size md) as Hml by apply hmac_length. assert (EVP_MD_size md <= 64) as H64 by (by destruct md). assert (Z.max 10 (EVP_MD_size md / 2) <= EVP_MD_size md) as Hmin by (by destruct md).
  assert (len (sign_other time2 e) = if e =? 18 then 6 else 0) as Ho by (unfold sign_other; by case_if). assert (len (sign_other time2 e) <= 6) as Ho6 by (rewrite Ho; by case_if).
  unfold DNS_HEADER_SIZE, EVP_MAX_MD_SIZE in *. destruct (Edns.rd16_range packet 0 Hbytes) as (id & Eid & Hid); [lia | lia |]. assert (rd16 packet 10 = Ret arcount) as Ear by (by destruct Hmsg as (? & ? & ? & ? & ? & ? & ? & ? & ? & ?)).
  pose proof (rd16_word packet Hbytes _ _ Ear) as (_ & _ & Har0).
  assert (sign_mac key e (sign_digest time1 time2 packet packet_len key e prior msgs sub times (wire_name kls) (wire_name als)) = Ret mac) as Hsm.
  { unfold sign_mac. rewrite (proj2 (Z.eqb_neq e 16)), (proj2 (Z.eqb_neq e 17)) by lia. cbn [orb]. rewrite (proj2 (Z.ltb_lt _ _)) by (destruct (secret_decoded key); [done | cbn [length]; lia]). by rewrite Hmd. }
  pose proof (sign_spec time1 time2 packet packet_len max key e prior msgs sub times _ _ mac arcount Hbytes Hbn Hba HK HA Hhead Ear ltac:(unfold EVP_MAX_MD_SIZE; lia) ltac:(lia) Hsm ltac:(unfold EVP_MAX_MD_SIZE; lia)) as Hsign.
  unfold sign_octets in Hsign. fold T in Hsign. set (R := tsig_octets (wire_name kls) (wire_name als) T mac (take 2 packet) e (sign_other time2 e)) in *.
  assert (len R <= len (wire_name kls) + 10 + len (wire_name als) + 10 + 64 + 6 + len (sign_other time2 e) /\ 10 <= len R) as HlR.
  { unfold R, tsig_octets, tsig_rdata. rewrite (take_id packet id Hbytes Eid). rewrite !length_app. cbn [length w16 w48]. lia. }
  assert (packet_len + len R <= len packet) as HfitR by lia.
  set (packet' := splice (splice packet packet_len R) 10 (w16 (u16 (arcount + 1)))) in *.
  destruct (added_record packet packet_len arcount id kls als T mac e (sign_other time2 e)) as (l & Hrec); try (exact HfitR || done || lia). fold R packet' in Hrec.
  set (rr := added_rr packet_len id kls als T mac e (sign_other time2 e)) in *.
  assert (len packet' = len packet) as Hl' by (unfold packet', R; f_equal; apply added_length; try (exact HfitR || done || lia)).
  assert (bytes packet') as Hb'.
  { apply bytes_splice; [apply bytes_splice; [done |] | auto with octets]. apply octets_bytes; [by apply wire_name_bytes | by apply wire_name_bytes | apply hmac_bytes | by apply Forall_take | unfold sign_other; case_if; [apply w48_bytes | constructor]]. }
  exists packet', (packet_len + len R), mac. split; [exact Hsign |]. split; [intros i Hi; apply added_rd; exact HfitR || done || lia |]. split; [done |]. split; [done |]. split; [lia |]. split; [done |].
  split; [by exists rr, l |]. assert (authentic packet' (packet_len + len R) key prior msgs sub rr) as Hauth.
  { exists l, (packet_len + len R), (arcount + 1), md, (wire_name kls ++ [0; 255; 0; 0; 0; 0] ++ wire_name als). split; [done |]. split; [done |]. split; [done |]. split; [done |].
    split; [unfold digest_names; rewrite HK; cbn [rr_alg_name rr added_rr]; rewrite canonical_expanded, Hlow by done; done |]. cbn [mac_size rr added_rr Tsig.mac rr_offset orig_id time_signed fudge rr_error Tsig.other].
    split; [lia |]. unfold packet', R. rewrite added_signed; try (exact HfitR || done || lia).
    symmetry. rewrite take_ge; [done |]. apply Nat2Z.inj_le. rewrite hmac_length, Z2Nat.id; lia. }
  destruct (verify_verdict packet' (packet_len + len R) key prior msgs sub Hb' ltac:(lia) now _ Hbn HK ltac:(lia)) as ([[code mo] tr] & -> & Hm & Hc & _ & Htr).
  assert (code = 0) as -> by (apply Hc; exists rr; split; [done |]; cbn [time_signed fudge rr added_rr]; lia). assert (mo = Some mac) as -> by (apply Hm; by exists rr).
  rewrite (Htr mac md eq_refl Hmd), Hml, (proj2 (Z.ltb_ge _ _)) by lia. done.
Qed.

End Round.

(** ** Requests and responses *)

Lemma find_key_unique l test k : In k l -> test k = true -> (forall k', In k' l -> test k' = true -> k' = k) -> find_key l test = Some k.
Proof.
  intros Hin Hk Hu. induction l as [| k0 l IH]; [done |]. cbn [find_key]. destruct (test k0) eqn:E; [f_equal; apply Hu; [by left | done] |].
  destruct Hin as [-> | Hin]; [congruence |]. apply IH; [done |]. intros k' Hk'. apply Hu. by right.
Qed.

Lemma find_key_app l1 l2 test : find_key (l1 ++ l2) test = match find_key l1 test with Some k => Some k | None => find_key l2 test end.
Proof. induction l1 as [| k l1 IH]; [done |]. cbn [app find_key]. by destruct (test k). Qed.

(** The only key of its name and algorithm that requests in the view can use. *)
Definition only_key (cfg : server_keys) (view_name : option (list Z)) (key : tsig_key_t) : Prop :=
  In key (view_own_keys cfg view_name ++ keys cfg) /\
  forall k, In k (view_own_keys cfg view_name ++ keys cfg) -> domain_names_match_ci (key_name k) (key_name key) = true ->
    tsig_algorithm_from_name (key_alg k) = tsig_algorithm_from_name (key_alg key) -> k = key.

Lemma request_key_found cfg view_name key rr md : only_key cfg view_name key -> tsig_algorithm_from_name (key_alg key) = Some md ->
  domain_names_match_ci (rr_key_name rr) (key_name key) = true -> tsig_algorithm_from_name (rr_alg_name rr) = Some md -> request_key cfg view_name rr = Some key.
Proof.
  intros [Hin Hu] Hk Hm Ha. unfold request_key. rewrite Ha. cbv zeta. rewrite <- find_key_app. apply match_ci_relative in Hm. apply find_key_unique; [done | |].
  - rewrite bool_decide_eq_true_2 by done. rewrite andb_true_r. by apply match_ci_relative.
  - intros k' Hin' Ht. apply andb_true_iff in Ht as [Hm' Ha']. apply bool_decide_eq_true in Ha'. apply match_ci_relative in Hm'. apply Hu; [done | apply match_ci_relative; congruence | congruence].
Qed.

Section Exchange.
Context `{Hmac}.

Lemma request_valid now cfg view_name key packet packet_len rr l e arcount m :
  bytes packet -> packet_len <= len packet -> tsig_record packet packet_len rr l e arcount -> 0 < arcount -> request_key cfg view_name rr = Some key ->
  tsig_verify_packet_ex now packet packet_len key [] [] false = Ret (0, Some m, false) ->
  tsig_check_request_nolog now cfg view_name packet packet_len =
  Ret (TsigRequest TSIG_REQ_VALID 0 (Some key) (rr_offset rr) m (time_signed rr) (fudge rr) (rr_key_name rr) (rr_alg_name rr)).
Proof.
  intros Hb Hl Hrec Har Hk Hv. pose proof (record_facts _ _ _ _ _ _ Hb Hl Hrec) as (Ho & E10 & _). unfold tsig_check_request_nolog, DNS_HEADER_SIZE in *. rewrite (proj2 (Z.ltb_ge _ _)) by lia.
  destruct (Edns.rd_range packet 10 Hb) as (a0 & E0 & H0); [lia |]. destruct (Edns.rd_range packet 11 Hb) as (a1 & E1 & H1); [lia |]. rewrite E0, E1. cbn [obind].
  unfold rd16 in E10. rewrite E0 in E10. change (10 + 1) with 11 in E10. rewrite E1 in E10. cbn [obind] in E10. case_if; [cmp_prop; subst; by injection E10 as <- |].
  rewrite (parse_complete packet packet_len Hb Hl rr l e arcount) by (done || unfold DNS_HEADER_SIZE; lia). cbn [obind]. rewrite Hk, Hv. done.
Qed.

End Exchange.

(** ** A sample *)

(** A checksum with a key, in place of the keyed hash. *)
Definition plain_HMAC (md : evp_md) (key data : list Z) : list Z :=
  map (fun i => u8 (fold_left (fun a c => a * 31 + c + i) (key ++ data) 7)) (seqZ 0 (EVP_MD_size md)).

Lemma plain_hmac_bytes md key data : bytes (plain_HMAC md key data).
Proof. unfold plain_HMAC. apply Forall_forall. intros c Hc. apply list_elem_of_In, in_map_iff in Hc as (i & <- & _). apply u8_range. Qed.

Lemma plain_hmac_length md key data : len (plain_HMAC md key data) = EVP_MD_size md.
Proof. unfold plain_HMAC. rewrite length_map, length_seqZ. by destruct md. Qed.

#[export] Instance plain_Hmac : Hmac := {| HMAC := plain_HMAC; hmac_bytes := plain_hmac_bytes; hmac_length := plain_hmac_length |}.

(** A query for a.org and its response, and the key of the client. *)
Definition sample_key : tsig_key_t := TsigKey (str "client.Example.") (Some (str "HMAC-SHA256.")) [1; 2; 3; 4] 0.

Definition sample_query : list Z := [18; 52; 1; 0; 0; 1; 0; 0; 0; 0; 0; 0; 1; 97; 3; 111; 114; 103; 0; 0; 1; 0; 1] ++ replicate 200 0.

Definition sample_response : list Z :=
  [18; 52; 129; 128; 0; 1; 0; 1; 0; 0; 0; 0; 1; 97; 3; 111; 114; 103; 0; 0; 1; 0; 1; 192; 12; 0; 1; 0; 1; 0; 0; 14; 16; 0; 4; 192; 0; 2; 1] ++ replicate 200 0.

Definition sample_config : server_keys := ServerKeys [TsigKey (str "other.example.") None [9] 0; sample_key] [].

Lemma sample_usable : usable_key sample_key EVP_sha256.
Proof.
  split; [| split; [bytes_lit | split; [bytes_lit | done]]]. exists [str "client"; str "Example"; []]. split; [done |]. split; [done |].
  split; [| done]. repeat (apply Forall_cons_2; [split; [bytes_lit | vm_compute; congruence] |]). apply Forall_nil_2.
Qed.

Lemma sample_query_message : message sample_query 23 0.
Proof.
  exists 1, 0, 0, 23, []. do 4 (split; [done |]). split; [| split; [constructor | done]]. apply (questions_cons sample_query 23 0 12 19 23); [| lia | constructor].
  eapply end_label; [reflexivity | lia |]. eapply end_label; [reflexivity | lia |]. by apply end_root.
Qed.

Lemma sample_response_message : message sample_response 39 0.
Proof.
  exists 1, 1, 0, 23, [(23, 1)]. do 4 (split; [done |]). split; [| split; [| split; [done | by repeat constructor]]].
  - apply (questions_cons sample_response 39 0 12 19 23); [| lia | constructor]. eapply end_label; [reflexivity | lia |]. eapply end_label; [reflexivity | lia |]. by apply end_root.
  - apply (records_cons sample_response 39 23 25 1 4 [] 39); [by eapply end_pointer | done | done | lia | constructor].
Qed.

Lemma sample_only : only_key sample_config None sample_key.
Proof. split; [right; by left |]. intros k Hk. cbn [view_own_keys sample_config keys app] in Hk. destruct Hk as [<- | [<- | []]]; [| done]. intros E. by vm_compute in E. Qed.

(** The query, signed. *)
Definition sample_signed : list Z * Z :=
  match tsig_sign_packet 1000 1000 sample_query 23 200 sample_key 0 [] [] false with Ret (packet, n, _) => (packet, n) | _ => ([], 0) end.

(** The time of the verifier: that of the key in tests, else the clock. *)
Definition clock (key : tsig_key_t) (now : Z) : Z := if 0 <? fuzztime key then fuzztime key else now.

(** ** Properties *)

(** C20. Verification never reads outside the message and gives a verdict
    for every message: the code 0 exactly when the last record of the
    additional section is the only TSIG record, names the key and its
    algorithm, and carries a prefix of sufficient length of the keyed hash of
    the digest of RFC 8945 (the prior MAC, the messages in between, the
    message without the TSIG record and under its original ID, and the TSIG
    variables) with a time within the fudge; the code 18 (BADTIME) exactly
    when only the time is wrong; and the MAC is handed on, to authenticate
    the response, exactly in these two cases. *)
Theorem tsig_verify_exact `{Hmac} (now : Z) (packet : list Z) (packet_len : Z) (key : tsig_key_t) (prior msgs K : list Z) (sub : bool) :
  bytes packet -> packet_len <= len packet -> bytes (key_name key) -> canonical_name (key_name key) = Some K -> 0 <= now ->
  exists code mac_out truncated, tsig_verify_packet_ex now packet packet_len key prior msgs sub = Ret (code, mac_out, truncated) /\
    (forall m, mac_out = Some m <-> exists rr, authentic packet packet_len key prior msgs sub rr /\ m = mac rr) /\
    (code = 0 <-> exists rr, authentic packet packet_len key prior msgs sub rr /\ Z.abs (clock key now - time_signed rr) <= fudge rr) /\
    (code = 18 <-> exists rr, authentic packet packet_len key prior msgs sub rr /\ fudge rr < Z.abs (clock key now - time_signed rr)) /\
    (forall m md, mac_out = Some m -> tsig_algorithm_from_name (key_alg key) = Some md -> truncated = (len m <? EVP_MD_size md)).
Proof. intros Hb Hl Hk HK Hnow. destruct (verify_verdict packet packet_len key prior msgs sub Hb Hl now K Hk HK Hnow) as ([[code m] t] & Hv & Hr). by exists code, m, t. Qed.

Lemma tsig_verify_exact_witness : let '(packet, n) := sample_signed in
  exists code mac_out truncated, tsig_verify_packet_ex 1200 packet n sample_key [] [] false = Ret (code, mac_out, truncated) /\
    (forall m, mac_out = Some m <-> exists rr, authentic packet n sample_key [] [] false rr /\ m = mac rr) /\
    (code = 0 <-> exists rr, authentic packet n sample_key [] [] false rr /\ Z.abs (1200 - time_signed rr) <= fudge rr) /\
    (code = 18 <-> exists rr, authentic packet n sample_key [] [] false rr /\ fudge rr < Z.abs (1200 - time_signed rr)) /\
    (forall m md, mac_out = Some m -> tsig_algorithm_from_name (key_alg sample_key) = Some md -> truncated = (len m <? EVP_MD_size md)).
Proof.
  destruct sample_signed as [packet n] eqn:E. vm_compute in E. injection E as <- <-. eapply (tsig_verify_exact 1200 _ _ sample_key [] [] _ false); [bytes_lit | vm_compute; congruence | bytes_lit | vm_compute; reflexivity | lia].
Defined.

(** C21. A message that is signed is accepted by a verifier that has the key
    and the same prior MAC, within the fudge of the time of signing: the
    signer finds room where [tsig_rr_wire_size] says so, changes of the
    message only the count of additional records, and the record it adds is
    read back with the names, whatever their case, the MAC and the time. *)
Theorem tsig_sign_verify_roundtrip `{Hmac} (time1 time2 now : Z) (packet : list Z) (packet_len max arcount needed : Z) (key : tsig_key_t) (md : evp_md) (e : Z)
    (prior msgs : list Z) (sub : bool) (times : option (Z * Z)) :
  bytes packet -> DNS_HEADER_SIZE <= packet_len -> message packet packet_len arcount -> arcount < 65535 -> usable_key key md -> 0 <= e < 65536 /\ e <> 16 /\ e <> 17 ->
  tsig_rr_wire_size (key_name key) (key_alg key) e = Ret needed -> packet_len + needed <= max <= len packet ->
  0 <= fst (sign_times time1 key times) < 2 ^ 48 /\ 0 <= snd (sign_times time1 key times) < 65536 ->
  0 <= now /\ Z.abs (clock key now - fst (sign_times time1 key times)) <= snd (sign_times time1 key times) ->
  exists packet' packet_len' mac,
    tsig_sign_packet_ex time1 time2 packet packet_len max key e prior msgs sub times = Ret (packet', packet_len', mac) /\
    (forall i, i < 10 \/ 12 <= i < packet_len -> rd packet' i = rd packet i) /\ packet_len < packet_len' <= max /\
    tsig_verify_packet_ex now packet' packet_len' key prior msgs sub = Ret (0, Some mac, false).
Proof.
  intros Hb Hh Hm Ha Hk He Hn Hr Ht Hnow. destruct (sign_then_verify time1 time2 now packet packet_len max arcount needed key md e prior msgs sub times) as (p' & n' & mac & Hs & Hrd & _ & _ & Hl & _ & _ & Hv); try done.
  by exists p', n', mac.
Qed.

Lemma tsig_sign_verify_roundtrip_witness : exists packet' packet_len' mac,
  tsig_sign_packet_ex 1000 1000 sample_response 39 239 sample_key 18 [5; 6] [] false (Some (900, 300)) = Ret (packet', packet_len', mac) /\
  (forall i, i < 10 \/ 12 <= i < 39 -> rd packet' i = rd sample_response i) /\ 39 < packet_len' <= 239 /\
  tsig_verify_packet_ex 700 packet' packet_len' sample_key [5; 6] [] false = Ret (0, Some mac, false).
Proof.
  eapply (tsig_sign_verify_roundtrip 1000 1000 700 sample_response 39 239 0 _ sample_key EVP_sha256 18 [5; 6] [] false (Some (900, 300)));
    [bytes_lit | done | apply sample_response_message | lia | apply sample_usable | lia | vm_compute; reflexivity | vm_compute; intuition congruence | cbn; lia | cbn; lia].
Defined.

(** C22. A request that a client signs with a key of the server is found
    valid, with the key, the octets in front of the TSIG record and the MAC;
    and the response, which is signed in the room that
    [tsig_response_reserve] sets aside, is accepted by the client as the
    answer to the request, under the MAC it sent. *)
Theorem tsig_exchange_authenticated `{Hmac} (time1 time2 now : Z) (cfg : server_keys) (view_name : option (list Z)) (key : tsig_key_t) (md : evp_md)
    (req : list Z) (req_len req_max arcount needed : Z) :
  usable_key key md -> fuzztime key = 0 -> only_key cfg view_name key ->
  bytes req -> DNS_HEADER_SIZE <= req_len -> message req req_len arcount -> arcount < 65535 ->
  tsig_rr_wire_size (key_name key) (key_alg key) 0 = Ret needed -> req_len + needed <= req_max <= len req -> 0 <= time1 < 2 ^ 48 -> 0 <= now -> Z.abs (now - time1) <= 300 ->
  exists req' req_len' mac t,
    tsig_sign_packet time1 time2 req req_len req_max key 0 [] [] false = Ret (req', req_len', mac) /\ tsig_check_request_nolog now cfg view_name req' req_len' = Ret t /\
    status t = TSIG_REQ_VALID /\ req_key t = Some key /\ stripped_len t = req_len /\
    forall (time3 time4 client_now : Z) (res : list Z) (res_len max arcount' reserve : Z),
      bytes res -> DNS_HEADER_SIZE <= res_len -> message res res_len arcount' -> arcount' < 65535 -> tsig_response_reserve t = Ret reserve -> res_len + reserve <= max <= len res ->
      0 <= time3 < 2 ^ 48 -> 0 <= client_now -> Z.abs (client_now - time3) <= 300 ->
      exists res' res_len' mac', tsig_finish_response time3 time4 res res_len max t = Ret (res', res_len') /\ res_len < res_len' <= max /\
        tsig_verify_packet client_now res' res_len' key mac [] false = Ret (0, Some mac').
Proof.
  intros Hk Hf Ho Hb Hh Hm Ha Hn Hr Ht Hnow0 Hnow. pose proof Hk as (_ & _ & _ & Hmd & _).
  assert (forall t, sign_times t key None = (t, 300)) as Est by (intros t; unfold sign_times; by rewrite Hf).
  destruct (sign_then_verify time1 time2 now req req_len req_max arcount needed key md 0 [] [] false None) as (p' & n' & mac & Hs & _ & Hb' & Hl' & Hn' & _ & (rr & l & Hrec & Hoff & Hmatch & Halg & _) & Hv);
    rewrite ?Est, ?Hf; cbn [fst snd]; try (done || lia).
  assert (0 <= arcount) as Ha0 by (destruct Hm as (? & ? & ? & ? & ? & _ & _ & _ & E & _); by apply rd16_word in E as (_ & _ & ? & _)).
  exists p', n', mac. eexists. split; [exact Hs |]. split; [eapply request_valid; [done | lia | done | lia | by eapply request_key_found | done] |]. split; [done |]. split; [done |]. split; [done |].
  intros time3 time4 cnow res res_len max arc reserve Hb2 Hh2 Hm2 Ha2 Hres Hr2 Ht2 Hc0 Hc2.
  destruct (sign_then_verify time3 time4 cnow res res_len max arc reserve key md 0 mac [] false None) as (p2 & n2 & mac2 & Hs2 & _ & _ & _ & Hn2 & _ & _ & Hv2); rewrite ?Est, ?Hf; cbn [fst snd]; try (done || lia).
  exists p2, n2, mac2. unfold tsig_finish_response. cbn [status req_error req_key req_mac Z.eqb orb]. rewrite (proj2 (Z.ltb_ge _ _)) by done. rewrite Hs2. split; [done |]. split; [done |].
  unfold tsig_verify_packet. by rewrite Hv2.
Qed.

Lemma tsig_exchange_authenticated_witness :
  exists req' req_len' mac t,
    tsig_sign_packet 1000 1000 sample_query 23 223 sample_key 0 [] [] false = Ret (req', req_len', mac) /\ tsig_check_request_nolog 1010 sample_config None req' req_len' = Ret t /\
    status t = TSIG_REQ_VALID /\ req_key t = Some sample_key /\ stripped_len t = 23 /\
    exists res' res_len' mac', tsig_finish_response 1011 1011 sample_response 39 239 t = Ret (res', res_len') /\ 39 < res_len' <= 239 /\
      tsig_verify_packet 1012 res' res_len' sample_key mac [] false = Ret (0, Some mac').
Proof.
  destruct (tsig_exchange_authenticated 1000 1000 1010 sample_config None sample_key EVP_sha256 sample_query 23 223 0 119) as (req' & n & mac & t & Hs & Hc & Hst & Hk & Hl & Hres);
    [apply sample_usable | done | apply sample_only | bytes_lit | done | apply sample_query_message | lia | vm_compute; reflexivity | vm_compute; intuition congruence | lia | lia | lia |].
  exists req', n, mac, t. do 5 (split; [done |]). eapply (Hres 1011 1011 1012 sample_response 39 239 0); [bytes_lit | done | apply sample_response_message | lia | | | lia | lia | lia].
  - unfold tsig_response_reserve. rewrite Hk, Hst. vm_compute. reflexivity.
  - vm_compute; intuition congruence.
Defined.

End TsigRound.
