(* ===== verification/NameWalk.v ===== *)
(** * Names in canonical text, and the walk to their parents

    The zone holds owner names in the canonical text that
    [dns_name_normalize] leaves; a query name is in that form too. On such
    texts the comparisons of dns_utils.c are comparisons of label lists, and
    [strchr_unescaped] (dns_utils.c) finds the end of the first label, by which
    the query engine walks from a name to its parents. *)

From S2P Require Import Prelude CLib DnsName NameText WireName CanonOrder.

Module NameWalk.
Import CLib DnsName NameText WireName CanonOrder.

(** ** Operations *)

(** The rest of the text from the character found: the pointer returned. *)
Fixpoint strchr_unescaped (s : list Z) (c : Z) : option (list Z) :=
  match s with
  | [] => None
  | x :: s' =>
      if x =? BACKSLASH then
        match s' with
        | [] => None
        | _ :: s'' => strchr_unescaped s'' c
        end
      else if x =? c then Some s
      else strchr_unescaped s' c
  end.

(** ** Specification *)

Definition lower (ls : list (list Z)) : list (list Z) := map (map lc) ls.

(** A text in the form of [dns_name_normalize], and the labels of the name. *)
Definition canonical_text (t : list Z) (ls : list (list Z)) : Prop :=
  exists raw, t = render raw /\ raw <> [] /\ Forall octets63 raw /\ normal_labels raw = true /\ ls = host_labels raw.

(** The labels of a name that fits the wire. *)
Definition wire_ok (ls : list (list Z)) : Prop := Forall label_wf ls /\ len (wire_name ls) <= 255.

(** ** Lemmas *)

Lemma octets63_bytes ls : Forall octets63 ls -> Forall bytes ls.
Proof. intros H. eapply Forall_impl; [done |]. by intros ? [? _]. Qed.

Lemma render_bytes ls : Forall bytes ls -> bytes (render ls).
Proof.
  induction 1 as [| l ls Hl Hls IH]; [constructor |]. destruct ls as [| l' ls]; [by apply label_text_bytes |].
  rewrite render_cons. apply Forall_app. split; [by apply label_text_bytes |]. constructor; [by vm_compute | done].
Qed.

Lemma escape_chars c : isbyte c -> cstring (escape c).
Proof.
  intros Hc. assert (forallb (fun c => forallb (fun x => (0 <? x) && (x <? 256)) (escape c)) (seqZ 0 256) = true) as H by by vm_compute.
  apply chars_check. apply (forallb_range _ 0 256 H c). unfold isbyte in Hc. lia.
Qed.

Lemma label_text_chars l : bytes l -> cstring (label_text l).
Proof. unfold label_text. induction 1 as [| c l Hc Hl IH]; [constructor |]. apply Forall_app. split; [by apply escape_chars | done]. Qed.

Lemma render_chars ls : Forall bytes ls -> cstring (render ls).
Proof.
  induction 1 as [| l ls Hl Hls IH]; [constructor |]. destruct ls as [| l' ls]; [by apply label_text_chars |].
  rewrite render_cons. apply Forall_app. split; [by apply label_text_chars |]. constructor; [by vm_compute | done].
Qed.

Section Texts.
Context (t : list Z) (ls : list (list Z)) (Ht : canonical_text t ls).

Lemma canonical_text_name : name_text t ls.
Proof.
  destruct Ht as (raw & -> & Hne & Ho & Hn & ->). split; [by apply render_bytes, octets63_bytes |].
  exists raw. split_and!; [by apply text_labels_render | done..].
Qed.

Lemma canonical_text_chars : cstring t.
Proof. destruct Ht as (raw & -> & Hne & Ho & Hn & ->). by apply render_chars, octets63_bytes. Qed.

Lemma canonical_text_labels : name_labels t = map label_text (lower ls).
Proof. destruct Ht as (raw & -> & Hne & Ho & Hn & ->). apply name_labels_render; [by apply octets63_bytes | done..]. Qed.

Lemma canonical_text_octets63 : Forall octets63 ls.
Proof. destruct Ht as (raw & -> & Hne & Ho & Hn & ->). by apply host_labels_Forall. Qed.

End Texts.

Lemma lower_octets63 ls : Forall octets63 ls -> Forall octets63 (lower ls).
Proof. intros H. apply Forall_map. eapply Forall_impl; [done |]. apply octets63_lc. Qed.

(** Matching is equality of labels without case. *)
Lemma match_labels a la b lb : canonical_text a la -> canonical_text b lb ->
  domain_names_match_ci a b = true <-> lower la = lower lb.
Proof.
  intros Ha Hb. rewrite match_ci_relative, name_labels_lower, (canonical_text_labels _ _ Ha), (canonical_text_labels _ _ Hb).
  split; [| by intros ->]. apply map_label_text_inj; by apply lower_octets63; eapply canonical_text_octets63.
Qed.

Lemma match_hash a la b lb : canonical_text a la -> canonical_text b lb -> lower la = lower lb -> dns_name_hash_ci a = dns_name_hash_ci b.
Proof.
  intros Ha Hb E. apply (match_labels _ _ _ _ Ha Hb) in E. apply match_ci_relative in E.
  rewrite !hash_ci_relative by (by eapply canonical_text_chars). by rewrite E.
Qed.

Lemma suffix_map_inj (f : list Z -> list Z) (P : list Z -> Prop) a b :
  (forall x y, P x -> P y -> f x = f y -> x = y) -> Forall P a -> Forall P b -> map f a `suffix_of` map f b -> a `suffix_of` b.
Proof.
  intros Hinj Ha Hb [k E]. exists (take (length k) b). rewrite <- (take_drop (length k) b) at 1. f_equal.
  assert (map f (drop (length k) b) = map f a) as Hd by (rewrite <- skipn_map, E; by rewrite drop_app_length).
  apply (Forall_drop _ (length k)) in Hb. clear E. revert a Ha Hd. induction Hb as [| y b' Hy Hb' IH]; intros [| x a] Ha E; try done.
  apply Forall_cons in Ha as [Hx Ha]. injection E as E1 E2. f_equal; [by apply Hinj | by apply IH].
Qed.

(** Being at or below is having the labels as the last labels. *)
Lemma below_labels a la b lb : canonical_text a la -> canonical_text b lb ->
  domain_name_is_at_or_below a b = true <-> lower lb `suffix_of` lower la.
Proof.
  intros Ha Hb. rewrite at_or_below_labels, (canonical_text_labels _ _ Ha), (canonical_text_labels _ _ Hb). split.
  - apply (suffix_map_inj _ octets63); [apply label_text_inj | by apply lower_octets63; eapply canonical_text_octets63..].
  - intros [k ->]. rewrite map_app. by apply suffix_app_r.
Qed.

(** The two spellings of a name, and those of the root. *)
Lemma wf_octets63 ls : Forall label_wf ls <-> Forall octets63 ls /\ Forall (fun l => l <> []) ls.
Proof.
  rewrite <- Forall_and. split; intros H; (eapply Forall_impl; [exact H |]); unfold label_wf, octets63.
  - intros l [Hb Hl]. split_and!; [done | lia | intros ->; cbn in Hl; lia].
  - intros l [[Hb Hl] Hn]. split; [done |]. destruct l; [done |]. cbn [length] in *. lia.
Qed.

Lemma normal_host_labels ls : wire_ok ls -> ls <> [] ->
  normal_labels ls = true /\ host_labels ls = ls /\ normal_labels (ls ++ [[]]) = true /\ host_labels (ls ++ [[]]) = ls.
Proof.
  intros [Hw Hl] Hne. apply wf_octets63 in Hw as [_ Hw].
  assert (loop_labels ls = ls /\ loop_labels (ls ++ [[]]) = ls) as [E1 E2].
  { clear Hl. induction Hw as [| l ls Hx Hw IH]; [done |]. destruct ls as [| l' ls]; [cbn; by destruct l |].
    destruct IH as [IH1 IH2]; [done |]. split; [rewrite loop_labels_cons | change ((l :: l' :: ls) ++ [[]]) with (l :: (l' :: ls) ++ [[]]);
    rewrite loop_labels_cons]; rewrite ?IH1, ?IH2; try done; inversion Hw; subst; intros E; injection E; intros; by subst. }
  assert (forallb nonempty ls = true) as Hf.
  { apply forallb_forall. intros l Hi%list_elem_of_In. rewrite Forall_forall in Hw. apply Hw in Hi. by destruct l. }
  unfold normal_labels, host_labels. rewrite E1, E2, Hf. rewrite (proj2 (Z.leb_le _ _) Hl), !orb_true_r.
  destruct ls as [| [| c l] ls]; [done | by inversion Hw |]. by destruct ls as [| [| ? ?] [|]].
Qed.

Lemma canonical_text_iff t ls :
  canonical_text t ls <-> wire_ok ls /\ ((ls <> [] /\ t = render ls) \/ t = render (ls ++ [[]]) \/ (ls = [] /\ t = [DOT])).
Proof.
  split.
  - intros (raw & -> & Hne & Ho & Hn & ->). destruct (normal_host raw Hne Hn) as (Hnn & _ & Hlen & Hraw).
    split; [split; [apply wf_octets63; split; [by apply host_labels_Forall | done] | done] |].
    destruct Hraw as [E | [E | [E1 ->]]]; [left; by rewrite <- E | right; left; by rewrite <- E | by right; right].
  - intros [Hok Ht]. destruct (proj1 (wf_octets63 ls)) as [Ho _]; [apply Hok |].
    assert (octets63 []) as H0 by (split; [constructor | cbn; lia]).
    destruct Ht as [[Hne ->] | [-> | [-> ->]]].
    + destruct (normal_host_labels ls Hok Hne) as (E1 & E2 & _). exists ls. by rewrite E1, E2.
    + destruct (decide (ls = [])) as [-> | Hne]; [exists [[]]; split_and!; [done | done | by constructor | done..] |].
      destruct (normal_host_labels ls Hok Hne) as (_ & _ & E1 & E2). exists (ls ++ [[]]). rewrite E1, E2. split_and!; [done | by destruct ls | | done..].
      apply Forall_app. split; [done | by constructor].
    + exists [[]; []]. split_and!; [done | done | by repeat constructor | done..].
Qed.

Lemma canonical_text_wire t ls : canonical_text t ls -> wire_ok ls.
Proof. by intros [? _]%canonical_text_iff. Qed.

(** ** Lemmas: the end of the first label *)

Lemma strchr_escape c rest : isbyte c -> strchr_unescaped (escape c ++ rest) DOT = strchr_unescaped rest DOT.
Proof.
  intros Hc. unfold escape. case_if; [| case_if].
  - done.
  - cbn [app strchr_unescaped]. rewrite Z.eqb_refl.
    rewrite !(proj2 (Z.eqb_neq _ _)) by (unfold BACKSLASH, DOT; Z.to_euclidean_division_equations; lia). done.
  - cbn [app strchr_unescaped]. cmp_prop. by rewrite !(proj2 (Z.eqb_neq _ _)) by done.
Qed.

Lemma strchr_label l rest : bytes l -> strchr_unescaped (label_text l ++ rest) DOT = strchr_unescaped rest DOT.
Proof.
  induction 1 as [| c l Hc Hl IH]; [done |]. change (label_text (c :: l)) with (escape c ++ label_text l).
  by rewrite <- app_assoc, strchr_escape, IH.
Qed.

Lemma wire_ok_tail l ls : wire_ok (l :: ls) -> wire_ok ls.
Proof.
  intros [Hw Hl]. apply Forall_cons in Hw as [_ Hw]. split; [done |]. unfold wire_name in *. rewrite wire_labels_cons in Hl.
  rewrite length_app in Hl |- *. cbn [length] in Hl |- *. rewrite length_app in Hl. lia.
Qed.

Lemma render_nil ls : Forall label_wf ls -> render ls = [] -> ls = [].
Proof.
  intros Hw E. destruct ls as [| l ls]; [done | exfalso]. apply Forall_cons in Hw as [[_ Hl] _].
  pose proof (length_label_text l). destruct ls; [change (label_text l = []) in E | rewrite render_cons in E; apply app_eq_nil in E as [E _]];
  apply (f_equal (@length Z)) in E; cbn [length] in E; lia.
Qed.

(** The parent of a name, in text: nothing behind the last label, or the text
    behind the first dot. *)
Lemma parent_text t l ls : canonical_text t (l :: ls) ->
  match strchr_unescaped t DOT with
  | None => ls = []
  | Some [] => False
  | Some (_ :: p) => canonical_text p ls /\ (p = [] <-> ls = [])
  end.
Proof.
  intros [Hok Ht]%canonical_text_iff. pose proof (wire_ok_tail _ _ Hok) as Hok'. destruct (Hok) as [[[Hb Hl] Hw]%Forall_cons _].
  destruct Ht as [[_ ->] | [-> | [? _]]]; [| | done].
  - destruct ls as [| l' ls].
    + change (render [l]) with (label_text l). rewrite <- (app_nil_r (label_text l)), strchr_label by done. done.
    + rewrite render_cons, strchr_label by done. cbn [strchr_unescaped]. change (DOT =? BACKSLASH) with false. rewrite Z.eqb_refl. split.
      * apply canonical_text_iff. split; [done | by left].
      * split; [intros E%render_nil; [done |]; done | done].
  - change ((l :: ls) ++ [[]]) with (l :: (ls ++ [[]])).
    assert (exists l' ls', ls ++ [[]] = l' :: ls') as (l' & ls' & E) by (destruct ls; by eexists _, _). rewrite E, render_cons, strchr_label by done.
    rewrite <- E. cbn [strchr_unescaped]. change (DOT =? BACKSLASH) with false. rewrite Z.eqb_refl. split.
    + apply canonical_text_iff. split; [done | by right; left].
    + split; [| by intros ->]. intros E'. destruct (decide (ls = [])) as [| Hne]; [done | exfalso].
      rewrite render_final_dot in E' by done. by destruct (render ls).
Qed.

Lemma canonical_text_nil ls : canonical_text [] ls -> ls = [].
Proof.
  intros [[Hw _] Ht]%canonical_text_iff. destruct Ht as [[_ E] | [E | [-> _]]]; [by apply render_nil | | done].
  destruct (decide (ls = [])) as [| Hne]; [done |]. rewrite render_final_dot in E by done. by destruct (render ls).
Qed.

Lemma canonical_text_root t : canonical_text t [] -> t = [] \/ t = [DOT].
Proof. intros [_ Ht]%canonical_text_iff. destruct Ht as [[? _] | [-> | [_ ->]]]; [done | by left | by right]. Qed.

End NameWalk.
