(* ===== verification/ZoneImage.v ===== *)
(** * The zone image

    The compact, immutable form of a zone that the server answers from
    (dns_zone_image.h, dns_zone_image.c): the tables of owner names and
    records, the hash table of the names, the canonical order, the indexes of
    NSEC and NSEC3 records, and the operations that read them. The offsets of
    the C structure into its area of strings are the strings themselves here
    (offset 0 is [None]), ZONE_IMAGE_NONE is [None], and an access outside a
    table is [Oob]. *)

From S2P Require Import Prelude CLib DnsName NameText WireName CanonOrder NameWalk Ecs.

Module ZoneImage.
Import CLib DnsName NameText WireName CanonOrder NameWalk Ecs.

(** ** Data *)

Record zone_image_name_t := ImageName {
  nm_hash : Z;
  nm_wire : option (list Z);
  nm_text : list Z;
  nm_first_rr : Z;
  nm_rr_count_flags : Z;
  nm_canon_rank : option Z
}.

Record zone_image_rr_t := ImageRr {
  rr_name_id : Z;
  rr_ttl : Z;
  rr_rdata : list Z;
  rr_ext_idx : Z;
  rr_type : Z;
  rr_class : Z;
  rr_flags : Z
}.

Record zone_image_ext_t := ImageExt {
  ext_ttd : Z;
  ext_ecs_tag : option (list Z);
  ext_loc_tag : option (list Z);
  ext_alt_text : option (list Z);
  ext_alt_wire : option (list Z);
  ext_loc : Z * Z;
  ext_flags : Z
}.

Record zone_image_n3chain_t := ImageChain {
  ch_first : Z;
  ch_count : Z;
  ch_salt : list Z;
  ch_iterations : Z;
  ch_algorithm : Z
}.

Record zone_image_t := Image {
  im_flags : Z;
  im_names : list zone_image_name_t;
  im_rrs : list zone_image_rr_t;
  im_exts : list zone_image_ext_t;
  im_hash : list Z;
  im_canon : list Z;
  im_nsec : list Z;
  im_n3chains : list zone_image_n3chain_t;
  im_n3entries : list Z;
  im_glue : list Z;
  im_perm : option (list Z);
  im_zattr : list Z;
  im_apex_name : option Z;
  im_n3_param_rr : option Z;
  im_n3_chain : option Z;
  im_n3_salt : list Z;
  im_n3_iterations : Z;
  im_n3_algorithm : Z
}.

Definition ZONE_IMAGE_F_TINYDNS : Z := 1.
Definition ZONE_IMAGE_F_EXT : Z := 2.
Definition ZONE_IMAGE_F_WILDCARD : Z := 4.
Definition ZONE_IMAGE_F_DNAME : Z := 8.
Definition ZONE_IMAGE_F_PERM : Z := 16.
Definition ZONE_IMAGE_F_SOA_ATTR : Z := 32.
Definition ZONE_IMAGE_F_VIEW : Z := 64.
Definition ZONE_IMAGE_F_ALIAS : Z := 128.
Definition ZONE_IMAGE_F_CUT : Z := 256.

Definition ZONE_IMAGE_NAME_COUNT_MASK : Z := 16777215.
Definition ZONE_IMAGE_NAME_WILDCARD : Z := 16777216.
Definition ZONE_IMAGE_NAME_CUT : Z := 33554432.
Definition ZONE_IMAGE_NAME_DNAME : Z := 67108864.
Definition ZONE_IMAGE_NAME_APEX : Z := 134217728.
Definition ZONE_IMAGE_NAME_NSEC : Z := 268435456.
Definition ZONE_IMAGE_NAME_GLUE : Z := 536870912.
Definition ZONE_IMAGE_NAME_ALIAS : Z := 1073741824.

Definition ZONE_IMAGE_RR_RAW : Z := 1.
Definition ZONE_IMAGE_RR_NO_NAMEWIRE : Z := 2.
Definition ZONE_IMAGE_EXT_COUNTDOWN : Z := 1.

(** [x & flag] as a condition *)
Definition has_flag (x flag : Z) : bool := negb (Z.land x flag =? 0).

(** The element [l[i]] of a table. *)
Definition at_ix {A} (l : list A) (i : Z) : outcome A :=
  if i <? 0 then Oob else match l !! Z.to_nat i with Some a => Ret a | None => Oob end.

(** ** Operations: the views of dns_zone_image.h *)

Section Image.
Context (img : zone_image_t).

Definition zone_image_name (id : Z) : outcome zone_image_name_t := at_ix (im_names img) id.
Definition zone_image_rr (rr : Z) : outcome zone_image_rr_t := at_ix (im_rrs img) rr.

Definition zone_image_name_text (id : Z) : outcome (list Z) := let! nm := zone_image_name id in Ret (nm_text nm).
Definition zone_image_name_first_rr (id : Z) : outcome Z := let! nm := zone_image_name id in Ret (nm_first_rr nm).
Definition name_rr_count (nm : zone_image_name_t) : Z := Z.land (nm_rr_count_flags nm) ZONE_IMAGE_NAME_COUNT_MASK.
Definition zone_image_name_rr_count (id : Z) : outcome Z := let! nm := zone_image_name id in Ret (name_rr_count nm).
Definition zone_image_name_flags (id : Z) : outcome Z :=
  let! nm := zone_image_name id in Ret (Z.land (nm_rr_count_flags nm) (Z.lnot ZONE_IMAGE_NAME_COUNT_MASK)).

Definition zone_image_rr_name (rr : Z) : outcome Z := let! r := zone_image_rr rr in Ret (rr_name_id r).
Definition zone_image_rr_type (rr : Z) : outcome Z := let! r := zone_image_rr rr in Ret (rr_type r).

(** The text of the owner of a record. *)
Definition zone_image_rr_owner (rr : Z) : outcome (list Z) :=
  let! id := zone_image_rr_name rr in zone_image_name_text id.

(** [None] when the record has no extras. *)
Definition zone_image_rr_ext (rr : Z) : outcome (option zone_image_ext_t) :=
  let! r := zone_image_rr rr in
  if rr_ext_idx r =? 0 then Ret None else let! e := at_ix (im_exts img) (rr_ext_idx r - 1) in Ret (Some e).

End Image.

(** ** Operations: names *)

(** The probing of [zone_image_find_name] and of [tmp_find]: [entry] gives the
    hash and the text of a name. *)
Fixpoint find_slot (fuel : nat) (entry : Z -> outcome (Z * list Z)) (tab : list Z) (mask h : Z) (name : list Z) (s : Z) :
    outcome (option Z) :=
  match fuel with
  | O => NoFuel
  | S fuel' =>
      let! v := at_ix tab s in
      if v =? 0 then Ret None
      else
        let! '(hash, text) := entry (v - 1) in
        if (hash =? h) && domain_names_match_ci text name then Ret (Some (v - 1))
        else find_slot fuel' entry tab mask h name (Z.land (s + 1) mask)
  end.

(** The loop that puts a name into the first free slot. *)
Fixpoint fill_slot (fuel : nat) (tab : list Z) (mask s v : Z) : outcome (list Z) :=
  match fuel with
  | O => NoFuel
  | S fuel' =>
      let! w := at_ix tab s in
      if w =? 0 then Ret (<[Z.to_nat s := v]> tab) else fill_slot fuel' tab mask (Z.land (s + 1) mask) v
  end.

Section Lookups.
Context (img : zone_image_t).

Definition name_entry (id : Z) : outcome (Z * list Z) :=
  let! nm := zone_image_name img id in Ret (nm_hash nm, nm_text nm).

Definition zone_image_find_name (name : list Z) : outcome (option Z) :=
  if len (im_names img) =? 0 then Ret None
  else
    let h := dns_name_hash_ci name in
    let mask := len (im_hash img) - 1 in
    find_slot (length (im_hash img)) name_entry (im_hash img) mask h name (Z.land h mask).

(** The first record of the type in [k, k + n). *)
Fixpoint rrset_scan (n : nat) (type k : Z) : outcome (option Z) :=
  match n with
  | O => Ret None
  | S n' =>
      let! t := zone_image_rr_type img k in
      if t =? type then Ret (Some k) else rrset_scan n' type (k + 1)
  end.

Definition zone_image_rrset_next (name_id type from : Z) : outcome (option Z) :=
  let! nm := zone_image_name img name_id in
  let from := Z.max from (nm_first_rr nm) in
  rrset_scan (Z.to_nat (nm_first_rr nm + name_rr_count nm - from)) type from.

(** The binary searches: the last index below [hi] whose key is not after. *)
Fixpoint floor_search (fuel : nat) (not_after : Z -> outcome bool) (lo hi : Z) (best : option Z) : outcome (option Z) :=
  if hi <=? lo then Ret best
  else match fuel with
  | O => NoFuel
  | S fuel' =>
      let mid := lo + (hi - lo) / 2 in
      let! c := not_after mid in
      if c then floor_search fuel' not_after (mid + 1) hi (Some mid) else floor_search fuel' not_after lo mid best
  end.

Definition zone_image_canon_text (pos : Z) : outcome (list Z) :=
  let! id := at_ix (im_canon img) pos in zone_image_name_text img id.

Definition canon_not_after (name : list Z) (mid : Z) : outcome bool :=
  let! t := zone_image_canon_text mid in
  let! c := compare_canonical_name (Some t) (Some name) in
  Ret (c <=? 0).

(** The position and [*exact]. *)
Definition zone_image_canon_floor (name : list Z) : outcome (option Z * bool) :=
  let! best := floor_search (length (im_canon img)) (canon_not_after name) 0 (len (im_canon img)) None in
  match best with
  | None => Ret (None, false)
  | Some b =>
      let! t := zone_image_canon_text b in
      let! c := compare_canonical_name (Some t) (Some name) in
      Ret (Some b, c =? 0)
  end.

Definition nsec_not_after (name : list Z) (mid : Z) : outcome bool :=
  let! rr := at_ix (im_nsec img) mid in
  let! t := zone_image_rr_owner img rr in
  let! c := compare_canonical_name (Some t) (Some name) in
  Ret (c <=? 0).

Definition zone_image_nsec_floor (name : list Z) : outcome (option Z) :=
  floor_search (length (im_nsec img)) (nsec_not_after name) 0 (len (im_nsec img)) None.

(** ** Operations: chains of NSEC3 records *)

Definition zone_image_n3chain (c : Z) : outcome zone_image_n3chain_t := at_ix (im_n3chains img) c.

Definition zone_image_n3chain_rr (c i : Z) : outcome Z :=
  let! ch := zone_image_n3chain c in at_ix (im_n3entries img) (ch_first ch + i).

(** The hash label, and the text behind it. *)
Definition zone_image_n3chain_hash (c i : Z) : outcome (list Z * option (list Z)) :=
  let! rr := zone_image_n3chain_rr c i in
  let! t := zone_image_rr_owner img rr in
  Ret (match strchr DOT t with Some (before, after) => (before, Some after) | None => (t, None) end).

Fixpoint n3chain_find_from (chains : list zone_image_n3chain_t) (c algorithm iterations : Z) (salt : list Z) : option Z :=
  match chains with
  | [] => None
  | ch :: chains' =>
      if (ch_algorithm ch =? algorithm) && (ch_iterations ch =? iterations) && bool_decide (ch_salt ch = salt) then Some c
      else n3chain_find_from chains' (c + 1) algorithm iterations salt
  end.

Definition zone_image_n3chain_find (algorithm iterations : Z) (salt : list Z) : option Z :=
  n3chain_find_from (im_n3chains img) 0 algorithm iterations salt.

(** [strncasecmp] of the common length, then the lengths. *)
Definition compare_hash (eh hash : list Z) : Z :=
  let n := Nat.min (length eh) (length hash) in
  let cmp := memcmp (map tolower (take n eh)) (map tolower (take n hash)) in
  if cmp =? 0 then (if len eh <? len hash then -1 else if len hash <? len eh then 1 else 0) else cmp.

Fixpoint lower_bound_search (fuel : nat) (c : Z) (hash : list Z) (lo hi : Z) : outcome Z :=
  if hi <=? lo then Ret lo
  else match fuel with
  | O => NoFuel
  | S fuel' =>
      let mid := lo + (hi - lo) / 2 in
      let! '(eh, _) := zone_image_n3chain_hash c mid in
      if compare_hash eh hash <? 0 then lower_bound_search fuel' c hash (mid + 1) hi else lower_bound_search fuel' c hash lo mid
  end.

Definition zone_image_n3chain_lower_bound (c : Z) (hash : list Z) : outcome Z :=
  let! ch := zone_image_n3chain c in
  lower_bound_search (Z.to_nat (ch_count ch)) c hash 0 (ch_count ch).

End Lookups.

(** ** Operations: decoding of RDATA *)

(** [dns_rdata_name_layout_t]: the octets before the first name, the number of
    names, and whether they are compressed. *)
Record dns_rdata_name_layout_t := NameLayout { lay_type : Z; lay_skip : Z; lay_nnames : Z; lay_compress : bool }.

Definition g_rdata_name_layout : list dns_rdata_name_layout_t := [
  NameLayout 2 0 1 true; NameLayout 3 0 1 true; NameLayout 4 0 1 true; NameLayout 5 0 1 true;
  NameLayout 7 0 1 true; NameLayout 8 0 1 true; NameLayout 9 0 1 true; NameLayout 12 0 1 true;
  NameLayout 6 0 2 true; NameLayout 14 0 2 true; NameLayout 15 2 1 true;
  NameLayout 17 0 2 false; NameLayout 18 2 1 false; NameLayout 21 2 1 false; NameLayout 36 2 1 false; NameLayout 107 2 1 false;
  NameLayout 23 0 1 false; NameLayout 39 0 1 false; NameLayout 24 18 1 false; NameLayout 46 18 1 false;
  NameLayout 26 2 2 false; NameLayout 30 0 1 false; NameLayout 47 0 1 false; NameLayout 33 6 1 false ].

Definition dns_rdata_name_layout (type : Z) : option dns_rdata_name_layout_t :=
  List.find (fun l => lay_type l =? type) g_rdata_name_layout.

(** The length of the uncompressed name at [p], within [avail] octets. *)
Fixpoint wire_name_len_from (fuel : nat) (p : list Z) (avail i : Z) : outcome Z :=
  match fuel with
  | O => NoFuel
  | S fuel' =>
      fail_if avail <=? i ;;
      let! l := rd p i in
      if l =? 0 then Ret (i + 1)
      else fail_if (63 <? l) || (avail <? i + 1 + l) ;; wire_name_len_from fuel' p avail (i + 1 + l)
  end.

Definition wire_name_len (p : list Z) (avail : Z) : outcome Z := wire_name_len_from (S (Z.to_nat avail)) p avail 0.

(** RFC 4034 section 4.1.2 *)
Fixpoint bitmap_has_from (fuel : nat) (bm : list Z) (type p : Z) : outcome bool :=
  match fuel with
  | O => NoFuel
  | S fuel' =>
      if len bm <? p + 2 then Ret false
      else
        let! win := rd bm p in
        let! blen := rd bm (p + 1) in
        if (blen =? 0) || (32 <? blen) || (len bm <? p + 2 + blen) then Ret false
        else if win =? Z.shiftr type 8 then
          let bit := Z.land type 255 in
          if blen <=? bit / 8 then Ret false
          else let! o := rd bm (p + 2 + bit / 8) in Ret (has_flag o (Z.shiftr 128 (bit mod 8)))
        else if Z.shiftr type 8 <? win then Ret false
        else bitmap_has_from fuel' bm type (p + 2 + blen)
  end.

Definition bitmap_has (bm : list Z) (type : Z) : outcome bool := bitmap_has_from (S (length bm)) bm type 0.

(** [zone_image_nsec3_t]; [n3_next_at] is the position of the next hash. *)
Record zone_image_nsec3_t := ImageNsec3 {
  n3_algorithm : Z;
  n3_flags : Z;
  n3_iterations : Z;
  n3_salt : list Z;
  n3_next : list Z;
  n3_next_at : Z
}.

Record zone_image_soa_t := ImageSoa { soa_serial : Z; soa_refresh : Z; soa_retry : Z; soa_expire : Z; soa_minimum : Z }.

(** The string in a buffer, without its NUL. *)
Definition name_string (buf : list Z) : list Z := take (length buf - 1) buf.

Section Rdata.
Context (img : zone_image_t).

Definition zone_image_rr_target (rr cap : Z) : outcome (list Z) :=
  let! r := zone_image_rr img rr in
  match dns_rdata_name_layout (rr_type r) with
  | None => Fail
  | Some lay =>
      fail_if len (rr_rdata r) <=? lay_skip lay ;;
      let! '(t, _) := expand_wire_name_to_buffer (rr_rdata r) (len (rr_rdata r)) (lay_skip lay) cap in
      Ret (name_string t)
  end.

(** The two names and the numbers. *)
Definition zone_image_soa (rr mcap rcap : Z) : outcome (list Z * list Z * zone_image_soa_t) :=
  let! r := zone_image_rr img rr in
  let rd_ := rr_rdata r in
  fail_if negb (rr_type r =? 6) ;;
  fail_if len rd_ =? 0 ;;
  let! '(mname, p) := expand_wire_name_to_buffer rd_ (len rd_) 0 mcap in
  fail_if len rd_ <=? p ;;
  let! '(rname, p) := expand_wire_name_to_buffer rd_ (len rd_) p rcap in
  fail_if negb (p + 20 =? len rd_) ;;
  let! serial := rd32 rd_ p in
  let! refresh := rd32 rd_ (p + 4) in
  let! retry := rd32 rd_ (p + 8) in
  let! expire := rd32 rd_ (p + 12) in
  let! minimum := rd32 rd_ (p + 16) in
  Ret (name_string mname, name_string rname, ImageSoa serial refresh retry expire minimum).

Definition zone_image_mx_pref (rr : Z) : outcome Z :=
  let! r := zone_image_rr img rr in
  fail_if negb (rr_type r =? 15) || (len (rr_rdata r) <? 3) ;;
  rd16 (rr_rdata r) 0.

Definition zone_image_srv (rr : Z) : outcome (Z * Z * Z) :=
  let! r := zone_image_rr img rr in
  fail_if negb (rr_type r =? 33) || (len (rr_rdata r) <? 7) ;;
  let! priority := rd16 (rr_rdata r) 0 in
  let! weight := rd16 (rr_rdata r) 2 in
  let! port := rd16 (rr_rdata r) 4 in
  Ret (priority, weight, port).

Definition zone_image_soa_minimum (rr : Z) : outcome Z :=
  let! r := zone_image_rr img rr in
  fail_if negb (rr_type r =? 6) || (len (rr_rdata r) <? 22) ;;
  rd32 (rr_rdata r) (len (rr_rdata r) - 4).

Definition zone_image_rrsig_covered (rr : Z) : outcome Z :=
  let! r := zone_image_rr img rr in
  fail_if (negb (rr_type r =? 46) && negb (rr_type r =? 24)) || (len (rr_rdata r) <? 18) ;;
  rd16 (rr_rdata r) 0.

Definition zone_image_nsec3 (rr : Z) : outcome zone_image_nsec3_t :=
  let! r := zone_image_rr img rr in
  let rd_ := rr_rdata r in
  fail_if negb (rr_type r =? 50) && negb (rr_type r =? 51) ;;
  fail_if len rd_ <? 5 ;;
  let! sl := rd rd_ 4 in
  let p := 5 + sl in
  fail_if len rd_ <? p ;;
  let! algorithm := rd rd_ 0 in
  let! flags := rd rd_ 1 in
  let! iterations := rd16 rd_ 2 in
  let! salt := slice rd_ 5 sl in
  if rr_type r =? 51 then
    fail_if negb (p =? len rd_) ;;
    Ret (ImageNsec3 algorithm flags iterations salt [] 0)
  else
    fail_if len rd_ <=? p ;;
    let! n := rd rd_ p in
    fail_if (n =? 0) || (len rd_ <? p + 1 + n) ;;
    let! next := slice rd_ (p + 1) n in
    Ret (ImageNsec3 algorithm flags iterations salt next (p + 1)).

Definition zone_image_rr_bitmap_has (rr type : Z) : outcome bool :=
  let! r := zone_image_rr img rr in
  let rd_ := rr_rdata r in
  if rr_type r =? 47 then
    if len rd_ =? 0 then Ret false
    else orelse (wire_name_len rd_ (len rd_)) false (fun wl => bitmap_has (drop (Z.to_nat wl) rd_) type)
  else if rr_type r =? 50 then
    orelse (zone_image_nsec3 rr) false (fun v => bitmap_has (drop (Z.to_nat (n3_next_at v + len (n3_next v))) rd_) type)
  else Ret false.

(** ** Operations: what a client sees *)

Definition ext_restricts (e : option zone_image_ext_t) : bool :=
  match e with
  | None => false
  | Some e =>
      negb (fst (ext_loc e) =? 0) || negb (snd (ext_loc e) =? 0) || bool_decide (is_Some (ext_ecs_tag e)) ||
      bool_decide (is_Some (ext_loc_tag e)) || negb (ext_ttd e =? 0)
  end.

(** A tag of the record that the client does not have. *)
Definition tag_hides (tag client : option (list Z)) : bool :=
  match tag, client with
  | None, _ => false
  | Some _, None => true
  | Some t, Some c => negb (strcaseeq t c)
  end.

(** [None] is a record that is not visible, otherwise the TTL to serve. The
    time left is clamped, so the double of [difftime] is exact. *)
Definition zone_image_rr_valid (rr now : Z) (client_loc : Z * Z) (client_ecs_tag client_loc_tag : option (list Z)) : outcome (option Z) :=
  let! e := zone_image_rr_ext img rr in
  let! r := zone_image_rr img rr in
  match e with
  | None => Ret (Some (rr_ttl r))
  | Some e =>
      if (negb (fst (ext_loc e) =? 0) || negb (snd (ext_loc e) =? 0)) &&
         (negb (fst (ext_loc e) =? fst client_loc) || negb (snd (ext_loc e) =? snd client_loc)) then Ret None
      else if tag_hides (ext_ecs_tag e) client_ecs_tag then Ret None
      else if tag_hides (ext_loc_tag e) client_loc_tag then Ret None
      else if ext_ttd e =? 0 then Ret (Some (rr_ttl r))
      else if negb (has_flag (ext_flags e) ZONE_IMAGE_EXT_COUNTDOWN) then
        if now <=? ext_ttd e then Ret None else Ret (Some (rr_ttl r))
      else if ext_ttd e <? now then Ret None
      else Ret (Some (Z.min 3600 (Z.max 2 (ext_ttd e - now))))
  end.

Definition view_loc (v : zone_image_view_t) : Z * Z := (nth 0 (loc v) 0, nth 1 (loc v) 0).

Definition zone_image_rr_visible (rr : Z) (v : zone_image_view_t) : outcome (option Z) :=
  zone_image_rr_valid rr (now v) (view_loc v) (ecs_tag v) (loc_tag v).

(** The SOA records of the apex from [k] on: the first one without a
    restriction, else [first]. *)
Fixpoint apex_soa_scan (n : nat) (k : Z) (first : option Z) : outcome (option Z) :=
  match n with
  | O => Ret first
  | S n' =>
      let! t := zone_image_rr_type img k in
      if negb (t =? 6) then apex_soa_scan n' (k + 1) first
      else
        let first := match first with None => Some k | Some _ => first end in
        let! e := zone_image_rr_ext img k in
        if ext_restricts e then apex_soa_scan n' (k + 1) first else Ret (Some k)
  end.

Definition zone_image_apex_soa : outcome (option Z) :=
  match im_apex_name img with
  | None => Ret None
  | Some id =>
      let! nm := zone_image_name img id in
      apex_soa_scan (Z.to_nat (name_rr_count nm)) (nm_first_rr nm) None
  end.

(** The first visible SOA with its TTL. *)
Fixpoint visible_soa_scan (n : nat) (k : Z) (v : zone_image_view_t) : outcome (option (Z * Z)) :=
  match n with
  | O => Ret None
  | S n' =>
      let! t := zone_image_rr_type img k in
      if negb (t =? 6) then visible_soa_scan n' (k + 1) v
      else
        let! vis := zone_image_rr_visible k v in
        match vis with
        | None => visible_soa_scan n' (k + 1) v
        | Some ttl => Ret (Some (k, ttl))
        end
  end.

Definition zone_image_visible_soa (v : zone_image_view_t) : outcome (option (Z * Z)) :=
  match im_apex_name img with
  | None => Ret None
  | Some id =>
      let! nm := zone_image_name img id in
      visible_soa_scan (Z.to_nat (name_rr_count nm)) (nm_first_rr nm) v
  end.

Fixpoint soa_restricted_scan (n : nat) (k : Z) : outcome bool :=
  match n with
  | O => Ret false
  | S n' =>
      let! t := zone_image_rr_type img k in
      if negb (t =? 6) then soa_restricted_scan n' (k + 1)
      else let! e := zone_image_rr_ext img k in if ext_restricts e then Ret true else soa_restricted_scan n' (k + 1)
  end.

Definition image_soa_restricted : outcome bool :=
  match im_apex_name img with
  | None => Ret false
  | Some id =>
      let! nm := zone_image_name img id in
      soa_restricted_scan (Z.to_nat (name_rr_count nm)) (nm_first_rr nm)
  end.

(** The record at a place of the file order. *)
Definition zone_image_seq_rr (seq : Z) : outcome Z :=
  match im_perm img with None => Ret seq | Some perm => at_ix perm seq end.

End Rdata.

End ZoneImage.
