(* ===== verification/ZoneLookup.v ===== *)
(** * Lookups in a zone image

    What the tables of a zone image must satisfy, as the predicate
    [image_ok], and that the lookups of ZoneImage then find what they are
    asked for: the probing of the hash table, the binary searches of the
    canonical order and of the NSEC and NSEC3 indexes, and the records of an
    owner. *)

From S2P Require Import Prelude CLib DnsName NameText WireName CanonOrder NameWalk Ecs ZoneImage.

Module ZoneLookup.
Import CLib DnsName NameText WireName CanonOrder NameWalk Ecs ZoneImage.

(** ** Lemmas: tables *)

Lemma at_ix_Ret {A} (l : list A) i a : at_ix l i = Ret a <-> 0 <= i /\ l !! Z.to_nat i = Some a.
Proof.
  unfold at_ix. destruct (Z.ltb_spec i 0); [split; [done | lia] |]. destruct (l !! Z.to_nat i); split; [intros [= ->]; split; [lia | done] | by intros [_ [= ->]] | done | by intros [_ ?]].
Qed.

Lemma at_ix_in {A} (l : list A) i : 0 <= i < len l -> exists a, at_ix l i = Ret a.
Proof.
  intros Hi. destruct (lookup_lt_is_Some_2 l (Z.to_nat i)) as [a E]; [lia |]. exists a. apply at_ix_Ret. split; [lia | done].
Qed.

Lemma at_ix_lt {A} (l : list A) i a : at_ix l i = Ret a -> 0 <= i < len l.
Proof. intros [Hi H%lookup_lt_Some]%at_ix_Ret. lia. Qed.

Lemma at_ix_nat {A} (l : list A) (i : nat) a : l !! i = Some a -> at_ix l (Z.of_nat i) = Ret a.
Proof. intros H. apply at_ix_Ret. rewrite Nat2Z.id. split; [lia | done]. Qed.

Lemma at_ix_elem {A} (l : list A) i a : at_ix l i = Ret a -> a ∈ l.
Proof. intros [_ H]%at_ix_Ret. by eapply list_elem_of_lookup_2. Qed.

Lemma at_ix_map {A B} (f : A -> B) (l : list A) i : at_ix (map f l) i = let! a := at_ix l i in Ret (f a).
Proof. unfold at_ix. destruct (i <? 0); [done |]. change (map f l) with (f <$> l). rewrite list_lookup_fmap. by destruct (l !! Z.to_nat i). Qed.

(** ** Lemmas: the hash table *)

Section Probing.
Context (tab : list Z) (bits : Z) (Hbits : 0 <= bits) (Hlen : len tab = 2 ^ bits).

(** The slot at a distance from the first one of a hash. *)
Definition pos (h : Z) (d : nat) : nat := Z.to_nat ((h + Z.of_nat d) mod len tab).

Definition used (h : Z) (d : nat) : Prop := exists v, tab !! pos h d = Some v /\ v <> 0.

Lemma tab_pos : 0 < len tab.
Proof. rewrite Hlen. by apply Z.pow_pos_nonneg. Qed.

Lemma mask_mod x : Z.land x (len tab - 1) = x mod len tab.
Proof. rewrite Hlen. rewrite <- land_mod by done. f_equal. rewrite Z.ones_equiv. lia. Qed.

Lemma pos_lt h d : (pos h d < length tab)%nat.
Proof. pose proof tab_pos. unfold pos. pose proof (Z.mod_pos_bound (h + Z.of_nat d) (len tab)). lia. Qed.

Lemma pos_read h d : exists v, at_ix tab ((h + Z.of_nat d) mod len tab) = Ret v /\ tab !! pos h d = Some v.
Proof.
  destruct (lookup_lt_is_Some_2 tab (pos h d) (pos_lt h d)) as [v E]. exists v. split; [| done]. apply at_ix_Ret.
  split; [| done]. apply Z.mod_pos_bound, tab_pos.
Qed.

Lemma pos_next h d : Z.land ((h + Z.of_nat d) mod len tab + 1) (len tab - 1) = (h + Z.of_nat (S d)) mod len tab.
Proof. rewrite mask_mod. pose proof tab_pos. rewrite Zplus_mod_idemp_l. f_equal. lia. Qed.

(** The distance of a slot. *)
Lemma pos_onto h s : (s < length tab)%nat -> exists d, (d < length tab)%nat /\ pos h d = s.
Proof.
  intros Hs. pose proof tab_pos. exists (Z.to_nat ((Z.of_nat s - h) mod len tab)).
  pose proof (Z.mod_pos_bound (Z.of_nat s - h) (len tab)). split; [lia |]. unfold pos. rewrite Z2Nat.id by lia.
  rewrite Zplus_mod_idemp_r, Z.mod_small by lia. lia.
Qed.

Lemma used_dec h d : used h d \/ tab !! pos h d = Some 0.
Proof. destruct (pos_read h d) as (v & _ & E). destruct (Z.eq_dec v 0) as [-> |]; [by right | left; by exists v]. Qed.

(** Where a search that meets no name ends. *)
Lemma first_free h : 0 ∈ tab -> exists d, (d < length tab)%nat /\ tab !! pos h d = Some 0 /\ forall d', (d' < d)%nat -> used h d'.
Proof.
  intros [s E]%list_elem_of_lookup. destruct (pos_onto h s) as (d0 & Hd0 & <-); [by eapply lookup_lt_Some |].
  revert Hd0 E. induction d0 as [d0 IH] using lt_wf_ind. intros Hd0 E.
  assert ((forall d', (d' < d0)%nat -> used h d') \/ exists d', (d' < d0)%nat /\ tab !! pos h d' = Some 0) as [H | (d' & Hd' & E')].
  { clear -Hbits Hlen. induction d0 as [| d0 [IH | (d' & ? & ?)]]; [left; lia | | right; exists d'; split; [lia | done]].
    destruct (used_dec h d0); [left | right; exists d0; split; [lia | done]]. intros d' Hd'.
    destruct (decide (d' = d0)) as [-> | Hne]; [done | apply IH; lia]. }
  - by exists d0.
  - apply (IH d'); [done | lia | done].
Qed.

Context (ents : list (Z * list Z)).

(** Every entry is found on the way from its hash, and the slots hold
    nothing else. *)
Definition index_ok : Prop :=
  (forall s v, tab !! s = Some v -> 0 <= v <= len ents) /\
  (forall id h t, ents !! id = Some (h, t) -> exists d, (d < length tab)%nat /\ tab !! pos h d = Some (Z.of_nat id + 1) /\ forall d', (d' < d)%nat -> used h d').

Definition match_of (h : Z) (name : list Z) (id : Z) : Prop :=
  exists t, at_ix ents id = Ret (h, t) /\ domain_names_match_ci t name = true.

Lemma find_slot_walk h name dz : index_ok -> tab !! pos h dz = Some 0 -> (forall d', (d' < dz)%nat -> used h d') ->
  forall n d fuel, (d + n = dz)%nat -> (n < fuel)%nat ->
  (exists v, find_slot fuel (at_ix ents) tab (len tab - 1) h name ((h + Z.of_nat d) mod len tab) = Ret (Some (v - 1)) /\ match_of h name (v - 1)) \/
  (find_slot fuel (at_ix ents) tab (len tab - 1) h name ((h + Z.of_nat d) mod len tab) = Ret None /\
   forall d' v, (d <= d' < dz)%nat -> tab !! pos h d' = Some v -> ~ match_of h name (v - 1)).
Proof.
  intros [Hr _] Hz Hu. induction n as [| n IH]; intros d fuel Hd Hf; (destruct fuel as [| fuel]; [lia |]); cbn [find_slot];
    destruct (pos_read h d) as (v & -> & E); cbn [obind].
  - replace d with dz in * by lia. rewrite Hz in E. injection E as <-. right. split; [done | lia].
  - destruct (Hu d) as (v' & E' & Hv); [lia |]. rewrite E in E'. injection E' as <-.
    destruct (Z.eqb_spec v 0); [done |]. pose proof (Hr _ _ E) as Hv'.
    destruct (at_ix_in ents (v - 1)) as [[h' t] Ea]; [lia |]. rewrite Ea. cbn [obind].
    destruct (Z.eqb_spec h' h) as [-> | Hne]; [destruct (domain_names_match_ci t name) eqn:Em |]; cbn [andb].
    + left. exists v. split; [done |]. by exists t.
    + rewrite pos_next. destruct (IH (S d) fuel) as [? | [-> Hn]]; [lia | lia | by left | right; split; [done |]].
      intros d' v' Hd' E'. destruct (decide (d' = d)) as [-> |]; [| apply (Hn d' v'); [lia | done]].
      rewrite E in E'. injection E' as <-. intros (t' & Ea' & Hm). congruence.
    + rewrite pos_next. destruct (IH (S d) fuel) as [? | [-> Hn]]; [lia | lia | by left | right; split; [done |]].
      intros d' v' Hd' E'. destruct (decide (d' = d)) as [-> |]; [| apply (Hn d' v'); [lia | done]].
      rewrite E in E'. injection E' as <-. intros (t' & Ea' & Hm). congruence.
Qed.

(** The search ends, and finds an entry exactly when there is one. *)
Lemma find_slot_spec h name : index_ok -> 0 ∈ tab ->
  exists r, find_slot (length tab) (at_ix ents) tab (len tab - 1) h name (Z.land h (len tab - 1)) = Ret r /\
    match r with
    | Some id => match_of h name id
    | None => forall id, ~ match_of h name id
    end.
Proof.
  intros Hok H0. destruct (first_free h H0) as (dz & Hdz & Hz & Hu). rewrite mask_mod.
  replace (h mod len tab) with ((h + Z.of_nat 0) mod len tab) by (f_equal; lia).
  destruct (find_slot_walk h name dz Hok Hz Hu dz 0%nat (length tab)) as [(v & -> & Hv) | [-> Hn]]; [lia | lia | by exists (Some (v - 1)) |].
  exists None. split; [done |]. intros id (t & Ha & Hm). pose proof (at_ix_lt _ _ _ Ha) as Hid. apply at_ix_Ret in Ha as [_ Ha].
  destruct Hok as [_ Hok]. destruct (Hok _ _ _ Ha) as (d & Hd & E & Hu').
  destruct (decide (dz <= d)%nat) as [Hle |].
  - assert (used h dz) as (v & E' & Hv) by (destruct (decide (dz = d)) as [-> |]; [eexists; split; [done | lia] | apply Hu'; lia]). congruence.
  - apply (Hn d (Z.of_nat (Z.to_nat id) + 1)); [lia | done |]. exists t. split; [| done]. rewrite Z.add_simpl_r, Z2Nat.id by lia. apply at_ix_Ret. split; [lia | done].
Qed.

(** A new entry goes to the first free slot. *)
Lemma fill_slot_spec h v : 0 ∈ tab ->
  exists d, (d < length tab)%nat /\ tab !! pos h d = Some 0 /\ (forall d', (d' < d)%nat -> used h d') /\
    fill_slot (length tab) tab (len tab - 1) (Z.land h (len tab - 1)) v = Ret (<[pos h d := v]> tab).
Proof.
  intros H0. destruct (first_free h H0) as (dz & Hdz & Hz & Hu). exists dz. split_and!; [done.. |]. rewrite mask_mod.
  replace (h mod len tab) with ((h + Z.of_nat 0) mod len tab) by (f_equal; lia).
  assert (forall n d fuel, (d + n = dz)%nat -> (n < fuel)%nat ->
    fill_slot fuel tab (len tab - 1) ((h + Z.of_nat d) mod len tab) v = Ret (<[pos h dz := v]> tab)) as Hw; [| apply (Hw dz); lia].
  induction n as [| n IH]; intros d fuel Hd Hf; (destruct fuel as [| fuel]; [lia |]); cbn [fill_slot];
    destruct (pos_read h d) as (w & -> & E); cbn [obind].
  - replace d with dz in * by lia. rewrite Hz in E. injection E as <-. done.
  - destruct (Hu d) as (v' & E' & Hv); [lia |]. rewrite E in E'. injection E' as <-. destruct (Z.eqb_spec w 0); [done |].
    rewrite pos_next. apply IH; lia.
Qed.

End Probing.

(** The table with one more entry. *)
Lemma fill_index_ok tab bits ents h t d : 0 <= bits -> len tab = 2 ^ bits -> index_ok tab ents ->
  (d < length tab)%nat -> tab !! pos tab h d = Some 0 -> (forall d', (d' < d)%nat -> used tab h d') ->
  index_ok (<[pos tab h d := len ents + 1]> tab) (ents ++ [(h, t)]).
Proof.
  intros Hbits Hlen [Hr Hi] Hd Hz Hu. set (tab' := <[_ := _]> tab).
  assert (length tab' = length tab) as Hl by apply length_insert.
  assert (forall h d, pos tab' h d = pos tab h d) as Hp by (intros; unfold pos; by rewrite Hl).
  assert (forall h d, used tab h d -> used tab' h d) as Hup.
  { intros h' d' (v & E & Hv). exists v. rewrite Hp. split; [| done]. unfold tab'. rewrite list_lookup_insert_ne; [done |].
    intros Eq. rewrite Eq in Hz. congruence. }
  split.
  - intros s v E. rewrite length_app. cbn [length]. unfold tab' in E. destruct (decide (s = pos tab h d)) as [-> | Hne].
    + rewrite list_lookup_insert_eq in E by (by eapply lookup_lt_Some). injection E as <-. lia.
    + rewrite list_lookup_insert_ne in E by done. apply Hr in E. lia.
  - intros id h' t' E. rewrite Hl. setoid_rewrite Hp. destruct (decide (id < length ents)%nat) as [Hlt | Hge].
    + rewrite lookup_app_l in E by done. destruct (Hi _ _ _ E) as (d' & Hd' & Es & Hu'). exists d'. split_and!; [done | |].
      * unfold tab'. rewrite list_lookup_insert_ne; [done |]. intros Eq. rewrite Eq, Es in Hz. injection Hz. lia.
      * intros d'' Hd''. by apply Hup, Hu'.
    + rewrite lookup_app_r in E by lia. destruct (id - length ents)%nat eqn:En; [| by destruct n]. injection E as -> ->.
      exists d. split_and!; [done | |].
      * unfold tab'. rewrite list_lookup_insert_eq by (by eapply lookup_lt_Some). f_equal. lia.
      * intros d'' Hd''. by apply Hup, Hu.
Qed.

(** ** Lemmas: binary search *)

Section Search.
Context (p : Z -> bool) (n : Z).

(** The number of indices that satisfy a condition that only becomes false. *)
Definition boundary (c : Z) : Prop := 0 <= c <= n /\ forall m, 0 <= m < n -> p m = true <-> m < c.

Lemma boundary_at c : 0 <= c <= n -> (forall m, 0 <= m < c -> p m = true) -> (forall m, c <= m < n -> p m = false) -> boundary c.
Proof.
  intros Hc Ht Hf. split; [done |]. intros m Hm. destruct (Z.ltb_spec m c); [rewrite Ht by lia | rewrite Hf by lia]; split; intros; (done || lia).
Qed.

Context (Hmono : forall i j, 0 <= i <= j -> j < n -> p j = true -> p i = true).

Lemma floor_search_spec f fuel lo hi :
  (forall m, 0 <= m < n -> f m = Ret (p m)) -> 0 <= lo <= hi -> hi <= n -> hi - lo <= Z.of_nat fuel ->
  (forall m, 0 <= m < lo -> p m = true) -> (forall m, hi <= m < n -> p m = false) ->
  exists c, boundary c /\ floor_search fuel f lo hi (if lo =? 0 then None else Some (lo - 1)) = Ret (if c =? 0 then None else Some (c - 1)).
Proof.
  intros Hf. revert lo hi. induction fuel as [| fuel IH]; intros lo hi Hlo Hhi Hfu Ht Hnf; cbn [floor_search];
    (destruct (Z.leb_spec hi lo) as [Hle | Hgt];
     [exists lo; split; [apply boundary_at; [lia | done | intros; apply Hnf; lia] | done] |]).
  - lia.
  - assert (lo <= lo + (hi - lo) / 2 < hi) as Hmid by (Z.to_euclidean_division_equations; lia).
    set (mid := lo + (hi - lo) / 2) in *. rewrite Hf by lia. cbn [obind]. destruct (p mid) eqn:Em.
    + destruct (IH (mid + 1) hi) as (c & Hc & E); [lia | lia | lia | | done |].
      { intros m Hm. apply (Hmono m mid); [lia | lia | done]. }
      exists c. split; [done |]. rewrite <- E. destruct (Z.eqb_spec (mid + 1) 0); [lia |]. by rewrite Z.add_simpl_r.
    + apply IH; [lia | lia | lia | done |]. intros m Hm. destruct (p m) eqn:E; [| done].
      rewrite (Hmono mid m) in Em; [done | lia | lia | done].
Qed.

Lemma boundary_unique c c' : boundary c -> boundary c' -> c = c'.
Proof.
  intros [H1 H2] [H3 H4]. destruct (Z.lt_total c c') as [Hlt | [| Hlt]]; [| done |].
  - assert (p c = true) as E by (apply H4; lia). apply H2 in E; lia.
  - assert (p c' = true) as E by (apply H2; lia). apply H4 in E; lia.
Qed.

End Search.

(** ** Well-formed images *)

(** The name with this number has these labels. *)
Definition owner (img : zone_image_t) (id : Z) (ls : list (list Z)) : Prop :=
  exists nm, zone_image_name img id = Ret nm /\ canonical_text (nm_text nm) ls.

(** The labels at a position of the canonical order, and of the owner of an
    entry of the NSEC index. *)
Definition canon_at (img : zone_image_t) (i : Z) (ls : list (list Z)) : Prop :=
  exists id, at_ix (im_canon img) i = Ret id /\ owner img id ls.

Definition rr_owner (img : zone_image_t) (rr : Z) (ls : list (list Z)) : Prop :=
  exists id, zone_image_rr_name img rr = Ret id /\ owner img id ls.

Definition nsec_at (img : zone_image_t) (i rr : Z) (ls : list (list Z)) : Prop :=
  at_ix (im_nsec img) i = Ret rr /\ zone_image_rr_type img rr = Ret 47 /\ rr_owner img rr ls.

(** An entry of a chain: the record, its hash label and the rest of its owner. *)
Definition n3_at (img : zone_image_t) (c i rr : Z) (hash after : list Z) : Prop :=
  zone_image_n3chain_rr img c i = Ret rr /\ zone_image_rr_type img rr = Ret 50 /\
  exists t, zone_image_rr_owner img rr = Ret t /\ strchr DOT t = Some (hash, after).

Record image_ok (img : zone_image_t) : Prop := ImageOk {
  ok_hash_size : exists bits, 0 <= bits /\ len (im_hash img) = 2 ^ bits;
  ok_free : 0 ∈ im_hash img;
  ok_index : index_ok (im_hash img) (map (fun nm => (nm_hash nm, nm_text nm)) (im_names img));
  ok_text : forall id nm, zone_image_name img id = Ret nm ->
    (exists ls, canonical_text (nm_text nm) ls) /\ nm_hash nm = dns_name_hash_ci (nm_text nm);
  ok_distinct : forall id id' ls ls', owner img id ls -> owner img id' ls' -> lower ls = lower ls' -> id = id';
  ok_range : forall id nm, zone_image_name img id = Ret nm ->
    0 <= nm_first_rr nm /\
    forall k, nm_first_rr nm <= k < nm_first_rr nm + name_rr_count nm -> exists r, zone_image_rr img k = Ret r /\ rr_name_id r = id;
  ok_owned : forall k r, zone_image_rr img k = Ret r ->
    exists nm, zone_image_name img (rr_name_id r) = Ret nm /\ nm_first_rr nm <= k < nm_first_rr nm + name_rr_count nm;
  ok_record : forall k r, zone_image_rr img k = Ret r -> 0 <= rr_ext_idx r <= len (im_exts img) /\ bytes (rr_rdata r) /\ len (rr_rdata r) <= 65535;
  ok_canon : forall i, 0 <= i < len (im_canon img) -> exists ls, canon_at img i ls;
  ok_canon_sorted : forall i j ls ls', i < j -> canon_at img i ls -> canon_at img j ls' -> canonical ls ls' = Lt;
  ok_canon_all : forall id ls, owner img id ls -> exists i, at_ix (im_canon img) i = Ret id;
  ok_nsec : forall i, 0 <= i < len (im_nsec img) -> exists rr ls, nsec_at img i rr ls;
  ok_nsec_sorted : forall i j rr rr' ls ls', i < j -> nsec_at img i rr ls -> nsec_at img j rr' ls' -> canonical ls ls' <> Gt;
  ok_n3 : forall c ch i, zone_image_n3chain img c = Ret ch -> 0 <= i < ch_count ch -> exists rr hash after, n3_at img c i rr hash after;
  ok_n3_sorted : forall c ch i j rr rr' hash hash' after after', zone_image_n3chain img c = Ret ch -> 0 <= i < j -> j < ch_count ch -> n3_at img c i rr hash after -> n3_at img c j rr' hash' after' ->
    lex Z.compare (map tolower hash) (map tolower hash') <> Gt
}.

(** ** Lemmas: order of label lists *)

Lemma canonical_refl ls ls' : lower ls = lower ls' -> canonical ls ls' = Eq.
Proof. intros E. unfold canonical. apply cmp_eq. unfold lower in E. by rewrite E. Qed.

Lemma canonical_eq ls ls' : canonical ls ls' = Eq <-> lower ls = lower ls'.
Proof.
  split; [| apply canonical_refl]. unfold canonical. intros E%cmp_eq. apply (f_equal (@rev _)) in E. by rewrite !rev_involutive in E.
Qed.

Lemma canonical_swap ls ls' : canonical ls' ls = CompOpp (canonical ls ls').
Proof. unfold canonical. apply cmp_swap. Qed.

Lemma canonical_trans a b c : canonical a b <> Gt -> canonical b c <> Gt -> canonical a c <> Gt.
Proof.
  unfold canonical. generalize (rev (map (map lc) a)) (rev (map (map lc) b)) (rev (map (map lc) c)). clear. intros a b c Hab Hbc.
  destruct (lex _ a b) eqn:E1; [apply cmp_eq in E1 as ->; done | | done].
  destruct (lex _ b c) eqn:E2; [apply cmp_eq in E2 as <-; by rewrite E1 | | done]. by rewrite (cmp_lt_trans _ _ _ E1 E2).
Qed.

Lemma canonical_lt_le a b c : canonical a b = Lt -> canonical b c <> Gt -> canonical a c = Lt.
Proof.
  unfold canonical. generalize (rev (map (map lc) a)) (rev (map (map lc) b)) (rev (map (map lc) c)). clear. intros a b c E1 Hbc.
  destruct (lex _ b c) eqn:E2; [apply cmp_eq in E2 as <-; done | | done]. by rewrite (cmp_lt_trans _ _ _ E1 E2).
Qed.

Lemma canonical_le_lt a b c : canonical a b <> Gt -> canonical b c = Lt -> canonical a c = Lt.
Proof.
  unfold canonical. generalize (rev (map (map lc) a)) (rev (map (map lc) b)) (rev (map (map lc) c)). clear. intros a b c Hab E2.
  destruct (lex _ a b) eqn:E1; [apply cmp_eq in E1 as ->; done | | done]. by rewrite (cmp_lt_trans _ _ _ E1 E2).
Qed.

Lemma canonical_lower a b a' b' : lower a = lower a' -> lower b = lower b' -> canonical a b = canonical a' b'.
Proof. unfold canonical, lower. by intros -> ->. Qed.

(** What sorts after a list and not after an extension of it extends it. *)
Lemma lex_between {A} (cmp : A -> A -> comparison) `{!Ordering cmp} n : forall c x,
  lex cmp n c = Lt -> lex cmp c (n ++ x) <> Gt -> exists y, c = n ++ y.
Proof.
  induction n as [| a n IH]; intros c x; [by exists c |]. destruct c as [| b c]; [done |]. cbn [app lex].
  rewrite (cmp_swap (cmp := cmp) a b). destruct (cmp a b) eqn:E; [| done | done]. apply cmp_eq in E as ->. cbn. intros H1 H2.
  destruct (IH c x H1 H2) as [y ->]. by exists y.
Qed.

(** The names below a name follow it, before all others. *)
Lemma below_between n c d : canonical n c = Lt -> canonical c d <> Gt -> lower n `suffix_of` lower d -> lower n `suffix_of` lower c.
Proof.
  unfold canonical. intros H1 H2 [k E]. fold (lower n) (lower c) (lower d) in *. rewrite E, rev_app_distr in H2.
  destruct (lex_between _ _ _ _ H1 H2) as [y Hy]. exists (rev y). apply (f_equal (@rev _)) in Hy. rewrite rev_app_distr, !rev_involutive in Hy. done.
Qed.

Lemma below_after n d : lower n `suffix_of` lower d -> canonical n d <> Gt.
Proof.
  intros [k E]. unfold canonical. fold (lower n) (lower d). rewrite E, rev_app_distr. generalize (rev (lower n)) (rev k). clear. intros n k.
  induction n as [| a n IH]; [by destruct k |]. cbn. by rewrite (proj2 (cmp_eq a a)).
Qed.

(** ** Lemmas: the lookups *)

Section Lookups.
Context (img : zone_image_t) (Hok : image_ok img).

Lemma owner_read id ls : owner img id ls -> exists t, zone_image_name_text img id = Ret t /\ canonical_text t ls.
Proof. intros (nm & E & Ht). exists (nm_text nm). unfold zone_image_name_text. by rewrite E. Qed.

Lemma owner_range id ls : owner img id ls -> 0 <= id < len (im_names img).
Proof. intros (nm & E & _). by eapply at_ix_lt. Qed.

Lemma owner_in id : 0 <= id < len (im_names img) -> exists ls, owner img id ls.
Proof. intros [nm E]%at_ix_in. destruct (ok_text _ Hok _ _ E) as [[ls Hl] _]. by exists ls, nm. Qed.

Lemma canonical_text_unique t ls ls' : canonical_text t ls -> canonical_text t ls' -> ls = ls'.
Proof.
  intros (raw & -> & Hne & Ho & _ & ->) (raw' & E & Hne' & Ho' & _ & ->). by rewrite (render_inj raw raw').
Qed.

Lemma owner_unique id ls ls' : owner img id ls -> owner img id ls' -> ls = ls'.
Proof. intros (nm & E & H) (nm' & E' & H'). rewrite E in E'. injection E' as <-. by eapply canonical_text_unique. Qed.

(** [zone_image_find_name] *)
Lemma find_owner_spec name ls : canonical_text name ls ->
  exists r, zone_image_find_name img name = Ret r /\
    match r with
    | Some id => exists ls', owner img id ls' /\ lower ls' = lower ls
    | None => forall id ls', owner img id ls' -> lower ls' <> lower ls
    end.
Proof.
  intros Hn. unfold zone_image_find_name. destruct (Z.eqb_spec (len (im_names img)) 0) as [E0 | E0].
  { exists None. split; [done |]. intros id ls' H%owner_range. lia. }
  destruct (ok_hash_size _ Hok) as (bits & Hb & Hl).
  destruct (find_slot_spec _ bits Hb Hl _ (dns_name_hash_ci name) name (ok_index _ Hok) (ok_free _ Hok)) as (r & Hr & Hm).
  assert (forall fuel tab mask h s, find_slot fuel (name_entry img) tab mask h name s =
      find_slot fuel (at_ix (map (fun nm => (nm_hash nm, nm_text nm)) (im_names img))) tab mask h name s) as Heq.
  { induction fuel as [| fuel IH]; intros; [done |]. cbn [find_slot]. destruct (at_ix tab s) as [v | | |]; [| done..]. cbn [obind].
    rewrite at_ix_map. unfold name_entry, zone_image_name. destruct (v =? 0); [done |]. destruct (at_ix (im_names img) (v - 1)) as [nm | | |]; [| done..].
    cbn [obind]. by rewrite IH. }
  rewrite Heq. exists r. split; [done |].
  assert (forall id nm ls', zone_image_name img id = Ret nm -> canonical_text (nm_text nm) ls' ->
    domain_names_match_ci (nm_text nm) name = true <-> lower ls' = lower ls) as Hml by (intros; by apply match_labels).
  destruct r as [id |].
  - destruct Hm as (t & Ha & Hm). rewrite at_ix_map in Ha. bind_inv Ha. injection Ha as Hh <-.
    destruct (ok_text _ Hok _ _ Ha0) as [[ls' Hl'] _]. exists ls'. split; [by exists a |]. by eapply Hml.
  - intros id ls' (nm & E & Ht) Heql. apply (Hm id). exists (nm_text nm). rewrite at_ix_map. unfold zone_image_name in E. rewrite E. cbn [obind].
    rewrite (proj2 (ok_text _ Hok _ _ E)), (match_hash _ _ _ _ Ht Hn Heql). split; [done |]. by eapply Hml.
Qed.

Lemma canon_at_range i ls : canon_at img i ls -> 0 <= i < len (im_canon img).
Proof. intros (id & E & _). by eapply at_ix_lt. Qed.

Lemma canon_text_read i ls : canon_at img i ls -> exists t, zone_image_canon_text img i = Ret t /\ canonical_text t ls.
Proof. intros (id & E & Ho). unfold zone_image_canon_text. rewrite E. cbn [obind]. by apply owner_read. Qed.

Lemma canon_at_unique i ls ls' : canon_at img i ls -> canon_at img i ls' -> ls = ls'.
Proof. intros (id & E & H) (id' & E' & H'). rewrite E in E'. injection E' as <-. by eapply owner_unique. Qed.

(** The comparison of a stored name with the one searched for. *)
Lemma compare_stored t ls name lsn : canonical_text t ls -> canonical_text name lsn ->
  exists r, compare_canonical_name (Some t) (Some name) = Ret r /\ (r <= 0 <-> canonical ls lsn <> Gt) /\ (r = 0 <-> lower ls = lower lsn) /\
    (r < 0 <-> canonical ls lsn = Lt).
Proof.
  intros Ht Hn. destruct (compare_spec t name ls lsn) as (r & E & Hs); [by apply canonical_text_name.. |]. exists r. split; [done |].
  unfold sign_of in Hs. rewrite <- canonical_eq, <- Hs, Z.compare_eq_iff, Z.compare_lt_iff. split; [done | split; [done | done]].
Qed.

(** A search of a sorted index of names by the canonical order. *)
Lemma search_index (n : Z) (key : Z -> list (list Z) -> Prop) (name : list Z) (lsn : list (list Z)) (f : Z -> outcome bool) :
  (forall i, 0 <= i < n -> exists ls, key i ls) -> (forall i ls ls', key i ls -> key i ls' -> ls = ls') ->
  (forall i j ls ls', i < j -> key i ls -> key j ls' -> canonical ls ls' <> Gt) ->
  (forall i ls, 0 <= i < n -> key i ls -> exists t, canonical_text t ls /\ f i = let! c := compare_canonical_name (Some t) (Some name) in Ret (c <=? 0)) ->
  canonical_text name lsn -> 0 <= n ->
  exists c, 0 <= c <= n /\ (forall i ls, 0 <= i < n -> key i ls -> i < c <-> canonical ls lsn <> Gt) /\
    floor_search (Z.to_nat n) f 0 n None = Ret (if c =? 0 then None else Some (c - 1)).
Proof.
  intros Hall Huniq Hsort Hf Hn Hn0. set (p := fun m => match f m with Ret b => b | _ => false end).
  assert (forall i ls, 0 <= i < n -> key i ls -> f i = Ret (p i) /\ (p i = true <-> canonical ls lsn <> Gt)) as Hp.
  { intros i ls Hi Hk. unfold p. destruct (Hf i ls Hi Hk) as (t & Ht & ->). destruct (compare_stored _ _ _ _ Ht Hn) as (r & -> & Hr & _). cbn [obind].
    split; [done |]. by rewrite Z.leb_le. }
  destruct (floor_search_spec p n) with (f := f) (fuel := Z.to_nat n) (lo := 0) (hi := n) as (c & [Hc1 Hc2] & E); try lia.
  - intros i j Hij Hj Hpj. destruct (Hall i) as [li Hi]; [lia |]. destruct (Hall j) as [lj Hlj]; [lia |].
    destruct (decide (i = j)) as [-> |]; [done |]. apply (Hp i li ltac:(lia) Hi). apply (Hp j lj ltac:(lia) Hlj) in Hpj.
    eapply canonical_trans; [| done]. apply (Hsort i j); [lia | done | done].
  - intros m Hm. destruct (Hall m Hm) as [l Hl]. by apply (Hp m l).
  - exists c. split_and!; [lia | lia | | done]. intros i ls Hi Hk. rewrite <- (Hc2 i Hi). by apply Hp.
Qed.

(** [zone_image_canon_floor] *)
Lemma canon_floor_spec name lsn : canonical_text name lsn ->
  exists c exact, 0 <= c <= len (im_canon img) /\
    (forall i ls, canon_at img i ls -> i < c <-> canonical ls lsn <> Gt) /\
    zone_image_canon_floor img name = Ret (if c =? 0 then None else Some (c - 1), exact) /\
    (exact = true <-> exists i ls, canon_at img i ls /\ lower ls = lower lsn).
Proof.
  intros Hn. destruct (search_index (len (im_canon img)) (canon_at img) name lsn (canon_not_after img name)) as (c & Hc & Hcut & E).
  - apply (ok_canon _ Hok).
  - apply canon_at_unique.
  - intros i j ls ls' Hij Hi Hj. by rewrite (ok_canon_sorted _ Hok i j ls ls').
  - intros i ls _ Hi. destruct (canon_text_read _ _ Hi) as (t & Et & Ht). exists t. split; [done |]. unfold canon_not_after. by rewrite Et.
  - done.
  - lia.
  - unfold zone_image_canon_floor. rewrite Nat2Z.id in E. rewrite E. cbn [obind].
    assert (forall i ls, canon_at img i ls -> i < c <-> canonical ls lsn <> Gt) as Hcut'
      by (intros i ls Hi; apply Hcut; [by eapply canon_at_range | done]).
    destruct (Z.eqb_spec c 0) as [-> | Hc0].
    + exists 0, false. split_and!; [lia | lia | done | done |]. split; [done |]. intros (i & ls & Hi & El). pose proof (canon_at_range _ _ Hi).
      apply canonical_refl in El. assert (i < 0); [| lia]. apply (Hcut' _ _ Hi). by rewrite El.
    + destruct (ok_canon _ Hok (c - 1)) as [l Hl]; [lia |]. destruct (canon_text_read _ _ Hl) as (t & Et & Ht). rewrite Et. cbn [obind].
      destruct (compare_stored _ _ _ _ Ht Hn) as (r & -> & _ & Hr & _). cbn [obind]. exists c, (r =? 0).
      rewrite (proj2 (Z.eqb_neq c 0) Hc0). split_and!; [lia.. | done | done |].
      rewrite Z.eqb_eq, Hr. split; [intros El; by exists (c - 1), l |]. intros (i & ls & Hi & El).
      assert (i < c) as Hic by (apply (Hcut' _ _ Hi); by rewrite (canonical_refl _ _ El)).
      destruct (decide (i = c - 1)) as [-> |]; [by rewrite (canon_at_unique _ _ _ Hl Hi) |]. exfalso.
      assert (canonical ls l = Lt) as Hlt by (apply (ok_canon_sorted _ Hok i (c - 1)); [lia | done..]).
      assert (canonical l lsn <> Gt) as Hle by (apply (Hcut' _ _ Hl); lia).
      pose proof (canonical_lt_le _ _ _ Hlt Hle) as Hx. rewrite (canonical_refl _ _ El) in Hx. done.
Qed.

(** [zone_image_nsec_floor] *)
Lemma nsec_floor_spec name lsn : canonical_text name lsn ->
  exists c, 0 <= c <= len (im_nsec img) /\
    (forall i rr ls, nsec_at img i rr ls -> i < c <-> canonical ls lsn <> Gt) /\
    zone_image_nsec_floor img name = Ret (if c =? 0 then None else Some (c - 1)).
Proof.
  intros Hn. destruct (search_index (len (im_nsec img)) (fun i ls => exists rr, nsec_at img i rr ls) name lsn (nsec_not_after img name)) as (c & Hc & Hcut & E).
  - intros i Hi. destruct (ok_nsec _ Hok i Hi) as (rr & ls & H). by exists ls, rr.
  - intros i ls ls' (rr & E & _ & id & Er & Ho) (rr' & E' & _ & id' & Er' & Ho'). rewrite E in E'. injection E' as <-. rewrite Er in Er'. injection Er' as <-.
    by eapply owner_unique.
  - intros i j ls ls' Hij [rr Hi] [rr' Hj]. by apply (ok_nsec_sorted _ Hok i j rr rr').
  - intros i ls _ (rr & Ei & _ & id & Er & Ho). destruct (owner_read _ _ Ho) as (t & Et & Ht). exists t. split; [done |].
    unfold nsec_not_after, zone_image_rr_owner. rewrite Ei. cbn [obind]. rewrite Er. cbn [obind]. by rewrite Et.
  - done.
  - lia.
  - exists c. rewrite Nat2Z.id in E. split_and!; [lia.. | | done]. intros i rr ls Hi. apply Hcut; [| by exists rr].
    destruct Hi as (Ei & _). by eapply at_ix_lt.
Qed.

End Lookups.

End ZoneLookup.
