(* ===== verification/Denial.v ===== *)
(** * Existence of names and denial of existence

    What the query engine (dns_query_engine.c) decides on a zone image before
    it writes a negative answer: whether a name exists, also as an empty
    non-terminal; its closest encloser and the next closer name; the NSEC and
    NSEC3 records that match or cover a name. *)

From S2P Require Import Prelude CLib DnsName NameText WireName CanonOrder NameWalk Ecs RdataText ZoneImage ZoneLookup.

Module Denial.
Import CLib DnsName NameText WireName CanonOrder NameWalk Ecs RdataText ZoneImage ZoneLookup.

(** ** Data *)

Definition DNS_TYPE_PDNS_LUA : Z := 65402.

(** SHA-1 of OpenSSL. *)
Class Sha1 := {
  sha1 : list Z -> list Z;
  sha1_digest : forall m, bytes (sha1 m) /\ length (sha1 m) = 20%nat
}.

(** What the client is: its tinydns location, its tags, and the clock. *)
Record client_t := Client { cl_time : Z; cl_loc : Z * Z; cl_ecs_tag : option (list Z); cl_loc_tag : option (list Z) }.

(** ** Operations: records that are not served *)

Section Engine.
Context (img : zone_image_t).

Definition is_nsec3_chain_rr (rr : Z) : outcome bool :=
  let! type := zone_image_rr_type img rr in
  if type =? 50 then Ret true
  else if type =? 46 then orelse (zone_image_rrsig_covered img rr) false (fun covered => Ret (covered =? 50))
  else Ret false.

Definition rr_not_served (rr : Z) : outcome bool :=
  let! r := zone_image_rr img rr in
  if (rr_type r =? DNS_TYPE_PDNS_LUA) && (rr_class r =? 1) then Ret true else is_nsec3_chain_rr rr.

(** The time the tinydns records are compared with. *)
Definition zone_now (cl : client_t) : Z := if has_flag (im_flags img) ZONE_IMAGE_F_TINYDNS then cl_time cl else 0.

Definition rr_valid (cl : client_t) (rr : Z) : outcome (option Z) :=
  let! r := zone_image_rr img rr in
  if rr_ext_idx r =? 0 then Ret (Some (rr_ttl r))
  else zone_image_rr_valid img rr (zone_now cl) (cl_loc cl) (cl_ecs_tag cl) (cl_loc_tag cl).

(** ** Operations: existence *)

(** A record of [k, k + n) that the client sees. *)
Fixpoint served_scan (n : nat) (cl : client_t) (k : Z) : outcome bool :=
  match n with
  | O => Ret false
  | S n' =>
      let! hidden := rr_not_served k in
      if hidden then served_scan n' cl (k + 1)
      else
        let! v := rr_valid cl k in
        match v with
        | Some _ => Ret true
        | None => served_scan n' cl (k + 1)
        end
  end.

Definition name_has_data (cl : client_t) (id : Z) : outcome bool :=
  let! nm := zone_image_name img id in
  served_scan (Z.to_nat (name_rr_count nm)) cl (nm_first_rr nm).

(** The owner that follows in canonical order is below the name. *)
Definition empty_non_terminal (name : list Z) : outcome bool :=
  let! '(floor_pos, _) := zone_image_canon_floor img name in
  let pos := match floor_pos with None => 0 | Some p => p + 1 end in
  if len (im_canon img) <=? pos then Ret false
  else
    let! rn := zone_image_canon_text img pos in
    Ret (domain_name_is_at_or_below rn name && negb (domain_names_match_ci rn name)).

Definition name_exists_in_zone (cl : client_t) (name : list Z) : outcome bool :=
  if len (im_names img) =? 0 then Ret false
  else
    let! id := zone_image_find_name img name in
    let! data := match id with Some id => name_has_data cl id | None => Ret false end in
    if data then Ret true else empty_non_terminal name.

(** The loop over the parents. *)
Fixpoint encloser_walk (fuel : nat) (cl : client_t) (parent zone_apex : list Z) : outcome (list Z) :=
  match fuel with
  | O => NoFuel
  | S fuel' =>
      match strchr_unescaped parent DOT with
      | None | Some [] => Ret zone_apex
      | Some (_ :: parent) =>
          if bool_decide (parent = []) then Ret zone_apex
          else if domain_names_match_ci parent zone_apex then Ret zone_apex
          else if negb (domain_name_is_at_or_below parent zone_apex) then Ret zone_apex
          else
            let! e := name_exists_in_zone cl parent in
            if e then Ret parent else encloser_walk fuel' cl parent zone_apex
      end
  end.

Definition find_closest_encloser (cl : client_t) (qname zone_apex : list Z) : outcome (list Z) :=
  if len (im_names img) =? 0 then Ret zone_apex else encloser_walk (S (length qname)) cl qname zone_apex.

(** ** Operations: NSEC *)

Definition nsec_covers_name (rr : Z) (name : list Z) : outcome bool :=
  let! type := zone_image_rr_type img rr in
  if negb (type =? 47) then Ret false
  else
    orelse (zone_image_rr_target img rr DNS_NAME_TEXT_SIZE) false (fun next =>
      let! owner := zone_image_rr_owner img rr in
      let! cmp_wrap := compare_canonical_name (Some owner) (Some next) in
      let! c1 := compare_canonical_name (Some owner) (Some name) in
      let! c2 := compare_canonical_name (Some name) (Some next) in
      Ret (if cmp_wrap <? 0 then (c1 <=? 0) && (c2 <? 0) else (c1 <=? 0) || (c2 <? 0))).

Definition find_covering_nsec (name : list Z) : outcome (option Z) :=
  if len (im_nsec img) =? 0 then Ret None
  else
    let! best := zone_image_nsec_floor img name in
    let! rr := at_ix (im_nsec img) (match best with Some b => b | None => len (im_nsec img) - 1 end) in
    let! c := nsec_covers_name rr name in
    Ret (if c then Some rr else None).

(** ** Operations: NSEC3 *)

Definition strcasecmp (a b : list Z) : Z := strcmp (map tolower a) (map tolower b).

Definition nsec3_covers_hash (owner_hash next_hash target_hash : list Z) : bool :=
  let cmp_owner_next := strcasecmp owner_hash next_hash in
  let cmp_owner_tgt := strcasecmp owner_hash target_hash in
  let cmp_tgt_next := strcasecmp target_hash next_hash in
  if cmp_owner_next <? 0 then (cmp_owner_tgt <? 0) && (cmp_tgt_next <? 0)
  else if 0 <? cmp_owner_next then (cmp_owner_tgt <? 0) || (cmp_tgt_next <? 0)
  else negb (cmp_owner_tgt =? 0).

(** The entries from [i] on with the same hash; the one whose owner is
    directly below the apex. *)
Fixpoint matching_scan (n : nat) (chain i : Z) (hash_b32 apex : list Z) : outcome (option Z) :=
  match n with
  | O => Ret None
  | S n' =>
      let! '(h, after) := zone_image_n3chain_hash img chain i in
      if negb (strcaseeq h hash_b32) then Ret None
      else match after with
      | None => Oob
      | Some after =>
          if domain_names_match_ci after apex then let! rr := zone_image_n3chain_rr img chain i in Ret (Some rr)
          else matching_scan n' chain (i + 1) hash_b32 apex
      end
  end.

Definition find_matching_nsec3 (chain : option Z) (hash_b32 apex : list Z) : outcome (option Z) :=
  match chain with
  | None => Ret None
  | Some chain =>
      let! ch := zone_image_n3chain img chain in
      let! i := zone_image_n3chain_lower_bound img chain hash_b32 in
      matching_scan (Z.to_nat (ch_count ch - i)) chain i hash_b32 apex
  end.

Definition find_covering_nsec3 (chain : option Z) (target_hash : list Z) : outcome (option Z) :=
  match chain with
  | None => Ret None
  | Some chain =>
      let! ch := zone_image_n3chain img chain in
      if ch_count ch =? 0 then Ret None
      else
        let! i := zone_image_n3chain_lower_bound img chain target_hash in
        let idx := if 0 <? i then i - 1 else ch_count ch - 1 in
        let! rr := zone_image_n3chain_rr img chain idx in
        let! '(owner_hash, _) := zone_image_n3chain_hash img chain idx in
        if 64 <=? len owner_hash then Ret None
        else
          orelse (zone_image_nsec3 img rr) None (fun v =>
            if (len (n3_next v) =? 0) || (255 <? len (n3_next v)) then Ret None
            else
              let! next_hash := dns_base32hex_encode (n3_next v) 512 in
              Ret (if nsec3_covers_hash owner_hash next_hash target_hash then Some rr else None))
  end.

End Engine.

(** The length written is that of the result, 0 for a failure. *)
Definition name_to_canonical_wire (name : list Z) (max_wire : Z) : outcome (list Z) :=
  if max_wire <? 1 then Ret []
  else
    orelse (write_uncompressed_name_ext (replicate (Z.to_nat max_wire) 0) 0 max_wire name true) [] (fun '(buf, w) =>
      Ret (take (Z.to_nat w) buf)).

(** The hash and its iterations. *)
Fixpoint nsec3_iterate `{Sha1} (n : nat) (salt digest : list Z) : list Z :=
  match n with
  | O => digest
  | S n' => nsec3_iterate n' salt (sha1 (digest ++ salt))
  end.

Definition compute_nsec3_hash `{Sha1} (name : list Z) (algo iterations : Z) (salt : list Z) (out_b32_sz : Z) : outcome (option (list Z)) :=
  if negb (algo =? 1) then Ret None
  else
    let! wire := name_to_canonical_wire name 256 in
    if len wire =? 0 then Ret None
    else
      let! b32 := dns_base32hex_encode (nsec3_iterate (Z.to_nat iterations) salt (sha1 (wire ++ salt))) out_b32_sz in
      Ret (Some b32).

(** The first label boundary behind which the text is the encloser. *)
Fixpoint next_closer_walk (fuel : nat) (start encloser : list Z) : outcome (option (list Z)) :=
  match fuel with
  | O => NoFuel
  | S fuel' =>
      match strchr_unescaped start DOT with
      | None | Some [] => Ret None
      | Some (_ :: after) =>
          if domain_names_match_ci after encloser then Ret (Some start)
          else if bool_decide (after = []) then Ret None
          else next_closer_walk fuel' after encloser
      end
  end.

Definition find_next_closer_name (qname encloser : list Z) (out_sz : Z) : outcome (option (list Z)) :=
  if out_sz =? 0 then Ret None
  else if negb (domain_name_is_at_or_below qname encloser) || domain_names_match_ci qname encloser then Ret None
  else
    let! start := next_closer_walk (S (length qname)) qname encloser in
    match start with
    | None => Ret None
    | Some start =>
        let nc := take (dns_name_len_no_root start (length start)) start in
        if out_sz <=? len nc + 1 then Ret None else Ret (Some nc)
    end.

(** ** Specification *)

(** The client sees the record. *)
Definition sees (img : zone_image_t) (cl : client_t) (k : Z) : Prop :=
  rr_not_served img k = Ret false /\ exists ttl, rr_valid img cl k = Ret (Some ttl).

(** A record of the name that the client sees. *)
Definition data_at (img : zone_image_t) (cl : client_t) (ls : list (list Z)) : Prop :=
  exists k r ls', zone_image_rr img k = Ret r /\ owner img (rr_name_id r) ls' /\ lower ls' = lower ls /\ sees img cl k.

(** The name, or one below it, is in the zone (RFC 4592, section 2.2). *)
Definition name_in_zone (img : zone_image_t) (cl : client_t) (ls : list (list Z)) : Prop :=
  data_at img cl ls \/ exists id ls', owner img id ls' /\ lower ls `suffix_of` lower ls' /\ lower ls' <> lower ls.

(** ** Lemmas: records *)

Lemma rrsig_covered_total img k r : zone_image_rr img k = Ret r ->
  zone_image_rrsig_covered img k = Fail \/ exists c, zone_image_rrsig_covered img k = Ret c.
Proof.
  intros E. unfold zone_image_rrsig_covered. rewrite E. cbn [obind]. case_if; [by left | right]. assert (18 <= len (rr_rdata r)) by (cmp_prop; lia). unfold rd16.
  destruct (rd_in (rr_rdata r) 0) as [a ->]; [lia |]. cbn [obind]. destruct (rd_in (rr_rdata r) (0 + 1)) as [b ->]; [lia |]. by eexists.
Qed.

Lemma rr_not_served_total img k r : zone_image_rr img k = Ret r -> exists b, rr_not_served img k = Ret b.
Proof.
  intros E. unfold rr_not_served, is_nsec3_chain_rr, zone_image_rr_type. rewrite E. cbn [obind]. repeat (case_if; [by eexists |]).
  case_if; [| by eexists]. destruct (rrsig_covered_total img k r E) as [-> | [c ->]]; by eexists.
Qed.

Lemma rr_ext_total img k r : image_ok img -> zone_image_rr img k = Ret r -> exists e, zone_image_rr_ext img k = Ret e.
Proof.
  intros Hok E. unfold zone_image_rr_ext. rewrite E. cbn [obind]. destruct (ok_record _ Hok _ _ E) as [He _]. case_if; [by eexists |]. cmp_prop.
  destruct (at_ix_in (im_exts img) (rr_ext_idx r - 1)) as [e ->]; [lia |]. by eexists.
Qed.

Lemma image_rr_valid_total img k r now loc et lt : image_ok img -> zone_image_rr img k = Ret r ->
  exists v, zone_image_rr_valid img k now loc et lt = Ret v.
Proof.
  intros Hok E. unfold zone_image_rr_valid. destruct (rr_ext_total img k r Hok E) as [e ->]. rewrite E. cbn [obind].
  destruct e as [e |]; [| by eexists]. repeat case_if; by eexists.
Qed.

Lemma rr_valid_total img cl k r : image_ok img -> zone_image_rr img k = Ret r -> exists v, rr_valid img cl k = Ret v.
Proof.
  intros Hok E. unfold rr_valid. rewrite E. cbn [obind]. case_if; [by eexists |]. by eapply image_rr_valid_total.
Qed.

Lemma served_scan_spec img cl n : image_ok img -> forall k, (forall j, k <= j < k + Z.of_nat n -> exists r, zone_image_rr img j = Ret r) ->
  exists b, served_scan img n cl k = Ret b /\ (b = true <-> exists j, k <= j < k + Z.of_nat n /\ sees img cl j).
Proof.
  intros Hok. induction n as [| n IH]; intros k Hk; [exists false; split; [done |]; split; [done | intros (j & Hj & _); lia] |].
  destruct (Hk k) as [r E]; [lia |]. destruct (IH (k + 1)) as (b & Eb & Hb); [intros; apply Hk; lia |]. cbn [served_scan].
  destruct (rr_not_served_total _ _ _ E) as [h Eh]. rewrite Eh. cbn [obind]. destruct (rr_valid_total img cl k r Hok E) as [v Ev].
  assert (h = true \/ v = None -> b = true <-> exists j, k <= j < k + Z.of_nat (S n) /\ sees img cl j) as Hskip.
  { intros Hns. rewrite Hb. split; intros (j & Hj & Hs); exists j; (split; [| done]); [lia |].
    destruct (decide (j = k)) as [-> |]; [| lia]. exfalso. destruct Hs as [H1 [ttl H2]]. rewrite Eh in H1. rewrite Ev in H2. naive_solver. }
  destruct h; [rewrite Eb; exists b; auto |]. rewrite Ev. cbn [obind]. destruct v as [ttl |]; [| rewrite Eb; exists b; auto].
  exists true. split; [done |]. split; [| done]. intros _. exists k. split; [lia |]. split; [done | by exists ttl].
Qed.

Section Existence.
Context (img : zone_image_t) (cl : client_t) (Hok : image_ok img).

Lemma name_has_data_spec id ls : owner img id ls -> exists b, name_has_data img cl id = Ret b /\ (b = true <-> data_at img cl ls).
Proof.
  intros Ho. destruct (Ho) as (nm & E & Ht). unfold name_has_data. rewrite E. cbn [obind]. destruct (ok_range _ Hok _ _ E) as [Hf Hr].
  destruct (served_scan_spec img cl (Z.to_nat (name_rr_count nm)) Hok (nm_first_rr nm)) as (b & -> & Hb).
  { intros j Hj. destruct (Hr j) as (r & Er & _); [lia |]. by exists r. }
  exists b. split; [done |]. rewrite Hb. split.
  - intros (j & Hj & Hs). destruct (Hr j) as (r & Er & <-); [lia |]. by exists j, r, ls.
  - intros (k & r & ls' & Er & Ho' & El & Hs). pose proof (ok_distinct _ Hok _ _ _ _ Ho' Ho El) as <-.
    destruct (ok_owned _ Hok _ _ Er) as (nm' & E' & Hk). rewrite E in E'. injection E' as <-. exists k. split; [lia | done].
Qed.

(** The owner after the name in canonical order is below it exactly when
    some owner is. *)
Lemma empty_non_terminal_spec name ls : canonical_text name ls ->
  exists b, empty_non_terminal img name = Ret b /\
    (b = true <-> exists id ls', owner img id ls' /\ lower ls `suffix_of` lower ls' /\ lower ls' <> lower ls).
Proof.
  intros Hn. destruct (canon_floor_spec img Hok name ls Hn) as (c & exact & Hc & Hcut & E & _). unfold empty_non_terminal. rewrite E. cbn [obind].
  replace (match (if c =? 0 then None else Some (c - 1)) with None => 0 | Some p => p + 1 end) with c by (destruct (Z.eqb_spec c 0); lia).
  assert (forall id ls', owner img id ls' -> lower ls `suffix_of` lower ls' -> lower ls' <> lower ls ->
    exists i, canon_at img i ls' /\ c <= i) as Hbelow.
  { intros id ls' Ho Hs Hne. destruct (ok_canon_all _ Hok id ls' Ho) as [i Ei]. assert (canon_at img i ls') as Hi by by exists id. exists i. split; [done |].
    destruct (Z.ltb_spec i c) as [Hlt |]; [exfalso | done]. apply (Hcut _ _ Hi) in Hlt. apply below_after in Hs. rewrite canonical_swap in Hs.
    destruct (canonical ls' ls) eqn:Ec; [apply canonical_eq in Ec; done | done | done]. }
  destruct (Z.leb_spec (len (im_canon img)) c) as [Hend | Hlt].
  { exists false. split; [done |]. split; [done |]. intros (id & ls' & Ho & Hs & Hne). destruct (Hbelow _ _ Ho Hs Hne) as (i & Hi%canon_at_range & ?). lia. }
  destruct (ok_canon _ Hok c) as [lc' Hlc]; [lia |]. destruct (canon_text_read img _ _ Hlc) as (t & Et & Ht). rewrite Et. cbn [obind]. eexists. split; [done |].
  rewrite andb_true_iff, negb_true_iff, (below_labels _ _ _ _ Ht Hn), <- not_true_iff_false, (match_labels _ _ _ _ Ht Hn). split.
  - intros [Hs Hne]. destruct (Hlc) as (id & _ & Ho). by exists id, lc'.
  - intros (id & ls' & Ho & Hs & Hne). destruct (Hbelow _ _ Ho Hs Hne) as (i & Hi & Hci).
    assert (canonical lc' ls = Gt) as Hgt.
    { destruct (canonical lc' ls) eqn:Ec; [exfalso | exfalso | done]; assert (c < c); [apply (Hcut _ _ Hlc); congruence | lia | apply (Hcut _ _ Hlc); congruence | lia]. }
    assert (canonical ls lc' = Lt) as Hlt' by (rewrite canonical_swap, Hgt; done). split.
    + apply (below_between ls lc' ls'); [done | | done]. destruct (decide (i = c)) as [-> |]; [rewrite (canon_at_unique img _ _ _ Hi Hlc), canonical_refl; done |].
      rewrite (ok_canon_sorted _ Hok c i lc' ls'); [done | lia | done | done].
    + intros El. rewrite (canonical_refl _ _ El) in Hgt. done.
Qed.

Lemma name_exists_spec name ls : canonical_text name ls ->
  exists b, name_exists_in_zone img cl name = Ret b /\ (b = true <-> name_in_zone img cl ls).
Proof.
  intros Hn. unfold name_exists_in_zone, name_in_zone. destruct (Z.eqb_spec (len (im_names img)) 0) as [E0 | E0].
  { exists false. split; [done |]. split; [done |]. intros [(k & r & ls' & _ & Ho%owner_range & _) | (id & ls' & Ho%owner_range & _)]; lia. }
  destruct (find_owner_spec img Hok name ls Hn) as (r & -> & Hr). cbn [obind].
  assert (exists b, match r with Some id => name_has_data img cl id | None => Ret false end = Ret b /\ (b = true <-> data_at img cl ls)) as (b & -> & Hb).
  { destruct r as [id |].
    - destruct Hr as (ls' & Ho & El). destruct (name_has_data_spec id ls' Ho) as (b & E & Hb). exists b. split; [done |]. rewrite Hb.
      unfold data_at. by setoid_rewrite El.
    - exists false. split; [done |]. split; [done |]. intros (k & r & ls' & _ & Ho & El & _). by destruct (Hr _ _ Ho). }
  cbn [obind]. destruct b; [exists true; split; [done |]; split; [left; by apply Hb | done] |].
  destruct (empty_non_terminal_spec name ls Hn) as (b & -> & Hb'). exists b. split; [done |]. rewrite Hb'.
  split; [by right | intros [H | H]; [by apply Hb in H | done]].
Qed.

(** ** Lemmas: the closest encloser *)

(** One name strictly above another. *)
Definition above (a b : list (list Z)) : Prop := lower a `suffix_of` lower b /\ lower a <> lower b.

Lemma suffix_total {A} (a b c : list A) : a `suffix_of` c -> b `suffix_of` c -> a `suffix_of` b \/ b `suffix_of` a.
Proof.
  intros [x ->] [y E]. revert y E. induction x as [| u x IH]; intros y E; [right; by exists y |].
  destruct y as [| v y]; [left; exists (u :: x); done |]. injection E as -> E. by apply (IH y).
Qed.

Lemma suffix_antisym {A} (a b : list A) : a `suffix_of` b -> b `suffix_of` a -> a = b.
Proof.
  intros [x ->] [y E]. apply (f_equal length) in E. rewrite !length_app in E. by destruct x; [| cbn in E; lia].
Qed.

Lemma suffix_tail {A} (a : list A) x b : a `suffix_of` x :: b -> a <> x :: b -> a `suffix_of` b.
Proof. intros [[| u k] E] Hne; [cbn in E; congruence |]. injection E as _ ->. by exists k. Qed.

Lemma strchr_unescaped_shorter s c x p : strchr_unescaped s c = Some (x :: p) -> (length p < length s)%nat.
Proof.
  remember (length s) as n eqn:Hn. revert s Hn. induction n as [n IH] using lt_wf_ind. intros s ->. destruct s as [| a s]; [done |].
  cbn [strchr_unescaped]. destruct (a =? BACKSLASH).
  - destruct s as [| b s]; [done |]. intros E. pose proof (IH (length s) ltac:(cbn; lia) s eq_refl E). cbn [length]. lia.
  - destruct (a =? c); [by intros [= <- <-]; cbn; lia |]. intros E. pose proof (IH (length s) ltac:(cbn; lia) s eq_refl E). cbn [length]. lia.
Qed.

End Existence.

Section Encloser.
Context (img : zone_image_t) (cl : client_t) (Hok : image_ok img).
Context (apex : list Z) (la lq : list (list Z)) (Hapex : canonical_text apex la).

(** What the walk returns. *)
Definition closest (le : list (list Z)) : Prop :=
  lower la `suffix_of` lower le /\ above le lq /\ (lower le = lower la \/ name_in_zone img cl le) /\
  forall l', above l' lq -> above le l' -> ~ name_in_zone img cl l'.

Lemma closest_apex lp x rest : lower lp = x :: lower rest -> lower lp `suffix_of` lower lq -> above la lp -> lower rest = lower la ->
  (forall l', above l' lq -> lower lp `suffix_of` lower l' -> ~ name_in_zone img cl l') -> closest la.
Proof.
  intros Elp Hs [Has Hane] Er Hinv. split_and!; [done | | by left |].
  - split; [by transitivity (lower lp) |]. intros E. apply Hane. apply suffix_antisym; [done | by rewrite E].
  - intros l' Hl' [Hl1 Hl2]. apply Hinv; [done |]. destruct (suffix_total (lower l') (lower lp) (lower lq)) as [H | H]; [apply Hl' | done | | done].
    destruct (decide (lower l' = lower lp)) as [-> | Hne]; [done |]. exfalso. rewrite Elp in H, Hne. apply suffix_tail in H; [| done].
    rewrite Er in H. apply Hl2. by apply suffix_antisym.
Qed.

Lemma encloser_walk_spec fuel : forall p lp, canonical_text p lp -> (length p < fuel)%nat ->
  lower lp `suffix_of` lower lq -> above la lp -> (forall l', above l' lq -> lower lp `suffix_of` lower l' -> ~ name_in_zone img cl l') ->
  exists t le, encloser_walk img fuel cl p apex = Ret t /\ canonical_text t le /\ closest le.
Proof.
  induction fuel as [| fuel IH]; intros p lp Hp Hf Hs Ha Hinv; [lia |]. cbn [encloser_walk].
  destruct lp as [| l rest]; [destruct Ha as [Ha Hne]; by apply suffix_nil_inv in Ha |].
  assert (lower la `suffix_of` lower rest) as Hrest by (destruct Ha; by eapply suffix_tail).
  assert (lower rest = lower la -> exists t le, Ret apex = Ret t /\ canonical_text t le /\ closest le) as Hret.
  { intros E. exists apex, la. split_and!; [done | done |]. by eapply (closest_apex (l :: rest)). }
  assert (rest = [] -> lower rest = lower la) as Hnil by (intros ->; by apply suffix_nil_inv in Hrest as ->).
  pose proof (parent_text p l rest Hp) as Hpar. destruct (strchr_unescaped p DOT) as [[| d q] |] eqn:Es; [done | | by apply Hret, Hnil].
  destruct Hpar as [Hq Hq0]. case_bool_decide as Eq; [by apply Hret, Hnil, Hq0 |].
  destruct (domain_names_match_ci q apex) eqn:Em; [apply Hret; by apply (match_labels _ _ _ _ Hq Hapex) |].
  rewrite (proj2 (below_labels _ _ _ _ Hq Hapex) Hrest). cbn [negb].
  assert (lower rest <> lower la) as Hne by (intros E; apply (match_labels _ _ _ _ Hq Hapex) in E; congruence).
  destruct (name_exists_spec img cl Hok q rest Hq) as (b & -> & Hb). cbn [obind].
  assert (above rest lq) as Hab.
  { split; [transitivity (lower (l :: rest)); [by exists [map lc l] | done] |]. intros E. rewrite <- E in Hs. destruct Hs as [k Hk].
    apply (f_equal length) in Hk. rewrite length_app in Hk. unfold lower in Hk. cbn [map length] in Hk. lia. }
  assert (forall l', above l' lq -> lower rest `suffix_of` lower l' -> lower rest <> lower l' -> ~ name_in_zone img cl l') as Hnext.
  { intros l' Hl' Hsl Hnel. apply Hinv; [done |]. destruct (suffix_total (lower l') (lower (l :: rest)) (lower lq)) as [H | H]; [apply Hl' | done | | done].
    destruct (decide (lower l' = lower (l :: rest))) as [-> | Hn]; [done |]. apply suffix_tail in H; [| done]. destruct Hnel. by apply suffix_antisym. }
  destruct b.
  - exists q, rest. split_and!; [done | done |]. split_and!; [done | done | right; by apply Hb |].
    intros l' Hl' [H1 H2]. by apply Hnext.
  - apply (IH q rest Hq); [apply strchr_unescaped_shorter in Es; lia | apply Hab | split; [done | by intros E; symmetry in E] |].
    intros l' Hl' Hsl. destruct (decide (lower rest = lower l')) as [E | Hn]; [| by apply Hnext].
    intros Hex. assert (name_in_zone img cl rest) as H; [| by apply Hb in H]. unfold name_in_zone, data_at in *. by rewrite E.
Qed.

Lemma closest_encloser_spec qname : canonical_text qname lq -> above la lq ->
  exists t le, find_closest_encloser img cl qname apex = Ret t /\ canonical_text t le /\ closest le.
Proof.
  intros Hq Ha. unfold find_closest_encloser. destruct (Z.eqb_spec (len (im_names img)) 0) as [E0 | E0].
  - exists apex, la. split_and!; [done | done |]. split_and!; [done | done | by left |].
    intros l' _ _ [(k & r & ls' & _ & Ho%owner_range & _) | (id & ls' & Ho%owner_range & _)]; lia.
  - apply (encloser_walk_spec _ qname lq); [done | lia | done | done |]. intros l' [H1 H2] H3. destruct H2. by apply suffix_antisym.
Qed.

End Encloser.

(** ** Lemmas: the next closer name *)

Lemma relative_text t ls : canonical_text t ls -> ls <> [] -> relative t = render ls.
Proof.
  intros [[Hw Hl] Ht]%canonical_text_iff Hne. apply wf_octets63 in Hw as [Ho Hn]. pose proof (octets63_bytes _ Ho) as Hb.
  destruct Ht as [[_ ->] | [-> | [-> _]]]; [| | done].
  - destruct (exists_last Hne) as (ls0 & l & ->). apply relative_render; [done |]. apply Forall_app in Hn as [_ Hn]. by inversion Hn.
  - rewrite render_final_dot by done. apply relative_dot. by apply esc_render.
Qed.

Lemma canonical_text_len t ls : canonical_text t ls -> len t <= 1020.
Proof.
  intros [[Hw Hl] Ht]%canonical_text_iff. unfold wire_name in Hl. rewrite length_app in Hl. cbn [length] in Hl.
  assert (forall raw, loop_labels raw = ls -> len (render raw) <= 1016) as Hr by (intros raw E; pose proof (length_render raw); rewrite E in *; lia).
  destruct (decide (ls = [])) as [-> | Hne]; [destruct Ht as [[? _] | [-> | [_ ->]]]; [done | cbn; lia | cbn; lia] |].
  assert (loop_labels ls = ls) as E.
  { clear -Hw. induction Hw as [| l ls Hx Hw IH]; [done |]. destruct Hw as [| l' ls Hx' Hw]; [cbn; by destruct l |].
    rewrite loop_labels_cons, IH; [done |]. intros E. injection E as -> _. destruct Hx' as [_ Hx']. cbn in Hx'. lia. }
  destruct Ht as [[_ ->] | [-> | [-> _]]]; [pose proof (Hr ls E); lia | | done]. rewrite render_final_dot, length_app by done. cbn [length].
  pose proof (Hr ls E). lia.
Qed.

Lemma expanded_parent l rest : bytes l -> strchr_unescaped (expanded (l :: rest)) DOT = Some (DOT :: dotted rest).
Proof. intros Hb. unfold expanded, dotted. cbn [map concat]. rewrite <- app_assoc. by rewrite strchr_label. Qed.

Lemma next_closer_walk_spec e le : canonical_text e le -> forall fuel s ls, canonical_text s ls -> (length s < fuel)%nat -> above le ls ->
  (le <> [] \/ s = expanded ls) ->
  exists s' l le', next_closer_walk fuel s e = Ret (Some s') /\ canonical_text s' (l :: le') /\ lower le' = lower le /\ lower (l :: le') `suffix_of` lower ls.
Proof.
  intros He. induction fuel as [| fuel IH]; intros s ls Hs Hf Ha Habs; [lia |]. cbn [next_closer_walk].
  destruct ls as [| l rest]; [destruct Ha as [Ha Hne]; by apply suffix_nil_inv in Ha |].
  assert (lower le `suffix_of` lower rest) as Hrest by (destruct Ha; by eapply suffix_tail).
  assert (bytes l) as Hb by (apply canonical_text_octets63 in Hs; by apply Forall_cons in Hs as [[? _] _]).
  pose proof (parent_text s l rest Hs) as Hpar. destruct (strchr_unescaped s DOT) as [[| d q] |] eqn:Es; [done | |].
  - destruct Hpar as [Hq Hq0]. destruct (domain_names_match_ci q e) eqn:Em.
    + exists s, l, rest. split_and!; [done | done | by apply (match_labels _ _ _ _ Hq He) | done].
    + assert (lower rest <> lower le) as Hne by (intros E; apply (match_labels _ _ _ _ Hq He) in E; congruence).
      assert (rest <> []) as Hr0 by (intros ->; apply suffix_nil_inv in Hrest; by destruct Hne).
      case_bool_decide as Eq; [by apply Hq0 in Eq |].
      destruct (IH q rest Hq) as (s' & l' & le' & E & Hc & El & Hsuf); [apply strchr_unescaped_shorter in Es; lia | split; [done | congruence] | |].
      * destruct Habs as [? | ->]; [by left | right]. rewrite expanded_parent in Es by done. injection Es as _ <-. by destruct rest.
      * exists s', l', le'. split_and!; [done.. |]. transitivity (lower rest); [done | by exists [map lc l]].
  - subst rest. apply suffix_nil_inv in Hrest. destruct Habs as [Hne | ->]; [by destruct le |]. rewrite expanded_parent in Es by done. done.
Qed.

Lemma next_closer_spec qname lq e le : canonical_text qname lq -> canonical_text e le -> above le lq -> (le <> [] \/ qname = expanded lq) ->
  exists nc l le', find_next_closer_name qname e DNS_NAME_TEXT_SIZE = Ret (Some nc) /\ canonical_text nc (l :: le') /\
    lower le' = lower le /\ lower (l :: le') `suffix_of` lower lq.
Proof.
  intros Hq He Ha Habs. unfold find_next_closer_name. change (DNS_NAME_TEXT_SIZE =? 0) with false.
  rewrite (proj2 (below_labels _ _ _ _ Hq He)) by apply Ha.
  destruct (domain_names_match_ci qname e) eqn:Em; [apply (match_labels _ _ _ _ Hq He) in Em; destruct Ha; congruence |]. cbn [negb orb].
  destruct (next_closer_walk_spec e le He (S (length qname)) qname lq Hq) as (s & l & le' & -> & Hs & El & Hsuf); [lia | done | done |]. cbn [obind].
  fold (relative s). rewrite (relative_text s (l :: le')) by done.
  assert (canonical_text (render (l :: le')) (l :: le')) as Hc by (apply canonical_text_iff; split; [by eapply canonical_text_wire | by left]).
  pose proof (canonical_text_len _ _ Hc). unfold DNS_NAME_TEXT_SIZE. destruct (Z.leb_spec 1025 (len (render (l :: le')) + 1)); [lia |].
  by exists (render (l :: le')), l, le'.
Qed.

(** The root as the encloser of a name without the final dot is not found. *)
Lemma next_closer_walk_root e : canonical_text e [] -> forall fuel ls, wire_ok ls -> ls <> [] -> (length (render ls) < fuel)%nat -> next_closer_walk fuel (render ls) e = Ret None.
Proof.
  intros He. induction fuel as [| fuel IH]; intros ls Hok Hne Hf; [lia |]. cbn [next_closer_walk]. destruct ls as [| l rest]; [done |].
  pose proof (wire_ok_tail _ _ Hok) as Hok'. destruct Hok as [[[Hb Hl] Hw]%Forall_cons _]. destruct rest as [| l' rest].
  - change (render [l]) with (label_text l). by rewrite <- (app_nil_r (label_text l)), strchr_label.
  - rewrite render_cons in *. rewrite strchr_label by done. cbn [strchr_unescaped]. change (DOT =? BACKSLASH) with false. rewrite Z.eqb_refl. cbv iota.
    assert (canonical_text (render (l' :: rest)) (l' :: rest)) as Hc by (apply canonical_text_iff; split; [done | by left]).
    destruct (domain_names_match_ci (render (l' :: rest)) e) eqn:Em; [by apply (match_labels _ _ _ _ Hc He) in Em |].
    rewrite length_app in Hf. cbn [length] in Hf. case_bool_decide; [done |]. apply IH; [done | done | lia].
Qed.

Lemma next_closer_none qname lq e : canonical_text qname lq -> canonical_text e [] -> lq <> [] -> qname <> expanded lq -> find_next_closer_name qname e DNS_NAME_TEXT_SIZE = Ret None.
Proof.
  intros Hq He Hne Habs. apply canonical_text_iff in Hq as [Hok [[_ ->] | [-> | [-> _]]]]; [| rewrite expanded_render in Habs; by destruct lq | done]. unfold find_next_closer_name. case_if; [done |]. case_if; [done |].
  by rewrite (next_closer_walk_root e) by (done || lia).
Qed.

(** ** Lemmas: NSEC *)

Lemma expanded_canonical ls : wire_ok ls -> canonical_text (expanded ls) ls.
Proof. intros Hw. apply canonical_text_iff. split; [done |]. rewrite expanded_render. destruct ls; [by right; right | by right; left]. Qed.

(** The name in the RDATA of a type of the layout table. *)
Lemma target_spec img rr r lay pre ls rest : zone_image_rr img rr = Ret r -> dns_rdata_name_layout (rr_type r) = Some lay ->
  rr_rdata r = pre ++ wire_name ls ++ rest -> len pre = lay_skip lay -> wire_ok ls -> bytes (rr_rdata r) ->
  zone_image_rr_target img rr DNS_NAME_TEXT_SIZE = Ret (expanded ls).
Proof.
  intros E El Ed Hp [Hw Hl] Hb. unfold zone_image_rr_target. rewrite E. cbn [obind]. rewrite El.
  assert (1 <= len (wire_name ls)) as H1 by (unfold wire_name; rewrite length_app; cbn; lia).
  assert (len (rr_rdata r) = len pre + len (wire_name ls) + len rest) as Hlen by (rewrite Ed, !length_app; lia).
  destruct (Z.leb_spec (len (rr_rdata r)) (lay_skip lay)); [lia |].
  destruct (wire_decodes ls (rr_rdata r) (len (rr_rdata r)) (lay_skip lay) rest) as [Hd Hn]; [lia | | lia | lia | done |].
  { rewrite <- Hp, Nat2Z.id, Ed. by rewrite drop_app_length. }
  rewrite (proj2 (expand_spec (rr_rdata r) (len (rr_rdata r)) Hb ltac:(lia) (lay_skip lay) DNS_NAME_TEXT_SIZE (expanded ls ++ [0]) (lay_skip lay + len (wire_name ls)) ltac:(lia) ltac:(lia))).
  - cbn [obind]. unfold name_string. by rewrite length_app, Nat.add_sub, take_app_length.
  - by exists (length ls), ls.
Qed.

(** The next name of an NSEC record. *)
Definition nsec_next (img : zone_image_t) (rr : Z) (ln : list (list Z)) : Prop :=
  exists r bitmap, zone_image_rr img rr = Ret r /\ rr_type r = 47 /\ rr_rdata r = wire_name ln ++ bitmap /\ wire_ok ln.

(** RFC 4034 section 4.1.1: from the owner up to the next name, and around
    the end of the zone for the last NSEC record. *)
Definition covers (lo ln ls : list (list Z)) : Prop :=
  if bool_decide (canonical lo ln = Lt) then canonical lo ls <> Gt /\ canonical ls ln = Lt else canonical lo ls <> Gt \/ canonical ls ln = Lt.

(** Every NSEC record names the owner of the next one. *)
Definition nsec_linked (img : zone_image_t) : Prop :=
  forall i rr ls, nsec_at img i rr ls ->
  exists ln rr' ls', nsec_next img rr ln /\ nsec_at img (if i + 1 =? len (im_nsec img) then 0 else i + 1) rr' ls' /\ lower ln = lower ls'.

Section Nsec.
Context (img : zone_image_t) (Hok : image_ok img).

Lemma rr_owner_read rr ls : rr_owner img rr ls -> exists t, zone_image_rr_owner img rr = Ret t /\ canonical_text t ls.
Proof. intros (id & E & Ho). unfold zone_image_rr_owner. rewrite E. cbn [obind]. by apply owner_read. Qed.

Lemma nsec_covers_spec rr lo ln name ls : nsec_next img rr ln -> rr_owner img rr lo -> canonical_text name ls ->
  exists b, nsec_covers_name img rr name = Ret b /\ (b = true <-> covers lo ln ls).
Proof.
  intros (r & bm & E & Et & Ed & Hw) Ho Hn. unfold nsec_covers_name, zone_image_rr_type. rewrite E. cbn [obind]. rewrite Et. cbn [Z.eqb Pos.eqb negb].
  rewrite (target_spec img rr r (NameLayout 47 0 1 false) [] ln bm E); [| by rewrite Et | done | done | done | apply (ok_record _ Hok _ _ E)]. cbn [orelse].
  destruct (rr_owner_read rr lo Ho) as (t & -> & Ht). cbn [obind]. pose proof (expanded_canonical ln Hw) as Hx.
  destruct (compare_stored _ _ _ _ Ht Hx) as (c0 & -> & _ & _ & H0). destruct (compare_stored _ _ _ _ Ht Hn) as (c1 & -> & H1 & _ & _).
  destruct (compare_stored _ _ _ _ Hn Hx) as (c2 & -> & _ & _ & H2). cbn [obind]. eexists. split; [done |]. unfold covers.
  destruct (Z.ltb_spec c0 0) as [Hc | Hc].
  - rewrite bool_decide_true by (apply H0; lia). rewrite andb_true_iff, Z.leb_le, Z.ltb_lt. tauto.
  - rewrite bool_decide_false by (rewrite <- H0; lia). rewrite orb_true_iff, Z.leb_le, Z.ltb_lt. tauto.
Qed.

Lemma gt_swap a b : canonical a b = Gt <-> canonical b a = Lt.
Proof. rewrite (canonical_swap a b). destruct (canonical a b); done. Qed.

(** In a linked chain every name is covered, and matched when it has an NSEC
    record. *)
Lemma covering_nsec_spec name ls : nsec_linked img -> im_nsec img <> [] -> canonical_text name ls ->
  exists rr lo ln, find_covering_nsec img name = Ret (Some rr) /\ rr_owner img rr lo /\ nsec_next img rr ln /\ covers lo ln ls /\
    (lower lo = lower ls <-> exists i rr' ls', nsec_at img i rr' ls' /\ lower ls' = lower ls).
Proof.
  intros Hlink Hne Hn. unfold find_covering_nsec. assert (0 < len (im_nsec img)) as Hpos by (destruct (im_nsec img); [done | cbn; lia]).
  destruct (Z.eqb_spec (len (im_nsec img)) 0); [lia |]. destruct (nsec_floor_spec img Hok name ls Hn) as (c & Hc & Hcut & ->). cbn [obind].
  set (idx := match (if c =? 0 then None else Some (c - 1)) with Some b => b | None => len (im_nsec img) - 1 end).
  assert (idx = (if c =? 0 then len (im_nsec img) - 1 else c - 1)) as Hidx by (unfold idx; by destruct (c =? 0)). clearbody idx.
  destruct (ok_nsec _ Hok idx) as (rr & lo & Hi); [destruct (Z.eqb_spec c 0); lia |]. destruct (Hi) as (Ei & _ & Ho). rewrite Ei. cbn [obind].
  destruct (Hlink _ _ _ Hi) as (ln & rr' & ls' & Hnext & Hi' & El). destruct (nsec_covers_spec rr lo ln name ls Hnext Ho Hn) as (b & -> & Hb). cbn [obind].
  assert (forall i j ri rj li lj, i <= j -> nsec_at img i ri li -> nsec_at img j rj lj -> canonical li lj <> Gt) as Hsort.
  { intros i j ri rj li lj Hij H1 H2. destruct (decide (i = j)) as [-> |]; [| by apply (ok_nsec_sorted _ Hok i j ri rj); [lia | |]].
    destruct H1 as (E1 & _ & id & Er & H1), H2 as (E2 & _ & id2 & Er2 & H2). rewrite E1 in E2. injection E2 as <-. rewrite Er in Er2. injection Er2 as <-.
    rewrite (owner_unique img _ _ _ H1 H2), canonical_refl; done. }
  assert (covers lo ln ls) as Hcov.
  { unfold covers. rewrite !(canonical_lower _ ln _ ls' eq_refl El). destruct (Z.eqb_spec c 0) as [-> | Hc0]; subst idx.
    - replace (len (im_nsec img) - 1 + 1) with (len (im_nsec img)) in Hi' by lia. rewrite Z.eqb_refl in Hi'.
      assert (canonical ls' lo <> Gt) as Hle by (eapply Hsort; [| exact Hi' | exact Hi]; lia). rewrite bool_decide_false by (intros H%gt_swap; done). right.
      apply gt_swap. destruct (canonical ls' ls) eqn:Ec; [exfalso | exfalso | done]; assert (0 < 0) by (apply (Hcut _ _ _ Hi'); congruence); lia.
    - assert (canonical lo ls <> Gt) as Hle by (apply (Hcut _ _ _ Hi); lia). case_bool_decide as Hlt; [| by left]. split; [done |].
      replace (c - 1 + 1) with c in Hi' by lia. destruct (Z.eqb_spec c (len (im_nsec img))) as [Ec | Ec].
      + exfalso. assert (canonical ls' lo <> Gt) as Hle' by (eapply Hsort; [| exact Hi' | exact Hi]; lia). by apply gt_swap in Hlt.
      + apply gt_swap. destruct (canonical ls' ls) eqn:E'; [exfalso | exfalso | done]; assert (c < c) by (apply (Hcut _ _ _ Hi'); congruence); lia. }
  rewrite (proj2 Hb Hcov). exists rr, lo, ln. split_and!; [done.. |]. split; [intros E; by exists idx, rr, lo |].
  intros (i & ri & li & Hj & E). assert (canonical li ls = Eq) as Eq by by apply canonical_refl.
  assert (i < c) as Hic by (apply (Hcut _ _ _ Hj); by rewrite Eq). destruct (at_ix_lt _ _ _ (proj1 Hj)) as [Hi0 _].
  destruct (Z.eqb_spec c 0); [lia |]. subst idx. assert (canonical li lo <> Gt) as Hle by (eapply Hsort; [| exact Hj | exact Hi]; lia).
  assert (canonical lo ls <> Gt) as Hle2 by (apply (Hcut _ _ _ Hi); lia). apply canonical_eq.
  destruct (canonical lo ls) eqn:E3; [done | exfalso | done]. pose proof (canonical_le_lt _ _ _ Hle E3). congruence.
Qed.

End Nsec.

(** ** Lemmas: NSEC3 *)

(** The order of hash labels: base32hex text without case. *)
Definition hash_order (a b : list Z) : comparison := lex Z.compare (map tolower a) (map tolower b).

Lemma hash_order_eq a b : hash_order a b = Eq <-> map tolower a = map tolower b.
Proof. unfold hash_order. apply cmp_eq. Qed.

Lemma hash_order_swap a b : hash_order b a = CompOpp (hash_order a b).
Proof. unfold hash_order. apply cmp_swap. Qed.

Lemma compare_hash_sign a b : sign_of (compare_hash a b) (hash_order a b).
Proof.
  unfold compare_hash, hash_order. pose proof (memcmp_spec (map tolower a) (map tolower b)) as H. rewrite !length_map, !firstn_map in H.
  set (d := memcmp _ _) in *. destruct H as [[Hd Hs] | [(Hd & Hl & Hs) | (Hd & Hl & E)]].
  - by rewrite (proj2 (Z.eqb_neq _ _) Hd).
  - rewrite Hd in *. rewrite Z.eqb_refl. rewrite !length_map in *. unfold sign_of in *. rewrite <- Hs. destruct (Z.ltb_spec (len a) (len b)) as [Hlt | Hge].
    + symmetry. apply Z.compare_lt_iff. lia.
    + destruct (Z.ltb_spec (len b) (len a)); [| lia]. symmetry. apply Z.compare_gt_iff. lia.
  - rewrite Hd in *. rewrite Z.eqb_refl. rewrite !length_map in *. destruct (Z.ltb_spec (len a) (len b)); [lia |].
    destruct (Z.ltb_spec (len b) (len a)); [lia |]. unfold sign_of. rewrite E. symmetry. by apply cmp_eq.
Qed.

Lemma strcmp_sign a : forall b, cstring a -> cstring b -> sign_of (strcmp a b) (lex Z.compare a b).
Proof.
  induction a as [| x a IH]; intros [| y b] Ha Hb; unfold sign_of; cbn [strcmp lex]; [done | | |].
  - apply Forall_cons in Hb as [Hy _]. unfold ischar in Hy. apply Z.compare_lt_iff. lia.
  - apply Forall_cons in Ha as [Hx _]. unfold ischar in Hx. apply Z.compare_gt_iff. lia.
  - apply Forall_cons in Ha as [_ Ha]. apply Forall_cons in Hb as [_ Hb]. destruct (Z.eqb_spec x y) as [-> | Hne].
    + rewrite Z.compare_refl. by apply IH.
    + destruct (Z.compare_spec x y); [done | apply Z.compare_lt_iff; lia | apply Z.compare_gt_iff; lia].
Qed.

Lemma lower_chars a : cstring a -> cstring (map tolower a).
Proof. intros H. apply Forall_map. eapply Forall_impl; [done |]. intros c Hc. unfold ischar, tolower, isupper in *. case_if; len_lia. Qed.

Lemma strcasecmp_sign a b : cstring a -> cstring b -> sign_of (strcasecmp a b) (hash_order a b).
Proof. intros Ha Hb. apply strcmp_sign; by apply lower_chars. Qed.

(** RFC 5155 section 3.1.7: strictly between the owner hash and the next one,
    around the end of the chain. *)
Definition covers_hash (ho hn h : list Z) : Prop :=
  match hash_order ho hn with
  | Lt => hash_order ho h = Lt /\ hash_order h hn = Lt
  | Gt => hash_order ho h = Lt \/ hash_order h hn = Lt
  | Eq => hash_order ho h <> Eq
  end.

Lemma nsec3_covers_hash_spec ho hn h : cstring ho -> cstring hn -> cstring h -> nsec3_covers_hash ho hn h = true <-> covers_hash ho hn h.
Proof.
  intros Ho Hn Hh. unfold nsec3_covers_hash, covers_hash. pose proof (strcasecmp_sign ho hn Ho Hn) as S1. pose proof (strcasecmp_sign ho h Ho Hh) as S2.
  pose proof (strcasecmp_sign h hn Hh Hn) as S3. unfold sign_of in *. rewrite <- S1, <- S2, <- S3.
  destruct (Z.compare_spec (strcasecmp ho hn) 0) as [E | E | E].
  - rewrite E. cbn [Z.ltb Z.compare]. rewrite negb_true_iff, Z.eqb_neq, Z.compare_eq_iff. done.
  - rewrite (proj2 (Z.ltb_lt _ _) E), andb_true_iff, !Z.ltb_lt, !Z.compare_lt_iff. done.
  - destruct (Z.ltb_spec (strcasecmp ho hn) 0); [lia |]. rewrite (proj2 (Z.ltb_lt _ _) E), orb_true_iff, !Z.ltb_lt, !Z.compare_lt_iff. done.
Qed.

Lemma hash_order_le_lt a b c : hash_order a b <> Gt -> hash_order b c = Lt -> hash_order a c = Lt.
Proof.
  unfold hash_order. intros Hab E2. destruct (lex _ (map tolower a) (map tolower b)) eqn:E1; [apply cmp_eq in E1 as ->; done | | done].
  by rewrite (cmp_lt_trans _ _ _ E1 E2).
Qed.

Section Nsec3.
Context (img : zone_image_t) (Hok : image_ok img) (c : Z) (ch : zone_image_n3chain_t) (Hch : zone_image_n3chain img c = Ret ch).

Lemma n3_hash_read i rr hash after : n3_at img c i rr hash after -> zone_image_n3chain_hash img c i = Ret (hash, Some after).
Proof. intros (E & _ & t & Et & Es). unfold zone_image_n3chain_hash. rewrite E. cbn [obind]. rewrite Et. cbn [obind]. by rewrite Es. Qed.

Lemma n3_at_unique i rr rr' hash hash' after after' : n3_at img c i rr hash after -> n3_at img c i rr' hash' after' -> rr = rr' /\ hash = hash' /\ after = after'.
Proof. intros (E & _ & t & Et & Es) (E' & _ & t' & Et' & Es'). rewrite E in E'. injection E' as <-. rewrite Et in Et'. injection Et' as <-. naive_solver. Qed.

Lemma n3_sorted i j ri rj hi hj ai aj : 0 <= i <= j -> j < ch_count ch -> n3_at img c i ri hi ai -> n3_at img c j rj hj aj -> hash_order hi hj <> Gt.
Proof.
  intros Hij Hlt Hi Hj. destruct (decide (i = j)) as [-> |]; [destruct (n3_at_unique _ _ _ _ _ _ _ Hi Hj) as (_ & -> & _); by rewrite (proj2 (hash_order_eq _ _)) |].
  eapply (ok_n3_sorted _ Hok); [exact Hch | | exact Hlt | exact Hi | exact Hj]. lia.
Qed.

(** [zone_image_n3chain_lower_bound]: the number of entries below the hash. *)
Lemma lower_bound_spec h : 0 <= ch_count ch ->
  exists b, 0 <= b <= ch_count ch /\ zone_image_n3chain_lower_bound img c h = Ret b /\
    forall i rr hash after, 0 <= i < ch_count ch -> n3_at img c i rr hash after -> i < b <-> hash_order hash h = Lt.
Proof.
  intros Hn. unfold zone_image_n3chain_lower_bound. rewrite Hch. cbn [obind].
  assert (forall fuel lo hi, 0 <= lo <= hi -> hi <= ch_count ch -> hi - lo <= Z.of_nat fuel ->
    (forall i rr hash after, 0 <= i < lo -> n3_at img c i rr hash after -> hash_order hash h = Lt) ->
    (forall i rr hash after, hi <= i < ch_count ch -> n3_at img c i rr hash after -> hash_order hash h <> Lt) ->
    exists b, 0 <= b <= ch_count ch /\ lower_bound_search img fuel c h lo hi = Ret b /\
    forall i rr hash after, 0 <= i < ch_count ch -> n3_at img c i rr hash after -> i < b <-> hash_order hash h = Lt) as Hs.
  { induction fuel as [| fuel IH]; intros lo hi Hlo Hhi Hf Hl Hr; cbn [lower_bound_search]; (destruct (Z.leb_spec hi lo) as [Hle | Hgt];
      [exists lo; split_and!; [lia | lia | done |]; intros i rr hash after Hi Ha; split; [intros; eapply Hl; [| exact Ha]; lia |];
       intros E; destruct (Z.ltb_spec i lo); [done | exfalso; eapply Hr; [| exact Ha | exact E]; lia] |]); [lia |].
    assert (lo <= lo + (hi - lo) / 2 < hi) as Hm by (Z.to_euclidean_division_equations; lia). set (mid := lo + (hi - lo) / 2) in *.
    destruct (ok_n3 _ Hok c ch mid Hch) as (rm & hm & am & Hmid); [lia |]. rewrite (n3_hash_read _ _ _ _ Hmid). cbn [obind].
    pose proof (compare_hash_sign hm h) as Hsg. unfold sign_of in Hsg. destruct (Z.ltb_spec (compare_hash hm h) 0) as [Hlt | Hge].
    - apply Z.compare_lt_iff in Hlt. rewrite Hlt in Hsg. apply IH; [lia | lia | lia | | done]. intros i rr hash after Hi Ha.
      eapply hash_order_le_lt; [| symmetry; exact Hsg]. eapply n3_sorted; [| | exact Ha | exact Hmid]; lia.
    - apply IH; [lia | lia | lia | done |]. intros i rr hash after Hi Ha E.
      assert (hash_order hm h = Lt) as Hx.
      { eapply hash_order_le_lt; [| exact E]. eapply n3_sorted; [| | exact Hmid | exact Ha]; lia. }
      rewrite <- Hsg in Hx. change (compare_hash hm h < 0) in Hx. lia. }
  apply Hs; [lia | lia | lia | |]; intros; lia.
Qed.

Lemma matching_scan_spec h apex : forall n i, 0 <= i -> i + Z.of_nat n = ch_count ch ->
  (forall j rr hash after, i <= j < ch_count ch -> n3_at img c j rr hash after -> hash_order hash h <> Lt) ->
  exists r, matching_scan img n c i h apex = Ret r /\
    match r with
    | Some rr => exists j hash after, i <= j < ch_count ch /\ n3_at img c j rr hash after /\ map tolower hash = map tolower h /\ domain_names_match_ci after apex = true
    | None => forall j rr hash after, i <= j < ch_count ch -> n3_at img c j rr hash after -> map tolower hash = map tolower h -> domain_names_match_ci after apex = false
    end.
Proof.
  induction n as [| n IH]; intros i Hi Hn Hge; cbn [matching_scan]; [exists None; split; [done | lia] |].
  destruct (ok_n3 _ Hok c ch i Hch) as (rr & hash & after & Ha); [lia |]. rewrite (n3_hash_read _ _ _ _ Ha). cbn [obind]. unfold strcaseeq.
  case_bool_decide as E; cbn [negb].
  - destruct (domain_names_match_ci after apex) eqn:Em.
    + destruct (Ha) as (-> & _). cbn [obind]. exists (Some rr). split; [done |]. exists i, hash, after. split; [lia | done].
    + destruct (IH (i + 1)) as (r & -> & Hr); [lia | lia | intros; eapply Hge; [| done]; lia |]. exists r. split; [done |]. destruct r; [destruct Hr as (j & hash' & after' & Hj & Hr); exists j, hash', after'; split; [lia | done] |].
      intros j rr' hash' after' Hj Ha' E'. destruct (decide (j = i)) as [-> |]; [by destruct (n3_at_unique _ _ _ _ _ _ _ Ha Ha') as (_ & _ & <-) |].
      eapply Hr; [| exact Ha' | done]. lia.
  - exists None. split; [done |]. intros j rr' hash' after' Hj Ha' E'. exfalso. apply hash_order_eq in E'.
    assert (hash_order hash hash' <> Gt) as Hle by (eapply n3_sorted; [| | exact Ha | exact Ha']; lia).
    assert (hash_order hash h <> Gt) as Hle' by (unfold hash_order in *; apply cmp_eq in E'; by rewrite <- E').
    pose proof (Hge i _ _ _ ltac:(lia) Ha) as Hnl. destruct (hash_order hash h) eqn:Eh; [apply hash_order_eq in Eh; done | done | done].
Qed.

(** [find_matching_nsec3] finds the record of the hash at the apex. *)
Lemma matching_nsec3_spec h apex : 0 <= ch_count ch ->
  exists r, find_matching_nsec3 img (Some c) h apex = Ret r /\
    match r with
    | Some rr => exists i hash after, 0 <= i < ch_count ch /\ n3_at img c i rr hash after /\ map tolower hash = map tolower h /\ domain_names_match_ci after apex = true
    | None => forall i rr hash after, 0 <= i < ch_count ch -> n3_at img c i rr hash after -> map tolower hash = map tolower h -> domain_names_match_ci after apex = false
    end.
Proof.
  intros Hn. unfold find_matching_nsec3. rewrite Hch. cbn [obind]. destruct (lower_bound_spec h Hn) as (b & Hb & -> & Hlb). cbn [obind].
  destruct (matching_scan_spec h apex (Z.to_nat (ch_count ch - b)) b) as (r & -> & Hr); [lia | lia | |].
  { intros j rr hash after Hj Ha E. apply (Hlb j rr hash after ltac:(lia) Ha) in E. lia. }
  exists r. split; [done |]. destruct r; [destruct Hr as (j & hash & after & Hj & Hr); exists j, hash, after; split; [lia | done] |].
  intros i rr hash after Hi Ha E. destruct (Z.ltb_spec i b) as [Hlt |]; [| eapply Hr; [| exact Ha | done]; lia].
  apply (Hlb i _ _ _ Hi Ha) in Hlt. apply hash_order_eq in E. congruence.
Qed.

(** Every record of the chain names the hash of the next one. *)
Definition nsec3_linked : Prop :=
  forall i rr hash after, 0 <= i < ch_count ch -> n3_at img c i rr hash after ->
  cstring hash /\ len hash < 64 /\
  exists v nh rr' hash' after', zone_image_nsec3 img rr = Ret v /\ 1 <= len (n3_next v) <= 255 /\ dns_base32hex_encode (n3_next v) 512 = Ret nh /\
    cstring nh /\ n3_at img c (if i + 1 =? ch_count ch then 0 else i + 1) rr' hash' after' /\ map tolower nh = map tolower hash'.

(** In a linked chain a hash is covered exactly when no record has it. *)
Lemma covering_nsec3_spec h : nsec3_linked -> 0 < ch_count ch -> cstring h ->
  exists r, find_covering_nsec3 img (Some c) h = Ret r /\
    match r with
    | Some rr => exists i ho after nh v, 0 <= i < ch_count ch /\ n3_at img c i rr ho after /\ zone_image_nsec3 img rr = Ret v /\ dns_base32hex_encode (n3_next v) 512 = Ret nh /\
        covers_hash ho nh h /\ forall j rr' hash after', 0 <= j < ch_count ch -> n3_at img c j rr' hash after' -> map tolower hash <> map tolower h
    | None => exists i rr hash after, 0 <= i < ch_count ch /\ n3_at img c i rr hash after /\ map tolower hash = map tolower h
    end.
Proof.
  intros Hlink Hpos Hh. unfold find_covering_nsec3. rewrite Hch. cbn [obind]. destruct (Z.eqb_spec (ch_count ch) 0); [lia |].
  destruct (lower_bound_spec h) as (b & Hb & -> & Hlb); [lia |]. cbn [obind]. set (idx := if 0 <? b then b - 1 else ch_count ch - 1).
  assert (0 <= idx < ch_count ch) as Hi by (unfold idx; destruct (Z.ltb_spec 0 b); lia).
  destruct (ok_n3 _ Hok c ch idx Hch Hi) as (rr & ho & ao & Ha). destruct (Hlink _ _ _ _ Hi Ha) as (Hco & Hlo & v & nh & rn & hn & an & Ev & Hnl & En & Hcn & Han & Eh).
  destruct (Ha) as (-> & _). cbn [obind]. rewrite (n3_hash_read _ _ _ _ Ha). cbn [obind]. destruct (Z.leb_spec 64 (len ho)); [lia |].
  rewrite Ev. cbn [orelse]. destruct (Z.eqb_spec (len (n3_next v)) 0); [lia |]. destruct (Z.ltb_spec 255 (len (n3_next v))); [lia |]. cbn [orb].
  rewrite En. cbn [obind]. eexists. split; [done |].
  assert (hash_order h nh = hash_order h hn /\ hash_order ho nh = hash_order ho hn) as [E1 E2] by (unfold hash_order; by rewrite Eh).
  assert (forall j rj hj aj, 0 <= j < ch_count ch -> n3_at img c j rj hj aj -> j < b \/ hash_order h hj <> Gt) as Hcut.
  { intros j rj hj aj Hj Haj. destruct (Z.ltb_spec j b); [by left | right]. rewrite hash_order_swap. intros E. destruct (hash_order hj h) eqn:Ex; [done | | done].
    apply (Hlb j _ _ _ Hj Haj) in Ex. lia. }
  assert (nsec3_covers_hash ho nh h = true <-> hash_order h hn <> Eq) as Hcov.
  { rewrite nsec3_covers_hash_spec by done. unfold covers_hash. rewrite E1, E2. unfold idx in *. destruct (Z.ltb_spec 0 b) as [Hb0 | Hb0].
    - assert (hash_order ho h = Lt) as Hlt by (eapply Hlb; [| exact Ha |]; lia). rewrite Hlt. replace (b - 1 + 1) with b in Han by lia.
      destruct (Z.eqb_spec b (ch_count ch)) as [Eb | Eb].
      + assert (hash_order hn ho <> Gt) as Hle by (eapply n3_sorted; [| | exact Han | exact Ha]; lia).
        assert (hash_order hn h = Lt) as Hlt' by (by eapply hash_order_le_lt). rewrite hash_order_swap in Hle. rewrite (hash_order_swap hn h), Hlt'.
        destruct (hash_order ho hn); cbn in *; intuition congruence.
      + destruct (Hcut b _ _ _ ltac:(lia) Han) as [| Hle]; [lia |].
        assert (hash_order ho hn = Lt) as -> by (destruct (hash_order h hn) eqn:Ex; [apply hash_order_eq in Ex; unfold hash_order in *; by rewrite <- Ex | | done];
          eapply hash_order_le_lt; [| exact Ex]; congruence).
        destruct (hash_order h hn); cbn in *; intuition congruence.
    - assert (b = 0) as Eb by lia. rewrite Z.sub_add, Z.eqb_refl in Han.
      destruct (Hcut 0 _ _ _ ltac:(lia) Han) as [| Hle]; [lia |]. destruct (Hcut _ _ _ _ Hi Ha) as [| Hle2]; [lia |].
      assert (hash_order hn ho <> Gt) as Hs by (eapply n3_sorted; [| | exact Han | exact Ha]; lia). rewrite hash_order_swap in Hs.
      destruct (hash_order ho hn) eqn:Ex; [| done |].
      { apply hash_order_eq in Ex. assert (hash_order h hn = hash_order h ho) as -> by (unfold hash_order; by rewrite Ex).
        rewrite (hash_order_swap h ho). destruct (hash_order h ho); cbn; intuition congruence. }
      rewrite (hash_order_swap h ho). destruct (hash_order h hn) eqn:Ey; destruct (hash_order h ho) eqn:Ez; cbn in *; intuition congruence. }
  destruct (nsec3_covers_hash ho nh h) eqn:Ec.
  - exists idx, ho, ao, nh, v. split; [done |]. split_and!; [done.. | by apply nsec3_covers_hash_spec |]. intros j rj hj aj Hj Haj Ej. apply (proj1 Hcov); [done |].
    apply hash_order_eq in Ej. assert (b <= j) as Hbj by (destruct (Z.ltb_spec j b) as [Hlt |]; [apply (Hlb j _ _ _ Hj Haj) in Hlt; congruence | lia]).
    assert (n3_at img c b rn hn an) as Hnb.
    { unfold idx in Han. destruct (Z.ltb_spec 0 b); [replace (b - 1 + 1) with b in Han by lia; destruct (Z.eqb_spec b (ch_count ch)); [lia | done] |].
      rewrite Z.sub_add, Z.eqb_refl in Han. by replace b with 0 by lia. }
    assert (hash_order hn hj <> Gt) as Hle by (eapply n3_sorted; [| | exact Hnb | exact Haj]; lia).
    destruct (Hcut b _ _ _ ltac:(lia) Hnb) as [| Hle2]; [lia |]. apply hash_order_eq in Ej. unfold hash_order in Hle, Hle2 |- *. rewrite Ej, cmp_swap in Hle.
    destruct (lex _ (map tolower h) (map tolower hn)); done.
  - exists (if idx + 1 =? ch_count ch then 0 else idx + 1), rn, hn, an. split; [destruct (Z.eqb_spec (idx + 1) (ch_count ch)); lia |]. split; [done |]. symmetry. apply hash_order_eq.
    destruct (hash_order h hn); [done | |]; assert (false = true) by (apply Hcov; done); done.
Qed.

End Nsec3.

End Denial.
