(* ===== verification/ZoneArena.v ===== *)
(** * The builder of a zone

    A zone under construction (zone_arena_t): its records in file order, the
    indexes that [build_zone_index] makes of them (dns_zone_parser.c) and the
    rules a zone must satisfy to be published. A record without a name is one
    that an update deleted. *)

From S2P Require Import Prelude CLib Cidr DnsName NameText WireName Compress ZoneAttr TypeName CanonOrder RdataText Record Svcb RrWrite NameWalk ZoneImage.

Module ZoneArena.
Import CLib Cidr DnsName NameText WireName Compress ZoneAttr TypeName CanonOrder RdataText Record Svcb RrWrite NameWalk ZoneImage.

(** ** Data *)

(** [present] is [name != NULL]. *)
Record arena_record_t := ArenaRecord { present : bool; rec : dns_record_t }.

(** Entries of the NSEC3 index; [e_rec] is the number of the record. *)
Record nsec3_index_entry_t := N3Entry { e_algorithm : Z; e_iterations : Z; e_salt : list Z; e_hash : list Z; e_rec : Z }.

Record nsec3_chain_t := N3Chain { c_algorithm : Z; c_iterations : Z; c_salt : list Z; c_entries : list nsec3_index_entry_t }.

(** [nsec3_active]: the record and the chain by their numbers. *)
Record nsec3_params_t := N3Params { p_param : Z; p_chain : option Z; p_algorithm : Z; p_iterations : Z; p_salt : list Z }.

Record zone_arena_t := Arena {
  records : list arena_record_t;
  is_tinydns_format : bool;
  tables : zone_tables;
  nsec_records : list Z;
  nsec3_chains : list nsec3_chain_t;
  nsec3_active : option nsec3_params_t;
  sorted_unique_names : list (list Z)
}.

Definition DNS_TYPE_PDNS_ALIAS : Z := 65401.
Definition DNS_TYPE_PDNS_LUA : Z := 65402.

(** [qsort]: some permutation in the order of the comparison, when that is
    total and transitive on the elements. *)
Class Qsort := {
  qsort : forall {A : Type}, (A -> A -> outcome Z) -> list A -> outcome (list A);
  qsort_sorts : forall {A} (cmp : A -> A -> outcome Z) (order : A -> A -> comparison) (l : list A),
    (forall x y, x ∈ l -> y ∈ l -> exists r, cmp x y = Ret r /\ sign_of r (order x y)) ->
    (forall x y, x ∈ l -> y ∈ l -> order y x = CompOpp (order x y)) ->
    (forall x y z, x ∈ l -> y ∈ l -> z ∈ l -> order x y <> Gt -> order y z <> Gt -> order x z <> Gt) ->
    exists l', qsort cmp l = Ret l' /\ l' ≡ₚ l /\ StronglySorted (fun x y => order x y <> Gt) l'
}.

(** ** Operations: the hash chains of the records *)

(** [calc_fnv1a_str] *)
Definition calc_fnv1a_str (s : list Z) : Z := foldl (fun h c => fnv_step h (lc c)) 2166136261 s.

Fixpoint next_pow2_from (fuel : nat) (p n : Z) : Z :=
  match fuel with
  | O => p
  | S fuel' => if p <? n then next_pow2_from fuel' (Z.shiftl p 1) n else p
  end.

(** 64 doublings exceed every [size_t]. *)
Definition next_pow2 (n : Z) : Z := next_pow2_from 64 8 n.

Definition name_of (r : arena_record_t) : list Z := name (rec r).

Definition hash_slot (size : Z) (n : list Z) : Z := Z.land (calc_fnv1a_str n) (size - 1).

(** The records of each slot, in the order in which the chain of
    [next_record] is followed; the loop runs from the last record, which it
    puts at the head. *)
Fixpoint hash_chains (size i : Z) (rs : list arena_record_t) : gmap Z (list Z) :=
  match rs with
  | [] => ∅
  | r :: rs' =>
      let t := hash_chains size (i + 1) rs' in
      if present r then
        let idx := hash_slot size (name_of r) in <[idx := i :: default [] (t !! idx)]> t
      else t
  end.

Definition chain_of (t : gmap Z (list Z)) (size : Z) (n : list Z) : list Z := default [] (t !! hash_slot size n).

(** ** Operations: TTLs of a record set *)

Definition set_ttl (v : Z) (r : arena_record_t) : arena_record_t :=
  let x := rec r in
  ArenaRecord (present r) (DnsRecord (name x) (ttl x) (class_str x) (class_val x) (type_str x) (type_code x) v (rdata x) (generic_data x)
    (generic_len x) (tinydns_ttd x) (tinydns_ttl_countdown x) (tinydns_loc x) (ecs_subnet_tag x) (bind_location_tag x) (name_wire x) (cache x)).

Definition tags_equal_ci (a b : option (list Z)) : bool :=
  match a, b with
  | None, None => true
  | Some a, Some b => strcaseeq a b
  | _, _ => false
  end.

Definition dns_record_same_visibility (a b : dns_record_t) : bool :=
  (fst (tinydns_loc a) =? fst (tinydns_loc b)) && (snd (tinydns_loc a) =? snd (tinydns_loc b)) && (tinydns_ttd a =? tinydns_ttd b) &&
  Bool.eqb (tinydns_ttl_countdown a) (tinydns_ttl_countdown b) && tags_equal_ci (bind_location_tag a) (bind_location_tag b) &&
  tags_equal_ci (ecs_subnet_tag a) (ecs_subnet_tag b).

(** The record [rj] is of the set of [ri]. *)
Definition same_rrset (ri rj : arena_record_t) : bool :=
  (type_code (rec rj) =? type_code (rec ri)) && present rj && strcaseeq (name_of rj) (name_of ri) && dns_record_same_visibility (rec rj) (rec ri).

Definition record_at (rs : list arena_record_t) (i : Z) : outcome arena_record_t := at_ix rs i.

Fixpoint min_ttl (rs : list arena_record_t) (i : Z) (ri : arena_record_t) (chain : list Z) (m : Z) : outcome Z :=
  match chain with
  | [] => Ret m
  | j :: chain' =>
      if j =? i then min_ttl rs i ri chain' m
      else
        let! rj := record_at rs j in
        min_ttl rs i ri chain' (if same_rrset ri rj && (ttl_value (rec rj) <? m) then ttl_value (rec rj) else m)
  end.

(** The TTL of every other record of the set that is not [processed]. *)
Fixpoint spread_ttl (i : Z) (ri : arena_record_t) (m : Z) (chain : list Z) (s : list arena_record_t * list bool) :
    outcome (list arena_record_t * list bool) :=
  match chain with
  | [] => Ret s
  | j :: chain' =>
      let '(rs, processed) := s in
      let! done := at_ix processed j in
      if (j =? i) || done then spread_ttl i ri m chain' s
      else
        let! rj := record_at rs j in
        if same_rrset ri rj then
          spread_ttl i ri m chain' (<[Z.to_nat j := set_ttl m rj]> rs, <[Z.to_nat j := true]> processed)
        else spread_ttl i ri m chain' s
  end.

Fixpoint harmonize_sets (n : nat) (t : gmap Z (list Z)) (size i : Z) (s : list arena_record_t * list bool) :
    outcome (list arena_record_t * list bool) :=
  match n with
  | O => Ret s
  | S n' =>
      let '(rs, processed) := s in
      let! done := at_ix processed i in
      let! ri := record_at rs i in
      if done || negb (present ri) || (type_code (rec ri) =? 46) then harmonize_sets n' t size (i + 1) s
      else
        let chain := chain_of t size (name_of ri) in
        let! m := min_ttl rs i ri chain (ttl_value (rec ri)) in
        let! s := spread_ttl i ri m chain (<[Z.to_nat i := set_ttl m ri]> rs, <[Z.to_nat i := true]> processed) in
        harmonize_sets n' t size (i + 1) s
  end.

(** The type a signature covers. *)
Definition type_covered_of (r : dns_record_t) : Z :=
  match cache r with
  | CacheRrsig c _ _ _ _ _ _ _ _ => c
  | NotCached => match rdata r with s :: _ => get_type_code s | [] => 0 end
  | _ => 0
  end.

(** The first record of the type and name in the chain. *)
Fixpoint covered_ttl (rs : list arena_record_t) (type : Z) (n : list Z) (chain : list Z) : outcome (option Z) :=
  match chain with
  | [] => Ret None
  | j :: chain' =>
      let! rj := record_at rs j in
      if (type_code (rec rj) =? type) && present rj && strcaseeq (name_of rj) n then Ret (Some (ttl_value (rec rj)))
      else covered_ttl rs type n chain'
  end.

Fixpoint harmonize_rrsigs (n : nat) (t : gmap Z (list Z)) (size i : Z) (rs : list arena_record_t) : outcome (list arena_record_t) :=
  match n with
  | O => Ret rs
  | S n' =>
      let! ri := record_at rs i in
      let type := type_covered_of (rec ri) in
      if negb (present ri) || negb (type_code (rec ri) =? 46) || (type =? 0) then harmonize_rrsigs n' t size (i + 1) rs
      else
        let! v := covered_ttl rs type (name_of ri) (chain_of t size (name_of ri)) in
        harmonize_rrsigs n' t size (i + 1) (match v with Some v => <[Z.to_nat i := set_ttl v ri]> rs | None => rs end)
  end.

(** The text of the TTL follows the number. *)
Definition sync_ttl (r : arena_record_t) : arena_record_t :=
  let x := rec r in
  if present r then
    ArenaRecord true (DnsRecord (name x) (fmt_u (ttl_value x)) (class_str x) (class_val x) (type_str x) (type_code x) (ttl_value x) (rdata x)
      (generic_data x) (generic_len x) (tinydns_ttd x) (tinydns_ttl_countdown x) (tinydns_loc x) (ecs_subnet_tag x) (bind_location_tag x)
      (name_wire x) (cache x))
  else r.

Definition harmonize_rrset_ttls (rs : list arena_record_t) : outcome (list arena_record_t) :=
  let size := next_pow2 (len rs * 2) in
  let t := hash_chains size 0 rs in
  let! '(rs, _) := harmonize_sets (length rs) t size 0 (rs, map (fun _ => false) rs) in
  let! rs := harmonize_rrsigs (length rs) t size 0 rs in
  Ret (map sync_ttl rs).

(** ** Operations: the NSEC and NSEC3 indexes *)

(** The numbers of the records that satisfy a condition. *)
Fixpoint indices (p : arena_record_t -> bool) (i : Z) (rs : list arena_record_t) : list Z :=
  match rs with
  | [] => []
  | r :: rs' => if p r then i :: indices p (i + 1) rs' else indices p (i + 1) rs'
  end.

Definition is_nsec (r : arena_record_t) : bool := present r && (type_code (rec r) =? 47) && (1 <=? len (rdata (rec r))).

(** The comparison of two records by their owner. *)
Definition cmp_canonical_nsec_ptr (rs : list arena_record_t) (a b : Z) : outcome Z :=
  let! ra := record_at rs a in
  let! rb := record_at rs b in
  compare_canonical_name (Some (name_of ra)) (Some (name_of rb)).

Definition cmp_canonical_name_ptr (a b : list Z) : outcome Z := compare_canonical_name (Some a) (Some b).

(** Algorithm, iterations and salt. *)
Definition nsec3_rdata_params (r : dns_record_t) : outcome (Z * Z * list Z) :=
  fail_if len (rdata r) <? 4 ;;
  let! f0 := fld (rdata r) 0 in
  let! algorithm := parse_u8 f0 in
  let! f2 := fld (rdata r) 2 in
  let! iterations := parse_u16 f2 in
  let! salt := fld (rdata r) 3 in
  Ret (algorithm, iterations, salt).

Definition salt_text (s : list Z) : list Z := if streq s [45] then [] else s.

Definition cmp_nsec3_salt (a b : list Z) : Z := strcmp (map tolower (salt_text a)) (map tolower (salt_text b)).

Definition cmp_nsec3_params (a_alg a_it : Z) (a_salt : list Z) (b_alg b_it : Z) (b_salt : list Z) : Z :=
  if negb (a_alg =? b_alg) then (if a_alg <? b_alg then -1 else 1)
  else if negb (a_it =? b_it) then (if a_it <? b_it then -1 else 1)
  else cmp_nsec3_salt a_salt b_salt.

Definition cmp_nsec3_entry_params (x y : nsec3_index_entry_t) : Z :=
  cmp_nsec3_params (e_algorithm x) (e_iterations x) (e_salt x) (e_algorithm y) (e_iterations y) (e_salt y).

Definition cmp_nsec3_entry (x y : nsec3_index_entry_t) : Z :=
  let c := cmp_nsec3_entry_params x y in
  if c =? 0 then compare_hash (e_hash x) (e_hash y) else c.

Definition is_base32hex (c : Z) : bool := let c := toupper c in isdigit c || ((65 <=? c) && (c <=? 86)).

(** [Fail] is a record that is not indexed. *)
Definition nsec3_index_entry_init (i : Z) (r : arena_record_t) : outcome nsec3_index_entry_t :=
  let x := rec r in
  fail_if negb (present r) || negb (type_code x =? 50) || (len (rdata x) <? 5) ;;
  let! '(algorithm, iterations, salt) := nsec3_rdata_params x in
  match strchr DOT (name x) with
  | None => Fail
  | Some (label, after) =>
      fail_if streq label [] || streq after [] || (63 <? len label) ;;
      fail_if negb (forallb is_base32hex label) ;;
      Ret (N3Entry algorithm iterations salt label i)
  end.

Fixpoint nsec3_entries (i : Z) (rs : list arena_record_t) : outcome (list nsec3_index_entry_t) :=
  match rs with
  | [] => Ret []
  | r :: rs' =>
      let! rest := nsec3_entries (i + 1) rs' in
      orelse (nsec3_index_entry_init i r) rest (fun e => Ret (e :: rest))
  end.

(** Groups of neighbours with the same parameters, those of the first one. *)
Fixpoint group_chains (es : list nsec3_index_entry_t) : list nsec3_chain_t :=
  match es with
  | [] => []
  | e :: es' =>
      let chains := group_chains es' in
      match es', chains with
      | e' :: _, ch :: chs =>
          if cmp_nsec3_entry_params e e' =? 0
          then N3Chain (e_algorithm e) (e_iterations e) (e_salt e) (e :: c_entries ch) :: chs
          else N3Chain (e_algorithm e) (e_iterations e) (e_salt e) [e] :: ch :: chs
      | _, _ => [N3Chain (e_algorithm e) (e_iterations e) (e_salt e) [e]]
      end
  end.

Definition build_nsec3_index `{Qsort} (rs : list arena_record_t) : outcome (list nsec3_chain_t) :=
  let! es := nsec3_entries 0 rs in
  let! es := qsort (fun x y => Ret (cmp_nsec3_entry x y)) es in
  Ret (group_chains es).

Fixpoint find_chain (chains : list nsec3_chain_t) (i alg it : Z) (salt : list Z) : option Z :=
  match chains with
  | [] => None
  | ch :: chains' =>
      if cmp_nsec3_params (c_algorithm ch) (c_iterations ch) (c_salt ch) alg it salt =? 0 then Some i else find_chain chains' (i + 1) alg it salt
  end.

Definition zone_find_nsec3_chain (chains : list nsec3_chain_t) (param : dns_record_t) : outcome (option Z) :=
  orelse (nsec3_rdata_params param) None (fun '(alg, it, salt) => Ret (find_chain chains 0 alg it salt)).

Fixpoint hex_pairs (hex : list Z) : outcome (list Z) :=
  match hex with
  | [] => Ret []
  | [_] => Oob
  | h :: l :: hex' =>
      let hi := hex_char_to_val h in
      let lo := hex_char_to_val l in
      fail_if (hi <? 0) || (lo <? 0) ;;
      let! rest := hex_pairs hex' in
      Ret (u8 (Z.lor (Z.shiftl hi 4) lo) :: rest)
  end.

Definition hex_to_bytes (hex : list Z) (max_out : Z) : outcome (list Z) :=
  if streq hex [45] then Ret []
  else fail_if negb (len hex mod 2 =? 0) || (max_out <? len hex / 2) ;; hex_pairs hex.

(** Every next hash is the owner hash of the following entry. *)
Fixpoint chain_linked (rs : list arena_record_t) (es : list nsec3_index_entry_t) (first : list Z) : outcome bool :=
  match es with
  | [] => Ret true
  | e :: es' =>
      let next := match es' with e' :: _ => e_hash e' | [] => first end in
      let! r := record_at rs (e_rec e) in
      let! nh := fld (rdata (rec r)) 4 in
      if strcaseeq nh next then chain_linked rs es' first else Ret false
  end.

Definition nsec3_chain_complete (rs : list arena_record_t) (ch : nsec3_chain_t) : outcome bool :=
  match c_entries ch with
  | [] => Ret false
  | e :: _ => chain_linked rs (c_entries ch) (e_hash e)
  end.

(** The owner of the first SOA record. *)
Fixpoint first_soa (rs : list arena_record_t) : option (list Z) :=
  match rs with
  | [] => None
  | r :: rs' => if present r && (type_code (rec r) =? 6) then Some (name_of r) else first_soa rs'
  end.

(** A usable NSEC3PARAM record with the rank of its chain; [Fail] skips it. *)
Definition nsec3_candidate (rs : list arena_record_t) (chains : list nsec3_chain_t) (i : Z) (r : dns_record_t) : outcome (Z * nsec3_params_t) :=
  let! '(alg, it, salt_txt) := nsec3_rdata_params r in
  let! f1 := fld (rdata r) 1 in
  let! flags := parse_u8 f1 in
  fail_if negb (flags =? 0) || negb (alg =? 1) ;;
  let! salt := hex_to_bytes salt_txt 255 in
  let! chain := zone_find_nsec3_chain chains r in
  let! rank :=
    match chain with
    | None => Ret 1
    | Some c => let! ch := at_ix chains c in let! complete := nsec3_chain_complete rs ch in Ret (if complete then 3 else 2)
    end in
  Ret (rank, N3Params i chain alg it salt).

Fixpoint select_params (all rs : list arena_record_t) (chains : list nsec3_chain_t) (apex : list Z) (i best_rank : Z)
    (active : option nsec3_params_t) : outcome (option nsec3_params_t) :=
  match rs with
  | [] => Ret active
  | r :: rs' =>
      if negb (type_code (rec r) =? 51) || negb (present r) || negb (domain_names_match_ci (name_of r) apex)
      then select_params all rs' chains apex (i + 1) best_rank active
      else
        let! '(rank, p) := orelse (nsec3_candidate all chains i (rec r)) (0, None) (fun '(rank, p) => Ret (rank, Some p)) in
        if best_rank <? rank then select_params all rs' chains apex (i + 1) rank p
        else select_params all rs' chains apex (i + 1) best_rank active
  end.

Definition select_nsec3_params (rs : list arena_record_t) (chains : list nsec3_chain_t) : outcome (option nsec3_params_t) :=
  match first_soa rs with
  | None => Ret None
  | Some apex => select_params rs rs chains apex 0 0 None
  end.

(** ** Operations: the index of the zone *)

(** One of the neighbours that compare equal; [last] is the name kept last. *)
Fixpoint unique_names (last : option (list Z)) (names : list (list Z)) : outcome (list (list Z)) :=
  match names with
  | [] => Ret []
  | n :: names' =>
      let! keep :=
        match last with
        | None => Ret true
        | Some l => let! c := compare_canonical_name (Some n) (Some l) in Ret (negb (c =? 0))
        end in
      if keep then let! rest := unique_names (Some n) names' in Ret (n :: rest) else unique_names last names'
  end.

Definition present_names (rs : list arena_record_t) : list (list Z) := map name_of (List.filter present rs).

Definition build_zone_index `{Qsort} (a : zone_arena_t) (harmonize_ttls : bool) : outcome zone_arena_t :=
  let! rs := if harmonize_ttls then harmonize_rrset_ttls (records a) else Ret (records a) in
  let! nsec := qsort (cmp_canonical_nsec_ptr rs) (indices is_nsec 0 rs) in
  let! chains := build_nsec3_index rs in
  let! active := select_nsec3_params rs chains in
  let! names := qsort cmp_canonical_name_ptr (present_names rs) in
  let! unique := unique_names None names in
  Ret (Arena rs (is_tinydns_format a) (tables a) nsec chains active unique).

End ZoneArena.
