(* ===== verification/ZoneTtl.v ===== *)
(** * TTLs of record sets

    [harmonize_rrset_ttls] (dns_zone_parser.c) gives the records of a set the
    smallest of their TTLs (RFC 2181, section 5.2), and a signature the TTL of
    the set it covers (RFC 4035, section 2.2); nothing else of the records
    changes. *)

From S2P Require Import Prelude CLib Cidr DnsName NameText WireName Compress ZoneAttr TypeName CanonOrder RdataText Record Svcb RrWrite NameWalk ZoneImage ZoneLookup ZoneArena.

Module ZoneTtl.
Import CLib Cidr DnsName NameText WireName Compress ZoneAttr TypeName CanonOrder RdataText Record Svcb RrWrite NameWalk ZoneImage ZoneLookup ZoneArena.

(** ** Lemmas: hash chains *)

Lemma hash_chains_elem size rs : forall i idx j, j ∈ default [] (hash_chains size i rs !! idx) <->
  exists r, i <= j /\ rs !! Z.to_nat (j - i) = Some r /\ present r = true /\ hash_slot size (name_of r) = idx.
Proof.
  induction rs as [| r rs IH]; intros i idx j; cbn [hash_chains].
  { rewrite lookup_empty. cbn. split; [intros H; by apply elem_of_nil in H | intros (r & _ & E & _); by destruct (Z.to_nat (j - i))]. }
  assert (forall P, (exists r', i + 1 <= j /\ rs !! Z.to_nat (j - (i + 1)) = Some r' /\ P r') <->
    (exists r', i < j /\ (r :: rs) !! Z.to_nat (j - i) = Some r' /\ P r')) as Hshift.
  { intros P. split; intros (r' & Hj & E & HP); exists r'; (split; [lia |]); (split; [| done]);
      (replace (Z.to_nat (j - i)) with (S (Z.to_nat (j - (i + 1)))) in * by lia); done. }
  assert ((exists r', i <= j /\ (r :: rs) !! Z.to_nat (j - i) = Some r' /\ present r' = true /\ hash_slot size (name_of r') = idx) <->
    (j = i /\ present r = true /\ hash_slot size (name_of r) = idx) \/
    (exists r', i < j /\ (r :: rs) !! Z.to_nat (j - i) = Some r' /\ present r' = true /\ hash_slot size (name_of r') = idx)) as ->.
  { split.
    - intros (r' & Hj & E & HP). destruct (decide (j = i)) as [-> |]; [left; rewrite Z.sub_diag in E; injection E as ->; done | right; exists r'; split; [lia | done]].
    - intros [(-> & HP) | (r' & Hj & HP)]; [exists r; rewrite Z.sub_diag; split; [lia | done] | exists r'; split; [lia | done]]. }
  rewrite <- Hshift, <- IH. destruct (present r).
  - destruct (decide (hash_slot size (name_of r) = idx)) as [<- | Hne].
    + rewrite lookup_insert_eq. cbn. rewrite elem_of_cons. naive_solver.
    + rewrite lookup_insert_ne by done. naive_solver.
  - naive_solver.
Qed.

Lemma hash_chains_ascending size rs : forall i idx, StronglySorted Z.lt (default [] (hash_chains size i rs !! idx)).
Proof.
  induction rs as [| r rs IH]; intros i idx; cbn [hash_chains]; [rewrite lookup_empty; constructor |]. destruct (present r); [| apply IH].
  destruct (decide (hash_slot size (name_of r) = idx)) as [<- | Hne]; [rewrite lookup_insert_eq; cbn; constructor; [apply IH |] | rewrite lookup_insert_ne by done; apply IH].
  apply Forall_forall. intros j (r' & Hj & _)%hash_chains_elem. lia.
Qed.

(** The slots do not depend on the case of letters. *)
Lemma hash_slot_lower size a b : strcaseeq a b = true -> hash_slot size a = hash_slot size b.
Proof.
  unfold strcaseeq. rewrite bool_decide_eq_true. intros E. unfold hash_slot, calc_fnv1a_str.
  assert (forall s h, foldl (fun h c => fnv_step h (lc c)) h s = foldl fnv_step h (map tolower s)) as Hf.
  { induction s as [| c s IH]; intros h; [done |]. cbn. by rewrite IH, lc_tolower. }
  by rewrite !Hf, E.
Qed.

(** ** Lemmas: records that differ in their TTL only *)

(** The record without its TTL. *)
Definition no_ttl (r : arena_record_t) : arena_record_t :=
  let x := rec r in
  ArenaRecord (present r) (DnsRecord (name x) [] (class_str x) (class_val x) (type_str x) (type_code x) 0 (rdata x) (generic_data x)
    (generic_len x) (tinydns_ttd x) (tinydns_ttl_countdown x) (tinydns_loc x) (ecs_subnet_tag x) (bind_location_tag x) (name_wire x) (cache x)).

Definition ttl_of (r : arena_record_t) : Z := ttl_value (rec r).

Lemma no_ttl_set v r : no_ttl (set_ttl v r) = no_ttl r.
Proof. done. Qed.

Lemma no_ttl_sync r : no_ttl (sync_ttl r) = no_ttl r.
Proof. destruct r as [[] x]; done. Qed.

Lemma same_rrset_no_ttl a b a' b' : no_ttl a = no_ttl a' -> no_ttl b = no_ttl b' -> same_rrset a b = same_rrset a' b'.
Proof. intros Ha Hb. change (same_rrset (no_ttl a) (no_ttl b) = same_rrset (no_ttl a') (no_ttl b')). by rewrite Ha, Hb. Qed.

(** The records of a set: an equivalence on the records that are present. *)
Lemma tags_equal_iff a b : tags_equal_ci a b = true <-> map tolower <$> a = map tolower <$> b.
Proof.
  destruct a, b; cbn; [| done | done | done]. unfold strcaseeq. rewrite bool_decide_eq_true. split; [by intros -> | by intros [= ->]].
Qed.

Definition set_key (r : arena_record_t) :=
  let x := rec r in
  (type_code x, map tolower (name x), tinydns_loc x, tinydns_ttd x, tinydns_ttl_countdown x, map tolower <$> bind_location_tag x, map tolower <$> ecs_subnet_tag x).

Lemma same_rrset_key a b : same_rrset a b = true <-> present b = true /\ set_key a = set_key b.
Proof.
  unfold same_rrset, dns_record_same_visibility, set_key, name_of, strcaseeq. rewrite !andb_true_iff, !Z.eqb_eq, Bool.eqb_true_iff, !tags_equal_iff, bool_decide_eq_true.
  destruct (tinydns_loc (rec a)) as [a1 a2], (tinydns_loc (rec b)) as [b1 b2]. cbn [fst snd]. split.
  - intros H. destruct_and! H. split; [done | congruence].
  - intros [Hp E]. injection E as ? ? ? ? ? ? ?. split_and!; congruence.
Qed.

(** The table after a step: the same records but for TTLs. *)
Definition agree_ttl (rs0 rs : list arena_record_t) : Prop := no_ttl <$> rs = no_ttl <$> rs0.

Lemma agree_length rs0 rs : agree_ttl rs0 rs -> length rs = length rs0.
Proof. intros E%(f_equal length). by rewrite !length_fmap in E. Qed.

Lemma agree_lookup rs0 rs i r : agree_ttl rs0 rs -> rs !! i = Some r -> exists r0, rs0 !! i = Some r0 /\ no_ttl r = no_ttl r0.
Proof.
  intros E Hi. apply (f_equal (.!! i)) in E. rewrite !list_lookup_fmap, Hi in E. destruct (rs0 !! i) as [r0 |]; [| done].
  exists r0. split; [done |]. by apply (inj Some) in E.
Qed.

Lemma agree_insert rs0 rs i r v : agree_ttl rs0 rs -> rs !! i = Some r -> agree_ttl rs0 (<[i := set_ttl v r]> rs).
Proof.
  intros E Hi. unfold agree_ttl in *. rewrite <- E. rewrite list_fmap_insert, no_ttl_set.
  apply list_insert_id. by rewrite list_lookup_fmap, Hi.
Qed.

(** ** The TTLs of a table *)

(** The smallest TTL of the set of [r]. *)
Definition set_min (rs : list arena_record_t) (r : arena_record_t) : Z :=
  foldr (fun r' m => if same_rrset r r' then Z.min (ttl_of r') m else m) (ttl_of r) rs.

(** The records whose TTL the first pass sets. *)
Definition in_pass (r : arena_record_t) : bool := present r && negb (type_code (rec r) =? 46).

Definition pass_one (rs0 : list arena_record_t) (r : arena_record_t) : arena_record_t := if in_pass r then set_ttl (set_min rs0 r) r else r.

(** The state of the first pass is determined by the marks. *)
Definition marked (rs0 : list arena_record_t) (p : list bool) : list arena_record_t :=
  zip_with (fun b r => if b : bool then set_ttl (set_min rs0 r) r else r) p rs0.

(** A record that a signature of the type [c] covers. *)
Definition covered_by (r : arena_record_t) (c : Z) (r' : arena_record_t) : bool :=
  (type_code (rec r') =? c) && present r' && strcaseeq (name_of r') (name_of r).

(** The TTL that the rules ask for: that of the set, and for a signature that
    of the first set it covers. *)
Definition harmonized (rs : list arena_record_t) (r : arena_record_t) : Z :=
  if negb (present r) then ttl_of r
  else if type_code (rec r) =? 46 then
    let c := type_covered_of (rec r) in
    if c =? 0 then ttl_of r
    else match List.find (covered_by r c) rs with Some r' => set_min rs r' | None => ttl_of r end
  else set_min rs r.

(** ** Lemmas: the smallest TTL *)

Lemma set_min_le rs r : set_min rs r <= ttl_of r.
Proof. unfold set_min. induction rs as [| r' rs IH]; cbn [foldr]; [lia | destruct (same_rrset r r'); lia]. Qed.

Lemma set_min_lower rs r r' : r' ∈ rs -> same_rrset r r' = true -> set_min rs r <= ttl_of r'.
Proof.
  intros Hin Hs. unfold set_min. induction rs as [| x rs IH]; [by apply elem_of_nil in Hin |]. cbn [foldr]. apply elem_of_cons in Hin as [<- | Hin]; [rewrite Hs; lia |].
  specialize (IH Hin). destruct (same_rrset r x); lia.
Qed.

Lemma set_min_reached rs r : set_min rs r = ttl_of r \/ exists r', r' ∈ rs /\ same_rrset r r' = true /\ set_min rs r = ttl_of r'.
Proof.
  unfold set_min. induction rs as [| x rs IH]; cbn [foldr]; [by left |]. destruct (same_rrset r x) eqn:E.
  - destruct (Z.min_spec (ttl_of x) (foldr (fun r' m => if same_rrset r r' then Z.min (ttl_of r') m else m) (ttl_of r) rs)) as [[_ ->] | [_ ->]].
    + right. exists x. split; [left | done].
    + destruct IH as [-> | (r' & Hin & ? & ->)]; [by left | right; exists r'; split; [by right | done]].
  - destruct IH as [-> | (r' & Hin & ? & ->)]; [by left | right; exists r'; split; [by right | done]].
Qed.

(** It is the largest of the lower bounds that the set reaches. *)
Lemma set_min_unique rs r m : r ∈ rs -> present r = true ->
  (forall r', r' ∈ rs -> same_rrset r r' = true -> m <= ttl_of r') ->
  (exists r', r' ∈ rs /\ same_rrset r r' = true /\ m = ttl_of r') -> m = set_min rs r.
Proof.
  intros Hin Hp Hlow (r' & Hin' & Hs & E). apply Z.le_antisymm; [| by rewrite E; apply set_min_lower].
  destruct (set_min_reached rs r) as [-> | (x & Hx & Hsx & ->)]; [apply Hlow; [done | by apply same_rrset_key] | by apply Hlow].
Qed.

Lemma set_min_same rs r r' : r ∈ rs -> r' ∈ rs -> present r = true -> same_rrset r r' = true -> set_min rs r = set_min rs r'.
Proof.
  intros Hin Hin' Hp Hs. pose proof Hs as [Hp' Hk]%same_rrset_key.
  assert (forall x, same_rrset r x = true <-> same_rrset r' x = true) as He by (intros x; rewrite !same_rrset_key, Hk; done).
  apply set_min_unique; [done | done | |].
  - intros x Hx Hsx. apply set_min_lower; [done | by apply He].
  - destruct (set_min_reached rs r) as [-> | (x & Hx & Hsx & ->)].
    + exists r. split_and!; [done | apply He, same_rrset_key; done | done].
    + exists x. split_and!; [done | by apply He | done].
Qed.

(** ** Lemmas: the first pass *)

Section PassOne.
Context (rs0 : list arena_record_t).

Definition table : gmap Z (list Z) := hash_chains (next_pow2 (len rs0 * 2)) 0 rs0.

Definition size0 : Z := next_pow2 (len rs0 * 2).

(** The chain of a name holds the records that have it. *)
Lemma chain_spec n j : j ∈ chain_of table size0 n -> exists r, 0 <= j /\ rs0 !! Z.to_nat j = Some r /\ present r = true.
Proof. intros (r & Hj & E & Hp & _)%hash_chains_elem. rewrite Z.sub_0_r in E. by exists r. Qed.

Lemma chain_complete n (j : nat) r : rs0 !! j = Some r -> present r = true -> strcaseeq (name_of r) n = true -> Z.of_nat j ∈ chain_of table size0 n.
Proof.
  intros E Hp Hn. apply hash_chains_elem. exists r. rewrite Z.sub_0_r, Nat2Z.id. split_and!; [lia | done | done | by apply hash_slot_lower].
Qed.

Lemma same_rrset_name a b : same_rrset a b = true -> strcaseeq (name_of b) (name_of a) = true.
Proof. unfold same_rrset. rewrite !andb_true_iff. by intros [[_ ?] _]. Qed.

Lemma marked_lookup p j : length p = length rs0 -> marked rs0 p !! j =
  match rs0 !! j with Some r => Some (if default false (p !! j) then set_ttl (set_min rs0 r) r else r) | None => None end.
Proof.
  intros Hl. unfold marked. rewrite lookup_zip_with. destruct (rs0 !! j) as [r |] eqn:E; [| by destruct (p !! j)].
  destruct (lookup_lt_is_Some_2 p j) as [b ->]; [rewrite Hl; by eapply lookup_lt_Some |]. done.
Qed.

Lemma marked_insert p j r : length p = length rs0 -> rs0 !! j = Some r ->
  <[j := set_ttl (set_min rs0 r) r]> (marked rs0 p) = marked rs0 (<[j := true]> p).
Proof.
  intros Hl E. apply list_eq. intros k. rewrite (marked_lookup (<[j := true]> p)) by (by rewrite length_insert).
  assert (j < length (marked rs0 p))%nat as Hj by (unfold marked; rewrite length_zip_with; apply lookup_lt_Some in E; lia).
  destruct (decide (k = j)) as [-> | Hne].
  - rewrite list_lookup_insert_eq by done. rewrite E, list_lookup_insert_eq; [done | apply lookup_lt_Some in E; lia].
  - rewrite !list_lookup_insert_ne by done. by rewrite marked_lookup.
Qed.

(** Sets are marked as a whole. *)
Definition closed (p : list bool) : Prop := forall j k rj rk, rs0 !! j = Some rj -> rs0 !! k = Some rk -> present rj = true ->
  same_rrset rj rk = true -> p !! j = Some true -> p !! k = Some true.

Lemma min_ttl_spec i r p : length p = length rs0 -> rs0 !! i = Some r -> present r = true -> p !! i = Some false -> closed p ->
  forall chain m, (forall j, j ∈ chain -> exists rj, 0 <= j /\ rs0 !! Z.to_nat j = Some rj) ->
  exists m', min_ttl (marked rs0 p) (Z.of_nat i) r chain m = Ret m' /\ m' <= m /\
    (forall j rj, Z.of_nat j ∈ chain -> j <> i -> rs0 !! j = Some rj -> same_rrset r rj = true -> m' <= ttl_of rj) /\
    (m' = m \/ exists j rj, Z.of_nat j ∈ chain /\ rs0 !! j = Some rj /\ same_rrset r rj = true /\ m' = ttl_of rj).
Proof.
  intros Hl Hi Hp Hpi Hcl. induction chain as [| j chain IH]; intros m Hch; cbn [min_ttl].
  { exists m. split_and!; [done | lia | intros ? ? H; by apply elem_of_nil in H | by left]. }
  assert (forall j', j' ∈ chain -> exists rj, 0 <= j' /\ rs0 !! Z.to_nat j' = Some rj) as Hch' by (intros; apply Hch; by right).
  destruct (Hch j) as (rj & Hj & Ej); [left |]. assert (j = Z.of_nat (Z.to_nat j)) as Enat by lia. destruct (Z.eqb_spec j (Z.of_nat i)) as [-> | Hne].
  - destruct (IH m Hch') as (m' & -> & Hle & Hlow & Hre). exists m'. split_and!; [done | done | |].
    + intros k rk [Hk | Hk]%elem_of_cons ? ? ?; [lia | by eapply Hlow].
    + destruct Hre as [| (k & rk & ? & ?)]; [by left | right; exists k, rk; split; [by right | done]].
  - unfold record_at. assert (at_ix (marked rs0 p) j = Ret (if default false (p !! Z.to_nat j) then set_ttl (set_min rs0 rj) rj else rj)) as ->.
    { apply at_ix_Ret. split; [done |]. by rewrite marked_lookup, Ej. }
    cbn [obind]. set (x := if default false (p !! Z.to_nat j) then _ else _).
    assert (no_ttl x = no_ttl rj) as Hx by (unfold x; by destruct (default false _)).
    assert (same_rrset r x = same_rrset r rj) as Hsx by (by apply same_rrset_no_ttl).
    assert (same_rrset r rj = true -> x = rj) as Hfresh.
    { intros Hs. unfold x. destruct (p !! Z.to_nat j) as [[] |] eqn:Epj; [| done | done]. exfalso. enough (p !! i = Some true) by congruence.
      apply same_rrset_key in Hs as [Hpj Hk]. eapply (Hcl (Z.to_nat j) i rj r); [done | done | done | apply same_rrset_key; by split | done]. }
    rewrite Hsx. change (ttl_value (rec x)) with (ttl_of x).
    destruct (IH (if same_rrset r rj && (ttl_of x <? m) then ttl_of x else m) Hch') as (m' & -> & Hle & Hlow & Hre). exists m'.
    destruct (same_rrset r rj) eqn:Es; [rewrite (Hfresh eq_refl) in * |]; cbn [andb] in *.
    + split_and!; [done | destruct (Z.ltb_spec (ttl_of rj) m); lia | |].
      * intros k rk [Hk | Hk]%elem_of_cons ? Ek ?; [| by eapply Hlow].
        assert (rk = rj) as -> by (rewrite <- Hk, Nat2Z.id in Ej; congruence). destruct (Z.ltb_spec (ttl_of rj) m); lia.
      * destruct Hre as [-> | (k & rk & ? & ?)]; [| right; exists k, rk; split; [by right | done]]. destruct (ttl_of rj <? m); [| by left].
        right. exists (Z.to_nat j), rj. rewrite <- Enat. split_and!; [left | done | done | done].
    + split_and!; [done | done | |].
      * intros k rk [Hk | Hk]%elem_of_cons ? Ek ?; [| by eapply Hlow]. assert (rk = rj) as -> by (rewrite <- Hk, Nat2Z.id in Ej; congruence). congruence.
      * destruct Hre as [-> | (k & rk & ? & ?)]; [by left | right; exists k, rk; split; [by right | done]].
Qed.

(** The first loop finds the smallest TTL of the set. *)
Lemma min_ttl_set i r p : length p = length rs0 -> rs0 !! i = Some r -> present r = true -> p !! i = Some false -> closed p ->
  min_ttl (marked rs0 p) (Z.of_nat i) r (chain_of table size0 (name_of r)) (ttl_of r) = Ret (set_min rs0 r).
Proof.
  intros Hl Hi Hp Hpi Hcl. destruct (min_ttl_spec i r p Hl Hi Hp Hpi Hcl (chain_of table size0 (name_of r)) (ttl_of r)) as (m & -> & Hle & Hlow & Hre).
  { intros j (rj & ? & ? & _)%chain_spec. by exists rj. }
  f_equal. apply set_min_unique; [by eapply list_elem_of_lookup_2 | done | |].
  - intros r' [j Ej]%list_elem_of_lookup_1 Hs. destruct (decide (j = i)) as [-> |]; [congruence |].
    eapply Hlow; [| done | done | done]. eapply chain_complete; [done | by apply same_rrset_key in Hs as [? _] | by apply same_rrset_name].
  - destruct Hre as [-> | (j & rj & ? & ? & ? & ->)].
    + exists r. split_and!; [by eapply list_elem_of_lookup_2 | by apply same_rrset_key | done].
    + exists rj. split_and!; [by eapply list_elem_of_lookup_2 | done | done].
Qed.

(** The second loop marks the set. *)
Lemma spread_ttl_spec i r : rs0 !! i = Some r -> present r = true -> forall chain p, length p = length rs0 -> p !! i = Some true ->
  (forall j, j ∈ chain -> exists rj, 0 <= j /\ rs0 !! Z.to_nat j = Some rj) ->
  exists p', spread_ttl (Z.of_nat i) r (set_min rs0 r) chain (marked rs0 p, p) = Ret (marked rs0 p', p') /\ length p' = length rs0 /\
    (forall k, p' !! k = Some true <-> p !! k = Some true \/ exists rk, Z.of_nat k ∈ chain /\ rs0 !! k = Some rk /\ same_rrset r rk = true).
Proof.
  intros Hi Hp. induction chain as [| j chain IH]; intros p Hl Hpi Hch; cbn [spread_ttl].
  { exists p. split_and!; [done | done |]. intros k. split; [by left |]. intros [? | (rk & H & _)]; [done | by apply elem_of_nil in H]. }
  assert (forall j', j' ∈ chain -> exists rj, 0 <= j' /\ rs0 !! Z.to_nat j' = Some rj) as Hch' by (intros; apply Hch; by right).
  destruct (Hch j) as (rj & Hj & Ej); [left |].
  destruct (lookup_lt_is_Some_2 p (Z.to_nat j)) as [b Eb]; [rewrite Hl; by eapply lookup_lt_Some |].
  assert (at_ix p j = Ret b) as -> by (by apply at_ix_Ret). cbn [obind].
  assert (forall k rk, Z.of_nat k = j -> rs0 !! k = Some rk -> k = Z.to_nat j /\ rk = rj) as Huniq.
  { intros k rk <- Ek. rewrite Nat2Z.id in *. split; congruence. }
  destruct ((j =? Z.of_nat i) || b) eqn:Eskip.
  - destruct (IH p Hl Hpi Hch') as (p' & -> & Hl' & Hp'). exists p'. split_and!; [done | done |]. intros k. rewrite Hp'. split.
    + intros [? | (rk & ? & ?)]; [by left | right; exists rk; split; [by right | done]].
    + intros [? | (rk & [Hk | Hk]%elem_of_cons & Ek & Hs)]; [by left | | right; by exists rk]. left.
      destruct (Huniq k rk Hk Ek) as [-> ->]. apply orb_true_iff in Eskip as [E%Z.eqb_eq | ->]; [| done]. by rewrite E, Nat2Z.id.
  - apply orb_false_iff in Eskip as [_ ->]. unfold record_at.
    assert (at_ix (marked rs0 p) j = Ret rj) as -> by (apply at_ix_Ret; split; [done |]; by rewrite marked_lookup, Ej, Eb).
    cbn [obind]. destruct (same_rrset r rj) eqn:Es.
    + rewrite (set_min_same rs0 r rj) by (done || by eapply list_elem_of_lookup_2). rewrite marked_insert by done.
      rewrite <- (set_min_same rs0 r rj) by (done || by eapply list_elem_of_lookup_2).
      assert (Z.to_nat j < length p)%nat as Hlt by (by eapply lookup_lt_Some).
      destruct (IH (<[Z.to_nat j := true]> p)) as (p' & -> & Hl' & Hp'); [by rewrite length_insert | | done |].
      { destruct (decide (Z.to_nat j = i)) as [<- |]; [by rewrite list_lookup_insert_eq | by rewrite list_lookup_insert_ne]. }
      exists p'. split_and!; [done | done |]. intros k. rewrite Hp'. destruct (decide (k = Z.to_nat j)) as [-> | Hne].
      * rewrite list_lookup_insert_eq by done. split; [| by left]. intros _. right. exists rj. split_and!; [rewrite Z2Nat.id by done; left | done | done].
      * rewrite list_lookup_insert_ne by done. split; (intros [? | (rk & Hk & Ek & Hs)]; [by left | right; exists rk; split; [| done]]); [by right |].
        apply elem_of_cons in Hk as [Hk | Hk]; [by destruct (Huniq k rk Hk Ek) | done].
    + destruct (IH p Hl Hpi Hch') as (p' & -> & Hl' & Hp'). exists p'. split_and!; [done | done |]. intros k. rewrite Hp'. split.
      * intros [? | (rk & ? & ?)]; [by left | right; exists rk; split; [by right | done]].
      * intros [? | (rk & [Hk | Hk]%elem_of_cons & Ek & Hs)]; [by left | | right; by exists rk]. destruct (Huniq k rk Hk Ek) as [-> ->]. congruence.
Qed.

Lemma spread_closed i r p p' : rs0 !! i = Some r -> present r = true -> closed p -> p !! i = Some false ->
  (forall k, p' !! k = Some true <-> <[i := true]> p !! k = Some true \/
    exists rk, Z.of_nat k ∈ chain_of table size0 (name_of r) /\ rs0 !! k = Some rk /\ same_rrset r rk = true) -> closed p'.
Proof.
  intros Hi Hp Hcl Hpi Hp' j k rj rk Ej Ek Hpj Hs [Hj | (rj' & _ & Ej' & Hsj)]%Hp'.
  - destruct (decide (j = i)) as [-> | Hne].
    + assert (rj = r) as -> by congruence. apply Hp'. right. exists rk. split_and!; [| done | done].
      eapply chain_complete; [done | by apply same_rrset_key in Hs as [? _] | by apply same_rrset_name].
    + rewrite list_lookup_insert_ne in Hj by done. apply Hp'. left. destruct (decide (k = i)) as [-> | ?].
      * rewrite list_lookup_insert_eq; [done | by eapply lookup_lt_Some].
      * rewrite list_lookup_insert_ne by done. by eapply (Hcl j k rj rk).
  - assert (rj' = rj) as -> by congruence. apply Hp'. right. exists rk.
    assert (same_rrset r rk = true) as Hrk by (apply same_rrset_key in Hs as [? Hk], Hsj as [_ Hk']; apply same_rrset_key; split; [done | congruence]).
    split_and!; [| done | done]. eapply chain_complete; [done | by apply same_rrset_key in Hrk as [? _] | by apply same_rrset_name].
Qed.

Lemma in_pass_same a b : in_pass a = true -> same_rrset a b = true -> in_pass b = true.
Proof.
  unfold in_pass. intros [_ Ht]%andb_true_iff [-> E]%same_rrset_key. injection E as E _ _ _ _ _ _. by rewrite <- E, Ht.
Qed.

(** The marks before the step [i]. *)
Record marks (i : nat) (p : list bool) : Prop := Marks {
  mk_length : length p = length rs0;
  mk_closed : closed p;
  mk_pass : forall k r, rs0 !! k = Some r -> p !! k = Some true -> in_pass r = true;
  mk_done : forall k r, (k < i)%nat -> rs0 !! k = Some r -> in_pass r = true -> p !! k = Some true
}.

Lemma harmonize_sets_spec n : forall i p, marks i p -> (i + n = length rs0)%nat ->
  exists p', harmonize_sets n table size0 (Z.of_nat i) (marked rs0 p, p) = Ret (marked rs0 p', p') /\ marks (length rs0) p'.
Proof.
  induction n as [| n IH]; intros i p Hm Hn; cbn [harmonize_sets]; [exists p; split; [done |]; by replace (length rs0) with i by lia |].
  destruct Hm as [Hl Hcl Hpass Hdone]. destruct (lookup_lt_is_Some_2 rs0 i) as [r Hi]; [lia |]. destruct (lookup_lt_is_Some_2 p i) as [b Hb]; [lia |].
  rewrite (at_ix_nat p i b) by done. unfold record_at. cbn [obind].
  rewrite (at_ix_nat (marked rs0 p) i (if b then set_ttl (set_min rs0 r) r else r)) by (by rewrite marked_lookup, Hi, Hb).
  cbn [obind]. replace (Z.of_nat i + 1) with (Z.of_nat (S i)) by lia. destruct b; cbn [orb].
  { apply IH; [| lia]. split; [done | done | done |]. intros k rk Hk Ek Hin. destruct (decide (k = i)) as [-> |]; [done | eapply Hdone; [lia | done | done]]. }
  destruct (in_pass r) eqn:Hin.
  - assert (Hin' := Hin). unfold in_pass in Hin'. apply andb_true_iff in Hin' as [Hp Ht]. rewrite Hp. apply negb_true_iff in Ht. rewrite Ht. cbn [negb orb].
    change (ttl_value (rec r)) with (ttl_of r). rewrite min_ttl_set by done. cbn [obind]. rewrite Nat2Z.id, marked_insert by done.
    destruct (spread_ttl_spec i r Hi Hp (chain_of table size0 (name_of r)) (<[i := true]> p)) as (p' & -> & Hl' & Hp').
    { by rewrite length_insert. } { by rewrite list_lookup_insert_eq by lia. } { intros j (rj & ? & ? & _)%chain_spec. by exists rj. }
    cbn [obind]. apply IH; [| lia]. split; [done | by eapply spread_closed | |].
    + intros k rk Ek [Hk | (rk' & _ & Ek' & Hs)]%Hp'; [| assert (rk' = rk) as -> by congruence; by eapply in_pass_same].
      destruct (decide (k = i)) as [-> |]; [congruence |]. rewrite list_lookup_insert_ne in Hk by done. by eapply Hpass.
    + intros k rk Hk Ek Hink. apply Hp'. left. destruct (decide (k = i)) as [-> |]; [by rewrite list_lookup_insert_eq by lia |].
      rewrite list_lookup_insert_ne by done. eapply Hdone; [lia | done | done].
  - assert (negb (present r) || (type_code (rec r) =? 46) = true) as -> by (unfold in_pass in Hin; by destruct (present r), (type_code (rec r) =? 46)).
    apply IH; [| lia]. split; [done | done | done |]. intros k rk Hk Ek Hink. destruct (decide (k = i)) as [-> |]; [congruence | eapply Hdone; [lia | done | done]].
Qed.

(** After the first pass every record has the TTL of its set. *)
Lemma pass_one_spec : exists p, harmonize_sets (length rs0) table size0 0 (rs0, map (fun _ => false) rs0) = Ret (map (pass_one rs0) rs0, p).
Proof.
  assert (forall k, map (fun _ => false) rs0 !! k <> Some true) as Hf.
  { intros k. change (map (fun _ => false) rs0) with ((fun _ => false) <$> rs0). rewrite list_lookup_fmap. by destruct (rs0 !! k). }
  assert (marked rs0 (map (fun _ => false) rs0) = rs0) as Hm.
  { apply list_eq. intros k. rewrite marked_lookup by (by rewrite length_map). specialize (Hf k). destruct (rs0 !! k); [| done].
    by destruct (map (fun _ => false) rs0 !! k) as [[] |]. }
  destruct (harmonize_sets_spec (length rs0) 0 (map (fun _ => false) rs0)) as (p & E & [Hl _ Hpass Hdone]); [| lia |].
  { split; [by rewrite length_map | intros j k ? ? ? ? ? ? H; by apply Hf in H | intros k ? ? H; by apply Hf in H | lia]. }
  rewrite Hm in E. exists p. change 0 with (Z.of_nat 0). rewrite E. do 2 f_equal. apply list_eq. intros k. rewrite marked_lookup by done. change (map (pass_one rs0) rs0) with (pass_one rs0 <$> rs0).
  rewrite list_lookup_fmap. destruct (rs0 !! k) as [r |] eqn:Ek; [| done]. cbn. f_equal. unfold pass_one. destruct (in_pass r) eqn:Hin.
  - by rewrite (Hdone k r) by (done || by eapply lookup_lt_Some).
  - destruct (p !! k) as [[] |] eqn:Ep; [| done..]. rewrite (Hpass k r Ek Ep) in Hin. done.
Qed.

(** ** Lemmas: the second pass *)

Lemma find_first {A} (f : A -> bool) (l : list A) : forall j x, l !! j = Some x -> f x = true ->
  (forall k y, (k < j)%nat -> l !! k = Some y -> f y = false) -> List.find f l = Some x.
Proof.
  induction l as [| a l IH]; intros j x Hj Hx Hk; [done |]. cbn. destruct j as [| j]; [injection Hj as ->; by rewrite Hx |].
  rewrite (Hk 0%nat a) by (done || lia). eapply IH; [done | done |]. intros k y ? ?. eapply (Hk (S k)); [lia | done].
Qed.

Lemma find_nothing {A} (f : A -> bool) (l : list A) : (forall k y, l !! k = Some y -> f y = false) -> List.find f l = None.
Proof.
  induction l as [| a l IH]; intros Hk; [done |]. cbn. rewrite (Hk 0%nat a) by done. apply IH. intros k y ?. by eapply (Hk (S k)).
Qed.

(** The TTL of the first record of the chain that a signature covers, in a
    table [rs] that has the records of [rs0] but for TTLs. *)
Lemma covered_ttl_spec rs r c : agree_ttl rs0 rs -> forall chain, StronglySorted Z.lt chain ->
  (forall j, j ∈ chain -> 0 <= j < len rs0) ->
  (exists j r', covered_ttl rs c (name_of r) chain = Ret (Some (ttl_of r')) /\ j ∈ chain /\ at_ix rs j = Ret r' /\ covered_by r c r' = true /\
    forall k rk, k ∈ chain -> k < j -> at_ix rs k = Ret rk -> covered_by r c rk = false) \/
  (covered_ttl rs c (name_of r) chain = Ret None /\ forall k rk, k ∈ chain -> at_ix rs k = Ret rk -> covered_by r c rk = false).
Proof.
  intros Hag. pose proof (agree_length _ _ Hag) as Hlen. induction chain as [| j chain IH]; intros Hs Hch; cbn [covered_ttl].
  { right. split; [done |]. intros k rk H. by apply elem_of_nil in H. }
  apply StronglySorted_inv in Hs as [Hs Hlt]. rewrite Forall_forall in Hlt. destruct (at_ix_in rs j) as [r' Ej]; [rewrite Hlen; apply Hch; left |].
  unfold record_at. rewrite Ej. cbn [obind]. change (_ && present r' && _) with (covered_by r c r'). destruct (covered_by r c r') eqn:Ec.
  - left. exists j, r'. split_and!; [done | left | done | done |]. intros k rk [-> | Hk]%elem_of_cons ?; [lia |]. specialize (Hlt k Hk). lia.
  - destruct IH as [(j' & r'' & -> & Hj' & Ej' & Ec' & Hb) | [-> Hn]]; [done | intros; apply Hch; by right | left; exists j', r'' | right].
    + split_and!; [done | by right | done | done |]. intros k rk [-> | Hk]%elem_of_cons ? ?; [congruence | by eapply Hb].
    + split; [done |]. intros k rk [-> | Hk]%elem_of_cons ?; [congruence | by eapply Hn].
Qed.

Lemma covered_no_ttl r c a b : no_ttl a = no_ttl b -> covered_by r c a = covered_by r c b.
Proof. intros E. change (covered_by r c (no_ttl a) = covered_by r c (no_ttl b)). by rewrite E. Qed.

(** The table before the step [i] of the second pass. *)
Record aligned (i : nat) (rs : list arena_record_t) : Prop := Aligned {
  al_agree : agree_ttl rs0 rs;
  al_pass : forall k r r', rs0 !! k = Some r -> rs !! k = Some r' -> in_pass r = true -> ttl_of r' = set_min rs0 r;
  al_absent : forall k r r', rs0 !! k = Some r -> rs !! k = Some r' -> present r = false -> ttl_of r' = ttl_of r;
  al_before : forall k r r', (k < i)%nat -> rs0 !! k = Some r -> rs !! k = Some r' -> present r = true -> type_code (rec r) = 46 ->
    type_covered_of (rec r) <> 46 -> ttl_of r' = harmonized rs0 r;
  al_after : forall k r r', (i <= k)%nat -> rs0 !! k = Some r -> rs !! k = Some r' -> present r = true -> type_code (rec r) = 46 -> ttl_of r' = ttl_of r
}.

Lemma covered_ttl_harmonized i rs k r : aligned i rs -> rs0 !! k = Some r -> present r = true -> type_code (rec r) = 46 -> type_covered_of (rec r) <> 0 ->
  exists v, covered_ttl rs (type_covered_of (rec r)) (name_of r) (chain_of table size0 (name_of r)) = Ret v /\
    (type_covered_of (rec r) <> 46 -> default (ttl_of r) v = harmonized rs0 r).
Proof.
  intros [Hag Hpass _ _ _] Hk Hp Ht Hc0. pose proof (agree_length _ _ Hag) as Hlen. unfold harmonized. rewrite Hp, Ht. cbn [negb]. rewrite Z.eqb_refl.
  set (c := type_covered_of (rec r)) in *. cbv zeta. destruct (Z.eqb_spec c 0); [done |].
  assert (forall j r' r0, at_ix rs j = Ret r' -> rs0 !! Z.to_nat j = Some r0 -> covered_by r c r' = covered_by r c r0) as Hcov.
  { intros j r' r0 [Hj Ej]%at_ix_Ret E0. destruct (agree_lookup _ _ _ _ Hag Ej) as (r0' & E0' & En). apply covered_no_ttl. congruence. }
  destruct (covered_ttl_spec rs r c Hag (chain_of table size0 (name_of r))) as [(j & r' & -> & Hj & Ej & Ec & Hb) | [-> Hn]].
  { apply hash_chains_ascending. } { intros j (x & ? & ?%lookup_lt_Some & _)%chain_spec. lia. }
  - exists (Some (ttl_of r')). split; [done |]. intros Hc. cbn. pose proof Ej as [Hj0 Ej']%at_ix_Ret. destruct (agree_lookup _ _ _ _ Hag Ej') as (r0 & E0 & En).
    rewrite (Hcov j r' r0 Ej E0) in Ec. rewrite (find_first (covered_by r c) rs0 (Z.to_nat j) r0 E0 Ec).
    + eapply Hpass; [done | done |]. unfold covered_by in Ec. apply andb_true_iff in Ec as [[Et Ep]%andb_true_iff _]. apply Z.eqb_eq in Et.
      unfold in_pass. rewrite Ep, Et. by apply negb_true_iff, Z.eqb_neq.
    + intros k' y Hk' Ey. destruct (covered_by r c y) eqn:Ecy; [| done]. destruct (at_ix_in rs (Z.of_nat k')) as [ry Ery]; [apply lookup_lt_Some in Ey; lia |].
      enough (covered_by r c ry = false) as E by (rewrite (Hcov _ _ y Ery) in E by (by rewrite Nat2Z.id); congruence).
      apply (Hb (Z.of_nat k')); [| lia | done]. unfold covered_by in Ecy. apply andb_true_iff in Ecy as [[_ Ep]%andb_true_iff En']. by eapply chain_complete.
  - exists None. split; [done |]. intros _. cbn. rewrite find_nothing; [done |].
    intros k' y Ey. destruct (covered_by r c y) eqn:Ecy; [| done]. destruct (at_ix_in rs (Z.of_nat k')) as [ry Ery]; [apply lookup_lt_Some in Ey; lia |].
    enough (covered_by r c ry = false) as E by (rewrite (Hcov _ _ y Ery) in E by (by rewrite Nat2Z.id); congruence).
    apply (Hn (Z.of_nat k')); [| done]. unfold covered_by in Ecy. apply andb_true_iff in Ecy as [[_ Ep]%andb_true_iff En']. by eapply chain_complete.
Qed.

Lemma harmonize_rrsigs_spec n : forall i rs, aligned i rs -> (i + n = length rs0)%nat ->
  exists rs', harmonize_rrsigs n table size0 (Z.of_nat i) rs = Ret rs' /\ aligned (length rs0) rs'.
Proof.
  induction n as [| n IH]; intros i rs Hal Hn; cbn [harmonize_rrsigs]; [exists rs; split; [done |]; by replace (length rs0) with i by lia |].
  pose proof (agree_length _ _ (al_agree _ _ Hal)) as Hlen. destruct (lookup_lt_is_Some_2 rs i) as [r' Hi]; [lia |].
  unfold record_at. rewrite (at_ix_nat rs i r') by done. cbn [obind]. replace (Z.of_nat i + 1) with (Z.of_nat (S i)) by lia.
  destruct (agree_lookup _ _ _ _ (al_agree _ _ Hal) Hi) as (r & Hr & En). rewrite Nat2Z.id.
  assert (present r' = present r /\ type_code (rec r') = type_code (rec r) /\ type_covered_of (rec r') = type_covered_of (rec r) /\ name_of r' = name_of r) as (-> & -> & -> & ->).
  { change (present (no_ttl r') = present (no_ttl r) /\ type_code (rec (no_ttl r')) = type_code (rec (no_ttl r)) /\
      type_covered_of (rec (no_ttl r')) = type_covered_of (rec (no_ttl r)) /\ name_of (no_ttl r') = name_of (no_ttl r)). by rewrite En. }
  destruct (present r) eqn:Hp; [destruct (Z.eqb_spec (type_code (rec r)) 46) as [Ht |]; [destruct (Z.eqb_spec (type_covered_of (rec r)) 0) as [Hc |] |] |]; cbn [negb orb].
  2: { destruct (covered_ttl_harmonized i rs i r Hal Hr Hp Ht) as (v & -> & Hv); [done |]. cbn [obind]. apply IH; [| lia]. destruct Hal as [Hag Hpass Habs Hbef Haft].
    assert (forall k x x', rs0 !! k = Some x -> match v with Some v => <[i := set_ttl v r']> rs | None => rs end !! k = Some x' ->
      (k = i /\ x = r /\ ttl_of x' = default (ttl_of r) v) \/ (k <> i /\ rs !! k = Some x')) as Hcase.
    { intros k x x' Ex Ex'. destruct (decide (k = i)) as [-> | Hne]; [left | right].
      - split; [done |]. split; [congruence |]. destruct v as [v |]; [rewrite list_lookup_insert_eq in Ex' by lia; by injection Ex' as <- |].
        assert (x' = r') as -> by congruence. by apply (Haft i).
      - split; [done |]. destruct v; [by rewrite list_lookup_insert_ne in Ex' |]; done. }
    split.
    - destruct v; [by apply agree_insert | done].
    - intros k x x' Ex Ex' Hin. destruct (Hcase k x x' Ex Ex') as [(-> & -> & _) | [_ ?]]; [| by eapply Hpass]. unfold in_pass in Hin. by rewrite Hp, Ht in Hin.
    - intros k x x' Ex Ex' Hin. destruct (Hcase k x x' Ex Ex') as [(-> & -> & _) | [_ ?]]; [congruence | by eapply Habs].
    - intros k x x' Hk Ex Ex' Hpx Htx Hcx. destruct (Hcase k x x' Ex Ex') as [(-> & -> & ->) | [? ?]]; [by apply Hv | eapply (Hbef k); [lia | done..]].
    - intros k x x' Hk Ex Ex' Hpx Htx. destruct (Hcase k x x' Ex Ex') as [(-> & -> & ->) | [? ?]]; [lia | eapply (Haft k); [lia | done..]]. }
  all: apply IH; [| lia]; destruct Hal as [Hag Hpass Habs Hbef Haft]; split; [done | done | done | | intros k x x' ?; apply Haft; lia].
  all: intros k x x' Hk Ex Ex' Hpx Htx Hcx; destruct (decide (k = i)) as [-> |]; [| eapply Hbef; [| done..]; lia].
  all: assert (x = r) as -> by congruence; try congruence.
  unfold harmonized. rewrite Hp, Ht, Hc. cbn. by apply (Haft i).
Qed.

End PassOne.

(** ** Lemmas: both passes *)

Lemma harmonize_spec (rs : list arena_record_t) :
  exists rs', harmonize_rrset_ttls rs = Ret rs' /\ agree_ttl rs rs' /\
    forall i r, rs !! i = Some r -> ~ (type_code (rec r) = 46 /\ type_covered_of (rec r) = 46) ->
      exists r', rs' !! i = Some r' /\ ttl_of r' = harmonized rs r /\ (present r = true -> ttl (rec r') = fmt_u (harmonized rs r)).
Proof.
  unfold harmonize_rrset_ttls. destruct (pass_one_spec rs) as [p E]. unfold table, size0 in E. rewrite E. cbn [obind]. clear E.
  assert (forall k r r', rs !! k = Some r -> map (pass_one rs) rs !! k = Some r' -> r' = pass_one rs r) as Hone.
  { intros k r r' E. change (map (pass_one rs) rs) with (pass_one rs <$> rs). rewrite list_lookup_fmap, E. by intros [= <-]. }
  destruct (harmonize_rrsigs_spec rs (length rs) 0 (map (pass_one rs) rs)) as (rs' & E & Hal); [| lia |].
  { split; [| intros k r r' Ek Ek' Hin; rewrite (Hone k r r' Ek Ek'); unfold pass_one; by rewrite Hin | | lia |].
    - unfold agree_ttl. change (map (pass_one rs) rs) with (pass_one rs <$> rs). rewrite <- list_fmap_compose. apply list_fmap_ext. intros k r _. unfold compose, pass_one. by destruct (in_pass r).
    - intros k r r' Ek Ek' Hp. rewrite (Hone k r r' Ek Ek'). unfold pass_one, in_pass. by rewrite Hp.
    - intros k r r' _ Ek Ek' Hp Ht. rewrite (Hone k r r' Ek Ek'). unfold pass_one, in_pass. by rewrite Hp, Ht. }
  rewrite length_map. unfold table, size0 in E. change (Z.of_nat 0) with 0 in E. rewrite E. cbn [obind]. eexists. split; [done |].
  destruct Hal as [Hag Hpass Habs Hbef _]. split.
  { unfold agree_ttl. change (map sync_ttl rs') with (sync_ttl <$> rs'). rewrite <- Hag, <- list_fmap_compose. apply list_fmap_ext. intros k r _. apply no_ttl_sync. }
  intros i r Hi Hno. destruct (lookup_lt_is_Some_2 rs' i) as [r' Hi']; [rewrite (agree_length _ _ Hag); by eapply lookup_lt_Some |].
  exists (sync_ttl r'). change (map sync_ttl rs') with (sync_ttl <$> rs'). rewrite list_lookup_fmap, Hi'. split; [done |].
  destruct (agree_lookup _ _ _ _ Hag Hi') as (r0 & E0 & En). assert (r0 = r) as -> by congruence.
  assert (present r' = present r) as Hpr by (change (present (no_ttl r') = present (no_ttl r)); by rewrite En).
  assert (ttl_of (sync_ttl r') = ttl_of r') as Hsync by (unfold sync_ttl, ttl_of; by destruct (present r')).
  assert (ttl_of r' = harmonized rs r) as Ht.
  { destruct (present r) eqn:Hp; [| unfold harmonized; rewrite Hp; by eapply Habs].
    destruct (Z.eqb_spec (type_code (rec r)) 46) as [E46 | N46].
    - apply (Hbef i); [by eapply lookup_lt_Some | done | done | done | done |]. intros ?. by apply Hno.
    - unfold harmonized. rewrite Hp. apply Z.eqb_neq in N46. rewrite N46. cbn. eapply Hpass; [done | done |]. unfold in_pass. by rewrite Hp, N46. }
  split; [congruence |]. intros Hp. unfold sync_ttl. rewrite Hpr, Hp. cbn. by rewrite <- Ht.
Qed.

(** ** Property *)

(** C24. [harmonize_rrset_ttls] gives every record the TTL that [harmonized] asks
    for, in number and in text, and changes nothing else: the smallest TTL of
    the records with the same name, type and visibility, and for a signature
    the TTL of the set it covers. A signature over signatures, which DNSSEC
    does not have, is left out. *)
Theorem harmonize_rrset_ttls_correct (rs : list arena_record_t) :
  exists rs', harmonize_rrset_ttls rs = Ret rs' /\ agree_ttl rs rs' /\
    forall i r, rs !! i = Some r -> ~ (type_code (rec r) = 46 /\ type_covered_of (rec r) = 46) ->
      exists r', rs' !! i = Some r' /\ ttl_of r' = harmonized rs r /\ (present r = true -> ttl (rec r') = fmt_u (harmonized rs r)).
Proof. apply harmonize_spec. Qed.

End ZoneTtl.
