(* ===== verification/ZoneRules.v ===== *)
(** * Rules for the records of a zone

    What a zone must satisfy before it is published (dns_zone_parser.c), and
    the canonical form of RDATA that some of the rules compare (dns_wire.c):
    records outside the zone and records that have no wire form are dropped,
    and zones that break the rules of ALIAS, LUA, DNAME, singleton and SOA
    records or the configured limits are refused. *)

From S2P Require Import Prelude CLib Cidr DnsName NameText WireName Compress ZoneAttr TypeName CanonOrder RdataText Record Svcb RrWrite NameWalk ZoneImage ZoneArena.

Module ZoneRules.
Import CLib Cidr DnsName NameText WireName Compress ZoneAttr TypeName CanonOrder RdataText Record Svcb RrWrite NameWalk ZoneImage ZoneArena.

(** ** Operations: canonical RDATA *)

(** [l] octets from [k] in lower case. *)
Definition downcase_octets (p : list Z) (k l : Z) : list Z :=
  take (Z.to_nat k) p ++ map lc (take (Z.to_nat l) (drop (Z.to_nat k) p)) ++ drop (Z.to_nat (k + l)) p.

(** The buffer and the length of the name at [i0], 0 when it is broken; the
    labels before the break are changed all the same. *)
Fixpoint downcase_from (fuel : nat) (p : list Z) (i0 avail i : Z) : outcome (list Z * Z) :=
  match fuel with
  | O => NoFuel
  | S fuel' =>
      if avail <=? i then Ret (p, 0)
      else
        let! l := rd p (i0 + i) in
        if l =? 0 then Ret (p, i + 1)
        else if (63 <? l) || (avail <? i + 1 + l) then Ret (p, 0)
        else downcase_from fuel' (downcase_octets p (i0 + i + 1) l) i0 avail (i + 1 + l)
  end.

(** [downcase_wire_name(p + i0, avail)] *)
Definition downcase_wire_name (p : list Z) (i0 avail : Z) : outcome (list Z * Z) := downcase_from (S (Z.to_nat avail)) p i0 avail 0.

(** [n] character-strings from [off]. *)
Fixpoint skip_strings (n : nat) (rd_ : list Z) (off : Z) : outcome Z :=
  match n with
  | O => Ret off
  | S n' => if len rd_ <=? off then Ret off else let! l := rd rd_ off in skip_strings n' rd_ (off + (1 + l))
  end.

(** One name at [off], when there is one. *)
Definition downcase_at (rd_ : list Z) (off : Z) : outcome (list Z) :=
  if off <? len rd_ then let! '(rd_, _) := downcase_wire_name rd_ off (len rd_ - off) in Ret rd_ else Ret rd_.

(** Two names from [off]. *)
Definition downcase_two (rd_ : list Z) (off : Z) : outcome (list Z) :=
  let! '(rd_, n) := downcase_wire_name rd_ off (len rd_ - off) in
  if 0 <? n then let! '(rd_, _) := downcase_wire_name rd_ (off + n) (len rd_ - off - n) in Ret rd_ else Ret rd_.

Definition dns_canonical_downcase_rdata (type : Z) (rd_ : list Z) : outcome (list Z) :=
  match type with
  | 2 | 3 | 4 | 5 | 7 | 8 | 9 | 12 | 30 | 39 => let! '(rd_, _) := downcase_wire_name rd_ 0 (len rd_) in Ret rd_
  | 6 | 14 | 17 => downcase_two rd_ 0
  | 15 | 18 | 21 | 36 => downcase_at rd_ 2
  | 26 => if 2 <? len rd_ then downcase_two rd_ 2 else Ret rd_
  | 33 => downcase_at rd_ 6
  | 24 | 46 => downcase_at rd_ 18
  | 35 => let! off := skip_strings 3 rd_ 4 in downcase_at rd_ off
  | 38 =>
      if 0 <? len rd_ then
        let! p := rd rd_ 0 in
        if (0 <? p) && (p <=? 128) then downcase_at rd_ (1 + (128 - p + 7) / 8) else Ret rd_
      else Ret rd_
  | _ => Ret rd_
  end.

Section Rules.
Context `{InetPton, EvpBase64}.
Variable loc_rdata : list (list Z) -> option (list Z).

(** The RDATA as [serialize_dns_record] writes it behind a root owner in a
    buffer of [cap] octets. *)
Definition uncompressed_rdata (buf : list Z) (cap : Z) (r : dns_record_t) : outcome (list Z) :=
  let! '(buf, l, _) := serialize_dns_record loc_rdata cap buf 0 r None (Some [DOT]) 4294967295 in
  let! first := rd buf 0 in
  fail_if (l <? 11) || negb (first =? 0) ;;
  let! rdlen := rd16 buf 9 in
  fail_if negb (11 + rdlen =? l) ;;
  slice buf 11 rdlen.

(** [cap] is 65535 in all calls, and the buffer is new. *)
Definition dns_record_canonical_rdata (r : dns_record_t) : outcome (list Z) :=
  let! rd_ := uncompressed_rdata (replicate (Z.to_nat 65535) 0) 65535 r in
  dns_canonical_downcase_rdata (type_code r) rd_.

(** ** Operations: records that are dropped *)

Definition zone_arena_drop_out_of_zone (apex : list Z) (rs : list arena_record_t) : list arena_record_t :=
  List.filter (fun r => negb (present r && negb (domain_name_is_at_or_below (name_of r) apex))) rs.

Fixpoint zone_arena_drop_unencodable (rs : list arena_record_t) : outcome (list arena_record_t) :=
  match rs with
  | [] => Ret []
  | r :: rs' =>
      let! kept := zone_arena_drop_unencodable rs' in
      orelse (dns_record_canonical_rdata (rec r)) kept (fun _ => Ret (r :: kept))
  end.

(** ** Operations: singleton records *)

(** Two records are the same when both have the same canonical RDATA. *)
Definition same_rdata (a b : dns_record_t) : outcome bool :=
  let! ra := orelse (dns_record_canonical_rdata a) None (fun d => Ret (Some d)) in
  let! rb := orelse (dns_record_canonical_rdata b) None (fun d => Ret (Some d)) in
  Ret (match ra, rb with Some x, Some y => bool_decide (x = y) | _, _ => false end).

Fixpoint singleton_chain (rs : list arena_record_t) (i : Z) (a : arena_record_t) (chain : list Z) : outcome unit :=
  match chain with
  | [] => Ret tt
  | j :: chain' =>
      let! b := record_at rs j in
      if (j <=? i) || negb (type_code (rec b) =? 261) || negb (present b) || negb (class_val (rec b) =? class_val (rec a)) ||
         negb (domain_names_match_ci (name_of a) (name_of b)) then singleton_chain rs i a chain'
      else
        let! same := same_rdata (rec a) (rec b) in
        fail_if negb same ;; singleton_chain rs i a chain'
  end.

Fixpoint singletons_from (all : list arena_record_t) (t : gmap Z (list Z)) (size i : Z) (rs : list arena_record_t) : outcome unit :=
  match rs with
  | [] => Ret tt
  | a :: rs' =>
      let! _ :=
        if negb (type_code (rec a) =? 261) || negb (present a) then Ret tt
        else singleton_chain all i a (chain_of t size (name_of a)) in
      singletons_from all t size (i + 1) rs'
  end.

Definition validate_zone_singletons (rs : list arena_record_t) : outcome unit :=
  let size := next_pow2 (len rs * 2) in
  singletons_from rs (hash_chains size 0 rs) size 0 rs.

End Rules.

(** ** Operations: ALIAS and LUA records *)

Fixpoint alias_rdata_from (fuel : nat) (rd_ : list Z) (p : Z) : outcome bool :=
  match fuel with
  | O => NoFuel
  | S fuel' =>
      if len rd_ <=? p then Ret false
      else
        let! l := rd rd_ p in
        let p := p + 1 in
        if l =? 0 then Ret (p =? len rd_)
        else if (63 <? l) || (len rd_ - p <? l) then Ret false
        else alias_rdata_from fuel' rd_ (p + l)
  end.

Definition pdns_alias_rdata_ok (rd_ : list Z) : outcome bool := alias_rdata_from (S (length rd_)) rd_ 0.

Fixpoint lua_strings_from (fuel : nat) (rd_ : list Z) (p : Z) : outcome bool :=
  match fuel with
  | O => NoFuel
  | S fuel' =>
      if len rd_ <=? p then Ret true
      else
        let! l := rd rd_ p in
        let p := p + 1 in
        if len rd_ - p <? l then Ret false else lua_strings_from fuel' rd_ (p + l)
  end.

Definition pdns_lua_rdata_ok (rd_ : list Z) : outcome bool := if len rd_ <? 3 then Ret false else lua_strings_from (S (length rd_)) rd_ 2.

Definition class_in (r : dns_record_t) : bool := (class_val r =? 1) || (class_val r =? 0).

Definition is_alias (r : dns_record_t) : bool := (type_code r =? DNS_TYPE_PDNS_ALIAS) && class_in r.

Definition is_dnssec_type (t : Z) : bool := (t =? 46) || (t =? 47) || (t =? 48) || (t =? 50) || (t =? 51).

(** The generic RDATA of the record, as its length says. *)
Definition generic_rdata (r : dns_record_t) : outcome (option (list Z)) :=
  match generic_data r with
  | None => Ret None
  | Some d => let! d := slice d 0 (generic_len r) in Ret (Some d)
  end.

(** The loop over the records: the number of ALIAS records, and whether the
    zone has DNSSEC records; [Fail] for malformed RDATA. *)
Fixpoint pdns_scan (rs : list arena_record_t) (n_alias : Z) (dnssec : bool) : outcome (Z * bool) :=
  match rs with
  | [] => Ret (n_alias, dnssec)
  | r :: rs' =>
      let x := rec r in
      if negb (class_in x) then pdns_scan rs' n_alias dnssec
      else if (type_code x =? DNS_TYPE_PDNS_ALIAS) || (type_code x =? DNS_TYPE_PDNS_LUA) then
        let alias := type_code x =? DNS_TYPE_PDNS_ALIAS in
        let! d := generic_rdata x in
        let! ok := match d with None => Ret false | Some d => if alias then pdns_alias_rdata_ok d else pdns_lua_rdata_ok d end in
        fail_if negb ok ;;
        pdns_scan rs' (if alias then n_alias + 1 else n_alias) dnssec
      else pdns_scan rs' n_alias (dnssec || is_dnssec_type (type_code x))
  end.

(** A set of names with open addressing: the slot of the name or the first
    free one. *)
Fixpoint set_slot (fuel : nat) (set : list (option (list Z))) (mask h : Z) (name : list Z) : outcome Z :=
  match fuel with
  | O => NoFuel
  | S fuel' =>
      let! v := at_ix set h in
      match v with
      | None => Ret h
      | Some n => if domain_names_match_ci n name then Ret h else set_slot fuel' set mask (Z.land (h + 1) mask) name
      end
  end.

Definition set_find (set : list (option (list Z))) (name : list Z) : outcome Z :=
  set_slot (length set) set (len set - 1) (Z.land (dns_name_hash_ci name) (len set - 1)) name.

Fixpoint alias_owners (rs : list arena_record_t) (set : list (option (list Z))) : outcome (list (option (list Z))) :=
  match rs with
  | [] => Ret set
  | r :: rs' =>
      if negb (is_alias (rec r)) || negb (present r) then alias_owners rs' set
      else let! h := set_find set (name_of r) in alias_owners rs' (<[Z.to_nat h := Some (name_of r)]> set)
  end.

(** No address record at a name of the set. *)
Fixpoint alias_conflicts (rs : list arena_record_t) (set : list (option (list Z))) : outcome unit :=
  match rs with
  | [] => Ret tt
  | r :: rs' =>
      let x := rec r in
      if (negb (type_code x =? 1) && negb (type_code x =? 28)) || negb (class_in x) || negb (present r) then alias_conflicts rs' set
      else
        let! h := set_find set (name_of r) in
        let! v := at_ix set h in
        fail_if bool_decide (is_Some v) ;; alias_conflicts rs' set
  end.

Definition alias_set_size (n_alias : Z) : Z := next_pow2_from 64 16 (n_alias * 2).

Definition validate_zone_pdns_types `{InetPton, EvpBase64} (loc_rdata : list (list Z) -> option (list Z)) (rs : list arena_record_t) : outcome unit :=
  match rs with
  | [] => Ret tt
  | _ =>
      let! _ := validate_zone_singletons loc_rdata rs in
      let! '(n_alias, dnssec) := pdns_scan rs 0 false in
      if n_alias =? 0 then Ret tt
      else
        fail_if dnssec ;;
        let! set := alias_owners rs (replicate (Z.to_nat (alias_set_size n_alias)) None) in
        alias_conflicts rs set
  end.

(** ** Operations: DNAME, SOA and limits *)

(** A DNAME record at the name, in its chain. *)
Fixpoint dname_in_chain (rs : list arena_record_t) (n : list Z) (chain : list Z) : outcome bool :=
  match chain with
  | [] => Ret false
  | j :: chain' =>
      let! r := record_at rs j in
      if (type_code (rec r) =? 39) && strcaseeq (name_of r) n then Ret true else dname_in_chain rs n chain'
  end.

Fixpoint dname_above (fuel : nat) (rs : list arena_record_t) (t : gmap Z (list Z)) (size : Z) (parent : list Z) : outcome bool :=
  match fuel with
  | O => NoFuel
  | S fuel' =>
      match strchr_unescaped parent DOT with
      | None | Some [] => Ret false
      | Some (_ :: parent) =>
          if bool_decide (parent = []) then Ret false
          else
            let! found := dname_in_chain rs parent (chain_of t size parent) in
            if found then Ret true else dname_above fuel' rs t size parent
      end
  end.

Fixpoint dname_from (all : list arena_record_t) (t : gmap Z (list Z)) (size : Z) (rs : list arena_record_t) : outcome unit :=
  match rs with
  | [] => Ret tt
  | r :: rs' =>
      let! bad := if present r then dname_above (S (length (name_of r))) all t size (name_of r) else Ret false in
      fail_if bad ;; dname_from all t size rs'
  end.

Definition validate_zone_dname (rs : list arena_record_t) : outcome unit :=
  let size := next_pow2 (len rs * 2) in
  dname_from rs (hash_chains size 0 rs) size rs.

Definition dns_record_is_restricted (r : dns_record_t) : bool :=
  negb (fst (tinydns_loc r) =? 0) || negb (snd (tinydns_loc r) =? 0) || negb (tinydns_ttd r =? 0) ||
  bool_decide (is_Some (ecs_subnet_tag r)) || bool_decide (is_Some (bind_location_tag r)).

(** The first SOA record of the zone without a restriction, else the first. *)
Fixpoint reference_soa_from (zone : list Z) (i : Z) (first : option Z) (rs : list arena_record_t) : option Z :=
  match rs with
  | [] => first
  | r :: rs' =>
      let x := rec r in
      if negb (type_code x =? 6) || (len (rdata x) <? 7) || negb (present r) || negb (domain_names_match_ci (name_of r) zone)
      then reference_soa_from zone (i + 1) first rs'
      else if negb (dns_record_is_restricted x) then Some i
      else reference_soa_from zone (i + 1) (match first with None => Some i | Some _ => first end) rs'
  end.

Definition zone_arena_reference_soa (rs : list arena_record_t) (zone : list Z) : option Z := reference_soa_from zone 0 None rs.

Fixpoint soa_set_from (zone : list Z) (rs : list arena_record_t) (nsoa serial : Z) (restricted signed : bool) : outcome (Z * bool * bool) :=
  match rs with
  | [] => Ret (nsoa, restricted, signed)
  | r :: rs' =>
      let x := rec r in
      let t := type_code x in
      let signed := signed || (t =? 46) || (t =? 48) || (t =? 47) || (t =? 50) in
      if negb (t =? 6) || negb (present r) || negb (domain_names_match_ci (name_of r) zone) || (len (rdata x) <? 3)
      then soa_set_from zone rs' nsoa serial restricted signed
      else
        let! f2 := fld (rdata x) 2 in
        let s := strtoul32 f2 in
        fail_if negb (nsoa =? 0) && negb (s =? serial) ;;
        soa_set_from zone rs' (nsoa + 1) (if nsoa =? 0 then s else serial) (restricted || dns_record_is_restricted x) signed
  end.

Definition zone_arena_check_soa_set (rs : list arena_record_t) (zone : list Z) : outcome unit :=
  let! '(nsoa, restricted, signed) := soa_set_from zone rs 0 0 false false in
  fail_if (restricted || (1 <? nsoa)) && signed ;; Ret tt.

Record zone_limits_t := ZoneLimits { max_records : Z; max_per_type : Z; max_types_per_name : Z; max_zone_ttl : Z }.

(** The types of the records of one name; [None] when it was grouped before. *)
Fixpoint types_of_name (rs : list arena_record_t) (i : Z) (n : list Z) (chain : list Z) : outcome (option (list Z)) :=
  match chain with
  | [] => Ret (Some [])
  | j :: chain' =>
      let! o := record_at rs j in
      if negb (present o) || negb (domain_names_match_ci (name_of o) n) then types_of_name rs i n chain'
      else if j <? i then Ret None
      else let! rest := types_of_name rs i n chain' in Ret (match rest with None => None | Some l => Some (type_code (rec o) :: l) end)
  end.

Definition zl_cmp_u16 (x y : Z) : Z := if x <? y then -1 else if y <? x then 1 else 0.

(** Lengths of the runs of equal elements. *)
Fixpoint run_lengths (l : list Z) : list Z :=
  match l with
  | [] => []
  | x :: l' =>
      let runs := run_lengths l' in
      match l', runs with
      | y :: _, n :: ns => if x =? y then (n + 1) :: ns else 1 :: n :: ns
      | _, _ => [1]
      end
  end.

Fixpoint limits_from `{Qsort} (lim : zone_limits_t) (all : list arena_record_t) (t : gmap Z (list Z)) (size i : Z) (rs : list arena_record_t) : outcome unit :=
  match rs with
  | [] => Ret tt
  | r :: rs' =>
      let! types := if present r then types_of_name all i (name_of r) (chain_of t size (name_of r)) else Ret None in
      let! _ :=
        match types with
        | None => Ret tt
        | Some types =>
            let! types := qsort (fun x y => Ret (zl_cmp_u16 x y)) types in
            let runs := run_lengths types in
            fail_if negb (max_per_type lim =? 0) && existsb (fun n => max_per_type lim <? n) runs ;;
            fail_if negb (max_types_per_name lim =? 0) && (max_types_per_name lim <? len runs) ;;
            Ret tt
        end in
      limits_from lim all t size (i + 1) rs'
  end.

Definition zone_arena_check_limits `{Qsort} (rs : list arena_record_t) (lim : zone_limits_t) : outcome unit :=
  fail_if negb (max_records lim =? 0) && (max_records lim <? len rs) ;;
  fail_if negb (max_zone_ttl lim =? 0) && existsb (fun r => max_zone_ttl lim <? ttl_value (rec r)) rs ;;
  if (max_per_type lim =? 0) && (max_types_per_name lim =? 0) then Ret tt
  else
    let size := next_pow2 (len rs * 2) in
    limits_from lim rs (hash_chains size 0 rs) size 0 rs.

End ZoneRules.
