(* ===== verification/ZoneFreeze.v ===== *)
(** * Freezing a zone

    [zone_image_freeze] (dns_zone_image.c): the image of a builder that
    [build_zone_index] has indexed. The steps have the numbers of the comments
    in the source. *)

From S2P Require Import Prelude CLib Cidr DnsName NameText WireName Compress ZoneAttr TypeName CanonOrder RdataText Record Svcb RrWrite NameWalk ZoneImage ZoneArena ZoneRules.

Module ZoneFreeze.
Import CLib Cidr DnsName NameText WireName Compress ZoneAttr TypeName CanonOrder RdataText Record Svcb RrWrite NameWalk ZoneImage ZoneArena ZoneRules.

(** ** Data *)

Record tmp_name_t := TmpName { tn_text : list Z; tn_hash : Z; tn_count : Z; tn_first_rec : Z; tn_cursor : Z }.

(** The table holds the number of a name plus one, 0 in a free slot. *)
Record tmp_index_t := TmpIndex { ix_tab : list Z; ix_names : list tmp_name_t }.

Definition IMG_MAX_RDLEN : Z := 65524.
Definition IMG_MAX_PRELINK_TARGETS : Z := 256.
Definition IMG_MAX_SIZE : Z := 4294963200.

(** ** Operations: 1. owners *)

Definition tmp_entry (names : list tmp_name_t) (id : Z) : outcome (Z * list Z) :=
  let! tn := at_ix names id in Ret (tn_hash tn, tn_text tn).

Definition tmp_find (ix : tmp_index_t) (name : list Z) (hash : Z) : outcome (option Z) :=
  let mask := len (ix_tab ix) - 1 in
  find_slot (length (ix_tab ix)) (tmp_entry (ix_names ix)) (ix_tab ix) mask hash name (Z.land hash mask).

(** A name that is not in the index: its number is the next one. *)
Definition tmp_add (ix : tmp_index_t) (name : list Z) (hash i : Z) : outcome (tmp_index_t * Z) :=
  let id := len (ix_names ix) in
  let mask := len (ix_tab ix) - 1 in
  let! tab := fill_slot (length (ix_tab ix)) (ix_tab ix) mask (Z.land hash mask) (id + 1) in
  Ret (TmpIndex tab (ix_names ix ++ [TmpName name hash 0 i 0]), id).

Definition set_count (c : Z) (tn : tmp_name_t) : tmp_name_t := TmpName (tn_text tn) (tn_hash tn) c (tn_first_rec tn) (tn_cursor tn).
Definition set_cursor (c : Z) (tn : tmp_name_t) : tmp_name_t := TmpName (tn_text tn) (tn_hash tn) (tn_count tn) (tn_first_rec tn) c.

(** [rec_name[i]] for every record. *)
Fixpoint owners (i : Z) (rs : list arena_record_t) (ix : tmp_index_t) : outcome (tmp_index_t * list (option Z)) :=
  match rs with
  | [] => Ret (ix, [])
  | r :: rs' =>
      if negb (present r) then let! '(ix, ids) := owners (i + 1) rs' ix in Ret (ix, None :: ids)
      else
        let h := dns_name_hash_ci (name_of r) in
        let! found := tmp_find ix (name_of r) h in
        let! '(ix, id) := match found with Some id => Ret (ix, id) | None => tmp_add ix (name_of r) h i end in
        let! tn := at_ix (ix_names ix) id in
        let names := <[Z.to_nat id := set_count (tn_count tn + 1) tn]> (ix_names ix) in
        let! '(ix, ids) := owners (i + 1) rs' (TmpIndex (ix_tab ix) names) in
        Ret (ix, Some id :: ids)
  end.

(** The table of step 1 has two slots for every record and one more. *)
Definition tmp_table (n : Z) : list Z := replicate (Z.to_nat (next_pow2_from 64 8 (n * 2 + 2))) 0.

(** ** Operations: 2. places *)

(** The first record of each name: the names in order, one after the other. *)
Fixpoint cursors (run : Z) (names : list tmp_name_t) : outcome (list tmp_name_t) :=
  match names with
  | [] => Ret []
  | tn :: names' =>
      fail_if ZONE_IMAGE_NAME_COUNT_MASK <? tn_count tn ;;
      let! rest := cursors (run + tn_count tn) names' in
      Ret (set_cursor run tn :: rest)
  end.

(** [rec_rr[i]] for every record, and [rr_rec[]]. *)
Fixpoint places (i : Z) (ids : list (option Z)) (names : list tmp_name_t) (rr_rec : list Z) : outcome (list (option Z) * list Z) :=
  match ids with
  | [] => Ret ([], rr_rec)
  | None :: ids' => let! '(rec_rr, rr_rec) := places (i + 1) ids' names rr_rec in Ret (None :: rec_rr, rr_rec)
  | Some id :: ids' =>
      let! tn := at_ix names id in
      let idx := tn_cursor tn in
      let! rr_rec := wr rr_rec idx i in
      let! '(rec_rr, rr_rec) := places (i + 1) ids' (<[Z.to_nat id := set_cursor (idx + 1) tn]> names) rr_rec in
      Ret (Some idx :: rec_rr, rr_rec)
  end.

(** The file order, when it is not the order of the image. *)
Definition file_order (rec_rr : list (option Z)) : option (list Z) :=
  let seq := omap id rec_rr in
  if bool_decide (seq = seqZ 0 (len seq)) then None else Some seq.

(** ** Operations: 3. and 4. names and records *)

Definition rec_owner_wire (r : dns_record_t) : outcome (option (list Z)) :=
  match name_wire r with
  | Some w => Ret (Some w)
  | None => wire_of (name r)
  end.

Definition image_name (rs : list arena_record_t) (tn : tmp_name_t) : outcome zone_image_name_t :=
  let! r := record_at rs (tn_first_rec tn) in
  let! w := rec_owner_wire (rec r) in
  Ret (ImageName (tn_hash tn) w (name_of r) (tn_cursor tn) (tn_count tn) None).

Fixpoint image_names (rs : list arena_record_t) (names : list tmp_name_t) : outcome (list zone_image_name_t) :=
  match names with
  | [] => Ret []
  | tn :: names' => let! nm := image_name rs tn in let! rest := image_names rs names' in Ret (nm :: rest)
  end.

(** [rec_class] *)
Definition rec_class (r : dns_record_t) : Z := wire_class r.

(** [rec_ttl] *)
Definition rec_ttl (r : dns_record_t) : outcome Z := wire_ttl r 4294967295.

(** The owner of the record is not spelled like the name in the table. *)
Definition other_spelling (nm : zone_image_name_t) (r : dns_record_t) (rw : option (list Z)) : outcome bool :=
  if negb (streq (name r) (nm_text nm)) then Ret true
  else
    match nm_wire nm, rw with
    | None, None => Ret false
    | Some ew, Some rw => orelse (wire_name_len ew 256) true (fun wl => Ret (negb (wl =? len rw) || negb (bool_decide (take (Z.to_nat wl) ew = rw))))
    | _, _ => Ret true
    end.

Definition rec_restricted (r : dns_record_t) : bool :=
  negb (tinydns_ttd r =? 0) || tinydns_ttl_countdown r || negb (fst (tinydns_loc r) =? 0) || negb (snd (tinydns_loc r) =? 0) ||
  bool_decide (is_Some (ecs_subnet_tag r)) || bool_decide (is_Some (bind_location_tag r)).

Section Freeze.
Context `{InetPton, EvpBase64}.
Variable loc_rdata : list (list Z) -> option (list Z).

(** The record and its extras; [n_ext] extras come before it. *)
Definition image_rr (names : list zone_image_name_t) (n_ext id : Z) (r : dns_record_t) : outcome (zone_image_rr_t * option zone_image_ext_t) :=
  let! rd_ := uncompressed_rdata loc_rdata (replicate (Z.to_nat 65535) 0) 65535 r in
  fail_if IMG_MAX_RDLEN <? len rd_ ;;
  let! t := rec_ttl r in
  let raw := bool_decide (is_Some (generic_data r)) || (class_val r =? DNS_CLASS_KARIDNS_EXT) in
  let flags :=
    Z.lor (if raw then ZONE_IMAGE_RR_RAW else 0) (if bool_decide (is_Some (name_wire r)) then 0 else ZONE_IMAGE_RR_NO_NAMEWIRE) in
  let! rw := rec_owner_wire r in
  let! nm := at_ix names id in
  let! alt := other_spelling nm r rw in
  if alt || rec_restricted r then
    Ret (ImageRr id t rd_ (n_ext + 1) (type_code r) (rec_class r) flags,
         Some (ImageExt (tinydns_ttd r) (ecs_subnet_tag r) (bind_location_tag r) (if alt then Some (name r) else None)
                 (if alt then rw else None) (tinydns_loc r) (if tinydns_ttl_countdown r then ZONE_IMAGE_EXT_COUNTDOWN else 0)))
  else Ret (ImageRr id t rd_ 0 (type_code r) (rec_class r) flags, None).

(** The records in the order of the image; [ids] are the names of the records
    of the builder. *)
Fixpoint image_rrs (rs : list arena_record_t) (ids : list (option Z)) (names : list zone_image_name_t) (n_ext : Z) (rr_rec : list Z) :
    outcome (list zone_image_rr_t * list zone_image_ext_t) :=
  match rr_rec with
  | [] => Ret ([], [])
  | i :: rr_rec' =>
      let! r := record_at rs i in
      let! id := at_ix ids i in
      match id with
      | None => Oob
      | Some id =>
          let! '(rr, ext) := image_rr names n_ext id (rec r) in
          let! '(rrs, exts) := image_rrs rs ids names (match ext with None => n_ext | Some _ => n_ext + 1 end) rr_rec' in
          Ret (rr :: rrs, match ext with None => exts | Some e => e :: exts end)
      end
  end.

(** ** Operations: 5. flags *)

Definition or_flags (f : Z) (nm : zone_image_name_t) : zone_image_name_t :=
  ImageName (nm_hash nm) (nm_wire nm) (nm_text nm) (nm_first_rr nm) (Z.lor (nm_rr_count_flags nm) f) (nm_canon_rank nm).

Definition set_rank (i : Z) (nm : zone_image_name_t) : zone_image_name_t :=
  ImageName (nm_hash nm) (nm_wire nm) (nm_text nm) (nm_first_rr nm) (nm_rr_count_flags nm) (Some i).

Definition clear_flags (f : Z) (nm : zone_image_name_t) : zone_image_name_t :=
  ImageName (nm_hash nm) (nm_wire nm) (nm_text nm) (nm_first_rr nm) (Z.land (nm_rr_count_flags nm) (Z.lnot f)) (nm_canon_rank nm).

(** The flag of its name that a record sets. *)
Definition rr_name_flag (apex_id : option Z) (rr : zone_image_rr_t) : Z :=
  if (rr_type rr =? 2) && negb (bool_decide (apex_id = Some (rr_name_id rr))) then ZONE_IMAGE_NAME_CUT
  else if rr_type rr =? 39 then ZONE_IMAGE_NAME_DNAME
  else if rr_type rr =? 47 then ZONE_IMAGE_NAME_NSEC
  else if (rr_type rr =? DNS_TYPE_PDNS_ALIAS) && (rr_class rr =? 1) then ZONE_IMAGE_NAME_ALIAS
  else 0.

Fixpoint flag_names (apex_id : option Z) (rrs : list zone_image_rr_t) (names : list zone_image_name_t) : list zone_image_name_t :=
  match rrs with
  | [] => names
  | rr :: rrs' => flag_names apex_id rrs' (alter (or_flags (rr_name_flag apex_id rr)) (Z.to_nat (rr_name_id rr)) names)
  end.

(** [t[0] == '*' && t[1] == '.'] *)
Definition is_wildcard (t : list Z) : bool := match t with 42 :: 46 :: _ => true | _ => false end.

Definition flag_name (apex_id : option Z) (id : Z) (nm : zone_image_name_t) : zone_image_name_t :=
  let nm := if is_wildcard (nm_text nm) then or_flags ZONE_IMAGE_NAME_WILDCARD nm else nm in
  if bool_decide (apex_id = Some id) then clear_flags ZONE_IMAGE_NAME_CUT (or_flags ZONE_IMAGE_NAME_APEX nm) else nm.

(** ** Operations: 6. to 8. indexes *)

(** [canon[]], and the rank of each name. *)
Fixpoint canon_order (ix : tmp_index_t) (i : Z) (sorted : list (list Z)) (names : list zone_image_name_t) :
    outcome (list Z * list zone_image_name_t) :=
  match sorted with
  | [] => Ret ([], names)
  | t :: sorted' =>
      let! id := tmp_find ix t (dns_name_hash_ci t) in
      match id with
      | None => Fail
      | Some id =>
          let! '(canon, names) := canon_order ix (i + 1) sorted' (alter (set_rank i) (Z.to_nat id) names) in
          Ret (id :: canon, names)
      end
  end.

(** The place of a record of the builder; [Fail] when it has none. *)
Definition rr_of_record (rec_rr : list (option Z)) (i : Z) : outcome Z :=
  fail_if (i <? 0) || (len rec_rr <=? i) ;;
  let! rr := at_ix rec_rr i in
  match rr with None => Fail | Some rr => Ret rr end.

Fixpoint rrs_of_records (rec_rr : list (option Z)) (l : list Z) : outcome (list Z) :=
  match l with
  | [] => Ret []
  | i :: l' => let! rr := rr_of_record rec_rr i in let! rest := rrs_of_records rec_rr l' in Ret (rr :: rest)
  end.

(** A chain whose entries start at [first]: the salt is that of its first record. *)
Definition image_chain (rec_rr : list (option Z)) (rrs : list zone_image_rr_t) (first : Z) (ch : nsec3_chain_t) :
    outcome (zone_image_n3chain_t * list Z) :=
  match c_entries ch with
  | [] => Fail
  | e :: _ =>
      let! k := rr_of_record rec_rr (e_rec e) in
      let! r0 := at_ix rrs k in
      let rd0 := rr_rdata r0 in
      fail_if len rd0 <? 5 ;;
      let! sl := rd rd0 4 in
      fail_if len rd0 <? sl + 5 ;;
      let! salt := slice rd0 5 sl in
      let! entries := rrs_of_records rec_rr (map e_rec (c_entries ch)) in
      Ret (ImageChain first (len (c_entries ch)) salt (c_iterations ch) (c_algorithm ch), entries)
  end.

Fixpoint image_chains (rec_rr : list (option Z)) (rrs : list zone_image_rr_t) (first : Z) (chains : list nsec3_chain_t) :
    outcome (list zone_image_n3chain_t * list Z) :=
  match chains with
  | [] => Ret ([], [])
  | ch :: chains' =>
      let! '(c, entries) := image_chain rec_rr rrs first ch in
      let! '(cs, rest) := image_chains rec_rr rrs (first + len entries) chains' in
      Ret (c :: cs, entries ++ rest)
  end.

(** ** Operations: 9. glue *)

(** The target of an NS, MX or SRV record. *)
Definition glue_target (r : arena_record_t) : option (list Z) :=
  let x := rec r in
  let t :=
    if (type_code x =? 2) && (1 <=? len (rdata x)) then rdata x !! 0%nat
    else if (type_code x =? 15) && (2 <=? len (rdata x)) then rdata x !! 1%nat
    else if (type_code x =? 33) && (4 <=? len (rdata x)) then rdata x !! 3%nat
    else None in
  if negb (present r) then None else match t with Some [] => None | _ => t end.

Fixpoint has_address (n : nat) (rrs : list zone_image_rr_t) (k : Z) : outcome bool :=
  match n with
  | O => Ret false
  | S n' => let! rr := at_ix rrs k in if (rr_type rr =? 1) || (rr_type rr =? 28) then Ret true else has_address n' rrs (k + 1)
  end.

(** The glue targets, and the names with their flag; [seen] are the targets
    met before. *)
Fixpoint glue_targets (ix : tmp_index_t) (rrs : list zone_image_rr_t) (rs : list arena_record_t) (prelink : list (list Z)) (seen : list Z)
    (names : list zone_image_name_t) : outcome (list Z * list zone_image_name_t) :=
  match rs with
  | [] => Ret ([], names)
  | r :: rs' =>
      match glue_target r with
      | None => glue_targets ix rrs rs' prelink seen names
      | Some tgt =>
          let in_prelink := negb (existsb (fun t => domain_names_match_ci t tgt) prelink) && (len prelink <? IMG_MAX_PRELINK_TARGETS) in
          let prelink := if in_prelink then prelink ++ [tgt] else prelink in
          let! id := tmp_find ix tgt (dns_name_hash_ci tgt) in
          match id with
          | None => glue_targets ix rrs rs' prelink seen names
          | Some id =>
              let! nm := at_ix names id in
              let! addr := has_address (Z.to_nat (name_rr_count nm)) rrs (nm_first_rr nm) in
              let names := if addr && in_prelink then alter (or_flags ZONE_IMAGE_NAME_GLUE) (Z.to_nat id) names else names in
              if bool_decide (id ∈ seen) then glue_targets ix rrs rs' prelink seen names
              else
                let! '(glue, names) := glue_targets ix rrs rs' prelink (id :: seen) names in
                Ret (if addr then id :: glue else glue, names)
          end
      end
  end.

(** ** Operations: 10. the hash table *)

Fixpoint hash_size_from (fuel : nat) (s n : Z) : Z :=
  match fuel with
  | O => s
  | S fuel' => if s * 3 <? n * 4 then hash_size_from fuel' (Z.shiftl s 1) n else s
  end.

Fixpoint fill_names (id : Z) (names : list zone_image_name_t) (tab : list Z) : outcome (list Z) :=
  match names with
  | [] => Ret tab
  | nm :: names' =>
      let mask := len tab - 1 in
      let! tab := fill_slot (length tab) tab mask (Z.land (nm_hash nm) mask) (id + 1) in
      fill_names (id + 1) names' tab
  end.

(** ** Operations: 12. the image *)

Definition round8 (v : Z) : Z := Z.land (v + 7) (Z.lnot 7).

Definition str_size (s : option (list Z)) : Z := match s with None => 0 | Some t => len t + 1 end.
Definition octets_size (s : option (list Z)) : Z := match s with None => 0 | Some d => len d end.
Definition zsum (l : list Z) : Z := foldr Z.add 0 l.

(** The length of the area of strings. *)
Definition strings_size (img : zone_image_t) : Z :=
  8 + zsum (map (fun nm => len (nm_text nm) + 1 + octets_size (nm_wire nm)) (im_names img)) + zsum (map (fun rr => len (rr_rdata rr)) (im_rrs img)) +
  zsum (map (fun e => str_size (ext_ecs_tag e) + str_size (ext_loc_tag e) + str_size (ext_alt_text e) + octets_size (ext_alt_wire e)) (im_exts img)) +
  zsum (map (fun c => len (ch_salt c)) (im_n3chains img)) + len (im_n3_salt img).

(** [off] at the end of the layout; the header has 128 octets. *)
Definition image_size (img : zone_image_t) : Z :=
  let add off n := round8 (off + n) in
  let off := add 128 (len (im_names img) * 24) in
  let off := add off (len (im_rrs img) * 24) in
  let off := add off (len (im_exts img) * 32) in
  let off := add off (len (im_n3chains img) * 16) in
  let off := add off (len (im_hash img) * 4) in
  let off := add off (len (im_canon img) * 4) in
  let off := add off (len (im_nsec img) * 4) in
  let off := add off (len (im_n3entries img) * 4) in
  let off := add off (len (im_glue img) * 4) in
  let off := add off (match im_perm img with None => 0 | Some p => len p * 4 end) in
  let off := add off (len (im_zattr img)) in
  add off (strings_size img).

Definition flag_if (b : bool) (f : Z) : Z := if b then f else 0.

Definition with_flags (img : zone_image_t) (flags : Z) : zone_image_t :=
  Image flags (im_names img) (im_rrs img) (im_exts img) (im_hash img) (im_canon img) (im_nsec img) (im_n3chains img) (im_n3entries img)
    (im_glue img) (im_perm img) (im_zattr img) (im_apex_name img) (im_n3_param_rr img) (im_n3_chain img) (im_n3_salt img)
    (im_n3_iterations img) (im_n3_algorithm img).

Definition any_flag (apex_id : option Z) (f : Z) (rrs : list zone_image_rr_t) : bool := existsb (fun rr => rr_name_flag apex_id rr =? f) rrs.

(** The parameters of the denial proofs: the record, the chain and the rest. *)
Definition image_params (rec_rr : list (option Z)) (a : zone_arena_t) : outcome (option Z * option Z * list Z * Z * Z) :=
  match nsec3_active a with
  | None => Ret (None, None, [], 0, 0)
  | Some p =>
      let! rr := rr_of_record rec_rr (p_param p) in
      fail_if match p_chain p with Some c => (c <? 0) || (len (nsec3_chains a) <=? c) | None => false end ;;
      Ret (Some rr, p_chain p, p_salt p, p_iterations p, p_algorithm p)
  end.

Definition zone_image_freeze (a : zone_arena_t) (apex : list Z) : outcome zone_image_t :=
  let rs := records a in
  fail_if 2147483647 <=? len rs ;;
  let! _ := validate_zone_pdns_types loc_rdata rs in
  let! '(ix, ids) := owners 0 rs (TmpIndex (tmp_table (len rs)) []) in
  let! tmp := cursors 0 (ix_names ix) in
  let n_rrs := len (omap id ids) in
  let! '(rec_rr, rr_rec) := places 0 ids tmp (replicate (Z.to_nat n_rrs) 0) in
  let! names := image_names rs tmp in
  let! apex_id := tmp_find ix apex (dns_name_hash_ci apex) in
  let! '(rrs, exts) := image_rrs rs ids names 0 rr_rec in
  let names := imap (fun i nm => flag_name apex_id (Z.of_nat i) nm) (flag_names apex_id rrs names) in
  fail_if (len (sorted_unique_names a) =? 0) && (0 <? len names) ;;
  let! '(canon, names) := canon_order ix 0 (sorted_unique_names a) names in
  let! nsec := rrs_of_records rec_rr (nsec_records a) in
  let! '(chains, entries) := image_chains rec_rr rrs 0 (nsec3_chains a) in
  let! '(n3_param_rr, n3_chain, n3_salt, n3_iterations, n3_algorithm) := image_params rec_rr a in
  let! '(glue, names) := glue_targets ix rrs rs [] [] names in
  let! tab := fill_names 0 names (replicate (Z.to_nat (hash_size_from 64 4 (len names))) 0) in
  let perm := file_order rec_rr in
  let flags :=
    foldr Z.lor 0 [flag_if (is_tinydns_format a) ZONE_IMAGE_F_TINYDNS; flag_if (negb (len exts =? 0)) ZONE_IMAGE_F_EXT;
      flag_if (existsb (fun r => present r && rec_restricted (rec r)) rs) ZONE_IMAGE_F_VIEW;
      flag_if (existsb (fun nm => is_wildcard (nm_text nm)) names) ZONE_IMAGE_F_WILDCARD;
      flag_if (any_flag apex_id ZONE_IMAGE_NAME_DNAME rrs) ZONE_IMAGE_F_DNAME; flag_if (any_flag apex_id ZONE_IMAGE_NAME_ALIAS rrs) ZONE_IMAGE_F_ALIAS;
      flag_if (any_flag apex_id ZONE_IMAGE_NAME_CUT rrs) ZONE_IMAGE_F_CUT; flag_if (bool_decide (is_Some perm)) ZONE_IMAGE_F_PERM] in
  let img :=
    Image flags names rrs exts tab canon nsec chains entries glue perm (build_zattr (tables a)) apex_id n3_param_rr n3_chain n3_salt
      n3_iterations n3_algorithm in
  fail_if IMG_MAX_SIZE <? image_size img ;;
  let! restricted := image_soa_restricted img in
  Ret (if restricted then with_flags img (Z.lor flags ZONE_IMAGE_F_SOA_ATTR) else img).

End Freeze.

End ZoneFreeze.
