(* ===== verification/ZoneIndex.v ===== *)
(** * The indexes of a zone builder

    What [build_zone_index] leaves in the builder: the names of the records
    sorted in canonical order without duplicates, the NSEC records sorted by
    owner, and the NSEC3 records in chains sorted by hash; stated as the
    interface [arena_ok] that freezing a zone relies on. *)

From S2P Require Import Prelude CLib Cidr DnsName NameText WireName Compress ZoneAttr TypeName CanonOrder RdataText Record Svcb RrWrite NameWalk ZoneImage ZoneLookup Denial ZoneArena ZoneTtl.

Module ZoneIndex.
Import CLib Cidr DnsName NameText WireName Compress ZoneAttr TypeName CanonOrder RdataText Record Svcb RrWrite NameWalk ZoneImage ZoneLookup Denial ZoneArena ZoneTtl.

(** ** An instance of [qsort] *)

Fixpoint insert_sorted {A} (cmp : A -> A -> outcome Z) (x : A) (l : list A) : outcome (list A) :=
  match l with
  | [] => Ret [x]
  | y :: l' =>
      let! c := cmp x y in
      if c <=? 0 then Ret (x :: l) else let! r := insert_sorted cmp x l' in Ret (y :: r)
  end.

Fixpoint insertion_sort {A} (cmp : A -> A -> outcome Z) (l : list A) : outcome (list A) :=
  match l with
  | [] => Ret []
  | x :: l' => let! r := insertion_sort cmp l' in insert_sorted cmp x r
  end.

Section Insertion.
Context {A : Type} (cmp : A -> A -> outcome Z) (order : A -> A -> comparison) (all : list A).
Context (Hcmp : forall x y, x ∈ all -> y ∈ all -> exists r, cmp x y = Ret r /\ sign_of r (order x y)).
Context (Hswap : forall x y, x ∈ all -> y ∈ all -> order y x = CompOpp (order x y)).
Context (Htrans : forall x y z, x ∈ all -> y ∈ all -> z ∈ all -> order x y <> Gt -> order y z <> Gt -> order x z <> Gt).

Lemma insert_sorted_spec x l : x ∈ all -> (forall y, y ∈ l -> y ∈ all) -> StronglySorted (fun x y => order x y <> Gt) l ->
  exists r, insert_sorted cmp x l = Ret r /\ r ≡ₚ x :: l /\ StronglySorted (fun x y => order x y <> Gt) r.
Proof.
  intros Hx. induction l as [| y l IH]; intros Hl Hs; cbn [insert_sorted]; [exists [x]; split_and!; [done | done | repeat constructor] |].
  assert (y ∈ all) as Hy by (apply Hl; left). apply StronglySorted_inv in Hs as [Hs Hf]. destruct (Hcmp x y Hx Hy) as (c & -> & Hc). cbn [obind].
  unfold sign_of in Hc. destruct (Z.leb_spec c 0) as [Hle | Hgt].
  - assert (order x y <> Gt) as Hxy by (rewrite <- Hc; done). exists (x :: y :: l). split_and!; [done | done |]. constructor; [by constructor |].
    constructor; [done |]. rewrite Forall_forall in Hf |- *. intros z Hz. apply (Htrans x y z); [done | done | apply Hl; by right | done | by apply Hf].
  - destruct IH as (r & -> & Hp & Hr); [intros; apply Hl; by right | done |]. cbn [obind]. exists (y :: r). split_and!; [done | by rewrite Hp; constructor |].
    constructor; [done |]. rewrite Hp. constructor; [| done]. rewrite (Hswap x y), <- Hc by done. apply Z.compare_gt_iff in Hgt. by rewrite Hgt.
Qed.

Lemma insertion_sort_spec l : (forall y, y ∈ l -> y ∈ all) ->
  exists r, insertion_sort cmp l = Ret r /\ r ≡ₚ l /\ StronglySorted (fun x y => order x y <> Gt) r.
Proof.
  induction l as [| x l IH]; intros Hl; cbn [insertion_sort]; [exists []; split_and!; [done | done | constructor] |].
  destruct IH as (r & -> & Hp & Hs); [intros; apply Hl; by right |]. cbn [obind].
  destruct (insert_sorted_spec x r) as (r' & -> & Hp' & Hs'); [apply Hl; left | intros y; rewrite Hp; intros; apply Hl; by right | done |].
  exists r'. split_and!; [done | by rewrite Hp', Hp | done].
Qed.

End Insertion.

Definition plain_Qsort : Qsort.
Proof.
  refine {| qsort := fun A => insertion_sort |}. intros A cmp order l Hc Hs Ht. by apply (insertion_sort_spec cmp order l).
Defined.

(** ** The interface *)

(** The labels of a text. *)
Definition labels_of (t : list Z) : list (list Z) := match text_labels t with Ret raw => host_labels raw | _ => [] end.

Definition names_ok (rs : list arena_record_t) : Prop := forall r, r ∈ rs -> present r = true -> exists ls, canonical_text (name_of r) ls.

(** An entry of an NSEC3 chain is a record of the zone whose parameters and
    hash label can be read. *)
Definition entry_ok (rs : list arena_record_t) (e : nsec3_index_entry_t) : Prop :=
  exists r after, record_at rs (e_rec e) = Ret r /\ present r = true /\ type_code (rec r) = 50 /\ 5 <= len (rdata (rec r)) /\
    nsec3_rdata_params (rec r) = Ret (e_algorithm e, e_iterations e, e_salt e) /\ strchr DOT (name_of r) = Some (e_hash e, after) /\
    Forall (fun c => is_base32hex c = true) (e_hash e) /\ 0 < len (e_hash e) <= 63 /\ after <> [].

(** NSEC3 parameters: algorithm, iterations, and salt, in either case, where a
    hyphen is no salt. *)
Definition param_key (alg it : Z) (salt : list Z) : list (list Z) := [[alg]; [it]; map tolower (salt_text salt)].

Definition entry_params (e : nsec3_index_entry_t) : list (list Z) := param_key (e_algorithm e) (e_iterations e) (e_salt e).

Definition chain_params (ch : nsec3_chain_t) : list (list Z) := param_key (c_algorithm ch) (c_iterations ch) (c_salt ch).

(** The next hash of every entry is the owner hash of the one that follows,
    and that of the last one the owner hash of the first. *)
Definition chain_closed (rs : list arena_record_t) (ch : nsec3_chain_t) : Prop :=
  Forall2 (fun e next => exists r nh, record_at rs (e_rec e) = Ret r /\ rdata (rec r) !! 4%nat = Some nh /\ map tolower nh = map tolower next)
    (c_entries ch) (drop 1 (map e_hash (c_entries ch)) ++ take 1 (map e_hash (c_entries ch))).

(** A usable NSEC3PARAM record: present, at the apex, with no flags, the one
    algorithm there is, and a salt of at most 255 octets in hexadecimal. *)
Definition param_usable (rs : list arena_record_t) (i it : Z) (salt_txt salt : list Z) : Prop :=
  exists r apex f1, record_at rs i = Ret r /\ present r = true /\ type_code (rec r) = 51 /\
    first_soa rs = Some apex /\ domain_names_match_ci (name_of r) apex = true /\
    nsec3_rdata_params (rec r) = Ret (1, it, salt_txt) /\ rdata (rec r) !! 1%nat = Some f1 /\ parse_u8 f1 = Ret 0 /\ hex_to_bytes salt_txt 255 = Ret salt.

(** How good a choice the parameters are: without a chain, with a chain that
    is not closed, with a closed one. *)
Definition param_rank (rs : list arena_record_t) (chains : list nsec3_chain_t) (key : list (list Z)) (n : Z) : Prop :=
  n = 1 /\ (forall ch, ch ∈ chains -> chain_params ch <> key) \/
  exists ch, ch ∈ chains /\ chain_params ch = key /\ (n = 2 /\ ~ chain_closed rs ch \/ n = 3 /\ chain_closed rs ch).

(** The parameters in use: the first of the usable records of the highest
    rank, with its chain. Without them no record is usable. *)
Definition params_selected (rs : list arena_record_t) (chains : list nsec3_chain_t) (active : option nsec3_params_t) : Prop :=
  match active with
  | None => forall i it salt_txt salt, ~ param_usable rs i it salt_txt salt
  | Some p =>
      p_algorithm p = 1 /\ exists salt_txt n, param_usable rs (p_param p) (p_iterations p) salt_txt (p_salt p) /\
        param_rank rs chains (param_key 1 (p_iterations p) salt_txt) n /\
        match p_chain p with
        | None => n = 1
        | Some c => exists ch, at_ix chains c = Ret ch /\ chain_params ch = param_key 1 (p_iterations p) salt_txt
        end /\
        forall i it txt salt m, param_usable rs i it txt salt -> param_rank rs chains (param_key 1 it txt) m -> m <= n /\ (m = n -> p_param p <= i)
  end.

Record arena_ok (a : zone_arena_t) : Prop := ArenaOk {
  ao_names : names_ok (records a);
  ao_sorted_in : forall t, t ∈ sorted_unique_names a -> exists r, r ∈ records a /\ present r = true /\ name_of r = t;
  ao_sorted : forall i j t t', (i < j)%nat -> sorted_unique_names a !! i = Some t -> sorted_unique_names a !! j = Some t' ->
    canonical (labels_of t) (labels_of t') = Lt;
  ao_sorted_all : forall r, r ∈ records a -> present r = true ->
    exists t, t ∈ sorted_unique_names a /\ lower (labels_of t) = lower (labels_of (name_of r));
  ao_nsec : forall i, i ∈ nsec_records a -> exists r, record_at (records a) i = Ret r /\ is_nsec r = true;
  ao_nsec_sorted : forall i j x y rx ry, (i < j)%nat -> nsec_records a !! i = Some x -> nsec_records a !! j = Some y ->
    record_at (records a) x = Ret rx -> record_at (records a) y = Ret ry -> canonical (labels_of (name_of rx)) (labels_of (name_of ry)) <> Gt;
  ao_nsec_all : forall i r, record_at (records a) i = Ret r -> is_nsec r = true -> i ∈ nsec_records a;
  ao_nsec_once : NoDup (nsec_records a);
  ao_n3 : forall ch e, ch ∈ nsec3_chains a -> e ∈ c_entries ch -> entry_ok (records a) e;
  ao_n3_entries : forall ch, ch ∈ nsec3_chains a -> c_entries ch <> [];
  ao_n3_sorted : forall ch, ch ∈ nsec3_chains a -> StronglySorted (fun x y => hash_order (e_hash x) (e_hash y) <> Gt) (c_entries ch);
  ao_n3_params : forall ch e, ch ∈ nsec3_chains a -> e ∈ c_entries ch -> entry_params e = chain_params ch;
  ao_n3_chains : NoDup (map chain_params (nsec3_chains a));
  ao_n3_all : forall e, entry_ok (records a) e -> exists ch, ch ∈ nsec3_chains a /\ e ∈ c_entries ch;
  ao_n3_once : NoDup (map e_rec (concat (map c_entries (nsec3_chains a))));
  ao_selected : params_selected (records a) (nsec3_chains a) (nsec3_active a)
}.

(** What the image needs of the parameters in use. *)
Lemma selected_in rs chains p : params_selected rs chains (Some p) ->
  (exists r, record_at rs (p_param p) = Ret r /\ present r = true) /\ (forall c, p_chain p = Some c -> 0 <= c < len chains).
Proof.
  intros (_ & txt & n & (r & _ & _ & Hr & Hp & _) & _ & Hc & _). split; [by exists r |]. intros c Ec. rewrite Ec in Hc. destruct Hc as (ch & Hch & _). by eapply at_ix_lt.
Qed.

(** ** Lemmas: names *)

Lemma labels_of_text t ls : canonical_text t ls -> labels_of t = ls.
Proof. intros (raw & -> & Hne & Ho & Hn & ->). unfold labels_of. by rewrite text_labels_render. Qed.

Lemma compare_labels t ls t' ls' : canonical_text t ls -> canonical_text t' ls' ->
  exists r, compare_canonical_name (Some t) (Some t') = Ret r /\ sign_of r (canonical (labels_of t) (labels_of t')).
Proof.
  intros H H'. rewrite (labels_of_text _ _ H), (labels_of_text _ _ H'). apply compare_spec; by apply canonical_text_name.
Qed.

Lemma present_names_elem rs t : t ∈ present_names rs <-> exists r, r ∈ rs /\ present r = true /\ name_of r = t.
Proof.
  unfold present_names. rewrite list_elem_of_In, in_map_iff. setoid_rewrite filter_In. setoid_rewrite <- list_elem_of_In. naive_solver.
Qed.

Section Sorting.
Context `{Qsort} (rs : list arena_record_t) (Hnames : names_ok rs).

(** Sorting by owner, for any elements that have one. *)
Lemma sort_by_owner {A} (key : A -> list Z) (cmp : A -> A -> outcome Z) (l : list A) :
  (forall x y, x ∈ l -> y ∈ l -> cmp x y = compare_canonical_name (Some (key x)) (Some (key y))) ->
  (forall x, x ∈ l -> exists ls, canonical_text (key x) ls) ->
  exists l', qsort cmp l = Ret l' /\ l' ≡ₚ l /\ StronglySorted (fun x y => canonical (labels_of (key x)) (labels_of (key y)) <> Gt) l'.
Proof.
  intros Hcmp Hkey. apply (qsort_sorts cmp (fun x y => canonical (labels_of (key x)) (labels_of (key y)))).
  - intros x y Hx Hy. rewrite Hcmp by done. destruct (Hkey x Hx) as [lx Hlx], (Hkey y Hy) as [ly Hly]. by eapply compare_labels.
  - intros. apply canonical_swap.
  - intros x y z _ _ _. apply canonical_trans.
Qed.

(** [unique_names] keeps one of each run of equal names. *)
Lemma unique_names_spec names : forall last,
  (forall t, t ∈ names -> exists ls, canonical_text t ls) -> (forall t, last = Some t -> exists ls, canonical_text t ls) ->
  StronglySorted (fun x y => canonical (labels_of x) (labels_of y) <> Gt) (match last with None => names | Some t => t :: names end) ->
  exists u, unique_names last names = Ret u /\ (forall t, t ∈ u -> t ∈ names) /\
    StronglySorted (fun x y => canonical (labels_of x) (labels_of y) = Lt) (match last with None => u | Some t => t :: u end) /\
    (forall t, t ∈ names -> exists t', (t' ∈ u \/ last = Some t') /\ lower (labels_of t') = lower (labels_of t)).
Proof.
  induction names as [| n names IH]; intros last Hn Hl Hs; cbn [unique_names].
  { exists []. split_and!; [done | done | destruct last; repeat constructor | intros t Ht; by apply elem_of_nil in Ht]. }
  assert (exists ls, canonical_text n ls) as [ln Hln] by (apply Hn; left).
  assert (StronglySorted (fun x y => canonical (labels_of x) (labels_of y) <> Gt) (n :: names)) as Hs'
    by (destruct last; [by apply StronglySorted_inv in Hs as [? _] | done]).
  assert (exists keep, (match last with None => Ret true | Some l => let! c := compare_canonical_name (Some n) (Some l) in Ret (negb (c =? 0)) end) = Ret keep /\
    (keep = true -> forall l, last = Some l -> canonical (labels_of l) (labels_of n) = Lt) /\
    (keep = false -> exists l, last = Some l /\ lower (labels_of l) = lower (labels_of n))) as (keep & -> & Hk & Hnk).
  { destruct last as [l |]; [| by exists true]. destruct (Hl l eq_refl) as [ll Hll]. destruct (compare_labels _ _ _ _ Hln Hll) as (c & -> & Hc). cbn [obind].
    exists (negb (c =? 0)). split; [done |]. apply StronglySorted_inv in Hs as [_ Hf]. apply Forall_cons in Hf as [Hln' _]. unfold sign_of in Hc. split.
    - intros E l' [= <-]. apply negb_true_iff, Z.eqb_neq in E. rewrite canonical_swap in Hln'. rewrite canonical_swap.
      destruct (canonical (labels_of n) (labels_of l)) eqn:Ec; [apply Z.compare_eq_iff in Hc; lia | done | done].
    - intros E. apply negb_false_iff, Z.eqb_eq in E. subst c. exists l. split; [done |]. symmetry. apply canonical_eq. by rewrite <- Hc. }
  cbn [obind]. destruct keep.
  - destruct (IH (Some n)) as (u & -> & Hin & Hsu & Hall); [intros; apply Hn; by right | intros t [= <-]; by exists ln | done |]. cbn [obind].
    exists (n :: u). split_and!; [done | | |].
    + intros t [-> | Ht]%elem_of_cons; [left | right; by apply Hin].
    + destruct last as [l |]; [| done]. constructor; [done |]. specialize (Hk eq_refl l eq_refl). constructor; [done |].
      apply StronglySorted_inv in Hsu as [_ Hf]. eapply Forall_impl; [done |]. intros t Ht. eapply canonical_lt_le; [exact Hk | by rewrite Ht].
    + intros t [-> | Ht]%elem_of_cons; [exists n; split; [left; left | done] |]. destruct (Hall t Ht) as (t' & [Ht' | [= <-]] & E).
      * exists t'. split; [left; by right | done].
      * exists n. split; [left; left | done].
  - destruct (Hnk eq_refl) as (l & El & Elow). destruct (IH last) as (u & -> & Hin & Hsu & Hall); [intros; apply Hn; by right | done | |].
    { subst last. apply StronglySorted_inv in Hs as [Hs0 Hf]. apply Forall_cons in Hf as [_ Hf]. constructor; [| done]. by apply StronglySorted_inv in Hs0 as [? _]. }
    exists u. split_and!; [done | intros t Ht; right; by apply Hin | done |]. intros t [-> | Ht]%elem_of_cons; [exists l; split; [by right | done] | by apply Hall].
Qed.

End Sorting.

(** ** Lemmas: the NSEC index *)

Lemma indices_elem f rs : forall i j, j ∈ indices f i rs <-> exists r, i <= j /\ rs !! Z.to_nat (j - i) = Some r /\ f r = true.
Proof.
  induction rs as [| r rs IH]; intros i j; cbn [indices].
  { split; [intros H; by apply elem_of_nil in H | intros (r & _ & E & _); by destruct (Z.to_nat (j - i))]. }
  assert ((exists r', i <= j /\ (r :: rs) !! Z.to_nat (j - i) = Some r' /\ f r' = true) <->
    (j = i /\ f r = true) \/ j ∈ indices f (i + 1) rs) as ->.
  { rewrite IH. split.
    - intros (r' & Hj & E & HP). destruct (decide (j = i)) as [-> |]; [left; rewrite Z.sub_diag in E; injection E as ->; done | right; exists r'].
      replace (Z.to_nat (j - i)) with (S (Z.to_nat (j - (i + 1)))) in E by lia. split; [lia | done].
    - intros [(-> & HP) | (r' & Hj & E & HP)]; [exists r; rewrite Z.sub_diag; split; [lia | done] | exists r']. split; [lia |].
      replace (Z.to_nat (j - i)) with (S (Z.to_nat (j - (i + 1)))) by lia. done. }
  destruct (f r) eqn:Ef; [rewrite elem_of_cons |]; intuition congruence.
Qed.

Lemma indices_NoDup f rs : forall i, NoDup (indices f i rs).
Proof.
  induction rs as [| r rs IH]; intros i; cbn [indices]; [constructor |]. destruct (f r); [| done]. constructor; [| done]. intros (r' & Hi & _)%indices_elem. lia.
Qed.

Lemma sorted_lookup {A} (R : A -> A -> Prop) (l : list A) i j x y : StronglySorted R l -> (i < j)%nat -> l !! i = Some x -> l !! j = Some y -> R x y.
Proof.
  intros Hs. revert i j. induction Hs as [| a l Hs IH Hf]; intros i j Hij Hx Hy; [done |]. destruct j as [| j]; [lia |]. cbn in Hy. destruct i as [| i].
  - injection Hx as <-. rewrite Forall_forall in Hf. apply Hf. by eapply list_elem_of_lookup_2.
  - by apply (IH i j); [lia | |].
Qed.

(** ** Lemmas: the NSEC3 index *)

(** The order of the entries: by parameters, then by hash. *)
Definition entry_order (x y : nsec3_index_entry_t) : comparison :=
  lex (lex Z.compare) (entry_params x ++ [map tolower (e_hash x)]) (entry_params y ++ [map tolower (e_hash y)]).

Lemma salt_text_chars s : cstring s -> cstring (salt_text s).
Proof. intros H. unfold salt_text. case_if; [constructor | done]. Qed.

Lemma cmp_params_sign a1 a2 a3 b1 b2 b3 : cstring a3 -> cstring b3 ->
  sign_of (cmp_nsec3_params a1 a2 a3 b1 b2 b3) (lex (lex Z.compare) (param_key a1 a2 a3) (param_key b1 b2 b3)).
Proof.
  intros Ha Hb. unfold cmp_nsec3_params, param_key, sign_of. cbn [lex]. destruct (Z.eqb_spec a1 b1) as [-> | Hne]; cbn [negb].
  - rewrite Z.compare_refl. destruct (Z.eqb_spec a2 b2) as [-> | Hne]; cbn [negb].
    + rewrite Z.compare_refl. unfold cmp_nsec3_salt.
      pose proof (strcmp_sign _ _ (lower_chars _ (salt_text_chars _ Ha)) (lower_chars _ (salt_text_chars _ Hb))) as ->. by destruct (lex Z.compare _ _).
    + by destruct (Z.ltb_spec a2 b2), (Z.compare_spec a2 b2); try lia.
  - by destruct (Z.ltb_spec a1 b1), (Z.compare_spec a1 b1); try lia.
Qed.

Lemma lex_app {A} (cmp : A -> A -> comparison) `{!Ordering cmp} (a b x y : list A) : length a = length b ->
  lex cmp (a ++ x) (b ++ y) = match lex cmp a b with Eq => lex cmp x y | c => c end.
Proof.
  revert b. induction a as [| c a IH]; intros [| d b] Hl; try done. cbn. injection Hl as Hl. rewrite (IH b Hl). by destruct (cmp c d).
Qed.

Lemma lex_le_trans {A} (cmp : A -> A -> comparison) `{!Ordering cmp} (a b c : list A) : lex cmp a b <> Gt -> lex cmp b c <> Gt -> lex cmp a c <> Gt.
Proof.
  intros Hab Hbc. destruct (lex cmp a b) eqn:E1; [apply cmp_eq in E1 as ->; done | | done].
  destruct (lex cmp b c) eqn:E2; [apply cmp_eq in E2 as <-; by rewrite E1 | | done]. by rewrite (cmp_lt_trans _ _ _ E1 E2).
Qed.

Lemma entry_order_split x y : entry_order x y =
  match lex (lex Z.compare) (entry_params x) (entry_params y) with Eq => hash_order (e_hash x) (e_hash y) | c => c end.
Proof.
  unfold entry_order. rewrite (lex_app (lex Z.compare)) by done. destruct (lex (lex Z.compare) (entry_params x) (entry_params y)); [| done..].
  cbn [lex]. unfold hash_order. by destruct (lex Z.compare _ _).
Qed.

Lemma cmp_entry_sign x y : cstring (e_salt x) -> cstring (e_salt y) -> sign_of (cmp_nsec3_entry x y) (entry_order x y).
Proof.
  intros Hx Hy. rewrite entry_order_split. pose proof (cmp_params_sign (e_algorithm x) (e_iterations x) _ (e_algorithm y) (e_iterations y) _ Hx Hy) as Hs.
  change (sign_of (cmp_nsec3_entry_params x y) (lex (lex Z.compare) (entry_params x) (entry_params y))) in Hs. unfold sign_of, cmp_nsec3_entry in *. rewrite <- Hs.
  destruct (Z.eqb_spec (cmp_nsec3_entry_params x y) 0) as [-> | Hne]; [apply compare_hash_sign |].
  destruct (Z.compare_spec (cmp_nsec3_entry_params x y) 0); done.
Qed.

Lemma same_params x y : cstring (e_salt x) -> cstring (e_salt y) -> (cmp_nsec3_entry_params x y =? 0) = true <-> entry_params x = entry_params y.
Proof.
  intros Hx Hy. pose proof (cmp_params_sign (e_algorithm x) (e_iterations x) _ (e_algorithm y) (e_iterations y) _ Hx Hy) as Hs.
  change (sign_of (cmp_nsec3_entry_params x y) (lex (lex Z.compare) (entry_params x) (entry_params y))) in Hs. unfold sign_of in Hs.
  rewrite Z.eqb_eq, <- Z.compare_eq_iff, Hs. apply cmp_eq.
Qed.

(** Sorted entries make chains: each holds entries with the same parameters
    in the order of their hashes, and none is lost. *)
Definition chain_ok (es : list nsec3_index_entry_t) (ch : nsec3_chain_t) : Prop :=
  c_entries ch <> [] /\ (forall e, e ∈ c_entries ch -> e ∈ es /\ entry_params e = chain_params ch) /\
  StronglySorted (fun x y => hash_order (e_hash x) (e_hash y) <> Gt) (c_entries ch).

Lemma group_chains_spec es : Forall (fun e => cstring (e_salt e)) es -> StronglySorted (fun x y => entry_order x y <> Gt) es ->
  (forall ch, ch ∈ group_chains es -> chain_ok es ch) /\ (forall e, e ∈ es -> exists ch, ch ∈ group_chains es /\ e ∈ c_entries ch) /\
  match es with [] => group_chains es = [] | e :: _ => exists ch chs, group_chains es = ch :: chs /\ head (c_entries ch) = Some e end.
Proof.
  induction es as [| e es IH]; intros Hc Hs; [split_and!; [intros ch H; by apply elem_of_nil in H | intros e H; by apply elem_of_nil in H | done] |].
  apply Forall_cons in Hc as [Hce Hc]. apply StronglySorted_inv in Hs as [Hs Hf]. destruct (IH Hc Hs) as (Hok & Hall & Hhead). clear IH. cbn [group_chains].
  assert (forall ch, ch ∈ group_chains es -> chain_ok (e :: es) ch) as Hok'.
  { intros ch (Hne & Hin & Hsort)%Hok. split_and!; [done | intros x [? ?]%Hin; split; [by right | done] | done]. }
  assert (chain_ok (e :: es) (N3Chain (e_algorithm e) (e_iterations e) (e_salt e) [e])) as Hone.
  { split_and!; [done | intros x ->%list_elem_of_singleton; split; [left | done] | repeat constructor]. }
  destruct es as [| e' es].
  { split_and!; [intros ch ->%list_elem_of_singleton; done | intros x ->%list_elem_of_singleton; eexists; split; [left | left] | by eexists _, _]. }
  destruct Hhead as (ch & chs & Eg & Hh). rewrite Eg in *. apply Forall_cons in Hc as Hc'. destruct Hc' as [Hce' _].
  destruct (cmp_nsec3_entry_params e e' =? 0) eqn:Ep.
  - apply same_params in Ep; [| done | done]. destruct (Hok ch) as (Hne & Hin & Hsort); [left |].
    assert (entry_params e = chain_params ch) as Eck.
    { rewrite Ep. apply Hin. destruct (c_entries ch); [done |]. injection Hh as ->. left. }
    split_and!.
    + intros c [-> | Hch]%elem_of_cons; [| apply Hok'; by right]. split_and!; [done | |].
      * cbn. intros x [-> | Hx]%elem_of_cons; [split; [left | done] |]. destruct (Hin x Hx) as [? Ex]. split; [by right |]. by rewrite Ex, <- Eck.
      * cbn. constructor; [done |]. apply Forall_forall. intros x Hx. destruct (Hin x Hx) as [Hxe Ex]. rewrite Forall_forall in Hf. specialize (Hf x Hxe).
        rewrite entry_order_split, Ex, <- Eck, (proj2 (cmp_eq _ _) eq_refl) in Hf. done.
    + intros x [-> | Hx]%elem_of_cons; [eexists; split; [left | left] |]. destruct (Hall x Hx) as (c & [-> | Hc']%elem_of_cons & Hxc).
      * eexists. split; [left | by right].
      * exists c. split; [by right | done].
    + by eexists _, _.
  - split_and!.
    + intros c [-> | Hch]%elem_of_cons; [done | by apply Hok'].
    + intros x [-> | Hx]%elem_of_cons; [eexists; split; [left | left] |]. destruct (Hall x Hx) as (c & Hc' & Hxc). exists c. split; [by right | done].
    + by eexists _, _.
Qed.

(** No entry is lost or repeated, and the chains have different parameters. *)
Lemma group_chains_concat es : concat (map c_entries (group_chains es)) = es.
Proof.
  induction es as [| e es IH]; [done |]. cbn [group_chains]. destruct es as [| e' es]; [done |]. destruct (group_chains (e' :: es)) as [| ch chs]; [done |].
  case_if; cbn [map concat c_entries app] in *; by rewrite IH.
Qed.

Lemma group_chains_salt es ch : ch ∈ group_chains es -> exists e, e ∈ es /\ c_salt ch = e_salt e.
Proof.
  revert ch. induction es as [| e es IH]; intros ch; cbn [group_chains]; [by intros ?%not_elem_of_nil |].
  assert (forall ch, ch ∈ group_chains es -> exists e', e' ∈ e :: es /\ c_salt ch = e_salt e') as Hrest by (intros c (e' & ? & ?)%IH; exists e'; split; [by right | done]).
  assert (exists e', e' ∈ e :: es /\ e_salt e = e_salt e') as Hhd by (exists e; split; [by left | done]).
  destruct es as [| e' es]; [by intros ->%list_elem_of_singleton |]. destruct (group_chains (e' :: es)) as [| c chs]; [by intros ->%list_elem_of_singleton |].
  case_if; intros [-> | Hin]%elem_of_cons; [done | apply Hrest; by right | done | by apply Hrest].
Qed.

Lemma group_chains_distinct es : Forall (fun e => cstring (e_salt e)) es -> StronglySorted (fun x y => entry_order x y <> Gt) es ->
  NoDup (map chain_params (group_chains es)).
Proof.
  induction es as [| e es IH]; intros Hc Hs; [constructor |]. apply Forall_cons in Hc as [Hce Hc]. apply StronglySorted_inv in Hs as [Hs Hf]. specialize (IH Hc Hs).
  destruct (group_chains_spec es Hc Hs) as (Hok & _ & Hhead). cbn [group_chains]. destruct es as [| e' es]; [repeat constructor; apply not_elem_of_nil |].
  destruct Hhead as (ch & chs & Eg & Hh). rewrite Eg in *. apply Forall_cons in Hc as [Hce' _]. destruct (cmp_nsec3_entry_params e e' =? 0) eqn:Ep.
  - apply same_params in Ep; [| done | done]. destruct (Hok ch) as (Hne & Hin & _); [left |]. cbn [map] in *.
    change (NoDup (entry_params e :: map chain_params chs)). replace (entry_params e) with (chain_params ch); [done |]. rewrite Ep. symmetry. apply Hin.
    destruct (c_entries ch); [done |]. injection Hh as ->. left.
  - change (NoDup (entry_params e :: map chain_params (ch :: chs))). constructor; [| done]. intros (c & Ec & Hc')%list_elem_of_fmap.
    destruct (Hok c Hc') as (Hne & Hin & _). destruct (c_entries c) as [| x xs] eqn:Ex; [done |]. destruct (Hin x) as [Hx Epx]; [left |].
    assert (entry_params e <> entry_params e') as Hd by (intros Hd%same_params; [congruence | done | done]). apply StronglySorted_inv in Hs as [_ Hf'].
    rewrite Forall_forall in Hf, Hf'. pose proof (Hf e' ltac:(left)) as He'. rewrite entry_order_split in He'.
    destruct (lex (lex Z.compare) (entry_params e) (entry_params e')) eqn:E1; [by apply cmp_eq in E1 | | done].
    apply elem_of_cons in Hx as [-> | Hx]; [by rewrite Epx in Hd |]. pose proof (Hf' x Hx) as Hx'. rewrite entry_order_split, Epx, <- Ec in Hx'.
    pose proof (cmp_swap (cmp := lex (lex Z.compare)) (entry_params e) (entry_params e')) as Hsw. rewrite E1 in Hsw. change (CompOpp Lt) with Gt in Hsw. by rewrite Hsw in Hx'.
Qed.

Definition rdata_ok (rs : list arena_record_t) : Prop := forall r, r ∈ rs -> Forall cstring (rdata (rec r)).

Lemma rdata_params_spec r : Forall cstring (rdata r) -> defined (nsec3_rdata_params r) /\
  forall alg it salt, nsec3_rdata_params r = Ret (alg, it, salt) -> cstring salt /\ 4 <= len (rdata r).
Proof.
  intros Hr. unfold nsec3_rdata_params. destruct (Z.ltb_spec (len (rdata r)) 4); [split; [apply defined_Fail | done] |].
  destruct (fld_in (rdata r) 0) as (f0 & -> & _); [lia |]. destruct (fld_in (rdata r) 2) as (f2 & -> & _); [lia |].
  destruct (fld_in (rdata r) 3) as (f3 & -> & H3); [lia |]. cbn [obind].
  pose proof (parse_num_defined 255 f0) as [? ?]. pose proof (parse_num_defined 65535 f2) as [? ?]. unfold parse_u8, parse_u16.
  destruct (parse_num 255 f0); cbn [obind]; try done. destruct (parse_num 65535 f2); cbn [obind]; try done.
  split; [done |]. intros ? ? ? [= <- <- <-]. rewrite Forall_forall in Hr. split; [by apply Hr | lia].
Qed.

Section Index.
Context (all : list arena_record_t) (Hrd : rdata_ok all).

Lemma entry_init_spec i r : record_at all i = Ret r ->
  nsec3_index_entry_init i r = Fail \/ exists e, nsec3_index_entry_init i r = Ret e /\ entry_ok all e /\ cstring (e_salt e) /\ e_rec e = i.
Proof.
  intros Hi. assert (r ∈ all) as Hin by (by eapply at_ix_elem). unfold nsec3_index_entry_init. cbv zeta. case_if; [by left |]. rename E into Eg.
  apply orb_false_iff in Eg as [[Hp Ht]%orb_false_iff Hl]. apply negb_false_iff in Hp, Ht. apply Z.eqb_eq in Ht. apply Z.ltb_ge in Hl.
  destruct (rdata_params_spec (rec r) (Hrd r Hin)) as [[Hd1 Hd2] Hsp]. destruct (nsec3_rdata_params (rec r)) as [[[alg it] salt] | | |] eqn:Ep; try done; [| by left].
  cbn [obind]. destruct (Hsp alg it salt eq_refl) as [Hsalt _]. destruct (strchr DOT (name (rec r))) as [[label after] |] eqn:Es; [| by left].
  case_if; [by left |]. rename E into E1. apply orb_false_iff in E1 as [[E1 E2]%orb_false_iff E3]. apply bool_decide_eq_false in E1, E2. apply Z.ltb_ge in E3.
  case_if; [by left |]. rename E into E4. apply negb_false_iff in E4. right. eexists. split; [done |]. split; [| done]. exists r, after. cbn.
  split_and!; try done; [by apply Forall_forall; intros c Hc; eapply forallb_forall in E4; [exact E4 | by apply list_elem_of_In] | destruct label; [done | cbn; lia]].
Qed.

Lemma entry_init_ok e : entry_ok all e -> exists r, record_at all (e_rec e) = Ret r /\ nsec3_index_entry_init (e_rec e) r = Ret e.
Proof.
  intros (r & after & Hr & Hp & Ht & Hl & Hpar & Hs & Hb & Hlen & Hne). exists r. split; [done |]. unfold nsec3_index_entry_init. cbv zeta. unfold name_of in Hs.
  rewrite Hp, Ht, (proj2 (Z.ltb_ge _ _) Hl), Hpar, Hs. cbn [negb orb Z.eqb Pos.eqb obind]. unfold streq. rewrite !bool_decide_false; [| done | intros E; rewrite E in Hlen; cbn in Hlen; lia].
  rewrite (proj2 (Z.ltb_ge 63 _)) by lia. rewrite (proj2 (forallb_forall _ _)); [by destruct e |]. intros c Hc%list_elem_of_In. rewrite Forall_forall in Hb. by apply Hb.
Qed.

Lemma nsec3_entries_spec rs : forall i, (forall k, rs !! k = all !! (i + k)%nat) ->
  exists es, nsec3_entries (Z.of_nat i) rs = Ret es /\ (forall e, e ∈ es -> entry_ok all e /\ cstring (e_salt e) /\ Z.of_nat i <= e_rec e) /\
    (forall e, entry_ok all e -> Z.of_nat i <= e_rec e -> e ∈ es) /\ NoDup (map e_rec es).
Proof.
  induction rs as [| r rs IH]; intros i Hk; cbn [nsec3_entries].
  { exists []. split_and!; [done | intros e H; by apply elem_of_nil in H | | constructor]. intros e (r & _ & [Hp Hr]%at_ix_Ret & _) Hi.
    specialize (Hk (Z.to_nat (e_rec e) - i)%nat). rewrite lookup_nil in Hk. replace (i + (Z.to_nat (e_rec e) - i))%nat with (Z.to_nat (e_rec e)) in Hk by lia. congruence. }
  assert (record_at all (Z.of_nat i) = Ret r) as Hi by (apply at_ix_nat; by rewrite <- (Nat.add_0_r i), <- (Hk 0%nat)).
  replace (Z.of_nat i + 1) with (Z.of_nat (S i)) by lia. destruct (IH (S i)) as (es & -> & Hes & Hall & Hnd).
  { intros k. etransitivity; [exact (Hk (S k)) |]. f_equal. lia. }
  assert (forall e, entry_ok all e -> Z.of_nat i <= e_rec e -> e ∈ es \/ nsec3_index_entry_init (Z.of_nat i) r = Ret e) as Hcase.
  { intros e He Hle. destruct (Z.eq_dec (e_rec e) (Z.of_nat i)) as [Ee |]; [right | left; apply Hall; [done | lia]].
    destruct (entry_init_ok e He) as (r' & Hr' & Hinit). rewrite Ee in Hr', Hinit. rewrite Hi in Hr'. by injection Hr' as <-. }
  cbn [obind]. destruct (entry_init_spec (Z.of_nat i) r Hi) as [Ei | (e & Ei & He & Hce & Hrec)]; rewrite Ei in Hcase |- *; cbn [orelse].
  - exists es. split_and!; [done | intros e (? & ? & ?)%Hes; split_and!; done || lia | | done]. intros e He Hle. by destruct (Hcase e He Hle).
  - exists (e :: es). split_and!; [done | | |].
    + intros x [-> | (? & ? & ?)%Hes]%elem_of_cons; split_and!; done || lia.
    + intros x Hx Hle. destruct (Hcase x Hx Hle) as [? | [= <-]]; [by right | by left].
    + cbn [map]. constructor; [| done]. intros (x & Ex & (_ & _ & Hx)%Hes)%list_elem_of_fmap. lia.
Qed.

Lemma build_nsec3_spec `{Qsort} : exists chains, build_nsec3_index all = Ret chains /\
  (forall ch, ch ∈ chains -> (forall e, e ∈ c_entries ch -> entry_ok all e /\ cstring (e_salt e) /\ entry_params e = chain_params ch) /\ c_entries ch <> [] /\ cstring (c_salt ch) /\
    StronglySorted (fun x y => hash_order (e_hash x) (e_hash y) <> Gt) (c_entries ch)) /\
  NoDup (map chain_params chains) /\ (forall e, entry_ok all e -> exists ch, ch ∈ chains /\ e ∈ c_entries ch) /\
  NoDup (map e_rec (concat (map c_entries chains))).
Proof.
  unfold build_nsec3_index. change 0 with (Z.of_nat 0). destruct (nsec3_entries_spec all 0) as (es & -> & Hes & Hall & Hnd); [done |]. cbn [obind].
  destruct (qsort_sorts (fun x y => Ret (cmp_nsec3_entry x y)) entry_order es) as (es' & -> & Hp & Hs).
  { intros x y Hx Hy. eexists. split; [done |]. apply cmp_entry_sign; by apply Hes. } { intros. unfold entry_order. apply cmp_swap. }
  { intros x y z _ _ _. apply (lex_le_trans (lex Z.compare)). }
  assert (Forall (fun e => cstring (e_salt e)) es') as Hc by (apply Forall_forall; intros e He; rewrite Hp in He; by apply Hes).
  cbn [obind]. eexists. split; [done |]. destruct (group_chains_spec es' Hc Hs) as (Hok & Hin & _). split_and!.
  - intros ch Hin'. destruct (Hok ch Hin') as (Hne & Hi & Hsort). destruct (group_chains_salt _ _ Hin') as (e0 & He0 & Es). rewrite Forall_forall in Hc.
    split_and!; [| done | rewrite Es; by apply Hc | done]. intros e [He Epar]%Hi. rewrite Hp in He. destruct (Hes e He) as (? & ? & _). done.
  - by apply group_chains_distinct.
  - intros e He. apply Hin. rewrite Hp. apply Hall; [done |]. destruct He as (r & _ & [? _]%at_ix_Ret & _). lia.
  - rewrite group_chains_concat. change (NoDup (e_rec <$> es')). by rewrite Hp.
Qed.

(** ** Lemmas: the parameters in use *)

Lemma hex_pairs_defined n : forall hex, (length hex <= n)%nat -> len hex mod 2 = 0 -> defined (hex_pairs hex).
Proof.
  induction n as [| n IH]; intros [| h [| l hex]] Hn Hm; cbn [hex_pairs length] in *; try apply defined_Ret; try lia; [by cbn in Hm |].
  case_if; [apply defined_Fail |]. assert (defined (hex_pairs hex)) as [? ?].
  { apply IH; [lia |]. revert Hm. rewrite !Nat2Z.inj_succ. Z.to_euclidean_division_equations. lia. }
  by destruct (hex_pairs hex).
Qed.

Lemma find_chain_spec chains alg it salt : cstring salt -> (forall ch, ch ∈ chains -> cstring (c_salt ch)) -> forall i,
  match find_chain chains i alg it salt with
  | Some c => i <= c /\ exists ch, chains !! Z.to_nat (c - i) = Some ch /\ chain_params ch = param_key alg it salt
  | None => forall ch, ch ∈ chains -> chain_params ch <> param_key alg it salt
  end.
Proof.
  intros Hs. induction chains as [| ch chains IH]; intros Hc i; cbn [find_chain]; [by intros ch ?%not_elem_of_nil |].
  pose proof (cmp_params_sign (c_algorithm ch) (c_iterations ch) (c_salt ch) alg it salt (Hc ch ltac:(left)) Hs) as Hsg. unfold sign_of in Hsg.
  case_if; [apply Z.eqb_eq in E; rewrite E in Hsg; split; [lia |] |].
  - exists ch. rewrite Z.sub_diag. split; [done |]. by apply (cmp_eq (cmp := lex (lex Z.compare))).
  - specialize (IH (fun ch' H => Hc ch' (list_elem_of_further _ _ _ H)) (i + 1)). destruct (find_chain chains (i + 1) alg it salt) as [c |].
    + destruct IH as (Hi & ch' & Hch & Epar). split; [lia |]. exists ch'. split; [| done]. by replace (Z.to_nat (c - i)) with (S (Z.to_nat (c - (i + 1)))) by lia.
    + intros ch' [-> | Hin]%elem_of_cons; [| by apply IH]. intros Epar. apply Z.eqb_neq in E. apply E, Z.compare_eq_iff. rewrite Hsg.
      by apply (cmp_eq (cmp := lex (lex Z.compare))).
Qed.

Lemma fld_Ret l i f : fld l i = Ret f <-> l !! i = Some f.
Proof. unfold fld. destruct (l !! i); split; congruence. Qed.

Definition linked (e : nsec3_index_entry_t) (next : list Z) : Prop :=
  exists r nh, record_at all (e_rec e) = Ret r /\ rdata (rec r) !! 4%nat = Some nh /\ map tolower nh = map tolower next.

Lemma chain_linked_spec es first : (forall e, e ∈ es -> entry_ok all e) ->
  exists b, chain_linked all es first = Ret b /\ (b = true <-> es = [] \/ Forall2 linked es (drop 1 (map e_hash es) ++ [first])).
Proof.
  induction es as [| e es IH]; intros He; cbn [chain_linked]; [exists true; split; [done |]; split; auto |].
  destruct (He e) as (r & after & Hr & _ & _ & Hl & _); [left |]. rewrite Hr. cbn [obind].
  destruct (fld_in (rdata (rec r)) 4) as (nh & Ef & _); [lia |]. rewrite Ef. cbn [obind]. apply fld_Ret in Ef.
  destruct IH as (b & Eb & Hb); [intros; apply He; by right |].
  set (next := match es with e' :: _ => e_hash e' | [] => first end).
  assert (drop 1 (map e_hash (e :: es)) ++ [first] = next :: match es with [] => [] | _ => drop 1 (map e_hash es) ++ [first] end) as -> by (by destruct es).
  unfold strcaseeq. case_bool_decide as Hn.
  - exists b. split; [done |]. rewrite Hb. split.
    + intros Hor. right. constructor; [by exists r, nh |]. destruct es; [constructor |]. by destruct Hor.
    + intros [? | Hf]; [done |]. apply Forall2_cons in Hf as [_ Hf]. destruct es; [by left | by right].
  - exists false. split; [done |]. split; [done |]. intros [? | Hf]; [done |]. apply Forall2_cons in Hf as [(r' & nh' & Hr' & Hnh & Hlow) _].
    rewrite Hr in Hr'. injection Hr' as <-. rewrite Ef in Hnh. injection Hnh as <-. done.
Qed.

Section Selection.
Context (chains : list nsec3_chain_t) (Hch : forall ch, ch ∈ chains -> (forall e, e ∈ c_entries ch -> entry_ok all e) /\ c_entries ch <> [] /\ cstring (c_salt ch)).
Context (Hdist : NoDup (map chain_params chains)).

Lemma chain_complete_spec ch : ch ∈ chains -> exists b, nsec3_chain_complete all ch = Ret b /\ (b = true <-> chain_closed all ch).
Proof.
  intros (He & Hne & _)%Hch. unfold nsec3_chain_complete, chain_closed. destruct (c_entries ch) as [| e es]; [done |].
  destruct (chain_linked_spec (e :: es) (e_hash e) He) as (b & -> & Hb). exists b. split; [done |]. rewrite Hb. split; [by intros [? | ?] | by right].
Qed.

Lemma chain_by_params ch ch' : ch ∈ chains -> ch' ∈ chains -> chain_params ch = chain_params ch' -> ch = ch'.
Proof.
  intros [i Hi]%list_elem_of_lookup_1 [j Hj]%list_elem_of_lookup_1 E. assert (i = j) as ->; [| congruence].
  eapply (NoDup_lookup _ _ _ (chain_params ch)); [exact Hdist | |]; change (map chain_params chains) with (chain_params <$> chains); rewrite list_lookup_fmap; [by rewrite Hi | rewrite Hj; cbn; by rewrite E].
Qed.

Lemma param_rank_fun key n m : param_rank all chains key n -> param_rank all chains key m -> n = m.
Proof.
  intros [[-> Hn] | (ch & Hc & E & Hn)] [[-> Hm] | (ch' & Hc' & E' & Hm)]; [done | by destruct (Hn ch') | by destruct (Hm ch) |].
  assert (ch = ch') as <- by (apply chain_by_params; [done | done | congruence]). naive_solver.
Qed.

(** A candidate is a usable record, with the rank of its parameters. *)
Definition candidate (apex : list Z) (i rank : Z) (p : nsec3_params_t) : Prop :=
  exists r, record_at all i = Ret r /\ type_code (rec r) = 51 /\ present r = true /\ domain_names_match_ci (name_of r) apex = true /\
    nsec3_candidate all chains i (rec r) = Ret (rank, p).

Definition chosen (i rank : Z) (p : nsec3_params_t) : Prop :=
  p_param p = i /\ p_algorithm p = 1 /\ exists salt_txt, param_usable all i (p_iterations p) salt_txt (p_salt p) /\
    param_rank all chains (param_key 1 (p_iterations p) salt_txt) rank /\ 0 < rank /\
    match p_chain p with
    | None => rank = 1
    | Some c => exists ch, at_ix chains c = Ret ch /\ chain_params ch = param_key 1 (p_iterations p) salt_txt
    end.

Lemma chain_rank_spec r alg it salt : nsec3_rdata_params r = Ret (alg, it, salt) -> cstring salt ->
  exists chain rank, zone_find_nsec3_chain chains r = Ret chain /\
    match chain with
    | None => Ret 1
    | Some c => let! ch := at_ix chains c in let! complete := nsec3_chain_complete all ch in Ret (if complete then 3 else 2)
    end = Ret rank /\ param_rank all chains (param_key alg it salt) rank /\ 0 < rank /\
    match chain with None => rank = 1 | Some c => exists ch, at_ix chains c = Ret ch /\ chain_params ch = param_key alg it salt end.
Proof.
  intros Ep Hs. unfold zone_find_nsec3_chain. rewrite Ep. cbn [orelse]. pose proof (find_chain_spec chains alg it salt Hs (fun ch H => proj2 (proj2 (Hch ch H))) 0) as Hf.
  exists (find_chain chains 0 alg it salt). destruct (find_chain chains 0 alg it salt) as [c |].
  - destruct Hf as (Hc & ch & Hl & Epar). rewrite Z.sub_0_r in Hl. assert (at_ix chains c = Ret ch) as Eat by (by apply at_ix_Ret). rewrite Eat. cbn [obind].
    destruct (chain_complete_spec ch) as (b & -> & Hb); [by eapply at_ix_elem |]. cbn [obind]. exists (if b then 3 else 2). split_and!; [done | done | | by destruct b | by exists ch].
    right. exists ch. split; [by eapply at_ix_elem |]. split; [done |]. destruct b; [right | left]; (split; [done |]); [by apply Hb | intros ?%Hb; done].
  - exists 1. split_and!; [done | done | by left | done | done].
Qed.

Lemma candidate_chosen apex i rank p : first_soa all = Some apex -> candidate apex i rank p -> chosen i rank p.
Proof.
  intros Hsoa (r & Hr & Ht & Hp & Hm & Hc). assert (Forall cstring (rdata (rec r))) as Hrd' by (by eapply Hrd, at_ix_elem). unfold nsec3_candidate in Hc.
  bind_inv Hc. destruct a as [[alg it] txt]. destruct (proj2 (rdata_params_spec _ Hrd') _ _ _ Ha) as [Hs Hl].
  destruct (fld_in (rdata (rec r)) 1) as (f1 & Ef & _); [lia |]. rewrite Ef in Hc. cbn [obind] in Hc. bind_inv Hc. rename a into flags.
  case_if_in Hc; [done |]. rename E into Efl. apply orb_false_iff in Efl as [->%negb_false_iff%Z.eqb_eq ->%negb_false_iff%Z.eqb_eq]. bind_inv Hc. rename a into salt.
  destruct (chain_rank_spec (rec r) 1 it txt Ha Hs) as (chain & n & Ech & En & Hrank & Hpos & Hchain). rewrite Ech in Hc. cbn [obind] in Hc. rewrite En in Hc. injection Hc as <- <-.
  split_and!; [done | done |]. exists txt. cbn [p_iterations p_salt p_chain]. split_and!; [| done | done | done].
  exists r, apex, f1. apply fld_Ret in Ef. split_and!; done.
Qed.

Lemma usable_candidate apex i it txt salt : first_soa all = Some apex -> param_usable all i it txt salt ->
  exists rank p, candidate apex i rank p /\ param_rank all chains (param_key 1 it txt) rank.
Proof.
  intros Hsoa (r & apex' & f1 & Hr & Hp & Ht & Hsoa' & Hm & Hpar & Hf1 & Hfl & Hx). rewrite Hsoa in Hsoa'. injection Hsoa' as <-.
  assert (Forall cstring (rdata (rec r))) as Hrd' by (by eapply Hrd, at_ix_elem). destruct (proj2 (rdata_params_spec _ Hrd') _ _ _ Hpar) as [Hs Hl].
  destruct (chain_rank_spec (rec r) 1 it txt Hpar Hs) as (chain & n & Ech & En & Hrank & _). exists n. eexists. split; [| exact Hrank]. exists r. split_and!; try done.
  assert (fld (rdata (rec r)) 1 = Ret f1) as Ef by (by apply fld_Ret). unfold nsec3_candidate. rewrite Hpar. cbn [obind]. rewrite Ef. cbn [obind]. rewrite Hfl.
  cbn [obind Z.eqb Pos.eqb negb orb]. rewrite Hx. cbn [obind]. rewrite Ech. cbn [obind]. rewrite En. done.
Qed.

Lemma candidate_defined i r : record_at all i = Ret r -> nsec3_candidate all chains i (rec r) = Fail \/ exists rank p, nsec3_candidate all chains i (rec r) = Ret (rank, p).
Proof.
  intros Hi. assert (r ∈ all) as Hin by (by eapply at_ix_elem). unfold nsec3_candidate.
  destruct (rdata_params_spec (rec r) (Hrd r Hin)) as [[Hd1 Hd2] Hsp]. destruct (nsec3_rdata_params (rec r)) as [[[alg it] salt] | | |] eqn:Ep; try done; [| by left].
  cbn [obind]. destruct (Hsp alg it salt eq_refl) as [Hsalt Hl]. destruct (fld_in (rdata (rec r)) 1) as (f1 & -> & _); [lia |]. cbn [obind].
  pose proof (parse_num_defined 255 f1) as [? ?]. unfold parse_u8. destruct (parse_num 255 f1) as [flags | | |]; cbn [obind]; try done; [| by left].
  case_if; [by left |]. assert (defined (hex_to_bytes salt 255)) as [? ?].
  { unfold hex_to_bytes. case_if; [apply defined_Ret |]. case_if; [apply defined_Fail |]. apply orb_false_iff in E1 as [E1%negb_false_iff%Z.eqb_eq _].
    by eapply hex_pairs_defined. }
  destruct (hex_to_bytes salt 255) as [bs | | |]; cbn [obind]; try done; [| by left].
  destruct (chain_rank_spec (rec r) alg it salt Ep Hsalt) as (chain & n & -> & En & _). cbn [obind]. rewrite En. right. by eexists _, _.
Qed.

(** The best of the candidates before record [i]. *)
Definition best_before (apex : list Z) (i best : Z) (active : option nsec3_params_t) : Prop :=
  (forall j rank p, j < i -> candidate apex j rank p -> rank <= best /\ (rank = best -> exists q, active = Some q /\ p_param q <= j)) /\
  match active with None => best = 0 | Some p => p_param p < i /\ candidate apex (p_param p) best p end.

Lemma select_params_spec apex rs : first_soa all = Some apex -> forall i best active, (forall k, rs !! k = all !! (i + k)%nat) -> 0 <= best ->
  best_before apex (Z.of_nat i) best active ->
  exists best' active', select_params all rs chains apex (Z.of_nat i) best active = Ret active' /\ best_before apex (Z.of_nat (i + length rs)) best' active'.
Proof.
  intros Hsoa. induction rs as [| r rs IH]; intros i best active Hk Hb Hbest; cbn [select_params length]; [exists best, active; by rewrite Nat.add_0_r |].
  assert (forall k, rs !! k = all !! (S i + k)%nat) as Hk' by (intros k; etransitivity; [exact (Hk (S k)) |]; f_equal; lia).
  assert (record_at all (Z.of_nat i) = Ret r) as Hi by (apply at_ix_nat; by rewrite <- (Nat.add_0_r i), <- (Hk 0%nat)).
  replace (Z.of_nat i + 1) with (Z.of_nat (S i)) by lia. rewrite Nat.add_succ_r. change (S (i + length rs)) with (S i + length rs)%nat. destruct Hbest as [Hall Hact].
  assert ((forall rank p, ~ candidate apex (Z.of_nat i) rank p) -> best_before apex (Z.of_nat (S i)) best active) as Hskip.
  { intros Hno. split; [| destruct active; [destruct Hact; split; [lia | done] | done]]. intros j rank p Hj Hc. destruct (Z.eq_dec j (Z.of_nat i)) as [-> |]; [by destruct (Hno rank p) | apply (Hall _ _ p); [lia | done]]. }
  case_if.
  { apply IH; [done | done |]. apply Hskip. intros rank p (r' & Hr' & Ht & Hp & Hm & _). rewrite Hi in Hr'. injection Hr' as <-. by rewrite Ht, Hp, Hm in E. }
  apply orb_false_iff in E as [[Ht%negb_false_iff%Z.eqb_eq Hp%negb_false_iff]%orb_false_iff Hm%negb_false_iff].
  destruct (candidate_defined _ _ Hi) as [Ec | (rank & p & Ec)]; rewrite Ec; cbn [orelse obind].
  - rewrite (proj2 (Z.ltb_ge best 0)) by lia. apply IH; [done | done |]. apply Hskip. intros rank p (r' & Hr' & _ & _ & _ & Ec'). rewrite Hi in Hr'. injection Hr' as <-. congruence.
  - assert (candidate apex (Z.of_nat i) rank p) as Hcand by (by exists r). destruct (candidate_chosen _ _ _ _ Hsoa Hcand) as (Ei & _ & txt & _ & _ & Hpos & _).
    assert (forall rank' p', candidate apex (Z.of_nat i) rank' p' -> rank' = rank) as Hone.
    { intros rank' p' (r' & Hr' & _ & _ & _ & Ec'). rewrite Hi in Hr'. injection Hr' as <-. congruence. }
    case_if; cmp_prop; (apply IH; [done | lia |]).
    + split; [| split; [lia | by rewrite Ei]]. intros j rank' p' Hj Hc. destruct (Z.eq_dec j (Z.of_nat i)) as [-> |].
      * apply Hone in Hc as ->. split; [lia |]. intros _. exists p. rewrite Ei. split; [done | lia].
      * destruct (Hall j rank' p') as [Hle _]; [lia | done |]. split; lia.
    + split; [| destruct active; [destruct Hact; split; [lia | done] | done]]. intros j rank' p' Hj Hc. destruct (Z.eq_dec j (Z.of_nat i)) as [-> |].
      * apply Hone in Hc as ->. split; [lia |]. intros ->. destruct active as [q |]; [| lia]. exists q. split; [done |]. destruct Hact. lia.
      * apply (Hall j rank' p'); [lia | done].
Qed.

Lemma select_spec : exists active, select_nsec3_params all chains = Ret active /\ params_selected all chains active.
Proof.
  unfold select_nsec3_params. destruct (first_soa all) as [apex |] eqn:Hsoa.
  2:{ exists None. split; [done |]. intros i it txt salt (r & apex & _ & _ & _ & _ & Hs & _). congruence. }
  change 0 with (Z.of_nat 0) at 1. destruct (select_params_spec apex all Hsoa 0 0 None) as (best & active & -> & Hall & Hact); [done | lia | |].
  { split; [| done]. intros j rank p Hj (r & [? _]%at_ix_Ret & _). lia. }
  exists active. split; [done |]. assert (forall i it txt salt m, param_usable all i it txt salt -> param_rank all chains (param_key 1 it txt) m ->
    m <= best /\ (m = best -> exists q, active = Some q /\ p_param q <= i)) as Hbest.
  { intros i it txt salt m Hu Hm. destruct (usable_candidate _ _ _ _ _ Hsoa Hu) as (rank & p & Hc & Hr). rewrite (param_rank_fun _ _ _ Hm Hr). apply (Hall i rank p); [| done].
    destruct Hu as (r & _ & _ & Hr0 & _). apply at_ix_lt in Hr0. cbn [Nat.add]. lia. }
  destruct active as [p |]; cbn [params_selected].
  - destruct Hact as [_ Hact]. destruct (candidate_chosen _ _ _ _ Hsoa Hact) as (_ & Halg & txt & Hu & Hr & _ & Hc). split; [done |]. exists txt, best. split_and!; [done | done | done |].
    intros i it txt' salt m Hu' Hm. destruct (Hbest _ _ _ _ _ Hu' Hm) as [Hle Heq]. split; [done |]. intros (q & [= <-] & ?)%Heq. done.
  - intros i it txt salt Hu. destruct (usable_candidate _ _ _ _ _ Hsoa Hu) as (rank & p & Hc & Hr).
    destruct (candidate_chosen _ _ _ _ Hsoa Hc) as (_ & _ & _ & _ & _ & Hpos & _). destruct (Hbest _ _ _ _ _ Hu Hr) as [Hle _]. lia.
Qed.

End Selection.

End Index.

(** ** Lemmas: the whole index *)

Lemma agree_elem rs rs' r' : agree_ttl rs rs' -> r' ∈ rs' -> exists r, r ∈ rs /\ no_ttl r' = no_ttl r.
Proof. intros Hag [i Hi]%list_elem_of_lookup_1. destruct (agree_lookup _ _ _ _ Hag Hi) as (r & Hr & E). exists r. split; [by eapply list_elem_of_lookup_2 | done]. Qed.

(** [build_zone_index] succeeds on records whose names are canonical texts and
    leaves the builder indexed; the records are those of the zone, with the
    TTLs of [harmonize_rrset_ttls] when it is asked for. *)
Lemma build_index_spec `{Qsort} (a : zone_arena_t) (harmonize_ttls : bool) :
  names_ok (records a) -> rdata_ok (records a) ->
  exists a', build_zone_index a harmonize_ttls = Ret a' /\ arena_ok a' /\ agree_ttl (records a) (records a') /\
    (if harmonize_ttls then harmonize_rrset_ttls (records a) = Ret (records a') else records a' = records a).
Proof.
  intros Hn Hr. unfold build_zone_index.
  assert (exists rs, (if harmonize_ttls then harmonize_rrset_ttls (records a) else Ret (records a)) = Ret rs /\ agree_ttl (records a) rs) as (rs & E & Hag).
  { destruct harmonize_ttls; [destruct (harmonize_spec (records a)) as (rs & E & Hag & _); by exists rs | by exists (records a)]. }
  rewrite E. cbn [obind].
  assert (names_ok rs) as Hn'.
  { intros r Hin Hp. destruct (agree_elem _ _ _ Hag Hin) as (r0 & Hin0 & Er). change (exists ls, canonical_text (name_of (no_ttl r)) ls). change (present (no_ttl r) = true) in Hp.
    rewrite Er. rewrite Er in Hp. exact (Hn r0 Hin0 Hp). }
  assert (rdata_ok rs) as Hr'.
  { intros r Hin. destruct (agree_elem _ _ _ Hag Hin) as (r0 & Hin0 & Er). change (Forall cstring (rdata (rec (no_ttl r)))). rewrite Er. exact (Hr r0 Hin0). }
  assert (forall j, j ∈ indices is_nsec 0 rs -> exists r, record_at rs j = Ret r /\ is_nsec r = true) as Hnsec.
  { intros j (r & Hj & Ej & Hi)%indices_elem. exists r. split; [apply at_ix_Ret; by rewrite Z.sub_0_r in Ej | done]. }
  set (key j := match record_at rs j with Ret r => name_of r | _ => [] end).
  destruct (sort_by_owner key (cmp_canonical_nsec_ptr rs) (indices is_nsec 0 rs)) as (nsec & -> & Hpn & Hsn).
  { intros x y (rx & Ex & _)%Hnsec (ry & Ey & _)%Hnsec. unfold cmp_canonical_nsec_ptr, key. by rewrite Ex, Ey. }
  { intros x (rx & Ex & Hi)%Hnsec. unfold key. rewrite Ex. apply Hn'; [by eapply at_ix_elem | unfold is_nsec in Hi; by destruct (present rx)]. }
  cbn [obind]. destruct (build_nsec3_spec rs Hr') as (chains & -> & Hch & Hdist & Halln & Honce). cbn [obind].
  destruct (select_spec rs Hr' chains) as (active & -> & Hact); [| done |].
  { intros ch Hc. destruct (Hch ch Hc) as (He & Hne & Hsalt & _). split_and!; [intros e Hin; by apply He | done | done]. }
  cbn [obind].
  assert (forall t, t ∈ present_names rs -> exists ls, canonical_text t ls) as Hpn'.
  { intros t (r & Hin & Hp & <-)%present_names_elem. by apply Hn'. }
  destruct (sort_by_owner id cmp_canonical_name_ptr (present_names rs)) as (names & -> & Hpp & Hsp); [done | done |]. cbn [obind].
  destruct (unique_names_spec names None) as (u & -> & Hin & Hsu & Hall); [intros t Ht; apply Hpn'; by rewrite <- Hpp | done | done |]. cbn [obind].
  eexists. split; [done |]. split; [| split; [done | by destruct harmonize_ttls; [| injection E as <-]]]. split; cbn; [done | | | | | | | | | | | | | | |].
  - intros t Ht. apply present_names_elem. rewrite <- Hpp. by apply Hin.
  - intros i j t t' Hij Ht Ht'. exact (sorted_lookup _ _ _ _ _ _ Hsu Hij Ht Ht').
  - intros r Hr0 Hp. destruct (Hall (name_of r)) as (t & [Ht | ?] & El); [rewrite Hpp; apply present_names_elem; by exists r | by exists t | done].
  - intros i. rewrite Hpn. apply Hnsec.
  - intros i j x y rx ry Hij Hx Hy Ex Ey. pose proof (sorted_lookup _ _ _ _ _ _ Hsn Hij Hx Hy) as Hs. unfold key in Hs. by rewrite Ex, Ey in Hs.
  - intros i r [Hi Ei]%at_ix_Ret Hr0. rewrite Hpn. apply indices_elem. exists r. by rewrite Z.sub_0_r.
  - rewrite Hpn. apply indices_NoDup.
  - intros ch e Hc He. by apply (Hch ch Hc).
  - intros ch Hc. by apply (Hch ch Hc).
  - intros ch Hc. by apply (Hch ch Hc).
  - intros ch e Hc He. by apply (Hch ch Hc).
  - done.
  - done.
  - done.
  - done.
Qed.

End ZoneIndex.
