(* ===== verification/FreezeNames.v ===== *)
(** * Names and places of a frozen zone

    The first two steps of [zone_image_freeze] (dns_zone_image.c): every record
    gets the number of its name, found in a table with open addressing, and a
    place in the image, where the records of a name follow each other in file
    order. *)

From S2P Require Import Prelude CLib Cidr DnsName NameText WireName Compress ZoneAttr TypeName CanonOrder RdataText Record Svcb RrWrite NameWalk ZoneImage ZoneLookup Denial ZoneArena ZoneTtl ZoneRules ZoneFreeze ZoneIndex.

Module FreezeNames.
Import CLib Cidr DnsName NameText WireName Compress ZoneAttr TypeName CanonOrder RdataText Record Svcb RrWrite NameWalk ZoneImage ZoneLookup Denial ZoneArena ZoneTtl ZoneRules ZoneFreeze ZoneIndex.

(** ** Lemmas: sizes *)

Lemma next_pow2_from_spec f : forall p n, 0 < p -> exists k, 0 <= k <= Z.of_nat f /\ next_pow2_from f p n = p * 2 ^ k /\ (n <= p * 2 ^ k \/ k = Z.of_nat f).
Proof.
  induction f as [| f IH]; intros p n Hp; cbn [next_pow2_from]; [exists 0; rewrite Z.mul_1_r; split_and!; [lia | lia | done | by right] |].
  destruct (Z.ltb_spec p n); [| exists 0; rewrite Z.mul_1_r; split_and!; [lia | lia | done | left; lia]].
  rewrite Z.shiftl_mul_pow2 by lia. destruct (IH (p * 2 ^ 1) n) as (k & Hk & E & Hn); [lia |].
  exists (k + 1). rewrite E. replace (p * 2 ^ 1 * 2 ^ k) with (p * 2 ^ (k + 1)) in * by (rewrite Z.pow_add_r by lia; lia). split_and!; [lia | lia | done |].
  destruct Hn; [by left | right; lia].
Qed.

Lemma hash_size_from_spec f : forall s n, 0 < s -> exists k, 0 <= k <= Z.of_nat f /\ hash_size_from f s n = s * 2 ^ k /\ (n * 4 <= s * 2 ^ k * 3 \/ k = Z.of_nat f) /\
  (k = 0 \/ s * 2 ^ (k - 1) * 3 < n * 4).
Proof.
  induction f as [| f IH]; intros s n Hs; cbn [hash_size_from]; [exists 0; rewrite Z.mul_1_r; split_and!; [lia | lia | done | by right | by left] |].
  destruct (Z.ltb_spec (s * 3) (n * 4)); [| exists 0; rewrite Z.mul_1_r; split_and!; [lia | lia | done | left; lia | by left]].
  rewrite Z.shiftl_mul_pow2 by lia. destruct (IH (s * 2 ^ 1) n) as (k & Hk & E & Hn & Hmin); [lia |].
  exists (k + 1). rewrite E. replace (s * 2 ^ 1 * 2 ^ k) with (s * 2 ^ (k + 1)) in * by (rewrite Z.pow_add_r by lia; lia). split_and!; [lia | lia | done | destruct Hn; [by left | right; lia] |].
  right. replace (k + 1 - 1) with k by lia. destruct Hmin as [-> | Hmin]; [lia |]. replace (2 ^ k) with (2 ^ (1 + (k - 1))) by (f_equal; lia).
  destruct (Z.eq_dec k 0) as [-> |]; [cbn in *; lia |]. rewrite Z.pow_add_r by lia. lia.
Qed.

(** The slots of the table of the names: the smallest power of two, and at
    least 4, of which the names take three quarters at most. *)
Definition hash_slots (n : Z) : Z := 4 * 2 ^ Z.log2_up ((n + 2) / 3).

Lemma hash_size_slots n : 0 <= n < 4294967296 -> hash_size_from 64 4 n = hash_slots n.
Proof.
  intros Hn. destruct (hash_size_from_spec 64 4 n) as (k & Hk & -> & Hbig & Hmin); [lia |]. unfold hash_slots. do 2 f_equal. symmetry. pose proof (Z.div_mod (n + 2) 3 ltac:(lia)) as Hd.
  pose proof (Z.mod_pos_bound (n + 2) 3 ltac:(lia)). assert ((n + 2) / 3 <= 2 ^ k) as Hle.
  { destruct Hbig as [? | ->]; [lia |]. change (2 ^ Z.of_nat 64) with 18446744073709551616. lia. }
  destruct (Z.eq_dec k 0) as [-> | Hk0]; [apply Z.log2_up_eqn0; cbn in Hle; lia |]. destruct Hmin as [? | Hmin]; [done |]. apply Z.log2_up_unique; [lia |].
  replace (Z.pred k) with (k - 1) by lia. lia.
Qed.

(** ** Lemmas: tables with free slots *)

Definition zeros (tab : list Z) : nat := length (filter (fun v => v = 0) tab).

Lemma zeros_fill tab : forall s v, tab !! s = Some 0 -> v <> 0 -> S (zeros (<[s := v]> tab)) = zeros tab.
Proof.
  unfold zeros. induction tab as [| x tab IH]; intros s v Hs Hv; [done |]. destruct s as [| s]; cbn in Hs.
  - injection Hs as ->. change (<[0%nat := v]> (0 :: tab)) with (v :: tab). by rewrite filter_cons_False, filter_cons_True by done.
  - change (<[S s := v]> (x :: tab)) with (x :: <[s := v]> tab). specialize (IH s v Hs Hv). destruct (decide (x = 0)).
    + rewrite !filter_cons_True by done. cbn. by rewrite IH.
    + by rewrite !filter_cons_False by done.
Qed.

Lemma zeros_elem tab : (0 < zeros tab)%nat -> 0 ∈ tab.
Proof.
  unfold zeros. destruct (filter _ tab) as [| x l] eqn:E; cbn; [lia |]. intros _. assert (x ∈ filter (fun v => v = 0) tab) as H by (rewrite E; left).
  apply list_elem_of_filter in H as [-> H]. done.
Qed.

(** A table with its entries, of which the rest of the slots are free. *)
Definition table_ok (tab : list Z) (ents : list (Z * list Z)) : Prop :=
  (exists bits, 0 <= bits /\ len tab = 2 ^ bits) /\ index_ok tab ents /\ Z.of_nat (zeros tab) + len ents = len tab.

Lemma table_free tab ents : table_ok tab ents -> len ents < len tab -> 0 ∈ tab.
Proof. intros (_ & _ & Hz) H. apply zeros_elem. lia. Qed.

Lemma table_new bits : 0 <= bits -> table_ok (replicate (Z.to_nat (2 ^ bits)) 0) [].
Proof.
  intros Hb. pose proof (Z.pow_pos_nonneg 2 bits ltac:(lia) Hb). assert (len (replicate (Z.to_nat (2 ^ bits)) 0) = 2 ^ bits) as Hl by (rewrite length_replicate; lia).
  split_and!; [by exists bits | |].
  - split; [intros s v [-> _]%lookup_replicate; cbn; lia | done].
  - rewrite Hl. unfold zeros. revert H. generalize (2 ^ bits). intros n Hn. cbn [length]. rewrite Z.add_0_r. enough (length (filter (fun v => v = 0) (replicate (Z.to_nat n) 0)) = Z.to_nat n) by lia.
    induction (Z.to_nat n) as [| m IH]; [done |]. cbn [replicate]. rewrite filter_cons_True by done. cbn. by rewrite IH.
Qed.

Lemma table_add tab ents h t : table_ok tab ents -> len ents < len tab ->
  exists tab', fill_slot (length tab) tab (len tab - 1) (Z.land h (len tab - 1)) (len ents + 1) = Ret tab' /\ table_ok tab' (ents ++ [(h, t)]) /\ length tab' = length tab.
Proof.
  intros Hok Hlt. pose proof (table_free _ _ Hok Hlt) as H0. destruct Hok as ((bits & Hb & Hl) & Hix & Hz).
  destruct (fill_slot_spec tab bits Hb Hl h (len ents + 1) H0) as (d & Hd & Hfree & Hu & ->). eexists. split; [done |].
  rewrite length_insert. split; [| done]. split_and!; [exists bits; by rewrite length_insert | by eapply fill_index_ok |].
  rewrite length_insert, length_app. cbn [length]. pose proof (zeros_fill tab (pos tab h d) (len ents + 1) Hfree ltac:(lia)). lia.
Qed.

Lemma table_find tab ents h name : table_ok tab ents -> len ents < len tab ->
  exists r, find_slot (length tab) (at_ix ents) tab (len tab - 1) h name (Z.land h (len tab - 1)) = Ret r /\
    match r with Some id => match_of ents h name id | None => forall id, ~ match_of ents h name id end.
Proof. intros Hok Hlt. pose proof (table_free _ _ Hok Hlt) as H0. destruct Hok as ((bits & Hb & Hl) & Hix & _). by eapply find_slot_spec. Qed.

(** ** Lemmas: the owners *)

(** The labels of a name without case: what makes two names the same. *)
Definition key (t : list Z) : list (list Z) := lower (labels_of t).

Definition entries (names : list tmp_name_t) : list (Z * list Z) := map (fun tn => (tn_hash tn, tn_text tn)) names.

(** The first record of each name, in file order; [seen] are the names met
    before. *)
Fixpoint first_records (seen : list (list Z)) (rs : list arena_record_t) : list arena_record_t :=
  match rs with
  | [] => []
  | r :: rs' =>
      if negb (present r) || existsb (fun t => domain_names_match_ci t (name_of r)) seen then first_records seen rs'
      else r :: first_records (seen ++ [name_of r]) rs'
  end.

(** How many of the records have the name. *)
Definition cnt (id : Z) (ids : list (option Z)) : Z := Z.of_nat (length (filter (fun x => x = Some id) ids)).

Lemma cnt_cons id x ids : cnt id (x :: ids) = (if bool_decide (x = Some id) then 1 else 0) + cnt id ids.
Proof. unfold cnt. rewrite filter_cons. case_decide; [rewrite bool_decide_eq_true_2 by done | rewrite bool_decide_eq_false_2 by done]; cbn [length]; lia. Qed.

Lemma cnt_app id a b : cnt id (a ++ b) = cnt id a + cnt id b.
Proof. unfold cnt. rewrite filter_app, length_app. lia. Qed.

Section Owners.
Context (all : list arena_record_t) (Hnames : names_ok all).

Record owners_ok (ix : tmp_index_t) : Prop := OwnersOk {
  ow_table : table_ok (ix_tab ix) (entries (ix_names ix));
  ow_name : forall id tn, ix_names ix !! id = Some tn -> tn_hash tn = dns_name_hash_ci (tn_text tn) /\
    exists r, record_at all (tn_first_rec tn) = Ret r /\ present r = true /\ name_of r = tn_text tn;
  ow_distinct : forall id id' tn tn', ix_names ix !! id = Some tn -> ix_names ix !! id' = Some tn' -> key (tn_text tn) = key (tn_text tn') -> id = id'
}.

Lemma present_text r : r ∈ all -> present r = true -> canonical_text (name_of r) (labels_of (name_of r)).
Proof. intros Hin Hp. destruct (Hnames r Hin Hp) as [ls Hl]. by rewrite (labels_of_text _ _ Hl). Qed.

Lemma tmp_text ix id tn : owners_ok ix -> ix_names ix !! id = Some tn -> canonical_text (tn_text tn) (labels_of (tn_text tn)).
Proof. intros Hok E. destruct (ow_name _ Hok _ _ E) as (_ & r & Hr & Hp & <-). apply present_text; [by eapply at_ix_elem | done]. Qed.

Lemma canonical_text_bytes t ls : canonical_text t ls -> bytes t.
Proof. intros Ht%canonical_text_chars. eapply Forall_impl; [exact Ht |]. unfold ischar, isbyte. lia. Qed.

Lemma hash_octets_relative t : bytes t -> dns_name_hash_ci t = foldl fnv_step 2166136261 (map tolower (relative t)).
Proof.
  intros Hb. unfold dns_name_hash_ci. fold (relative t). unfold relative. apply (Forall_take _ (dns_name_len_no_root t (length t))) in Hb. revert Hb.
  generalize (take (dns_name_len_no_root t (length t)) t) 2166136261. induction l as [| c l IH]; intros h Hb; [done |]. apply Forall_cons_1 in Hb as [Hc Hb]. cbn.
  rewrite u8_small, lc_tolower by (unfold isbyte in Hc; lia). by apply IH.
Qed.

(** Looking up a text in the table of the names. *)
Lemma tmp_find_any ix t : owners_ok ix -> len (ix_names ix) < len (ix_tab ix) ->
  exists r, tmp_find ix t (dns_name_hash_ci t) = Ret r /\
    (forall id, r = Some id -> 0 <= id < len (ix_names ix)) /\
    (bytes t -> match r with
      | Some id => exists tn, ix_names ix !! Z.to_nat id = Some tn /\ domain_names_match_ci (tn_text tn) t = true
      | None => forall id tn, ix_names ix !! id = Some tn -> domain_names_match_ci (tn_text tn) t = false
      end).
Proof.
  intros Hok Hlt. unfold tmp_find.
  assert (forall fuel tab mask h name s, find_slot fuel (tmp_entry (ix_names ix)) tab mask h name s = find_slot fuel (at_ix (entries (ix_names ix))) tab mask h name s) as Heq.
  { induction fuel as [| fuel IH]; intros; [done |]. cbn [find_slot]. destruct (at_ix tab s) as [v | | |]; [| done..]. cbn [obind].
    unfold entries, tmp_entry. rewrite at_ix_map. destruct (v =? 0); [done |]. destruct (at_ix (ix_names ix) (v - 1)) as [tn | | |]; [| done..]. cbn [obind]. by rewrite IH. }
  rewrite Heq. destruct (table_find _ _ (dns_name_hash_ci t) t (ow_table _ Hok)) as (r & -> & Hr); [unfold entries; by rewrite length_map |].
  exists r. split; [done |].
  assert (forall id h t', at_ix (entries (ix_names ix)) id = Ret (h, t') -> exists tn, 0 <= id /\ ix_names ix !! Z.to_nat id = Some tn /\ tn_text tn = t' /\ tn_hash tn = h) as Hent.
  { intros id h t' [Hid E]%at_ix_Ret. unfold entries in E. change (map ?f ?l) with (f <$> l) in E. rewrite list_lookup_fmap in E.
    destruct (ix_names ix !! Z.to_nat id) as [tn |] eqn:Et; [| done]. injection E as <- <-. by exists tn. }
  split.
  - intros id ->. destruct Hr as (t' & Ha & _). destruct (Hent _ _ _ Ha) as (tn & Hid & E & _). apply lookup_lt_Some in E. lia.
  - intros Hb. destruct r as [id |].
    + destruct Hr as (t' & Ha & Hm). destruct (Hent _ _ _ Ha) as (tn & Hid & E & <- & _). by exists tn.
    + intros id tn E. destruct (domain_names_match_ci (tn_text tn) t) eqn:Em; [| done]. exfalso. destruct (ow_name _ Hok _ _ E) as [Hh _]. apply (Hr (Z.of_nat id)). exists (tn_text tn).
      split; [| done]. unfold entries. rewrite at_ix_map, (at_ix_nat _ _ _ E). cbn [obind]. rewrite Hh. apply match_ci_relative in Em.
      rewrite !hash_octets_relative, Em; [done | done | eapply canonical_text_bytes, (tmp_text _ _ _ Hok E)].
Qed.

Lemma tmp_find_spec ix t : owners_ok ix -> len (ix_names ix) < len (ix_tab ix) ->
  exists r, tmp_find ix t (dns_name_hash_ci t) = Ret r /\
    (forall id, r = Some id -> 0 <= id < len (ix_names ix)) /\
    (forall ls, canonical_text t ls -> match r with
      | Some id => exists tn, ix_names ix !! Z.to_nat id = Some tn /\ key (tn_text tn) = key t
      | None => forall id tn, ix_names ix !! id = Some tn -> key (tn_text tn) <> key t
      end).
Proof.
  intros Hok Hlt. destruct (tmp_find_any ix t Hok Hlt) as (r & E & Hrange & Hm). exists r. split_and!; [done | done |]. intros ls Hls. specialize (Hm (canonical_text_bytes _ _ Hls)).
  assert (forall id tn, ix_names ix !! id = Some tn -> domain_names_match_ci (tn_text tn) t = true <-> key (tn_text tn) = key t) as Hk.
  { intros id tn Etn. rewrite (match_labels _ _ _ _ (tmp_text _ _ _ Hok Etn) Hls). unfold key. by rewrite (labels_of_text _ _ Hls). }
  destruct r as [id |]; [destruct Hm as (tn & Etn & Hm); exists tn; split; [done |]; by apply (Hk _ _ Etn) |].
  intros id tn Etn Ek. apply (Hk _ _ Etn) in Ek. by rewrite (Hm _ _ Etn) in Ek.
Qed.

Lemma entries_count names id tn c : names !! id = Some tn -> entries (<[id := set_count c tn]> names) = entries names.
Proof.
  intros E. unfold entries. change (map ?f ?l) with (f <$> l). rewrite list_fmap_insert. apply list_insert_id. by rewrite list_lookup_fmap, E.
Qed.

Lemma owners_count ix id tn c : owners_ok ix -> ix_names ix !! id = Some tn -> owners_ok (TmpIndex (ix_tab ix) (<[id := set_count c tn]> (ix_names ix))).
Proof.
  intros [Ht Hn Hd] E. assert (forall k x, <[id := set_count c tn]> (ix_names ix) !! k = Some x -> exists y, ix_names ix !! k = Some y /\ tn_text x = tn_text y /\
    tn_hash x = tn_hash y /\ tn_first_rec x = tn_first_rec y) as Hback.
  { intros k x Hk. destruct (decide (k = id)) as [-> | Hne]; [rewrite list_lookup_insert_eq in Hk by (by eapply lookup_lt_Some); injection Hk as <-; by exists tn |].
    rewrite list_lookup_insert_ne in Hk by done. by exists x. }
  split; cbn [ix_tab ix_names].
  - by rewrite entries_count.
  - intros k x (y & Ey & -> & -> & ->)%Hback. by eapply Hn.
  - intros k k' x x' (y & Ey & -> & _)%Hback (y' & Ey' & -> & _)%Hback. by apply Hd.
Qed.

Lemma owners_add ix r i : owners_ok ix -> len (ix_names ix) < len (ix_tab ix) -> record_at all i = Ret r -> present r = true ->
  (forall id tn, ix_names ix !! id = Some tn -> key (tn_text tn) <> key (name_of r)) ->
  exists tab, tmp_add ix (name_of r) (dns_name_hash_ci (name_of r)) i =
      Ret (TmpIndex tab (ix_names ix ++ [TmpName (name_of r) (dns_name_hash_ci (name_of r)) 0 i 0]), len (ix_names ix)) /\
    length tab = length (ix_tab ix) /\ owners_ok (TmpIndex tab (ix_names ix ++ [TmpName (name_of r) (dns_name_hash_ci (name_of r)) 0 i 0])).
Proof.
  intros [Ht Hn Hd] Hlt Hi Hp Hnew. unfold tmp_add.
  destruct (table_add _ _ (dns_name_hash_ci (name_of r)) (name_of r) Ht) as (tab & E & Ht' & Hl); [unfold entries; by rewrite length_map |].
  unfold entries in E. rewrite length_map in E. rewrite E. cbn [obind]. exists tab. split_and!; [done | done |].
  assert (forall k x, (ix_names ix ++ [TmpName (name_of r) (dns_name_hash_ci (name_of r)) 0 i 0]) !! k = Some x ->
    ix_names ix !! k = Some x \/ (k = length (ix_names ix) /\ x = TmpName (name_of r) (dns_name_hash_ci (name_of r)) 0 i 0)) as Hback.
  { intros k x [Hk | [Hk Hx]]%lookup_app_Some; [by left | right]. destruct (k - length (ix_names ix))%nat as [| m] eqn:Ek; [| by destruct m]. injection Hx as <-. split; [lia | done]. }
  split; cbn [ix_tab ix_names].
  - unfold entries in *. by rewrite map_app.
  - intros k x [Hk | [_ ->]]%Hback; [by eapply Hn |]. cbn. split; [done | by exists r].
  - intros k k' x x' [Hk | [-> ->]]%Hback [Hk' | [-> ->]]%Hback Ek; [by eapply Hd | by destruct (Hnew k x Hk) | by destruct (Hnew k' x' Hk') | done].
Qed.

(** The number of the name of a record. *)
Definition owns (names : list tmp_name_t) (r : arena_record_t) (x : option Z) : Prop :=
  match x with
  | None => present r = false
  | Some id => present r = true /\ 0 <= id /\ exists tn, names !! Z.to_nat id = Some tn /\ key (tn_text tn) = key (name_of r)
  end.

Definition old_count (names : list tmp_name_t) (id : nat) : Z := match names !! id with Some tn => tn_count tn | None => 0 end.

(** What [owners] returns for the records that are left. *)
Record owned (rs : list arena_record_t) (ix ix' : tmp_index_t) (ids : list (option Z)) : Prop := Owned {
  od_ok : owners_ok ix';
  od_tab : length (ix_tab ix') = length (ix_tab ix);
  od_size : len (ix_names ix') <= len (ix_names ix) + len rs;
  od_ids : Forall2 (owns (ix_names ix')) rs ids;
  od_keep : forall id tn, ix_names ix !! id = Some tn -> exists tn', ix_names ix' !! id = Some tn' /\ tn_text tn' = tn_text tn;
  od_count : forall id tn', ix_names ix' !! id = Some tn' -> tn_count tn' = old_count (ix_names ix) id + cnt (Z.of_nat id) ids;
  od_texts : map tn_text (ix_names ix') = map tn_text (ix_names ix) ++ map name_of (first_records (map tn_text (ix_names ix)) rs);
  od_order : forall i id id', ids !! i = Some (Some id) -> len (ix_names ix) <= id' < id -> exists j, (j < i)%nat /\ ids !! j = Some (Some id')
}.

Lemma owned_step r rs ix ix1 ix' ids id tn : present r = true -> 0 <= id -> ix_names ix1 !! Z.to_nat id = Some tn -> key (tn_text tn) = key (name_of r) ->
  length (ix_tab ix1) = length (ix_tab ix) -> len (ix_names ix1) <= len (ix_names ix) + 1 ->
  (forall k x, ix_names ix !! k = Some x -> ix_names ix1 !! k = Some x) -> (forall k, old_count (ix_names ix1) k = old_count (ix_names ix) k) ->
  (ix_names ix1 = ix_names ix /\ id < len (ix_names ix) \/ exists new, ix_names ix1 = ix_names ix ++ [new] /\ id = len (ix_names ix) /\ tn_text new = name_of r) ->
  existsb (fun t => domain_names_match_ci t (name_of r)) (map tn_text (ix_names ix)) = (id <? len (ix_names ix)) ->
  owned rs (TmpIndex (ix_tab ix1) (<[Z.to_nat id := set_count (tn_count tn + 1) tn]> (ix_names ix1))) ix' ids -> owned (r :: rs) ix ix' (Some id :: ids).
Proof.
  intros Hp Hid Htn Hk Htab Hsize Hkeep Hcount Hnew Hseen [Hok Ht Hs Hids Hke Hc Htx Hor]. cbn [ix_tab ix_names] in *. rewrite length_insert in Hs.
  assert (Z.to_nat id < length (ix_names ix1))%nat as Hlt by (by eapply lookup_lt_Some).
  split; [done | lia | cbn [length]; lia | | | | |].
  - apply Forall2_cons. split; [| done]. split_and!; [done | done |]. destruct (Hke (Z.to_nat id) (set_count (tn_count tn + 1) tn)) as (tn' & E & Et); [by rewrite list_lookup_insert_eq |].
    exists tn'. split; [done |]. by rewrite Et.
  - intros k x Hx. apply Hkeep in Hx. destruct (decide (k = Z.to_nat id)) as [-> | Hne].
    + destruct (Hke (Z.to_nat id) (set_count (tn_count tn + 1) tn)) as (tn' & E & Et); [by rewrite list_lookup_insert_eq |]. exists tn'. split; [done |]. rewrite Et.
      by rewrite Htn in Hx; injection Hx as ->.
    + apply (Hke k x). by rewrite list_lookup_insert_ne.
  - intros k tn' Hk'. rewrite (Hc k tn' Hk'), cnt_cons, <- (Hcount k). unfold old_count at 1. destruct (decide (k = Z.to_nat id)) as [-> | Hne].
    + rewrite list_lookup_insert_eq by done. rewrite Z2Nat.id, bool_decide_eq_true_2 by done. unfold old_count. rewrite Htn. cbn. lia.
    + rewrite list_lookup_insert_ne by done. rewrite bool_decide_eq_false_2; [unfold old_count; lia |]. intros [= ->]. by rewrite Nat2Z.id in Hne.
  - rewrite Htx. assert (map tn_text (<[Z.to_nat id := set_count (tn_count tn + 1) tn]> (ix_names ix1)) = map tn_text (ix_names ix1)) as ->.
    { change (map ?f ?l) with (f <$> l). rewrite list_fmap_insert. apply list_insert_id. by rewrite list_lookup_fmap, Htn. }
    cbn [first_records]. rewrite Hp, Hseen. cbn [negb orb]. destruct Hnew as [[-> Hlo] | (new & -> & -> & En)].
    + by rewrite (proj2 (Z.ltb_lt _ _) Hlo).
    + rewrite Z.ltb_irrefl, map_app. cbn [map]. rewrite En, <- app_assoc. done.
  - intros i k k' Hi Hk'. rewrite length_insert in Hor. destruct i as [| i]; cbn in Hi; [injection Hi as ->; destruct Hnew as [[_ ?] | (_ & _ & -> & _)]; lia |].
    destruct (Z.ltb_spec k' (len (ix_names ix1))) as [Hlo |]; [| destruct (Hor i k k' Hi) as (j & Hj & Ej); [lia | exists (S j); split; [lia | done]]].
    exists 0%nat. split; [lia |]. cbn. do 2 f_equal. destruct Hnew as [[E1 _] | (new & E1 & -> & _)]; rewrite E1, ?length_app in Hlo; cbn [length] in Hlo; lia.
Qed.

Lemma owners_spec rs : forall i ix, owners_ok ix -> (forall k, rs !! k = all !! (i + k)%nat) -> len (ix_names ix) + len rs < len (ix_tab ix) ->
  exists ix' ids, owners (Z.of_nat i) rs ix = Ret (ix', ids) /\ owned rs ix ix' ids.
Proof.
  induction rs as [| r rs IH]; intros i ix Hok Hk Hlt; cbn [owners].
  { exists ix, []. split; [done |]. split; [done | done | cbn; lia | by apply Forall2_nil | by eauto | intros id tn' E; unfold old_count; rewrite E; change (cnt (Z.of_nat id) []) with 0; lia | by rewrite app_nil_r | done]. }
  assert (forall k, rs !! k = all !! (S i + k)%nat) as Hk' by (intros k; etransitivity; [exact (Hk (S k)) |]; f_equal; lia).
  assert (record_at all (Z.of_nat i) = Ret r) as Hi by (apply at_ix_nat; by rewrite <- (Nat.add_0_r i), <- (Hk 0%nat)).
  replace (Z.of_nat i + 1) with (Z.of_nat (S i)) by lia. cbn [length] in Hlt. destruct (present r) eqn:Hp; cbn [negb].
  2: { destruct (IH (S i) ix Hok Hk') as (ix' & ids & -> & [Ho Ht Hs Hids Hke Hc Htx Hor]); [lia |]. cbn [obind]. exists ix', (None :: ids). split; [done |].
    split; [done | done | cbn [length]; lia | by apply Forall2_cons | done | | cbn [first_records]; by rewrite Hp |].
    - intros id tn' E. rewrite cnt_cons, bool_decide_eq_false_2 by done. rewrite (Hc _ _ E). lia.
    - intros [| k] id id' Ek Hid; [done |]. destruct (Hor k id id' Ek Hid) as (j & Hj & Ej). exists (S j). split; [lia | done]. }
  destruct (tmp_find_spec ix (name_of r) Hok) as (found & -> & Hrange & Hf); [lia |]. cbn [obind].
  specialize (Hf _ (present_text r (at_ix_elem _ _ _ Hi) Hp)). pose proof (present_text r (at_ix_elem _ _ _ Hi) Hp) as Htr. destruct found as [id |].
  - destruct Hf as (tn & Etn & Ekey). specialize (Hrange id eq_refl). cbn [obind]. rewrite (proj2 (at_ix_Ret _ _ _) (conj (proj1 Hrange) Etn)). cbn [obind].
    destruct (IH (S i) (TmpIndex (ix_tab ix) (<[Z.to_nat id := set_count (tn_count tn + 1) tn]> (ix_names ix)))) as (ix' & ids & -> & Hod);
      [by apply owners_count | done | cbn [ix_tab ix_names]; rewrite length_insert; lia |].
    cbn [obind]. exists ix', (Some id :: ids). split; [done |]. eapply (owned_step _ _ _ ix); [done | lia | done | done | done | lia | done | done | left; split; [done | lia] | | done].
    rewrite (proj2 (Z.ltb_lt id _)) by lia. apply existsb_exists. exists (tn_text tn). split; [apply in_map, list_elem_of_In; by eapply list_elem_of_lookup_2 |].
    by apply (match_labels _ _ _ _ (tmp_text _ _ _ Hok Etn) Htr).
  - destruct (owners_add ix r (Z.of_nat i) Hok) as (tab & -> & Htab & Hok1); [lia | done | done | done |]. set (new := TmpName _ _ _ _ _) in *. cbn [obind ix_names ix_tab].
    assert ((ix_names ix ++ [new]) !! length (ix_names ix) = Some new) as Enew by (by rewrite lookup_app_r, Nat.sub_diag by lia).
    rewrite (at_ix_nat _ _ _ Enew). cbn [obind]. rewrite Nat2Z.id.
    destruct (IH (S i) (TmpIndex tab (<[length (ix_names ix) := set_count (tn_count new + 1) new]> (ix_names ix ++ [new])))) as (ix' & ids & -> & Hod);
      [by apply (owners_count (TmpIndex tab (ix_names ix ++ [new]))) | done | cbn [ix_tab ix_names]; rewrite length_insert, length_app; cbn [length]; lia |].
    cbn [obind]. exists ix', (Some (len (ix_names ix)) :: ids). split; [done |].
    eapply (owned_step _ _ _ (TmpIndex tab (ix_names ix ++ [new])) _ _ (len (ix_names ix)) new); cbn [ix_tab ix_names]; rewrite ?Nat2Z.id; [done | lia | done | done | done | | | | right; by exists new | | done].
    + rewrite length_app. cbn. lia.
    + intros k x Hx. by apply lookup_app_l_Some.
    + intros k. unfold old_count. destruct (decide (k < length (ix_names ix))%nat); [by rewrite lookup_app_l |].
      rewrite lookup_app_r, (lookup_ge_None_2 (ix_names ix)) by lia. destruct (k - length (ix_names ix))%nat as [| m]; [done | by destruct m].
    + rewrite Z.ltb_irrefl. apply not_true_is_false. intros (t & (tn & <- & [k Ek]%list_elem_of_In%list_elem_of_lookup_1)%in_map_iff & Hm)%existsb_exists.
      apply (match_labels _ _ _ _ (tmp_text _ _ _ Hok Ek) Htr) in Hm. by destruct (Hf k tn Ek).
Qed.

(** The whole table of owners. *)
Lemma owners_total : len all < 2147483647 -> exists ix ids, owners 0 all (TmpIndex (tmp_table (len all)) []) = Ret (ix, ids) /\
  owned all (TmpIndex (tmp_table (len all)) []) ix ids /\ len (ix_names ix) < len (ix_tab ix).
Proof.
  intros Hn. destruct (next_pow2_from_spec 64 8 (len all * 2 + 2)) as (k & Hk & E & Hbig); [lia |]. change 8 with (2 ^ 3) in E at 2. rewrite <- Z.pow_add_r in E by lia.
  assert (len all * 2 + 2 <= 2 ^ (3 + k)) as Hroom.
  { rewrite Z.pow_add_r by lia. destruct Hbig as [? | ->]; [done |]. change (2 ^ Z.of_nat 64) with 18446744073709551616. lia. }
  unfold tmp_table. rewrite E. assert (len (replicate (Z.to_nat (2 ^ (3 + k))) 0) = 2 ^ (3 + k)) as Hl by (rewrite length_replicate; lia).
  destruct (owners_spec all 0 (TmpIndex (replicate (Z.to_nat (2 ^ (3 + k))) 0) [])) as (ix & ids & Eo & Hod).
  { split; cbn; [apply table_new; lia | done | done]. } { done. } { cbn [ix_names ix_tab]. cbn [length]. lia. }
  exists ix, ids. split_and!; [exact Eo | done |]. pose proof (od_tab _ _ _ _ Hod) as H1. pose proof (od_size _ _ _ _ Hod) as H2. cbn [ix_tab ix_names] in *. cbn [length] in H2. lia.
Qed.

End Owners.

(** ** Lemmas: the places *)

Definition total (names : list tmp_name_t) : Z := zsum (map tn_count names).

Lemma zsum_app a b : zsum (a ++ b) = zsum a + zsum b.
Proof. unfold zsum. induction a as [| x a IH]; cbn; [done | lia]. Qed.

Lemma total_app a b : total (a ++ b) = total a + total b.
Proof. unfold total. by rewrite map_app, zsum_app. Qed.

Lemma total_split names i tn : names !! i = Some tn -> total names = total (take i names) + tn_count tn + total (drop (S i) names).
Proof. intros E. rewrite <- (take_drop_middle names i tn E) at 1. rewrite total_app. unfold total at 2. cbn. unfold total. unfold zsum. lia. Qed.

(** [cursors] refuses a name with too many records, else puts the names one
    after the other. *)
Lemma cursors_spec names : forall run,
  (cursors run names = Fail /\ exists tn, tn ∈ names /\ ZONE_IMAGE_NAME_COUNT_MASK < tn_count tn) \/
  exists names', cursors run names = Ret names' /\ length names' = length names /\
    forall i tn, names !! i = Some tn -> tn_count tn <= ZONE_IMAGE_NAME_COUNT_MASK /\ names' !! i = Some (set_cursor (run + total (take i names)) tn).
Proof.
  induction names as [| tn names IH]; intros run; cbn [cursors]; [right; by exists [] |].
  destruct (Z.ltb_spec ZONE_IMAGE_NAME_COUNT_MASK (tn_count tn)) as [Hlt | Hle]; [left; split; [done | exists tn; split; [left | done]] |].
  destruct (IH (run + tn_count tn)) as [[-> (x & Hx & ?)] | (names' & -> & Hl & Hn)]; cbn [obind]; [left; split; [done | exists x; split; [by right | done]] | right].
  exists (set_cursor run tn :: names'). split_and!; [done | cbn; by rewrite Hl |]. intros [| i] x Hx; cbn in Hx.
  - injection Hx as <-. split; [done |]. cbn. do 2 f_equal. unfold total. cbn. lia.
  - destruct (Hn i x Hx) as [? E]. split; [done |]. etransitivity; [exact E |]. do 2 f_equal. unfold total, zsum. cbn. lia.
Qed.

Section Places.
Context (ids : list (option Z)) (tmp : list tmp_name_t).
Context (Hids : forall i id, ids !! i = Some (Some id) -> 0 <= id /\ exists tn, tmp !! Z.to_nat id = Some tn).
Context (Htmp : forall id tn, tmp !! id = Some tn -> tn_count tn = cnt (Z.of_nat id) ids /\ tn_cursor tn = total (take id tmp)).

(** The place of a record. *)
Definition place (i : nat) : option Z :=
  match ids !! i with
  | Some (Some id) => match tmp !! Z.to_nat id with Some tn => Some (tn_cursor tn + cnt id (take i ids)) | None => None end
  | _ => None
  end.

Lemma cnt_nonneg id l : 0 <= cnt id l.
Proof. unfold cnt. lia. Qed.

Lemma total_nonneg l : (forall tn, tn ∈ l -> tn ∈ tmp) -> 0 <= total l.
Proof.
  unfold total. induction l as [| tn l IH]; intros Hl; cbn; [lia |]. assert (0 <= zsum (map tn_count l)) by (apply IH; intros; apply Hl; by right).
  assert (tn ∈ tmp) as [i E]%list_elem_of_lookup_1 by (apply Hl; left). destruct (Htmp i tn E) as [-> _]. pose proof (cnt_nonneg (Z.of_nat i) ids). unfold zsum in *. lia.
Qed.

Lemma cnt_take_S i id : ids !! i = Some (Some id) -> cnt id (take (S i) ids) = cnt id (take i ids) + 1.
Proof. intros E. rewrite (take_S_r _ _ _ E), cnt_app, cnt_cons, bool_decide_eq_true_2 by done. change (cnt id []) with 0. lia. Qed.

Lemma cnt_take_le i j id : (i <= j)%nat -> cnt id (take i ids) <= cnt id (take j ids).
Proof. intros Hij. rewrite <- (take_drop i (take j ids)), take_take, cnt_app. replace (i `min` j)%nat with i by lia. pose proof (cnt_nonneg id (drop i (take j ids))). lia. Qed.

Lemma cnt_take_all i id : cnt id (take i ids) <= cnt id ids.
Proof. rewrite <- (take_drop i ids) at 2. rewrite cnt_app. pose proof (cnt_nonneg id (drop i ids)). lia. Qed.

(** The range of a name. *)
Lemma place_range i p : place i = Some p -> exists id tn, ids !! i = Some (Some id) /\ 0 <= id /\ tmp !! Z.to_nat id = Some tn /\
  p = tn_cursor tn + cnt id (take i ids) /\ tn_cursor tn <= p < tn_cursor tn + tn_count tn.
Proof.
  unfold place. destruct (ids !! i) as [[id |] |] eqn:Ei; [| done..]. destruct (Hids i id Ei) as (Hid & tn & Etn). rewrite Etn. intros [= <-].
  exists id, tn. destruct (Htmp _ _ Etn) as [Hc _]. rewrite Z2Nat.id in Hc by done. pose proof (cnt_take_S i id Ei). pose proof (cnt_take_all (S i) id). pose proof (cnt_nonneg id (take i ids)).
  do 4 (split; [done |]). lia.
Qed.

Lemma cursor_next id tn : tmp !! id = Some tn -> total (take (S id) tmp) = tn_cursor tn + tn_count tn.
Proof. intros E. rewrite (take_S_r _ _ _ E), total_app. destruct (Htmp _ _ E) as [_ ->]. unfold total at 2. cbn. lia. Qed.

Lemma total_take_le i j : (i <= j)%nat -> total (take i tmp) <= total (take j tmp).
Proof.
  intros Hij. rewrite <- (take_drop i (take j tmp)), take_take, total_app. replace (i `min` j)%nat with i by lia.
  assert (0 <= total (drop i (take j tmp))); [| lia]. apply total_nonneg. intros tn Hin. apply list_elem_of_lookup in Hin as [k Hk]. rewrite lookup_drop in Hk. apply lookup_take_Some in Hk as [Hk _]. by eapply list_elem_of_lookup_2.
Qed.

Lemma place_bound i p : place i = Some p -> 0 <= p < total tmp.
Proof.
  intros (id & tn & _ & Hid & Etn & _ & Hr)%place_range. pose proof (total_take_le 0 (Z.to_nat id) ltac:(lia)). destruct (Htmp _ _ Etn) as [_ Hcur].
  pose proof (cursor_next _ _ Etn) as Hn. assert (total (take (S (Z.to_nat id)) tmp) <= total tmp).
  { rewrite <- (firstn_all tmp) at 2. apply total_take_le. apply lookup_lt_Some in Etn. lia. }
  change (total (take 0 tmp)) with 0 in *. lia.
Qed.

Lemma place_inj i j p : place i = Some p -> place j = Some p -> i = j.
Proof.
  intros (id & tn & Ei & Hid & Etn & Ep & Hr)%place_range (id' & tn' & Ej & Hid' & Etn' & Ep' & Hr')%place_range.
  assert (forall a b ta tb, tmp !! Z.to_nat a = Some ta -> tmp !! Z.to_nat b = Some tb -> 0 <= a < b -> tn_cursor ta + tn_count ta <= tn_cursor tb) as Hdis.
  { intros a b ta tb Ea Eb Hab. rewrite <- (cursor_next _ _ Ea). destruct (Htmp _ _ Eb) as [_ ->]. apply total_take_le. lia. }
  assert (id = id') as <-.
  { destruct (Z.lt_total id id') as [Hlt | [? | Hlt]]; [| done |]; [pose proof (Hdis _ _ _ _ Etn Etn' ltac:(lia)) | pose proof (Hdis _ _ _ _ Etn' Etn ltac:(lia))]; lia. }
  assert (tn' = tn) as -> by congruence. pose proof (cnt_take_S i id Ei). pose proof (cnt_take_S j id Ej).
  destruct (Nat.lt_total i j) as [Hlt | [? | Hlt]]; [pose proof (cnt_take_le (S i) j id) | done | pose proof (cnt_take_le (S j) i id)]; lia.
Qed.

(** Places are in the order of the names, then in file order. *)
Lemma place_lt i j p q id id' : place i = Some p -> place j = Some q -> ids !! i = Some (Some id) -> ids !! j = Some (Some id') -> id < id' \/ id = id' /\ (i < j)%nat -> p < q.
Proof.
  intros (x & tn & Ei & Hid & Etn & Ep & Hr)%place_range (y & tn' & Ej & Hid' & Etn' & Eq & Hr')%place_range Hi Hj. assert (x = id) as -> by congruence. assert (y = id') as -> by congruence.
  intros [Hlt | [-> Hlt]].
  - pose proof (cursor_next _ _ Etn) as Hn. destruct (Htmp _ _ Etn') as [_ Hc]. pose proof (total_take_le (S (Z.to_nat id)) (Z.to_nat id') ltac:(lia)). lia.
  - assert (tn' = tn) as -> by congruence. pose proof (cnt_take_S i id' Ei). pose proof (cnt_take_le (S i) j id' ltac:(lia)). lia.
Qed.

(** The record with the [m]th use of a name. *)
Lemma cnt_nth id : forall l m, 0 <= m < cnt id l -> exists i, l !! i = Some (Some id) /\ cnt id (take i l) = m.
Proof.
  induction l as [| x l IH]; intros m Hm; [change (cnt id []) with 0 in Hm; lia |]. rewrite cnt_cons in Hm. destruct (decide (x = Some id)) as [-> | Hne].
  - rewrite bool_decide_eq_true_2 in Hm by done. destruct (decide (m = 0)) as [-> |]; [by exists 0%nat |]. destruct (IH (m - 1)) as (i & Ei & Ec); [lia |].
    exists (S i). split; [done |]. cbn [take]. rewrite cnt_cons, bool_decide_eq_true_2 by done. lia.
  - rewrite bool_decide_eq_false_2 in Hm by done. destruct (IH m) as (i & Ei & Ec); [lia |]. exists (S i). split; [done |]. cbn [take].
    rewrite cnt_cons, bool_decide_eq_false_2 by done. lia.
Qed.

Lemma total_interval l : forall p, (forall tn, tn ∈ l -> 0 <= tn_count tn) -> 0 <= p < total l ->
  exists id tn, l !! id = Some tn /\ total (take id l) <= p < total (take id l) + tn_count tn.
Proof.
  induction l as [| tn l IH]; intros p Hl Hp; [unfold total in Hp; cbn in Hp; lia |]. assert (total (tn :: l) = tn_count tn + total l) as Et by done.
  destruct (Z.ltb_spec p (tn_count tn)); [exists 0%nat, tn; split; [done |]; unfold total; cbn; lia |].
  destruct (IH (p - tn_count tn)) as (id & x & Ex & Hx); [intros; apply Hl; by right | lia |]. exists (S id), x. split; [done |]. cbn [take].
  assert (total (tn :: take id l) = tn_count tn + total (take id l)) as -> by done. lia.
Qed.

Lemma place_onto p : 0 <= p < total tmp -> exists i, place i = Some p.
Proof.
  intros Hp. destruct (total_interval tmp p) as (id & tn & E & Hr); [| done |].
  { intros tn [i E]%list_elem_of_lookup_1. destruct (Htmp _ _ E) as [-> _]. apply cnt_nonneg. }
  destruct (Htmp _ _ E) as [Hc Hcur]. destruct (cnt_nth (Z.of_nat id) ids (p - tn_cursor tn)) as (i & Ei & Ec); [lia |].
  exists i. unfold place. rewrite Ei, Nat2Z.id, E, Ec. f_equal. lia.
Qed.

Lemma place_of_name id tn p : tmp !! id = Some tn -> tn_cursor tn <= p < tn_cursor tn + tn_count tn ->
  exists i, ids !! i = Some (Some (Z.of_nat id)) /\ place i = Some p.
Proof.
  intros E Hp. destruct (Htmp _ _ E) as [Hc _]. destruct (cnt_nth (Z.of_nat id) ids (p - tn_cursor tn)) as (i & Ei & Ec); [lia |].
  exists i. split; [done |]. unfold place. rewrite Ei, Nat2Z.id, E, Ec. f_equal. lia.
Qed.

Lemma places_spec rest : forall i names rr_rec, drop i ids = rest ->
  (forall id tn, tmp !! id = Some tn -> names !! id = Some (set_cursor (tn_cursor tn + cnt (Z.of_nat id) (take i ids)) tn)) -> len rr_rec = total tmp ->
  exists rr_rec', places (Z.of_nat i) rest names rr_rec = Ret (map place (seq i (length rest)), rr_rec') /\ length rr_rec' = length rr_rec /\
    (forall j p, (i <= j)%nat -> place j = Some p -> rr_rec' !! Z.to_nat p = Some (Z.of_nat j)) /\
    (forall p, 0 <= p -> (forall j, (i <= j)%nat -> place j <> Some p) -> rr_rec' !! Z.to_nat p = rr_rec !! Z.to_nat p).
Proof.
  induction rest as [| x rest IH]; intros i names rr_rec Hd Hn Hl; cbn [places].
  { exists rr_rec. split_and!; [done | done | | done]. intros j p Hj. unfold place. rewrite (lookup_ge_None_2 ids); [done |].
    apply (f_equal length) in Hd. rewrite length_drop in Hd. cbn in Hd. lia. }
  assert (ids !! i = Some x) as Ei by (rewrite <- (Nat.add_0_r i), <- lookup_drop, Hd; done).
  assert (drop (S i) ids = rest) as Hd' by (replace (S i) with (i + 1)%nat by lia; by rewrite <- drop_drop, Hd).
  replace (Z.of_nat i + 1) with (Z.of_nat (S i)) by lia. cbn [length seq map]. unfold place at 1. rewrite Ei. destruct x as [id |].
  - destruct (Hids i id Ei) as (Hid & tn & Etn). rewrite Etn. specialize (Hn _ _ Etn) as Hcur. rewrite (proj2 (at_ix_Ret _ _ _) (conj Hid Hcur)). cbn [obind set_cursor tn_cursor].
    rewrite Z2Nat.id by done. set (p0 := tn_cursor tn + cnt id (take i ids)). assert (place i = Some p0) as Hp0 by (unfold place; by rewrite Ei, Etn).
    pose proof (place_bound _ _ Hp0) as Hb. rewrite wr_in by lia. cbn [obind].
    destruct (IH (S i) (<[Z.to_nat id := set_cursor (p0 + 1) (set_cursor p0 tn)]> names) (<[Z.to_nat p0 := Z.of_nat i]> rr_rec)) as (rr' & -> & Hl' & Hset & Hkeep);
      [done | | by rewrite length_insert |].
    { intros k tk Ek. destruct (decide (k = Z.to_nat id)) as [-> | Hne].
      - rewrite list_lookup_insert_eq by (by eapply lookup_lt_Some). assert (tk = tn) as -> by congruence. rewrite Z2Nat.id, cnt_take_S by done. unfold set_cursor. cbn. do 2 f_equal. unfold p0. lia.
      - rewrite list_lookup_insert_ne by done. rewrite (Hn _ _ Ek), (take_S_r _ _ _ Ei), cnt_app, cnt_cons, bool_decide_eq_false_2.
        + change (cnt (Z.of_nat k) []) with 0. do 2 f_equal. lia.
        + intros [= ->]. by rewrite Nat2Z.id in Hne. }
    cbn [obind]. exists rr'. rewrite length_insert in Hl'. split_and!; [done | done | |].
    + intros j p Hj Hp. destruct (decide (j = i)) as [-> |]; [| apply Hset; [lia | done]]. assert (p = p0) as -> by congruence.
      rewrite Hkeep; [rewrite list_lookup_insert_eq; [done | lia] | lia |]. intros j Hj' Hpj. pose proof (place_inj _ _ _ Hp0 Hpj). lia.
    + intros p Hp Hno. rewrite Hkeep; [| done | intros j Hj; apply Hno; lia]. rewrite list_lookup_insert_ne; [done |]. intros E. apply (Hno i); [done |]. rewrite Hp0. f_equal. lia.
  - destruct (IH (S i) names rr_rec) as (rr' & -> & Hl' & Hset & Hkeep); [done | | done |].
    { intros k tk Ek. rewrite (Hn _ _ Ek), (take_S_r _ _ _ Ei), cnt_app, cnt_cons, bool_decide_eq_false_2 by done. change (cnt (Z.of_nat k) []) with 0. do 2 f_equal. lia. }
    cbn [obind]. exists rr'. split_and!; [done | done | |].
    + intros j p Hj Hp. apply Hset; [| done]. destruct (decide (j = i)) as [-> |]; [| lia]. unfold place in Hp. by rewrite Ei in Hp.
    + intros p Hp Hno. apply Hkeep; [done |]. intros j Hj. apply Hno. lia.
Qed.

(** There are as many places as records. *)
Lemma indicator_sum id : forall n a, 0 <= id -> zsum (map (fun k => if bool_decide (Some id = Some (Z.of_nat k)) then 1 else 0) (seq a n)) =
  (if bool_decide (Z.of_nat a <= id < Z.of_nat (a + n)) then 1 else 0).
Proof.
  induction n as [| n IH]; intros a Hid; cbn; [rewrite bool_decide_eq_false_2 by lia; done |]. fold (zsum (map (fun k => if bool_decide (Some id = Some (Z.of_nat k)) then 1 else 0) (seq (S a) n))).
  rewrite (IH (S a) Hid). destruct (decide (id = Z.of_nat a)) as [-> | Hne].
  - rewrite (bool_decide_eq_true_2 (Some _ = Some _)) by done. repeat case_bool_decide; lia.
  - rewrite (bool_decide_eq_false_2 (Some _ = Some _)) by congruence. repeat case_bool_decide; lia.
Qed.

Lemma cnt_sum n : forall l, (forall id, Some id ∈ l -> 0 <= id < Z.of_nat n) -> zsum (map (fun k => cnt (Z.of_nat k) l) (seq 0 n)) = len (omap id l).
Proof.
  induction l as [| x l IH]; intros Hl.
  { cbn. induction (seq 0 n) as [| k ks IHk]; [done |]. cbn. unfold zsum in IHk. by rewrite IHk. }
  assert (zsum (map (fun k => cnt (Z.of_nat k) (x :: l)) (seq 0 n)) =
    zsum (map (fun k => if bool_decide (x = Some (Z.of_nat k)) then 1 else 0) (seq 0 n)) + zsum (map (fun k => cnt (Z.of_nat k) l) (seq 0 n))) as ->.
  { clear. induction (seq 0 n) as [| k ks IHk]; [done |]. cbn [map]. unfold zsum in *. cbn [foldr]. rewrite IHk, cnt_cons. lia. }
  rewrite IH by (intros; apply Hl; by right). destruct x as [k |]; cbn [omap list_omap id].
  - assert (0 <= k < Z.of_nat n) as Hk by (apply Hl; left). rewrite indicator_sum, bool_decide_eq_true_2 by lia. cbn [length]. lia.
  - match goal with |- ?a + _ = _ => enough (a = 0) by lia end.
    clear. induction (seq 0 n) as [| k ks IHk]; [done |]. cbn [map]. unfold zsum in *. cbn [foldr]. rewrite IHk. by rewrite bool_decide_eq_false_2.
Qed.

Lemma total_records : total tmp = len (omap id ids).
Proof.
  rewrite <- (cnt_sum (length tmp)).
  - unfold total. f_equal. apply list_eq. intros i. change (map ?f ?l) with (f <$> l). rewrite !list_lookup_fmap. destruct (tmp !! i) as [tn |] eqn:E.
    + rewrite lookup_seq_lt by (by eapply lookup_lt_Some). cbn. by destruct (Htmp _ _ E) as [-> _].
    + rewrite lookup_seq_ge by (by apply lookup_ge_None). done.
  - intros k [i E]%list_elem_of_lookup_1. destruct (Hids i k E) as (Hk & tn & Etn). apply lookup_lt_Some in Etn. lia.
Qed.

End Places.

End FreezeNames.
