(* ===== verification/FreezeRecords.v ===== *)
(** * Records of a frozen zone

    Steps 3 and 4 of [zone_image_freeze] (dns_zone_image.c): the names with
    their spelling, and for each record its RDATA without compression, its TTL,
    type and class, and the extras that only some records have. *)

From S2P Require Import Prelude CLib Cidr DnsName NameText WireName Compress ZoneAttr TypeName CanonOrder Edns RdataText Record Svcb RrWrite RrFrame NameWalk ZoneImage ZoneLookup Denial ZoneArena ZoneTtl ZoneRules ZoneFreeze ZoneIndex FreezeNames.

Module FreezeRecords.
Import CLib Cidr DnsName NameText WireName Compress ZoneAttr TypeName CanonOrder Edns RdataText Record Svcb RrWrite RrFrame NameWalk ZoneImage ZoneLookup Denial ZoneArena ZoneTtl ZoneRules ZoneFreeze ZoneIndex FreezeNames.

(** ** Lemmas: names in wire form *)

Lemma wire_walk ls : forall pre avail fuel, Forall label_wf ls -> len pre + len (wire_name ls) <= avail -> (length ls < fuel)%nat ->
  wire_name_len_from fuel (pre ++ wire_name ls) avail (len pre) = Ret (len pre + len (wire_name ls)).
Proof.
  induction ls as [| l ls IH]; intros pre avail fuel Hw Ha Hf; (destruct fuel as [| fuel]; [lia |]); cbn [wire_name_len_from].
  - change (wire_name []) with [0] in *. cbn [length] in *. rewrite (proj2 (Z.leb_gt _ _)) by lia. rewrite rd_app_r, Z.sub_diag by lia. cbn. done.
  - apply Forall_cons in Hw as [[Hb Hl] Hw]. assert (wire_name (l :: ls) = (len l :: l) ++ wire_name ls) as E by (unfold wire_name; rewrite wire_labels_cons; cbn; by rewrite <- app_assoc).
    rewrite E in *. rewrite length_app in Ha |- *. cbn [length] in *. rewrite (proj2 (Z.leb_gt _ _)) by lia. cbn [app]. rewrite rd_app_r, Z.sub_diag, rd_0 by lia. cbn [obind].
    rewrite (proj2 (Z.eqb_neq _ _)) by lia. rewrite (proj2 (Z.ltb_ge 63 _)), (proj2 (Z.ltb_ge avail _)) by lia. cbn [orb].
    replace (pre ++ len l :: l ++ wire_name ls) with ((pre ++ len l :: l) ++ wire_name ls) by (by rewrite <- app_assoc).
    replace (len pre + 1 + len l) with (len (pre ++ len l :: l)) by (rewrite length_app; cbn [length]; lia). rewrite IH; [| done | rewrite length_app; cbn [length]; lia | lia].
    f_equal. rewrite length_app. cbn [length]. lia.
Qed.

Lemma labels_count ls : Forall label_wf ls -> (length ls < length (wire_name ls))%nat.
Proof.
  induction 1 as [| l ls [_ Hl] _ IH]; [cbn; lia |]. unfold wire_name in *. rewrite wire_labels_cons. cbn [app length]. rewrite !length_app in *. cbn [length] in *. lia.
Qed.

Lemma wire_name_len_spec ls avail : Forall label_wf ls -> len (wire_name ls) <= avail -> wire_name_len (wire_name ls) avail = Ret (len (wire_name ls)).
Proof. intros Hw Ha. pose proof (labels_count ls Hw). apply (wire_walk ls [] avail); [done | cbn; lia | lia]. Qed.

Lemma wire_of_wf t w : bytes t -> wire_of t = Ret (Some w) -> exists ls, w = wire_name ls /\ Forall label_wf ls /\ len w <= 255.
Proof.
  intros Hb. rewrite wire_of_spec by done. destruct (text_labels t) as [raw | | |] eqn:Er; try done. cbv zeta. case_if; [| done]. cmp_prop. intros [= <-].
  exists (List.filter NameText.nonempty raw). split_and!; [done | | done]. apply text_labels_wf in Er; [| done]. rewrite Forall_forall in Er |- *. intros l Hl.
  apply list_elem_of_In, filter_In in Hl as [Hl Hne]. apply list_elem_of_In in Hl. destruct (Er l Hl) as [Hbl Hl63]. split; [done |]. destruct l; [done |]. cbn [length] in *. lia.
Qed.

(** ** Records of the builder *)

(** A record as the loader makes it: the fields are texts, and the copies in
    wire form are those of [dns_record_preparse_cache], if any. *)
Definition record_stored `{InetPton, EvpBase64} (r : dns_record_t) : Prop :=
  exists r0, cache r0 = NotCached /\ name_wire r0 = None /\ Forall bytes (rdata r0) /\ bytes (name r0) /\ generic_ok r0 /\
    (r = r0 \/ dns_record_preparse_cache r0 = Ret r).

(** The buffer of [rdata_uncompressed]. *)
Definition packet_buffer : list Z := replicate (Z.to_nat 65535) 0.

(** The owner of a record in wire form, when it has one. *)
Definition owner_wire (t : list Z) : option (list Z) := match wire_of t with Ret w => w | _ => None end.

(** The extras of a record, which only a record with a restriction or with
    another spelling than [text] has. *)
Definition record_ext (text : list Z) (r : dns_record_t) : option zone_image_ext_t :=
  let alt := negb (streq (name r) text) in
  if alt || rec_restricted r then
    Some (ImageExt (tinydns_ttd r) (ecs_subnet_tag r) (bind_location_tag r) (if alt then Some (name r) else None) (if alt then owner_wire (name r) else None)
      (tinydns_loc r) (if tinydns_ttl_countdown r then ZONE_IMAGE_EXT_COUNTDOWN else 0))
  else None.

(** What the image keeps of a record whose name is [nm]. *)
Record rr_holds `{InetPton, EvpBase64} (loc_rdata : list (list Z) -> option (list Z)) (r : dns_record_t) (nm : zone_image_name_t) (rr : zone_image_rr_t)
    (ext : option zone_image_ext_t) : Prop := RrHolds {
  rh_rdata : uncompressed_rdata loc_rdata packet_buffer 65535 r = Ret (rr_rdata rr);
  rh_octets : bytes (rr_rdata rr) /\ len (rr_rdata rr) <= IMG_MAX_RDLEN;
  rh_ttl : wire_ttl r 4294967295 = Ret (rr_ttl rr);
  rh_type : rr_type rr = type_code r;
  rh_class : rr_class rr = wire_class r;
  rh_owner : name r = default (nm_text nm) (ext ≫= ext_alt_text);
  rh_wire : wire_of (name r) = Ret (match ext ≫= ext_alt_text with Some _ => ext ≫= ext_alt_wire | None => nm_wire nm end);
  rh_raw : has_flag (rr_flags rr) ZONE_IMAGE_RR_RAW = bool_decide (is_Some (generic_data r)) || (class_val r =? DNS_CLASS_KARIDNS_EXT);
  rh_view : match ext with
    | None => rec_restricted r = false
    | Some e => ext_ttd e = tinydns_ttd r /\ ext_ecs_tag e = ecs_subnet_tag r /\ ext_loc_tag e = bind_location_tag r /\ ext_loc e = tinydns_loc r /\
        ext_flags e = (if tinydns_ttl_countdown r then ZONE_IMAGE_EXT_COUNTDOWN else 0)
    end;
  rh_ext : ext = record_ext (nm_text nm) r
}.

Section Records.
Context `{InetPton, EvpBase64} (loc_rdata : list (list Z) -> option (list Z)).
Context (Hloc : forall rdata d, loc_rdata rdata = Some d -> bytes d /\ length d = 16%nat).

(** The copies keep the texts. *)
Lemma preparse_keeps r0 r : dns_record_preparse_cache r0 = Ret r -> r = r0 \/ exists nw c, wire_of (name r0) = Ret nw /\ preparse_rdata r0 = Ret c /\ r = set_cache r0 nw c /\ len (rdata r0) <> 0.
Proof.
  unfold dns_record_preparse_cache. destruct (Z.eqb_spec (len (rdata r0)) 0); [intros [= <-]; by left |]. intros E. bind_inv E. bind_inv E. injection E as <-. right. eauto 10.
Qed.

Lemma stored_wire r : record_stored r -> rec_owner_wire r = wire_of (name r) /\ bytes (name r).
Proof.
  intros (r0 & Hc & Hw & _ & Hn & _ & [-> | [-> | (nw & c & E & _ & -> & _)]%preparse_keeps]); unfold rec_owner_wire; [by rewrite Hw | by rewrite Hw |].
  cbn [set_cache name_wire name]. split; [| done]. destruct nw; [by rewrite E | done].
Qed.

Lemma stored_generic r : record_stored r -> generic_ok r.
Proof. by intros (r0 & _ & _ & _ & _ & Hg & [-> | [-> | (nw & c & _ & _ & -> & _)]%preparse_keeps]). Qed.

Lemma stored_owner r : record_stored r -> exists w, rec_owner_wire r = Ret w.
Proof. intros [-> Hb]%stored_wire. by apply wire_of_total. Qed.

(** The RDATA of a record is octets, or the record has none. *)
Lemma root_text : bytes [DOT].
Proof. repeat constructor; unfold DOT; lia. Qed.

Lemma uncompressed_any buf r : bytes buf -> len buf = 65535 -> record_stored r ->
  uncompressed_rdata loc_rdata buf 65535 r = Fail \/ exists d, uncompressed_rdata loc_rdata buf 65535 r = Ret d /\ bytes d /\ len d <= 65524.
Proof.
  intros Hb Hl (r0 & Hc & Hw & Hr & Hn & Hg & Hpre).
  assert (serialize_dns_record loc_rdata 65535 buf 0 r None (Some [DOT]) 4294967295 = serialize_dns_record loc_rdata 65535 buf 0 r0 None (Some [DOT]) 4294967295) as Es.
  { destruct Hpre as [-> | [-> | (nw & c & Ew & Ec & -> & Hne)]%preparse_keeps]; [done | done |].
    apply serialize_cached; [split; cbn [fst snd]; lia | apply root_text | done | done | done | done | done | done]. }
  unfold uncompressed_rdata. rewrite Es. clear Es Hpre.
  destruct (serialize_spec loc_rdata Hloc 65535 buf 0 None r0 (Some [DOT]) 4294967295) as [-> | (res & off & ctx & ls & t & start & ps & -> & _ & _ & ((Hb' & Ho' & _) & _) & [Hlen _] & _)].
  { split; [split; [done |]; cbn [fst snd]; lia |]. split; [cbn [fst snd]; unfold no_hole; lia | done]. }
  { split; [split; [apply root_text | by intros []] |]. split; [done |]. split; [| done]. apply Forall_forall. intros f Hf. split; [| by intros []].
    rewrite Forall_forall in Hr. by apply Hr, name_fields_in. }
  { done. } { done. } { by left. }
  cbn [obind fst snd] in *. destruct (rd_in res 0) as [first ->]; [lia |]. cbn [obind]. destruct (_ || _) eqn:Ef; [by left |]. apply orb_false_iff in Ef as [Ef _]. apply Z.ltb_ge in Ef.
  destruct (rd16_range res 9 Hb') as (n & -> & Hn16); [lia | lia |]. cbn [obind]. unfold u16_range in Hn16. destruct (Z.eqb_spec (11 + n) off) as [E |]; cbn [negb]; [| by left].
  right. rewrite slice_in by lia. eexists. split; [done |]. split; [auto with octets | rewrite length_take, length_drop; lia].
Qed.

Lemma packet_buffer_ok : bytes packet_buffer /\ len packet_buffer = 65535.
Proof. unfold packet_buffer. rewrite length_replicate. split; [apply Forall_replicate; unfold isbyte; lia | lia]. Qed.

Lemma uncompressed_spec r : record_stored r ->
  uncompressed_rdata loc_rdata packet_buffer 65535 r = Fail \/ exists d, uncompressed_rdata loc_rdata packet_buffer 65535 r = Ret d /\ bytes d /\ len d <= 65524.
Proof. destruct packet_buffer_ok. by apply uncompressed_any. Qed.

(** ** Lemmas: the records of the image *)

(** A name of the image with its spelling. *)
Definition name_stored (nm : zone_image_name_t) : Prop := bytes (nm_text nm) /\ wire_of (nm_text nm) = Ret (nm_wire nm).

Lemma other_spelling_spec nm r rw : name_stored nm -> wire_of (name r) = Ret rw -> other_spelling nm r rw = Ret (negb (streq (name r) (nm_text nm))).
Proof.
  intros [Hb Hw] Hr. unfold other_spelling. destruct (streq (name r) (nm_text nm)) eqn:Es; cbn [negb]; [| done].
  apply bool_decide_eq_true in Es. assert (rw = nm_wire nm) as -> by congruence. destruct (nm_wire nm) as [w |]; [| done].
  destruct (wire_of_wf _ _ Hb Hw) as (ls & -> & Hwf & Hl). rewrite wire_name_len_spec by (done || lia). cbn [orelse].
  rewrite Z.eqb_refl, take_ge by lia. by rewrite bool_decide_true.
Qed.

Lemma raw_flag (raw named : bool) : has_flag (Z.lor (if raw then ZONE_IMAGE_RR_RAW else 0) (if named then 0 else ZONE_IMAGE_RR_NO_NAMEWIRE)) ZONE_IMAGE_RR_RAW = raw.
Proof. by destruct raw, named. Qed.

(** One record with its extras. *)
Lemma image_rr_spec names n_ext id nm r : at_ix names id = Ret nm -> name_stored nm -> record_stored r ->
  (image_rr loc_rdata names n_ext id r = Fail /\ uncompressed_rdata loc_rdata packet_buffer 65535 r = Fail) \/
  exists rr ext, image_rr loc_rdata names n_ext id r = Ret (rr, ext) /\ rr_holds loc_rdata r nm rr ext /\ rr_name_id rr = id /\
    rr_ext_idx rr = match ext with None => 0 | Some _ => n_ext + 1 end.
Proof.
  intros Hid Hnm Hst. unfold image_rr. fold packet_buffer. destruct (uncompressed_spec r Hst) as [-> | (d & Ed & Hb & Hl)]; [by left |]. rewrite Ed. cbn [obind].
  unfold IMG_MAX_RDLEN. rewrite (proj2 (Z.ltb_ge _ _)) by done. destruct (ttl_spec r 4294967295) as [t Et]. unfold rec_ttl. rewrite Et. cbn [obind].
  destruct (stored_wire r Hst) as [Ew Hbn]. destruct (wire_of_total _ Hbn) as [w Hw]. rewrite Ew, Hw, Hid. cbn [obind].
  rewrite (other_spelling_spec nm r w Hnm Hw). cbn [obind]. right. assert (negb (streq (name r) (nm_text nm)) = false -> name r = nm_text nm) as Halt.
  { intros E%negb_false_iff. by apply bool_decide_eq_true in E. }
  assert (owner_wire (name r) = w) as Eow by (unfold owner_wire; by rewrite Hw). unfold record_ext in *.
  remember (negb (streq (name r) (nm_text nm))) as alt eqn:Ealt. destruct (alt || rec_restricted r) eqn:Er.
  - eexists _, _. split; [done |]. split; [| done]. split; cbn [rr_rdata rr_ttl rr_type rr_class rr_flags ext_alt_text ext_alt_wire ext_ttd ext_ecs_tag ext_loc_tag ext_loc ext_flags mbind option_bind]; try done.
    + destruct alt; cbn; [done | by apply Halt].
    + destruct alt; [done |]. rewrite (Halt eq_refl). apply Hnm.
    + apply raw_flag.
    + unfold record_ext. by rewrite <- Ealt, Er, Eow.
  - apply orb_false_iff in Er as [-> Er]. eexists _, _. split; [done |]. split; [| done]. split; cbn [rr_rdata rr_ttl rr_type rr_class rr_flags mbind option_bind]; try done.
    + by apply Halt.
    + rewrite (Halt eq_refl). apply Hnm.
    + apply raw_flag.
    + unfold record_ext. by rewrite <- Ealt, Er.
Qed.

(** The extras of a record, when [n_ext] come before those of the list. *)
Definition ext_in (exts : list zone_image_ext_t) (n_ext : Z) (rr : zone_image_rr_t) (ext : option zone_image_ext_t) : Prop :=
  match ext with
  | None => rr_ext_idx rr = 0
  | Some e => 0 <= rr_ext_idx rr - n_ext - 1 /\ exts !! Z.to_nat (rr_ext_idx rr - n_ext - 1) = Some e
  end.

Lemma image_rrs_spec rs ids names rr_rec : forall n_ext, 0 <= n_ext ->
  (forall i, i ∈ rr_rec -> exists r id nm, record_at rs i = Ret r /\ at_ix ids i = Ret (Some id) /\ at_ix names id = Ret nm /\ name_stored nm /\ record_stored (rec r)) ->
  (image_rrs loc_rdata rs ids names n_ext rr_rec = Fail /\ exists i r, i ∈ rr_rec /\ record_at rs i = Ret r /\ uncompressed_rdata loc_rdata packet_buffer 65535 (rec r) = Fail) \/
  exists rrs exts, image_rrs loc_rdata rs ids names n_ext rr_rec = Ret (rrs, exts) /\ length rrs = length rr_rec /\
    (forall ext_at, (forall i r id nm, i ∈ rr_rec -> record_at rs i = Ret r -> at_ix ids i = Ret (Some id) -> at_ix names id = Ret nm -> ext_at i = record_ext (nm_text nm) (rec r)) ->
      exts = omap ext_at rr_rec) /\
    forall k i r id nm, rr_rec !! k = Some i -> record_at rs i = Ret r -> at_ix ids i = Ret (Some id) -> at_ix names id = Ret nm ->
      exists rr ext, rrs !! k = Some rr /\ rr_name_id rr = id /\ rr_holds loc_rdata (rec r) nm rr ext /\ ext_in exts n_ext rr ext.
Proof.
  induction rr_rec as [| i rr_rec IH]; intros n_ext Hne Hin; cbn [image_rrs]; [right; by exists [], [] |].
  destruct (Hin i) as (r & id & nm & Hr & Hid & Hnm & Hns & Hst); [left |]. rewrite Hr, Hid. cbn [obind].
  destruct (image_rr_spec names n_ext id nm (rec r) Hnm Hns Hst) as [[-> Hbad] | (rr & ext & -> & Hh & Hrid & Hext)]; [left; split; [done |]; exists i, r; split; [left | done] |]. cbn [obind].
  set (n' := match ext with None => n_ext | Some _ => n_ext + 1 end). assert (0 <= n') as Hn' by (unfold n'; destruct ext; lia).
  destruct (IH n' Hn') as [[-> (j & r' & Hj & Hbad)] | (rrs & exts & -> & Hl & Hexts & Hall)]; [intros; apply Hin; by right | left; split; [done |]; exists j, r'; split; [by right | done] |]. cbn [obind].
  right. eexists _, _. split; [done |]. split; [cbn; by rewrite Hl |]. split.
  { intros ext_at He. cbn [omap list_omap]. rewrite (He i r id nm ltac:(left) Hr Hid Hnm), <- (rh_ext _ _ _ _ _ Hh).
    rewrite (Hexts ext_at) by (intros; eapply He; [by right | done..]). by destruct ext. }
  intros [| k] j r' id' nm' Hj Hr' Hid' Hnm'; cbn in Hj.
  - injection Hj as <-. assert (r' = r) as -> by congruence. assert (id' = id) as -> by congruence. assert (nm' = nm) as -> by congruence.
    exists rr, ext. split_and!; [done | done | done |]. unfold ext_in. destruct ext; [| done]. rewrite Hext. replace (n_ext + 1 - n_ext - 1) with 0 by lia. done.
  - destruct (Hall k j r' id' nm' Hj Hr' Hid' Hnm') as (rr' & ext' & Hk & Hi & Hh' & He). exists rr', ext'. split_and!; [done | done | done |].
    unfold ext_in in *. destruct ext' as [e' |]; [| done]. destruct He as [He1 He2]. unfold n' in *. destruct ext as [e |]; [| done].
    replace (rr_ext_idx rr' - n_ext - 1) with (rr_ext_idx rr' - (n_ext + 1) - 1 + 1) by lia. split; [lia |]. rewrite Z2Nat.inj_add, Nat.add_comm by lia. done.
Qed.

End Records.

End FreezeRecords.
