(* ===== verification/ZoneCheck.v ===== *)
(** * Rules for the records of a zone: lemmas

    The checks of [ZoneRules] always end with an answer on the records that
    the loader makes, and what some of the answers mean. *)

From S2P Require Import Prelude CLib Cidr DnsName NameText WireName Compress ZoneAttr TypeName CanonOrder Edns RdataText Record Svcb RrWrite RrFrame NameWalk ZoneImage ZoneLookup Denial ZoneArena ZoneTtl ZoneRules ZoneFreeze ZoneIndex FreezeNames FreezeRecords.

Module ZoneCheck.
Import CLib Cidr DnsName NameText WireName Compress ZoneAttr TypeName CanonOrder Edns RdataText Record Svcb RrWrite RrFrame NameWalk ZoneImage ZoneLookup Denial ZoneArena ZoneTtl ZoneRules ZoneFreeze ZoneIndex FreezeNames FreezeRecords.

(** ** Lemmas: canonical RDATA *)

Lemma downcase_octets_ok p k l : bytes p -> 0 <= k -> 0 <= l -> k + l <= len p -> bytes (downcase_octets p k l) /\ len (downcase_octets p k l) = len p.
Proof.
  intros Hb Hk Hl Hkl. unfold downcase_octets. split.
  - apply Forall_app. split; [auto with octets |]. apply Forall_app. split; [| auto with octets]. apply Forall_map. eapply Forall_impl; [apply Forall_take, Forall_drop, Hb |]. apply lc_byte.
  - rewrite !length_app, length_map, !length_take, !length_drop. lia.
Qed.

Lemma downcase_from_spec fuel : forall p i0 avail i, bytes p -> 0 <= i0 -> 0 <= i -> i0 + avail <= len p -> Z.max (avail - i) 0 < Z.of_nat fuel ->
  exists p' n, downcase_from fuel p i0 avail i = Ret (p', n) /\ bytes p' /\ len p' = len p /\ 0 <= n <= Z.max avail 0.
Proof.
  induction fuel as [| fuel IH]; intros p i0 avail i Hb Hi0 Hi Ha Hf; cbn [downcase_from]; [lia |].
  destruct (Z.leb_spec avail i); [exists p, 0; split_and!; try done; lia |].
  destruct (rd_in p (i0 + i)) as [l El]; [lia |]. rewrite El. cbn [obind]. pose proof (rd_byte _ _ _ Hb El) as Hl. unfold isbyte in Hl.
  destruct (Z.eqb_spec l 0); [exists p, (i + 1); split_and!; try done; lia |]. case_if; [exists p, 0; split_and!; try done; lia |]. cmp_prop.
  destruct (downcase_octets_ok p (i0 + i + 1) l Hb) as [Hb' Hl']; [lia | lia | lia |].
  destruct (IH (downcase_octets p (i0 + i + 1) l) i0 avail (i + 1 + l)) as (p' & w & E' & Hb2 & Hl2 & Hn); [done | lia | lia | lia | lia |]. exists p', w. split_and!; [done | done | lia | lia | lia].
Qed.

Lemma downcase_name_spec p i0 avail : bytes p -> 0 <= i0 -> i0 + avail <= len p ->
  exists p' n, downcase_wire_name p i0 avail = Ret (p', n) /\ bytes p' /\ len p' = len p /\ 0 <= n <= Z.max avail 0.
Proof. intros Hb Hi Ha. apply downcase_from_spec; [done | done | done | done | lia]. Qed.

Lemma downcase_at_spec p off : bytes p -> 0 <= off -> exists p', downcase_at p off = Ret p' /\ bytes p' /\ len p' = len p.
Proof.
  intros Hb Ho. unfold downcase_at. destruct (Z.ltb_spec off (len p)); [| by exists p]. destruct (downcase_name_spec p off (len p - off) Hb) as (p' & n & -> & Hb' & Hl & _); [done | lia |]. by exists p'.
Qed.

Lemma downcase_two_spec p off : bytes p -> 0 <= off <= len p -> exists p', downcase_two p off = Ret p' /\ bytes p' /\ len p' = len p.
Proof.
  intros Hb Ho. unfold downcase_two. destruct (downcase_name_spec p off (len p - off) Hb) as (p' & n & -> & Hb' & Hl & Hn); [lia | lia |]. cbn [obind].
  destruct (Z.ltb_spec 0 n); [| by exists p']. destruct (downcase_name_spec p' (off + n) (len p' - off - n) Hb') as (p2 & n2 & -> & Hb2 & Hl2 & _); [lia | lia |]. exists p2. split_and!; [done | done | lia].
Qed.

Lemma skip_strings_spec n : forall p off, bytes p -> 0 <= off -> exists off', skip_strings n p off = Ret off' /\ off <= off'.
Proof.
  induction n as [| n IH]; intros p off Hb Ho; cbn [skip_strings]; [exists off; split; [done | lia] |]. destruct (Z.leb_spec (len p) off); [exists off; split; [done | lia] |].
  destruct (rd_in p off) as [l El]; [lia |]. rewrite El. cbn [obind]. pose proof (rd_byte _ _ _ Hb El) as Hl. unfold isbyte in Hl.
  destruct (IH p (off + (1 + l))) as (off' & -> & Hle); [done | lia |]. exists off'. split; [done | lia].
Qed.

(** The canonical form of RDATA is as long as the RDATA. *)
Lemma downcase_rdata_spec type d : bytes d -> exists d', dns_canonical_downcase_rdata type d = Ret d' /\ bytes d' /\ len d' = len d.
Proof.
  intros Hb. assert (exists d', (let! '(d', _) := downcase_wire_name d 0 (len d) in Ret d') = Ret d' /\ bytes d' /\ len d' = len d) as H1.
  { destruct (downcase_name_spec d 0 (len d) Hb) as (p' & n & -> & Hb' & Hl & _); [lia | lia |]. by exists p'. }
  pose proof (downcase_two_spec d 0 Hb ltac:(lia)) as H2. pose proof (fun k Hk => downcase_at_spec d k Hb Hk) as H3.
  assert (exists d', (let! off := skip_strings 3 d 4 in downcase_at d off) = Ret d' /\ bytes d' /\ len d' = len d) as H4.
  { destruct (skip_strings_spec 3 d 4 Hb) as (off & -> & Hle); [lia |]. apply H3. lia. }
  assert (exists d', (if 2 <? len d then downcase_two d 2 else Ret d) = Ret d' /\ bytes d' /\ len d' = len d) as H5.
  { destruct (Z.ltb_spec 2 (len d)); [apply downcase_two_spec; [done | lia] | by exists d]. }
  assert (exists d', (if 0 <? len d then let! p := rd d 0 in if (0 <? p) && (p <=? 128) then downcase_at d (1 + (128 - p + 7) / 8) else Ret d else Ret d) = Ret d' /\ bytes d' /\ len d' = len d) as H6.
  { destruct (Z.ltb_spec 0 (len d)); [| by exists d]. destruct (rd_in d 0) as [p ->]; [lia |]. cbn [obind]. case_if; [| by exists d]. cmp_prop. apply H3. Z.to_euclidean_division_equations. lia. }
  unfold dns_canonical_downcase_rdata. repeat match goal with
    | |- context [match ?z with Z0 => _ | Zpos _ => _ | Zneg _ => _ end] => destruct z
    | |- context [match ?z with xI _ => _ | xO _ => _ | xH => _ end] => destruct z
    end; first [exact H1 | exact H2 | apply H3; lia | exact H4 | exact H5 | exact H6 | by exists d].
Qed.

(** ** Lemmas: the checks always answer *)

Section Answers.
Context `{InetPton, EvpBase64} (loc_rdata : list (list Z) -> option (list Z)).
Context (Hloc : forall rdata d, loc_rdata rdata = Some d -> bytes d /\ length d = 16%nat).

Lemma canonical_rdata_spec r : record_stored r -> dns_record_canonical_rdata loc_rdata r = Fail \/ exists d, dns_record_canonical_rdata loc_rdata r = Ret d /\ bytes d.
Proof.
  intros Hst. unfold dns_record_canonical_rdata. fold packet_buffer. destruct (uncompressed_spec loc_rdata Hloc r Hst) as [-> | (d & -> & Hb & _)]; [by left |]. cbn [obind].
  destruct (downcase_rdata_spec (type_code r) d Hb) as (d' & -> & Hb' & _). right. by exists d'.
Qed.

(** The canonical RDATA of a record that has one. *)
Definition rdata_of (r : dns_record_t) : option (list Z) := match dns_record_canonical_rdata loc_rdata r with Ret d => Some d | _ => None end.

Lemma same_rdata_spec x y : record_stored x -> record_stored y ->
  same_rdata loc_rdata x y = Ret (match rdata_of x, rdata_of y with Some d, Some d' => bool_decide (d = d') | _, _ => false end).
Proof.
  intros Hx Hy. unfold same_rdata, rdata_of. destruct (canonical_rdata_spec x Hx) as [-> | (d & -> & _)], (canonical_rdata_spec y Hy) as [-> | (d' & -> & _)]; done.
Qed.

Context (rs : list arena_record_t) (Hstored : forall r, r ∈ rs -> record_stored (rec r)).

Lemma singleton_chain_defined i x chain : record_stored (rec x) -> (forall j, j ∈ chain -> 0 <= j < len rs) -> defined (singleton_chain loc_rdata rs i x chain).
Proof.
  intros Hx. induction chain as [| j chain IH]; intros Hc; cbn [singleton_chain]; [apply defined_Ret |]. assert (forall j, j ∈ chain -> 0 <= j < len rs) as Hc' by (intros; apply Hc; by right).
  destruct (at_ix_in rs j) as [y Ey]; [apply Hc; left |]. unfold record_at. rewrite Ey. cbn [obind]. case_if; [by apply IH |].
  rewrite same_rdata_spec by (done || by eapply Hstored, at_ix_elem). cbn [obind]. case_if; [apply defined_Fail | by apply IH].
Qed.

Lemma singletons_defined rest : forall t size i, (forall r, r ∈ rest -> r ∈ rs) -> (forall n j, j ∈ chain_of t size n -> 0 <= j < len rs) -> defined (singletons_from loc_rdata rs t size i rest).
Proof.
  induction rest as [| x rest IH]; intros t size i Hin Hc; cbn [singletons_from]; [apply defined_Ret |].
  assert (defined (if negb (type_code (rec x) =? 261) || negb (present x) then Ret tt else singleton_chain loc_rdata rs i x (chain_of t size (name_of x)))) as [Hd1 Hd2].
  { case_if; [apply defined_Ret |]. apply singleton_chain_defined; [apply Hstored, Hin; left | apply Hc]. }
  destruct (if _ || _ then _ else _) as [[] | | |]; try done; cbn [obind]. apply IH; [intros; apply Hin; by right | done].
Qed.

Lemma validate_singletons_defined : defined (validate_zone_singletons loc_rdata rs).
Proof.
  apply singletons_defined; [done |]. intros n j (r & Hj & E & _)%hash_chains_elem. apply lookup_lt_Some in E. lia.
Qed.

(** ** Lemmas: ALIAS and LUA records *)

Lemma alias_rdata_defined fuel : forall d p, bytes d -> 0 <= p -> Z.max (len d - p) 0 < Z.of_nat fuel -> exists b, alias_rdata_from fuel d p = Ret b.
Proof.
  induction fuel as [| fuel IH]; intros d p Hb Hp Hf; cbn [alias_rdata_from]; [lia |]. destruct (Z.leb_spec (len d) p); [by eexists |].
  destruct (rd_in d p) as [l El]; [lia |]. rewrite El. cbn [obind]. pose proof (rd_byte _ _ _ Hb El) as Hl. unfold isbyte in Hl. case_if; [by eexists |]. case_if; [by eexists |]. apply IH; [done | lia | lia].
Qed.

Lemma lua_strings_defined fuel : forall d p, bytes d -> 0 <= p -> Z.max (len d - p) 0 < Z.of_nat fuel -> exists b, lua_strings_from fuel d p = Ret b.
Proof.
  induction fuel as [| fuel IH]; intros d p Hb Hp Hf; cbn [lua_strings_from]; [lia |]. destruct (Z.leb_spec (len d) p); [by eexists |].
  destruct (rd_in d p) as [l El]; [lia |]. rewrite El. cbn [obind]. pose proof (rd_byte _ _ _ Hb El) as Hl. unfold isbyte in Hl. case_if; [by eexists |]. apply IH; [done | lia | lia].
Qed.

Lemma generic_rdata_spec r : record_stored r -> exists d, generic_rdata r = Ret d /\ match d with Some d => bytes d | None => True end.
Proof.
  intros (r0 & _ & _ & _ & _ & [Hg Hd] & Hpre). assert (generic_data r = generic_data r0 /\ generic_len r = generic_len r0) as [E1 E2]
    by (destruct Hpre as [-> | [-> | (nw & c & _ & _ & -> & _)]%preparse_keeps]; done).
  unfold generic_rdata. rewrite E1, E2. destruct (generic_data r0) as [d |]; [| by exists None]. destruct Hd as [Hb Hl]. rewrite slice_in by lia. cbn [obind].
  eexists. split; [done |]. by apply Forall_take, Forall_drop.
Qed.

(** The ALIAS records of a list. *)
Definition aliases (l : list arena_record_t) : Z := len (List.filter (fun r => is_alias (rec r)) l).

Lemma aliases_cons r l : aliases (r :: l) = (if is_alias (rec r) then 1 else 0) + aliases l.
Proof. unfold aliases. cbn [List.filter]. destruct (is_alias (rec r)); cbn [length]; lia. Qed.

Lemma pdns_scan_spec rest : forall n dnssec, (forall r, r ∈ rest -> r ∈ rs) ->
  pdns_scan rest n dnssec = Fail \/ exists dnssec', pdns_scan rest n dnssec = Ret (n + aliases rest, dnssec').
Proof.
  induction rest as [| r rest IH]; intros n dnssec Hin; cbn [pdns_scan]; [right; exists dnssec; unfold aliases; cbn; by rewrite Z.add_0_r |].
  assert (forall x, x ∈ rest -> x ∈ rs) as Hin' by (intros; apply Hin; by right). rewrite aliases_cons. unfold is_alias at 1. cbv zeta.
  destruct (class_in (rec r)) eqn:Ec; cbn [negb]; rewrite ?andb_false_r, ?andb_true_r; [| by apply IH].
  destruct (type_code (rec r) =? DNS_TYPE_PDNS_ALIAS) eqn:Ea; cbn [orb]; [| destruct (type_code (rec r) =? DNS_TYPE_PDNS_LUA) eqn:El; [| by apply IH]].
  - destruct (generic_rdata_spec (rec r)) as (d & -> & Hd); [apply Hstored, Hin; left |]. cbn [obind].
    assert (exists b, match d with None => Ret false | Some d => pdns_alias_rdata_ok d end = Ret b) as [b ->].
    { destruct d as [d |]; [| by eexists]. apply alias_rdata_defined; [done | lia | lia]. }
    cbn [obind]. case_if; [by left |]. replace (n + (1 + aliases rest)) with (n + 1 + aliases rest) by lia. by apply IH.
  - destruct (generic_rdata_spec (rec r)) as (d & -> & Hd); [apply Hstored, Hin; left |]. cbn [obind].
    assert (exists b, match d with None => Ret false | Some d => pdns_lua_rdata_ok d end = Ret b) as [b ->].
    { destruct d as [d |]; [| by eexists]. unfold pdns_lua_rdata_ok. case_if; [by eexists |]. apply lua_strings_defined; [done | lia | lia]. }
    cbn [obind]. case_if; [by left |]. by apply IH.
Qed.

(** ** Lemmas: sets of names *)

Definition used_slots (set : list (option (list Z))) : list Z := map (fun o => match o with None => 0 | Some _ => 1 end) set.

Lemma set_slot_walk set bits h name dz : 0 <= bits -> len set = 2 ^ bits -> used_slots set !! pos (used_slots set) h dz = Some 0 ->
  forall n d fuel, (d + n = dz)%nat -> (n < fuel)%nat ->
  exists s v, set_slot fuel set (len set - 1) ((h + Z.of_nat d) mod len set) name = Ret s /\ at_ix set s = Ret v /\ (forall t, v = Some t -> domain_names_match_ci t name = true).
Proof.
  intros Hbits Hlen Hz. assert (len (used_slots set) = len set) as El by (unfold used_slots; by rewrite length_map).
  induction n as [| n IH]; intros d fuel Hd Hf; (destruct fuel as [| fuel]; [lia |]); cbn [set_slot];
    (destruct (pos_read (used_slots set) bits Hbits (eq_trans El Hlen) h d) as (w & Ew & Ew'); rewrite El in Ew;
     assert (exists v, at_ix set ((h + Z.of_nat d) mod len set) = Ret v /\ w = match v with None => 0 | Some _ => 1 end) as (v & Ev & ->)
       by (unfold used_slots in Ew; rewrite at_ix_map in Ew; destruct (at_ix set _) as [v | | |]; try done; injection Ew as <-; by exists v);
     rewrite Ev; cbn [obind]; destruct v as [t |]; [| by eexists _, None]).
  - replace d with dz in * by lia. rewrite Hz in Ew'. done.
  - destruct (domain_names_match_ci t name) eqn:Em; [eexists _, (Some t); split_and!; [done | done | by intros ? [= <-]] |].
    pose proof (pos_next (used_slots set) bits Hbits (eq_trans El Hlen) h d) as Hn. rewrite El in Hn. rewrite Hn. apply IH; lia.
Qed.

(** The names of a set leave free slots. *)
Definition set_ok (set : list (option (list Z))) (n : Z) : Prop :=
  (exists bits, 0 <= bits /\ len set = 2 ^ bits) /\ Z.of_nat (zeros (used_slots set)) + n >= len set.

Lemma set_find_spec set n name : set_ok set n -> n < len set ->
  exists s v, set_find set name = Ret s /\ at_ix set s = Ret v /\ (forall t, v = Some t -> domain_names_match_ci t name = true).
Proof.
  intros [(bits & Hb & Hl) Hz] Hn. assert (len (used_slots set) = len set) as El by (unfold used_slots; by rewrite length_map).
  destruct (first_free (used_slots set) bits Hb (eq_trans El Hl) (dns_name_hash_ci name)) as (dz & Hdz & Hfree & _); [apply zeros_elem; lia |].
  destruct (set_slot_walk set bits (dns_name_hash_ci name) name dz Hb Hl Hfree dz 0 (length set)) as (s & v & E & Hv); [lia | lia |].
  exists s, v. split; [| done]. unfold set_find. pose proof (mask_mod (used_slots set) bits Hb (eq_trans El Hl) (dns_name_hash_ci name)) as Hm. rewrite El in Hm.
  rewrite Hm. by rewrite Z.add_0_r in E.
Qed.

Lemma set_add set n s v t : set_ok set n -> at_ix set s = Ret v -> set_ok (<[Z.to_nat s := Some t]> set) (n + 1).
Proof.
  intros [Hp Hz] [Hs E]%at_ix_Ret. split; [by rewrite length_insert |]. rewrite length_insert. unfold used_slots in *. change (map ?f ?l) with (f <$> l) in *. rewrite list_fmap_insert.
  destruct v as [x |].
  - rewrite list_insert_id; [lia |]. by rewrite list_lookup_fmap, E.
  - pose proof (zeros_fill ((fun o : option (list Z) => match o with None => 0 | Some _ => 1 end) <$> set) (Z.to_nat s) 1) as Hf.
    rewrite list_lookup_fmap, E in Hf. specialize (Hf eq_refl ltac:(lia)). lia.
Qed.

Lemma alias_owners_spec rest : forall set n, set_ok set n -> n + aliases rest < len set ->
  exists set', alias_owners rest set = Ret set' /\ set_ok set' (n + aliases rest) /\ length set' = length set.
Proof.
  induction rest as [| r rest IH]; intros set n Hok Hlt; cbn [alias_owners]; [exists set; unfold aliases; cbn; by rewrite Z.add_0_r |]. rewrite aliases_cons in *.
  assert (0 <= aliases rest) by (unfold aliases; lia). destruct (is_alias (rec r)); cbn [negb orb]; [| by apply IH]. case_if.
  - destruct (IH set (n + 1)) as (set' & -> & Hok' & Hl); [destruct Hok as [? ?]; split; [done | lia] | lia |]. exists set'. split_and!; [done | by replace (n + (1 + aliases rest)) with (n + 1 + aliases rest) by lia | done].
  - destruct (set_find_spec set n (name_of r) Hok) as (s & v & -> & Ev & _); [lia |]. cbn [obind].
    destruct (IH (<[Z.to_nat s := Some (name_of r)]> set) (n + 1)) as (set' & -> & Hok' & Hl); [by eapply set_add | rewrite length_insert; lia |].
    exists set'. rewrite length_insert in Hl. split_and!; [done | by replace (n + (1 + aliases rest)) with (n + 1 + aliases rest) by lia | done].
Qed.

Lemma alias_conflicts_defined rest : forall set n, set_ok set n -> n < len set -> defined (alias_conflicts rest set).
Proof.
  induction rest as [| r rest IH]; intros set n Hok Hlt; cbn [alias_conflicts]; [apply defined_Ret |]. cbv zeta. case_if; [by eapply IH |].
  destruct (set_find_spec set n (name_of r) Hok Hlt) as (s & v & -> & Ev & _). cbn [obind]. rewrite Ev. cbn [obind]. case_if; [apply defined_Fail | by eapply IH].
Qed.

Lemma set_new n : 0 < n < 2147483648 -> set_ok (replicate (Z.to_nat (alias_set_size n)) None) 0 /\ n < len (replicate (Z.to_nat (alias_set_size n)) (@None (list Z))).
Proof.
  intros Hn. unfold alias_set_size. destruct (next_pow2_from_spec 64 16 (n * 2)) as (k & Hk & -> & Hbig); [lia |]. replace (16 * 2 ^ k) with (2 ^ (4 + k)) in * by (by rewrite Z.pow_add_r by lia).
  assert (n * 2 <= 2 ^ (4 + k)) as Hle by (destruct Hbig as [? | ->]; [done |]; change (2 ^ (4 + Z.of_nat 64)) with 295147905179352825856; lia).
  assert (len (replicate (Z.to_nat (2 ^ (4 + k))) (@None (list Z))) = 2 ^ (4 + k)) as El by (rewrite length_replicate; lia). rewrite El. split; [| lia].
  split; [exists (4 + k); split; [lia | done] |]. rewrite El. pose proof (table_new (4 + k) ltac:(lia)) as (_ & _ & Hz). unfold used_slots. change (map ?f ?l) with (f <$> l). rewrite fmap_replicate. cbn [length] in Hz. rewrite length_replicate in Hz. lia.
Qed.

Lemma validate_pdns_defined : len rs < 2147483647 -> defined (validate_zone_pdns_types loc_rdata rs).
Proof.
  intros Hl. unfold validate_zone_pdns_types. assert (forall x : outcome unit, defined x -> defined (match rs with [] => Ret tt | _ => x end)) as Hm by (clear; intros; destruct rs; [apply defined_Ret | done]). apply Hm. clear Hm.
  pose proof validate_singletons_defined as [? ?]. destruct (validate_zone_singletons loc_rdata rs) as [[] | | |]; try done; cbn [obind].
  destruct (pdns_scan_spec rs 0 false) as [-> | (dnssec & ->)]; [done | apply defined_Fail |]. cbn [obind]. rewrite Z.add_0_l. destruct (Z.eqb_spec (aliases rs) 0) as [| Hne]; [apply defined_Ret |].
  case_if; [apply defined_Fail |]. assert (0 < aliases rs < 2147483648) as Ha.
  { split; [unfold aliases in *; lia |]. unfold aliases. pose proof (List.filter_length_le (fun r => is_alias (rec r)) rs). lia. }
  destruct (set_new _ Ha) as [Hok Hlt]. destruct (alias_owners_spec rs _ 0 Hok) as (set & -> & Hok' & Hl'); [lia |]. cbn [obind]. eapply alias_conflicts_defined; [done |]. lia.
Qed.

End Answers.

End ZoneCheck.
