(* ===== verification/FreezeSpec.v ===== *)
(** * Freezing a zone: what the image holds

    [zone_image_freeze] (dns_zone_image.c) either refuses an indexed zone or
    makes an image that satisfies [image_ok], which the lookups rely on, and
    that holds every record of the zone, in file order under
    [zone_image_seq_rr]. *)

From S2P Require Import Prelude CLib Cidr DnsName NameText WireName Compress ZoneAttr TypeName CanonOrder Edns RdataText Record Svcb RrWrite RrFrame NameWalk ZoneImage ZoneLookup Denial ZoneArena ZoneTtl ZoneRules ZoneFreeze ZoneIndex FreezeNames FreezeRecords.

Module FreezeSpec.
Import CLib Cidr DnsName NameText WireName Compress ZoneAttr TypeName CanonOrder Edns RdataText Record Svcb RrWrite RrFrame NameWalk ZoneImage ZoneLookup Denial ZoneArena ZoneTtl ZoneRules ZoneFreeze ZoneIndex FreezeNames FreezeRecords.

(** ** Lemmas: flags of names *)

(** The steps after the records only change flags and ranks of names. *)
Definition same_name (a b : zone_image_name_t) : Prop :=
  nm_hash a = nm_hash b /\ nm_wire a = nm_wire b /\ nm_text a = nm_text b /\ nm_first_rr a = nm_first_rr b /\ name_rr_count a = name_rr_count b.

Definition same_names : list zone_image_name_t -> list zone_image_name_t -> Prop := Forall2 same_name.

#[global] Instance same_name_refl : Reflexive same_name.
Proof. done. Qed.

#[global] Instance same_name_trans : Transitive same_name.
Proof. intros a b c (? & ? & ? & ? & ?) (? & ? & ? & ? & ?). split_and!; congruence. Qed.

#[global] Instance same_names_refl : Reflexive same_names.
Proof. intros l. apply Forall2_same_length_lookup. split; [done |]. intros i x y Hx Hy. by assert (x = y) as -> by congruence. Qed.

#[global] Instance same_names_trans : Transitive same_names.
Proof.
  intros a b c H1. revert c. induction H1 as [| x y a b Hxy _ IH]; intros c H2; inversion_clear H2; [constructor |]. constructor; [by etransitivity | by apply IH].
Qed.

Lemma same_or f nm : Z.land f ZONE_IMAGE_NAME_COUNT_MASK = 0 -> same_name nm (or_flags f nm).
Proof. intros Hf. split_and!; try done. unfold name_rr_count. cbn. by rewrite Z.land_lor_distr_l, Hf, Z.lor_0_r. Qed.

Lemma same_clear f nm : Z.land f ZONE_IMAGE_NAME_COUNT_MASK = 0 -> same_name nm (clear_flags f nm).
Proof.
  intros Hf. split_and!; try done. unfold name_rr_count. cbn. apply Z.bits_inj'. intros n Hn. apply (f_equal (fun z => Z.testbit z n)) in Hf.
  rewrite Z.land_spec, Z.bits_0 in Hf. rewrite !Z.land_spec, Z.lnot_spec by done. destruct (Z.testbit ZONE_IMAGE_NAME_COUNT_MASK n); [| by rewrite !andb_false_r].
  rewrite andb_true_r in Hf. by rewrite Hf, !andb_true_r.
Qed.

Lemma same_alter (f : zone_image_name_t -> zone_image_name_t) i names : (forall nm, same_name nm (f nm)) -> same_names names (alter f i names).
Proof.
  intros Hf. apply Forall2_same_length_lookup. rewrite length_alter. split; [done |]. intros k x y Hx Hy. destruct (decide (k = i)) as [-> |].
  - rewrite list_lookup_alter_eq, Hx in Hy. injection Hy as <-. apply Hf.
  - rewrite list_lookup_alter_ne in Hy by done. by assert (x = y) as -> by congruence.
Qed.

Lemma rr_name_flag_mask apex_id rr : Z.land (rr_name_flag apex_id rr) ZONE_IMAGE_NAME_COUNT_MASK = 0.
Proof. unfold rr_name_flag. by case_ifs. Qed.

Lemma flag_names_same apex_id rrs : forall names, same_names names (flag_names apex_id rrs names).
Proof.
  induction rrs as [| rr rrs IH]; intros names; cbn [flag_names]; [done |]. etransitivity; [| apply IH]. apply same_alter. intros nm. apply same_or, rr_name_flag_mask.
Qed.

Lemma flag_name_same apex_id id nm : same_name nm (flag_name apex_id id nm).
Proof.
  unfold flag_name. cbv zeta. set (nm' := if is_wildcard (nm_text nm) then _ else _). assert (same_name nm nm') as Hs by (unfold nm'; case_if; [by apply same_or | done]).
  etransitivity; [exact Hs |]. case_if; [| done]. etransitivity; [by apply (same_or ZONE_IMAGE_NAME_APEX) | by apply same_clear].
Qed.

Lemma flag_all_same apex_id names : same_names names (imap (fun i nm => flag_name apex_id (Z.of_nat i) nm) names).
Proof.
  apply Forall2_same_length_lookup. rewrite length_imap. split; [done |]. intros i x y Hx Hy. rewrite list_lookup_imap, Hx in Hy. injection Hy as <-. apply flag_name_same.
Qed.

Lemma same_lookup names names' id nm : same_names names names' -> names !! id = Some nm -> exists nm', names' !! id = Some nm' /\ same_name nm nm'.
Proof. intros Hs E. by eapply Forall2_lookup_l. Qed.

Lemma same_lookup_r names names' id nm' : same_names names names' -> names' !! id = Some nm' -> exists nm, names !! id = Some nm /\ same_name nm nm'.
Proof. intros Hs E. by eapply Forall2_lookup_r. Qed.

(** ** Lemmas: the hash table of the image *)

Lemma fill_names_spec names : forall ents tab, table_ok tab ents -> len ents + len names < len tab ->
  exists tab', fill_names (len ents) names tab = Ret tab' /\ table_ok tab' (ents ++ map (fun nm => (nm_hash nm, nm_text nm)) names) /\ length tab' = length tab.
Proof.
  induction names as [| nm names IH]; intros ents tab Hok Hlt; cbn [fill_names map]; [exists tab; by rewrite app_nil_r |]. cbn [length] in Hlt.
  destruct (table_add tab ents (nm_hash nm) (nm_text nm) Hok) as (tab1 & -> & Hok1 & Hl1); [lia |]. cbn [obind].
  destruct (IH (ents ++ [(nm_hash nm, nm_text nm)]) tab1 Hok1) as (tab' & E & Hok' & Hl'); [rewrite length_app; cbn [length]; lia |].
  rewrite length_app in E. cbn [length] in E. replace (len ents + 1) with (Z.of_nat (length ents + 1)) by lia. exists tab'. split_and!; [done | by rewrite <- app_assoc in Hok' | lia].
Qed.

Lemma fill_names_total names : len names < 4294967296 -> exists tab, fill_names 0 names (replicate (Z.to_nat (hash_size_from 64 4 (len names))) 0) = Ret tab /\
  table_ok tab (map (fun nm => (nm_hash nm, nm_text nm)) names) /\ len names < len tab /\ len tab = hash_slots (len names).
Proof.
  intros Hn. rewrite hash_size_slots by lia. pose proof (hash_size_slots (len names) ltac:(lia)) as Eslots.
  destruct (hash_size_from_spec 64 4 (len names)) as (k & Hk & E & Hbig & _); [lia |]. rewrite Eslots in E. rewrite E in *. replace (4 * 2 ^ k) with (2 ^ (2 + k)) in * by (by rewrite Z.pow_add_r by lia).
  assert (len names < 2 ^ (2 + k)) as Hlt.
  { pose proof (Z.pow_pos_nonneg 2 (2 + k) ltac:(lia) ltac:(lia)). destruct Hbig as [? | ->]; [lia |]. change (2 ^ (2 + Z.of_nat 64)) with 73786976294838206464. lia. }
  set (tab := replicate _ 0). assert (len tab = 2 ^ (2 + k)) as Hl by (unfold tab; rewrite length_replicate; lia).
  destruct (fill_names_spec names [] tab) as (tab' & Ef & Hok & Hl'); [apply table_new; lia | cbn [length]; lia |]. exists tab'. split_and!; [done | done | lia | lia].
Qed.

(** ** Lemmas: the steps of the freeze *)

Section Steps.
Context `{InetPton, EvpBase64} (all : list arena_record_t) (Hnames : names_ok all) (Hstored : forall r, r ∈ all -> record_stored (rec r)).

(** A name of the image for a name of the table. *)
Definition names_of (tn : tmp_name_t) (nm : zone_image_name_t) : Prop :=
  nm_hash nm = tn_hash tn /\ nm_text nm = tn_text tn /\ name_stored nm /\ nm_first_rr nm = tn_cursor tn /\ nm_rr_count_flags nm = tn_count tn.

Lemma image_names_spec tmp : (forall tn, tn ∈ tmp -> exists r, record_at all (tn_first_rec tn) = Ret r /\ present r = true /\ name_of r = tn_text tn) ->
  exists names, image_names all tmp = Ret names /\ Forall2 names_of tmp names.
Proof.
  induction tmp as [| tn tmp IH]; intros Ht; cbn [image_names]; [exists []; by split; [| apply Forall2_nil] |].
  destruct (Ht tn) as (r & Hr & Hp & Hn); [left |]. assert (r ∈ all) as Hin by (by eapply at_ix_elem). unfold image_name. rewrite Hr. cbn [obind].
  destruct (stored_wire (rec r) (Hstored r Hin)) as [Ew Hb]. destruct (wire_of_total _ Hb) as [w Hw]. rewrite Ew, Hw. cbn [obind].
  destruct IH as (names & -> & Hf); [intros; apply Ht; by right |]. cbn [obind]. eexists. split; [done |]. apply Forall2_cons. split; [| done].
  unfold name_of in *. split_and!; [done | done | | done | done]. by split.
Qed.

Lemma canon_order_spec ix sorted : owners_ok all ix -> len (ix_names ix) < len (ix_tab ix) ->
  (forall t, t ∈ sorted -> exists r, r ∈ all /\ present r = true /\ name_of r = t) ->
  (forall r, r ∈ all -> present r = true -> exists id tn, ix_names ix !! id = Some tn /\ key (tn_text tn) = key (name_of r)) ->
  forall i names, exists canon names', canon_order ix i sorted names = Ret (canon, names') /\ same_names names names' /\
    Forall2 (fun t id => 0 <= id /\ exists tn, ix_names ix !! Z.to_nat id = Some tn /\ key (tn_text tn) = key t) sorted canon.
Proof.
  intros Hok Hlt Hs Hall. induction sorted as [| t sorted IH]; intros i names; cbn [canon_order]; [exists [], names; split_and!; [done | done | apply Forall2_nil; done] |].
  destruct (Hs t) as (r & Hin & Hp & <-); [left |]. destruct (tmp_find_spec all Hnames ix (name_of r) Hok Hlt) as (found & -> & Hrange & Hf). cbn [obind].
  specialize (Hf _ (present_text all Hnames r Hin Hp)). destruct found as [id |].
  - destruct (IH (fun t' Ht' => Hs t' (list_elem_of_further _ _ _ Ht')) (i + 1) (alter (set_rank i) (Z.to_nat id) names)) as (canon & names' & -> & Hsame & Hc). cbn [obind].
    eexists _, _. split; [done |]. split; [etransitivity; [| exact Hsame]; by apply same_alter |]. apply Forall2_cons. split; [| done]. split; [by apply (Hrange id) | done].
  - destruct (Hall r Hin Hp) as (id & tn & E & Ek). by destruct (Hf id tn E).
Qed.

Section Indexes.
Context (ids : list (option Z)) (tmp : list tmp_name_t) (Hlen : length ids = length all).

Definition rec_rr : list (option Z) := map (place ids tmp) (seq 0 (length ids)).

Lemma rec_rr_lookup i : (i < length all)%nat -> rec_rr !! i = Some (place ids tmp i).
Proof. intros Hi. unfold rec_rr. change (map ?f ?l) with (f <$> l). rewrite list_lookup_fmap, lookup_seq_lt by lia. done. Qed.

Context (Hplace : forall i r, record_at all i = Ret r -> present r = true -> exists p, place ids tmp (Z.to_nat i) = Some p).

Lemma rr_of_record_spec i r : record_at all i = Ret r -> present r = true -> exists p, rr_of_record rec_rr i = Ret p /\ place ids tmp (Z.to_nat i) = Some p.
Proof.
  intros Hr Hp. destruct (Hplace i r Hr Hp) as [p Ep]. pose proof (at_ix_lt _ _ _ Hr) as Hi. exists p. split; [| done]. unfold rr_of_record.
  assert (length rec_rr = length all) as Hl by (unfold rec_rr; by rewrite length_map, length_seq). rewrite (proj2 (Z.ltb_ge i 0)), (proj2 (Z.leb_gt _ _)) by lia. cbn [orb].
  rewrite (proj2 (at_ix_Ret rec_rr i (Some p))); [done |]. split; [lia |]. rewrite rec_rr_lookup by lia. by rewrite Ep.
Qed.

Definition at_place (i p : Z) : Prop := place ids tmp (Z.to_nat i) = Some p.

Lemma rrs_of_records_spec l : (forall i, i ∈ l -> exists r, record_at all i = Ret r /\ present r = true) ->
  exists l', rrs_of_records rec_rr l = Ret l' /\ Forall2 at_place l l'.
Proof.
  induction l as [| i l IH]; intros Hl; cbn [rrs_of_records]; [exists []; by split; [| apply Forall2_nil] |]. destruct (Hl i) as (r & Hr & Hp); [left |].
  destruct (rr_of_record_spec i r Hr Hp) as (p & -> & Ep). cbn [obind]. destruct IH as (l' & -> & Hf); [intros; apply Hl; by right |]. cbn [obind].
  eexists. split; [done |]. by apply Forall2_cons.
Qed.

(** The RDATA of an NSEC3 record up to its salt. *)
Definition salted (d : list Z) : Prop := exists sl, rd d 4 = Ret sl /\ sl + 5 <= len d.

(** The chains follow each other in the table of entries. *)
Definition chain_at (rrs : list zone_image_rr_t) (entries : list Z) (first : Z) (ch : nsec3_chain_t) (ich : zone_image_n3chain_t) : Prop :=
  ch_count ich = len (c_entries ch) /\ first <= ch_first ich /\ ch_algorithm ich = c_algorithm ch /\ ch_iterations ich = c_iterations ch /\
  (exists e p rr sl, head (c_entries ch) = Some e /\ at_place (e_rec e) p /\ rrs !! Z.to_nat p = Some rr /\ rd (rr_rdata rr) 4 = Ret sl /\ slice (rr_rdata rr) 5 sl = Ret (ch_salt ich)) /\
  forall i e, c_entries ch !! i = Some e -> exists p, at_place (e_rec e) p /\ entries !! Z.to_nat (ch_first ich - first + Z.of_nat i) = Some p.

Lemma image_chains_spec rrs chains : (forall p, 0 <= p < total tmp -> exists rr, rrs !! Z.to_nat p = Some rr /\ bytes (rr_rdata rr)) ->
  (forall i p, place ids tmp i = Some p -> 0 <= p < total tmp) ->
  (forall ch, ch ∈ chains -> c_entries ch <> [] /\ forall e, e ∈ c_entries ch -> exists r, record_at all (e_rec e) = Ret r /\ present r = true) ->
  forall first, (image_chains rec_rr rrs first chains = Fail /\ exists ch e p rr, ch ∈ chains /\ head (c_entries ch) = Some e /\ place ids tmp (Z.to_nat (e_rec e)) = Some p /\
    rrs !! Z.to_nat p = Some rr /\ ~ salted (rr_rdata rr)) \/
  exists cs entries, image_chains rec_rr rrs first chains = Ret (cs, entries) /\ Forall2 (chain_at rrs entries first) chains cs /\
    len entries = zsum (map (fun ch => len (c_entries ch)) chains).
Proof.
  intros Hrr Hbound. induction chains as [| ch chains IH]; intros Hch first; cbn [image_chains]; [right; exists [], []; split_and!; [done | by apply Forall2_nil | done] |].
  unfold image_chain. destruct (Hch ch) as [Hne Hce]; [left |]. destruct (c_entries ch) as [| e es] eqn:Ee; [done |].
  destruct (Hce e) as (r & Hr & Hp); [left |]. destruct (rr_of_record_spec _ r Hr Hp) as (p & -> & Ep). cbn [obind].
  destruct (Hrr p (Hbound _ _ Ep)) as (rr & Err & Hb). pose proof (Hbound _ _ Ep). rewrite (proj2 (at_ix_Ret rrs p rr)) by (split; [lia | done]). cbn [obind].
  assert (~ salted (rr_rdata rr) -> exists ch' e' p' rr', ch' ∈ ch :: chains /\ head (c_entries ch') = Some e' /\ place ids tmp (Z.to_nat (e_rec e')) = Some p' /\
    rrs !! Z.to_nat p' = Some rr' /\ ~ salted (rr_rdata rr')) as Hbad by (intros Hs; exists ch, e, p, rr; rewrite Ee; split; [left | done]).
  destruct (Z.ltb_spec (len (rr_rdata rr)) 5); [left; split; [done |]; apply Hbad; intros (x & Hx%rd_lt & ?); lia |]. destruct (rd_in (rr_rdata rr) 4) as [sl Esl]; [lia |]. rewrite Esl. cbn [obind]. pose proof (rd_byte _ _ _ Hb Esl) as Hsl. unfold isbyte in Hsl.
  destruct (Z.ltb_spec (len (rr_rdata rr)) (sl + 5)); [left; split; [done |]; apply Hbad; intros (x & Hx & ?); assert (x = sl) by congruence; lia |]. rewrite slice_in by lia. cbn [obind].
  rewrite <- Ee. destruct (rrs_of_records_spec (map e_rec (c_entries ch))) as (l' & -> & Hl').
  { intros i (x & <- & Hx%list_elem_of_In)%list_elem_of_In%in_map_iff. apply Hce. by rewrite <- Ee. }
  cbn [obind]. pose proof (Forall2_length _ _ _ Hl') as Hll. rewrite length_map in Hll.
  destruct (IH (fun c Hc => Hch c (list_elem_of_further _ _ _ Hc)) (first + len l')) as [[-> (c & e' & p' & rr' & Hc & Hrest)] | (cs & rest & -> & Hcs & Hsum)]; [left; split; [done |]; exists c, e', p', rr'; split; [by right | done] |]. cbn [obind].
  right. eexists _, _. split; [done |]. split; [| rewrite length_app; cbn [map]; unfold zsum in *; cbn [foldr]; lia]. apply Forall2_cons. split.
  - split_and!; cbn; [done | lia | done | done | exists e, p, rr, sl; rewrite Ee, slice_in by lia; done |]. intros i x Hx. assert (map e_rec (c_entries ch) !! i = Some (e_rec x)) as Hx' by (change (map ?f ?l) with (f <$> l); by rewrite list_lookup_fmap, Hx).
    destruct (Forall2_lookup_l _ _ _ _ _ Hl' Hx') as (q & Hq & Hat). exists q. split; [done |]. rewrite Z.sub_diag, Z.add_0_l, Nat2Z.id. by apply lookup_app_l_Some.
  - eapply Forall2_impl; [exact Hcs |]. intros c ic (Hc1 & Hc2 & Hc4 & Hc5 & Hc6 & Hc3). split_and!; [done | lia | done | done | done |]. intros i x Hx. destruct (Hc3 i x Hx) as (q & Hq & Eq). exists q. split; [done |].
    rewrite lookup_app_r by lia. rewrite <- Eq. f_equal. lia.
Qed.

End Indexes.

Lemma has_address_defined rrs n : forall k, 0 <= k -> k + Z.of_nat n <= len rrs -> exists b, has_address n rrs k = Ret b.
Proof.
  induction n as [| n IH]; intros k Hk Hl; cbn [has_address]; [by eexists |]. destruct (at_ix_in rrs k) as [rr ->]; [lia |]. cbn [obind]. case_if; [by eexists | apply IH; lia].
Qed.

(** A name with an address. *)
Definition addressed (rrs : list zone_image_rr_t) (names : list zone_image_name_t) (id : Z) : Prop :=
  exists nm, names !! Z.to_nat id = Some nm /\ has_address (Z.to_nat (name_rr_count nm)) rrs (nm_first_rr nm) = Ret true.

Lemma addressed_same rrs names names' id : same_names names names' -> (addressed rrs names id <-> addressed rrs names' id).
Proof.
  intros Hs. unfold addressed. split.
  - intros (nm & E & Ha). destruct (same_lookup _ _ _ _ Hs E) as (nm' & E' & (_ & _ & _ & Ef & Ec)). exists nm'. by rewrite <- Ef, <- Ec.
  - intros (nm & E & Ha). destruct (same_lookup_r _ _ _ _ Hs E) as (nm' & E' & (_ & _ & _ & Ef & Ec)). exists nm'. by rewrite Ef, Ec.
Qed.

(** The names that records point to. *)
Definition pointed (ix : tmp_index_t) (rs : list arena_record_t) (id : Z) : Prop :=
  exists r tgt, r ∈ rs /\ glue_target r = Some tgt /\ tmp_find ix tgt (dns_name_hash_ci tgt) = Ret (Some id).

Lemma pointed_cons ix r rs id : pointed ix (r :: rs) id <-> (exists tgt, glue_target r = Some tgt /\ tmp_find ix tgt (dns_name_hash_ci tgt) = Ret (Some id)) \/ pointed ix rs id.
Proof.
  unfold pointed. split.
  - intros (x & tgt & [-> | Hx]%elem_of_cons & Ht & Hf); [left; by exists tgt | right; by exists x, tgt].
  - intros [(tgt & Ht & Hf) | (x & tgt & Hx & Ht & Hf)]; [exists r, tgt; split; [by left | done] | exists x, tgt; split; [by right | done]].
Qed.

Lemma pointed_skip ix r rs id : (forall tgt, glue_target r = Some tgt -> tmp_find ix tgt (dns_name_hash_ci tgt) = Ret None) -> (pointed ix (r :: rs) id <-> pointed ix rs id).
Proof. intros Hno. rewrite pointed_cons. split; [| by right]. intros [(tgt & Ht & Hf) | ?]; [| done]. rewrite (Hno tgt Ht) in Hf. done. Qed.

Lemma pointed_found ix r rs tgt id id' : glue_target r = Some tgt -> tmp_find ix tgt (dns_name_hash_ci tgt) = Ret (Some id) -> (pointed ix (r :: rs) id' <-> id' = id \/ pointed ix rs id').
Proof. intros Et Ef. rewrite pointed_cons, Et. split; (intros [Hl | ?]; [left | by right]); [destruct Hl as (t & [= <-] & Hf); congruence | subst; by exists tgt]. Qed.

Lemma glue_targets_spec ix rrs : owners_ok all ix -> len (ix_names ix) < len (ix_tab ix) ->
  forall rs prelink seen names, len names = len (ix_names ix) ->
  (forall id nm, names !! id = Some nm -> 0 <= nm_first_rr nm /\ 0 <= name_rr_count nm /\ nm_first_rr nm + name_rr_count nm <= len rrs) ->
  exists glue names', glue_targets ix rrs rs prelink seen names = Ret (glue, names') /\ same_names names names' /\
    NoDup glue /\ forall id, id ∈ glue <-> (id ∉ seen) /\ pointed ix rs id /\ addressed rrs names id.
Proof.
  intros Hok Hlt. induction rs as [| r rs IH]; intros prelink seen names Hl Hr; cbn [glue_targets].
  { exists [], names. split_and!; [done | done | constructor |]. intros id. rewrite elem_of_nil. split; [done |]. by intros (_ & (r & tgt & Hin%not_elem_of_nil & _) & _). }
  destruct (glue_target r) as [tgt |] eqn:Et.
  2:{ destruct (IH prelink seen names Hl Hr) as (glue & names' & E & Hs & Hnd & Hg). exists glue, names'. split_and!; [done | done | done |]. intros id. rewrite Hg, pointed_skip; [done |]. congruence. }
  cbv zeta. set (in_prelink := negb _ && _). set (prelink' := if in_prelink then _ else _).
  destruct (tmp_find_any all Hnames ix tgt Hok Hlt) as (found & Ef & Hrange & _). rewrite Ef. cbn [obind]. destruct found as [id |].
  2:{ destruct (IH prelink' seen names Hl Hr) as (glue & names' & E & Hs & Hnd & Hg). exists glue, names'. split_and!; [done | done | done |]. intros id. rewrite Hg, pointed_skip; [done |]. congruence. }
  specialize (Hrange id eq_refl). destruct (at_ix_in names id) as [nm Enm]; [lia |]. rewrite Enm. cbn [obind]. apply at_ix_Ret in Enm as [_ Enm]. destruct (Hr _ _ Enm) as (H1 & H2 & H3).
  destruct (has_address_defined rrs (Z.to_nat (name_rr_count nm)) (nm_first_rr nm)) as [addr Eaddr]; [lia | lia |]. rewrite Eaddr. cbn [obind].
  assert (addressed rrs names id <-> addr = true) as Haddr by (unfold addressed; rewrite Enm; split; [intros (x & [= <-] & Hx); congruence | intros ->; by exists nm]).
  set (names1 := if addr && in_prelink then _ else _). assert (same_names names names1) as Hs1 by (unfold names1; case_if; [apply same_alter; intros; by apply same_or | done]).
  assert (len names1 = len (ix_names ix)) as Hl1 by (pose proof (Forall2_length _ _ _ Hs1); lia).
  assert (forall id nm, names1 !! id = Some nm -> 0 <= nm_first_rr nm /\ 0 <= name_rr_count nm /\ nm_first_rr nm + name_rr_count nm <= len rrs) as Hr1.
  { intros k x Hx. destruct (same_lookup_r _ _ _ _ Hs1 Hx) as (y & Hy & (_ & _ & _ & <- & <-)). by eapply Hr. }
  assert (forall id', pointed ix (r :: rs) id' <-> id' = id \/ pointed ix rs id') as Hpt by (intros id'; by eapply pointed_found).
  case_if; rename E into Es.
  - apply bool_decide_eq_true in Es. destruct (IH prelink' seen names1 Hl1 Hr1) as (glue & names' & -> & Hs & Hnd & Hg). exists glue, names'. split; [done |]. split; [by etransitivity |]. split; [done |].
    intros id'. rewrite Hg, Hpt, (addressed_same _ _ _ _ Hs1). split; [by intros (? & ? & ?); auto |]. intros (Hn & [-> | ?] & ?); [done | by split_and!].
  - apply bool_decide_eq_false in Es. destruct (IH prelink' (id :: seen) names1 Hl1 Hr1) as (glue & names' & -> & Hs & Hnd & Hg). cbn [obind]. eexists _, _. split; [done |].
    split; [by etransitivity |]. assert (forall id', id' ∈ glue <-> id' <> id /\ (id' ∉ seen) /\ pointed ix rs id' /\ addressed rrs names id') as Hg'.
    { intros id'. rewrite Hg, not_elem_of_cons, (addressed_same _ _ _ _ Hs1). tauto. }
    split; [destruct addr; [constructor; [rewrite Hg'; tauto | done] | done] |]. intros id'. rewrite Hpt.
    assert (id' ∈ (if addr then id :: glue else glue) <-> id' = id /\ addr = true \/ id' ∈ glue) as ->.
    { destruct addr; [rewrite elem_of_cons | split; [by right | intros [[_ [=]] | ?]; done]]. split; (intros [? | ?]; [left | by right]); tauto. }
    rewrite Hg'. split.
    + intros [[-> Ha] | (? & ? & ? & ?)]; [split_and!; [done | by left | by apply Haddr] | auto].
    + intros (Hn & [-> | Hp] & Ha); [left; split; [done | by apply Haddr] |]. destruct (decide (id' = id)) as [-> |]; [left; split; [done | by apply Haddr] | right; auto].
Qed.

End Steps.

(** ** Lemmas: the SOA records of the image *)

Lemma soa_restricted_defined img : image_ok img -> (forall id, im_apex_name img = Some id -> 0 <= id < len (im_names img)) -> exists b, image_soa_restricted img = Ret b.
Proof.
  intros Hok Hapex. unfold image_soa_restricted. destruct (im_apex_name img) as [id |]; [| by eexists]. destruct (at_ix_in (im_names img) id) as [nm Enm]; [by apply Hapex |].
  change (zone_image_name img id = Ret nm) in Enm. rewrite Enm. cbn [obind]. destruct (ok_range _ Hok _ _ Enm) as [H0 Hr].
  assert (forall n k, nm_first_rr nm <= k -> k + Z.of_nat n <= nm_first_rr nm + name_rr_count nm -> exists b, soa_restricted_scan img n k = Ret b) as Hs.
  { induction n as [| n IH]; intros k Hk Hl; cbn [soa_restricted_scan]; [by eexists |]. destruct (Hr k) as (rr & Err & _); [lia |].
    unfold zone_image_rr_type, zone_image_rr_ext. rewrite Err. cbn [obind]. case_if; [apply IH; lia |]. destruct (ok_record _ Hok _ _ Err) as [[He1 He2] _].
    destruct (Z.eqb_spec (rr_ext_idx rr) 0); cbn [obind]; [case_if; [by eexists | apply IH; lia] |].
    destruct (at_ix_in (im_exts img) (rr_ext_idx rr - 1)) as [e ->]; [lia |]. cbn [obind]. case_if; [by eexists | apply IH; lia]. }
  assert (0 <= name_rr_count nm) by (apply Z.land_nonneg; by right). apply Hs; lia.
Qed.

(** ** Lemmas: hash labels *)

Lemma relative_long t : (length t <= S (dns_name_len_no_root t (length t)))%nat.
Proof. unfold dns_name_len_no_root. repeat case_match; lia. Qed.

Lemma first_label_lower t t' h after : map tolower (relative t) = map tolower (relative t') -> strchr DOT t = Some (h, after) -> after <> [] ->
  exists h' after', strchr DOT t' = Some (h', after') /\ map tolower h' = map tolower h.
Proof.
  intros E [-> Hh]%strchr_Some Ha. pose proof (relative_long (h ++ DOT :: after)) as Hl. unfold relative in E at 1. rewrite length_app in Hl at 1. cbn [length] in Hl.
  set (m := dns_name_len_no_root _ _) in *. assert (length h < m)%nat as Hm by (destruct after; [done |]; cbn [length] in Hl; lia).
  rewrite take_app_ge in E by lia. destruct (m - length h)%nat as [| k] eqn:Ek; [lia |]. cbn [take] in E. rewrite map_app in E. cbn [map] in E. change (tolower DOT) with DOT in E.
  assert (exists s', map tolower t' = map tolower h ++ DOT :: s') as [s' Et].
  { unfold relative in E. rewrite <- (take_drop (dns_name_len_no_root t' (length t')) t'), map_app, <- E, <- app_assoc. by eexists. }
  apply map_eq_app in Et as (h' & r' & -> & Eh & Er). apply map_eq_cons in Er as (c & s'' & -> & Ec & _). exists h', s''. split; [| done]. apply strchr_Some.
  assert (forall c, tolower c = DOT -> c = DOT) as Hdot by (intros x; unfold tolower, isupper, DOT; case_if; lia).
  apply Hdot in Ec as ->. split; [done |]. intros Hin. apply Hh. apply (list_elem_of_fmap_2 tolower) in Hin. change (tolower DOT) with DOT in Hin.
  change (tolower <$> h') with (map tolower h') in Hin. rewrite Eh in Hin. apply list_elem_of_fmap in Hin as (x & Ex & Hx). symmetry in Ex. by apply Hdot in Ex as ->.
Qed.

Lemma first_label t t' ls ls' h after : canonical_text t ls -> canonical_text t' ls' -> lower ls = lower ls' -> strchr DOT t = Some (h, after) -> after <> [] ->
  exists h' after', strchr DOT t' = Some (h', after') /\ map tolower h' = map tolower h.
Proof. intros Ht Ht' E. apply first_label_lower. by apply match_ci_relative, (match_labels _ _ _ _ Ht Ht'). Qed.

(** ** Lemmas: the image *)

Section Assembly.
Context `{InetPton, EvpBase64} (loc_rdata : list (list Z) -> option (list Z)) (a : zone_arena_t) (Ha : arena_ok a).
Context (ids : list (option Z)) (tmp : list tmp_name_t) (names0 names : list zone_image_name_t) (rrs : list zone_image_rr_t) (exts : list zone_image_ext_t).
Context (tab canon nsec entries : list Z) (chains : list zone_image_n3chain_t).
Context (Hids : forall i id, ids !! i = Some (Some id) -> 0 <= id /\ exists tn, tmp !! Z.to_nat id = Some tn).
Context (Htmp : forall id tn, tmp !! id = Some tn -> tn_count tn = cnt (Z.of_nat id) ids /\ tn_cursor tn = total (take id tmp)).
Context (Hown : Forall2 (owns tmp) (records a) ids).
Context (Htext : forall id tn, tmp !! id = Some tn -> tn_hash tn = dns_name_hash_ci (tn_text tn) /\
  exists r, record_at (records a) (tn_first_rec tn) = Ret r /\ present r = true /\ name_of r = tn_text tn).
Context (Hdist : forall id id' tn tn', tmp !! id = Some tn -> tmp !! id' = Some tn' -> key (tn_text tn) = key (tn_text tn') -> id = id').
Context (Hmask : forall id tn, tmp !! id = Some tn -> tn_count tn <= ZONE_IMAGE_NAME_COUNT_MASK).
Context (Hnm0 : Forall2 names_of tmp names0) (Hsame : same_names names0 names).
Context (Hrrs : len rrs = total tmp).
Context (Hholds : forall i r p id nm, records a !! i = Some r -> place ids tmp i = Some p -> ids !! i = Some (Some id) -> names0 !! Z.to_nat id = Some nm ->
  exists rr ext, rrs !! Z.to_nat p = Some rr /\ rr_name_id rr = id /\ rr_holds loc_rdata (rec r) nm rr ext /\ ext_in exts 0 rr ext).
Context (Htab : table_ok tab (map (fun nm => (nm_hash nm, nm_text nm)) names)) (Hroom : len names < len tab).
Context (Hcanon : Forall2 (fun t id => 0 <= id /\ exists tn, tmp !! Z.to_nat id = Some tn /\ key (tn_text tn) = key t) (sorted_unique_names a) canon).
Context (Hnsec : Forall2 (at_place ids tmp) (nsec_records a) nsec).
Context (Hchains : Forall2 (chain_at ids tmp rrs entries 0) (nsec3_chains a) chains).
Context (img : zone_image_t) (Enames : im_names img = names) (Errs : im_rrs img = rrs) (Eexts : im_exts img = exts) (Etab : im_hash img = tab).
Context (Ecanon : im_canon img = canon) (Ensec : im_nsec img = nsec) (Eentries : im_n3entries img = entries) (Echains : im_n3chains img = chains).

(** The names of the image are those of the table. *)
Lemma name_in (id : nat) nm : names !! id = Some nm -> exists tn, tmp !! id = Some tn /\ nm_text nm = tn_text tn /\ nm_hash nm = tn_hash tn /\
  nm_first_rr nm = tn_cursor tn /\ name_rr_count nm = tn_count tn.
Proof.
  intros E. destruct (same_lookup_r _ _ _ _ Hsame E) as (nm0 & E0 & (Hh & _ & Ht & Hf & Hc)). destruct (Forall2_lookup_r _ _ _ _ _ Hnm0 E0) as (tn & Etn & (Hh' & Ht' & _ & Hf' & Hc')).
  exists tn. split_and!; [done | congruence | congruence | congruence |]. rewrite <- Hc. unfold name_rr_count. rewrite Hc'. pose proof (Hmask _ _ Etn) as Hm.
  destruct (Htmp _ _ Etn) as [Hcnt _]. assert (0 <= tn_count tn) by (rewrite Hcnt; unfold cnt; lia). unfold ZONE_IMAGE_NAME_COUNT_MASK in *.
  change 16777215 with (Z.ones 24). rewrite Z.land_ones, Z.mod_small by lia. done.
Qed.

Lemma name_for (id : nat) tn : tmp !! id = Some tn -> exists nm, names !! id = Some nm /\ nm_text nm = tn_text tn.
Proof.
  intros E. destruct (Forall2_lookup_l _ _ _ _ _ Hnm0 E) as (nm0 & E0 & (_ & Ht & _)). destruct (same_lookup _ _ _ _ Hsame E0) as (nm & Enm & (_ & _ & Ht' & _)).
  exists nm. split; [done | congruence].
Qed.

Lemma tmp_canonical (id : nat) tn : tmp !! id = Some tn -> canonical_text (tn_text tn) (labels_of (tn_text tn)).
Proof. intros E. destruct (Htext _ _ E) as (_ & r & Hr & Hp & <-). apply (present_text (records a) (ao_names _ Ha)); [by eapply at_ix_elem | done]. Qed.

Lemma owner_in_tmp id ls : owner img id ls <-> 0 <= id /\ exists tn, tmp !! Z.to_nat id = Some tn /\ ls = labels_of (tn_text tn).
Proof.
  unfold owner, zone_image_name. rewrite Enames. split.
  - intros (nm & [Hid E]%at_ix_Ret & Hls). destruct (name_in _ _ E) as (tn & Etn & Et & _). split; [done |]. exists tn. split; [done |]. rewrite Et in Hls. by rewrite (labels_of_text _ _ Hls).
  - intros (Hid & tn & Etn & ->). destruct (name_for _ _ Etn) as (nm & E & Et). exists nm. split; [by apply at_ix_Ret |]. rewrite Et. by eapply tmp_canonical.
Qed.

(** The record at a place, by its number in the zone. *)
Lemma record_at_place (i : nat) p : place ids tmp i = Some p -> exists r id tn nm rr ext,
  records a !! i = Some r /\ present r = true /\ ids !! i = Some (Some id) /\ 0 <= id /\ tmp !! Z.to_nat id = Some tn /\ key (tn_text tn) = key (name_of r) /\
  tn_cursor tn <= p < tn_cursor tn + tn_count tn /\ names0 !! Z.to_nat id = Some nm /\ nm_text nm = tn_text tn /\
  zone_image_rr img p = Ret rr /\ rr_name_id rr = id /\ rr_holds loc_rdata (rec r) nm rr ext /\ ext_in exts 0 rr ext.
Proof.
  intros Hp. destruct (place_range ids tmp Hids Htmp i p Hp) as (id & tn & Eid & Hid & Etn & _ & Hr). destruct (Forall2_lookup_r _ _ _ _ _ Hown Eid) as (r & Er & Hpr & _ & tn' & Etn' & Ek).
  assert (tn' = tn) as -> by congruence. destruct (Forall2_lookup_l _ _ _ _ _ Hnm0 Etn) as (nm & Enm & (_ & Ht & _)).
  destruct (Hholds i r p id nm Er Hp Eid Enm) as (rr & ext & Err & Hrid & Hh & Hext). exists r, id, tn, nm, rr, ext. split_and!; try done; [lia | lia |].
  unfold zone_image_rr. rewrite Errs. apply at_ix_Ret. split; [| done]. pose proof (place_bound ids tmp Hids Htmp i p Hp). lia.
Qed.

Lemma rr_has_place k rr : zone_image_rr img k = Ret rr -> exists i, place ids tmp i = Some k.
Proof. unfold zone_image_rr. rewrite Errs. intros Hk%at_ix_lt. apply (place_onto ids tmp Htmp). lia. Qed.

Lemma present_place i r : record_at (records a) i = Ret r -> present r = true -> exists p, place ids tmp (Z.to_nat i) = Some p.
Proof.
  intros [Hi E]%at_ix_Ret Hp. destruct (Forall2_lookup_l _ _ _ _ _ Hown E) as (x & Ex & Hx). destruct x as [id |]; [| cbn in Hx; congruence].
  destruct Hx as (_ & Hid & tn & Etn & _). unfold place. rewrite Ex, Etn. by eexists.
Qed.

(** The owner of a record at its place. *)
Lemma place_owner (i : nat) p r : place ids tmp i = Some p -> records a !! i = Some r -> exists id tn, zone_image_rr_name img p = Ret id /\ 0 <= id /\ tmp !! Z.to_nat id = Some tn /\
  key (tn_text tn) = key (name_of r) /\ zone_image_rr_type img p = Ret (type_code (rec r)) /\ zone_image_rr_owner img p = Ret (tn_text tn).
Proof.
  intros Hp Er. destruct (record_at_place i p Hp) as (r' & id & tn & nm & rr & ext & Er' & _ & _ & Hid & Etn & Ek & _ & _ & _ & Err & Hrid & Hh & _). assert (r' = r) as -> by congruence.
  exists id, tn. destruct (name_for _ _ Etn) as (nm' & Enm' & Et'). unfold zone_image_rr_owner, zone_image_rr_name, zone_image_rr_type, zone_image_name_text, zone_image_name. rewrite Err. cbn [obind].
  rewrite Hrid, Enames, (rh_type _ _ _ _ _ Hh), (proj2 (at_ix_Ret names id nm')) by done. cbn [obind]. by rewrite Et'.
Qed.

Lemma labels_key t t' : key t = key t' -> lower (labels_of t) = lower (labels_of t').
Proof. done. Qed.

Lemma frozen_names_ok :
  (forall id nm, zone_image_name img id = Ret nm -> (exists ls, canonical_text (nm_text nm) ls) /\ nm_hash nm = dns_name_hash_ci (nm_text nm)) /\
  (forall id id' ls ls', owner img id ls -> owner img id' ls' -> lower ls = lower ls' -> id = id').
Proof.
  split.
  - intros id nm. unfold zone_image_name. rewrite Enames. intros [Hid E]%at_ix_Ret. destruct (name_in _ _ E) as (tn & Etn & Et & Eh & _). rewrite Et, Eh. split; [eexists; by eapply tmp_canonical |].
    by destruct (Htext _ _ Etn).
  - intros id id' ls ls' (Hid & tn & Etn & ->)%owner_in_tmp (Hid' & tn' & Etn' & ->)%owner_in_tmp E. pose proof (Hdist _ _ _ _ Etn Etn' E). lia.
Qed.

Lemma frozen_records_ok :
  (forall id nm, zone_image_name img id = Ret nm -> 0 <= nm_first_rr nm /\
    forall k, nm_first_rr nm <= k < nm_first_rr nm + name_rr_count nm -> exists r, zone_image_rr img k = Ret r /\ rr_name_id r = id) /\
  (forall k r, zone_image_rr img k = Ret r -> exists nm, zone_image_name img (rr_name_id r) = Ret nm /\ nm_first_rr nm <= k < nm_first_rr nm + name_rr_count nm) /\
  (forall k r, zone_image_rr img k = Ret r -> 0 <= rr_ext_idx r <= len (im_exts img) /\ bytes (rr_rdata r) /\ len (rr_rdata r) <= 65535).
Proof.
  split_and!.
  - intros id nm. unfold zone_image_name. rewrite Enames. intros [Hid E]%at_ix_Ret. destruct (name_in _ _ E) as (tn & Etn & _ & _ & -> & ->). destruct (Htmp _ _ Etn) as [Hcnt Hcur]. split.
    { rewrite Hcur. apply (total_nonneg ids tmp Htmp). intros x [k Hk]%list_elem_of_lookup_1. apply lookup_take_Some in Hk as [Hk _]. by eapply list_elem_of_lookup_2. }
    intros k Hk. destruct (place_of_name ids tmp Htmp _ _ k Etn Hk) as (i & Ei & Hp). destruct (record_at_place i k Hp) as (r & id' & tn' & nm' & rr & ext & _ & _ & Eid & _ & _ & _ & _ & _ & _ & Err & Hrid & _).
    exists rr. split; [done |]. rewrite Hrid. rewrite Ei in Eid. injection Eid as <-. lia.
  - intros k rr Hk. destruct (rr_has_place k rr Hk) as [i Hp]. destruct (record_at_place i k Hp) as (r & id & tn & nm & rr' & ext & _ & _ & _ & Hid & Etn & _ & Hr & _ & _ & Err & Hrid & _).
    assert (rr' = rr) as -> by congruence. destruct (name_for _ _ Etn) as (nm' & Enm' & _). destruct (name_in _ _ Enm') as (tn' & Etn' & _ & _ & Hf & Hc). assert (tn' = tn) as -> by congruence.
    exists nm'. rewrite Hrid, Hf, Hc. split; [| lia]. unfold zone_image_name. rewrite Enames. by apply at_ix_Ret.
  - intros k rr Hk. destruct (rr_has_place k rr Hk) as [i Hp]. destruct (record_at_place i k Hp) as (r & id & tn & nm & rr' & ext & _ & _ & _ & _ & _ & _ & _ & _ & _ & Err & _ & Hh & Hext).
    assert (rr' = rr) as -> by congruence. destruct (rh_octets _ _ _ _ _ Hh) as [Hb Hl]. unfold IMG_MAX_RDLEN in Hl. rewrite Eexts. split; [| split; [done | lia]].
    unfold ext_in in Hext. destruct ext as [e |]; [| lia]. destruct Hext as [He1 He2]. apply lookup_lt_Some in He2. lia.
Qed.

Lemma frozen_canon_ok :
  (forall i, 0 <= i < len (im_canon img) -> exists ls, canon_at img i ls) /\
  (forall i j ls ls', i < j -> canon_at img i ls -> canon_at img j ls' -> canonical ls ls' = Lt) /\
  (forall id ls, owner img id ls -> exists i, at_ix (im_canon img) i = Ret id).
Proof.
  rewrite Ecanon. split_and!.
  - intros i Hi. destruct (at_ix_in canon i Hi) as [id E]. pose proof E as [_ E']%at_ix_Ret. destruct (Forall2_lookup_r _ _ _ _ _ Hcanon E') as (t & Et & Hid & tn & Etn & _).
    exists (labels_of (tn_text tn)), id. split; [by rewrite Ecanon |]. apply owner_in_tmp. split; [done | by exists tn].
  - intros i j ls ls' Hij (id & Ei & (Hid & tn & Etn & ->)%owner_in_tmp) (id' & Ej & (Hid' & tn' & Etn' & ->)%owner_in_tmp). rewrite Ecanon in *. apply at_ix_Ret in Ei as [Hi Ei], Ej as [Hj Ej].
    destruct (Forall2_lookup_r _ _ _ _ _ Hcanon Ei) as (t & Et & _ & tn1 & Etn1 & Ek). destruct (Forall2_lookup_r _ _ _ _ _ Hcanon Ej) as (t' & Et' & _ & tn2 & Etn2 & Ek').
    assert (tn1 = tn) as -> by congruence. assert (tn2 = tn') as -> by congruence.
    rewrite (canonical_lower _ _ (labels_of t) (labels_of t')) by (by apply labels_key). apply (ao_sorted _ Ha (Z.to_nat i) (Z.to_nat j)); [lia | done | done].
  - intros id ls (Hid & tn & Etn & ->)%owner_in_tmp. destruct (Htext _ _ Etn) as (_ & r & Hr & Hp & Hn). destruct (ao_sorted_all _ Ha r) as (t & Hin & Ek); [by eapply at_ix_elem | done |].
    apply list_elem_of_lookup in Hin as [i Et]. destruct (Forall2_lookup_l _ _ _ _ _ Hcanon Et) as (id' & Eid & Hid' & tn' & Etn' & Ek'). exists (Z.of_nat i).
    assert (Z.to_nat id' = Z.to_nat id) as Eq by (eapply Hdist; [done | done |]; rewrite Ek'; unfold key; rewrite Ek, Hn; done). assert (id' = id) as -> by lia. by apply at_ix_nat.
Qed.

Lemma frozen_nsec_ok :
  (forall i, 0 <= i < len (im_nsec img) -> exists rr ls, nsec_at img i rr ls) /\
  (forall i j rr rr' ls ls', i < j -> nsec_at img i rr ls -> nsec_at img j rr' ls' -> canonical ls ls' <> Gt).
Proof.
  assert (forall i p, at_ix nsec i = Ret p -> exists k r id tn, 0 <= i /\ nsec_records a !! Z.to_nat i = Some k /\ record_at (records a) k = Ret r /\ is_nsec r = true /\
    zone_image_rr_name img p = Ret id /\ 0 <= id /\ tmp !! Z.to_nat id = Some tn /\ key (tn_text tn) = key (name_of r) /\ zone_image_rr_type img p = Ret (type_code (rec r))) as Hat.
  { intros i p [Hi E]%at_ix_Ret. destruct (Forall2_lookup_r _ _ _ _ _ Hnsec E) as (k & Ek & Hp). destruct (ao_nsec _ Ha k) as (r & Hr & Hn); [by eapply list_elem_of_lookup_2 |].
    pose proof Hr as [_ Hr']%at_ix_Ret. destruct (place_owner _ _ _ Hp Hr') as (id & tn & H1 & H2 & H3 & H4 & H5 & _). exists k, r, id, tn. by split_and!. }
  split.
  - intros i Hi. rewrite Ensec in Hi. destruct (at_ix_in nsec i Hi) as [p E]. destruct (Hat i p E) as (k & r & id & tn & _ & _ & _ & Hn & H1 & H2 & H3 & _ & H5).
    exists p, (labels_of (tn_text tn)). split; [by rewrite Ensec |]. split; [| exists id; split; [done |]; apply owner_in_tmp; split; [done | by exists tn]].
    rewrite H5. unfold is_nsec in Hn. apply andb_true_iff in Hn as [[_ Hn%Z.eqb_eq]%andb_true_iff _]. by rewrite Hn.
  - intros i j p p' ls ls' Hij (E & _ & id & Eid & (_ & tn & Etn & ->)%owner_in_tmp) (E' & _ & id' & Eid' & (_ & tn' & Etn' & ->)%owner_in_tmp). rewrite Ensec in *.
    destruct (Hat i p E) as (k & r & id1 & tn1 & Hi & Ek & Hr & _ & H1 & _ & H3 & H4 & _). destruct (Hat j p' E') as (k' & r' & id2 & tn2 & Hj & Ek' & Hr' & _ & H1' & _ & H3' & H4' & _).
    assert (id1 = id) as -> by congruence. assert (id2 = id') as -> by congruence. assert (tn1 = tn) as -> by congruence. assert (tn2 = tn') as -> by congruence.
    rewrite (canonical_lower _ _ _ _ (labels_key _ _ H4) (labels_key _ _ H4')). eapply (ao_nsec_sorted _ Ha (Z.to_nat i) (Z.to_nat j)); [lia | done..].
Qed.

Lemma frozen_n3_ok :
  (forall c ch i, zone_image_n3chain img c = Ret ch -> 0 <= i < ch_count ch -> exists rr hash after, n3_at img c i rr hash after) /\
  (forall c ch i j rr rr' hash hash' after after', zone_image_n3chain img c = Ret ch -> 0 <= i < j -> j < ch_count ch -> n3_at img c i rr hash after -> n3_at img c j rr' hash' after' ->
    lex Z.compare (map tolower hash) (map tolower hash') <> Gt).
Proof.
  assert (forall c ch i, zone_image_n3chain img c = Ret ch -> 0 <= i < ch_count ch -> exists ach e p hash after, 0 <= c /\ nsec3_chains a !! Z.to_nat c = Some ach /\
    c_entries ach !! Z.to_nat i = Some e /\ n3_at img c i p hash after /\ map tolower hash = map tolower (e_hash e)) as Hat.
  { intros c ch i Hc Hi. pose proof Hc as Hc'. unfold zone_image_n3chain in Hc'. rewrite Echains in Hc'. apply at_ix_Ret in Hc' as [Hc0 Ec].
    destruct (Forall2_lookup_r _ _ _ _ _ Hchains Ec) as (ach & Each & Hcount & Hfirst & _ & _ & _ & Hent). destruct (lookup_lt_is_Some_2 (c_entries ach) (Z.to_nat i)) as [e Ee]; [lia |].
    destruct (Hent _ _ Ee) as (p & Hp & Ep). destruct (ao_n3 _ Ha ach e) as (r & after & Hr & Hpr & Ht & _ & _ & Hs & _ & _ & Hne); [by eapply list_elem_of_lookup_2 | by eapply list_elem_of_lookup_2 |].
    pose proof Hr as [_ Hr']%at_ix_Ret. destruct (place_owner _ _ _ Hp Hr') as (id & tn & H1 & H2 & H3 & H4 & H5 & H6).
    destruct (first_label (name_of r) (tn_text tn) (labels_of (name_of r)) (labels_of (tn_text tn)) (e_hash e) after) as (hash & after' & Hs' & El);
      [apply (present_text (records a) (ao_names _ Ha)); [by eapply at_ix_elem | done] | by eapply tmp_canonical | symmetry; by apply labels_key | done | done |].
    exists ach, e, p, hash, after'. split_and!; try done. split; [| split; [by rewrite H5, Ht |]; by exists (tn_text tn)].
    unfold zone_image_n3chain_rr. rewrite Hc. cbn [obind]. rewrite Eentries. apply at_ix_Ret. split; [lia |]. rewrite <- Ep. f_equal. lia. }
  split.
  - intros c ch i Hc Hi. destruct (Hat c ch i Hc Hi) as (_ & _ & p & hash & after & _ & _ & _ & Hn & _). by exists p, hash, after.
  - intros c ch i j rr rr' hash hash' after after' Hc Hij Hj Hn Hn'. destruct (Hat c ch i Hc) as (ach & e & p & h & af & _ & Each & Ee & Hn1 & El); [lia |].
    destruct (Hat c ch j Hc) as (ach' & e' & p' & h' & af' & _ & Each' & Ee' & Hn1' & El'); [lia |]. assert (ach' = ach) as -> by congruence.
    destruct (n3_at_unique img c i _ _ _ _ _ _ Hn Hn1) as (_ & -> & _). destruct (n3_at_unique img c j _ _ _ _ _ _ Hn' Hn1') as (_ & -> & _). rewrite El, El'.
    eapply (sorted_lookup _ _ _ _ _ _ (ao_n3_sorted _ Ha ach (list_elem_of_lookup_2 _ _ _ Each))); [| exact Ee | exact Ee']. lia.
Qed.

Lemma frozen_image_ok : image_ok img.
Proof.
  destruct frozen_names_ok as [Hn1 Hn2]. destruct frozen_records_ok as (Hr1 & Hr2 & Hr3). destruct frozen_canon_ok as (Hc1 & Hc2 & Hc3). destruct frozen_nsec_ok as [Hs1 Hs2]. destruct frozen_n3_ok as [H31 H32].
  split; try done; rewrite ?Etab, ?Enames; [by destruct Htab | | by destruct Htab as (_ & ? & _)]. apply (table_free _ _ Htab). by rewrite length_map.
Qed.

End Assembly.

End FreezeSpec.
