(* ===== verification/FreezeMarks.v ===== *)
(** * The marks of names in a frozen zone

    The flags and the canonical ranks that steps 5, 6 and 9 of
    [zone_image_freeze] (dns_zone_image.c) give to the names of an image. *)

From S2P Require Import Prelude CLib Cidr DnsName NameText WireName Compress ZoneAttr TypeName CanonOrder Edns RdataText Record Svcb RrWrite RrFrame NameWalk ZoneImage ZoneLookup Denial ZoneArena ZoneTtl ZoneRules ZoneFreeze ZoneIndex FreezeNames FreezeRecords ZoneCheck FreezeSpec.

Module FreezeMarks.
Import CLib Cidr DnsName NameText WireName Compress ZoneAttr TypeName CanonOrder Edns RdataText Record Svcb RrWrite RrFrame NameWalk ZoneImage ZoneLookup Denial ZoneArena ZoneTtl ZoneRules ZoneFreeze ZoneIndex FreezeNames FreezeRecords ZoneCheck FreezeSpec.

(** ** Flags *)

Definition has_mark (f : Z) (nm : zone_image_name_t) : bool := has_flag (nm_rr_count_flags nm) f.

(** The flags that the records of a name and its text decide. *)
Definition own_marks : list Z :=
  [ZONE_IMAGE_NAME_WILDCARD; ZONE_IMAGE_NAME_APEX; ZONE_IMAGE_NAME_CUT; ZONE_IMAGE_NAME_DNAME; ZONE_IMAGE_NAME_NSEC; ZONE_IMAGE_NAME_ALIAS].

Lemma own_marks_cases (P : Z -> Prop) : P ZONE_IMAGE_NAME_WILDCARD -> P ZONE_IMAGE_NAME_APEX -> P ZONE_IMAGE_NAME_CUT -> P ZONE_IMAGE_NAME_DNAME -> P ZONE_IMAGE_NAME_NSEC ->
  P ZONE_IMAGE_NAME_ALIAS -> forall f, f ∈ own_marks -> P f.
Proof. intros ?????? f Hf. unfold own_marks in Hf. rewrite !elem_of_cons, elem_of_nil in Hf. by destruct Hf as [-> | [-> | [-> | [-> | [-> | [-> | []]]]]]]. Qed.

Definition all_marks : list Z := ZONE_IMAGE_NAME_GLUE :: own_marks.

Lemma all_marks_cases (P : Z -> Prop) : P ZONE_IMAGE_NAME_GLUE -> (forall f, f ∈ own_marks -> P f) -> forall f, f ∈ all_marks -> P f.
Proof. intros HP Hown f [-> | Hf]%elem_of_cons; [done | by apply Hown]. Qed.

Lemma own_in_all f : f ∈ own_marks -> f ∈ all_marks.
Proof. by right. Qed.

(** A count has no flags. *)
Lemma count_marks c f : 0 <= c <= ZONE_IMAGE_NAME_COUNT_MASK -> f ∈ all_marks -> has_flag c f = false.
Proof.
  intros Hc Hf. assert (c = Z.land c ZONE_IMAGE_NAME_COUNT_MASK) as -> by (unfold ZONE_IMAGE_NAME_COUNT_MASK in *; change 16777215 with (Z.ones 24); rewrite Z.land_ones, Z.mod_small by lia; done).
  unfold has_flag. rewrite <- Z.land_assoc. enough (Z.land ZONE_IMAGE_NAME_COUNT_MASK f = 0) as -> by (by rewrite Z.land_0_r). revert f Hf. apply all_marks_cases; [done |]. by apply own_marks_cases.
Qed.

Lemma has_flag_lor x y f : has_flag (Z.lor x y) f = has_flag x f || has_flag y f.
Proof.
  unfold has_flag. rewrite Z.land_lor_distr_l, <- negb_andb. f_equal. apply eq_iff_eq_true. rewrite andb_true_iff, !Z.eqb_eq. apply Z.lor_eq_0_iff.
Qed.

Lemma has_mark_or g f nm : has_mark f (or_flags g nm) = has_mark f nm || has_flag g f.
Proof. apply has_flag_lor. Qed.

Lemma has_mark_clear g f nm : Z.land (Z.lnot g) f = f -> has_mark f (clear_flags g nm) = has_mark f nm.
Proof. intros E. unfold has_mark, has_flag. cbn. by rewrite <- Z.land_assoc, E. Qed.

(** The flag of a record is one flag. *)
Lemma rr_name_flag_one apex_id rr f : f ∈ all_marks -> has_flag (rr_name_flag apex_id rr) f = (rr_name_flag apex_id rr =? f).
Proof. revert f. unfold rr_name_flag. case_ifs; (apply all_marks_cases; [reflexivity |]; apply own_marks_cases; reflexivity). Qed.

(** ** Lemmas: step 5 *)

Lemma flag_names_marks apex_id rrs f : f ∈ all_marks -> forall names id nm, names !! id = Some nm ->
  exists nm', flag_names apex_id rrs names !! id = Some nm' /\
    has_mark f nm' = has_mark f nm || existsb (fun rr => Nat.eqb (Z.to_nat (rr_name_id rr)) id && (rr_name_flag apex_id rr =? f)) rrs.
Proof.
  intros Hf. induction rrs as [| rr rrs IH]; intros names id nm E; cbn [flag_names existsb]; [exists nm; by rewrite orb_false_r |].
  destruct (Nat.eqb_spec (Z.to_nat (rr_name_id rr)) id) as [Hid | Hid].
  - destruct (IH (alter (or_flags (rr_name_flag apex_id rr)) (Z.to_nat (rr_name_id rr)) names) id (or_flags (rr_name_flag apex_id rr) nm)) as (nm' & E' & Hm); [by rewrite Hid, list_lookup_alter_eq, E |].
    exists nm'. split; [done |]. rewrite Hm, has_mark_or, (rr_name_flag_one _ _ _ Hf). cbn [andb]. by rewrite orb_assoc.
  - destruct (IH (alter (or_flags (rr_name_flag apex_id rr)) (Z.to_nat (rr_name_id rr)) names) id nm) as (nm' & E' & Hm); [by rewrite list_lookup_alter_ne |]. by exists nm'.
Qed.

Lemma flag_name_marks apex_id id nm f : f ∈ all_marks -> has_mark f (flag_name apex_id id nm) =
  (has_mark f nm || (f =? ZONE_IMAGE_NAME_WILDCARD) && is_wildcard (nm_text nm) || (f =? ZONE_IMAGE_NAME_APEX) && bool_decide (apex_id = Some id)) &&
  negb ((f =? ZONE_IMAGE_NAME_CUT) && bool_decide (apex_id = Some id)).
Proof.
  intros Hf. unfold flag_name. cbv zeta. set (nm1 := if is_wildcard (nm_text nm) then _ else _).
  assert (has_mark f nm1 = has_mark f nm || (f =? ZONE_IMAGE_NAME_WILDCARD) && is_wildcard (nm_text nm)) as E1.
  { unfold nm1. destruct (is_wildcard (nm_text nm)); [rewrite has_mark_or | by rewrite andb_false_r, orb_false_r]. f_equal. rewrite andb_true_r. revert f Hf. apply all_marks_cases; [done |]. by apply own_marks_cases. }
  rewrite <- E1. case_bool_decide; [| by rewrite !andb_false_r, orb_false_r, andb_true_r]. rewrite !andb_true_r. generalize nm1 as x. clear -Hf. intros x. revert f Hf. apply all_marks_cases; [| apply own_marks_cases].
  4:{ rewrite andb_false_r. unfold has_mark, has_flag. cbn. by rewrite <- Z.land_assoc, Z.land_0_r. }
  all: rewrite has_mark_clear by reflexivity; rewrite has_mark_or; by rewrite andb_true_r.
Qed.

(** The two loops of step 5. *)
Lemma step5_marks apex_id rrs names id nm f : f ∈ all_marks -> names !! id = Some nm ->
  exists nm', imap (fun i nm => flag_name apex_id (Z.of_nat i) nm) (flag_names apex_id rrs names) !! id = Some nm' /\
    has_mark f nm' =
    (has_mark f nm || existsb (fun rr => Nat.eqb (Z.to_nat (rr_name_id rr)) id && (rr_name_flag apex_id rr =? f)) rrs ||
      (f =? ZONE_IMAGE_NAME_WILDCARD) && is_wildcard (nm_text nm) || (f =? ZONE_IMAGE_NAME_APEX) && bool_decide (apex_id = Some (Z.of_nat id))) &&
    negb ((f =? ZONE_IMAGE_NAME_CUT) && bool_decide (apex_id = Some (Z.of_nat id))).
Proof.
  intros Hf E. destruct (flag_names_marks apex_id rrs f Hf names id nm E) as (nm1 & E1 & H1). eexists. split; [rewrite list_lookup_imap, E1; done |].
  rewrite flag_name_marks, H1 by done. destruct (same_lookup _ _ _ _ (flag_names_same apex_id rrs names) E) as (nm2 & E2 & (_ & _ & Ht & _)). assert (nm2 = nm1) as -> by congruence. by rewrite Ht.
Qed.

(** ** Lemmas: step 6 *)

Lemma canon_order_marks ix sorted : forall i names canon names', canon_order ix i sorted names = Ret (canon, names') -> NoDup canon ->
  Forall2 (fun nm nm' => nm_rr_count_flags nm' = nm_rr_count_flags nm) names names' /\
  (forall j id nm, canon !! j = Some id -> names !! Z.to_nat id = Some nm -> 0 <= id -> (forall x, x ∈ canon -> 0 <= x) ->
    exists nm', names' !! Z.to_nat id = Some nm' /\ nm_canon_rank nm' = Some (i + Z.of_nat j)) /\
  (forall k, (forall id, id ∈ canon -> Z.to_nat id <> k) -> names' !! k = names !! k).
Proof.
  induction sorted as [| t sorted IH]; intros i names canon names' E Hnd; cbn [canon_order] in E.
  { injection E as <- <-. split_and!; [| done | done]. apply Forall2_same_length_lookup. split; [done |]. intros k x y Hx Hy. congruence. }
  bind_inv E. destruct a as [id |]; [| done]. bind_inv E. destruct a as [canon' names'']. injection E as <- <-. apply NoDup_cons in Hnd as [Hni Hnd].
  destruct (IH _ _ _ _ Ha0 Hnd) as (Hf & Hr & Hk). split_and!.
  - apply Forall2_same_length_lookup. pose proof (Forall2_length _ _ _ Hf) as Hl. rewrite length_alter in Hl. split; [done |]. intros k x y Hx Hy.
    destruct (decide (k = Z.to_nat id)) as [-> | Hne].
    + assert (alter (set_rank i) (Z.to_nat id) names !! Z.to_nat id = Some (set_rank i x)) as Ex by (by rewrite list_lookup_alter_eq, Hx). exact (Forall2_lookup_lr _ _ _ _ _ _ Hf Ex Hy).
    + assert (alter (set_rank i) (Z.to_nat id) names !! k = Some x) as Ex by (by rewrite list_lookup_alter_ne). exact (Forall2_lookup_lr _ _ _ _ _ _ Hf Ex Hy).
  - intros [| j] id' nm Hj Hnm Hid Hall; cbn in Hj.
    + injection Hj as <-. rewrite Hk; [rewrite list_lookup_alter_eq, Hnm; eexists; split; [done |]; cbn; f_equal; lia |]. intros x Hx E. assert (x = id); [| by subst].
      assert (0 <= x) by (apply Hall; by right). lia.
    + assert (exists nm1, alter (set_rank i) (Z.to_nat id) names !! Z.to_nat id' = Some nm1) as [nm1 E1].
      { destruct (decide (Z.to_nat id' = Z.to_nat id)) as [Ed |]; [| exists nm; by rewrite list_lookup_alter_ne]. rewrite Ed in *. exists (set_rank i nm). by rewrite list_lookup_alter_eq, Hnm. }
      destruct (Hr j id' nm1 Hj E1 Hid) as (nm' & E' & Hrk); [intros; apply Hall; by right |]. exists nm'. split; [done |]. rewrite Hrk. f_equal. lia.
  - intros k Hno. rewrite Hk by (intros x Hx; apply Hno; by right). apply list_lookup_alter_ne. apply Hno. left.
Qed.

(** ** Lemmas: step 9 *)

(** The targets of the records, each once; [met] are those met before. *)
Fixpoint distinct_targets (met : list (list Z)) (rs : list arena_record_t) : list (list Z) :=
  match rs with
  | [] => []
  | r :: rs' =>
      match glue_target r with
      | None => distinct_targets met rs'
      | Some tgt => if existsb (fun t => domain_names_match_ci t tgt) met then distinct_targets met rs' else tgt :: distinct_targets (met ++ [tgt]) rs'
      end
  end.

Lemma distinct_targets_in met rs tgt : tgt ∈ distinct_targets met rs -> exists r, r ∈ rs /\ glue_target r = Some tgt.
Proof.
  revert met. induction rs as [| r rs IH]; intros met; cbn [distinct_targets]; [by intros ?%not_elem_of_nil |].
  assert (forall met, tgt ∈ distinct_targets met rs -> exists r', r' ∈ r :: rs /\ glue_target r' = Some tgt) as Hrest by (intros m (r' & ? & ?)%IH; exists r'; split; [by right | done]).
  destruct (glue_target r) as [t |] eqn:Et; [| apply Hrest]. case_if; [apply Hrest |]. intros [-> | Hin]%elem_of_cons; [exists r; split; [by left | done] | by eapply Hrest].
Qed.

(** The names that the first 256 targets point to. *)
Definition prelinked (ix : tmp_index_t) (met : list (list Z)) (rs : list arena_record_t) (id : Z) : Prop :=
  exists tgt, tgt ∈ take (256 - length met) (distinct_targets met rs) /\ tmp_find ix tgt (dns_name_hash_ci tgt) = Ret (Some id).

Lemma prelinked_step ix met r rs tgt id : glue_target r = Some tgt -> (length met <= 256)%nat ->
  prelinked ix met (r :: rs) id <->
  (if negb (existsb (fun t => domain_names_match_ci t tgt) met) && (len met <? 256)
   then tmp_find ix tgt (dns_name_hash_ci tgt) = Ret (Some id) \/ prelinked ix (met ++ [tgt]) rs id else prelinked ix met rs id).
Proof.
  intros Et Hl. unfold prelinked. cbn [distinct_targets]. rewrite Et. destruct (existsb _ met); cbn [negb andb]; [done |]. destruct (Z.ltb_spec (len met) 256) as [Hlt | Hge].
  - replace (256 - length met)%nat with (S (256 - length (met ++ [tgt])))%nat by (rewrite length_app; cbn [length]; lia). cbn [take]. split.
    + intros (t & [-> | Ht]%elem_of_cons & Hf); [by left | right; by exists t].
    + intros [Hf | (t & Ht & Hf)]; [exists tgt; split; [by left | done] | exists t; split; [by right | done]].
  - replace (256 - length met)%nat with 0%nat by lia. cbn [take]. done.
Qed.

Lemma glue_targets_marks ix rrs : forall rs prelink seen names glue names', glue_targets ix rrs rs prelink seen names = Ret (glue, names') -> (length prelink <= 256)%nat ->
  Forall2 (fun nm nm' => nm_canon_rank nm' = nm_canon_rank nm /\ forall f, f ∈ own_marks -> has_mark f nm' = has_mark f nm) names names' /\
  forall id nm nm', names !! id = Some nm -> names' !! id = Some nm' ->
    (has_mark ZONE_IMAGE_NAME_GLUE nm' = true <-> has_mark ZONE_IMAGE_NAME_GLUE nm = true \/ addressed rrs names (Z.of_nat id) /\ prelinked ix prelink rs (Z.of_nat id)).
Proof.
  assert (forall names : list zone_image_name_t, Forall2 (fun nm nm' => nm_canon_rank nm' = nm_canon_rank nm /\ forall f, f ∈ own_marks -> has_mark f nm' = has_mark f nm) names names) as Hrefl.
  { intros names. apply Forall2_same_length_lookup. split; [done |]. intros k x y Hx Hy. assert (x = y) as -> by congruence. done. }
  induction rs as [| r rs IH]; intros prelink seen names glue names' E Hl; cbn [glue_targets] in E.
  { injection E as <- <-. split; [done |]. intros id nm nm' E1 E2. assert (nm' = nm) as -> by congruence. split; [by left |]. intros [? | (_ & tgt & Ht & _)]; [done |].
    cbn [distinct_targets] in Ht. rewrite take_nil in Ht. by apply not_elem_of_nil in Ht. }
  destruct (glue_target r) as [tgt |] eqn:Et.
  2:{ destruct (IH _ _ _ _ _ E Hl) as [Hf Hg]. split; [done |]. intros id nm nm' E1 E2. rewrite (Hg id nm nm' E1 E2). unfold prelinked. cbn [distinct_targets]. by rewrite Et. }
  cbv zeta in E. pose proof (prelinked_step ix prelink r rs tgt) as Hstep. unfold IMG_MAX_PRELINK_TARGETS in E.
  set (in_prelink := negb (existsb (fun t => domain_names_match_ci t tgt) prelink) && (len prelink <? 256)) in *. set (prelink' := if in_prelink then prelink ++ [tgt] else prelink) in *.
  assert (length prelink' <= 256)%nat as Hl' by (unfold prelink', in_prelink; destruct (negb _), (Z.ltb_spec (len prelink) 256); cbn [andb]; rewrite ?length_app; cbn [length]; lia).
  bind_inv E. rename a into found, Ha into Ef. destruct found as [n |].
  2:{ destruct (IH _ _ _ _ _ E Hl') as [Hf Hg]. split; [done |]. intros id nm nm' E1 E2. rewrite (Hg id nm nm' E1 E2), (Hstep (Z.of_nat id) Et Hl). unfold prelink'.
      destruct in_prelink; [| done]. rewrite Ef. split; (intros [? | [? ?]]; [by left | right]); [by auto |]. naive_solver. }
  bind_inv E. rename a into nm0, Ha into Enm. bind_inv E. rename a into addr, Ha into Eaddr. apply at_ix_Ret in Enm as [Hn Enm].
  assert (addressed rrs names n <-> addr = true) as Haddr by (unfold addressed; rewrite Enm; split; [intros (x & [= <-] & Hx); congruence | intros ->; by exists nm0]).
  set (names1 := if addr && in_prelink then alter (or_flags ZONE_IMAGE_NAME_GLUE) (Z.to_nat n) names else names) in *.
  assert (exists glue1 seen1, glue_targets ix rrs rs prelink' seen1 names1 = Ret (glue1, names')) as (glue1 & seen1 & E1).
  { case_if_in E; [by exists glue, seen |]. bind_inv E. destruct a as [g nms]. injection E as _ <-. by exists g, (n :: seen). }
  destruct (IH _ _ _ _ _ E1 Hl') as [Hf Hg]. clear E E1 IH.
  assert (same_names names names1) as Hs1 by (unfold names1; case_if; [apply same_alter; intros; by apply same_or | done]).
  assert (forall k x, names !! k = Some x -> exists y, names1 !! k = Some y /\ nm_canon_rank y = nm_canon_rank x /\ (forall f, f ∈ own_marks -> has_mark f y = has_mark f x) /\
    has_mark ZONE_IMAGE_NAME_GLUE y = has_mark ZONE_IMAGE_NAME_GLUE x || (addr && in_prelink && Nat.eqb k (Z.to_nat n))) as Hn1.
  { intros k x Hx. unfold names1. destruct (addr && in_prelink); [| exists x; by rewrite orb_false_r]. destruct (Nat.eqb_spec k (Z.to_nat n)) as [-> |].
    - exists (or_flags ZONE_IMAGE_NAME_GLUE x). rewrite list_lookup_alter_eq, Hx. split_and!; [done | done | | by rewrite has_mark_or]. intros f Hm. rewrite has_mark_or.
      rewrite <- (orb_false_r (has_mark f x)) at 2. f_equal. revert f Hm. by apply own_marks_cases.
    - exists x. rewrite list_lookup_alter_ne by done. by rewrite orb_false_r. }
  split.
  - apply Forall2_same_length_lookup. split; [rewrite <- (Forall2_length _ _ _ Hf); exact (Forall2_length _ _ _ Hs1) |]. intros k x y Hx Hy. destruct (Hn1 k x Hx) as (z & Hz & Hr & Hm & _).
    destruct (Forall2_lookup_lr _ _ _ _ _ _ Hf Hz Hy) as [Hr' Hm']. split; [congruence |]. intros f Hin. by rewrite Hm', Hm.
  - intros id nm nm' Hx Hy. destruct (Hn1 id nm Hx) as (z & Hz & _ & _ & Hgl). rewrite (Hg id z nm' Hz Hy), Hgl, <- (addressed_same _ _ _ _ Hs1), (Hstep (Z.of_nat id) Et Hl). unfold prelink'.
    rewrite orb_true_iff, !andb_true_iff, Nat.eqb_eq. rewrite Ef. destruct in_prelink.
    + assert (Ret (Some n) = Ret (Some (Z.of_nat id)) <-> id = Z.to_nat n) as Hidn by (split; [intros [= ->]; lia | intros ->; do 2 f_equal; lia]).
      rewrite Hidn. rewrite <- Haddr. split.
      * intros [[? | ([Had _] & ->)] | [? ?]]; [by left | right; rewrite Z2Nat.id by done; auto | right; auto].
      * intros [? | [Had [-> | ?]]]; [auto | left; right; rewrite Z2Nat.id in Had by done; auto | auto].
    + split; [intros [[? | [[_ [=]] _]] | ?]; auto | intros [? | ?]; auto].
Qed.

End FreezeMarks.
