(* ===== verification/FreezeHold.v ===== *)
(** * What the image of a zone holds

    The contract of [zone_image_freeze] (dns_zone_image.c), stated on the
    records and the indexes of the zone alone: what an image of the zone holds,
    how large it is, and why there may be none. The size of an image that holds
    a zone is that of the zone. *)

From S2P Require Import Prelude CLib Cidr DnsName NameText WireName Compress ZoneAttr TypeName CanonOrder Edns RdataText Record Svcb RrWrite RrFrame NameWalk ZoneImage ZoneLookup Denial ZoneArena ZoneTtl ZoneRules ZoneFreeze ZoneIndex FreezeNames FreezeRecords ZoneCheck FreezeSpec FreezeMarks.

Module FreezeHold.
Import CLib Cidr DnsName NameText WireName Compress ZoneAttr TypeName CanonOrder Edns RdataText Record Svcb RrWrite RrFrame NameWalk ZoneImage ZoneLookup Denial ZoneArena ZoneTtl ZoneRules ZoneFreeze ZoneIndex FreezeNames FreezeRecords ZoneCheck FreezeSpec FreezeMarks.

(** ** The zone *)

Definition zone_records (a : zone_arena_t) : list arena_record_t := List.filter present (records a).

Definition zone_names (a : zone_arena_t) : list arena_record_t := first_records [] (records a).

Definition same_owner (r r' : arena_record_t) : bool := domain_names_match_ci (name_of r) (name_of r').

(** The spelling of an owner name: that of the first record of the name. *)
Definition spelling (a : zone_arena_t) (r : arena_record_t) : list Z :=
  match List.find (fun f => same_owner f r) (zone_names a) with Some f => name_of f | None => name_of r end.

(** The extras of the records. *)
Definition zone_exts (a : zone_arena_t) : list zone_image_ext_t := omap (fun r => record_ext (spelling a r) (rec r)) (zone_records a).

(** The records of a name follow each other. *)
Fixpoint grouped (rs : list arena_record_t) : bool :=
  match rs with
  | r :: rs' => match rs' with r' :: _ => same_owner r r' || negb (existsb (same_owner r) rs') | [] => true end && grouped rs'
  | [] => true
  end.

(** A record of the name satisfies a condition. *)
Definition zone_has (a : zone_arena_t) (f : arena_record_t) (p : dns_record_t -> bool) : bool := existsb (fun r => same_owner f r && p (rec r)) (zone_records a).

Definition is_address (r : dns_record_t) : bool := (type_code r =? 1) || (type_code r =? 28).

(** An NS, MX or SRV record points to the name, which has an address. *)
Definition is_glue (a : zone_arena_t) (f : arena_record_t) : bool :=
  existsb (fun r => match glue_target r with Some tgt => domain_names_match_ci (name_of f) tgt | None => false end) (records a) && zone_has a f is_address.

(** An ALIAS record, but for the extension records of a transfer. *)
Definition is_alias (r : dns_record_t) : bool := (type_code r =? 65401) && (wire_class r =? 1).

(** A record that not every client sees, or not at every time. *)
Definition is_limited (r : dns_record_t) : bool :=
  negb (tinydns_ttd r =? 0) || negb (fst (tinydns_loc r) =? 0) || negb (snd (tinydns_loc r) =? 0) || bool_decide (is_Some (ecs_subnet_tag r)) || bool_decide (is_Some (bind_location_tag r)).

(** The marks of a name: wildcard, apex, delegation below the apex, DNAME,
    NSEC, ALIAS, and glue of one of the first 256 targets. *)
Definition holds_marks (a : zone_arena_t) (apex : list Z) (f : arena_record_t) (nm : zone_image_name_t) : Prop :=
  has_mark ZONE_IMAGE_NAME_WILDCARD nm = is_wildcard (name_of f) /\
  has_mark ZONE_IMAGE_NAME_APEX nm = domain_names_match_ci (name_of f) apex /\
  has_mark ZONE_IMAGE_NAME_CUT nm = negb (domain_names_match_ci (name_of f) apex) && zone_has a f (fun r => type_code r =? 2) /\
  has_mark ZONE_IMAGE_NAME_DNAME nm = zone_has a f (fun r => type_code r =? 39) /\
  has_mark ZONE_IMAGE_NAME_NSEC nm = zone_has a f (fun r => type_code r =? 47) /\
  has_mark ZONE_IMAGE_NAME_ALIAS nm = zone_has a f is_alias /\
  has_mark ZONE_IMAGE_NAME_GLUE nm = existsb (fun tgt => domain_names_match_ci (name_of f) tgt) (take 256 (distinct_targets [] (records a))) && zone_has a f is_address.

(** The flags of the image, which say what the zone has at all. *)
Definition holds_flags (a : zone_arena_t) (apex : list Z) (flags : Z) : Prop :=
  has_flag flags ZONE_IMAGE_F_EXT = negb (len (zone_exts a) =? 0) /\
  has_flag flags ZONE_IMAGE_F_VIEW = existsb (fun r => rec_restricted (rec r)) (zone_records a) /\
  has_flag flags ZONE_IMAGE_F_WILDCARD = existsb (fun f => is_wildcard (name_of f)) (zone_names a) /\
  has_flag flags ZONE_IMAGE_F_DNAME = existsb (fun r => type_code (rec r) =? 39) (zone_records a) /\
  has_flag flags ZONE_IMAGE_F_ALIAS = existsb (fun r => is_alias (rec r)) (zone_records a) /\
  has_flag flags ZONE_IMAGE_F_CUT = existsb (fun r => (type_code (rec r) =? 2) && negb (domain_names_match_ci (name_of r) apex)) (zone_records a) /\
  has_flag flags ZONE_IMAGE_F_PERM = negb (grouped (zone_records a)) /\
  has_flag flags ZONE_IMAGE_F_SOA_ATTR = existsb (fun r => (type_code (rec r) =? 6) && domain_names_match_ci (name_of r) apex && is_limited (rec r)) (zone_records a).

Section Spec.
Context `{InetPton, EvpBase64} (loc_rdata : list (list Z) -> option (list Z)).

Definition rdata_octets (r : arena_record_t) : list Z := match uncompressed_rdata loc_rdata packet_buffer 65535 (rec r) with Ret d => d | _ => [] end.

(** The salt in the RDATA of the first record of a chain. *)
Definition chain_salt (a : zone_arena_t) (ch : nsec3_chain_t) : list Z :=
  match head (c_entries ch) with
  | Some e => match record_at (records a) (e_rec e) with
      | Ret r => match rdata_octets r !! 4%nat with Some sl => take (Z.to_nat sl) (drop 5 (rdata_octets r)) | None => [] end
      | _ => []
      end
  | None => []
  end.

(** ** The image *)

(** The record with number [i] of the zone has the place [p] in the image. *)
Definition record_rr (img : zone_image_t) (a : zone_arena_t) (i p : Z) : Prop :=
  (exists r, record_at (records a) i = Ret r /\ present r = true) /\ zone_image_seq_rr img (len (List.filter present (take (Z.to_nat i) (records a)))) = Ret p.

(** A chain of the image: the entries are the records of the chain in its
    order. *)
Definition holds_chain (img : zone_image_t) (a : zone_arena_t) (ch : nsec3_chain_t) (ich : zone_image_n3chain_t) : Prop :=
  ch_algorithm ich = c_algorithm ch /\ ch_iterations ich = c_iterations ch /\ ch_salt ich = chain_salt a ch /\ ch_count ich = len (c_entries ch) /\
  0 <= ch_first ich /\ forall k e, c_entries ch !! k = Some e -> exists p, record_rr img a (e_rec e) p /\ at_ix (im_n3entries img) (ch_first ich + Z.of_nat k) = Ret p.

(** The image holds the zone: the names with their spelling and marks, in file
    order the place, the name and the extras of each record, the apex, the
    canonical order, the records of the NSEC index and of the NSEC3 chains, the
    parameters in use, the names that have glue, the tables, the flags. *)
Record holds_zone (img : zone_image_t) (a : zone_arena_t) (apex : list Z) : Prop := HoldsZone {
  hz_names : Forall2 (fun f nm => nm_text nm = name_of f /\ nm_wire nm = owner_wire (name_of f)) (zone_names a) (im_names img);
  hz_count : len (im_rrs img) = len (zone_records a);
  hz_records : forall k r, zone_records a !! k = Some r ->
    exists p rr ext nm, zone_image_seq_rr img (Z.of_nat k) = Ret p /\ zone_image_rr img p = Ret rr /\ zone_image_rr_ext img p = Ret ext /\
      zone_image_name img (rr_name_id rr) = Ret nm /\ domain_names_match_ci (nm_text nm) (name_of r) = true /\ rr_holds loc_rdata (rec r) nm rr ext;
  hz_order : forall k k' p, 0 <= k < len (im_rrs img) -> 0 <= k' < len (im_rrs img) -> zone_image_seq_rr img k = Ret p -> zone_image_seq_rr img k' = Ret p -> k = k';
  hz_perm : match im_perm img with None => grouped (zone_records a) = true | Some l => grouped (zone_records a) = false /\ len l = len (im_rrs img) end;
  hz_exts : im_exts img ≡ₚ zone_exts a;
  hz_apex : bytes apex -> match im_apex_name img with
    | Some id => exists nm, zone_image_name img id = Ret nm /\ domain_names_match_ci (nm_text nm) apex = true
    | None => forall r, r ∈ records a -> present r = true -> domain_names_match_ci (name_of r) apex = false
    end;
  hz_canon : Forall2 (fun t id => exists nm, zone_image_name img id = Ret nm /\ domain_names_match_ci (nm_text nm) t = true) (sorted_unique_names a) (im_canon img);
  hz_ranks : forall i id, at_ix (im_canon img) i = Ret id -> exists nm, zone_image_name img id = Ret nm /\ nm_canon_rank nm = Some i;
  hz_marks : bytes apex -> Forall2 (holds_marks a apex) (zone_names a) (im_names img);
  hz_nsec : Forall2 (record_rr img a) (nsec_records a) (im_nsec img);
  hz_chains : Forall2 (holds_chain img a) (nsec3_chains a) (im_n3chains img);
  hz_entries : len (im_n3entries img) = zsum (map (fun ch => len (c_entries ch)) (nsec3_chains a));
  hz_params : match nsec3_active a with
    | None => im_n3_param_rr img = None /\ im_n3_chain img = None /\ im_n3_salt img = []
    | Some p => (exists rr, im_n3_param_rr img = Some rr /\ record_rr img a (p_param p) rr) /\ im_n3_chain img = p_chain p /\ im_n3_salt img = p_salt p /\
        im_n3_iterations img = p_iterations p /\ im_n3_algorithm img = p_algorithm p
    end;
  hz_glue : im_glue img ≡ₚ indices (is_glue a) 0 (zone_names a);
  hz_hash : len (im_hash img) = hash_slots (len (zone_names a));
  hz_tables : im_zattr img = build_zattr (tables a);
  hz_tinydns : has_flag (im_flags img) ZONE_IMAGE_F_TINYDNS = is_tinydns_format a;
  hz_flags : bytes apex -> holds_flags a apex (im_flags img)
}.

(** The size of the image of a zone: a header of 128 octets and twelve areas,
    each rounded up to a multiple of 8. *)
Definition kept (extra : Z) (s : option (list Z)) : Z := match s with Some t => len t + extra | None => 0 end.

(** A string is kept with its final null octet. *)
Definition ext_octets (e : zone_image_ext_t) : Z := kept 1 (ext_ecs_tag e) + kept 1 (ext_loc_tag e) + kept 1 (ext_alt_text e) + kept 0 (ext_alt_wire e).

Definition zone_strings (a : zone_arena_t) : Z :=
  8 + zsum (map (fun f => len (name_of f) + 1 + kept 0 (owner_wire (name_of f))) (zone_names a)) + zsum (map (fun r => len (rdata_octets r)) (zone_records a)) +
  zsum (map ext_octets (zone_exts a)) + zsum (map (fun ch => len (chain_salt a ch)) (nsec3_chains a)) + match nsec3_active a with Some p => len (p_salt p) | None => 0 end.

Definition zone_image_size (a : zone_arena_t) : Z :=
  foldl (fun off n => (off + n + 7) / 8 * 8) 128
    [len (zone_names a) * 24; len (zone_records a) * 24; len (zone_exts a) * 32; len (nsec3_chains a) * 16; hash_slots (len (zone_names a)) * 4;
     len (sorted_unique_names a) * 4; len (nsec_records a) * 4; zsum (map (fun ch => len (c_entries ch)) (nsec3_chains a)) * 4;
     len (List.filter (is_glue a) (zone_names a)) * 4; (if grouped (zone_records a) then 0 else len (zone_records a) * 4); len (build_zattr (tables a)); zone_strings a].

(** What a zone needs for an image, but for its size. *)
Record acceptable (a : zone_arena_t) : Prop := Acceptable {
  ac_count : len (records a) < 2147483647;
  ac_rules : validate_zone_pdns_types loc_rdata (records a) = Ret tt;
  ac_names : forall t, len (List.filter (fun r => present r && domain_names_match_ci t (name_of r)) (records a)) <= ZONE_IMAGE_NAME_COUNT_MASK;
  ac_wire : forall r, r ∈ records a -> present r = true -> uncompressed_rdata loc_rdata packet_buffer 65535 (rec r) <> Fail;
  ac_salted : forall ch e r d, ch ∈ nsec3_chains a -> head (c_entries ch) = Some e -> record_at (records a) (e_rec e) = Ret r ->
    uncompressed_rdata loc_rdata packet_buffer 65535 (rec r) = Ret d -> salted d
}.

(** Why a zone is refused. *)
Inductive refusal (a : zone_arena_t) : Prop :=
| TooManyRecords : 2147483647 <= len (records a) -> refusal a
| RulesBroken : validate_zone_pdns_types loc_rdata (records a) = Fail -> refusal a
| CrowdedName t : ZONE_IMAGE_NAME_COUNT_MASK < len (List.filter (fun r => present r && domain_names_match_ci t (name_of r)) (records a)) -> refusal a
| NoWireForm r : r ∈ records a -> present r = true -> uncompressed_rdata loc_rdata packet_buffer 65535 (rec r) = Fail -> refusal a
| BrokenNsec3 ch e r d : ch ∈ nsec3_chains a -> head (c_entries ch) = Some e -> record_at (records a) (e_rec e) = Ret r ->
    uncompressed_rdata loc_rdata packet_buffer 65535 (rec r) = Ret d -> ~ salted d -> refusal a
| TooLarge : 4294963200 < zone_image_size a -> refusal a.

End Spec.

Lemma zone_has_ext a f p q : (forall r, p r = q r) -> zone_has a f p = zone_has a f q.
Proof. intros Hpq. unfold zone_has. induction (zone_records a) as [| r rs IH]; [done |]. cbn [existsb]. by rewrite Hpq, IH. Qed.

(** ** Lemmas: sums *)

Lemma zsum_perm l l' : l ≡ₚ l' -> zsum l = zsum l'.
Proof. unfold zsum. induction 1; cbn; lia. Qed.

Lemma map_perm {A B} (f : A -> B) l l' : l ≡ₚ l' -> map f l ≡ₚ map f l'.
Proof. apply Permutation_map. Qed.

Lemma map_Forall2 {A B C} (f : A -> C) (g : B -> C) l l' : Forall2 (fun x y => f x = g y) l l' -> map f l = map g l'.
Proof. induction 1 as [| x y l l' E _ IH]; [done |]. cbn. by rewrite E, IH. Qed.

Lemma indices_length p rs : forall i, length (indices p i rs) = length (List.filter p rs).
Proof. induction rs as [| r rs IH]; intros i; [done |]. cbn [indices List.filter]. destruct (p r); cbn [length]; by rewrite IH. Qed.

(** Numbers below the length of the list, each once, are all of them. *)
Lemma all_numbers (l : list Z) : NoDup l -> (forall p, p ∈ l -> 0 <= p < len l) -> l ≡ₚ seqZ 0 (len l).
Proof.
  intros Hnd Hr. assert (l ⊆+ seqZ 0 (len l)) as Hsub by (apply NoDup_submseteq; [done |]; intros p Hp%Hr; apply elem_of_seqZ; lia).
  apply submseteq_length_Permutation; [done |]. rewrite length_seqZ. lia.
Qed.

Lemma round8_spec v : round8 v = (v + 7) / 8 * 8.
Proof.
  unfold round8. rewrite <- Z.ldiff_land. change 7 with (Z.ones 3) at 2. rewrite Z.ldiff_ones_r, Z.shiftl_mul_pow2, Z.shiftr_div_pow2 by lia. done.
Qed.

Section Size.
Context `{InetPton, EvpBase64} (loc_rdata : list (list Z) -> option (list Z)) (img : zone_image_t) (a : zone_arena_t) (apex : list Z) (Hh : holds_zone loc_rdata img a apex).

Lemma held_rdata : zsum (map (fun rr => len (rr_rdata rr)) (im_rrs img)) = zsum (map (fun r => len (rdata_octets loc_rdata r)) (zone_records a)).
Proof.
  set (place k := match zone_image_seq_rr img (Z.of_nat k) with Ret p => p | _ => 0 end). set (n := length (zone_records a)).
  set (ps := map place (seq 0 n)). pose proof (hz_count _ _ _ _ Hh) as Hc.
  assert (forall k, (k < n)%nat -> exists r rr, zone_records a !! k = Some r /\ zone_image_seq_rr img (Z.of_nat k) = Ret (place k) /\ zone_image_rr img (place k) = Ret rr /\ rr_rdata rr = rdata_octets loc_rdata r) as Hk.
  { intros k Hlt. destruct (lookup_lt_is_Some_2 (zone_records a) k Hlt) as [r Er]. destruct (hz_records _ _ _ _ Hh k r Er) as (p & rr & ext & nm & Es & Err & _ & _ & _ & Hr).
    exists r, rr. unfold place. rewrite Es. split_and!; [done | done | done |]. unfold rdata_octets. by rewrite (rh_rdata _ _ _ _ _ Hr). }
  assert (ps ≡ₚ seqZ 0 (len (im_rrs img))) as Hperm.
  { replace (len (im_rrs img)) with (len ps) by (unfold ps; rewrite length_map, length_seq; fold n in Hc; lia). apply all_numbers.
    - apply NoDup_fmap_2_strong; [| apply NoDup_seq]. intros k k' Hk1%elem_of_seq Hk2%elem_of_seq E. destruct (Hk k) as (_ & _ & _ & E1 & _); [lia |]. destruct (Hk k') as (_ & _ & _ & E2 & _); [lia |].
      rewrite <- E in E2. assert (Z.of_nat k = Z.of_nat k'); [| lia]. eapply (hz_order _ _ _ _ Hh); [| | exact E1 | exact E2]; fold n in Hc; lia.
    - intros p (k & -> & Hin%elem_of_seq)%list_elem_of_fmap. destruct (Hk k) as (_ & rr & _ & _ & Err & _); [lia |]. apply at_ix_lt in Err. unfold ps. rewrite length_map, length_seq. fold n in Hc. lia. }
  assert (map (fun rr => len (rr_rdata rr)) (im_rrs img) = map (fun p => match im_rrs img !! Z.to_nat p with Some rr => len (rr_rdata rr) | None => 0 end) (seqZ 0 (len (im_rrs img)))) as ->.
  { apply map_Forall2, Forall2_same_length_lookup. rewrite length_seqZ. split; [lia |]. intros i rr p Err [-> Hi]%lookup_seqZ. rewrite Z.add_0_l, Nat2Z.id. by rewrite Err. }
  rewrite <- (zsum_perm _ _ (map_perm _ _ _ Hperm)). f_equal. unfold ps. rewrite map_map. apply map_Forall2, Forall2_same_length_lookup. rewrite length_seq. split; [done |].
  intros k k' r [-> Hlt]%lookup_seq Er. cbn [Nat.add]. destruct (Hk k Hlt) as (r' & rr & Er' & _ & [_ Err]%at_ix_Ret & Erd). assert (r' = r) as -> by congruence. by rewrite Err, Erd.
Qed.

(** An image that holds a zone has the size of the zone. *)
Lemma held_size : image_size img = zone_image_size loc_rdata a.
Proof.
  destruct Hh as [Hnm Hc _ _ Hp He _ Hcn _ _ Hns Hch Hen Hpar Hg Hhash Ht _ _]. unfold image_size. cbv zeta. rewrite !round8_spec.
  pose proof (Forall2_length _ _ _ Hnm) as Ln. pose proof (Permutation_length He) as Le. pose proof (Forall2_length _ _ _ Hch) as Lch. pose proof (Forall2_length _ _ _ Hcn) as Lcn.
  pose proof (Forall2_length _ _ _ Hns) as Lns. pose proof (Permutation_length Hg) as Lg. rewrite indices_length in Lg.
  assert (strings_size img = zone_strings loc_rdata a) as ->.
  { unfold strings_size, zone_strings. rewrite held_rdata, <- (zsum_perm _ _ (map_perm ext_octets _ _ He)).
    replace (map (fun c => len (ch_salt c)) (im_n3chains img)) with (map (fun ch => len (chain_salt loc_rdata a ch)) (nsec3_chains a))
      by (apply map_Forall2; eapply Forall2_impl; [exact Hch |]; intros ch ich (_ & _ & -> & _); done).
    replace (map (fun nm => len (nm_text nm) + 1 + octets_size (nm_wire nm)) (im_names img)) with (map (fun f => len (name_of f) + 1 + kept 0 (owner_wire (name_of f))) (zone_names a)).
    2:{ apply map_Forall2. eapply Forall2_impl; [exact Hnm |]. intros f nm [-> ->]. unfold kept, octets_size. destruct (owner_wire (name_of f)); lia. }
    replace (len (im_n3_salt img)) with (match nsec3_active a with Some p => len (p_salt p) | None => 0 end)
      by (destruct (nsec3_active a); [by destruct Hpar as (_ & _ & -> & _) | by destruct Hpar as (_ & _ & ->)]).
    replace (map ext_octets (im_exts img)) with (map (fun e => str_size (ext_ecs_tag e) + str_size (ext_loc_tag e) + str_size (ext_alt_text e) + octets_size (ext_alt_wire e)) (im_exts img)); [done |].
    apply map_ext. intros e. unfold ext_octets, kept, str_size, octets_size. destruct (ext_ecs_tag e), (ext_loc_tag e), (ext_alt_text e), (ext_alt_wire e); lia. }
  unfold zone_image_size. cbn [foldl]. rewrite <- Ln, Hc, Le, <- Lch, Hhash, <- Lcn, <- Lns, Hen, Lg, Ht.
  replace (match im_perm img with Some p => len p * 4 | None => 0 end) with (if grouped (zone_records a) then 0 else len (zone_records a) * 4); [done |].
  destruct (im_perm img) as [l |]; [destruct Hp as [-> ->]; by rewrite Hc | by rewrite Hp].
Qed.

End Size.

End FreezeHold.
