(* ===== verification/FreezeTop.v ===== *)
(** * Freezing a zone: the theorems

    [zone_image_freeze] (dns_zone_image.c) on an indexed zone: it always ends,
    it refuses a zone only for one of the listed reasons, and the image it
    makes otherwise is well formed and holds the records of the zone in file
    order. *)

From S2P Require Import Prelude CLib Cidr DnsName NameText WireName Compress ZoneAttr TypeName CanonOrder Edns RdataText Record Svcb RrWrite RrFrame NameWalk ZoneImage ZoneLookup Denial ZoneArena ZoneTtl ZoneRules ZoneFreeze ZoneIndex FreezeNames FreezeRecords ZoneCheck FreezeSpec FreezeMarks FreezeHold.

Module FreezeTop.
Import CLib Cidr DnsName NameText WireName Compress ZoneAttr TypeName CanonOrder Edns RdataText Record Svcb RrWrite RrFrame NameWalk ZoneImage ZoneLookup Denial ZoneArena ZoneTtl ZoneRules ZoneFreeze ZoneIndex FreezeNames FreezeRecords ZoneCheck FreezeSpec FreezeMarks FreezeHold.

(** ** Lemmas: the file order *)

Lemma filter_elem {A} (f : A -> bool) (l : list A) x : x ∈ List.filter f l <-> x ∈ l /\ f x = true.
Proof. by rewrite !list_elem_of_In, filter_In. Qed.


Lemma file_order_lookup (rs : list arena_record_t) (os : list (option Z)) : Forall2 (fun r o => present r = bool_decide (is_Some o)) rs os ->
  length (omap id os) = length (List.filter present rs) /\
  forall k r, List.filter present rs !! k = Some r -> exists i p, rs !! i = Some r /\ os !! i = Some (Some p) /\ omap id os !! k = Some p.
Proof.
  induction 1 as [| r o rs os Hp _ [IHl IH]]; [done |]. cbn [List.filter omap list_omap id]. rewrite Hp. destruct o as [p |]; cbn.
  - split; [by f_equal |]. intros [| k] r' Hk; [injection Hk as <-; by exists 0%nat, p |]. destruct (IH k r' Hk) as (i & q & E1 & E2 & E3). by exists (S i), q.
  - split; [done |]. intros k r' Hk. destruct (IH k r' Hk) as (i & q & E1 & E2 & E3). by exists (S i), q.
Qed.

Lemma omap_lookup (os : list (option Z)) : forall k p, omap id os !! k = Some p -> exists i, os !! i = Some (Some p) /\ length (omap id (take i os)) = k.
Proof.
  induction os as [| o os IH]; intros k p; [done |]. destruct o as [q |]; cbn.
  - destruct k as [| k]; [intros [= <-]; by exists 0%nat |]. intros Hk. destruct (IH k p Hk) as (i & E & El). exists (S i). split; [done |]. cbn. by rewrite El.
  - intros Hk. destruct (IH k p Hk) as (i & E & El). by exists (S i).
Qed.

(** The place of a number in the file order. *)
Lemma seq_rr_lookup img os k : im_perm img = file_order os -> 0 <= k < len (omap id os) -> exists p, zone_image_seq_rr img k = Ret p /\ omap id os !! Z.to_nat k = Some p.
Proof.
  intros E Hk. destruct (lookup_lt_is_Some_2 (omap id os) (Z.to_nat k)) as [p Ep]; [lia |]. exists p. split; [| done]. unfold zone_image_seq_rr. rewrite E. unfold file_order. cbv zeta.
  case_bool_decide as Es.
  - rewrite Es in Ep. apply lookup_seqZ in Ep as [-> _]. f_equal. lia.
  - apply at_ix_Ret. split; [lia | done].
Qed.

Lemma omap_at (os : list (option Z)) i p : os !! i = Some (Some p) -> omap id os !! length (omap id (take i os)) = Some p.
Proof.
  intros E. assert (omap id os = omap id (take i os) ++ p :: omap id (drop (S i) os)) as ->; [| by rewrite list_lookup_middle].
  rewrite <- (take_drop_middle os i (Some p) E) at 1. by rewrite omap_app.
Qed.

(** A list that grows and stays below its length. *)
Lemma growing_seqZ (l : list Z) : (forall i j x y, (i < j)%nat -> l !! i = Some x -> l !! j = Some y -> x < y) -> (forall x, x ∈ l -> 0 <= x < len l) -> l = seqZ 0 (len l).
Proof.
  intros Hg Hr. assert (forall d i x y, l !! i = Some x -> l !! (i + d)%nat = Some y -> x + Z.of_nat d <= y) as Hgap.
  { induction d as [| d IH]; intros i x y Hx Hy; [rewrite Nat.add_0_r in Hy; replace y with x by congruence; lia |]. destruct (lookup_lt_is_Some_2 l (i + d)) as [z Hz]; [apply lookup_lt_Some in Hy; lia |].
    pose proof (IH i x z Hx Hz). pose proof (Hg (i + d)%nat (i + S d)%nat z y ltac:(lia) Hz Hy). lia. }
  apply list_eq. intros i. destruct (l !! i) as [x |] eqn:Ex; [| symmetry; apply lookup_ge_None; rewrite length_seqZ; apply lookup_ge_None in Ex; lia].
  symmetry. apply lookup_seqZ. pose proof (lookup_lt_Some _ _ _ Ex) as Hi. split; [| lia]. destruct (lookup_lt_is_Some_2 l 0) as [x0 E0]; [lia |]. destruct (lookup_lt_is_Some_2 l (length l - 1)) as [xn En]; [lia |].
  pose proof (Hgap i 0%nat x0 x E0 Ex). replace (length l - 1)%nat with (i + (length l - 1 - i))%nat in En by lia. pose proof (Hgap _ i x xn Ex En).
  pose proof (Hr x0 (list_elem_of_lookup_2 _ _ _ E0)). pose proof (Hr xn (list_elem_of_lookup_2 _ _ _ En)). lia.
Qed.

Lemma same_owner_sym x y : same_owner x y = true -> same_owner y x = true.
Proof. unfold same_owner. rewrite !match_ci_relative. congruence. Qed.

Lemma same_owner_trans x y z : same_owner x y = true -> same_owner y z = true -> same_owner x z = true.
Proof. unfold same_owner. rewrite !match_ci_relative. congruence. Qed.

(** Records are grouped when no name comes back after another one. *)
Lemma grouped_spec rs : grouped rs = true <->
  forall i j k ri rj rk, (i < j < k)%nat -> rs !! i = Some ri -> rs !! j = Some rj -> rs !! k = Some rk -> same_owner ri rk = true -> same_owner ri rj = true.
Proof.
  induction rs as [| r rs IH]; [split; [done | done] |]. cbn [grouped]. rewrite andb_true_iff, IH. split.
  - intros [Hh Ht] i j k ri rj rk Hijk Hi Hj Hk Hs. destruct j as [| j]; [lia |]. destruct k as [| k]; [lia |]. cbn in Hj, Hk. destruct i as [| i]; [| apply (Ht i j k ri rj rk); [lia | done..]].
    cbn in Hi. injection Hi as <-. destruct rs as [| r' rs]; [done |]. apply orb_true_iff in Hh as [Hh | Hh%negb_true_iff].
    + destruct j as [| j]; [by injection Hj as <- |]. apply (same_owner_trans _ r'); [done |]. apply (Ht 0%nat (S j) k r' rj rk); [lia | done | done | done |].
      apply (same_owner_trans _ r); [by apply same_owner_sym | done].
    + exfalso. rewrite <- not_true_iff_false in Hh. apply Hh, existsb_exists. exists rk. split; [apply list_elem_of_In; by eapply list_elem_of_lookup_2 | done].
  - intros Hall. split; [| intros i j k ri rj rk Hijk Hi Hj Hk; apply (Hall (S i) (S j) (S k)); [lia | done..]]. destruct rs as [| r' rs]; [done |]. destruct (same_owner r r') eqn:Er; [done |]. cbn [orb].
    apply negb_true_iff, not_true_iff_false. intros (x & Hx%list_elem_of_In & Hs)%existsb_exists. apply list_elem_of_lookup_1 in Hx as [k Hk]. destruct k as [| k]; [cbn in Hk; congruence |].
    rewrite (Hall 0%nat 1%nat (S (S k)) r r' x) in Er; [done | lia | done | done | done | done].
Qed.

(** The number of a record among those that are present. *)
Lemma filter_index (f : arena_record_t -> bool) (rs : list arena_record_t) : forall k r, List.filter f rs !! k = Some r ->
  exists i, rs !! i = Some r /\ f r = true /\ length (List.filter f (take i rs)) = k.
Proof.
  induction rs as [| x rs IH]; intros k r; cbn [List.filter]; [done |]. destruct (f x) eqn:Ex.
  - destruct k as [| k]; cbn; [intros [= <-]; by exists 0%nat |]. intros Hk. destruct (IH k r Hk) as (i & Ei & Hf & El). exists (S i). split_and!; [done | done |]. cbn [take List.filter]. rewrite Ex. cbn. by rewrite El.
  - intros Hk. destruct (IH k r Hk) as (i & Ei & Hf & El). exists (S i). split_and!; [done | done |]. cbn [take List.filter]. by rewrite Ex.
Qed.

Lemma filter_at (f : arena_record_t -> bool) (rs : list arena_record_t) i r : rs !! i = Some r -> f r = true -> List.filter f rs !! length (List.filter f (take i rs)) = Some r.
Proof.
  intros E Hf. assert (List.filter f rs = List.filter f (take i rs) ++ r :: List.filter f (drop (S i) rs)) as ->; [| by rewrite list_lookup_middle].
  rewrite <- (take_drop_middle rs i r E) at 1. rewrite List.filter_app. cbn [List.filter]. by rewrite Hf.
Qed.

Lemma filter_take_mono (f : arena_record_t -> bool) (rs : list arena_record_t) i j : (i <= j)%nat -> (length (List.filter f (take i rs)) <= length (List.filter f (take j rs)))%nat.
Proof. intros Hij. rewrite <- (take_drop i (take j rs)), take_take, List.filter_app, length_app. replace (i `min` j)%nat with i by lia. lia. Qed.

Lemma filter_take_lt (f : arena_record_t -> bool) (rs : list arena_record_t) i j r : (i < j)%nat -> rs !! i = Some r -> f r = true ->
  (length (List.filter f (take i rs)) < length (List.filter f (take j rs)))%nat.
Proof.
  intros Hij E Hf. pose proof (filter_take_mono f rs (S i) j ltac:(lia)) as Hm. rewrite (take_S_r _ _ _ E), List.filter_app, length_app in Hm. cbn [List.filter] in Hm. rewrite Hf in Hm. cbn [length] in Hm. lia.
Qed.
Lemma has_address_true rrs n : forall k, 0 <= k -> k + Z.of_nat n <= len rrs ->
  has_address n rrs k = Ret true <-> exists j rr, k <= j < k + Z.of_nat n /\ rrs !! Z.to_nat j = Some rr /\ (rr_type rr = 1 \/ rr_type rr = 28).
Proof.
  induction n as [| n IH]; intros k Hk Hl; cbn [has_address]; [split; [done |]; intros (j & _ & Hj & _); lia |].
  destruct (at_ix_in rrs k) as [rr Err]; [lia |]. rewrite Err. cbn [obind]. apply at_ix_Ret in Err as [_ Err]. case_if; rename E into Et.
  - split; [intros _ | done]. exists k, rr. split_and!; [lia | lia | done |]. apply orb_true_iff in Et as [?%Z.eqb_eq | ?%Z.eqb_eq]; auto.
  - apply orb_false_iff in Et as [?%Z.eqb_neq ?%Z.eqb_neq]. rewrite IH by lia. split; intros (j & rr' & Hj & Ej & Ht).
    + exists j, rr'. split_and!; [lia | lia | done | done].
    + exists j, rr'. destruct (Z.eq_dec j k) as [-> |]; [assert (rr' = rr) as -> by congruence; by destruct Ht | split_and!; [lia | lia | done | done]].
Qed.

(** ** Lemmas: the first steps *)

Lemma cnt_filter tmp rs ids id tn ls : Forall2 (owns tmp) rs ids -> names_ok rs -> tmp !! id = Some tn -> canonical_text (tn_text tn) ls ->
  (forall id id' tn tn', tmp !! id = Some tn -> tmp !! id' = Some tn' -> key (tn_text tn) = key (tn_text tn') -> id = id') ->
  cnt (Z.of_nat id) ids = len (List.filter (fun r => present r && domain_names_match_ci (tn_text tn) (name_of r)) rs).
Proof.
  intros Ho Hn Htn Ht Hd. induction Ho as [| r o rs ids Hro Hrs IH]; [done |].
  assert (names_ok rs) as Hn' by (intros x Hx; apply Hn; by right). rewrite cnt_cons, (IH Hn'). cbn [List.filter].
  destruct o as [id' |]; cbn [owns] in Hro.
  - destruct Hro as (Hp & Hid & tn' & Etn' & Ek). rewrite Hp. cbn [andb]. destruct (Hn r) as [lr Hr]; [left | done |].
    pose proof (match_labels _ _ _ _ Ht Hr) as Hm. unfold key in Ek. rewrite (labels_of_text _ _ Hr) in Ek. destruct (domain_names_match_ci (tn_text tn) (name_of r)).
    + assert (Z.to_nat id' = id) as Ei. { apply (Hd _ _ _ _ Etn' Htn). unfold key. rewrite Ek, (labels_of_text _ _ Ht). symmetry. by apply Hm. }
      rewrite bool_decide_eq_true_2 by (f_equal; lia). cbn [length]. lia.
    + rewrite bool_decide_eq_false_2; [lia |]. intros [= ->]. rewrite Nat2Z.id in Etn'. assert (tn' = tn) as -> by congruence.
      rewrite (labels_of_text _ _ Ht) in Ek. apply Hm in Ek. done.
  - rewrite Hro. cbn. rewrite bool_decide_eq_false_2 by done. lia.
Qed.

(** The table of names and places of an indexed zone. *)
Record layout_ok (rs : list arena_record_t) (ix : tmp_index_t) (ids : list (option Z)) (tmp : list tmp_name_t) : Prop := LayoutOk {
  lo_ix : owners_ok rs ix;
  lo_room : len (ix_names ix) < len (ix_tab ix);
  lo_count : len (ix_names ix) <= len rs;
  lo_length : length tmp = length (ix_names ix);
  lo_same : forall id tn, ix_names ix !! id = Some tn -> exists c, tmp !! id = Some (set_cursor c tn);
  lo_ids : forall i id, ids !! i = Some (Some id) -> 0 <= id /\ exists tn, tmp !! Z.to_nat id = Some tn;
  lo_tmp : forall id tn, tmp !! id = Some tn -> tn_count tn = cnt (Z.of_nat id) ids /\ tn_cursor tn = total (take id tmp);
  lo_own : Forall2 (owns tmp) rs ids;
  lo_mask : forall id tn, tmp !! id = Some tn -> tn_count tn <= ZONE_IMAGE_NAME_COUNT_MASK;
  lo_texts : map tn_text tmp = map name_of (first_records [] rs);
  lo_order : forall i id id', ids !! i = Some (Some id) -> 0 <= id' < id -> exists j, (j < i)%nat /\ ids !! j = Some (Some id')
}.

Lemma lo_back rs ix ids tmp id tn : layout_ok rs ix ids tmp -> tmp !! id = Some tn -> exists tn0 c, ix_names ix !! id = Some tn0 /\ tn = set_cursor c tn0.
Proof.
  intros Hlo E. destruct (lookup_lt_is_Some_2 (ix_names ix) id) as [tn0 E0]; [rewrite <- (lo_length _ _ _ _ Hlo); by eapply lookup_lt_Some |].
  destruct (lo_same _ _ _ _ Hlo _ _ E0) as [c Ec]. exists tn0, c. split; [done | congruence].
Qed.

Lemma layout_spec rs : names_ok rs -> len rs < 2147483647 ->
  exists ix ids, owners 0 rs (TmpIndex (tmp_table (len rs)) []) = Ret (ix, ids) /\
    ((cursors 0 (ix_names ix) = Fail /\ exists t, ZONE_IMAGE_NAME_COUNT_MASK < len (List.filter (fun r => present r && domain_names_match_ci t (name_of r)) rs)) \/
     exists tmp, cursors 0 (ix_names ix) = Ret tmp /\ layout_ok rs ix ids tmp).
Proof.
  intros Hn Hl. destruct (owners_total rs Hn Hl) as (ix & ids & E & Hod & Hroom). exists ix, ids. split; [done |].
  destruct Hod as [Hok _ Hsize Hids _ Hcount Htexts Horder]. cbn [ix_names length] in Hsize. destruct (cursors_spec (ix_names ix) 0) as [[-> (tn & Hin & Hbig)] | (tmp & -> & Hlen & Hcur)].
  - left. split; [done |]. apply list_elem_of_lookup in Hin as [id Etn]. exists (tn_text tn).
    rewrite <- (cnt_filter (ix_names ix) rs ids id tn (labels_of (tn_text tn))); [| done | done | done | by eapply tmp_text | by apply Hok].
    rewrite (Hcount _ _ Etn) in Hbig. unfold old_count in Hbig. cbn [ix_names] in Hbig. by rewrite lookup_nil in Hbig.
  - right. exists tmp. split; [done |].
    assert (forall id tn, tmp !! id = Some tn -> exists tn0, ix_names ix !! id = Some tn0 /\ tn_count tn0 <= ZONE_IMAGE_NAME_COUNT_MASK /\ tn = set_cursor (total (take id (ix_names ix))) tn0) as Hback.
    { intros id tn Etn. destruct (lookup_lt_is_Some_2 (ix_names ix) id) as [tn0 E0]; [rewrite <- Hlen; by eapply lookup_lt_Some |]. destruct (Hcur _ _ E0) as [Hm Ec].
      exists tn0. split_and!; [done | done |]. rewrite Z.add_0_l in Ec. congruence. }
    assert (map tn_count tmp = map tn_count (ix_names ix)) as Hc.
    { apply list_eq. intros id. change (map ?f ?l) with (f <$> l). rewrite !list_lookup_fmap. destruct (tmp !! id) as [tn |] eqn:Etn.
      - destruct (Hback _ _ Etn) as (tn0 & -> & _ & ->). done.
      - rewrite (lookup_ge_None_2 (ix_names ix)); [done |]. rewrite <- Hlen. by apply lookup_ge_None. }
    split; [done | done | lia | done | | | | | | | exact Horder].
    + intros id tn E0. destruct (Hcur _ _ E0) as [_ ->]. by eexists.
    + intros i id Ei. destruct (Forall2_lookup_r _ _ _ _ _ Hids Ei) as (r & _ & _ & Hid & tn & Etn & _). split; [done |]. destruct (Hcur _ _ Etn) as [_ ->]. by eexists.
    + intros id tn Etn. destruct (Hback _ _ Etn) as (tn0 & E0 & _ & ->). cbn. rewrite (Hcount _ _ E0). unfold old_count. cbn [ix_names]. rewrite lookup_nil. split; [lia |].
      unfold total. change (map tn_count (take id ?l)) with (tn_count <$> take id l). rewrite !fmap_take. change (tn_count <$> ?l) with (map tn_count l). by rewrite Hc.
    + eapply Forall2_impl; [exact Hids |]. intros r [id |]; [| done]. intros (Hp & Hid & tn & Etn & Ek). split_and!; [done | done |]. destruct (Hcur _ _ Etn) as [_ ->]. by eexists.
    + intros id tn Etn. destruct (Hback _ _ Etn) as (tn0 & _ & Hm & ->). done.
    + cbn [ix_names map app] in Htexts. rewrite <- Htexts. symmetry. apply map_Forall2, Forall2_same_length_lookup. split; [done |].
      intros id tn0 tn E0 Etn. destruct (Hcur _ _ E0) as [_ Ec]. by rewrite Etn in Ec; injection Ec as ->.
Qed.

(** ** Lemmas: the records in their places *)

Section Freeze.
Context `{InetPton, EvpBase64} (loc_rdata : list (list Z) -> option (list Z)).
Context (Hloc : forall rdata d, loc_rdata rdata = Some d -> bytes d /\ length d = 16%nat).
Context (a : zone_arena_t) (Ha : arena_ok a) (Hstored : forall r, r ∈ records a -> record_stored (rec r)).
Context (ix : tmp_index_t) (ids : list (option Z)) (tmp : list tmp_name_t) (Hlo : layout_ok (records a) ix ids tmp).

Let Hids := lo_ids _ _ _ _ Hlo.
Let Htmp := lo_tmp _ _ _ _ Hlo.

Lemma layout_text id tn : tmp !! id = Some tn -> tn_hash tn = dns_name_hash_ci (tn_text tn) /\
  exists r, record_at (records a) (tn_first_rec tn) = Ret r /\ present r = true /\ name_of r = tn_text tn.
Proof. intros E. destruct (lo_back _ _ _ _ _ _ Hlo E) as (tn0 & c & E0 & ->). exact (ow_name _ _ (lo_ix _ _ _ _ Hlo) _ _ E0). Qed.

Lemma layout_distinct id id' tn tn' : tmp !! id = Some tn -> tmp !! id' = Some tn' -> key (tn_text tn) = key (tn_text tn') -> id = id'.
Proof.
  intros E E'. destruct (lo_back _ _ _ _ _ _ Hlo E) as (tn0 & c & E0 & ->). destruct (lo_back _ _ _ _ _ _ Hlo E') as (tn0' & c' & E0' & ->).
  exact (ow_distinct _ _ (lo_ix _ _ _ _ Hlo) _ _ _ _ E0 E0').
Qed.

Lemma layout_place i r : record_at (records a) i = Ret r -> present r = true -> exists p, place ids tmp (Z.to_nat i) = Some p.
Proof.
  intros [Hi E]%at_ix_Ret Hp. destruct (Forall2_lookup_l _ _ _ _ _ (lo_own _ _ _ _ Hlo) E) as (x & Ex & Hx). destruct x as [id |]; [| cbn in Hx; congruence].
  destruct Hx as (_ & Hid & tn & Etn & _). unfold place. rewrite Ex, Etn. by eexists.
Qed.

(** The record of a place. *)
Lemma layout_record i p : place ids tmp i = Some p -> exists r id tn, records a !! i = Some r /\ present r = true /\ ids !! i = Some (Some id) /\ 0 <= id /\ tmp !! Z.to_nat id = Some tn /\
  key (tn_text tn) = key (name_of r).
Proof.
  intros Hp. destruct (place_range ids tmp Hids Htmp i p Hp) as (id & tn & Eid & Hid & Etn & _). destruct (Forall2_lookup_r _ _ _ _ _ (lo_own _ _ _ _ Hlo) Eid) as (r & Er & Hpr & _ & tn' & Etn' & Ek).
  assert (tn' = tn) as -> by congruence. by exists r, id, tn.
Qed.

(** The names of the zone are those of the table, in its order. *)
Lemma zone_name_at id tn : tmp !! id = Some tn -> exists f, zone_names a !! id = Some f /\ name_of f = tn_text tn.
Proof.
  intros E. pose proof (f_equal (fun l => l !! id) (lo_texts _ _ _ _ Hlo)) as Ht. cbv beta in Ht. change (map ?f ?l) with (f <$> l) in Ht. rewrite !list_lookup_fmap, E in Ht.
  unfold zone_names. destruct (first_records [] (records a) !! id) as [f |]; [| done]. injection Ht as Ht. by exists f.
Qed.

Lemma zone_name_back id f : zone_names a !! id = Some f -> exists tn, tmp !! id = Some tn /\ tn_text tn = name_of f.
Proof.
  intros E. pose proof (f_equal (fun l => l !! id) (lo_texts _ _ _ _ Hlo)) as Ht. cbv beta in Ht. change (map ?f ?l) with (f <$> l) in Ht. rewrite !list_lookup_fmap in Ht.
  unfold zone_names in E. rewrite E in Ht. destruct (tmp !! id) as [tn |]; [| done]. injection Ht as Ht. by exists tn.
Qed.

Lemma layout_canonical id tn : tmp !! id = Some tn -> canonical_text (tn_text tn) (labels_of (tn_text tn)).
Proof. intros E. destruct (layout_text id tn E) as (_ & r & Hr & Hp & <-). apply (present_text (records a) (ao_names _ Ha)); [by eapply at_ix_elem | done]. Qed.

Lemma match_key id tn r : tmp !! id = Some tn -> r ∈ records a -> present r = true -> domain_names_match_ci (tn_text tn) (name_of r) = true <-> key (tn_text tn) = key (name_of r).
Proof. intros E Hin Hp. apply (match_labels _ _ _ _ (layout_canonical _ _ E) (present_text (records a) (ao_names _ Ha) r Hin Hp)). Qed.

(** Two texts that match a third are the same name. *)
Lemma layout_match id id' tn tn' t : tmp !! id = Some tn -> tmp !! id' = Some tn' -> domain_names_match_ci (tn_text tn) t = true -> domain_names_match_ci (tn_text tn') t = true -> id = id'.
Proof.
  intros E E' Hm Hm'. apply match_ci_relative in Hm, Hm'. apply (layout_distinct _ _ _ _ E E').
  apply (match_labels _ _ _ _ (layout_canonical _ _ E) (layout_canonical _ _ E')), match_ci_relative. by rewrite Hm, Hm'.
Qed.

Lemma owner_match i r id tn : records a !! i = Some r -> ids !! i = Some (Some id) -> tmp !! Z.to_nat id = Some tn -> domain_names_match_ci (tn_text tn) (name_of r) = true.
Proof.
  intros Er Eid Etn. destruct (Forall2_lookup_lr _ _ _ _ _ _ (lo_own _ _ _ _ Hlo) Er Eid) as (Hp & _ & tn' & Etn' & Ek). assert (tn' = tn) as -> by congruence.
  apply (match_key _ _ _ Etn); [by eapply list_elem_of_lookup_2 | done | done].
Qed.

Lemma spelling_text i r id tn : records a !! i = Some r -> ids !! i = Some (Some id) -> tmp !! Z.to_nat id = Some tn -> spelling a r = tn_text tn.
Proof.
  intros Er Eid Etn. pose proof (owner_match _ _ _ _ Er Eid Etn) as Hm. destruct (zone_name_at _ _ Etn) as (f & Ef & En). unfold spelling.
  destruct (List.find (fun f => same_owner f r) (zone_names a)) as [f' |] eqn:Efind.
  - apply find_some in Efind as [[id' Ef']%list_elem_of_In%list_elem_of_lookup_1 Hm']. unfold same_owner in Hm'. destruct (zone_name_back _ _ Ef') as (tn' & Etn' & En'). rewrite <- En' in Hm' |- *.
    assert (id' = Z.to_nat id) as -> by (by eapply layout_match). congruence.
  - assert (In f (zone_names a)) as Hin by (apply list_elem_of_In; by eapply list_elem_of_lookup_2). pose proof (find_none _ _ Efind f Hin) as Hno. cbv beta in Hno. unfold same_owner in Hno. by rewrite En, Hm in Hno.
Qed.

Lemma ids_present : Forall2 (fun r o => present r = bool_decide (is_Some o)) (records a) ids.
Proof. eapply Forall2_impl; [exact (lo_own _ _ _ _ Hlo) |]. intros r [id |]; cbn; [by intros [-> _] | done]. Qed.

Lemma total_present : total tmp = len (zone_records a).
Proof. rewrite (total_records ids tmp Hids Htmp). by destruct (file_order_lookup _ _ ids_present) as [-> _]. Qed.

Lemma omap_indices {B} (f : arena_record_t -> option B) (all rs : list arena_record_t) : forall i, (forall k, rs !! k = all !! (i + k)%nat) ->
  omap (fun j => all !! Z.to_nat j ≫= f) (indices present (Z.of_nat i) rs) = omap f (List.filter present rs).
Proof.
  induction rs as [| r rs IH]; intros i Hk; [done |]. cbn [indices List.filter]. assert (all !! i = Some r) as Er by (by rewrite <- (Nat.add_0_r i), <- (Hk 0%nat)).
  specialize (IH (S i)). replace (Z.of_nat i + 1) with (Z.of_nat (S i)) by lia. destruct (present r); cbn [omap list_omap]; [rewrite Nat2Z.id, Er; cbn [mbind option_bind] |].
  - rewrite IH; [done |]. intros k. etransitivity; [exact (Hk (S k)) |]. f_equal. lia.
  - apply IH. intros k. etransitivity; [exact (Hk (S k)) |]. f_equal. lia.
Qed.

(** The order of the image is an order of the records. *)
Lemma image_order rr_rec : (forall j p, place ids tmp j = Some p -> rr_rec !! Z.to_nat p = Some (Z.of_nat j)) -> len rr_rec = total tmp -> rr_rec ≡ₚ indices present 0 (records a).
Proof.
  intros Hset Hl. assert (indices present 0 (records a) ⊆+ rr_rec) as Hsub.
  { apply NoDup_submseteq; [apply indices_NoDup |]. intros j (r & Hj & Er & Hp)%indices_elem. rewrite Z.sub_0_r in Er. destruct (layout_place j r) as [p Hpl]; [by apply at_ix_Ret | done |].
    specialize (Hset _ _ Hpl). rewrite Z2Nat.id in Hset by done. by eapply list_elem_of_lookup_2. }
  symmetry. apply submseteq_length_Permutation; [done |]. rewrite indices_length. change (List.filter present (records a)) with (zone_records a). pose proof total_present. lia.
Qed.

Lemma records_step : exists rr_rec names0, places 0 ids tmp (replicate (Z.to_nat (len (omap id ids))) 0) = Ret (rec_rr ids tmp, rr_rec) /\
  image_names (records a) tmp = Ret names0 /\ Forall2 names_of tmp names0 /\
  ((image_rrs loc_rdata (records a) ids names0 0 rr_rec = Fail /\ exists r, r ∈ records a /\ present r = true /\ uncompressed_rdata loc_rdata packet_buffer 65535 (rec r) = Fail) \/
   exists rrs exts, image_rrs loc_rdata (records a) ids names0 0 rr_rec = Ret (rrs, exts) /\ len rrs = total tmp /\ exts ≡ₚ zone_exts a /\
    forall i r p id nm, records a !! i = Some r -> place ids tmp i = Some p -> ids !! i = Some (Some id) -> names0 !! Z.to_nat id = Some nm ->
      exists rr ext, rrs !! Z.to_nat p = Some rr /\ rr_name_id rr = id /\ rr_holds loc_rdata (rec r) nm rr ext /\ ext_in exts 0 rr ext).
Proof.
  pose proof (total_records ids tmp Hids Htmp) as Htot.
  destruct (places_spec ids tmp Hids Htmp ids 0 tmp (replicate (Z.to_nat (len (omap id ids))) 0)) as (rr_rec & Ep & Hl & Hset & _).
  { done. } { intros id tn E. rewrite E. cbn [take]. change (cnt (Z.of_nat id) []) with 0. rewrite Z.add_0_r. by destruct tn. } { rewrite length_replicate. lia. }
  rewrite length_replicate in Hl. destruct (image_names_spec (records a) Hstored tmp) as (names0 & En & Hn0); [intros tn [id Hid]%list_elem_of_lookup_1; by apply (layout_text id) |].
  exists rr_rec, names0. split; [exact Ep |]. split; [done |]. split; [done |].
  assert (forall i, i ∈ rr_rec -> exists k r id tn nm, i = Z.of_nat k /\ records a !! k = Some r /\ present r = true /\ ids !! k = Some (Some id) /\ 0 <= id /\ tmp !! Z.to_nat id = Some tn /\
    names0 !! Z.to_nat id = Some nm /\ name_stored nm) as Hin.
  { intros i [q Eq]%list_elem_of_lookup_1. destruct (place_onto ids tmp Htmp (Z.of_nat q)) as [k Hk]; [apply lookup_lt_Some in Eq; lia |].
    pose proof (Hset k (Z.of_nat q) ltac:(lia) Hk) as Es. rewrite Nat2Z.id in Es. assert (i = Z.of_nat k) as -> by congruence.
    destruct (layout_record k _ Hk) as (r & id & tn & Er & Hpr & Eid & Hid & Etn & _). destruct (Forall2_lookup_l _ _ _ _ _ Hn0 Etn) as (nm & Enm & (_ & _ & Hst & _)).
    by exists k, r, id, tn, nm. }
  destruct (image_rrs_spec loc_rdata Hloc (records a) ids names0 rr_rec 0) as [[-> (i & r & Hi & Hr & Hbad)] | (rrs & exts & -> & Hlr & Hexts & Hall)].
  - lia.
  - intros i Hi. destruct (Hin i Hi) as (k & r & id & tn & nm & -> & Er & Hp & Eid & Hid & Etn & Enm & Hst). exists r, id, nm.
    split_and!; [by apply at_ix_nat | by apply at_ix_nat | by apply at_ix_Ret | done |]. apply Hstored. by eapply list_elem_of_lookup_2.
  - left. split; [done |]. exists r. destruct (Hin i Hi) as (k & r' & id & tn & nm & -> & Er & Hp & _). apply at_ix_Ret in Hr as [_ Hr]. rewrite Nat2Z.id in Hr.
    assert (r' = r) as -> by congruence. split_and!; [by eapply list_elem_of_lookup_2 | done | done].
  - right. exists rrs, exts. split; [done |]. split; [lia |]. split.
    { rewrite (Hexts (fun j => records a !! Z.to_nat j ≫= (fun r => record_ext (spelling a r) (rec r)))).
      - rewrite (image_order rr_rec (fun j p => Hset j p ltac:(lia))) by lia. change 0 with (Z.of_nat 0). by rewrite (omap_indices _ (records a) (records a) 0).
      - intros i r id nm Hi [Hi0 Er]%at_ix_Ret [_ Eid]%at_ix_Ret [_ Enm]%at_ix_Ret. rewrite Er. cbn [mbind option_bind]. destruct (Hids _ _ Eid) as (_ & tn & Etn).
        destruct (Forall2_lookup_lr _ _ _ _ _ _ Hn0 Etn Enm) as (_ & -> & _). by rewrite (spelling_text _ _ _ _ Er Eid Etn). }
    intros i r p id nm Er Hp Eid Enm. eapply (Hall _ (Z.of_nat i)).
    + apply Hset; [lia | done].
    + by apply at_ix_nat.
    + by apply at_ix_nat.
    + apply at_ix_Ret. split; [by apply (Hids i) | done].
Qed.

(** The names after the flags of the records. *)
Lemma names_range names0 names (rrs : list zone_image_rr_t) : Forall2 names_of tmp names0 -> same_names names0 names -> len rrs = total tmp ->
  len names = len (ix_names ix) /\
  forall id nm, names !! id = Some nm -> 0 <= nm_first_rr nm /\ 0 <= name_rr_count nm /\ nm_first_rr nm + name_rr_count nm <= len rrs.
Proof.
  intros Hn0 Hs Hl. split; [rewrite <- (Forall2_length _ _ _ Hs), <- (Forall2_length _ _ _ Hn0), (lo_length _ _ _ _ Hlo); done |].
  intros id nm E. destruct (name_in ids tmp names0 names rrs [] Htmp (lo_mask _ _ _ _ Hlo) Hn0 Hs id nm E) as (tn & Etn & _ & _ & -> & ->). destruct (Htmp _ _ Etn) as [Hc Hcur].
  assert (0 <= total (take id tmp)) by (apply (total_nonneg ids tmp Htmp); intros x [k Hk]%list_elem_of_lookup_1; apply lookup_take_Some in Hk as [Hk _]; by eapply list_elem_of_lookup_2).
  pose proof (cursor_next ids tmp Htmp _ _ Etn) as Hnext. assert (total (take (S id) tmp) <= total tmp).
  { rewrite <- (firstn_all tmp) at 2. apply (total_take_le ids tmp Htmp). apply lookup_lt_Some in Etn. lia. }
  assert (0 <= tn_count tn) by (rewrite Hc; unfold cnt; lia). lia.
Qed.

Lemma glue_target_bytes r tgt : record_stored (rec r) -> glue_target r = Some tgt -> bytes tgt.
Proof.
  intros (r0 & _ & _ & Hrd & _ & _ & Hpre). assert (rdata (rec r) = rdata r0) as Erd by (destruct Hpre as [-> | [-> | (nw & c & _ & _ & -> & _)]%preparse_keeps]; done).
  unfold glue_target. rewrite Erd. cbv zeta. case_if; [done |]. rewrite Forall_forall in Hrd. intros Ht. apply Hrd.
  assert (forall o : option (list Z), match o with Some [] => None | _ => o end = Some tgt -> o = Some tgt) as Hne by (by intros [[| ? ?] |]).
  apply Hne in Ht. repeat case_if_in Ht; first [done | by eapply list_elem_of_lookup_2].
Qed.

(** ** Lemmas: the image *)

Section Held.
Context (names0 names : list zone_image_name_t) (rrs : list zone_image_rr_t) (exts : list zone_image_ext_t).
Context (Hnm0 : Forall2 names_of tmp names0) (Hsame : same_names names0 names) (Hrrs : len rrs = total tmp).
Context (Hholds : forall i r p id nm, records a !! i = Some r -> place ids tmp i = Some p -> ids !! i = Some (Some id) -> names0 !! Z.to_nat id = Some nm ->
  exists rr ext, rrs !! Z.to_nat p = Some rr /\ rr_name_id rr = id /\ rr_holds loc_rdata (rec r) nm rr ext /\ ext_in exts 0 rr ext).
Context (apex : list Z) (img : zone_image_t) (Enames : im_names img = names) (Errs : im_rrs img = rrs) (Eexts : im_exts img = exts).
Context (Ehash : len (im_hash img) = hash_slots (len names)).
Context (Hexts : exts ≡ₚ zone_exts a) (Hcanon : Forall2 (fun t id => 0 <= id /\ exists tn, tmp !! Z.to_nat id = Some tn /\ key (tn_text tn) = key t) (sorted_unique_names a) (im_canon img)).
Context (Hglue : NoDup (im_glue img) /\ forall id, id ∈ im_glue img <-> (id ∉ ([] : list Z)) /\ pointed ix (records a) id /\ addressed rrs names0 id).
Context (Hmarks : forall f id nm0 nm, f ∈ all_marks -> f <> ZONE_IMAGE_NAME_GLUE -> names0 !! id = Some nm0 -> names !! id = Some nm -> has_mark f nm =
  (has_mark f nm0 || existsb (fun rr => Nat.eqb (Z.to_nat (rr_name_id rr)) id && (rr_name_flag (im_apex_name img) rr =? f)) rrs ||
    (f =? ZONE_IMAGE_NAME_WILDCARD) && is_wildcard (nm_text nm0) || (f =? ZONE_IMAGE_NAME_APEX) && bool_decide (im_apex_name img = Some (Z.of_nat id))) &&
  negb ((f =? ZONE_IMAGE_NAME_CUT) && bool_decide (im_apex_name img = Some (Z.of_nat id)))).
Context (Hgmark : forall id nm, names !! id = Some nm -> has_mark ZONE_IMAGE_NAME_GLUE nm = true <-> addressed rrs names0 (Z.of_nat id) /\ prelinked ix [] (records a) (Z.of_nat id)).
Context (Hranks : forall i id, at_ix (im_canon img) i = Ret id -> 0 <= id /\ exists nm, names !! Z.to_nat id = Some nm /\ nm_canon_rank nm = Some i).
Context (Eperm : im_perm img = file_order (rec_rr ids tmp)) (Eapex : tmp_find ix apex (dns_name_hash_ci apex) = Ret (im_apex_name img)).
Context (Hchains : Forall2 (chain_at ids tmp rrs (im_n3entries img) 0) (nsec3_chains a) (im_n3chains img)).
Context (Hentries : len (im_n3entries img) = zsum (map (fun ch => len (c_entries ch)) (nsec3_chains a))).
Context (Eparams : image_params (rec_rr ids tmp) a = Ret (im_n3_param_rr img, im_n3_chain img, im_n3_salt img, im_n3_iterations img, im_n3_algorithm img)).
Context (Hnsec : Forall2 (at_place ids tmp) (nsec_records a) (im_nsec img)) (Etables : im_zattr img = build_zattr (tables a)).

Lemma rr_holds_same r nm nm' rr ext : same_name nm nm' -> rr_holds loc_rdata r nm rr ext -> rr_holds loc_rdata r nm' rr ext.
Proof. intros (_ & Ew & Et & _) [H1 H2 H3 H4 H5 H6 H7 H8 H9 H10]. split; try done; [by rewrite <- Et | by rewrite <- Ew | by rewrite <- Et]. Qed.

Lemma rec_rr_present : Forall2 (fun r o => present r = bool_decide (is_Some o)) (records a) (rec_rr ids tmp).
Proof.
  pose proof (Forall2_length _ _ _ (lo_own _ _ _ _ Hlo)) as Hl. apply Forall2_same_length_lookup. unfold rec_rr. rewrite length_map, length_seq. split; [done |].
  intros i r o Er. change (map ?f ?l) with (f <$> l). rewrite list_lookup_fmap, lookup_seq_lt by (rewrite <- Hl; by eapply lookup_lt_Some). intros [= <-]. cbn.
  destruct (place ids tmp i) as [p |] eqn:Ep.
  - destruct (layout_record i p Ep) as (r' & _ & _ & Er' & Hp & _). rewrite bool_decide_eq_true_2 by done. congruence.
  - rewrite bool_decide_eq_false_2 by (by intros []). destruct (present r) eqn:Hp; [| done]. destruct (layout_place (Z.of_nat i) r) as [p Ep']; [by apply at_ix_nat | done |].
    rewrite Nat2Z.id in Ep'. congruence.
Qed.

Lemma seq_len : len (omap id (rec_rr ids tmp)) = total tmp.
Proof. destruct (file_order_lookup _ _ rec_rr_present) as [-> _]. symmetry. apply total_present. Qed.

Lemma rec_rr_at i r : records a !! i = Some r -> rec_rr ids tmp !! i = Some (place ids tmp i).
Proof.
  intros Er. pose proof (Forall2_length _ _ _ (lo_own _ _ _ _ Hlo)) as Hl. unfold rec_rr. change (map ?f ?l) with (f <$> l). rewrite list_lookup_fmap, lookup_seq_lt; [done |].
  apply lookup_lt_Some in Er. lia.
Qed.

(** The number of a record in the file order. *)
Lemma file_number i : length (omap id (take i (rec_rr ids tmp))) = length (List.filter present (take i (records a))).
Proof. by destruct (file_order_lookup _ _ (Forall2_take _ _ _ i rec_rr_present)) as [-> _]. Qed.

Lemma place_record_rr i r p : record_at (records a) i = Ret r -> place ids tmp (Z.to_nat i) = Some p -> record_rr img a i p.
Proof.
  intros Hr Hp. pose proof Hr as [Hi Er]%at_ix_Ret. destruct (layout_record _ _ Hp) as (r' & _ & _ & Er' & Hpr & _). assert (r' = r) as -> by congruence. split; [by exists r |].
  rewrite <- file_number. pose proof (omap_at (rec_rr ids tmp) (Z.to_nat i) p) as Hat. rewrite (rec_rr_at _ _ Er), Hp in Hat. specialize (Hat eq_refl).
  destruct (seq_rr_lookup img (rec_rr ids tmp) (Z.of_nat (length (omap id (take (Z.to_nat i) (rec_rr ids tmp))))) Eperm) as (q & -> & Eq); [apply lookup_lt_Some in Hat; lia |].
  rewrite Nat2Z.id in Eq. congruence.
Qed.

(** A record by its number in the file order. *)
Lemma file_record k r : zone_records a !! k = Some r -> exists i n p, records a !! i = Some r /\ present r = true /\ ids !! i = Some (Some n) /\ 0 <= n /\ place ids tmp i = Some p /\
  length (List.filter present (take i (records a))) = k /\ omap id (rec_rr ids tmp) !! k = Some p.
Proof.
  intros (i & Er & Hp & Hk)%filter_index. destruct (layout_place (Z.of_nat i) r) as [p Hpl]; [by apply at_ix_nat | done |]. rewrite Nat2Z.id in Hpl.
  destruct (layout_record _ _ Hpl) as (r' & id & tn & Er' & _ & Eid & Hid & _). exists i, id, p. split_and!; try done. rewrite <- Hk, <- file_number. apply omap_at. by rewrite (rec_rr_at _ _ Er), Hpl.
Qed.

(** Two records with the same name have its number. *)
Lemma same_owner_ids i j ri rj id id' : records a !! i = Some ri -> records a !! j = Some rj -> ids !! i = Some (Some id) -> ids !! j = Some (Some id') -> same_owner ri rj = true <-> id = id'.
Proof.
  intros Ei Ej Hi Hj. destruct (Hids _ _ Hi) as (Hz & tn & Etn). destruct (Hids _ _ Hj) as (Hz' & tn' & Etn').
  pose proof (owner_match _ _ _ _ Ei Hi Etn) as Hm. pose proof (owner_match _ _ _ _ Ej Hj Etn') as Hm'. split.
  - intros Hs. assert (Z.to_nat id = Z.to_nat id'); [| lia]. apply (layout_match _ _ _ _ (name_of rj) Etn Etn'); [| done]. unfold same_owner in Hs. rewrite match_ci_relative in *. congruence.
  - intros <-. assert (tn' = tn) as -> by congruence. unfold same_owner. rewrite match_ci_relative in *. congruence.
Qed.

Lemma order_grouped : omap id (rec_rr ids tmp) = seqZ 0 (len (omap id (rec_rr ids tmp))) <-> grouped (zone_records a) = true.
Proof.
  rewrite grouped_spec. split.
  - intros Es i j k ri rj rk Hijk Hi Hj Hk Hs.
    destruct (file_record _ _ Hi) as (i' & id & p & Ei & _ & Eid & _ & Hp & _ & Hsi). destruct (file_record _ _ Hj) as (j' & id' & q & Ej & _ & Eid' & _ & Hq & _ & Hsj).
    destruct (file_record _ _ Hk) as (k' & id'' & q' & Ek & _ & Eid'' & _ & Hq' & _ & Hsk). rewrite Es in Hsi, Hsj, Hsk. apply lookup_seqZ in Hsi as [-> _], Hsj as [-> _], Hsk as [-> _].
    apply (same_owner_ids _ _ _ _ _ _ Ei Ek Eid Eid'') in Hs as <-. apply (same_owner_ids _ _ _ _ _ _ Ei Ej Eid Eid'). destruct (Z.lt_total id id') as [Hlt | [? | Hlt]]; [| done |].
    + pose proof (place_lt ids tmp Hids Htmp _ _ _ _ _ _ Hq' Hq Eid'' Eid' (or_introl Hlt)). lia.
    + pose proof (place_lt ids tmp Hids Htmp _ _ _ _ _ _ Hq Hp Eid' Eid (or_introl Hlt)). lia.
  - intros Hg. apply growing_seqZ.
    2:{ intros x [k Hx]%list_elem_of_lookup_1. destruct (omap_lookup _ _ _ Hx) as (i & Ei & _). unfold rec_rr in Ei. change (map ?f ?l) with (f <$> l) in Ei. rewrite list_lookup_fmap in Ei.
      destruct (seq 0 (length ids) !! i) as [j |]; [| done]. injection Ei as Ei. pose proof seq_len. pose proof (place_bound ids tmp Hids Htmp _ _ Ei). lia. }
    intros x y p q Hxy Hx Hy. pose proof seq_len as Hsl. rewrite total_present in Hsl.
    destruct (lookup_lt_is_Some_2 (zone_records a) x) as [rx Ex]; [apply lookup_lt_Some in Hx; lia |]. destruct (lookup_lt_is_Some_2 (zone_records a) y) as [ry Ey]; [apply lookup_lt_Some in Hy; lia |].
    destruct (file_record _ _ Ex) as (i & id & p' & Ei & Hpi & Eid & _ & Hp & Hni & Hsi). destruct (file_record _ _ Ey) as (j & id' & q' & Ej & _ & Eid' & Hid' & Hq & Hnj & Hsj).
    assert (p' = p) as -> by congruence. assert (q' = q) as -> by congruence. assert (i < j)%nat as Hij by (destruct (Nat.lt_ge_cases i j) as [? | Hle]; [done |]; pose proof (filter_take_mono present (records a) j i Hle); lia).
    apply (place_lt ids tmp Hids Htmp _ _ _ _ _ _ Hp Hq Eid Eid'). destruct (Z.lt_total id id') as [? | [? | Hlt]]; [by left | by right |]. exfalso.
    destruct (lo_order _ _ _ _ Hlo _ _ id' Eid) as (m & Hm & Em); [lia |]. destruct (Forall2_lookup_r _ _ _ _ _ (lo_own _ _ _ _ Hlo) Em) as (rm & Erm & Hpm & _).
    pose proof (filter_at present (records a) m rm Erm Hpm) as Hz. pose proof (filter_take_lt present (records a) m i rm Hm Erm Hpm) as Hl.
    assert (same_owner rm rx = true) as Hs; [| apply (same_owner_ids _ _ _ _ _ _ Erm Ei Em Eid) in Hs; lia].
    eapply (Hg _ x y rm rx ry); [| exact Hz | exact Ex | exact Ey |]; [lia |]. by apply (same_owner_ids _ _ _ _ _ _ Erm Ej Em Eid').
Qed.

Lemma seq_place k p : zone_image_seq_rr img k = Ret p -> 0 <= k < total tmp -> exists i, place ids tmp i = Some p /\ Z.of_nat (length (omap id (take i (rec_rr ids tmp)))) = k.
Proof.
  intros E Hk. destruct (seq_rr_lookup img (rec_rr ids tmp) k Eperm) as (q & Eq & El); [by rewrite seq_len |]. assert (q = p) as -> by congruence.
  destruct (omap_lookup _ _ _ El) as (i & Ei & Hl). exists i. split; [| lia]. unfold rec_rr in Ei. change (map ?f ?l) with (f <$> l) in Ei. rewrite list_lookup_fmap in Ei.
  destruct (seq 0 (length ids) !! i) as [j |] eqn:Ej; [| done]. apply lookup_seq in Ej as [-> _]. by injection Ei.
Qed.

(** The names with glue. *)
Lemma target_find id tn r tgt : tmp !! id = Some tn -> r ∈ records a -> glue_target r = Some tgt ->
  tmp_find ix tgt (dns_name_hash_ci tgt) = Ret (Some (Z.of_nat id)) <-> domain_names_match_ci (tn_text tn) tgt = true.
Proof.
  intros Etn Hin Hg. destruct (tmp_find_any (records a) (ao_names _ Ha) ix tgt (lo_ix _ _ _ _ Hlo) (lo_room _ _ _ _ Hlo)) as (found & -> & Hrng & Hm).
  specialize (Hm (glue_target_bytes r tgt (Hstored r Hin) Hg)). destruct found as [n |].
  - destruct Hm as (tn0 & E0 & Hm). destruct (lo_same _ _ _ _ Hlo _ _ E0) as [c Ec]. specialize (Hrng n eq_refl). split.
    + intros [= ->]. rewrite Nat2Z.id in Ec. assert (tn = set_cursor c tn0) as -> by congruence. exact Hm.
    + intros Hm'. rewrite (layout_match _ _ _ _ _ Etn Ec Hm' Hm). do 2 f_equal. lia.
  - split; [done |]. destruct (lo_back _ _ _ _ _ _ Hlo Etn) as (tn0 & c & E0 & ->). cbn [set_cursor tn_text]. by rewrite (Hm _ _ E0).
Qed.

Lemma pointed_target id tn f : tmp !! id = Some tn -> name_of f = tn_text tn ->
  pointed ix (records a) (Z.of_nat id) <-> existsb (fun r => match glue_target r with Some tgt => domain_names_match_ci (name_of f) tgt | None => false end) (records a) = true.
Proof.
  intros Etn En. rewrite existsb_exists, En. split.
  - intros (r & tgt & Hin & Hg & Hf). exists r. split; [by apply list_elem_of_In |]. rewrite Hg. by apply (target_find id tn r).
  - intros (r & Hin%list_elem_of_In & Hm). destruct (glue_target r) as [tgt |] eqn:Hg; [| done]. exists r, tgt. split_and!; [done | done |]. by apply (target_find id tn r).
Qed.

Lemma prelinked_target id tn f : tmp !! id = Some tn -> name_of f = tn_text tn ->
  prelinked ix [] (records a) (Z.of_nat id) <-> existsb (fun tgt => domain_names_match_ci (name_of f) tgt) (take 256 (distinct_targets [] (records a))) = true.
Proof.
  intros Etn En. rewrite existsb_exists, En. unfold prelinked. change (256 - length ([] : list (list Z)))%nat with 256%nat.
  assert (forall tgt, tgt ∈ take 256 (distinct_targets [] (records a)) -> exists r, r ∈ records a /\ glue_target r = Some tgt) as Hin.
  { intros tgt [k [Hk _]%lookup_take_Some]%list_elem_of_lookup_1. eapply distinct_targets_in. by eapply list_elem_of_lookup_2. }
  split; intros (tgt & Ht & Hm); [| apply list_elem_of_In in Ht]; destruct (Hin tgt Ht) as (r & Hr & Hg); exists tgt; (split; [first [exact Ht | by apply list_elem_of_In] |]); by apply (target_find id tn r).
Qed.

Lemma addressed_record id tn f : tmp !! id = Some tn -> name_of f = tn_text tn -> addressed rrs names0 (Z.of_nat id) <-> zone_has a f is_address = true.
Proof.
  intros Etn En. destruct (Forall2_lookup_l _ _ _ _ _ Hnm0 Etn) as (nm & Enm & _). destruct (name_in ids tmp names0 names0 rrs [] Htmp (lo_mask _ _ _ _ Hlo) Hnm0 (reflexivity _) id nm Enm) as (tn' & Etn' & _ & _ & Ef & Ec).
  assert (tn' = tn) as -> by congruence. pose proof (proj2 (names_range names0 names0 rrs Hnm0 (reflexivity _) Hrrs) id nm Enm) as (Hr1 & Hr2 & Hr3).
  assert (addressed rrs names0 (Z.of_nat id) <-> has_address (Z.to_nat (name_rr_count nm)) rrs (nm_first_rr nm) = Ret true) as ->.
  { unfold addressed. rewrite Nat2Z.id, Enm. split; [by intros (x & [= <-] & ?) | intros ?; by exists nm]. }
  assert (zone_has a f is_address = true <->
    exists r, r ∈ zone_records a /\ domain_names_match_ci (tn_text tn) (name_of r) = true /\ (type_code (rec r) = 1 \/ type_code (rec r) = 28)) as ->.
  { unfold zone_has, is_address, same_owner. rewrite existsb_exists, En. setoid_rewrite <- list_elem_of_In. setoid_rewrite andb_true_iff. setoid_rewrite orb_true_iff. by setoid_rewrite Z.eqb_eq. }
  rewrite has_address_true, Z2Nat.id, Ef, Ec by lia. split.
  - intros (j & rr & Hj & Err & Ht). destruct (place_of_name ids tmp Htmp _ _ j Etn Hj) as (i & Ei & Hp). destruct (layout_record i j Hp) as (r & n & tn' & Er & Hpr & Eid & Hn & Etn2 & _).
    rewrite Ei in Eid. injection Eid as <-. rewrite Nat2Z.id in Etn2. assert (tn' = tn) as -> by congruence. rewrite <- (Nat2Z.id id) in Enm.
    destruct (Hholds i r j _ nm Er Hp Ei Enm) as (rr' & ext & Err' & _ & Hh & _). assert (rr' = rr) as -> by congruence. exists r. rewrite <- (rh_type _ _ _ _ _ Hh). split_and!; [| | done].
    + apply filter_elem. split; [by eapply list_elem_of_lookup_2 | done].
    + apply (owner_match i r (Z.of_nat id) tn Er Ei). by rewrite Nat2Z.id.
  - intros (r & [[i Er]%list_elem_of_lookup_1 Hpr]%filter_elem & Hm & Ht). destruct (layout_place (Z.of_nat i) r) as [p Hpl]; [by apply at_ix_nat | done |]. rewrite Nat2Z.id in Hpl.
    destruct (place_range ids tmp Hids Htmp i p Hpl) as (n & tn' & Eid & Hn & Etn2 & _ & Hr). pose proof (owner_match i r n tn' Er Eid Etn2) as Hm'.
    pose proof (layout_match _ _ _ _ _ Etn Etn2 Hm Hm') as ->. assert (tn' = tn) as -> by congruence. destruct (Hholds i r p n nm Er Hpl Eid Enm) as (rr & ext & Err & _ & Hh & _).
    exists p, rr. rewrite (rh_type _ _ _ _ _ Hh). split_and!; [lia | lia | done | done].
Qed.

(** The apex. *)
Lemma apex_id id tn : bytes apex -> tmp !! id = Some tn -> bool_decide (im_apex_name img = Some (Z.of_nat id)) = domain_names_match_ci (tn_text tn) apex.
Proof.
  intros Hb Etn. destruct (tmp_find_any (records a) (ao_names _ Ha) ix apex (lo_ix _ _ _ _ Hlo) (lo_room _ _ _ _ Hlo)) as (found & Ef & Hrng & Hm). specialize (Hm Hb).
  assert (found = im_apex_name img) as -> by congruence. apply eq_iff_eq_true. rewrite bool_decide_eq_true. destruct (im_apex_name img) as [n |].
  - destruct Hm as (tn0 & E0 & Hm). destruct (lo_same _ _ _ _ Hlo _ _ E0) as [c Ec]. specialize (Hrng n eq_refl). split.
    + intros [= ->]. rewrite Nat2Z.id in Ec. assert (tn = set_cursor c tn0) as -> by congruence. exact Hm.
    + intros Hm'. assert (id = Z.to_nat n) as -> by (by apply (layout_match _ _ _ _ _ Etn Ec Hm')). f_equal. lia.
  - split; [done |]. destruct (lo_back _ _ _ _ _ _ Hlo Etn) as (tn0 & c & E0 & ->). cbn [set_cursor tn_text]. by rewrite (Hm _ _ E0).
Qed.

(** A record of the image satisfies a condition when one of the zone does. *)
Lemma exists_record (pr : zone_image_rr_t -> bool) (qr : arena_record_t -> bool) :
  (forall i r id tn nm rr ext, records a !! i = Some r -> ids !! i = Some (Some id) -> 0 <= id -> tmp !! Z.to_nat id = Some tn -> rr_name_id rr = id -> rr_holds loc_rdata (rec r) nm rr ext -> ext_in exts 0 rr ext ->
    pr rr = qr r) -> existsb pr rrs = existsb qr (zone_records a).
Proof.
  intros Heq. assert (forall i r p, records a !! i = Some r -> place ids tmp i = Some p -> exists rr, rrs !! Z.to_nat p = Some rr /\ pr rr = qr r) as Hat.
  { intros i r p Er Hp. destruct (layout_record i p Hp) as (r' & id & tn & Er' & _ & Eid & Hid & Etn & _). destruct (Forall2_lookup_l _ _ _ _ _ Hnm0 Etn) as (nm & Enm & _). assert (r' = r) as -> by congruence.
    destruct (Hholds i r p id nm Er Hp Eid Enm) as (rr & ext & Err & Hrid & Hh & Hext). exists rr. split; [done |]. by eapply Heq. }
  apply eq_iff_eq_true. rewrite !existsb_exists. split.
  - intros (rr & [k Ek]%list_elem_of_In%list_elem_of_lookup_1 & Hpr). destruct (place_onto ids tmp Htmp (Z.of_nat k)) as [i Hi]; [apply lookup_lt_Some in Ek; lia |].
    destruct (layout_record _ _ Hi) as (r & _ & _ & Er & Hp & _). destruct (Hat i r _ Er Hi) as (rr' & Err & E). rewrite Nat2Z.id in Err. assert (rr' = rr) as -> by congruence.
    exists r. split; [apply list_elem_of_In, filter_elem; split; [by eapply list_elem_of_lookup_2 | done] | congruence].
  - intros (r & [[i Er]%list_elem_of_lookup_1 Hp]%list_elem_of_In%filter_elem & Hq). destruct (layout_place (Z.of_nat i) r) as [p Hpl]; [by apply at_ix_nat | done |]. rewrite Nat2Z.id in Hpl.
    destruct (Hat i r p Er Hpl) as (rr & Err & E). exists rr. split; [apply list_elem_of_In; by eapply list_elem_of_lookup_2 | congruence].
Qed.

(** The flag of a record on its name. *)
Lemma mark_record id tn fz f (q : dns_record_t -> bool) : tmp !! id = Some tn -> name_of fz = tn_text tn ->
  (forall rr r, rr_type rr = type_code r -> rr_class rr = wire_class r -> rr_name_id rr = Z.of_nat id -> (rr_name_flag (im_apex_name img) rr =? f) = q r) ->
  existsb (fun rr => Nat.eqb (Z.to_nat (rr_name_id rr)) id && (rr_name_flag (im_apex_name img) rr =? f)) rrs = zone_has a fz q.
Proof.
  intros Etn En Hq. apply exists_record. intros i r n tn' nm rr ext Er Eid Hn Etn' Hrid Hh _. unfold same_owner. rewrite En.
  destruct (Nat.eqb_spec (Z.to_nat (rr_name_id rr)) id) as [Hid | Hid]; cbn [andb].
  - rewrite Hrid in Hid. rewrite Hid in Etn'. assert (tn' = tn) as -> by congruence. rewrite (owner_match i r n tn Er Eid) by congruence. cbn [andb].
    apply Hq; [exact (rh_type _ _ _ _ _ Hh) | exact (rh_class _ _ _ _ _ Hh) | lia].
  - destruct (domain_names_match_ci (tn_text tn) (name_of r)) eqn:Em; [| done]. destruct Hid. rewrite Hrid. symmetry. apply (layout_match _ _ _ _ _ Etn Etn' Em). by apply (owner_match i r n tn' Er Eid).
Qed.

Lemma rr_flag_type apex_name rr f :
  (f = ZONE_IMAGE_NAME_DNAME -> (rr_name_flag apex_name rr =? f) = (rr_type rr =? 39)) /\ (f = ZONE_IMAGE_NAME_NSEC -> (rr_name_flag apex_name rr =? f) = (rr_type rr =? 47)) /\
  (f = ZONE_IMAGE_NAME_ALIAS -> (rr_name_flag apex_name rr =? f) = (rr_type rr =? 65401) && (rr_class rr =? 1)) /\
  (f = ZONE_IMAGE_NAME_CUT -> (rr_name_flag apex_name rr =? f) = (rr_type rr =? 2) && negb (bool_decide (apex_name = Some (rr_name_id rr)))) /\
  (f = ZONE_IMAGE_NAME_WILDCARD \/ f = ZONE_IMAGE_NAME_APEX -> (rr_name_flag apex_name rr =? f) = false).
Proof.
  unfold rr_name_flag, DNS_TYPE_PDNS_ALIAS. destruct (Z.eqb_spec (rr_type rr) 2) as [-> |]; [destruct (bool_decide _); split_and!; by intros; destruct_or?; subst |].
  destruct (Z.eqb_spec (rr_type rr) 39) as [-> |]; [split_and!; by intros; destruct_or?; subst |]. destruct (Z.eqb_spec (rr_type rr) 47) as [-> |]; [split_and!; by intros; destruct_or?; subst |].
  destruct (rr_type rr =? 65401), (rr_class rr =? 1); split_and!; by intros; destruct_or?; subst.
Qed.

Lemma held_glue : im_glue img ≡ₚ indices (is_glue a) 0 (zone_names a).
Proof.
  destruct Hglue as [Hnd Hg]. apply NoDup_Permutation; [done | apply indices_NoDup |]. intros n. rewrite Hg, indices_elem.
  assert (forall id f, zone_names a !! id = Some f -> pointed ix (records a) (Z.of_nat id) /\ addressed rrs names0 (Z.of_nat id) <-> is_glue a f = true) as Hiff.
  { intros id f Ef. destruct (zone_name_back _ _ Ef) as (tn & Etn & En). unfold is_glue. by rewrite (pointed_target _ _ f Etn), (addressed_record _ _ f Etn), andb_true_iff. }
  split.
  - intros (_ & Hp & Had). destruct Had as (nm & Enm & Hadr). destruct Hp as (r & tgt & Hin & Hgt & Hf).
    destruct (tmp_find_any (records a) (ao_names _ Ha) ix tgt (lo_ix _ _ _ _ Hlo) (lo_room _ _ _ _ Hlo)) as (found & Ef & Hrng & _). rewrite Hf in Ef. injection Ef as <-. specialize (Hrng n eq_refl).
    destruct (lookup_lt_is_Some_2 tmp (Z.to_nat n)) as [tn Etn]; [rewrite (lo_length _ _ _ _ Hlo); lia |]. destruct (zone_name_at _ _ Etn) as (f & Ezf & _). exists f. rewrite Z.sub_0_r. split_and!; [lia | done |].
    apply (Hiff _ _ Ezf). rewrite Z2Nat.id by lia. split; [by exists r, tgt | by exists nm].
  - intros (f & Hn & Ef & Hgl). rewrite Z.sub_0_r in Ef. apply (Hiff _ _ Ef) in Hgl. rewrite Z2Nat.id in Hgl by done. split; [apply not_elem_of_nil | done].
Qed.

Lemma held_chain ch ich : ch ∈ nsec3_chains a -> chain_at ids tmp rrs (im_n3entries img) 0 ch ich -> holds_chain loc_rdata img a ch ich.
Proof.
  intros Hch (Hc & Hf & Halg & Hit & (e & p & rr & sl & He & Hat & Err & Hsl & Hsalt) & Hent). split_and!; [done | done | | done | lia |].
  - assert (e ∈ c_entries ch) as Hin by (destruct (c_entries ch); [done |]; injection He as ->; left). destruct (ao_n3 _ Ha ch e Hch Hin) as (r & after & Hr & Hp & _). unfold chain_salt. rewrite He, Hr.
    pose proof Hr as [_ Er]%at_ix_Ret. destruct (layout_record _ _ Hat) as (r' & id & tn & Er' & _ & Eid & _ & Etn & _). destruct (Forall2_lookup_l _ _ _ _ _ Hnm0 Etn) as (nm & Enm & _).
    assert (r' = r) as -> by congruence. destruct (Hholds _ r p id nm Er Hat Eid Enm) as (rr' & ext & Err' & _ & Hh & _). assert (rr' = rr) as -> by congruence.
    unfold rdata_octets. rewrite (rh_rdata _ _ _ _ _ Hh). unfold rd in Hsl. case_if_in Hsl; [done |]. change (Z.to_nat 4) with 4%nat in Hsl. destruct (rr_rdata rr !! 4%nat) as [x |]; [| done]. injection Hsl as ->.
    unfold slice in Hsalt. case_if_in Hsalt; [| done]. by injection Hsalt.
  - intros k e' Ek. destruct (Hent k e' Ek) as (q & Hq & Eq). exists q. destruct (ao_n3 _ Ha ch e' Hch) as (r & _ & Hr & _); [by eapply list_elem_of_lookup_2 |]. split; [by eapply place_record_rr |].
    apply at_ix_Ret. rewrite Z.sub_0_r in Eq. split; [lia | done].
Qed.

(** The marks of the names. *)
Lemma own_mark id f nm tn g : zone_names a !! id = Some f -> names !! id = Some nm -> tmp !! id = Some tn -> g ∈ own_marks -> has_mark g nm =
  (existsb (fun rr => Nat.eqb (Z.to_nat (rr_name_id rr)) id && (rr_name_flag (im_apex_name img) rr =? g)) rrs ||
    (g =? ZONE_IMAGE_NAME_WILDCARD) && is_wildcard (tn_text tn) || (g =? ZONE_IMAGE_NAME_APEX) && bool_decide (im_apex_name img = Some (Z.of_nat id))) &&
  negb ((g =? ZONE_IMAGE_NAME_CUT) && bool_decide (im_apex_name img = Some (Z.of_nat id))).
Proof.
  intros Ef Enm Etn Hg. destruct (same_lookup_r _ _ _ _ Hsame Enm) as (nm0 & E0 & _). destruct (Forall2_lookup_lr _ _ _ _ _ _ Hnm0 Etn E0) as (_ & Et0 & _ & _ & Ec).
  rewrite (Hmarks g id nm0 nm (own_in_all _ Hg)); [| revert g Hg; by apply own_marks_cases | done | done]. rewrite Et0. unfold has_mark at 1. rewrite Ec.
  destruct (Htmp _ _ Etn) as [Hc _]. rewrite (count_marks (tn_count tn) g); [done | | by apply own_in_all]. split; [rewrite Hc; unfold cnt; lia | by apply (lo_mask _ _ _ _ Hlo id)].
Qed.

Lemma held_marks : bytes apex -> Forall2 (holds_marks a apex) (zone_names a) names.
Proof.
  intros Hb. pose proof (f_equal length (lo_texts _ _ _ _ Hlo)) as Hl. rewrite !length_map in Hl. apply Forall2_same_length_lookup.
  split; [rewrite <- (Forall2_length _ _ _ Hsame), <- (Forall2_length _ _ _ Hnm0); done |]. intros id f nm Ef Enm. destruct (zone_name_back _ _ Ef) as (tn & Etn & En).
  pose proof (own_mark id f nm tn) as Hm. pose proof (apex_id id tn Hb Etn) as Hap. rewrite Hap in Hm. symmetry in En.
  assert (forall g, g ∈ own_marks -> forall q, (forall rr r, rr_type rr = type_code r -> rr_class rr = wire_class r -> rr_name_id rr = Z.of_nat id -> (rr_name_flag (im_apex_name img) rr =? g) = q r) ->
    existsb (fun rr => Nat.eqb (Z.to_nat (rr_name_id rr)) id && (rr_name_flag (im_apex_name img) rr =? g)) rrs = zone_has a f q) as Hrec by (intros g _ q; by eapply mark_record).
  assert (zone_has a f (fun _ => false) = false) as Hnone by (apply not_true_is_false; unfold zone_has; intros (r & _ & [_ [=]]%andb_true_iff)%existsb_exists).
  unfold holds_marks. rewrite En. split_and!.
  - rewrite (Hm ZONE_IMAGE_NAME_WILDCARD) by (done || by left). rewrite (Hrec ZONE_IMAGE_NAME_WILDCARD ltac:(by left) (fun _ => false)), Hnone by (intros rr r _ _ _; apply rr_flag_type; by left).
    cbn. by rewrite orb_false_r, andb_true_r.
  - rewrite (Hm ZONE_IMAGE_NAME_APEX) by (done || (unfold own_marks; set_solver)).
    rewrite (Hrec ZONE_IMAGE_NAME_APEX ltac:(unfold own_marks; set_solver) (fun _ => false)), Hnone by (intros rr r _ _ _; apply rr_flag_type; by right). cbn. by rewrite andb_true_r.
  - rewrite (Hm ZONE_IMAGE_NAME_CUT) by (done || (unfold own_marks; set_solver)). rewrite (Hrec ZONE_IMAGE_NAME_CUT ltac:(unfold own_marks; set_solver) (fun r => (type_code r =? 2) && negb (domain_names_match_ci (tn_text tn) apex))).
    2:{ intros rr r Et _ Hid. destruct (rr_flag_type (im_apex_name img) rr ZONE_IMAGE_NAME_CUT) as (_ & _ & _ & -> & _); [| done]. by rewrite Et, Hid, Hap. }
    cbn. rewrite !orb_false_r. destruct (domain_names_match_ci (tn_text tn) apex); cbn [negb andb]; [by rewrite andb_false_r |]. rewrite andb_true_r. apply zone_has_ext. intros r. apply andb_true_r.
  - rewrite (Hm ZONE_IMAGE_NAME_DNAME) by (done || (unfold own_marks; set_solver)). rewrite (Hrec ZONE_IMAGE_NAME_DNAME ltac:(unfold own_marks; set_solver) (fun r => type_code r =? 39));
      [cbn; by rewrite !orb_false_r, andb_true_r |]. intros rr r Et _ _. rewrite <- Et. by apply rr_flag_type.
  - rewrite (Hm ZONE_IMAGE_NAME_NSEC) by (done || (unfold own_marks; set_solver)). rewrite (Hrec ZONE_IMAGE_NAME_NSEC ltac:(unfold own_marks; set_solver) (fun r => type_code r =? 47));
      [cbn; by rewrite !orb_false_r, andb_true_r |]. intros rr r Et _ _. rewrite <- Et. by apply rr_flag_type.
  - rewrite (Hm ZONE_IMAGE_NAME_ALIAS) by (done || (unfold own_marks; set_solver)). rewrite (Hrec ZONE_IMAGE_NAME_ALIAS ltac:(unfold own_marks; set_solver) is_alias);
      [cbn; by rewrite !orb_false_r, andb_true_r |]. intros rr r Et Ec _. unfold is_alias. rewrite <- Et, <- Ec. by apply rr_flag_type.
  - apply eq_iff_eq_true. rewrite (Hgmark id nm Enm), andb_true_iff, (addressed_record _ _ f Etn), (prelinked_target _ _ f Etn), En by done. tauto.
Qed.

(** The flag of restricted SOA records. *)
Lemma apex_match i r id tn : records a !! i = Some r -> ids !! i = Some (Some id) -> tmp !! Z.to_nat id = Some tn -> domain_names_match_ci (tn_text tn) apex = domain_names_match_ci (name_of r) apex.
Proof.
  intros Er Eid Etn. pose proof (owner_match i r id tn Er Eid Etn) as Hm. apply match_ci_relative in Hm. apply eq_iff_eq_true. by rewrite !match_ci_relative, Hm.
Qed.

Lemma apex_record i r id tn : bytes apex -> records a !! i = Some r -> ids !! i = Some (Some id) -> 0 <= id -> tmp !! Z.to_nat id = Some tn ->
  bool_decide (im_apex_name img = Some id) = domain_names_match_ci (name_of r) apex.
Proof. intros Hb Er Eid Hid Etn. rewrite <- (apex_match _ _ _ _ Er Eid Etn), <- (apex_id _ _ Hb Etn). by rewrite Z2Nat.id. Qed.

Lemma held_ext rr ext : ext_in exts 0 rr ext -> (if rr_ext_idx rr =? 0 then None else im_exts img !! Z.to_nat (rr_ext_idx rr - 1)) = ext.
Proof.
  unfold ext_in. rewrite Eexts. destruct ext as [e |]; [| by intros ->]. intros [He1 He2]. rewrite (proj2 (Z.eqb_neq _ _)) by lia. by replace (rr_ext_idx rr - 0 - 1) with (rr_ext_idx rr - 1) in He2 by lia.
Qed.

Lemma limited_ext r nm rr ext : rr_holds loc_rdata r nm rr ext -> ext_restricts ext = is_limited r.
Proof.
  intros Hh. pose proof (rh_view _ _ _ _ _ Hh) as Hv. unfold ext_restricts, is_limited, rec_restricted in *. destruct ext as [e |].
  - destruct Hv as (-> & -> & -> & -> & _). destruct (negb (tinydns_ttd r =? 0)), (negb (fst (tinydns_loc r) =? 0)), (negb (snd (tinydns_loc r) =? 0)), (bool_decide _), (bool_decide _); done.
  - destruct (negb (tinydns_ttd r =? 0)), (tinydns_ttl_countdown r), (negb (fst (tinydns_loc r) =? 0)), (negb (snd (tinydns_loc r) =? 0)), (bool_decide _), (bool_decide _); done.
Qed.

Lemma soa_scan_spec n : forall k b, soa_restricted_scan img n k = Ret b -> b = true <-> exists j rr, k <= j < k + Z.of_nat n /\ at_ix rrs j = Ret rr /\ rr_type rr = 6 /\
  ext_restricts (if rr_ext_idx rr =? 0 then None else im_exts img !! Z.to_nat (rr_ext_idx rr - 1)) = true.
Proof.
  induction n as [| n IH]; intros k b E; cbn [soa_restricted_scan] in E; [injection E as <-; split; [done |]; intros (j & _ & Hj & _); lia |].
  unfold zone_image_rr_type, zone_image_rr_ext, zone_image_rr in E. rewrite Errs in E. destruct (at_ix rrs k) as [rr | | |] eqn:Err; [| done..]. cbn [obind] in E.
  assert (forall b, soa_restricted_scan img n (k + 1) = Ret b ->
    ~ (rr_type rr = 6 /\ ext_restricts (if rr_ext_idx rr =? 0 then None else im_exts img !! Z.to_nat (rr_ext_idx rr - 1)) = true) ->
    b = true <-> exists j rr, k <= j < k + Z.of_nat (S n) /\ at_ix rrs j = Ret rr /\ rr_type rr = 6 /\
      ext_restricts (if rr_ext_idx rr =? 0 then None else im_exts img !! Z.to_nat (rr_ext_idx rr - 1)) = true) as Hnext.
  { intros b' E' Hno. rewrite (IH _ _ E'). split; intros (j & rr' & Hj & Hr & Ht); exists j, rr'; (split; [| done]); [lia |]. destruct (Z.eq_dec j k) as [-> |]; [| lia].
    assert (rr' = rr) as -> by congruence. done. }
  destruct (Z.eqb_spec (rr_type rr) 6) as [Ht | Ht]; cbn [negb] in E; [| apply Hnext; [done |]; by intros [? _]].
  bind_inv E. assert (a0 = if rr_ext_idx rr =? 0 then None else im_exts img !! Z.to_nat (rr_ext_idx rr - 1)) as Ee.
  { destruct (rr_ext_idx rr =? 0); [by injection Ha0 |]. bind_inv Ha0. apply at_ix_Ret in Ha1 as [_ ->]. by injection Ha0. }
  rewrite Ee in E. case_if_in E; [| apply Hnext; [done |]; intros [_ ?]; congruence]. injection E as <-. split; [intros _ | done]. exists k, rr. split_and!; [lia | lia | done | done | done].
Qed.

Lemma held_soa b : bytes apex -> image_soa_restricted img = Ret b ->
  b = existsb (fun r => (type_code (rec r) =? 6) && domain_names_match_ci (name_of r) apex && is_limited (rec r)) (zone_records a).
Proof.
  intros Hb Hsoa. transitivity (existsb (fun rr => (rr_type rr =? 6) && bool_decide (im_apex_name img = Some (rr_name_id rr)) &&
    ext_restricts (if rr_ext_idx rr =? 0 then None else im_exts img !! Z.to_nat (rr_ext_idx rr - 1))) rrs).
  2:{ apply exists_record. intros i r id tn nm rr ext Er Eid Hid Etn Hrid Hh Hext. by rewrite (held_ext _ _ Hext), (limited_ext _ _ _ _ Hh), (rh_type _ _ _ _ _ Hh), Hrid, (apex_record i r id tn). }
  apply eq_iff_eq_true. rewrite existsb_exists. unfold image_soa_restricted in Hsoa. destruct (im_apex_name img) as [n |] eqn:Eap.
  2:{ injection Hsoa as <-. split; [done |]. intros (rr & _ & [[_ Hd]%andb_true_iff _]%andb_true_iff). by apply bool_decide_eq_true in Hd. }
  bind_inv Hsoa. rename a0 into nm, Ha0 into Enm. unfold zone_image_name in Enm. rewrite Enames in Enm. apply at_ix_Ret in Enm as [Hn Enm].
  destruct (name_in ids tmp names0 names rrs [] Htmp (lo_mask _ _ _ _ Hlo) Hnm0 Hsame _ _ Enm) as (tn & Etn & _ & _ & Hfirst & Hcnt). destruct (Htmp _ _ Etn) as [Hc _].
  rewrite (soa_scan_spec _ _ _ Hsoa), Z2Nat.id, Hfirst, Hcnt by (rewrite Hcnt, Hc; unfold cnt; lia). split.
  - intros (j & rr & Hj & Err & Ht & Hx). exists rr. split; [apply list_elem_of_In; by eapply at_ix_elem |]. destruct (place_of_name ids tmp Htmp _ _ j Etn Hj) as (i & Ei & Hp).
    destruct (layout_record i j Hp) as (r & n' & tn' & Er & _ & Eid & Hn' & Etn' & _). rewrite Ei in Eid. injection Eid as <-. destruct (Forall2_lookup_l _ _ _ _ _ Hnm0 Etn') as (nm0 & Enm0 & _).
    destruct (Hholds i r j _ nm0 Er Hp Ei Enm0) as (rr' & ext & Err' & Hrid & _). apply at_ix_Ret in Err as [_ Err]. assert (rr' = rr) as -> by congruence.
    rewrite Ht, Hx, Hrid, bool_decide_true by (f_equal; lia). done.
  - intros (rr & [k Ek]%list_elem_of_In%list_elem_of_lookup_1 & [[Ht%Z.eqb_eq Hd%bool_decide_eq_true]%andb_true_iff Hx]%andb_true_iff). injection Hd as Hd.
    destruct (place_onto ids tmp Htmp (Z.of_nat k)) as [i Hi]; [apply lookup_lt_Some in Ek; lia |]. destruct (place_range ids tmp Hids Htmp _ _ Hi) as (n' & tn' & Eid & Hn' & Etn' & _ & Hr).
    destruct (layout_record _ _ Hi) as (r & _ & _ & Er & _). destruct (Forall2_lookup_l _ _ _ _ _ Hnm0 Etn') as (nm0 & Enm0 & _).
    destruct (Hholds i r _ n' nm0 Er Hi Eid Enm0) as (rr' & ext & Err' & Hrid & _). rewrite Nat2Z.id in Err'. assert (rr' = rr) as -> by congruence. assert (n' = n) as -> by congruence.
    assert (tn' = tn) as -> by congruence. exists (Z.of_nat k), rr. split_and!; [lia | lia | by apply at_ix_nat | done | done].
Qed.

Lemma held_names : Forall2 (fun f nm => nm_text nm = name_of f /\ nm_wire nm = owner_wire (name_of f)) (zone_names a) names.
Proof.
  pose proof (f_equal length (lo_texts _ _ _ _ Hlo)) as Hl. rewrite !length_map in Hl. apply Forall2_same_length_lookup.
  split; [rewrite <- (Forall2_length _ _ _ Hsame), <- (Forall2_length _ _ _ Hnm0); done |]. intros id f nm Ef Enm. destruct (zone_name_back _ _ Ef) as (tn & Etn & <-).
  destruct (same_lookup_r _ _ _ _ Hsame Enm) as (nm0 & E0 & (_ & Ew & Et & _)). destruct (Forall2_lookup_lr _ _ _ _ _ _ Hnm0 Etn E0) as (_ & Et0 & [_ Hw] & _).
  rewrite <- Et, <- Ew, Et0. split; [done |]. unfold owner_wire. by rewrite <- Et0, Hw.
Qed.

Lemma held_perm : match im_perm img with None => grouped (zone_records a) = true | Some l => grouped (zone_records a) = false /\ len l = total tmp end.
Proof.
  rewrite Eperm. unfold file_order. cbv zeta. case_bool_decide as Es; [by apply order_grouped |]. split; [| apply seq_len]. apply not_true_is_false. by intros Hg%order_grouped.
Qed.

(** The flags of the image. *)
Section Flags.
Context (soa : bool) (Hsoa : bytes apex -> soa = existsb (fun r => (type_code (rec r) =? 6) && domain_names_match_ci (name_of r) apex && is_limited (rec r)) (zone_records a)).
Context (Eflags : im_flags img = Z.lor (foldr Z.lor 0 [flag_if (is_tinydns_format a) ZONE_IMAGE_F_TINYDNS; flag_if (negb (len exts =? 0)) ZONE_IMAGE_F_EXT;
  flag_if (existsb (fun r => present r && rec_restricted (rec r)) (records a)) ZONE_IMAGE_F_VIEW; flag_if (existsb (fun nm => is_wildcard (nm_text nm)) names) ZONE_IMAGE_F_WILDCARD;
  flag_if (any_flag (im_apex_name img) ZONE_IMAGE_NAME_DNAME rrs) ZONE_IMAGE_F_DNAME; flag_if (any_flag (im_apex_name img) ZONE_IMAGE_NAME_ALIAS rrs) ZONE_IMAGE_F_ALIAS;
  flag_if (any_flag (im_apex_name img) ZONE_IMAGE_NAME_CUT rrs) ZONE_IMAGE_F_CUT; flag_if (bool_decide (is_Some (im_perm img))) ZONE_IMAGE_F_PERM]) (flag_if soa ZONE_IMAGE_F_SOA_ATTR)).

Lemma flag_if_has b g f : has_flag (flag_if b g) f = b && has_flag g f.
Proof. by destruct b. Qed.

Lemma held_tinydns : has_flag (im_flags img) ZONE_IMAGE_F_TINYDNS = is_tinydns_format a.
Proof. rewrite Eflags. cbn [foldr]. rewrite !has_flag_lor, !flag_if_has. cbn. rewrite !andb_false_r, andb_true_r. cbn [orb]. by rewrite !orb_false_r. Qed.

Lemma held_flags : bytes apex -> holds_flags a apex (im_flags img).
Proof.
  intros Hb. unfold holds_flags. rewrite Eflags. cbn [foldr]. rewrite !has_flag_lor, !flag_if_has. cbn. rewrite !andb_false_r, !andb_true_r. cbn [orb]. rewrite !orb_false_r. split_and!.
  - rewrite <- (Permutation_length Hexts). by destruct exts.
  - unfold zone_records. clear. induction (records a) as [| r rs IH]; [done |]. cbn [existsb List.filter]. destruct (present r); cbn [andb orb existsb]; by rewrite IH.
  - clear -Hsame Hnm0 Hlo. pose proof held_names as Hn. revert Hn. generalize (zone_names a) names. induction 1 as [| f nm fs nms [Ht _] _ IH]; [done |]. cbn [existsb]. by rewrite Ht, IH.
  - apply exists_record. intros i r id tn nm rr ext _ _ _ _ _ Hh _. rewrite <- (rh_type _ _ _ _ _ Hh). by apply rr_flag_type.
  - apply exists_record. intros i r id tn nm rr ext _ _ _ _ _ Hh _. unfold is_alias. rewrite <- (rh_type _ _ _ _ _ Hh), <- (rh_class _ _ _ _ _ Hh). by apply rr_flag_type.
  - apply exists_record. intros i r id tn nm rr ext Er Eid Hid Etn Hrid Hh _. rewrite <- (rh_type _ _ _ _ _ Hh), <- (apex_record i r id tn) by done. rewrite <- Hrid. by apply rr_flag_type.
  - pose proof held_perm as Hp. destruct (im_perm img) as [l |]; [by destruct Hp as [-> _] | by rewrite Hp].
  - by apply Hsoa.
Qed.

Lemma held_record k r : zone_records a !! k = Some r ->
  exists p rr ext nm, zone_image_seq_rr img (Z.of_nat k) = Ret p /\ zone_image_rr img p = Ret rr /\ zone_image_rr_ext img p = Ret ext /\
    zone_image_name img (rr_name_id rr) = Ret nm /\ domain_names_match_ci (nm_text nm) (name_of r) = true /\ rr_holds loc_rdata (rec r) nm rr ext.
Proof.
  destruct (file_order_lookup _ _ rec_rr_present) as [Hcount Hfile]. intros Hk. destruct (Hfile k r Hk) as (i & p & Er & Ep & El). assert (place ids tmp i = Some p) as Hp.
  { unfold rec_rr in Ep. change (map ?f ?l) with (f <$> l) in Ep. rewrite list_lookup_fmap in Ep. destruct (seq 0 (length ids) !! i) as [j |] eqn:Ej; [| done].
    apply lookup_seq in Ej as [-> _]. by injection Ep. }
  destruct (layout_record i p Hp) as (r' & id & tn & Er' & Hpr & Eid & Hid & Etn & Ek). assert (r' = r) as -> by congruence.
  destruct (Forall2_lookup_l _ _ _ _ _ Hnm0 Etn) as (nm & Enm & (_ & Ht & _)). destruct (same_lookup _ _ _ _ Hsame Enm) as (nm' & Enm' & Hsm). pose proof Hsm as (_ & _ & Ht' & _).
  destruct (Hholds i r p id nm Er Hp Eid Enm) as (rr & ext & Err & Hrid & Hh & Hext). exists p, rr, ext, nm'. pose proof (place_bound ids tmp Hids Htmp i p Hp) as Hb.
  assert (zone_image_rr img p = Ret rr) as Hrr by (unfold zone_image_rr; rewrite Errs; apply at_ix_Ret; split; [lia | done]).
  split_and!; [| done | | | |].
  - destruct (seq_rr_lookup img (rec_rr ids tmp) (Z.of_nat k) Eperm) as (q & Eq & El'); [apply lookup_lt_Some in El; lia |]. rewrite Nat2Z.id in El'. congruence.
  - unfold zone_image_rr_ext. rewrite Hrr, Eexts. cbn [obind]. unfold ext_in in Hext. destruct ext as [e |]; [| by rewrite Hext]. destruct Hext as [He1 He2].
    destruct (Z.eqb_spec (rr_ext_idx rr) 0); [lia |]. rewrite (proj2 (at_ix_Ret exts (rr_ext_idx rr - 1) e)); [done |]. split; [lia |]. by replace (rr_ext_idx rr - 0 - 1) with (rr_ext_idx rr - 1) in He2 by lia.
  - unfold zone_image_name. rewrite Enames, Hrid. by apply at_ix_Ret.
  - destruct (ao_names _ Ha r) as [lr Hlr]; [by eapply list_elem_of_lookup_2 | done |]. rewrite <- Ht', Ht. destruct (layout_text _ _ Etn) as (_ & r0 & Hr0 & Hp0 & Hn0).
    destruct (ao_names _ Ha r0) as [l0 Hl0]; [by eapply at_ix_elem | done |]. rewrite Hn0 in Hl0. apply (match_labels _ _ _ _ Hl0 Hlr). unfold key in Ek.
    by rewrite (labels_of_text _ _ Hl0), (labels_of_text _ _ Hlr) in Ek.
  - by eapply rr_holds_same.
Qed.

Lemma held_apex : bytes apex -> match im_apex_name img with
  | Some id => exists nm, zone_image_name img id = Ret nm /\ domain_names_match_ci (nm_text nm) apex = true
  | None => forall r, r ∈ records a -> present r = true -> domain_names_match_ci (name_of r) apex = false
  end.
Proof.
  intros Hb. pose proof (fun i r id tn => apex_record i r id tn Hb) as Hrec. destruct (im_apex_name img) as [id |].
  - destruct (tmp_find_any (records a) (ao_names _ Ha) ix apex (lo_ix _ _ _ _ Hlo) (lo_room _ _ _ _ Hlo)) as (found & Ef & Hrng & Hm). rewrite Eapex in Ef. injection Ef as <-. specialize (Hrng id eq_refl).
    destruct (Hm Hb) as (tn & Etn & Hma). destruct (lo_same _ _ _ _ Hlo _ _ Etn) as [c Ec]. destruct (Forall2_lookup_l _ _ _ _ _ Hnm0 Ec) as (nm & Enm & (_ & Ht & _)).
    destruct (same_lookup _ _ _ _ Hsame Enm) as (nm' & Enm' & (_ & _ & Ht' & _)). exists nm'. unfold zone_image_name. rewrite Enames. split; [apply at_ix_Ret; split; [by apply Hrng | done] |].
    by rewrite <- Ht', Ht.
  - intros r [i Er]%list_elem_of_lookup_1 Hp. destruct (layout_place (Z.of_nat i) r) as [p Hpl]; [by apply at_ix_nat | done |]. rewrite Nat2Z.id in Hpl.
    destruct (layout_record i p Hpl) as (r' & id & tn & Er' & _ & En & Hid & Etn & _). assert (r' = r) as -> by congruence. by rewrite <- (Hrec i r id tn Er En Hid Etn).
Qed.

Lemma frozen_holds : holds_zone loc_rdata img a apex.
Proof.
  destruct (file_order_lookup _ _ rec_rr_present) as [Hcount Hfile]. pose proof seq_len as Hlen. pose proof total_present as Htot.
  pose proof held_names as Hnames. split.
  - by rewrite Enames.
  - rewrite Errs. lia.
  - exact held_record.
  - rewrite Errs, Hrrs. intros k k' p Hr Hr' Hk Hk'. destruct (seq_place k p Hk) as (i & Hi & <-); [done |]. destruct (seq_place k' p Hk') as (j & Hj & <-); [done |].
    by rewrite (place_inj ids tmp Hids Htmp i j p Hi Hj).
  - pose proof held_perm as Hp. destruct (im_perm img); [| done]. by rewrite Errs, Hrrs.
  - by rewrite Eexts.
  - exact held_apex.
  - apply Forall2_same_length_lookup. split; [by apply Forall2_length in Hcanon |]. intros k t id Et Ek'. destruct (Forall2_lookup_lr _ _ _ _ _ _ Hcanon Et Ek') as (Hid & tn & Etn & Ek). destruct (Forall2_lookup_l _ _ _ _ _ Hnm0 Etn) as (nm & Enm & (_ & Ht & _)).
    destruct (same_lookup _ _ _ _ Hsame Enm) as (nm' & Enm' & (_ & _ & Ht' & _)). exists nm'. unfold zone_image_name. rewrite Enames. split; [by apply at_ix_Ret |]. rewrite <- Ht', Ht.
    destruct (ao_sorted_in _ Ha t) as (r & Hin & Hp & <-); [by eapply list_elem_of_lookup_2 |]. by apply (match_key _ _ _ Etn).
  - intros i id Hi. destruct (Hranks i id Hi) as (Hid & nm & Enm & Hr). exists nm. unfold zone_image_name. rewrite Enames. split; [by apply at_ix_Ret | done].
  - rewrite Enames. exact held_marks.
  - apply Forall2_same_length_lookup. split; [by apply Forall2_length in Hnsec |]. intros k i p Ei Ep. pose proof (Forall2_lookup_lr _ _ _ _ _ _ Hnsec Ei Ep) as Hat.
    destruct (ao_nsec _ Ha i) as (r & Hr & _); [by eapply list_elem_of_lookup_2 |]. by eapply place_record_rr.
  - apply Forall2_same_length_lookup. split; [by apply Forall2_length in Hchains |]. intros k ch ich Ech Eich. apply held_chain; [by eapply list_elem_of_lookup_2 | exact (Forall2_lookup_lr _ _ _ _ _ _ Hchains Ech Eich)].
  - done.
  - unfold image_params in Eparams. destruct (nsec3_active a) as [p |] eqn:Eact; [| by injection Eparams as <- <- <- _ _]. pose proof (ao_selected _ Ha) as Hsel. rewrite Eact in Hsel.
    destruct (proj1 (selected_in _ _ _ Hsel)) as (r & Hr & Hp). destruct (rr_of_record_spec (records a) ids tmp) with (i := p_param p) (r := r) as (rr & Erec & Hpl);
      [symmetry; exact (Forall2_length _ _ _ (lo_own _ _ _ _ Hlo)) | apply layout_place | done | done |]. rewrite Erec in Eparams. cbn [obind] in Eparams.
    case_if_in Eparams; [done |]. injection Eparams as <- <- <- <- <-. split; [| done]. exists rr. split; [done |]. by eapply place_record_rr.
  - exact held_glue.
  - rewrite Ehash. by rewrite (Forall2_length _ _ _ Hnames).
  - done.
  - exact held_tinydns.
  - exact held_flags.
Qed.

End Flags.

End Held.

(** The marks and ranks that steps 5, 6 and 9 give to the names. *)
Lemma canon_once canon : Forall2 (fun t id => 0 <= id /\ exists tn, tmp !! Z.to_nat id = Some tn /\ key (tn_text tn) = key t) (sorted_unique_names a) canon -> NoDup canon.
Proof.
  intros Hc. assert (forall i j x, (i < j)%nat -> canon !! i = Some x -> canon !! j = Some x -> False) as Hlt.
  { intros i j x Hij Hi Hj. destruct (Forall2_lookup_r _ _ _ _ _ Hc Hi) as (t & Et & _ & tn & Etn & Ek). destruct (Forall2_lookup_r _ _ _ _ _ Hc Hj) as (t' & Et' & _ & tn' & Etn' & Ek').
    assert (tn' = tn) as -> by congruence. pose proof (ao_sorted _ Ha i j t t' Hij Et Et') as Hs. rewrite (canonical_refl (labels_of t) (labels_of t')) in Hs; [done |]. unfold key in *. congruence. }
  apply NoDup_alt. intros i j x Hi Hj. destruct (Nat.lt_total i j) as [? | [? | ?]]; [exfalso; by eapply Hlt | done | exfalso; by eapply Hlt].
Qed.

Section Marks.
Context (names0 names2 names3 : list zone_image_name_t) (rrs : list zone_image_rr_t) (apex_name : option Z) (canon glue : list Z) (Hnm0 : Forall2 names_of tmp names0).
Context (Ecanon : canon_order ix 0 (sorted_unique_names a) (imap (fun i nm => flag_name apex_name (Z.of_nat i) nm) (flag_names apex_name rrs names0)) = Ret (canon, names2)).
Context (Hcanon : Forall2 (fun t id => 0 <= id /\ exists tn, tmp !! Z.to_nat id = Some tn /\ key (tn_text tn) = key t) (sorted_unique_names a) canon).
Context (Eglue : glue_targets ix rrs (records a) [] [] names2 = Ret (glue, names3)).

Lemma marks_back id nm : names3 !! id = Some nm -> exists nm0 nm1 nm2, names0 !! id = Some nm0 /\
  imap (fun i nm => flag_name apex_name (Z.of_nat i) nm) (flag_names apex_name rrs names0) !! id = Some nm1 /\ names2 !! id = Some nm2 /\ nm_rr_count_flags nm2 = nm_rr_count_flags nm1 /\
  nm_canon_rank nm = nm_canon_rank nm2 /\ forall f, f ∈ own_marks -> has_mark f nm = has_mark f nm2.
Proof.
  intros E3. destruct (glue_targets_marks _ _ _ _ _ _ _ _ Eglue) as [Hg _]; [cbn; lia |]. destruct (canon_order_marks _ _ _ _ _ _ Ecanon (canon_once _ Hcanon)) as (Hc & _).
  destruct (Forall2_lookup_r _ _ _ _ _ Hg E3) as (nm2 & E2 & Hr & Hm). destruct (Forall2_lookup_r _ _ _ _ _ Hc E2) as (nm1 & E1 & Hfl).
  assert (same_names names0 (imap (fun i nm => flag_name apex_name (Z.of_nat i) nm) (flag_names apex_name rrs names0))) as Hs by (etransitivity; [apply flag_names_same | apply flag_all_same]).
  destruct (same_lookup_r _ _ _ _ Hs E1) as (nm0 & E0 & _). exists nm0, nm1, nm2. by split_and!.
Qed.

Lemma marks_own f id nm0 nm : f ∈ all_marks -> f <> ZONE_IMAGE_NAME_GLUE -> names0 !! id = Some nm0 -> names3 !! id = Some nm -> has_mark f nm =
  (has_mark f nm0 || existsb (fun rr => Nat.eqb (Z.to_nat (rr_name_id rr)) id && (rr_name_flag apex_name rr =? f)) rrs ||
    (f =? ZONE_IMAGE_NAME_WILDCARD) && is_wildcard (nm_text nm0) || (f =? ZONE_IMAGE_NAME_APEX) && bool_decide (apex_name = Some (Z.of_nat id))) &&
  negb ((f =? ZONE_IMAGE_NAME_CUT) && bool_decide (apex_name = Some (Z.of_nat id))).
Proof.
  intros Hf Hne E0 E3. destruct (marks_back id nm E3) as (nm0' & nm1 & nm2 & E0' & E1 & E2 & Hfl & _ & Hm). apply elem_of_cons in Hf as [? | Hf]; [done |].
  destruct (step5_marks apex_name rrs names0 id nm0 f (own_in_all _ Hf) E0) as (nm1' & E1' & <-). assert (nm1' = nm1) as -> by congruence. rewrite (Hm f Hf). unfold has_mark. by rewrite Hfl.
Qed.

Lemma marks_glue id nm : names3 !! id = Some nm -> has_mark ZONE_IMAGE_NAME_GLUE nm = true <-> addressed rrs names0 (Z.of_nat id) /\ prelinked ix [] (records a) (Z.of_nat id).
Proof.
  intros E3. destruct (marks_back id nm E3) as (nm0 & nm1 & nm2 & E0 & E1 & E2 & Hfl & _). destruct (glue_targets_marks _ _ _ _ _ _ _ _ Eglue) as [_ Hg]; [cbn; lia |].
  rewrite (Hg id nm2 nm E2 E3). assert (same_names names0 names2) as Hs.
  { etransitivity; [etransitivity; [apply (flag_names_same apex_name rrs) | apply (flag_all_same apex_name)] |].
    clear -Ecanon. revert Ecanon. generalize (imap (fun i nm => flag_name apex_name (Z.of_nat i) nm) (flag_names apex_name rrs names0)) 0. revert canon. induction (sorted_unique_names a) as [| t l IH]; intros canon nms i E; cbn [canon_order] in E.
    - by injection E as _ <-.
    - bind_inv E. destruct a0 as [n |]; [| done]. bind_inv E. destruct a0 as [c n']. injection E as _ <-. etransitivity; [| by eapply IH]. by apply same_alter. }
  rewrite <- (addressed_same rrs _ _ _ Hs). assert (has_mark ZONE_IMAGE_NAME_GLUE nm2 = false) as ->.
  { destruct (step5_marks apex_name rrs names0 id nm0 ZONE_IMAGE_NAME_GLUE ltac:(by left) E0) as (nm1' & E1' & Hm). assert (nm1' = nm1) as -> by congruence. unfold has_mark at 1. rewrite Hfl. fold (has_mark ZONE_IMAGE_NAME_GLUE nm1).
    rewrite Hm. destruct (Forall2_lookup_r _ _ _ _ _ Hnm0 E0) as (tn & Etn & (_ & _ & _ & _ & Ec)). unfold has_mark. rewrite Ec. destruct (Htmp _ _ Etn) as [Hc _].
    rewrite (count_marks (tn_count tn) ZONE_IMAGE_NAME_GLUE); [| split; [rewrite Hc; unfold cnt; lia | by apply (lo_mask _ _ _ _ Hlo id)] | by left].
    cbn [orb andb Z.eqb]. replace (existsb _ rrs) with false; [done |]. symmetry. apply not_true_is_false. intros (rr & _ & [_ Hfl']%andb_true_iff)%existsb_exists. apply Z.eqb_eq in Hfl'.
    unfold rr_name_flag in Hfl'. repeat case_if_in Hfl'; done. }
  split; [by intros [? | ?] | by right].
Qed.

Lemma marks_rank i id : at_ix canon i = Ret id -> 0 <= id /\ exists nm, names3 !! Z.to_nat id = Some nm /\ nm_canon_rank nm = Some i.
Proof.
  intros [Hi E]%at_ix_Ret. destruct (Forall2_lookup_r _ _ _ _ _ Hcanon E) as (t & _ & Hid & tn & Etn & _). split; [done |].
  destruct (canon_order_marks _ _ _ _ _ _ Ecanon (canon_once _ Hcanon)) as (_ & Hr & _). destruct (Forall2_lookup_l _ _ _ _ _ Hnm0 Etn) as (nm0 & E0 & _).
  assert (same_names names0 (imap (fun i nm => flag_name apex_name (Z.of_nat i) nm) (flag_names apex_name rrs names0))) as Hs by (etransitivity; [apply flag_names_same | apply flag_all_same]).
  destruct (same_lookup _ _ _ _ Hs E0) as (nm1 & E1 & _). destruct (Hr _ _ _ E E1 Hid) as (nm2 & E2 & Hrk).
  { intros x [k Hk]%list_elem_of_lookup_1. by destruct (Forall2_lookup_r _ _ _ _ _ Hcanon Hk) as (_ & _ & ? & _). }
  destruct (glue_targets_marks _ _ _ _ _ _ _ _ Eglue) as [Hg _]; [cbn; lia |]. destruct (Forall2_lookup_l _ _ _ _ _ Hg E2) as (nm & E3 & Hr3 & _). exists nm. split; [done |]. rewrite Hr3, Hrk. f_equal. lia.
Qed.

End Marks.

(** No name has too many records. *)
Lemma names_acceptable t : len (List.filter (fun r => present r && domain_names_match_ci t (name_of r)) (records a)) <= ZONE_IMAGE_NAME_COUNT_MASK.
Proof.
  destruct (List.filter (fun r => present r && domain_names_match_ci t (name_of r)) (records a)) as [| r0 l] eqn:Ef; [cbn; unfold ZONE_IMAGE_NAME_COUNT_MASK; lia |].
  assert (r0 ∈ records a /\ present r0 && domain_names_match_ci t (name_of r0) = true) as [Hin [Hp Hm]%andb_true_iff].
  { apply (filter_elem (fun r => present r && domain_names_match_ci t (name_of r))). rewrite Ef. left. }
  apply list_elem_of_lookup in Hin as [i Er]. destruct (layout_place (Z.of_nat i) r0) as [p Hpl]; [by apply at_ix_nat | done |]. rewrite Nat2Z.id in Hpl.
  destruct (layout_record i p Hpl) as (r & id & tn & Er' & _ & _ & _ & Etn & Ek). assert (r = r0) as -> by congruence. rewrite <- Ef.
  destruct (layout_text _ _ Etn) as (_ & r1 & Hr1 & Hp1 & Hn1). destruct (ao_names _ Ha r1) as [l1 Hl1]; [by eapply at_ix_elem | done |]. rewrite Hn1 in Hl1.
  destruct (ao_names _ Ha r0) as [l0 Hl0]; [by eapply list_elem_of_lookup_2 | done |].
  assert (domain_names_match_ci (tn_text tn) (name_of r0) = true) as Hm1.
  { apply (match_labels _ _ _ _ Hl1 Hl0). unfold key in Ek. by rewrite (labels_of_text _ _ Hl1), (labels_of_text _ _ Hl0) in Ek. }
  assert (forall x, domain_names_match_ci t x = domain_names_match_ci (tn_text tn) x) as Hx.
  { apply match_ci_relative in Hm, Hm1. intros x. apply eq_iff_eq_true. rewrite !match_ci_relative. by rewrite Hm, Hm1. }
  rewrite (List.filter_ext _ (fun r => present r && domain_names_match_ci (tn_text tn) (name_of r))) by (intros x; by rewrite Hx). rewrite <- (cnt_filter tmp (records a) ids (Z.to_nat id) tn l1); [| by apply Hlo | by apply (ao_names _ Ha) | done | done | apply layout_distinct].
  destruct (Htmp _ _ Etn) as [<- _]. by eapply (lo_mask _ _ _ _ Hlo).
Qed.

Lemma params_step : exists q, image_params (rec_rr ids tmp) a = Ret q.
Proof.
  unfold image_params. destruct (nsec3_active a) as [p |] eqn:Ep; [| by eexists]. pose proof (ao_selected _ Ha) as Hsel. rewrite Ep in Hsel.
  destruct (selected_in _ _ _ Hsel) as [(r & Hr & Hp) Hc].
  destruct (rr_of_record_spec (records a) ids tmp) with (i := p_param p) (r := r) as (rr & -> & _);
    [symmetry; exact (Forall2_length _ _ _ (lo_own _ _ _ _ Hlo)) | apply layout_place | done | done |]. cbn [obind].
  destruct (p_chain p) as [c |]; [| by eexists]. specialize (Hc c eq_refl). rewrite (proj2 (Z.ltb_ge c 0)), (proj2 (Z.leb_gt _ _)) by lia. by eexists.
Qed.

End Freeze.

(** ** Lemmas: the whole freeze *)

Section Whole.
Context `{InetPton, EvpBase64} (loc_rdata : list (list Z) -> option (list Z)).
Context (Hloc : forall rdata d, loc_rdata rdata = Some d -> bytes d /\ length d = 16%nat).
Context (a : zone_arena_t) (apex : list Z) (Ha : arena_ok a) (Hstored : forall r, r ∈ records a -> record_stored (rec r)).

Definition frozen (o : outcome zone_image_t) : Prop :=
  (o = Fail /\ refusal loc_rdata a) \/
  exists img, o = Ret img /\ image_ok img /\ holds_zone loc_rdata img a apex /\ acceptable loc_rdata a /\ zone_image_size loc_rdata a <= 4294963200.

Lemma frozen_refused : refusal loc_rdata a -> frozen Fail.
Proof. by left. Qed.

(** The last step: the size and the flag of the SOA records. *)
Lemma flags_size img f : image_size (with_flags img f) = image_size img.
Proof. unfold image_size, with_flags. cbn. reflexivity. Qed.

Lemma frozen_close img f : acceptable loc_rdata a -> image_ok img -> image_ok (with_flags img f) -> (forall id, im_apex_name img = Some id -> 0 <= id < len (im_names img)) ->
  (forall b, image_soa_restricted img = Ret b -> holds_zone loc_rdata (if b then with_flags img f else img) a apex) ->
  frozen (fail_if IMG_MAX_SIZE <? image_size img ;; let! restricted := image_soa_restricted img in Ret (if restricted then with_flags img f else img)).
Proof.
  intros Hacc Hok Hokf Hapex Hh. destruct (soa_restricted_defined img Hok Hapex) as [b Eb]. specialize (Hh b Eb). pose proof (held_size _ _ _ _ Hh) as Hsz.
  replace (image_size (if b then with_flags img f else img)) with (image_size img) in Hsz by (destruct b; [by rewrite flags_size | done]). rewrite Hsz. unfold IMG_MAX_SIZE.
  destruct (Z.ltb_spec 4294963200 (zone_image_size loc_rdata a)); [apply frozen_refused; by apply TooLarge |]. rewrite Eb. cbn [obind]. right. exists (if b then with_flags img f else img).
  split; [reflexivity |]. split; [by destruct b |]. split; [exact Hh |]. by split.
Qed.

Lemma freeze_spec : frozen (zone_image_freeze loc_rdata a apex).
Proof.
  unfold zone_image_freeze. destruct (Z.leb_spec 2147483647 (len (records a))); [apply frozen_refused; by apply TooManyRecords |].
  pose proof (validate_pdns_defined loc_rdata Hloc (records a) Hstored) as Hv. destruct Hv as [Hv1 Hv2]; [lia |].
  destruct (validate_zone_pdns_types loc_rdata (records a)) as [[] | | |] eqn:Ev; try done; [| apply frozen_refused; by apply RulesBroken]. cbn [obind].
  destruct (layout_spec (records a) (ao_names _ Ha)) as (ix & ids & -> & Hcur); [lia |]. cbn [obind].
  destruct Hcur as [[-> (t & Ht)] | (tmp & -> & Hlo)]; [apply frozen_refused; by apply (CrowdedName _ _ t) |]. cbn [obind].
  destruct (records_step loc_rdata Hloc a Ha Hstored ix ids tmp Hlo) as (rr_rec & names0 & -> & -> & Hn0 & Hrrs). cbn [obind].
  destruct (tmp_find_spec (records a) (ao_names _ Ha) ix apex (lo_ix _ _ _ _ Hlo) (lo_room _ _ _ _ Hlo)) as (apex_id & Eapex & Hrange & _). rewrite Eapex. cbn [obind].
  destruct Hrrs as [[-> (r & Hin & Hp & Hbad)] | (rrs & exts & -> & Hlr & Hexts & Hholds)]; [apply frozen_refused; by apply (NoWireForm _ _ r) |]. cbn [obind].
  set (names1 := imap _ _). assert (same_names names0 names1) as Hs1 by (etransitivity; [apply flag_names_same | apply flag_all_same]).
  pose proof (Forall2_length _ _ _ (lo_own _ _ _ _ Hlo)) as Hlids. pose proof (Forall2_length _ _ _ Hs1) as Hl1. pose proof (Forall2_length _ _ _ Hn0) as Hl0.
  assert (forall r, r ∈ records a -> present r = true -> exists id tn, ix_names ix !! id = Some tn /\ key (tn_text tn) = key (name_of r)) as Hall.
  { intros r [i Er]%list_elem_of_lookup_1 Hp. destruct (layout_place a ix ids tmp Hlo (Z.of_nat i) r) as [p Hpl]; [by apply at_ix_nat | done |]. rewrite Nat2Z.id in Hpl.
    destruct (layout_record a ix ids tmp Hlo i p Hpl) as (r' & id & tn & Er' & _ & _ & _ & Etn & Ek). assert (r' = r) as -> by congruence.
    destruct (lo_back _ _ _ _ _ _ Hlo Etn) as (tn0 & c & E0 & ->). by exists (Z.to_nat id), tn0. }
  destruct ((len (sorted_unique_names a) =? 0) && (0 <? len names1)) eqn:Enone.
  { exfalso. apply andb_true_iff in Enone as [E0%Z.eqb_eq E1%Z.ltb_lt]. destruct (lookup_lt_is_Some_2 tmp 0) as [tn Etn]; [lia |].
    destruct (layout_text a ix ids tmp Hlo 0 tn Etn) as (_ & r & Hr & Hp & _). destruct (ao_sorted_all _ Ha r) as (t & Ht & _); [by eapply at_ix_elem | done |].
    destruct (sorted_unique_names a); [by apply elem_of_nil in Ht | cbn [length] in E0; lia]. }
  destruct (canon_order_spec (records a) (ao_names _ Ha) ix (sorted_unique_names a) (lo_ix _ _ _ _ Hlo) (lo_room _ _ _ _ Hlo) (ao_sorted_in _ Ha) Hall 0 names1) as (canon & names2 & Ecanon & Hs2 & Hcanon). rewrite Ecanon. cbn [obind].
  assert (forall i r, record_at (records a) i = Ret r -> present r = true -> exists p, place ids tmp (Z.to_nat i) = Some p) as Hplace by (by apply (layout_place a ix)).
  destruct (rrs_of_records_spec (records a) ids tmp (eq_sym Hlids) Hplace (nsec_records a)) as (nsec & -> & Hnsec).
  { intros i Hi. destruct (ao_nsec _ Ha i Hi) as (r & Hr & Hn). exists r. split; [done |]. unfold is_nsec in Hn. by destruct (present r). }
  cbn [obind].
  destruct (image_chains_spec (records a) ids tmp (eq_sym Hlids) Hplace rrs (nsec3_chains a)) with (first := 0) as [[-> (ch & e & p & rr & Hch & He & Hpl & Err & Hbad)] | (chains & entries & -> & Hchains & Hentries)].
  { intros p Hp. destruct (place_onto ids tmp (lo_tmp _ _ _ _ Hlo) p Hp) as [i Hi]. destruct (layout_record a ix ids tmp Hlo i p Hi) as (r & id & tn & Er & _ & Eid & _ & Etn & _).
    destruct (Forall2_lookup_l _ _ _ _ _ Hn0 Etn) as (nm & Enm & _). destruct (Hholds i r p id nm Er Hi Eid Enm) as (rr & ext & Err & _ & Hh & _). exists rr. split; [done |]. by apply (rh_octets _ _ _ _ _ Hh). }
  { apply (place_bound ids tmp (lo_ids _ _ _ _ Hlo) (lo_tmp _ _ _ _ Hlo)). }
  { intros ch Hch. split; [by apply (ao_n3_entries _ Ha) |]. intros e He. destruct (ao_n3 _ Ha ch e Hch He) as (r & after & Hr & Hp & _). by exists r. }
  { apply frozen_refused. destruct (layout_record a ix ids tmp Hlo _ p Hpl) as (r & id & tn & Er & Hp & Eid & _ & Etn & _). destruct (Forall2_lookup_l _ _ _ _ _ Hn0 Etn) as (nm & Enm & _).
    destruct (Hholds _ r p id nm Er Hpl Eid Enm) as (rr' & ext & Err' & _ & Hh & _). assert (rr' = rr) as -> by congruence.
    apply (BrokenNsec3 _ _ ch e r (rr_rdata rr)); [done | done | | by apply (rh_rdata _ _ _ _ _ Hh) | done].
    destruct (c_entries ch) as [| e' es] eqn:Ee; [done |]. injection He as ->. destruct (ao_n3 _ Ha ch e Hch) as (r' & after & Hr' & _); [rewrite Ee; left |].
    pose proof Hr' as [_ Hr'']%at_ix_Ret. rewrite Hr'. f_equal. congruence. }
  cbn [obind]. destruct (params_step a Ha ix ids tmp Hlo) as [[[[[n3_param_rr n3_chain] n3_salt] n3_iterations] n3_algorithm] Eparams]. rewrite Eparams. cbn [obind].
  assert (same_names names0 names2) as Hs02 by (by etransitivity). destruct (names_range a ix ids tmp Hlo names0 names2 rrs Hn0 Hs02 Hlr) as [Hl2 Hr2].
  destruct (glue_targets_spec (records a) (ao_names _ Ha) ix rrs (lo_ix _ _ _ _ Hlo) (lo_room _ _ _ _ Hlo) (records a) [] [] names2 Hl2 Hr2) as (glue & names3 & Eglue & Hs3 & Hglue). rewrite Eglue. cbn [obind].
  assert (same_names names0 names3) as Hs03 by (by etransitivity). pose proof (Forall2_length _ _ _ Hs03) as Hl3.
  destruct (fill_names_total names3) as (tab & -> & Htab & Hroom & Hslots).
  { pose proof (lo_count _ _ _ _ Hlo). pose proof (lo_length _ _ _ _ Hlo). lia. }
  cbn [obind]. cbv zeta. set (img := Image _ _ _ _ _ _ _ _ _ _ _ _ _ _ _ _ _ _).
  assert (Forall2 (fun t id => 0 <= id /\ exists tn, tmp !! Z.to_nat id = Some tn /\ key (tn_text tn) = key t) (sorted_unique_names a) canon) as Hcanon'.
  { eapply Forall2_impl; [exact Hcanon |]. intros t id (Hid & tn & Etn & Ek). split; [done |]. destruct (lo_same _ _ _ _ Hlo _ _ Etn) as [c Ec]. by exists (set_cursor c tn). }
  assert (NoDup glue /\ forall id, id ∈ glue <-> (id ∉ ([] : list Z)) /\ pointed ix (records a) id /\ addressed rrs names0 id) as Hglue0.
  { destruct Hglue as [Hnd Hg]. split; [done |]. intros id. by rewrite Hg, <- (addressed_same rrs _ _ id Hs02). }
  apply (frozen_close img).
  - split; [done | done | by apply (names_acceptable a Ha ix ids tmp Hlo) | |].
    + intros r [i Er]%list_elem_of_lookup_1 Hp. destruct (Hplace (Z.of_nat i) r) as [p Hpl]; [by apply at_ix_nat | done |]. rewrite Nat2Z.id in Hpl.
      destruct (layout_record a ix ids tmp Hlo i p Hpl) as (r' & id & tn & Er' & _ & Eid & _ & Etn & _). assert (r' = r) as -> by congruence.
      destruct (Forall2_lookup_l _ _ _ _ _ Hn0 Etn) as (nm & Enm & _). destruct (Hholds i r p id nm Er Hpl Eid Enm) as (rr & ext & _ & _ & Hh & _). by rewrite (rh_rdata _ _ _ _ _ Hh).
    + intros ch e r d [k Hk]%list_elem_of_lookup_1 He Hr Hd. destruct (Forall2_lookup_l _ _ _ _ _ Hchains Hk) as (ich & _ & _ & _ & _ & _ & (e' & p & rr & sl & He' & Hpl & Err & Esl & Hsl) & _).
      assert (e' = e) as -> by congruence. apply at_ix_Ret in Hr as [_ Er]. destruct (layout_record a ix ids tmp Hlo _ p Hpl) as (r' & id & tn & Er' & _ & Eid & _ & Etn & _). assert (r' = r) as -> by congruence.
      destruct (Forall2_lookup_l _ _ _ _ _ Hn0 Etn) as (nm & Enm & _). destruct (Hholds _ r p id nm Er Hpl Eid Enm) as (rr' & ext & Err' & _ & Hh & _). assert (rr' = rr) as -> by congruence.
      pose proof (rh_rdata _ _ _ _ _ Hh) as Hd'. assert (d = rr_rdata rr) as -> by congruence. exists sl. split; [done |]. unfold slice in Hsl. case_if_in Hsl; [lia | done].
  - by eapply (frozen_image_ok loc_rdata a Ha ids tmp names0 names3 rrs exts tab canon nsec entries chains (lo_ids _ _ _ _ Hlo) (lo_tmp _ _ _ _ Hlo) (lo_own _ _ _ _ Hlo)
      (layout_text a ix ids tmp Hlo) (layout_distinct a ix ids tmp Hlo) (lo_mask _ _ _ _ Hlo)).
  - by eapply (frozen_image_ok loc_rdata a Ha ids tmp names0 names3 rrs exts tab canon nsec entries chains (lo_ids _ _ _ _ Hlo) (lo_tmp _ _ _ _ Hlo) (lo_own _ _ _ _ Hlo)
      (layout_text a ix ids tmp Hlo) (layout_distinct a ix ids tmp Hlo) (lo_mask _ _ _ _ Hlo)).
  - intros id E. cbn in E |- *. specialize (Hrange id E). rewrite (lo_length _ _ _ _ Hlo) in Hl0. lia.
  - pose proof (marks_own a Ha ix tmp names0 names2 names3 rrs apex_id canon glue Ecanon Hcanon' Eglue) as Hmarks.
    pose proof (marks_glue a Ha ix ids tmp Hlo names0 names2 names3 rrs apex_id canon glue Hn0 Ecanon Hcanon' Eglue) as Hgmark.
    pose proof (marks_rank a Ha ix tmp names0 names2 names3 rrs apex_id canon glue Hn0 Ecanon Hcanon' Eglue) as Hranks.
    intros b Eb. assert (bytes apex -> b = existsb (fun r => (type_code (rec r) =? 6) && domain_names_match_ci (name_of r) apex && is_limited (rec r)) (zone_records a)) as Hsoa.
    { intros Hb. exact (held_soa loc_rdata a Ha ix ids tmp Hlo names0 names3 rrs exts Hn0 Hs03 Hlr Hholds apex img eq_refl eq_refl eq_refl Hmarks Eapex b Hb Eb). }
    destruct b; eapply (frozen_holds loc_rdata Hloc a Ha Hstored ix ids tmp Hlo names0 names3 rrs exts); try done. exact (eq_sym (Z.lor_0_r _)).
Qed.

End Whole.

End FreezeTop.
