(* ===== verification/ImageWrite.v ===== *)
(** * Writing the records of a zone image

    [image_serialize_rr] (dns_zone_image.c): a record of an image into a
    response, with the names of its RDATA compressed again; and that it writes
    what [serialize_dns_record] writes for the record the image was made
    from. *)

From S2P Require Import Prelude CLib Cidr DnsName NameText WireName Compress ZoneAttr TypeName CanonOrder Edns RdataText Record Svcb RrWrite RrFrame RrSame NameWalk ZoneImage ZoneLookup Denial ZoneArena ZoneTtl ZoneRules ZoneFreeze ZoneIndex FreezeNames FreezeRecords ZoneCheck FreezeSpec FreezeHold FreezeTop.

Module ImageWrite.
Import CLib Cidr DnsName NameText WireName Compress ZoneAttr TypeName CanonOrder Edns RdataText Record Svcb RrWrite RrFrame RrSame NameWalk ZoneImage ZoneLookup Denial ZoneArena ZoneTtl ZoneRules ZoneFreeze ZoneIndex FreezeNames FreezeRecords ZoneCheck FreezeSpec FreezeHold FreezeTop.

(** ** Operations *)

Section Write.
Variable max_res_len : Z.

Local Abbreviation need := (need max_res_len).
Local Abbreviation out_wire_name := (out_wire_name max_res_len).
Local Abbreviation out_text_name := (out_text_name max_res_len).

(** The owner: in wire form when the image has it, unless the record had none
    and there is no context, or else from the text. *)
Definition image_owner (nm : zone_image_name_t) (ext : option zone_image_ext_t) (rr : zone_image_rr_t) (owner_name : option (list Z))
    (s : list Z * Z * option compress_ctx_t) : outcome (list Z * Z * option compress_ctx_t) :=
  let alt := ext ≫= ext_alt_text in
  let wire := match alt with Some _ => ext ≫= ext_alt_wire | None => nm_wire nm end in
  let text := default (nm_text nm) alt in
  match owner_name, wire with
  | Some n, _ => out_text_name n s
  | None, Some w =>
      if bool_decide (is_Some (snd s)) || negb (has_flag (rr_flags rr) ZONE_IMAGE_RR_NO_NAMEWIRE) then
        match snd s with
        | None => let! wl := wire_name_len w 256 in let! w := slice w 0 wl in out_wire_name w s
        | Some _ => out_wire_name w s
        end
      else out_text_name text s
  | None, None => out_text_name text s
  end.

(** Octets of the RDATA from [pos]. *)
Definition image_octets (rd_ : list Z) (pos n : Z) (s : list Z * Z * option compress_ctx_t) : outcome (list Z * Z * option compress_ctx_t) :=
  let! s := plain (need n) s in
  let! d := slice rd_ pos n in
  plain (out d) s.

(** [n] names of the RDATA from [pos], and the position behind them. *)
Fixpoint image_rdata_names (n : nat) (rd_ : list Z) (pos : Z) (s : list Z * Z * option compress_ctx_t) :
    outcome (list Z * Z * option compress_ctx_t * Z) :=
  match n with
  | O => Ret (s, pos)
  | S n' =>
      fail_if len rd_ <=? pos ;;
      let! wl := wire_name_len (drop (Z.to_nat pos) rd_) (len rd_ - pos) in
      let! w := slice rd_ pos wl in
      let! s := out_wire_name w s in
      image_rdata_names n' rd_ (pos + wl) s
  end.

Definition image_rdata (rr : zone_image_rr_t) (s : list Z * Z * option compress_ctx_t) : outcome (list Z * Z * option compress_ctx_t) :=
  let rd_ := rr_rdata rr in
  let lay := if has_flag (rr_flags rr) ZONE_IMAGE_RR_RAW then None else dns_rdata_name_layout (rr_type rr) in
  match lay with
  | Some (NameLayout _ skip nnames true) =>
      let! s := if skip =? 0 then Ret s else (fail_if len rd_ <? skip ;; image_octets rd_ 0 skip s) in
      let! '(s, pos) := image_rdata_names (Z.to_nat nnames) rd_ skip s in
      if pos <? len rd_ then image_octets rd_ pos (len rd_ - pos) s else Ret s
  | _ => if 0 <? len rd_ then image_octets rd_ 0 (len rd_) s else Ret s
  end.

(** The response, [*offset_ptr] and the context after the call. *)
Definition image_serialize_rr (img : zone_image_t) (rr_idx : Z) (res : list Z) (offset : Z) (ctx : option compress_ctx_t) (owner_name : option (list Z)) (ttl : Z) :
    outcome (list Z * Z * option compress_ctx_t) :=
  let! rr := zone_image_rr img rr_idx in
  let! nm := zone_image_name img (rr_name_id rr) in
  let! ext := zone_image_rr_ext img rr_idx in
  fail_if is_meta_rrtype (rr_type rr) ;;
  fail_if max_res_len <? offset + DNS_HEADER_SIZE ;;
  let! s := image_owner nm ext rr owner_name (res, offset, ctx) in
  let! s := plain (need 10) s in
  let ttl := if 2147483647 <? ttl then 2147483647 else ttl in
  let! s := plain (out (w16 (rr_type rr) ++ w16 (rr_class rr) ++ w32 ttl)) s in
  let '(res, rdlength_idx, ctx) := s in
  let! '(res, offset, ctx) := image_rdata rr (res, u16 (rdlength_idx + 2), ctx) in
  let! res := wr_list res rdlength_idx (w16 (u16 (offset - rdlength_idx - 2))) in
  Ret (res, offset, ctx).

End Write.

(** ** Lemmas: names in the RDATA *)

Lemma wire_len_from_app p rest : forall fuel avail i r, wire_name_len_from fuel p avail i = Ret r -> wire_name_len_from fuel (p ++ rest) avail i = Ret r.
Proof.
  induction fuel as [| fuel IH]; intros avail i r; cbn [wire_name_len_from]; [done |]. case_if; [done |]. destruct (rd p i) as [l | | |] eqn:El; [| done..].
  assert (rd (p ++ rest) i = Ret l) as -> by (rewrite rd_app_l; [done |]; unfold rd in El; case_if_in El; [done |]; destruct (p !! Z.to_nat i) eqn:Ep; [| done]; apply lookup_lt_Some in Ep; cmp_prop; lia).
  cbn [obind]. case_if; [done |]. case_if; [done |]. apply IH.
Qed.

Lemma wire_len_app ls rest avail : Forall label_wf ls -> len (wire_name ls) <= avail -> wire_name_len (wire_name ls ++ rest) avail = Ret (len (wire_name ls)).
Proof. intros Hw Ha. apply wire_len_from_app. by apply wire_name_len_spec. Qed.

Section Equivalence.
Context `{InetPton, EvpBase64}.

Definition wired (n w : list Z) : Prop := bytes n /\ wire_of n = Ret (Some w).

Lemma rdata_names_spec m names ws : Forall2 wired names ws -> forall pre post s, in_range m (fst s) ->
  image_rdata_names m (length names) (pre ++ concat ws ++ post) (len pre) s = let! s := text_names m names s in Ret (s, len pre + len (concat ws)).
Proof.
  induction 1 as [| n w names ws [Hb Hw] _ IH]; intros pre post s Hs; cbn [image_rdata_names text_names length concat obind]; [by rewrite Z.add_0_r |].
  destruct (wire_of_wf n w Hb Hw) as (ls & Ew & Hwf & Hl). pose proof (wire_name_pos ls) as Hp. rewrite <- Ew in Hp.
  assert (len (pre ++ (w ++ concat ws) ++ post) = len pre + len w + len (concat ws ++ post)) as El by (rewrite !length_app; lia). rewrite El.
  rewrite (proj2 (Z.leb_gt _ _)) by lia. rewrite Nat2Z.id, drop_app_length, <- app_assoc. rewrite Ew at 1. rewrite wire_len_app, <- Ew by (done || rewrite <- Ew; lia). cbn [obind].
  rewrite slice_in by (rewrite ?length_app; lia). rewrite !Nat2Z.id, drop_app_length, take_app_length. cbn [obind]. rewrite (wire_text_name m w n s) by done.
  destruct (out_text_name m n s) as [s1 | | |] eqn:E1; [| done..]. apply text_name_keeps in E1; [| done..]. cbn [obind].
  replace (len pre + len w) with (len (pre ++ w)) by (rewrite length_app; lia). rewrite (app_assoc pre w). rewrite IH by done.
  destruct (text_names m names s1) as [s2 | | |]; [| done..]. cbn [obind]. do 2 f_equal. rewrite !length_app. lia.
Qed.

Lemma plain_app m a b s : in_range m (fst s) -> (let! s := plain (add_octets m a) s in plain (add_octets m b) s) = plain (add_octets m (a ++ b)) s.
Proof.
  intros (Ho & Hm & H6). destruct s as [[res off] ctx]. unfold plain. cbn [fst snd] in *. rewrite <- add_app by (cbn [fst snd]; lia). by destruct (add_octets m a (res, off)) as [[? ?] | | |].
Qed.

Lemma rdata_octets_spec m pre d post s : in_range m (fst s) -> image_octets m (pre ++ d ++ post) (len pre) (len d) s = plain (add_octets m d) s.
Proof.
  intros Hs. rewrite <- plain_need_out by done. unfold image_octets. destruct (plain (need m (len d)) s) as [s1 | | |]; [| done..]. cbn [obind].
  rewrite slice_in by (rewrite ?length_app; lia). by rewrite !Nat2Z.id, drop_app_length, take_app_length.
Qed.

(** Octets that are written only when there are some. *)
Lemma octets_if m pre d post s : in_range m (fst s) -> (if 0 <? len d then image_octets m (pre ++ d ++ post) (len pre) (len d) s else Ret s) = plain (add_octets m d) s.
Proof. intros Hs. destruct (Z.ltb_spec 0 (len d)); [by apply rdata_octets_spec |]. destruct d; [by rewrite plain_nil | cbn [length] in *; lia]. Qed.

Lemma text_names_keep m names s s' : in_range m (fst s) -> Forall bytes names -> text_names m names s = Ret s' -> in_range m (fst s').
Proof.
  intros Hs Hb. revert s Hs. induction Hb as [| n names Hn _ IH]; intros s Hs; cbn [text_names]; [by intros [= <-] |]. intros E. bind_inv E. eapply IH, E. by eapply text_name_keeps.
Qed.

(** ** Lemmas: names without a context *)

Lemma text_name_none m n s s' : in_range m (fst s) -> bytes n -> snd s = None -> out_text_name m n s = Ret s' ->
  exists w, wired n w /\ plain (add_octets m w) s = Ret s'.
Proof.
  intros Hs Hb. destruct s as [[res off] ctx]. cbn [snd]. intros -> E. assert (exists w, wire_of n = Ret (Some w)) as [w Hw].
  { destruct Hs as (Ho & Hm & H6). rewrite wire_of_spec by done. unfold out_text_name, write_dns_name_str in E. rewrite write_uncompressed_spec in E by done.
    destruct (text_labels n) as [ls | | |]; [| done..]. cbv zeta in *. unfold written_labels, cased in E. rewrite map_id in E. case_if_in E; [| done]. case_if; [by eexists |]. cmp_prop. lia. }
  exists w. split; [done |]. rewrite <- E. rewrite (text_name_add m w) by done. unfold plain, add_octets. cbn [fst snd]. by case_if.
Qed.

Lemma text_names_none m names : Forall bytes names -> forall s s', in_range m (fst s) -> snd s = None -> text_names m names s = Ret s' ->
  exists ws, Forall2 wired names ws /\ plain (add_octets m (concat ws)) s = Ret s'.
Proof.
  induction 1 as [| n names Hn _ IH]; intros s s' Hs Hc; cbn [text_names]; [intros [= <-]; exists []; split; [constructor | by apply plain_nil] |].
  intros E. bind_inv E. rename a into s1. destruct (text_name_none m n s s1) as (w & Hw & Ew); [done.. |]. destruct (plain_add_keeps m w s s1 Hs Ew) as [Hs1 Hc1].
  destruct (IH s1 s') as (ws & Hws & Es); [done | by rewrite Hc1 | done |]. exists (w :: ws). split; [by constructor |]. cbn [concat]. rewrite <- plain_app by done. by rewrite Ew.
Qed.

Lemma parts_none m pre names post s s' : Forall bytes names -> in_range m (fst s) -> snd s = None -> parts pre names post m s = Ret s' ->
  exists ws, Forall2 wired names ws /\ plain (add_octets m (pre ++ concat ws ++ post)) s = Ret s'.
Proof.
  intros Hb Hs Hc E. unfold parts in E. bind_inv E. rename a into s1. bind_inv E. rename a into s2. destruct (plain_add_keeps m pre s s1) as [Hs1 Hc1]; [done.. |].
  destruct (text_names_none m names Hb s1 s2) as (ws & Hws & Es); [done | by rewrite Hc1 | done |]. exists ws. split; [done |].
  rewrite <- plain_app by done. rewrite Ha. cbn [obind]. rewrite <- plain_app by done. by rewrite Es.
Qed.

(** ** Lemmas: the layout *)

Lemma name_layout_spec t : match dns_rdata_name_layout t with
  | Some (NameLayout _ skip n true) => compressible t = true /\ exists post, parts_layout t = (skip, Z.to_nat n, post)
  | _ => compressible t = false
  end.
Proof.
  unfold dns_rdata_name_layout, g_rdata_name_layout. cbn [List.find lay_type].
  repeat match goal with |- context [?a =? t] => destruct (Z.eqb_spec a t) as [<- |]; [first [done | split; [done | by eexists]] |] end.
  unfold compressible. destruct t as [| t | t]; [done | | done].
  repeat match goal with |- (match ?z with xI _ => _ | xO _ => _ | xH => _ end) = false => destruct z; try done end.
Qed.

(** ** Lemmas: the RDATA of the image *)

Context (loc_rdata : list (list Z) -> option (list Z)).
Context (Hloc : forall rdata d, loc_rdata rdata = Some d -> bytes d /\ length d = 16%nat).

Lemma root_wire : wire_of [DOT] = Ret (Some [0]).
Proof. vm_compute. reflexivity. Qed.

(** Uncompressed RDATA comes from a run without a context. *)
Lemma uncompressed_run pb r d : bytes pb -> len pb = 65535 -> uncompressed_rdata loc_rdata pb 65535 r = Ret d ->
  exists buf s4, len buf = 65535 /\ body loc_rdata 65535 r (buf, 11, None) = Ret s4 /\
    forall D, plain (add_octets 65535 D) (buf, 11, None) = Ret s4 -> d = D.
Proof.
  intros Hb Hl. unfold uncompressed_rdata. rewrite serialize_body. case_if; [done |]. cbn [Z.add Z.ltb]. change (65535 <? 0 + DNS_HEADER_SIZE) with false. cbv iota.
  assert (in_range 65535 (pb, 0)) as Hs by (unfold in_range; cbn [fst snd]; lia).
  unfold out_owner. rewrite (text_name_add 65535 [0] [DOT] pb 0) by (done || apply root_text || apply root_wire). change (65535 <? 0 + len [0]) with false. cbv iota. cbn [obind].
  rewrite plain_need. change (65535 <? snd (fst (splice pb 0 [0], 0 + len [0], @None compress_ctx_t)) + 10) with false. cbv iota. cbn [obind].
  destruct (wire_ttl r 4294967295) as [t | | |]; [| done..]. cbn [obind]. set (buf0 := splice pb 0 [0]). assert (len buf0 = 65535) as Hl0 by (unfold buf0; rewrite length_splice by (cbn [length]; lia); lia).
  unfold plain. assert (length (rr_fixed r t) = 8%nat) as H8 by done.
  assert (out (rr_fixed r t) (buf0, 0 + len [0]) = Ret (splice buf0 1 (rr_fixed r t), 9)) as ->.
  { unfold out. change (0 + len [0]) with 1. rewrite wr_list_splice by lia. cbn [obind]. by rewrite H8. }
  cbn [obind fst snd]. change (u16 (9 + 2)) with 11. set (buf := splice buf0 1 (rr_fixed r t)). assert (len buf = 65535) as H1 by (unfold buf; rewrite length_splice; lia).
  destruct (body loc_rdata 65535 r (buf, 11, None)) as [s4 | | |] eqn:Ebody; [| done..]. cbn [obind]. intros Er. exists buf, s4. split; [done |]. split; [done |].
  intros D ED. unfold plain, add_octets in ED. cbn [fst snd] in ED. destruct (Z.ltb_spec 65535 (11 + len D)) as [| HD]; [done |]. injection ED as <-. cbn [fst snd] in Er. assert (len (splice buf 11 D) = 65535) as H2 by (rewrite length_splice; lia).
  replace (11 + len D - 9 - 2) with (len D) in Er by lia. rewrite (u16_small (len D)) in Er by lia. rewrite wr_list_splice in Er by (cbn [length w16]; lia). cbn [obind] in Er.
  set (buf' := splice (splice buf 11 D) 9 (w16 (len D))) in *. destruct (rd buf' 0) as [f | | |]; [| done..]. cbn [obind] in Er. case_if_in Er; [done |].
  destruct (rd16 buf' 9) as [rdlen | | |] eqn:E16; [| done..]. cbn [obind] in Er. case_if_in Er; [done |]. assert (rdlen = len D) as -> by (cmp_prop; lia).
  assert (slice buf' 11 (len D) = Ret D) as Es; [| congruence]. rewrite slice_in by (unfold buf'; rewrite ?length_splice; cbn [length w16]; lia). f_equal. rewrite Nat2Z.id.
  assert (drop (Z.to_nat 11) buf' = drop (Z.to_nat 11) (splice buf 11 D)) as ->.
  { change (Z.to_nat 11) with (Z.to_nat 9 + 2)%nat. unfold buf'. rewrite <- !drop_drop. rewrite drop_splice by (cbn [length w16]; lia). done. }
  rewrite drop_splice by lia. apply take_app_length.
Qed.

(** The RDATA of the image is written as the record writes it. *)
Lemma image_rdata_plain r d : raw_ok r -> Forall bytes (rdata r) -> cache r = NotCached -> raw r = true \/ compressible (type_code r) = false ->
  uncompressed_rdata loc_rdata packet_buffer 65535 r = Ret d -> forall m s, in_range m (fst s) -> body loc_rdata m r s = plain (add_octets m d) s.
Proof.
  intros Hg Hb Hc Hk Hu m s Hs. destruct packet_buffer_ok as [Hpb Hpl]. destruct (uncompressed_run packet_buffer r d Hpb Hpl Hu) as (buf & s4 & Hl & E4 & HD). clear Hu Hpb Hpl.
  destruct (body_plain loc_rdata Hloc r Hb Hc Hg Hk) as (F & HF & EF). rewrite EF in *. assert (in_range 65535 (buf, 11)) as Hi by (unfold in_range; cbn [fst snd]; lia).
  destruct HF as [(D & _ & HF) | HF].
  - assert (plain (F 65535) (buf, 11, None) = plain (add_octets 65535 D) (buf, 11, None)) as Er by (apply plain_eq, HF; [done | cbn [fst snd]; lia]).
    rewrite Er in E4. rewrite (HD D E4). apply plain_eq, HF; [done |]. destruct Hs. lia.
  - exfalso. unfold plain in E4. destruct (F 65535 (buf, 11)) as [s' | | |] eqn:E; [| done..]. apply (HF 65535 (buf, 11) s'); [done | cbn [snd]; lia | done].
Qed.

Lemma image_rdata_parts r d : Forall bytes (rdata r) -> cache r = NotCached -> raw r = false -> compressible (type_code r) = true ->
  uncompressed_rdata loc_rdata packet_buffer 65535 r = Ret d ->
  exists pre names ws post, d = pre ++ concat ws ++ post /\ Forall2 wired names ws /\ Forall bytes names /\ parts_layout (type_code r) = (len pre, length names, len post) /\
    forall m s, in_range m (fst s) -> body loc_rdata m r s = parts pre names post m s.
Proof.
  intros Hb Hc Hr Hk Hu. destruct packet_buffer_ok as [Hpb Hpl]. destruct (uncompressed_run packet_buffer r d Hpb Hpl Hu) as (buf & s4 & Hl & E4 & HD). clear Hu Hpb Hpl.
  assert (in_range 65535 (buf, 11)) as Hi by (unfold in_range; cbn [fst snd]; lia).
  destruct (body_parts loc_rdata r Hb Hc Hr Hk) as [(pre & names & post & Hp & Hn & HF) | HF]; [| by destruct (HF 65535 (buf, 11, None) s4)].
  rewrite HF in E4 by done. destruct (parts_none 65535 pre names post (buf, 11, None) s4) as (ws & Hws & Es); [done.. |].
  exists pre, names, ws, post. by rewrite (HD _ Es).
Qed.

Lemma image_rdata_body r rr : raw_ok r -> Forall bytes (rdata r) -> cache r = NotCached -> uncompressed_rdata loc_rdata packet_buffer 65535 r = Ret (rr_rdata rr) ->
  rr_type rr = type_code r -> has_flag (rr_flags rr) ZONE_IMAGE_RR_RAW = raw r -> forall m s, in_range m (fst s) -> image_rdata m rr s = body loc_rdata m r s.
Proof.
  intros Hg Hb Hc Hu Ht Hf m s Hs. unfold image_rdata. rewrite Hf, Ht.
  assert (raw r = true \/ compressible (type_code r) = false -> (if 0 <? len (rr_rdata rr) then image_octets m (rr_rdata rr) 0 (len (rr_rdata rr)) s else Ret s) = body loc_rdata m r s) as Hplain.
  { intros Hk. rewrite (image_rdata_plain r (rr_rdata rr)) by done. rewrite <- (octets_if m [] (rr_rdata rr) []) by done. cbn [app]. by rewrite app_nil_r. }
  destruct (raw r) eqn:Hr; [by apply Hplain; left |]. pose proof (name_layout_spec (type_code r)) as Hlay.
  destruct (dns_rdata_name_layout (type_code r)) as [[t skip n [|]] |]; [| by apply Hplain; right..]. destruct Hlay as (Hk & pl & Hlay).
  destruct (image_rdata_parts r (rr_rdata rr)) as (pre & names & ws & post & -> & Hws & Hn & Hp & HF); [done.. |]. rewrite Hlay in Hp. injection Hp as -> -> _. rewrite HF by done. unfold parts.
  assert ((if len pre =? 0 then Ret s else (fail_if len (pre ++ concat ws ++ post) <? len pre ;; image_octets m (pre ++ concat ws ++ post) 0 (len pre) s)) = plain (add_octets m pre) s) as ->.
  { destruct (Z.eqb_spec (len pre) 0); [destruct pre; [by rewrite plain_nil | done] |]. rewrite (proj2 (Z.ltb_ge _ _)) by (rewrite length_app; lia). apply (rdata_octets_spec m [] pre). done. }
  destruct (plain (add_octets m pre) s) as [s1 | | |] eqn:E1; [| done..]. apply plain_add_keeps in E1 as [Hs1 _]; [| done]. cbn [obind].
  rewrite rdata_names_spec by done. destruct (text_names m names s1) as [s2 | | |] eqn:E2; [| done..]. apply text_names_keep in E2; [| done..]. cbn [obind].
  assert (len (pre ++ concat ws ++ post) - (len pre + len (concat ws)) = len post) as El by (rewrite !length_app; lia).
  rewrite El. rewrite <- (octets_if m (pre ++ concat ws) post []) by done. rewrite app_nil_r, <- app_assoc. replace (len (pre ++ concat ws)) with (len pre + len (concat ws)) by (rewrite length_app; lia).
  destruct (Z.ltb_spec 0 (len post)); [rewrite (proj2 (Z.ltb_lt _ _)) by lia | rewrite (proj2 (Z.ltb_ge _ _)) by lia]; done.
Qed.

(** ** Lemmas: the record *)

Lemma image_owner_spec m nm ext rr r owner_name s : in_range m (fst s) -> bytes (owner_text r owner_name) -> name r = default (nm_text nm) (ext ≫= ext_alt_text) ->
  wire_of (name r) = Ret (match ext ≫= ext_alt_text with Some _ => ext ≫= ext_alt_wire | None => nm_wire nm end) ->
  image_owner m nm ext rr owner_name s = out_text_name m (owner_text r owner_name) s.
Proof.
  intros Hs Hb Hn Hw. unfold image_owner, owner_text in *. destruct owner_name as [o |]; [done |]. cbn [default] in *. rewrite <- Hn. destruct (match ext ≫= ext_alt_text with Some _ => _ | None => _ end) as [w |]; [| done].
  case_if; [| done]. pose proof (wire_text_name m w (name r) s Hs Hb Hw) as Ew. destruct (snd s) as [c |] eqn:Ec; [done |]. destruct (wire_of_wf _ _ Hb Hw) as (ls & El & Hwf & Hl).
  assert (wire_name_len w 256 = Ret (len w)) as -> by (rewrite El; apply wire_name_len_spec; [done | rewrite <- El; lia]). cbn [obind]. rewrite slice_in by lia.
  change (Z.to_nat 0) with 0%nat. rewrite Nat2Z.id. cbn [drop]. by rewrite firstn_all.
Qed.

Lemma wire_ttl_max r ov t : wire_ttl r ov = Ret t -> t <= 2147483647.
Proof.
  unfold wire_ttl. intros E. bind_inv E. injection E as <-. set (u := if 2147483647 <? a then _ else _). assert (u <= 2147483647) by (unfold u; case_if; cmp_prop; lia).
  case_if; [| done]. cmp_prop. lia.
Qed.

Lemma image_rr_uncached r nm rr ext : cache r = NotCached -> name_wire r = None -> Forall bytes (rdata r) -> raw_ok r -> rr_holds loc_rdata r nm rr ext ->
  forall m img j res off ctx owner_name ov t, zone_image_rr img j = Ret rr -> zone_image_name img (rr_name_id rr) = Ret nm -> zone_image_rr_ext img j = Ret ext ->
  in_range m (res, off) -> bytes (owner_text r owner_name) -> wire_ttl r ov = Ret t ->
  image_serialize_rr m img j res off ctx owner_name t = serialize_dns_record loc_rdata m res off r ctx owner_name ov.
Proof.
  intros Hc Hnw Hb Hg [Hu _ _ Ht Hcl Hn Hw Hf _] m img j res off ctx owner_name ov t Er En Ee Hs Ho Hv. rewrite serialize_body. unfold image_serialize_rr. rewrite Er. cbn [obind]. rewrite En. cbn [obind].
  rewrite Ee. cbn [obind]. rewrite Ht. case_if; [done |]. case_if; [done |]. rewrite (image_owner_spec m nm ext rr r) by done.
  assert (out_owner m r owner_name (res, off, ctx) = out_text_name m (owner_text r owner_name) (res, off, ctx)) as -> by (unfold out_owner, owner_text; rewrite Hnw; by destruct owner_name).
  destruct (out_text_name m _ _) as [s1 | | |] eqn:E1; [| done..]. apply text_name_keeps in E1; [| done..]. cbn [obind]. rewrite plain_need. destruct (Z.ltb_spec m (snd (fst s1) + 10)); [done |]. cbn [obind].
  rewrite Hv. cbn [obind]. rewrite (proj2 (Z.ltb_ge 2147483647 t)) by (by eapply wire_ttl_max). rewrite Hcl. fold (rr_fixed r t). assert (length (rr_fixed r t) = 8%nat) as H8 by done.
  assert (exists s2, plain (out (rr_fixed r t)) s1 = Ret s2 /\ in_range m (fst s2) /\ snd (fst s2) + 2 <= m) as (s2 & E2 & Hs2 & H2).
  { rewrite <- (plain_eq (add_octets m (rr_fixed r t)) (out (rr_fixed r t)) s1) by (symmetry; apply out_add; [done | lia]).
    destruct s1 as [[res1 off1] ctx1]. unfold plain. cbn [fst snd] in *. destruct (add_octets m (rr_fixed r t) (res1, off1)) as [s2 | | |] eqn:E2; try (unfold add_octets in E2; case_if_in E2; [| done]; cbn [snd] in *; cmp_prop; lia).
    destruct (add_keeps m _ _ _ E1 E2) as [Hk Hl]. destruct s2 as [res2 off2]. eexists. split; [done |]. cbn [fst snd] in *. split; [done | lia]. }
  rewrite E2. cbn [obind]. destruct s2 as [[res2 off2] ctx2]. cbn [fst snd] in *.
  rewrite (image_rdata_body r rr) by (done || (destruct Hs2 as (? & ? & ?); unfold in_range; cbn [fst snd] in *; rewrite u16_small by lia; lia)).
  by destruct (body loc_rdata m r _) as [[[? ?] ?] | | |].
Qed.

(** The record of the zone may have its pre-parsed copies. *)
Lemma uncompressed_cached pb r nw c : len pb = 65535 -> Forall bytes (rdata r) -> cache r = NotCached -> name_wire r = None -> len (rdata r) <> 0 -> wire_of (name r) = Ret nw -> preparse_rdata r = Ret c ->
  uncompressed_rdata loc_rdata pb 65535 (set_cache r nw c) = uncompressed_rdata loc_rdata pb 65535 r.
Proof.
  intros Hpl Hb Hc Hnw Hl Hw Hp. unfold uncompressed_rdata. rewrite (serialize_cached loc_rdata 65535 pb 0 r nw c None (Some [DOT])); try done; [unfold in_range; cbn [fst snd]; lia | apply root_text].
Qed.

Lemma rr_holds_uncached r nw c nm rr ext : Forall bytes (rdata r) -> cache r = NotCached -> name_wire r = None -> len (rdata r) <> 0 -> wire_of (name r) = Ret nw -> preparse_rdata r = Ret c ->
  rr_holds loc_rdata (set_cache r nw c) nm rr ext -> rr_holds loc_rdata r nm rr ext.
Proof.
  intros Hb Hc Hnw Hl Hw Hp [Hu ? ? ? ? ? ? ? ?]. rewrite uncompressed_cached in Hu by (done || apply packet_buffer_ok). by constructor.
Qed.

Lemma image_rr_same r nm rr ext : record_stored r -> raw_ok r -> rr_holds loc_rdata r nm rr ext ->
  forall m img j res off ctx owner_name ov t, zone_image_rr img j = Ret rr -> zone_image_name img (rr_name_id rr) = Ret nm -> zone_image_rr_ext img j = Ret ext ->
  in_range m (res, off) -> bytes (default [] owner_name) -> wire_ttl r ov = Ret t ->
  image_serialize_rr m img j res off ctx owner_name t = serialize_dns_record loc_rdata m res off r ctx owner_name ov.
Proof.
  intros (r0 & Hc & Hw & Hr & Hn & _ & Hpre) Hg Hh m img j res off ctx owner_name ov t Er En Ee Hs Ho Hv. assert (bytes (owner_text r0 owner_name)) as Ho' by (by destruct owner_name).
  destruct Hpre as [-> | [-> | (nw & c & Ew & Ec & -> & Hne)]%preparse_keeps]; [by eapply image_rr_uncached.. |].
  rewrite serialize_cached by done. eapply image_rr_uncached; try done. by eapply rr_holds_uncached.
Qed.

End Equivalence.

End ImageWrite.
