(* ===== verification/ZoneSample.v ===== *)
(** * A small zone

    A zone with an NSEC chain and an NSEC3 chain, indexed and frozen by
    evaluation: the concrete input of the theorems about images. *)

From S2P Require Import Prelude CLib Cidr DnsName NameText WireName Compress ZoneAttr TypeName CanonOrder Edns RdataText Record Svcb RrWrite RrFrame RrParse NameWalk ZoneImage ZoneLookup Denial ZoneArena ZoneTtl ZoneRules ZoneFreeze ZoneIndex FreezeNames FreezeRecords ZoneCheck FreezeSpec FreezeHold FreezeTop.

Module ZoneSample.
Import CLib Cidr DnsName NameText WireName Compress ZoneAttr TypeName CanonOrder Edns RdataText Record Svcb RrWrite RrFrame RrParse NameWalk ZoneImage ZoneLookup Denial ZoneArena ZoneTtl ZoneRules ZoneFreeze ZoneIndex FreezeNames FreezeRecords ZoneCheck FreezeSpec FreezeHold FreezeTop.

Definition ex_rr (n : string) (ttl : Z) (ty : string) (code : Z) (rdata : list string) : arena_record_t :=
  ArenaRecord true (DnsRecord (str n) (fmt_u ttl) (str "IN") 1 (str ty) code ttl (map str rdata) None 0 0 false (0, 0) None None None NotCached).

(** [b.o] has no records of its own; the addresses of [n.o] have different
    TTLs and spellings of the name. *)
Definition ex_records : list arena_record_t := [
  ex_rr "o." 9 "SOA" 6 ["n.o."; "h.o."; "1"; "2"; "3"; "4"; "5"]; ex_rr "o." 9 "NS" 2 ["n.o."]; ex_rr "n.o." 300 "A" 1 ["192.0.2.1"];
  ex_rr "a.b.o." 300 "A" 1 ["192.0.2.3"]; ex_rr "N.o." 60 "A" 1 ["192.0.2.2"];
  ex_rr "n.o." 5 "NSEC" 47 ["o."; "A"]; ex_rr "o." 5 "NSEC" 47 ["a.b.o."; "NS"]; ex_rr "a.b.o." 5 "NSEC" 47 ["n.o."; "A"];
  ex_rr "o." 0 "NSEC3PARAM" 51 ["1"; "0"; "0"; "-"]; ex_rr "80.o." 5 "NSEC3" 50 ["1"; "0"; "0"; "-"; "g0"; "A"];
  ex_rr "20.o." 5 "NSEC3" 50 ["1"; "0"; "0"; "-"; "80"; "A"]; ex_rr "g0.o." 5 "NSEC3" 50 ["1"; "0"; "0"; "-"; "20"; "A"] ].

Definition ex_apex : list Z := str "o.".

Definition ex_builder : zone_arena_t := Arena ex_records false (ZoneTables [] [] [] [] None) [] [] None [].

Definition ex_arena : zone_arena_t.
Proof. let x := eval vm_compute in (match @build_zone_index plain_Qsort ex_builder true with Ret a => a | _ => ex_builder end) in exact x. Defined.

Definition ex_image : zone_image_t.
Proof.
  let x := eval vm_compute in (@zone_image_freeze plain_InetPton plain_EvpBase64 (fun _ => None) ex_arena ex_apex) in lazymatch x with Ret ?img => exact img end.
Defined.

Lemma ex_indexed : @build_zone_index plain_Qsort ex_builder true = Ret ex_arena.
Proof. vm_compute. reflexivity. Qed.

Lemma ex_frozen : @zone_image_freeze plain_InetPton plain_EvpBase64 (fun _ => None) ex_arena ex_apex = Ret ex_image.
Proof. vm_compute. reflexivity. Qed.

(** ** The zone is as the theorems ask *)

(** Decides [canonical_text] of a text. *)
Definition canonical_textb (t : list Z) : bool :=
  match text_labels t with
  | Ret raw =>
      bool_decide (render raw = t) && bool_decide (raw <> []) && forallb (fun l => forallb (fun c => (0 <=? c) && (c <? 256)) l && (len l <=? 63)) raw && normal_labels raw
  | _ => false
  end.

Lemma canonical_textb_sound t : canonical_textb t = true -> canonical_text t (labels_of t).
Proof.
  unfold canonical_textb, labels_of. destruct (text_labels t) as [raw | | |]; try done. rewrite !andb_true_iff, !bool_decide_eq_true. intros [[[Hr Hne] Ho] Hn].
  exists raw. split_and!; [done | done | | done | done]. apply Forall_forall. intros l Hl. rewrite forallb_forall in Ho. apply list_elem_of_In, Ho, andb_true_iff in Hl as [Hb Hl].
  rewrite forallb_forall in Hb. apply Z.leb_le in Hl. split; [| done]. apply Forall_forall. intros c Hc. apply list_elem_of_In, Hb, andb_true_iff in Hc as [H1 H2].
  apply Z.leb_le in H1. apply Z.ltb_lt in H2. unfold isbyte. lia.
Qed.

Definition textb (s : list Z) : bool := forallb (fun c => (0 <? c) && (c <? 256)) s.

Lemma textb_sound s : textb s = true -> cstring s.
Proof.
  unfold textb. rewrite forallb_forall. intros H. apply Forall_forall. intros c Hc. apply list_elem_of_In, H, andb_true_iff in Hc as [H1 H2]. apply Z.ltb_lt in H1, H2. unfold ischar. lia.
Qed.

(** The records are those the loader makes: texts, without copies. *)
Definition plain_recordb (r : arena_record_t) : bool :=
  let x := rec r in
  canonical_textb (name x) && forallb textb (rdata x) && bool_decide (generic_data x = None) && bool_decide (generic_len x = 0) && bool_decide (name_wire x = None) &&
  match cache x with NotCached => true | _ => false end.

Lemma plain_records rs : forallb plain_recordb rs = true ->
  names_ok rs /\ rdata_ok rs /\ forall r, r ∈ rs -> @record_stored plain_InetPton plain_EvpBase64 (rec r).
Proof.
  rewrite forallb_forall. intros H.
  assert (forall r, r ∈ rs -> canonical_text (name_of r) (labels_of (name_of r)) /\ Forall cstring (rdata (rec r)) /\ generic_data (rec r) = None /\ generic_len (rec r) = 0 /\
    name_wire (rec r) = None /\ cache (rec r) = NotCached) as Hr.
  { intros r Hin. apply list_elem_of_In, H in Hin. unfold plain_recordb in Hin. rewrite !andb_true_iff, !bool_decide_eq_true in Hin. destruct Hin as [[[[[H1 H2] H3] H4] H5] H6].
    split_and!; [by apply canonical_textb_sound | | done | done | done | by destruct (cache (rec r))]. apply Forall_forall. intros f Hf. rewrite forallb_forall in H2. apply textb_sound, H2. by apply list_elem_of_In. }
  split_and!.
  - intros r Hin _. destruct (Hr r Hin) as [? _]. by eexists.
  - intros r Hin. by apply Hr.
  - intros r Hin. destruct (Hr r Hin) as (Ht & Hrd & Hg & Hgl & Hw & Hc). exists (rec r). split_and!; [done | done | | | | by left].
    + eapply Forall_impl; [exact Hrd |]. intros f. apply cstring_bytes.
    + by eapply cstring_bytes, canonical_text_chars.
    + split; [rewrite Hgl; lia | by rewrite Hg].
Qed.

Lemma ex_records_ok : names_ok ex_records /\ rdata_ok ex_records.
Proof. destruct (plain_records ex_records) as (? & ? & _); [vm_compute; reflexivity | done]. Qed.

Lemma ex_arena_stored : forall r, r ∈ records ex_arena -> @record_stored plain_InetPton plain_EvpBase64 (rec r).
Proof. apply plain_records. vm_compute. reflexivity. Qed.

#[local] Instance Ret_inj {A} : Inj eq eq (@Ret A).
Proof. by intros x y [= ->]. Qed.

Lemma ex_arena_ok : arena_ok ex_arena.
Proof.
  destruct (@build_index_spec plain_Qsort ex_builder true) as (a & E & Ha & _); [apply ex_records_ok.. |]. rewrite ex_indexed in E. apply (inj Ret) in E. rewrite E. exact Ha.
Qed.

Lemma no_loc (rdata : list (list Z)) (d : list Z) : None = Some d -> bytes d /\ length d = 16%nat.
Proof. done. Qed.

Lemma ex_image_ok : image_ok ex_image /\ @holds_zone plain_InetPton plain_EvpBase64 (fun _ => None) ex_image ex_arena ex_apex.
Proof.
  destruct (@freeze_spec plain_InetPton plain_EvpBase64 (fun _ => None) no_loc ex_arena ex_apex ex_arena_ok ex_arena_stored) as [[E _] | (img & E & Hok & Hh & _)].
  - pose proof (eq_trans (eq_sym ex_frozen) E) as E'. discriminate E'.
  - pose proof (eq_trans (eq_sym ex_frozen) E) as E'. apply (inj Ret) in E'. rewrite E'. exact (conj Hok Hh).
Qed.

(** ** The chains of the zone are linked *)

Lemma owner_of id t : zone_image_name_text ex_image id = Ret t -> canonical_textb t = true -> owner ex_image id (labels_of t).
Proof.
  unfold zone_image_name_text. intros E Ht. bind_inv E. injection E as <-. exists a. split; [done | by apply canonical_textb_sound].
Qed.

Lemma ex_nsec_at i rr id t : at_ix (im_nsec ex_image) i = Ret rr -> zone_image_rr_type ex_image rr = Ret 47 -> zone_image_rr_name ex_image rr = Ret id ->
  zone_image_name_text ex_image id = Ret t -> canonical_textb t = true -> nsec_at ex_image i rr (labels_of t).
Proof. intros H1 H2 H3 H4 H5. split; [done |]. split; [done |]. exists id. split; [done | by apply owner_of]. Qed.

Lemma ex_nsec_next rr r t bitmap : zone_image_rr ex_image rr = Ret r -> rr_type r = 47 -> rr_rdata r = wire_name (labels_of t) ++ bitmap -> canonical_textb t = true ->
  nsec_next ex_image rr (labels_of t).
Proof. intros H1 H2 H3 H4. exists r, bitmap. split_and!; [done | done | done |]. by eapply canonical_text_wire, canonical_textb_sound. Qed.

(** A number below 3. *)
Lemma below_3 i : 0 <= i < 3 -> i = 0 \/ i = 1 \/ i = 2.
Proof. lia. Qed.

Ltac by_eval := vm_compute; reflexivity.

Lemma ex_nsec_linked : nsec_linked ex_image.
Proof.
  intros i rr ls (Hi & _). pose proof (at_ix_lt _ _ _ Hi) as Hr. destruct (below_3 i Hr) as [-> | [-> | ->]]; vm_compute in Hi; injection Hi as <-.
  - exists (labels_of (str "a.b.o.")), 8, (labels_of (str "a.b.o.")). split_and!; [eapply (ex_nsec_next _ _ _ [0; 1; 32]); by_eval | eapply ex_nsec_at; by_eval | done].
  - exists (labels_of (str "n.o.")), 6, (labels_of (str "n.o.")). split_and!; [eapply (ex_nsec_next _ _ _ [0; 1; 64]); by_eval | eapply ex_nsec_at; by_eval | done].
  - exists (labels_of (str "o.")), 2, (labels_of (str "o.")). split_and!; [eapply (ex_nsec_next _ _ _ [0; 1; 64]); by_eval | eapply ex_nsec_at; by_eval | done].
Qed.

Definition ex_chain : zone_image_n3chain_t := ImageChain 0 3 [] 0 1.

Lemma ex_n3_at i rr t hash after : zone_image_n3chain_rr ex_image 0 i = Ret rr -> zone_image_rr_type ex_image rr = Ret 50 -> zone_image_rr_owner ex_image rr = Ret t ->
  strchr DOT t = Some (hash, after) -> n3_at ex_image 0 i rr hash after.
Proof. intros H1 H2 H3 H4. split; [done |]. split; [done |]. by exists t. Qed.

Ltac ex_link rr h :=
  eexists _, _, rr, (str h), (str "o."); split; [by_eval |]; split; [vm_compute; split; discriminate |]; split; [by_eval |];
  split; [apply textb_sound; by_eval |]; split; [eapply ex_n3_at; by_eval | by_eval].

Lemma ex_nsec3_linked : nsec3_linked ex_image 0 ex_chain.
Proof.
  intros i rr hash after Hi (Hrr & _ & t & Ht & Hs). destruct (below_3 i Hi) as [-> | [-> | ->]]; vm_compute in Hrr; injection Hrr as <-;
    vm_compute in Ht; injection Ht as <-; vm_compute in Hs; injection Hs as <- <-; (split; [apply textb_sound; by_eval |]); (split; [done |]).
  - ex_link 9 "80".
  - ex_link 11 "g0".
  - ex_link 10 "20".
Qed.

End ZoneSample.
