(* ===== verification/ZoneProps.v ===== *)
(** * Zones: the theorems

    A zone from the records of the loader to the answers that name lookups and
    proofs of non-existence take from its image: indexing
    ([build_zone_index]), freezing ([zone_image_freeze]), the records as they
    are written ([image_serialize_rr]), lookup
    ([zone_image_find_name]), existence ([name_exists_in_zone]), and the
    records that deny a name ([find_closest_encloser],
    [find_next_closer_name], [find_covering_nsec], [find_matching_nsec3],
    [find_covering_nsec3]). *)

From S2P Require Import Prelude CLib Cidr DnsName NameText WireName Compress ZoneAttr TypeName CanonOrder Edns RdataText Record Svcb RrWrite RrFrame RrSame NameWalk ZoneImage ZoneLookup Denial ZoneArena ZoneTtl ZoneRules ZoneFreeze ZoneIndex FreezeNames FreezeRecords ZoneCheck FreezeSpec FreezeHold FreezeTop ImageWrite ZoneSample.

Module ZoneProps.
Import CLib Cidr DnsName NameText WireName Compress ZoneAttr TypeName CanonOrder Edns RdataText Record Svcb RrWrite RrFrame RrSame NameWalk ZoneImage ZoneLookup Denial ZoneArena ZoneTtl ZoneRules ZoneFreeze ZoneIndex FreezeNames FreezeRecords ZoneCheck FreezeSpec FreezeHold FreezeTop ImageWrite ZoneSample.

(** ** The index *)

(** C23. [build_zone_index] always succeeds on records whose names are names and
    leaves every index right ([arena_ok]): the names without duplicates in the
    canonical order; every NSEC record once, sorted by owner; every NSEC3
    record whose parameters and hash can be read once, in the chain of its
    algorithm, iterations and salt, of which there is one for each, sorted by
    hash; and as the parameters in use those of the first NSEC3PARAM record of
    the highest rank, among the usable ones at the apex, where a closed chain
    of records with the parameters comes before a chain that is not closed and
    that before none, with its chain, and no parameters only when no record is
    usable. The records are those of the zone, with the TTLs of
    [harmonize_rrset_ttls] when it is asked for and otherwise unchanged. *)
Theorem build_zone_index_correct `{Qsort} (a : zone_arena_t) (harmonize_ttls : bool) :
  names_ok (records a) -> rdata_ok (records a) ->
  exists a', build_zone_index a harmonize_ttls = Ret a' /\ arena_ok a' /\ agree_ttl (records a) (records a') /\
    (if harmonize_ttls then harmonize_rrset_ttls (records a) = Ret (records a') else records a' = records a).
Proof. apply build_index_spec. Qed.

Lemma build_zone_index_correct_witness :
  exists a', @build_zone_index plain_Qsort ex_builder true = Ret a' /\ arena_ok a' /\ sorted_unique_names a' = map str ["o."; "20.o."; "80.o."; "a.b.o."; "g0.o."; "n.o."]%string.
Proof.
  destruct (@build_zone_index_correct plain_Qsort ex_builder true) as (a' & E & Ha & _); [exact (proj1 ex_records_ok) | exact (proj2 ex_records_ok) |].
  exists a'. split; [exact E |]. split; [exact Ha |]. pose proof (eq_trans (eq_sym ex_indexed) E) as E'. injection E' as <-. vm_compute. reflexivity.
Defined.

(** ** The image *)

(** C6. The image of an indexed zone is right: when [zone_image_freeze] makes
    one, it satisfies [image_ok], on which the lookups rely, and it holds the
    zone ([holds_zone]): the names in the order of their first records, in file
    order every record of the zone once, with its owner name in its own
    spelling, its RDATA as the writer makes it without compression, its TTL,
    type, class and restrictions, the apex, the names in canonical order, at
    every entry of the NSEC index and of the NSEC3 chains the record of that
    entry, the salt of each chain, the parameters in use with their record, the
    names that have glue, and the attribute tables; and it has the size that
    [zone_image_size] computes from the zone alone. When it makes none, one of
    the reasons of [refusal] holds. It never reads outside an object and always
    ends; memory for it is taken to be there. *)
Theorem zone_image_freeze_correct `{InetPton, EvpBase64} (loc_rdata : list (list Z) -> option (list Z)) (a : zone_arena_t) (apex : list Z) :
  (forall rdata d, loc_rdata rdata = Some d -> bytes d /\ length d = 16%nat) -> arena_ok a -> (forall r, r ∈ records a -> record_stored (rec r)) ->
  (zone_image_freeze loc_rdata a apex = Fail /\ refusal loc_rdata a) \/
  exists img, zone_image_freeze loc_rdata a apex = Ret img /\ image_ok img /\ holds_zone loc_rdata img a apex /\ image_size img = zone_image_size loc_rdata a.
Proof.
  intros Hloc Ha Hs. destruct (freeze_spec loc_rdata Hloc a apex Ha Hs) as [? | (img & E & Hok & Hh & _)]; [by left | right; exists img].
  split_and!; [done | done | done | by eapply held_size].
Qed.

Lemma zone_image_freeze_correct_witness :
  exists img, @zone_image_freeze plain_InetPton plain_EvpBase64 (fun _ => None) ex_arena ex_apex = Ret img /\ image_ok img /\ len (im_rrs img) = 12 /\ len (im_names img) = 6.
Proof.
  destruct (@zone_image_freeze_correct plain_InetPton plain_EvpBase64 (fun _ => None) ex_arena ex_apex no_loc ex_arena_ok ex_arena_stored) as [[E _] | (img & E & Hok & _ & _)].
  - exfalso. pose proof (eq_trans (eq_sym ex_frozen) E) as E'. discriminate E'.
  - exists img. split; [exact E |]. split; [exact Hok |]. pose proof (eq_trans (eq_sym ex_frozen) E) as E'. injection E' as <-. split; reflexivity.
Defined.

(** C7. The refusals of [zone_image_freeze] are exact. It makes no image of a
    zone with too many records, of one that breaks the rules of ALIAS, LUA and
    singleton records, of one with a name that has more records than the
    counter holds, of one with a record that has no wire form, of one whose
    NSEC3 chain starts with a record that is cut before its salt, and of one
    whose image would be longer than 0xFFFFF000 octets, its size being computed
    from the names, records, indexes and tables of the zone
    ([zone_image_size]). Every other zone gets an image, as long as there is
    memory for it. *)
Theorem zone_image_freeze_refusals `{InetPton, EvpBase64} (loc_rdata : list (list Z) -> option (list Z)) (a : zone_arena_t) (apex : list Z) :
  (forall rdata d, loc_rdata rdata = Some d -> bytes d /\ length d = 16%nat) -> arena_ok a -> (forall r, r ∈ records a -> record_stored (rec r)) ->
  zone_image_freeze loc_rdata a apex = Fail <-> ~ acceptable loc_rdata a \/ 4294963200 < zone_image_size loc_rdata a.
Proof.
  intros Hloc Ha Hs. destruct (freeze_spec loc_rdata Hloc a apex Ha Hs) as [[E Hr] | (img & E & Hok & Hh & Hacc & Hsz)]; rewrite E.
  - split; [intros _ | done]. destruct Hr as [Hr | Hr | t Hr | r Hin Hp Hr | ch e r d Hch He Hr Hd Hn | Hsz]; [left | left | left | left | left | by right]; intros [H1 H2 H3 H4 H5].
    + lia.
    + congruence.
    + specialize (H3 t). lia.
    + by destruct (H4 r Hin Hp).
    + destruct Hn. by eapply H5.
  - split; [done |]. intros [Hn | Hn]; [done | lia].
Qed.

(** A zone whose only record has no address. *)
Definition ex_bad_arena : zone_arena_t :=
  Arena [ex_rr "o." 9 "A" 1 ["one.two"]] false (ZoneTables [] [] [] [] None) [] [] None [str "o."].

Lemma ex_bad_ok : arena_ok ex_bad_arena /\ forall r, r ∈ records ex_bad_arena -> @record_stored plain_InetPton plain_EvpBase64 (rec r).
Proof.
  destruct (plain_records (records ex_bad_arena)) as (Hn & Hr & Hs); [vm_compute; reflexivity |]. split; [| exact Hs].
  destruct (@build_index_spec plain_Qsort ex_bad_arena false Hn Hr) as (a & E & Ha & _). assert (@build_zone_index plain_Qsort ex_bad_arena false = Ret ex_bad_arena) as E' by (vm_compute; reflexivity).
  rewrite E' in E. injection E as <-. exact Ha.
Qed.

Lemma zone_image_freeze_refusals_witness : @zone_image_freeze plain_InetPton plain_EvpBase64 (fun _ => None) ex_bad_arena ex_apex = Fail.
Proof.
  apply (@zone_image_freeze_refusals plain_InetPton plain_EvpBase64 (fun _ => None) ex_bad_arena ex_apex no_loc (proj1 ex_bad_ok) (proj2 ex_bad_ok)).
  left. intros Hacc. apply (ac_wire _ _ Hacc (ex_rr "o." 9 "A" 1 ["one.two"])); [left | reflexivity | vm_compute; reflexivity].
Defined.

(** C8. The contract of an image with the writer of records: for every record
    of a zone that was frozen, [image_serialize_rr] of its place in the image
    does what [serialize_dns_record] does with the record itself, with or
    without pre-parsed copies: the same failure, or the same octets, offset and
    compression context, for every message size, owner override and context,
    when it gets the TTL that the record is written with. The RDATA of the
    image is not compressed, and the names in it are compressed when it is
    written. *)
Theorem image_serialize_rr_equivalent `{InetPton, EvpBase64} (loc_rdata : list (list Z) -> option (list Z)) (a : zone_arena_t) (apex : list Z) (img : zone_image_t) (k : nat) (r : arena_record_t) :
  (forall rdata d, loc_rdata rdata = Some d -> bytes d /\ length d = 16%nat) -> arena_ok a -> (forall r, r ∈ records a -> record_stored (rec r)) ->
  zone_image_freeze loc_rdata a apex = Ret img -> List.filter present (records a) !! k = Some r -> (generic_data (rec r) = None -> generic_len (rec r) = 0) ->
  exists p, zone_image_seq_rr img (Z.of_nat k) = Ret p /\
    forall max res offset ctx owner_name override_ttl t, 0 <= offset <= max -> max <= len res -> max <= 65535 -> bytes (default [] owner_name) -> wire_ttl (rec r) override_ttl = Ret t ->
      image_serialize_rr max img p res offset ctx owner_name t = serialize_dns_record loc_rdata max res offset (rec r) ctx owner_name override_ttl.
Proof.
  intros Hloc Ha Hs E Hk Hg. destruct (freeze_spec loc_rdata Hloc a apex Ha Hs) as [[E' _] | (img' & E' & _ & Hh & _)]; [congruence |]. assert (img' = img) as -> by congruence.
  destruct (hz_records _ _ _ _ Hh k r Hk) as (p & rr & ext & nm & Ep & Er & Ee & En & _ & Hr). exists p. split; [done |]. intros max res offset ctx owner_name ov t Ho Hm H6 Hb Ht.
  assert (record_stored (rec r)) as Hst. { apply Hs. apply list_elem_of_lookup_2, list_elem_of_In, filter_In in Hk as [Hin _]. by apply list_elem_of_In. }
  eapply image_rr_same; try done. split; [by apply stored_generic | done].
Qed.

(** The SOA record of the zone, with its two names compressed. *)
Lemma image_serialize_rr_equivalent_witness :
  let c := compress_ctx_init_packet compress_ctx_init in
  exists p r, zone_image_seq_rr ex_image 0 = Ret p /\ records ex_arena !! 0%nat = Some r /\
    image_serialize_rr 128 ex_image p (replicate 128 0) 12 (Some c) None 9 = @serialize_dns_record plain_InetPton plain_EvpBase64 (fun _ => None) 128 (replicate 128 0) 12 (rec r) (Some c) None 4294967295 /\
    exists res c', image_serialize_rr 128 ex_image p (replicate 128 0) 12 (Some c) None 9 = Ret (res, 53, c').
Proof.
  cbv zeta. destruct (records ex_arena !! 0%nat) as [r |] eqn:Er; [| discriminate Er].
  destruct (@image_serialize_rr_equivalent plain_InetPton plain_EvpBase64 (fun _ => None) ex_arena ex_apex ex_image 0 r no_loc ex_arena_ok ex_arena_stored ex_frozen) as (p & Ep & Hp).
  - injection Er as <-. reflexivity.
  - injection Er as <-. reflexivity.
  - exists p, r. split; [exact Ep |]. split; [reflexivity |]. split.
    + apply Hp; [lia | rewrite length_replicate; lia | lia | constructor |]. injection Er as <-. vm_compute. reflexivity.
    + vm_compute in Ep. injection Ep as <-. eexists _, _. vm_compute. reflexivity.
Defined.

(** ** Names *)

(** C9. [zone_image_find_name] finds the number of a name, whatever its case and
    with or without the final dot, exactly when the image has it: the probing
    of the hash table always ends at the name or at a free slot. *)
Theorem zone_image_find_name_correct (img : zone_image_t) (name : list Z) (ls : list (list Z)) :
  image_ok img -> canonical_text name ls ->
  exists r, zone_image_find_name img name = Ret r /\
    match r with
    | Some id => exists ls', owner img id ls' /\ lower ls' = lower ls
    | None => forall id ls', owner img id ls' -> lower ls' <> lower ls
    end.
Proof. intros Hok. by apply find_owner_spec. Qed.

Lemma zone_image_find_name_correct_witness : zone_image_find_name ex_image (str "N.O") = Ret (Some 1) /\ exists ls', owner ex_image 1 ls' /\ lower ls' = lower [str "N"; str "O"].
Proof.
  destruct (zone_image_find_name_correct ex_image (str "N.O") (labels_of (str "N.O")) (proj1 ex_image_ok)) as (r & E & Hr); [apply canonical_textb_sound; vm_compute; reflexivity |].
  assert (zone_image_find_name ex_image (str "N.O") = Ret (Some 1)) as E' by (vm_compute; reflexivity). rewrite E' in E. injection E as <-. split; [exact E' | exact Hr].
Defined.

(** C10. [name_exists_in_zone] says whether a name exists for a client (RFC 4592
    section 2.2): it has a record the client sees, or some name of the zone is
    below it, which the search of the canonical order finds. *)
Theorem name_exists_in_zone_correct (img : zone_image_t) (cl : client_t) (name : list Z) (ls : list (list Z)) :
  image_ok img -> canonical_text name ls ->
  exists b, name_exists_in_zone img cl name = Ret b /\ (b = true <-> name_in_zone img cl ls).
Proof. intros Hok. by apply name_exists_spec. Qed.

Definition ex_client : client_t := Client 0 (0, 0) None None.

Lemma name_exists_in_zone_correct_witness : name_in_zone ex_image ex_client (labels_of (str "b.o.")) /\ ~ name_in_zone ex_image ex_client (labels_of (str "20.o.")).
Proof.
  split.
  - destruct (name_exists_in_zone_correct ex_image ex_client (str "b.o.") (labels_of (str "b.o.")) (proj1 ex_image_ok)) as (b & E & Hb); [apply canonical_textb_sound; vm_compute; reflexivity |].
    apply Hb. vm_compute in E. injection E as <-. reflexivity.
  - destruct (name_exists_in_zone_correct ex_image ex_client (str "20.o.") (labels_of (str "20.o.")) (proj1 ex_image_ok)) as (b & E & Hb); [apply canonical_textb_sound; vm_compute; reflexivity |].
    vm_compute in E. injection E as <-. intros H. apply Hb in H. discriminate.
Defined.

(** ** Denial *)

(** C11. The names of a proof of non-existence (RFC 5155 section 1.3): for a name
    below the apex, [find_closest_encloser] returns the longest name above it
    that exists, or the apex, and [find_next_closer_name] returns the name one
    label longer that leads to the name asked for. It returns none exactly when
    the encloser is the root and the text of the name has no final dot. *)
Theorem closest_encloser_correct (img : zone_image_t) (cl : client_t) (apex qname : list Z) (la lq : list (list Z)) :
  image_ok img -> canonical_text apex la -> canonical_text qname lq -> above la lq ->
  exists t le nc, find_closest_encloser img cl qname apex = Ret t /\ canonical_text t le /\ closest img cl la lq le /\
    find_next_closer_name qname t DNS_NAME_TEXT_SIZE = Ret nc /\ (nc = None <-> le = [] /\ qname <> expanded lq) /\
    forall n, nc = Some n -> exists l le', canonical_text n (l :: le') /\ lower le' = lower le /\ lower (l :: le') `suffix_of` lower lq.
Proof.
  intros Hok Ha Hq Hab. destruct (closest_encloser_spec img cl Hok apex la lq Ha qname Hq Hab) as (t & le & E & Ht & Hc). pose proof Hc as (Hs & Hle & _). exists t, le.
  destruct (decide (le <> [] \/ qname = expanded lq)) as [Hd | Hd].
  - destruct (next_closer_spec qname lq t le Hq Ht Hle Hd) as (n & l & le' & E' & H1 & H2 & H3). exists (Some n). split_and!; [done.. | |].
    + split; [done |]. intros [-> Hx]. by destruct Hd.
    + intros ? [= <-]. by exists l, le'.
  - apply Decidable.not_or in Hd as [He%dec_stable Hx]. subst le. exists None. split_and!; [done | done | done | | done | done]. apply (next_closer_none _ lq); [done | done | | done].
    intros ->. destruct Hle as [_ Hne]. done.
Qed.

Lemma closest_encloser_correct_witness :
  find_closest_encloser ex_image ex_client (str "x.y.b.o.") ex_apex = Ret (str "b.o.") /\ closest ex_image ex_client (labels_of ex_apex) (labels_of (str "x.y.b.o.")) (labels_of (str "b.o.")) /\
  find_next_closer_name (str "x.y.b.o.") (str "b.o.") DNS_NAME_TEXT_SIZE = Ret (Some (str "y.b.o")).
Proof.
  destruct (closest_encloser_correct ex_image ex_client ex_apex (str "x.y.b.o.") (labels_of ex_apex) (labels_of (str "x.y.b.o.")) (proj1 ex_image_ok))
    as (t & le & nc & E & Ht & Hc & E' & _).
  - apply canonical_textb_sound. vm_compute. reflexivity.
  - apply canonical_textb_sound. vm_compute. reflexivity.
  - split; [exists [str "x"; str "y"; str "b"]; vm_compute; reflexivity | vm_compute; discriminate].
  - assert (find_closest_encloser ex_image ex_client (str "x.y.b.o.") ex_apex = Ret (str "b.o.")) as F by (vm_compute; reflexivity).
    rewrite F in E. injection E as <-. rewrite (labels_of_text _ _ Ht). split; [exact F |]. split; [exact Hc |]. vm_compute. reflexivity.
Defined.

(** C12. In a zone whose NSEC records name each other in a ring,
    [find_covering_nsec] finds for every name the record that covers it (RFC
    4034 section 4.1.1): from its owner up to the next name, around the end of
    the zone for the last one. The owner is the name itself exactly when the
    name has an NSEC record. *)
Theorem find_covering_nsec_correct (img : zone_image_t) (name : list Z) (ls : list (list Z)) :
  image_ok img -> nsec_linked img -> im_nsec img <> [] -> canonical_text name ls ->
  exists rr lo ln, find_covering_nsec img name = Ret (Some rr) /\ rr_owner img rr lo /\ nsec_next img rr ln /\ covers lo ln ls /\
    (lower lo = lower ls <-> exists i rr' ls', nsec_at img i rr' ls' /\ lower ls' = lower ls).
Proof. intros Hok. by apply covering_nsec_spec. Qed.

Lemma find_covering_nsec_correct_witness : find_covering_nsec ex_image (str "c.o.") = Ret (Some 8) /\
  exists lo ln, rr_owner ex_image 8 lo /\ nsec_next ex_image 8 ln /\ covers lo ln (labels_of (str "c.o.")).
Proof.
  destruct (find_covering_nsec_correct ex_image (str "c.o.") (labels_of (str "c.o.")) (proj1 ex_image_ok) ex_nsec_linked) as (rr & lo & ln & E & Ho & Hn & Hc & _).
  - vm_compute. discriminate.
  - apply canonical_textb_sound. vm_compute. reflexivity.
  - assert (find_covering_nsec ex_image (str "c.o.") = Ret (Some 8)) as F by (vm_compute; reflexivity). rewrite F in E. injection E as <-. split; [exact F |]. exists lo, ln. split; [exact Ho |]. split; [exact Hn | exact Hc].
Defined.

(** C13. In an NSEC3 chain whose records name each other in a ring, for every
    hash either some record has it, and [find_matching_nsec3] returns the one
    below the apex if there is one, or [find_covering_nsec3] returns a record
    that covers it (RFC 5155 section 3.1.7); never both. *)
Theorem nsec3_match_or_cover (img : zone_image_t) (c : Z) (ch : zone_image_n3chain_t) (h apex : list Z) :
  image_ok img -> zone_image_n3chain img c = Ret ch -> nsec3_linked img c ch -> 0 < ch_count ch -> cstring h ->
  exists m v, find_matching_nsec3 img (Some c) h apex = Ret m /\ find_covering_nsec3 img (Some c) h = Ret v /\
    match m with
    | Some rr => exists i hash after, 0 <= i < ch_count ch /\ n3_at img c i rr hash after /\ map tolower hash = map tolower h /\ domain_names_match_ci after apex = true
    | None => forall i rr hash after, 0 <= i < ch_count ch -> n3_at img c i rr hash after -> map tolower hash = map tolower h -> domain_names_match_ci after apex = false
    end /\
    match v with
    | Some rr => exists i ho after nh x, 0 <= i < ch_count ch /\ n3_at img c i rr ho after /\ zone_image_nsec3 img rr = Ret x /\ dns_base32hex_encode (n3_next x) 512 = Ret nh /\
        covers_hash ho nh h /\ m = None
    | None => exists i rr hash after, 0 <= i < ch_count ch /\ n3_at img c i rr hash after /\ map tolower hash = map tolower h
    end.
Proof.
  intros Hok Hch Hl Hpos Hh. destruct (matching_nsec3_spec img Hok c ch Hch h apex) as (m & Em & Hm); [lia |].
  destruct (covering_nsec3_spec img Hok c ch Hch h Hl Hpos Hh) as (v & Ev & Hv). exists m, v. split_and!; [done | done | done |].
  destruct v as [rr |]; [| done]. destruct Hv as (i & ho & after & nh & x & Hi & Hn & Hx & He & Hc & Hno). exists i, ho, after, nh, x. split_and!; try done; [lia | lia |].
  destruct m as [rm |]; [| done]. destruct Hm as (j & hash & af & Hj & Hnj & Ej & _). by destruct (Hno j rm hash af Hj Hnj).
Qed.

Lemma nsec3_match_or_cover_witness :
  find_matching_nsec3 ex_image (Some 0) (str "G0") ex_apex = Ret (Some 11) /\ find_covering_nsec3 ex_image (Some 0) (str "a0") = Ret (Some 9) /\
  exists ho nh, covers_hash ho nh (str "a0").
Proof.
  destruct (nsec3_match_or_cover ex_image 0 ex_chain (str "a0") ex_apex (proj1 ex_image_ok)) as (m & v & _ & Ev & _ & Hv).
  - vm_compute. reflexivity.
  - exact ex_nsec3_linked.
  - reflexivity.
  - apply textb_sound. vm_compute. reflexivity.
  - assert (find_covering_nsec3 ex_image (Some 0) (str "a0") = Ret (Some 9)) as F by (vm_compute; reflexivity). rewrite F in Ev. injection Ev as <-.
    split; [vm_compute; reflexivity |]. split; [exact F |]. destruct Hv as (i & ho & after & nh & x & _ & _ & _ & _ & Hc & _). exists ho, nh. exact Hc.
Defined.

End ZoneProps.
